(* ===== verification/_CoqProject ===== *)
-Q . S2P
Prelude.v
CString.v
Protocol.v
Config.v
MountTable.v
OS.v
SimKernel.v
Storage.v
Json.v
Util.v
Mounts.v
Walk.v
TaskQueue.v
Exports.v
Record.v
ModelClient.v
Lowerdir.v
Umount.v
Promote.v
Ownership.v
Whiteout.v
PostMount.v
Mount.v
Monitor.v
Wire.v
Broker.v
Shutdown.v
ClientArgs.v
Client.v
FormerClient.v
OvlOptions.v
OvlMount.v
OvlVfs.v
OvlHandle.v
OvlLogic.v
OvlSim.v
OvlLookup.v
OvlUnion.v
OvlLayers.v
OvlStack.v
OvlReaddir.v
OvlMerge.v
OvlIno.v
OvlDirFile.v
OvlDirCache.v
OvlStream.v
OvlWrite.v
OvlTemp.v
OvlInode.v
OvlCopyUp.v
OvlCreate.v
OvlRemove.v
OvlAttr.v
OvlWorkdir.v
OvlSuper.v
OvlFile.v
OvlHandlers.v
OvlExport.v
OvlExported.v
OvlWriteSim.v
OvlHandled.v
OvlSpare.v
OvlFileSafe.v
OvlFill.v
OvlMounted.v
OvlLower.v
OvlCopyLoop.v
OvlConnect.v
OvlFileRefs.v
OvlCopyData.v
OvlMountSim.v
OvlFileSim.v
OvlExportSim.v
OvlUnlink.v
