(* ===== verification/Prelude.v ===== *)
(** * Verification of the mrepo mount broker

    ** The program

    [mrepod] is a root daemon that mounts overlay file systems ("sandboxes")
    for unprivileged users; [mrepo] is the client that asks it to, over a UNIX
    socket.  A sandbox is an overlay mount of an upper directory below the
    "overlayroot" over a colon-separated list of lower directories, local ones
    or NFS exports that the daemon mounts itself, perhaps on a server chosen by
    an inference sidecar.  The daemon tracks its sandboxes in a table, exports
    them through [/etc/exports], writes a JSON record of each so that they can
    be recovered, and starts threads that promote, chown or whiteout trees, and
    one that monitors the mounts.  The file system is the repository's own
    copy of the kernel's overlay module, with an [override_creds] option that
    the daemon uses.  Paths of the daemon and the client below are relative to
    [src/mbroker/], those of the module to [src/utils/overlayfs/].

    ** How the program is modelled

    - A C string is a list of characters ([Prelude.cstr], with [lit] for
      literals); [CString] has the [<string.h>], [<ctype.h>] and [<stdio.h>]
      functions the code uses.  [fit n s] is what [snprintf] or a terminated
      [strncpy] leaves in a buffer of [n] bytes, and every buffer of the code
      has its size in the model.  Integers are [Z] with their wrap-around
      written out ([to_int32], [to_uint32], [to_uint64]).
    - System calls, effects of the C library and thread creation are not code
      of the repository.  [OS.syscall] is the type of the calls; an [OS.Kernel]
      answers each of them in any way it likes from a world of its own, so a
      theorem without a kernel hypothesis holds for every behaviour of the
      system, other processes included.  The few laws that some theorems need
      are type classes named after what they say: [OS.ErrnoPositive],
      [Mounts.MountStore] (a readable mount table), [Storage.HealthyStore]
      (files keep what is written), [Exports.UuidgenWorks],
      [Record.StrftimePlain], [ModelClient.StreamPeer],
      [ModelClient.SocketNonneg], [ClientArgs.IdsInRange]; [Json.Jansson] and
      [Json.JanssonReads] are the JSON library and what it accepts.
      [SimKernel] and [Json.tree_jansson] are concrete instances: they show
      that the laws can hold and run the code in the examples.
    - A function of the daemon is a state transformer in the monad [OS.M] over
      [OS.dstate]: the world, [errno], the calls made so far ([trace]), and the
      static variables [tracked] (mountinfo.c), [cfg] (daemon_config.c), [fd]
      (locks.c) and [orig_ns] (namespace.c).  [sys] makes a call and stores its
      error in [errno]; an early [return] puts the rest of the body in the
      other branch; [goto err] is a function call.  [wp] is the weakest
      precondition, [respects R] says that a function only makes steps that [R]
      allows ([emits P]: the calls made satisfy [P]; [keeps f]: a part of the
      state is unchanged).  [log_write] has no effect here.
    - A recursive walk over directories is [Walk.walk]: its fuel is one more
      than the bytes left in a path buffer of 4096 bytes, and every descent
      makes the path longer, so the fuel never runs out ([Walk.walk_unfold]
      gives the recursive equation of the C text).  The option loop of the
      client has [argc] turns, which are enough ([tail_loop_enough]); the loop
      that reads a frame of [n] bytes has [n] turns.  The loops over queues,
      lists and lines are structural.
    - Threads: a started thread is a [PthreadCreate] call, and its start
      routine is a definition with theorems of its own.  Work queues
      ([TaskQueue]) are shared by workers: [pool_step] is the relation of all
      their interleavings, [worker_loop] the run of one worker.  The flags that
      signal handlers set ([broker_stopping], [monitor_running]) are inputs of
      the loops that read them.

    - The overlay module is kernel code.  The file systems below it, the VFS
      and the library functions are type classes ([OvlVfs.Vfs], [OvlVfs]'s
      pointers are addresses, [NULL] is [None]), and the laws that theorems
      need are classes named after what they say ([ExportLaws], [WriteLaws],
      [TreeLaws], [MountLaws], [PathLaws], [RbLaws], [ParserLaws], [UpperLaws], [ErrorLaws], [DataLaws], [NameLaws],
      [FileLaws], [AliasLaws], [DcacheLaws]);
      [OvlSim.sim_vfs] is an
      instance on which the examples run.  A function of the module gives an
      error or a value and a new state ([OvlVfs.V]: the world below, the super
      block, the overlay's dentries and inodes, and whether a [WARN_ON] has
      fired); setting up the lower layers, where nothing below changes, threads a state of its own
      ([OvlLayers.mount_fs]).  Locks, credentials and memory release are left
      out, and so are reference counts except those of directory caches and of
      open files; a failing allocation is a value of the kernel.
      The loops over a redirect path and over the layers have fuel: the bytes
      of the path and the layers left ([ovl_lookup_layer_on_rails] and
      [lookup_layers_fuel] show that it is enough); the walk to the root of a
      file system has the depth of the tree as fuel.
      The functions that change files have one more layer of state
      ([OvlWrite.wstate]) and a monad [U] of their own; a change of a layer is
      a value of [wcall] that the kernel answers as it likes.  Copying the data
      of [n] bytes has [n + 1] turns, as every turn copies or skips a byte, and
      the loop over the directories as many as there are dentries
      ([copy_up_terminates]).  The walks of export.c are as long as a directory
      is deep ([ovl_lookup_real_connects]), those in the overlay as there are
      dentries ([ovl_connect_layer_ends]).  Open files, real files, requests and mappings
      are tables of a state that contains the super block ([OvlFile.fstate],
      monad [F]); a request that is still running is an entry of a table, and
      its completion an operation of its own that may come at any moment.

    ** Files

    - [CString], [Protocol] (include/protocol.h), [Config]
      (daemon/daemon_config.c), [MountTable] (the table of daemon/mountinfo.c
      and its interface [MountTracker]), [OS], [SimKernel], [Storage] and
      [Mounts] (kernel laws with their reasoning rules), [Json] (the JSON
      library's interface and a reader), [Util] (daemon/util.c, locks.c,
      namespace.c, fault.c and the rest of mountinfo.c), [Walk], [TaskQueue]
      (include/task_queue.h and the worker pools).
    - Mounting: [Exports] ([/etc/exports]: the first part of mount_ops.c and
      [remove_overlay_export]), [Record] (mountinfo.json), [ModelClient]
      (daemon/model_client.c), [Lowerdir] ([handle_custom_lowerdir]),
      [Mount] ([mount_sandbox], [restore_mounts]), [Umount]
      (daemon/umount_ops.c).
    - Background work: [Promote] (promote.c), [Ownership] (ownership.c),
      [Whiteout] and [PostMount] (post_mount.c), [Monitor] (monitor.c).
    - Front: [Wire] (the messages as bytes), [Broker] (broker.c, main.c),
      [Shutdown] ([broker_run] against [broker_stop], logger.c),
      [ClientArgs] and [Client] (client/main.c, cli_util.c, mount_util.c),
      [FormerClient] (client/mrepo.c, the one file they were divided from).

    - The overlay module: [OvlOptions] (super.c: the mount options),
      [OvlMount] (the options that the daemon passes, through that parser),
      [OvlVfs] (objects, util.c), [OvlHandle] (file handles, origin and index:
      namei.c, copy_up.c, inode.c), [OvlLogic] (rules for functions that leave
      the files alone), [OvlSim] (a kernel for examples), [OvlLookup] (namei.c:
      [ovl_lookup]), [OvlUnion] (the reference lookup), [OvlLayers] (super.c:
      the layers of a mount), [OvlStack] (what mounting guarantees to the
      lookups), [OvlReaddir] (readdir.c: collecting a merged directory),
      [OvlMerge] (the reference listing), [OvlIno] (inode.c: inode numbers,
      attributes, permission), [OvlDirFile] (readdir.c: open directories and
      their caches), [OvlDirCache] and [OvlStream] (what readers rely on).
    - Changes: [OvlWrite] (the calls that change a layer, the state and the
      monad of the functions that make them), [OvlTemp] (dir.c: temporary
      files and whiteouts), [OvlInode] (inode.c: the inodes of the overlay),
      [OvlCopyUp] (copy_up.c), [OvlCreate] and [OvlRemove] (dir.c and the part
      of util.c that counts links), [OvlAttr] (inode.c: attributes),
      [OvlWorkdir] (readdir.c, super.c: cleaning and making work directories),
      [OvlSuper] (super.c: [ovl_fill_super], what it takes and gives back),
      [OvlWriteSim] (a file system for examples), [OvlSpare] (which files a
      function may change, and how the overlay's objects may grow), and the
      theorems: [OvlLower], [OvlCopyLoop], [OvlCopyData], [OvlUnlink], and
      [OvlFill], [OvlMounted], [OvlMountSim] on mounting.
    - Open files: [OvlFile] (file.c and the real files of directories),
      [OvlFileSafe] (what their operations may change), [OvlFileRefs] (how they
      count references), [OvlFileSim] (runs of them).
    - [OvlHandlers] and [OvlHandled]: what the VFS calls on dentries and
      attributes (super.c, inode.c), and what it gets.
    - NFS export: [OvlExport] (export.c), [OvlExported] (handles), [OvlConnect]
      (looking up a decoded directory), [OvlExportSim] (runs of them).

    ** What the theorems show

    - Mounting is all or nothing, and destroying releases what was mounted;
      only root and the owner of a mount point can destroy it
      ([mount_sandbox_all_or_nothing], [handle_custom_lowerdir_undo],
      [umount_sandbox_outcome], [umount_sandbox_denied]).
    - The tracking table refines a finite map ([table_implements_tracker]).
    - Background work stays within its tree and changes only what it should:
      removal, promotion, ownership, whiteouts, post-mount chown (the theorems
      named [..._confined]); pools process every task exactly once and stop.
    - Round trips: exports, mount records, messages, configuration lists.
    - Input from clients, the sidecar and the file system stays within its
      bounds, errors are answered with an explanation, and nothing leaks.
    - The client accepts what it should, sends what it accepted, runs no
      command built from an unchecked volume name, and its exit status means
      what it says.  The former client accepts the same command lines
      ([former_arguments_agree]) but for [--no-override-uid], which it obeys
      ([former_obeys_no_override]).
    - A signal ends the broker within nine steps ([broker_stop_ends]), unless
      it comes before [broker_run] clears the flag ([early_signal_lost]); a
      closed socket ends the loop ([broker_socket_closed]); the monitor returns
      within two steps ([monitor_stop_returns]); the log is the messages
      ([log_messages_exact]).

    - Mounting the overlay: the options parser gives well-formed
      configurations or its documented errors, quoted paths pass through it,
      and it reads back the options that the daemon writes
      ([daemon_options_parsed]); the layers are numbered in order, their file
      systems are told apart, none is inside another, and the features that
      stay on are supported ([OvlStack]).  A mount that succeeds is the
      well-formed overlay that the lookups assume
      ([mounted_overlay_well_formed]); one that fails leaves no directory
      marked as in use, unmounting takes back exactly the marks that mounting
      added ([in_use_marks_given_back]), and overlays with an index never
      share a directory that they write to ([indexed_overlays_apart]).
    - A lookup is the union of the layers ([ovl_lookup_union]), its stack is in
      order and fits the array; a merged directory lists exactly the names
      that a lookup finds ([readdir_lookup_agree]); a directory is empty when
      only whiteouts are left.
    - Whatever is created, linked, removed, moved, changed or opened for
      writing, with whatever errors on the way, the lower layers stay as they
      are ([lower_layers_never_change]); copying up ends with the file in its
      place ([copy_up_terminates]) and with the data of the lower one
      ([copy_up_data_exact]); what is removed is not found by the next lookup
      ([unlinked_name_is_gone]).
    - Open files: no history of operations on them changes a lower layer
      ([open_files_spare_lower]), each operation works on the real file that
      has the data now ([real_file_is_current]), and references to real files
      are counted right, exactly with synchronous requests
      ([real_files_counted]).
    - File handles and the names of index entries decode to what they encode
      ([OvlHandle]); a stored origin accepts one file only.  A handle that the
      overlay exports fits the caller's buffer ([ovl_encode_fh_fits]) and leads
      back to the inode that it was made for, through a copy up
      ([export_roundtrip]); looking up a decoded directory ends with the dentry
      of that directory ([ovl_lookup_real_connects]).
    - Private attributes are out of reach of all requests
      ([private_xattrs_out_of_reach]); revalidation asks for what is needed
      ([unasked_is_valid]), [ovl_d_real] finds the file with the data.
    - Device and inode number identify a file, agree between [stat], the
      inode and [readdir], and survive a copy up ([OvlIno]); private
      attributes are never listed.
    - Open directories: in every interleaving of opening, reading, seeking,
      closing and changing, the reference counts of the caches are exact
      ([ovl_dir_cache_refcounts]), and a reader gets a snapshot of the listing
      that was current when it started ([ovl_dir_stream_snapshot]), from any
      position that it was given ([ovl_dir_seek_resumes]), to its end
      ([ovl_dir_read_to_end]).

    Behaviour that deviates from the intent of the code is recorded in
    examples next to the definitions: [forged_uid_destroys],
    [mount_sandbox_stale_errno], [restore_mounts_overflow],
    [chown_run_shallow_file], [whiteout_queued], [no_override_uid_ignored],
    [prebuild_name_truncated], [client_eof_success], [socket_closed_twice],
    [comma_in_path_injects], [uuid_conflict_order], [aio_forgets_reference].

    ** What is not modelled

    The calls of [log_write] inside other functions, what the kernel does with
    an interrupted call, memory release, the vendored headers of the JSON
    library, the inference sidecar (model/, Python), scripts and tests.  Of the overlay
    module: locks that always succeed, credentials, the reference counts of
    dentries and inodes, and freeing inodes. *)
From stdpp Require Export base tactics list strings gmap pretty.
From Stdlib Require Export ZArith Lia Ascii.

(** ** Scopes and notations *)

Declare Scope daemon_scope.
Delimit Scope daemon_scope with daemon.

(** A C string: the bytes before the terminating NUL. *)
Abbreviation cstr := (list ascii).

(** C string literals. *)
Definition lit (s : string) : cstr := String.list_ascii_of_string s.
Arguments lit s%_string.

(** ** Boolean and arithmetic helpers *)

#[export] Instance ascii_eq_dec : EqDecision ascii := ascii_dec.

Definition str_eqb (a b : cstr) : bool := bool_decide (a = b).

Lemma str_eqb_eq a b : str_eqb a b = true ↔ a = b.
Proof. apply bool_decide_eq_true. Qed.

Lemma str_eqb_neq a b : str_eqb a b = false ↔ a ≠ b.
Proof. apply bool_decide_eq_false. Qed.

Lemma str_eqb_refl a : str_eqb a a = true.
Proof. by apply str_eqb_eq. Qed.


Create Rewrite HintDb cstr.
#[export] Hint Rewrite str_eqb_refl @length_app @length_take @length_nil @length_cons : cstr.

(** ** Tactics *)

(** Case analysis on every [if] and [match] of the goal, remembering what was learnt. *)
Ltac case_all :=
  repeat match goal with
  | |- context [if ?b then _ else _] => let E := fresh "E" in destruct b eqn:E
  | |- context [match ?x with _ => _ end] => let E := fresh "E" in destruct x eqn:E
  end.

(** Turns boolean facts about strings and integers into propositions. *)
Ltac to_prop :=
  repeat match goal with
  | H : str_eqb _ _ = true |- _ => apply str_eqb_eq in H
  | H : str_eqb _ _ = false |- _ => apply str_eqb_neq in H
  | H : bool_decide _ = true |- _ => apply bool_decide_eq_true in H
  | H : bool_decide _ = false |- _ => apply bool_decide_eq_false in H
  | H : negb _ = true |- _ => apply negb_true_iff in H
  | H : negb _ = false |- _ => apply negb_false_iff in H
  | H : andb _ _ = true |- _ => apply andb_true_iff in H as [? ?]
  | H : orb _ _ = false |- _ => apply orb_false_iff in H as [? ?]
  | H : (_ =? _)%Z = true |- _ => apply Z.eqb_eq in H
  | H : (_ =? _)%Z = false |- _ => apply Z.eqb_neq in H
  | H : (_ <? _)%Z = true |- _ => apply Z.ltb_lt in H
  | H : (_ <? _)%Z = false |- _ => apply Z.ltb_ge in H
  | H : (_ <=? _)%Z = true |- _ => apply Z.leb_le in H
  | H : (_ <=? _)%Z = false |- _ => apply Z.leb_gt in H
  end.

(** ** Lists *)

Section lists.
Context {A : Type}.
Implicit Types l : list A.

(** Joining with a separator: the inverse of splitting. *)
Fixpoint join (sep : list A) (ls : list (list A)) : list A :=
  match ls with
  | [] => []
  | [l] => l
  | l :: ls' => l ++ sep ++ join sep ls'
  end.

Lemma join_cons sep l ls : ls ≠ [] → join sep (l :: ls) = l ++ sep ++ join sep ls.
Proof. by destruct ls. Qed.

Lemma take_length_le (n : nat) l : length (take n l) ≤ n.
Proof. rewrite length_take. lia. Qed.

Lemma Forall_take_le (P : A → Prop) n l : Forall P l → Forall P (take n l).
Proof. apply Forall_take. Qed.

Lemma existsb_Exists (f : A → bool) l : existsb f l = true ↔ ∃ x, x ∈ l ∧ f x = true.
Proof.
  rewrite existsb_exists. by setoid_rewrite list_elem_of_In.
Qed.
End lists.

(** ** Machine integers *)

Section machine_integers.
Open Scope Z_scope.

(** Conversion to a 32-bit two's complement [int]. *)
Definition to_int32 (z : Z) : Z :=
  let u := z mod 2 ^ 32 in if u <? 2 ^ 31 then u else u - 2 ^ 32.
(** Conversion to a 32-bit unsigned integer ([uid_t], [gid_t], [uint32_t]). *)
Definition to_uint32 (z : Z) : Z := z mod 2 ^ 32.
(** Conversion to a 64-bit unsigned integer ([size_t], [unsigned long]). *)
Definition to_uint64 (z : Z) : Z := z mod 2 ^ 64.

Lemma to_int32_range z : - 2 ^ 31 <= to_int32 z < 2 ^ 31.
Proof.
  unfold to_int32. pose proof (Z.mod_pos_bound z (2 ^ 32) ltac:(lia)).
  destruct (Z.ltb_spec (z mod 2 ^ 32) (2 ^ 31)); lia.
Qed.

Lemma to_int32_id z : - 2 ^ 31 <= z < 2 ^ 31 → to_int32 z = z.
Proof.
  intros H. unfold to_int32. destruct (decide (0 <= z)).
  - rewrite Z.mod_small by lia. destruct (Z.ltb_spec z (2 ^ 31)); lia.
  - replace (z mod 2 ^ 32) with (z + 2 ^ 32).
    + destruct (Z.ltb_spec (z + 2 ^ 32) (2 ^ 31)); lia.
    + apply Z.mod_unique with (-1); lia.
Qed.

Lemma to_uint32_int32 z : to_uint32 (to_int32 z) = to_uint32 z.
Proof.
  unfold to_uint32, to_int32.
  destruct (Z.ltb_spec (z mod 2 ^ 32) (2 ^ 31)).
  - by rewrite Z.mod_mod by lia.
  - replace (z mod 2 ^ 32 - 2 ^ 32) with (z mod 2 ^ 32 + (-1) * 2 ^ 32) by lia.
    rewrite Z.mod_add by lia. by rewrite Z.mod_mod by lia.
Qed.

Lemma to_uint64_range z : 0 <= to_uint64 z < 2 ^ 64.
Proof. apply Z.mod_pos_bound. lia. Qed.
End machine_integers.
