(* ===== verification/CString.v ===== *)
(** * The C library functions on strings that the program uses

    A C string is the list of its bytes before the NUL; a [char] array of
    size [n] that holds one is described by its content, of length at most
    [n - 1].  Every function below follows the ISO C / POSIX text in the C
    locale, which is what both binaries run in (neither calls [setlocale]). *)
From S2P Require Import Prelude.
Open Scope Z_scope.

(** ** Characters *)

Definition code (c : ascii) : Z := Z.of_N (N_of_ascii c).
(** The low byte of an integer, as a [char]. *)
Definition byte_of (z : Z) : ascii := ascii_of_N (Z.to_N (z mod 256)).
Definition NUL : ascii := ascii_of_nat 0.
Definition TAB : ascii := ascii_of_nat 9.
Definition LF : ascii := ascii_of_nat 10.
Definition CR : ascii := ascii_of_nat 13.
Definition QUOTE : ascii := ascii_of_nat 34.
Definition BSLASH : ascii := ascii_of_nat 92.
Definition char_eqb (a b : ascii) : bool := bool_decide (a = b).

Definition isspace (c : ascii) : bool := (code c =? 32) || ((9 <=? code c) && (code c <=? 13)).
Definition isdigit (c : ascii) : bool := (48 <=? code c) && (code c <=? 57).
Definition isalpha (c : ascii) : bool :=
  ((65 <=? code c) && (code c <=? 90)) || ((97 <=? code c) && (code c <=? 122)).
Definition isalnum (c : ascii) : bool := isalpha c || isdigit c.

(** ** Buffers *)

Definition slen (s : cstr) : Z := Z.of_nat (length s).

(** The string held by a [char buf[n]] after [snprintf(buf, n, "%s", s)] or
    after [strncpy(buf, s, n - 1); buf[n - 1] = 0]. *)
Definition fit (n : Z) (s : cstr) : cstr := take (Z.to_nat (n - 1)) s.

Fixpoint take_while {A} (p : A → bool) (l : list A) : list A :=
  match l with [] => [] | x :: l' => if p x then x :: take_while p l' else [] end.
Fixpoint drop_while {A} (p : A → bool) (l : list A) : list A :=
  match l with [] => [] | x :: l' => if p x then drop_while p l' else l end.

(** The string that a raw byte array holds: its bytes up to the first NUL. *)
Definition c_str (buf : list ascii) : cstr := take_while (λ c, negb (char_eqb c NUL)) buf.
Definition no_nul (s : cstr) : Prop := NUL ∉ s.

(** First byte test: [s[0] == c] and [s[0] != 0]. *)
Definition starts_with (c : ascii) (s : cstr) : bool :=
  match s with [] => false | x :: _ => char_eqb x c end.
Definition nonempty (s : cstr) : bool := match s with [] => false | _ => true end.
Definition is_absolute (s : cstr) : bool := starts_with "/" s.

(** ** Searching *)

(** [strncmp(s, p, strlen(p)) == 0]. *)
Fixpoint prefixb (p s : cstr) : bool :=
  match p, s with
  | [], _ => true
  | a :: p', b :: s' => char_eqb a b && prefixb p' s'
  | _ :: _, [] => false
  end.

(** [strstr(s, needle) != NULL]. *)
Fixpoint strstr (s needle : cstr) : bool :=
  prefixb needle s || match s with [] => false | _ :: s' => strstr s' needle end.

(** [strchr(s, c)]: what precedes and what follows the first [c]. *)
Fixpoint strchr (s : cstr) (c : ascii) : option (cstr * cstr) :=
  match s with
  | [] => None
  | x :: s' =>
    if char_eqb x c then Some ([], s')
    else match strchr s' c with
         | Some (a, b) => Some (x :: a, b)
         | None => None
         end
  end.

(** [strpbrk(s, accept) != NULL]. *)
Definition strpbrk (s accept : cstr) : bool :=
  existsb (λ c, existsb (char_eqb c) accept) s.

(** ** Tokenising *)

(** All the fields of [s] between occurrences of [d], empty ones included:
    the successive results of [strsep]. *)
Fixpoint split_on (d : ascii) (s : cstr) : list cstr :=
  match s with
  | [] => [[]]
  | c :: s' =>
    if char_eqb c d then [] :: split_on d s'
    else match split_on d s' with
         | f :: fs => (c :: f) :: fs
         | [] => [[c]]
         end
  end.

(** One call of [strtok_r] with a single delimiter: the token and the saved
    pointer, or [None] when only delimiters remain. *)
Definition strtok_r (d : ascii) (s : cstr) : option (cstr * cstr) :=
  match drop_while (λ c, char_eqb c d) s with
  | [] => None
  | t => Some (take_while (λ c, negb (char_eqb c d)) t,
               drop 1 (drop_while (λ c, negb (char_eqb c d)) t))
  end.

(** The successive tokens of [strtok_r]: the non-empty fields. *)
Definition strtok_all (d : ascii) (s : cstr) : list cstr := List.filter nonempty (split_on d s).

(** ** Conversions *)

(** [%d] and friends. *)
Definition dec (z : Z) : cstr := lit (pretty z).

Fixpoint digits_value (acc : Z) (s : cstr) : Z :=
  match s with
  | c :: s' => if isdigit c then digits_value (acc * 10 + (code c - 48)) s' else acc
  | [] => acc
  end.

(** [atoi], that is [(int) strtol(s, NULL, 10)] with [strtol]'s clamping. *)
Definition atoi (s : cstr) : Z :=
  let clamp z := Z.max (- 2 ^ 63) (Z.min (2 ^ 63 - 1) z) in
  let t := drop_while isspace s in
  to_int32 (clamp
    (if starts_with "-" t then - digits_value 0 (drop 1 t)
     else if starts_with "+" t then digits_value 0 (drop 1 t)
     else digits_value 0 t)).

(** ** Paths *)

Definition rstrip (p : ascii → bool) (s : cstr) : cstr := reverse (drop_while p (reverse s)).

(** POSIX [basename] (from libgen.h). *)
Definition basename (s : cstr) : cstr :=
  match s with
  | [] => lit "."
  | _ =>
    match rstrip (char_eqb "/") s with
    | [] => lit "/"
    | t => reverse (take_while (λ c, negb (char_eqb "/" c)) (reverse t))
    end
  end.

(** ** Line input *)

(** The successive results of [fgets(line, n, f)] on a file with content
    [s]: each stops after a newline or when [n - 1] bytes have been read. *)
Fixpoint fgets_go (n room : nat) (acc : list ascii) (s : list ascii) : list (list ascii) :=
  match s with
  | [] => match acc with [] => [] | _ => [reverse acc] end
  | c :: s' =>
    if char_eqb c LF then reverse (c :: acc) :: fgets_go n n [] s'
    else match room with
         | S (S r) => fgets_go n (S r) (c :: acc) s'
         | _ => reverse (c :: acc) :: fgets_go n n [] s'
         end
  end.
Definition fgets_lines (n : Z) (s : list ascii) : list (list ascii) :=
  fgets_go (Z.to_nat (n - 1)) (Z.to_nat (n - 1)) [] s.

(** * Lemmas *)

Lemma char_eqb_eq a b : char_eqb a b = true ↔ a = b.
Proof. apply bool_decide_eq_true. Qed.
Lemma char_eqb_neq a b : char_eqb a b = false ↔ a ≠ b.
Proof. apply bool_decide_eq_false. Qed.
Lemma char_eqb_refl a : char_eqb a a = true.
Proof. by apply char_eqb_eq. Qed.
#[export] Hint Rewrite char_eqb_refl : cstr.

(** Case analysis on a character comparison. *)
Ltac case_char a b :=
  let E := fresh "E" in
  destruct (char_eqb a b) eqn:E;
  [apply char_eqb_eq in E; try subst | apply char_eqb_neq in E].

Lemma code_byte_of z : code (byte_of z) = z mod 256.
Proof.
  unfold code, byte_of. pose proof (Z.mod_pos_bound z 256 ltac:(lia)).
  rewrite N_ascii_embedding by lia. lia.
Qed.

Lemma fit_le n s : 1 <= n → slen (fit n s) <= n - 1.
Proof. unfold slen, fit. intros. rewrite length_take. lia. Qed.

Lemma fit_id n s : slen s < n → fit n s = s.
Proof. unfold slen, fit. intros. apply take_ge. lia. Qed.

Lemma fit_fit n m s : n <= m → fit n (fit m s) = fit n s.
Proof. intros. unfold fit. rewrite take_take. f_equal. lia. Qed.

Lemma fit_prefix n s : fit n s `prefix_of` s.
Proof. exists (drop (Z.to_nat (n - 1)) s). unfold fit. by rewrite take_drop. Qed.

Lemma fit_nil n : fit n [] = [].
Proof. unfold fit. apply take_nil. Qed.

Lemma slen_nonneg s : 0 <= slen s.
Proof. unfold slen. lia. Qed.
Lemma slen_app a b : slen (a ++ b) = slen a + slen b.
Proof. unfold slen. rewrite length_app. lia. Qed.
Lemma slen_cons c s : slen (c :: s) = 1 + slen s.
Proof. unfold slen. rewrite length_cons. lia. Qed.
#[export] Hint Rewrite slen_app slen_cons : cstr.

Lemma slen_zero s : slen s = 0 ↔ s = [].
Proof. destruct s; [done|]. rewrite slen_cons. pose proof (slen_nonneg s). split; [lia|done]. Qed.

(** *** [take_while] and [drop_while] *)

Section while.
Context {A : Type} (p : A → bool).

Lemma take_drop_while l : take_while p l ++ drop_while p l = l.
Proof. induction l as [|x l IH]; simpl; [done|]. destruct (p x); simpl; congruence. Qed.

Lemma take_while_all l : forallb p (take_while p l) = true.
Proof. induction l as [|x l IH]; simpl; [done|]. destruct (p x) eqn:E; simpl; [by rewrite E|done]. Qed.

Lemma take_while_id l : forallb p l = true → take_while p l = l.
Proof.
  induction l as [|x l IH]; simpl; [done|]. rewrite andb_true_iff.
  intros [-> H]. by rewrite IH.
Qed.

Lemma take_while_app_stop l x l' :
  forallb p l = true → p x = false → take_while p (l ++ x :: l') = l.
Proof.
  induction l as [|y l IH]; simpl; intros H Hx; [by rewrite Hx|].
  apply andb_true_iff in H as [-> H]. by rewrite IH.
Qed.

Lemma drop_while_app_stop l x l' :
  forallb p l = true → p x = false → drop_while p (l ++ x :: l') = x :: l'.
Proof.
  induction l as [|y l IH]; simpl; intros H Hx; [by rewrite Hx|].
  apply andb_true_iff in H as [-> H]. by rewrite IH.
Qed.

Lemma drop_while_all l : forallb p l = true → drop_while p l = [].
Proof. induction l as [|x l IH]; simpl; [done|]. rewrite andb_true_iff. intros [-> H]. auto. Qed.

Lemma drop_while_head l x l' : drop_while p l = x :: l' → p x = false.
Proof.
  induction l as [|y l IH]; simpl; [done|].
  destruct (p y) eqn:E; [auto|]. by intros [= -> ->].
Qed.

Lemma drop_while_id l x : p x = false → drop_while p (x :: l) = x :: l.
Proof. simpl. by intros ->. Qed.

Lemma drop_while_suffix l : drop_while p l `suffix_of` l.
Proof.
  induction l as [|x l IH]; simpl; [done|].
  destruct (p x); [by apply suffix_cons_r|done].
Qed.
End while.

Lemma no_nul_c_str s : no_nul s → c_str s = s.
Proof.
  intros H. apply take_while_id. apply forallb_forall. intros c Hc.
  apply negb_true_iff, char_eqb_neq. intros ->. by apply H, list_elem_of_In.
Qed.

Lemma c_str_length s : (length (c_str s) <= length s)%nat.
Proof. unfold c_str. induction s as [|c s IH]; [done|]. cbn. destruct (negb _); cbn; lia. Qed.

Lemma c_str_no_nul s : no_nul (c_str s).
Proof.
  intros H. pose proof (take_while_all (λ c, negb (char_eqb c NUL)) s) as Hall.
  rewrite forallb_forall in Hall. apply list_elem_of_In, Hall in H.
  by rewrite char_eqb_refl in H.
Qed.

(** *** Prefixes and substrings *)

Lemma prefixb_spec p s : prefixb p s = true ↔ p `prefix_of` s.
Proof.
  revert s. induction p as [|a p IH]; intros [|b s]; simpl.
  - split; [intros _; apply prefix_nil|done].
  - split; [intros _; apply prefix_nil|done].
  - split; [done|]. by intros [k [=]].
  - rewrite andb_true_iff, char_eqb_eq, IH. split.
    + intros [-> H]. by apply prefix_cons.
    + intros H. split; [by eapply prefix_cons_inv_1|by eapply prefix_cons_inv_2].
Qed.

Lemma strstr_spec s n : strstr s n = true ↔ ∃ a b, s = a ++ n ++ b.
Proof.
  induction s as [|c s IH]; simpl; rewrite orb_true_iff, prefixb_spec.
  - split.
    + intros [[k Hk]|?]; [|done]. exists [], k. done.
    + intros (a & b & H). left. symmetry in H.
      apply app_eq_nil in H as [-> H]. exists b. done.
  - rewrite IH. split.
    + intros [[k Hk]|(a & b & ->)]; [by exists [], k|by exists (c :: a), b].
    + intros ([|x a] & b & H); [by left; exists b|].
      injection H as -> ->. right. by exists a, b.
Qed.

Lemma strstr_prefix s t n : s `prefix_of` t → strstr t n = false → strstr s n = false.
Proof.
  intros [k ->] H. destruct (strstr s n) eqn:E; [|done].
  apply strstr_spec in E as (a & b & ->).
  assert (strstr ((a ++ n ++ b) ++ k) n = true); [|congruence].
  apply strstr_spec. exists a, (b ++ k). by rewrite <- !app_assoc.
Qed.

Lemma strchr_Some s c a b : strchr s c = Some (a, b) ↔ s = a ++ c :: b ∧ c ∉ a.
Proof.
  revert a b. induction s as [|x s IH]; intros a b; simpl.
  { split; [done|]. intros [H _]. by destruct a. }
  case_char x c.
  { split.
    - intros [= <- <-]. split; [done|]. apply not_elem_of_nil.
    - intros [H Hn]. destruct a as [|y a]; [by injection H as ->|].
      injection H as -> ->. destruct Hn. constructor. }
  destruct (strchr s c) as [[a' b']|] eqn:Es.
  - assert (s = a' ++ c :: b' ∧ c ∉ a') as [-> Hn] by (by apply IH).
    split.
    + intros [= <- <-]. split; [done|]. by apply not_elem_of_cons.
    + intros [H Hn']. destruct a as [|y a]; [by injection H as ->|].
      injection H as -> H. apply not_elem_of_cons in Hn' as [_ Hn'].
      assert (Some (a', b') = Some (a, b)) as [= -> ->]; [|done].
      by apply IH.
  - split; [done|]. intros [H Hn]. destruct a as [|y a]; [by injection H as ->|].
    injection H as -> H. apply not_elem_of_cons in Hn as [_ Hn].
    assert (None = Some (a, b)); [|done]. by apply IH.
Qed.

Lemma strchr_None s c : strchr s c = None ↔ c ∉ s.
Proof.
  induction s as [|x s IH]; simpl.
  { split; [intros _; apply not_elem_of_nil|done]. }
  rewrite not_elem_of_cons. case_char x c.
  { split; [done|]. by intros [? ?]. }
  destruct (strchr s c) as [[a b]|].
  - split; [done|]. intros [_ H]. by apply IH in H.
  - split; [|done]. intros _. split; [congruence|]. by apply IH.
Qed.

(** *** Splitting *)

Lemma split_on_nonnil d s : split_on d s ≠ [].
Proof. destruct s as [|c s]; simpl; [done|]. case_char c d; [done|]. by destruct (split_on d s). Qed.

Lemma split_on_free d s : d ∉ s → split_on d s = [s].
Proof.
  induction s as [|c s IH]; simpl; [done|]. rewrite not_elem_of_cons. intros [Hc Hs].
  case_char c d; [done|]. by rewrite IH.
Qed.

Lemma split_on_app d a b : d ∉ a → split_on d (a ++ d :: b) = a :: split_on d b.
Proof.
  induction a as [|c a IH]; simpl; [by rewrite char_eqb_refl|].
  rewrite not_elem_of_cons. intros [Hc Ha]. case_char c d; [done|]. by rewrite IH.
Qed.

(** Splitting and joining are inverse. *)
Lemma join_split_on d s : join [d] (split_on d s) = s.
Proof.
  induction s as [|c s IH]; simpl; [done|]. case_char c d.
  - rewrite join_cons by apply split_on_nonnil. simpl. by rewrite IH.
  - pose proof (split_on_nonnil d s) as Hn.
    destruct (split_on d s) as [|f fs] eqn:Ef; [done|].
    destruct fs as [|g fs]; simpl in *; [by subst|].
    by rewrite <- IH.
Qed.

Lemma split_on_join d fs :
  fs ≠ [] → Forall (λ f, d ∉ f) fs → split_on d (join [d] fs) = fs.
Proof.
  intros Hn Hall. induction Hall as [|f fs Hf Hfs IH]; [done|].
  destruct fs as [|g fs]; [by apply split_on_free|].
  rewrite join_cons by done. cbn [app]. rewrite split_on_app by done. by rewrite IH.
Qed.

Lemma split_on_fields_free d s : Forall (λ f, d ∉ f) (split_on d s).
Proof.
  induction s as [|c s IH]; simpl; [repeat constructor; apply not_elem_of_nil|].
  case_char c d; [constructor; [apply not_elem_of_nil|done]|].
  destruct (split_on d s) as [|f fs]; [repeat constructor|].
  - apply not_elem_of_cons. split; [done|apply not_elem_of_nil].
  - apply Forall_cons in IH as [Hf Hfs]. constructor; [|done].
    by apply not_elem_of_cons.
Qed.

(** Every string is a delimiter-free field, possibly followed by the
    delimiter and the rest. *)
Lemma field_cases (d : ascii) (s : cstr) : d ∉ s ∨ ∃ a b, s = a ++ d :: b ∧ d ∉ a.
Proof.
  destruct (strchr s d) as [[a b]|] eqn:E.
  - right. apply strchr_Some in E as [-> ?]. eauto.
  - left. by apply strchr_None.
Qed.

Lemma strtok_all_app (d : ascii) (a b : cstr) :
  d ∉ a → strtok_all d (a ++ d :: b) = (if nonempty a then [a] else []) ++ strtok_all d b.
Proof.
  intros Ha. unfold strtok_all. rewrite split_on_app by done. simpl. by destruct (nonempty a).
Qed.

Lemma strtok_all_free (d : ascii) (s : cstr) : d ∉ s → strtok_all d s = if nonempty s then [s] else [].
Proof. intros Hs. unfold strtok_all. rewrite split_on_free by done. done. Qed.

Lemma not_elem_negb (d : ascii) (s : cstr) : d ∉ s → forallb (λ c, negb (char_eqb c d)) s = true.
Proof.
  intros H. apply forallb_forall. intros c Hc. apply negb_true_iff, char_eqb_neq.
  intros ->. by apply H, list_elem_of_In.
Qed.

(** The list of tokens is what repeated calls of [strtok_r] return. *)
Lemma strtok_all_strtok_r d s :
  strtok_all d s =
    match strtok_r d s with
    | None => []
    | Some (t, rest) => t :: strtok_all d rest
    end.
Proof.
  induction s as [|c s IH]; [done|]. unfold strtok_r in *. case_char c d.
  { change (d :: s) with ([] ++ d :: s) at 1.
    rewrite strtok_all_app by apply not_elem_of_nil.
    cbn [drop_while]. rewrite char_eqb_refl. apply IH. }
  rewrite (drop_while_id _ s c) by (by apply char_eqb_neq).
  destruct (field_cases d (c :: s)) as [Hf|(a & b & Hs & Ha)].
  - rewrite strtok_all_free by done.
    pose proof (not_elem_negb d (c :: s) Hf) as Hall.
    rewrite (take_while_id _ _ Hall), (drop_while_all _ _ Hall). done.
  - rewrite Hs, strtok_all_app by done.
    destruct a as [|x a]; [by injection Hs|].
    pose proof (not_elem_negb d (x :: a) Ha) as Hall.
    change ((x :: a) ++ d :: b) with (x :: (a ++ d :: b)). cbv iota beta.
    change (x :: (a ++ d :: b)) with ((x :: a) ++ d :: b).
    rewrite take_while_app_stop, drop_while_app_stop by (done || by rewrite char_eqb_refl).
    done.
Qed.

Lemma strtok_all_tokens d s : Forall (λ t, t ≠ [] ∧ d ∉ t) (strtok_all d s).
Proof.
  apply Forall_forall. intros t Ht. unfold strtok_all in Ht.
  apply list_elem_of_In, filter_In in Ht as [Hin Hne].
  split; [by intros ->|].
  pose proof (split_on_fields_free d s) as Hall. rewrite Forall_forall in Hall.
  by apply Hall, list_elem_of_In.
Qed.

Lemma strtok_all_join (d : ascii) (ts : list cstr) :
  Forall (λ t, t ≠ [] ∧ d ∉ t) ts → strtok_all d (join [d] ts) = ts.
Proof.
  intros H. destruct ts as [|t ts]; [done|].
  unfold strtok_all. rewrite split_on_join; [|done|].
  - clear -H. induction H as [|u us [Hu _] Hus IH]; [done|].
    simpl. destruct u; [done|]. simpl. by rewrite IH.
  - by eapply Forall_impl; [apply H|intros ? []].
Qed.

(** *** Line input *)

Lemma fgets_go_concat n room acc s : concat (fgets_go n room acc s) = reverse acc ++ s.
Proof.
  revert room acc. induction s as [|c s IH]; intros room acc; simpl.
  - destruct acc; simpl; [done|]. by rewrite app_nil_r.
  - assert (concat (reverse (c :: acc) :: fgets_go n n [] s) = reverse acc ++ c :: s) as Hflush.
    { simpl. rewrite IH, reverse_cons, reverse_nil, <- app_assoc. done. }
    case_char c LF; [done|].
    destruct room as [|[|r]]; [done..|].
    rewrite IH, reverse_cons, <- app_assoc. done.
Qed.

(** Nothing is lost or reordered by reading a file line by line. *)
Lemma fgets_lines_concat n s : concat (fgets_lines n s) = s.
Proof. unfold fgets_lines. by rewrite fgets_go_concat. Qed.

Lemma fgets_go_line n room acc (l s : cstr) :
  LF ∉ l → (length l < room)%nat →
  fgets_go n room acc (l ++ LF :: s) = (reverse acc ++ l ++ [LF]) :: fgets_go n n [] s.
Proof.
  revert room acc. induction l as [|c l IH]; intros room acc Hl Hr; simpl.
  - rewrite reverse_cons. done.
  - apply not_elem_of_cons in Hl as [Hc Hl]. case_char c LF; [done|].
    simpl in Hr. destruct room as [|[|r]]; [lia|lia|].
    rewrite IH by (done || lia). rewrite reverse_cons, <- app_assoc. done.
Qed.

(** A line that fits in the buffer is read in one call. *)
Lemma fgets_lines_cons n (l s : cstr) :
  LF ∉ l → slen l < n - 1 →
  fgets_lines n (l ++ LF :: s) = (l ++ [LF]) :: fgets_lines n s.
Proof.
  unfold slen. intros Hl Hn. unfold fgets_lines. rewrite fgets_go_line; [done|done|lia].
Qed.

(** *** Decimal numbers *)

Lemma digits_value_app acc a b :
  forallb isdigit a = true → digits_value acc (a ++ b) = digits_value (digits_value acc a) b.
Proof.
  revert acc. induction a as [|c a IH]; intros acc; simpl; [done|].
  rewrite andb_true_iff. intros [-> H]. by apply IH.
Qed.

Lemma pretty_digit (x : N) :
  isdigit (pretty_N_char (x `mod` 10)) = true ∧ code (pretty_N_char (x `mod` 10)) - 48 = Z.of_N (x `mod` 10).
Proof.
  assert (x `mod` 10 < 10)%N as H by (apply N.mod_upper_bound; lia).
  destruct (x `mod` 10)%N as [|p]; [done|].
  do 4 (destruct p as [p|p|]; [..|done]); try done; lia.
Qed.

Lemma pretty_N_go_digits (x : N) (s : string) :
  digits_value 0 (lit (pretty_N_go x s)) = digits_value (Z.of_N x) (lit s) ∧
  forallb isdigit (lit (pretty_N_go x s)) = forallb isdigit (lit s) ∧
  (length (lit s) ≤ length (lit (pretty_N_go x s)))%nat.
Proof.
  revert s. induction (N.lt_wf_0 x) as [x _ IH]; intros s.
  destruct (decide (x = 0%N)) as [->|Hx]; [done|].
  rewrite pretty_N_go_step by lia.
  destruct (IH (x `div` 10)%N ltac:(apply N.div_lt; lia) (String (pretty_N_char (x `mod` 10)) s)) as (H1 & H2 & H3).
  destruct (pretty_digit x) as [Hd Hc]. split_and!.
  - rewrite H1. simpl. rewrite Hd, Hc. f_equal.
    pose proof (N.div_mod x 10 ltac:(lia)). lia.
  - rewrite H2. simpl. by rewrite Hd.
  - simpl in H3. unfold lit in *. lia.
Qed.

Lemma dec_digits z :
  0 <= z → forallb isdigit (dec z) = true ∧ digits_value 0 (dec z) = z ∧ dec z ≠ [].
Proof.
  intros Hz. destruct z as [|p|p]; [done| |lia].
  destruct (pretty_N_go_digits (N.pos p `div` 10) (String (pretty_N_char (N.pos p `mod` 10)) "")) as (H1 & H2 & H3).
  destruct (pretty_digit (N.pos p)) as [Hd Hc].
  assert (dec (Z.pos p) = lit (pretty_N_go (N.pos p `div` 10) (String (pretty_N_char (N.pos p `mod` 10)) ""))) as ->.
  { unfold dec. f_equal. change (pretty (Z.pos p)) with (pretty_N_go (N.pos p) ""). by rewrite pretty_N_go_step. }
  split_and!.
  - rewrite H2. simpl. by rewrite Hd.
  - rewrite H1. simpl. rewrite Hd, Hc.
    pose proof (N.div_mod (N.pos p) 10 ltac:(lia)). lia.
  - simpl in H3. intros E. rewrite E in H3. simpl in H3. lia.
Qed.

Lemma dec_negative z : z < 0 → dec z = "-"%char :: dec (- z).
Proof. by destruct z. Qed.

(** A text file: its lines, each with its newline. *)
Definition text (ls : list cstr) : list ascii := concat (map (λ l, l ++ [LF]) ls).

Lemma fgets_lines_text n ls :
  Forall (λ l : cstr, (LF ∉ l) ∧ slen l < n - 1) ls → fgets_lines n (text ls) = map (λ l, l ++ [LF]) ls.
Proof.
  induction 1 as [|l ls [Hl Hn] _ IH]; [done|]. unfold text in *. simpl.
  rewrite <- app_assoc. simpl. rewrite fgets_lines_cons by done. by rewrite IH.
Qed.

(** ** Base names *)

(** The last component of a path that does not end with a slash. *)
Lemma basename_tail (x t : cstr) : "/"%char ∉ t → t ≠ [] → basename (x ++ "/"%char :: t) = t.
Proof.
  intros Ht Hne. assert (∃ c r, reverse t = c :: r) as (c & r & Er).
  { destruct (reverse t) as [|c r] eqn:E; [|eauto]. exfalso. apply Hne.
    apply (f_equal reverse) in E. by rewrite reverse_involutive in E. }
  assert (∀ d, d ∈ reverse t → d ≠ "/"%char) as Hd by (intros d Hd ->; rewrite elem_of_reverse in Hd; contradiction).
  assert (rstrip (char_eqb "/") (x ++ "/"%char :: t) = x ++ "/"%char :: t) as Hr.
  { unfold rstrip. rewrite reverse_app, reverse_cons, Er, <- app_assoc.
    rewrite <- app_comm_cons, drop_while_id, app_comm_cons, <- Er.
    - by rewrite <- reverse_singleton, !reverse_app, !reverse_involutive, <- app_assoc.
    - apply char_eqb_neq. intros <-. eapply (Hd "/"%char); [rewrite Er; left|done]. }
  unfold basename. rewrite Hr. destruct (x ++ "/"%char :: t) as [|a l] eqn:E; [by destruct x|].
  rewrite <- E, reverse_app, reverse_cons, <- app_assoc. simpl.
  rewrite take_while_app_stop; [apply reverse_involutive| |by rewrite char_eqb_refl].
  apply forallb_forall. intros d Hin%list_elem_of_In. apply negb_true_iff, char_eqb_neq. intros <-. by apply (Hd "/"%char).
Qed.

Lemma basename_slash_free (s : cstr) : basename s = lit "/" ∨ "/"%char ∉ basename s.
Proof.
  unfold basename. destruct s as [|a s]; [right; by apply (bool_decide_eq_true _); vm_compute|].
  destruct (rstrip _ _) as [|b t]; [by left|]. right. rewrite elem_of_reverse. intros Hin%list_elem_of_In.
  pose proof (take_while_all (λ c, negb (char_eqb "/" c)) (reverse (b :: t))) as H.
  rewrite forallb_forall in H. apply H in Hin. by rewrite char_eqb_refl in Hin.
Qed.

Example basename_1 : basename (lit "/b/workspace/sb1") = lit "sb1". Proof. reflexivity. Qed.
Example basename_2 : basename (lit "/b/sb1//") = lit "sb1". Proof. reflexivity. Qed.
Example basename_3 : basename (lit "//") = lit "/". Proof. reflexivity. Qed.
Example strtok_1 : strtok_all ":" (lit ":/a::host:/b") = [lit "/a"; lit "host"; lit "/b"].
Proof. reflexivity. Qed.
Example atoi_1 : atoi (lit " -12x") = -12. Proof. reflexivity. Qed.
Example dec_1 : dec (-120) = lit "-120". Proof. reflexivity. Qed.
