(* ===== verification/Protocol.v ===== *)
(** * The wire protocol and shared constants

    Models [mbroker/include/protocol.h] and [mbroker/include/mount_ops.h]: the
    command codes, the flag bits and the two structures that client and daemon
    exchange over the UNIX socket. *)
From S2P Require Import Prelude CString.
Open Scope Z_scope.

(** ** Commands and flags *)

Definition CMD_CREATE : Z := 1.
Definition CMD_DESTROY : Z := 2.
Definition CMD_REFRESH : Z := 4.
Definition CMD_SANDBOX_LIST : Z := 5.
Definition CMD_RECOVER : Z := 6.

Definition FLAG_LAZY : Z := 0x1.
Definition FLAG_FORCE : Z := 0x2.
Definition FLAG_PROMOTE_THREADS : Z := 0x4.
Definition FLAG_CHOWN_OWNER_THREAD : Z := 0x8.
Definition FLAG_OVERRIDE_UID : Z := 0x10.
Definition FLAG_CUSTOM_LOWERDIR : Z := 0x20.

Definition REPLY_DETAILS_MAX : Z := 16384.
Definition OVERLAY_SOCKET_PATH : cstr := lit "/run/mrepod".
Definition OVERLAY_SOCKET_FILE : cstr := lit "/run/mrepod/socket".
Definition BAAS_MOUNT_DIR : cstr := lit "/mnt/side-vols".

(** [flags & f] as a condition. *)
Definition has_flag (flags f : Z) : bool := negb (Z.land flags f =? 0).

(** ** Messages *)

(** The request as the daemon reads it: the [char] arrays are raw bytes sent
    by an untrusted client. *)
Record mount_request := MountRequest {
  req_cmd : Z;
  req_flags : Z;
  req_uid : Z;
  req_gid : Z;
  req_sandboxname : list ascii;
  req_lowerdir : list ascii;
  req_overlayroot : list ascii;
  req_baas_path : list ascii;
  req_prebuild_sb : list ascii
}.

(** The reply: its arrays are always filled by [snprintf]. *)
Record mount_reply := MountReply {
  rep_status : Z;
  rep_details : cstr;
  rep_baas_path : cstr;
  rep_prebuild_sb : cstr
}.

(** [buf[sizeof(buf) - 1] = 0], read back as a C string. *)
Definition terminate (n : Z) (buf : list ascii) : cstr :=
  c_str (take (Z.to_nat (n - 1)) buf ++ [NUL]).

Lemma terminate_bounded n buf : 1 <= n → slen (terminate n buf) <= n - 1 ∧ no_nul (terminate n buf).
Proof.
  intros Hn. split; [|apply c_str_no_nul].
  unfold terminate, c_str.
  set (l := take _ buf).
  assert (length l ≤ Z.to_nat (n - 1))%nat as Hl by (unfold l; rewrite length_take; lia).
  clearbody l. unfold slen.
  assert (length (take_while (λ c, negb (char_eqb c NUL)) (l ++ [NUL])) ≤ length l)%nat; [|lia].
  clear. induction l as [|c l IH]; simpl; [lia|]. destruct (negb _); simpl; lia.
Qed.
