(* ===== verification/Config.v ===== *)
(** * Daemon configuration

    Models [mbroker/daemon/daemon_config.c] and [daemon_config.h].  The static
    [cfg] is a [daemon_config] value threaded through the parser; each array
    with its count is the list of its first [count] entries.  [fopen] of the
    configuration file is an argument: [None] when it fails, the content of
    the file otherwise. *)
From S2P Require Import Prelude CString.
Open Scope Z_scope.

Definition MAX_POST_MOUNT_CHOWN_DIRS : Z := 32.
Definition MAX_POST_MOUNT_CHOWN_DIR_LEN : Z := 512.
Definition MAX_POST_MOUNT_WHITEOUT_DIRS : Z := 64.
Definition MAX_POST_MOUNT_WHITEOUT_DIR_LEN : Z := 512.
Definition MAX_NFS_SERVERS : Z := 16.
Definition MAX_NFS_SERVER_HOST_LEN : Z := 256.
Definition MREPOD_CONF_PATH : cstr := lit "/etc/mrepod/mrepod.conf".

Record daemon_config := DaemonConfig {
  overlayroot : cstr;
  post_mount_chown_dirs : list cstr;
  post_mount_whiteout_dirs : list cstr;
  ml_enabled : Z;
  model_socket : cstr;
  nfs_servers : list cstr
}.

Definition count {A} (l : list A) : Z := Z.of_nat (length l).
Definition post_mount_chown_dir_count (c : daemon_config) : Z := count (post_mount_chown_dirs c).
Definition post_mount_whiteout_dir_count (c : daemon_config) : Z := count (post_mount_whiteout_dirs c).
Definition nfs_server_count (c : daemon_config) : Z := count (nfs_servers c).

(** [memset(&cfg, 0, sizeof(cfg))]. *)
Definition zero_config : daemon_config := DaemonConfig [] [] [] 0 [] [].

Definition set_overlayroot (v : cstr) (c : daemon_config) : daemon_config :=
  DaemonConfig v (post_mount_chown_dirs c) (post_mount_whiteout_dirs c) (ml_enabled c) (model_socket c) (nfs_servers c).
Definition set_chown_dirs (v : list cstr) (c : daemon_config) : daemon_config :=
  DaemonConfig (overlayroot c) v (post_mount_whiteout_dirs c) (ml_enabled c) (model_socket c) (nfs_servers c).
Definition set_whiteout_dirs (v : list cstr) (c : daemon_config) : daemon_config :=
  DaemonConfig (overlayroot c) (post_mount_chown_dirs c) v (ml_enabled c) (model_socket c) (nfs_servers c).
Definition set_ml_enabled (v : Z) (c : daemon_config) : daemon_config :=
  DaemonConfig (overlayroot c) (post_mount_chown_dirs c) (post_mount_whiteout_dirs c) v (model_socket c) (nfs_servers c).
Definition set_model_socket (v : cstr) (c : daemon_config) : daemon_config :=
  DaemonConfig (overlayroot c) (post_mount_chown_dirs c) (post_mount_whiteout_dirs c) (ml_enabled c) v (nfs_servers c).
Definition set_nfs_servers (v : list cstr) (c : daemon_config) : daemon_config :=
  DaemonConfig (overlayroot c) (post_mount_chown_dirs c) (post_mount_whiteout_dirs c) (ml_enabled c) (model_socket c) v.

(** Strip leading and trailing white space. *)
Definition strip (s : cstr) : cstr := rstrip isspace (drop_while isspace s).

Definition is_valid_relative_dir (path : cstr) : bool :=
  if negb (nonempty path) then false
  else if is_absolute path then false
  else if strstr path (lit "..") then false
  else true.

Definition is_valid_relative_pattern (path : cstr) : bool :=
  if negb (nonempty path) then false
  else if is_absolute path then false
  else if strstr path (lit "..") then false
  else true.

(** The loop [while (tok && count < max)]: an item that [valid] refuses is
    skipped, the others are copied into the next [char[len]] slot. *)
Fixpoint parse_items (valid : cstr → bool) (max len : Z) (toks : list cstr) (acc : list cstr) : list cstr :=
  match toks with
  | [] => acc
  | tok :: toks' =>
    if count acc <? max then
      let item := strip tok in
      if valid item
      then parse_items valid max len toks' (acc ++ [fit len item])
      else parse_items valid max len toks' acc
    else acc
  end.

Definition parse_post_mount_chown_dirs (val : cstr) (c : daemon_config) : daemon_config :=
  if negb (nonempty val) then set_chown_dirs [] c
  else
    let buf := fit 4096 val in
    set_chown_dirs (parse_items is_valid_relative_dir MAX_POST_MOUNT_CHOWN_DIRS
                      MAX_POST_MOUNT_CHOWN_DIR_LEN (strtok_all "," buf) []) c.

Definition parse_post_mount_whiteout_dirs (val : cstr) (c : daemon_config) : daemon_config :=
  if negb (nonempty val) then set_whiteout_dirs [] c
  else
    let buf := fit 4096 val in
    set_whiteout_dirs (parse_items is_valid_relative_pattern MAX_POST_MOUNT_WHITEOUT_DIRS
                         MAX_POST_MOUNT_WHITEOUT_DIR_LEN (strtok_all "," buf) []) c.

Definition parse_nfs_servers (val : cstr) (c : daemon_config) : daemon_config :=
  let sbuf := fit 4096 val in
  set_nfs_servers (parse_items nonempty MAX_NFS_SERVERS MAX_NFS_SERVER_HOST_LEN
                     (strtok_all "," sbuf) []) c.

(** The assignment of one [key = value] line. *)
Definition config_assign (key val : cstr) (c : daemon_config) : daemon_config :=
  if str_eqb key (lit "overlayroot") then set_overlayroot (fit 2048 val) c
  else if str_eqb key (lit "post_mount_chown_dirs") then parse_post_mount_chown_dirs val c
  else if str_eqb key (lit "post_mount_whiteout_dirs") then parse_post_mount_whiteout_dirs val c
  else if str_eqb key (lit "ml_enabled") then set_ml_enabled (atoi val) c
  else if str_eqb key (lit "model_socket") then set_model_socket (fit 256 val) c
  else if str_eqb key (lit "nfs_servers") then parse_nfs_servers val c
  else c.

(** One iteration of the [fgets] loop. *)
Definition config_line (c : daemon_config) (chunk : list ascii) : daemon_config :=
  let line := take_while (λ x, negb (char_eqb x LF || char_eqb x CR)) (c_str chunk) in
  let s := strip line in
  if negb (nonempty s) || starts_with "#" s then c
  else match strchr s "=" with
       | None => c
       | Some (k, v) => config_assign (strip k) (strip v) c
       end.

Definition config_load (file : option (list ascii)) : Z * daemon_config :=
  match file with
  | None => (-1, zero_config)
  | Some content =>
    let c := fold_left config_line (fgets_lines 4096 content) zero_config in
    (0, if negb (nonempty (model_socket c))
        then set_model_socket (fit 256 (lit "/run/mrepod/model.sock")) c
        else c)
  end.

(** ** Invariant: what every loaded configuration satisfies *)

(** A path that stays below the directory it is appended to. *)
Definition confined (p : cstr) : Prop :=
  p ≠ [] ∧ is_absolute p = false ∧ strstr p (lit "..") = false.

Record config_ok (c : daemon_config) : Prop := {
  ok_overlayroot : slen (overlayroot c) < 2048;
  ok_chown_count : post_mount_chown_dir_count c <= MAX_POST_MOUNT_CHOWN_DIRS;
  ok_chown : Forall (λ p, confined p ∧ slen p < MAX_POST_MOUNT_CHOWN_DIR_LEN) (post_mount_chown_dirs c);
  ok_whiteout_count : post_mount_whiteout_dir_count c <= MAX_POST_MOUNT_WHITEOUT_DIRS;
  ok_whiteout : Forall (λ p, confined p ∧ slen p < MAX_POST_MOUNT_WHITEOUT_DIR_LEN) (post_mount_whiteout_dirs c);
  ok_model_socket : slen (model_socket c) < 256;
  ok_nfs_count : nfs_server_count c <= MAX_NFS_SERVERS;
  ok_nfs : Forall (λ p, p ≠ [] ∧ slen p < MAX_NFS_SERVER_HOST_LEN) (nfs_servers c)
}.

(** ** Lemmas *)

Lemma is_valid_relative_dir_confined p : is_valid_relative_dir p = true ↔ confined p.
Proof.
  unfold is_valid_relative_dir, confined.
  destruct p as [|x p]; simpl nonempty; cbv iota; [split; [done|by intros []]|].
  simpl negb. cbv iota.
  destruct (is_absolute (x :: p)); [split; [done|by intros (_ & ? & _)]|].
  destruct (strstr (x :: p) (lit "..")); split; (done || by intros (_ & _ & ?)).
Qed.

Lemma confined_fit n p : 2 <= n → confined p → confined (fit n p).
Proof.
  intros Hn (Hne & Habs & Hdd). pose proof (fit_prefix n p) as Hpre.
  repeat split.
  - destruct p as [|x p]; [done|]. unfold fit.
    destruct (Z.to_nat (n - 1)) eqn:E; [lia|done].
  - unfold fit. destruct p as [|x p]; [by rewrite take_nil|].
    destruct (Z.to_nat (n - 1)) eqn:E; [lia|done].
  - by eapply strstr_prefix.
Qed.

Lemma fit_nonempty n p : 2 <= n → p ≠ [] → fit n p ≠ [].
Proof.
  intros Hn Hp. destruct p as [|x p]; [done|]. unfold fit.
  destruct (Z.to_nat (n - 1)) eqn:E; [lia|done].
Qed.

Lemma fit_lt n p : 1 <= n → slen (fit n p) < n.
Proof. intros. pose proof (fit_le n p). lia. Qed.

Section parse_items.
Context (valid : cstr → bool) (max len : Z) (P : cstr → Prop).
Hypothesis valid_P : ∀ p, valid p = true → P (fit len p).

Lemma parse_items_ok toks acc :
  count acc <= max → Forall P acc →
  count (parse_items valid max len toks acc) <= max ∧ Forall P (parse_items valid max len toks acc).
Proof.
  revert acc. induction toks as [|tok toks IH]; intros acc Hc Ha; simpl; [done|].
  destruct (Z.ltb_spec (count acc) max); [|done].
  destruct (valid (strip tok)) eqn:Ev; [|by apply IH].
  apply IH.
  - unfold count in *. rewrite length_app. simpl. lia.
  - apply Forall_app. split; [done|]. by repeat constructor; auto.
Qed.
End parse_items.

Lemma zero_config_ok : config_ok zero_config.
Proof. by split. Qed.

Lemma set_overlayroot_ok v c : config_ok c → slen v < 2048 → config_ok (set_overlayroot v c).
Proof. intros [] ?. by split. Qed.
Lemma set_ml_enabled_ok v c : config_ok c → config_ok (set_ml_enabled v c).
Proof. intros []. by split. Qed.
Lemma set_model_socket_ok v c : config_ok c → slen v < 256 → config_ok (set_model_socket v c).
Proof. intros [] ?. by split. Qed.

Lemma chown_dirs_ok v c : config_ok c → config_ok (parse_post_mount_chown_dirs v c).
Proof.
  intros []. unfold parse_post_mount_chown_dirs. destruct (negb (nonempty v)).
  { by split. }
  set (l := parse_items _ _ _ _ _).
  assert (count l <= MAX_POST_MOUNT_CHOWN_DIRS ∧ Forall (λ p, confined p ∧ slen p < MAX_POST_MOUNT_CHOWN_DIR_LEN) l)
    as [Hc Hf]; [|by split].
  apply parse_items_ok; [|done|constructor].
  intros p Hp. apply is_valid_relative_dir_confined in Hp.
  split; [by apply confined_fit|by apply fit_lt].
Qed.

Lemma whiteout_dirs_ok v c : config_ok c → config_ok (parse_post_mount_whiteout_dirs v c).
Proof.
  intros []. unfold parse_post_mount_whiteout_dirs. destruct (negb (nonempty v)).
  { by split. }
  set (l := parse_items _ _ _ _ _).
  assert (count l <= MAX_POST_MOUNT_WHITEOUT_DIRS ∧ Forall (λ p, confined p ∧ slen p < MAX_POST_MOUNT_WHITEOUT_DIR_LEN) l)
    as [Hc Hf]; [|by split].
  apply parse_items_ok; [|done|constructor].
  intros p Hp. apply is_valid_relative_dir_confined in Hp.
  split; [by apply confined_fit|by apply fit_lt].
Qed.

Lemma nfs_servers_ok v c : config_ok c → config_ok (parse_nfs_servers v c).
Proof.
  intros []. unfold parse_nfs_servers.
  set (l := parse_items _ _ _ _ _).
  assert (count l <= MAX_NFS_SERVERS ∧
    Forall (λ p, p ≠ [] ∧ slen p < MAX_NFS_SERVER_HOST_LEN) l) as [Hc Hf]; [|by split].
  apply parse_items_ok; [|done|constructor].
  intros p Hp. split; [|by apply fit_lt].
  apply fit_nonempty; [done|by intros ->].
Qed.

Create HintDb config.
#[export] Hint Resolve set_overlayroot_ok set_ml_enabled_ok set_model_socket_ok
  chown_dirs_ok whiteout_dirs_ok nfs_servers_ok zero_config_ok : config.

Lemma config_assign_ok k v c : config_ok c → config_ok (config_assign k v c).
Proof.
  intros Hc. unfold config_assign.
  repeat (case_match; [auto using fit_lt with config|]); [..|done].
  - apply set_overlayroot_ok; [done|]. by apply fit_lt.
  - apply set_model_socket_ok; [done|]. by apply fit_lt.
Qed.

Lemma config_line_ok c chunk : config_ok c → config_ok (config_line c chunk).
Proof.
  intros Hc. unfold config_line. destruct (_ || _); [done|].
  destruct (strchr _ _) as [[k v]|]; [by apply config_assign_ok|done].
Qed.

Lemma config_lines_ok chunks c : config_ok c → config_ok (fold_left config_line chunks c).
Proof. revert c. induction chunks as [|l ls IH]; simpl; auto using config_line_ok. Qed.

(** *** Lines and items that survive the parser unchanged *)

Lemma rstrip_id p s : (∀ a x, s = a ++ [x] → p x = false) → rstrip p s = s.
Proof.
  intros H. unfold rstrip. destruct s as [|y s] using rev_ind; [done|].
  rewrite reverse_app. simpl. rewrite (H s y) by done.
  rewrite reverse_cons, reverse_involutive. done.
Qed.

(** A string without surrounding white space. *)
Definition stripped (s : cstr) : Prop :=
  match s with
  | [] => True
  | x :: _ => isspace x = false ∧ isspace (List.last s x) = false
  end.

Lemma last_snoc (s : cstr) (x d : ascii) : List.last (s ++ [x]) d = x.
Proof. induction s as [|y s IH]; [done|]. simpl. destruct (s ++ [x]) eqn:E; [by destruct s|done]. Qed.

Lemma strip_id s : stripped s → strip s = s.
Proof.
  unfold strip, stripped. destruct s as [|x s]; [done|]. intros [Hx Hl].
  rewrite drop_while_id by done. apply rstrip_id. intros a y E.
  rewrite E, last_snoc in Hl. done.
Qed.

Lemma parse_items_all valid max len toks acc :
  0 <= max → count acc + count toks <= max →
  Forall (λ t, stripped t ∧ valid t = true ∧ slen t < len) toks →
  parse_items valid max len toks acc = acc ++ toks.
Proof.
  intros Hm. revert acc. induction toks as [|t toks IH]; intros acc Hc Hall; simpl.
  { by rewrite app_nil_r. }
  apply Forall_cons in Hall as [(Hs & Hv & Hl) Hall].
  unfold count in *. simpl in Hc.
  destruct (Z.ltb_spec (Z.of_nat (length acc)) max); [|lia].
  rewrite strip_id, Hv, fit_id by done. rewrite IH; [by rewrite <- app_assoc| |done].
  rewrite length_app. simpl. lia.
Qed.

(** ** Properties *)

(** whatever bytes the configuration file holds (and also when it cannot
    be opened), the loaded configuration is well formed: every array stays
    within its bounds, and every post-mount chown directory and whiteout
    pattern is a non-empty relative path without "..", so that appending it to
    a sandbox path or to an upper directory cannot leave that directory. *)
Theorem config_load_safe (file : option (list ascii)) : config_ok (snd (config_load file)).
Proof.
  unfold config_load. destruct file as [content|]; [|apply zero_config_ok]. simpl.
  set (c := fold_left _ _ _). assert (config_ok c) as Hc by apply config_lines_ok, zero_config_ok.
  destruct (negb _); [|done]. apply set_model_socket_ok; [done|]. by apply fit_lt.
Qed.

(** A list of at most 32 items that are already clean is stored exactly as
    written when it is given comma separated: nothing is dropped, truncated or
    reordered. *)
Theorem parse_post_mount_chown_dirs_join (items : list cstr) (c : daemon_config)
    (Hn : items ≠ []) (Hcount : count items <= MAX_POST_MOUNT_CHOWN_DIRS)
    (Hlen : slen (join (lit ",") items) < 4096)
    (Hitems : Forall (λ t, (t ≠ []) ∧ (","%char ∉ t) ∧ stripped t ∧ is_valid_relative_dir t = true
                           ∧ slen t < MAX_POST_MOUNT_CHOWN_DIR_LEN) items) :
  post_mount_chown_dirs (parse_post_mount_chown_dirs (join (lit ",") items) c) = items.
Proof.
  unfold parse_post_mount_chown_dirs.
  destruct items as [|t ts]; [done|]. pose proof Hitems as [(Ht & _) _]%Forall_cons.
  assert (nonempty (join (lit ",") (t :: ts)) = true) as ->.
  { destruct ts; simpl; by destruct t. }
  cbn [negb]. rewrite fit_id by done. cbn [post_mount_chown_dirs set_chown_dirs].
  change (lit ",") with [","%char].
  rewrite strtok_all_join.
  - rewrite parse_items_all; [done|done|done|].
    eapply Forall_impl; [apply Hitems|]. intros x (?&?&?&?&?). auto.
  - eapply Forall_impl; [apply Hitems|]. intros x (?&?&?&?&?). auto.
Qed.

Lemma parse_post_mount_chown_dirs_join_witness :
  post_mount_chown_dirs (parse_post_mount_chown_dirs (join (lit ",") [lit ".repo"; lit "tmp"]) zero_config)
  = [lit ".repo"; lit "tmp"].
Proof.
  apply parse_post_mount_chown_dirs_join; [done|vm_compute; done|vm_compute; done|].
  repeat constructor; try done;
    (apply (bool_decide_unpack _); vm_compute; exact I).
Defined.

(** *** Later assignments win *)

Lemma fgets_go_app_LF n room acc a s :
  fgets_go n room acc (a ++ LF :: s) = fgets_go n room acc (a ++ [LF]) ++ fgets_go n n [] s.
Proof.
  revert room acc. induction a as [|x a IH]; intros room acc; simpl; [done|].
  case_char x LF; [by rewrite IH|].
  destruct room as [|[|r]]; by rewrite IH.
Qed.

Lemma fgets_lines_app_LF n a s :
  fgets_lines n (a ++ LF :: s) = fgets_lines n (a ++ [LF]) ++ fgets_lines n s.
Proof. apply fgets_go_app_LF. Qed.

(** A value that can stand at the end of a configuration line. *)
Definition plain_value (v : cstr) : Prop :=
  v ≠ [] ∧ stripped v ∧ Forall (λ x, x ≠ LF ∧ x ≠ CR ∧ x ≠ NUL) v.

Lemma strip_lead_space v : stripped v → strip (" "%char :: v) = v.
Proof. intros Hv. rewrite <- (strip_id v) at 2 by done. reflexivity. Qed.

Lemma plain_value_line (p v : cstr) :
  Forall (λ x, x ≠ LF ∧ x ≠ CR ∧ x ≠ NUL) p → plain_value v →
  take_while (λ x, negb (char_eqb x LF || char_eqb x CR)) (c_str (p ++ v ++ [LF])) = p ++ v.
Proof.
  intros Hp (_ & _ & Hv).
  assert (Forall (λ x, x ≠ LF ∧ x ≠ CR ∧ x ≠ NUL) (p ++ v)) as Hall by (by apply Forall_app).
  rewrite no_nul_c_str.
  - rewrite app_assoc. apply take_while_app_stop; [|done].
    apply forallb_forall. intros x Hx. apply list_elem_of_In in Hx.
    rewrite Forall_forall in Hall. apply Hall in Hx as (? & ? & _).
    apply negb_true_iff, orb_false_iff. split; by apply char_eqb_neq.
  - unfold no_nul. rewrite app_assoc, elem_of_app. intros [Hx|Hx].
    + rewrite Forall_forall in Hall. by apply Hall in Hx as (_ & _ & ?).
    + by apply list_elem_of_singleton in Hx.
Qed.

Lemma last_app (a b : cstr) d : b ≠ [] → List.last (a ++ b) d = List.last b d.
Proof.
  intros Hb. destruct b as [|x b] using rev_ind; [done|].
  by rewrite app_assoc, !last_snoc.
Qed.

Lemma last_default (s : cstr) x y : s ≠ [] → List.last s x = List.last s y.
Proof. destruct s as [|z s] using rev_ind; [done|]. by rewrite !last_snoc. Qed.

Lemma stripped_app x p v : isspace x = false → v ≠ [] → stripped v → stripped (x :: p ++ v).
Proof.
  intros Hx Hn Hs. split; [done|].
  change (x :: p ++ v) with ((x :: p) ++ v). rewrite last_app by done.
  destruct v as [|y v]; [done|]. destruct Hs as [_ Hs].
  by rewrite (last_default _ x y).
Qed.

Lemma config_line_overlayroot c v :
  plain_value v → config_line c (lit "overlayroot = " ++ v ++ [LF]) = set_overlayroot (fit 2048 v) c.
Proof.
  intros Hv. unfold config_line.
  rewrite plain_value_line; [|by apply (bool_decide_unpack _); vm_compute|done].
  destruct Hv as (Hne & Hs & _).
  rewrite (strip_id (lit "overlayroot = " ++ v)).
  - change (lit "overlayroot = " ++ v) with (lit "overlayroot " ++ "="%char :: " "%char :: v).
    assert (strchr (lit "overlayroot " ++ "="%char :: " "%char :: v) "="
      = Some (lit "overlayroot ", " "%char :: v)) as -> by done.
    rewrite strip_lead_space by done. reflexivity.
  - apply (stripped_app "o" (lit "verlayroot = ")); done.
Qed.

(** A later assignment overrides whatever the file said before it: after
    any earlier lines, [overlayroot = v] sets the daemon's overlay root to
    [v]. *)
Theorem config_load_last_wins (pre v : cstr) (Hv : plain_value v) (Hlen : slen v < 2048) :
  overlayroot (snd (config_load (Some (pre ++ LF :: lit "overlayroot = " ++ v ++ [LF])))) = v.
Proof.
  unfold config_load. rewrite fgets_lines_app_LF, fold_left_app.
  set (c := fold_left config_line (fgets_lines 4096 (pre ++ [LF])) zero_config).
  rewrite app_assoc, fgets_lines_cons.
  - cbn [fold_left]. replace (fgets_lines 4096 []) with (@nil cstr) by done. cbn [fold_left].
    rewrite <- app_assoc, config_line_overlayroot by done.
    cbn [snd]. destruct (negb _); cbn [overlayroot set_overlayroot set_model_socket]; by apply fit_id.
  - destruct Hv as (_ & _ & Hall). rewrite elem_of_app. intros [Hx|Hx].
    + revert Hx. by apply (bool_decide_unpack _).
    + rewrite Forall_forall in Hall. by apply Hall in Hx as [? _].
  - rewrite slen_app. change (slen (lit "overlayroot = ")) with 14. lia.
Qed.

Lemma config_load_last_wins_witness :
  overlayroot (snd (config_load (Some (lit "overlayroot=/a" ++ LF :: lit "overlayroot = " ++ lit "/b" ++ [LF]))))
  = lit "/b".
Proof.
  apply config_load_last_wins; [|by vm_compute].
  split; [done|split; [by vm_compute|]]. by apply (bool_decide_unpack _); vm_compute.
Defined.
