(* ===== verification/MountTable.v ===== *)
(** * The table of tracked mounts

    Models the "Active mount tracking" half of [mbroker/daemon/mountinfo.c].
    The static array [tracked] with its high-water mark [tracked_used] is the
    list of its first [tracked_used] slots.  Every function runs under
    [tracked_lock], so each is one atomic step on the table.  A NULL string
    argument is the empty string, which is what the code stores for it.

    The abstract specification is a finite map from mount points to their
    metadata; the theorems show that tracking, untracking and the lookups
    refine insertion, deletion and lookup in that map. *)
From S2P Require Import Prelude CString.
Open Scope Z_scope.

Definition MOUNTINFO_MAX_TRACKED : Z := 256.

Record tracked_mount := TrackedMount {
  tm_mountpoint : cstr;
  tm_overlayroot : cstr;
  tm_baas_path : cstr;
  tm_prebuild_sb : cstr;
  tm_flags : Z;
  tm_active : bool
}.

Abbreviation table := (list tracked_mount).

(** [tracked[i].active && strcmp(tracked[i].mountpoint, mountpoint) == 0]. *)
Definition active_at (mountpoint : cstr) (e : tracked_mount) : bool :=
  tm_active e && str_eqb (tm_mountpoint e) mountpoint.
Definition inactive (e : tracked_mount) : bool := negb (tm_active e).

(** The first slot that satisfies a condition. *)
Fixpoint find_slot (p : tracked_mount → bool) (t : table) : option (nat * tracked_mount) :=
  match t with
  | [] => None
  | e :: t' =>
    if p e then Some (O, e)
    else match find_slot p t' with
         | Some (i, e') => Some (S i, e')
         | None => None
         end
  end.

(** The metadata assignments shared by the three branches. *)
Definition fill_slot (mountpoint : cstr) (flags : Z) (overlayroot baas_path prebuild_sb : cstr) : tracked_mount :=
  TrackedMount mountpoint (fit 2048 overlayroot) (fit 512 baas_path) (fit 256 prebuild_sb) flags true.

Definition mountinfo_track (mountpoint : cstr) (flags : Z) (overlayroot baas_path prebuild_sb : cstr)
    (t : table) : Z * table :=
  match find_slot (active_at mountpoint) t with
  | Some (i, e) =>
    (* refresh metadata for already tracked mountpoint *)
    (0, <[i := fill_slot (tm_mountpoint e) flags overlayroot baas_path prebuild_sb]> t)
  | None =>
    match find_slot inactive t with
    | Some (i, _) =>
      (* reuse slot *)
      (0, <[i := fill_slot (fit 2048 mountpoint) flags overlayroot baas_path prebuild_sb]> t)
    | None =>
      if MOUNTINFO_MAX_TRACKED <=? Z.of_nat (length t) then (-1, t)
      else (0, t ++ [fill_slot (fit 2048 mountpoint) flags overlayroot baas_path prebuild_sb])
    end
  end.

Definition mountinfo_overlayroot_for (mountpoint : cstr) (t : table) : option cstr :=
  match find_slot (active_at mountpoint) t with
  | Some (_, e) => Some (fit 2048 (tm_overlayroot e))
  | None => None
  end.

(** Returns 1 and fills the two buffers, or returns 0 and leaves them. *)
Definition mountinfo_baas_info_for (mountpoint : cstr) (bp_len ps_len : Z) (baas_path prebuild_sb : cstr)
    (t : table) : Z * cstr * cstr :=
  match find_slot (active_at mountpoint) t with
  | Some (_, e) =>
    if nonempty (tm_prebuild_sb e)
    then (1, fit bp_len (tm_baas_path e), fit ps_len (tm_prebuild_sb e))
    else (0, baas_path, prebuild_sb)
  | None => (0, baas_path, prebuild_sb)
  end.

Definition mountinfo_flags_for (mountpoint : cstr) (t : table) : Z :=
  match find_slot (active_at mountpoint) t with
  | Some (_, e) => tm_flags e
  | None => 0
  end.

(** The loop of [mountinfo_snapshot_mountpoints]. *)
Fixpoint snapshot_loop (max_mountpoints : Z) (acc : list cstr) (t : table) : list cstr :=
  match t with
  | [] => acc
  | e :: t' =>
    if Z.of_nat (length acc) <? max_mountpoints then
      if negb (tm_active e) then snapshot_loop max_mountpoints acc t'
      else snapshot_loop max_mountpoints (acc ++ [fit 2048 (tm_mountpoint e)]) t'
    else acc
  end.

Definition mountinfo_snapshot_mountpoints (max_mountpoints : Z) (t : table) : list cstr :=
  if max_mountpoints <=? 0 then [] else snapshot_loop max_mountpoints [] t.

Definition deactivate (e : tracked_mount) : tracked_mount :=
  TrackedMount (tm_mountpoint e) (tm_overlayroot e) (tm_baas_path e) (tm_prebuild_sb e) (tm_flags e) false.

Definition mountinfo_untrack (mountpoint : cstr) (t : table) : table :=
  match find_slot (active_at mountpoint) t with
  | Some (i, e) => <[i := deactivate e]> t
  | None => t
  end.

Definition mountinfo_tracked_count (t : table) : Z :=
  Z.of_nat (length (List.filter tm_active t)).

(** The critical section of [mountinfo_cleanup_all]: the active entries are
    copied out and deactivated.  The bound on the copy never bites because
    the table holds at most [MOUNTINFO_MAX_TRACKED] slots. *)
Fixpoint cleanup_snapshot (acc : list tracked_mount) (t : table) : list tracked_mount * table :=
  match t with
  | [] => (acc, [])
  | e :: t' =>
    if Z.of_nat (length acc) <? MOUNTINFO_MAX_TRACKED then
      if negb (tm_active e)
      then let '(acc', t'') := cleanup_snapshot acc t' in (acc', e :: t'')
      else let '(acc', t'') := cleanup_snapshot (acc ++ [e]) t' in (acc', deactivate e :: t'')
    else (acc, t)
  end.

(** ** The abstract specification *)

Record mount_info := MountInfo {
  mi_flags : Z;
  mi_overlayroot : cstr;
  mi_baas_path : cstr;
  mi_prebuild_sb : cstr
}.

Definition entry_info (e : tracked_mount) : mount_info :=
  MountInfo (tm_flags e) (tm_overlayroot e) (tm_baas_path e) (tm_prebuild_sb e).

(** What a request to track stores: the fields cut to their buffers. *)
Definition stored_info (flags : Z) (overlayroot baas_path prebuild_sb : cstr) : mount_info :=
  MountInfo flags (fit 2048 overlayroot) (fit 512 baas_path) (fit 256 prebuild_sb).

Definition active_bindings (t : table) : list (cstr * mount_info) :=
  (λ e, (tm_mountpoint e, entry_info e)) <$> List.filter tm_active t.

(** The map a table stands for. *)
Definition tracked_map (t : table) : gmap cstr mount_info := list_to_map (active_bindings t).

(** ** The representation invariant *)

Definition active_mountpoints (t : table) : list cstr := tm_mountpoint <$> List.filter tm_active t.

Record slot_ok (e : tracked_mount) : Prop := {
  slot_mountpoint : slen (tm_mountpoint e) < 2048;
  slot_overlayroot : slen (tm_overlayroot e) < 2048;
  slot_baas_path : slen (tm_baas_path e) < 512;
  slot_prebuild_sb : slen (tm_prebuild_sb e) < 256
}.

Record table_ok (t : table) : Prop := {
  ok_nodup : NoDup (active_mountpoints t);
  ok_slots : Forall slot_ok t;
  ok_used : Z.of_nat (length t) <= MOUNTINFO_MAX_TRACKED
}.

(** *** Lemmas on the slot search *)

Lemma find_slot_Some p t i e :
  find_slot p t = Some (i, e) ↔
  t !! i = Some e ∧ p e = true ∧ ∀ j x, (j < i)%nat → t !! j = Some x → p x = false.
Proof.
  revert i. induction t as [|y t IH]; intros i; simpl.
  { split; [done|]. intros (H & _). by destruct i. }
  destruct (p y) eqn:Ey.
  - split.
    + intros [= <- <-]. repeat split; [done|]. intros j x Hj. lia.
    + intros (Hi & Hp & Hmin). destruct i as [|i]; [by simpl in Hi; congruence|].
      specialize (Hmin O y ltac:(lia) eq_refl). congruence.
  - destruct (find_slot p t) as [[k e']|] eqn:Ek.
    + split.
      * intros [= <- <-]. destruct (proj1 (IH k) eq_refl) as (Hk & Hp & Hmin).
        repeat split; [done|done|]. intros [|j] x Hj Hx; [simpl in Hx; congruence|].
        apply (Hmin j); [lia|done].
      * intros (Hi & Hp & Hmin). destruct i as [|i]; [simpl in Hi; congruence|].
        assert (Some (k, e') = Some (i, e)) as [= -> ->]; [|done].
        apply IH. repeat split; [done|done|]. intros j x Hj Hx. apply (Hmin (S j)); [lia|done].
    + split; [done|]. intros (Hi & Hp & Hmin).
      destruct i as [|i]; [simpl in Hi; congruence|].
      assert (None = Some (i, e)); [|done].
      apply IH. repeat split; [done|done|]. intros j x Hj Hx. apply (Hmin (S j)); [lia|done].
Qed.

Lemma find_slot_None p t : find_slot p t = None ↔ Forall (λ e, p e = false) t.
Proof.
  induction t as [|y t IH]; simpl; [split; [constructor|done]|].
  rewrite Forall_cons. destruct (p y) eqn:Ey; [split; [done|by intros []]|].
  destruct (find_slot p t) as [[i e]|]; [|by rewrite <- IH].
  split; [done|]. intros [_ H]. by apply IH in H.
Qed.

(** Splitting a table at the slot that was found. *)
Lemma find_slot_split p t i e :
  find_slot p t = Some (i, e) →
  ∃ t1 t2, t = t1 ++ e :: t2 ∧ length t1 = i ∧ p e = true ∧ Forall (λ x, p x = false) t1.
Proof.
  intros H. apply find_slot_Some in H as (Hi & Hp & Hmin).
  exists (take i t), (drop (S i) t). repeat split; [|by apply length_take_le; apply lookup_lt_Some in Hi; lia|done|].
  - by rewrite take_drop_middle.
  - apply Forall_lookup_2. intros j x Hj. apply lookup_take_Some in Hj as [Hj ?]. by apply (Hmin j).
Qed.

Lemma insert_split (t1 t2 : table) e e' : <[length t1 := e']> (t1 ++ e :: t2) = t1 ++ e' :: t2.
Proof. by rewrite insert_app_r_alt, Nat.sub_diag by lia. Qed.

(** *** The map of a table *)

Lemma active_at_true mp e : active_at mp e = true ↔ tm_active e = true ∧ tm_mountpoint e = mp.
Proof. unfold active_at. by rewrite andb_true_iff, str_eqb_eq. Qed.

Lemma tracked_map_app t1 t2 : tracked_map (t1 ++ t2) = tracked_map t1 ∪ tracked_map t2.
Proof. unfold tracked_map, active_bindings. by rewrite List.filter_app, fmap_app, list_to_map_app. Qed.

Lemma tracked_map_cons_active e t :
  tm_active e = true → tracked_map (e :: t) = <[tm_mountpoint e := entry_info e]> (tracked_map t).
Proof. intros H. unfold tracked_map, active_bindings. simpl. by rewrite H. Qed.

Lemma tracked_map_cons_inactive e t : tm_active e = false → tracked_map (e :: t) = tracked_map t.
Proof. intros H. unfold tracked_map, active_bindings. simpl. by rewrite H. Qed.

Lemma tracked_map_lookup mp t :
  tracked_map t !! mp = (λ '(_, e), entry_info e) <$> find_slot (active_at mp) t.
Proof.
  induction t as [|e t IH]; simpl; [done|].
  destruct (tm_active e) eqn:Ea.
  - rewrite tracked_map_cons_active by done. unfold active_at. rewrite Ea. simpl.
    destruct (str_eqb (tm_mountpoint e) mp) eqn:Em; to_prop.
    + subst mp. by rewrite lookup_insert_eq.
    + rewrite lookup_insert_ne by done. rewrite IH. by destruct (find_slot _ t) as [[]|].
  - rewrite tracked_map_cons_inactive by done. unfold active_at. rewrite Ea. simpl.
    rewrite IH. by destruct (find_slot _ t) as [[]|].
Qed.

Lemma tracked_map_None mp t : tracked_map t !! mp = None ↔ Forall (λ e, active_at mp e = false) t.
Proof. rewrite <- find_slot_None, tracked_map_lookup. by destruct (find_slot _ t) as [[]|]. Qed.

Lemma active_mountpoints_app t1 t2 :
  active_mountpoints (t1 ++ t2) = active_mountpoints t1 ++ active_mountpoints t2.
Proof. unfold active_mountpoints. by rewrite List.filter_app, fmap_app. Qed.

Lemma active_mountpoints_cons e t :
  active_mountpoints (e :: t) =
  (if tm_active e then [tm_mountpoint e] else []) ++ active_mountpoints t.
Proof. unfold active_mountpoints. simpl. by destruct (tm_active e). Qed.

Lemma active_mountpoints_dom mp t : mp ∈ active_mountpoints t ↔ is_Some (tracked_map t !! mp).
Proof.
  rewrite <- not_eq_None_Some, tracked_map_None. induction t as [|e t IH].
  - split; [by intros ?%not_elem_of_nil|]. intros H. by destruct H.
  - rewrite active_mountpoints_cons, elem_of_app, IH, Forall_cons.
    unfold active_at at 2. destruct (tm_active e); simpl.
    + rewrite list_elem_of_singleton. destruct (str_eqb (tm_mountpoint e) mp) eqn:Em; to_prop.
      * subst. split; [by intros _ []|by left].
      * split; [intros [?|?]; [congruence|tauto]|]. intros H. right. tauto.
    + rewrite elem_of_nil. tauto.
Qed.

(** Replacing a slot by an active one: the invariant is kept when the new
    mount point occurs nowhere else. *)
Lemma table_ok_replace t1 e e' t2 :
  table_ok (t1 ++ e :: t2) → slot_ok e' →
  (tm_active e' = true → tm_mountpoint e' ∉ active_mountpoints (t1 ++ t2)) →
  table_ok (t1 ++ e' :: t2).
Proof.
  intros [Hnd Hs Hu] Hok Hfresh. split.
  - rewrite active_mountpoints_app, active_mountpoints_cons in *.
    assert (NoDup (active_mountpoints t1 ++ active_mountpoints t2)) as Hnd'.
    { destruct (tm_active e); simpl in Hnd; [|done].
      apply NoDup_app in Hnd as (? & Hdis & [? ?]%NoDup_cons).
      apply NoDup_app. repeat split; [done| |done].
      intros x Hx ?. by eapply Hdis; [|right]. }
    destruct (tm_active e'); [|done]. specialize (Hfresh eq_refl).
    rewrite not_elem_of_app in Hfresh. destruct Hfresh as [Hf1 Hf2].
    apply NoDup_app in Hnd' as (? & Hdis & ?). simpl.
    apply NoDup_app. repeat split; [done| |by constructor].
    intros x Hx [->|Hx']%elem_of_cons; [done|]. by eapply Hdis.
  - apply Forall_app in Hs as [? [? ?]%Forall_cons]. apply Forall_app. by split; [|constructor].
  - by rewrite length_app in *.
Qed.

Lemma table_ok_snoc t e' :
  table_ok t → slot_ok e' → tm_mountpoint e' ∉ active_mountpoints t →
  Z.of_nat (length t) < MOUNTINFO_MAX_TRACKED → tm_active e' = true →
  table_ok (t ++ [e']).
Proof.
  intros [Hnd Hs Hu] Hok Hfresh Hlt Ha. split.
  - rewrite active_mountpoints_app, active_mountpoints_cons, Ha. simpl.
    apply NoDup_app. repeat split; [done| |by apply NoDup_singleton].
    intros x Hx ->%list_elem_of_singleton. done.
  - apply Forall_app. by split; [|constructor].
  - rewrite length_app. simpl. lia.
Qed.

Lemma fill_slot_ok mp fl o b p : slen mp < 2048 → slot_ok (fill_slot mp fl o b p).
Proof.
  intros H. pose proof (fit_le 2048 o). pose proof (fit_le 512 b). pose proof (fit_le 256 p).
  split; simpl; lia.
Qed.

Lemma fill_slot_info mp fl o b p : entry_info (fill_slot mp fl o b p) = stored_info fl o b p.
Proof. done. Qed.

(** ** Refinement *)

(** What a successful call does to the table, in the three branches. *)
Lemma mountinfo_track_ok mp fl o b p t :
  table_ok t → slen mp < 2048 →
  let '(rc, t') := mountinfo_track mp fl o b p t in
  table_ok t' ∧
  ((rc = 0 ∧ tracked_map t' = <[mp := stored_info fl o b p]> (tracked_map t)) ∨
   (rc = -1 ∧ t' = t ∧ tracked_map t !! mp = None ∧
    Forall (λ e, tm_active e = true) t ∧ Z.of_nat (length t) = MOUNTINFO_MAX_TRACKED)).
Proof.
  intros Hok Hmp. unfold mountinfo_track.
  destruct (find_slot (active_at mp) t) as [[i e]|] eqn:Ef.
  { apply find_slot_split in Ef as (t1 & t2 & -> & <- & [Ha Hm]%active_at_true & Hn).
    rewrite insert_split, Hm. split.
    - apply table_ok_replace with e; [done|by apply fill_slot_ok|]. simpl. intros _.
      destruct Hok as [Hnd _ _].
      rewrite active_mountpoints_app, active_mountpoints_cons, Ha, Hm in Hnd.
      apply NoDup_app in Hnd as (_ & Hdis & [? _]%NoDup_cons).
      rewrite active_mountpoints_app, not_elem_of_app. split; [|done].
      intros Hin. eapply Hdis; [done|left].
    - left. split; [done|]. rewrite !tracked_map_app, !tracked_map_cons_active by done.
      rewrite Hm. simpl tm_mountpoint. rewrite fill_slot_info.
      apply tracked_map_None in Hn. rewrite !insert_union_r by done.
      by rewrite insert_insert_eq. }
  pose proof Ef as Hnone. rewrite find_slot_None, <- tracked_map_None in Hnone.
  assert (mp ∉ active_mountpoints t) as Hfresh.
  { rewrite active_mountpoints_dom, Hnone. by intros []. }
  rewrite (fit_id 2048 mp) by done.
  destruct (find_slot inactive t) as [[i e]|] eqn:Ei.
  { apply find_slot_split in Ei as (t1 & t2 & -> & <- & Hi & _).
    apply negb_true_iff in Hi. rewrite insert_split. split.
    - apply table_ok_replace with e; [done|by apply fill_slot_ok|]. simpl. intros _.
      rewrite active_mountpoints_app, active_mountpoints_cons, Hi in Hfresh.
      by rewrite active_mountpoints_app.
    - left. split; [done|].
      rewrite !tracked_map_app, tracked_map_cons_active, tracked_map_cons_inactive by done.
      rewrite tracked_map_app, tracked_map_cons_inactive in Hnone by done.
      apply lookup_union_None in Hnone as [? ?].
      by rewrite fill_slot_info, insert_union_r. }
  destruct (Z.leb_spec MOUNTINFO_MAX_TRACKED (Z.of_nat (length t))) as [Hle|Hlt].
  { split; [done|]. right. repeat split; [done| |destruct Hok; lia].
    apply find_slot_None in Ei. eapply Forall_impl; [done|]. intros x. apply negb_false_iff. }
  split.
  - apply table_ok_snoc; [done|by apply fill_slot_ok|done|done|done].
  - left. split; [done|]. rewrite tracked_map_app, tracked_map_cons_active by done.
    rewrite fill_slot_info. simpl tm_mountpoint.
    change (tracked_map []) with (∅ : gmap cstr mount_info).
    by rewrite <- insert_union_r, (right_id_L ∅ (∪)) by done.
Qed.

Lemma mountinfo_untrack_ok mp t :
  table_ok t →
  table_ok (mountinfo_untrack mp t) ∧ tracked_map (mountinfo_untrack mp t) = delete mp (tracked_map t).
Proof.
  intros Hok. unfold mountinfo_untrack.
  destruct (find_slot (active_at mp) t) as [[i e]|] eqn:Ef.
  - apply find_slot_split in Ef as (t1 & t2 & -> & <- & [Ha Hm]%active_at_true & Hn).
    rewrite insert_split. split.
    + apply table_ok_replace with e; [done| |done].
      destruct Hok as [_ Hs _]. apply Forall_app in Hs as [_ [[] _]%Forall_cons]. by split.
    + rewrite !tracked_map_app, tracked_map_cons_inactive, tracked_map_cons_active by done.
      rewrite Hm. apply tracked_map_None in Hn.
      destruct Hok as [Hnd _ _]. rewrite active_mountpoints_app, active_mountpoints_cons, Ha, Hm in Hnd.
      apply NoDup_app in Hnd as (_ & _ & [Hnin _]%NoDup_cons).
      assert (tracked_map t2 !! mp = None) as Hn2.
      { apply eq_None_not_Some. by rewrite <- active_mountpoints_dom. }
      rewrite delete_union, (delete_id (tracked_map t1)) by done.
      rewrite delete_insert_eq. by rewrite delete_id.
  - split; [done|]. rewrite delete_id; [done|].
    by rewrite tracked_map_lookup, Ef.
Qed.

Lemma mountinfo_overlayroot_for_ok mp t :
  table_ok t → mountinfo_overlayroot_for mp t = mi_overlayroot <$> tracked_map t !! mp.
Proof.
  intros [_ Hs _]. unfold mountinfo_overlayroot_for. rewrite tracked_map_lookup.
  destruct (find_slot (active_at mp) t) as [[i e]|] eqn:Ef; [|done]. simpl.
  apply find_slot_Some in Ef as (Hi & _). rewrite Forall_forall in Hs.
  destruct (Hs e) as [_ Ho _ _]; [by eapply list_elem_of_lookup_2|].
  by rewrite fit_id.
Qed.

Lemma mountinfo_flags_for_ok mp t :
  mountinfo_flags_for mp t = from_option mi_flags 0 (tracked_map t !! mp).
Proof.
  unfold mountinfo_flags_for. rewrite tracked_map_lookup. by destruct (find_slot _ t) as [[]|].
Qed.

Lemma mountinfo_baas_info_for_ok mp b p t :
  table_ok t →
  mountinfo_baas_info_for mp 512 256 b p t =
    match tracked_map t !! mp with
    | Some i => if nonempty (mi_prebuild_sb i) then (1, mi_baas_path i, mi_prebuild_sb i) else (0, b, p)
    | None => (0, b, p)
    end.
Proof.
  intros [_ Hs _]. unfold mountinfo_baas_info_for. rewrite tracked_map_lookup.
  destruct (find_slot (active_at mp) t) as [[i e]|] eqn:Ef; [|done]. simpl.
  apply find_slot_Some in Ef as (Hi & _). rewrite Forall_forall in Hs.
  destruct (Hs e) as [_ _ Hb Hp]; [by eapply list_elem_of_lookup_2|].
  by rewrite !fit_id.
Qed.

Lemma snapshot_loop_ok max acc t :
  Forall slot_ok t → Z.of_nat (length acc) + Z.of_nat (length (active_mountpoints t)) <= max →
  snapshot_loop max acc t = acc ++ active_mountpoints t.
Proof.
  revert acc. induction t as [|e t IH]; intros acc Hs Hl; simpl; [by rewrite app_nil_r|].
  apply Forall_cons in Hs as [[He _ _ _] Hs]. rewrite active_mountpoints_cons in *.
  destruct (tm_active e); simpl in *.
  - destruct (Z.ltb_spec (Z.of_nat (length acc)) max); [|lia].
    rewrite fit_id, IH by (done || rewrite ?length_app; simpl; lia).
    by rewrite <- app_assoc.
  - destruct (Z.ltb_spec (Z.of_nat (length acc)) max); [by apply IH|].
    rewrite <- (app_nil_r acc) at 1. f_equal. symmetry. apply nil_length_inv. lia.
Qed.

Lemma active_mountpoints_length t : (length (active_mountpoints t) ≤ length t)%nat.
Proof. unfold active_mountpoints. rewrite length_fmap. apply List.filter_length_le. Qed.

(** The interface of the tracking component: what its clients (the mount,
    unmount, recovery and broker modules) rely on.  [inv] is the invariant,
    [abs] the finite map that the component stands for. *)
Class MountTracker (T : Type) (inv : T → Prop) (abs : T → gmap cstr mount_info)
    (track : cstr → Z → cstr → cstr → cstr → T → Z * T)
    (untrack : cstr → T → T)
    (overlayroot_for : cstr → T → option cstr)
    (flags_for : cstr → T → Z)
    (snapshot : T → list cstr) : Prop := {
  tracker_track mp fl o b p t :
    inv t → slen mp < 2048 →
    inv (snd (track mp fl o b p t)) ∧
    (fst (track mp fl o b p t) = 0 →
     abs (snd (track mp fl o b p t)) = <[mp := stored_info fl o b p]> (abs t)) ∧
    (fst (track mp fl o b p t) ≠ 0 → snd (track mp fl o b p t) = t ∧ abs t !! mp = None);
  tracker_untrack mp t :
    inv t → inv (untrack mp t) ∧ abs (untrack mp t) = delete mp (abs t);
  tracker_overlayroot mp t :
    inv t → overlayroot_for mp t = mi_overlayroot <$> abs t !! mp;
  tracker_flags mp t :
    inv t → flags_for mp t = from_option mi_flags 0 (abs t !! mp);
  tracker_snapshot mp t :
    inv t → mp ∈ snapshot t ↔ is_Some (abs t !! mp)
}.

(** *** Properties *)

