(* ===== verification/OS.v ===== *)
(** * The operating system interface and the daemon monad

    The daemon is a program over system calls, C library calls with effects
    and threads.  None of these has its code under [src/], so they are a
    parameter of the whole development: a [Kernel] answers every call, in any
    way it likes, from a world of type [W].  Theorems therefore hold for every
    behaviour of the kernel, other processes included, unless a named law says
    what documented behaviour they rely on.

    A daemon function is a state transformer on [dstate]: the world, [errno],
    the calls made so far, and the daemon's own static variables.  A function
    that returns early is written with the rest of the body in the other
    branch, as the C text has it.  [log_write] has no effect here: it writes to
    the log file only and its callers rely on it leaving [errno] alone. *)
From S2P Require Import Prelude CString Config MountTable.
Open Scope Z_scope.

(** ** errno values and flags (Linux) *)

Definition EPERM : Z := 1.
Definition ENOENT : Z := 2.
Definition EINTR : Z := 4.
Definition EIO : Z := 5.
Definition ENOMEM : Z := 12.
Definition EEXIST : Z := 17.
Definition ENOTDIR : Z := 20.
Definition EINVAL : Z := 22.
Definition EROFS : Z := 30.
Definition ENAMETOOLONG : Z := 36.
Definition ENOTEMPTY : Z := 39.
Definition ENOTSUP : Z := 95.
Definition EOPNOTSUPP : Z := 95.
Definition ESTALE : Z := 116.

Definition MNT_FORCE : Z := 1.
Definition MNT_DETACH : Z := 2.
Definition MS_RDONLY : Z := 1.
Definition F_OK : Z := 0.
Definition X_OK : Z := 1.
Definition R_OK : Z := 4.
Definition F_ULOCK : Z := 0.
Definition F_LOCK : Z := 1.
Definition OVERLAYFS_SUPER_MAGIC : Z := 0x794c7630.

Definition PROC_MOUNTINFO : cstr := lit "/proc/self/mountinfo".

(** ** Results *)

(** A call that fails returns the value it stores in [errno]. *)
Definition res (A : Type) : Type := (Z + A)%type.

Definition failed {A} (r : res A) : bool := match r with inl _ => true | inr _ => false end.

(** The fields of [struct stat] that the program reads. *)
Record stat_t := Stat { st_uid : Z; st_dev : Z; st_size : Z; st_isdir : bool }.

Inductive dtype := DT_DIR | DT_UNKNOWN | DT_OTHER.
Record dirent := Dirent { d_name : cstr; d_type : dtype }.

Inductive glob_result := GlobNoMatch | GlobFailed | GlobMatched (paths : list cstr).

(** [popen("uuidgen -r")]: not started, or what the command wrote and the
    status of [pclose]. *)
Inductive uuidgen_result := UuidPopenFailed | UuidOutput (out : list ascii) (rc : Z).

(** The start routines given to [pthread_create], with their argument. *)
Inductive thread :=
  | ThMonitor
  | ThAsyncRemoveDir (path label : cstr)
  | ThPromoteMountpoint (mountpoint : cstr)
  | ThPromoteWorker
  | ThChownOwner (mountpoint : cstr)
  | ThChownWorker
  | ThPostMountChown (sandboxname : cstr) (uid gid : Z) (dirs : list cstr)
  | ThPrepareWhiteout (effective_lowerdir upperdir : cstr) (dcfg : daemon_config)
  | ThWhiteoutScanWorker
  | ThWhiteoutCreateWorker.

(** ** Calls *)

(** Every call the daemon makes, with the type of its answer.  [opendir] is
    taken together with the [readdir] loop over the stream, and [fopen] for
    reading with the reads up to end of file. *)
Inductive syscall : Type → Type :=
  | Mkdir (path : cstr) (mode : Z) : syscall (res unit)
  | Rmdir (path : cstr) : syscall (res unit)
  | Unlink (path : cstr) : syscall (res unit)
  | Rename (old new : cstr) : syscall (res unit)
  | StatPath (path : cstr) : syscall (res stat_t)
  | Lstat (path : cstr) : syscall (res stat_t)
  | Statfs (path : cstr) : syscall (res Z)
  | Statvfs (path : cstr) : syscall (res (Z * Z))
  | Access (path : cstr) (mode : Z) : syscall (res unit)
  | Chown (path : cstr) (uid gid : Z) : syscall (res unit)
  | Lchown (path : cstr) (uid gid : Z) : syscall (res unit)
  | Chmod (path : cstr) (mode : Z) : syscall (res unit)
  | Setxattr (path name value : cstr) : syscall (res unit)
  | Lsetxattr (path name value : cstr) : syscall (res unit)
  | Opendir (path : cstr) : syscall (res (list dirent))
  | ReadFile (path : cstr) : syscall (res (list ascii))
  | FopenW (path : cstr) : syscall (res unit)
  | Fputs (path : cstr) (data : list ascii) : syscall (res unit)
  | Fclose (path : cstr) : syscall (res unit)
  | OpenRW (path : cstr) (mode : Z) : syscall (res Z)
  | OpenRO (path : cstr) : syscall (res Z)
  | OpenDirNofollow (path : cstr) : syscall (res Z)
  | FchownEmpty (fd uid : Z) : syscall (res unit)
  | Fdopendir (fd : Z) : syscall (res (list dirent))
  | Fchownat (fd : Z) (name : cstr) (uid : Z) : syscall (res unit)
  | Fstatat (fd : Z) (name : cstr) : syscall (res stat_t)
  | Lockf (fd cmd : Z) : syscall (res unit)
  | Close (fd : Z) : syscall (res unit)
  | Setns (fd : Z) : syscall (res unit)
  | Mount (source target fstype : cstr) (flags : Z) (data : cstr) : syscall (res unit)
  | Umount2 (target : cstr) (flags : Z) : syscall (res unit)
  | System (command : cstr) : syscall (res Z)
  | PthreadCreate (t : thread) : syscall Z
  | Alloc : syscall (res unit)
  | Getenv (name : cstr) : syscall (option cstr)
  | Time : syscall Z
  | Getpid : syscall Z
  | Rand : syscall Z
  | Strftime (format : cstr) : syscall cstr
  | Nprocessors : syscall Z
  | Setpriority (prio : Z) : syscall (res unit)
  | Gethostbyname (host : cstr) : syscall (option cstr)
  | Glob (pattern : cstr) : syscall glob_result
  | Uuidgen : syscall uuidgen_result
  | Socket : syscall (res Z)
  | Setsockopt (fd opt : Z) : syscall (res unit)
  | Connect (fd : Z) (path : cstr) : syscall (res unit)
  | Bind (fd : Z) (path : cstr) : syscall (res unit)
  | Listen (fd backlog : Z) : syscall (res unit)
  | Accept (fd : Z) : syscall (res Z)
  | Sleep (seconds : Z) : syscall unit
  | FopenA (path : cstr) : syscall (res unit)
  | Print (stream : Z) (text : list ascii) : syscall unit
  | Getcwd (n : Z) : syscall (res cstr)
  | Getuid : syscall Z
  | Getgid : syscall Z
  | Getgrnam (name : cstr) : syscall (option Z)
  | Getgrouplist (user : cstr) (gid max : Z) : syscall (option (list Z))
  | Fork : syscall (res Z)
  | Waitpid (pid : Z) : syscall (res Z)
  | Setsid : syscall (res Z)
  | Chdir (path : cstr) : syscall (res unit)
  | Dup2 (fd fd2 : Z) : syscall (res unit)
  | Exit (code : Z) : syscall unit
  | Write (fd : Z) (data : list ascii) : syscall (res Z)
  | Read (fd n : Z) : syscall (res (list ascii)).

Class Kernel (W : Type) := {
  k_do : ∀ A, syscall A → W → A * W;
  strerror : Z → cstr;
  fnmatch : cstr → cstr → bool     (** [fnmatch(pattern, string, 0) == 0] *)
}.
Arguments k_do {W Kernel A} _ _.

(** A call with its answer. *)
Inductive event :=
  | Ev {A : Type} (c : syscall A) (r : A).

(** The calls that leave the file system, the mounts, the other processes and
    the daemon's threads as they are. *)
Definition readonly (e : event) : bool :=
  let 'Ev c _ := e in
  match c with
  | StatPath _ | Lstat _ | Statfs _ | Statvfs _ | Access _ _ | Opendir _ | ReadFile _
  | OpenRO _ | OpenDirNofollow _ | Fdopendir _ | Fstatat _ _ | Close _ | Alloc | Getenv _ | Time | Getpid
  | Rand | Strftime _ | Nprocessors | Gethostbyname _ | Glob _ | Uuidgen | Socket | Setsockopt _ _
  | Connect _ _ | Sleep _ | Getcwd _ | Getuid | Getgid | Getgrnam _ | Getgrouplist _ _ _ => true
  | _ => false
  end.

(** The paths whose entry or content a call may change. *)
Definition modifies (e : event) : list cstr :=
  let 'Ev c _ := e in
  match c with
  | Mkdir p _ | Rmdir p | Unlink p | Chown p _ _ | Lchown p _ _ | Chmod p _
  | Setxattr p _ _ | Lsetxattr p _ _ | FopenW p | FopenA p | Fputs p _ | Fclose p | OpenRW p _
  | Bind _ p => [p]
  | Rename a b => [a; b]
  | Mount _ t _ _ _ | Umount2 t _ => [t]
  | _ => []
  end.

(** The threads a call starts. *)
Definition spawns (e : event) : option thread :=
  let 'Ev c _ := e in match c with PthreadCreate t => Some t | _ => None end.

(** ** The daemon state *)

Record dstate (W : Type) := DState {
  world : W;
  errno : Z;
  trace : list event;      (** the calls made so far, oldest first *)
  tracked : table;         (** mountinfo.c: [tracked], [tracked_used] *)
  cfg : daemon_config;     (** daemon_config.c: [cfg] *)
  lock_fd : Z;             (** locks.c: [fd] *)
  orig_ns : Z              (** namespace.c: [orig_ns] *)
}.
Arguments DState {W}.
Arguments world {W}.
Arguments errno {W}.
Arguments trace {W}.
Arguments tracked {W}.
Arguments cfg {W}.
Arguments lock_fd {W}.
Arguments orig_ns {W}.

Section monad.
Context {W : Type}.

Definition M (A : Type) : Type := dstate W → A * dstate W.

Definition ret {A} (a : A) : M A := λ s, (a, s).
Definition bind {A B} (m : M A) (f : A → M B) : M B := λ s, let '(a, s') := m s in f a s'.

Definition get_errno : M Z := λ s, (errno s, s).
Definition set_errno (e : Z) : M unit :=
  λ s, (tt, DState (world s) e (trace s) (tracked s) (cfg s) (lock_fd s) (orig_ns s)).
Definition get_cfg : M daemon_config := λ s, (cfg s, s).
Definition set_cfg (c : daemon_config) : M unit :=
  λ s, (tt, DState (world s) (errno s) (trace s) (tracked s) c (lock_fd s) (orig_ns s)).
Definition get_lock_fd : M Z := λ s, (lock_fd s, s).
Definition set_lock_fd (fd : Z) : M unit :=
  λ s, (tt, DState (world s) (errno s) (trace s) (tracked s) (cfg s) fd (orig_ns s)).
Definition get_orig_ns : M Z := λ s, (orig_ns s, s).
Definition set_orig_ns (fd : Z) : M unit :=
  λ s, (tt, DState (world s) (errno s) (trace s) (tracked s) (cfg s) (lock_fd s) fd).

(** An operation of the tracking table, atomic under its lock. *)
Definition with_table {A} (f : table → A * table) : M A :=
  λ s, let '(a, t) := f (tracked s) in
       (a, DState (world s) (errno s) (trace s) t (cfg s) (lock_fd s) (orig_ns s)).
Definition read_table {A} (f : table → A) : M A := λ s, (f (tracked s), s).
Definition update_table (f : table → table) : M unit := with_table (λ t, (tt, f t)).
End monad.
Arguments M : clear implicits.

Notation "'let!' x := m 'in' k" := (bind m (fun x => k))
  (at level 10, x pattern, k at level 200) : daemon_scope.
Notation "m ;; k" := (bind m (fun _ => k)) (at level 100, k at level 200, right associativity) : daemon_scope.
Open Scope daemon_scope.

Section calls.
Context {W : Type} {K : Kernel W}.

(** Making a call: the kernel answers, the call is recorded. *)
Definition call {A} (c : syscall A) : M W A :=
  λ s, let '(r, w) := k_do c (world s) in
       (r, DState w (errno s) (trace s ++ [Ev c r]) (tracked s) (cfg s) (lock_fd s) (orig_ns s)).

(** A call that reports failure through [errno]. *)
Definition sys {A} (c : syscall (res A)) : M W (res A) :=
  let! r := call c in
  match r with
  | inl e => set_errno e ;; ret r
  | inr _ => ret r
  end.

(** The same when only success matters. *)
Definition try {A} (c : syscall (res A)) : M W bool :=
  let! r := sys c in ret (negb (failed r)).
End calls.

(** ** Loops *)

(** What an iteration does: go on, or leave the loop. *)
Inductive loop (B : Type) := Continue (b : B) | Break (b : B).
Arguments Continue {B}.
Arguments Break {B}.

(** [for (x : l)] with [break], over a loop state. *)
Fixpoint mfor {W A B} (l : list A) (b : B) (body : B → A → M W (loop B)) : M W B :=
  match l with
  | [] => ret b
  | x :: l' =>
    let! r := body b x in
    match r with
    | Continue b' => mfor l' b' body
    | Break b' => ret b'
    end
  end.

(** A loop without [break]. *)
Definition meach {W A B} (l : list A) (b : B) (body : B → A → M W B) : M W B :=
  mfor l b (λ b x, let! b' := body b x in ret (Continue b')).

(** ** Weakest preconditions *)

Section wp.
Context {W : Type}.
Implicit Types s : dstate W.

Definition wp {A} (m : M W A) (Q : A → dstate W → Prop) (s : dstate W) : Prop :=
  let '(a, s') := m s in Q a s'.

Lemma wp_ret {A} (a : A) Q s : wp (ret a) Q s ↔ Q a s.
Proof. done. Qed.

Lemma wp_bind {A B} (m : M W A) (f : A → M W B) Q s :
  wp (bind m f) Q s ↔ wp m (λ a s', wp (f a) Q s') s.
Proof. unfold wp, bind. by destruct (m s). Qed.

Lemma wp_mono {A} (m : M W A) (Q Q' : A → dstate W → Prop) s :
  wp m Q s → (∀ a s', Q a s' → Q' a s') → wp m Q' s.
Proof. unfold wp. destruct (m s). eauto. Qed.

Lemma wp_and {A} (m : M W A) (Q Q' : A → dstate W → Prop) s :
  wp m Q s → wp m Q' s → wp m (λ a s', Q a s' ∧ Q' a s') s.
Proof. unfold wp. by destruct (m s). Qed.

Lemma wp_eq {A} (m m' : M W A) (Q : A → dstate W → Prop) s : m s = m' s → wp m' Q s → wp m Q s.
Proof. unfold wp. by intros ->. Qed.

Lemma wp_run {A} (m : M W A) (Q : A → dstate W → Prop) s : wp m Q s ↔ Q (fst (m s)) (snd (m s)).
Proof. unfold wp. by destruct (m s). Qed.
End wp.

(** *** Rules for loops *)

Section wp_loops.
Context {W A B : Type}.
Implicit Types s : dstate W.

(** [I] holds of the items already processed; a [break] must give [Q]. *)
Lemma wp_mfor (I : list A → B → dstate W → Prop) (Q : B → dstate W → Prop) l b body s :
  I [] b s →
  (∀ done x rest b s, l = done ++ x :: rest → I done b s →
     wp (body b x) (λ r s', match r with
                            | Continue b' => I (done ++ [x]) b' s'
                            | Break b' => Q b' s'
                            end) s) →
  (∀ b s, I l b s → Q b s) →
  wp (mfor l b body) Q s.
Proof.
  intros HI Hstep Hend.
  assert (∀ rest done b s, l = done ++ rest → I done b s → wp (mfor rest b body) Q s) as Hgen.
  { clear HI. induction rest as [|x rest IH]; intros done b' s' -> HI; simpl.
    - apply wp_ret. rewrite app_nil_r in Hend. by apply Hend.
    - apply wp_bind. eapply wp_mono; [by apply (Hstep done x rest)|].
      intros [b''|b''] s'' Hr; [|by apply wp_ret].
      apply (IH (done ++ [x])); [by rewrite <- app_assoc|done]. }
  by apply (Hgen l []).
Qed.

Lemma wp_meach (I : list A → B → dstate W → Prop) (Q : B → dstate W → Prop) l b body s :
  I [] b s →
  (∀ done x rest b s, l = done ++ x :: rest → I done b s →
     wp (body b x) (λ b' s', I (done ++ [x]) b' s') s) →
  (∀ b s, I l b s → Q b s) →
  wp (meach l b body) Q s.
Proof.
  intros HI Hstep Hend. apply (wp_mfor I); [done| |done].
  intros done x rest b' s' El HI'. apply wp_bind. eapply wp_mono; [by eapply Hstep|].
  intros b'' s'' H. by apply wp_ret.
Qed.

Lemma meach_cons (x : A) l (b : B) (body : B → A → M W B) s :
  meach (x :: l) b body s = bind (body b x) (λ b', meach l b' body) s.
Proof. unfold meach. cbn [mfor]. unfold bind, ret. by destruct (body b x s). Qed.

(** Loops whose bodies agree agree. *)
Lemma mfor_ext l (b : B) (f g : B → A → M W (loop B)) s :
  (∀ b x s, x ∈ l → f b x s = g b x s) → mfor l b f s = mfor l b g s.
Proof.
  revert b s. induction l as [|x l IH]; intros b s H; simpl; [done|].
  unfold bind. rewrite H by left. destruct (g b x s) as [[b'|b'] s']; [|done].
  apply IH. intros. apply H. by right.
Qed.

Lemma meach_ext l (b : B) (f g : B → A → M W B) s :
  (∀ b x s, x ∈ l → f b x s = g b x s) → meach l b f s = meach l b g s.
Proof. intros H. apply mfor_ext. intros. unfold bind. by rewrite H. Qed.
End wp_loops.

(** ** Frames *)

(** [respects R m]: from every state, [m] ends in a state related by [R].  With
    a preorder [R] the fact composes along sequences, branches and loops. *)
Definition respects {W A} (R : dstate W → dstate W → Prop) (m : M W A) : Prop :=
  ∀ s, R s (snd (m s)).

Section respects.
Context {W : Type} (R : dstate W → dstate W → Prop) {HR : PreOrder R}.

Lemma respects_ret {A} (a : A) : respects R (ret a).
Proof. intros s. reflexivity. Qed.

Lemma respects_bind {A B} (m : M W A) (f : A → M W B) :
  respects R m → (∀ a, respects R (f a)) → respects R (bind m f).
Proof.
  intros Hm Hf s. unfold bind. specialize (Hm s). destruct (m s) as [a s'].
  etrans; [apply Hm|apply Hf].
Qed.

(** With what is known of the first result. *)
Lemma respects_bind_post {A B} (Q : A → Prop) (m : M W A) (f : A → M W B) :
  respects R m → (∀ s, wp m (λ a _, Q a) s) → (∀ a, Q a → respects R (f a)) → respects R (bind m f).
Proof.
  intros Hm HQ Hf s. unfold bind. specialize (Hm s). specialize (HQ s). unfold wp in HQ.
  destruct (m s) as [a s']. etrans; [apply Hm|by apply Hf].
Qed.

Lemma respects_mfor {A B} (l : list A) (b : B) body :
  (∀ b x, x ∈ l → respects R (body b x)) → respects R (mfor l b body).
Proof.
  revert b. induction l as [|x l IH]; intros b Hb; simpl; [apply respects_ret|].
  apply respects_bind; [apply Hb; left|].
  intros [b'|b']; [|apply respects_ret]. apply IH. intros ? ? ?. apply Hb. by right.
Qed.

Lemma respects_meach {A B} (l : list A) (b : B) body :
  (∀ b x, x ∈ l → respects R (body b x)) → respects R (meach l b body).
Proof.
  intros H. apply respects_mfor. intros b' x Hx.
  apply respects_bind; [by apply H|]. intros. apply respects_ret.
Qed.

Lemma respects_get_errno : respects R get_errno.
Proof. intros s. reflexivity. Qed.
Lemma respects_get_cfg : respects R get_cfg.
Proof. intros s. reflexivity. Qed.
Lemma respects_get_lock_fd : respects R get_lock_fd.
Proof. intros s. reflexivity. Qed.
Lemma respects_get_orig_ns : respects R get_orig_ns.
Proof. intros s. reflexivity. Qed.
Lemma respects_read_table {A} (f : table → A) : respects R (read_table f).
Proof. intros s. reflexivity. Qed.
End respects.

Lemma wp_respects {W A} (R : dstate W → dstate W → Prop) (m : M W A) s :
  respects R m → wp m (λ _ s', R s s') s.
Proof. intros H. apply wp_run, H. Qed.

Create HintDb frame.
#[export] Hint Resolve respects_ret respects_get_errno respects_get_cfg respects_get_lock_fd
  respects_get_orig_ns respects_read_table : frame.

(** *** Frame relations *)

Section frames.
Context {W : Type} {K : Kernel W}.
Implicit Types s : dstate W.

(** The calls added to the trace all satisfy [P]. *)
Definition emits (P : event → Prop) s s' : Prop :=
  ∃ l, trace s' = trace s ++ l ∧ Forall P l.

(** A part of the state is left as it was. *)
Definition keeps {X} (f : dstate W → X) s s' : Prop := f s' = f s.

(** The daemon's static variables. *)
Definition statics s : table * daemon_config * Z * Z := (tracked s, cfg s, lock_fd s, orig_ns s).

#[export] Instance emits_preorder P : PreOrder (emits P).
Proof.
  split.
  - intros s. exists []. by rewrite app_nil_r.
  - intros s1 s2 s3 (l1 & H1 & F1) (l2 & H2 & F2). exists (l1 ++ l2).
    rewrite H2, H1, app_assoc. split; [done|]. by apply Forall_app.
Qed.

#[export] Instance keeps_preorder {X} (f : dstate W → X) : PreOrder (keeps f).
Proof. split; [done|]. unfold keeps. intros s1 s2 s3. congruence. Qed.

Lemma emits_mono (P Q : event → Prop) s s' : (∀ e, P e → Q e) → emits P s s' → emits Q s s'.
Proof. intros H (l & ? & ?). exists l. split; [done|]. by eapply Forall_impl. Qed.

Lemma respects_mono {A} (R R' : dstate W → dstate W → Prop) (m : M W A) :
  (∀ s s', R s s' → R' s s') → respects R m → respects R' m.
Proof. intros H Hm s. apply H, Hm. Qed.

Lemma emits_call {A} (P : event → Prop) (c : syscall A) :
  (∀ r, P (Ev c r)) → respects (emits P) (call c).
Proof. intros H s. unfold call. destruct (k_do c (world s)) as [r w]. exists [Ev c r]. by repeat constructor. Qed.

Lemma emits_set_errno (P : event → Prop) e : respects (emits P) (@set_errno W e).
Proof. intros s. exists []. by rewrite app_nil_r. Qed.

Lemma emits_set_lock_fd (P : event → Prop) e : respects (emits P) (@set_lock_fd W e).
Proof. intros s. exists []. by rewrite app_nil_r. Qed.

Lemma emits_set_orig_ns (P : event → Prop) e : respects (emits P) (@set_orig_ns W e).
Proof. intros s. exists []. by rewrite app_nil_r. Qed.

Lemma emits_with_table {A} (P : event → Prop) (f : table → A * table) :
  respects (emits P) (@with_table W A f).
Proof. intros s. unfold with_table. destruct (f (tracked s)). exists []. by rewrite app_nil_r. Qed.

Lemma emits_sys {A} (P : event → Prop) (c : syscall (res A)) :
  (∀ r, P (Ev c r)) → respects (emits P) (sys c).
Proof.
  intros H. apply respects_bind; [apply _|by apply emits_call|]. intros [e|a].
  - apply respects_bind; [apply _|apply emits_set_errno|]. intros. apply respects_ret, _.
  - apply respects_ret, _.
Qed.

Lemma emits_try {A} (P : event → Prop) (c : syscall (res A)) :
  (∀ r, P (Ev c r)) → respects (emits P) (try c).
Proof.
  intros H. apply respects_bind; [apply _|by apply emits_sys|].
  intros. apply respects_ret, _.
Qed.

Lemma statics_call {A} (c : syscall A) : respects (keeps statics) (call c).
Proof. intros s. unfold call. by destruct (k_do c (world s)). Qed.

Lemma statics_set_errno e : respects (keeps statics) (@set_errno W e).
Proof. done. Qed.

Lemma statics_sys {A} (c : syscall (res A)) : respects (keeps statics) (sys c).
Proof.
  apply respects_bind; [apply _|by apply statics_call|]. intros [e|a].
  - apply respects_bind; [apply _|apply statics_set_errno|]. intros. apply respects_ret, _.
  - apply respects_ret, _.
Qed.

Lemma statics_try {A} (c : syscall (res A)) : respects (keeps statics) (try c).
Proof. apply respects_bind; [apply _|apply statics_sys|]. intros. apply respects_ret, _. Qed.

(** The three other static variables are untouched when the lock or the
    namespace descriptor changes. *)
Lemma keeps_tracked_lock_fd e : respects (keeps tracked) (@set_lock_fd W e).
Proof. done. Qed.
Lemma keeps_tracked_orig_ns e : respects (keeps tracked) (@set_orig_ns W e).
Proof. done. Qed.
Lemma keeps_cfg_lock_fd e : respects (keeps cfg) (@set_lock_fd W e).
Proof. done. Qed.
Lemma keeps_cfg_orig_ns e : respects (keeps cfg) (@set_orig_ns W e).
Proof. done. Qed.
Lemma keeps_cfg_with_table {A} (f : table → A * table) : respects (keeps cfg) (@with_table W A f).
Proof. intros s. unfold with_table. by destruct (f (tracked s)). Qed.

Lemma statics_keeps_tracked {A} (m : M W A) : respects (keeps statics) m → respects (keeps tracked) m.
Proof. intros H s. specialize (H s). by injection H. Qed.
Lemma statics_keeps_cfg {A} (m : M W A) : respects (keeps statics) m → respects (keeps cfg) m.
Proof. intros H s. specialize (H s). by injection H. Qed.
Lemma statics_keeps_lock_fd {A} (m : M W A) : respects (keeps statics) m → respects (keeps lock_fd) m.
Proof. intros H s. specialize (H s). by injection H. Qed.

(** Symbolic execution of one call, whatever the kernel answers. *)
Lemma wp_call {A} (c : syscall A) (Q : A → dstate W → Prop) s :
  (∀ r s', k_do c (world s) = (r, world s') → statics s' = statics s → errno s' = errno s →
     trace s' = trace s ++ [Ev c r] → Q r s') →
  wp (call c) Q s.
Proof. intros H. unfold wp, call. destruct (k_do c (world s)) as [r w] eqn:E. by apply H. Qed.

Lemma wp_sys {A} (c : syscall (res A)) (Q : res A → dstate W → Prop) s :
  (∀ r s', k_do c (world s) = (r, world s') → statics s' = statics s →
     errno s' = match r with inl e => e | inr _ => errno s end →
     trace s' = trace s ++ [Ev c r] → Q r s') →
  wp (sys c) Q s.
Proof.
  intros H. unfold sys. apply wp_bind, wp_call. intros [e|a] s' Hk Hst He Ht.
  - apply wp_bind. unfold wp, set_errno, ret. by apply H.
  - apply wp_ret. by apply H.
Qed.
End frames.

#[export] Hint Resolve emits_set_errno emits_set_lock_fd emits_set_orig_ns emits_with_table
  statics_call statics_set_errno statics_sys statics_try
  keeps_tracked_lock_fd keeps_tracked_orig_ns keeps_cfg_lock_fd keeps_cfg_orig_ns
  keeps_cfg_with_table : frame.
#[export] Hint Extern 5 (respects (keeps tracked) _) => apply statics_keeps_tracked : frame.
#[export] Hint Extern 5 (respects (keeps cfg) _) => apply statics_keeps_cfg : frame.
#[export] Hint Extern 5 (respects (keeps lock_fd) _) => apply statics_keeps_lock_fd : frame.

(** Reduces [respects R m] by following the text of [m]; what remains is that
    the calls made are among those that [R] allows. *)
Ltac respects_step :=
  match goal with
  | |- respects _ (bind _ _) => apply respects_bind; [| |intro]
  | |- respects _ (ret _) => apply respects_ret
  | |- respects _ (meach _ _ _) => apply respects_meach; [|intros ? ? ?]
  | |- respects _ (mfor _ _ _) => apply respects_mfor; [|intros ? ? ?]
  | |- respects _ (let '(_, _) := ?x in _) => destruct x
  | |- respects _ (if ?b then _ else _) => destruct b
  | |- respects _ (match ?x with _ => _ end) => destruct x
  | |- PreOrder _ => typeclasses eauto
  | |- respects (emits _) (call _) => apply emits_call; intro
  | |- respects (emits _) (sys _) => apply emits_sys; intro
  | |- respects (emits _) (try _) => apply emits_try; intro
  | |- respects _ _ => solve [eauto with frame typeclass_instances]
  end.
Ltac respects := repeat respects_step.

(** ** Laws of the kernel that some theorems rely on *)

Definition res_err {A} (r : res A) : option Z := match r with inl e => Some e | inr _ => None end.

(** The error number of an answer, for the calls that have one. *)
Definition error_of {A} (c : syscall A) : A → option Z :=
  match c in syscall A return A → option Z with
  | Mkdir _ _ => res_err | Rmdir _ => res_err | Unlink _ => res_err | Rename _ _ => res_err
  | StatPath _ => res_err | Lstat _ => res_err | Statfs _ => res_err | Statvfs _ => res_err
  | Access _ _ => res_err | Chown _ _ _ => res_err | Lchown _ _ _ => res_err
  | Chmod _ _ => res_err | Setxattr _ _ _ => res_err | Lsetxattr _ _ _ => res_err
  | Opendir _ => res_err | ReadFile _ => res_err | FopenW _ => res_err | Fputs _ _ => res_err
  | Fclose _ => res_err | OpenRW _ _ => res_err | OpenRO _ => res_err
  | OpenDirNofollow _ => res_err | FchownEmpty _ _ => res_err | Fdopendir _ => res_err
  | Fchownat _ _ _ => res_err | Fstatat _ _ => res_err | Lockf _ _ => res_err
  | Close _ => res_err | Setns _ => res_err | Mount _ _ _ _ _ => res_err
  | Umount2 _ _ => res_err | Setpriority _ => res_err | Alloc => res_err
  | Connect _ _ => res_err | Write _ _ => res_err | Read _ _ => res_err
  | System _ => res_err | Socket => res_err | Setsockopt _ _ => res_err | Bind _ _ => res_err
  | Listen _ _ => res_err | Accept _ => res_err | FopenA _ => res_err | Getcwd _ => res_err
  | Fork => res_err | Waitpid _ => res_err | Setsid => res_err | Chdir _ => res_err
  | Dup2 _ _ => res_err
  | _ => λ _, None
  end.

(** A failing call sets [errno] to a positive error number. *)
Class ErrnoPositive {W} (K : Kernel W) : Prop :=
  errno_positive : ∀ A (c : syscall A) w e, error_of c (fst (k_do c w)) = Some e → 0 < e.
