(* ===== verification/SimKernel.v ===== *)
(** * A concrete kernel

    A small executable file system with mounts, used to show that the
    hypotheses of the theorems can hold and to run the daemon's handlers on
    concrete inputs.  It models no code of the repository. *)
From S2P Require Import Prelude CString Config MountTable OS.
Open Scope Z_scope.

Record sim := MkSim {
  sim_dirs : list cstr;
  sim_files : list (cstr * list ascii);
  sim_mounts : list cstr;
  sim_owner : Z;
  sim_input : list ascii;   (** what the peer of a socket has sent *)
  sim_output : list ascii   (** what was written to it *)
}.
Definition Sim d f m o : sim := MkSim d f m o [] [].

Definition set_dirs d w := MkSim d (sim_files w) (sim_mounts w) (sim_owner w) (sim_input w) (sim_output w).
Definition set_files f w := MkSim (sim_dirs w) f (sim_mounts w) (sim_owner w) (sim_input w) (sim_output w).
Definition set_mounts m w := MkSim (sim_dirs w) (sim_files w) m (sim_owner w) (sim_input w) (sim_output w).
Definition set_input i w := MkSim (sim_dirs w) (sim_files w) (sim_mounts w) (sim_owner w) i (sim_output w).
Definition set_output o w := MkSim (sim_dirs w) (sim_files w) (sim_mounts w) (sim_owner w) (sim_input w) o.

Definition mem (p : cstr) (l : list cstr) : bool := existsb (str_eqb p) l.
Definition remove_path (p : cstr) (l : list cstr) : list cstr := List.filter (λ q, negb (str_eqb p q)) l.

Fixpoint file_content (p : cstr) (l : list (cstr * list ascii)) : option (list ascii) :=
  match l with
  | [] => None
  | (q, c) :: l' => if str_eqb p q then Some c else file_content p l'
  end.
Definition remove_file (p : cstr) (l : list (cstr * list ascii)) : list (cstr * list ascii) :=
  List.filter (λ e, negb (str_eqb p (fst e))) l.

(** Everything before the last slash. *)
Definition parent (p : cstr) : cstr :=
  reverse (drop 1 (drop_while (λ c, negb (char_eqb "/" c)) (reverse p))).

Definition sim_entry (dir p : cstr) (ty : dtype) : list dirent :=
  if str_eqb (parent p) dir && nonempty p then [Dirent (drop (S (length dir)) p) ty] else [].
Definition sim_readdir (dir : cstr) (w : sim) : list dirent :=
  concat (map (λ p, sim_entry dir p DT_DIR) (sim_dirs w)) ++
  concat (map (λ e, sim_entry dir (fst e) DT_OTHER) (sim_files w)).

(** A path that the kernel's mount table shows as it is, in a line that a
    buffer of 4096 bytes holds. *)
Definition plain_path (p : cstr) : bool :=
  forallb (λ c, negb (char_eqb c " ") && negb (char_eqb c LF) && negb (char_eqb c NUL)) p && (slen p <? 4000).

(** The kernel's mount table, one line per mount. *)
Definition sim_mountinfo (w : sim) : list ascii :=
  text (map (λ m, lit "1 1 0:1 / " ++ m ++ lit " rw") (List.filter plain_path (sim_mounts w))).

Definition sim_exists (p : cstr) (w : sim) : bool :=
  mem p (sim_dirs w) || match file_content p (sim_files w) with Some _ => true | None => false end.

Definition sim_stat (p : cstr) (w : sim) : res stat_t :=
  if sim_exists p w then inr (Stat (sim_owner w) 1 0 (mem p (sim_dirs w))) else inl ENOENT.

Definition sim_do (A : Type) (c : syscall A) (w : sim) : A * sim :=
  match c in syscall A return A * sim with
  | Mkdir p _ => if sim_exists p w then (inl EEXIST, w) else (inr tt, set_dirs (p :: sim_dirs w) w)
  | Rmdir p => if mem p (sim_dirs w) then (inr tt, set_dirs (remove_path p (sim_dirs w)) w) else (inl ENOENT, w)
  | Unlink p =>
    if sim_exists p w then (inr tt, set_files (remove_file p (sim_files w)) w) else (inl ENOENT, w)
  | Rename a b =>
    match file_content a (sim_files w) with
    | Some c => (inr tt, set_files ((b, c) :: remove_file b (remove_file a (sim_files w))) w)
    | None =>
      if mem a (sim_dirs w) then (inr tt, set_dirs (b :: remove_path a (sim_dirs w)) w) else (inl ENOENT, w)
    end
  | StatPath p => (sim_stat p w, w)
  | Lstat p => (sim_stat p w, w)
  | Statfs p => (inr (if mem p (sim_mounts w) then OVERLAYFS_SUPER_MAGIC else 0xEF53), w)
  | Statvfs p => (inr (1000, 500), w)
  | Access p _ => (if sim_exists p w then inr tt else inl ENOENT, w)
  | Chown p _ _ => (if sim_exists p w then inr tt else inl ENOENT, w)
  | Lchown p _ _ => (if sim_exists p w then inr tt else inl ENOENT, w)
  | Chmod p _ => (if sim_exists p w then inr tt else inl ENOENT, w)
  | Setxattr p _ _ => (if sim_exists p w then inr tt else inl ENOENT, w)
  | Lsetxattr p _ _ => (if sim_exists p w then inr tt else inl ENOENT, w)
  | Opendir p => (if mem p (sim_dirs w) then inr (sim_readdir p w) else inl ENOENT, w)
  | ReadFile p =>
    if str_eqb p PROC_MOUNTINFO then (inr (sim_mountinfo w), w)
    else match file_content p (sim_files w) with
         | Some c => (inr c, w)
         | None => (inl ENOENT, w)
         end
  | FopenW p => (inr tt, set_files ((p, []) :: remove_file p (sim_files w)) w)
  | Fputs p d =>
    match file_content p (sim_files w) with
    | Some c => (inr tt, set_files ((p, c ++ d) :: remove_file p (sim_files w)) w)
    | None => (inl EIO, w)
    end
  | Fclose _ => (inr tt, w)
  | OpenRW p _ => (if mem (parent p) (sim_dirs w) then inr 7 else inl ENOENT, w)
  | OpenRO _ => (inr 8, w)
  | OpenDirNofollow p => (if mem p (sim_dirs w) then inr 9 else if sim_exists p w then inl ENOTDIR else inl ENOENT, w)
  | FchownEmpty _ _ => (inr tt, w)
  | Fdopendir _ => (inr [], w)
  | Fchownat _ _ _ => (inr tt, w)
  | Fstatat _ _ => (inl ENOENT, w)
  | Lockf _ _ => (inr tt, w)
  | Close _ => (inr tt, w)
  | Setns _ => (inr tt, w)
  | Mount _ t _ _ _ => (inr tt, set_mounts (t :: sim_mounts w) w)
  | Umount2 t _ =>
    if mem t (sim_mounts w) then (inr tt, set_mounts (remove_path t (sim_mounts w)) w) else (inl EINVAL, w)
  | System _ => (inr 0, w)
  | PthreadCreate _ => (0, w)
  | Alloc => (inr tt, w)
  | Getenv _ => (None, w)
  | Time => (1000, w)
  | Getpid => (42, w)
  | Rand => (4, w)
  | Strftime _ => (lit "2026-01-01T00:00:00", w)
  | Nprocessors => (4, w)
  | Setpriority _ => (inr tt, w)
  | Gethostbyname _ => (Some (lit "10.0.0.1"), w)
  | Glob _ => (GlobNoMatch, w)
  | Uuidgen => (UuidOutput (lit "0a0b" ++ [LF]) 0, w)
  | Socket => (inr 5, w)
  | Setsockopt _ _ => (inr tt, w)
  | Connect _ _ => (inr tt, w)
  | Bind _ _ => (inr tt, w)
  | Listen _ _ => (inr tt, w)
  | Accept _ => (inr 6, w)
  | Sleep _ => (tt, w)
  | FopenA p =>
    if mem (parent p) (sim_dirs w)
    then (inr tt, if sim_exists p w then w else set_files ((p, []) :: sim_files w) w) else (inl ENOENT, w)
  | Print _ _ => (tt, w)
  | Getcwd _ => (inr (lit "/b"), w)
  | Getuid => (1000, w)
  | Getgid => (1000, w)
  | Getgrnam _ => (None, w)
  | Getgrouplist _ _ _ => (None, w)
  | Fork => (inr 43, w)
  | Waitpid _ => (inr 0, w)
  | Setsid => (inr 43, w)
  | Chdir _ => (inr tt, w)
  | Dup2 _ _ => (inr tt, w)
  | Exit _ => (tt, w)
  | Write _ d => (inr (slen d), set_output (sim_output w ++ d) w)
  | Read _ n => (inr (take (Z.to_nat n) (sim_input w)), set_input (drop (Z.to_nat n) (sim_input w)) w)
  end.

(** Matching of [*] and [?]. *)
Fixpoint wild (pattern s : cstr) : bool :=
  match pattern with
  | [] => negb (nonempty s)
  | c :: pattern' =>
    if char_eqb c "*" then
      (fix star (s : cstr) : bool :=
         wild pattern' s || match s with [] => false | _ :: s' => star s' end) s
    else
      match s with
      | [] => false
      | d :: s' => (char_eqb c "?" || char_eqb c d) && wild pattern' s'
      end
  end.

#[export] Instance sim_kernel : Kernel sim :=
  {| k_do := sim_do; strerror e := lit "errno " ++ dec e; fnmatch := wild |}.

(** A kernel that behaves as [K] except for the calls that [f] answers. *)
Definition override {W} (K : Kernel W) (f : ∀ A, syscall A → option A) : Kernel W := {|
  k_do A c w := match f A c with Some a => (a, w) | None => @k_do W K A c w end;
  strerror := @strerror W K;
  fnmatch := @fnmatch W K
|}.

#[export] Instance sim_errno_positive : ErrnoPositive sim_kernel.
Proof.
  intros A c w e. destruct c; simpl; unfold sim_stat; repeat case_match; simpl;
    first [discriminate | injection 1 as <-; by vm_compute].
Qed.

(** A state of the daemon over this kernel. *)
Definition sim_state (w : sim) (t : table) (c : daemon_config) : dstate sim := DState w 0 [] t c (-1) (-1).
Definition sim0 : sim := Sim [lit "/run"; lit "/ov"; lit "/b"; lit "/lower"] [] [] 1000.
