(* ===== verification/Storage.v ===== *)
(** * A file system that works

    The interface between the kernel and the parts of the daemon that keep
    text files: which file has which content, what each call does to it, and
    that calls succeed.  Theorems on [/etc/exports] and on the mount records
    are proved against this class; the executable kernel is an instance. *)
From S2P Require Import Prelude CString Config MountTable OS SimKernel.
Open Scope Z_scope.

Class HealthyStore (W : Type) (K : Kernel W) := {
  fs_files : W → gmap cstr (list ascii);
  (** A call that is not on files leaves them alone. *)
  fs_readonly : ∀ A (c : syscall A) w, readonly (Ev c (fst (k_do c w))) = true →
    fs_files (snd (k_do c w)) = fs_files w;
  fs_system : ∀ cmd w, fst (k_do (System cmd) w) = inr 0 ∧ fs_files (snd (k_do (System cmd) w)) = fs_files w;
  fs_alloc : ∀ w, fst (k_do Alloc w) = inr tt;
  fs_read : ∀ p w content, p ≠ PROC_MOUNTINFO → fs_files w !! p = Some content →
    fst (k_do (ReadFile p) w) = inr content;
  fs_fopenw : ∀ p w, fst (k_do (FopenW p) w) = inr tt ∧
    fs_files (snd (k_do (FopenW p) w)) = <[p := []]> (fs_files w);
  fs_fputs : ∀ p d w content, fs_files w !! p = Some content →
    fst (k_do (Fputs p d) w) = inr tt ∧
    fs_files (snd (k_do (Fputs p d) w)) = <[p := content ++ d]> (fs_files w);
  fs_fclose : ∀ p w, fst (k_do (Fclose p) w) = inr tt ∧ fs_files (snd (k_do (Fclose p) w)) = fs_files w;
  fs_rename : ∀ a b w content, fs_files w !! a = Some content →
    fst (k_do (Rename a b) w) = inr tt ∧
    fs_files (snd (k_do (Rename a b) w)) = <[b := content]> (delete b (delete a (fs_files w)))
}.

(** ** Symbolic execution over such a kernel *)

Section rules.
Context {W : Type} {K : Kernel W} {HS : HealthyStore W K}.
Implicit Types s : dstate W.

Definition files s : gmap cstr (list ascii) := fs_files (world s).

Lemma wp_readonly {A} (c : syscall A) (Q : A → dstate W → Prop) s :
  (∀ r, readonly (Ev c r) = true) →
  (∀ r s', files s' = files s → Q r s') → wp (call c) Q s.
Proof.
  intros Hro H. apply wp_call. intros r s' Hk _ _ _. apply H.
  pose proof (fs_readonly _ c (world s) (Hro _)) as Hf. by rewrite Hk in Hf.
Qed.

Lemma wp_readonly_sys {A} (c : syscall (res A)) (Q : res A → dstate W → Prop) s :
  (∀ r, readonly (Ev c r) = true) →
  (∀ r s', files s' = files s → Q r s') → wp (sys c) Q s.
Proof.
  intros Hro H. apply wp_sys. intros r s' Hk _ _ _. apply H.
  pose proof (fs_readonly _ c (world s) (Hro _)) as Hf. by rewrite Hk in Hf.
Qed.

Lemma wp_readonly_try {A} (c : syscall (res A)) (Q : bool → dstate W → Prop) s :
  (∀ r, readonly (Ev c r) = true) →
  (∀ r s', files s' = files s → Q r s') → wp (try c) Q s.
Proof. intros Hro H. apply wp_bind, wp_readonly_sys; [done|]. intros r s' Hf. by apply wp_ret, H. Qed.

Lemma wp_system cmd (Q : res Z → dstate W → Prop) s :
  (∀ s', files s' = files s → Q (inr 0) s') → wp (sys (System cmd)) Q s.
Proof.
  intros H. apply wp_sys. intros r s' Hk _ _ _. destruct (fs_system cmd (world s)) as [Hr Hf].
  rewrite Hk in Hr, Hf. simpl in Hr. subst r. by apply H.
Qed.

Lemma wp_alloc (Q : bool → dstate W → Prop) s :
  (∀ s', files s' = files s → Q true s') → wp (try Alloc) Q s.
Proof.
  intros H. apply wp_bind, wp_sys. intros r s' Hk _ _ _.
  pose proof (fs_alloc (world s)) as Hr. pose proof (fs_readonly _ Alloc (world s) eq_refl) as Hf.
  rewrite Hk in Hr, Hf. simpl in Hr, Hf. subst r. by apply wp_ret, H.
Qed.

Lemma wp_read p content (Q : res (list ascii) → dstate W → Prop) s :
  p ≠ PROC_MOUNTINFO → files s !! p = Some content →
  (∀ s', files s' = files s → Q (inr content) s') → wp (sys (ReadFile p)) Q s.
Proof.
  intros Hp Hc H. apply wp_sys. intros r s' Hk _ _ _.
  pose proof (fs_read p (world s) content Hp Hc) as Hr.
  pose proof (fs_readonly _ (ReadFile p) (world s) eq_refl) as Hf.
  rewrite Hk in Hr, Hf. simpl in Hr, Hf. subst r. by apply H.
Qed.

Lemma wp_fopenw p (Q : bool → dstate W → Prop) s :
  (∀ s', files s' = <[p := []]> (files s) → Q true s') → wp (try (FopenW p)) Q s.
Proof.
  intros H. apply wp_bind, wp_sys. intros r s' Hk _ _ _.
  destruct (fs_fopenw p (world s)) as [Hr Hf].
  rewrite Hk in Hr, Hf. simpl in Hr. subst r. by apply wp_ret, H.
Qed.

Lemma wp_fputs p d content (Q : res unit → dstate W → Prop) s :
  files s !! p = Some content →
  (∀ s', files s' = <[p := content ++ d]> (files s) → Q (inr tt) s') → wp (sys (Fputs p d)) Q s.
Proof.
  intros Hc H. apply wp_sys. intros r s' Hk _ _ _.
  destruct (fs_fputs p d (world s) content Hc) as [Hr Hf].
  rewrite Hk in Hr, Hf. simpl in Hr. subst r. by apply H.
Qed.

Lemma wp_fputs_try p d content (Q : bool → dstate W → Prop) s :
  files s !! p = Some content →
  (∀ s', files s' = <[p := content ++ d]> (files s) → Q true s') → wp (try (Fputs p d)) Q s.
Proof. intros Hc H. eapply wp_bind, wp_fputs; [done|]. intros s' Hf. by apply wp_ret, H. Qed.

Lemma wp_fclose p (Q : res unit → dstate W → Prop) s :
  (∀ s', files s' = files s → Q (inr tt) s') → wp (sys (Fclose p)) Q s.
Proof.
  intros H. apply wp_sys. intros r s' Hk _ _ _. destruct (fs_fclose p (world s)) as [Hr Hf].
  rewrite Hk in Hr, Hf. simpl in Hr. subst r. by apply H.
Qed.

Lemma wp_fclose_try p (Q : bool → dstate W → Prop) s :
  (∀ s', files s' = files s → Q true s') → wp (try (Fclose p)) Q s.
Proof. intros H. apply wp_bind, wp_fclose. intros s' Hf. by apply wp_ret, H. Qed.

Lemma wp_rename a b content (Q : bool → dstate W → Prop) s :
  files s !! a = Some content →
  (∀ s', files s' = <[b := content]> (delete b (delete a (files s))) → Q true s') →
  wp (try (Rename a b)) Q s.
Proof.
  intros Hc H. apply wp_bind, wp_sys. intros r s' Hk _ _ _.
  destruct (fs_rename a b (world s) content Hc) as [Hr Hf].
  rewrite Hk in Hr, Hf. simpl in Hr. subst r. by apply wp_ret, H.
Qed.
End rules.

(** ** The executable kernel is one *)

Definition sim_map (l : list (cstr * list ascii)) : gmap cstr (list ascii) := list_to_map l.

Lemma file_content_lookup p l : file_content p l = sim_map l !! p.
Proof.
  unfold sim_map. induction l as [|[q c] l IH]; simpl; [by rewrite lookup_empty|].
  destruct (str_eqb p q) eqn:E; to_prop.
  - subst. by rewrite lookup_insert_eq.
  - by rewrite lookup_insert_ne.
Qed.

Lemma remove_file_delete p l : sim_map (remove_file p l) = delete p (sim_map l).
Proof.
  unfold sim_map, remove_file. induction l as [|[q c] l IH]; simpl; [by rewrite delete_empty|].
  destruct (str_eqb p q) eqn:E; to_prop; simpl; rewrite IH.
  - subst. by rewrite delete_insert_eq.
  - by rewrite delete_insert_ne.
Qed.

#[export] Program Instance sim_healthy : HealthyStore sim sim_kernel := {|
  fs_files w := sim_map (sim_files w)
|}.
Next Obligation.
  intros A c w. destruct c; try done; intros _; simpl; repeat case_match; done.
Qed.
Next Obligation. done. Qed.
Next Obligation. done. Qed.
Next Obligation.
  intros p w content Hp Hc. simpl in *. rewrite <- file_content_lookup in Hc.
  destruct (str_eqb p PROC_MOUNTINFO) eqn:E; to_prop; [done|]. by rewrite Hc.
Qed.
Next Obligation.
  intros p w. split; [done|]. simpl. by rewrite remove_file_delete, insert_delete_eq.
Qed.
Next Obligation.
  intros p d w content Hc. simpl in *. rewrite <- file_content_lookup in Hc. rewrite Hc.
  split; [done|]. simpl. by rewrite remove_file_delete, insert_delete_eq.
Qed.
Next Obligation. done. Qed.
Next Obligation.
  intros a b w content Hc. simpl in *. rewrite <- file_content_lookup in Hc. rewrite Hc.
  split; [done|]. simpl. by rewrite !remove_file_delete.
Qed.
