(* ===== verification/Json.v ===== *)
(** * The JSON library

    Jansson is not part of the repository: its operations are a parameter, the
    class [Jansson], with the signatures of [mbroker/include/jansson.h].  A
    [json_t *] that may be NULL is an [option json_t]; reference counts have no
    effect on values and are left out; a [double] is its 64-bit pattern.

    [parse_object] is a reference reader for the flat objects of strings and
    integers that the daemon writes, following RFC 8259 restricted to ASCII.
    The law [JanssonReads] says that the library reads such texts in the same
    way. *)
From S2P Require Import Prelude CString.
Open Scope Z_scope.

Inductive json_type :=
  JSON_OBJECT | JSON_ARRAY | JSON_STRING | JSON_INTEGER | JSON_REAL | JSON_TRUE | JSON_FALSE | JSON_NULL.

Class Jansson := {
  json_t : Type;
  json_typeof : json_t → json_type;
  json_object : json_t;
  json_array : json_t;
  json_string : cstr → json_t;
  json_integer : Z → json_t;
  json_real : Z → json_t;
  json_object_set_new : json_t → cstr → json_t → json_t;
  json_array_append_new : json_t → json_t → json_t;
  json_object_get : option json_t → cstr → option json_t;
  json_array_size : json_t → Z;
  json_array_get : json_t → Z → option json_t;
  json_string_value : option json_t → option cstr;
  json_integer_value : option json_t → Z;
  json_real_value : option json_t → Z;
  json_dumps : json_t → option cstr;
  json_loads : list ascii → option json_t
}.

Section macros.
Context {J : Jansson}.
Definition json_is_array (j : option json_t) : option json_t :=
  match j with
  | Some a => match json_typeof a with JSON_ARRAY => Some a | _ => None end
  | None => None
  end.
Definition json_is_true (j : option json_t) : bool :=
  match j with
  | Some a => match json_typeof a with JSON_TRUE => true | _ => false end
  | None => false
  end.
End macros.

(** ** Flat objects *)

Inductive flat := FString (s : cstr) | FInteger (z : Z).

Fixpoint assoc {V} (k : cstr) (l : list (cstr * V)) : option V :=
  match l with
  | [] => None
  | (k', v) :: l' => if str_eqb k k' then Some v else assoc k l'
  end.

Definition is_ws (c : ascii) : bool :=
  char_eqb c " " || char_eqb c LF || char_eqb c CR || char_eqb c TAB.
Definition skip_ws (s : list ascii) : list ascii := drop_while is_ws s.

(** The characters that a string may hold unescaped. *)
Definition json_plain (c : ascii) : bool :=
  (32 <=? code c) && (code c <? 128) && negb (char_eqb c QUOTE) && negb (char_eqb c BSLASH).

Definition unescape (c : ascii) : option ascii :=
  if char_eqb c QUOTE || char_eqb c BSLASH || char_eqb c "/" then Some c
  else if char_eqb c "n" then Some LF
  else if char_eqb c "r" then Some CR
  else if char_eqb c "t" then Some TAB
  else None.

(** The rest of a string after its opening quote: its value and what follows. *)
Fixpoint parse_string (s : list ascii) : option (cstr * list ascii) :=
  match s with
  | [] => None
  | c :: s' =>
    if char_eqb c QUOTE then Some ([], s')
    else if char_eqb c BSLASH then
      match s' with
      | [] => None
      | e :: s'' =>
        match unescape e, parse_string s'' with
        | Some x, Some (v, r) => Some (x :: v, r)
        | _, _ => None
        end
      end
    else if json_plain c then
      match parse_string s' with Some (v, r) => Some (c :: v, r) | None => None end
    else None
  end.

Definition parse_digits (s : list ascii) : option (Z * list ascii) :=
  match take_while isdigit s with
  | [] => None
  | ds => Some (digits_value 0 ds, drop_while isdigit s)
  end.

Definition parse_value (s : list ascii) : option (flat * list ascii) :=
  match s with
  | [] => None
  | c :: s' =>
    if char_eqb c QUOTE then
      match parse_string s' with Some (v, r) => Some (FString v, r) | None => None end
    else if char_eqb c "-" then
      match parse_digits s' with Some (z, r) => Some (FInteger (- z), r) | None => None end
    else
      match parse_digits s with Some (z, r) => Some (FInteger z, r) | None => None end
  end.

(** [expect c s]: [s] is blanks, [c] and the result. *)
Definition expect (c : ascii) (s : list ascii) : option (list ascii) :=
  match skip_ws s with
  | x :: s' => if char_eqb x c then Some s' else None
  | [] => None
  end.

Definition parse_member (s : list ascii) : option (cstr * flat * list ascii) :=
  match expect QUOTE s with
  | None => None
  | Some s1 =>
    match parse_string s1 with
    | None => None
    | Some (k, s2) =>
      match expect ":" s2 with
      | None => None
      | Some s3 =>
        match parse_value (skip_ws s3) with
        | None => None
        | Some (v, r) => Some (k, v, r)
        end
      end
    end
  end.

Fixpoint parse_members (fuel : nat) (s : list ascii) : option (list (cstr * flat) * list ascii) :=
  match fuel with
  | O => None
  | S fuel' =>
    match parse_member s with
    | None => None
    | Some (k, v, r) =>
      match expect "," r with
      | Some r' =>
        match parse_members fuel' r' with
        | Some (ms, r'') => Some ((k, v) :: ms, r'')
        | None => None
        end
      | None =>
        match expect "}" r with
        | Some r' => Some ([(k, v)], r')
        | None => None
        end
      end
    end
  end.

(** A non-empty flat object that fills the text. *)
Definition parse_object (s : list ascii) : option (list (cstr * flat)) :=
  match expect "{" s with
  | None => None
  | Some s1 =>
    match parse_members (length s1) s1 with
    | Some (ms, r) => if nonempty (skip_ws r) then None else Some ms
    | None => None
    end
  end.

(** The library reads flat objects with distinct keys as [parse_object]. *)
Class JanssonReads (J : Jansson) : Prop := {
  jansson_reads : ∀ s ms, parse_object s = Some ms → NoDup (ms.*1) →
    ∃ j, json_loads s = Some j ∧
      ∀ k, match assoc k ms with
           | None => json_object_get (Some j) k = None
           | Some (FString v) => json_string_value (json_object_get (Some j) k) = Some v
           | Some (FInteger z) => json_integer_value (json_object_get (Some j) k) = z
           end;
  jansson_null : json_string_value None = None
}.

(** ** A concrete library

    Trees, with the flat reader: used by the witnesses.  It models no code of
    the repository. *)

Inductive tree :=
  | TObject (m : list (cstr * tree)) | TArray (l : list tree) | TString (s : cstr)
  | TInteger (z : Z) | TReal (bits : Z) | TTrue | TFalse | TNull.

Definition tree_type (t : tree) : json_type :=
  match t with
  | TObject _ => JSON_OBJECT | TArray _ => JSON_ARRAY | TString _ => JSON_STRING
  | TInteger _ => JSON_INTEGER | TReal _ => JSON_REAL
  | TTrue => JSON_TRUE | TFalse => JSON_FALSE | TNull => JSON_NULL
  end.

Definition flat_tree (v : flat) : tree :=
  match v with FString s => TString s | FInteger z => TInteger z end.

#[export] Instance tree_jansson : Jansson := {|
  json_t := tree;
  json_typeof := tree_type;
  json_object := TObject [];
  json_array := TArray [];
  json_string := TString;
  json_integer := TInteger;
  json_real := TReal;
  json_object_set_new t k v := match t with TObject m => TObject (m ++ [(k, v)]) | _ => t end;
  json_array_append_new t v := match t with TArray l => TArray (l ++ [v]) | _ => t end;
  json_object_get j k := match j with Some (TObject m) => assoc k m | _ => None end;
  json_array_size t := match t with TArray l => Z.of_nat (length l) | _ => 0 end;
  json_array_get t i := match t with TArray l => l !! Z.to_nat i | _ => None end;
  json_string_value j := match j with Some (TString s) => Some s | _ => None end;
  json_integer_value j := match j with Some (TInteger z) => z | _ => 0 end;
  json_real_value j := match j with Some (TReal b) => b | _ => 0 end;
  json_dumps t := Some (lit "{}");
  json_loads s := match parse_object s with
                  | Some ms => Some (TObject (map (λ '(k, v), (k, flat_tree v)) ms))
                  | None => None
                  end
|}.

Lemma assoc_map {V X} (f : V → X) k l :
  assoc k (map (λ '(k, v), (k, f v)) l) = f <$> assoc k l.
Proof. induction l as [|[k' v] l IH]; simpl; [done|]. by destruct (str_eqb k k'). Qed.

#[export] Instance tree_reads : JanssonReads tree_jansson.
Proof.
  split; [|done]. intros s ms Hp _. exists (TObject (map (λ '(k, v), (k, flat_tree v)) ms)). split.
  - simpl. by rewrite Hp.
  - intros k. simpl. rewrite assoc_map. by destruct (assoc k ms) as [[v|z]|].
Qed.
