(* ===== verification/Util.v ===== *)
(** * Utilities: directories, locks, namespaces, the mount table of the kernel

    Models [mbroker/daemon/util.c], [locks.c], [namespace.c], [fault.c] and the
    part of [mountinfo.c] that reads [/proc/self/mountinfo] or unmounts. *)
From S2P Require Import Prelude CString Config MountTable OS SimKernel.
Open Scope Z_scope.

(** Permission bits (octal in the source). *)
Definition mode_0644 : Z := 420.
Definition mode_0666 : Z := 438.
Definition mode_0755 : Z := 493.
Definition mode_0775 : Z := 509.
Definition mode_0777 : Z := 511.

(** The prefixes of [tmp] that end before a slash other than the first
    character: the values of [tmp] at the successive [*p = 0]. *)
Fixpoint slash_prefixes (seen s : cstr) : list cstr :=
  match s with
  | [] => []
  | c :: s' => (if char_eqb c "/" then [seen] else []) ++ slash_prefixes (seen ++ [c]) s'
  end.

(** [if (tmp[len - 1] == '/') tmp[len - 1] = 0]. *)
Definition trim_slash (s : cstr) : cstr :=
  match reverse s with
  | c :: s' => if char_eqb c "/" then reverse s' else s
  | [] => s
  end.

(** The buffer [tmp] of [mkdir_p]: at most 511 characters of the path, less a
    final slash. *)
Definition mkdir_p_target (path : cstr) : cstr := trim_slash (fit 512 path).

(** The directories that [mkdir_p] creates before the last one. *)
Definition mkdir_p_parents (path : cstr) : list cstr :=
  match mkdir_p_target path with
  | [] => []
  | c :: s => slash_prefixes [c] s
  end.

(** The fields of a line, as [strsep] on a space delivers them: the fifth is
    the mount point. *)
Definition mountinfo_line_matches (path : cstr) (line : list ascii) : bool :=
  match split_on " " (c_str line) !! 4%nat with
  | Some field => str_eqb field path
  | None => false
  end.

(** The loop of [mountinfo_is_mounted] over the content of the file. *)
Definition mounted_in (content : list ascii) (path : cstr) : bool :=
  existsb (mountinfo_line_matches path) (fgets_lines 4096 content).

Definition LOCKS_DIR : cstr := lit "/run/overlay_helper/locks".

(** The line that [mountinfo_describe_all] prints for a slot. *)
Definition describe_line (e : tracked_mount) : cstr :=
  let pbsb := if nonempty (tm_prebuild_sb e) then tm_prebuild_sb e else lit "-" in
  tm_mountpoint e ++ lit " (" ++ pbsb ++ lit ")" ++ [LF].

(** [n = snprintf(buf + off, buflen - off, ...); if (off + n < buflen) off += n]:
    the characters before [off] stay, what follows them is the new text as far
    as it fits. *)
Definition describe_append (buflen : Z) (buf : cstr) (off : Z) (text : cstr) : cstr * Z :=
  let buf' := take (Z.to_nat off) buf ++ fit (buflen - off) text in
  let n := slen text in
  (buf', if (0 <? n) && (off + n <? buflen) then off + n else off).

Section util.
Context {W : Type} {K : Kernel W}.

(** [mkdir(p, mode) < 0 && errno != EEXIST]. *)
Definition mkdir_failed (p : cstr) (mode : Z) : M W bool :=
  let! r := sys (Mkdir p mode) in
  match r with
  | inl e => ret (negb (e =? EEXIST))
  | inr _ => ret false
  end.

Definition mkdir_p (path : cstr) (mode : Z) : M W Z :=
  let tmp := mkdir_p_target path in
  let! rc := mfor (mkdir_p_parents path) 0 (λ _ p,
    let! bad := mkdir_failed p mode in
    ret (if bad then Break (-1) else Continue 0)) in
  if rc <? 0 then ret (-1)
  else
    let! bad := mkdir_failed tmp mode in
    ret (if bad then -1 else 0).

Definition fault (name : cstr) : M W bool :=
  let! v := call (Getenv name) in
  ret (match v with Some _ => true | None => false end).

Definition mountinfo_is_mounted (path : cstr) : M W bool :=
  let! r := sys (ReadFile PROC_MOUNTINFO) in
  match r with
  | inl _ => ret false
  | inr content => ret (mounted_in content path)
  end.

Definition lock_path (name : cstr) : cstr := fit 256 (LOCKS_DIR ++ lit "/" ++ name ++ lit ".lock").

Definition lock_sandbox (name : cstr) : M W unit :=
  let! _ := mkdir_p (fit 256 LOCKS_DIR) mode_0755 in
  let! r := sys (OpenRW (lock_path name) mode_0644) in
  match r with
  | inl _ => set_lock_fd (-1)
  | inr fd =>
    set_lock_fd fd ;;
    let! ok := try (Lockf fd F_LOCK) in
    if ok then ret tt
    else
      let! _ := sys (Close fd) in
      set_lock_fd (-1)
  end.

Definition unlock_sandbox (name : cstr) : M W unit :=
  let! fd := get_lock_fd in
  if fd =? -1 then ret tt
  else
    let! _ := sys (Lockf fd F_ULOCK) in
    let! _ := sys (Close fd) in
    set_lock_fd (-1).

Definition enter_namespace : M W Z :=
  let! r := sys (OpenRO (lit "/proc/self/ns/mnt")) in
  set_orig_ns (match r with inl _ => -1 | inr fd => fd end) ;;
  ret 0.

Definition exit_namespace : M W unit :=
  let! fd := get_orig_ns in
  if 0 <=? fd then
    let! _ := sys (Setns fd) in
    let! _ := sys (Close fd) in
    set_orig_ns (-1)
  else ret tt.

(** One iteration of the loop of [mountinfo_describe_all], over slot [i];
    the accumulated text, the offset and the number of live entries. *)
Definition describe_entry (buflen : Z) (acc : cstr * Z * Z) (i : nat) : M W (cstr * Z * Z) :=
  let '(buf, off, cnt) := acc in
  let! slot := read_table (λ t, t !! i) in
  match slot with
  | None => ret acc
  | Some e =>
    if negb (tm_active e) then ret acc
    else
      let! mounted := mountinfo_is_mounted (tm_mountpoint e) in
      if negb mounted then
        (* prune entries whose mount is no longer present *)
        update_table (λ t, <[i := deactivate e]> t) ;;
        ret acc
      else
        let '(buf', off') := describe_append buflen buf off (describe_line e) in
        ret (buf', off', cnt + 1)
  end.

Definition mountinfo_describe_all (buflen : Z) : M W (Z * cstr) :=
  if buflen =? 0 then ret (-1, [])
  else
    let! used := read_table (@length tracked_mount) in
    let! (buf, _, cnt) := meach (seq 0 used) ([], 0, 0) (describe_entry buflen) in
    if cnt =? 0
    then ret (0, fit buflen (lit "No active sandboxes" ++ [LF]))
    else ret (0, buf).

Definition mountinfo_cleanup_all : M W unit :=
  let! snapshot := with_table (cleanup_snapshot []) in
  meach snapshot tt (λ _ e,
    let! _ := sys (Umount2 (tm_mountpoint e) MNT_DETACH) in ret tt).
End util.

(** * Lemmas *)

Section util_lemmas.
Context {W : Type} {K : Kernel W}.
Implicit Types s : dstate W.

Lemma statics_mkdir_failed p mode : respects (keeps statics) (mkdir_failed p mode).
Proof. unfold mkdir_failed. respects. Qed.
#[local] Hint Resolve statics_mkdir_failed : frame.

Lemma statics_mkdir_p path mode : respects (keeps statics) (mkdir_p path mode).
Proof. unfold mkdir_p. respects. Qed.

Lemma statics_fault name : respects (keeps statics) (fault name).
Proof. unfold fault. respects. Qed.

Lemma statics_is_mounted path : respects (keeps statics) (mountinfo_is_mounted path).
Proof. unfold mountinfo_is_mounted. respects. Qed.

(** The table and the configuration are not touched by the lock and
    namespace functions. *)
Lemma tracked_lock_sandbox name : respects (keeps tracked) (lock_sandbox name).
Proof. pose proof statics_mkdir_p. unfold lock_sandbox. respects. Qed.
Lemma tracked_unlock_sandbox name : respects (keeps tracked) (unlock_sandbox name).
Proof. unfold unlock_sandbox. respects. Qed.
Lemma tracked_enter_namespace : respects (keeps tracked) enter_namespace.
Proof. unfold enter_namespace. respects. Qed.
Lemma tracked_exit_namespace : respects (keeps tracked) exit_namespace.
Proof. unfold exit_namespace. respects. Qed.
Lemma cfg_lock_sandbox name : respects (keeps cfg) (lock_sandbox name).
Proof. pose proof statics_mkdir_p. unfold lock_sandbox. respects. Qed.
Lemma cfg_unlock_sandbox name : respects (keeps cfg) (unlock_sandbox name).
Proof. unfold unlock_sandbox. respects. Qed.
Lemma cfg_enter_namespace : respects (keeps cfg) enter_namespace.
Proof. unfold enter_namespace. respects. Qed.
Lemma cfg_exit_namespace : respects (keeps cfg) exit_namespace.
Proof. unfold exit_namespace. respects. Qed.

(** *** [mkdir_p] *)

Lemma slash_prefixes_prefix (seen s p : cstr) : p ∈ slash_prefixes seen s → p `prefix_of` seen ++ s.
Proof.
  revert seen. induction s as [|c s IH]; intros seen; simpl; [by intros ?%not_elem_of_nil|].
  rewrite elem_of_app. intros [H|H].
  - destruct (char_eqb c "/"); [|by apply not_elem_of_nil in H].
    apply list_elem_of_singleton in H as ->. by exists (c :: s).
  - apply IH in H. by rewrite <- app_assoc in H.
Qed.

Lemma trim_slash_prefix (s : cstr) : trim_slash s `prefix_of` s.
Proof.
  unfold trim_slash. destruct (reverse s) as [|c s'] eqn:E; [done|].
  destruct (char_eqb c "/"); [|done].
  exists [c]. rewrite <- (reverse_involutive s), E, reverse_cons. done.
Qed.

Lemma mkdir_p_target_prefix path : mkdir_p_target path `prefix_of` path.
Proof. unfold mkdir_p_target. etrans; [apply trim_slash_prefix|apply fit_prefix]. Qed.

Lemma mkdir_p_parents_prefix path p : p ∈ mkdir_p_parents path → p `prefix_of` mkdir_p_target path.
Proof.
  unfold mkdir_p_parents. destruct (mkdir_p_target path) as [|c s]; [by intros ?%not_elem_of_nil|].
  apply slash_prefixes_prefix.
Qed.

(** [mkdir_p] only ever creates a path that leads to the one it was given,
    and it is one of the first 511 characters. *)
Lemma emits_mkdir_p path mode :
  respects (emits (λ e, ∃ p r, e = Ev (Mkdir p mode) r ∧ p `prefix_of` path ∧ slen p < 512))
    (mkdir_p path mode).
Proof.
  assert (∀ p, p `prefix_of` mkdir_p_target path → p `prefix_of` path ∧ slen p < 512) as Hp.
  { intros p Hp. split; [etrans; [apply Hp|apply mkdir_p_target_prefix]|].
    assert (p `prefix_of` fit 512 path) as Hf%prefix_length.
    { etrans; [apply Hp|apply trim_slash_prefix]. }
    pose proof (fit_le 512 path). unfold slen in *. lia. }
  assert (∀ p, p `prefix_of` mkdir_p_target path →
    respects (emits (λ e, ∃ p r, e = Ev (Mkdir p mode) r ∧ p `prefix_of` path ∧ slen p < 512))
      (mkdir_failed p mode)) as Hleaf.
  { intros p Hpp. unfold mkdir_failed. respects. eexists _, _. by split; [|apply Hp]. }
  unfold mkdir_p. respects. by apply Hleaf, mkdir_p_parents_prefix.
Qed.

(** *** Locks *)

Lemma unlock_sandbox_unlocks name s : lock_fd (snd (unlock_sandbox name s)) = -1.
Proof.
  apply (wp_run _ (λ _ s', lock_fd s' = -1)). unfold unlock_sandbox.
  apply wp_bind. unfold get_lock_fd, wp at 1.
  destruct (Z.eqb_spec (lock_fd s) (-1)) as [E|E]; [by apply wp_ret|].
  apply wp_bind, wp_sys. intros r s' _ _ _ _. apply wp_bind, wp_sys. intros r' s'' _ _ _ _. done.
Qed.

Lemma exit_namespace_restores s : orig_ns (snd (exit_namespace s)) < 0.
Proof.
  apply (wp_run _ (λ _ s', orig_ns s' < 0)). unfold exit_namespace.
  apply wp_bind. unfold get_orig_ns, wp at 1.
  destruct (Z.leb_spec 0 (orig_ns s)); [|by apply wp_ret].
  apply wp_bind, wp_sys. intros r s' _ _ _ _. apply wp_bind, wp_sys. intros r' s'' _ _ _ _. done.
Qed.
End util_lemmas.

#[export] Hint Resolve statics_mkdir_failed statics_mkdir_p statics_fault statics_is_mounted
  tracked_lock_sandbox tracked_unlock_sandbox tracked_enter_namespace tracked_exit_namespace
  cfg_lock_sandbox cfg_unlock_sandbox cfg_enter_namespace cfg_exit_namespace : frame.

(** ** The sandbox list *)

Lemma filter_false_nil {A} (f : A → bool) l : (∀ x, In x l → f x = false) → List.filter f l = [].
Proof.
  induction l as [|x l IH]; simpl; [done|]. intros H. rewrite (H x) by tauto. apply IH. auto.
Qed.

(** The live entries of a table, given the kernel's mount table. *)
Definition live (content : list ascii) (e : tracked_mount) : bool :=
  tm_active e && mounted_in content (tm_mountpoint e).

Definition prune (content : list ascii) (e : tracked_mount) : tracked_mount :=
  if tm_active e && negb (mounted_in content (tm_mountpoint e)) then deactivate e else e.

Definition describe_text (content : list ascii) (t : table) : cstr :=
  concat (map describe_line (List.filter (live content) t)).

Lemma describe_append_fits buflen buf text :
  slen (buf ++ text) < buflen → text ≠ [] →
  describe_append buflen buf (slen buf) text = (buf ++ text, slen (buf ++ text)).
Proof.
  intros Hfit Hne. unfold describe_append. rewrite slen_app in *.
  assert (0 < slen text) by (destruct text; [done|]; rewrite slen_cons; pose proof (slen_nonneg text); lia).
  destruct (Z.ltb_spec 0 (slen text)); [|lia].
  destruct (Z.ltb_spec (slen buf + slen text) buflen); [|lia].
  rewrite fit_id by lia. rewrite take_ge by (unfold slen in *; lia). done.
Qed.

Lemma describe_append_bounds buflen buf off text :
  0 <= off < buflen →
  let '(buf', off') := describe_append buflen buf off text in
  slen buf' < buflen ∧ 0 <= off' < buflen.
Proof.
  intros Ho. unfold describe_append. pose proof (slen_nonneg text).
  pose proof (fit_le (buflen - off) text). rewrite slen_app. split.
  - assert (slen (take (Z.to_nat off) buf) <= off); [|lia].
    unfold slen. rewrite length_take. lia.
  - destruct (Z.ltb_spec 0 (slen text)), (Z.ltb_spec (off + slen text) buflen); simpl; lia.
Qed.

Lemma describe_line_nonempty e : describe_line e ≠ [].
Proof. unfold describe_line. by destruct (tm_mountpoint e). Qed.

(** Forgetting a slot keeps the invariant and only removes bindings. *)
Lemma deactivate_slot_ok t i e :
  table_ok t → t !! i = Some e →
  table_ok (<[i := deactivate e]> t) ∧ tracked_map (<[i := deactivate e]> t) ⊆ tracked_map t.
Proof.
  intros Hok Hi.
  assert (t = take i t ++ e :: drop (S i) t) as Ht by (by rewrite take_drop_middle).
  assert (length (take i t) = i) as Hl by (apply length_take_le; apply lookup_lt_Some in Hi; lia).
  set (t1 := take i t) in *. set (t2 := drop (S i) t) in *. clearbody t1 t2. subst t i.
  rewrite insert_split. split.
  - apply table_ok_replace with e; [done| |done].
    destruct Hok as [_ Hs _]. apply Forall_app in Hs as [_ [[] _]%Forall_cons]. by split.
  - rewrite !tracked_map_app, tracked_map_cons_inactive by done.
    destruct (tm_active e) eqn:Ea.
    + rewrite tracked_map_cons_active by done.
      destruct Hok as [Hnd _ _]. rewrite active_mountpoints_app, active_mountpoints_cons, Ea in Hnd.
      apply NoDup_app in Hnd as (_ & _ & [Hnin _]%NoDup_cons).
      apply map_union_mono_l, insert_subseteq.
      apply eq_None_not_Some. by rewrite <- active_mountpoints_dom.
    + by rewrite tracked_map_cons_inactive.
Qed.

Section describe.
Context {W : Type} {K : Kernel W}.
Implicit Types s : dstate W.

(** Listing sandboxes is memory safe and forgetful only.  For any buffer
    size and whatever the kernel reports, [mountinfo_describe_all] never
    lets its offset leave the buffer, so the text always fits with its NUL,
    it returns 0, and it keeps the table invariant while it only removes
    bindings, never adds or alters one. *)
Theorem mountinfo_describe_all_safe (buflen : Z) s (Hb : 0 < buflen) (Hok : table_ok (tracked s)) :
  wp (mountinfo_describe_all buflen)
     (λ '(rc, buf) s', rc = 0 ∧ slen buf < buflen ∧ table_ok (tracked s') ∧
        tracked_map (tracked s') ⊆ tracked_map (tracked s)) s.
Proof.
  unfold mountinfo_describe_all. destruct (Z.eqb_spec buflen 0); [lia|].
  apply wp_bind. unfold read_table, wp at 1. apply wp_bind.
  apply (wp_meach (λ _ '(buf, off, _) s', slen buf < buflen ∧ 0 <= off < buflen ∧
    table_ok (tracked s') ∧ tracked_map (tracked s') ⊆ tracked_map (tracked s))).
  - split_and!; [done|lia|lia|done|done].
  - intros done i rest [[buf off] cnt] s1 _ (Hbuf & Hoff & Hok1 & Hsub).
    unfold describe_entry. apply wp_bind. unfold read_table, wp at 1.
    destruct (tracked s1 !! i) as [e|] eqn:Ei; [|by apply wp_ret].
    destruct (negb (tm_active e)); [by apply wp_ret|].
    apply wp_bind. eapply wp_mono; [apply wp_respects, statics_is_mounted|].
    intros b s2 Hst. cbv beta in Hst. injection Hst as Ht _ _ _.
    destruct b; simpl negb; cbv iota.
    + pose proof (describe_append_bounds buflen buf off (describe_line e) Hoff) as Hbd.
      destruct (describe_append buflen buf off (describe_line e)) as [buf' off'].
      apply wp_ret. rewrite Ht. tauto.
    + apply wp_bind. unfold update_table, with_table, wp. rewrite Ht. simpl.
      destruct (deactivate_slot_ok (tracked s1) i e Hok1 Ei) as [? ?].
      split_and!; [done|lia|lia|done|by etrans].
  - intros [[buf off] cnt] s1 (Hbuf & Hoff & Hok1 & Hsub).
    destruct (Z.eqb_spec cnt 0); apply wp_ret; [|done].
    split_and!; [done|by apply fit_lt; lia|done|done].
Qed.

Lemma is_mounted_stable content path s :
  (∀ w, k_do (ReadFile PROC_MOUNTINFO) w = (inr content, w)) →
  wp (mountinfo_is_mounted path) (λ b s', b = mounted_in content path ∧ tracked s' = tracked s) s.
Proof.
  intros Hproc. unfold mountinfo_is_mounted. apply wp_bind, wp_sys.
  intros r s' Hk Hst _ _. rewrite Hproc in Hk. injection Hk as <- _. injection Hst as Ht _ _ _.
  by apply wp_ret.
Qed.

(** What the loop has done after [k] slots of a table [t]. *)
Definition described (content : list ascii) (t : table) (k : nat) (acc : cstr * Z * Z) s : Prop :=
  let '(buf, off, cnt) := acc in
  tracked s = map (prune content) (take k t) ++ drop k t ∧
  buf = describe_text content (take k t) ∧ off = slen buf ∧
  cnt = Z.of_nat (length (List.filter (live content) (take k t))).

Lemma describe_entry_step content buflen t k acc s :
  (∀ w, k_do (ReadFile PROC_MOUNTINFO) w = (inr content, w)) →
  slen (describe_text content t) < buflen →
  (k < length t)%nat → described content t k acc s →
  wp (describe_entry buflen acc k) (λ acc' s', described content t (S k) acc' s') s.
Proof.
  intros Hproc Hfit Hk. destruct acc as [[buf off] cnt]. intros (Ht & -> & -> & ->).
  destruct (lookup_lt_is_Some_2 t k Hk) as [e He].
  assert (length (map (prune content) (take k t)) = k) as Hlen.
  { rewrite length_map. apply length_take_le. lia. }
  assert (take (S k) t = take k t ++ [e]) as Htake by (by apply take_S_r).
  assert (drop k t = e :: drop (S k) t) as Hdrop by (by apply drop_S).
  assert (tracked s !! k = Some e) as Hs.
  { rewrite Ht, Hdrop, lookup_app_r, Hlen, Nat.sub_diag by lia. done. }
  unfold describe_entry. apply wp_bind. unfold read_table, wp at 1. rewrite Hs.
  assert (∀ s', tracked s' = map (prune content) (take k t) ++ prune content e :: drop (S k) t →
    live content e = false →
    described content t (S k)
      (describe_text content (take k t), slen (describe_text content (take k t)),
       Z.of_nat (length (List.filter (live content) (take k t)))) s') as Hskip.
  { intros s' Hs' Hl. unfold described, describe_text.
    rewrite Hs', Htake, map_app, List.filter_app. simpl. rewrite Hl, app_nil_r.
    rewrite <- app_assoc. done. }
  destruct (tm_active e) eqn:Ea; simpl negb; cbv iota.
  2:{ apply wp_ret, Hskip; [|by unfold live; rewrite Ea].
      rewrite Ht, Hdrop. unfold prune. by rewrite Ea. }
  apply wp_bind. eapply wp_mono; [by apply is_mounted_stable|].
  intros b s1 [-> Ht1]. destruct (mounted_in content (tm_mountpoint e)) eqn:Em; simpl negb; cbv iota.
  - assert (live content e = true) as Hl by (unfold live; by rewrite Ea, Em).
    assert (describe_text content (take (S k) t) = describe_text content (take k t) ++ describe_line e) as Htext.
    { unfold describe_text. rewrite Htake, List.filter_app. simpl. rewrite Hl.
      rewrite map_app, concat_app. simpl. by rewrite app_nil_r. }
    assert (slen (describe_text content (take (S k) t)) < buflen) as Hfit'.
    { eapply Z.le_lt_trans; [|apply Hfit]. unfold describe_text.
      rewrite <- (take_drop (S k) t) at 2. rewrite List.filter_app, map_app, concat_app, slen_app.
      pose proof (slen_nonneg (concat (map describe_line (List.filter (live content) (drop (S k) t))))). lia. }
    rewrite Htext in Hfit'.
    rewrite describe_append_fits; [|done|apply describe_line_nonempty].
    apply wp_ret. unfold described. rewrite Htext, Ht1, Ht, Hdrop, Htake.
    rewrite map_app, List.filter_app, length_app. simpl. rewrite Hl.
    unfold prune at 3. rewrite Ea, Em. simpl. rewrite <- app_assoc.
    split_and!; [done|done|done|lia].
  - apply wp_bind, (wp_mono _ (λ _ s', tracked s' = <[k := deactivate e]> (tracked s1))); [done|].
    intros _ s2 Ht2. apply wp_ret, Hskip; [|unfold live; by rewrite Ea, Em].
    rewrite Ht2, Ht1, Ht, Hdrop. rewrite <- Hlen at 1. rewrite insert_split.
    unfold prune at 3. by rewrite Ea, Em.
Qed.

(** The text of the sandbox list.  When the kernel's mount table does
    not change during the listing and the text fits, the reply is exactly
    one line per tracked sandbox that is still mounted, in table order, or
    the "No active sandboxes" line when there is none, and the sandboxes
    that are no longer mounted are dropped from the table. *)
Theorem mountinfo_describe_all_text (content : list ascii) (buflen : Z) s
    (Hproc : ∀ w, k_do (ReadFile PROC_MOUNTINFO) w = (inr content, w))
    (Hfit : slen (describe_text content (tracked s)) < buflen) :
  wp (mountinfo_describe_all buflen)
     (λ '(rc, buf) s', rc = 0 ∧ tracked s' = map (prune content) (tracked s) ∧
        buf = if existsb (live content) (tracked s) then describe_text content (tracked s)
              else fit buflen (lit "No active sandboxes" ++ [LF])) s.
Proof.
  unfold mountinfo_describe_all. set (t := tracked s) in *.
  pose proof (slen_nonneg (describe_text content t)).
  destruct (Z.eqb_spec buflen 0); [lia|].
  apply wp_bind. unfold read_table, wp at 1. fold t. apply wp_bind.
  apply (wp_meach (λ l acc s', described content t (length l) acc s')).
  - split_and!; [by rewrite drop_0|done..].
  - intros done k rest acc s1 Hl Hd.
    assert (k = length done ∧ (k < length t)%nat) as [-> Hk].
    { assert (seq 0 (length t) !! length done = Some k) as Hlk.
      { rewrite Hl, lookup_app_r, Nat.sub_diag by lia. done. }
      apply lookup_seq in Hlk. simpl in Hlk. lia. }
    rewrite length_app. simpl. rewrite Nat.add_1_r. by apply describe_entry_step.
  - intros [[buf off] cnt] s1. rewrite length_seq. unfold described.
    rewrite take_ge, drop_ge, app_nil_r by lia. intros (Ht & -> & -> & ->).
    destruct (existsb (live content) t) eqn:El.
    + apply existsb_exists in El as (e & Hin & Hle).
      assert (In e (List.filter (live content) t)) as Hin' by (by apply filter_In).
      destruct (List.filter (live content) t); [done|]. by apply wp_ret.
    + assert (List.filter (live content) t = []) as ->.
      { apply filter_false_nil. intros e Hin.
        destruct (live content e) eqn:E; [|done].
        assert (existsb (live content) t = true); [|congruence]. apply existsb_exists. eauto. }
      by apply wp_ret.
Qed.
End describe.

(** A kernel whose mount table shows one overlay. *)
Definition one_mount_kernel : Kernel sim :=
  override sim_kernel (λ A c,
    match c in syscall A return option A with
    | ReadFile p => if str_eqb p PROC_MOUNTINFO
                    then Some (inr (sim_mountinfo (Sim [] [] [lit "/b/sb1"] 0))) else None
    | _ => None
    end).

Definition two_sandboxes : table :=
  [fill_slot (lit "/b/sb1") 0 (lit "/ov") [] (lit "vol"); fill_slot (lit "/b/sb2") 0 (lit "/ov") [] []].

Lemma mountinfo_describe_all_safe_witness :
  wp (mountinfo_describe_all (K := sim_kernel) 16)
     (λ '(rc, buf) s', rc = 0 ∧ slen buf < 16 ∧ table_ok (tracked s') ∧
        tracked_map (tracked s') ⊆ tracked_map []) (sim_state sim0 [] zero_config).
Proof.
  apply (mountinfo_describe_all_safe 16 (sim_state sim0 [] zero_config)); [lia|].
  split; [apply NoDup_nil_2|apply Forall_nil_2|by vm_compute].
Defined.

Lemma mountinfo_describe_all_text_witness :
  wp (mountinfo_describe_all (K := one_mount_kernel) 16384)
     (λ '(rc, buf) s', rc = 0 ∧ tracked s' = map (prune (sim_mountinfo (Sim [] [] [lit "/b/sb1"] 0))) two_sandboxes ∧
        buf = lit "/b/sb1 (vol)" ++ [LF]) (sim_state sim0 two_sandboxes zero_config).
Proof.
  apply (mountinfo_describe_all_text (K := one_mount_kernel)
    (sim_mountinfo (Sim [] [] [lit "/b/sb1"] 0)) 16384 (sim_state sim0 two_sandboxes zero_config)).
  - intros w. reflexivity.
  - by vm_compute.
Defined.
