(* ===== verification/Mounts.v ===== *)
(** * The mount table as a set

    The interface between the kernel and the parts of the daemon that mount
    and unmount: which paths are mount points, what [mount] and [umount2] do to
    that set, and that [/proc/self/mountinfo] lists it.  The executable kernel
    is an instance. *)
From S2P Require Import Prelude CString Config MountTable OS SimKernel Storage Util.
Open Scope Z_scope.

Definition mount_call {A} (c : syscall A) : bool :=
  match c with Mount _ _ _ _ _ | Umount2 _ _ => true | _ => false end.

Class MountStore (W : Type) (K : Kernel W) := {
  ms_mounts : W → gset cstr;
  ms_other : ∀ A (c : syscall A) w, mount_call c = false → ms_mounts (snd (k_do c w)) = ms_mounts w;
  ms_mount : ∀ src t ty fl d w, ms_mounts (snd (k_do (Mount src t ty fl d) w)) =
    if failed (fst (k_do (Mount src t ty fl d) w)) then ms_mounts w else {[t]} ∪ ms_mounts w;
  ms_umount : ∀ t fl w, ms_mounts (snd (k_do (Umount2 t fl) w)) =
    if failed (fst (k_do (Umount2 t fl) w)) then ms_mounts w else ms_mounts w ∖ {[t]};
  (** A lazy unmount of a mount point succeeds. *)
  ms_detach : ∀ t w, t ∈ ms_mounts w → failed (fst (k_do (Umount2 t MNT_DETACH) w)) = false;
  ms_table : ∀ w, ∃ content, fst (k_do (ReadFile PROC_MOUNTINFO) w) = inr content ∧
    ∀ p, plain_path p = true → mounted_in content p = bool_decide (p ∈ ms_mounts w)
}.

(** ** Symbolic execution *)

Section rules.
Context {W : Type} {K : Kernel W} {MS : MountStore W K}.
Implicit Types s : dstate W.

Definition mounts s : gset cstr := ms_mounts (world s).

Lemma mounts_call {A} (c : syscall A) : mount_call c = false → respects (keeps mounts) (call c).
Proof.
  intros Hc s. unfold keeps, mounts, call. pose proof (ms_other _ c (world s) Hc) as H.
  by destruct (k_do c (world s)).
Qed.
Lemma mounts_set_errno e : respects (keeps mounts) (@set_errno W e).
Proof. done. Qed.
Lemma mounts_set_lock_fd e : respects (keeps mounts) (@set_lock_fd W e).
Proof. done. Qed.
Lemma mounts_set_orig_ns e : respects (keeps mounts) (@set_orig_ns W e).
Proof. done. Qed.
Lemma mounts_with_table {A} (f : table → A * table) : respects (keeps mounts) (@with_table W A f).
Proof. intros s. unfold with_table. by destruct (f (tracked s)). Qed.
#[local] Hint Resolve mounts_set_errno : frame.

Lemma mounts_sys {A} (c : syscall (res A)) : mount_call c = false → respects (keeps mounts) (sys c).
Proof. intros Hc. pose proof (mounts_call c Hc). unfold sys. respects. Qed.
Lemma mounts_try {A} (c : syscall (res A)) : mount_call c = false → respects (keeps mounts) (try c).
Proof. intros Hc. pose proof (mounts_sys c Hc). unfold try. respects. Qed.

(** What a function that does not mount leaves behind. *)
Lemma wp_keeps_mounts {A} (m : M W A) (Q : A → dstate W → Prop) s :
  respects (keeps mounts) m → (∀ a s', mounts s' = mounts s → Q a s') → wp m Q s.
Proof. intros Hm HQ. eapply wp_mono; [apply (wp_respects _ _ _ Hm)|]. intros a s' H. by apply HQ. Qed.

Lemma wp_try_mount src t ty fl d (Q : bool → dstate W → Prop) s :
  (∀ (b : bool) s', mounts s' = (if b then {[t]} ∪ mounts s else mounts s) → Q b s') →
  wp (try (Mount src t ty fl d)) Q s.
Proof.
  intros H. apply wp_bind, wp_sys. intros r s' Hk _ _ _. apply wp_ret, H.
  pose proof (ms_mount src t ty fl d (world s)) as Hm. rewrite Hk in Hm. simpl in Hm.
  unfold mounts. rewrite Hm. by destruct (failed r).
Qed.

Lemma wp_umount t fl (Q : res unit → dstate W → Prop) s :
  (∀ r s', mounts s' = (if failed r then mounts s else mounts s ∖ {[t]}) → Q r s') →
  wp (sys (Umount2 t fl)) Q s.
Proof.
  intros H. apply wp_sys. intros r s' Hk _ _ _. apply H.
  pose proof (ms_umount t fl (world s)) as Hm. by rewrite Hk in Hm.
Qed.

Lemma wp_detach t (Q : res unit → dstate W → Prop) s :
  t ∈ mounts s → (∀ r s', mounts s' = mounts s ∖ {[t]} → Q r s') → wp (sys (Umount2 t MNT_DETACH)) Q s.
Proof.
  intros Ht H. apply wp_sys. intros r s' Hk _ _ _. apply H.
  pose proof (ms_umount t MNT_DETACH (world s)) as Hm. rewrite ms_detach in Hm by done.
  by rewrite Hk in Hm.
Qed.

Lemma wp_is_mounted p (Q : bool → dstate W → Prop) s :
  plain_path p = true → (∀ s', mounts s' = mounts s → Q (bool_decide (p ∈ mounts s)) s') →
  wp (mountinfo_is_mounted p) Q s.
Proof.
  intros Hp H. unfold mountinfo_is_mounted. apply wp_bind, wp_sys. intros r s' Hk _ _ _.
  destruct (ms_table (world s)) as (content & Hr & Hm).
  pose proof (ms_other _ (ReadFile PROC_MOUNTINFO) (world s) eq_refl) as Hsame.
  rewrite Hk in Hr, Hsame. simpl in Hr, Hsame. subst r. apply wp_ret. rewrite Hm by done. by apply H.
Qed.
End rules.

#[export] Hint Resolve mounts_set_errno mounts_set_lock_fd mounts_set_orig_ns mounts_with_table : frame.
#[export] Hint Extern 4 (respects (keeps mounts) (call _)) => (apply mounts_call; reflexivity) : frame.
#[export] Hint Extern 4 (respects (keeps mounts) (sys _)) => (apply mounts_sys; reflexivity) : frame.
#[export] Hint Extern 4 (respects (keeps mounts) (try _)) => (apply mounts_try; reflexivity) : frame.

Section util_mounts.
Context {W : Type} {K : Kernel W} {MS : MountStore W K}.

Lemma mounts_mkdir_p path mode : respects (keeps mounts) (mkdir_p path mode).
Proof. unfold mkdir_p, mkdir_failed. respects. Qed.
Lemma mounts_is_mounted path : respects (keeps mounts) (mountinfo_is_mounted path).
Proof. unfold mountinfo_is_mounted. respects. Qed.
#[local] Hint Resolve mounts_mkdir_p : frame.
Lemma mounts_lock_sandbox name : respects (keeps mounts) (lock_sandbox name).
Proof. unfold lock_sandbox. respects. Qed.
Lemma mounts_unlock_sandbox name : respects (keeps mounts) (unlock_sandbox name).
Proof. unfold unlock_sandbox. respects. Qed.
Lemma mounts_enter_namespace : respects (keeps mounts) enter_namespace.
Proof. unfold enter_namespace. respects. Qed.
Lemma mounts_exit_namespace : respects (keeps mounts) exit_namespace.
Proof. unfold exit_namespace. respects. Qed.
Lemma mounts_fault name : respects (keeps mounts) (fault name).
Proof. unfold fault. respects. Qed.
End util_mounts.

#[export] Hint Resolve mounts_mkdir_p mounts_is_mounted mounts_lock_sandbox mounts_unlock_sandbox
  mounts_enter_namespace mounts_exit_namespace mounts_fault : frame.

(** ** The executable kernel is one *)

Lemma plain_path_spec p :
  plain_path p = true → (" "%char ∉ p) ∧ (LF ∉ p) ∧ (NUL ∉ p) ∧ slen p < 4000.
Proof.
  unfold plain_path. rewrite andb_true_iff, forallb_forall. intros [H ?%Z.ltb_lt].
  assert (∀ c, c ∈ p → c ≠ " "%char ∧ c ≠ LF ∧ c ≠ NUL) as Hc.
  { intros c Hin%list_elem_of_In. apply H in Hin. to_prop.
    split_and!; by apply char_eqb_neq. }
  split_and!; [| | |done]; intros Hin; by destruct (Hc _ Hin) as (? & ? & ?).
Qed.

Lemma mountinfo_line_plain m p :
  plain_path m = true →
  mountinfo_line_matches p ((lit "1 1 0:1 / " ++ m ++ lit " rw") ++ [LF]) = str_eqb m p.
Proof.
  intros Hm. destruct (plain_path_spec m Hm) as (Hs & Hl & Hz & _). unfold mountinfo_line_matches.
  rewrite no_nul_c_str.
  - assert (split_on " " ((lit "1 1 0:1 / " ++ m ++ lit " rw") ++ [LF]) =
      [lit "1"; lit "1"; lit "0:1"; lit "/"; m; lit "rw" ++ [LF]]) as ->; [|done].
    rewrite <- !app_assoc.
    change (lit " rw" ++ [LF]) with (" "%char :: (lit "rw" ++ [LF])).
    change (split_on " " (lit "1 1 0:1 / " ++ m ++ " "%char :: lit "rw" ++ [LF])) with
      ([lit "1"; lit "1"; lit "0:1"; lit "/"] ++ split_on " " (m ++ " "%char :: lit "rw" ++ [LF])).
    by rewrite split_on_app.
  - unfold no_nul. rewrite !not_elem_of_app.
    split_and!; try done; apply (bool_decide_eq_true _); by vm_compute.
Qed.

Lemma mounted_in_sim w p :
  plain_path p = true → mounted_in (sim_mountinfo w) p = bool_decide (p ∈ (list_to_set (sim_mounts w) : gset cstr)).
Proof.
  intros Hp. unfold mounted_in, sim_mountinfo. rewrite fgets_lines_text.
  - rewrite map_map. apply Bool.eq_iff_eq_true.
    rewrite bool_decide_eq_true, elem_of_list_to_set, existsb_exists. setoid_rewrite in_map_iff. split.
    + intros (x & (m & <- & [Hin Hm]%filter_In) & Hx). rewrite mountinfo_line_plain in Hx by done. to_prop.
      subst. by apply list_elem_of_In.
    + intros Hin. eexists. split; [exists p; split; [done|]|rewrite mountinfo_line_plain; [apply str_eqb_refl|done]].
      apply filter_In. split; [by apply list_elem_of_In|done].
  - apply Forall_map, Forall_forall. intros m [_ Hm]%list_elem_of_In%filter_In.
    destruct (plain_path_spec m Hm) as (_ & Hl & _ & Hlen). rewrite !not_elem_of_app, !slen_app. split_and!.
    + apply (bool_decide_eq_true _); by vm_compute.
    + done.
    + apply (bool_decide_eq_true _); by vm_compute.
    + change (slen (lit "1 1 0:1 / ")) with 10. change (slen (lit " rw")) with 3. lia.
Qed.

Lemma mem_elem p l : mem p l = true ↔ p ∈ l.
Proof. unfold mem. rewrite existsb_Exists. setoid_rewrite str_eqb_eq. naive_solver. Qed.

Lemma remove_path_set p l :
  (list_to_set (remove_path p l) : gset cstr) = list_to_set l ∖ {[p]}.
Proof.
  apply set_eq. intros q. unfold remove_path.
  rewrite elem_of_difference, !elem_of_list_to_set, elem_of_singleton, !list_elem_of_In, filter_In, negb_true_iff, str_eqb_neq.
  naive_solver.
Qed.

#[export] Program Instance sim_mount_store : MountStore sim sim_kernel := {|
  ms_mounts w := list_to_set (sim_mounts w)
|}.
Next Obligation. intros A c w Hc. destruct c; try done; simpl; repeat case_match; done. Qed.
Next Obligation. done. Qed.
Next Obligation.
  intros t fl w. simpl. destruct (mem t (sim_mounts w)); simpl; [apply remove_path_set|done].
Qed.
Next Obligation.
  intros t w Ht. simpl in *. apply elem_of_list_to_set, mem_elem in Ht. by rewrite Ht.
Qed.
Next Obligation. intros w. exists (sim_mountinfo w). split; [done|]. intros p Hp. by apply mounted_in_sim. Qed.
