(* ===== verification/Walk.v ===== *)
(** * Walking directory trees

    The daemon walks trees with recursive C functions that build the path of a
    child in a [char[4096]] and skip children whose path does not fit.  Paths
    grow by at least a slash at every level, so the recursion stops: it is
    modelled with one unit of fuel for every byte of room, and [walk_unfold]
    shows that the fuel is enough, that is, that the function satisfies the C
    text's own recursive equation.  [path_induction] is the corresponding
    induction principle. *)
From S2P Require Import Prelude CString Config MountTable OS.
Open Scope Z_scope.

Definition PATH_SIZE : Z := 4096.

(** [snprintf(child, sizeof(child), "%s/%s", path, name)], if it fits. *)
Definition child_path (path name : cstr) : option cstr :=
  let full := path ++ lit "/" ++ name in
  if PATH_SIZE <=? slen full then None else Some full.

(** ["."] and [".."]. *)
Definition is_dot (name : cstr) : bool := str_eqb name (lit ".") || str_eqb name (lit "..").

Lemma child_path_Some path name child :
  child_path path name = Some child → child = path ++ lit "/" ++ name ∧ slen path < slen child < PATH_SIZE.
Proof.
  unfold child_path. destruct (Z.leb_spec PATH_SIZE (slen (path ++ lit "/" ++ name))); [done|].
  intros <-%(inj Some). split; [done|]. rewrite !slen_app in *.
  change (slen (lit "/")) with 1 in *. pose proof (slen_nonneg name). lia.
Qed.

(** Induction on the room left for the children's paths. *)
Lemma path_induction (P : cstr → Prop) :
  (∀ path, (∀ child, slen path < slen child < PATH_SIZE → P child) → P path) → ∀ path, P path.
Proof.
  intros H path. remember (Z.to_nat (PATH_SIZE - slen path)) as n eqn:En.
  revert path En. induction (lt_wf n) as [n _ IH]. intros path ->. apply H. intros child Hc.
  eapply IH; [|done]. lia.
Qed.

Section walk.
Context {W X B : Type} (default : B).
Context (body : (cstr → X → M W B) → cstr → X → M W B).

Fixpoint walk_fuel (fuel : nat) (path : cstr) (x : X) : M W B :=
  match fuel with
  | O => ret default
  | S fuel' => body (walk_fuel fuel') path x
  end.

Definition walk (path : cstr) (x : X) : M W B := walk_fuel (S (Z.to_nat (PATH_SIZE - slen path))) path x.

(** The body uses its recursive argument on longer paths only. *)
Definition extensional_body : Prop := ∀ (r1 r2 : cstr → X → M W B) path x s,
  (∀ child y s', slen path < slen child < PATH_SIZE → r1 child y s' = r2 child y s') →
  body r1 path x s = body r2 path x s.

Context (Hbody : extensional_body).

Lemma walk_fuel_enough f1 f2 path x s :
  (Z.to_nat (PATH_SIZE - slen path) < f1)%nat → (Z.to_nat (PATH_SIZE - slen path) < f2)%nat →
  walk_fuel f1 path x s = walk_fuel f2 path x s.
Proof using Hbody.
  revert f2 path x s. induction f1 as [|f1 IH]; intros [|f2] path x s H1 H2; [lia..|]. cbn [walk_fuel].
  apply Hbody. intros child y s' Hc. apply IH; lia.
Qed.

Lemma walk_unfold path x s : walk path x s = body walk path x s.
Proof using Hbody.
  unfold walk at 1. cbn [walk_fuel]. apply Hbody. intros child y s' Hc. apply walk_fuel_enough; lia.
Qed.
End walk.

(** ** Staying inside a tree *)

(** [p] is [root] or is reached from it through named entries, none of which
    [skip] excludes. *)
Definition reach (skip : cstr → bool) (root p : cstr) : Prop :=
  ∃ names, p = root ++ concat (map (λ n, lit "/" ++ n) names) ∧ Forall (λ n, skip n = false) names.
Definition below : cstr → cstr → Prop := reach is_dot.

Lemma reach_refl skip root : reach skip root root.
Proof. exists []. simpl. by rewrite app_nil_r. Qed.

Lemma below_refl root : below root root.
Proof. apply reach_refl. Qed.

Lemma reach_child skip root path name child :
  reach skip root path → skip name = false → child_path path name = Some child → reach skip root child.
Proof.
  intros (names & -> & Hn) Hd Hc. apply child_path_Some in Hc as [-> _].
  exists (names ++ [name]). rewrite map_app, concat_app, <- app_assoc. simpl concat. rewrite app_nil_r.
  split; [done|]. apply Forall_app. by repeat constructor.
Qed.

Lemma below_child root path name child :
  below root path → is_dot name = false → child_path path name = Some child → below root child.
Proof. apply reach_child. Qed.

Lemma reach_mono (skip skip' : cstr → bool) root p :
  (∀ n, skip n = false → skip' n = false) → reach skip root p → reach skip' root p.
Proof. intros H (names & -> & Hn). exists names. split; [done|]. by eapply Forall_impl. Qed.

Lemma reach_trans skip root p q : reach skip root p → reach skip p q → reach skip root q.
Proof.
  intros (n1 & -> & H1) (n2 & -> & H2). exists (n1 ++ n2). rewrite map_app, concat_app, app_assoc.
  split; [done|]. by apply Forall_app.
Qed.

(** The calls change nothing outside the tree below [root]. *)
Definition confined_to (root : cstr) (e : event) : Prop := ∀ p, p ∈ modifies e → below root p.

Lemma confined_to_nothing root e : modifies e = [] → confined_to root e.
Proof. unfold confined_to. intros -> p Hp. by apply not_elem_of_nil in Hp. Qed.

Lemma confined_to_one root e p : modifies e = [p] → below root p → confined_to root e.
Proof. unfold confined_to. intros -> H q Hq. by apply list_elem_of_singleton in Hq as ->. Qed.

#[export] Hint Resolve below_refl : frame.
