(* ===== verification/TaskQueue.v ===== *)
(** * Work queues and the worker pools that drain them

    Models [mbroker/include/task_queue.h] and the three queues of
    [post_mount.c] that have the same shape (whiteout scan tasks, whiteout
    matches, whiteout create tasks).  [total] is the length of the task list.

    A pool of worker threads runs the loop [while ((i = next(q)) >= 0) work(i)]
    over a shared queue.  Its executions are the interleavings of the two
    atomic actions of each worker: taking the next index under the queue's
    mutex, and finishing the work on the index it holds. *)
From S2P Require Import Prelude CString Config MountTable OS.
From stdpp Require Import sorting.
Open Scope Z_scope.

Definition TASK_QUEUE_INITIAL : Z := 4096.
Definition TASK_ENQUEUE_LEVELS : Z := 6.

Record task_entry := TaskEntry { te_path : cstr; te_uid : Z }.

Record queue (T : Type) := Queue { q_tasks : list T; q_capacity : Z; q_next : Z }.
Arguments Queue {T}.
Arguments q_tasks {T}.
Arguments q_capacity {T}.
Arguments q_next {T}.

Definition q_total {T} (q : queue T) : Z := Z.of_nat (length (q_tasks q)).
Abbreviation task_queue := (queue task_entry).

(** [memset(q, 0, sizeof( *q))]. *)
Definition task_queue_init {T} : queue T := Queue [] 0 0.

(** The capacity after doubling. *)
Definition grown {T} (initial : Z) (q : queue T) : Z :=
  if q_capacity q =? 0 then initial else q_capacity q * 2.

Section push.
Context {W : Type} {K : Kernel W} {T : Type}.

(** The common text of the four push functions: grow when full, then store
    the entry; [err] when [realloc] fails. *)
Definition queue_push (initial err : Z) (q : queue T) (entry : T) : M W (Z * queue T) :=
  if q_capacity q <=? q_total q then
    let! ok := try Alloc in
    if ok then ret (0, Queue (q_tasks q ++ [entry]) (grown initial q) (q_next q))
    else ret (err, q)
  else ret (0, Queue (q_tasks q ++ [entry]) (q_capacity q) (q_next q)).
End push.

Definition task_queue_push {W} {K : Kernel W} (q : task_queue) (path : cstr) (uid : Z) : M W (Z * task_queue) :=
  queue_push TASK_QUEUE_INITIAL (-1) q (TaskEntry (fit 4096 path) uid).

(** Grab the next index; -1 when the queue is exhausted. *)
Definition task_queue_next {T} (q : queue T) : Z * queue T :=
  let index := q_next q in
  (if index <? q_total q then index else -1, Queue (q_tasks q) (q_capacity q) (q_next q + 1)).

(** ** Pushing *)

Record queue_ok {T} (q : queue T) : Prop := {
  ok_capacity : q_total q <= q_capacity q;
  ok_next : 0 <= q_next q
}.

Section push_lemmas.
Context {W : Type} {K : Kernel W} {T : Type}.
Implicit Types (q : queue T) (s : dstate W).

Lemma task_queue_init_ok : queue_ok (task_queue_init (T := T)).
Proof. by split. Qed.

Lemma statics_queue_push initial err q (e : T) : respects (keeps statics) (queue_push (W := W) initial err q e).
Proof. unfold queue_push. respects. Qed.

Lemma emits_queue_push initial err q (e : T) :
  respects (emits (λ ev, readonly ev = true)) (queue_push (W := W) initial err q e).
Proof. unfold queue_push. respects; done. Qed.

(** A push appends its entry and keeps what was there, or leaves the queue
    as it was and reports the failure. *)
Lemma queue_push_ok initial err q (e : T) s :
  0 < initial → queue_ok q →
  wp (queue_push initial err q e)
     (λ '(rc, q') s', queue_ok q' ∧ q_next q' = q_next q ∧
        ((rc = 0 ∧ q_tasks q' = q_tasks q ++ [e]) ∨ (rc = err ∧ q' = q))) s.
Proof.
  intros Hi [Hc Hn]. unfold queue_push.
  assert (∀ cap, q_total q + 1 <= cap → queue_ok (Queue (q_tasks q ++ [e]) cap (q_next q))) as Hok.
  { intros cap H. split; [|done]. unfold q_total in *. simpl. rewrite length_app. simpl. lia. }
  destruct (Z.leb_spec (q_capacity q) (q_total q)).
  - apply wp_bind. unfold try. apply wp_bind, wp_sys. intros r s' _ _ _ _.
    apply wp_ret. destruct (negb (failed r)); apply wp_ret.
    + split_and!; [|done|by left].
      apply Hok. unfold grown, q_total in *. destruct (Z.eqb_spec (q_capacity q) 0); lia.
    + split_and!; [by split|done|by right].
  - apply wp_ret. split_and!; [apply Hok; lia|done|by left].
Qed.

(** What holds of all the entries of a queue. *)
Lemma queue_push_forall (P : T → Prop) initial err q (e : T) s :
  Forall P (q_tasks q) → P e → wp (queue_push (W := W) initial err q e) (λ '(_, q') _, Forall P (q_tasks q')) s.
Proof.
  intros Hq He. assert (Forall P (q_tasks q ++ [e])) by (apply Forall_app; by repeat constructor).
  unfold queue_push. destruct (_ <=? _); [|by apply wp_ret].
  apply wp_bind, wp_run. destruct (try Alloc s) as [[] s1]; simpl; by apply wp_ret.
Qed.
End push_lemmas.

#[export] Hint Resolve statics_queue_push : frame.

(** ** A worker's loop

    [for (;;) { index = next(q); if (index < 0) break; work(tasks[index]); }].
    [next] grows at every turn, so the number of tasks left is fuel enough. *)

Section worker_loop.
Context {W T A : Type}.

Fixpoint worker_run (fuel : nat) (q : queue T) (acc : A) (work : A → T → M W A) : M W (A * queue T) :=
  match fuel with
  | O => ret (acc, q)
  | S fuel' =>
    let '(index, q') := task_queue_next q in
    if index <? 0 then ret (acc, q')
    else
      match q_tasks q !! Z.to_nat index with
      | Some t => let! acc' := work acc t in worker_run fuel' q' acc' work
      | None => ret (acc, q')
      end
  end.
Definition worker_loop (q : queue T) (acc : A) (work : A → T → M W A) : M W (A * queue T) :=
  worker_run (S (Z.to_nat (q_total q - q_next q))) q acc work.

Lemma worker_run_meach fuel q acc work s :
  0 <= q_next q → (Z.to_nat (q_total q - q_next q) < fuel)%nat →
  let '(a, s') := meach (drop (Z.to_nat (q_next q)) (q_tasks q)) acc work s in
  ∃ q', worker_run fuel q acc work s = ((a, q'), s') ∧ q_tasks q' = q_tasks q.
Proof.
  revert q acc s. induction fuel as [|fuel IH]; intros q acc s Hn Hf; [lia|].
  cbn [worker_run]. unfold task_queue_next at 1. destruct (Z.ltb_spec (q_next q) (q_total q)) as [Hlt|Hge].
  - destruct (Z.ltb_spec (q_next q) 0); [lia|].
    destruct (lookup_lt_is_Some_2 (q_tasks q) (Z.to_nat (q_next q))) as [t Ht]; [unfold q_total in *; lia|].
    rewrite Ht, (drop_S _ t), meach_cons by done. unfold bind.
    destruct (work acc t s) as [acc' s1].
    specialize (IH (Queue (q_tasks q) (q_capacity q) (q_next q + 1)) acc' s1).
    unfold q_total in *. cbn [q_tasks q_next q_capacity] in IH.
    replace (Z.to_nat (q_next q + 1)) with (S (Z.to_nat (q_next q))) in IH by lia.
    apply IH; lia.
  - cbn [Z.ltb Z.compare]. rewrite drop_ge by (unfold q_total in *; lia).
    unfold meach, ret. simpl. eexists. split; [done|]. done.
Qed.

(** A worker alone on a fresh queue does every task once, in order. *)
Lemma worker_loop_meach q acc work s :
  q_next q = 0 →
  let '(a, s') := meach (q_tasks q) acc work s in
  ∃ q', worker_loop q acc work s = ((a, q'), s') ∧ q_tasks q' = q_tasks q.
Proof.
  intros Hn. pose proof (worker_run_meach (S (Z.to_nat (q_total q - q_next q))) q acc work s) as H.
  assert (drop (Z.to_nat (q_next q)) (q_tasks q) = q_tasks q) as Hd by (by rewrite Hn, drop_0).
  rewrite Hd in H. apply H; lia.
Qed.

Lemma respects_worker_loop (R : dstate W → dstate W → Prop) {HR : PreOrder R} q acc work :
  (∀ a t, t ∈ q_tasks q → respects R (work a t)) → respects R (worker_loop q acc work).
Proof.
  intros Hw. unfold worker_loop. generalize (S (Z.to_nat (q_total q - q_next q))) as fuel. intros fuel.
  revert q acc Hw. induction fuel as [|fuel IH]; intros q acc Hw; cbn [worker_run]; [respects|].
  unfold task_queue_next at 1. cbn [fst snd]. cbv beta iota.
  destruct (_ <? 0); [respects|].
  destruct (q_tasks q !! _) as [t|] eqn:Et; [|respects].
  apply respects_bind; [done|apply Hw; by eapply list_elem_of_lookup_2|]. intros a. by apply IH.
Qed.

Lemma wp_worker_loop (I : A → Prop) q acc work s :
  (∀ a t s, t ∈ q_tasks q → I a → wp (work a t) (λ a' _, I a') s) → I acc →
  wp (worker_loop q acc work) (λ '(a, _) _, I a) s.
Proof.
  intros Hw. unfold worker_loop. generalize (S (Z.to_nat (q_total q - q_next q))) as fuel. intros fuel.
  revert q acc s Hw. induction fuel as [|fuel IH]; intros q acc s Hw HI; cbn [worker_run]; [by apply wp_ret|].
  unfold task_queue_next at 1. cbn [fst snd]. cbv beta iota. destruct (_ <? 0); [by apply wp_ret|].
  destruct (q_tasks q !! _) as [t|] eqn:Et; [|by apply wp_ret].
  apply wp_bind. eapply wp_mono; [by apply Hw; [eapply list_elem_of_lookup_2|]|]. intros a s1 Ha. by apply IH.
Qed.
End worker_loop.

(** ** Starting workers *)

Section start.
Context {W : Type} {K : Kernel W}.

(** [(int)sysconf(_SC_NPROCESSORS_ONLN)], at least 1 and at most [total]. *)
Definition worker_count (total : Z) : M W Z :=
  let! n := call Nprocessors in
  let cpu_count := to_int32 n in
  let cpu_count := if cpu_count <? 1 then 1 else cpu_count in
  ret (if total <? cpu_count then total else cpu_count).

(** [for (w = 0; w < n; w++) if (pthread_create(...) == 0) started++]. *)
Definition start_workers (th : thread) (n : Z) : M W Z :=
  meach (seq 0 (Z.to_nat n)) 0 (λ started _,
    let! rc := call (PthreadCreate th) in
    ret (if rc =? 0 then started + 1 else started)).

Lemma worker_count_range total s : 0 < total → wp (worker_count total) (λ n _, 1 <= n <= total) s.
Proof.
  intros H. unfold worker_count. apply wp_bind, wp_run. destruct (call Nprocessors s) as [n s1]. simpl.
  apply wp_ret. destruct (Z.ltb_spec (to_int32 n) 1), (Z.ltb_spec total (to_int32 n)), (Z.ltb_spec total 1); lia.
Qed.
Lemma statics_worker_count total : respects (keeps statics) (worker_count total).
Proof. unfold worker_count. respects. Qed.
Lemma statics_start_workers th n : respects (keeps statics) (start_workers th n).
Proof. unfold start_workers. respects. Qed.
End start.
#[export] Hint Resolve statics_worker_count statics_start_workers : frame.

(** ** The worker pool *)

Inductive worker :=
  | Fetching                (** about to call [next] *)
  | Working (index : nat)   (** holds an index *)
  | Exited.                 (** saw -1 and returned *)

Record pool (T : Type) := Pool {
  p_queue : queue T;
  p_workers : list worker;
  p_done : list nat          (** the indices whose work is finished, in order *)
}.
Arguments Pool {T}.
Arguments p_queue {T}.
Arguments p_workers {T}.
Arguments p_done {T}.

(** What a worker does with the answer of [next]. *)
Definition fetched (index : Z) : worker := if index <? 0 then Exited else Working (Z.to_nat index).

Inductive pool_step {T} : pool T → pool T → Prop :=
  | step_next q ws done w index q' :
      ws !! w = Some Fetching → task_queue_next q = (index, q') →
      pool_step (Pool q ws done) (Pool q' (<[w := fetched index]> ws) done)
  | step_finish q ws done w i :
      ws !! w = Some (Working i) →
      pool_step (Pool q ws done) (Pool q (<[w := Fetching]> ws) (done ++ [i])).

(** The pool as it is created: nobody has taken anything. *)
Definition pool_init {T} (q : queue T) (workers : nat) : pool T :=
  Pool q (replicate workers Fetching) [].

Definition held (w : worker) : list nat := match w with Working i => [i] | _ => [] end.
Definition in_progress (ws : list worker) : list nat := concat (map held ws).

(** How many indices have been handed out. *)
Definition handed_out {T} (q : queue T) : nat := Z.to_nat (Z.min (q_next q) (q_total q)).

(** Every index handed out is either finished or held by exactly one worker. *)
Definition pool_inv {T} (n : nat) (p : pool T) : Prop :=
  0 <= q_next (p_queue p) ∧ q_total (p_queue p) = Z.of_nat n ∧
  (Exited ∈ p_workers p → Z.of_nat n <= q_next (p_queue p)) ∧
  p_done p ++ in_progress (p_workers p) ≡ₚ seq 0 (handed_out (p_queue p)).

(** The amount of work left: strictly decreases with every step. *)
Definition worker_weight (w : worker) : nat :=
  match w with Fetching => 1 | Working _ => 2 | Exited => 0 end.
Definition pool_measure {T} (p : pool T) : nat :=
  2 * (length (q_tasks (p_queue p)) - handed_out (p_queue p)) + sum_list_with worker_weight (p_workers p).

Section pool_lemmas.
Context {T : Type}.
Implicit Types (q : queue T) (p : pool T) (ws : list worker).

Lemma elem_of_insert_inv (x y : worker) i ws : x ∈ <[i := y]> ws → x = y ∨ x ∈ ws.
Proof.
  intros [j Hj]%list_elem_of_lookup. apply list_lookup_insert_Some in Hj as [(-> & -> & _)|[_ Hj]].
  - by left.
  - right. apply list_elem_of_lookup. eauto.
Qed.

Lemma in_progress_replace ws i w w' :
  ws !! i = Some w → held w ++ in_progress (<[i := w']> ws) ≡ₚ held w' ++ in_progress ws.
Proof.
  intros H. rewrite <- (take_drop_middle ws i w H) at 2.
  rewrite insert_take_drop by (by eapply lookup_lt_Some).
  unfold in_progress. rewrite !map_app. simpl. rewrite !concat_app. simpl.
  solve_Permutation.
Qed.

Lemma sum_replace ws i w w' :
  ws !! i = Some w →
  (sum_list_with worker_weight (<[i := w']> ws) + worker_weight w =
   sum_list_with worker_weight ws + worker_weight w')%nat.
Proof.
  intros H. rewrite <- (take_drop_middle ws i w H) at 2.
  rewrite insert_take_drop by (by eapply lookup_lt_Some).
  rewrite !sum_list_with_app. simpl. lia.
Qed.

Lemma pool_inv_step n p p' : pool_inv n p → pool_step p p' → pool_inv n p'.
Proof.
  intros (Hn & Ht & Hex & Hperm) Hstep. destruct Hstep as [q ws dn w index q' Hw Hnext|q ws dn w i Hw]; simpl in *.
  - unfold task_queue_next in Hnext. injection Hnext as <- <-.
    pose proof (in_progress_replace ws w Fetching) as Hrep. simpl in Hrep.
    destruct (Z.ltb_spec (q_next q) (q_total q)) as [Hlt|Hge]; unfold fetched.
    + destruct (Z.ltb_spec (q_next q) 0); [lia|].
      split_and!; simpl; [lia|done| |].
      * intros Hin. apply elem_of_insert_inv in Hin as [?|Hin]; [done|]. specialize (Hex Hin). lia.
      * rewrite Hrep by done. simpl.
        unfold handed_out in *. simpl.
        replace (Z.to_nat (Z.min (q_next q + 1) _)) with (S (Z.to_nat (Z.min (q_next q) (q_total q)))) by (unfold q_total; simpl; unfold q_total in *; lia).
        rewrite seq_S, <- Hperm. simpl.
        replace (Z.to_nat (Z.min (q_next q) (q_total q))) with (Z.to_nat (q_next q)) by lia.
        solve_Permutation.
    + split_and!; simpl; [lia|done|lia|].
      rewrite Hrep by done. simpl. rewrite Hperm. unfold handed_out. simpl.
      replace (Z.min (q_next q + 1) _) with (Z.min (q_next q) (q_total q)) by (unfold q_total in *; simpl; lia).
      done.
  - pose proof (in_progress_replace ws w (Working i) Fetching Hw) as Hrep. simpl in Hrep.
    split_and!; simpl; [done|done| |].
    + intros Hin. apply elem_of_insert_inv in Hin as [?|Hin]; [done|auto].
    + rewrite <- Hperm, <- Hrep. solve_Permutation.
Qed.

Lemma pool_inv_init q m : queue_ok q → q_next q = 0 → pool_inv (length (q_tasks q)) (pool_init q m).
Proof.
  intros [_ Hn] H0. split_and!; simpl; [done|done| |].
  - intros Hin. by apply elem_of_replicate in Hin as [? _].
  - unfold handed_out. rewrite H0. replace (Z.to_nat _) with 0%nat by (unfold q_total; lia).
    unfold in_progress. induction m; simpl; [done|done].
Qed.

Lemma pool_inv_reachable n p p' : pool_inv n p → rtc pool_step p p' → pool_inv n p'.
Proof. intros H Hs. induction Hs; [done|]. eauto using pool_inv_step. Qed.

Lemma pool_step_measure n p p' : pool_inv n p → pool_step p p' → (pool_measure p' < pool_measure p)%nat.
Proof.
  intros (Hn & Ht & _ & _) Hstep. destruct Hstep as [q ws dn w index q' Hw Hnext|q ws dn w i Hw]; simpl in *.
  - unfold task_queue_next in Hnext. injection Hnext as <- <-. unfold pool_measure, handed_out. simpl.
    set (x := fetched _). pose proof (sum_replace ws w Fetching x Hw) as Hsum. simpl in Hsum.
    unfold q_total in *. simpl. subst x. unfold fetched in *.
    destruct (Z.ltb_spec (q_next q) (Z.of_nat (length (q_tasks q)))).
    + destruct (Z.ltb_spec (q_next q) 0); [lia|]. simpl in Hsum. lia.
    + simpl in *. lia.
  - unfold pool_measure. simpl. pose proof (sum_replace ws w _ Fetching Hw) as Hsum. simpl in Hsum. lia.
Qed.
End pool_lemmas.

(** A pool whose workers have all returned. *)
Definition all_exited (ws : list worker) : Prop := Forall (λ w, w = Exited) ws.

Section pool_properties.
Context {T : Type}.

(** C26: no task is processed twice and none is skipped.  In every state that
    any interleaving of the workers can reach, the indices that are finished
    or being worked on are pairwise distinct and below [total]; and once all
    the workers of a non-empty pool have returned, what was processed is a
    permutation of all the task indices, each exactly once. *)
Theorem worker_pool_exactly_once (q : queue T) (workers : nat) (p : pool T)
    (Hq : queue_ok q) (Hfresh : q_next q = 0)
    (Hreach : rtc pool_step (pool_init q workers) p) :
  NoDup (p_done p ++ in_progress (p_workers p)) ∧
  Forall (λ i, (i < length (q_tasks q))%nat) (p_done p ++ in_progress (p_workers p)) ∧
  (p_workers p ≠ [] → all_exited (p_workers p) → p_done p ≡ₚ seq 0 (length (q_tasks q))).
Proof.
  pose proof (pool_inv_reachable _ _ p (pool_inv_init q workers Hq Hfresh) Hreach) as (Hn & Ht & Hex & Hperm).
  assert (handed_out (p_queue p) ≤ length (q_tasks q))%nat as Hle by (unfold handed_out; lia).
  split_and!.
  - rewrite Hperm. apply NoDup_seq.
  - rewrite Hperm. apply Forall_seq. lia.
  - intros Hne Hall.
    assert (Exited ∈ p_workers p) as Hin.
    { destruct (p_workers p) as [|w ws]; [done|]. apply Forall_cons in Hall as [-> _]. left. }
    specialize (Hex Hin).
    assert (in_progress (p_workers p) = []) as Hnone.
    { clear -Hall. induction Hall as [|w ws -> Hws IH]; [done|]. apply IH. }
    rewrite Hnone, app_nil_r in Hperm. rewrite Hperm.
    unfold handed_out. rewrite Ht. replace (Z.to_nat _) with (length (q_tasks q)) by lia. done.
Qed.

(** C40: the pool always terminates: from its initial state no execution is
    longer than [2 * total + workers] steps, whatever the scheduler does,
    and it can only stop once every worker has returned. *)
Theorem worker_pool_terminates (q : queue T) (workers steps : nat) (p : pool T)
    (Hq : queue_ok q) (Hfresh : q_next q = 0)
    (Hrun : nsteps pool_step steps (pool_init q workers) p) :
  (steps ≤ 2 * length (q_tasks q) + workers)%nat ∧
  ((∀ p', ¬ pool_step p p') → all_exited (p_workers p)).
Proof.
  split.
  - assert (∀ n (p1 p2 : pool T), pool_inv (length (q_tasks q)) p1 → nsteps pool_step n p1 p2 →
      (n + pool_measure p2 ≤ pool_measure p1)%nat) as Hgen.
    { intros n p1 p2 Hinv Hs. induction Hs as [|n p1 p1' p2 H1 Hs IH]; [lia|].
      pose proof (pool_step_measure _ _ _ Hinv H1). pose proof (IH (pool_inv_step _ _ _ Hinv H1)). lia. }
    specialize (Hgen _ _ _ (pool_inv_init q workers Hq Hfresh) Hrun).
    assert (pool_measure (pool_init q workers) ≤ 2 * length (q_tasks q) + workers)%nat as Hm.
    { unfold pool_measure, pool_init. simpl.
      assert (sum_list_with worker_weight (replicate workers Fetching) = workers) as ->
        by (clear; induction workers; simpl; lia). lia. }
    lia.
  - intros Hstuck. apply Forall_lookup_2. intros i w Hi. destruct p as [qp ws dn], w as [|j|]; simpl in *.
    + destruct (task_queue_next qp) as [ix q'] eqn:E.
      exfalso. by eapply Hstuck, step_next.
    + exfalso. by eapply Hstuck, step_finish.
    + done.
Qed.
End pool_properties.

Definition one_task : task_queue := Queue [TaskEntry (lit "/b/sb1/src") 7] TASK_QUEUE_INITIAL 0.

Lemma one_task_ok : queue_ok one_task.
Proof. by split; vm_compute. Qed.

Lemma worker_pool_exactly_once_witness :
  NoDup ([] ++ [O]) ∧ Forall (λ i, (i < 1)%nat) ([] ++ [O]) ∧
  ([Working 0] ≠ [] → all_exited [Working 0] → [] ≡ₚ seq 0 1).
Proof.
  apply (worker_pool_exactly_once one_task 1 (Pool (snd (task_queue_next one_task)) [Working 0] [])).
  - apply one_task_ok.
  - reflexivity.
  - apply rtc_once. by apply (step_next one_task [Fetching] [] 0 0).
Defined.

Lemma worker_pool_terminates_witness :
  (1 ≤ 2 * 1 + 1)%nat ∧
  ((∀ p', ¬ pool_step (Pool (snd (task_queue_next one_task)) [Working 0] []) p') → all_exited [Working 0]).
Proof.
  apply (worker_pool_terminates one_task 1 1 (Pool (snd (task_queue_next one_task)) [Working 0] [])).
  - apply one_task_ok.
  - reflexivity.
  - eapply nsteps_l; [|apply nsteps_O]. by apply (step_next one_task [Fetching] [] 0 0).
Defined.
