(* ===== verification/Exports.v ===== *)
(** * The NFS exports file

    Models the part of [mbroker/daemon/mount_ops.c] and [umount_ops.c] that
    maintains [/etc/exports]: adding the entry of a sandbox when it is mounted,
    removing it when it is unmounted, and running [exportfs]. *)
From S2P Require Import Prelude CString Config MountTable OS SimKernel Storage.
Open Scope Z_scope.

Definition EXPORTS_FILE : cstr := lit "/etc/exports".
Definition EXPORTFS_CMD : cstr := lit "timeout 20s /sbin/exportfs -ra >/dev/null 2>&1".

(** Wait statuses. *)
Definition WTERMSIG (status : Z) : Z := Z.land status 0x7f.
Definition WIFEXITED (status : Z) : bool := WTERMSIG status =? 0.
Definition WEXITSTATUS (status : Z) : Z := Z.land (Z.shiftr status 8) 0xff.
Definition WIFSIGNALED (status : Z) : bool :=
  negb (WTERMSIG status =? 0) && negb (WTERMSIG status =? 0x7f).

Definition line_matches_mountpath (line mountpath : cstr) : bool :=
  let line := drop_while isspace line in
  prefixb mountpath line &&
  match drop (length mountpath) line with
  | [] => true
  | c :: _ => isspace c
  end.

(** [%0<n>x] of a number below [16^n]. *)
Definition hex_digit (z : Z) : ascii :=
  nth (Z.to_nat z) (lit "0123456789abcdef") "0"%char.
Fixpoint hex (n : nat) (z : Z) : cstr :=
  match n with
  | O => []
  | S n' => hex_digit (Z.land (Z.shiftr z (4 * Z.of_nat n')) 15) :: hex n' z
  end.

Definition is_newline (c : ascii) : bool := char_eqb c LF || char_eqb c CR.

Definition exports_entry (mountpath fsid : cstr) : cstr :=
  mountpath ++ lit " *(rw,sync,no_subtree_check,fsid=" ++ fsid ++ lit ",crossmnt)".

(** Some line of the file, as read into [char line[8192]], is an entry of
    [mountpath]. *)
Definition has_export (content : list ascii) (mountpath : cstr) : bool :=
  existsb (λ line, line_matches_mountpath (c_str line) mountpath) (fgets_lines 8192 content).

Section exports.
Context {W : Type} {K : Kernel W}.

Definition run_exportfs_refresh : M W Z :=
  let! r := sys (System EXPORTFS_CMD) in
  match r with
  | inl _ => ret (-1)
  | inr rc =>
    if WIFSIGNALED rc then ret (-1)
    else if negb (WIFEXITED rc) || negb (WEXITSTATUS rc =? 0) then ret (-1)
    else ret 0
  end.

Definition refresh_exports : M W Z := run_exportfs_refresh.

(** The random fsid used when [uuidgen] is missing. *)
Definition random_fsid : M W cstr :=
  let! _ := call Time in
  let! _ := call Getpid in
  let! a := call Rand in
  let! b := call Rand in
  let! c := call Rand in
  let! d := call Rand in
  let! e := call Rand in
  let! f := call Rand in
  let low x := Z.land x 0xFFFF in
  ret (hex 8 (to_uint32 a) ++ lit "-" ++ hex 4 (low b) ++ lit "-" ++ hex 4 (low c) ++ lit "-" ++
       hex 4 (low d) ++ lit "-" ++ hex 8 (to_uint32 e) ++ hex 4 (low f)).

Definition generate_fsid_uuid (n : Z) : M W (option cstr) :=
  let! have_uuidgen := try (Access (lit "/bin/uuidgen") X_OK) in
  if negb have_uuidgen then
    let! text := random_fsid in
    if (slen text <=? 0) || (n <=? slen text) then ret None else ret (Some text)
  else
    let! r := call Uuidgen in
    match r with
    | UuidPopenFailed => ret None
    | UuidOutput out rc =>
      match fgets_lines n out with
      | [] => ret None
      | line :: _ =>
        if negb (rc =? 0) then ret None
        else
          let buf := rstrip is_newline (c_str line) in
          ret (if nonempty buf then Some buf else None)
      end
    end.

(** The existing content, read again before the file is rewritten. *)
Definition read_existing : M W (list ascii) :=
  let! r := sys (ReadFile EXPORTS_FILE) in
  match r with
  | inl _ => ret []
  | inr content =>
    if nonempty content then
      let! ok := try Alloc in
      ret (if ok then content else [])
    else ret []
  end.

Definition ensure_overlay_export (mountpath : cstr) : M W Z :=
  let! r := sys (ReadFile EXPORTS_FILE) in
  match r with
  | inl _ => ret (-1)
  | inr content =>
    if has_export content mountpath then run_exportfs_refresh
    else
      let! fsid := generate_fsid_uuid 128 in
      match fsid with
      | None => ret (-1)
      | Some fsid =>
        let! existing := read_existing in
        let! opened := try (FopenW EXPORTS_FILE) in
        if negb opened then ret (-1)
        else
          let! written := try (Fputs EXPORTS_FILE (exports_entry mountpath fsid ++ [LF])) in
          if negb written then
            let! _ := sys (Fclose EXPORTS_FILE) in
            ret (-1)
          else
            (if nonempty existing then
               let! _ := sys (Fputs EXPORTS_FILE existing) in ret tt
             else ret tt) ;;
            let! _ := sys (Fclose EXPORTS_FILE) in
            run_exportfs_refresh
      end
  end.

(** One iteration of the copy loop: [removed] and the line read. *)
Definition copy_line (mountpath tmpfile : cstr) (removed : bool) (line : list ascii) : M W bool :=
  if line_matches_mountpath (c_str line) mountpath then ret true
  else
    let! _ := sys (Fputs tmpfile (c_str line)) in
    ret removed.

Definition exports_tmpfile (pid : Z) : cstr := fit 256 (lit "/etc/exports.mrepod." ++ dec pid ++ lit ".tmp").

Definition remove_overlay_export (mountpath : cstr) : M W Z :=
  let! r := sys (ReadFile EXPORTS_FILE) in
  match r with
  | inl _ => ret (-1)
  | inr content =>
    let! pid := call Getpid in
    let tmpfile := exports_tmpfile pid in
    let! opened := try (FopenW tmpfile) in
    if negb opened then ret (-1)
    else
      let! removed := meach (fgets_lines 8192 content) false (copy_line mountpath tmpfile) in
      let! closed := try (Fclose tmpfile) in
      if negb closed then
        let! _ := sys (Unlink tmpfile) in ret (-1)
      else
        let! renamed := try (Rename tmpfile EXPORTS_FILE) in
        if negb renamed then
          let! _ := sys (Unlink tmpfile) in ret (-1)
        else if removed then run_exportfs_refresh
        else ret 0
  end.
End exports.

(** * The file as a list of entries *)

(** The first blank-delimited field of a line: the exported directory. *)
Definition first_field (line : cstr) : cstr := take_while (λ c, negb (isspace c)) (drop_while isspace line).
Definition space_free (s : cstr) : Prop := forallb (λ c, negb (isspace c)) s = true.

Definition exports (mountpath line : cstr) : bool := str_eqb (first_field line) mountpath.

Definition add_export (mountpath fsid : cstr) (ls : list cstr) : list cstr :=
  if existsb (exports mountpath) ls then ls else exports_entry mountpath fsid :: ls.
Definition del_export (mountpath : cstr) (ls : list cstr) : list cstr :=
  List.filter (λ l, negb (exports mountpath l)) ls.

(** Lines that [char line[8192]] holds whole. *)
Definition line_ok (l : cstr) : Prop := (LF ∉ l) ∧ (NUL ∉ l) ∧ slen l < 8191.

(** An identifier that [uuidgen] or the random fallback produces. *)
Definition fsid_ok (u : cstr) : Prop := u ≠ [] ∧ Forall (λ c, is_newline c = false ∧ c ≠ NUL) u ∧ slen u < 127.

(** ** Matching *)

Lemma line_matches_first_field line mp :
  space_free mp → line_matches_mountpath line mp = exports mp line.
Proof.
  intros Hmp. unfold line_matches_mountpath, exports, first_field.
  set (t := drop_while isspace line). clearbody t.
  apply Bool.eq_iff_eq_true. rewrite andb_true_iff, prefixb_spec, str_eqb_eq. split.
  - intros [[k ->] Hk]. rewrite drop_app_length in Hk. destruct k as [|c k].
    + rewrite app_nil_r. by apply take_while_id.
    + by rewrite take_while_app_stop by (done || by rewrite Hk).
  - intros <-. split.
    + exists (drop_while (λ c, negb (isspace c)) t). by rewrite take_drop_while.
    + rewrite <- (take_drop_while (λ c, negb (isspace c)) t) at 2. rewrite drop_app_length.
      destruct (drop_while _ t) as [|c k] eqn:E; [done|].
      apply drop_while_head in E. by apply negb_false_iff.
Qed.

Lemma take_while_snoc {A} (p : A → bool) l x : p x = false → take_while p (l ++ [x]) = take_while p l.
Proof.
  intros Hx. induction l as [|y l IH]; simpl; [by rewrite Hx|]. destruct (p y); by rewrite ?IH.
Qed.

Lemma first_field_newline l : first_field (l ++ [LF]) = first_field l.
Proof.
  unfold first_field. induction l as [|c l IH]; [done|]. simpl. destruct (isspace c) eqn:E; [done|].
  change (c :: l ++ [LF]) with ((c :: l) ++ [LF]). by apply take_while_snoc.
Qed.

Lemma c_str_line l : line_ok l → c_str (l ++ [LF]) = l ++ [LF].
Proof.
  intros (_ & H & _). apply no_nul_c_str. unfold no_nul. rewrite not_elem_of_app.
  split; [done|]. by apply not_elem_of_cons; split; [|apply not_elem_of_nil].
Qed.

Lemma line_matches_line l mp :
  space_free mp → line_ok l → line_matches_mountpath (c_str (l ++ [LF])) mp = exports mp l.
Proof.
  intros Hmp Hl. rewrite c_str_line, line_matches_first_field by done.
  unfold exports. by rewrite first_field_newline.
Qed.

Lemma fgets_lines_exports ls : Forall line_ok ls → fgets_lines 8192 (text ls) = map (λ l, l ++ [LF]) ls.
Proof. intros H. apply fgets_lines_text. eapply Forall_impl; [done|]. intros l (? & _ & ?). split; [done|lia]. Qed.

Lemma has_export_text ls mp :
  space_free mp → Forall line_ok ls → has_export (text ls) mp = existsb (exports mp) ls.
Proof.
  intros Hmp Hls. unfold has_export. rewrite fgets_lines_exports by done.
  induction Hls as [|l ls Hl Hls IH]; [done|]. simpl. by rewrite line_matches_line, IH.
Qed.

(** ** Entries *)

Lemma space_free_no_newline s c : space_free s → isspace c = true → c ∉ s.
Proof.
  intros H Hc Hin. unfold space_free in H. rewrite forallb_forall in H.
  apply list_elem_of_In, H in Hin. by rewrite Hc in Hin.
Qed.

Lemma exports_entry_exports mp fsid :
  mp ≠ [] → space_free mp → exports mp (exports_entry mp fsid) = true.
Proof.
  intros Hne Hmp. apply str_eqb_eq. unfold first_field, exports_entry.
  assert (∀ r, mp ++ lit " *(rw,sync,no_subtree_check,fsid=" ++ r =
    mp ++ " "%char :: (lit "*(rw,sync,no_subtree_check,fsid=" ++ r)) as -> by done.
  destruct mp as [|c mp]; [done|].
  rewrite <- app_comm_cons, drop_while_id; [by apply (take_while_app_stop _ (c :: mp))|].
  unfold space_free in Hmp. simpl in Hmp. by apply andb_true_iff in Hmp as [?%negb_true_iff _].
Qed.

Lemma fsid_ok_no_newline u : fsid_ok u → (LF ∉ u) ∧ (NUL ∉ u).
Proof.
  intros (_ & H & _). rewrite Forall_forall in H.
  split; intros Hin; destruct (H _ Hin) as [Hn Hz]; [by vm_compute in Hn|done].
Qed.

Lemma exports_entry_ok mp fsid :
  space_free mp → no_nul mp → slen mp < 2048 → fsid_ok fsid → line_ok (exports_entry mp fsid).
Proof.
  intros Hmp Hz Hlen Hu. destruct (fsid_ok_no_newline _ Hu) as [HuL HuN].
  unfold line_ok, exports_entry. rewrite !not_elem_of_app, !slen_app. destruct Hu as (_ & _ & Hl).
  split_and!; try done.
  - by apply space_free_no_newline.
  - by apply (bool_decide_eq_true _).
  - by apply (bool_decide_eq_true _).
  - by apply (bool_decide_eq_true _).
  - by apply (bool_decide_eq_true _).
  - change (slen (lit " *(rw,sync,no_subtree_check,fsid=")) with 33.
    change (slen (lit ",crossmnt)")) with 10. lia.
Qed.

Lemma add_del_export mp fsid ls :
  mp ≠ [] → space_free mp → existsb (exports mp) ls = false →
  del_export mp (add_export mp fsid ls) = ls.
Proof.
  intros Hne Hmp Hls. unfold add_export, del_export. rewrite Hls. simpl.
  rewrite exports_entry_exports by done. simpl.
  induction ls as [|l ls IH]; [done|]. simpl in *. apply orb_false_iff in Hls as [-> Hls].
  simpl. by rewrite IH.
Qed.

Lemma del_export_gone mp ls : existsb (exports mp) (del_export mp ls) = false.
Proof.
  induction ls as [|l ls IH]; [done|]. simpl. destruct (exports mp l) eqn:E; simpl; [done|]. by rewrite E.
Qed.

(** Removing one directory keeps the entries of the others. *)
Lemma del_export_other mp mp' ls :
  mp ≠ mp' → List.filter (exports mp') (del_export mp ls) = List.filter (exports mp') ls.
Proof.
  intros Hne. induction ls as [|l ls IH]; [done|]. simpl. destruct (exports mp l) eqn:E; simpl.
  - destruct (exports mp' l) eqn:E'; [|done]. unfold exports in *. to_prop. congruence.
  - by rewrite IH.
Qed.

Lemma line_ok_del mp ls : Forall line_ok ls → Forall line_ok (del_export mp ls).
Proof.
  rewrite !Forall_forall. intros H l Hl. apply H. apply list_elem_of_In in Hl.
  apply filter_In in Hl as [? _]. by apply list_elem_of_In.
Qed.

(** ** Random identifiers *)

Lemma hex_length n z : length (hex n z) = n.
Proof. induction n; simpl; congruence. Qed.

Lemma hex_digits n z : Forall (λ c, is_newline c = false ∧ c ≠ NUL) (hex n z).
Proof.
  induction n as [|n IH]; simpl; constructor; [|done]. unfold hex_digit.
  assert (Forall (λ c, is_newline c = false ∧ c ≠ NUL) (lit "0123456789abcdef")) as Hall
    by (repeat constructor; by vm_compute).
  rewrite Forall_forall in Hall.
  destruct (nth_in_or_default (Z.to_nat (Z.land (Z.shiftr z (4 * Z.of_nat n)) 15))
    (lit "0123456789abcdef") "0"%char) as [Hin| ->]; [|split; by vm_compute].
  by apply Hall, list_elem_of_In.
Qed.

Lemma snoc_newline_inj (ls1 ls2 : list cstr) :
  map (λ l, l ++ [LF]) ls1 = map (λ l, l ++ [LF]) ls2 → ls1 = ls2.
Proof.
  revert ls2. induction ls1 as [|l ls1 IH]; intros [|l2 ls2] H; try done.
  injection H as Hl H. apply IH in H as ->. by apply app_inj_tail in Hl as [-> _].
Qed.

(** ** Running over a healthy store *)

(** [uuidgen -r] prints one identifier. *)
Class UuidgenWorks {W} (K : Kernel W) : Prop :=
  uuidgen_works : ∀ w, ∃ u, fst (k_do Uuidgen w) = UuidOutput (u ++ [LF]) 0 ∧ fsid_ok u.

Lemma rstrip_newline u : fsid_ok u → rstrip is_newline (u ++ [LF]) = u.
Proof.
  intros (Hne & Hall & _). unfold rstrip. rewrite reverse_app. simpl.
  destruct (reverse u) as [|c r] eqn:E.
  { apply (f_equal reverse) in E. by rewrite reverse_involutive in E. }
  assert (c ∈ u) as Hc by (apply elem_of_reverse; rewrite E; left).
  rewrite Forall_forall in Hall. destruct (Hall _ Hc) as [Hn _].
  simpl. rewrite Hn, <- E. by rewrite reverse_involutive.
Qed.

Section healthy.
Context {W : Type} {K : Kernel W} {HS : HealthyStore W K} {HU : UuidgenWorks K}.
Implicit Types s : dstate W.

Lemma wp_run_exportfs_refresh (Q : Z → dstate W → Prop) s :
  (∀ s', files s' = files s → Q 0 s') → wp run_exportfs_refresh Q s.
Proof. intros H. apply wp_bind, wp_system. intros s' Hf. by apply H. Qed.

Lemma wp_random_fsid (Q : cstr → dstate W → Prop) s :
  (∀ u s', fsid_ok u → slen u = 36 → files s' = files s → Q u s') → wp random_fsid Q s.
Proof.
  intros H. unfold random_fsid.
  do 8 (apply wp_bind, wp_readonly; [done|]; intros ? ? ?).
  apply wp_ret, H; [| |congruence].
  - unfold fsid_ok. split_and!; [done| |].
    + repeat (apply Forall_app; split); try apply hex_digits; repeat constructor; by vm_compute.
    + rewrite !slen_app. unfold slen. rewrite !hex_length. by vm_compute.
  - rewrite !slen_app. unfold slen. rewrite !hex_length. by vm_compute.
Qed.

Lemma wp_generate_fsid (Q : option cstr → dstate W → Prop) s :
  (∀ u s', fsid_ok u → files s' = files s → Q (Some u) s') → wp (generate_fsid_uuid 128) Q s.
Proof.
  intros H. unfold generate_fsid_uuid. apply wp_bind, wp_readonly_try; [done|]. intros b s1 H1.
  destruct b; simpl negb; cbv iota.
  - apply wp_bind, wp_call. intros r s2 Hk _ _ _.
    destruct (uuidgen_works (world s1)) as (u & Hr & Hu).
    pose proof (fs_readonly _ Uuidgen (world s1)) as Hf. rewrite Hk in Hr, Hf. simpl in Hr, Hf. subst r.
    specialize (Hf eq_refl).
    assert (fgets_lines 128 (u ++ [LF]) = [u ++ [LF]]) as ->.
    { destruct (fsid_ok_no_newline _ Hu). destruct Hu as (_ & _ & ?).
      by rewrite fgets_lines_cons by (done || lia). }
    cbn [Z.eqb negb]. apply wp_ret.
    rewrite no_nul_c_str, rstrip_newline; [|done|].
    + destruct u as [|c u]; [by destruct Hu|]. apply H; [done|]. unfold files in *. congruence.
    + unfold no_nul. rewrite not_elem_of_app. split; [by apply fsid_ok_no_newline|].
      apply (bool_decide_eq_true _). by vm_compute.
  - apply wp_bind, wp_random_fsid. intros u s2 Hu Hl H2. rewrite Hl. simpl.
    apply wp_ret, H; congruence.
Qed.

Lemma wp_ensure mp ls (Q : Z → dstate W → Prop) s :
  space_free mp → Forall line_ok ls → files s !! EXPORTS_FILE = Some (text ls) →
  (∀ u s', fsid_ok u →
     files s' = <[EXPORTS_FILE := text (add_export mp u ls)]> (files s) → Q 0 s') →
  wp (ensure_overlay_export mp) Q s.
Proof.
  intros Hmp Hls Hf H. unfold ensure_overlay_export.
  eapply wp_bind, (wp_read EXPORTS_FILE); [done|exact Hf|]. intros s1 H1. rewrite has_export_text by done.
  destruct (existsb (exports mp) ls) eqn:Ex.
  { apply wp_run_exportfs_refresh. intros s2 H2.
    apply (H (lit "0")); [split_and!; [done|repeat constructor; by vm_compute|done]|].
    unfold add_export. rewrite Ex, insert_id; [congruence|done]. }
  apply wp_bind, wp_generate_fsid. intros u s2 Hu H2.
  assert (files s2 !! EXPORTS_FILE = Some (text ls)) as Hf2 by congruence.
  apply wp_bind. unfold read_existing. eapply wp_bind, (wp_read EXPORTS_FILE); [done|exact Hf2|]. intros s3 H3.
  apply (wp_mono _ (λ e s', e = text ls ∧ files s' = files s)).
  { destruct (text ls) eqn:Et; simpl nonempty; cbv iota.
    - apply wp_ret. split; congruence.
    - apply wp_bind, wp_alloc. intros s4 H4. apply wp_ret. split; congruence. }
  intros e s4 [-> H4]. apply wp_bind, wp_fopenw. intros s5 H5. simpl negb. cbv iota.
  apply wp_bind. eapply wp_fputs_try; [by rewrite H5, lookup_insert_eq|]. intros s6 H6.
  simpl negb. cbv iota. rewrite H5, insert_insert_eq in H6. simpl in H6.
  apply wp_bind.
  apply (wp_mono _ (λ _ s', files s' =
    <[EXPORTS_FILE := text (exports_entry mp u :: ls)]> (files s))).
  { change (text (exports_entry mp u :: ls)) with ((exports_entry mp u ++ [LF]) ++ text ls).
    destruct (text ls) as [|c t] eqn:Et; simpl nonempty; cbv iota.
    - apply wp_ret. rewrite app_nil_r. congruence.
    - apply wp_bind. eapply wp_fputs; [by rewrite H6, lookup_insert_eq|]. intros s7 H7.
      apply wp_ret. rewrite H7, H6, insert_insert_eq. congruence. }
  intros _ s7 H7. apply wp_bind, wp_fclose. intros s8 H8.
  apply wp_run_exportfs_refresh. intros s9 H9. apply (H u); [done|].
  unfold add_export. rewrite Ex. congruence.
Qed.

Lemma exports_tmpfile_other pid : exports_tmpfile pid ≠ EXPORTS_FILE.
Proof. unfold exports_tmpfile, fit. simpl. discriminate. Qed.

Lemma wp_remove mp ls (Q : Z → dstate W → Prop) s :
  space_free mp → Forall line_ok ls → files s !! EXPORTS_FILE = Some (text ls) →
  (∀ pid s', files s' = <[EXPORTS_FILE := text (del_export mp ls)]>
                          (delete (exports_tmpfile pid) (files s)) → Q 0 s') →
  wp (remove_overlay_export mp) Q s.
Proof.
  intros Hmp Hls Hf H. unfold remove_overlay_export.
  eapply wp_bind, (wp_read EXPORTS_FILE); [done|exact Hf|]. intros s1 H1.
  apply wp_bind, wp_readonly; [done|]. intros pid s2 H2.
  set (tmp := exports_tmpfile pid).
  apply wp_bind, wp_fopenw. intros s3 H3. simpl negb. cbv iota.
  apply wp_bind. rewrite fgets_lines_exports by done.
  apply (wp_meach (λ done _ s', ∃ ls1, done = map (λ l, l ++ [LF]) ls1 ∧
    files s' = <[tmp := text (del_export mp ls1)]> (files s))).
  - exists []. split; [done|]. change (text (del_export mp [])) with (@nil ascii). congruence.
  - intros done x rest b s4 Hl (ls1 & -> & H4).
    apply map_eq_app in Hl as (ls1' & ls2 & -> & Heq & Hl2).
    apply map_eq_cons in Hl2 as (l & ls3 & -> & <- & _).
    apply snoc_newline_inj in Heq as ->.
    apply Forall_app in Hls as [_ [Hlok _]%Forall_cons].
    unfold copy_line. rewrite line_matches_line, c_str_line by done.
    assert (del_export mp (ls1 ++ [l]) = del_export mp ls1 ++ if exports mp l then [] else [l]) as Hdel.
    { unfold del_export. rewrite List.filter_app. simpl. by destruct (exports mp l). }
    destruct (exports mp l) eqn:El.
    + apply wp_ret. exists (ls1 ++ [l]). rewrite Hdel, map_app, app_nil_r. done.
    + apply wp_bind. eapply wp_fputs; [by rewrite H4, lookup_insert_eq|]. intros s5 H5.
      apply wp_ret. exists (ls1 ++ [l]). rewrite Hdel, map_app. split; [done|].
      rewrite H5, H4, insert_insert_eq. unfold text. rewrite map_app, concat_app. simpl. by rewrite app_nil_r.
  - intros removed s4 (ls1 & Heq & H4).
    apply snoc_newline_inj in Heq. subst ls1.
    apply wp_bind, wp_fclose_try. intros s5 H5. simpl negb. cbv iota.
    apply wp_bind. eapply wp_rename; [by rewrite H5, H4, lookup_insert_eq|]. intros s6 H6.
    simpl negb. cbv iota.
    assert (files s6 = <[EXPORTS_FILE := text (del_export mp ls)]> (delete tmp (files s))) as H6'.
    { rewrite H6, H5, H4, insert_delete_eq, delete_insert_eq. done. }
    destruct removed; [apply wp_run_exportfs_refresh; intros s7 H7|apply wp_ret]; apply (H pid); by rewrite ?H7, H6'.
Qed.


(** Removing an export removes that export only.  After
    [remove_overlay_export] of a mount point without blanks the file has no
    line for it, every line for any other directory is still there, in the
    same order, and no other file has changed except the temporary one,
    which is gone. *)
Theorem remove_overlay_export_exact mp ls s
    (Hmp : space_free mp) (Hls : Forall line_ok ls)
    (Hf : files s !! EXPORTS_FILE = Some (text ls)) :
  wp (remove_overlay_export mp)
     (λ rc s', rc = 0 ∧ ∃ ls' pid, files s' !! EXPORTS_FILE = Some (text ls') ∧
        has_export (text ls') mp = false ∧
        (∀ mp', mp' ≠ mp → List.filter (exports mp') ls' = List.filter (exports mp') ls) ∧
        (∀ q, q ≠ EXPORTS_FILE → q ≠ exports_tmpfile pid → files s' !! q = files s !! q) ∧
        files s' !! exports_tmpfile pid = None) s.
Proof.
  eapply wp_remove; [done..|]. intros pid s' H. split; [done|].
  exists (del_export mp ls), pid. rewrite H, lookup_insert_eq. split_and!; [done| | | |].
  - rewrite has_export_text by (done || by apply line_ok_del). apply del_export_gone.
  - intros mp' Hne. by apply del_export_other.
  - intros q Hq Hq'. by rewrite lookup_insert_ne, lookup_delete_ne by congruence.
  - pose proof (exports_tmpfile_other pid). by rewrite lookup_insert_ne, lookup_delete_eq by congruence.
Qed.
End healthy.

(** ** Under any kernel *)

Section any_kernel.
Context {W : Type} {K : Kernel W}.

Lemma statics_refresh : respects (keeps statics) (run_exportfs_refresh (K := K)).
Proof. unfold run_exportfs_refresh. respects. Qed.
#[local] Hint Resolve statics_refresh : frame.

Lemma statics_generate_fsid n : respects (keeps statics) (generate_fsid_uuid n).
Proof. unfold generate_fsid_uuid, random_fsid. respects. Qed.
#[local] Hint Resolve statics_generate_fsid : frame.

Lemma statics_ensure mp : respects (keeps statics) (ensure_overlay_export mp).
Proof. unfold ensure_overlay_export, read_existing. respects. Qed.

Lemma statics_remove mp : respects (keeps statics) (remove_overlay_export mp).
Proof. unfold remove_overlay_export, copy_line. respects. Qed.

(** [/etc/exports] is replaced atomically.  Whatever the kernel does,
    [remove_overlay_export] changes the file only by renaming a complete
    temporary file onto it: it never opens it for writing, so a crash or a
    failing write cannot leave a truncated file. *)
Theorem remove_overlay_export_atomic mp :
  respects (emits (λ e, EXPORTS_FILE ∈ modifies e →
    ∃ pid r, e = Ev (Rename (exports_tmpfile pid) EXPORTS_FILE) r)) (remove_overlay_export mp).
Proof.
  unfold remove_overlay_export, copy_line, run_exportfs_refresh.
  respects; simpl; intros Hin;
    first [by apply not_elem_of_nil in Hin | by eauto | apply list_elem_of_singleton in Hin;
           exfalso; by eapply exports_tmpfile_other].
Qed.
End any_kernel.

#[export] Hint Resolve statics_refresh statics_generate_fsid statics_ensure statics_remove : frame.

(** ** A run *)

#[export] Instance sim_uuidgen_works : UuidgenWorks sim_kernel.
Proof.
  intros w. exists (lit "0a0b"). split; [done|].
  split_and!; [done|repeat constructor; by vm_compute|by vm_compute].
Qed.

Definition exports_sim : sim := Sim [] [(EXPORTS_FILE, text [lit "# exports"; lit "/srv *(rw)"])] [] 0.


Lemma remove_overlay_export_exact_witness :
  wp (remove_overlay_export (lit "/srv"))
     (λ rc s', rc = 0 ∧ ∃ ls' pid, files s' !! EXPORTS_FILE = Some (text ls') ∧
        has_export (text ls') (lit "/srv") = false ∧
        (∀ mp', mp' ≠ lit "/srv" → List.filter (exports mp') ls' =
           List.filter (exports mp') [lit "# exports"; lit "/srv *(rw)"]) ∧
        (∀ q, q ≠ EXPORTS_FILE → q ≠ exports_tmpfile pid →
           files s' !! q = files (sim_state exports_sim [] zero_config) !! q) ∧
        files s' !! exports_tmpfile pid = None)
     (sim_state exports_sim [] zero_config).
Proof.
  apply (remove_overlay_export_exact (lit "/srv") [lit "# exports"; lit "/srv *(rw)"]
    (sim_state exports_sim [] zero_config)); try by vm_compute.
  repeat constructor; try (apply (bool_decide_eq_true _)); by vm_compute.
Defined.
