(* ===== verification/Record.v ===== *)
(** * Mount records

    Models [struct mount_ctx] and the part of [mbroker/daemon/mount_ops.c] that
    writes [<overlayroot>/<sandbox>/mountinfo.json]: [json_escape],
    [json_kv_str] and [save_mount_record]. *)
From S2P Require Import Prelude CString Config MountTable OS SimKernel Storage Json.
Open Scope Z_scope.

(** The fields of [struct mount_ctx] that the code uses. *)
Record mount_ctx := MountCtx { ctx_overlayroot : cstr; ctx_upperdir : cstr; ctx_workdir : cstr }.

Definition json_escape_char (c : ascii) : list ascii :=
  if char_eqb c QUOTE then [BSLASH; QUOTE]
  else if char_eqb c BSLASH then [BSLASH; BSLASH]
  else if char_eqb c LF then [BSLASH; "n"%char]
  else if char_eqb c CR then [BSLASH; "r"%char]
  else if char_eqb c TAB then [BSLASH; "t"%char]
  else [c].
Definition json_escape (s : cstr) : list ascii := concat (map json_escape_char s).

(** The key, its colon and the opening quote; the closing quote with its comma. *)
Definition kv_open (key : cstr) : list ascii := lit "  " ++ [QUOTE] ++ key ++ [QUOTE] ++ lit ": " ++ [QUOTE].
Definition kv_close (comma : bool) : list ascii := [QUOTE] ++ (if comma then lit "," else []) ++ [LF].
(** A member with a number. *)
Definition kv_int (key : cstr) (z : Z) : list ascii :=
  lit "  " ++ [QUOTE] ++ key ++ [QUOTE] ++ lit ": " ++ dec z ++ lit "," ++ [LF].

Definition record_path (overlayroot name : cstr) : cstr :=
  overlayroot ++ lit "/" ++ name ++ lit "/mountinfo.json".

Section record.
Context {W : Type} {K : Kernel W}.

Definition json_kv_str (f key val : cstr) (comma : bool) : M W unit :=
  let! _ := sys (Fputs f (kv_open key)) in
  let! _ := sys (Fputs f (json_escape val)) in
  let! _ := sys (Fputs f (kv_close comma)) in
  ret tt.

(** [if (val && val[0]) json_kv_str(f, key, val, 1)]. *)
Definition json_kv_opt (f key val : cstr) : M W unit :=
  if nonempty val then json_kv_str f key val true else ret tt.

Definition save_mount_record (ctx : mount_ctx) (sandboxname effective_lowerdir custom_lowerdir
    custom_overlayroot : cstr) (uid gid flags : Z) (baas_path prebuild_sb : cstr) : M W unit :=
  let sb_base := basename (fit 2048 sandboxname) in
  let full := record_path (ctx_overlayroot ctx) sb_base in
  let f := fit 4096 full in
  if (slen full <=? 0) || (4096 <=? slen full) then ret tt
  else
    let! opened := try (FopenW f) in
    if negb opened then ret tt
    else
      let! _ := call Time in
      let! t := call (Strftime (lit "%Y-%m-%dT%H:%M:%S")) in
      let timebuf := fit 64 t in
      let! _ := sys (Fputs f (lit "{" ++ [LF])) in
      json_kv_str f (lit "sandboxname") sandboxname true ;;
      json_kv_str f (lit "overlayroot") (ctx_overlayroot ctx) true ;;
      json_kv_str f (lit "lowerdir") effective_lowerdir true ;;
      json_kv_str f (lit "upperdir") (ctx_upperdir ctx) true ;;
      json_kv_str f (lit "workdir") (ctx_workdir ctx) true ;;
      json_kv_opt f (lit "custom_lowerdir") custom_lowerdir ;;
      json_kv_opt f (lit "custom_overlayroot") custom_overlayroot ;;
      json_kv_opt f (lit "baas_path") baas_path ;;
      json_kv_opt f (lit "prebuild_sb") prebuild_sb ;;
      let! _ := sys (Fputs f (kv_int (lit "uid") (to_int32 uid))) in
      let! _ := sys (Fputs f (kv_int (lit "gid") (to_int32 gid))) in
      let! _ := sys (Fputs f (kv_int (lit "flags") flags)) in
      json_kv_str f (lit "created") timebuf false ;;
      let! _ := sys (Fputs f (lit "}" ++ [LF])) in
      let! _ := sys (Fclose f) in
      ret tt.
End record.

(** ** Reading a record

    The fields that [restore_mounts] takes from a record; a [const char *] that
    may be NULL is an option. *)

Record restore_request := RestoreRequest {
  rr_sandboxname : option cstr;
  rr_lowerdir : option cstr;
  rr_overlayroot : option cstr;
  rr_baas_path : option cstr;
  rr_prebuild_sb : option cstr;
  rr_flags : Z;
  rr_uid : Z;
  rr_gid : Z
}.

Definition read_record {J : Jansson} (root : json_t) : restore_request :=
  let str key := json_string_value (json_object_get (Some root) key) in
  let int key := to_int32 (json_integer_value (json_object_get (Some root) key)) in
  RestoreRequest (str (lit "sandboxname")) (str (lit "lowerdir")) (str (lit "custom_overlayroot"))
    (str (lit "baas_path")) (str (lit "prebuild_sb")) (int (lit "flags")) (int (lit "uid")) (int (lit "gid")).

(** * The text that is written *)

Definition kv_str (key val : cstr) (comma : bool) : list ascii := kv_open key ++ json_escape val ++ kv_close comma.
Definition kv_opt (key val : cstr) : list ascii := if nonempty val then kv_str key val true else [].

(** The fields of a record, in the order they are written. *)
Definition opt_field (key val : cstr) : list (cstr * flat) := if nonempty val then [(key, FString val)] else [].
Definition record_fields (ctx : mount_ctx) (sandboxname effective_lowerdir custom_lowerdir custom_overlayroot : cstr)
    (uid gid flags : Z) (baas_path prebuild_sb created : cstr) : list (cstr * flat) :=
  [(lit "sandboxname", FString sandboxname); (lit "overlayroot", FString (ctx_overlayroot ctx));
   (lit "lowerdir", FString effective_lowerdir); (lit "upperdir", FString (ctx_upperdir ctx));
   (lit "workdir", FString (ctx_workdir ctx))] ++
  opt_field (lit "custom_lowerdir") custom_lowerdir ++
  opt_field (lit "custom_overlayroot") custom_overlayroot ++
  opt_field (lit "baas_path") baas_path ++ opt_field (lit "prebuild_sb") prebuild_sb ++
  [(lit "uid", FInteger (to_int32 uid)); (lit "gid", FInteger (to_int32 gid));
   (lit "flags", FInteger flags); (lit "created", FString created)].

(** One member as the code prints it, without the comma. *)
Definition member_text (m : cstr * flat) : list ascii :=
  lit "  " ++ [QUOTE] ++ fst m ++ [QUOTE] ++ lit ": " ++
  match snd m with
  | FString s => [QUOTE] ++ json_escape s ++ [QUOTE]
  | FInteger z => dec z
  end.
Definition object_text (ms : list (cstr * flat)) : list ascii :=
  lit "{" ++ [LF] ++ join (lit "," ++ [LF]) (map member_text ms) ++ [LF] ++ lit "}" ++ [LF].

(** ** Reading it back *)

(** Text that JSON can carry with the escapes the code knows. *)
Definition escapable (c : ascii) : bool :=
  json_plain c || char_eqb c QUOTE || char_eqb c BSLASH || char_eqb c LF || char_eqb c CR || char_eqb c TAB.
Definition json_text (s : cstr) : Prop := Forall (λ c, escapable c = true) s.
Definition plain_text (s : cstr) : Prop := Forall (λ c, json_plain c = true) s.

Lemma parse_string_plain s r : plain_text s → parse_string (s ++ QUOTE :: r) = Some (s, r).
Proof.
  induction 1 as [|c s Hc _ IH]; [done|]. simpl. rewrite Hc, IH. unfold json_plain in Hc.
  to_prop. case_char c QUOTE; [by vm_compute in H0|]. case_char c BSLASH; [by vm_compute in H|]. done.
Qed.

Lemma parse_string_char c x :
  escapable c = true →
  parse_string (json_escape_char c ++ x) =
    match parse_string x with Some (v, r) => Some (c :: v, r) | None => None end.
Proof.
  intros Hc. unfold json_escape_char.
  case_char c QUOTE; [done|]. case_char c BSLASH; [done|].
  case_char c LF; [done|]. case_char c CR; [done|]. case_char c TAB; [done|].
  assert (json_plain c = true) as Hp.
  { unfold escapable in Hc. repeat (apply orb_true_iff in Hc as [Hc|Hc]); try done;
      apply char_eqb_eq in Hc; congruence. }
  simpl. apply char_eqb_neq in E, E0. by rewrite E, E0, Hp.
Qed.

Lemma parse_string_escape s r : json_text s → parse_string (json_escape s ++ QUOTE :: r) = Some (s, r).
Proof.
  induction 1 as [|c s Hc _ IH]; [done|]. unfold json_escape in *. simpl.
  by rewrite <- app_assoc, parse_string_char, IH.
Qed.

Definition no_digit_head (r : list ascii) : Prop := match r with [] => True | c :: _ => isdigit c = false end.

Lemma parse_digits_dec z r :
  0 <= z → no_digit_head r → parse_digits (dec z ++ r) = Some (z, r).
Proof.
  intros Hz Hr. destruct (dec_digits z Hz) as (Hd & Hv & Hne). unfold parse_digits.
  assert (take_while isdigit (dec z ++ r) = dec z ∧ drop_while isdigit (dec z ++ r) = r) as [-> ->].
  { destruct r as [|c r].
    - by rewrite app_nil_r, take_while_id, drop_while_all.
    - by rewrite take_while_app_stop, drop_while_app_stop. }
  destruct (dec z); [done|]. by rewrite Hv.
Qed.

Definition field_ok (m : cstr * flat) : Prop :=
  plain_text (fst m) ∧ match snd m with FString s => json_text s | FInteger _ => True end.

Lemma parse_member_text m r : field_ok m → no_digit_head r → parse_member (member_text m ++ r) = Some (m, r).
Proof.
  destruct m as [k v]. intros [Hk Hv] Hr. unfold member_text. simpl in *.
  unfold parse_member, expect, skip_ws. rewrite <- !app_assoc. simpl.
  rewrite parse_string_plain by done. simpl. destruct v as [s|z].
  - simpl. rewrite <- app_assoc. simpl. by rewrite parse_string_escape.
  - destruct (decide (0 <= z)) as [Hz|Hz].
    + destruct (dec_digits z Hz) as (Hd & Hval & Hne). pose proof (parse_digits_dec z r Hz Hr) as Hp.
      destruct (dec z) as [|c d]; [done|]. simpl in Hd. apply andb_true_iff in Hd as [Hc _].
      assert (is_ws c = false ∧ char_eqb c QUOTE = false ∧ char_eqb c "-" = false) as (Hw & Hq & Hm).
      { unfold is_ws. split_and!; rewrite ?orb_false_iff; split_and?; apply char_eqb_neq;
          intros ->; by vm_compute in Hc. }
      simpl. rewrite Hw. simpl. rewrite Hq, Hm. simpl in Hp. by rewrite Hp.
    + rewrite dec_negative by lia. simpl.
      pose proof (parse_digits_dec (- z) r ltac:(lia) Hr) as Hp. rewrite Hp. by rewrite Z.opp_involutive.
Qed.

Lemma parse_members_text ms fuel r :
  ms ≠ [] → Forall field_ok ms → (length ms ≤ fuel)%nat → 
  parse_members fuel (join (lit "," ++ [LF]) (map member_text ms) ++ [LF] ++ lit "}" ++ r) = Some (ms, r).
Proof.
  intros Hne Hok. revert fuel. induction Hok as [|m ms Hm Hms IH]; intros fuel Hf; [done|].
  destruct fuel as [|fuel]; simpl in Hf; [lia|]. cbn [map]. destruct ms as [|m2 ms].
  - cbn [map join parse_members]. rewrite parse_member_text by done. by destruct m.
  - rewrite join_cons by done. rewrite <- !app_assoc. cbn [parse_members].
    rewrite parse_member_text by done. destruct m as [k v].
    assert (∀ x, expect "," (lit "," ++ [LF] ++ x) = Some ([LF] ++ x)) as Hcomma by done.
    rewrite Hcomma.
    assert (∀ x, parse_members fuel ([LF] ++ x) = parse_members fuel x) as ->.
    { intros x. destruct fuel; [done|]. cbn [parse_members]. done. }
    rewrite IH by (done || lia). done.
Qed.

Lemma join_length_ge (sep : list ascii) ls :
  Forall (λ l, l ≠ []) ls → (length ls ≤ length (join sep ls))%nat.
Proof.
  induction 1 as [|l ls Hl Hls IH]; [simpl; lia|].
  assert (1 ≤ length l)%nat by (destruct l; [done|simpl; lia]).
  destruct ls as [|l2 ls]; [simpl; lia|].
  rewrite join_cons, !length_app by done. simpl in *. lia.
Qed.

Lemma parse_object_text ms : ms ≠ [] → Forall field_ok ms → parse_object (object_text ms) = Some ms.
Proof.
  intros Hne Hok. unfold parse_object, object_text.
  assert (∀ x, expect "{" (lit "{" ++ [LF] ++ x) = Some ([LF] ++ x)) as -> by done.
  assert (∀ n x, parse_members n ([LF] ++ x) = parse_members n x) as ->.
  { intros n x. destruct n; [done|]. cbn [parse_members]. done. }
  rewrite parse_members_text; [done|done|done|].
  rewrite !length_app.
  assert (length ms = length (map member_text ms)) as -> by (by rewrite length_map).
  pose proof (join_length_ge (lit "," ++ [LF]) (map member_text ms)) as Hj.
  assert (Forall (λ l, l ≠ []) (map member_text ms)) by (apply Forall_map, Forall_true; by intros []).
  specialize (Hj H). lia.
Qed.

Lemma join_snoc (sep x : list ascii) ls : join sep (ls ++ [x]) = concat (map (λ l, l ++ sep) ls) ++ x.
Proof.
  induction ls as [|l ls IH]; [done|]. rewrite <- app_comm_cons, join_cons by (by destruct ls).
  rewrite IH. simpl. by rewrite <- !app_assoc.
Qed.

(** ** Writing it *)

Section write.
Context {W : Type} {K : Kernel W} {HS : HealthyStore W K}.
Implicit Types s : dstate W.

(** [f] has been written with [content]; the other files are those of [fs]. *)
Definition holds (f : cstr) (content : list ascii) (fs : gmap cstr (list ascii)) s : Prop :=
  files s = <[f := content]> fs.

Lemma wp_puts f d content fs (Q : res unit → dstate W → Prop) s :
  holds f content fs s → (∀ s', holds f (content ++ d) fs s' → Q (inr tt) s') → wp (sys (Fputs f d)) Q s.
Proof.
  intros Hh H. eapply wp_fputs; [by rewrite Hh, lookup_insert_eq|]. intros s' Hf. apply H.
  unfold holds in *. by rewrite Hf, Hh, insert_insert_eq.
Qed.

Lemma wp_json_kv_str f key val comma content fs (Q : unit → dstate W → Prop) s :
  holds f content fs s → (∀ s', holds f (content ++ kv_str key val comma) fs s' → Q tt s') →
  wp (json_kv_str f key val comma) Q s.
Proof.
  intros Hh H. unfold json_kv_str. apply wp_bind. eapply wp_puts; [done|]. intros s1 H1.
  apply wp_bind. eapply wp_puts; [done|]. intros s2 H2.
  apply wp_bind. eapply wp_puts; [done|]. intros s3 H3. apply wp_ret, H.
  unfold kv_str. by rewrite !app_assoc.
Qed.

Lemma wp_json_kv_opt f key val content fs (Q : unit → dstate W → Prop) s :
  holds f content fs s → (∀ s', holds f (content ++ kv_opt key val) fs s' → Q tt s') →
  wp (json_kv_opt f key val) Q s.
Proof.
  intros Hh H. unfold json_kv_opt, kv_opt in *. destruct (nonempty val).
  - by eapply wp_json_kv_str.
  - apply wp_ret, H. by rewrite app_nil_r.
Qed.
End write.

Definition sep_text : list ascii := lit "," ++ [LF].
Definition members_text (ms : list (cstr * flat)) : list ascii :=
  concat (map (λ l, l ++ sep_text) (map member_text ms)).

Lemma members_text_app a b : members_text (a ++ b) = members_text a ++ members_text b.
Proof. unfold members_text. by rewrite !map_app, concat_app. Qed.

Lemma members_text_str k v : members_text [(k, FString v)] = kv_str k v true.
Proof.
  unfold members_text, member_text, kv_str, kv_open, kv_close, sep_text. simpl.
  rewrite app_nil_r. repeat (rewrite <- ?app_assoc; simpl). done.
Qed.

Lemma member_text_str k v x : member_text (k, FString v) ++ [LF] ++ x = kv_str k v false ++ x.
Proof.
  unfold member_text, kv_str, kv_open, kv_close. repeat (rewrite <- ?app_assoc; simpl). done.
Qed.

Lemma members_text_opt k v : members_text (opt_field k v) = kv_opt k v.
Proof. unfold opt_field, kv_opt. destruct (nonempty v); [apply members_text_str|done]. Qed.

Lemma members_text_int k z : members_text [(k, FInteger z)] = kv_int k z.
Proof.
  unfold members_text, member_text, kv_int, sep_text. simpl.
  rewrite app_nil_r. repeat (rewrite <- ?app_assoc; simpl). done.
Qed.

Lemma object_text_snoc ms m :
  object_text (ms ++ [m]) = lit "{" ++ [LF] ++ members_text ms ++ member_text m ++ [LF] ++ lit "}" ++ [LF].
Proof. unfold object_text. rewrite map_app. simpl map. rewrite join_snoc. by rewrite <- !app_assoc. Qed.

Lemma record_text_fields ctx sb el cl co uid gid fl bp ps t :
  object_text (record_fields ctx sb el cl co uid gid fl bp ps t) =
    lit "{" ++ [LF] ++ kv_str (lit "sandboxname") sb true ++ kv_str (lit "overlayroot") (ctx_overlayroot ctx) true ++
    kv_str (lit "lowerdir") el true ++ kv_str (lit "upperdir") (ctx_upperdir ctx) true ++
    kv_str (lit "workdir") (ctx_workdir ctx) true ++
    kv_opt (lit "custom_lowerdir") cl ++ kv_opt (lit "custom_overlayroot") co ++
    kv_opt (lit "baas_path") bp ++ kv_opt (lit "prebuild_sb") ps ++
    kv_int (lit "uid") (to_int32 uid) ++ kv_int (lit "gid") (to_int32 gid) ++ kv_int (lit "flags") fl ++
    kv_str (lit "created") t false ++ lit "}" ++ [LF].
Proof.
  unfold record_fields.
  set (a := lit "sandboxname"). set (b := lit "overlayroot"). set (c := lit "lowerdir"). set (d := lit "upperdir").
  set (e := lit "workdir"). set (f := lit "uid"). set (g := lit "gid"). set (h := lit "flags"). set (i := lit "created").
  assert (∀ x1 x2 x3 x4 x5 : cstr * flat, [x1; x2; x3; x4; x5] = [x1] ++ [x2] ++ [x3] ++ [x4] ++ [x5]) as H5 by done.
  assert (∀ x1 x2 x3 x4 : cstr * flat, [x1; x2; x3; x4] = [x1] ++ [x2] ++ [x3] ++ [x4]) as H4 by done.
  rewrite H5, H4, !app_assoc, object_text_snoc.
  rewrite !members_text_app, !members_text_str, !members_text_opt, !members_text_int, <- !app_assoc.
  by rewrite member_text_str.
Qed.

(** [strftime] with digits and punctuation. *)
Class StrftimePlain {W} (K : Kernel W) : Prop :=
  strftime_plain : ∀ fmt w, json_text (fst (k_do (Strftime fmt) w)).

Lemma json_text_fit n s : json_text s → json_text (fit n s).
Proof. intros H. by apply Forall_take. Qed.

Section save.
Context {W : Type} {K : Kernel W} {HS : HealthyStore W K} {HT : StrftimePlain K}.
Implicit Types s : dstate W.

Lemma wp_save_mount_record ctx sb el cl co uid gid fl bp ps (Q : unit → dstate W → Prop) s :
  let f := record_path (ctx_overlayroot ctx) (basename (fit 2048 sb)) in
  slen f < 4096 →
  (∀ t s', json_text t →
     holds f (object_text (record_fields ctx sb el cl co uid gid fl bp ps t)) (files s) s' → Q tt s') →
  wp (save_mount_record ctx sb el cl co uid gid fl bp ps) Q s.
Proof.
  intros f Hlen H. unfold save_mount_record. fold f. rewrite (fit_id 4096 f) by done.
  assert (0 < slen f) as Hpos by (unfold f, record_path; destruct (ctx_overlayroot ctx); simpl; rewrite ?slen_cons;
    match goal with |- 0 < 1 + slen ?x => pose proof (slen_nonneg x) end; lia).
  destruct (Z.leb_spec (slen f) 0) as [|_]; [lia|]. destruct (Z.leb_spec 4096 (slen f)) as [|_]; [lia|]. simpl orb. cbv iota.
  apply wp_bind, wp_fopenw. intros s1 H1. simpl negb. cbv iota.
  apply wp_bind, wp_readonly; [done|]. intros _ s2 H2.
  apply wp_bind, wp_call. intros t s3 Hk _ _ _.
  pose proof (strftime_plain (lit "%Y-%m-%dT%H:%M:%S") (world s2)) as Ht. rewrite Hk in Ht. simpl in Ht.
  pose proof (fs_readonly _ (Strftime (lit "%Y-%m-%dT%H:%M:%S")) (world s2) eq_refl) as H3.
  rewrite Hk in H3. simpl in H3.
  assert (holds f [] (files s) s3) as Hh by (unfold holds, files in *; congruence).
  clear H1 H2 H3 Hk.
  apply wp_bind. eapply wp_puts; [done|]. clear Hh. intros ? Hh.
  do 5 (apply wp_bind; eapply wp_json_kv_str; [done|]; clear Hh; intros ? Hh).
  do 4 (apply wp_bind; eapply wp_json_kv_opt; [done|]; clear Hh; intros ? Hh).
  do 3 (apply wp_bind; eapply wp_puts; [done|]; clear Hh; intros ? Hh).
  apply wp_bind; eapply wp_json_kv_str; [done|]; clear Hh; intros ? Hh.
  apply wp_bind; eapply wp_puts; [done|]; clear Hh; intros ? Hh.
  apply wp_bind, wp_fclose. intros s4 Hf. apply wp_ret, (H (fit 64 t)); [by apply json_text_fit|].
  unfold holds in *. rewrite Hf, Hh, record_text_fields. by rewrite <- !app_assoc.
Qed.
End save.

Lemma record_fields_ok ctx sb el cl co uid gid fl bp ps t :
  Forall json_text [ctx_overlayroot ctx; ctx_upperdir ctx; ctx_workdir ctx; sb; el; cl; co; bp; ps; t] →
  Forall field_ok (record_fields ctx sb el cl co uid gid fl bp ps t).
Proof.
  intros H. repeat (apply Forall_cons in H as [? H]).
  assert (∀ k v, plain_text k → json_text v → Forall field_ok (opt_field k v)) as Hopt.
  { intros k v Hk Hv. unfold opt_field. destruct (nonempty v); [|done]. repeat constructor; done. }
  unfold record_fields. repeat (apply Forall_app; split); try apply Hopt;
    try (repeat (apply Forall_cons; split); [..|done]); unfold field_ok; simpl; try (split; [|done]);
    try done; repeat constructor; by vm_compute.
Qed.

Lemma record_fields_keys ctx sb el cl co uid gid fl bp ps t :
  NoDup ((record_fields ctx sb el cl co uid gid fl bp ps t).*1).
Proof.
  unfold record_fields, opt_field.
  destruct (nonempty cl), (nonempty co), (nonempty bp), (nonempty ps);
    simpl; apply (bool_decide_eq_true _); by vm_compute.
Qed.

Lemma record_fields_assoc ctx sb el cl co uid gid fl bp ps t :
  let ms := record_fields ctx sb el cl co uid gid fl bp ps t in
  let opt v := if nonempty v then Some (FString v) else None in
  assoc (lit "sandboxname") ms = Some (FString sb) ∧ assoc (lit "lowerdir") ms = Some (FString el) ∧
  assoc (lit "custom_overlayroot") ms = opt co ∧ assoc (lit "baas_path") ms = opt bp ∧
  assoc (lit "prebuild_sb") ms = opt ps ∧ assoc (lit "flags") ms = Some (FInteger fl) ∧
  assoc (lit "uid") ms = Some (FInteger (to_int32 uid)) ∧
  assoc (lit "gid") ms = Some (FInteger (to_int32 gid)).
Proof.
  unfold record_fields, opt_field.
  destruct (nonempty cl), (nonempty co), (nonempty bp), (nonempty ps); repeat split; reflexivity.
Qed.

Section reload.
Context {J : Jansson} {JR : JanssonReads J}.

(** What [restore_mounts] finds in a record. *)
Definition saved_request (sb el co : cstr) (uid gid fl : Z) (bp ps : cstr) : restore_request :=
  let opt v := if nonempty v then Some v else None in
  RestoreRequest (Some sb) (Some el) (opt co) (opt bp) (opt ps) fl (to_int32 uid) (to_int32 gid).

Lemma get_string root k (v : option cstr) (o : option flat) :
  o = FString <$> v →
  match o with
  | None => json_object_get (Some root) k = None
  | Some (FString v) => json_string_value (json_object_get (Some root) k) = Some v
  | Some (FInteger z) => json_integer_value (json_object_get (Some root) k) = z
  end → json_string_value (json_object_get (Some root) k) = v.
Proof. intros ->. destruct v; simpl; [done|]. intros ->. apply jansson_null. Qed.

Lemma to_int32_idem z : to_int32 (to_int32 z) = to_int32 z.
Proof. apply to_int32_id, to_int32_range. Qed.

Lemma read_saved ctx sb el cl co uid gid fl bp ps t :
  Forall field_ok (record_fields ctx sb el cl co uid gid fl bp ps t) → - 2 ^ 31 <= fl < 2 ^ 31 →
  ∃ root, json_loads (object_text (record_fields ctx sb el cl co uid gid fl bp ps t)) = Some root ∧
    read_record root = saved_request sb el co uid gid fl bp ps.
Proof.
  intros Hok Hfl.
  destruct (jansson_reads _ _ (parse_object_text (record_fields ctx sb el cl co uid gid fl bp ps t) ltac:(done) Hok) (record_fields_keys ctx sb el cl co uid gid fl bp ps t))
    as (root & Hroot & Hget).
  exists root. split; [done|]. unfold read_record, saved_request.
  destruct (record_fields_assoc ctx sb el cl co uid gid fl bp ps t) as (E1 & E2 & E3 & E4 & E5 & E6 & E7 & E8).
  f_equal.
  - eapply (get_string _ _ (Some sb)), Hget. exact E1.
  - eapply (get_string _ _ (Some el)), Hget. exact E2.
  - eapply (get_string _ _ (if nonempty co then Some co else None)), Hget. rewrite E3. by destruct (nonempty co).
  - eapply (get_string _ _ (if nonempty bp then Some bp else None)), Hget. rewrite E4. by destruct (nonempty bp).
  - eapply (get_string _ _ (if nonempty ps then Some ps else None)), Hget. rewrite E5. by destruct (nonempty ps).
  - pose proof (Hget (lit "flags")) as G. rewrite E6 in G. rewrite G. by apply to_int32_id.
  - pose proof (Hget (lit "uid")) as G. rewrite E7 in G. rewrite G. apply to_int32_idem.
  - pose proof (Hget (lit "gid")) as G. rewrite E8 in G. rewrite G. apply to_int32_idem.
Qed.

End reload.

#[export] Instance sim_strftime : StrftimePlain sim_kernel.
Proof. intros fmt w. repeat constructor; by vm_compute. Qed.

Definition witness_ctx : mount_ctx := MountCtx (lit "/ov") (lit "/ov/sb1/upper") (lit "/ov/sb1/work").

