(* ===== verification/ModelClient.v ===== *)
(** * The client of the inference sidecar

    Models [mbroker/daemon/model_client.c] with the structures of
    [mbroker/include/model_client.h]: length-prefixed JSON over a UNIX socket,
    one request per connection, with every failure reported as [-1].  A
    [double] is its 64-bit pattern; the JSON library is the class [Jansson]. *)
From S2P Require Import Prelude CString Config MountTable OS SimKernel Storage Json.
Open Scope Z_scope.

Definition MODEL_SOCKET_DEFAULT : cstr := lit "/run/mrepod/model.sock".
Definition MODEL_MAX_SERVERS : Z := 16.
Definition MODEL_RESP_MAX : Z := 4 * 1024 * 1024.
Definition SO_RCVTIMEO : Z := 20.
Definition SO_SNDTIMEO : Z := 21.

Record model_server_result := ModelServerResult {
  server_index : Z;
  q_values : list Z;        (** [double q_values[MODEL_MAX_SERVERS]] *)
  health_scores : list Z;
  num_servers : Z
}.
Record model_anomaly_entry := ModelAnomalyEntry {
  ae_server_index : Z; ae_error : Z; ae_threshold : Z; ae_anomalous : Z
}.
Record model_anomaly_result := ModelAnomalyResult {
  any_anomalous : Z;
  an_count : Z;
  an_servers : list model_anomaly_entry   (** [servers[MODEL_MAX_SERVERS]] *)
}.
Record model_predict_result := ModelPredictResult {
  predictions : list Z;     (** [int predictions[64]] *)
  pr_count : Z
}.
Record model_policy_result := ModelPolicyResult {
  po_action : Z;
  po_action_name : cstr;    (** [char action_name[64]] *)
  po_q_values : list Z;     (** [double q_values[16]] *)
  po_num_actions : Z
}.

(** [{0}]. *)
Definition zero_server_result : model_server_result :=
  ModelServerResult 0 (replicate 16 0) (replicate 16 0) 0.
Definition zero_anomaly_result : model_anomaly_result :=
  ModelAnomalyResult 0 0 (replicate 16 (ModelAnomalyEntry 0 0 0 0)).

(** ** The frame header *)

(** [htonl] of a 32-bit length, as the four bytes in memory. *)
Definition be32 (n : Z) : list ascii :=
  [byte_of (Z.shiftr n 24); byte_of (Z.shiftr n 16); byte_of (Z.shiftr n 8); byte_of n].

Definition header_length (h : list ascii) : Z :=
  let b i := match h !! i with Some c => code c | None => 0 end in
  Z.lor (Z.shiftl (b 0%nat) 24) (Z.lor (Z.shiftl (b 1%nat) 16) (Z.lor (Z.shiftl (b 2%nat) 8) (b 3%nat))).

(** [for (i = 0; i < n; i++) arr[i] = f(i)]. *)
Definition fill {A} (n : Z) (f : Z → A) (arr : list A) : list A :=
  fold_left (λ a i, <[i := f (Z.of_nat i)]> a) (seq 0 (Z.to_nat n)) arr.

Section model.
Context {W : Type} {K : Kernel W} {J : Jansson}.

Definition model_connect (sock_path : cstr) : M W Z :=
  let! r := sys Socket in
  match r with
  | inl _ => ret (-1)
  | inr fd =>
    let! _ := sys (Setsockopt fd SO_RCVTIMEO) in
    let! _ := sys (Setsockopt fd SO_SNDTIMEO) in
    let! ok := try (Connect fd (fit 108 sock_path)) in
    if negb ok then
      let! _ := sys (Close fd) in ret (-1)
    else ret fd
  end.

(** [write(fd, data, n) == n]. *)
Definition write_all (fd : Z) (data : list ascii) : M W bool :=
  let! r := sys (Write fd data) in
  match r with
  | inl _ => ret false
  | inr n => ret (n =? slen data)
  end.

Definition send_json (fd : Z) (obj : json_t) : M W Z :=
  match json_dumps obj with
  | None => ret (-1)
  | Some payload =>
    let! ok := write_all fd (be32 (to_uint32 (slen payload))) in
    if negb ok then ret (-1)
    else
      let! ok := write_all fd payload in
      ret (if ok then 0 else -1)
  end.

(** [while (got < n) { r = read(fd, buf + got, n - got); if (r <= 0) fail; got += r; }].
    Every iteration reads at least a byte, so [n] of them are enough. *)
Fixpoint read_full (fuel : nat) (fd n : Z) (got : list ascii) : M W (option (list ascii)) :=
  if n <=? slen got then ret (Some got)
  else
    match fuel with
    | O => ret None
    | S fuel' =>
      let! r := sys (Read fd (n - slen got)) in
      match r with
      | inl _ => ret None
      | inr [] => ret None
      | inr d => read_full fuel' fd n (got ++ d)
      end
    end.

Definition recv_json (fd : Z) : M W (option json_t) :=
  let! h := read_full 4 fd 4 [] in
  match h with
  | None => ret None
  | Some header =>
    let length := header_length header in
    if (length =? 0) || (MODEL_RESP_MAX <? length) then ret None
    else
      let! ok := try Alloc in
      if negb ok then ret None
      else
        let! b := read_full (Z.to_nat length) fd length [] in
        match b with
        | None => ret None
        | Some buf => ret (json_loads (c_str buf))
        end
  end.

Definition model_rpc (sock_path : cstr) (request : json_t) : M W (option json_t) :=
  let! fd := model_connect sock_path in
  if fd <? 0 then ret None
  else
    let! rc := send_json fd request in
    if rc <? 0 then
      let! _ := sys (Close fd) in ret None
    else
      let! response := recv_json fd in
      let! _ := sys (Close fd) in
      match response with
      | None => ret None
      | Some _ =>
        match json_object_get response (lit "fallback") with
        | Some _ => ret None
        | None =>
          match json_object_get response (lit "error") with
          | Some _ => ret None
          | None => ret response
          end
        end
      end.

(** [arr[i]] of a flat array of doubles. *)
Definition double_at (arr : list Z) (i : Z) : Z := default 0 (arr !! Z.to_nat i).

Definition doubles_to_json_array (arr : list Z) (n : Z) : json_t :=
  fold_left (λ ja i, json_array_append_new ja (json_real (double_at arr (Z.of_nat i))))
    (seq 0 (Z.to_nat n)) json_array.

Definition doubles_to_json_2d (arr : list Z) (rows cols : Z) : json_t :=
  fold_left (λ outer r, json_array_append_new outer
      (fold_left (λ row c, json_array_append_new row
          (json_real (double_at arr (Z.of_nat r * cols + Z.of_nat c))))
        (seq 0 (Z.to_nat cols)) json_array))
    (seq 0 (Z.to_nat rows)) json_array.

(** [{"cmd": cmd, "params": params}]. *)
Definition model_request (cmd : cstr) (params : json_t) : json_t :=
  json_object_set_new (json_object_set_new json_object (lit "cmd") (json_string cmd)) (lit "params") params.

Definition select_server_params (telemetry predicted_load connections : list Z)
    (policy_index num_servers num_policies : Z) : json_t :=
  let params := json_object_set_new json_object (lit "telemetry") (doubles_to_json_2d telemetry num_servers 11) in
  let params := json_object_set_new params (lit "predicted_load") (doubles_to_json_array predicted_load num_servers) in
  let params := json_object_set_new params (lit "connections") (doubles_to_json_array connections num_servers) in
  let params := json_object_set_new params (lit "policy_index") (json_integer policy_index) in
  json_object_set_new params (lit "num_policies") (json_integer num_policies).

(** [if (json_is_array(j)) for (i...) arr[i] = json_real_value(json_array_get(j, i))]. *)
Definition reals_of (j : option json_t) (n : Z) (arr : list Z) : list Z :=
  match json_is_array j with
  | Some a => fill n (λ i, json_real_value (json_array_get a i)) arr
  | None => arr
  end.

Definition read_server_result (resp : json_t) (num_servers : Z) (result : model_server_result) : model_server_result :=
  let n := Z.min num_servers MODEL_MAX_SERVERS in
  ModelServerResult
    (to_int32 (json_integer_value (json_object_get (Some resp) (lit "server_index"))))
    (reals_of (json_object_get (Some resp) (lit "q_values")) n (q_values result))
    (reals_of (json_object_get (Some resp) (lit "health_scores")) n (health_scores result))
    num_servers.

Definition model_select_server (sock_path : cstr) (telemetry predicted_load connections : list Z)
    (policy_index num_servers num_policies : Z) (result : model_server_result) : M W (Z * model_server_result) :=
  let req := model_request (lit "select_server")
    (select_server_params telemetry predicted_load connections policy_index num_servers num_policies) in
  let! resp := model_rpc sock_path req in
  match resp with
  | None => ret (-1, result)
  | Some resp => ret (0, read_server_result resp num_servers result)
  end.

Definition read_anomaly_entry (s : option json_t) : model_anomaly_entry :=
  ModelAnomalyEntry
    (to_int32 (json_integer_value (json_object_get s (lit "server_index"))))
    (json_real_value (json_object_get s (lit "error")))
    (json_real_value (json_object_get s (lit "threshold")))
    (if json_is_true (json_object_get s (lit "anomalous")) then 1 else 0).

(** The number of array elements that are read into a buffer of [max]. *)
Definition clamp_size (a : json_t) (max : Z) : Z := Z.min (to_uint64 (json_array_size a)) max.

Definition read_anomaly_result (resp : json_t) (result : model_anomaly_result) : model_anomaly_result :=
  let any := if json_is_true (json_object_get (Some resp) (lit "any_anomalous")) then 1 else 0 in
  match json_is_array (json_object_get (Some resp) (lit "servers")) with
  | Some servers =>
    let n := clamp_size servers MODEL_MAX_SERVERS in
    ModelAnomalyResult any n (fill n (λ i, read_anomaly_entry (json_array_get servers i)) (an_servers result))
  | None => ModelAnomalyResult any 0 (an_servers result)
  end.

Definition model_check_anomaly (sock_path : cstr) (nfs_metrics : list Z) (num_servers : Z)
    (result : model_anomaly_result) : M W (Z * model_anomaly_result) :=
  let params := json_object_set_new json_object (lit "nfs_metrics") (doubles_to_json_2d nfs_metrics num_servers 11) in
  let! resp := model_rpc sock_path (model_request (lit "check_anomaly") params) in
  match resp with
  | None => ret (-1, result)
  | Some resp => ret (0, read_anomaly_result resp result)
  end.

Definition read_predict_result (resp : json_t) (result : model_predict_result) : model_predict_result :=
  match json_is_array (json_object_get (Some resp) (lit "predictions")) with
  | Some preds =>
    let n := clamp_size preds 64 in
    ModelPredictResult (fill n (λ i, to_int32 (json_integer_value (json_array_get preds i))) (predictions result)) n
  | None => ModelPredictResult (predictions result) 0
  end.

Definition model_predict_load (sock_path : cstr) (history : list Z) (timesteps features : Z)
    (result : model_predict_result) : M W (Z * model_predict_result) :=
  let params := json_object_set_new json_object (lit "history") (doubles_to_json_2d history timesteps features) in
  let! resp := model_rpc sock_path (model_request (lit "predict_load") params) in
  match resp with
  | None => ret (-1, result)
  | Some resp => ret (0, read_predict_result resp result)
  end.

Definition read_policy_result (resp : json_t) (result : model_policy_result) : model_policy_result :=
  let action := to_int32 (json_integer_value (json_object_get (Some resp) (lit "action"))) in
  let name := match json_string_value (json_object_get (Some resp) (lit "action_name")) with
              | Some name => fit 64 name
              | None => []
              end in
  match json_is_array (json_object_get (Some resp) (lit "q_values")) with
  | Some qv =>
    let n := clamp_size qv 16 in
    ModelPolicyResult action name (fill n (λ i, json_real_value (json_array_get qv i)) (po_q_values result)) n
  | None => ModelPolicyResult action name (po_q_values result) 0
  end.

Definition model_optimize_policy (sock_path : cstr) (state : list Z) (state_dim : Z)
    (result : model_policy_result) : M W (Z * model_policy_result) :=
  let params := json_object_set_new json_object (lit "state") (doubles_to_json_array state state_dim) in
  let! resp := model_rpc sock_path (model_request (lit "optimize_policy") params) in
  match resp with
  | None => ret (-1, result)
  | Some resp => ret (0, read_policy_result resp result)
  end.

Definition model_health_check (sock_path : cstr) : M W Z :=
  let req := json_object_set_new json_object (lit "cmd") (json_string (lit "health")) in
  let! resp := model_rpc sock_path req in
  match resp with
  | None => ret (-1)
  | Some resp =>
    match json_string_value (json_object_get (Some resp) (lit "status")) with
    | Some status => ret (if str_eqb status (lit "ok") then 0 else -1)
    | None => ret (-1)
    end
  end.
End model.

(** * Lemmas *)

(** ** Filling a buffer *)

Section fill.
Context {A : Type} (f : Z → A).

Lemma fill_S (n : nat) arr :
  fill (Z.of_nat (S n)) f arr = <[n := f (Z.of_nat n)]> (fill (Z.of_nat n) f arr).
Proof. unfold fill. rewrite !Nat2Z.id, seq_S, fold_left_app. done. Qed.

Lemma fill_length n arr : length (fill n f arr) = length arr.
Proof.
  unfold fill. generalize (seq 0 (Z.to_nat n)) as l. intros l. revert arr.
  induction l as [|i l IH]; intros arr; simpl; [done|]. by rewrite IH, length_insert.
Qed.

(** The loop writes the first [n] entries and nothing else; all the
    indices are within the buffer. *)
Lemma fill_lookup n arr (i : nat) :
  0 <= n <= Z.of_nat (length arr) →
  fill n f arr !! i = if Z.of_nat i <? n then Some (f (Z.of_nat i)) else arr !! i.
Proof.
  intros Hn. rewrite <- (Z2Nat.id n) by lia. set (m := Z.to_nat n).
  assert (m ≤ length arr)%nat as Hm by lia. clearbody m. clear n Hn.
  induction m as [|m IH]; [by destruct (Z.ltb_spec (Z.of_nat i) (Z.of_nat 0)); [lia|]|].
  rewrite fill_S. destruct (decide (i = m)) as [->|Hi].
  - rewrite list_lookup_insert_eq by (rewrite fill_length; lia).
    destruct (Z.ltb_spec (Z.of_nat m) (Z.of_nat (S m))); [done|lia].
  - rewrite list_lookup_insert_ne, IH by lia.
    destruct (Z.ltb_spec (Z.of_nat i) (Z.of_nat m)), (Z.ltb_spec (Z.of_nat i) (Z.of_nat (S m))); done || lia.
Qed.
End fill.

(** ** The frame header *)

Lemma header_length_be32 n : 0 <= n < 2 ^ 32 → header_length (be32 n) = n.
Proof.
  intros Hn. unfold header_length, be32. cbn [lookup list_lookup]. rewrite !code_byte_of.
  change 256 with (2 ^ 8). rewrite <- !Z.land_ones by lia.
  apply Z.bits_inj'. intros i Hi. rewrite !Z.lor_spec, !Z.shiftl_spec by lia.
  assert (∀ k, 32 <= k → Z.testbit n k = false) as Hhigh.
  { intros k Hk. destruct (decide (n = 0)) as [->|]; [apply Z.bits_0|].
    apply Z.bits_above_log2; [lia|]. apply Z.lt_le_trans with 32; [|done]. by apply Z.log2_lt_pow2; lia. }
  assert (∀ x k j, 0 <= k → Z.testbit (Z.land (Z.shiftr x k) (Z.ones 8)) j =
    (0 <=? j) && (j <? 8) && Z.testbit x (j + k)) as Hb.
  { intros x k j Hk. destruct (Z.leb_spec 0 j); simpl; [|by apply Z.testbit_neg_r].
    rewrite Z.land_spec, Z.shiftr_spec by lia.
    destruct (Z.ltb_spec j 8); [rewrite Z.ones_spec_low by lia|rewrite Z.ones_spec_high by lia];
      by rewrite ?andb_true_r, ?andb_false_r. }
  rewrite !Hb by lia. replace n with (Z.shiftr n 0) at 4 by apply Z.shiftr_0_r. rewrite Hb by lia.
  replace (i - 24 + 24) with i by lia. replace (i - 16 + 16) with i by lia.
  replace (i - 8 + 8) with i by lia. rewrite Z.add_0_r.
  destruct (Z.ltb_spec i 32) as [Hlt|Hge]; [|by rewrite (Hhigh i), !andb_false_r by lia].
  destruct (Z.testbit n i); rewrite ?andb_true_r, ?andb_false_r; [|done].
  repeat match goal with
  | |- context [0 <=? ?x] => destruct (Z.leb_spec 0 x)
  | |- context [?x <? 8] => destruct (Z.ltb_spec x 8)
  end; simpl; done || lia.
Qed.

(** ** Reading from a stream *)

(** A peer whose bytes arrive in pieces of any size. *)
Class StreamPeer (W : Type) (K : Kernel W) := {
  pending : W → Z → list ascii;
  sp_read : ∀ fd n w, 0 < n → pending w fd ≠ [] →
    ∃ k : nat, (0 < k ≤ Z.to_nat n)%nat ∧ (k ≤ length (pending w fd))%nat ∧
      fst (k_do (Read fd n) w) = inr (take k (pending w fd)) ∧
      pending (snd (k_do (Read fd n) w)) fd = drop k (pending w fd);
  sp_alloc : ∀ w fd, fst (k_do Alloc w) = inr tt ∧ pending (snd (k_do Alloc w)) fd = pending w fd
}.

Section stream.
Context {W : Type} {K : Kernel W} {SP : StreamPeer W K}.
Implicit Types s : dstate W.

Lemma wp_read_full fuel fd got data rest (Q : option (list ascii) → dstate W → Prop) s :
  (length data ≤ fuel)%nat → pending (world s) fd = data ++ rest →
  (∀ s', pending (world s') fd = rest → Q (Some (got ++ data)) s') →
  wp (read_full fuel fd (slen (got ++ data)) got) Q s.
Proof.
  revert got data s. induction fuel as [|fuel IH]; intros got data s Hf Hp HQ; cbn [read_full].
  - destruct data; [|simpl in Hf; lia]. rewrite app_nil_r in *.
    destruct (Z.leb_spec (slen got) (slen got)); [|lia]. by apply wp_ret, HQ.
  - destruct data as [|c data].
    { rewrite app_nil_r in *. destruct (Z.leb_spec (slen got) (slen got)); [|lia]. by apply wp_ret, HQ. }
    rewrite slen_app, slen_cons. pose proof (slen_nonneg data).
    destruct (Z.leb_spec (slen got + (1 + slen data)) (slen got)); [lia|].
    replace (slen got + (1 + slen data) - slen got) with (slen (c :: data)) by (rewrite slen_cons; lia).
    assert (pending (world s) fd ≠ []) as Hne by by rewrite Hp.
    destruct (sp_read fd (slen (c :: data)) (world s) ltac:(rewrite slen_cons; lia) Hne) as (k & Hk & Hkl & Hr & Hp').
    apply wp_bind, wp_sys. intros r s' Hdo _ _ _. rewrite Hdo in Hr, Hp'. simpl in Hr, Hp'. subst r.
    assert (k ≤ length (c :: data))%nat as Hkd by (unfold slen in Hk; lia).
    rewrite Hp, take_app_le by done. destruct (take k (c :: data)) as [|x l] eqn:Et.
    { destruct k; [lia|done]. }
    rewrite <- Et. 
    replace (slen got + (1 + slen data)) with (slen ((got ++ take k (c :: data)) ++ drop k (c :: data)))
      by (rewrite <- app_assoc, take_drop, slen_app, slen_cons; lia).
    apply IH.
    + rewrite length_drop. simpl in *. lia.
    + by rewrite Hp', Hp, drop_app_le.
    + intros s2 H2. rewrite <- app_assoc, take_drop. by apply HQ.
Qed.

(** Message framing.  However the sidecar's bytes are cut into reads,
    when they start with a frame of an admissible length then [recv_json]
    parses exactly the payload of that frame and leaves the stream at the
    byte after it. *)
Theorem recv_json_frame {J : Jansson} fd payload rest s
    (Hz : no_nul payload) (Hlen : 0 < slen payload <= MODEL_RESP_MAX)
    (Hp : pending (world s) fd = be32 (slen payload) ++ payload ++ rest) :
  wp (recv_json fd) (λ r s', r = json_loads payload ∧ pending (world s') fd = rest) s.
Proof.
  unfold recv_json. apply wp_bind.
  apply (wp_read_full 4 fd [] (be32 (slen payload)) (payload ++ rest)); [done|done|].
  intros s1 H1. cbn [app]. rewrite header_length_be32 by (unfold MODEL_RESP_MAX in *; lia).
  destruct (Z.eqb_spec (slen payload) 0); [lia|]. destruct (Z.ltb_spec MODEL_RESP_MAX (slen payload)); [lia|].
  cbn [orb]. apply wp_bind. unfold try. apply wp_bind, wp_sys. intros r s2 Hk _ _ _.
  destruct (sp_alloc (world s1) fd) as [Hr H2]. rewrite Hk in Hr, H2. simpl in Hr, H2. subst r.
  apply wp_ret. cbn [failed negb]. apply wp_bind.
  apply (wp_read_full _ fd [] payload rest); [unfold slen; lia|congruence|].
  intros s3 H3. apply wp_ret. by rewrite no_nul_c_str.
Qed.
End stream.

(** ** Descriptors *)

Definition opened_by (e : event) : list Z :=
  let 'Ev c r := e in
  match c in syscall A return A → list Z with
  | Socket => λ r, match r with inr fd => [fd] | inl _ => [] end
  | _ => λ _, []
  end r.
Definition closed_by (e : event) : list Z := let 'Ev c _ := e in match c with Close fd => [fd] | _ => [] end.
Definition opened (l : list event) : list Z := concat (map opened_by l).
Definition closed (l : list event) : list Z := concat (map closed_by l).

(** A call on descriptors that already exist. *)
Definition quiet (e : event) : Prop := opened_by e = [] ∧ closed_by e = [].

Lemma quiet_trace l : Forall quiet l → opened l = [] ∧ closed l = [].
Proof.
  unfold opened, closed. induction 1 as [|e l [Ho Hc] _ [IHo IHc]]; [done|]. simpl.
  by rewrite Ho, Hc, IHo, IHc.
Qed.

(** [socket] returns a descriptor, which is not negative. *)
Class SocketNonneg {W} (K : Kernel W) : Prop :=
  socket_nonneg : ∀ w fd, fst (k_do Socket w) = inr fd → 0 <= fd.

Section descriptors.
Context {W : Type} {K : Kernel W} {J : Jansson}.
Implicit Types s : dstate W.

(** Since [s0], the calls made have opened [o] and closed [c]. *)
Definition balance (s0 : dstate W) (o c : list Z) s : Prop :=
  ∃ l, trace s = trace s0 ++ l ∧ opened l = o ∧ closed l = c.

Lemma balance_emits s0 o c s s' : balance s0 o c s → emits quiet s s' → balance s0 o c s'.
Proof.
  intros (l & Ht & Ho & Hc) (l' & Ht' & Hq). destruct (quiet_trace _ Hq) as [Ho' Hc'].
  exists (l ++ l'). rewrite Ht', Ht, app_assoc. split; [done|].
  unfold opened, closed in *. rewrite !map_app, !concat_app, Ho', Hc', !app_nil_r. done.
Qed.

Lemma wp_quiet {A} (m : M W A) s0 o c (Q : A → dstate W → Prop) s :
  respects (emits quiet) m → balance s0 o c s → (∀ a s', balance s0 o c s' → Q a s') → wp m Q s.
Proof.
  intros Hm Hb HQ. eapply wp_mono; [apply (wp_respects _ _ _ Hm)|]. intros a s' He.
  by eapply HQ, balance_emits.
Qed.

Lemma wp_close fd s0 o c (Q : res unit → dstate W → Prop) s :
  balance s0 o c s → (∀ r s', balance s0 o (c ++ [fd]) s' → Q r s') → wp (sys (Close fd)) Q s.
Proof.
  intros (l & Ht & Ho & Hc) HQ. apply wp_sys. intros r s' _ _ _ Ht'. apply HQ.
  exists (l ++ [Ev (Close fd) r]). rewrite Ht', Ht, app_assoc. split; [done|].
  unfold opened, closed in *. rewrite !map_app, !concat_app, Ho, Hc. simpl. by rewrite app_nil_r.
Qed.

Lemma quiet_write_all fd d : respects (emits quiet) (write_all fd d).
Proof. unfold write_all. respects; done. Qed.
Lemma quiet_read_full fuel fd n got : respects (emits quiet) (read_full fuel fd n got).
Proof.
  revert got. induction fuel as [|fuel IH]; intros got; simpl; respects; try done.
Qed.
Lemma quiet_send_json fd j : respects (emits quiet) (send_json fd j).
Proof. pose proof quiet_write_all. unfold send_json. respects. Qed.
Lemma quiet_recv_json fd : respects (emits quiet) (recv_json fd).
Proof. pose proof quiet_read_full. unfold recv_json. respects; done. Qed.

Lemma wp_model_connect sock s (Q : Z → dstate W → Prop) :
  SocketNonneg K →
  (∀ fd s', (if fd <? 0 then ∃ fds, balance s fds fds s' else balance s [fd] [] s') → Q fd s') →
  wp (model_connect sock) Q s.
Proof.
  intros Hnn HQ. unfold model_connect. apply wp_bind, wp_sys. intros r s1 Hk _ _ Ht.
  assert (balance s (opened_by (Ev Socket r)) [] s1) as Hb.
  { exists [Ev Socket r]. split; [done|]. unfold opened. simpl. by rewrite app_nil_r. }
  destruct r as [e|fd]; [apply wp_ret, HQ; by exists []|].
  pose proof (socket_nonneg (world s) fd) as Hfd. rewrite Hk in Hfd. specialize (Hfd eq_refl).
  apply wp_bind. eapply (wp_quiet (sys _)); [respects; done|done|]. intros _ s2 H2.
  apply wp_bind. eapply (wp_quiet (sys _)); [respects; done|done|]. intros _ s3 H3.
  apply wp_bind. eapply (wp_quiet (try _)); [respects; done|done|]. intros ok s4 H4.
  destruct ok; simpl negb; cbv iota.
  - apply wp_ret, HQ. destruct (Z.ltb_spec fd 0); [lia|done].
  - apply wp_bind. eapply wp_close; [done|]. intros _ s5 H5. apply wp_ret, HQ. by exists [fd].
Qed.

(** No descriptor is leaked or closed twice.  Whatever the sidecar and
    the kernel answer, a request to the sidecar closes exactly the sockets
    it opened, on the error paths too, and a reply that it returns carries
    neither a "fallback" nor an "error" member. *)
Theorem model_rpc_no_leak (HS : SocketNonneg K) sock request s :
  wp (model_rpc sock request)
     (λ r s', (∃ fds, balance s fds fds s') ∧
        ∀ j, r = Some j → json_object_get (Some j) (lit "fallback") = None ∧
                          json_object_get (Some j) (lit "error") = None) s.
Proof.
  unfold model_rpc. apply wp_bind, (wp_model_connect sock s); [done|]. intros fd s1 H1.
  destruct (Z.ltb_spec fd 0); [apply wp_ret; done|].
  apply wp_bind. eapply wp_quiet; [apply quiet_send_json|done|]. intros rc s2 H2.
  destruct (Z.ltb_spec rc 0).
  { apply wp_bind. eapply wp_close; [done|]. intros _ s3 H3. apply wp_ret. split; [by exists [fd]|done]. }
  apply wp_bind. eapply wp_quiet; [apply quiet_recv_json|done|]. intros r s3 H3.
  apply wp_bind. eapply wp_close; [done|]. intros _ s4 H4.
  assert (∃ fds, balance s fds fds s4) as Hb by by exists [fd].
  destruct r as [j|]; [|by apply wp_ret].
  destruct (json_object_get (Some j) (lit "fallback")) eqn:Ef; [by apply wp_ret|].
  destruct (json_object_get (Some j) (lit "error")) eqn:Ee; apply wp_ret; (split; [done|]); [done|].
  intros ? [= <-]. done.
Qed.
End descriptors.

(** ** Replies *)

Section replies.
Context {J : Jansson}.

Record server_buffers (r : model_server_result) : Prop := {
  sb_q : length (q_values r) = 16%nat; sb_h : length (health_scores r) = 16%nat }.
Definition anomaly_buffers (r : model_anomaly_result) : Prop := length (an_servers r) = 16%nat.
Definition predict_buffers (r : model_predict_result) : Prop := length (predictions r) = 64%nat.
Record policy_buffers (r : model_policy_result) : Prop := {
  pb_q : length (po_q_values r) = 16%nat; pb_name : slen (po_action_name r) <= 63 }.

Lemma clamp_size_range a max : 0 <= max → 0 <= clamp_size a max <= max.
Proof. intros H. unfold clamp_size. pose proof (to_uint64_range (json_array_size a)). lia. Qed.

Lemma reals_of_length j n arr : length (reals_of j n arr) = length arr.
Proof. unfold reals_of. destruct (json_is_array j); [apply fill_length|done]. Qed.

(** a hostile reply cannot overrun a result.  Whatever JSON the sidecar
    sends, every result structure keeps its array sizes, the counts it
    reports never exceed them, each reported element is the corresponding
    element of the reply, entries past the count keep their old value, and
    the action name fits with its NUL. *)
Theorem model_results_in_bounds resp n r1 r2 r3 r4
    (Hn : 0 <= n) (H1 : server_buffers r1) (H2 : anomaly_buffers r2) (H3 : predict_buffers r3)
    (H4 : policy_buffers r4) :
  server_buffers (read_server_result resp n r1) ∧
  (let r := read_anomaly_result resp r2 in anomaly_buffers r ∧ 0 <= an_count r <= 16 ∧
     ∀ i, if Z.of_nat i <? an_count r
          then ∃ a, json_is_array (json_object_get (Some resp) (lit "servers")) = Some a ∧
                 an_servers r !! i = Some (read_anomaly_entry (json_array_get a (Z.of_nat i)))
          else an_servers r !! i = an_servers r2 !! i) ∧
  (let r := read_predict_result resp r3 in predict_buffers r ∧ 0 <= pr_count r <= 64 ∧
     ∀ i, if Z.of_nat i <? pr_count r
          then ∃ a, json_is_array (json_object_get (Some resp) (lit "predictions")) = Some a ∧
                 predictions r !! i = Some (to_int32 (json_integer_value (json_array_get a (Z.of_nat i))))
          else predictions r !! i = predictions r3 !! i) ∧
  (let r := read_policy_result resp r4 in policy_buffers r ∧ 0 <= po_num_actions r <= 16).
Proof.
  unfold anomaly_buffers, predict_buffers in *. split; [|split; [|split]].
  - destruct H1. split; simpl; by rewrite reals_of_length.
  - unfold read_anomaly_result. destruct (json_is_array _) as [a|]; simpl.
    + pose proof (clamp_size_range a MODEL_MAX_SERVERS ltac:(done)). unfold MODEL_MAX_SERVERS in *.
      rewrite fill_length. split_and!; [done|lia|lia|]. intros i. rewrite fill_lookup by lia.
      destruct (Z.of_nat i <? _); eauto.
    + split_and!; [done|lia|lia|]. intros i. destruct (Z.ltb_spec (Z.of_nat i) 0); [lia|done].
  - unfold read_predict_result. destruct (json_is_array _) as [a|]; simpl.
    + pose proof (clamp_size_range a 64 ltac:(done)).
      rewrite fill_length. split_and!; [done|lia|lia|]. intros i. rewrite fill_lookup by lia.
      destruct (Z.of_nat i <? _); eauto.
    + split_and!; [done|lia|lia|]. intros i. destruct (Z.ltb_spec (Z.of_nat i) 0); [lia|done].
  - destruct H4 as [Hq _]. unfold read_policy_result.
    assert (∀ o : option cstr, slen (match o with Some name => fit 64 name | None => [] end) <= 63) as Hname.
    { intros [name|]; [apply fit_le; lia|by unfold slen]. }
    destruct (json_is_array _) as [a|]; simpl.
    + pose proof (clamp_size_range a 16 ltac:(done)).
      split_and!; [split; simpl; [by rewrite fill_length|apply Hname]|lia|lia].
    + split_and!; [split; simpl; [done|apply Hname]|lia|lia].
Qed.
End replies.

(** Requests to the sidecar leave the daemon's own state alone. *)
Section model_frames.
Context {W : Type} {K : Kernel W} {J : Jansson}.

Lemma statics_write_all fd d : respects (keeps statics) (write_all fd d).
Proof. unfold write_all. respects. Qed.
Lemma statics_read_full fuel fd n got : respects (keeps statics) (read_full fuel fd n got).
Proof. revert got. induction fuel as [|fuel IH]; intros got; simpl; respects. Qed.
#[local] Hint Resolve statics_write_all statics_read_full : frame.
Lemma statics_model_rpc sock req : respects (keeps statics) (model_rpc sock req).
Proof. unfold model_rpc, model_connect, send_json, recv_json. respects. Qed.
#[local] Hint Resolve statics_model_rpc : frame.
Lemma statics_select_server sock a b c d e f g : respects (keeps statics) (model_select_server sock a b c d e f g).
Proof. unfold model_select_server. respects. Qed.
Lemma statics_check_anomaly sock a b c : respects (keeps statics) (model_check_anomaly sock a b c).
Proof. unfold model_check_anomaly. respects. Qed.
Lemma statics_health_check sock : respects (keeps statics) (model_health_check sock).
Proof. unfold model_health_check. respects. Qed.
End model_frames.
#[export] Hint Resolve statics_model_rpc statics_select_server statics_check_anomaly statics_health_check : frame.

(** ** Runs *)

#[export] Program Instance sim_stream : StreamPeer sim sim_kernel := {| pending w _ := sim_input w |}.
Next Obligation.
  intros fd n w Hn Hne. exists (Z.to_nat n `min` length (sim_input w))%nat.
  assert (length (sim_input w) ≠ 0)%nat by (by destruct (sim_input w)).
  split_and!; [lia|lia|lia| |]; simpl.
  - f_equal. rewrite <- (take_ge (sim_input w) (length (sim_input w))) at 1 by lia. by rewrite take_take.
  - destruct (decide (Z.to_nat n ≤ length (sim_input w))%nat).
    + f_equal. lia.
    + rewrite !drop_ge by lia. done.
Qed.
Next Obligation. done. Qed.

#[export] Instance sim_socket_nonneg : SocketNonneg sim_kernel.
Proof. intros w fd [= <-]. lia. Qed.

Definition reply_text : cstr := lit "{ " ++ [QUOTE] ++ lit "status" ++ [QUOTE] ++ lit ": " ++ [QUOTE] ++ lit "ok" ++ [QUOTE] ++ lit "}".
Definition model_sim : sim := set_input (be32 (slen reply_text) ++ reply_text ++ lit "xyz") sim0.

Example model_health_check_run :
  fst (model_health_check (J := tree_jansson) MODEL_SOCKET_DEFAULT (sim_state model_sim [] zero_config)) = 0.
Proof. by vm_compute. Qed.

Lemma recv_json_frame_witness :
  wp (recv_json (J := tree_jansson) 5)
     (λ r s', r = json_loads reply_text ∧ pending (world s') 5 = lit "xyz") (sim_state model_sim [] zero_config).
Proof.
  refine (recv_json_frame (J := tree_jansson) 5 reply_text (lit "xyz") (sim_state model_sim [] zero_config) _ _ _);
    [apply (bool_decide_eq_true _)|split|]; by vm_compute.
Defined.

Lemma model_rpc_no_leak_witness :
  wp (model_rpc (J := tree_jansson) MODEL_SOCKET_DEFAULT (TObject []))
     (λ r s', (∃ fds, balance (sim_state model_sim [] zero_config) fds fds s') ∧
        ∀ j, r = Some j → json_object_get (Some j) (lit "fallback") = None ∧
                          json_object_get (Some j) (lit "error") = None)
     (sim_state model_sim [] zero_config).
Proof.
  exact (model_rpc_no_leak (J := tree_jansson) sim_socket_nonneg MODEL_SOCKET_DEFAULT (TObject [])
    (sim_state model_sim [] zero_config)).
Defined.

Lemma model_results_in_bounds_witness :
  server_buffers (read_server_result (J := tree_jansson) (TObject []) 3 zero_server_result).
Proof.
  refine (proj1 (model_results_in_bounds (J := tree_jansson) (TObject []) 3 zero_server_result zero_anomaly_result
    (ModelPredictResult (replicate 64 0) 0) (ModelPolicyResult 0 [] (replicate 16 0) 0) _ _ _ _ _));
    [lia|done|done|done|done].
Defined.
