(* ===== verification/Lowerdir.v ===== *)
(** * Lower directories

    Models the part of [mbroker/daemon/mount_ops.c] that prepares a mount:
    [setup_overlay_dirs] names the upper and work directories, and
    [handle_custom_lowerdir] turns the client's colon-separated list into the
    lower directories of the overlay, mounting its NFS components; and
    [cleanup_custom_nfs_mounts] of [umount_ops.c], which unmounts them. *)
From S2P Require Import Prelude CString Config MountTable OS SimKernel Storage Util Mounts Json Record ModelClient.
Open Scope Z_scope.

Definition MAX_CUSTOM_LOWERDIR_COMPONENTS : Z := 16.
Definition RESOLVED_SIZE : Z := 8192.

(** [basename] of a copy of the sandbox name in a [char[2048]]. *)
Definition sb_basename (sandboxname : cstr) : cstr := basename (fit 2048 sandboxname).

(** The return code and the context with the two directories set. *)
Definition setup_overlay_dirs (ctx : mount_ctx) (sandboxname : cstr) : Z * mount_ctx :=
  let base := sb_basename sandboxname in
  let upper := ctx_overlayroot ctx ++ lit "/" ++ base ++ lit "/upper" in
  let work := ctx_overlayroot ctx ++ lit "/" ++ base ++ lit "/work" in
  (if (2048 <=? slen upper) || (2048 <=? slen work) then -1 else 0,
   MountCtx (ctx_overlayroot ctx) (fit 2048 upper) (fit 2048 work)).

(** [<overlayroot>/<sandbox basename>-clower-<i>]. *)
Definition clower_path (overlayroot base : cstr) (i : Z) : cstr :=
  overlayroot ++ lit "/" ++ base ++ lit "-clower-" ++ dec i.

Definition nfs_options (ip : cstr) : cstr :=
  fit 8192 (lit "addr=" ++ ip ++ lit ",vers=4.2,actimeo=720000,nocto,lookupcache=all,nconnect=4").

(** Appending a component to [resolved_lowerdir], after a colon unless it is
    the first; [None] when it does not fit.  The offset [roff] is the length of
    the text so far. *)
Definition append_component (resolved : cstr) (first : bool) (component : cstr) : option cstr :=
  let roff := slen resolved in
  let resolved := if negb first && (roff <? RESOLVED_SIZE) then resolved ++ lit ":" else resolved in
  if RESOLVED_SIZE <=? slen resolved + slen component then None
  else Some (resolved ++ component).

Section lowerdir.
Context {W : Type} {K : Kernel W} {J : Jansson}.

(** The server chosen by the sidecar, if the daemon has a pool of servers
    and the sidecar gives a usable answer. *)
Definition ml_select_host : M W (option cstr) :=
  let! ml_cfg := get_cfg in
  if negb (ml_enabled ml_cfg =? 0) && (1 <? nfs_server_count ml_cfg) then
    let zeros n := replicate (Z.to_nat n) 0 in
    let! (mrc, sel) := model_select_server (model_socket ml_cfg)
      (zeros (MODEL_MAX_SERVERS * 11)) (zeros MODEL_MAX_SERVERS) (zeros MODEL_MAX_SERVERS)
      0 (nfs_server_count ml_cfg) 6 zero_server_result in
    if (mrc =? 0) && (0 <=? server_index sel) && (server_index sel <? nfs_server_count ml_cfg)
    then ret (nfs_servers ml_cfg !! Z.to_nat (server_index sel))
    else ret None
  else ret None.

(** Mounting [token:nfs_path] at [mount_target] unless something is mounted
    there. *)
Definition mount_nfs (token nfs_path mount_target : cstr) : M W bool :=
  let nfs_source := fit 2048 (token ++ lit ":" ++ nfs_path) in
  let! mounted := mountinfo_is_mounted mount_target in
  if mounted then ret true
  else if 256 <=? slen token then set_errno EINVAL ;; ret false
  else
    let! sel := ml_select_host in
    let '(hostname, nfs_source) :=
      match sel with
      | Some server => let h := fit 256 server in (h, fit 2048 (h ++ lit ":" ++ nfs_path))
      | None => (fit 256 token, nfs_source)
      end in
    let! he := call (Gethostbyname hostname) in
    match he with
    | None => set_errno EIO ;; ret false
    | Some ip => try (Mount nfs_source mount_target (lit "nfs") MS_RDONLY (nfs_options ip))
    end.

(** Preparing NFS component number [nfs_idx]: its mount point, or [None]. *)
Definition nfs_component (overlayroot base : cstr) (nfs_idx : Z) (token nfs_path : cstr) : M W (option cstr) :=
  let full := clower_path overlayroot base nfs_idx in
  let mount_target := fit 2048 full in
  if 2048 <=? slen full then set_errno ENAMETOOLONG ;; ret None
  else
    let! rc := mkdir_p mount_target mode_0755 in
    if rc <? 0 then ret None
    else
      let! ok := mount_nfs token nfs_path mount_target in
      ret (if ok then Some mount_target else None).

(** The token loop.  The result is the resolved text and the number of NFS
    components seen; [None] is [goto err_cleanup]. *)
Fixpoint lowerdir_loop (overlayroot base : cstr) (tokens : list cstr) (resolved : cstr) (first : bool)
    (nfs_idx : Z) : M W (option cstr * Z) :=
  match tokens with
  | [] => ret (Some resolved, nfs_idx)
  | token :: rest =>
    if is_absolute token then
      let! ok := try (StatPath token) in
      if negb ok then ret (None, nfs_idx)
      else
        match append_component resolved first token with
        | None => set_errno ENAMETOOLONG ;; ret (None, nfs_idx)
        | Some resolved => lowerdir_loop overlayroot base rest resolved false nfs_idx
        end
    else
      match rest with
      | [] => set_errno EINVAL ;; ret (None, nfs_idx)
      | nfs_path :: rest' =>
        if negb (is_absolute nfs_path) then set_errno EINVAL ;; ret (None, nfs_idx)
        else
          let! t := nfs_component overlayroot base nfs_idx token nfs_path in
          match t with
          | None => ret (None, nfs_idx)
          | Some mount_target =>
            let nfs_idx := nfs_idx + 1 in
            match append_component resolved first mount_target with
            | None => set_errno ENAMETOOLONG ;; ret (None, nfs_idx)
            | Some resolved => lowerdir_loop overlayroot base rest' resolved false nfs_idx
            end
          end
      end
  end.

(** [err_cleanup]: undo the NFS mounts made so far. *)
Definition undo_nfs_mounts (overlayroot base : cstr) (nfs_idx : Z) : M W unit :=
  meach (seq 0 (Z.to_nat nfs_idx)) tt (λ _ i,
    let target := fit 4096 (clower_path overlayroot base (Z.of_nat i)) in
    let! mounted := mountinfo_is_mounted target in
    if mounted then
      let! _ := sys (Umount2 target MNT_DETACH) in ret tt
    else ret tt).

(** The resolved text and the number of NFS mounts, or [None] for [-1]. *)
Definition handle_custom_lowerdir (custom_lowerdir : cstr) (ctx : mount_ctx) (sandboxname : cstr) :
    M W (option (cstr * Z)) :=
  let tmp := fit 2048 custom_lowerdir in
  let base := sb_basename sandboxname in
  let! (r, nfs_idx) := lowerdir_loop (ctx_overlayroot ctx) base (strtok_all ":" tmp) [] true 0 in
  match r with
  | None => undo_nfs_mounts (ctx_overlayroot ctx) base nfs_idx ;; ret None
  | Some resolved =>
    if slen resolved =? 0 then
      set_errno EINVAL ;;
      undo_nfs_mounts (ctx_overlayroot ctx) base nfs_idx ;; ret None
    else ret (Some (resolved, nfs_idx))
  end.

(** umount_ops.c *)
Definition cleanup_custom_nfs_mounts (overlayroot sandboxname : cstr) : M W unit :=
  let base := sb_basename sandboxname in
  mfor (seq 0 (Z.to_nat MAX_CUSTOM_LOWERDIR_COMPONENTS)) tt (λ _ i,
    let target := fit 4096 (clower_path overlayroot base (Z.of_nat i)) in
    let! mounted := mountinfo_is_mounted target in
    if negb mounted then ret (Break tt)
    else
      let! _ := sys (Umount2 target MNT_DETACH) in
      ret (Continue tt)).
End lowerdir.

(** * Lemmas *)

(** ** What the list resolves to *)

(** The lower directories named by a token list, starting at NFS component
    number [idx], and the number after the last one: a local path stands for
    itself, [host:path] for its mount point. *)
Fixpoint components (overlayroot base : cstr) (tokens : list cstr) (idx : Z) : option (list cstr * Z) :=
  match tokens with
  | [] => Some ([], idx)
  | token :: rest =>
    if is_absolute token then
      match components overlayroot base rest idx with
      | Some (cs, n) => Some (token :: cs, n)
      | None => None
      end
    else
      match rest with
      | [] => None
      | nfs_path :: rest' =>
        if is_absolute nfs_path then
          match components overlayroot base rest' (idx + 1) with
          | Some (cs, n) => Some (clower_path overlayroot base idx :: cs, n)
          | None => None
          end
        else None
      end
  end.

(** Induction two tokens at a time. *)
Lemma token_ind (P : list cstr → Prop) :
  P [] → (∀ t, P [t]) → (∀ t p rest, P (p :: rest) → P rest → P (t :: p :: rest)) → ∀ l, P l.
Proof.
  intros H0 H1 H2 l. assert (P l ∧ ∀ t, P (t :: l)) as [H _]; [|exact H].
  induction l as [|p rest [IH1 IH2]]; [by split|]. split; [apply IH2|]. intros t. by apply H2.
Qed.

(** [join] of the components done so far. *)
Definition joined (done : list cstr) (resolved : cstr) (first : bool) : Prop :=
  resolved = join (lit ":") done ∧ first = bool_decide (done = []) ∧ slen resolved < RESOLVED_SIZE.

Lemma join_snoc_colon (done : list cstr) c :
  join (lit ":") (done ++ [c]) = if bool_decide (done = []) then c else join (lit ":") done ++ lit ":" ++ c.
Proof.
  induction done as [|d done IH]; [done|]. rewrite <- app_comm_cons, join_cons by (by destruct done).
  rewrite IH. destruct done as [|e done]; [done|]. rewrite (join_cons _ d (e :: done)) by done.
  simpl bool_decide. cbv iota. by rewrite <- !app_assoc.
Qed.

Lemma append_component_joined done resolved first c resolved' :
  joined done resolved first → append_component resolved first c = Some resolved' →
  joined (done ++ [c]) resolved' false.
Proof.
  intros (-> & -> & Hlen). unfold append_component, joined. rewrite join_snoc_colon.
  assert ((slen (join (lit ":") done) <? RESOLVED_SIZE) = true) as -> by (by apply Z.ltb_lt).
  rewrite andb_true_r. 
  assert (bool_decide (done ++ [c] = []) = false) as -> by (by apply bool_decide_eq_false; destruct done).
  destruct (bool_decide (done = [])) eqn:E; simpl negb; cbv iota.
  - to_prop. subst. simpl. rewrite (proj2 (slen_zero []) eq_refl). 
    destruct (Z.leb_spec RESOLVED_SIZE (0 + slen c)); [done|]. intros [= <-]. split_and!; [done|done|]. lia.
  - rewrite <- app_assoc. destruct (Z.leb_spec RESOLVED_SIZE (slen (join (lit ":") done ++ lit ":") + slen c)); [done|].
    intros <-%(inj Some). split_and!; [done|done|]. rewrite !slen_app in *. lia.
Qed.

Section resolve.
Context {W : Type} {K : Kernel W} {J : Jansson}.
Implicit Types s : dstate W.

Lemma nfs_component_path root base idx token p s :
  wp (nfs_component root base idx token p) (λ r _, ∀ t, r = Some t → t = clower_path root base idx) s.
Proof.
  unfold nfs_component. destruct (Z.leb_spec 2048 (slen (clower_path root base idx))).
  { apply wp_bind. unfold wp, set_errno, ret. done. }
  apply wp_bind, wp_run. destruct (mkdir_p _ _ s) as [rc s1]. simpl. destruct (rc <? 0); [by apply wp_ret|].
  apply wp_bind, wp_run. destruct (mount_nfs _ _ _ s1) as [ok s2]. simpl. apply wp_ret.
  rewrite fit_id by done. destruct ok; congruence.
Qed.

Lemma lowerdir_loop_joined root base tokens done resolved first idx s :
  joined done resolved first →
  wp (lowerdir_loop root base tokens resolved first idx)
     (λ '(r, n) _, ∀ resolved', r = Some resolved' →
        ∃ cs first', components root base tokens idx = Some (cs, n) ∧ joined (done ++ cs) resolved' first') s.
Proof.
  revert done resolved first idx s. induction tokens as [|t|t p rest IH1 IH2] using token_ind; intros done resolved first idx s Hj.
  - cbn [lowerdir_loop components]. apply wp_ret. intros ? [= <-]. exists [], first. by rewrite app_nil_r.
  - cbn [lowerdir_loop components]. destruct (is_absolute t); [|by apply wp_bind].
    apply wp_bind, wp_run. destruct (try (StatPath t) s) as [ok s1]. simpl.
    destruct ok; [|by apply wp_ret]. simpl. destruct (append_component resolved first t) as [r|] eqn:Ea; [|by apply wp_bind].
    apply wp_ret. intros ? [= <-]. exists [t], false. split; [done|]. by eapply append_component_joined.
  - cbn [lowerdir_loop components]. destruct (is_absolute t).
    + apply wp_bind, wp_run. destruct (try (StatPath t) s) as [ok s1]. simpl fst. simpl snd.
      destruct ok; [|by apply wp_ret]. simpl negb. cbv iota.
      destruct (append_component resolved first t) as [r|] eqn:Ea; [|by apply wp_bind].
      eapply wp_mono; [apply IH1; by eapply append_component_joined|].
      intros [r' n] s2 H resolved' Hr. destruct (H resolved' Hr) as (cs & first' & Hc & Hj').
      cbn [components] in Hc. rewrite Hc. exists (t :: cs), first'. split; [done|].
      by rewrite <- app_assoc in Hj'.
    + destruct (is_absolute p); [|by apply wp_bind]. simpl negb. cbv iota.
      apply wp_bind. eapply wp_mono; [apply nfs_component_path|]. intros [mt|] s1 Hmt; [|by apply wp_ret].
      rewrite (Hmt mt eq_refl) in *. 
      destruct (append_component resolved first (clower_path root base idx)) as [r|] eqn:Ea; [|by apply wp_bind].
      eapply wp_mono; [apply IH2; by eapply append_component_joined|].
      intros [r' n] s2 H resolved' Hr. destruct (H resolved' Hr) as (cs & first' & Hc & Hj').
      rewrite Hc. exists (clower_path root base idx :: cs), first'. split; [done|].
      by rewrite <- app_assoc in Hj'.
Qed.

Lemma join_nonempty (cs : list cstr) : 0 < slen (join (lit ":") cs) → cs ≠ [].
Proof. by intros H ->. Qed.

Lemma lowerdir_loop_local root base tokens done resolved first s :
  Forall (λ t, is_absolute t = true) tokens →
  (∀ t w, t ∈ tokens → failed (fst (k_do (StatPath t) w)) = false) →
  joined done resolved first → slen (join (lit ":") (done ++ tokens)) < RESOLVED_SIZE →
  wp (lowerdir_loop root base tokens resolved first 0)
     (λ r _, r = (Some (join (lit ":") (done ++ tokens)), 0)) s.
Proof.
  intros Habs Hstat. revert done resolved first s. induction Habs as [|t tokens Ht Htokens IH]; intros done resolved first s Hj Hlen.
  - cbn [lowerdir_loop]. apply wp_ret. destruct Hj as (-> & _). by rewrite app_nil_r.
  - cbn [lowerdir_loop]. rewrite Ht. unfold try. apply wp_bind, wp_bind, wp_sys. intros r s1 Hk _ _ _.
    pose proof (Hstat t (world s) ltac:(left)) as Hr. rewrite Hk in Hr. simpl in Hr. apply wp_ret.
    rewrite Hr. simpl negb. cbv iota.
    assert (slen (join (lit ":") (done ++ [t])) <= slen (join (lit ":") (done ++ t :: tokens))) as Hle.
    { replace (done ++ t :: tokens) with ((done ++ [t]) ++ tokens) by (by rewrite <- app_assoc).
      generalize (done ++ [t]) as d. clear. intros d. induction tokens as [|x l IH] using rev_ind; [by rewrite app_nil_r|].
      rewrite app_assoc, join_snoc_colon. case_bool_decide as E.
      - apply app_eq_nil in E as [-> ->]. simpl. apply slen_nonneg.
      - rewrite !slen_app. pose proof (slen_nonneg x). pose proof (slen_nonneg (lit ":")). lia. }
    destruct (append_component resolved first t) as [resolved'|] eqn:Ea.
    + eapply wp_mono; [apply (IH ltac:(intros; apply Hstat; by right) (done ++ [t]))|].
      * by eapply append_component_joined.
      * by rewrite <- app_assoc.
      * intros r' s2. by rewrite <- app_assoc.
    + exfalso. destruct Hj as (-> & -> & Hl). unfold append_component in Ea. rewrite join_snoc_colon in Hle.
      assert ((slen (join (lit ":") done) <? RESOLVED_SIZE) = true) as Hb by (by apply Z.ltb_lt).
      rewrite Hb, andb_true_r in Ea. destruct (bool_decide (done = [])) eqn:E; simpl negb in Ea; cbv iota in Ea.
      * to_prop. subst. simpl in *. destruct (Z.leb_spec RESOLVED_SIZE (slen [] + slen t)); [|done].
        rewrite (proj2 (slen_zero []) eq_refl) in *. lia.
      * destruct (Z.leb_spec RESOLVED_SIZE (slen (join (lit ":") done ++ lit ":") + slen t)); [|done].
        rewrite !slen_app in *. lia.
Qed.
End resolve.

(** ** What stays mounted *)

Section undo.
Context {W : Type} {K : Kernel W} {J : Jansson} {MS : MountStore W K}.
Implicit Types s : dstate W.

Lemma mounts_model_rpc sock req : respects (keeps mounts) (model_rpc sock req).
Proof.
  assert (∀ fuel fd n got, respects (keeps mounts) (read_full fuel fd n got)) as Hread.
  { induction fuel as [|fuel IH]; intros fd n got; simpl; respects. }
  unfold model_rpc, model_connect, send_json, recv_json, write_all. respects.
Qed.
#[local] Hint Resolve mounts_model_rpc : frame.

Lemma mounts_get_cfg : respects (keeps mounts) (@get_cfg W).
Proof. done. Qed.

Lemma mounts_ml_select_host : respects (keeps mounts) ml_select_host.
Proof. unfold ml_select_host, model_select_server. respects. Qed.

(** A path made of characters that the mount table shows as they are. *)
Definition plain_chars (p : cstr) : bool :=
  forallb (λ c, negb (char_eqb c " ") && negb (char_eqb c LF) && negb (char_eqb c NUL)) p.

Lemma isdigit_plain d : forallb isdigit d = true → plain_chars d = true.
Proof.
  unfold plain_chars. rewrite !forallb_forall. intros H c Hc. apply H in Hc.
  rewrite !andb_true_iff, !negb_true_iff. split_and!; apply char_eqb_neq; intros ->; by vm_compute in Hc.
Qed.

Lemma plain_clower root base i :
  plain_chars root = true → plain_chars base = true → 0 <= i →
  slen (clower_path root base i) < 2048 → plain_path (clower_path root base i) = true.
Proof.
  intros Hr Hb Hi Hlen. unfold plain_path. apply andb_true_iff. split; [|apply Z.ltb_lt; lia].
  unfold clower_path, plain_chars in *. rewrite !forallb_app, Hr, Hb.
  destruct (dec_digits i Hi) as [Hd _]. apply isdigit_plain in Hd. unfold plain_chars in Hd. by rewrite Hd.
Qed.

Context (root base : cstr) (Hroot : plain_chars root = true) (Hbase : plain_chars base = true).
#[local] Abbreviation target := (clower_path root base).

(** From [s] to [s'] the targets [lo] to [hi] were mounted, and nothing else changed. *)
Definition mounted_targets (lo hi : Z) s s' : Prop :=
  lo <= hi ∧ mounts s ⊆ mounts s' ∧
  (∀ p, p ∈ mounts s' → p ∈ mounts s ∨ ∃ i, lo <= i < hi ∧ p = target i ∧ slen p < 2048) ∧
  (∀ i, lo <= i < hi → target i ∈ mounts s' ∧ slen (target i) < 2048).

Lemma mounted_targets_refl lo s s' : mounts s' = mounts s → mounted_targets lo lo s s'.
Proof. intros H. unfold mounted_targets. rewrite H. split_and!; [lia|done|by left|lia]. Qed.

Lemma mounted_targets_trans lo mid hi s1 s2 s3 :
  mounted_targets lo mid s1 s2 → mounted_targets mid hi s2 s3 → mounted_targets lo hi s1 s3.
Proof.
  intros (H1 & S1 & P1 & T1) (H2 & S2 & P2 & T2). split_and!; [lia|by etrans| |].
  - intros p Hp. destruct (P2 p Hp) as [Hp'|(i & ? & ? & ?)]; [|right; exists i; split_and!; [lia|lia|done|done]].
    destruct (P1 p Hp') as [?|(i & ? & ? & ?)]; [by left|]. right. exists i. split_and!; [lia|lia|done|done].
  - intros i Hi. destruct (decide (i < mid)); [|apply T2; lia]. destruct (T1 i ltac:(lia)). split; [by apply S2|done].
Qed.

Lemma wp_nfs_component idx token p s :
  0 <= idx →
  wp (nfs_component root base idx token p)
     (λ r s', mounted_targets idx (if r is Some _ then idx + 1 else idx) s s') s.
Proof.
  intros Hidx. unfold nfs_component. destruct (Z.leb_spec 2048 (slen (target idx))) as [|Hlen].
  { apply wp_bind. unfold wp, set_errno, ret. by apply mounted_targets_refl. }
  rewrite fit_id by done. pose proof (plain_clower root base idx Hroot Hbase Hidx Hlen) as Hplain.
  apply wp_bind, wp_keeps_mounts; [auto with frame|]. intros rc s1 H1.
  destruct (rc <? 0); [by apply wp_ret, mounted_targets_refl|].
  assert (∀ s', mounts s' = {[target idx]} ∪ mounts s → mounted_targets idx (idx + 1) s s') as Hnew.
  { intros s' H. unfold mounted_targets. rewrite H. split_and!; [lia|set_solver| |].
    - intros q [->%elem_of_singleton|Hq]%elem_of_union; [|by left]. right. exists idx. split_and!; [lia|lia|done|done].
    - intros i Hi. replace i with idx by lia. split; [set_solver|done]. }
  assert (∀ ok s', mounts s' = (if ok : bool then {[target idx]} ∪ mounts s else mounts s) →
    wp (ret (if ok then Some (target idx) else None))
      (λ r s', mounted_targets idx (if r is Some _ then idx + 1 else idx) s s') s') as Hend.
  { intros [] s' H; apply wp_ret; [by apply Hnew|by apply mounted_targets_refl]. }
  apply wp_bind. unfold mount_nfs. apply wp_bind, wp_is_mounted; [done|]. intros s2 H2.
  case_bool_decide as Hin.
  { apply wp_ret, (Hend true). rewrite H2, H1. rewrite H1 in Hin. set_solver. }
  destruct (256 <=? slen token).
  { apply wp_bind. unfold wp, set_errno, ret. apply mounted_targets_refl. unfold mounts in *. simpl. congruence. }
  apply wp_bind, wp_keeps_mounts; [apply mounts_ml_select_host|]. intros sel s3 H3.
  destruct sel as [server|]; cbv zeta beta iota.
  all: apply wp_bind, wp_keeps_mounts; [auto with frame|]; intros [ip|] s4 H4;
    [apply wp_try_mount; intros ok s5 H5; apply (Hend ok); destruct ok; congruence
    |apply wp_bind; unfold wp, set_errno, ret; apply mounted_targets_refl; unfold mounts in *; simpl; congruence].
Qed.

Lemma wp_lowerdir_loop tokens resolved first idx s :
  0 <= idx →
  wp (lowerdir_loop root base tokens resolved first idx)
     (λ '(_, n) s', mounted_targets idx n s s') s.
Proof.
  assert (∀ e (r : option cstr) lo s s', mounts s' = mounts s →
    wp (set_errno e ;; ret (r, lo)) (λ '(_, n) s', mounted_targets lo n s s') s') as Herr.
  { intros e r lo s1 s2 H. apply wp_bind. unfold wp, set_errno, ret. by apply mounted_targets_refl. }
  revert resolved first idx s. induction tokens as [|t|t p rest IH1 IH2] using token_ind; intros resolved first idx s Hidx.
  - by apply wp_ret, mounted_targets_refl.
  - cbn [lowerdir_loop]. destruct (is_absolute t); [|by apply Herr].
    apply wp_bind, wp_keeps_mounts; [auto with frame|]. intros ok s1 H1.
    destruct ok; [|by apply wp_ret, mounted_targets_refl]. simpl negb. cbv iota.
    destruct (append_component resolved first t); [|by apply Herr]. by apply wp_ret, mounted_targets_refl.
  - cbn [lowerdir_loop]. destruct (is_absolute t).
    + apply wp_bind, wp_keeps_mounts; [auto with frame|]. intros ok s1 H1.
      destruct ok; [|by apply wp_ret, mounted_targets_refl]. simpl negb. cbv iota.
      destruct (append_component resolved first t); [|by apply Herr].
      eapply wp_mono; [by apply IH1|]. intros [r n] s2 H2.
      eapply mounted_targets_trans; [by apply (mounted_targets_refl idx s s1)|done].
    + destruct (is_absolute p); [|by apply Herr]. simpl negb. cbv iota.
      apply wp_bind. eapply wp_mono; [by apply wp_nfs_component|]. intros [mt|] s1 H1; [|by apply wp_ret].
      destruct (append_component resolved first mt).
      * eapply wp_mono; [apply IH2; lia|]. intros [r' n] s2 H2. by eapply mounted_targets_trans.
      * apply wp_bind. unfold wp, set_errno, ret. exact H1.
Qed.

(** The undo loop unmounts the targets below [n]. *)
Lemma wp_undo_nfs_mounts n s :
  wp (undo_nfs_mounts root base n)
     (λ _ s', mounts s' ⊆ mounts s ∧
        ∀ i, 0 <= i < n → slen (target i) < 2048 → target i ∉ mounts s') s.
Proof.
  unfold undo_nfs_mounts.
  apply (wp_meach (λ l _ s', mounts s' ⊆ mounts s ∧
    ∀ i, i ∈ l → slen (target (Z.of_nat i)) < 2048 → target (Z.of_nat i) ∉ mounts s')).
  - split; [done|]. intros i Hi. by apply not_elem_of_nil in Hi.
  - intros done i rest [] s1 _ [Hsub Hgone]. destruct (decide (slen (target (Z.of_nat i)) < 2048)) as [Hlen|Hlen].
    + rewrite fit_id by lia. apply wp_bind, wp_is_mounted; [apply plain_clower; done || lia|]. intros s2 H2.
      assert (∀ s', mounts s' = mounts s1 ∖ {[target (Z.of_nat i)]} → mounts s' ⊆ mounts s ∧
        ∀ j, j ∈ done ++ [i] → slen (target (Z.of_nat j)) < 2048 → target (Z.of_nat j) ∉ mounts s') as Hstep.
      { intros s' H. rewrite H. split; [set_solver|]. intros j Hj Hjl.
        apply elem_of_app in Hj as [Hj| ->%list_elem_of_singleton]; [|set_solver].
        specialize (Hgone j Hj Hjl). set_solver. }
      case_bool_decide as Hin.
      * apply wp_bind, wp_detach; [congruence|]. intros r s3 H3. apply wp_ret, Hstep. congruence.
      * apply wp_ret, Hstep. rewrite H2. set_solver.
    + apply wp_bind, wp_keeps_mounts; [auto with frame|]. intros b s2 H2.
      assert (∀ s', mounts s' ⊆ mounts s1 → mounts s' ⊆ mounts s ∧
        ∀ j, j ∈ done ++ [i] → slen (target (Z.of_nat j)) < 2048 → target (Z.of_nat j) ∉ mounts s') as Hstep.
      { intros s' H. split; [set_solver|]. intros j Hj Hjl.
        apply elem_of_app in Hj as [Hj| ->%list_elem_of_singleton]; [|lia].
        specialize (Hgone j Hj Hjl). set_solver. }
      destruct b; [|by apply wp_ret, Hstep; rewrite H2].
      apply wp_bind, wp_umount. intros r s3 H3. apply wp_ret, Hstep. rewrite H3, H2. destruct (failed r); set_solver.
  - intros [] s' [Hsub Hgone]. split; [done|]. intros i Hi Hlen.
    rewrite <- (Z2Nat.id i) in Hlen |- * by lia. apply Hgone; [|done]. apply elem_of_seq. lia.
Qed.

Lemma clower_path_inj i j : target i = target j → i = j.
Proof.
  unfold clower_path, dec. intros H. rewrite !app_assoc in H. apply app_inv_head in H.
  apply (f_equal String.string_of_list_ascii) in H. unfold lit in H.
  rewrite !String.string_of_list_ascii_of_string in H. by apply (inj pretty).
Qed.

(** The unmount of [cleanup_custom_nfs_mounts]: with up to 16 targets mounted
    from number 0 on, none is left. *)
Lemma wp_cleanup_custom name n s :
  base = sb_basename name → n <= MAX_CUSTOM_LOWERDIR_COMPONENTS →
  (∀ i, 0 <= i < n → target i ∈ mounts s ∧ slen (target i) < 2048) →
  wp (cleanup_custom_nfs_mounts root name)
     (λ _ s', mounts s' ⊆ mounts s ∧ ∀ i, 0 <= i < n → target i ∉ mounts s') s.
Proof.
  intros Eb Hn Ht. unfold cleanup_custom_nfs_mounts. rewrite <- Eb.
  apply (wp_mfor (λ l _ s', mounts s' ⊆ mounts s ∧
    ∀ i, 0 <= i < n → if decide (i < Z.of_nat (length l)) then target i ∉ mounts s' else target i ∈ mounts s')).
  - split; [done|]. intros i Hi. destruct (decide _); [simpl in *; lia|by apply Ht].
  - intros done k rest [] s1 Es [Hsub Hk].
    assert (k = length done) as ->.
    { assert (seq 0 (Z.to_nat MAX_CUSTOM_LOWERDIR_COMPONENTS) !! length done = Some k) as H.
      { rewrite Es. by apply list_lookup_middle. }
      apply lookup_seq in H as [-> _]. done. }
    assert (∀ i s', mounts s' = mounts s1 ∖ {[target (Z.of_nat (length done))]} → 0 <= i < n →
      if decide (i < Z.of_nat (length (done ++ [length done]))) then target i ∉ mounts s' else target i ∈ mounts s') as Hstep.
    { intros i s' H Hi. rewrite H, length_app. simpl. specialize (Hk i Hi).
      destruct (decide (i = Z.of_nat (length done))) as [->|Hne].
      - rewrite decide_True by lia. set_solver.
      - pose proof (λ H, Hne (clower_path_inj i (Z.of_nat (length done)) H)).
        destruct (decide (i < Z.of_nat (length done))); [rewrite decide_True by lia|rewrite decide_False by lia]; set_solver. }
    destruct (decide (Z.of_nat (length done) < n)) as [Hlt|Hge].
    + destruct (Ht (Z.of_nat (length done))) as [_ Hl]; [lia|]. rewrite fit_id by lia.
      apply wp_bind, wp_is_mounted; [apply plain_clower; done || lia|]. intros s2 H2.
      specialize (Hk (Z.of_nat (length done)) ltac:(lia)) as Hin. rewrite decide_False in Hin by lia.
      rewrite bool_decide_eq_true_2 by done. simpl negb. cbv iota.
      apply wp_bind, wp_detach; [congruence|]. intros r s3 H3. apply wp_ret. rewrite H2 in H3.
      split; [rewrite H3; set_solver|]. intros i Hi. by apply Hstep.
    + assert (∀ s', mounts s' ⊆ mounts s1 → mounts s' ⊆ mounts s ∧ ∀ i, 0 <= i < n → target i ∉ mounts s') as Hend.
      { intros s' Hs'. split; [by etrans|]. intros i Hi. specialize (Hk i Hi). rewrite decide_True in Hk by lia. set_solver. }
      apply wp_bind, wp_keeps_mounts; [auto with frame|]. intros [] s2 H2; simpl negb; cbv iota.
      * apply wp_bind, wp_umount. intros r s3 H3. apply wp_ret.
        assert (mounts s3 ⊆ mounts s1) as Hs3 by (rewrite H3, H2; destruct (failed r); set_solver).
        destruct (Hend s3 Hs3) as [Ha Hb]. split; [done|]. intros i Hi.
        rewrite decide_True; [by apply Hb|]. rewrite length_app. simpl. lia.
      * apply wp_ret, Hend. by rewrite H2.
  - intros [] s' [Hsub Hk]. split; [done|]. intros i Hi. specialize (Hk i Hi).
    rewrite length_seq, decide_True in Hk; [done|]. lia.
Qed.
End undo.

(** ** The handler *)

Section handler.
Context {W : Type} {K : Kernel W} {J : Jansson}.
Implicit Types s : dstate W.

Lemma joined_nil : joined [] [] true.
Proof. done. Qed.

Lemma wp_handle_resolves custom_lowerdir ctx sandboxname s :
  wp (handle_custom_lowerdir custom_lowerdir ctx sandboxname)
     (λ r _, ∀ resolved n, r = Some (resolved, n) →
        ∃ cs, components (ctx_overlayroot ctx) (sb_basename sandboxname)
                (strtok_all ":" (fit 2048 custom_lowerdir)) 0 = Some (cs, n) ∧
          cs ≠ [] ∧ resolved = join (lit ":") cs ∧ 0 < slen resolved < 8192) s.
Proof.
  unfold handle_custom_lowerdir. apply wp_bind.
  eapply wp_mono; [apply lowerdir_loop_joined, joined_nil|]. intros [[r|] n] s1 H.
  - destruct (H r eq_refl) as (cs & first & Hc & Hr & _ & Hlen). simpl in Hr.
    destruct (Z.eqb_spec (slen r) 0).
    + apply wp_bind, wp_run. unfold set_errno. simpl. apply wp_bind, wp_run. simpl. done.
    + apply wp_ret. intros ? ? [= <- <-]. exists cs. pose proof (slen_nonneg r).
      split_and!; [done| |done|lia|exact Hlen]. intros ->. apply n0. by rewrite Hr.
  - apply wp_bind, wp_run. simpl. done.
Qed.

(** C38: what a custom lowerdir resolves to.  Whatever the kernel and the
    sidecar answer, when [handle_custom_lowerdir] succeeds its text is the
    colon-separated list of the components of the request in the order of
    the request, local paths as given and NFS components replaced by their
    mount points numbered from 0; the count is the number of NFS components,
    and the text with its NUL fits the buffer of 8192 bytes. *)
Theorem handle_custom_lowerdir_resolves custom_lowerdir ctx sandboxname s :
  wp (handle_custom_lowerdir custom_lowerdir ctx sandboxname)
     (λ r _, ∀ resolved n, r = Some (resolved, n) →
        ∃ cs, components (ctx_overlayroot ctx) (sb_basename sandboxname)
                (strtok_all ":" (fit 2048 custom_lowerdir)) 0 = Some (cs, n) ∧
          cs ≠ [] ∧ resolved = join (lit ":") cs ∧ 0 < slen resolved < 8192) s.
Proof. apply wp_handle_resolves. Qed.

Lemma lowerdir_loop_looks root base tokens resolved first n :
  Forall (λ t, is_absolute t = true) tokens →
  respects (emits (λ e, readonly e = true)) (lowerdir_loop root base tokens resolved first n).
Proof.
  intros H. revert resolved first. induction H as [|t tokens Ht _ IH]; intros resolved first; cbn [lowerdir_loop].
  - respects.
  - rewrite Ht. respects; done.
Qed.

(** A list of local directories always mounts.  When the request is a
    colon-separated list of absolute paths that exist, empty fields aside,
    [handle_custom_lowerdir] succeeds, only looks at the file system, and
    gives the list of paths back. *)
Theorem handle_custom_lowerdir_local paths ctx sandboxname s
    (Hpaths : Forall (λ p, is_absolute p = true ∧ ":"%char ∉ p) paths) (Hne : paths ≠ [])
    (Hlen : slen (join (lit ":") paths) < 2048)
    (Hstat : ∀ p w, p ∈ paths → failed (fst (k_do (StatPath p) w)) = false) :
  wp (handle_custom_lowerdir (join (lit ":") paths) ctx sandboxname)
     (λ r s', r = Some (join (lit ":") paths, 0) ∧ emits (λ e, readonly e = true) s s') s.
Proof.
  assert (Forall (λ t, is_absolute t = true) paths) as Habs by (eapply Forall_impl; [exact Hpaths|]; by intros p [? _]).
  unfold handle_custom_lowerdir. rewrite fit_id by done.
  assert (Forall (λ t, t ≠ [] ∧ ":"%char ∉ t) paths) as Htok.
  { eapply Forall_impl; [exact Hpaths|]. intros p [Ha Hc]. split; [by intros ->|done]. }
  change (lit ":") with [":"%char] in *. rewrite strtok_all_join by done.
  change [":"%char] with (lit ":") in *. apply wp_bind.
  eapply wp_mono; [apply wp_and; [by apply wp_respects, lowerdir_loop_looks|apply (lowerdir_loop_local _ _ paths [] [] true)]|].
  - done.
  - done.
  - apply joined_nil.
  - unfold RESOLVED_SIZE. simpl app. lia.
  - intros r s1 [Hro ->]. simpl app. cbv iota beta. destruct (Z.eqb_spec (slen (join (lit ":") paths)) 0) as [E|_].
    + exfalso. apply slen_zero in E. destruct Htok as [|p ps [Hp _] _]; [done|].
      destruct ps as [|p2 ps]; [done|]. rewrite join_cons in E by done. by apply app_eq_nil in E as [-> _].
    + by apply wp_ret.
Qed.

Lemma wp_handle_mounts {MS : MountStore W K} custom_lowerdir ctx sandboxname s
    (Hroot : plain_chars (ctx_overlayroot ctx) = true)
    (Hbase : plain_chars (sb_basename sandboxname) = true) :
  wp (handle_custom_lowerdir custom_lowerdir ctx sandboxname)
     (λ r s', match r with
              | None => mounts s' ⊆ mounts s
              | Some (_, n) => mounted_targets (ctx_overlayroot ctx) (sb_basename sandboxname) 0 n s s'
              end) s.
Proof.
  unfold handle_custom_lowerdir. set (root := ctx_overlayroot ctx) in *. set (base := sb_basename sandboxname) in *.
  assert (∀ n s1, mounted_targets root base 0 n s s1 →
    wp (undo_nfs_mounts root base n) (λ _ s', mounts s' ⊆ mounts s) s1) as Hundo.
  { intros n s1 (_ & _ & Hp & _). eapply wp_mono; [by apply wp_undo_nfs_mounts|].
    intros u s' [Hsub Hgone] p Hp'. destruct (Hp p (Hsub p Hp')) as [?|(i & ? & -> & ?)]; [done|].
    by destruct (Hgone i ltac:(lia) ltac:(done)). }
  apply wp_bind. eapply wp_mono; [by apply wp_lowerdir_loop|]. intros [[r|] n] s1 H1.
  - destruct (slen r =? 0); [|by apply wp_ret].
    apply wp_bind. unfold wp at 1, set_errno. apply wp_bind.
    eapply wp_mono; [by apply Hundo|]. intros u s' Hs'. by apply wp_ret.
  - apply wp_bind. eapply wp_mono; [by apply Hundo|]. intros u s' Hs'. by apply wp_ret.
Qed.


Lemma statics_ml_select_host : respects (keeps statics) ml_select_host.
Proof. unfold ml_select_host. respects. Qed.
#[local] Hint Resolve statics_ml_select_host : frame.
Lemma statics_nfs_component root base i t p : respects (keeps statics) (nfs_component root base i t p).
Proof. unfold nfs_component, mount_nfs. respects. Qed.
#[local] Hint Resolve statics_nfs_component : frame.
Lemma statics_lowerdir_loop root base toks r f i : respects (keeps statics) (lowerdir_loop root base toks r f i).
Proof.
  revert r f i. induction toks as [|t|t p rest IH1 IH2] using token_ind; intros r f i;
    cbn [lowerdir_loop]; [respects|respects|]. destruct (is_absolute t).
  - apply respects_bind; [apply _|auto with frame|]. intros []; simpl negb; cbv iota; [|respects].
    destruct (append_component r f t); [apply IH1|respects].
  - destruct (is_absolute p); simpl negb; cbv iota; [|respects].
    apply respects_bind; [apply _|auto with frame|]. intros [mt|]; [|respects].
    destruct (append_component r f mt); [apply IH2|respects].
Qed.
#[local] Hint Resolve statics_lowerdir_loop : frame.
Lemma statics_undo root base n : respects (keeps statics) (undo_nfs_mounts root base n).
Proof. unfold undo_nfs_mounts. respects. Qed.
#[local] Hint Resolve statics_undo : frame.
Lemma statics_handle_custom_lowerdir cl ctx name : respects (keeps statics) (handle_custom_lowerdir cl ctx name).
Proof. unfold handle_custom_lowerdir. respects. Qed.
Lemma statics_cleanup_custom root name : respects (keeps statics) (cleanup_custom_nfs_mounts root name).
Proof. unfold cleanup_custom_nfs_mounts. respects. Qed.
End handler.
#[export] Hint Resolve statics_handle_custom_lowerdir statics_cleanup_custom : frame.

(** ** Runs *)

Definition existing_dirs : Kernel sim :=
  override sim_kernel (λ A c,
    match c in syscall A return option A with
    | StatPath _ => Some (inr (Stat 0 1 0 true))
    | _ => None
    end).

Definition run_ctx : mount_ctx := MountCtx (lit "/ov") [] [].

Example handle_custom_lowerdir_run :
  let '(r, s') := handle_custom_lowerdir (K := sim_kernel) (J := tree_jansson) (lit "/lower:nfs1:/export:/b") run_ctx
    (lit "/b/sb1") (sim_state sim0 [] zero_config) in
  r = Some (lit "/lower:/ov/sb1-clower-0:/b", 1) ∧ sim_mounts (world s') = [lit "/ov/sb1-clower-0"].
Proof. by vm_compute. Qed.

Lemma handle_custom_lowerdir_local_witness :
  wp (handle_custom_lowerdir (K := existing_dirs) (J := tree_jansson) (lit "/lower:/b") run_ctx (lit "/b/sb1"))
     (λ r s', r = Some (lit "/lower:/b", 0) ∧ emits (λ e, readonly e = true) (sim_state sim0 [] zero_config) s')
     (sim_state sim0 [] zero_config).
Proof.
  refine (handle_custom_lowerdir_local (K := existing_dirs) (J := tree_jansson) [lit "/lower"; lit "/b"] run_ctx
    (lit "/b/sb1") (sim_state sim0 [] zero_config) _ _ _ _); try done.
  repeat constructor; apply (bool_decide_eq_true _); by vm_compute.
Defined.

