(* ===== verification/Umount.v ===== *)
(** * Destroying a sandbox

    Models [mbroker/daemon/umount_ops.c]: the recursive removal of the upper
    and work directories, its asynchronous variant, and [umount_sandbox]. *)
From S2P Require Import Prelude CString Protocol Config MountTable OS SimKernel Storage Util Mounts Walk Exports Json Record ModelClient Lowerdir.
Open Scope Z_scope.

Section remove.
Context {W : Type} {K : Kernel W}.

(** One iteration of the [readdir] loop: the return value so far. *)
Definition remove_entry (rec : cstr → M W Z) (path : cstr) (ret_ : Z) (entry : dirent) : M W Z :=
  if is_dot (d_name entry) then ret ret_
  else
    match child_path path (d_name entry) with
    | None => ret (-1)
    | Some child =>
      let! st := sys (Lstat child) in
      match st with
      | inl e => ret (if negb (e =? ENOENT) then -1 else ret_)
      | inr st =>
        if st_isdir st then
          let! rc := rec child in
          ret (if rc <? 0 then -1 else ret_)
        else
          let! r := sys (Unlink child) in
          ret (match r with inl e => if negb (e =? ENOENT) then -1 else ret_ | inr _ => ret_ end)
      end
    end.

Definition remove_dir_body (rec : cstr → unit → M W Z) (path : cstr) (_ : unit) : M W Z :=
  let! dir := sys (Opendir path) in
  match dir with
  | inl e => ret (if e =? ENOENT then 0 else -1)
  | inr entries =>
    let! ret_ := meach entries 0 (remove_entry (λ c, rec c tt) path) in
    let! r := sys (Rmdir path) in
    ret (match r with inl e => if negb (e =? ENOENT) then -1 else ret_ | inr _ => ret_ end)
  end.

Definition remove_dir_recursive (path : cstr) : M W Z := walk (-1) remove_dir_body path tt.

Definition async_remove_dir_thread (path label : cstr) : M W unit :=
  let! _ := remove_dir_recursive path in ret tt.

Definition remove_dir_async (path label : cstr) : M W Z :=
  if negb (nonempty path) then ret (- EINVAL)
  else
    let! ok := try Alloc in
    if negb ok then ret (- ENOMEM)
    else
      let! rc := call (PthreadCreate (ThAsyncRemoveDir (fit 4096 path) (fit 32 label))) in
      if negb (rc =? 0) then
        let! saved := get_errno in ret (- saved)
      else ret 0.
End remove.

(** The name under which a directory is staged for removal. *)
Definition gc_path (dir : cstr) (time pid : Z) : cstr :=
  dir ++ lit ".mrepod.gc." ++ dec time ++ lit "." ++ dec pid.

Section umount.
Context {W : Type} {K : Kernel W} {J : Jansson}.

(** Moving a directory aside and removing it in a thread, or in place when
    that fails: the two identical blocks for the work and upper directory. *)
Definition cleanup_dir (dir label : cstr) : M W unit :=
  let! time := call Time in
  let! pid := call Getpid in
  let full := gc_path dir (time) (to_int32 pid) in
  if (slen full <=? 0) || (4096 <=? slen full) then
    let! _ := remove_dir_recursive dir in ret tt
  else
    let! r := sys (Rename dir full) in
    match r with
    | inl e =>
      if negb (e =? ENOENT) then
        let! _ := remove_dir_recursive dir in ret tt
      else ret tt
    | inr _ =>
      let! rc := remove_dir_async full label in
      if rc <? 0 then
        let! _ := remove_dir_recursive full in ret tt
      else ret tt
    end.

Definition cleanup_overlay_dirs (ctx : mount_ctx) (sandboxname : cstr) : M W unit :=
  let '(rc, ctx) := setup_overlay_dirs ctx sandboxname in
  if rc <? 0 then ret tt
  else
    cleanup_dir (ctx_workdir ctx) (lit "workdir") ;;
    cleanup_dir (ctx_upperdir ctx) (lit "upperdir").

Definition remove_record (overlayroot sandboxname : cstr) : M W unit :=
  let base := sb_basename sandboxname in
  let rec_path := record_path overlayroot base in
  let sb_dir := overlayroot ++ lit "/" ++ base in
  (if (0 <? slen rec_path) && (slen rec_path <? 4096) then
     let! _ := sys (Unlink rec_path) in ret tt
   else ret tt) ;;
  (if (0 <? slen sb_dir) && (slen sb_dir <? 4096) then
     let! _ := sys (Rmdir sb_dir) in ret tt
   else ret tt).

(** The overlay root: as tracked, or the configured one. *)
Definition umount_overlayroot (sandboxname : cstr) : M W cstr :=
  let! tracked_overlayroot := read_table (mountinfo_overlayroot_for sandboxname) in
  match tracked_overlayroot with
  | Some (c :: r) => ret (fit 2048 (c :: r))
  | _ =>
    let! dcfg := get_cfg in
    ret (fit 2048 (overlayroot dcfg))
  end.

(** The unmount, retried lazily: the saved error number if both fail. *)
Definition umount_overlay (sandboxname : cstr) (flags : Z) : M W (option Z) :=
  let umount_flags := Z.lor (if has_flag flags FLAG_LAZY then MNT_DETACH else 0)
                            (if has_flag flags FLAG_FORCE then MNT_FORCE else 0) in
  let! r := sys (Umount2 sandboxname umount_flags) in
  match r with
  | inr _ => ret None
  | inl saved =>
    if negb (has_flag umount_flags MNT_DETACH) then
      let! ok := try (Umount2 sandboxname MNT_DETACH) in
      ret (if ok then None else Some saved)
    else ret (Some saved)
  end.

Definition umount_sandbox (sandboxname : cstr) (flags requester_uid : Z) : M W Z :=
  let! st := sys (StatPath sandboxname) in
  match st with
  | inl _ => let! e := get_errno in ret (- e)
  | inr st =>
    if negb (requester_uid =? 0) && negb (st_uid st =? requester_uid) then ret (- EPERM)
    else
      let! root := umount_overlayroot sandboxname in
      if negb (nonempty root) then ret (- EINVAL)
      else
        lock_sandbox sandboxname ;;
        let! _ := enter_namespace in
        let! failed := umount_overlay sandboxname flags in
        match failed with
        | Some saved =>
          exit_namespace ;;
          unlock_sandbox sandboxname ;;
          ret (- saved)
        | None =>
          cleanup_overlay_dirs (MountCtx root [] []) sandboxname ;;
          remove_record root sandboxname ;;
          let! tracked_flags := read_table (mountinfo_flags_for sandboxname) in
          update_table (mountinfo_untrack sandboxname) ;;
          let! _ := remove_overlay_export sandboxname in
          cleanup_custom_nfs_mounts root sandboxname ;;
          exit_namespace ;;
          unlock_sandbox sandboxname ;;
          ret 0
        end
  end.
End umount.

(** * Lemmas *)

Section remove_lemmas.
Context {W : Type} {K : Kernel W}.
Implicit Types s : dstate W.

Lemma remove_entry_ext (r1 r2 : cstr → M W Z) path b e s :
  (∀ child s', slen path < slen child < PATH_SIZE → r1 child s' = r2 child s') →
  remove_entry r1 path b e s = remove_entry r2 path b e s.
Proof.
  intros H. unfold remove_entry. destruct (is_dot (d_name e)); [done|].
  destruct (child_path path (d_name e)) as [child|] eqn:Ec; [|done].
  apply child_path_Some in Ec as [_ Hc]. unfold bind. destruct (sys (Lstat child) s) as [[er|st] s1]; [done|].
  destruct (st_isdir st); [|done]. by rewrite H.
Qed.

Lemma remove_dir_extensional : extensional_body (remove_dir_body (K := K)).
Proof.
  intros r1 r2 path [] s H. unfold remove_dir_body, bind.
  destruct (sys (Opendir path) s) as [[e|entries] s1]; [done|].
  rewrite (meach_ext entries 0 (remove_entry (λ c, r1 c tt) path) (remove_entry (λ c, r2 c tt) path)); [done|].
  intros b x s2 _. apply remove_entry_ext. intros child s' Hc. by apply H.
Qed.

(** The C function's own equation. *)
Lemma remove_dir_recursive_unfold path s :
  remove_dir_recursive path s = remove_dir_body (λ c _, remove_dir_recursive c) path tt s.
Proof.
  unfold remove_dir_recursive. rewrite walk_unfold by apply remove_dir_extensional.
  apply remove_dir_extensional. by intros child [] s' _.
Qed.

(** Facts about all removals, from facts about one level. *)
Lemma respects_remove_dir (R : cstr → dstate W → dstate W → Prop) :
  (∀ path, (∀ child, slen path < slen child < PATH_SIZE → respects (R child) (remove_dir_recursive child)) →
     respects (R path) (remove_dir_body (λ c _, remove_dir_recursive c) path tt)) →
  ∀ path, respects (R path) (remove_dir_recursive path).
Proof.
  intros H. apply path_induction. intros path IH s. rewrite remove_dir_recursive_unfold. by apply H.
Qed.

Lemma statics_remove_dir path : respects (keeps statics) (remove_dir_recursive path).
Proof.
  revert path. apply (respects_remove_dir (λ _, keeps statics)). intros path IH.
  unfold remove_dir_body. apply respects_bind; [apply _|auto with frame|]. intros [e|entries]; [respects|].
  apply respects_bind; [apply _| |intros; respects]. apply respects_meach; [apply _|]. intros b x _.
  unfold remove_entry. destruct (is_dot _); [respects|].
  destruct (child_path path (d_name x)) as [child|] eqn:Ec; [|respects].
  apply child_path_Some in Ec as [_ Hc]. pose proof (IH child Hc). respects.
Qed.

End remove_lemmas.
#[export] Hint Resolve statics_remove_dir : frame.

Section umount_lemmas.
Context {W : Type} {K : Kernel W} {J : Jansson}.
Implicit Types s : dstate W.

Lemma statics_remove_async path label : respects (keeps statics) (remove_dir_async path label).
Proof. unfold remove_dir_async. respects. Qed.
#[local] Hint Resolve statics_remove_async : frame.
Lemma statics_cleanup_dir dir label : respects (keeps statics) (cleanup_dir dir label).
Proof. unfold cleanup_dir. respects. Qed.
#[local] Hint Resolve statics_cleanup_dir : frame.
Lemma statics_cleanup_overlay_dirs ctx name : respects (keeps statics) (cleanup_overlay_dirs ctx name).
Proof. unfold cleanup_overlay_dirs. respects. Qed.
Lemma statics_remove_record root name : respects (keeps statics) (remove_record root name).
Proof. unfold remove_record. respects. Qed.
Lemma statics_umount_overlay name flags : respects (keeps statics) (umount_overlay name flags).
Proof. unfold umount_overlay. respects. Qed.
Lemma statics_umount_overlayroot name : respects (keeps statics) (umount_overlayroot (W := W) name).
Proof. unfold umount_overlayroot. respects. Qed.
#[local] Hint Resolve statics_cleanup_overlay_dirs statics_remove_record statics_umount_overlay
  statics_umount_overlayroot : frame.

(** Running [m], of which only a frame is known. *)
Lemma wp_frame {A X} (f : dstate W → X) (m : M W A) (Q : A → dstate W → Prop) s :
  respects (keeps f) m → (∀ a s', f s' = f s → Q a s') → wp m Q s.
Proof. intros Hm HQ. eapply wp_mono; [apply (wp_respects _ _ _ Hm)|]. intros a s' H. by apply HQ. Qed.

(** The table and the configuration. *)
Definition table_cfg s : table * daemon_config := (tracked s, cfg s).

Lemma keeps_table_cfg {A} (m : M W A) :
  respects (keeps tracked) m → respects (keeps cfg) m → respects (keeps table_cfg) m.
Proof. intros Ht Hc s. unfold keeps, table_cfg. by rewrite Ht, Hc. Qed.
Lemma statics_table_cfg {A} (m : M W A) : respects (keeps statics) m → respects (keeps table_cfg) m.
Proof. intros H. apply keeps_table_cfg; auto with frame. Qed.

(** Leaving: the namespace and the lock are released. *)
Lemma wp_leave {A} name (a : A) (Q : A → dstate W → Prop) s :
  (∀ s', table_cfg s' = table_cfg s → lock_fd s' = -1 → Q a s') →
  wp (exit_namespace ;; unlock_sandbox name ;; ret a) Q s.
Proof.
  intros H. apply wp_bind, (wp_frame table_cfg); [apply keeps_table_cfg; auto with frame|]. intros _ s1 H1.
  apply wp_bind. eapply wp_mono.
  - apply wp_and; [apply (wp_respects (keeps table_cfg)); apply keeps_table_cfg; auto with frame|].
    apply (wp_run _ (λ _ s', lock_fd s' = -1)), unlock_sandbox_unlocks.
  - intros _ s2 [H2 Hl]. apply wp_ret, H; [|done]. unfold keeps in H2. congruence.
Qed.

Lemma umount_overlay_errno {EP : ErrnoPositive K} name flags s :
  wp (umount_overlay name flags) (λ r _, ∀ saved, r = Some saved → 0 < saved) s.
Proof.
  unfold umount_overlay. apply wp_bind, wp_sys. intros [e|u] s1 Hk _ _ _; [|by apply wp_ret].
  assert (0 < e) by (eapply (errno_positive _ (Umount2 _ _)); by rewrite Hk).
  destruct (negb _); [|apply wp_ret; congruence].
  apply wp_bind, wp_run. destruct (try _ s1) as [ok s2]. simpl. apply wp_ret. destruct ok; congruence.
Qed.

Lemma umount_denied name flags requester st w s
    (Hstat : k_do (StatPath name) (world s) = (inr st, w))
    (Hroot : requester ≠ 0) (Howner : st_uid st ≠ requester) :
  let '(rc, s') := umount_sandbox name flags requester s in
  rc = - EPERM ∧ trace s' = trace s ++ [Ev (StatPath name) (inr st)] ∧ statics s' = statics s.
Proof.
  change (wp (umount_sandbox name flags requester) (λ rc s', rc = - EPERM ∧
    trace s' = trace s ++ [Ev (StatPath name) (inr st)] ∧ statics s' = statics s) s).
  unfold umount_sandbox. apply wp_bind, wp_sys. intros r s1 Hk Hst _ Ht. rewrite Hstat in Hk.
  injection Hk as <- _. destruct (Z.eqb_spec requester 0); [done|]. destruct (Z.eqb_spec (st_uid st) requester); [done|].
  by apply wp_ret.
Qed.

(** Only the owner can destroy a sandbox.  When the requester is neither
    root nor the owner of the mount point, [umount_sandbox] returns [-EPERM]
    and the [stat] that found the owner is the only call it makes; the table
    of sandboxes and the lock are as before. *)
Theorem umount_sandbox_denied name flags requester st w s
    (Hstat : k_do (StatPath name) (world s) = (inr st, w))
    (Hroot : requester ≠ 0) (Howner : st_uid st ≠ requester) :
  let '(rc, s') := umount_sandbox name flags requester s in
  rc = - EPERM ∧ trace s' = trace s ++ [Ev (StatPath name) (inr st)] ∧ statics s' = statics s.
Proof. by eapply umount_denied. Qed.

(** C10: destroying a sandbox releases it.  Whatever the kernel does, as long
    as failing calls set a positive [errno], [umount_sandbox] returns 0
    exactly when it has forgotten the sandbox, and forgets only that one; on
    every path, errors included, the configuration is untouched and the
    sandbox lock is not held afterwards. *)
Theorem umount_sandbox_outcome {EP : ErrnoPositive K} name flags requester s (Hl : lock_fd s = -1) :
  wp (umount_sandbox name flags requester)
     (λ rc s', lock_fd s' = -1 ∧ cfg s' = cfg s ∧
        ((rc = 0 ∧ tracked s' = mountinfo_untrack name (tracked s)) ∨ (rc < 0 ∧ tracked s' = tracked s))) s.
Proof.
  unfold umount_sandbox. apply wp_bind, wp_sys. intros r s1 Hk Hst He _. injection Hst as Ht Hc Hlk Hn.
  destruct r as [e|st].
  { assert (0 < e) by (eapply (errno_positive _ (StatPath _)); by rewrite Hk).
    apply wp_bind. unfold wp, get_errno, ret. rewrite He. split_and!; [congruence|done|]. right. split; [lia|done]. }
  destruct (_ && _).
  { apply wp_ret. split_and!; [congruence|done|]. right. done. }
  apply wp_bind, (wp_frame statics); [auto with frame|]. intros root s2 H2. injection H2 as Ht2 Hc2 Hlk2 Hn2.
  destruct (negb (nonempty root)).
  { apply wp_ret. split_and!; [congruence|congruence|]. right. split; [done|congruence]. }
  apply wp_bind, (wp_frame table_cfg); [apply keeps_table_cfg; auto with frame|]. intros _ s3 H3.
  apply wp_bind, (wp_frame table_cfg); [apply keeps_table_cfg; auto with frame|]. intros _ s4 H4.
  apply wp_bind. eapply wp_mono; [apply wp_and; [apply umount_overlay_errno|]|].
  { apply (wp_respects (keeps statics)). auto with frame. }
  intros f s5 [Herr H5]. injection H5 as Ht5 Hc5 _ _. injection H3 as Ht3 Hc3. injection H4 as Ht4 Hc4.
  destruct f as [saved|].
  { apply wp_leave. intros s6 H6 Hl6. injection H6 as Ht6 Hc6. specialize (Herr saved eq_refl).
    split_and!; [done|congruence|]. right. split; [lia|congruence]. }
  apply wp_bind, (wp_frame statics); [auto with frame|]. intros _ s6 H6. injection H6 as Ht6 Hc6 _ _.
  apply wp_bind, (wp_frame statics); [auto with frame|]. intros _ s7 H7. injection H7 as Ht7 Hc7 _ _.
  apply wp_bind, (wp_frame statics); [respects|]. intros _ s8 H8. injection H8 as Ht8 Hc8 _ _.
  apply wp_bind. unfold update_table, with_table, wp at 1.
  apply wp_bind, (wp_frame statics); [auto with frame|]. intros _ s9 H9. injection H9 as Ht9 Hc9 _ _.
  apply wp_bind, (wp_frame statics); [auto with frame|]. intros _ s10 H10. injection H10 as Ht10 Hc10 _ _.
  apply wp_leave. intros s11 H11 Hl11. injection H11 as Ht11 Hc11. simpl in *.
  split_and!; [done|congruence|]. left. split; [done|]. congruence.
Qed.
End umount_lemmas.

(** ** Runs *)

Definition destroy_sim : sim :=
  Sim [lit "/ov/sb1/upper"; lit "/ov/sb1/work"; lit "/ov/sb1"; lit "/ov"; lit "/b"; lit "/b/sb1"; lit "/run/overlay_helper/locks"]
    [(EXPORTS_FILE, []); (lit "/ov/sb1/upper/f", [])] [lit "/b/sb1"] 1000.
Definition destroy_state : dstate sim :=
  sim_state destroy_sim [fill_slot (lit "/b/sb1") 0 (lit "/ov") [] []] zero_config.

Example umount_sandbox_run :
  let '(rc, s') := umount_sandbox (K := sim_kernel) (lit "/b/sb1") 0 1000 destroy_state in
  rc = 0 ∧ sim_mounts (world s') = [] ∧ mountinfo_tracked_count (tracked s') = 0.
Proof. by vm_compute. Qed.

Example remove_dir_recursive_run :
  let '(rc, s') := remove_dir_recursive (K := sim_kernel) (lit "/ov/sb1/upper") destroy_state in
  rc = 0 ∧ sim_exists (lit "/ov/sb1/upper") (world s') = false ∧ sim_exists (lit "/ov/sb1/upper/f") (world s') = false.
Proof. by vm_compute. Qed.

Lemma umount_sandbox_denied_witness :
  let '(rc, s') := umount_sandbox (K := sim_kernel) (lit "/b/sb1") 0 7 destroy_state in
  rc = - EPERM ∧ trace s' = [Ev (StatPath (lit "/b/sb1")) (inr (Stat 1000 1 0 true))] ∧ statics s' = statics destroy_state.
Proof.
  exact (umount_sandbox_denied (K := sim_kernel) (lit "/b/sb1") 0 7 (Stat 1000 1 0 true) destroy_sim destroy_state
    eq_refl ltac:(done) ltac:(done)).
Defined.

Lemma umount_sandbox_outcome_witness :
  wp (umount_sandbox (K := sim_kernel) (lit "/b/sb1") 0 1000)
     (λ rc s', lock_fd s' = -1 ∧ cfg s' = cfg destroy_state ∧
        ((rc = 0 ∧ tracked s' = mountinfo_untrack (lit "/b/sb1") (tracked destroy_state)) ∨
         (rc < 0 ∧ tracked s' = tracked destroy_state))) destroy_state.
Proof. exact (umount_sandbox_outcome (K := sim_kernel) (lit "/b/sb1") 0 1000 destroy_state eq_refl). Defined.
