(* ===== verification/Promote.v ===== *)
(** * Promoting a sandbox

    Models [mbroker/daemon/promote.c]: after a mount with [--promote], a thread
    sets a promotion attribute on every directory and small file of the
    sandbox, splitting the tree into tasks for a pool of workers.  The work of
    a pool is run here as one worker would do it alone; [TaskQueue] shows that
    every interleaving does the same tasks once. *)
From S2P Require Import Prelude CString Protocol Config MountTable OS SimKernel Walk TaskQueue.
Open Scope Z_scope.

Definition PROMOTE_MAX_FILE_SIZE : Z := 100 * 1024 * 1024.
Definition PROMOTE_FILE : cstr := lit "user.mrepod.promote_file".
Definition PROMOTE_DIR : cstr := lit "user.mrepod.promote_dir".

(** The entries that are skipped. *)
Definition promote_skip (name : cstr) : bool := is_dot name || str_eqb name (lit ".git").

Section promote.
Context {W : Type} {K : Kernel W}.

Definition set_promote_low_priority : M W unit :=
  let! _ := sys (Setpriority 15) in ret tt.

(** [is_dir] of an entry: its [d_type], or [lstat] when that is unknown. *)
Definition entry_is_dir (child : cstr) (t : dtype) : M W bool :=
  match t with
  | DT_DIR => ret true
  | DT_UNKNOWN =>
    let! r := sys (Lstat child) in
    ret (match r with inr cst => st_isdir cst | inl _ => false end)
  | DT_OTHER => ret false
  end.

Definition promote_file (child : cstr) : M W unit :=
  let! fst := sys (Lstat child) in
  let too_big := match fst with inr st => PROMOTE_MAX_FILE_SIZE <? st_size st | inl _ => false end in
  if too_big then ret tt
  else let! _ := sys (Lsetxattr child PROMOTE_FILE (lit "1")) in ret tt.

Definition promote_entry (rec : cstr → M W unit) (dirpath : cstr) (entry : dirent) : M W unit :=
  if promote_skip (d_name entry) then ret tt
  else
    match child_path dirpath (d_name entry) with
    | None => ret tt
    | Some child =>
      let! is_dir := entry_is_dir child (d_type entry) in
      if is_dir then rec child else promote_file child
    end.

Definition promote_tree_body (rec : cstr → unit → M W unit) (dirpath : cstr) (_ : unit) : M W unit :=
  let! st := sys (Lstat dirpath) in
  match st with
  | inl _ => ret tt
  | inr st =>
    if negb (st_isdir st) then
      if PROMOTE_MAX_FILE_SIZE <? st_size st then ret tt
      else let! _ := sys (Lsetxattr dirpath PROMOTE_FILE (lit "1")) in ret tt
    else
      let! dir := sys (Opendir dirpath) in
      match dir with
      | inl _ => ret tt
      | inr entries =>
        let! _ := sys (Lsetxattr dirpath PROMOTE_DIR (lit "1")) in
        meach entries tt (λ _ e, promote_entry (λ c, rec c tt) dirpath e)
      end
  end.

Definition promote_tree_opendir (dirpath : cstr) : M W unit := walk tt promote_tree_body dirpath tt.

(** One entry of the enqueueing loop: the return code so far and the queue. *)
Definition enqueue_entry (rec : cstr → task_queue * Z → M W (Z * task_queue)) (path : cstr) (depth : Z)
    (acc : Z * task_queue) (entry : dirent) : M W (loop (Z * task_queue)) :=
  let '(enqueued, q) := acc in
  if promote_skip (d_name entry) then ret (Continue acc)
  else
    match child_path path (d_name entry) with
    | None => ret (Continue acc)
    | Some child =>
      let! (rc, q) := rec child (q, depth + 1) in
      ret (if rc <? 0 then Break (-1, q) else Continue (enqueued + rc, q))
    end.

(** [if (task_queue_push(q, path, uid) < 0) return -1; return 1]. *)
Definition push_one (q : task_queue) (path : cstr) (uid : Z) : M W (Z * task_queue) :=
  let! (rc, q) := task_queue_push q path uid in
  ret (if rc <? 0 then -1 else 1, q).

Definition enqueue_promote_body (max_depth : Z) (rec : cstr → task_queue * Z → M W (Z * task_queue))
    (path : cstr) (x : task_queue * Z) : M W (Z * task_queue) :=
  let '(q, depth) := x in
  let! st := sys (Lstat path) in
  match st with
  | inl _ => ret (0, q)
  | inr st =>
    if negb (st_isdir st) || (max_depth <=? depth) then push_one q path 0
    else
      let! dir := sys (Opendir path) in
      match dir with
      | inl _ => push_one q path 0
      | inr entries =>
        let! (enqueued, q) := mfor entries (0, q) (enqueue_entry rec path depth) in
        if enqueued <? 0 then ret (-1, q)
        else if enqueued =? 0 then push_one q path 0
        else ret (enqueued, q)
      end
  end.

Definition enqueue_promote_tasks (q : task_queue) (path : cstr) (depth max_depth : Z) : M W (Z * task_queue) :=
  walk (-1, q) (enqueue_promote_body max_depth) path (q, depth).

Definition promote_task (_ : unit) (t : task_entry) : M W unit := promote_tree_opendir (te_path t).

Definition promote_worker_thread (q : task_queue) : M W (unit * task_queue) :=
  set_promote_low_priority ;; worker_loop q tt promote_task.

(** The first level of the scan. *)
Definition promote_scan (mountpoint : cstr) (q : task_queue) : M W task_queue :=
  let! dir := sys (Opendir mountpoint) in
  match dir with
  | inl _ => ret q
  | inr entries =>
    mfor entries q (λ q entry,
      if promote_skip (d_name entry) then ret (Continue q)
      else
        match child_path mountpoint (d_name entry) with
        | None => ret (Continue q)
        | Some child =>
          let! (rc, q) := enqueue_promote_tasks q child 1 TASK_ENQUEUE_LEVELS in
          ret (if rc <? 0 then Break q else Continue q)
        end)
  end.

Definition promote_dispatch (q : task_queue) : M W unit :=
  let! cpu_count := worker_count (q_total q) in
  let! workers := try Alloc in
  let! worker_started := try Alloc in
  if negb workers || negb worker_started then meach (q_tasks q) tt promote_task
  else
    let! started := start_workers ThPromoteWorker cpu_count in
    if started =? 0 then meach (q_tasks q) tt promote_task
    else let! _ := promote_worker_thread q in ret tt.

Definition promote_mountpoint_thread (mountpoint : cstr) : M W unit :=
  set_promote_low_priority ;;
  let! _ := call Nprocessors in
  let! ok := try Alloc in
  if negb ok then ret tt
  else
    let! q := promote_scan mountpoint task_queue_init in
    if 0 <? q_total q then promote_dispatch q else ret tt.

Definition daemon_promote_mountpoint_async (mountpoint : cstr) : M W Z :=
  if negb (nonempty mountpoint) then ret (- EINVAL)
  else
    let! ok := try Alloc in
    if negb ok then ret (- ENOMEM)
    else
      let! rc := call (PthreadCreate (ThPromoteMountpoint (fit 2048 mountpoint))) in
      if negb (rc =? 0) then
        let! saved := get_errno in ret (- saved)
      else ret 0.
End promote.

(** * Lemmas *)

Section promote_lemmas.
Context {W : Type} {K : Kernel W}.
Implicit Types s : dstate W.

Lemma promote_tree_extensional : extensional_body (promote_tree_body (K := K)).
Proof.
  intros r1 r2 path [] s H. unfold promote_tree_body, bind.
  destruct (sys (Lstat path) s) as [[e|st] s1]; [done|]. destruct (negb (st_isdir st)); [done|].
  destruct (sys (Opendir path) s1) as [[e|entries] s2]; [done|].
  destruct (sys (Lsetxattr path PROMOTE_DIR (lit "1")) s2) as [r s3].
  apply meach_ext. intros [] x s4 _. unfold promote_entry. destruct (promote_skip (d_name x)); [done|].
  destruct (child_path path (d_name x)) as [child|] eqn:Ec; [|done].
  apply child_path_Some in Ec as [_ Hc]. unfold bind. destruct (entry_is_dir child (d_type x) s4) as [[] s5]; [|done].
  by apply H.
Qed.

Lemma enqueue_promote_extensional max : extensional_body (enqueue_promote_body (K := K) max).
Proof.
  intros r1 r2 path [q depth] s H. unfold enqueue_promote_body, bind.
  destruct (sys (Lstat path) s) as [[e|st] s1]; [done|]. destruct (_ || _); [done|].
  destruct (sys (Opendir path) s1) as [[e|entries] s2]; [done|].
  rewrite (mfor_ext entries (0, q) (enqueue_entry r1 path depth) (enqueue_entry r2 path depth)); [done|].
  intros [enqueued q'] x s3 _. unfold enqueue_entry. destruct (promote_skip (d_name x)); [done|].
  destruct (child_path path (d_name x)) as [child|] eqn:Ec; [|done].
  apply child_path_Some in Ec as [_ Hc]. unfold bind. by rewrite H.
Qed.

(** What promotion may change: the promotion attributes of paths below the
    root, outside [.git]. *)
Definition promotes (root : cstr) (e : event) : Prop :=
  ∀ p, p ∈ modifies e → reach promote_skip root p ∧
    ∃ r, e = Ev (Lsetxattr p PROMOTE_FILE (lit "1")) r ∨ e = Ev (Lsetxattr p PROMOTE_DIR (lit "1")) r.

Lemma promotes_nothing root e : modifies e = [] → promotes root e.
Proof. unfold promotes. intros -> p Hp. by apply not_elem_of_nil in Hp. Qed.
Lemma promotes_attr root p k r :
  reach promote_skip root p → k = PROMOTE_FILE ∨ k = PROMOTE_DIR → promotes root (Ev (Lsetxattr p k (lit "1")) r).
Proof.
  intros Hp Hk q Hq. apply list_elem_of_singleton in Hq as ->. split; [done|]. exists r. by destruct Hk as [-> | ->]; [left|right].
Qed.
Hint Resolve promotes_nothing promotes_attr : core.

Lemma promote_file_promotes root p :
  reach promote_skip root p → respects (emits (promotes root)) (promote_file p).
Proof. intros H. unfold promote_file. respects; auto. Qed.

Lemma entry_is_dir_promotes root p t : respects (emits (promotes root)) (entry_is_dir p t).
Proof. unfold entry_is_dir. respects; auto. Qed.

Lemma promote_tree_promotes root path :
  reach promote_skip root path → respects (emits (promotes root)) (promote_tree_opendir path).
Proof.
  revert path. apply (path_induction (λ path, reach promote_skip root path → _)). intros path IH Hb s.
  unfold promote_tree_opendir. rewrite walk_unfold by apply promote_tree_extensional. revert s.
  change (respects (emits (promotes root)) (promote_tree_body (walk tt promote_tree_body) path tt)).
  unfold promote_tree_body at 1. pose proof (promote_file_promotes root). pose proof (entry_is_dir_promotes root).
  respects; auto. unfold promote_entry. destruct (promote_skip (d_name x)) eqn:Ed; [respects|].
  destruct (child_path path (d_name x)) as [child|] eqn:Ec; [|respects].
  pose proof (reach_child _ _ _ _ _ Hb Ed Ec) as Hbc. apply child_path_Some in Ec as [_ Hc].
  pose proof (IH child Hc Hbc) as Hrec. unfold promote_tree_opendir in Hrec. respects.
Qed.

(** Every task of a queue is below the root. *)
Definition tasks_below (skip : cstr → bool) (root : cstr) (q : task_queue) : Prop :=
  Forall (λ t, reach skip root (te_path t)) (q_tasks q).

Lemma push_one_below skip root q path uid s :
  tasks_below skip root q → reach skip root path → slen path < 4096 →
  wp (push_one q path uid) (λ '(_, q') _, tasks_below skip root q') s.
Proof.
  intros Hq Hp Hl. unfold push_one. apply wp_bind. eapply wp_mono.
  { apply (queue_push_forall (λ t, reach skip root (te_path t))); [done|]. simpl. by rewrite fit_id. }
  intros [rc q'] s' Hq'. by apply wp_ret.
Qed.

Lemma push_one_promotes root q path uid : respects (emits (promotes root)) (push_one q path uid).
Proof. unfold push_one, task_queue_push, queue_push. respects; auto. Qed.

Lemma enqueue_promote_below root max q path depth s :
  tasks_below promote_skip root q → reach promote_skip root path → slen path < 4096 →
  wp (enqueue_promote_tasks q path depth max) (λ '(_, q') _, tasks_below promote_skip root q') s.
Proof.
  unfold enqueue_promote_tasks. intros Hq Hb Hl.
  generalize (-1, q) as d. intros d. revert q depth Hq Hb Hl s. pattern path. revert path.
  apply path_induction. intros path IH q depth Hq Hb Hl s.
  eapply wp_eq; [apply walk_unfold, enqueue_promote_extensional|].
  unfold enqueue_promote_body at 1. pose proof (push_one_below promote_skip root q path 0) as Hpush.
  apply wp_bind, wp_run. destruct (sys (Lstat path) s) as [[e|st] s1]; simpl; [by apply wp_ret|].
  destruct (_ || _); [by apply Hpush|].
  apply wp_bind, wp_run. destruct (sys (Opendir path) s1) as [[e|entries] s2]; simpl; [by apply Hpush|].
  apply wp_bind. apply (wp_mfor (λ _ '(_, q') _, tasks_below promote_skip root q')); [done| |].
  - intros done x rest [n q'] s3 _ Hq'. unfold enqueue_entry. destruct (promote_skip (d_name x)) eqn:Ed; [by apply wp_ret|].
    destruct (child_path path (d_name x)) as [child|] eqn:Ec; [|by apply wp_ret].
    pose proof (reach_child _ _ _ _ _ Hb Ed Ec) as Hbc. apply child_path_Some in Ec as [_ Hc].
    apply wp_bind. eapply wp_mono; [apply IH; unfold PATH_SIZE in *; (done || lia)|].
    intros [rc q''] s4 Hq''. apply wp_ret. by destruct (rc <? 0).
  - intros [n q'] s3 Hq'. destruct (n <? 0); [by apply wp_ret|]. destruct (n =? 0); [|by apply wp_ret].
    by apply push_one_below.
Qed.

Lemma enqueue_promote_promotes root max q path depth :
  respects (emits (promotes root)) (enqueue_promote_tasks q path depth max).
Proof.
  unfold enqueue_promote_tasks. generalize (-1, q) as d. intros d. revert q depth. pattern path. revert path.
  apply path_induction. intros path IH q depth s.
  rewrite walk_unfold by apply enqueue_promote_extensional. revert s.
  change (respects (emits (promotes root)) (enqueue_promote_body max (walk d (enqueue_promote_body max)) path (q, depth))).
  unfold enqueue_promote_body at 1. pose proof (push_one_promotes root) as Hpush.
  respects; auto.
  match goal with |- respects _ (enqueue_entry _ _ _ ?acc ?x) => destruct acc as [n q'], x as [name t] end.
  unfold enqueue_entry. destruct (promote_skip _); [respects|]. cbn [d_name].
  destruct (child_path path name) as [child|] eqn:Ec; [|respects].
  apply child_path_Some in Ec as [_ Hc]. pose proof (IH child Hc) as Hrec. respects.
Qed.

Lemma promote_scan_ok root :
  slen root < 4096 →
  respects (emits (promotes root)) (promote_scan root task_queue_init) ∧
  ∀ s, wp (promote_scan root task_queue_init) (λ q _, tasks_below promote_skip root q) s.
Proof.
  intros Hl. pose proof (enqueue_promote_promotes root) as He. split.
  - unfold promote_scan. respects; auto.
  - intros s. unfold promote_scan. apply wp_bind, wp_run. destruct (sys (Opendir root) s) as [[e|entries] s1]; simpl.
    { by apply wp_ret, Forall_nil_2. }
    apply (wp_mfor (λ _ q _, tasks_below promote_skip root q)); [by apply Forall_nil_2| |done].
    intros done x rest q s2 _ Hq. destruct (promote_skip (d_name x)) eqn:Ed; [by apply wp_ret|].
    destruct (child_path root (d_name x)) as [child|] eqn:Ec; [|by apply wp_ret].
    pose proof (reach_child _ _ _ _ _ (reach_refl promote_skip root) Ed Ec) as Hbc. apply child_path_Some in Ec as [_ Hc].
    apply wp_bind. eapply wp_mono; [apply enqueue_promote_below; unfold PATH_SIZE in *; (done || lia)|].
    intros [rc q'] s3 Hq'. apply wp_ret. by destruct (rc <? 0).
Qed.

Lemma promote_task_promotes root q u t :
  tasks_below promote_skip root q → t ∈ q_tasks q → respects (emits (promotes root)) (promote_task u t).
Proof.
  intros Hq Ht. unfold tasks_below in Hq. rewrite Forall_forall in Hq.
  by apply promote_tree_promotes, Hq.
Qed.

Lemma promote_dispatch_promotes root q :
  tasks_below promote_skip root q → respects (emits (promotes root)) (promote_dispatch q).
Proof.
  intros Hq. pose proof (promote_task_promotes root q) as Ht.
  assert (respects (emits (promotes root)) (meach (q_tasks q) tt promote_task)) as Hall.
  { apply respects_meach; [apply _|]. intros u t Hin. by apply Ht. }
  assert (respects (emits (promotes root)) (promote_worker_thread q)) as Hworker.
  { unfold promote_worker_thread, set_promote_low_priority. respects; auto.
    apply respects_worker_loop; [apply _|]. intros u t' Hin. by apply Ht. }
  unfold promote_dispatch, worker_count, start_workers. respects; auto.
Qed.


Lemma statics_promote_async mountpoint : respects (keeps statics) (daemon_promote_mountpoint_async mountpoint).
Proof. unfold daemon_promote_mountpoint_async. respects. Qed.
End promote_lemmas.
#[export] Hint Resolve statics_promote_async : frame.

Definition promote_sim : sim :=
  Sim [lit "/b"; lit "/b/sb1"; lit "/b/sb1/src"; lit "/b/sb1/.git"] [(lit "/b/sb1/src/a.c", []); (lit "/b/sb1/.git/HEAD", [])] [] 1000.

Example promote_run :
  concat (map modifies (trace (snd (promote_mountpoint_thread (K := sim_kernel) (lit "/b/sb1") (sim_state promote_sim [] zero_config))))) =
    [lit "/b/sb1/src/a.c"].
Proof. by vm_compute. Qed.

