(* ===== verification/Ownership.v ===== *)
(** * Fixing the ownership of a sandbox

    Models [mbroker/daemon/ownership.c]: after a mount with [--chown-owner], a
    thread gives every entry of the sandbox to the owner of its mount point,
    with the same task queue as [Promote].  Names are resolved relative to
    directory descriptors opened with [O_NOFOLLOW]. *)
From S2P Require Import Prelude CString Protocol Config MountTable OS SimKernel Walk TaskQueue Promote.
Open Scope Z_scope.

Record chown_cycle_stats := ChownCycleStats {
  files_seen : Z; dirs_seen : Z; changed : Z; errors : Z; race_skips : Z
}.
Definition zero_stats : chown_cycle_stats := ChownCycleStats 0 0 0 0 0.

(** [__sync_fetch_and_add(&stats->field, 1)] on an [unsigned long]. *)
Definition add_files_seen s := ChownCycleStats (to_uint64 (files_seen s + 1)) (dirs_seen s) (changed s) (errors s) (race_skips s).
Definition add_dirs_seen s := ChownCycleStats (files_seen s) (to_uint64 (dirs_seen s + 1)) (changed s) (errors s) (race_skips s).
Definition add_changed s := ChownCycleStats (files_seen s) (dirs_seen s) (to_uint64 (changed s + 1)) (errors s) (race_skips s).
Definition add_errors s := ChownCycleStats (files_seen s) (dirs_seen s) (changed s) (to_uint64 (errors s + 1)) (race_skips s).
Definition add_race_skips s := ChownCycleStats (files_seen s) (dirs_seen s) (changed s) (errors s) (to_uint64 (race_skips s + 1)).

Definition is_expected_chown_race_errno (err : Z) : bool :=
  (err =? ENOENT) || (err =? ENOTDIR) || (err =? ESTALE).

(** The error numbers that are not counted as errors. *)
Definition is_permission_errno (err : Z) : bool := (err =? EPERM) || (err =? EROFS) || (err =? ENOTSUP).

(** [(gid_t)-1]. *)
Definition GID_KEEP : Z := to_uint32 (-1).

Section ownership.
Context {W : Type} {K : Kernel W}.

Definition set_chown_low_priority : M W unit :=
  let! _ := sys (Setpriority 15) in ret tt.

Definition chown_self (dfd uid : Z) (stats : chown_cycle_stats) : M W chown_cycle_stats :=
  let! r := sys (FchownEmpty dfd uid) in
  ret (match r with
       | inl e =>
         if is_expected_chown_race_errno e then add_race_skips stats
         else if negb (is_permission_errno e) then add_errors stats else stats
       | inr _ => add_changed stats
       end).

(** [is_dir] of an entry, by its [d_type] or [fstatat]. *)
Definition fd_entry_is_dir (dfd : Z) (entry : dirent) : M W bool :=
  match d_type entry with
  | DT_DIR => ret true
  | DT_UNKNOWN =>
    let! r := sys (Fstatat dfd (d_name entry)) in
    ret (match r with inr cst => st_isdir cst | inl _ => false end)
  | DT_OTHER => ret false
  end.

Definition chown_entry (rec : cstr → chown_cycle_stats → M W chown_cycle_stats) (dirpath : cstr) (dfd uid : Z)
    (stats : chown_cycle_stats) (entry : dirent) : M W chown_cycle_stats :=
  if is_dot (d_name entry) then ret stats
  else
    let! r := sys (Fchownat dfd (d_name entry) uid) in
    match r with
    | inl e =>
      ret (if is_expected_chown_race_errno e then add_race_skips stats
           else if negb (is_permission_errno e) then add_errors stats else stats)
    | inr _ =>
      let stats := add_changed stats in
      let! is_dir := fd_entry_is_dir dfd entry in
      if is_dir then
        match child_path dirpath (d_name entry) with
        | Some child => rec child stats
        | None => ret stats
        end
      else ret (add_files_seen stats)
    end.

Definition chown_tree_body (uid : Z) (rec : cstr → chown_cycle_stats → M W chown_cycle_stats) (dirpath : cstr)
    (stats : chown_cycle_stats) : M W chown_cycle_stats :=
  let! r := sys (OpenDirNofollow dirpath) in
  match r with
  | inl e => ret (if is_expected_chown_race_errno e then add_race_skips stats else add_errors stats)
  | inr dfd =>
    let! stats := chown_self dfd uid stats in
    let stats := add_dirs_seen stats in
    let! dir := sys (Fdopendir dfd) in
    match dir with
    | inl _ => let! _ := sys (Close dfd) in ret stats
    | inr entries =>
      let! stats := meach entries stats (chown_entry rec dirpath dfd uid) in
      let! _ := sys (Close dfd) in ret stats
    end
  end.

Definition chown_tree_fchownat (dirpath : cstr) (uid : Z) (stats : chown_cycle_stats) : M W chown_cycle_stats :=
  walk stats (chown_tree_body uid) dirpath stats.

(** The immediate ownership fix of a directory met while splitting. *)
Definition chown_dir_now (path : cstr) (uid : Z) (st : stat_t) : M W unit :=
  if st_isdir st && negb (st_uid st =? uid) then
    let! _ := sys (Lchown path uid GID_KEEP) in ret tt
  else ret tt.

Definition enqueue_chown_entry (rec : cstr → task_queue * Z → M W (Z * task_queue)) (path : cstr) (depth : Z)
    (acc : Z * task_queue) (entry : dirent) : M W (loop (Z * task_queue)) :=
  let '(enqueued, q) := acc in
  if is_dot (d_name entry) then ret (Continue acc)
  else
    match child_path path (d_name entry) with
    | None => ret (Continue acc)
    | Some child =>
      let! (rc, q) := rec child (q, depth + 1) in
      ret (if rc <? 0 then Break (-1, q) else Continue (enqueued + rc, q))
    end.

Definition enqueue_chown_body (uid max_depth : Z) (rec : cstr → task_queue * Z → M W (Z * task_queue))
    (path : cstr) (x : task_queue * Z) : M W (Z * task_queue) :=
  let '(q, depth) := x in
  let! st := sys (Lstat path) in
  match st with
  | inl _ => ret (0, q)
  | inr st =>
    chown_dir_now path uid st ;;
    if negb (st_isdir st) || (max_depth <=? depth) then push_one q path uid
    else
      let! dir := sys (Opendir path) in
      match dir with
      | inl _ => push_one q path uid
      | inr entries =>
        let! (enqueued, q) := mfor entries (0, q) (enqueue_chown_entry rec path depth) in
        if enqueued <? 0 then ret (-1, q)
        else if enqueued =? 0 then push_one q path uid
        else ret (enqueued, q)
      end
  end.

Definition enqueue_chown_tasks_up_to_depth (q : task_queue) (path : cstr) (uid depth max_depth : Z) : M W (Z * task_queue) :=
  walk (-1, q) (enqueue_chown_body uid max_depth) path (q, depth).

(** A worker uses the uid stored in the task. *)
Definition chown_task (stats : chown_cycle_stats) (t : task_entry) : M W chown_cycle_stats :=
  chown_tree_fchownat (te_path t) (te_uid t) stats.

Definition chown_worker_thread (q : task_queue) (stats : chown_cycle_stats) : M W (chown_cycle_stats * task_queue) :=
  set_chown_low_priority ;; worker_loop q stats chown_task.

Definition chown_scan_entry (mountpoint : cstr) (uid : Z) (q : task_queue) (entry : dirent) : M W (loop task_queue) :=
  if is_dot (d_name entry) then ret (Continue q)
  else
    match child_path mountpoint (d_name entry) with
    | None => ret (Continue q)
    | Some child =>
      let! (rc, q) := enqueue_chown_tasks_up_to_depth q child uid 1 TASK_ENQUEUE_LEVELS in
      ret (if rc <? 0 then Break q else Continue q)
    end.

Definition chown_scan (mountpoint : cstr) (uid : Z) (q : task_queue) : M W task_queue :=
  let! dir := sys (Opendir mountpoint) in
  match dir with
  | inl _ => ret q
  | inr entries => mfor entries q (chown_scan_entry mountpoint uid)
  end.

Definition chown_all (q : task_queue) (uid : Z) (stats : chown_cycle_stats) : M W chown_cycle_stats :=
  meach (q_tasks q) stats (λ stats t, chown_tree_fchownat (te_path t) uid stats).

Definition chown_dispatch (q : task_queue) (uid : Z) (stats : chown_cycle_stats) : M W chown_cycle_stats :=
  let! cpu_count := worker_count (q_total q) in
  let! workers := try Alloc in
  let! worker_started := try Alloc in
  if negb workers || negb worker_started then chown_all q uid stats
  else
    let! started := start_workers ThChownWorker cpu_count in
    if started =? 0 then chown_all q uid stats
    else let! (stats, _) := chown_worker_thread q stats in ret stats.

(** The statistics that are logged at the end; [None] when skipped. *)
Definition chown_owner_thread (mountpoint : cstr) : M W (option chown_cycle_stats) :=
  set_chown_low_priority ;;
  let! st := sys (StatPath mountpoint) in
  match st with
  | inl _ => ret None
  | inr st =>
    if st_uid st =? 0 then ret None
    else
      let! _ := sys (Lchown mountpoint (st_uid st) GID_KEEP) in
      let! _ := call Nprocessors in
      let! ok := try Alloc in
      if negb ok then ret None
      else
        let! q := chown_scan mountpoint (st_uid st) task_queue_init in
        if 0 <? q_total q then
          let! stats := chown_dispatch q (st_uid st) zero_stats in ret (Some stats)
        else ret (Some zero_stats)
  end.

Definition daemon_chown_owner_mountpoint_async (mountpoint : cstr) : M W Z :=
  if negb (nonempty mountpoint) then ret (- EINVAL)
  else
    let! ok := try Alloc in
    if negb ok then ret (- ENOMEM)
    else
      let! rc := call (PthreadCreate (ThChownOwner (fit 2048 mountpoint))) in
      if negb (rc =? 0) then
        let! saved := get_errno in ret (- saved)
      else ret 0.
End ownership.

(** * Lemmas *)

Section ownership_lemmas.
Context {W : Type} {K : Kernel W}.
Implicit Types s : dstate W.

Lemma chown_entry_ext (r1 r2 : cstr → chown_cycle_stats → M W chown_cycle_stats) path dfd uid b e s :
  (∀ child y s', slen path < slen child < PATH_SIZE → r1 child y s' = r2 child y s') →
  chown_entry r1 path dfd uid b e s = chown_entry r2 path dfd uid b e s.
Proof.
  intros H. unfold chown_entry. destruct (is_dot (d_name e)); [done|]. unfold bind.
  destruct (sys _ s) as [[er|u] s1]; [done|]. destruct (fd_entry_is_dir dfd e s1) as [[] s2]; [|done].
  destruct (child_path path (d_name e)) as [child|] eqn:Ec; [|done].
  apply child_path_Some in Ec as [_ Hc]. by apply H.
Qed.

Lemma chown_tree_extensional uid : extensional_body (chown_tree_body (K := K) uid).
Proof.
  intros r1 r2 path stats s H. unfold chown_tree_body, bind.
  destruct (sys (OpenDirNofollow path) s) as [[e|dfd] s1]; [done|].
  destruct (chown_self dfd uid stats s1) as [st2 s2]. destruct (sys (Fdopendir dfd) s2) as [[e|entries] s3]; [done|].
  rewrite (meach_ext entries _ (chown_entry r1 path dfd uid) (chown_entry r2 path dfd uid)); [done|].
  intros b x s4 _. by apply chown_entry_ext.
Qed.

Lemma chown_tree_unfold path uid stats s :
  chown_tree_fchownat path uid stats s = chown_tree_body uid (λ c, chown_tree_fchownat c uid) path stats s.
Proof.
  assert (∀ d1 d2 f path x s, (Z.to_nat (PATH_SIZE - slen path) < f)%nat →
    walk_fuel d1 (chown_tree_body uid) f path x s = walk_fuel d2 (chown_tree_body (K := K) uid) f path x s) as Hd.
  { intros d1 d2 f. induction f as [|f IH]; intros p x s' Hf; [lia|]. cbn [walk_fuel].
    apply chown_tree_extensional. intros child y s2 Hc. apply IH. lia. }
  unfold chown_tree_fchownat at 1. rewrite walk_unfold by apply chown_tree_extensional.
  apply chown_tree_extensional. intros child y s' _. unfold chown_tree_fchownat, walk. apply Hd. lia.
Qed.

Lemma enqueue_chown_extensional uid max : extensional_body (enqueue_chown_body (K := K) uid max).
Proof.
  intros r1 r2 path [q depth] s H. unfold enqueue_chown_body, bind.
  destruct (sys (Lstat path) s) as [[e|st] s1]; [done|].
  destruct (chown_dir_now path uid st s1) as [u s2]. destruct (_ || _); [done|].
  destruct (sys (Opendir path) s2) as [[e|entries] s3]; [done|].
  rewrite (mfor_ext entries (0, q) (enqueue_chown_entry r1 path depth) (enqueue_chown_entry r2 path depth)); [done|].
  intros [enqueued q'] x s4 _. unfold enqueue_chown_entry. destruct (is_dot (d_name x)); [done|].
  destruct (child_path path (d_name x)) as [child|] eqn:Ec; [|done].
  apply child_path_Some in Ec as [_ Hc]. unfold bind. by rewrite H.
Qed.

(** ** Accounting *)

(** What a call counts for: changed, errors, skipped races. *)
Definition outcome (e : event) : Z * Z * Z :=
  let 'Ev c r := e in
  let failure e := if is_expected_chown_race_errno e then (0, 0, 1)
                   else if negb (is_permission_errno e) then (0, 1, 0) else (0, 0, 0) in
  match c in syscall A return A → Z * Z * Z with
  | OpenDirNofollow _ => λ r, match r with
      | inl e => if is_expected_chown_race_errno e then (0, 0, 1) else (0, 1, 0) | inr _ => (0, 0, 0) end
  | FchownEmpty _ _ => λ r, match r with inl e => failure e | inr _ => (1, 0, 0) end
  | Fchownat _ _ _ => λ r, match r with inl e => failure e | inr _ => (1, 0, 0) end
  | _ => λ _, (0, 0, 0)
  end r.
Definition total3 (a b : Z * Z * Z) : Z * Z * Z :=
  let '(x1, y1, z1) := a in let '(x2, y2, z2) := b in (x1 + x2, y1 + y2, z1 + z2).
Definition tally (l : list event) : Z * Z * Z := foldr (λ e, total3 (outcome e)) (0, 0, 0) l.

Lemma tally_app a b : tally (a ++ b) = total3 (tally a) (tally b).
Proof.
  induction a as [|e a IH]; simpl.
  - by destruct (tally b) as [[? ?] ?].
  - rewrite IH. destruct (outcome e) as [[? ?] ?], (tally a) as [[? ?] ?], (tally b) as [[? ?] ?].
    unfold total3. by rewrite !Z.add_assoc.
Qed.

(** The three counters are those of [stats0] plus what the calls since [s0] count for. *)
Definition accounted (stats0 : chown_cycle_stats) (s0 : dstate W) (stats : chown_cycle_stats) s : Prop :=
  ∃ l, trace s = trace s0 ++ l ∧
    let '(c, e, r) := tally l in
    changed stats mod 2 ^ 64 = (changed stats0 + c) mod 2 ^ 64 ∧
    errors stats mod 2 ^ 64 = (errors stats0 + e) mod 2 ^ 64 ∧
    race_skips stats mod 2 ^ 64 = (race_skips stats0 + r) mod 2 ^ 64.

Lemma accounted_refl stats s : accounted stats s stats s.
Proof. exists []. rewrite app_nil_r. simpl. by rewrite !Z.add_0_r. Qed.

(** A step whose counters move by what its calls count for. *)
Lemma accounted_step stats0 s0 stats s stats' s' l :
  accounted stats0 s0 stats s → trace s' = trace s ++ l →
  (let '(c, e, r) := tally l in
   changed stats' mod 2 ^ 64 = (changed stats + c) mod 2 ^ 64 ∧
   errors stats' mod 2 ^ 64 = (errors stats + e) mod 2 ^ 64 ∧
   race_skips stats' mod 2 ^ 64 = (race_skips stats + r) mod 2 ^ 64) →
  accounted stats0 s0 stats' s'.
Proof.
  intros (l0 & Ht & H0) Ht' H. exists (l0 ++ l). split; [by rewrite Ht', Ht, app_assoc|].
  rewrite tally_app. destruct (tally l0) as [[c0 e0] r0], (tally l) as [[c e] r]. simpl.
  destruct H0 as (C0 & E0 & R0), H as (C & E & R).
  rewrite C, E, R. split_and!; rewrite Z.add_assoc; 
    rewrite <- Zplus_mod_idemp_l, ?C0, ?E0, ?R0, Zplus_mod_idemp_l; done.
Qed.

Lemma to_uint64_mod z : to_uint64 z mod 2 ^ 64 = z mod 2 ^ 64.
Proof. unfold to_uint64. by rewrite Z.mod_mod. Qed.

Lemma accounted_same stats0 s0 stats s stats' s' l :
  accounted stats0 s0 stats s → trace s' = trace s ++ l → tally l = (0, 0, 0) →
  changed stats' = changed stats → errors stats' = errors stats → race_skips stats' = race_skips stats →
  accounted stats0 s0 stats' s'.
Proof. intros H Ht Hl Hc He Hr. eapply accounted_step; [done|done|]. rewrite Hl, Hc, He, Hr, !Z.add_0_r. done. Qed.

Ltac counters := unfold add_changed, add_errors, add_race_skips; simpl; rewrite ?to_uint64_mod, ?Z.add_0_r; try done.

Lemma wp_chown_self dfd uid stats0 s0 stats s :
  accounted stats0 s0 stats s →
  wp (chown_self dfd uid stats) (λ stats' s', accounted stats0 s0 stats' s') s.
Proof.
  intros H. unfold chown_self. apply wp_bind, wp_sys. intros r s1 _ _ _ Ht. apply wp_ret.
  eapply accounted_step; [done|done|]. unfold tally. simpl.
  destruct r as [e|u]; simpl; [|by counters].
  destruct (is_expected_chown_race_errno e); simpl; [by counters|].
  destruct (negb (is_permission_errno e)); simpl; by counters.
Qed.

Lemma wp_chown_entry (rec : cstr → chown_cycle_stats → M W chown_cycle_stats) path dfd uid stats0 s0 stats e s :
  (∀ child stats s, slen path < slen child < PATH_SIZE → accounted stats0 s0 stats s →
     wp (rec child stats) (λ stats' s', accounted stats0 s0 stats' s') s) →
  accounted stats0 s0 stats s →
  wp (chown_entry rec path dfd uid stats e) (λ stats' s', accounted stats0 s0 stats' s') s.
Proof.
  intros Hrec H. unfold chown_entry. destruct (is_dot (d_name e)); [by apply wp_ret|].
  apply wp_bind, wp_sys. intros r s1 _ _ _ Ht.
  assert (∀ stats', (let '(c, er, ra) := outcome (Ev (Fchownat dfd (d_name e) uid) r) in
    changed stats' mod 2 ^ 64 = (changed stats + c) mod 2 ^ 64 ∧
    errors stats' mod 2 ^ 64 = (errors stats + er) mod 2 ^ 64 ∧
    race_skips stats' mod 2 ^ 64 = (race_skips stats + ra) mod 2 ^ 64) → accounted stats0 s0 stats' s1) as Hstep.
  { intros stats' Hs. eapply accounted_step; [done|done|]. unfold tally. cbn [foldr].
    destruct (outcome _) as [[c er] ra]. simpl. by counters. }
  destruct r as [er|u].
  - apply wp_ret, Hstep. simpl. destruct (is_expected_chown_race_errno er); simpl; [by counters|].
    destruct (negb (is_permission_errno er)); simpl; by counters.
  - assert (accounted stats0 s0 (add_changed stats) s1) as H1.
    { apply Hstep. simpl. by counters. }
    apply wp_bind. apply (wp_mono _ (λ _ s', accounted stats0 s0 (add_changed stats) s')).
    { unfold fd_entry_is_dir. destruct (d_type e); [by apply wp_ret| |by apply wp_ret].
      apply wp_bind, wp_sys. intros r s2 _ _ _ Ht2. apply wp_ret. by eapply accounted_same. }
    intros [] s2 H2; [|by apply wp_ret; eapply (accounted_same _ _ _ _ _ _ []); [done|by rewrite app_nil_r|done..]].
    destruct (child_path path (d_name e)) as [child|] eqn:Ec; [|by apply wp_ret].
    apply child_path_Some in Ec as [_ Hc]. by apply Hrec.
Qed.

Lemma wp_chown_tree uid stats s path : ∀ st s1,
  accounted stats s st s1 →
  wp (chown_tree_fchownat path uid st) (λ stats' s', accounted stats s stats' s') s1.
Proof.
  pattern path. revert path. apply path_induction. intros path IH st s1 H.
  eapply wp_eq; [apply chown_tree_unfold|]. unfold chown_tree_body.
  apply wp_bind, wp_sys. intros r s2 _ _ _ Ht.
  assert (∀ st', (let '(c, er, ra) := outcome (Ev (OpenDirNofollow path) r) in
    changed st' mod 2 ^ 64 = (changed st + c) mod 2 ^ 64 ∧ errors st' mod 2 ^ 64 = (errors st + er) mod 2 ^ 64 ∧
    race_skips st' mod 2 ^ 64 = (race_skips st + ra) mod 2 ^ 64) → accounted stats s st' s2) as Hstep.
  { intros st' Hs. eapply accounted_step; [done|done|]. unfold tally. cbn [foldr].
    destruct (outcome _) as [[c er] ra]. simpl. by counters. }
  destruct r as [er|dfd].
  { apply wp_ret, Hstep. simpl. destruct (is_expected_chown_race_errno er); simpl; by counters. }
  apply wp_bind. eapply wp_mono; [apply wp_chown_self, Hstep; simpl; by counters|]. intros st3 s3 H3.
  assert (accounted stats s (add_dirs_seen st3) s3) as H3' by
    (eapply (accounted_same _ _ _ _ _ _ []); [exact H3|by rewrite app_nil_r|done..]).
  apply wp_bind, wp_sys. intros dir s4 _ _ _ Ht4.
  assert (accounted stats s (add_dirs_seen st3) s4) as H4 by (by eapply accounted_same).
  destruct dir as [er|entries].
  { apply wp_bind, wp_sys. intros r5 s5 _ _ _ Ht5. apply wp_ret. by eapply accounted_same. }
  apply wp_bind. apply (wp_meach (λ _ st' s', accounted stats s st' s')); [done| |].
  - intros done x rest st' s' _ Hs'. apply wp_chown_entry; [|done]. intros child st'' s'' Hc Hs''. by apply IH.
  - intros st' s' Hs'. apply wp_bind, wp_sys. intros r5 s5 _ _ _ Ht5. apply wp_ret. by eapply accounted_same.
Qed.

(** Every ownership change is accounted for.  When
    [chown_tree_fchownat] returns, the counters [changed], [errors] and
    [race_skips] have grown, modulo 2^64, by exactly the number of calls in
    the whole tree that succeeded, failed, and failed because an entry
    disappeared; failures for lack of permission count for nothing. *)
Theorem chown_tree_accounting path uid stats s :
  wp (chown_tree_fchownat path uid stats) (λ stats' s', accounted stats s stats' s') s.
Proof.
  apply wp_chown_tree, accounted_refl.
Qed.
End ownership_lemmas.

(** ** Confinement *)

Section ownership_confined.
Context {W : Type} {K : Kernel W}.
Implicit Types s : dstate W.

(** What fixing the ownership of the tree below [root] for [uid] may call. *)
Definition owner_event (root : cstr) (uid : Z) (e : event) : Prop :=
  let 'Ev c r := e in
  match c with
  | Lchown p u g => below root p ∧ u = uid ∧ g = GID_KEEP
  | OpenDirNofollow p => below root p
  | FchownEmpty _ u => u = uid
  | Fchownat _ name u => is_dot name = false ∧ u = uid
  | Setpriority _ => True
  | PthreadCreate t => t = ThChownWorker
  | _ => readonly e = true
  end.

(** Calls that look and change nothing but the thread's own priority. *)
Definition quiet_event (e : event) : Prop :=
  let 'Ev c r := e in match c with Setpriority _ => True | OpenDirNofollow _ => False | _ => readonly e = true end.

Lemma quiet_owner_event root uid e : quiet_event e → owner_event root uid e.
Proof. destruct e as [A c r]. by destruct c. Qed.

Lemma chown_self_events root dfd uid stats : respects (emits (owner_event root uid)) (chown_self dfd uid stats).
Proof. unfold chown_self. respects; done. Qed.

Lemma chown_tree_events root uid path : ∀ stats,
  below root path → respects (emits (owner_event root uid)) (chown_tree_fchownat path uid stats).
Proof.
  pattern path. revert path. apply path_induction. intros path IH stats Hb s.
  rewrite chown_tree_unfold. revert s.
  change (respects (emits (owner_event root uid)) (chown_tree_body uid (λ c, chown_tree_fchownat c uid) path stats)).
  unfold chown_tree_body. pose proof (chown_self_events root) as Hself. respects; try done.
  unfold chown_entry, fd_entry_is_dir. destruct (is_dot _) eqn:Ed; [respects|].
  destruct (child_path path _) as [child|] eqn:Ec.
  - pose proof (below_child _ _ _ _ Hb Ed Ec) as Hbc. apply child_path_Some in Ec as [_ Hc].
    pose proof (λ st, IH child Hc st Hbc) as Hrec. respects; done.
  - respects; done.
Qed.

Lemma push_one_events root uid q path u : respects (emits (owner_event root uid)) (push_one q path u).
Proof. unfold push_one, task_queue_push, queue_push. respects; done. Qed.

Lemma enqueue_chown_events root uid max path : ∀ q depth,
  below root path →
  respects (emits (owner_event root uid)) (enqueue_chown_tasks_up_to_depth q path uid depth max).
Proof.
  unfold enqueue_chown_tasks_up_to_depth. intros q. generalize (-1, q) as d. intros d. revert q.
  pattern path. revert path. apply path_induction. intros path IH q depth Hb s.
  rewrite walk_unfold by apply enqueue_chown_extensional. revert s.
  change (respects (emits (owner_event root uid))
    (enqueue_chown_body uid max (walk d (enqueue_chown_body uid max)) path (q, depth))).
  unfold enqueue_chown_body at 1, chown_dir_now. pose proof (push_one_events root uid) as Hpush.
  respects; try done.
  match goal with |- respects _ (enqueue_chown_entry _ _ _ ?acc _) => destruct acc as [n q'] end.
  unfold enqueue_chown_entry. destruct (is_dot _) eqn:Ed; [respects|].
  destruct (child_path path _) as [child|] eqn:Ec; [|respects].
  pose proof (below_child _ _ _ _ Hb Ed Ec) as Hbc. apply child_path_Some in Ec as [_ Hc].
  pose proof (λ q, IH child Hc q) as Hrec. respects.
Qed.

(** Every task is below the root and for the owner. *)
Definition tasks_owned (root : cstr) (uid : Z) (q : task_queue) : Prop :=
  Forall (λ t, below root (te_path t) ∧ te_uid t = uid) (q_tasks q).

Lemma push_one_owned root uid q path s :
  tasks_owned root uid q → below root path → slen path < 4096 →
  wp (push_one q path uid) (λ '(_, q') _, tasks_owned root uid q') s.
Proof.
  intros Hq Hp Hl. unfold push_one. apply wp_bind. eapply wp_mono.
  { apply (queue_push_forall (λ t, below root (te_path t) ∧ te_uid t = uid)); [done|]. simpl. by rewrite fit_id. }
  intros [rc q'] s' Hq'. by apply wp_ret.
Qed.

Lemma enqueue_chown_below root max uid path q depth s :
  tasks_owned root uid q → below root path → slen path < 4096 →
  wp (enqueue_chown_tasks_up_to_depth q path uid depth max) (λ '(_, q') _, tasks_owned root uid q') s.
Proof.
  unfold enqueue_chown_tasks_up_to_depth. intros Hq Hb Hl.
  generalize (-1, q) as d. intros d. revert q depth Hq Hb Hl s. pattern path. revert path.
  apply path_induction. intros path IH q depth Hq Hb Hl s.
  eapply wp_eq; [apply walk_unfold, enqueue_chown_extensional|].
  unfold enqueue_chown_body at 1. pose proof (push_one_owned root uid q path) as Hpush.
  apply wp_bind, wp_run. destruct (sys (Lstat path) s) as [[e|st] s1]; simpl; [by apply wp_ret|].
  apply wp_bind, wp_run. destruct (chown_dir_now path uid st s1) as [u s1']. simpl.
  destruct (_ || _); [by apply Hpush|].
  apply wp_bind, wp_run. destruct (sys (Opendir path) s1') as [[e|entries] s2]; simpl; [by apply Hpush|].
  apply wp_bind. apply (wp_mfor (λ _ '(_, q') _, tasks_owned root uid q')); [done| |].
  - intros done x rest [n q'] s3 _ Hq'. unfold enqueue_chown_entry. destruct (is_dot (d_name x)) eqn:Ed; [by apply wp_ret|].
    destruct (child_path path (d_name x)) as [child|] eqn:Ec; [|by apply wp_ret].
    pose proof (below_child _ _ _ _ Hb Ed Ec) as Hbc. apply child_path_Some in Ec as [_ Hc].
    apply wp_bind. eapply wp_mono; [apply IH; unfold PATH_SIZE in *; (done || lia)|].
    intros [rc q''] s4 Hq''. apply wp_ret. by destruct (rc <? 0).
  - intros [n q'] s3 Hq'. destruct (n <? 0); [by apply wp_ret|]. destruct (n =? 0); [|by apply wp_ret].
    by apply push_one_owned.
Qed.

Lemma chown_scan_ok root uid :
  slen root < 4096 →
  respects (emits (owner_event root uid)) (chown_scan root uid task_queue_init) ∧
  ∀ s, wp (chown_scan root uid task_queue_init) (λ q _, tasks_owned root uid q) s.
Proof.
  intros Hl. pose proof (λ q path, enqueue_chown_events root uid TASK_ENQUEUE_LEVELS path q) as He. split.
  - unfold chown_scan. respects; [done|]. unfold chown_scan_entry. destruct (is_dot _) eqn:Ed; [respects|].
    destruct (child_path root _) as [child|] eqn:Ec; [|respects].
    pose proof (below_child _ _ _ _ (below_refl root) Ed Ec) as Hbc. respects.
  - intros s. unfold chown_scan. apply wp_bind, wp_run. destruct (sys (Opendir root) s) as [[e|entries] s1]; simpl.
    { by apply wp_ret, Forall_nil_2. }
    apply (wp_mfor (λ _ q _, tasks_owned root uid q)); [by apply Forall_nil_2| |done].
    intros done x rest q s2 _ Hq. unfold chown_scan_entry. destruct (is_dot (d_name x)) eqn:Ed; [by apply wp_ret|].
    destruct (child_path root (d_name x)) as [child|] eqn:Ec; [|by apply wp_ret].
    pose proof (below_child _ _ _ _ (below_refl root) Ed Ec) as Hbc. apply child_path_Some in Ec as [_ Hc].
    apply wp_bind. eapply wp_mono; [apply enqueue_chown_below; unfold PATH_SIZE in *; (done || lia)|].
    intros [rc q'] s3 Hq'. apply wp_ret. by destruct (rc <? 0).
Qed.

(** Working on the tasks, in the thread or in a worker. *)
Lemma owned_task root uid q t stats :
  tasks_owned root uid q → t ∈ q_tasks q → respects (emits (owner_event root uid)) (chown_task stats t).
Proof.
  intros Hq Ht. unfold tasks_owned in Hq. rewrite Forall_forall in Hq. destruct (Hq t Ht) as [Hb Hu].
  unfold chown_task. rewrite Hu. by apply chown_tree_events.
Qed.

Lemma chown_dispatch_events root uid q stats :
  tasks_owned root uid q → respects (emits (owner_event root uid)) (chown_dispatch q uid stats).
Proof.
  intros Hq.
  assert (∀ st, respects (emits (owner_event root uid)) (chown_all q uid st)) as Hall.
  { intros st. unfold chown_all. apply respects_meach; [apply _|]. intros st' t Hin.
    unfold tasks_owned in Hq. rewrite Forall_forall in Hq. by apply chown_tree_events, Hq. }
  assert (∀ st, respects (emits (owner_event root uid)) (chown_worker_thread q st)) as Hworker.
  { intros st. unfold chown_worker_thread, set_chown_low_priority. respects; [done|].
    apply respects_worker_loop; [apply _|]. intros st' t Hin. by eapply owned_task. }
  unfold chown_dispatch, worker_count, start_workers. respects; done.
Qed.

(** the ownership fix only gives entries of the sandbox to the owner of
    its mount point.  Whatever the kernel answers, the thread only looks,
    unless it read an owner of the mount point that is not root; then every
    descriptor it opens is of a directory below the mount point, opened
    without following a link, and every change, in every task, is of the
    user only, to that owner, on a path below the mount point or by entry
    name, never "." or "..", relative to a descriptor. *)
Theorem chown_owner_thread_confined mountpoint (Hlen : slen mountpoint < 2048) s :
  let s' := snd (chown_owner_thread mountpoint s) in
  emits quiet_event s s' ∨
  ∃ st, st_uid st ≠ 0 ∧ emits (owner_event mountpoint (st_uid st)) s s' ∧
    ∃ l1 l2, trace s' = trace s ++ l1 ++ Ev (StatPath mountpoint) (inr st) :: l2.
Proof.
  set (Q := λ s', emits quiet_event s s' ∨
    ∃ st, st_uid st ≠ 0 ∧ emits (owner_event mountpoint (st_uid st)) s s' ∧
    ∃ l1 l2, trace s' = trace s ++ l1 ++ Ev (StatPath mountpoint) (inr st) :: l2).
  cut (wp (chown_owner_thread mountpoint) (λ _ s', Q s') s); [by intros H%wp_run|].
  unfold chown_owner_thread. apply wp_bind. eapply wp_mono.
  { apply (wp_respects (emits quiet_event)). unfold set_chown_low_priority. by respects. }
  intros u s1 H1. cbv beta in H1. apply wp_bind, wp_sys. intros r s2 _ _ _ Ht2.
  assert (emits quiet_event s s2) as H2.
  { etrans; [exact H1|]. exists [Ev (StatPath mountpoint) r]. by repeat constructor. }
  destruct r as [e|st]; [by apply wp_ret; left|].
  destruct (Z.eqb_spec (st_uid st) 0) as [|Hu]; [by apply wp_ret; left|].
  eapply wp_mono.
  { apply (wp_respects (emits (owner_event mountpoint (st_uid st)))).
    destruct (chown_scan_ok mountpoint (st_uid st) ltac:(lia)) as [Hscan Htasks].
    apply respects_bind; [apply _|respects; simpl; auto using below_refl|intros _].
    apply respects_bind; [apply _|respects; done|intros _].
    apply respects_bind; [apply _|respects; done|intros ok]. destruct (negb ok); [respects|].
    apply (respects_bind_post _ (tasks_owned mountpoint (st_uid st))); [done|done|]. intros q Hq.
    pose proof (chown_dispatch_events mountpoint (st_uid st) q zero_stats Hq). respects. }
  intros u3 s3 H3. cbv beta in H3. right. exists st. split; [done|]. split.
  - etrans; [|exact H3]. eapply emits_mono; [|exact H2]. intros e. apply quiet_owner_event.
  - destruct H1 as (l1 & E1 & _), H3 as (l3 & E3 & _). exists l1, l3.
    by rewrite E3, Ht2, E1, <- !app_assoc.
Qed.

Lemma statics_chown_owner_async mountpoint : respects (keeps statics) (daemon_chown_owner_mountpoint_async mountpoint).
Proof. unfold daemon_chown_owner_mountpoint_async. respects. Qed.
End ownership_confined.
#[export] Hint Resolve statics_chown_owner_async : frame.

(** Two levels of directories, owned by user 1000. *)
Definition owner_sim : sim :=
  Sim [lit "/b"; lit "/b/sb1"; lit "/b/sb1/src"] [(lit "/b/sb1/src/a.c", [])] [] 1000.


(** What a task does to a path that is not a directory: the directory is
    opened first, which fails with [ENOTDIR], counted as a race. *)
Lemma chown_task_not_a_directory {W} {K : Kernel W} t stats (s : dstate W) :
  fst (k_do (OpenDirNofollow (te_path t)) (world s)) = inl ENOTDIR →
  fst (chown_task stats t s) = add_race_skips stats ∧
  trace (snd (chown_task stats t s)) = trace s ++ [Ev (OpenDirNofollow (te_path t)) (inl ENOTDIR)].
Proof.
  intros H. unfold chown_task. rewrite chown_tree_unfold. unfold chown_tree_body, sys, call, bind.
  destruct (k_do _ (world s)) as [r w]. simpl in H. subst r. done.
Qed.

(** The file [/b/sb1/src/a.c], less than [TASK_ENQUEUE_LEVELS] levels below
    the mount point, becomes a task of its own, and its owner is not changed:
    the only change of this run is the one of the mount point. *)
Example chown_run_shallow_file :
  let '(stats, s') := chown_owner_thread (K := sim_kernel) (lit "/b/sb1") (sim_state owner_sim [] zero_config) in
  stats = Some (ChownCycleStats 0 0 0 0 1) ∧ concat (map modifies (trace s')) = [lit "/b/sb1"].
Proof. by vm_compute. Qed.

Lemma chown_owner_thread_confined_witness :
  let s := sim_state owner_sim [] zero_config in
  let s' := snd (chown_owner_thread (K := sim_kernel) (lit "/b/sb1") s) in
  emits quiet_event s s' ∨
  ∃ st, st_uid st ≠ 0 ∧ emits (owner_event (lit "/b/sb1") (st_uid st)) s s' ∧
    ∃ l1 l2, trace s' = trace s ++ l1 ++ Ev (StatPath (lit "/b/sb1")) (inr st) :: l2.
Proof.
  refine (chown_owner_thread_confined (K := sim_kernel) (lit "/b/sb1") _ (sim_state owner_sim [] zero_config)).
  by vm_compute.
Defined.
