(* ===== verification/Whiteout.v ===== *)
(** * Preparing directory whiteouts

    Models the whiteout half of [mbroker/daemon/post_mount.c]: while a sandbox
    is being mounted, a thread scans the lower directories for directories
    whose path matches one of the configured patterns, and hides each of them
    by creating an opaque directory of the same path in the upper directory.
    Scanning and creating are each done by a pool of workers. *)
From S2P Require Import Prelude CString Config MountTable OS SimKernel Util Walk TaskQueue.
Open Scope Z_scope.

Definition OVERLAY_OPAQUE_XATTR : cstr := lit "trusted.overlay.opaque".
Definition WHITEOUT_SCAN_SPLIT_DEPTH : Z := 2.

(** ** Patterns *)

(** [split_segments]: at most [max] components, each in a [char[256]]. *)
Definition split_segments (value : cstr) (max : nat) : list cstr :=
  if negb (nonempty value) then []
  else map (fit 256) (take max (strtok_all "/" (fit 4096 value))).

Section patterns.
Context {W : Type} {K : Kernel W}.

Definition segment_matches (pattern_seg path_seg : cstr) : bool := fnmatch pattern_seg path_seg.

(** The arrays from [pi] and from [si] on: [pi == pc] and [si == sc] are the
    empty lists, and [skip] runs over the suffixes of the path. *)
Fixpoint pattern_matches_segments (pat_segs path_segs : list cstr) {struct pat_segs} : bool :=
  match pat_segs with
  | [] => match path_segs with [] => true | _ => false end
  | p :: pat_segs' =>
    if str_eqb p (lit "**") then
      match pat_segs' with
      | [] => true
      | _ =>
        (fix skip (path_segs : list cstr) : bool :=
           pattern_matches_segments pat_segs' path_segs ||
           match path_segs with [] => false | _ :: path_segs' => skip path_segs' end) path_segs
      end
    else
      match path_segs with
      | [] => false
      | s :: path_segs' =>
        if negb (segment_matches p s) then false
        else pattern_matches_segments pat_segs' path_segs'
      end
  end.

Definition whiteout_pattern_matches (pattern rel_path : cstr) : bool :=
  pattern_matches_segments (split_segments pattern 128) (split_segments rel_path 128).

Definition whiteout_matches_any (dcfg : daemon_config) (rel_path : cstr) : bool :=
  existsb (λ pattern, whiteout_pattern_matches pattern rel_path) (post_mount_whiteout_dirs dcfg).
End patterns.

(** ** Tasks and results *)

Record whiteout_scan_task := WhiteoutScanTask {
  ws_lower_root : cstr; ws_start_path : cstr; ws_rel_path : cstr; ws_upperdir : cstr; ws_dcfg : daemon_config
}.
(** Also [struct whiteout_create_task]: same fields. *)
Record whiteout_match := WhiteoutMatch { wm_rel_path : cstr; wm_upperdir : cstr }.

Abbreviation whiteout_scan_queue := (queue whiteout_scan_task).
Abbreviation whiteout_results := (queue whiteout_match).
Abbreviation whiteout_create_queue := (queue whiteout_match).

Section whiteout.
Context {W : Type} {K : Kernel W}.

Definition whiteout_scan_queue_push (q : whiteout_scan_queue) (lower_root start_path rel_path upperdir : cstr)
    (dcfg : daemon_config) : M W (Z * whiteout_scan_queue) :=
  queue_push 256 (- ENOMEM) q
    (WhiteoutScanTask (fit 4096 lower_root) (fit 4096 start_path) (fit 4096 rel_path) (fit 4096 upperdir) dcfg).

Definition whiteout_results_add (res : whiteout_results) (rel_path upperdir : cstr) : M W (Z * whiteout_results) :=
  queue_push 1024 (- ENOMEM) res (WhiteoutMatch (fit 4096 rel_path) (fit 4096 upperdir)).

Definition whiteout_create_queue_push (q : whiteout_create_queue) (rel_path upperdir : cstr) : M W (Z * whiteout_create_queue) :=
  queue_push 1024 (- ENOMEM) q (WhiteoutMatch (fit 4096 rel_path) (fit 4096 upperdir)).

Definition ensure_whiteout_dir (upperdir rel_path : cstr) : M W Z :=
  let target := upperdir ++ lit "/" ++ rel_path in
  if 4096 <=? slen target then ret (-1)
  else
    let! rc := mkdir_p target mode_0775 in
    let! e := get_errno in
    if (rc <? 0) && negb (e =? EEXIST) then ret (-1)
    else
      let! r := sys (Setxattr target OVERLAY_OPAQUE_XATTR (lit "y")) in
      match r with
      | inl e => ret (if negb (e =? EEXIST) then -1 else 0)
      | inr _ => ret 0
      end.

(** The path of an entry relative to the lower directory. *)
Definition child_rel (rel_path name : cstr) : cstr :=
  if nonempty rel_path then fit 4096 (rel_path ++ lit "/" ++ name) else fit 4096 name.

(** The sub-directory that an entry leads to, if it is one. *)
Definition scan_child (path : cstr) (entry : dirent) : M W (option cstr) :=
  if is_dot (d_name entry) then ret None
  else
    match child_path path (d_name entry) with
    | None => ret None
    | Some child =>
      let! r := sys (Lstat child) in
      ret (match r with
           | inl _ => None
           | inr cst => if st_isdir cst then Some child else None
           end)
    end.

Definition scan_entry (rec : cstr → cstr * whiteout_results → M W whiteout_results) (path rel_path : cstr)
    (results : whiteout_results) (entry : dirent) : M W whiteout_results :=
  let! child := scan_child path entry in
  match child with
  | None => ret results
  | Some child => rec child (child_rel rel_path (d_name entry), results)
  end.

(** Noting a directory that matches; a failure to do so is ignored. *)
Definition scan_match (upperdir : cstr) (dcfg : daemon_config) (rel_path : cstr) (results : whiteout_results)
    : M W whiteout_results :=
  if nonempty rel_path && whiteout_matches_any dcfg rel_path then
    let! (_, results) := whiteout_results_add results rel_path upperdir in ret results
  else ret results.

Definition scan_body (upperdir : cstr) (dcfg : daemon_config)
    (rec : cstr → cstr * whiteout_results → M W whiteout_results) (path : cstr)
    (x : cstr * whiteout_results) : M W whiteout_results :=
  let '(rel_path, results) := x in
  let! r := sys (Lstat path) in
  match r with
  | inl _ => ret results
  | inr st =>
    if negb (st_isdir st) then ret results
    else
      let! results := scan_match upperdir dcfg rel_path results in
      let! dir := sys (Opendir path) in
      match dir with
      | inl _ => ret results
      | inr entries => meach entries results (scan_entry rec path rel_path)
      end
  end.

Definition scan_whiteout_dirs (path rel_path upperdir : cstr) (dcfg : daemon_config)
    (results : whiteout_results) : M W whiteout_results :=
  walk results (scan_body upperdir dcfg) path (rel_path, results).

Definition enqueue_whiteout_entry (rec : cstr → cstr * whiteout_scan_queue * Z → M W (Z * whiteout_scan_queue))
    (path rel_path : cstr) (depth : Z) (acc : Z * whiteout_scan_queue) (entry : dirent)
    : M W (loop (Z * whiteout_scan_queue)) :=
  let '(pushed, q) := acc in
  let! child := scan_child path entry in
  match child with
  | None => ret (Continue acc)
  | Some child =>
    let! (rc, q) := rec child (child_rel rel_path (d_name entry), q, depth + 1) in
    ret (if rc <? 0 then Break (rc, q) else Continue (pushed + rc, q))
  end.

Definition enqueue_whiteout_body (lower_root upperdir : cstr) (dcfg : daemon_config)
    (rec : cstr → cstr * whiteout_scan_queue * Z → M W (Z * whiteout_scan_queue)) (path : cstr)
    (x : cstr * whiteout_scan_queue * Z) : M W (Z * whiteout_scan_queue) :=
  let '(rel_path, q, depth) := x in
  let! r := sys (Lstat path) in
  match r with
  | inl _ => ret (0, q)
  | inr st =>
    if negb (st_isdir st) then ret (0, q)
    else if WHITEOUT_SCAN_SPLIT_DEPTH <=? depth then
      whiteout_scan_queue_push q lower_root path rel_path upperdir dcfg
    else
      let! dir := sys (Opendir path) in
      match dir with
      | inl _ => whiteout_scan_queue_push q lower_root path rel_path upperdir dcfg
      | inr entries =>
        let! (pushed, q) := mfor entries (0, q) (enqueue_whiteout_entry rec path rel_path depth) in
        if pushed <? 0 then ret (pushed, q)
        else if pushed =? 0 then whiteout_scan_queue_push q lower_root path rel_path upperdir dcfg
        else ret (pushed, q)
      end
  end.

Definition enqueue_whiteout_tasks (q : whiteout_scan_queue) (lower_root path rel_path : cstr) (depth : Z)
    (upperdir : cstr) (dcfg : daemon_config) : M W (Z * whiteout_scan_queue) :=
  walk (0, q) (enqueue_whiteout_body lower_root upperdir dcfg) path (rel_path, q, depth).

Definition whiteout_scan (results : whiteout_results) (task : whiteout_scan_task) : M W whiteout_results :=
  scan_whiteout_dirs (ws_start_path task) (ws_rel_path task) (ws_upperdir task) (ws_dcfg task) results.

Definition whiteout_scan_worker_thread (q : whiteout_scan_queue) (results : whiteout_results)
    : M W (whiteout_results * whiteout_scan_queue) :=
  worker_loop q results whiteout_scan.

Definition whiteout_create (_ : unit) (task : whiteout_match) : M W unit :=
  let! _ := ensure_whiteout_dir (wm_upperdir task) (wm_rel_path task) in ret tt.

Definition whiteout_create_worker_thread (q : whiteout_create_queue) : M W (unit * whiteout_create_queue) :=
  worker_loop q tt whiteout_create.

(** The loop over the lower directories. *)
Definition whiteout_enqueue_all (effective_lowerdir upperdir : cstr) (dcfg : daemon_config) : M W (Z * whiteout_scan_queue) :=
  mfor (strtok_all ":" (fit 8192 effective_lowerdir)) (0, task_queue_init) (λ acc token,
    let '(_, q) := acc in
    let! r := sys (Lstat token) in
    match r with
    | inl _ => ret (Continue acc)
    | inr st =>
      if negb (st_isdir st) then ret (Continue acc)
      else
        let! (rc, q) := enqueue_whiteout_tasks q token token [] 0 upperdir dcfg in
        ret (if rc <? 0 then Break (rc, q) else Continue (0, q))
    end).

(** Running a pool: how many workers, their array, starting them.  A
    negative result is returned; with workers, the work is done. *)
Definition run_pool {A} (th : thread) (total : Z) (skipped : A) (work : M W A) : M W (Z * A) :=
  let! workers := worker_count total in
  let! threads := try Alloc in
  if negb threads then ret (- ENOMEM, skipped)
  else
    let! started := start_workers th workers in
    if started =? 0 then ret (- EIO, skipped)
    else let! a := work in ret (0, a).

(** The second half of [prepare_whiteout_dirs]: creating. *)
Definition create_whiteouts (results : whiteout_results) : M W Z :=
  if q_total results <=? 0 then ret 0
  else
    let! (rc, create_q) := mfor (q_tasks results) (0, task_queue_init) (λ acc m,
      let! (rc, q) := whiteout_create_queue_push (snd acc) (wm_rel_path m) (wm_upperdir m) in
      ret (if rc <? 0 then Break (rc, q) else Continue (0, q))) in
    if rc <? 0 then ret rc
    else
      let! (rc, _) := run_pool ThWhiteoutCreateWorker (q_total create_q) tt
        (let! (_, _) := whiteout_create_worker_thread create_q in ret tt) in
      ret rc.

Definition prepare_whiteout_dirs (effective_lowerdir upperdir : cstr) (dcfg : daemon_config) : M W Z :=
  if post_mount_whiteout_dir_count dcfg <=? 0 then ret 0
  else
    let! (rc, scan_q) := whiteout_enqueue_all effective_lowerdir upperdir dcfg in
    if rc <? 0 then ret rc
    else if q_total scan_q =? 0 then ret 0
    else
      let! (rc, results) := run_pool ThWhiteoutScanWorker (q_total scan_q) task_queue_init
        (let! (results, _) := whiteout_scan_worker_thread scan_q task_queue_init in ret results) in
      if rc <? 0 then ret rc else create_whiteouts results.

(** The thread only logs the result. *)
Definition prepare_whiteout_thread (effective_lowerdir upperdir : cstr) (dcfg : daemon_config) : M W Z :=
  prepare_whiteout_dirs effective_lowerdir upperdir dcfg.

Definition start_prepare_whiteout_async (effective_lowerdir upperdir : cstr) (dcfg : daemon_config) : M W Z :=
  if post_mount_whiteout_dir_count dcfg <=? 0 then ret 0
  else
    let! ok := try Alloc in
    if negb ok then ret (- ENOMEM)
    else
      let! rc := call (PthreadCreate (ThPrepareWhiteout (fit 8192 effective_lowerdir) (fit 4096 upperdir) dcfg)) in
      if negb (rc =? 0) then
        let! saved := get_errno in ret (- saved)
      else ret 0.
End whiteout.

(** * Lemmas *)

(** ** What a pattern matches *)

Section pattern_lemmas.
Context {W : Type} {K : Kernel W}.

(** Component by component; [**] stands for any number of components. *)
Inductive glob_path : list cstr → list cstr → Prop :=
  | glob_end : glob_path [] []
  | glob_any ps skipped ss : glob_path ps ss → glob_path (lit "**" :: ps) (skipped ++ ss)
  | glob_segment p s ps ss :
      p ≠ lit "**" → fnmatch p s = true → glob_path ps ss → glob_path (p :: ps) (s :: ss).

Lemma skip_spec (f : list cstr → bool) ss :
  (fix skip (ss : list cstr) : bool := f ss || match ss with [] => false | _ :: ss' => skip ss' end) ss = true ↔
  ∃ skipped rest, ss = skipped ++ rest ∧ f rest = true.
Proof.
  induction ss as [|s ss IH]; rewrite orb_true_iff.
  - split; [intros [H|?]; [by exists [], []|done]|]. intros (a & b & E & H).
    symmetry in E. apply app_eq_nil in E as [-> ->]. by left.
  - rewrite IH. split.
    + intros [H|(a & b & -> & H)]; [by exists [], (s :: ss)|by exists (s :: a), b].
    + intros ([|x a] & b & E & H); simplify_eq/=; [by left|]. right. by exists a, b.
Qed.

Lemma pattern_matches_segments_spec ps ss : pattern_matches_segments ps ss = true ↔ glob_path ps ss.
Proof.
  revert ss. induction ps as [|p ps IH]; intros ss; cbn [pattern_matches_segments].
  - destruct ss; split; try done; [constructor|by inversion 1].
  - destruct (str_eqb p (lit "**")) eqn:Ep; to_prop.
    + subst p. assert (pattern_matches_segments (lit "**" :: ps) ss = true ↔
        ∃ a b, ss = a ++ b ∧ pattern_matches_segments ps b = true) as Hskip.
      { cbn [pattern_matches_segments]. rewrite str_eqb_refl. destruct ps as [|p' ps'].
        - split; [|done]. intros _. exists ss, []. by rewrite app_nil_r.
        - apply (skip_spec (pattern_matches_segments (p' :: ps'))). }
      cbn [pattern_matches_segments] in Hskip. rewrite str_eqb_refl in Hskip. rewrite Hskip. clear Hskip.
      setoid_rewrite IH. split.
      * intros (a & b & -> & H). by constructor.
      * inversion 1; subst; [eauto|done].
    + destruct ss as [|s ss]; [split; [done|by inversion 1]|].
      unfold segment_matches. destruct (fnmatch p s) eqn:Ef; simpl.
      * rewrite IH. split; [by constructor|]. inversion 1; subst; [done|done].
      * split; [done|]. inversion 1; subst; [done|congruence].
Qed.

(** The text fits the fixed buffers of [whiteout_pattern_matches]. *)
Record fits_segments (value : cstr) : Prop := {
  fits_buffer : slen value < 4096;
  fits_count : (length (strtok_all "/" value) ≤ 128)%nat;
  fits_each : Forall (λ seg, slen seg < 256) (strtok_all "/" value)
}.

Lemma split_segments_all value : fits_segments value → split_segments value 128 = strtok_all "/" value.
Proof.
  intros [Hb Hc He]. unfold split_segments. destruct value as [|c value]; [done|]. cbn [nonempty negb].
  rewrite fit_id, take_ge by done. revert He. generalize (strtok_all "/" (c :: value)). intros l He.
  induction He as [|x l Hx Hl IH]; simpl; [done|]. by rewrite fit_id, IH.
Qed.

(** a whiteout pattern means what its documentation says.  For a
    pattern and a relative path within the sizes of the fixed buffers, the
    recursive matcher accepts exactly the paths whose components match the
    components of the pattern one by one under [fnmatch], where a component
    [**] stands for any number of path components, also none. *)
Theorem whiteout_pattern_matches_spec pattern rel_path
    (Hp : fits_segments pattern) (Hr : fits_segments rel_path) :
  whiteout_pattern_matches pattern rel_path = true ↔
  glob_path (strtok_all "/" pattern) (strtok_all "/" rel_path).
Proof. unfold whiteout_pattern_matches. rewrite !split_segments_all by done. apply pattern_matches_segments_spec. Qed.
End pattern_lemmas.

Lemma whiteout_pattern_matches_spec_witness :
  whiteout_pattern_matches (K := sim_kernel) (lit "src/**/out*") (lit "src/a/b/output") = true ↔
  glob_path (K := sim_kernel) (strtok_all "/" (lit "src/**/out*")) (strtok_all "/" (lit "src/a/b/output")).
Proof.
  refine (whiteout_pattern_matches_spec (K := sim_kernel) _ _ _ _); (split; [done|vm_compute; lia|repeat constructor]).
Defined.

Example whiteout_pattern_runs :
  map (whiteout_pattern_matches (K := sim_kernel) (lit "src/**/out*"))
    [lit "src/output"; lit "src/a/b/out"; lit "src"; lit "src/out/x"] = [true; true; false; false].
Proof. reflexivity. Qed.

(** ** Where the scan is *)

(** The relative path that the scan keeps for the entries [names] below a
    lower directory: an empty first name adds nothing. *)
Definition rel_of (names : list cstr) : cstr := join (lit "/") (drop_while (λ n, negb (nonempty n)) names).

(** [path] is reached from [lower] by entry names, and [rel_path] is its path
    relative to [lower]. *)
Definition at_rel (lower path rel_path : cstr) : Prop :=
  ∃ names, path = lower ++ concat (map (λ n, lit "/" ++ n) names) ∧
    Forall (λ n, is_dot n = false) names ∧ rel_path = rel_of names.

Lemma join_segments_snoc (sep x : cstr) ls : ls ≠ [] → join sep (ls ++ [x]) = join sep ls ++ sep ++ x.
Proof.
  induction ls as [|l ls IH]; [done|]. intros _. destruct ls as [|l' ls]; [done|].
  rewrite <- app_comm_cons, !join_cons by done. rewrite IH by done. by rewrite <- !app_assoc.
Qed.

Lemma rel_of_snoc names n :
  rel_of (names ++ [n]) = if nonempty (rel_of names) then rel_of names ++ lit "/" ++ n else n.
Proof.
  unfold rel_of. induction names as [|[|c x] names IH]; [by destruct n|done|].
  change (join (lit "/") (((c :: x) :: names) ++ [n]) =
    if nonempty (join (lit "/") ((c :: x) :: names)) then join (lit "/") ((c :: x) :: names) ++ lit "/" ++ n else n).
  rewrite join_segments_snoc by done. by destruct names.
Qed.

Lemma join_length y (l : list cstr) :
  slen (join (lit "/") (y :: l)) <= slen y + slen (concat (map (λ n, lit "/" ++ n) l)).
Proof.
  revert y. induction l as [|z l IH]; intros y; [simpl; change (slen []) with 0; lia|].
  rewrite join_cons by done. specialize (IH z). cbn [map concat]. rewrite !slen_app. lia.
Qed.

Lemma rel_of_length names : slen (rel_of names) <= slen (concat (map (λ n, lit "/" ++ n) names)).
Proof.
  induction names as [|[|c x] names IH]; [done| |].
  - change (rel_of ([] :: names)) with (rel_of names). cbn [map concat]. rewrite !slen_app.
    change (slen (lit "/")) with 1. change (slen []) with 0. lia.
  - pose proof (join_length (c :: x) names) as H. change (rel_of ((c :: x) :: names)) with (join (lit "/") ((c :: x) :: names)).
    cbn [map concat]. rewrite !slen_app. change (slen (lit "/")) with 1. lia.
Qed.

Lemma at_rel_top lower : at_rel lower lower [].
Proof. exists []. rewrite app_nil_r. by repeat constructor. Qed.

Lemma at_rel_child lower path rel_path n child :
  at_rel lower path rel_path → is_dot n = false → child_path path n = Some child →
  at_rel lower child (child_rel rel_path n).
Proof.
  intros (names & -> & Hn & ->) Hd Hc. apply child_path_Some in Hc as [-> Hl].
  exists (names ++ [n]). rewrite map_app, concat_app, <- app_assoc. simpl concat. rewrite app_nil_r.
  split; [done|]. split; [apply Forall_app; by repeat constructor|]. rewrite rel_of_snoc.
  pose proof (rel_of_length names). pose proof (slen_nonneg lower). rewrite !slen_app in Hl. change (slen (lit "/")) with 1 in Hl.
  pose proof (slen_nonneg (concat (map (λ n, lit "/" ++ n) names))).
  unfold child_rel, PATH_SIZE in *. destruct (nonempty _); rewrite fit_id; try done; rewrite ?slen_app; change (slen (lit "/")) with 1; lia.
Qed.

Lemma at_rel_length lower path rel_path : at_rel lower path rel_path → slen rel_path <= slen path.
Proof.
  intros (names & -> & _ & ->). rewrite slen_app. pose proof (rel_of_length names). pose proof (slen_nonneg lower). lia.
Qed.

Section whiteout_confined.
Context {W : Type} {K : Kernel W}.
Implicit Types s : dstate W.

(** The sub-directory found is the child of that name. *)
Lemma scan_child_spec path e s :
  wp (scan_child path e) (λ r _, ∀ child, r = Some child → is_dot (d_name e) = false ∧ child_path path (d_name e) = Some child) s.
Proof.
  unfold scan_child. destruct (is_dot (d_name e)); [by apply wp_ret|].
  destruct (child_path path (d_name e)) as [c|]; [|by apply wp_ret].
  apply wp_bind, wp_run. destruct (sys (Lstat c) s) as [[er|st] s1]; simpl; apply wp_ret; [done|].
  destruct (st_isdir st); [|done]. by intros child ->.
Qed.

Lemma scan_child_ext {B} path e (k1 k2 : option cstr → M W B) s :
  k1 None = k2 None →
  (∀ child s', slen path < slen child < PATH_SIZE → k1 (Some child) s' = k2 (Some child) s') →
  bind (scan_child path e) k1 s = bind (scan_child path e) k2 s.
Proof.
  intros Hn Hs. unfold bind. pose proof (scan_child_spec path e s) as H. unfold wp in H.
  destruct (scan_child path e s) as [[child|] s1]; [|by rewrite Hn].
  destruct (H child eq_refl) as [_ Hc]. apply child_path_Some in Hc as [_ Hc]. by apply Hs.
Qed.

Lemma scan_extensional upperdir dcfg : extensional_body (scan_body (K := K) upperdir dcfg).
Proof.
  intros r1 r2 path [rel results] s H. unfold scan_body, bind.
  destruct (sys (Lstat path) s) as [[e|st] s1]; [done|]. destruct (negb (st_isdir st)); [done|].
  destruct (scan_match upperdir dcfg rel results s1) as [res' s2].
  destruct (sys (Opendir path) s2) as [[e|entries] s3]; [done|].
  apply meach_ext. intros b x s4 _. unfold scan_entry. apply scan_child_ext; [done|]. intros child s5 Hc. by apply H.
Qed.

Lemma enqueue_whiteout_extensional lower upperdir dcfg :
  extensional_body (enqueue_whiteout_body (K := K) lower upperdir dcfg).
Proof.
  intros r1 r2 path [[rel q] depth] s H. unfold enqueue_whiteout_body, bind.
  destruct (sys (Lstat path) s) as [[e|st] s1]; [done|]. destruct (negb (st_isdir st)); [done|].
  destruct (_ <=? depth); [done|]. destruct (sys (Opendir path) s1) as [[e|entries] s2]; [done|].
  rewrite (mfor_ext entries (0, q) (enqueue_whiteout_entry r1 path rel depth) (enqueue_whiteout_entry r2 path rel depth)); [done|].
  intros [pushed q'] x s3 _. unfold enqueue_whiteout_entry. apply scan_child_ext; [done|].
  intros child s4 Hc. unfold bind. by rewrite H.
Qed.

(** ** Splitting the scan *)

(** The number of tasks that [enqueue_whiteout_tasks] reports is never
    positive: a push reports 0, so that the sum [pushed] stays 0 and every
    directory whose children were queued is queued again. *)
Lemma enqueue_whiteout_nonpositive lower upperdir dcfg q path rel depth s :
  wp (enqueue_whiteout_tasks q lower path rel depth upperdir dcfg) (λ '(rc, _) _, rc <= 0) s.
Proof.
  unfold enqueue_whiteout_tasks. generalize (0, q) as d. intros d. revert rel q depth s.
  pattern path. revert path. apply path_induction. intros path IH rel q depth s.
  assert (∀ q s, wp (whiteout_scan_queue_push q lower path rel upperdir dcfg) (λ '(rc, _) _, rc <= 0) s) as Hpush.
  { intros q' s'. unfold whiteout_scan_queue_push, queue_push. destruct (_ <=? _); [|by apply wp_ret].
    apply wp_bind, wp_run. destruct (try Alloc s') as [[] s1]; simpl; by apply wp_ret. }
  eapply wp_eq; [apply walk_unfold, enqueue_whiteout_extensional|].
  unfold enqueue_whiteout_body at 1.
  apply wp_bind, wp_run. destruct (sys (Lstat path) s) as [[e|st] s1]; simpl; [by apply wp_ret|].
  destruct (negb _); [by apply wp_ret|]. destruct (_ <=? depth); [apply Hpush|].
  apply wp_bind, wp_run. destruct (sys (Opendir path) s1) as [[e|entries] s2]; simpl; [apply Hpush|].
  apply wp_bind. apply (wp_mfor (λ _ '(pushed, _) _, pushed <= 0)); [done| |].
  - intros done x rest [pushed q'] s3 _ Hp. unfold enqueue_whiteout_entry.
    apply wp_bind. eapply wp_mono; [apply scan_child_spec|]. intros [child|] s4 Hc; [|by apply wp_ret].
    destruct (Hc child eq_refl) as [_ [_ Hl]%child_path_Some].
    apply wp_bind. eapply wp_mono; [by apply IH|]. intros [rc q''] s5 Hrc. apply wp_ret.
    simpl in Hrc. destruct (rc <? 0) eqn:E; [rewrite E; by apply wp_ret|lia].
  - intros [pushed q'] s3 Hp. destruct (pushed <? 0); [by apply wp_ret|].
    destruct (pushed =? 0); [apply Hpush|by apply wp_ret].
Qed.
End whiteout_confined.

(** ** What is hidden *)

Section whiteout_hidden.
Context {W : Type} {K : Kernel W}.
Context (lowers : list cstr) (upperdir : cstr) (dcfg : daemon_config).
Implicit Types s : dstate W.

(** A path that may be hidden: it is the relative path of something reached
    by entry names below one of the lower directories, and it matches. *)
Definition hidden (rel_path : cstr) : Prop :=
  rel_path ≠ [] ∧ whiteout_matches_any dcfg rel_path = true ∧
  ∃ lower path, lower ∈ lowers ∧ at_rel lower path rel_path.

(** What preparing the whiteouts may call. *)
Definition whiteout_event (e : event) : Prop :=
  let 'Ev c r := e in
  match c with
  | Mkdir p mode => mode = mode_0775 ∧ ∃ rel, hidden rel ∧ p `prefix_of` upperdir ++ lit "/" ++ rel
  | Setxattr p k v => k = OVERLAY_OPAQUE_XATTR ∧ v = lit "y" ∧ ∃ rel, hidden rel ∧ p = upperdir ++ lit "/" ++ rel
  | PthreadCreate t => t = ThWhiteoutScanWorker ∨ t = ThWhiteoutCreateWorker
  | _ => readonly e = true
  end.

Definition match_ok (m : whiteout_match) : Prop :=
  wm_upperdir m = upperdir ∧ slen (wm_rel_path m) < 4096 ∧ hidden (wm_rel_path m).
Definition scan_task_ok (t : whiteout_scan_task) : Prop :=
  ws_upperdir t = upperdir ∧ ws_dcfg t = dcfg ∧ slen (ws_start_path t) < 4096 ∧
  ∃ lower, lower ∈ lowers ∧ at_rel lower (ws_start_path t) (ws_rel_path t).

Context (Hup : slen upperdir < 4096).

Lemma scan_child_events path e : respects (emits whiteout_event) (scan_child (K := K) path e).
Proof. unfold scan_child. respects; done. Qed.

Lemma push_events {T} initial err (q : queue T) e : respects (emits whiteout_event) (queue_push (K := K) initial err q e).
Proof. unfold queue_push. respects; done. Qed.

Lemma scan_events path rel results :
  respects (emits whiteout_event) (scan_whiteout_dirs (K := K) path rel upperdir dcfg results).
Proof.
  unfold scan_whiteout_dirs. generalize results at 1 as d. intros d. revert rel results.
  pattern path. revert path. apply path_induction. intros path IH rel results s.
  rewrite walk_unfold by apply scan_extensional. revert s.
  change (respects (emits whiteout_event) (scan_body (K := K) upperdir dcfg (walk d (scan_body (K := K) upperdir dcfg)) path (rel, results))).
  unfold scan_body at 1, scan_match, whiteout_results_add. pose proof scan_child_events.
  pose proof (@push_events). respects; try done. unfold scan_entry.
  apply (respects_bind_post _ (λ r, ∀ child, r = Some child → slen path < slen child < PATH_SIZE)); [done| |].
  - intros s0. eapply wp_mono; [apply scan_child_spec|]. intros r s' Hr child ->.
    destruct (Hr child eq_refl) as [_ Hc]. by apply child_path_Some in Hc as [_ Hc].
  - intros [child|] Hc; [|respects]. apply IH. by apply Hc.
Qed.

Lemma scan_matches lower path rel results s :
  lower ∈ lowers → at_rel lower path rel → slen path < 4096 → Forall match_ok (q_tasks results) →
  wp (scan_whiteout_dirs (K := K) path rel upperdir dcfg results) (λ results' _, Forall match_ok (q_tasks results')) s.
Proof.
  intros Hin. unfold scan_whiteout_dirs. generalize results at 2 as d. intros d. revert rel results s.
  pattern path. revert path. apply path_induction. intros path IH rel results s Hrel Hl Hres.
  eapply wp_eq; [apply walk_unfold, scan_extensional|]. unfold scan_body at 1.
  apply wp_bind, wp_run. destruct (sys (Lstat path) s) as [[e|st] s1]; simpl; [by apply wp_ret|].
  destruct (negb _); [by apply wp_ret|].
  apply wp_bind. eapply (wp_mono _ (λ results' _, Forall match_ok (q_tasks results'))).
  { unfold scan_match. destruct (nonempty rel && _) eqn:E; [|by apply wp_ret]. apply andb_true_iff in E as [En Em].
    apply wp_bind. eapply wp_mono; [apply (queue_push_forall match_ok); [done|]|by intros [rc q'] s' ?; apply wp_ret].
    pose proof (at_rel_length _ _ _ Hrel). split_and!; simpl; rewrite fit_id by lia; [done|lia|].
    split; [by destruct rel|]. eauto. }
  intros results' s2 Hres'. apply wp_bind, wp_run.
  destruct (sys (Opendir path) s2) as [[e|entries] s3]; simpl; [by apply wp_ret|].
  apply (wp_meach (λ _ results' _, Forall match_ok (q_tasks results'))); [done| |done].
  intros done x rest r s4 _ Hr. unfold scan_entry. apply wp_bind. eapply wp_mono; [apply scan_child_spec|].
  intros [child|] s5 Hc; [|by apply wp_ret]. destruct (Hc child eq_refl) as [Hd Hcp].
  pose proof (at_rel_child _ _ _ _ _ Hrel Hd Hcp). apply child_path_Some in Hcp as [_ Hcl].
  apply IH; unfold PATH_SIZE in *; (done || lia).
Qed.

Lemma enqueue_whiteout_events lower path rel q depth :
  respects (emits whiteout_event) (enqueue_whiteout_tasks (K := K) q lower path rel depth upperdir dcfg).
Proof.
  unfold enqueue_whiteout_tasks. generalize (0, q) as d. intros d. revert rel q depth.
  pattern path. revert path. apply path_induction. intros path IH rel q depth s.
  rewrite walk_unfold by apply enqueue_whiteout_extensional. revert s.
  change (respects (emits whiteout_event) (enqueue_whiteout_body (K := K) lower upperdir dcfg
    (walk d (enqueue_whiteout_body (K := K) lower upperdir dcfg)) path (rel, q, depth))).
  unfold enqueue_whiteout_body at 1, whiteout_scan_queue_push. pose proof (@push_events).
  respects; try done.
  match goal with |- respects _ (enqueue_whiteout_entry _ _ _ _ ?acc _) => destruct acc as [pushed q'] end.
  unfold enqueue_whiteout_entry.
  apply (respects_bind_post _ (λ r, ∀ child, r = Some child → slen path < slen child < PATH_SIZE)); [apply scan_child_events| |].
  - intros s0. eapply wp_mono; [apply scan_child_spec|]. intros r s' Hr child ->.
    destruct (Hr child eq_refl) as [_ Hc]. by apply child_path_Some in Hc as [_ Hc].
  - intros [child|] Hc; [|respects]. specialize (IH child (Hc child eq_refl)). respects.
Qed.

Lemma enqueue_whiteout_ok lower path rel q depth s :
  lower ∈ lowers → at_rel lower path rel → slen path < 4096 → Forall scan_task_ok (q_tasks q) →
  wp (enqueue_whiteout_tasks (K := K) q lower path rel depth upperdir dcfg)
     (λ '(_, q') _, Forall scan_task_ok (q_tasks q')) s.
Proof.
  intros Hin. unfold enqueue_whiteout_tasks. generalize (0, q) as d. intros d. revert rel q depth s.
  pattern path. revert path. apply path_induction. intros path IH rel q depth s Hrel Hl Hq.
  assert (∀ q s, Forall scan_task_ok (q_tasks q) → wp (whiteout_scan_queue_push q lower path rel upperdir dcfg)
    (λ '(_, q') _, Forall scan_task_ok (q_tasks q')) s) as Hpush.
  { intros q' s' Hq'. apply queue_push_forall; [done|]. pose proof (at_rel_length _ _ _ Hrel).
    split_and!; simpl; [by rewrite fit_id|done|by rewrite fit_id|]. exists lower. by rewrite !fit_id by lia. }
  eapply wp_eq; [apply walk_unfold, enqueue_whiteout_extensional|]. unfold enqueue_whiteout_body at 1.
  apply wp_bind, wp_run. destruct (sys (Lstat path) s) as [[e|st] s1]; simpl; [by apply wp_ret|].
  destruct (negb _); [by apply wp_ret|]. destruct (_ <=? depth); [by apply Hpush|].
  apply wp_bind, wp_run. destruct (sys (Opendir path) s1) as [[e|entries] s2]; simpl; [by apply Hpush|].
  apply wp_bind. apply (wp_mfor (λ _ '(_, q') _, Forall scan_task_ok (q_tasks q'))); [done| |].
  - intros done x rest [pushed q'] s3 _ Hq'. unfold enqueue_whiteout_entry.
    apply wp_bind. eapply wp_mono; [apply scan_child_spec|]. intros [child|] s4 Hc; [|by apply wp_ret].
    destruct (Hc child eq_refl) as [Hd Hcp]. pose proof (at_rel_child _ _ _ _ _ Hrel Hd Hcp).
    apply child_path_Some in Hcp as [_ Hcl].
    apply wp_bind. eapply wp_mono; [apply IH; unfold PATH_SIZE in *; (done || lia)|].
    intros [rc q''] s5 Hq''. apply wp_ret. destruct (rc <? 0) eqn:E; [|done]. rewrite E. by apply wp_ret.
  - intros [pushed q'] s3 Hq'. destruct (pushed <? 0); [by apply wp_ret|].
    destruct (pushed =? 0); [by apply Hpush|by apply wp_ret].
Qed.

(** Creating one whiteout. *)
Lemma ensure_whiteout_events rel :
  hidden rel → respects (emits whiteout_event) (ensure_whiteout_dir (K := K) upperdir rel).
Proof.
  intros Hrel. unfold ensure_whiteout_dir. destruct (_ <=? _); [respects|].
  apply respects_bind; [apply _| |intros rc].
  { eapply respects_mono; [|apply emits_mkdir_p]. intros s s'. apply emits_mono.
    intros e (p & r & -> & Hp & _). simpl. eauto. }
  respects; simpl; eauto.
Qed.

Lemma run_pool_events {A} th total (skipped : A) work (Q : A → Prop) :
  th = ThWhiteoutScanWorker ∨ th = ThWhiteoutCreateWorker →
  respects (emits whiteout_event) work → (∀ s, wp work (λ a _, Q a) s) → Q skipped →
  respects (emits whiteout_event) (run_pool (K := K) th total skipped work) ∧
  ∀ s, wp (run_pool (K := K) th total skipped work) (λ '(_, a) _, Q a) s.
Proof.
  intros Hth Hw HQ Hs. unfold run_pool, worker_count, start_workers. split; [respects; done|].
  intros s. apply wp_bind, wp_run. destruct (bind _ _ s) as [n s1]. simpl.
  apply wp_bind, wp_run. destruct (try Alloc s1) as [[] s2]; simpl; [|by apply wp_ret].
  apply wp_bind, wp_run. destruct (meach _ _ _ s2) as [started s3]. simpl.
  destruct (started =? 0); [by apply wp_ret|]. apply wp_bind. eapply wp_mono; [apply HQ|].
  intros a s4 Ha. by apply wp_ret.
Qed.

Lemma scan_worker_ok q :
  Forall scan_task_ok (q_tasks q) →
  respects (emits whiteout_event) (whiteout_scan_worker_thread (K := K) q task_queue_init) ∧
  ∀ s, wp (whiteout_scan_worker_thread (K := K) q task_queue_init) (λ '(r, _) _, Forall match_ok (q_tasks r)) s.
Proof.
  intros Hq. rewrite Forall_forall in Hq. split.
  - apply respects_worker_loop; [apply _|]. intros r t Ht. unfold whiteout_scan.
    destruct (Hq t Ht) as (-> & -> & _). apply scan_events.
  - intros s. apply (wp_worker_loop (λ r, Forall match_ok (q_tasks r))); [|by apply Forall_nil_2].
    intros r t s' Ht Hr. unfold whiteout_scan. destruct (Hq t Ht) as (-> & -> & Hl & lower & Hin & Hrel).
    by apply (scan_matches lower).
Qed.

Lemma create_worker_events q :
  Forall match_ok (q_tasks q) → respects (emits whiteout_event) (whiteout_create_worker_thread (K := K) q).
Proof.
  intros Hq. rewrite Forall_forall in Hq. apply respects_worker_loop; [apply _|]. intros [] t Ht.
  unfold whiteout_create. destruct (Hq t Ht) as (-> & _ & Hh). pose proof (ensure_whiteout_events _ Hh). respects.
Qed.

Lemma create_whiteouts_events results :
  Forall match_ok (q_tasks results) → respects (emits whiteout_event) (create_whiteouts (K := K) results).
Proof.
  intros Hr. unfold create_whiteouts. destruct (_ <=? _); [respects|].
  apply (respects_bind_post _ (λ '(_, q), Forall match_ok (q_tasks q))).
  - unfold whiteout_create_queue_push. pose proof (@push_events). respects.
  - intros s. apply (wp_mfor (λ _ '(_, q) _, Forall match_ok (q_tasks q))); [by apply Forall_nil_2| |by intros [rc q] s' H].
    intros done m rest [rc q] s' E Hq. simpl. apply wp_bind. eapply wp_mono.
    { apply (queue_push_forall match_ok); [done|]. rewrite E in Hr.
      apply Forall_app in Hr as [_ [(Hu & Hl & Hh) _]%Forall_cons]. rewrite Hu. split_and!; simpl; by rewrite !fit_id. }
    intros [rc' q'] s'' Hq'. apply wp_ret. by destruct (rc' <? 0).
  - intros [rc q] Hq. destruct (rc <? 0); [respects|].
    destruct (run_pool_events ThWhiteoutCreateWorker (q_total q) tt
      (let! (_, _) := whiteout_create_worker_thread q in ret tt) (λ _, True)) as [H _]; [by right| |by intros; apply wp_run|done|].
    + pose proof (create_worker_events q Hq). respects.
    + respects.
Qed.

Lemma enqueue_all_ok effective :
  lowers = strtok_all ":" (fit 8192 effective) → Forall (λ l, slen l < 4096) lowers →
  respects (emits whiteout_event) (whiteout_enqueue_all (K := K) effective upperdir dcfg) ∧
  ∀ s, wp (whiteout_enqueue_all (K := K) effective upperdir dcfg) (λ '(_, q) _, Forall scan_task_ok (q_tasks q)) s.
Proof.
  intros El Hl. unfold whiteout_enqueue_all. rewrite <- El. split.
  - pose proof enqueue_whiteout_events. respects; done.
  - intros s. apply (wp_mfor (λ _ '(_, q) _, Forall scan_task_ok (q_tasks q))); [by apply Forall_nil_2| |by intros [rc q] s' H].
    intros done lower rest [rc q] s' E Hq. apply wp_bind, wp_run.
    destruct (sys (Lstat lower) s') as [[e|st] s1]; simpl; [by apply wp_ret|]. destruct (negb _); [by apply wp_ret|].
    assert (lower ∈ lowers) as Hin by (rewrite E; set_solver). rewrite Forall_forall in Hl.
    apply wp_bind. eapply wp_mono; [apply (enqueue_whiteout_ok lower); auto using at_rel_top|].
    intros [rc' q'] s'' Hq'. apply wp_ret. by destruct (rc' <? 0).
Qed.
End whiteout_hidden.

Section whiteout_properties.
Context {W : Type} {K : Kernel W}.

(** Preparing whiteouts hides only what the configuration asks for.
    Whatever the lower directories hold and the kernel answers, the only
    changes made are directories created on the way to, and the opaque
    attribute set on, paths [upperdir/rel] where [rel] is not empty, matches
    one of the configured patterns, and is the path, by entry names other
    than "." and "..", of something below one of the lower directories. *)
Theorem prepare_whiteout_confined effective_lowerdir upperdir dcfg
    (Hup : slen upperdir < 4096)
    (Hlow : Forall (λ l, slen l < 4096) (strtok_all ":" (fit 8192 effective_lowerdir))) :
  respects (emits (whiteout_event (strtok_all ":" (fit 8192 effective_lowerdir)) upperdir dcfg))
    (prepare_whiteout_dirs effective_lowerdir upperdir dcfg).
Proof.
  set (lowers := strtok_all _ _) in *. unfold prepare_whiteout_dirs. destruct (_ <=? 0); [respects|].
  destruct (enqueue_all_ok lowers upperdir dcfg Hup effective_lowerdir eq_refl Hlow) as [He Hq].
  apply (respects_bind_post _ (λ '(_, q), Forall (scan_task_ok lowers upperdir dcfg) (q_tasks q))); [done|intros s; eapply wp_mono; [apply Hq|by intros [? ?] ?]|].
  intros [rc q] Hok. destruct (rc <? 0); [respects|]. destruct (_ =? 0); [respects|].
  destruct (scan_worker_ok lowers upperdir dcfg Hup q Hok) as [Hs Hm].
  destruct (run_pool_events lowers upperdir dcfg ThWhiteoutScanWorker (q_total q) task_queue_init
    (let! (results, _) := whiteout_scan_worker_thread q task_queue_init in ret results)
    (λ r, Forall (match_ok lowers upperdir dcfg) (q_tasks r))) as [Hp Hpost]; [by left|respects| |by apply Forall_nil_2|].
  - intros s. apply wp_bind. eapply wp_mono; [apply Hm|]. intros [r q'] s' Hr. by apply wp_ret.
  - apply (respects_bind_post _ (λ '(_, r), Forall (match_ok lowers upperdir dcfg) (q_tasks r))); [done|intros s; eapply wp_mono; [apply Hpost|by intros [? ?] ?]|].
    intros [rc' r] Hr. destruct (rc' <? 0); [respects|]. by apply create_whiteouts_events.
Qed.

Lemma statics_start_whiteout eff up dcfg : respects (keeps statics) (start_prepare_whiteout_async eff up dcfg).
Proof. unfold start_prepare_whiteout_async. respects. Qed.
End whiteout_properties.
#[export] Hint Resolve statics_start_whiteout : frame.

Definition whiteout_sim : sim :=
  Sim [lit "/lower"; lit "/lower/src"; lit "/lower/src/out"; lit "/lower/doc"; lit "/up"] [] [] 1000.
Definition whiteout_cfg : daemon_config := parse_post_mount_whiteout_dirs (lit "**/out") zero_config.

(** The run creates [/up/src/out]; the directory [/lower/src] is queued besides
    its child, and [/lower] besides both of its children. *)
Example whiteout_run :
  sim_dirs (world (snd (prepare_whiteout_dirs (K := sim_kernel) (lit "/lower") (lit "/up") whiteout_cfg
    (sim_state whiteout_sim [] zero_config)))) = [lit "/up/src/out"; lit "/up/src"] ++ sim_dirs whiteout_sim.
Proof. by vm_compute. Qed.

Example whiteout_queued :
  map ws_start_path (q_tasks (snd (fst (whiteout_enqueue_all (K := sim_kernel) (lit "/lower") (lit "/up") whiteout_cfg
    (sim_state whiteout_sim [] zero_config))))) = [lit "/lower/src/out"; lit "/lower/src"; lit "/lower/doc"; lit "/lower"].
Proof. by vm_compute. Qed.

Lemma prepare_whiteout_confined_witness :
  emits (whiteout_event (K := sim_kernel) (strtok_all ":" (fit 8192 (lit "/lower"))) (lit "/up") whiteout_cfg)
    (sim_state whiteout_sim [] zero_config)
    (snd (prepare_whiteout_dirs (K := sim_kernel) (lit "/lower") (lit "/up") whiteout_cfg (sim_state whiteout_sim [] zero_config))).
Proof.
  refine (prepare_whiteout_confined (K := sim_kernel) (lit "/lower") (lit "/up") whiteout_cfg _ _ (sim_state whiteout_sim [] zero_config)).
  - done.
  - by repeat constructor.
Defined.
