(* ===== verification/PostMount.v ===== *)
(** * Giving configured directories of a new sandbox to its user

    Models the chown half of [mbroker/daemon/post_mount.c]: the configured
    relative paths, some with wildcards, are changed recursively to the uid
    and gid of the request, by a thread. *)
From S2P Require Import Prelude CString Config MountTable OS SimKernel Walk.
Open Scope Z_scope.

Definition has_wildcard (s : cstr) : bool := strpbrk s (lit "*?[").

Section post_mount.
Context {W : Type} {K : Kernel W}.

Definition chown_recursive_entry (rec : cstr → unit → M W Z) (path : cstr) (rv : Z) (entry : dirent) : M W Z :=
  if is_dot (d_name entry) then ret rv
  else
    match child_path path (d_name entry) with
    | None => ret (-1)
    | Some child =>
      let! rc := rec child tt in ret (if rc <? 0 then -1 else rv)
    end.

Definition chown_recursive_body (uid gid : Z) (rec : cstr → unit → M W Z) (path : cstr) (_ : unit) : M W Z :=
  let! r := sys (Lstat path) in
  match r with
  | inl e => ret (if e =? ENOENT then 0 else -1)
  | inr st =>
    let! _ := sys (Lchown path uid gid) in
    if negb (st_isdir st) then ret 0
    else
      let! dir := sys (Opendir path) in
      match dir with
      | inl _ => ret (-1)
      | inr entries => meach entries 0 (chown_recursive_entry rec path)
      end
  end.

Definition chown_dir_recursive (path : cstr) (uid gid : Z) : M W Z :=
  walk (-1) (chown_recursive_body uid gid) path tt.

Definition post_mount_target (sandboxname rel : cstr) : cstr := sandboxname ++ lit "/" ++ rel.

Definition post_mount_chown_one (sandboxname rel : cstr) (uid gid : Z) : M W unit :=
  let target := post_mount_target sandboxname rel in
  if 4096 <=? slen target then ret tt
  else if has_wildcard rel then
    let! g := call (Glob target) in
    match g with
    | GlobNoMatch => ret tt
    | GlobFailed => ret tt
    | GlobMatched paths =>
      meach paths tt (λ _ matched, let! _ := chown_dir_recursive matched uid gid in ret tt)
    end
  else
    let! r := sys (Lstat target) in
    match r with
    | inl _ => ret tt
    | inr _ => let! _ := chown_dir_recursive target uid gid in ret tt
    end.

Definition post_mount_chown_thread (sandboxname : cstr) (uid gid : Z) (dirs : list cstr) : M W unit :=
  meach dirs tt (λ _ rel, post_mount_chown_one sandboxname rel uid gid).

(** The directories copied into the thread's request. *)
Definition post_mount_dirs (dcfg : daemon_config) : list cstr :=
  map (fit MAX_POST_MOUNT_CHOWN_DIR_LEN) (take (Z.to_nat MAX_POST_MOUNT_CHOWN_DIRS) (post_mount_chown_dirs dcfg)).

Definition start_post_mount_chown_async (sandboxname : cstr) (uid gid : Z) (dcfg : daemon_config) : M W Z :=
  if negb (nonempty sandboxname) || (post_mount_chown_dir_count dcfg <=? 0) then ret 0
  else
    let! ok := try Alloc in
    if negb ok then ret (- ENOMEM)
    else
      let! rc := call (PthreadCreate (ThPostMountChown (fit 2048 sandboxname) uid gid (post_mount_dirs dcfg))) in
      if negb (rc =? 0) then
        let! saved := get_errno in ret (- saved)
      else ret 0.
End post_mount.

(** * Properties *)

Section post_mount_properties.
Context {W : Type} {K : Kernel W}.
Implicit Types s : dstate W.

Lemma chown_recursive_extensional uid gid : extensional_body (chown_recursive_body (K := K) uid gid).
Proof.
  intros r1 r2 path [] s H. unfold chown_recursive_body, bind.
  destruct (sys (Lstat path) s) as [[e|st] s1]; [done|]. destruct (sys (Lchown path uid gid) s1) as [r s2].
  destruct (negb (st_isdir st)); [done|]. destruct (sys (Opendir path) s2) as [[e|entries] s3]; [done|].
  apply meach_ext. intros rv x s4 _. unfold chown_recursive_entry. destruct (is_dot (d_name x)); [done|].
  destruct (child_path path (d_name x)) as [child|] eqn:Ec; [|done].
  apply child_path_Some in Ec as [_ Hc]. unfold bind. by rewrite H.
Qed.

(** [root] is a configured path of the sandbox: the target itself, or, for a
    path with a wildcard, something that [glob] found for the target. *)
Definition chown_root (sandboxname : cstr) (dirs : list cstr) (root : cstr) : Prop :=
  ∃ rel, rel ∈ dirs ∧
    if has_wildcard rel
    then ∃ w paths, fst (k_do (Glob (post_mount_target sandboxname rel)) w) = GlobMatched paths ∧ root ∈ paths
    else root = post_mount_target sandboxname rel.

Definition chown_event (sandboxname : cstr) (uid gid : Z) (dirs : list cstr) (e : event) : Prop :=
  let 'Ev c r := e in
  match c with
  | Lchown p u g => u = uid ∧ g = gid ∧ ∃ root, chown_root sandboxname dirs root ∧ below root p
  | _ => readonly e = true
  end.

Lemma chown_recursive_events sandboxname uid gid dirs root path :
  chown_root sandboxname dirs root → below root path →
  respects (emits (chown_event sandboxname uid gid dirs)) (chown_dir_recursive path uid gid).
Proof.
  intros Hroot. unfold chown_dir_recursive. pattern path. revert path.
  apply path_induction. intros path IH Hb s.
  rewrite walk_unfold by apply chown_recursive_extensional. revert s.
  change (respects (emits (chown_event sandboxname uid gid dirs))
    (chown_recursive_body uid gid (walk (-1) (chown_recursive_body uid gid)) path tt)).
  unfold chown_recursive_body at 1. respects; simpl; try done; [by eauto|].
  unfold chown_recursive_entry. destruct (is_dot _) eqn:Ed; [respects|].
  destruct (child_path path _) as [child|] eqn:Ec; [|respects].
  pose proof (below_child _ _ _ _ Hb Ed Ec) as Hbc. apply child_path_Some in Ec as [_ Hc].
  pose proof (IH child Hc Hbc). respects.
Qed.

(** The post-mount chown stays within the configured directories.
    Whatever the kernel answers, the thread only looks, and changes owners:
    to the user and group of the request, of paths reached by entry names
    other than "." and ".." from a configured path of the sandbox, or from
    what [glob] found for a configured path with a wildcard. *)
Theorem post_mount_chown_confined sandboxname uid gid dirs :
  respects (emits (chown_event sandboxname uid gid dirs)) (post_mount_chown_thread sandboxname uid gid dirs).
Proof.
  unfold post_mount_chown_thread. apply respects_meach; [apply _|]. intros [] rel Hrel.
  unfold post_mount_chown_one. destruct (_ <=? _); [respects|].
  destruct (has_wildcard rel) eqn:Ew.
  - assert (∀ paths, (∀ m, m ∈ paths → chown_root sandboxname dirs m) →
      respects (emits (chown_event sandboxname uid gid dirs))
        (meach paths tt (λ _ matched, let! _ := chown_dir_recursive matched uid gid in ret tt))) as Hall.
    { intros paths Hm. apply respects_meach; [apply _|]. intros [] m Hin.
      pose proof (chown_recursive_events sandboxname uid gid dirs m m (Hm m Hin) (below_refl m)). respects. }
    intros s. unfold bind at 1, call.
    destruct (k_do (Glob (post_mount_target sandboxname rel)) (world s)) as [g w] eqn:Eg.
    set (s1 := DState _ _ _ _ _ _ _). assert (emits (chown_event sandboxname uid gid dirs) s s1) as H1.
    { exists [Ev (Glob (post_mount_target sandboxname rel)) g]. by repeat constructor. }
    destruct g as [| |paths]; [exact H1|exact H1|]. etrans; [exact H1|]. apply Hall.
    intros m Hm. exists rel. rewrite Ew. split; [done|]. exists (world s), paths. by rewrite Eg.
  - assert (chown_root sandboxname dirs (post_mount_target sandboxname rel)) as Hr.
    { exists rel. by rewrite Ew. }
    pose proof (chown_recursive_events sandboxname uid gid dirs _ _ Hr (below_refl _)). respects; done.
Qed.

Lemma statics_post_mount_chown name uid gid dcfg : respects (keeps statics) (start_post_mount_chown_async name uid gid dcfg).
Proof. unfold start_post_mount_chown_async. respects. Qed.
End post_mount_properties.
#[export] Hint Resolve statics_post_mount_chown : frame.

Definition post_mount_sim : sim :=
  Sim [lit "/b"; lit "/b/sb1"; lit "/b/sb1/out"; lit "/b/sb1/src"] [(lit "/b/sb1/out/log", []); (lit "/b/sb1/src/a.c", [])] [] 0.

Example post_mount_run :
  concat (map modifies (trace (snd (post_mount_chown_thread (K := sim_kernel) (lit "/b/sb1") 7 8 [lit "out"; lit "none"]
    (sim_state post_mount_sim [] zero_config))))) = [lit "/b/sb1/out"; lit "/b/sb1/out/log"].
Proof. by vm_compute. Qed.
