(* ===== verification/Mount.v ===== *)
(** * Mounting and recovering sandboxes

    Models [mount_sandbox] and [restore_mounts] of
    [mbroker/daemon/mount_ops.c]. *)
From S2P Require Import Prelude CString Protocol Config MountTable OS SimKernel Storage Util Mounts Json Exports Record ModelClient Lowerdir Umount Whiteout PostMount.
Open Scope Z_scope.

(** The overlay root: the client's, or the configured one. *)
Definition chosen_overlayroot (custom_overlayroot : cstr) (dcfg : daemon_config) : cstr :=
  fit 2048 (if nonempty custom_overlayroot then custom_overlayroot else overlayroot dcfg).

(** The options of the overlay mount; the second component says that they do
    not fit the buffer of 8192 bytes. *)
Definition overlay_options (effective_lowerdir : cstr) (ctx : mount_ctx) (uid gid flags : Z) : cstr * bool :=
  let opts := lit "lowerdir=" ++ effective_lowerdir ++ lit ",upperdir=" ++ ctx_upperdir ctx ++
    lit ",workdir=" ++ ctx_workdir ctx ++ lit ",redirect_dir=on,index=on,nfs_export=on" in
  let opts :=
    if has_flag flags FLAG_OVERRIDE_UID && (slen opts <? 8192)
    then opts ++ lit ",override_creds=" ++ dec (to_int32 uid) ++ lit ":" ++ dec (to_int32 gid)
    else opts in
  (fit 8192 opts, 8192 <=? slen opts).

(** The report of a recovery: the text in [details], the offset [off], the
    three counters, and whether something was written outside of [details]. *)
Record restore_state := RestoreState {
  rs_details : cstr; rs_off : Z; rs_restored : Z; rs_failed : Z; rs_skipped : Z; rs_overflow : bool
}.
Definition restore_init : restore_state := RestoreState [] 0 0 0 0 false.
Definition add_restored r := RestoreState (rs_details r) (rs_off r) (rs_restored r + 1) (rs_failed r) (rs_skipped r) (rs_overflow r).
Definition add_failed r := RestoreState (rs_details r) (rs_off r) (rs_restored r) (rs_failed r + 1) (rs_skipped r) (rs_overflow r).
Definition add_skipped r := RestoreState (rs_details r) (rs_off r) (rs_restored r) (rs_failed r) (rs_skipped r + 1) (rs_overflow r).

(** [n = snprintf(details + off, details_size - off, ...); if (n > 0) off += n].
    The size is computed in [size_t]: once [off] is beyond [details_size] it
    wraps around to a huge number and the text lands outside of the buffer. *)
Definition restore_append (details_size : Z) (r : restore_state) (text : cstr) : restore_state :=
  let room := to_uint64 (details_size - rs_off r) in
  let inside := rs_off r <=? details_size in
  RestoreState
    (if inside then take (Z.to_nat (rs_off r)) (rs_details r) ++ fit room text else rs_details r)
    (rs_off r + slen text) (rs_restored r) (rs_failed r) (rs_skipped r)
    (rs_overflow r || (negb inside && (0 <? room))).

Section mount.
Context {W : Type} {K : Kernel W} {J : Jansson}.

(** What the overlay is mounted over, and the number of NFS mounts made;
    [None] is [goto err]. *)
Definition effective_lowerdir_for (ctx : mount_ctx) (sandboxname custom_lowerdir prebuild_sb : cstr)
    : M W (option (cstr * Z)) :=
  if nonempty prebuild_sb then
    if negb (is_absolute custom_lowerdir) then set_errno EINVAL ;; ret None
    else
      let! ok := try (StatPath custom_lowerdir) in
      ret (if ok then Some (fit 8192 custom_lowerdir, 0) else None)
  else handle_custom_lowerdir custom_lowerdir ctx sandboxname.

(** Creating the upper and work directories, and the two checks on them. *)
Definition different_devices (ctx : mount_ctx) : M W bool :=
  let! upper := sys (StatPath (ctx_upperdir ctx)) in
  match upper with
  | inl _ => ret false
  | inr st_upper =>
    let! work := sys (StatPath (ctx_workdir ctx)) in
    ret (match work with inl _ => false | inr st_work => negb (st_dev st_upper =? st_dev st_work) end)
  end.

Definition on_overlayfs (dir : cstr) : M W bool :=
  let! r := sys (Statfs dir) in
  match r with
  | inl _ => ret false
  | inr f_type => if f_type =? OVERLAYFS_SUPER_MAGIC then set_errno ENOTSUP ;; ret true else ret false
  end.

Definition prepare_overlay_dirs (ctx : mount_ctx) : M W bool :=
  let! _ := mkdir_p (ctx_upperdir ctx) mode_0775 in
  let! _ := mkdir_p (ctx_workdir ctx) mode_0775 in
  let! different := different_devices ctx in
  if different then ret false
  else
    let! nested := on_overlayfs (ctx_upperdir ctx) in
    if nested then ret false
    else
      let! nested := on_overlayfs (ctx_workdir ctx) in
      ret (negb nested).

(** From the overlay mount to the export: [false] is [goto err]. *)
Definition mount_overlay (ctx : mount_ctx) (sandboxname effective_lowerdir : cstr) (uid gid flags : Z)
    (baas_path prebuild_sb : cstr) : M W bool :=
  let! dcfg := get_cfg in
  (if 0 <? post_mount_whiteout_dir_count dcfg then
     let! _ := start_prepare_whiteout_async effective_lowerdir (ctx_upperdir ctx) dcfg in ret tt
   else ret tt) ;;
  let '(opts, too_long) := overlay_options effective_lowerdir ctx uid gid flags in
  if too_long then ret false
  else
    let! ok := try (Mount (lit "overlay") sandboxname (lit "overlay") 0 opts) in
    if negb ok then ret false
    else
      let! _ := with_table (mountinfo_track sandboxname flags (ctx_overlayroot ctx) baas_path prebuild_sb) in
      let! rc := ensure_overlay_export sandboxname in
      if rc <? 0 then
        update_table (mountinfo_untrack sandboxname) ;;
        let! _ := sys (Umount2 sandboxname MNT_DETACH) in
        ret false
      else ret true.

(** After the mount. *)
Definition finish_mount (ctx : mount_ctx) (sandboxname effective_lowerdir custom_lowerdir custom_overlayroot : cstr)
    (uid gid flags : Z) (baas_path prebuild_sb : cstr) : M W unit :=
  let! dcfg := get_cfg in
  let! _ := sys (Chown sandboxname uid gid) in
  (if 0 <? post_mount_chown_dir_count dcfg then
     let! _ := start_post_mount_chown_async sandboxname uid gid dcfg in ret tt
   else ret tt) ;;
  save_mount_record ctx sandboxname effective_lowerdir custom_lowerdir custom_overlayroot uid gid flags
    baas_path prebuild_sb.

(** The label [err]. *)
Definition mount_err (ctx : mount_ctx) (sandboxname : cstr) (custom_nfs_count : Z) : M W Z :=
  (if 0 <? custom_nfs_count then cleanup_custom_nfs_mounts (ctx_overlayroot ctx) sandboxname else ret tt) ;;
  exit_namespace ;;
  unlock_sandbox sandboxname ;;
  let! e := get_errno in ret (- e).

(** With the lock held and the directories named. *)
Definition mount_locked (ctx : mount_ctx) (sandboxname : cstr) (uid gid flags : Z)
    (custom_lowerdir custom_overlayroot baas_path prebuild_sb : cstr) : M W Z :=
  let! lower := effective_lowerdir_for ctx sandboxname custom_lowerdir prebuild_sb in
  match lower with
  | None => mount_err ctx sandboxname 0
  | Some (effective_lowerdir, custom_nfs_count) =>
    let! fail := fault (lit "FAIL_OVERLAY_MOUNT") in
    if fail then mount_err ctx sandboxname custom_nfs_count
    else
      let! ok := prepare_overlay_dirs ctx in
      if negb ok then mount_err ctx sandboxname custom_nfs_count
      else
        let! ok := mount_overlay ctx sandboxname effective_lowerdir uid gid flags baas_path prebuild_sb in
        if negb ok then mount_err ctx sandboxname custom_nfs_count
        else
          finish_mount ctx sandboxname effective_lowerdir custom_lowerdir custom_overlayroot uid gid flags
            baas_path prebuild_sb ;;
          exit_namespace ;;
          unlock_sandbox sandboxname ;;
          ret 0
  end.

Definition mount_sandbox (sandboxname : cstr) (uid gid flags : Z)
    (custom_lowerdir custom_overlayroot baas_path prebuild_sb : cstr) : M W Z :=
  let! dcfg := get_cfg in
  let root := chosen_overlayroot custom_overlayroot dcfg in
  if negb (nonempty root) then ret (- EINVAL)
  else if negb (nonempty custom_lowerdir) then ret (- EINVAL)
  else
    let! mounted := mountinfo_is_mounted sandboxname in
    if mounted then ret 0
    else
      let! _ := mkdir_p sandboxname mode_0775 in
      let! ok := try (Access sandboxname F_OK) in
      if negb ok then let! e := get_errno in ret (- e)
      else
        let! _ := sys (Chown sandboxname uid gid) in
        lock_sandbox sandboxname ;;
        let! _ := enter_namespace in
        let '(rc, ctx) := setup_overlay_dirs (MountCtx root [] []) sandboxname in
        if rc <? 0 then
          exit_namespace ;;
          unlock_sandbox sandboxname ;;
          let! e := get_errno in ret (- e)
        else
          mount_locked ctx sandboxname uid gid flags custom_lowerdir custom_overlayroot baas_path prebuild_sb.

(** *** Recovery *)

(** One record with the required fields. *)
Definition restore_record (overlayroot : cstr) (details_size : Z) (q : restore_request) (sandboxname lowerdir : cstr)
    (r : restore_state) : M W restore_state :=
  let! mounted := mountinfo_is_mounted sandboxname in
  if mounted then
    let effective_overlayroot :=
      match rr_overlayroot q with Some (c :: root) => c :: root | _ => overlayroot end in
    let! _ := with_table (mountinfo_track sandboxname (rr_flags q) effective_overlayroot
                (default [] (rr_baas_path q)) (default [] (rr_prebuild_sb q))) in
    ret (add_skipped (restore_append details_size r (lit "  skip: " ++ sandboxname ++ lit " (already mounted)" ++ [LF])))
  else
    let! rc := mount_sandbox sandboxname (to_uint32 (rr_uid q)) (to_uint32 (rr_gid q)) (rr_flags q) lowerdir
                 (default [] (rr_overlayroot q)) (default [] (rr_baas_path q)) (default [] (rr_prebuild_sb q)) in
    if rc =? 0 then
      ret (restore_append details_size (add_restored r) (lit "  ok: " ++ sandboxname ++ [LF]))
    else
      ret (restore_append details_size (add_failed r)
             (lit "  FAIL: " ++ sandboxname ++ lit ": " ++ strerror (- rc) ++ [LF])).

Definition restore_entry (overlayroot : cstr) (details_size : Z) (r : restore_state) (entry : dirent) : M W restore_state :=
  if starts_with "." (d_name entry) then ret r
  else
    let full := record_path overlayroot (d_name entry) in
    if (slen full <=? 0) || (4096 <=? slen full) then ret r
    else
      let! readable := try (Access full R_OK) in
      if negb readable then ret r
      else
        let! content := sys (ReadFile full) in
        match content with
        | inl _ => ret (add_failed r)
        | inr content =>
          match json_loads content with
          | None => ret (add_failed r)
          | Some root =>
            let q := read_record root in
            match rr_sandboxname q, rr_lowerdir q with
            | Some sandboxname, Some lowerdir => restore_record overlayroot details_size q sandboxname lowerdir r
            | _, _ => ret (add_failed r)
            end
          end
        end.

Definition restore_summary (r : restore_state) : cstr :=
  lit "Recover complete: " ++ dec (rs_restored r) ++ lit " restored, " ++ dec (rs_failed r) ++ lit " failed, " ++
  dec (rs_skipped r) ++ lit " skipped" ++ [LF].

(** The status and the report. *)
Definition restore_message (details_size : Z) (text : cstr) : restore_state := restore_append details_size restore_init text.
Definition restore_mounts (details_size : Z) : M W (Z * restore_state) :=
  let! dcfg := get_cfg in
  let root := overlayroot dcfg in
  if negb (nonempty root) then
    ret (- EINVAL, restore_message details_size (lit "No overlayroot configured in " ++ MREPOD_CONF_PATH ++ [LF]))
  else
    let! dir := sys (Opendir root) in
    match dir with
    | inl e =>
      let! e' := get_errno in
      ret (- e', restore_message details_size (lit "Failed to open overlayroot '" ++ root ++ lit "': " ++ strerror e ++ [LF]))
    | inr entries =>
      let! r := meach entries restore_init (restore_entry root details_size) in
      let r' := restore_append details_size r (restore_summary r) in
      ret (if 0 <? rs_failed r then - EIO else 0, r')
    end.
End mount.

(** * Mounting is all or nothing *)

Section mount_frames.
Context {W : Type} {K : Kernel W} {J : Jansson}.

Lemma statics_json_kv f k v c : respects (keeps statics) (json_kv_str f k v c).
Proof. unfold json_kv_str. respects. Qed.
#[local] Hint Resolve statics_json_kv : frame.
Lemma statics_save_record ctx name e cl co uid gid fl b p :
  respects (keeps statics) (save_mount_record ctx name e cl co uid gid fl b p).
Proof. unfold save_mount_record, json_kv_opt. respects. Qed.
#[local] Hint Resolve statics_save_record : frame.
Lemma statics_different_devices ctx : respects (keeps statics) (different_devices ctx).
Proof. unfold different_devices. respects. Qed.
Lemma statics_on_overlayfs dir : respects (keeps statics) (on_overlayfs dir).
Proof. unfold on_overlayfs. respects. Qed.
#[local] Hint Resolve statics_different_devices statics_on_overlayfs : frame.
Lemma statics_prepare_dirs ctx : respects (keeps statics) (prepare_overlay_dirs ctx).
Proof. pose proof (statics_mkdir_p (K := K)). unfold prepare_overlay_dirs. respects. Qed.
Lemma statics_effective_lowerdir ctx name cl pb : respects (keeps statics) (effective_lowerdir_for ctx name cl pb).
Proof. unfold effective_lowerdir_for. respects. Qed.
Lemma statics_finish ctx name e cl co uid gid fl b p :
  respects (keeps statics) (finish_mount ctx name e cl co uid gid fl b p).
Proof. unfold finish_mount. respects. Qed.

Context {MS : MountStore W K}.

Lemma mounts_ensure_export mp : respects (keeps mounts) (ensure_overlay_export mp).
Proof.
  unfold ensure_overlay_export, generate_fsid_uuid, random_fsid, read_existing, run_exportfs_refresh. respects.
Qed.
Lemma mounts_start_whiteout e u c : respects (keeps mounts) (start_prepare_whiteout_async e u c).
Proof. unfold start_prepare_whiteout_async. respects. Qed.
Lemma mounts_start_chown n u g c : respects (keeps mounts) (start_post_mount_chown_async n u g c).
Proof. unfold start_post_mount_chown_async. respects. Qed.
Lemma mounts_json_kv f k v c : respects (keeps mounts) (json_kv_str f k v c).
Proof. unfold json_kv_str. respects. Qed.
#[local] Hint Resolve mounts_ensure_export mounts_start_whiteout mounts_start_chown mounts_json_kv mounts_get_cfg : frame.
Lemma mounts_save_record ctx name e cl co uid gid fl b p :
  respects (keeps mounts) (save_mount_record ctx name e cl co uid gid fl b p).
Proof. unfold save_mount_record, json_kv_opt. respects. Qed.
#[local] Hint Resolve mounts_save_record : frame.
Lemma mounts_prepare_dirs ctx : respects (keeps mounts) (prepare_overlay_dirs ctx).
Proof. unfold prepare_overlay_dirs, different_devices, on_overlayfs. respects. Qed.
Lemma mounts_finish ctx name e cl co uid gid fl b p :
  respects (keeps mounts) (finish_mount ctx name e cl co uid gid fl b p).
Proof. unfold finish_mount. respects. Qed.
End mount_frames.
#[export] Hint Resolve statics_prepare_dirs statics_effective_lowerdir statics_finish statics_save_record
  mounts_ensure_export mounts_start_whiteout mounts_start_chown mounts_prepare_dirs mounts_finish mounts_get_cfg : frame.

(** The mount point of a sandbox is never one of its NFS mount points. *)
Lemma clower_not_self root name i :
  0 <= i → slen name < 2048 → name ≠ clower_path root (sb_basename name) i.
Proof.
  intros Hi Hl E. unfold sb_basename in E. rewrite fit_id in E by done.
  assert ("/"%char ∉ lit "-clower-" ++ dec i) as Ht.
  { destruct (dec_digits i Hi) as [Hd _]. rewrite forallb_forall in Hd. rewrite not_elem_of_app. split.
    - apply (bool_decide_eq_true _). by vm_compute.
    - intros Hin%list_elem_of_In%Hd. by vm_compute in Hin. }
  assert (basename name = basename (lit "x" ++ lit "/" ++ basename name ++ lit "-clower-" ++ dec i) → False) as Hno.
  { destruct (basename_slash_free name) as [Hb|Hb]; [rewrite Hb|].
    - change (lit "x" ++ lit "/" ++ lit "/" ++ lit "-clower-" ++ dec i) with (lit "x/" ++ "/"%char :: lit "-clower-" ++ dec i).
      rewrite basename_tail by done. intros H. apply Ht. rewrite <- H. left.
    - change (lit "x" ++ lit "/" ++ basename name ++ lit "-clower-" ++ dec i)
        with (lit "x" ++ "/"%char :: basename name ++ lit "-clower-" ++ dec i).
      rewrite basename_tail; [|by apply not_elem_of_app|by destruct (basename name)].
      intros H. apply (f_equal length) in H. rewrite !length_app in H. simpl in H. lia. }
  apply Hno. clear Hno. rewrite E at 1. unfold clower_path.
  destruct (basename_slash_free name) as [Hb|Hb].
  - rewrite Hb. change (lit "/" ++ lit "/" ++ lit "-clower-" ++ dec i) with (lit "/" ++ "/"%char :: lit "-clower-" ++ dec i).
    rewrite app_assoc, basename_tail by done.
    change (lit "x" ++ lit "/" ++ "/"%char :: lit "-clower-" ++ dec i) with (lit "x/" ++ "/"%char :: lit "-clower-" ++ dec i).
    by rewrite basename_tail.
  - change (lit "/" ++ basename name ++ lit "-clower-" ++ dec i) with ("/"%char :: basename name ++ lit "-clower-" ++ dec i).
    rewrite !basename_tail; (by apply not_elem_of_app) || (by destruct (basename name)) || done.
Qed.

Section mount_properties.
Context {W : Type} {K : Kernel W} {J : Jansson} {MS : MountStore W K}.
Implicit Types s : dstate W.

(** [exit_namespace(); unlock_sandbox(); ...]. *)
Lemma wp_exit_unlock {A} name (k : M W A) (Q : A → dstate W → Prop) s :
  (∀ s', table_cfg s' = table_cfg s → mounts s' = mounts s → lock_fd s' = -1 → wp k Q s') →
  wp (exit_namespace ;; unlock_sandbox name ;; k) Q s.
Proof.
  intros H. apply wp_bind. eapply wp_mono.
  { apply wp_and; [apply (wp_respects (keeps table_cfg))|apply (wp_respects (keeps mounts))].
    - apply keeps_table_cfg; auto with frame.
    - auto with frame. }
  intros u s1 [H1 M1]. apply wp_bind. eapply wp_mono.
  { apply wp_and; [|apply wp_and; [apply (wp_respects (keeps table_cfg))|apply (wp_respects (keeps mounts))]].
    - apply (wp_run _ (λ _ s', lock_fd s' = -1)), unlock_sandbox_unlocks.
    - apply keeps_table_cfg; auto with frame.
    - auto with frame. }
  intros u2 s2 (Hl & H2 & M2). unfold keeps in *. apply H; congruence.
Qed.

Lemma wp_get_errno_ret {A} (f : Z → A) (Q : A → dstate W → Prop) s :
  (∀ e, Q (f e) s) → wp (let! e := get_errno in ret (f e)) Q s.
Proof. intros H. apply H. Qed.

(** The label [err] undoes the NFS mounts. *)
Lemma wp_mount_err ctx name n s0 s :
  plain_chars (ctx_overlayroot ctx) = true → plain_chars (sb_basename name) = true →
  n <= MAX_CUSTOM_LOWERDIR_COMPONENTS → mounted_targets (ctx_overlayroot ctx) (sb_basename name) 0 n s0 s →
  wp (mount_err ctx name n)
     (λ rc s', mounts s' ⊆ mounts s0 ∧ table_cfg s' = table_cfg s ∧ lock_fd s' = -1) s.
Proof.
  intros Hr Hb Hn (H0 & Hsub & Hp & Ht). unfold mount_err.
  assert (∀ s1, statics s1 = statics s → mounts s1 ⊆ mounts s → (∀ i, 0 <= i < n → clower_path (ctx_overlayroot ctx) (sb_basename name) i ∉ mounts s1) →
    wp (exit_namespace ;; unlock_sandbox name ;; let! e := get_errno in ret (- e))
      (λ rc s', mounts s' ⊆ mounts s0 ∧ table_cfg s' = table_cfg s ∧ lock_fd s' = -1) s1) as Hend.
  { intros s1 Hs1 Hm1 Hg. apply wp_exit_unlock. intros s2 H2 M2 L2. apply wp_get_errno_ret. intros e.
    injection Hs1 as T1 C1 _ _. unfold table_cfg in *. split_and!; [|congruence|done]. rewrite M2.
    intros p Hp1. destruct (Hp p (Hm1 p Hp1)) as [?|(i & Hi & -> & _)]; [done|]. by destruct (Hg i Hi). }
  apply wp_bind. destruct (Z.ltb_spec 0 n).
  - eapply wp_mono; [apply wp_and; [by apply (wp_cleanup_custom _ _ Hr Hb name n)|apply (wp_respects (keeps statics)); auto with frame]|].
    intros u s1 [[Hm Hg] Hs]. by apply Hend.
  - apply wp_ret, Hend; [done|done|lia].
Qed.

(** What [mountinfo_track] and then [mountinfo_untrack] leave. *)
Lemma track_untrack name fl o b p t :
  table_ok t → slen name < 2048 →
  let t' := mountinfo_untrack name (snd (mountinfo_track name fl o b p t)) in
  table_ok t' ∧ tracked_map t' = delete name (tracked_map t).
Proof.
  intros Hok Hl. pose proof (mountinfo_track_ok name fl o b p t Hok Hl) as H.
  destruct (mountinfo_track name fl o b p t) as [rc t1]. destruct H as [H1 Hcase]. simpl.
  destruct (mountinfo_untrack_ok name t1 H1) as [H2 ->]. split; [done|].
  destruct Hcase as [(_ & ->)|(_ & -> & _)]; [|done]. by rewrite delete_insert_eq.
Qed.

Lemma wp_mount_overlay ctx name e uid gid flags b p s :
  name ∉ mounts s → table_ok (tracked s) → slen name < 2048 →
  wp (mount_overlay ctx name e uid gid flags b p)
     (λ ok s', cfg s' = cfg s ∧
        if ok : bool then mounts s' = {[name]} ∪ mounts s ∧
          tracked s' = snd (mountinfo_track name flags (ctx_overlayroot ctx) b p (tracked s))
        else mounts s' = mounts s ∧
          (tracked s' = tracked s ∨ table_ok (tracked s') ∧ tracked_map (tracked s') = delete name (tracked_map (tracked s)))) s.
Proof.
  intros Hname Hok Hl. unfold mount_overlay. apply wp_bind. unfold get_cfg, wp at 1.
  apply wp_bind. eapply wp_mono.
  { apply wp_and; [apply (wp_respects (keeps statics))|apply (wp_respects (keeps mounts))]; respects. }
  intros u s1 [Hs1 M1]. injection Hs1 as T1 C1 _ _. unfold keeps in M1.
  destruct (overlay_options e ctx uid gid flags) as [opts too_long].
  destruct too_long; [apply wp_ret; split_and!; auto|].
  apply wp_bind. eapply wp_mono.
  { apply wp_and; [apply (wp_respects (keeps statics)); auto with frame|].
    apply (wp_try_mount _ _ _ _ _ (λ ok s', mounts s' = if ok : bool then {[name]} ∪ mounts s1 else mounts s1)). done. }
  intros ok s2 [Hs2 M2]. injection Hs2 as T2 C2 _ _.
  destruct ok; simpl negb; cbv iota; [|apply wp_ret; split_and!; [congruence|congruence|left; congruence]].
  apply wp_bind, wp_run. unfold with_table.
  destruct (mountinfo_track name flags (ctx_overlayroot ctx) b p (tracked s2)) as [trc t'] eqn:Etrack. simpl.
  set (s3 := DState _ _ _ _ _ _ _). assert (mounts s3 = mounts s2) as M3 by done.
  apply wp_bind. eapply wp_mono.
  { apply wp_and; [apply (wp_respects (keeps statics))|apply (wp_respects (keeps mounts))]; auto with frame. }
  intros rc s4 [Hs4 M4]. injection Hs4 as T4 C4 _ _. unfold keeps in M4.
  assert (tracked s2 = tracked s) as T2' by congruence. rewrite T2' in Etrack.
  destruct (rc <? 0).
  - apply wp_bind, wp_run. unfold update_table, with_table. simpl. set (s5 := DState _ _ _ _ _ _ _).
    assert (mounts s5 = mounts s4) as M5 by done.
    apply wp_bind. eapply wp_mono.
    { apply wp_and; [apply (wp_respects (keeps statics)); auto with frame|].
      apply (wp_detach name (λ _ s', mounts s' = mounts s5 ∖ {[name]})); [|done].
      rewrite M5, M4, M3, M2. set_solver. }
    intros r s6 [Hs6 M6]. injection Hs6 as T6 C6 _ _. apply wp_ret. split_and!.
    + rewrite C6. simpl. rewrite C4. simpl. congruence.
    + rewrite M6, M5, M4, M3, M2, M1. set_solver.
    + right. rewrite T6. simpl. rewrite T4. simpl.
      pose proof (track_untrack name flags (ctx_overlayroot ctx) b p (tracked s) Hok Hl) as Htu.
      rewrite Etrack in Htu. exact Htu.
  - apply wp_ret. split_and!.
    + rewrite C4. simpl. congruence.
    + rewrite M4, M3, M2. by rewrite M1.
    + rewrite T4. simpl. by rewrite Etrack.
Qed.

(** The outcomes of a mount: done, or undone. *)
Definition mount_committed (name root : cstr) (flags : Z) (b p : cstr) s s' : Prop :=
  name ∈ mounts s' ∧ mounts s ⊆ mounts s' ∧
  tracked s' = snd (mountinfo_track name flags root b p (tracked s)).
Definition mount_undone (name : cstr) s s' : Prop :=
  mounts s' ⊆ mounts s ∧
  (tracked s' = tracked s ∨ table_ok (tracked s') ∧ tracked_map (tracked s') = delete name (tracked_map (tracked s))).

(** The request names at most 16 NFS components. *)
Definition few_nfs (root name custom_lowerdir : cstr) : Prop :=
  ∀ cs n, components root (sb_basename name) (strtok_all ":" (fit 2048 custom_lowerdir)) 0 = Some (cs, n) →
    n <= MAX_CUSTOM_LOWERDIR_COMPONENTS.

Lemma wp_effective_lowerdir ctx name cl pb s :
  plain_chars (ctx_overlayroot ctx) = true → plain_chars (sb_basename name) = true →
  few_nfs (ctx_overlayroot ctx) name cl →
  wp (effective_lowerdir_for ctx name cl pb)
     (λ r s', match r with
              | None => mounts s' ⊆ mounts s
              | Some (_, n) => n <= MAX_CUSTOM_LOWERDIR_COMPONENTS ∧
                  mounted_targets (ctx_overlayroot ctx) (sb_basename name) 0 n s s'
              end) s.
Proof.
  intros Hr Hb Hn. unfold effective_lowerdir_for. destruct (nonempty pb).
  - destruct (negb _); [apply wp_bind; change (mounts s ⊆ mounts s); done|].
    apply wp_bind, wp_keeps_mounts; [auto with frame|]. intros ok s1 H1. apply wp_ret.
    destruct ok; [split; [done|by apply mounted_targets_refl]|by rewrite H1].
  - eapply wp_mono; [apply wp_and; [apply wp_handle_resolves|by apply wp_handle_mounts]|].
    intros [[r n]|] s1 [H1 H2]; [|done]. split; [|done].
    destruct (H1 r n eq_refl) as (cs & Hc & _). by eapply Hn.
Qed.

Lemma wp_mount_locked ctx name uid gid flags cl co b p s :
  name ∉ mounts s → table_ok (tracked s) → slen name < 2048 →
  plain_chars (ctx_overlayroot ctx) = true → plain_chars (sb_basename name) = true →
  few_nfs (ctx_overlayroot ctx) name cl →
  wp (mount_locked ctx name uid gid flags cl co b p)
     (λ rc s', cfg s' = cfg s ∧ lock_fd s' = -1 ∧
        (rc = 0 ∧ mount_committed name (ctx_overlayroot ctx) flags b p s s' ∨ mount_undone name s s')) s.
Proof.
  intros Hname Hok Hl Hr Hb Hn. unfold mount_locked. apply wp_bind. eapply wp_mono.
  { apply wp_and; [by apply wp_effective_lowerdir|apply (wp_respects (keeps statics)); auto with frame]. }
  intros r s1 [H1 Hs1]. injection Hs1 as T1 C1 _ _.
  assert (∀ n s2, n <= MAX_CUSTOM_LOWERDIR_COMPONENTS →
    mounted_targets (ctx_overlayroot ctx) (sb_basename name) 0 n s s2 → cfg s2 = cfg s →
    (tracked s2 = tracked s ∨ table_ok (tracked s2) ∧ tracked_map (tracked s2) = delete name (tracked_map (tracked s))) →
    wp (mount_err ctx name n) (λ rc s', cfg s' = cfg s ∧ lock_fd s' = -1 ∧
      (rc = 0 ∧ mount_committed name (ctx_overlayroot ctx) flags b p s s' ∨ mount_undone name s s')) s2) as Herr.
  { intros n s2 Hn2 Ht2 Hc2 Hundo. eapply wp_mono; [by apply wp_mount_err|].
    intros rc s3 (M3 & H3 & L3). injection H3 as T3 C3. split_and!; [congruence|done|]. right. split; [done|by rewrite T3]. }
  destruct r as [[e n]|].
  2:{ eapply wp_mono; [apply (wp_mount_err ctx name 0 s1 s1); [done|done|by vm_compute|by apply mounted_targets_refl]|].
      intros rc s3 (M3 & H3 & L3). injection H3 as T3 C3. split_and!; [congruence|done|]. right.
      split; [by etrans|]. left. congruence. }
  destruct H1 as [Hn1 Ht1].
  assert (∀ s2, mounts s2 = mounts s1 → mounted_targets (ctx_overlayroot ctx) (sb_basename name) 0 n s s2) as Hsame.
  { intros s2 E. unfold mounted_targets in *. by rewrite E. }
  apply wp_bind. eapply wp_mono.
  { apply wp_and; [apply (wp_respects (keeps statics) (fault _)), statics_fault|apply (wp_respects (keeps mounts)), mounts_fault]. }
  intros fail s2 [Hs2 M2]. injection Hs2 as T2 C2 _ _. unfold keeps in M2.
  destruct fail; [apply Herr; auto; [congruence|left; congruence]|].
  apply wp_bind. eapply wp_mono.
  { apply wp_and; [apply (wp_respects (keeps statics))|apply (wp_respects (keeps mounts))]; auto with frame. }
  intros ok s3 [Hs3 M3]. injection Hs3 as T3 C3 _ _. unfold keeps in M3.
  destruct ok; simpl negb; cbv iota; [|apply Herr; [done|apply Hsame; congruence|congruence|left; congruence]].
  assert (name ∉ mounts s3) as Hname3.
  { rewrite M3, M2. intros Hin. destruct Ht1 as (_ & _ & Hp & _).
    destruct (Hp name Hin) as [?|(i & Hi & E & _)]; [done|]. by apply (clower_not_self (ctx_overlayroot ctx) name i) in E; [|lia|]. }
  assert (tracked s3 = tracked s) as T3' by congruence.
  apply wp_bind. eapply wp_mono; [apply wp_mount_overlay; [done|by rewrite T3'|done]|].
  intros ok s4 [C4 H4]. destruct ok; simpl negb; cbv iota.
  - destruct H4 as [M4 T4]. apply wp_bind. eapply wp_mono.
    { apply wp_and; [apply (wp_respects (keeps statics))|apply (wp_respects (keeps mounts))]; auto with frame. }
    intros u s5 [Hs5 M5]. injection Hs5 as T5 C5 _ _. unfold keeps in M5.
    apply wp_exit_unlock. intros s6 H6 M6 L6. injection H6 as T6 C6. apply wp_ret.
    split_and!; [congruence|done|]. left. split; [done|]. unfold mount_committed.
    rewrite M6, M5, M4, M3, M2, T6, T5, T4, T3'. destruct Ht1 as (_ & Hsub & _).
    split_and!; [set_solver| |done]. etrans; [exact Hsub|set_solver].
  - destruct H4 as [M4 T4]. apply Herr; [done|apply Hsame; congruence|congruence|by rewrite T3' in T4].
Qed.

End mount_properties.

(** ** Runs *)

Definition mount_sim : sim := Sim [lit "/b"; lit "/ov"; lit "/lower"; LOCKS_DIR] [(EXPORTS_FILE, [])] [] 1000.
Definition mount_cfg : daemon_config := set_overlayroot (lit "/ov") zero_config.
Definition mount_state : dstate sim := sim_state mount_sim [] mount_cfg.

Example mount_sandbox_run :
  let '(rc, s') := mount_sandbox (K := sim_kernel) (J := tree_jansson) (lit "/b/sb1") 1000 100 0 (lit "/lower:nfs1:/x") [] [] [] mount_state in
  rc = 0 ∧ sim_mounts (world s') = [lit "/b/sb1"; lit "/ov/sb1-clower-0"] ∧ active_mountpoints (tracked s') = [lit "/b/sb1"].
Proof. by vm_compute. Qed.

(** The same with a work directory on a file system of its own: the mount is
    refused, and undone; the result is not about that, but the [ENOENT] that
    the attempt to open the lock file left in [errno]. *)
Definition two_devices : Kernel sim :=
  override sim_kernel (λ A c,
    match c in syscall A return option A with
    | StatPath p => Some (inr (Stat 1000 (if str_eqb p (lit "/ov/sb1/work") then 2 else 1) 0 true))
    | Mkdir _ _ => Some (inr tt)
    | Access _ _ => Some (inr tt)
    | _ => None
    end).

Example mount_sandbox_stale_errno :
  let '(rc, s') := mount_sandbox (K := two_devices) (J := tree_jansson) (lit "/b/sb1") 1000 100 0 (lit "/lower") [] [] [] mount_state in
  rc = - ENOENT ∧ sim_mounts (world s') = [] ∧ tracked s' = [] ∧
  nth_error (trace s') 8 = Some (Ev (OpenRW (lock_path (lit "/b/sb1")) mode_0644) (inl ENOENT)).
Proof. by vm_compute. Qed.


(** * The report of a recovery *)

Section restore_properties.
Context {W : Type} {K : Kernel W} {J : Jansson}.
Implicit Types s : dstate W.

(** The report after writing [texts]. *)
Definition reported (size : Z) (texts : list cstr) (r : restore_state) : Prop :=
  rs_off r = slen (concat texts) ∧
  (slen (concat texts) < size → rs_details r = concat texts) ∧
  (rs_overflow r = true → size < slen (concat (removelast texts))).

Lemma reported_append size texts r t :
  0 < size < 2 ^ 64 → reported size texts r → reported size (texts ++ [t]) (restore_append size r t).
Proof.
  intros Hsize (Ho & Hd & Hv). unfold reported, restore_append. simpl.
  rewrite concat_app, slen_app, removelast_last. simpl. rewrite app_nil_r, Ho.
  pose proof (slen_nonneg (concat texts)). pose proof (slen_nonneg t). split_and!; [done| |].
  - intros Hlt. rewrite Hd by lia.
    destruct (Z.leb_spec (slen (concat texts)) size); [|lia].
    unfold to_uint64. rewrite Z.mod_small, fit_id by lia. f_equal. rewrite take_ge; [done|unfold slen; lia].
  - intros [Hr|[Hi%negb_true_iff%Z.leb_gt _]%andb_true_iff]%orb_true_iff; [|lia].
    apply Hv in Hr. assert (slen (concat (removelast texts)) <= slen (concat texts)); [|lia].
    destruct texts as [|x l] using rev_ind; [done|]. rewrite removelast_last, concat_app, slen_app. pose proof (slen_nonneg (concat [x])). lia.
Qed.

Lemma reported_counters size texts r r' :
  rs_details r' = rs_details r → rs_off r' = rs_off r → rs_overflow r' = rs_overflow r →
  reported size texts r → reported size texts r'.
Proof. unfold reported. by intros -> -> ->. Qed.

(** The lines for the directory entries with the three counters: a sandbox
    that is recovered, skipped, or cannot be recovered has its line, a record
    that cannot be read only counts as failed. *)
Inductive recovered : list cstr → Z → Z → Z → Prop :=
  | recovered_none : recovered [] 0 0 0
  | recovered_ok lines ok failed skipped name :
      recovered lines ok failed skipped →
      recovered (lines ++ [lit "  ok: " ++ name ++ [LF]]) (ok + 1) failed skipped
  | recovered_skip lines ok failed skipped name :
      recovered lines ok failed skipped →
      recovered (lines ++ [lit "  skip: " ++ name ++ lit " (already mounted)" ++ [LF]]) ok failed (skipped + 1)
  | recovered_fail lines ok failed skipped name e :
      recovered lines ok failed skipped →
      recovered (lines ++ [lit "  FAIL: " ++ name ++ lit ": " ++ strerror e ++ [LF]]) ok (failed + 1) skipped
  | recovered_unreadable lines ok failed skipped :
      recovered lines ok failed skipped → recovered lines ok (failed + 1) skipped.

Definition restore_progress (size : Z) (r : restore_state) : Prop :=
  ∃ lines, reported size lines r ∧ recovered lines (rs_restored r) (rs_failed r) (rs_skipped r).

Lemma restore_progress_failed size r : restore_progress size r → restore_progress size (add_failed r).
Proof. intros (lines & Hr & Hc). exists lines. split; [by eapply reported_counters|by constructor]. Qed.

Lemma restore_entry_progress root size r e s :
  0 < size < 2 ^ 64 → restore_progress size r →
  wp (restore_entry root size r e) (λ r' _, restore_progress size r') s.
Proof.
  intros Hsize Hp. pose proof (restore_progress_failed size r Hp) as Hfail.
  unfold restore_entry. destruct (starts_with _ _); [by apply wp_ret|]. destruct (_ || _); [by apply wp_ret|].
  apply wp_bind, wp_run. destruct (try _ s) as [[] s1]; cbn [fst snd negb]; cbv iota; [|by apply wp_ret].
  apply wp_bind, wp_run. destruct (sys _ s1) as [[er|content] s2]; cbn [fst snd]; [by apply wp_ret|].
  destruct (json_loads content) as [j|]; [|by apply wp_ret]. generalize (read_record j). intros q.
  destruct (rr_sandboxname q) as [name|]; [|by apply wp_ret]. destruct (rr_lowerdir q) as [lower|]; [|by apply wp_ret].
  destruct Hp as (lines & Hr & Hc).
  unfold restore_record. apply wp_bind, wp_run. destruct (mountinfo_is_mounted name s2) as [[] s3]; simpl.
  - apply wp_bind, wp_run. destruct (with_table _ s3) as [rc s4]. simpl. apply wp_ret. eexists. split.
    + eapply reported_counters; [..|by apply reported_append]; done.
    + by constructor.
  - apply wp_bind, wp_run. destruct (mount_sandbox _ _ _ _ _ _ _ _ s3) as [rc s4]. simpl.
    destruct (rc =? 0); apply wp_ret; eexists; (split; [apply reported_append; [done|by eapply reported_counters]|by constructor]).
Qed.

(** The lines that fit are the report. *)
Lemma reported_fits size texts r :
  reported size texts r → 0 < size → slen (concat texts) < size → rs_details r = concat texts ∧ rs_overflow r = false.
Proof.
  intros (_ & Hd & Hv) H0 Hlt. split; [by apply Hd|]. destruct (rs_overflow r); [|done]. exfalso.
  specialize (Hv eq_refl). destruct texts as [|x l] using rev_ind; [simpl in *; change (slen []) with 0 in *; lia|].
  rewrite removelast_last in Hv. rewrite concat_app, slen_app in Hlt. pose proof (slen_nonneg (concat [x])). lia.
Qed.

Lemma reported_message size text : 0 < size < 2 ^ 64 → reported size [text] (restore_message size text).
Proof. intros H. apply (reported_append size [] restore_init text H). by split_and!. Qed.

(** what a recovery reports.  Whatever the records and the kernel are,
    the report consists of one line for each sandbox that was recovered,
    skipped because it is mounted, or could not be recovered, in the order of
    the directory, and a last line with the numbers of the three, where
    unreadable records count as failed; the status is [-EIO] exactly when
    something failed.  Without an overlay root, or when it cannot be read,
    the report is one line that says so.  When the lines fit the buffer the
    text is exactly these lines; when they do not, something is written
    outside of the buffer only if the lines before the last one are already
    longer than it. *)
Theorem restore_mounts_report size s (Hsize : 0 < size < 2 ^ 64) :
  wp (restore_mounts size)
     (λ '(rc, r) _, ∃ texts, reported size texts r ∧
        (slen (concat texts) < size → rs_details r = concat texts ∧ rs_overflow r = false) ∧
        ((∃ lines, texts = lines ++ [restore_summary r] ∧
            recovered lines (rs_restored r) (rs_failed r) (rs_skipped r) ∧
            rc = if 0 <? rs_failed r then - EIO else 0) ∨
         overlayroot (cfg s) = [] ∧ rc = - EINVAL ∧
           texts = [lit "No overlayroot configured in " ++ MREPOD_CONF_PATH ++ [LF]] ∨
         (∃ e, rc = - e ∧
           texts = [lit "Failed to open overlayroot '" ++ overlayroot (cfg s) ++ lit "': " ++ strerror e ++ [LF]]))) s.
Proof.
  unfold restore_mounts. apply wp_bind. unfold get_cfg, wp at 1. cbv zeta.
  destruct (overlayroot (cfg s)) as [|c root] eqn:Eroot; simpl negb; cbv iota.
  { apply wp_ret. eexists. split; [by apply reported_message|]. split; [apply reported_fits; [by apply reported_message|lia]|].
    right. left. done. }
  apply wp_bind, wp_sys. intros [e|entries] s1 _ _ He _.
  { apply wp_bind. unfold get_errno, wp at 1. rewrite He. apply wp_ret. eexists. split; [by apply reported_message|].
    split; [apply reported_fits; [by apply reported_message|lia]|]. right. right. by exists e. }
  apply wp_bind. apply (wp_meach (λ _ r _, restore_progress size r)).
  - exists []. split; [by split_and!|constructor].
  - intros done e rest r s2 _ Hp. by apply restore_entry_progress.
  - intros r s2 (lines & Hr & Hc). apply wp_ret. exists (lines ++ [restore_summary r]).
    pose proof (reported_append size lines r (restore_summary r) Hsize Hr) as H.
    split; [done|]. split; [apply reported_fits; [done|lia]|]. left. by exists lines.
Qed.
End restore_properties.

(** Two records of sandboxes whose lower directory is missing, reported into
    [size] bytes. *)
Definition broken_record (name : cstr) : list ascii :=
  lit "{" ++ [LF] ++ kv_str (lit "sandboxname") name true ++ kv_str (lit "lowerdir") (lit "/none") false ++ lit "}" ++ [LF].
Definition restore_sim : sim :=
  Sim [lit "/b"; lit "/ov"; lit "/ov/sb1"; lit "/ov/sb2"]
    [(lit "/ov/sb1/mountinfo.json", broken_record (lit "/b/sandbox-number-1"));
     (lit "/ov/sb2/mountinfo.json", broken_record (lit "/b/sandbox-number-2"))] [] 0.

Example restore_mounts_run :
  let '(rc, r) := fst (restore_mounts (K := sim_kernel) (J := tree_jansson) 16384 (sim_state restore_sim [] mount_cfg)) in
  rc = - EIO ∧ rs_failed r = 2 ∧ rs_overflow r = false.
Proof. by vm_compute. Qed.

Example restore_mounts_overflow :
  rs_overflow (snd (fst (restore_mounts (K := sim_kernel) (J := tree_jansson) 64 (sim_state restore_sim [] mount_cfg)))) = true.
Proof. by vm_compute. Qed.

Lemma restore_mounts_report_witness :
  wp (restore_mounts (K := sim_kernel) (J := tree_jansson) 16384)
     (λ '(rc, r) _, ∃ texts, reported 16384 texts r ∧
        (slen (concat texts) < 16384 → rs_details r = concat texts ∧ rs_overflow r = false) ∧
        ((∃ lines, texts = lines ++ [restore_summary r] ∧
            recovered (K := sim_kernel) lines (rs_restored r) (rs_failed r) (rs_skipped r) ∧
            rc = if 0 <? rs_failed r then - EIO else 0) ∨
         overlayroot mount_cfg = [] ∧ rc = - EINVAL ∧
           texts = [lit "No overlayroot configured in " ++ MREPOD_CONF_PATH ++ [LF]] ∨
         (∃ e, rc = - e ∧
           texts = [lit "Failed to open overlayroot '" ++ overlayroot mount_cfg ++ lit "': " ++ strerror (Kernel := sim_kernel) e ++ [LF]])))
     (sim_state restore_sim [] mount_cfg).
Proof.
  refine (restore_mounts_report (K := sim_kernel) (J := tree_jansson) 16384 (sim_state restore_sim [] mount_cfg) _). lia.
Defined.
