(* ===== verification/Monitor.v ===== *)
(** * The health monitor

    Models [mbroker/daemon/monitor.c]: the check of one sandbox, the round over
    all tracked sandboxes, and the thread that runs a round every ten minutes
    until [monitor_stop]. *)
From S2P Require Import Prelude CString Config MountTable OS SimKernel Util Json ModelClient.
Open Scope Z_scope.

Definition MONITOR_INTERVAL_SEC : Z := 600.

(** [(used * 100) / f_blocks] in [unsigned long]. *)
Definition usage_pct (f_blocks f_bfree : Z) : Z :=
  let used := to_uint64 (f_blocks - f_bfree) in
  to_uint64 (used * 100) / f_blocks.

Section monitor.
Context {W : Type} {K : Kernel W} {J : Jansson}.

(** The three checks of a mounted sandbox: 1 for an issue. *)
Definition stat_issue (mountpoint : cstr) : M W Z :=
  let! ok := try (StatPath mountpoint) in ret (if ok then 0 else 1).

Definition fstype_issue (mountpoint : cstr) : M W Z :=
  let! r := sys (Statfs mountpoint) in
  ret (match r with inr f_type => if f_type =? OVERLAYFS_SUPER_MAGIC then 0 else 1 | inl _ => 1 end).

Definition space_issue (mountpoint : cstr) : M W Z :=
  let! r := sys (Statvfs mountpoint) in
  ret (match r with
       | inr (f_blocks, f_bfree) => if (0 <? f_blocks) && (95 <=? usage_pct f_blocks f_bfree) then 1 else 0
       | inl _ => 0
       end).

Definition check_sandbox (mountpoint : cstr) : M W Z :=
  let! mounted := mountinfo_is_mounted mountpoint in
  if negb mounted then ret (-1)
  else
    let! a := stat_issue mountpoint in
    let! b := fstype_issue mountpoint in
    let! c := space_issue mountpoint in
    ret (- (a + b + c)).

(** What a round reports: healthy and unhealthy sandboxes, and the outcome of
    the anomaly detection when it is enabled. *)
Definition run_health_check : M W (Z * Z * option (Z * model_anomaly_result)) :=
  let! mountpoints := read_table (mountinfo_snapshot_mountpoints MOUNTINFO_MAX_TRACKED) in
  if count mountpoints =? 0 then ret (0, 0, None)
  else
    let! (healthy, unhealthy) := meach mountpoints (0, 0) (λ acc mp,
      let '(healthy, unhealthy) := acc in
      let! rc := check_sandbox mp in
      ret (if rc <? 0 then (healthy, unhealthy + 1) else (healthy + 1, unhealthy))) in
    let! dcfg := get_cfg in
    if negb (ml_enabled dcfg =? 0) && (0 <? nfs_server_count dcfg) then
      let nfs_metrics := replicate (Z.to_nat (MODEL_MAX_SERVERS * 11)) 0 in
      let! r := model_check_anomaly (model_socket dcfg) nfs_metrics (nfs_server_count dcfg) zero_anomaly_result in
      ret (healthy, unhealthy, Some r)
    else ret (healthy, unhealthy, None).

(** [monitor_start] creates the thread; its assignment to [monitor_running] is
    [monitor_started] below. *)
Definition monitor_start : M W Z :=
  let! rc := call (PthreadCreate ThMonitor) in
  ret (if negb (rc =? 0) then -1 else 0).
End monitor.

(** ** The thread

    [monitor_thread] reads [monitor_running], which [monitor_stop] clears at
    any moment.  Between two reads it sleeps a second or does a round; a step
    goes from one read of the flag to the next. *)

Inductive monitor_pc :=
  | AtTop                   (** at the test of the outer loop *)
  | AtSleep (i : Z)         (** at the test of the inner loop, after [i] seconds *)
  | AfterSleep              (** at [if (!monitor_running)] *)
  | InCheck                 (** in [run_health_check] *)
  | Returned.

Definition monitor_step (running : bool) (pc : monitor_pc) : monitor_pc :=
  match pc with
  | AtTop => if running then AtSleep 0 else Returned
  | AtSleep i => if (i <? MONITOR_INTERVAL_SEC) && running then AtSleep (i + 1) else AfterSleep
  | AfterSleep => if running then InCheck else Returned
  | InCheck => AtTop
  | Returned => Returned
  end.

(** The position after [n] steps when the flag is [flag k] at step [k]. *)
Fixpoint monitor_run (flag : nat → bool) (n : nat) : monitor_pc :=
  match n with
  | O => AtTop
  | S n' => monitor_step (flag n') (monitor_run flag n')
  end.

(** [monitor_start] sets the flag, and [monitor_stop] at step [n] clears it;
    nothing else writes it. *)
Definition monitor_started : nat → bool := λ _, true.
Definition monitor_stop (n : nat) (flag : nat → bool) : nat → bool := λ k, (k <? n)%nat && flag k.

(** * Properties *)

Section monitor_properties.
Context {W : Type} {K : Kernel W} {J : Jansson}.
Implicit Types s : dstate W.

Lemma usage_pct_exact f_blocks f_bfree :
  0 < f_blocks → 0 <= f_bfree <= f_blocks → f_blocks * 100 < 2 ^ 64 →
  usage_pct f_blocks f_bfree = (f_blocks - f_bfree) * 100 / f_blocks ∧ 0 <= usage_pct f_blocks f_bfree <= 100.
Proof.
  intros Hb Hf Hw. unfold usage_pct, to_uint64. rewrite !Z.mod_small by (rewrite ?Z.mod_small; lia).
  split; [done|]. split; [apply Z.div_pos; lia|]. apply Z.div_le_upper_bound; lia.
Qed.

(** What a healthy sandbox is. *)
Definition space_ok (r : res (Z * Z)) : Prop :=
  match r with
  | inr (f_blocks, f_bfree) => f_blocks <= 0 ∨ usage_pct f_blocks f_bfree < 95
  | inl _ => True
  end.
Definition healthy_events (mp : cstr) (l : list event) : Prop :=
  ∃ content st fs, mounted_in content mp = true ∧ space_ok fs ∧
    l = [Ev (ReadFile PROC_MOUNTINFO) (inr content); Ev (StatPath mp) (inr st);
         Ev (Statfs mp) (inr OVERLAYFS_SUPER_MAGIC); Ev (Statvfs mp) fs].

(** What the calls of a check answered. *)
Definition stat_answer (e : event) : option (res stat_t) :=
  let 'Ev c r := e in
  match c in syscall A return A → option (res stat_t) with StatPath _ => Some | _ => λ _, None end r.
Definition statfs_answer (e : event) : option (res Z) :=
  let 'Ev c r := e in match c in syscall A return A → option (res Z) with Statfs _ => Some | _ => λ _, None end r.
Definition statvfs_answer (e : event) : option (res (Z * Z)) :=
  let 'Ev c r := e in match c in syscall A return A → option (res (Z * Z)) with Statvfs _ => Some | _ => λ _, None end r.

Lemma space_okb fs :
  (match fs : res (Z * Z) with
   | inr (f_blocks, f_bfree) => if (0 <? f_blocks) && (95 <=? usage_pct f_blocks f_bfree) then 1 else 0
   | inl _ => 0
   end = 0) ↔ space_ok fs.
Proof.
  destruct fs as [e|[b f]]; simpl; [done|].
  destruct (Z.ltb_spec 0 b), (Z.leb_spec 95 (usage_pct b f)); simpl; split; try done; lia.
Qed.

(** The monitor calls a sandbox healthy exactly when it is.  Whatever the
    kernel answers, [check_sandbox] only looks; its result is between -3 and
    0, and it is 0 exactly when the mount table lists the mount point, [stat]
    works, [statfs] says it is an overlay, and it is less than 95% full as
    far as [statvfs] tells. *)
Theorem check_sandbox_healthy mp s :
  wp (check_sandbox mp)
     (λ rc s', -3 <= rc <= 0 ∧ emits (λ e, readonly e = true) s s' ∧ statics s' = statics s ∧
        (rc = 0 ↔ ∃ l, trace s' = trace s ++ l ∧ healthy_events mp l)) s.
Proof.
  unfold check_sandbox, mountinfo_is_mounted, stat_issue, fstype_issue, space_issue.
  apply wp_bind, wp_bind, wp_sys. intros r0 s0 _ St0 _ T0.
  assert (∀ r, trace s0 = trace s ++ [Ev (ReadFile PROC_MOUNTINFO) r] →
    -3 <= -1 <= 0 ∧ emits (λ e, readonly e = true) s s0 ∧ statics s0 = statics s ∧
    (-1 = 0 ↔ ∃ l, trace s0 = trace s ++ l ∧ healthy_events mp l)) as Hno.
  { intros r Ht. split_and!; [lia|lia| |done|].
    - eexists. split; [exact Ht|]. by repeat constructor.
    - split; [done|]. intros (l & Hl & (content & st & fs & _ & _ & ->)). rewrite Ht in Hl.
      by apply app_inv_head, (f_equal length) in Hl. }
  destruct r0 as [e|content]; [by apply wp_ret, wp_ret, (Hno (inl e))|].
  apply wp_ret. destruct (mounted_in content mp) eqn:Em; simpl negb; cbv iota.
  2:{ by apply wp_ret, (Hno (inr content)). }
  apply wp_bind, wp_bind. unfold try. apply wp_bind, wp_sys. intros r1 s1 _ St1 _ T1. apply wp_ret, wp_ret.
  apply wp_bind, wp_bind, wp_sys. intros r2 s2 _ St2 _ T2. apply wp_ret.
  apply wp_bind, wp_bind, wp_sys. intros r3 s3 _ St3 _ T3. apply wp_ret, wp_ret.
  assert (trace s3 = trace s ++ [Ev (ReadFile PROC_MOUNTINFO) (inr content); Ev (StatPath mp) r1; Ev (Statfs mp) r2; Ev (Statvfs mp) r3]) as T.
  { rewrite T3, T2, T1, T0. by rewrite <- !app_assoc. }
  pose proof (space_okb r3) as Hsp.
  set (c := match r3 with inl _ => 0 | inr _ => _ end) in *.
  assert (0 <= c <= 1) as Hc.
  { subst c. destruct r3 as [|[b f]]; [lia|]. destruct (_ && _); lia. }
  set (b := match r2 with inl _ => 1 | inr _ => _ end).
  assert (0 <= b <= 1 ∧ (b = 0 ↔ r2 = inr OVERLAYFS_SUPER_MAGIC)) as [Hb Hbi].
  { subst b. destruct r2 as [e|f]; [split; [lia|]; split; [done|discriminate]|].
    destruct (Z.eqb_spec f OVERLAYFS_SUPER_MAGIC) as [->|Hf]; split; try lia; split; try done; congruence. }
  set (a := if negb (failed r1) then 0 else 1).
  assert (0 <= a <= 1 ∧ (a = 0 ↔ ∃ st, r1 = inr st)) as [Ha Hai].
  { subst a. destruct r1 as [e|st]; simpl; split; try lia; split; try done; [by intros [? ?]|by eexists]. }
  split_and!; [lia|lia| |congruence|].
  - eexists. split; [exact T|]. by repeat constructor.
  - rewrite T. split.
    + intros H0. assert (a = 0 ∧ b = 0 ∧ c = 0) as (Ha0 & Hb0 & Hc0) by lia.
      apply Hai in Ha0 as [st ->]. apply Hbi in Hb0 as ->. apply Hsp in Hc0.
      eexists. split; [done|]. exists content, st, r3. done.
    + intros (l & Hl & (content' & st & fs & _ & Hfs & ->)). apply app_inv_head in Hl.
      assert (a = 0 ∧ b = 0 ∧ c = 0) as (-> & -> & ->); [|done].
      pose proof (f_equal (λ l, stat_answer <$> (l !! 1%nat)) Hl) as H1.
      pose proof (f_equal (λ l, statfs_answer <$> (l !! 2%nat)) Hl) as H2.
      pose proof (f_equal (λ l, statvfs_answer <$> (l !! 3%nat)) Hl) as H3. simpl in H1, H2, H3.
      split_and!; [apply Hai; exists st; congruence|apply Hbi; congruence|apply Hsp; congruence].
Qed.
End monitor_properties.

(** ** The thread *)

Lemma monitor_sleeping flag n (k : nat) :
  monitor_run flag n = AtTop → (∀ j, (n ≤ j < n + 604)%nat → flag j = true) → (1 ≤ k ≤ 601)%nat →
  monitor_run flag (n + k) = AtSleep (Z.of_nat k - 1).
Proof.
  intros Htop Hflag. induction k as [|k IH]; intros Hk; [lia|].
  replace (n + S k)%nat with (S (n + k)) by lia. cbn [monitor_run].
  destruct k as [|k].
  - rewrite Nat.add_0_r, Htop. simpl. by rewrite Hflag by lia.
  - rewrite IH by lia. unfold monitor_step, MONITOR_INTERVAL_SEC. rewrite Hflag by lia.
    destruct (Z.ltb_spec (Z.of_nat (S k) - 1) 600); [|lia]. simpl. f_equal. lia.
Qed.

(** when the monitor checks and when it stops.  From the step at which
      [monitor_running] is cleared for good, no further round starts and the
      thread has returned within two steps; and as long as the flag stays set,
      a thread at the top of its loop sleeps 600 times one second without
      checking, then does one round, and is at the top again. *)
Theorem monitor_thread_schedule flag n :
  ((∀ k, (n ≤ k)%nat → flag k = false) →
     (∀ k, (n < k)%nat → monitor_run flag k ≠ InCheck) ∧
     (∀ k, (n + 2 ≤ k)%nat → monitor_run flag k = Returned)) ∧
  (monitor_run flag n = AtTop → (∀ k, (n ≤ k < n + 604)%nat → flag k = true) →
     (∀ k, (0 < k < 603)%nat → monitor_run flag (n + k) ≠ InCheck) ∧
     monitor_run flag (n + 603) = InCheck ∧ monitor_run flag (n + 604) = AtTop).
Proof.
  split.
  - intros Hoff. split.
    + intros [|k] Hk; [lia|]. cbn [monitor_run]. rewrite Hoff by lia.
      destruct (monitor_run flag k); simpl; rewrite ?andb_false_r; discriminate.
    + intros k Hk. induction Hk as [|k Hk IH].
      * replace (n + 2)%nat with (S (S n)) by lia. cbn [monitor_run]. rewrite !Hoff by lia.
        destruct (monitor_run flag n); simpl; by rewrite ?andb_false_r.
      * cbn [monitor_run]. by rewrite IH.
  - intros Htop Hon. pose proof (monitor_sleeping flag n) as Hs.
    assert (monitor_run flag (n + 602) = AfterSleep) as H602.
    { replace (n + 602)%nat with (S (n + 601)) by lia. cbn [monitor_run]. rewrite Hs by (done || lia). done. }
    assert (monitor_run flag (n + 603) = InCheck) as H603.
    { replace (n + 603)%nat with (S (n + 602)) by lia. cbn [monitor_run]. rewrite H602, Hon by lia. done. }
    split_and!; [|done|].
    + intros k Hk. destruct (decide (k = 602)%nat) as [->|]; [by rewrite H602|]. by rewrite Hs by (done || lia).
    + replace (n + 604)%nat with (S (n + 603)) by lia. cbn [monitor_run]. by rewrite H603.
Qed.

Lemma monitor_thread_schedule_witness :
  (∀ k, (0 < k < 603)%nat → monitor_run (λ k, (k <? 604)%nat) k ≠ InCheck) ∧
  monitor_run (λ k, (k <? 604)%nat) 603 = InCheck ∧ monitor_run (λ k, (k <? 604)%nat) 604 = AtTop.
Proof.
  refine (proj2 (monitor_thread_schedule (λ k, (k <? 604)%nat) 0) eq_refl _).
  intros k Hk. apply Nat.ltb_lt. lia.
Defined.

(** A call of [monitor_stop] ends a started monitor within two steps, and
    until then changes nothing. *)
Theorem monitor_stop_returns n k :
  ((k ≤ n)%nat → monitor_run (monitor_stop n monitor_started) k = monitor_run monitor_started k) ∧
  ((n + 2 ≤ k)%nat → monitor_run (monitor_stop n monitor_started) k = Returned).
Proof.
  split.
  - induction k as [|k IH]; intros Hk; [done|]. cbn [monitor_run]. rewrite IH by lia. f_equal.
    unfold monitor_stop. by rewrite (proj2 (Nat.ltb_lt k n)) by lia.
  - assert (∀ j, (n ≤ j)%nat → monitor_stop n monitor_started j = false) as Hoff.
    { intros j Hj. unfold monitor_stop. by rewrite (proj2 (Nat.ltb_ge j n)). }
    intros Hk. by apply (monitor_thread_schedule (monitor_stop n monitor_started) n).
Qed.

Definition monitor_sim : sim := Sim [lit "/b"; lit "/b/sb1"; lit "/b/sb2"] [] [lit "/b/sb1"] 1000.
Example run_health_check_run :
  fst (fst (run_health_check (K := sim_kernel) (J := tree_jansson)
    (sim_state monitor_sim [fill_slot (lit "/b/sb1") 0 (lit "/ov") [] []; fill_slot (lit "/b/sb2") 0 (lit "/ov") [] []] zero_config))) = (1, 1).
Proof. by vm_compute. Qed.
