(* ===== verification/Wire.v ===== *)
(** * The messages as bytes

    Client and daemon write and read [struct mount_request] and
    [struct mount_reply] of [mbroker/include/protocol.h] as they lie in memory
    (x86-64: little-endian 32-bit integers, no padding: every member is a
    [char] array or a 4-byte integer at a multiple of 4). *)
From S2P Require Import Prelude CString Protocol ModelClient.
Open Scope Z_scope.

Definition le32 (z : Z) : list ascii :=
  [byte_of z; byte_of (Z.shiftr z 8); byte_of (Z.shiftr z 16); byte_of (Z.shiftr z 24)].
Definition uint32_at (b : list ascii) : Z :=
  match b with
  | [a; b; c; d] => code a + 256 * code b + 65536 * code c + 16777216 * code d
  | _ => 0
  end.
Definition int32_at (b : list ascii) : Z := to_int32 (uint32_at b).

(** A [char[n]] that holds [s]: zeroed, then filled by [snprintf]. *)
Definition pad (n : Z) (s : cstr) : list ascii := fit n s ++ replicate (Z.to_nat (n - slen (fit n s))) NUL.

(** The [n] bytes at offset [off]. *)
Definition slice (off n : Z) (b : list ascii) : list ascii := take (Z.to_nat n) (drop (Z.to_nat off) b).

Definition REQUEST_SIZE : Z := 4 * 4 + 3 * 2048 + 512 + 256.
Definition REPLY_SIZE : Z := 4 + REPLY_DETAILS_MAX + 512 + 256.

Definition encode_request (r : mount_request) : list ascii :=
  le32 (req_cmd r) ++ le32 (req_flags r) ++ le32 (req_uid r) ++ le32 (req_gid r) ++
  req_sandboxname r ++ req_lowerdir r ++ req_overlayroot r ++ req_baas_path r ++ req_prebuild_sb r.

Definition decode_request (b : list ascii) : mount_request :=
  MountRequest (int32_at (slice 0 4 b)) (int32_at (slice 4 4 b)) (uint32_at (slice 8 4 b)) (uint32_at (slice 12 4 b))
    (slice 16 2048 b) (slice 2064 2048 b) (slice 4112 2048 b) (slice 6160 512 b) (slice 6672 256 b).

Definition encode_reply (r : mount_reply) : list ascii :=
  le32 (rep_status r) ++ pad REPLY_DETAILS_MAX (rep_details r) ++ pad 512 (rep_baas_path r) ++ pad 256 (rep_prebuild_sb r).

(** The client's reading of a reply: [read] into a zeroed structure, then the
    last byte of each array is set to NUL. *)
Definition decode_reply (b : list ascii) : mount_reply :=
  let b := b ++ replicate (Z.to_nat REPLY_SIZE - length b) NUL in
  MountReply (int32_at (slice 0 4 b)) (terminate REPLY_DETAILS_MAX (slice 4 REPLY_DETAILS_MAX b))
    (terminate 512 (slice 16388 512 b)) (terminate 256 (slice 16900 256 b)).

(** The string fields as the daemon reads them. *)
Definition terminate_request (r : mount_request) : mount_request :=
  MountRequest (req_cmd r) (req_flags r) (req_uid r) (req_gid r)
    (terminate 2048 (req_sandboxname r)) (terminate 2048 (req_lowerdir r)) (terminate 2048 (req_overlayroot r))
    (terminate 512 (req_baas_path r)) (terminate 256 (req_prebuild_sb r)).

(** The structure that a client fills with strings. *)
Definition fill_request (r : mount_request) : mount_request :=
  MountRequest (req_cmd r) (req_flags r) (req_uid r) (req_gid r)
    (pad 2048 (req_sandboxname r)) (pad 2048 (req_lowerdir r)) (pad 2048 (req_overlayroot r))
    (pad 512 (req_baas_path r)) (pad 256 (req_prebuild_sb r)).

(** * Properties *)

Lemma le32_length z : length (le32 z) = 4%nat.
Proof. done. Qed.

Lemma uint32_le32 z : uint32_at (le32 z) = to_uint32 z.
Proof.
  unfold uint32_at, le32, to_uint32. rewrite !code_byte_of, !Z.shiftr_div_pow2 by lia.
  change (2 ^ 8) with 256. change (2 ^ 16) with 65536. change (2 ^ 24) with 16777216. change (2 ^ 32) with 4294967296.
  pose proof (Z.div_mod z 256 ltac:(lia)). pose proof (Z.div_mod (z / 256) 256 ltac:(lia)).
  pose proof (Z.div_mod (z / 65536) 256 ltac:(lia)). pose proof (Z.div_mod (z / 16777216) 256 ltac:(lia)).
  assert (z / 65536 = z / 256 / 256) as E1 by (by rewrite Z.div_div by lia).
  assert (z / 16777216 = z / 65536 / 256) as E2 by (by rewrite Z.div_div by lia).
  apply Z.mod_unique with (z / 16777216 / 256); [left|lia].
  pose proof (Z.mod_pos_bound z 256 ltac:(lia)). pose proof (Z.mod_pos_bound (z / 256) 256 ltac:(lia)).
  pose proof (Z.mod_pos_bound (z / 65536) 256 ltac:(lia)). pose proof (Z.mod_pos_bound (z / 16777216) 256 ltac:(lia)).
  lia.
Qed.

Lemma int32_le32 z : - 2 ^ 31 <= z < 2 ^ 31 → int32_at (le32 z) = z.
Proof.
  intros H. unfold int32_at. rewrite uint32_le32.
  unfold to_uint32, to_int32. rewrite Z.mod_mod by lia. by apply (to_int32_id z).
Qed.

Lemma pad_length n s : 1 <= n → length (pad n s) = Z.to_nat n.
Proof.
  intros Hn. unfold pad. rewrite length_app, length_replicate. pose proof (fit_le n s Hn). unfold slen in *. lia.
Qed.

Lemma terminate_pad n s : 1 <= n → no_nul s → slen s < n → terminate n (pad n s) = s.
Proof.
  intros Hn Hs Hl. unfold terminate, pad. rewrite fit_id by done.
  rewrite take_app_ge by (unfold slen in *; lia).
  assert (∀ k, c_str (s ++ replicate k NUL ++ [NUL]) = s) as H.
  { intros k. unfold c_str. destruct k; simpl; apply take_while_app_stop; try (by rewrite char_eqb_refl);
      apply forallb_forall; intros c Hc%list_elem_of_In; apply negb_true_iff, char_eqb_neq; by intros ->. }
  rewrite <- app_assoc, take_replicate. apply H.
Qed.

Lemma slice_app off n (a b c : list ascii) :
  off = Z.of_nat (length a) → n = Z.of_nat (length b) → slice off n (a ++ b ++ c) = b.
Proof.
  intros -> ->. unfold slice. rewrite !Nat2Z.id, drop_app_length. by rewrite take_app_length.
Qed.

Lemma slice_head n (b c : list ascii) : n = Z.of_nat (length b) → slice 0 n (b ++ c) = b.
Proof. apply (slice_app 0 n []). done. Qed.

Lemma slice_last off n (a b : list ascii) :
  off = Z.of_nat (length a) → n = Z.of_nat (length b) → slice off n (a ++ b) = b.
Proof. intros Ha Hb. rewrite <- (app_nil_r b) at 1. by apply slice_app. Qed.

(** The sizes of the arrays. *)
Record request_sized (r : mount_request) : Prop := {
  sized_cmd : - 2 ^ 31 <= req_cmd r < 2 ^ 31;
  sized_flags : - 2 ^ 31 <= req_flags r < 2 ^ 31;
  sized_uid : 0 <= req_uid r < 2 ^ 32;
  sized_gid : 0 <= req_gid r < 2 ^ 32;
  sized_name : length (req_sandboxname r) = 2048%nat;
  sized_lowerdir : length (req_lowerdir r) = 2048%nat;
  sized_overlayroot : length (req_overlayroot r) = 2048%nat;
  sized_baas : length (req_baas_path r) = 512%nat;
  sized_prebuild : length (req_prebuild_sb r) = 256%nat
}.

Lemma encode_request_length r : request_sized r → slen (encode_request r) = REQUEST_SIZE.
Proof.
  intros []. unfold encode_request, slen. rewrite !length_app, !le32_length.
  rewrite sized_name0, sized_lowerdir0, sized_overlayroot0, sized_baas0, sized_prebuild0. unfold REQUEST_SIZE. lia.
Qed.

Lemma to_uint32_id z : 0 <= z < 2 ^ 32 → to_uint32 z = z.
Proof. apply Z.mod_small. Qed.

Lemma decode_encode_request r : request_sized r → decode_request (encode_request r) = r.
Proof.
  destruct r as [cmd flags uid gid name lower root baas pb].
  intros [Hcmd Hflags Huid Hgid Hname Hlower Hroot Hbaas Hpb].
  cbn [req_cmd req_flags req_uid req_gid req_sandboxname req_lowerdir req_overlayroot req_baas_path req_prebuild_sb] in *.
  unfold decode_request, encode_request.
  cbn [req_cmd req_flags req_uid req_gid req_sandboxname req_lowerdir req_overlayroot req_baas_path req_prebuild_sb].
  rewrite (slice_head 4 (le32 cmd)) by done.
  rewrite (slice_app 4 4 (le32 cmd) (le32 flags)) by done.
  rewrite (app_assoc (le32 cmd)), (slice_app 8 4 (le32 cmd ++ le32 flags) (le32 uid)) by done.
  rewrite (app_assoc (le32 cmd ++ le32 flags)), (slice_app 12 4 ((le32 cmd ++ le32 flags) ++ le32 uid) (le32 gid)) by done.
  set (head := (le32 cmd ++ le32 flags) ++ le32 uid). rewrite (app_assoc head).
  assert (length (head ++ le32 gid) = 16%nat) as Hh by done. revert Hh. generalize (head ++ le32 gid). intros h Hh.
  rewrite (slice_app 16 2048) by (rewrite ?Hh; lia).
  rewrite (app_assoc _ name), (slice_app 2064 2048) by (rewrite ?length_app, ?Hh; lia).
  rewrite (app_assoc _ lower), (slice_app 4112 2048) by (rewrite ?length_app, ?Hh; lia).
  rewrite (app_assoc _ root), (slice_app 6160 512) by (rewrite ?length_app, ?Hh; lia).
  rewrite (app_assoc _ baas), (slice_last 6672 256) by (rewrite ?length_app, ?Hh; lia).
  by rewrite !int32_le32, !uint32_le32, !to_uint32_id by done.
Qed.

(** The strings of a request, as a client has them. *)
Record request_strings (r : mount_request) : Prop := {
  str_cmd : - 2 ^ 31 <= req_cmd r < 2 ^ 31;
  str_flags : - 2 ^ 31 <= req_flags r < 2 ^ 31;
  str_uid : 0 <= req_uid r < 2 ^ 32;
  str_gid : 0 <= req_gid r < 2 ^ 32;
  str_name : no_nul (req_sandboxname r) ∧ slen (req_sandboxname r) < 2048;
  str_lowerdir : no_nul (req_lowerdir r) ∧ slen (req_lowerdir r) < 2048;
  str_overlayroot : no_nul (req_overlayroot r) ∧ slen (req_overlayroot r) < 2048;
  str_baas : no_nul (req_baas_path r) ∧ slen (req_baas_path r) < 512;
  str_prebuild : no_nul (req_prebuild_sb r) ∧ slen (req_prebuild_sb r) < 256
}.

Lemma fill_request_sized r : request_strings r → request_sized (fill_request r).
Proof. intros []. split; simpl; try done; rewrite pad_length by lia; reflexivity. Qed.

(** C35: a request survives the socket.  The 6928 bytes that a client writes
    for a request whose strings fit their fields are read back by the daemon,
    after it has terminated the strings, as the same command, flags, ids and
    strings. *)
Theorem request_roundtrip r (Hr : request_strings r) :
  slen (encode_request (fill_request r)) = REQUEST_SIZE ∧
  terminate_request (decode_request (encode_request (fill_request r))) = r.
Proof.
  pose proof (fill_request_sized r Hr) as Hs. split; [by apply encode_request_length|].
  rewrite decode_encode_request by done. destruct Hr as [_ _ _ _ [? ?] [? ?] [? ?] [? ?] [? ?]].
  destruct r. unfold terminate_request, fill_request. cbn in *. by rewrite !terminate_pad by (done || lia).
Qed.

(** The fields of a reply. *)
Record reply_ok (r : mount_reply) : Prop := {
  rep_ok_status : - 2 ^ 31 <= rep_status r < 2 ^ 31;
  rep_ok_details : no_nul (rep_details r) ∧ slen (rep_details r) < REPLY_DETAILS_MAX;
  rep_ok_baas : no_nul (rep_baas_path r) ∧ slen (rep_baas_path r) < 512;
  rep_ok_prebuild : no_nul (rep_prebuild_sb r) ∧ slen (rep_prebuild_sb r) < 256
}.

Lemma encode_reply_length r : slen (encode_reply r) = REPLY_SIZE.
Proof. unfold encode_reply, slen. rewrite !length_app, le32_length, !pad_length by (unfold REPLY_DETAILS_MAX; lia).
  unfold REPLY_SIZE, REPLY_DETAILS_MAX. lia.
Qed.

(** A reply survives the socket.  The 17156 bytes that the daemon writes
    for a reply are read back by a client as the same status and strings. *)
Theorem reply_roundtrip r (Hr : reply_ok r) :
  slen (encode_reply r) = REPLY_SIZE ∧ decode_reply (encode_reply r) = r.
Proof.
  pose proof (encode_reply_length r) as Hl. split; [done|].
  destruct Hr as [Hs [Hn1 Hl1] [Hn2 Hl2] [Hn3 Hl3]]. unfold decode_reply.
  replace (Z.to_nat REPLY_SIZE - length (encode_reply r))%nat with 0%nat by (unfold slen in Hl; lia).
  simpl replicate. rewrite app_nil_r. destruct r as [status details baas pb]. cbn [rep_status rep_details rep_baas_path rep_prebuild_sb] in *.
  unfold encode_reply. cbn [rep_status rep_details rep_baas_path rep_prebuild_sb].
  assert (length (pad REPLY_DETAILS_MAX details) = Z.to_nat 16384) as H1 by (apply pad_length; unfold REPLY_DETAILS_MAX; lia).
  assert (length (pad 512 baas) = Z.to_nat 512) as H2 by (apply pad_length; lia).
  assert (length (pad 256 pb) = Z.to_nat 256) as H3 by (apply pad_length; lia).
  rewrite (slice_head 4 (le32 status)) by done.
  rewrite (slice_app 4 REPLY_DETAILS_MAX (le32 status)) by (rewrite ?le32_length, ?H1; unfold REPLY_DETAILS_MAX; lia).
  rewrite (app_assoc (le32 status)), (slice_app 16388 512) by (rewrite ?length_app, ?le32_length, ?H1, ?H2; lia).
  rewrite (app_assoc _ (pad 512 baas)), (slice_last 16900 256) by (rewrite ?length_app, ?le32_length, ?H1, ?H2, ?H3; lia).
  rewrite int32_le32 by done. by rewrite !terminate_pad by done.
Qed.

Definition sample_request : mount_request :=
  MountRequest CMD_CREATE FLAG_OVERRIDE_UID 1000 100 (lit "/b/sb1") (lit "/lower") [] [] [].
Definition sample_reply : mount_reply := MountReply (-22) (lit "create failed") [] [].

Lemma request_roundtrip_witness :
  slen (encode_request (fill_request sample_request)) = REQUEST_SIZE ∧
  terminate_request (decode_request (encode_request (fill_request sample_request))) = sample_request.
Proof.
  refine (request_roundtrip sample_request _).
  split; try (split; [lia|lia]); (split; [by apply (bool_decide_eq_true _); vm_compute|by vm_compute]).
Defined.

Lemma reply_roundtrip_witness :
  slen (encode_reply sample_reply) = REPLY_SIZE ∧ decode_reply (encode_reply sample_reply) = sample_reply.
Proof.
  refine (reply_roundtrip sample_reply _).
  split; [split; vm_compute; done|..]; (split; [by apply (bool_decide_eq_true _); vm_compute|by vm_compute]).
Defined.
