(* ===== verification/Broker.v ===== *)
(** * The broker

    Models [mbroker/daemon/broker.c], which serves one client after the other
    on the UNIX socket, and [mbroker/daemon/main.c]. *)
From S2P Require Import Prelude CString Protocol Config MountTable OS SimKernel Storage Util Mounts Json Exports Record ModelClient Lowerdir Umount Promote Ownership Whiteout PostMount Mount Monitor Wire.
Open Scope Z_scope.

Definition cmd_name (cmd : Z) : cstr :=
  if cmd =? CMD_CREATE then lit "create"
  else if cmd =? CMD_DESTROY then lit "destroy"
  else if cmd =? CMD_REFRESH then lit "refresh"
  else if cmd =? CMD_SANDBOX_LIST then lit "list"
  else if cmd =? CMD_RECOVER then lit "recover"
  else lit "unknown".

Definition zero_reply : mount_reply := MountReply 0 [] [] [].
Definition set_status (z : Z) (r : mount_reply) : mount_reply :=
  MountReply z (rep_details r) (rep_baas_path r) (rep_prebuild_sb r).
(** [snprintf(rep.details, sizeof(rep.details), ...)]. *)
Definition set_details (t : cstr) (r : mount_reply) : mount_reply :=
  MountReply (rep_status r) (fit REPLY_DETAILS_MAX t) (rep_baas_path r) (rep_prebuild_sb r).
Definition set_baas (baas pb : cstr) (r : mount_reply) : mount_reply :=
  MountReply (rep_status r) (rep_details r) (fit 512 baas) (fit 256 pb).

Section broker.
Context {W : Type} {K : Kernel W} {J : Jansson}.

Definition handle_create (req : mount_request) : M W mount_reply :=
  let! status := mount_sandbox (req_sandboxname req) (req_uid req) (req_gid req) (req_flags req) (req_lowerdir req)
                   (req_overlayroot req) (req_baas_path req) (req_prebuild_sb req) in
  (if (status =? 0) && has_flag (req_flags req) FLAG_PROMOTE_THREADS then
     let! _ := daemon_promote_mountpoint_async (req_sandboxname req) in ret tt
   else ret tt) ;;
  if (status =? 0) && has_flag (req_flags req) FLAG_CHOWN_OWNER_THREAD then
    let! crc := daemon_chown_owner_mountpoint_async (req_sandboxname req) in
    ret (if crc <? 0
         then set_details (lit "Failed to start ownership-fix task for '" ++ req_sandboxname req ++ lit "': " ++ strerror (- crc))
                (set_status crc zero_reply)
         else set_status status zero_reply)
  else ret (set_status status zero_reply).

Definition handle_destroy (req : mount_request) : M W mount_reply :=
  let! info := read_table (mountinfo_baas_info_for (req_sandboxname req) 512 256 [] []) in
  let '(_, tracked_baas_path, tracked_prebuild_sb) := info in
  let! status := umount_sandbox (req_sandboxname req) (req_flags req) (req_uid req) in
  let rep := set_status status zero_reply in
  ret (if (status =? 0) && nonempty tracked_prebuild_sb then set_baas tracked_baas_path tracked_prebuild_sb rep else rep).

(** The chain on [req.cmd]. *)
Definition dispatch (req : mount_request) : M W mount_reply :=
  if req_cmd req =? CMD_CREATE then handle_create req
  else if req_cmd req =? CMD_DESTROY then handle_destroy req
  else if req_cmd req =? CMD_REFRESH then
    let! status := refresh_exports in ret (set_status status zero_reply)
  else if req_cmd req =? CMD_SANDBOX_LIST then
    let! (status, details) := mountinfo_describe_all REPLY_DETAILS_MAX in
    ret (MountReply status details [] [])
  else if req_cmd req =? CMD_RECOVER then
    let! (status, report) := restore_mounts REPLY_DETAILS_MAX in
    ret (MountReply status (rs_details report) [] [])
  else ret (set_status (- EINVAL) zero_reply).

(** A failure without details is explained. *)
Definition explain (req : mount_request) (rep : mount_reply) : mount_reply :=
  if (rep_status rep <? 0) && negb (nonempty (rep_details rep)) then
    if (req_cmd req =? CMD_DESTROY) && (rep_status rep =? - EPERM) then
      set_details (lit "Destroy denied: only mountpoint owner can destroy '" ++ req_sandboxname req ++ lit "'") rep
    else if (req_cmd req =? CMD_CREATE) && (rep_status rep =? - ENOTSUP) then
      set_details (lit "Upper/work dirs are on an overlayfs; check overlayroot setting") rep
    else
      set_details (cmd_name (req_cmd req) ++ lit " failed at '" ++ req_sandboxname req ++ lit "': " ++
                   strerror (- rep_status rep)) rep
  else rep.

(** The two refusals before the command is looked at. *)
Definition refused (req : mount_request) : option mount_reply :=
  let not_create := negb (req_cmd req =? CMD_CREATE) || negb (nonempty (req_sandboxname req)) in
  if has_flag (req_flags req) FLAG_PROMOTE_THREADS && not_create then
    Some (set_details (lit "--promote is supported only with create and a sandbox path") (set_status (- EINVAL) zero_reply))
  else if has_flag (req_flags req) FLAG_CHOWN_OWNER_THREAD && not_create then
    Some (set_details (lit "--chown-owner is supported only with create and a sandbox path") (set_status (- EINVAL) zero_reply))
  else None.

Definition process_request (req : mount_request) : M W mount_reply :=
  match refused req with
  | Some rep => ret rep
  | None => let! rep := dispatch req in ret (explain req rep)
  end.

Definition handle_client (fd : Z) : M W unit :=
  let! r := sys (Read fd REQUEST_SIZE) in
  match r with
  | inl _ => ret tt
  | inr bytes =>
    if negb (slen bytes =? REQUEST_SIZE) then ret tt
    else
      let! rep := process_request (terminate_request (decode_request bytes)) in
      let! _ := sys (Write fd (encode_reply rep)) in
      ret tt
  end.

(** The accept loop.  [broker_stopping] is set by a signal handler at any
    moment: the list gives the values of its successive reads, at the test
    of the loop and after a failed [accept]; when the list is used up the
    broker is stopping. *)
Fixpoint broker_loop (s : Z) (stopping : list bool) : M W unit :=
  match stopping with
  | [] => ret tt
  | stop :: stopping' =>
    if stop then ret tt
    else
      let! c := sys (Accept s) in
      match c with
      | inr c =>
        handle_client c ;;
        let! _ := sys (Close c) in
        broker_loop s stopping'
      | inl _ =>
        match stopping' with
        | [] => ret tt
        | stop' :: stopping'' => if stop' then ret tt else broker_loop s stopping''
        end
      end
  end.

(** [close(s); return 1], with [broker_listen_fd] forgotten. *)
Definition broker_fail (s : Z) : M W Z :=
  let! _ := sys (Close s) in ret 1.

(** [listening] tells whether [broker_listen_fd] is still set after the loop:
    the signal handler closes it and sets it to -1. *)
Definition broker_run (sockpath : cstr) (stopping : list bool) (listening : bool) : M W Z :=
  let! r := sys Socket in
  let s := match r with inr fd => fd | inl _ => -1 end in
  let! _ := sys (Unlink sockpath) in
  let! bound := try (Bind s (fit 108 sockpath)) in
  if negb bound then broker_fail s
  else
    let! ok := try (Chmod sockpath mode_0666) in
    if negb ok then broker_fail s
    else
      let! ok := try (Listen s 16) in
      if negb ok then broker_fail s
      else
        broker_loop s stopping ;;
        (if listening then let! _ := sys (Close s) in ret tt else ret tt) ;;
        let! _ := sys (Unlink sockpath) in
        ret 0.
End broker.

(** ** main.c *)

(** What is left of the process after a call that may end it. *)
Inductive process (A : Type) := Running (a : A) | Exited (code : Z).
Arguments Running {A}.
Arguments Exited {A}.

Section daemon.
Context {W : Type} {K : Kernel W} {J : Jansson}.

Definition exit_process {A} (code : Z) : M W (process A) :=
  let! _ := call (Exit code) in ret (Exited code).

Definition daemonize : M W (process Z) :=
  let! pid := sys Fork in
  match pid with
  | inl _ => ret (Running (-1))
  | inr pid =>
    if 0 <? pid then exit_process 0
    else
      let! r := sys Setsid in
      match r with
      | inl _ => ret (Running (-1))
      | inr _ =>
        let! pid := sys Fork in
        match pid with
        | inl _ => ret (Running (-1))
        | inr pid =>
          if 0 <? pid then exit_process 0
          else
            let! ok := try (Chdir (lit "/")) in
            if negb ok then ret (Running (-1))
            else
              let! _ := sys (Close 0) in
              let! _ := sys (Close 1) in
              let! _ := sys (Close 2) in
              let! fd := sys (OpenRW (lit "/dev/null") 0) in
              match fd with
              | inl _ => ret (Running 0)
              | inr fd =>
                let! _ := sys (Dup2 fd 0) in
                let! _ := sys (Dup2 fd 1) in
                let! _ := sys (Dup2 fd 2) in
                (if 2 <? fd then let! _ := sys (Close fd) in ret tt else ret tt) ;;
                ret (Running 0)
              end
        end
      end
  end.

Definition PID_FILE : cstr := lit "/var/run/mrepod.pid".

(** [atexit(cleanup_all)], run when [main] returns. *)
Definition cleanup_all : M W unit :=
  let! _ := sys (Unlink PID_FILE) in ret tt.

Definition write_pid_file : M W unit :=
  let! ok := try (FopenW PID_FILE) in
  if negb ok then ret tt
  else
    let! pid := call Getpid in
    let! _ := sys (Fputs PID_FILE (dec pid ++ [LF])) in
    let! _ := sys (Fclose PID_FILE) in
    ret tt.

(** [config_load(MREPOD_CONF_PATH)] into the static configuration. *)
Definition load_config : M W Z :=
  let! r := sys (ReadFile MREPOD_CONF_PATH) in
  let '(rc, c) := config_load (match r with inr content => Some content | inl _ => None end) in
  set_cfg c ;; ret rc.

(** From the log file on. *)
Definition run_daemon (stopping : list bool) (listening : bool) : M W Z :=
  write_pid_file ;;
  let! _ := load_config in
  let! _ := mkdir_p OVERLAY_SOCKET_PATH mode_0755 in
  let! _ := monitor_start in
  let! dcfg := get_cfg in
  (if negb (ml_enabled dcfg =? 0) then
     let! _ := model_health_check (model_socket dcfg) in ret tt
   else ret tt) ;;
  let! rc := broker_run OVERLAY_SOCKET_FILE stopping listening in
  cleanup_all ;;
  ret rc.

Definition main (argv : list cstr) (stopping : list bool) (listening : bool) : M W (process Z) :=
  let daemonize_flag := match argv with _ :: a :: _ => str_eqb a (lit "-d") | _ => false end in
  let! p := (if daemonize_flag then daemonize else ret (Running 0)) in
  match p with
  | Exited code => ret (Exited code)
  | Running rc =>
    if rc <? 0 then ret (Running 1)
    else let! rc := run_daemon stopping listening in ret (Running rc)
  end.
End daemon.

(** * Properties *)

Section broker_properties.
Context {W : Type} {K : Kernel W} {J : Jansson}.
Implicit Types s : dstate W.

(** A reply that a client can show: a failure comes with an explanation. *)
Definition explained (rep : mount_reply) : Prop := rep_status rep < 0 → rep_details rep ≠ [].

Lemma set_details_nonempty t rep : t ≠ [] → rep_details (set_details t rep) ≠ [].
Proof. intros Ht. by apply fit_nonempty. Qed.

Lemma cmd_name_nonempty cmd : cmd_name cmd ≠ [].
Proof. unfold cmd_name. by repeat case_match. Qed.

Lemma explain_explained req rep : explained (explain req rep).
Proof.
  unfold explained, explain. destruct (rep_status rep <? 0) eqn:Es; simpl.
  - destruct (rep_details rep) as [|c d] eqn:Ed; simpl; [|by rewrite Ed].
    destruct (_ && _); [by intros _; apply set_details_nonempty|].
    destruct (_ && _); [by intros _; apply set_details_nonempty|].
    intros _. apply set_details_nonempty. pose proof (cmd_name_nonempty (req_cmd req)). by destruct (cmd_name _).
  - to_prop. lia.
Qed.

Lemma refused_explained req rep : refused req = Some rep → explained rep ∧ rep_status rep = - EINVAL.
Proof.
  unfold refused. destruct (_ && _); [intros <-%(inj Some)|].
  - split; [by intros _; apply set_details_nonempty|done].
  - destruct (_ && _); [intros <-%(inj Some)|done]. split; [by intros _; apply set_details_nonempty|done].
Qed.

Lemma process_request_explained req s : wp (process_request req) (λ rep _, explained rep) s.
Proof.
  unfold process_request. destruct (refused req) as [rep|] eqn:Er; [by apply wp_ret, (refused_explained req)|].
  apply wp_bind, wp_run. destruct (dispatch req s) as [rep s1]. apply wp_ret, explain_explained.
Qed.

(** A function only adds calls to the trace. *)
Definition extends s s' : Prop := emits (λ _, True) s s'.

(** C34: every complete request is answered, once and last.  Whatever the
    kernel does, a client that sends less than a whole request gets nothing
    and causes nothing but the read; for any other client the last call is
    the write of one whole reply, and a reply that reports a failure has a
    text that explains it. *)
Theorem handle_client_answers fd s :
  let s' := snd (handle_client fd s) in
  ∃ r, (r = inl (errno s') ∨ ∃ b, r = inr b) ∧
    match r with
    | inl _ => trace s' = trace s ++ [Ev (Read fd REQUEST_SIZE) r]
    | inr bytes =>
      if slen bytes =? REQUEST_SIZE then
        ∃ s1 s2 rep w, trace s1 = trace s ++ [Ev (Read fd REQUEST_SIZE) r] ∧
          process_request (terminate_request (decode_request bytes)) s1 = (rep, s2) ∧
          trace s' = trace s2 ++ [Ev (Write fd (encode_reply rep)) w] ∧
          slen (encode_reply rep) = REPLY_SIZE ∧ explained rep
      else trace s' = trace s ++ [Ev (Read fd REQUEST_SIZE) r]
    end.
Proof.
  cut (wp (handle_client fd) (λ _ s', ∃ r, (r = inl (errno s') ∨ ∃ b, r = inr b) ∧
    match r with
    | inl _ => trace s' = trace s ++ [Ev (Read fd REQUEST_SIZE) r]
    | inr bytes =>
      if slen bytes =? REQUEST_SIZE then
        ∃ s1 s2 rep w, trace s1 = trace s ++ [Ev (Read fd REQUEST_SIZE) r] ∧
          process_request (terminate_request (decode_request bytes)) s1 = (rep, s2) ∧
          trace s' = trace s2 ++ [Ev (Write fd (encode_reply rep)) w] ∧
          slen (encode_reply rep) = REPLY_SIZE ∧ explained rep
      else trace s' = trace s ++ [Ev (Read fd REQUEST_SIZE) r]
    end) s); [by intros H%wp_run|].
  unfold handle_client. apply wp_bind, wp_sys. intros r s1 _ _ He Ht. destruct r as [e|bytes].
  - apply wp_ret. exists (inl e). split; [left; by rewrite He|done].
  - destruct (slen bytes =? REQUEST_SIZE) eqn:El; simpl negb; cbv iota.
    + pose proof (process_request_explained (terminate_request (decode_request bytes)) s1) as Hex.
      apply wp_bind, wp_run. unfold wp in Hex.
      destruct (process_request (terminate_request (decode_request bytes)) s1) as [rep s2] eqn:Ep. cbn [fst snd].
      apply wp_bind, wp_sys. intros w s3 _ _ _ Ht3. apply wp_ret.
      exists (inr bytes). split; [right; by eexists|]. rewrite El. exists s1, s2, rep, w.
      split_and!; [done|done|done|apply encode_reply_length|done].
    + apply wp_ret. exists (inr bytes). split; [right; by eexists|]. by rewrite El.
Qed.

(** A request that asks for promotion or for the ownership fix without
    creating a named sandbox is refused: the reply is [-EINVAL] with an
    explanation, no call at all is made on its behalf, and the daemon's state
    is as before. *)
Theorem process_request_refuses req s
    (Hflag : has_flag (req_flags req) FLAG_PROMOTE_THREADS = true ∨ has_flag (req_flags req) FLAG_CHOWN_OWNER_THREAD = true)
    (Hcmd : req_cmd req ≠ CMD_CREATE ∨ req_sandboxname req = []) :
  let '(rep, s') := process_request req s in
  rep_status rep = - EINVAL ∧ rep_details rep ≠ [] ∧ s' = s.
Proof.
  assert (negb (req_cmd req =? CMD_CREATE) || negb (nonempty (req_sandboxname req)) = true) as Hn.
  { destruct Hcmd as [H| ->]; [|apply orb_true_r]. apply Z.eqb_neq in H. by rewrite H. }
  destruct (refused req) as [rep|] eqn:Er.
  - destruct (refused_explained req rep Er) as [He Hs]. unfold process_request. rewrite Er. unfold ret.
    split_and!; [done|apply He; rewrite Hs; done|done].
  - exfalso. unfold refused in Er. rewrite Hn, !andb_true_r in Er. destruct Hflag as [H|H]; rewrite H in Er; [done|].
    by destruct (has_flag (req_flags req) FLAG_PROMOTE_THREADS).
Qed.

(** The daemon refuses to destroy somebody else's sandbox.  A destroy
    request whose uid is neither 0 nor the owner of the mount point is
    answered with [-EPERM] and a text that says so; the [stat] that found the
    owner is the only call made, and the daemon's state is as before. *)
Theorem destroy_denied_reply req st w s
    (Hcmd : req_cmd req = CMD_DESTROY) (Hrefused : refused req = None)
    (Hstat : k_do (StatPath (req_sandboxname req)) (world s) = (inr st, w))
    (Hroot : req_uid req ≠ 0) (Howner : st_uid st ≠ req_uid req) :
  let '(rep, s') := process_request req s in
  rep_status rep = - EPERM ∧ rep_prebuild_sb rep = [] ∧
  rep_details rep = fit REPLY_DETAILS_MAX (lit "Destroy denied: only mountpoint owner can destroy '" ++ req_sandboxname req ++ lit "'") ∧
  trace s' = trace s ++ [Ev (StatPath (req_sandboxname req)) (inr st)] ∧ statics s' = statics s.
Proof.
  unfold process_request. rewrite Hrefused. unfold dispatch. rewrite Hcmd. simpl. unfold handle_destroy.
  unfold bind at 1 2, read_table. destruct (mountinfo_baas_info_for _ _ _ _ _ _) as [[found baas] pb].
  pose proof (umount_denied (req_sandboxname req) (req_flags req) (req_uid req) st w s Hstat Hroot Howner) as H.
  unfold bind, ret. destruct (umount_sandbox _ _ _ s) as [rc s']. destruct H as (-> & Ht & Hs).
  unfold explain. rewrite Hcmd. done.
Qed.
End broker_properties.

(** A destroy request is believed: the sandbox of user 1000 is destroyed by any
    client that puts the uid 0 into its request, although the peer of the
    connection is somebody else. *)
Definition forged_request : mount_request := MountRequest CMD_DESTROY 0 0 0 (lit "/b/sb1") [] [] [] [].
Definition forged_state : dstate sim :=
  sim_state (set_input (encode_request (fill_request forged_request)) destroy_sim)
    [fill_slot (lit "/b/sb1") 0 (lit "/ov") [] []] zero_config.

Example forged_uid_destroys :
  let s' := snd (handle_client (K := sim_kernel) (J := tree_jansson) 6 forged_state) in
  sim_mounts (world s') = [] ∧ rep_status (decode_reply (sim_output (world s'))) = 0.
Proof. by vm_compute. Qed.

Definition broker_request (cmd flags uid : Z) (name : cstr) : mount_request :=
  MountRequest cmd flags uid uid name (lit "/lower") [] [] [].

Lemma process_request_refuses_witness :
  let '(rep, s') := process_request (K := sim_kernel) (J := tree_jansson)
    (broker_request CMD_DESTROY FLAG_PROMOTE_THREADS 1000 (lit "/b/sb1")) destroy_state in
  rep_status rep = - EINVAL ∧ rep_details rep ≠ [] ∧ s' = destroy_state.
Proof.
  refine (process_request_refuses (K := sim_kernel) (J := tree_jansson)
    (broker_request CMD_DESTROY FLAG_PROMOTE_THREADS 1000 (lit "/b/sb1")) destroy_state _ _).
  - by left.
  - left. discriminate.
Defined.

Lemma destroy_denied_reply_witness :
  let '(rep, s') := process_request (K := sim_kernel) (J := tree_jansson)
    (broker_request CMD_DESTROY 0 7 (lit "/b/sb1")) destroy_state in
  rep_status rep = - EPERM ∧ rep_prebuild_sb rep = [] ∧
  rep_details rep = fit REPLY_DETAILS_MAX (lit "Destroy denied: only mountpoint owner can destroy '" ++ lit "/b/sb1" ++ lit "'") ∧
  trace s' = [Ev (StatPath (lit "/b/sb1")) (inr (Stat 1000 1 0 true))] ∧ statics s' = statics destroy_state.
Proof.
  refine (destroy_denied_reply (K := sim_kernel) (J := tree_jansson)
    (broker_request CMD_DESTROY 0 7 (lit "/b/sb1")) (Stat 1000 1 0 true) destroy_sim destroy_state _ _ _ _ _).
  - done.
  - by vm_compute.
  - by vm_compute.
  - discriminate.
  - discriminate.
Defined.
