(* ===== verification/Shutdown.v ===== *)
(** * Stopping the daemon, and its log

    Models what ends the daemon: the signal handler of [daemon/main.c] with
    [broker_stop] of [daemon/broker.c], step by step against [broker_run], and
    [daemon/logger.c].

    [Broker.broker_run] takes what the handler does as inputs; here the
    handler is a program of its own.  It may run before each step of
    [broker_run], a step being one access to the shared variables or one
    call, and runs to its end, as a handler does that interrupts the main
    thread.  The answers of the calls are inputs of the steps. *)
From S2P Require Import Prelude CString Protocol Config MountTable OS SimKernel Broker.
Open Scope Z_scope.

(** ** broker_run against broker_stop *)

(** The next statement of [broker_run]. *)
Inductive broker_pc :=
  | AtSocket                (** [s = socket(...)] *)
  | AtReset                 (** [broker_stopping = 0] *)
  | AtPublish               (** [broker_listen_fd = s] *)
  | AtBind | AtChmod | AtListen
  | AtFailForget            (** [broker_listen_fd = -1] of a failed step *)
  | AtFailClose             (** its [close(s); return 1] *)
  | AtLoop                  (** [!broker_stopping] of the loop *)
  | AtAccept
  | AtHandle                (** [handle_client(c); close(c)] *)
  | AtRecheck               (** [if (broker_stopping)] after a failed accept *)
  | AtEndTest               (** [if (broker_listen_fd >= 0)] after the loop *)
  | AtEndClose              (** [close(broker_listen_fd)] *)
  | AtEndForget             (** [broker_listen_fd = -1] *)
  | AtUnlink
  | Stopped (code : Z).

#[export] Instance broker_pc_eq_dec : EqDecision broker_pc.
Proof. solve_decision. Defined.

(** The two variables, the socket [s] (negative without one), whether it is
    open, how often it has been given to [close], and how many clients have
    been handled. *)
Record broker_state := BrokerState {
  at_pc : broker_pc;
  broker_stopping : bool;
  broker_listen_fd : Z;
  sock : Z;
  sock_open : bool;
  sock_closes : nat;
  handled : nat
}.

Definition broker_init : broker_state := BrokerState AtSocket false (-1) (-1) false 0 0.

Definition goto pc b := BrokerState pc (broker_stopping b) (broker_listen_fd b) (sock b) (sock_open b) (sock_closes b) (handled b).
Definition set_stopping v b := BrokerState (at_pc b) v (broker_listen_fd b) (sock b) (sock_open b) (sock_closes b) (handled b).
Definition set_listen_fd fd b := BrokerState (at_pc b) (broker_stopping b) fd (sock b) (sock_open b) (sock_closes b) (handled b).
Definition set_sock fd b := BrokerState (at_pc b) (broker_stopping b) (broker_listen_fd b) fd (0 <=? fd) (sock_closes b) (handled b).
Definition count_client b := BrokerState (at_pc b) (broker_stopping b) (broker_listen_fd b) (sock b) (sock_open b) (sock_closes b) (S (handled b)).

(** [close(fd)], which concerns the socket when [fd] is its number. *)
Definition close_fd fd b :=
  if (0 <=? fd) && (fd =? sock b)
  then BrokerState (at_pc b) (broker_stopping b) (broker_listen_fd b) (sock b) false (S (sock_closes b)) (handled b)
  else b.

(** The signal handler: [broker_stop]. *)
Definition broker_stop (b : broker_state) : broker_state :=
  let b := set_stopping true b in
  if 0 <=? broker_listen_fd b then set_listen_fd (-1) (close_fd (broker_listen_fd b) b) else b.

(** One step of [broker_run].  [answer] is what the call of the step returns,
    where it makes one; a call on a closed socket fails whatever it says. *)
Definition broker_step (answer : Z) (b : broker_state) : broker_state :=
  let on_socket ok failed := if sock_open b && (0 <=? answer) then goto ok b else goto failed b in
  match at_pc b with
  | AtSocket => goto AtReset (set_sock answer b)
  | AtReset => goto AtPublish (set_stopping false b)
  | AtPublish => goto AtBind (set_listen_fd (sock b) b)
  | AtBind => on_socket AtChmod AtFailForget
  | AtChmod => if 0 <=? answer then goto AtListen b else goto AtFailForget b
  | AtListen => on_socket AtLoop AtFailForget
  | AtFailForget => goto AtFailClose (set_listen_fd (-1) b)
  | AtFailClose => goto (Stopped 1) (close_fd (sock b) b)
  | AtLoop => if broker_stopping b then goto AtEndTest b else goto AtAccept b
  | AtAccept => on_socket AtHandle AtRecheck
  | AtHandle => goto AtLoop (count_client b)
  | AtRecheck => if broker_stopping b then goto AtEndTest b else goto AtLoop b
  | AtEndTest => if 0 <=? broker_listen_fd b then goto AtEndClose b else goto AtUnlink b
  | AtEndClose => goto AtEndForget (close_fd (broker_listen_fd b) b)
  | AtEndForget => goto AtUnlink (set_listen_fd (-1) b)
  | AtUnlink => goto (Stopped 0) b
  | Stopped _ => b
  end.

(** What happens next: a step of [broker_run], or a signal. *)
Inductive broker_event := Step (answer : Z) | Signal.

Definition broker_do (b : broker_state) (e : broker_event) : broker_state :=
  match e with
  | Step answer => broker_step answer b
  | Signal => broker_stop b
  end.

Definition broker_history (es : list broker_event) (b : broker_state) : broker_state := foldl broker_do b es.

(** ** logger.c *)

Record logger := Logger { log_file : option cstr; log_to_stdout : bool }.

Definition logger_init : logger := Logger None true.

Section logging.
Context {W : Type} {K : Kernel W}.

Definition log_init (logpath : option cstr) (also_stdout : bool) (l : logger) : M W (Z * logger) :=
  match logpath with
  | None => ret (0, Logger (log_file l) also_stdout)
  | Some path =>
    let! f := sys (FopenA path) in
    match f with
    | inl e =>
      call (Print 2 (lit "Failed to open log file " ++ path ++ lit ": " ++ strerror e ++ [LF])) ;;
      ret (-1, Logger None also_stdout)
    | inr _ => ret (0, Logger (Some path) also_stdout)
    end
  end.

(** [text] is the formatted message. *)
Definition log_write (text : list ascii) (l : logger) : M W unit :=
  let! _ := call Time in
  let! timestamp := call (Strftime (lit "%Y-%m-%d %H:%M:%S")) in
  match log_file l with
  | Some path =>
    let! _ := sys (Fputs path (lit "[" ++ timestamp ++ lit "] ")) in
    let! _ := sys (Fputs path text) in
    ret tt
  | None => ret tt
  end ;;
  if log_to_stdout l then call (Print 1 text) else ret tt.

Definition log_close (l : logger) : M W logger :=
  match log_file l with
  | Some path =>
    let! _ := sys (Fclose path) in
    ret (Logger None (log_to_stdout l))
  | None => ret l
  end.
End logging.

(** * Properties *)

(** ** The end of broker_run *)

Definition stopped_b (b : broker_state) : bool := match at_pc b with Stopped _ => true | _ => false end.

(** The steps before the flag is cleared. *)
Definition before_reset (pc : broker_pc) : bool :=
  match pc with AtSocket | AtReset => true | _ => false end.

Definition is_step (e : broker_event) : bool := match e with Step _ => true | Signal => false end.
Definition steps_of (es : list broker_event) : nat := length (List.filter is_step es).

(** The steps left, once the flag is set. *)
Definition steps_left (pc : broker_pc) : nat :=
  match pc with
  | AtSocket => 11 | AtReset => 10 | AtPublish => 9 | AtBind => 8 | AtChmod => 7 | AtListen => 6
  | AtFailForget => 2 | AtFailClose => 1
  | AtAccept => 7 | AtHandle => 6 | AtLoop => 5 | AtRecheck => 5
  | AtEndTest => 4 | AtEndClose => 3 | AtEndForget => 2 | AtUnlink => 1 | Stopped _ => 0
  end.

(** The clients that may still be handled. *)
Definition clients_left (pc : broker_pc) : nat := match pc with AtAccept | AtHandle => 1 | _ => 0 end.

Definition stopping_b (b : broker_state) : Prop := broker_stopping b = true ∧ before_reset (at_pc b) = false.

Lemma close_fd_same fd b :
  at_pc (close_fd fd b) = at_pc b ∧ broker_stopping (close_fd fd b) = broker_stopping b ∧ handled (close_fd fd b) = handled b.
Proof. unfold close_fd. by destruct (_ && _). Qed.

(** A signal sets the flag and moves nothing. *)
Lemma broker_stop_same b :
  at_pc (broker_stop b) = at_pc b ∧ broker_stopping (broker_stop b) = true ∧ handled (broker_stop b) = handled b.
Proof.
  unfold broker_stop. destruct (0 <=? _); [|done].
  destruct (close_fd_same (broker_listen_fd (set_stopping true b)) (set_stopping true b)) as (H1 & H2 & H3). by split_and!.
Qed.

Lemma broker_step_stopping answer b :
  stopping_b b →
  let b' := broker_step answer b in
  stopping_b b' ∧ (steps_left (at_pc b') <= pred (steps_left (at_pc b)))%nat ∧
  (handled b' + clients_left (at_pc b') <= handled b + clients_left (at_pc b))%nat.
Proof.
  intros [Hs Hp]. destruct b as [pc st fd so op cl ha]. cbn in Hs, Hp. subst st. unfold broker_step, stopping_b. cbn [at_pc].
  destruct pc; try done; unfold close_fd; cbn; repeat case_match; cbn; split_and!; first [done|lia].
Qed.

Lemma broker_history_stopping es b :
  stopping_b b →
  let b' := broker_history es b in
  (steps_left (at_pc b') <= steps_left (at_pc b) - steps_of es)%nat ∧
  (handled b' + clients_left (at_pc b') <= handled b + clients_left (at_pc b))%nat.
Proof.
  revert b. induction es as [|[answer|] es IH]; intros b Hb; cbn.
  - lia.
  - destruct (broker_step_stopping answer b Hb) as (Hb' & H1 & H2). destruct (IH _ Hb') as [H3 H4].
    unfold broker_history, steps_of in *. cbn. lia.
  - destruct (broker_stop_same b) as (E1 & E2 & E3). destruct (IH (broker_stop b)) as [H3 H4].
    { split; [done|]. rewrite E1. apply Hb. }
    rewrite E1, E3 in H4. rewrite E1 in H3. split; [exact H3|exact H4].
Qed.

(** A signal ends the broker.  At any point after [broker_run] has cleared
    the flag, whatever the calls answer from then on and however many more
    signals come, [broker_run] has returned nine steps after a signal, and
    has handled one more client at most. *)
Theorem broker_stop_ends b es (Hb : before_reset (at_pc b) = false) (Hes : (9 <= steps_of es)%nat) :
  let b' := broker_history es (broker_stop b) in
  stopped_b b' = true ∧ (handled b' <= S (handled b))%nat.
Proof.
  destruct (broker_stop_same b) as (E1 & E2 & E3).
  destruct (broker_history_stopping es (broker_stop b)) as [H1 H2]; [split; [done|by rewrite E1]|].
  rewrite E1 in *. rewrite E3 in H2. cbv zeta. split.
  - assert (steps_left (at_pc (broker_history es (broker_stop b))) = 0%nat) as H0.
    { destruct (at_pc b); cbn in H1, Hb; try done; lia. }
    unfold stopped_b. by destruct (at_pc (broker_history es (broker_stop b))).
  - destruct (at_pc b); cbn in H2; lia.
Qed.

(** A broker that waits for a client is stopped. *)
Definition waiting : broker_state := broker_history [Step 5; Step 0; Step 0; Step 0; Step 0; Step 0; Step 0] broker_init.

Example waiting_at_accept : at_pc waiting = AtAccept ∧ broker_listen_fd waiting = 5.
Proof. by vm_compute. Qed.

Lemma broker_stop_ends_witness :
  let b' := broker_history (replicate 9 (Step 7)) (broker_stop waiting) in
  stopped_b b' = true ∧ (handled b' <= S (handled waiting))%nat.
Proof. refine (broker_stop_ends waiting (replicate 9 (Step 7)) _ _); [reflexivity|]. vm_compute. lia. Defined.

(** A signal that comes before [broker_stopping = 0] is lost: the state after
    that step is the same as without it, and so is the rest of the run.  The
    handler is installed before the configuration is read, the directories
    are made and the sidecar is asked, all before [broker_run]. *)
Theorem early_signal_lost a1 a2 es :
  broker_history (Signal :: Step a1 :: Signal :: Step a2 :: es) broker_init =
  broker_history (Step a1 :: Step a2 :: es) broker_init.
Proof. reflexivity. Qed.

(** ** The socket *)

(** Who knows the socket: [broker_run] alone, the handler too, or nobody
    since the handler has closed it. *)
Definition private b : Prop := broker_listen_fd b = -1 ∧ sock_open b = (0 <=? sock b) ∧ sock_closes b = 0%nat.
Definition published b : Prop := broker_listen_fd b = sock b ∧ sock_open b = (0 <=? sock b) ∧ sock_closes b = 0%nat.
Definition taken b : Prop :=
  broker_listen_fd b = -1 ∧ sock_open b = false ∧ sock_closes b = 1%nat ∧ 0 <= sock b ∧ broker_stopping b = true.

Definition sock_ok (b : broker_state) : Prop :=
  match at_pc b with
  | AtSocket => private b ∧ sock b = -1
  | AtReset | AtPublish => private b
  | AtBind | AtFailForget => published b ∨ taken b
  | AtFailClose => private b ∨ taken b
  | AtChmod | AtListen | AtLoop | AtAccept | AtHandle | AtRecheck | AtEndTest | AtEndClose =>
    (published b ∨ taken b) ∧ 0 <= sock b
  | AtEndForget =>
    sock_open b = false ∧ 0 <= sock b ∧
    (broker_listen_fd b = sock b ∧ sock_closes b = 1%nat ∨ broker_listen_fd b = -1 ∧ (1 <= sock_closes b <= 2)%nat)
  | AtUnlink => sock_open b = false ∧ broker_listen_fd b = -1 ∧ (1 <= sock_closes b <= 2)%nat
  | Stopped _ =>
    sock_open b = false ∧ broker_listen_fd b = -1 ∧ (sock_closes b <= 2)%nat ∧ (0 <= sock b → (1 <= sock_closes b)%nat)
  end.

Ltac sock_cases :=
  unfold sock_ok, private, published, taken, close_fd, goto, set_listen_fd, set_stopping, set_sock, count_client in *;
  cbn in *; intros ?; destruct_and?; destruct_or?; destruct_and?; simplify_eq/=; repeat case_match; to_prop; simplify_eq/=;
  intuition (first [done|lia]).

(** What the handler does to each of the three. *)
Lemma stop_private b : private b → private (broker_stop b).
Proof. unfold broker_stop. intros (H1 & H2 & H3). by rewrite (H1 : broker_listen_fd (set_stopping true b) = -1). Qed.
Lemma stop_taken b : taken b → taken (broker_stop b).
Proof. unfold broker_stop. intros (H1 & H2 & H3 & H4 & H5). by rewrite (H1 : broker_listen_fd (set_stopping true b) = -1). Qed.
Lemma stop_published b : published b → published (broker_stop b) ∨ taken (broker_stop b).
Proof.
  destruct b as [pc st fd so op cl ha]. unfold broker_stop, published, taken, close_fd. cbn. intros (-> & -> & ->).
  destruct (Z.leb_spec 0 so); cbn; [|left; split_and!; [done|symmetry; by apply Z.leb_gt|done]].
  right. rewrite Z.eqb_refl. destruct (Z.leb_spec 0 so); [done|lia].
Qed.
Lemma stop_sock b : sock (broker_stop b) = sock b.
Proof. unfold broker_stop, close_fd. repeat case_match; done. Qed.
Lemma stop_forgotten b : broker_listen_fd b = -1 → broker_stop b = set_stopping true b.
Proof. unfold broker_stop. intros H. by rewrite (H : broker_listen_fd (set_stopping true b) = -1). Qed.

Lemma broker_stop_sock_ok b : sock_ok b → sock_ok (broker_stop b).
Proof.
  destruct (broker_stop_same b) as (Epc & _). unfold sock_ok. rewrite Epc, stop_sock.
  pose proof (stop_private b). pose proof (stop_taken b). pose proof (stop_published b).
  destruct (at_pc b); try tauto.
  - intros (Ho & Hs & [[Hf Hc]|[Hf Hc]]).
    + unfold broker_stop, close_fd. cbn. rewrite Hf, Z.eqb_refl. destruct (Z.leb_spec 0 (sock b)); [|lia].
      cbn. split_and!; [done|done|]. right. split; [done|lia].
    + rewrite stop_forgotten by done. cbn. auto.
  - intros (Ho & Hf & Hc). by rewrite stop_forgotten.
  - intros (Ho & Hf & Hc). by rewrite stop_forgotten.
Qed.

(** A step of [broker_run] either leaves the socket alone or is one of those
    that open, publish, close or forget it. *)
Lemma broker_step_sock_ok answer b : sock_ok b → sock_ok (broker_step answer b).
Proof.
  intros H. unfold broker_step. unfold sock_ok in H. destruct (at_pc b) eqn:E;
    first [exact H | case_match; solve [exact H | exact (proj1 H)] | destruct b as [pc st fd so op cl ha]; cbn in E; subst pc; revert H; sock_cases].
Qed.

Lemma broker_history_sock_ok es b : sock_ok b → sock_ok (broker_history es b).
Proof.
  revert b. induction es as [|[answer|] es IH]; intros b H; cbn; [done|..].
  - by apply IH, broker_step_sock_ok.
  - by apply IH, broker_stop_sock_ok.
Qed.

(** The socket is closed, and a closed socket ends the loop.  In every
    history of the broker, whatever the calls answer and whenever signals
    come: while the loop runs, the socket is closed only if the flag is set,
    so an [accept] that fails for this reason is the last; and when
    [broker_run] has returned, the socket has been closed, its variable is
    forgotten, and [close] was called on it at most twice. *)
Theorem broker_socket_closed es :
  let b := broker_history es broker_init in
  (at_pc b ∈ [AtLoop; AtAccept; AtHandle; AtRecheck] → sock_open b = false → broker_stopping b = true) ∧
  (stopped_b b = true → sock_open b = false ∧ broker_listen_fd b = -1 ∧ (sock_closes b <= 2)%nat ∧
     (0 <= sock b → (1 <= sock_closes b)%nat)).
Proof.
  assert (sock_ok (broker_history es broker_init)) as H by (apply broker_history_sock_ok; done).
  cbv zeta. revert H. generalize (broker_history es broker_init). intros b H. unfold sock_ok in H. unfold stopped_b. split.
  - intros Hpc Ho.
    assert ((published b ∨ taken b) ∧ 0 <= sock b) as [[(_ & Hp & _)|(_ & _ & _ & _ & Ht)] Hs]; [|rewrite Ho in Hp; symmetry in Hp; to_prop; lia|done].
    destruct (at_pc b); try exact H; set_solver.
  - by destruct (at_pc b).
Qed.

(** Twice: a signal before [listen] has the handler close the socket, and the
    failing [listen] closes the number again. *)
Example socket_closed_twice :
  let b := broker_history [Step 5; Step 0; Step 0; Step 0; Signal; Step 0; Step 0; Step 0; Step 0] broker_init in
  at_pc b = Stopped 1 ∧ sock_closes b = 2%nat.
Proof. by vm_compute. Qed.

(** ** The log *)

(** What a call writes to a file, and what it prints. *)
Definition written (e : event) : option (cstr * list ascii) :=
  let 'Ev c _ := e in match c with Fputs path data => Some (path, data) | _ => None end.
Definition shown (e : event) : option (Z * list ascii) :=
  let 'Ev c _ := e in match c with Print stream data => Some (stream, data) | _ => None end.

Section log_properties.
Context {W : Type} {K : Kernel W}.
Implicit Types s : dstate W.

(** A sequence of messages. *)
Fixpoint log_messages (texts : list (list ascii)) (l : logger) : M W unit :=
  match texts with
  | [] => ret tt
  | text :: texts => log_write text l ;; log_messages texts l
  end.

(** The entries of [texts] in the file [path], with the times [stamps]. *)
Definition entries (path : cstr) (stamps : list cstr) (texts : list (list ascii)) : list (cstr * list ascii) :=
  concat (zip_with (λ ts text, [(path, lit "[" ++ ts ++ lit "] "); (path, text)]) stamps texts).

Definition logged (l : logger) (texts : list (list ascii)) s s' : Prop :=
  (∃ new, trace s' = trace s ++ new ∧
    omap shown new = (if log_to_stdout l then (λ t, (1, t)) <$> texts else []) ∧
    match log_file l with
    | Some path => ∃ stamps, length stamps = length texts ∧ omap written new = entries path stamps texts
    | None => omap written new = []
    end).

Lemma wp_log_write text l s : wp (log_write text l) (λ _ s', logged l [text] s s') s.
Proof.
  unfold log_write. apply wp_bind, wp_call. intros t s1 _ _ _ T1.
  apply wp_bind, wp_call. intros ts s2 _ _ _ T2. apply wp_bind.
  destruct (log_file l) as [path|] eqn:Ef.
  - apply wp_bind, wp_sys. intros r1 s3 _ _ _ T3. apply wp_bind, wp_sys. intros r2 s4 _ _ _ T4. apply wp_ret.
    rewrite T3, T2, T1, <- !app_assoc in T4. unfold logged. rewrite Ef. destruct (log_to_stdout l).
    + apply wp_call. intros u s5 _ _ _ T5. rewrite T4, <- !app_assoc in T5.
      eexists. split; [exact T5|]. split; [done|]. by exists [ts].
    + apply wp_ret. eexists. split; [exact T4|]. split; [done|]. by exists [ts].
  - apply wp_ret. rewrite T1, <- !app_assoc in T2. unfold logged. rewrite Ef. destruct (log_to_stdout l).
    + apply wp_call. intros u s5 _ _ _ T5. rewrite T2, <- !app_assoc in T5. eexists. by split_and!.
    + apply wp_ret. eexists. by split_and!.
Qed.

(** The log is the messages.  Whatever the system answers, logging a sequence
    of messages adds to the log file exactly one time stamp and the message
    for each of them, in order, when a file is open, and to the standard
    output exactly the messages when it was asked for. *)
Theorem log_messages_exact texts l s : logged l texts s (snd (log_messages texts l s)).
Proof.
  revert s. induction texts as [|text texts IH]; intros s.
  - exists []. rewrite app_nil_r. destruct (log_to_stdout l), (log_file l); split_and!; try done; by exists [].
  - cbn [log_messages]. pose proof (wp_log_write text l s) as H%wp_run. unfold bind.
    destruct (log_write text l s) as [u s1]. cbn [fst snd] in *. specialize (IH s1).
    destruct H as (n1 & T1 & S1 & F1), IH as (n2 & T2 & S2 & F2). exists (n1 ++ n2).
    split; [by rewrite T2, T1, app_assoc|]. rewrite !omap_app, S1, S2. split; [by destruct (log_to_stdout l)|].
    destruct (log_file l) as [path|]; [|by rewrite F1, F2].
    destruct F1 as (st1 & L1 & ->), F2 as (st2 & L2 & ->). destruct st1 as [|ts [|]]; try done.
    exists (ts :: st2). split; [cbn; lia|done].
Qed.
End log_properties.
