(* ===== verification/ClientArgs.v ===== *)
(** * The command line of the client

    Models [mbroker/client/cli_util.c] and the first half of
    [mbroker/client/main.c]: [parse_arguments] and [prepare_mount_request]. *)
From S2P Require Import Prelude CString Protocol Config MountTable OS SimKernel Wire Broker.
Open Scope Z_scope.

Definition STDOUT : Z := 1.
Definition STDERR : Z := 2.
Definition VERSION : cstr := lit "1.0".

(** ** cli_util.c *)

Definition usage_text (progname : cstr) : cstr :=
  text [lit "Usage: " ++ progname ++ lit " <command> [sandboxname] [options]"; [];
        lit "Commands:";
        lit "  create <name> -pbsb <vol>   Create overlay sandbox using prebuild volume";
        lit "  destroy <name>              Unmount overlay sandbox";
        lit "  list                        List active sandboxes";
        lit "  recover                     Restore mounts from saved records";
        lit "  version                     Show version";
        lit "  help                        Show this help"; [];
        lit "Options:";
        lit "  -pbsb <name>                Prebuild sandbox volume name (required for create)";
        lit "  -p, --overlayroot <path>    Override overlayroot for upper/work dirs";
        lit "Examples:";
        lit "  cd /b/workspace";
        lit "  " ++ progname ++ lit " create mysb1 -pbsb myvol";
        lit "  " ++ progname ++ lit " create mysb1 -pbsb myvol -p /b/workspace/.cache";
        lit "  " ++ progname ++ lit " destroy mysb1";
        lit "  " ++ progname ++ lit " list"].

Definition version_text : cstr := text [lit "mrepo version " ++ VERSION; lit "Monorepo sandbox helper client"].

(** ** parse_arguments *)

Record cmd_context := CmdContext {
  enable_promote : bool;
  enable_chown_owner : bool;
  enable_override_uid : bool;
  custom_lowerdir : option cstr;
  custom_overlayroot : option cstr;
  prebuild_sb : option cstr;
  ctx_baas_path : cstr;
  baas_ns : cstr;
  ctx_sandboxname : cstr;
  is_create : bool;
  is_destroy : bool;
  is_list : bool;
  is_recover : bool;
  is_refresh : bool
}.

Definition initial_context : cmd_context :=
  CmdContext false false false None None None (lit "/volume/baas_devops/bin/baas") (lit "_cd-builder") []
    false false false false false.

Definition set_promote c := CmdContext true (enable_chown_owner c) (enable_override_uid c) (custom_lowerdir c)
  (custom_overlayroot c) (prebuild_sb c) (ctx_baas_path c) (baas_ns c) (ctx_sandboxname c)
  (is_create c) (is_destroy c) (is_list c) (is_recover c) (is_refresh c).
Definition set_chown_owner c := CmdContext (enable_promote c) true (enable_override_uid c) (custom_lowerdir c)
  (custom_overlayroot c) (prebuild_sb c) (ctx_baas_path c) (baas_ns c) (ctx_sandboxname c)
  (is_create c) (is_destroy c) (is_list c) (is_recover c) (is_refresh c).
Definition set_override_uid b c := CmdContext (enable_promote c) (enable_chown_owner c) b (custom_lowerdir c)
  (custom_overlayroot c) (prebuild_sb c) (ctx_baas_path c) (baas_ns c) (ctx_sandboxname c)
  (is_create c) (is_destroy c) (is_list c) (is_recover c) (is_refresh c).
Definition set_custom_lowerdir v c := CmdContext (enable_promote c) (enable_chown_owner c) (enable_override_uid c) (Some v)
  (custom_overlayroot c) (prebuild_sb c) (ctx_baas_path c) (baas_ns c) (ctx_sandboxname c)
  (is_create c) (is_destroy c) (is_list c) (is_recover c) (is_refresh c).
Definition set_custom_overlayroot v c := CmdContext (enable_promote c) (enable_chown_owner c) (enable_override_uid c)
  (custom_lowerdir c) (Some v) (prebuild_sb c) (ctx_baas_path c) (baas_ns c) (ctx_sandboxname c)
  (is_create c) (is_destroy c) (is_list c) (is_recover c) (is_refresh c).
Definition set_prebuild v c := CmdContext (enable_promote c) (enable_chown_owner c) (enable_override_uid c) (custom_lowerdir c)
  (custom_overlayroot c) (Some v) (ctx_baas_path c) (baas_ns c) (ctx_sandboxname c)
  (is_create c) (is_destroy c) (is_list c) (is_recover c) (is_refresh c).
Definition set_baas_path v c := CmdContext (enable_promote c) (enable_chown_owner c) (enable_override_uid c) (custom_lowerdir c)
  (custom_overlayroot c) (prebuild_sb c) v (baas_ns c) (ctx_sandboxname c)
  (is_create c) (is_destroy c) (is_list c) (is_recover c) (is_refresh c).
Definition set_baas_ns v c := CmdContext (enable_promote c) (enable_chown_owner c) (enable_override_uid c) (custom_lowerdir c)
  (custom_overlayroot c) (prebuild_sb c) (ctx_baas_path c) v (ctx_sandboxname c)
  (is_create c) (is_destroy c) (is_list c) (is_recover c) (is_refresh c).
Definition set_sandboxname v c := CmdContext (enable_promote c) (enable_chown_owner c) (enable_override_uid c) (custom_lowerdir c)
  (custom_overlayroot c) (prebuild_sb c) (ctx_baas_path c) (baas_ns c) v
  (is_create c) (is_destroy c) (is_list c) (is_recover c) (is_refresh c).
Definition set_command cmd c := CmdContext (enable_promote c) (enable_chown_owner c) (enable_override_uid c) (custom_lowerdir c)
  (custom_overlayroot c) (prebuild_sb c) (ctx_baas_path c) (baas_ns c) (ctx_sandboxname c)
  (str_eqb cmd (lit "create")) (str_eqb cmd (lit "destroy")) (str_eqb cmd (lit "list"))
  (str_eqb cmd (lit "recover")) (str_eqb cmd (lit "refresh")).

(** What a failing parse prints: a line on stderr, then perhaps the usage; or
    only the usage or the version on stdout. *)
Inductive parse_failure :=
  | FailUsage (message : cstr)
  | FailOnly (message : cstr)
  | ShowUsage
  | ShowVersion.

(** One turn of the option loop with [effective_argc = n >= 3]. *)
Inductive tail_step :=
  | TailNext (n : nat) (c : cmd_context)
  | TailFail (message : cstr)
  | TailStop.

Definition arg (argv : list cstr) (i : nat) : cstr := default [] (argv !! i).

Definition is_one_of (a : cstr) (names : list cstr) : bool := existsb (str_eqb a) names.

(** The tests in the order of the source: the two path options are refused
    before either is read, the others one by one. *)
Definition tail_option (argv : list cstr) (n : nat) (c : cmd_context) : tail_step :=
  let tail := arg argv (n - 1) in
  let before := arg argv (n - 2) in
  let value names := (4 <=? n)%nat && is_one_of before names in
  if str_eqb tail (lit "--promote") then TailNext (n - 1) (set_promote c)
  else if str_eqb tail (lit "--chown-owner") then TailNext (n - 1) (set_chown_owner c)
  else if str_eqb tail (lit "--override-uid") then TailNext (n - 1) (set_override_uid true c)
  else if str_eqb tail (lit "--no-override-uid") then TailNext (n - 1) (set_override_uid false c)
  else if is_one_of tail [lit "--lowerdir"; lit "-l"] then TailFail (lit "Error: --lowerdir requires a path argument")
  else if is_one_of tail [lit "--overlayroot"; lit "-p"] then TailFail (lit "Error: --overlayroot requires a path argument")
  else if value [lit "--lowerdir"; lit "-l"] then TailNext (n - 2) (set_custom_lowerdir tail c)
  else if value [lit "--overlayroot"; lit "-p"] then TailNext (n - 2) (set_custom_overlayroot tail c)
  else if is_one_of tail [lit "-pbsb"] then TailFail (lit "Error: -pbsb requires a sandbox name argument")
  else if value [lit "-pbsb"] then TailNext (n - 2) (set_prebuild tail c)
  else if is_one_of tail [lit "--baas-path"] then TailFail (lit "Error: --baas-path requires a path argument")
  else if value [lit "--baas-path"] then TailNext (n - 2) (set_baas_path tail c)
  else if is_one_of tail [lit "--baas-ns"] then TailFail (lit "Error: --baas-ns requires a namespace argument")
  else if value [lit "--baas-ns"] then TailNext (n - 2) (set_baas_ns tail c)
  else TailStop.

(** [while (effective_argc >= 3)]: every turn takes at least one argument, so
    [argc] turns are enough. *)
Fixpoint tail_loop (fuel : nat) (argv : list cstr) (n : nat) (c : cmd_context) : cstr + (nat * cmd_context) :=
  match fuel with
  | O => inr (n, c)
  | S fuel' =>
    if (3 <=? n)%nat then
      match tail_option argv n c with
      | TailNext n' c' => tail_loop fuel' argv n' c'
      | TailFail message => inl message
      | TailStop => inr (n, c)
      end
    else inr (n, c)
  end.

Definition isSome {A} (o : option A) : bool := match o with Some _ => true | None => false end.

(** The checks after the loop, as the text of the first one that fails. *)
Definition check_context (cmd : cstr) (n : nat) (c : cmd_context) : option cstr :=
  let checks :=
    [(negb (is_create c) && negb (is_destroy c) && negb (is_list c) && negb (is_refresh c) && negb (is_recover c),
        lit "Error: Invalid command '" ++ cmd ++ lit "'");
     ((is_create c || is_destroy c) && (n <? 3)%nat, lit "Error: Missing required arguments");
     (is_list c && negb (n =? 2)%nat, lit "Error: list does not take arguments");
     (is_refresh c && negb (n =? 2)%nat, lit "Error: refresh does not take arguments");
     (is_recover c && negb (n =? 2)%nat, lit "Error: recover does not take arguments");
     (enable_chown_owner c && negb (is_create c), lit "Error: --chown-owner is supported only with create");
     (isSome (custom_lowerdir c) && negb (is_create c), lit "Error: --lowerdir is supported only with create");
     (isSome (prebuild_sb c) && isSome (custom_lowerdir c), lit "Error: -pbsb and --lowerdir are mutually exclusive");
     (is_create c && negb (isSome (custom_lowerdir c)) && negb (isSome (prebuild_sb c)), lit "Error: -pbsb is required for create");
     (isSome (prebuild_sb c) && negb (is_create c), lit "Error: -pbsb is supported only with create");
     (isSome (custom_overlayroot c) && negb (is_create c), lit "Error: --overlayroot is supported only with create")] in
  match List.find fst checks with
  | Some (_, message) => Some message
  | None => None
  end.

(** The sandbox path: absolute, or relative to the working directory. *)
Definition sandbox_path (a cwd : cstr) : cstr + cstr :=
  let too_long := lit "Error: Sandbox path too long (max 2047 chars): " in
  if is_absolute a then
    if 2048 <=? slen a then inl (too_long ++ a) else inr a
  else
    let full := cwd ++ lit "/" ++ a in
    if 2048 <=? slen full then inl (too_long ++ full) else inr full.

Definition parse_arguments (argv : list cstr) (cwd : cstr) : parse_failure + cmd_context :=
  let argc := length argv in
  if (argc <? 2)%nat then inl ShowUsage
  else
    let cmd := arg argv 1 in
    if is_one_of cmd [lit "version"; lit "--version"; lit "-v"] then inl ShowVersion
    else if is_one_of cmd [lit "help"; lit "--help"; lit "-h"] then inl ShowUsage
    else
      match tail_loop argc argv argc initial_context with
      | inl message => inl (FailUsage message)
      | inr (n, c) =>
        let c := set_command cmd c in
        let c := if is_create c && negb (enable_override_uid c) then set_override_uid true c else c in
        match check_context cmd n c with
        | Some message => inl (FailUsage message)
        | None =>
          if is_create c || is_destroy c then
            match sandbox_path (arg argv 2) cwd with
            | inl message => inl (FailOnly message)
            | inr path => inr (set_sandboxname path c)
            end
          else inr c
        end
      end.

(** ** prepare_mount_request *)

Definition request_cmd (c : cmd_context) : Z :=
  if is_create c then CMD_CREATE
  else if is_destroy c then CMD_DESTROY
  else if is_list c then CMD_SANDBOX_LIST
  else if is_recover c then CMD_RECOVER
  else CMD_REFRESH.

Definition request_flags (c : cmd_context) : Z :=
  Z.lor (Z.lor (if enable_promote c then FLAG_PROMOTE_THREADS else 0)
               (if enable_chown_owner c then FLAG_CHOWN_OWNER_THREAD else 0))
        (if enable_override_uid c then FLAG_OVERRIDE_UID else 0).

(** The overlay root of the request, or the error line. *)
Definition request_overlayroot (c : cmd_context) : cstr + cstr :=
  match custom_overlayroot c with
  | None => inr []
  | Some root =>
    if negb (is_absolute root) then inl (lit "Error: --overlayroot must be an absolute path" ++ [LF])
    else if 2048 <=? slen root then inl (lit "Error: --overlayroot path too long (max 2047 chars)")
    else inr root
  end.

Definition request_lowerdir (c : cmd_context) (cwd : cstr) : cstr + cstr :=
  match custom_lowerdir c with
  | None => inr []
  | Some lower =>
    if match strchr lower ":" with None => negb (is_absolute lower) | Some _ => false end then
      let full := cwd ++ lit "/" ++ lower in
      if 2048 <=? slen full then inl (lit "Error: --lowerdir path too long (max 2047 chars)") else inr full
    else if 2048 <=? slen lower then inl (lit "Error: --lowerdir value too long (max 2047 chars)")
    else inr lower
  end.

Section prepare.
Context {W : Type} {K : Kernel W}.

(** The group of the request: [build-access] for its members. *)
Definition request_gid (c : cmd_context) (gid : Z) : M W Z :=
  if enable_override_uid c then
    let! grp := call (Getgrnam (lit "build-access")) in
    match grp with
    | None => ret gid
    | Some gr_gid =>
      let! user := call (Getenv (lit "USER")) in
      let! groups := call (Getgrouplist (default [] user) gid 64) in
      ret (match groups with
           | Some groups => if existsb (Z.eqb gr_gid) groups then gr_gid else gid
           | None => gid
           end)
    end
  else ret gid.

(** The request, with its strings not yet in their arrays, or an error line. *)
Definition prepare_mount_request (c : cmd_context) (cwd : cstr) : M W (cstr + mount_request) :=
  match request_overlayroot c with
  | inl message => ret (inl message)
  | inr root =>
    let! uid := call Getuid in
    let! gid := call Getgid in
    let! gid := request_gid c gid in
    match request_lowerdir c cwd with
    | inl message => ret (inl message)
    | inr lower =>
      let '(baas, pb) :=
        match prebuild_sb c with
        | Some pb => (fit 512 (ctx_baas_path c), fit 256 pb)
        | None => ([], [])
        end in
      ret (inr (MountRequest (request_cmd c) (request_flags c) uid gid (fit 2048 (ctx_sandboxname c)) lower root baas pb))
    end
  end.
End prepare.

(** * Properties *)

(** ** The option loop *)

Lemma tail_option_shrinks argv n c n' c' : tail_option argv n c = TailNext n' c' → (3 <= n)%nat → (n' < n)%nat.
Proof. unfold tail_option. intros H Hn. repeat case_match; simplify_eq; lia. Qed.

(** More turns than arguments change nothing. *)
Lemma tail_loop_enough fuel1 fuel2 argv n c :
  (n <= fuel1)%nat → (n <= fuel2)%nat → tail_loop fuel1 argv n c = tail_loop fuel2 argv n c.
Proof.
  revert fuel2 n c. induction fuel1 as [|f1 IH]; intros [|f2] n c H1 H2; cbn [tail_loop]; [done| | |].
  - by replace n with 0%nat by lia.
  - by replace n with 0%nat by lia.
  - destruct (3 <=? n)%nat eqn:En; [|done]. apply Nat.leb_le in En.
    destruct (tail_option argv n c) as [n' c'|m|] eqn:E; [|done|done].
    apply tail_option_shrinks in E; [|done]. apply IH; lia.
Qed.

(** No option sets a command, and the strings that are set are arguments. *)
Definition from_argv (argv : list cstr) (c : cmd_context) : Prop :=
  is_create c = false ∧
  (∀ v, custom_lowerdir c = Some v ∨ custom_overlayroot c = Some v ∨ prebuild_sb c = Some v → v ∈ argv) ∧
  (ctx_baas_path c ∈ argv ∨ ctx_baas_path c = ctx_baas_path initial_context).

Lemma arg_elem argv i : (i < length argv)%nat → arg argv i ∈ argv.
Proof.
  intros H. unfold arg. destruct (lookup_lt_is_Some_2 argv i H) as [x E]. rewrite E. simpl.
  by eapply list_elem_of_lookup_2.
Qed.

Lemma tail_option_from argv n c n' c' :
  (3 <= n <= length argv)%nat → from_argv argv c → tail_option argv n c = TailNext n' c' → from_argv argv c'.
Proof.
  intros Hn (Hc & Hs & Hb). pose proof (arg_elem argv (n - 1) ltac:(lia)) as Ha. unfold tail_option, from_argv.
  intros H. repeat case_match; simplify_eq; simpl; (split; [done|]); (split; [|auto]);
    intros v Hv; first [by apply Hs | destruct Hv as [Hv|[Hv|Hv]]; simplify_eq; auto].
Qed.

Lemma tail_loop_from fuel argv n c n' c' :
  (n <= length argv)%nat → from_argv argv c → tail_loop fuel argv n c = inr (n', c') →
  from_argv argv c' ∧ (n' <= n)%nat.
Proof.
  revert n c. induction fuel as [|f IH]; intros n c Hn Hc H; cbn [tail_loop] in H; [by simplify_eq|].
  destruct (3 <=? n)%nat eqn:En; [|by simplify_eq]. apply Nat.leb_le in En.
  destruct (tail_option argv n c) as [n1 c1|m|] eqn:E; [|done|by simplify_eq].
  pose proof (tail_option_from argv n c n1 c1 ltac:(lia) Hc E). apply tail_option_shrinks in E; [|done].
  destruct (IH n1 c1) as [? ?]; [lia|done|done|]. split; [done|lia].
Qed.

Lemma tail_loop_name f argv n c n' c' :
  tail_loop f argv n c = inr (n', c') → ctx_sandboxname c' = ctx_sandboxname c.
Proof.
  revert n c. induction f as [|f IH]; intros m c H; cbn [tail_loop] in H; [by simplify_eq|].
  destruct (3 <=? m)%nat; [|by simplify_eq]. destruct (tail_option argv m c) as [m1 d|msg|] eqn:E; [|done|by simplify_eq].
  apply IH in H. rewrite H. unfold tail_option in E. repeat case_match; by simplify_eq.
Qed.

(** ** The context of a successful parse *)

Lemma find_none_all {A} (l : list (bool * A)) : List.find fst l = None → Forall (λ p, fst p = false) l.
Proof. intros H. apply Forall_forall. intros x Hx%list_elem_of_In. by eapply find_none in H. Qed.

Record context_ok (argv : list cstr) (c : cmd_context) : Prop := {
  (** Exactly the command of the line. *)
  one_command : is_create c = str_eqb (arg argv 1) (lit "create") ∧ is_destroy c = str_eqb (arg argv 1) (lit "destroy") ∧
    is_list c = str_eqb (arg argv 1) (lit "list") ∧ is_recover c = str_eqb (arg argv 1) (lit "recover") ∧
    is_refresh c = str_eqb (arg argv 1) (lit "refresh") ∧
    (is_create c || is_destroy c || is_list c || is_recover c || is_refresh c) = true;
  sandbox_absolute : is_create c = true ∨ is_destroy c = true → is_absolute (ctx_sandboxname c) = true;
  sandbox_fits : slen (ctx_sandboxname c) < 2048;
  create_lower : is_create c = true → isSome (custom_lowerdir c) = negb (isSome (prebuild_sb c));
  create_override : is_create c = true → enable_override_uid c = true;
  create_only : is_create c = false →
    enable_chown_owner c = false ∧ custom_lowerdir c = None ∧ custom_overlayroot c = None ∧ prebuild_sb c = None
}.

Lemma check_context_ok cmd n c : check_context cmd n c = None →
  (is_create c || is_destroy c || is_list c || is_recover c || is_refresh c) = true ∧
  (is_create c = true → isSome (custom_lowerdir c) = negb (isSome (prebuild_sb c))) ∧
  (is_create c = false → enable_chown_owner c = false ∧ custom_lowerdir c = None ∧ custom_overlayroot c = None ∧ prebuild_sb c = None).
Proof.
  unfold check_context. intros H.
  match type of H with match ?f with _ => _ end = None => destruct f as [[b m]|] eqn:E end; [done|]. clear H.
  apply find_none_all in E. rewrite !Forall_cons in E. cbn [fst] in E.
  destruct E as (E1 & E2 & E3 & E4 & E5 & E6 & E7 & E8 & E9 & E10 & E11 & _).
  split_and!.
  - clear -E1. by destruct (is_create c), (is_destroy c), (is_list c), (is_recover c), (is_refresh c).
  - clear -E8 E9. intros Hc. rewrite Hc in *. by destruct (custom_lowerdir c), (prebuild_sb c).
  - clear -E6 E7 E10 E11. intros Hc. rewrite Hc in *.
    by destruct (enable_chown_owner c), (custom_lowerdir c), (custom_overlayroot c), (prebuild_sb c).
Qed.

Lemma parse_arguments_inv argv cwd c :
  parse_arguments argv cwd = inr c →
  ∃ n c0 c1, tail_loop (length argv) argv (length argv) initial_context = inr (n, c0) ∧
    c1 = (if is_create (set_command (arg argv 1) c0) && negb (enable_override_uid c0)
          then set_override_uid true (set_command (arg argv 1) c0) else set_command (arg argv 1) c0) ∧
    check_context (arg argv 1) n c1 = None ∧
    (if is_create c1 || is_destroy c1
     then ∃ path, sandbox_path (arg argv 2) cwd = inr path ∧ c = set_sandboxname path c1
     else c = c1).
Proof.
  unfold parse_arguments. destruct (_ <? 2)%nat; [done|]. destruct (is_one_of _ _); [done|]. destruct (is_one_of _ _); [done|].
  destruct (tail_loop _ _ _ _) as [m|[n c0]]; [done|]. cbv zeta. change (enable_override_uid (set_command (arg argv 1) c0)) with (enable_override_uid c0).
  set (c1 := if _ && _ then _ else _). destruct (check_context (arg argv 1) n c1) eqn:Ec; [done|].
  intros H. exists n, c0, c1. split_and!; [done|done|done|].
  destruct (is_create c1 || is_destroy c1); [|by simplify_eq].
  destruct (sandbox_path (arg argv 2) cwd) as [m|path]; [done|]. exists path. by simplify_eq.
Qed.

(** What a successful parse gives. *)
Lemma parse_context_ok argv cwd c :
  is_absolute cwd = true → parse_arguments argv cwd = inr c → context_ok argv c.
Proof.
  intros Hcwd Hparse.
  destruct (parse_arguments_inv argv cwd c Hparse) as (n & c0 & c1 & Hloop & Ec1 & Hcheck & Hend).
  destruct (check_context_ok _ _ _ Hcheck) as (Hone & Hlow & Honly).
  destruct (tail_loop_from (length argv) argv (length argv) initial_context n c0) as [(Hcr0 & _ & _) _]; [lia| |done|].
  { split_and!; [done| |by right]. intros v Hv. by destruct Hv as [|[|]]. }
  assert (ctx_sandboxname c0 = []) as Hname0 by (by apply tail_loop_name in Hloop).
  assert (ctx_sandboxname c1 = []) as Hname by (subst c1; by destruct (_ && _)).
  assert (is_create c1 = true → enable_override_uid c1 = true) as Hover.
  { subst c1. destruct (is_create (set_command (arg argv 1) c0)) eqn:E1, (enable_override_uid c0) eqn:E2; simpl in *; congruence. }
  assert (is_create c1 = str_eqb (arg argv 1) (lit "create") ∧ is_destroy c1 = str_eqb (arg argv 1) (lit "destroy") ∧
    is_list c1 = str_eqb (arg argv 1) (lit "list") ∧ is_recover c1 = str_eqb (arg argv 1) (lit "recover") ∧
    is_refresh c1 = str_eqb (arg argv 1) (lit "refresh")) as (F1 & F2 & F3 & F4 & F5).
  { subst c1. by destruct (_ && _). }
  pose proof (conj F1 (conj F2 (conj F3 (conj F4 (conj F5 Hone))))) as Hcmd. clear Hone.
  remember (is_create c1 || is_destroy c1) as b eqn:Ecd in Hend. symmetry in Ecd. destruct b.
  - destruct Hend as (path & Hpath & ->).
    assert (is_absolute path = true ∧ slen path < 2048) as [Habs Hlen].
    { unfold sandbox_path in Hpath. destruct (is_absolute (arg argv 2)) eqn:Ea.
      - destruct (Z.leb_spec 2048 (slen (arg argv 2))); simplify_eq. done.
      - destruct (Z.leb_spec 2048 (slen (cwd ++ lit "/" ++ arg argv 2))); simplify_eq.
        split; [by destruct cwd|done]. }
    split; [exact Hcmd|done|done|exact Hlow|exact Hover|exact Honly].
  - subst c. split; [exact Hcmd| |by rewrite Hname|exact Hlow|exact Hover|exact Honly].
    intros Hc. apply orb_false_iff in Ecd. destruct Ecd, Hc; congruence.
Qed.

(** What the client accepts.  When [parse_arguments] succeeds in an
    absolute working directory, exactly one command is set, the one of the
    line; the sandbox path of create and destroy is absolute and fits its
    buffer; a create has either a lower directory or a prebuild volume, never
    both, and always overrides the uid; and no option that belongs to create
    is accepted with another command. *)
Theorem parse_arguments_ok argv cwd c
    (Hcwd : is_absolute cwd = true) (Hparse : parse_arguments argv cwd = inr c) : context_ok argv c.
Proof. by apply (parse_context_ok argv cwd). Qed.

Lemma parse_arguments_ok_witness :
  context_ok [lit "mrepo"; lit "create"; lit "sb1"; lit "-l"; lit "/lower"; lit "--promote"]
    (set_sandboxname (lit "/b/sb1") (set_override_uid true (set_command (lit "create") (set_custom_lowerdir (lit "/lower") (set_promote initial_context))))).
Proof. refine (parse_arguments_ok _ (lit "/b") _ _ _); reflexivity. Defined.

(** The option [--no-override-uid] has no effect on a create. *)
Example no_override_uid_ignored :
  parse_arguments [lit "mrepo"; lit "create"; lit "sb1"; lit "-l"; lit "/lower"; lit "--no-override-uid"] (lit "/b") =
  parse_arguments [lit "mrepo"; lit "create"; lit "sb1"; lit "-l"; lit "/lower"; lit "--override-uid"] (lit "/b").
Proof. reflexivity. Qed.

(** ** The request *)

Section request.
Context {W : Type} {K : Kernel W}.
Implicit Types s : dstate W.

(** The ids that the system reports fit their 32-bit types. *)
Class IdsInRange : Prop := {
  uid_in_range w : 0 <= fst (k_do Getuid w) < 2 ^ 32;
  gid_in_range w : 0 <= fst (k_do Getgid w) < 2 ^ 32;
  group_in_range name w g : fst (k_do (Getgrnam name) w) = Some g → 0 <= g < 2 ^ 32
}.

Lemma no_nul_app (a b : cstr) : no_nul a → no_nul b → no_nul (a ++ b).
Proof. unfold no_nul. rewrite not_elem_of_app. tauto. Qed.
Lemma no_nul_fit n (a : cstr) : no_nul a → no_nul (fit n a).
Proof. unfold no_nul, fit. intros H Hin. apply H. apply elem_of_take in Hin as (i & Hi & _). by eapply list_elem_of_lookup_2. Qed.
Lemma no_nul_slash : no_nul (lit "/").
Proof. by apply (bool_decide_eq_true _); vm_compute. Qed.

Lemma request_gid_range {IR : IdsInRange} c gid s :
  0 <= gid < 2 ^ 32 → wp (request_gid c gid) (λ g _, 0 <= g < 2 ^ 32) s.
Proof.
  intros Hg. unfold request_gid. destruct (enable_override_uid c); [|by apply wp_ret].
  apply wp_bind, wp_call. intros grp s1 Hk _ _ _. destruct grp as [g|]; [|by apply wp_ret].
  pose proof (group_in_range (lit "build-access") (world s) g) as Hr. rewrite Hk in Hr. specialize (Hr eq_refl).
  apply wp_bind, wp_run. destruct (call (Getenv _) s1) as [u s2]. simpl.
  apply wp_bind, wp_run. destruct (call (Getgrouplist _ _ _) s2) as [gs s3]. simpl. apply wp_ret.
  destruct gs as [gs|]; [|done]. by destruct (existsb _ _).
Qed.

Lemma arg_no_nul argv i : Forall no_nul argv → no_nul (arg argv i).
Proof.
  intros H. unfold arg. destruct (argv !! i) as [a|] eqn:E; simpl.
  - by eapply (Forall_lookup_1 no_nul).
  - apply not_elem_of_nil.
Qed.

Lemma sandbox_path_no_nul a cwd path : no_nul a → no_nul cwd → sandbox_path a cwd = inr path → no_nul path.
Proof.
  unfold sandbox_path. intros Ha Hc. destruct (is_absolute a); destruct (_ <=? _); intros H; simplify_eq; [done|].
  apply no_nul_app; [done|]. apply (no_nul_app (lit "/")); [apply no_nul_slash|done].
Qed.

(** The strings of a successful parse come from the command line, the
    working directory and the defaults. *)
Record context_strings (c : cmd_context) : Prop := {
  context_name : no_nul (ctx_sandboxname c);
  context_lower v : custom_lowerdir c = Some v → no_nul v;
  context_root v : custom_overlayroot c = Some v → no_nul v;
  context_prebuild v : prebuild_sb c = Some v → no_nul v;
  context_baas : no_nul (ctx_baas_path c)
}.

Lemma initial_strings : no_nul (ctx_baas_path initial_context) ∧ no_nul [].
Proof. split; by apply (bool_decide_eq_true _); vm_compute. Qed.

Lemma from_argv_strings argv c :
  Forall no_nul argv → from_argv argv c → no_nul (ctx_sandboxname c) → context_strings c.
Proof.
  intros Hargv (_ & Hs & Hb) Hn. rewrite Forall_forall in Hargv.
  split; [done|intros v Hv; apply Hargv, Hs; auto..|].
  destruct Hb as [Hb| ->]; [by apply Hargv|apply initial_strings].
Qed.

Lemma parse_arguments_strings argv cwd c :
  Forall no_nul argv → no_nul cwd → parse_arguments argv cwd = inr c → context_strings c.
Proof.
  intros Hargv Hcwd Hp. destruct (parse_arguments_inv argv cwd c Hp) as (n & c0 & c1 & Hloop & Ec1 & _ & Hend).
  pose proof (tail_loop_name _ _ _ _ _ _ Hloop) as Hname.
  destruct (tail_loop_from (length argv) argv (length argv) initial_context n c0) as [Hfrom _]; [lia| |done|].
  { split_and!; [done| |by right]. intros v Hv. by destruct Hv as [|[|]]. }
  pose proof (from_argv_strings argv c0 Hargv Hfrom) as Hc0. rewrite Hname in Hc0.
  destruct (Hc0 (proj2 initial_strings)) as [N L R P B].
  assert (context_strings c1) as Hc1 by (subst c1; destruct (_ && _); by split).
  destruct (is_create c1 || is_destroy c1); [|by subst c].
  destruct Hend as (path & Hpath & ->). destruct Hc1 as [N1 L1 R1 P1 B1]. split; [|exact L1|exact R1|exact P1|exact B1].
  simpl. exact (sandbox_path_no_nul _ _ _ (arg_no_nul argv 2 Hargv) Hcwd Hpath).
Qed.

Lemma request_overlayroot_ok c root :
  context_strings c → request_overlayroot c = inr root → no_nul root ∧ slen root < 2048.
Proof.
  unfold request_overlayroot. intros Hc H. destruct (custom_overlayroot c) as [r|] eqn:E.
  - destruct (negb _); [done|]. destruct (Z.leb_spec 2048 (slen r)); simplify_eq. split; [by eapply context_root|done].
  - simplify_eq. split; [apply initial_strings|done].
Qed.

Lemma request_lowerdir_ok c cwd lower :
  context_strings c → no_nul cwd → request_lowerdir c cwd = inr lower → no_nul lower ∧ slen lower < 2048.
Proof.
  unfold request_lowerdir. intros Hc Hcwd H. destruct (custom_lowerdir c) as [l|] eqn:E.
  - destruct (match strchr l ":" with None => _ | Some _ => _ end).
    + destruct (Z.leb_spec 2048 (slen (cwd ++ lit "/" ++ l))); simplify_eq. split; [|done].
      apply no_nul_app; [done|]. apply (no_nul_app (lit "/")); [apply no_nul_slash|by eapply context_lower].
    + destruct (Z.leb_spec 2048 (slen l)); simplify_eq. split; [by eapply context_lower|done].
  - simplify_eq. split; [apply initial_strings|done].
Qed.

Lemma request_flags_range c : - 2 ^ 31 <= request_flags c < 2 ^ 31.
Proof. unfold request_flags. destruct (enable_promote c), (enable_chown_owner c), (enable_override_uid c); by vm_compute. Qed.
Lemma request_cmd_range c : - 2 ^ 31 <= request_cmd c < 2 ^ 31.
Proof. unfold request_cmd. repeat case_match; by vm_compute. Qed.

Lemma fit_fits n (a : cstr) : 1 <= n → slen (fit n a) < n.
Proof. intros Hn. pose proof (fit_le n a Hn). lia. Qed.

(** What a request says of the parsed command line. *)
Definition request_of (c : cmd_context) (r : mount_request) : Prop :=
  req_cmd r = request_cmd c ∧ req_flags r = request_flags c ∧ req_sandboxname r = ctx_sandboxname c ∧
  (prebuild_sb c = None → req_prebuild_sb r = [] ∧ req_baas_path r = []) ∧
  (∀ pb, prebuild_sb c = Some pb → req_prebuild_sb r = fit 256 pb).

(** The daemon's early refusals do not concern the client's requests, but
    for [--promote] with another command than create. *)
Lemma request_not_refused argv c r :
  context_ok argv c → request_of c r → (enable_promote c = true → is_create c = true) → refused r = None.
Proof.
  intros Hok (Hcmd & Hfl & Hname & _) Hpro. unfold refused. rewrite Hcmd, Hfl, Hname.
  destruct (is_create c) eqn:Hc.
  - assert ((request_cmd c =? CMD_CREATE) = true) as -> by (unfold request_cmd; by rewrite Hc).
    pose proof (sandbox_absolute argv c Hok (or_introl Hc)) as Habs.
    destruct (ctx_sandboxname c) as [|a name]; [done|]. simpl. by rewrite !andb_false_r.
  - destruct (create_only argv c Hok Hc) as (Hown & _). unfold request_flags. rewrite Hown.
    destruct (enable_promote c); [by specialize (Hpro eq_refl)|]. by destruct (enable_override_uid c).
Qed.

(** The request that the client builds.  For a command line that
    [parse_arguments] accepts, whatever the group database answers,
    [prepare_mount_request] gives an error line or a request whose strings
    all fit their fields and whose numbers fit theirs (so that it survives
    the socket), for the command, flags and untruncated sandbox path of the
    command line, and which the daemon does not refuse before looking at the
    command, provided [--promote] comes with create. *)
Theorem prepare_mount_request_ok {IR : IdsInRange} argv cwd c s
    (Hargv : Forall no_nul argv) (Hcwd : no_nul cwd) (Habs : is_absolute cwd = true)
    (Hparse : parse_arguments argv cwd = inr c) :
  match fst (prepare_mount_request c cwd s) with
  | inl message => message ≠ []
  | inr r => request_strings r ∧ request_of c r ∧
      ((enable_promote c = true → is_create c = true) → refused r = None)
  end.
Proof.
  pose proof (parse_arguments_strings argv cwd c Hargv Hcwd Hparse) as Hstr.
  pose proof (parse_context_ok argv cwd c Habs Hparse) as Hok.
  cut (wp (prepare_mount_request c cwd) (λ r _, match r with
    | inl message => message ≠ []
    | inr r => request_strings r ∧ request_of c r
    end) s).
  { intros H%wp_run. destruct (fst _) as [m|r]; [done|]. destruct H as [Hr Hof]. split_and!; [done..|].
    by apply (request_not_refused argv). }
  unfold prepare_mount_request. destruct (request_overlayroot c) as [m|root] eqn:Er.
  { apply wp_ret. unfold request_overlayroot in Er. repeat case_match; by simplify_eq. }
  destruct (request_overlayroot_ok c root Hstr Er) as [Hrn Hrl].
  apply wp_bind, wp_call. intros uid s1 Hu _ _ _. pose proof (uid_in_range (world s)) as Huid. rewrite Hu in Huid.
  apply wp_bind, wp_call. intros gid s2 Hg _ _ _. pose proof (gid_in_range (world s1)) as Hgid. rewrite Hg in Hgid.
  apply wp_bind. eapply wp_mono; [by apply request_gid_range|]. intros g s3 Hgr.
  destruct (request_lowerdir c cwd) as [m|lower] eqn:El.
  { apply wp_ret. unfold request_lowerdir in El. repeat case_match; by simplify_eq. }
  destruct (request_lowerdir_ok c cwd lower Hstr Hcwd El) as [Hln Hll].
  pose proof (sandbox_fits argv c Hok) as Hname.
  assert (∃ baas pb, (match prebuild_sb c with Some pb => (fit 512 (ctx_baas_path c), fit 256 pb) | None => ([], []) end) = (baas, pb) ∧
    (no_nul baas ∧ slen baas < 512) ∧ (no_nul pb ∧ slen pb < 256) ∧
    (prebuild_sb c = None → pb = [] ∧ baas = []) ∧ (∀ p, prebuild_sb c = Some p → pb = fit 256 p))
    as (baas & pb & -> & Hb & Hp & Hnone & Hsome).
  { destruct (prebuild_sb c) as [p|] eqn:Ep; eexists _, _; (split; [done|]).
    - split_and!; [apply no_nul_fit, (context_baas c Hstr)|by apply fit_fits|by eapply no_nul_fit, context_prebuild|by apply fit_fits|done|].
      intros q Hq. by simplify_eq.
    - split_and!; [apply initial_strings|done|apply initial_strings|done|done|done]. }
  apply wp_ret. rewrite (fit_id 2048) by done. split; [|by split_and!].
  split; cbn; [apply request_cmd_range|apply request_flags_range|done|done|split; [apply (context_name c Hstr)|done]|done..].
Qed.
End request.

#[export] Instance sim_ids_in_range : IdsInRange (K := sim_kernel).
Proof. split; simpl; [intros; lia..|]. intros name w g H. discriminate H. Qed.

Definition sample_context : cmd_context :=
  set_sandboxname (lit "/b/sb1") (set_command (lit "destroy") initial_context).

Lemma prepare_mount_request_ok_witness :
  match fst (prepare_mount_request sample_context (lit "/b") (sim_state sim0 [] zero_config)) with
  | inl message => message ≠ []
  | inr r => request_strings r ∧ request_of sample_context r ∧
      ((enable_promote sample_context = true → is_create sample_context = true) → refused r = None)
  end.
Proof.
  refine (prepare_mount_request_ok (K := sim_kernel) [lit "mrepo"; lit "destroy"; lit "sb1"] (lit "/b") sample_context
            (sim_state sim0 [] zero_config) _ _ _ _).
  - repeat constructor; by apply (bool_decide_eq_true _); vm_compute.
  - by apply (bool_decide_eq_true _); vm_compute.
  - reflexivity.
  - reflexivity.
Defined.

(** A prebuild name of 256 characters or more is cut in the request, while the
    client clones and mounts the volume under the whole name. *)
Example prebuild_name_truncated :
  let name := replicate 300 "a"%char in
  match fst (prepare_mount_request (W := sim) (set_sandboxname (lit "/b/sb1") (set_command (lit "create") (set_prebuild name initial_context)))
               (lit "/b") (sim_state sim0 [] zero_config)) with
  | inr r => slen (req_prebuild_sb r) = 255
  | inl _ => False
  end.
Proof. reflexivity. Qed.
