(* ===== verification/Client.v ===== *)
(** * The client

    Models the second half of [mbroker/client/main.c], from
    [send_request_to_daemon] to [main], with [launch_detached_command] and
    [mbroker/client/mount_util.c].  [printf] and [fprintf] to the terminal are
    [Print] calls. *)
From S2P Require Import Prelude CString Protocol Config MountTable OS SimKernel Util Exports Wire Broker ClientArgs.
Open Scope Z_scope.

Definition PROC_MOUNTS : cstr := lit "/proc/mounts".
Definition nl (t : cstr) : list ascii := t ++ [LF].

(** ** mount_util.c *)

(** [sscanf(line, "%*s %4095s ...", mountpoint) == 1]: the conversions after
    the second cannot undo its assignment. *)
Definition sscanf_mountpoint (line : list ascii) : option cstr :=
  let token t := take_while (λ c, negb (isspace c)) (drop_while isspace t) in
  let rest t := drop_while (λ c, negb (isspace c)) (drop_while isspace t) in
  let line := c_str line in
  if nonempty (token line) && nonempty (token (rest line)) then Some (take 4095 (token (rest line))) else None.

(** A line of the table has [path] as its mount point. *)
Definition shows_mount (path : cstr) (content : list ascii) : bool :=
  existsb (λ line, match sscanf_mountpoint line with
                   | Some mountpoint => str_eqb mountpoint path
                   | None => false
                   end) (fgets_lines 8192 content).

Section mount_util.
Context {W : Type} {K : Kernel W}.

Definition is_path_mounted (path : cstr) : M W bool :=
  let! r := sys (ReadFile PROC_MOUNTS) in
  ret (match r with
       | inl _ => false
       | inr content => shows_mount path content
       end).

Definition ensure_tmp_log_mode (path : cstr) : M W unit :=
  if negb (prefixb (lit "/tmp/") path) then ret tt
  else
    let! r := sys (Chmod path mode_0777) in
    match r with
    | inl e =>
      if negb (e =? ENOENT)
      then call (Print STDERR (nl (lit "Warning: failed to chmod 0777 on " ++ path ++ lit ": " ++ strerror e)))
      else ret tt
    | inr _ => ret tt
    end.
End mount_util.

(** ** main.c *)


(** The characters of a prebuild volume's name. *)
Definition pbsb_char (c : ascii) : bool :=
  isalnum c || char_eqb c "-" || char_eqb c "_" || char_eqb c ".".

Definition createvol_command (baas ns pb : cstr) : cstr :=
  baas ++ lit " createvol -s " ++ pb ++ lit " -c " ++ ns ++ lit "/" ++ pb ++ lit " --skipco --cmdline --skipauth".
Definition edit_command (baas pb : cstr) : cstr :=
  baas ++ lit " edit -s " ++ pb ++ lit " -bmp --login False".
Definition destroypod_command (baas pb : cstr) : cstr :=
  baas ++ lit " destroypod -s " ++ pb ++ lit " --skipauth".

(** [snprintf(exec_cmd, ..., "%s >> %s 2>&1", cmd, log)]. *)
Definition redirected (cmd log : cstr) : cstr := cmd ++ lit " >> " ++ log ++ lit " 2>&1".

Definition pbsb_mount (pb : cstr) : cstr := BAAS_MOUNT_DIR ++ lit "/" ++ pb.

Section client.
Context {W : Type} {K : Kernel W}.

Definition say (t : cstr) : M W unit := call (Print STDOUT (nl t)).
Definition complain (t : cstr) : M W unit := call (Print STDERR (nl t)).

Definition launch_detached_command (cmd : cstr) : M W (process Z) :=
  let! pid := sys Fork in
  match pid with
  | inl _ => ret (Running (-1))
  | inr pid =>
    if pid =? 0 then
      let! grandchild := sys Fork in
      match grandchild with
      | inl _ => exit_process 1
      | inr grandchild =>
        if 0 <? grandchild then exit_process 0
        else
          let! _ := sys Setsid in
          let! _ := sys (Chdir (lit "/")) in
          let! _ := sys (System cmd) in
          exit_process 0
      end
    else
      let! status := sys (Waitpid pid) in
      ret (Running (match status with
                    | inl _ => -1
                    | inr status => if negb (WIFEXITED status) || negb (WEXITSTATUS status =? 0) then -1 else 0
                    end))
  end.

(** [time], [localtime_r] and [strftime], or the text used when one fails. *)
Definition timestamp (format fallback : cstr) : M W cstr :=
  let! now := call Time in
  if now =? -1 then ret fallback
  else
    let! ts := call (Strftime format) in
    ret (if nonempty ts then ts else fallback).

Definition log_name_timestamp : M W cstr := timestamp (lit "%Y%m%d_%H%M%S") (lit "unknown").
Definition log_timestamp : M W cstr := timestamp (lit "%Y-%m-%d %H:%M:%S") (lit "unknown-time").

Definition send_request_to_daemon (r : mount_request) : M W (option mount_reply) :=
  let! s := sys Socket in
  match s with
  | inl e => complain (lit "Failed to create socket: " ++ strerror e) ;; ret None
  | inr fd =>
    let! c := sys (Connect fd (fit 108 OVERLAY_SOCKET_FILE)) in
    match c with
    | inl e =>
      complain (lit "Failed to connect to daemon: " ++ strerror e) ;;
      complain (lit "Ensure mrepod service is running") ;;
      let! _ := sys (Close fd) in
      ret None
    | inr _ =>
      let! n := sys (Write fd (encode_request (fill_request r))) in
      match n with
      | inl e =>
        complain (lit "Failed to send request: " ++ strerror e) ;;
        let! _ := sys (Close fd) in
        ret None
      | inr _ =>
        let! b := sys (Read fd REPLY_SIZE) in
        match b with
        | inl e =>
          complain (lit "Failed to receive reply: " ++ strerror e) ;;
          let! _ := sys (Close fd) in
          ret None
        | inr bytes =>
          let! _ := sys (Close fd) in
          ret (Some (decode_reply bytes))
        end
      end
    end
  end.

(** The entry of a command in its log, appended. *)
Definition log_command (log ts cmd : cstr) : M W unit :=
  ensure_tmp_log_mode log ;;
  let! _ := sys (Fputs log (nl (lit "[" ++ ts ++ lit "] CMD: " ++ cmd))) in
  let! _ := sys (Fclose log) in
  ret tt.

(** One baas command of [handle_create], from its [snprintf] to [system]:
    the two blocks of the source differ in what is said before the command
    is run and when it fails. *)
Definition run_baas (cmd log : cstr) (before : M W unit) (failure : cstr) : M W bool :=
  if 4096 <=? slen cmd then complain (lit "Error: -pbsb name too long") ;; ret false
  else
    let! ts := log_timestamp in
    let! f := sys (FopenA log) in
    match f with
    | inl e =>
      complain (lit "Error: failed to open log file " ++ log ++ lit ": " ++ strerror e) ;;
      ret false
    | inr _ =>
      log_command log ts cmd ;;
      if 4608 <=? slen (redirected cmd log) then complain (lit "Error: command too long") ;; ret false
      else
        before ;;
        let! rc := sys (System (redirected cmd log)) in
        match rc with
        | inr 0 => ret true
        | _ => complain failure ;; ret false
        end
    end.

(** What is put into [custom_lowerdir_out], or [None] for [-1]. *)
Definition handle_create (c : cmd_context) : M W (option cstr) :=
  match prebuild_sb c with
  | None => ret (Some [])
  | Some pb =>
    if negb (forallb pbsb_char pb) then
      complain (lit "Error: -pbsb name contains invalid characters") ;; ret None
    else
      let! log_ts := log_name_timestamp in
      let log := lit "/tmp/mrepo_" ++ pb ++ lit "_baas_" ++ log_ts ++ lit ".log" in
      if 512 <=? slen log then complain (lit "Error: -pbsb name too long for log path") ;; ret None
      else
        ensure_tmp_log_mode log ;;
        if 2048 <=? slen (pbsb_mount pb) then complain (lit "Error: pbsb mount path too long") ;; ret None
        else
          let! mounted := is_path_mounted (pbsb_mount pb) in
          let! ready :=
            (if mounted : bool then
               say (lit "Using existing mounted prebuild sandbox at " ++ pbsb_mount pb) ;; ret true
             else
               let! cloned :=
                 run_baas (createvol_command (ctx_baas_path c) (baas_ns c) pb) log
                   (say (lit "Mounting prebuild sandbox '" ++ pb ++ lit "' via baas..."))
                   (lit "Error: pbsb clone failed: " ++ baas_ns c ++ lit "/" ++ pb ++ lit " (log: " ++ log ++ lit ")") in
               if negb cloned then ret false
               else run_baas (edit_command (ctx_baas_path c) pb) log (ret tt)
                      (lit "Error: pbsb mount failed: " ++ pb ++ lit " (log: " ++ log ++ lit ")")) in
          if negb ready then ret None
          else
            let! r := sys (Access (pbsb_mount pb) F_OK) in
            match r with
            | inl e =>
              complain (lit "Error: pbsb mount path not accessible: " ++ pbsb_mount pb ++ lit " (" ++ strerror e ++ lit ")") ;;
              ret None
            | inr _ => ret (Some (fit 2048 (pbsb_mount pb)))
            end
  end.

Definition handle_destroy (rep : mount_reply) (baas_path : cstr) : M W (process unit) :=
  if negb (nonempty (rep_prebuild_sb rep)) then ret (Running tt)
  else
    let baas := if nonempty (rep_baas_path rep) then rep_baas_path rep else baas_path in
    let! log_ts := log_name_timestamp in
    let log := lit "/tmp/mrepo_destroypod_" ++ rep_prebuild_sb rep ++ lit "_" ++ log_ts ++ lit ".log" in
    if 512 <=? slen log then ret (Running tt)
    else
      ensure_tmp_log_mode log ;;
      let cmd := destroypod_command baas (rep_prebuild_sb rep) in
      if 4096 <=? slen cmd then ret (Running tt)
      else
        let! ts := log_timestamp in
        let! f := sys (FopenA log) in
        (match f with inr _ => log_command log ts cmd | inl _ => ret tt end) ;;
        if 4608 <=? slen (redirected cmd log) then ret (Running tt)
        else
          let! rc := launch_detached_command (redirected cmd log) in
          match rc with
          | Exited code => ret (Exited code)
          | Running rc =>
            (if rc <? 0 then
               complain (lit "Warning: failed to launch async baas destroypod for " ++ rep_prebuild_sb rep ++
                         lit " (log: " ++ log ++ lit ")")
             else ret tt) ;;
            ret (Running tt)
          end.

Definition handle_info_command (rep : mount_reply) : M W unit := call (Print STDOUT (rep_details rep)).

Definition print_parse_failure (progname : cstr) (f : parse_failure) : M W unit :=
  match f with
  | FailUsage message => complain (nl message) ;; call (Print STDOUT (usage_text progname))
  | FailOnly message => complain message
  | ShowUsage => call (Print STDOUT (usage_text progname))
  | ShowVersion => call (Print STDOUT version_text)
  end.

Definition set_lowerdir (lower : cstr) (r : mount_request) : mount_request :=
  MountRequest (req_cmd r) (req_flags r) (req_uid r) (req_gid r) (req_sandboxname r) lower
    (req_overlayroot r) (req_baas_path r) (req_prebuild_sb r).

(** The lower directory of a prebuild volume replaces that of the request. *)
Definition with_prebuild (c : cmd_context) (r : mount_request) : M W (option mount_request) :=
  if is_create c && isSome (prebuild_sb c) then
    let! lower := handle_create c in
    ret (match lower with
         | None => None
         | Some lower => Some (if nonempty lower then set_lowerdir (fit 2048 lower) r else r)
         end)
  else ret (Some r).

(** [main] after a reply has been read. *)
Definition finish (c : cmd_context) (r : mount_request) (rep : mount_reply) : M W (process Z) :=
  if rep_status rep <? 0 then
    (if nonempty (rep_details rep) then complain (lit "Error: " ++ rep_details rep)
     else complain (lit "Error: " ++ strerror (- rep_status rep))) ;;
    ret (Running 1)
  else if (req_cmd r =? CMD_SANDBOX_LIST) || (req_cmd r =? CMD_RECOVER) then
    handle_info_command rep ;; ret (Running 0)
  else if req_cmd r =? CMD_REFRESH then
    say (lit "Success: exportfs refreshed successfully") ;; ret (Running 0)
  else
    let! p := (if req_cmd r =? CMD_DESTROY then handle_destroy rep (ctx_baas_path c) else ret (Running tt)) in
    match p with
    | Exited code => ret (Exited code)
    | Running _ =>
      say (lit "Success: sandbox " ++ (if req_cmd r =? CMD_CREATE then lit "created" else lit "destroyed") ++
           lit " successfully at " ++ req_sandboxname r) ;;
      ret (Running 0)
    end.

Definition main (argv : list cstr) : M W (process Z) :=
  let! cwd := sys (Getcwd 1024) in
  match cwd with
  | inl e => complain (lit "Failed to get current directory: " ++ strerror e) ;; ret (Running 1)
  | inr cwd =>
    match parse_arguments argv cwd with
    | inl f => print_parse_failure (arg argv 0) f ;; ret (Running 1)
    | inr c =>
      let! r := prepare_mount_request c cwd in
      match r with
      | inl message => complain message ;; ret (Running 1)
      | inr r =>
        let! r := with_prebuild c r in
        match r with
        | None => ret (Running 1)
        | Some r =>
          let! rep := send_request_to_daemon r in
          match rep with
          | None => ret (Running 1)
          | Some rep => finish c r rep
          end
        end
      end
    end
  end.
End client.

(** * Properties *)

(** ** The commands that are run *)

(** A command given to the shell, with what [system] returned. *)
Definition command_of (e : event) : option (cstr * res Z) :=
  let 'Ev c r := e in
  match c in syscall A return A → option (cstr * res Z) with
  | System cmd => λ rc, Some (cmd, rc)
  | _ => λ _, None
  end r.

Section commands.
Context {W : Type} {K : Kernel W}.
Implicit Types s : dstate W.

Definition commands s : list (cstr * res Z) := omap command_of (trace s).

(** A part of the program that runs no command. *)
Definition quiet : dstate W → dstate W → Prop := emits (λ e, command_of e = None).

Lemma quiet_commands s s' : quiet s s' → commands s' = commands s ∧ trace s `prefix_of` trace s'.
Proof.
  intros (l & Ht & Hl). split; [|by exists l]. unfold commands. rewrite Ht, omap_app.
  assert (omap command_of l = []) as ->; [|by rewrite app_nil_r].
  clear Ht. induction Hl as [|e l He _ IH]; [done|]. cbn. by rewrite He.
Qed.

Lemma wp_no_command {A B} (m : M W A) (f : A → M W B) (Q : B → dstate W → Prop) s :
  respects quiet m →
  (∀ a s', m s = (a, s') → commands s' = commands s → trace s `prefix_of` trace s' → wp (f a) Q s') →
  wp (bind m f) Q s.
Proof.
  intros Hm Hf. apply wp_bind, wp_run. specialize (Hm s). destruct (m s) as [a s'] eqn:E. simpl in *.
  destruct (quiet_commands s s' Hm). by apply Hf.
Qed.

Lemma wp_command cmd (Q : res Z → dstate W → Prop) s :
  (∀ rc s', commands s' = commands s ++ [(cmd, rc)] → trace s `prefix_of` trace s' → Q rc s') → wp (sys (System cmd)) Q s.
Proof.
  intros H. apply wp_sys. intros rc s' _ _ _ Ht. apply H; [|rewrite Ht; by apply prefix_app_r].
  unfold commands. by rewrite Ht, omap_app.
Qed.

Lemma quiet_is_path_mounted path : respects quiet (is_path_mounted path).
Proof. unfold is_path_mounted, quiet. respects; reflexivity. Qed.
Lemma quiet_ensure_tmp_log_mode path : respects quiet (ensure_tmp_log_mode path).
Proof. unfold ensure_tmp_log_mode, quiet. respects; reflexivity. Qed.
Lemma quiet_timestamp f d : respects quiet (timestamp f d).
Proof. unfold timestamp, quiet. respects; reflexivity. Qed.
Lemma quiet_log_timestamp : respects quiet log_timestamp.
Proof. apply quiet_timestamp. Qed.
Lemma quiet_log_name_timestamp : respects quiet log_name_timestamp.
Proof. apply quiet_timestamp. Qed.
Lemma quiet_log_command log ts cmd : respects quiet (log_command log ts cmd).
Proof. unfold log_command, quiet. respects; first [reflexivity|apply quiet_ensure_tmp_log_mode]. Qed.
Lemma quiet_say t : respects quiet (say t).
Proof. unfold say, quiet. respects; reflexivity. Qed.
Lemma quiet_complain t : respects quiet (complain t).
Proof. unfold complain, quiet. respects; reflexivity. Qed.
Lemma quiet_ret {A} (a : A) : respects quiet (ret a).
Proof. apply respects_ret. apply _. Qed.
Lemma quiet_sys {A} (c : syscall (res A)) : (∀ r, command_of (Ev c r) = None) → respects quiet (sys c).
Proof. intros H. unfold quiet. by apply emits_sys. Qed.
End commands.

#[export] Hint Resolve quiet_is_path_mounted quiet_ensure_tmp_log_mode quiet_timestamp quiet_log_timestamp
  quiet_log_name_timestamp quiet_log_command quiet_say quiet_complain quiet_ret : frame.
#[export] Hint Extern 4 (respects quiet (sys _)) => (apply quiet_sys; intro; reflexivity) : frame.

(** Runs past a step that executes no command. *)
Ltac quiet x s E H P := apply wp_no_command; [by auto with frame|intros x s E H P].

Section client_properties.
Context {W : Type} {K : Kernel W}.
Implicit Types s : dstate W.

(** A baas command runs at most once, with its output redirected to the log;
    the step succeeds exactly when it ran and returned 0. *)
Lemma wp_run_baas cmd log (before : M W unit) failure s :
  respects quiet before →
  wp (run_baas cmd log before failure) (λ ok s', trace s `prefix_of` trace s' ∧
    if ok : bool then commands s' = commands s ++ [(redirected cmd log, inr 0)]
    else commands s' = commands s ∨
         ∃ rc, rc ≠ inr 0 ∧ commands s' = commands s ++ [(redirected cmd log, rc)]) s.
Proof.
  intros Hb. unfold run_baas. destruct (_ <=? _).
  { quiet u s1 E1 H1 P1. apply wp_ret. eauto. }
  quiet ts s1 E1 H1 P1. quiet f s2 E2 H2 P2. destruct f as [e|[]].
  { quiet u s3 E3 H3 P3. apply wp_ret. split; [by do 2 (etrans; [done|])|]. left. congruence. }
  quiet u s3 E3 H3 P3. assert (trace s `prefix_of` trace s3) as P by (by do 2 (etrans; [done|])).
  rewrite H2, H1 in H3. clear E1 H1 P1 E2 H2 P2 E3 P3. destruct (_ <=? _).
  { quiet u4 s4 E4 H4 P4. apply wp_ret. split; [by etrans|]. left. congruence. }
  apply wp_no_command; [done|]. intros u4 s4 E4 H4 P4.
  apply wp_bind, wp_command. intros rc s5 H5 P5. rewrite H4, H3 in H5.
  assert (rc = inr 0 ∨ rc ≠ inr 0) as [->|Hrc] by (destruct rc as [|[| |]]; (by left) || by right).
  - apply wp_ret. split; [by do 2 (etrans; [done|])|done].
  - assert (wp (complain failure ;; ret false) (λ ok s', trace s `prefix_of` trace s' ∧ ok = false ∧ commands s' = commands s5) s5) as Hwp.
    { quiet u6 s6 E6 H6 P6. apply wp_ret. split_and!; [by do 3 (etrans; [done|])|done|done]. }
    destruct rc as [e|[|p|p]]; [..|done| |]; (eapply wp_mono; [exact Hwp|]; intros ok s6 (P6 & -> & H6); split; [done|];
      right; eexists; (split; [exact Hrc|]; by rewrite H6)).
Qed.

(** The command lines that a create may run for volume [pb] with its log. *)
Definition clone_run (c : cmd_context) (pb log : cstr) : cstr :=
  redirected (createvol_command (ctx_baas_path c) (baas_ns c) pb) log.
Definition mount_run (c : cmd_context) (pb log : cstr) : cstr :=
  redirected (edit_command (ctx_baas_path c) pb) log.

(** The commands that were run, when the step succeeded or not. *)
Definition create_ran (c : cmd_context) (pb log : cstr) (ran : list (cstr * res Z)) (ok : bool) : Prop :=
  if ok then ran = [(clone_run c pb log, inr 0); (mount_run c pb log, inr 0)]
  else ran = [] ∨ (∃ rc, ran = [(clone_run c pb log, rc)]) ∨
       ∃ rc, ran = [(clone_run c pb log, inr 0); (mount_run c pb log, rc)].

Lemma wp_clone_and_mount c pb log before f1 f2 s :
  respects quiet before →
  wp (let! cloned := run_baas (createvol_command (ctx_baas_path c) (baas_ns c) pb) log before f1 in
      if negb cloned then ret false else run_baas (edit_command (ctx_baas_path c) pb) log (ret tt) f2)
    (λ ok s', trace s `prefix_of` trace s' ∧ ∃ ran, commands s' = commands s ++ ran ∧ create_ran c pb log ran ok) s.
Proof.
  intros Hb. apply wp_bind. eapply wp_mono; [by apply wp_run_baas|]. intros [] s1 [P1 H1]; simpl negb; cbv iota.
  - eapply wp_mono; [apply wp_run_baas; auto with frame|]. intros [] s2 [P2 H2]; (split; [by etrans|]).
    + eexists. rewrite H2, H1, <- app_assoc. done.
    + destruct H2 as [H2|(rc & _ & H2)]; rewrite H2, H1.
      * eexists. split; [done|]. right. left. by eexists.
      * eexists. rewrite <- app_assoc. split; [done|]. right. right. by eexists.
  - apply wp_ret. split; [done|]. destruct H1 as [H1|(rc & _ & H1)]; rewrite H1.
    + exists []. rewrite app_nil_r. split; [done|]. by left.
    + eexists. split; [done|]. right. left. by eexists.
Qed.

Lemma wp_is_path_mounted path (Q : bool → dstate W → Prop) s :
  (∀ mounted s', commands s' = commands s → trace s `prefix_of` trace s' →
     (mounted = true → ∃ content, Ev (ReadFile PROC_MOUNTS) (inr content) ∈ trace s' ∧ shows_mount path content = true) →
     Q mounted s') →
  wp (is_path_mounted path) Q s.
Proof.
  intros H. destruct (quiet_commands s _ (quiet_is_path_mounted path s)) as [Hc Hp]. revert Hc Hp.
  unfold is_path_mounted, sys, call, bind, ret, wp, set_errno. cbn zeta.
  destruct (k_do (ReadFile PROC_MOUNTS) (world s)) as [[e|content] w] eqn:E; cbn; intros Hc Hp; apply H; [done|done|done|done|done|].
  intros Hm. exists content. split; [|done]. apply elem_of_app. right. by left.
Qed.

(** What [handle_create] has done for volume [pb]. *)
Definition create_done (c : cmd_context) (pb : cstr) (r : option cstr) s s' : Prop :=
  ∃ log ran, commands s' = commands s ++ ran ∧
    (ran ≠ [] → forallb pbsb_char pb = true ∧ slen log < 512) ∧
    match r with
    | Some lower =>
      forallb pbsb_char pb = true ∧ lower = pbsb_mount pb ∧ slen lower < 2048 ∧
      Ev (Access lower F_OK) (inr tt) ∈ trace s' ∧
      (create_ran c pb log ran true ∨
       ran = [] ∧ ∃ content, Ev (ReadFile PROC_MOUNTS) (inr content) ∈ trace s' ∧ shows_mount lower content = true)
    | None => create_ran c pb log ran false ∨ create_ran c pb log ran true
    end.

Lemma create_done_nothing c pb s s' : commands s' = commands s → create_done c pb None s s'.
Proof. intros H. exists [], []. rewrite app_nil_r. split_and!; [done|done|]. left. by left. Qed.

(** The end of [handle_create], when the volume is thought to be mounted. *)
Lemma wp_access_mount pb (Q : option cstr → dstate W → Prop) s :
  slen (pbsb_mount pb) < 2048 →
  (∀ s', commands s' = commands s → trace s `prefix_of` trace s' → Q None s') →
  (∀ s', commands s' = commands s → trace s `prefix_of` trace s' →
     Ev (Access (pbsb_mount pb) F_OK) (inr tt) ∈ trace s' → Q (Some (pbsb_mount pb)) s') →
  wp (let! r := sys (Access (pbsb_mount pb) F_OK) in
      match r with
      | inl e =>
        complain (lit "Error: pbsb mount path not accessible: " ++ pbsb_mount pb ++ lit " (" ++ strerror e ++ lit ")") ;;
        ret None
      | inr _ => ret (Some (fit 2048 (pbsb_mount pb)))
      end) Q s.
Proof.
  intros Hl Hn Hs. apply wp_bind, wp_sys. intros [e|[]] s1 _ _ _ Ht.
  - assert (commands s1 = commands s ∧ trace s `prefix_of` trace s1) as [H1 P1].
    { apply quiet_commands. eexists. split; [done|]. by repeat constructor. }
    quiet u s2 E2 H2 P2. apply wp_ret, Hn; [congruence|by etrans].
  - assert (commands s1 = commands s ∧ trace s `prefix_of` trace s1) as [H1 P1].
    { apply quiet_commands. eexists. split; [done|]. by repeat constructor. }
    apply wp_ret. rewrite fit_id by done. apply Hs; [done|done|]. rewrite Ht. apply elem_of_app. right. by left.
Qed.

Lemma prefix_elem {A} (x : A) l l' : l `prefix_of` l' → x ∈ l → x ∈ l'.
Proof. intros [k ->] H. apply elem_of_app. by left. Qed.

Lemma wp_handle_create c pb s :
  prebuild_sb c = Some pb → wp (handle_create c) (λ r s', create_done c pb r s s') s.
Proof.
  intros Hpb.
  unfold handle_create. rewrite Hpb. destruct (forallb pbsb_char pb) eqn:Ev; simpl negb; cbv iota.
  2: { quiet u s1 E1 H1 P1. by apply wp_ret, create_done_nothing. }
  quiet ts s1 E1 H1 P1. destruct (Z.leb_spec 512 (slen (lit "/tmp/mrepo_" ++ pb ++ lit "_baas_" ++ ts ++ lit ".log"))) as [|Hlog].
  { quiet u s2 E2 H2 P2. apply wp_ret, create_done_nothing. congruence. }
  set (log := lit "/tmp/mrepo_" ++ _) in *. clearbody log.
  quiet u2 s2 E2 H2 P2. destruct (Z.leb_spec 2048 (slen (pbsb_mount pb))) as [|Hmnt].
  { quiet u s3 E3 H3 P3. apply wp_ret, create_done_nothing. congruence. }
  rewrite H1 in H2. clear E1 E2 P1 P2 H1 s1.
  apply wp_bind, wp_is_path_mounted. intros mounted s3 H3 P3 Hshow. rewrite H2 in H3. clear H2 P3.
  apply wp_bind. destruct mounted.
  - specialize (Hshow eq_refl) as (content & Hin & Hshow). quiet u4 s4 E4 H4 P4. apply wp_ret. simpl negb. cbv iota.
    apply wp_access_mount; [done|..].
    + intros s5 H5 P5. apply create_done_nothing. congruence.
    + intros s5 H5 P5 Hacc. exists log, []. rewrite app_nil_r. split_and!; [congruence|done|done|done|done|done|].
      right. split; [done|]. exists content. split; [|done]. by do 2 (eapply prefix_elem; [done|]).
  - eapply wp_mono; [apply wp_clone_and_mount; auto with frame|]. intros ok s4 (P4 & ran & H4 & Hran).
    rewrite H3 in H4. destruct ok; simpl negb; cbv iota.
    + apply wp_access_mount; [done|..].
      * intros s5 H5 P5. exists log, ran. split_and!; [congruence|done|by right].
      * intros s5 H5 P5 Hacc. exists log, ran. split_and!; [congruence|done|done|done|done|done|by left].
    + apply wp_ret. exists log, ran. split_and!; [done|done|by left].
Qed.

(** the commands of a create.  Whatever the system answers, the client
    runs a command for a prebuild volume only when the volume's name
    consists of letters, digits, [-], [_] and [.]; it runs at most the two
    baas commands for that name, clone before mount, the second only when
    the first has returned 0; and it goes on to the daemon, with the
    volume's mount point as lower directory, exactly with an accessible
    mount point and either both commands successful or the mount point
    already listed in the mount table. *)
Theorem handle_create_commands c pb s (Hpb : prebuild_sb c = Some pb) :
  create_done c pb (fst (handle_create c s)) s (snd (handle_create c s)).
Proof. pose proof (wp_handle_create c pb s Hpb) as H. by apply wp_run in H. Qed.
End client_properties.

(** A client that clones and mounts a volume whose mount point then exists. *)
Definition pbsb_context : cmd_context :=
  set_sandboxname (lit "/b/sb1") (set_override_uid true (set_command (lit "create") (set_prebuild (lit "vol-1") initial_context))).
Definition pbsb_sim : sim := Sim [lit "/tmp"; lit "/mnt/side-vols/vol-1"] [] [] 1000.

Lemma handle_create_commands_witness :
  create_done pbsb_context (lit "vol-1") (Some (lit "/mnt/side-vols/vol-1")) (sim_state pbsb_sim [] zero_config)
    (snd (handle_create pbsb_context (sim_state pbsb_sim [] zero_config))).
Proof. refine (handle_create_commands pbsb_context (lit "vol-1") (sim_state pbsb_sim [] zero_config) _). reflexivity. Defined.

(** ** The dialogue with the daemon *)

(** What goes over the socket. *)
Definition dialogue_of (e : event) : option (list ascii * option (list ascii)) :=
  let 'Ev c r := e in
  match c in syscall A return A → option (list ascii * option (list ascii)) with
  | Write _ data => λ _, Some (data, None)
  | Read _ _ => λ b, Some ([], match b with inr bytes => Some bytes | inl _ => None end)
  | _ => λ _, None
  end r.

Section dialogue.
Context {W : Type} {K : Kernel W}.
Implicit Types s : dstate W.

Definition dialogue s : list (list ascii * option (list ascii)) := omap dialogue_of (trace s).

(** A part of the program that does not talk to the daemon. *)
Definition silent : dstate W → dstate W → Prop := emits (λ e, dialogue_of e = None).

Lemma silent_dialogue s s' : silent s s' → dialogue s' = dialogue s.
Proof.
  intros (l & Ht & Hl). unfold dialogue. rewrite Ht, omap_app.
  assert (omap dialogue_of l = []) as ->; [|by rewrite app_nil_r].
  clear Ht. induction Hl as [|e l He _ IH]; [done|]. cbn. by rewrite He.
Qed.

Lemma wp_silent {A B} (m : M W A) (f : A → M W B) (Q : B → dstate W → Prop) s :
  respects silent m → (∀ a s', dialogue s' = dialogue s → wp (f a) Q s') → wp (bind m f) Q s.
Proof. intros Hm Hf. apply wp_bind, wp_run, Hf. by apply silent_dialogue. Qed.

Lemma silent_sys {A} (c : syscall (res A)) : (∀ r, dialogue_of (Ev c r) = None) → respects silent (sys c).
Proof. intros H. unfold silent. by apply emits_sys. Qed.
Lemma silent_call {A} (c : syscall A) : (∀ r, dialogue_of (Ev c r) = None) → respects silent (call c).
Proof. intros H. unfold silent. by apply emits_call. Qed.
End dialogue.

#[export] Hint Extern 4 (respects silent (sys _)) => (apply silent_sys; intro; reflexivity) : frame.
#[export] Hint Extern 4 (respects silent (call _)) => (apply silent_call; intro; reflexivity) : frame.

Section main_properties.
Context {W : Type} {K : Kernel W}.
Implicit Types s : dstate W.

Lemma silent_complain t : respects silent (complain t).
Proof. apply silent_call. reflexivity. Qed.
Lemma silent_say t : respects silent (say t).
Proof. apply silent_call. reflexivity. Qed.
#[local] Hint Resolve silent_complain silent_say : frame.

Lemma silent_exit_process {A} code : respects silent (@exit_process W K A code).
Proof. unfold exit_process. respects. Qed.
Lemma silent_ensure_tmp_log_mode path : respects silent (ensure_tmp_log_mode path).
Proof. unfold ensure_tmp_log_mode. respects. Qed.
Lemma silent_timestamp f d : respects silent (timestamp f d).
Proof. unfold timestamp. respects. Qed.
#[local] Hint Resolve silent_exit_process silent_ensure_tmp_log_mode silent_timestamp : frame.
Lemma silent_log_command log ts cmd : respects silent (log_command log ts cmd).
Proof. unfold log_command. respects. Qed.
Lemma silent_is_path_mounted path : respects silent (is_path_mounted path).
Proof. unfold is_path_mounted. respects. Qed.
Lemma silent_launch cmd : respects silent (launch_detached_command cmd).
Proof. unfold launch_detached_command. respects. Qed.
#[local] Hint Resolve silent_log_command silent_is_path_mounted silent_launch : frame.
Lemma silent_run_baas cmd log (before : M W unit) failure :
  respects silent before → respects silent (run_baas cmd log before failure).
Proof. intros Hb. unfold run_baas, log_timestamp. respects. Qed.
#[local] Hint Resolve silent_run_baas : frame.
Lemma silent_handle_create c : respects silent (handle_create c).
Proof. unfold handle_create, log_name_timestamp. respects. Qed.
Lemma silent_handle_destroy rep baas : respects silent (handle_destroy rep baas).
Proof. unfold handle_destroy, log_name_timestamp, log_timestamp. respects. Qed.
#[local] Hint Resolve silent_handle_create silent_handle_destroy : frame.
Lemma silent_with_prebuild c r : respects silent (with_prebuild c r).
Proof. unfold with_prebuild. respects. Qed.
Lemma silent_finish c r rep : respects silent (finish c r rep).
Proof. unfold finish, handle_info_command. respects. Qed.
Lemma silent_prepare c cwd : respects silent (prepare_mount_request c cwd).
Proof. unfold prepare_mount_request, request_gid. respects. Qed.
Lemma silent_print_parse_failure name f : respects silent (print_parse_failure name f).
Proof. unfold print_parse_failure. respects. Qed.

(** The request that [main] sends for a command line. *)
Definition request_for (c : cmd_context) (r : mount_request) : Prop :=
  req_cmd r = request_cmd c ∧ req_flags r = request_flags c ∧ req_sandboxname r = fit 2048 (ctx_sandboxname c) ∧
  (∀ pb, is_create c = true → prebuild_sb c = Some pb → req_lowerdir r = pbsb_mount pb).

Lemma wp_prepare c cwd s :
  wp (prepare_mount_request c cwd) (λ r s', dialogue s' = dialogue s ∧
    match r with
    | inr r => req_cmd r = request_cmd c ∧ req_flags r = request_flags c ∧ req_sandboxname r = fit 2048 (ctx_sandboxname c)
    | inl _ => True
    end) s.
Proof.
  apply wp_and; [apply wp_run, silent_dialogue, silent_prepare|].
  unfold prepare_mount_request. destruct (request_overlayroot c); [by apply wp_ret|].
  apply wp_bind, wp_run. destruct (call Getuid s) as [uid s1]. cbn [fst snd].
  apply wp_bind, wp_run. destruct (call Getgid s1) as [gid s2]. cbn [fst snd].
  apply wp_bind, wp_run. destruct (request_gid c gid s2) as [g s3]. cbn [fst snd].
  destruct (request_lowerdir c cwd); [by apply wp_ret|].
  destruct (match prebuild_sb c with Some _ => _ | None => _ end) as [baas pb]. by apply wp_ret.
Qed.

Lemma wp_with_prebuild c r s :
  req_cmd r = request_cmd c → req_flags r = request_flags c → req_sandboxname r = fit 2048 (ctx_sandboxname c) →
  wp (with_prebuild c r) (λ r s', dialogue s' = dialogue s ∧ match r with Some r => request_for c r | None => True end) s.
Proof.
  intros Hc Hf Hn. apply wp_and; [apply wp_run, silent_dialogue, silent_with_prebuild|].
  unfold with_prebuild. destruct (is_create c) eqn:Ec; simpl.
  2: { apply wp_ret. split_and!; [done..|]. intros pb E. by rewrite Ec in E. }
  destruct (prebuild_sb c) as [pb|] eqn:Ep; simpl.
  2: { apply wp_ret. split_and!; [done..|]. intros pb _ E. by rewrite Ep in E. }
  apply wp_bind. eapply wp_mono; [by apply wp_handle_create|].
  intros [lower|] s1 (log & ran & _ & _ & Hdone); apply wp_ret; [|done].
  destruct Hdone as (_ & -> & Hlen & _). change (nonempty (pbsb_mount pb)) with true. cbv iota. rewrite fit_id by done.
  split_and!; [done..|]. intros pb' _ E. rewrite Ep in E. by simplify_eq.
Qed.

Lemma wp_send_request r s :
  wp (send_request_to_daemon r) (λ rep s',
    let request := (encode_request (fill_request r), None) in
    match rep with
    | Some rep => ∃ bytes, dialogue s' = dialogue s ++ [request; ([], Some bytes)] ∧ rep = decode_reply bytes
    | None => dialogue s' = dialogue s ∨ dialogue s' = dialogue s ++ [request] ∨ dialogue s' = dialogue s ++ [request; ([], None)]
    end) s.
Proof.
  pose proof silent_complain. unfold send_request_to_daemon.
  apply wp_silent; [by auto with frame|]. intros [e|fd] s1 H1.
  { apply wp_silent; [by auto with frame|]. intros _ s2 H2. apply wp_ret. left. congruence. }
  apply wp_silent; [by auto with frame|]. intros [e|[]] s2 H2.
  { do 2 (apply wp_silent; [by auto with frame|]; intros ? ? ?).
    apply wp_silent; [by auto with frame|]. intros ? ? ?. apply wp_ret. left. congruence. }
  apply wp_bind, wp_sys. intros n s3 _ _ _ Ht3.
  assert (dialogue s3 = dialogue s ++ [(encode_request (fill_request r), None)]) as H3.
  { unfold dialogue at 1. rewrite Ht3, omap_app. fold (dialogue s2). by rewrite H2, H1. }
  destruct n as [e|n].
  { do 2 (apply wp_silent; [by auto with frame|]; intros ? ? ?). apply wp_ret. right. left. congruence. }
  apply wp_bind, wp_sys. intros b s4 _ _ _ Ht4.
  assert (dialogue s4 = dialogue s ++ [(encode_request (fill_request r), None); ([], match b with inr x => Some x | inl _ => None end)]) as H4.
  { unfold dialogue at 1. rewrite Ht4, omap_app. fold (dialogue s3). rewrite H3, <- app_assoc. done. }
  destruct b as [e|bytes].
  { do 2 (apply wp_silent; [by auto with frame|]; intros ? ? ?). apply wp_ret. right. right. congruence. }
  apply wp_silent; [by auto with frame|]. intros _ s5 H5. apply wp_ret. exists bytes. split; [congruence|done].
Qed.

Lemma wp_finish c r rep s :
  wp (finish c r rep) (λ p s', dialogue s' = dialogue s ∧
    match p with
    | Running code => code = if rep_status rep <? 0 then 1 else 0
    | Exited _ => 0 <= rep_status rep ∧ req_cmd r = CMD_DESTROY
    end) s.
Proof.
  apply wp_and; [apply wp_run, silent_dialogue, silent_finish|]. unfold finish.
  destruct (rep_status rep <? 0) eqn:Es; [by apply wp_bind, wp_run, wp_ret|].
  destruct (_ || _); [by apply wp_bind, wp_run, wp_ret|].
  destruct (_ =? CMD_REFRESH); [by apply wp_bind, wp_run, wp_ret|].
  destruct (req_cmd r =? CMD_DESTROY) eqn:Ed; apply wp_bind.
  - apply wp_run. destruct (handle_destroy rep (ctx_baas_path c) s) as [[u|code] s1]; cbn [fst snd].
    + by apply wp_bind, wp_run, wp_ret.
    + apply wp_ret. by to_prop.
  - apply wp_ret. by apply wp_bind, wp_run, wp_ret.
Qed.

(** The dialogue of a run that ends with [p]. *)
Definition run_dialogue (argv : list cstr) (p : process Z) s s' : Prop :=
  let exchanged c r rest :=
    (∃ cwd, parse_arguments argv cwd = inr c) ∧ request_for c r ∧
    dialogue s' = dialogue s ++ (encode_request (fill_request r), None) :: rest in
  match p with
  | Running code =>
    code = 0 ∧ (∃ c r bytes, exchanged c r [([], Some bytes)] ∧ 0 <= rep_status (decode_reply bytes)) ∨
    code = 1 ∧ (dialogue s' = dialogue s ∨
                ∃ c r rest, exchanged c r rest ∧
                  (rest = [] ∨ rest = [([], None)] ∨
                   ∃ bytes, rest = [([], Some bytes)] ∧ rep_status (decode_reply bytes) < 0))
  | Exited _ =>
    ∃ c r bytes, exchanged c r [([], Some bytes)] ∧ 0 <= rep_status (decode_reply bytes) ∧ req_cmd r = CMD_DESTROY
  end.

(** What the client's exit status says.  Whatever the system answers,
    [main] ends with 0 only after it has written exactly one request, the
    request of an accepted command line (with the mounted prebuild volume as
    lower directory of a create that names one), and has read a reply whose
    status is not negative; otherwise it ends with 1, having written at most
    one request, and read no reply but a negative one.  A child process left
    over from the detached clean-up talks to the daemon no more. *)
Theorem main_exit_status argv s :
  run_dialogue argv (fst (main argv s)) s (snd (main argv s)).
Proof.
  cut (wp (main argv) (λ p s', run_dialogue argv p s s') s); [by intros H%wp_run|].
  pose proof silent_complain. unfold main.
  assert (∀ s', dialogue s' = dialogue s → run_dialogue argv (Running 1) s s') as Hfail by (intros s' H'; right; eauto).
  apply wp_silent; [by auto with frame|]. intros [e|cwd] s1 H1.
  { apply wp_silent; [by auto with frame|]. intros _ s2 H2. apply wp_ret, Hfail. congruence. }
  destruct (parse_arguments argv cwd) as [f|c] eqn:Ep.
  { apply wp_silent; [apply silent_print_parse_failure|]. intros _ s2 H2. apply wp_ret, Hfail. congruence. }
  apply wp_bind. eapply wp_mono; [apply wp_prepare|]. intros [m|r] s2 [H2 Hr].
  { apply wp_silent; [by auto with frame|]. intros _ s3 H3. apply wp_ret, Hfail. congruence. }
  destruct Hr as (Hc & Hf & Hn). apply wp_bind. eapply wp_mono; [by apply wp_with_prebuild|].
  intros [r'|] s3 [H3 Hr']; [|apply wp_ret, Hfail; congruence]. clear Hc Hf Hn r.
  assert (dialogue s3 = dialogue s) as Hd by congruence. clear H1 H2 H3 s1 s2.
  apply wp_bind. eapply wp_mono; [apply wp_send_request|]. cbv zeta. rewrite Hd. intros [rep|] s4 H4.
  - destruct H4 as (bytes & H4 & ->). eapply wp_mono; [apply wp_finish|]. intros [code|code] s5 [H5 Hcode]; rewrite H4 in H5.
    + destruct (rep_status (decode_reply bytes) <? 0) eqn:Es; to_prop; subst code; [right|left]; (split; [done|]).
      * right. exists c, r', [([], Some bytes)]. split; [eauto|]. right. right. eauto.
      * exists c, r', bytes. split; [eauto|lia].
    + exists c, r', bytes. destruct Hcode. split_and!; [by exists cwd|done|done|done|done].
  - apply wp_ret. destruct H4 as [H4|[H4|H4]]; [by apply Hfail|..]; right; (split; [done|]); right; exists c, r'.
    + exists []. split; [by eauto|]. by left.
    + exists [([], None)]. split; [by eauto|]. right. by left.
Qed.
End main_properties.

(** What the client prints. *)
Definition printed (e : event) : option (list ascii) :=
  let 'Ev c _ := e in match c with Print _ t => Some t | _ => None end.

(** The daemon closes the connection without an answer: the client reads no
    byte, takes its zeroed reply for a success and says so. *)
Example client_eof_success :
  let '(p, s) := main [lit "mrepo"; lit "create"; lit "sb1"; lit "-l"; lit "/lower"]
                   (sim_state sim0 [] zero_config) in
  p = Running 0 ∧ last (dialogue s) = Some ([], Some []) ∧
  omap printed (trace s) = [nl (lit "Success: sandbox created successfully at /b/sb1")].
Proof. vm_compute. split_and!; reflexivity. Qed.
