(* ===== verification/FormerClient.v ===== *)
(** * The former client

    Models [mbroker/client/mrepo.c], the client in one file that
    [mbroker/client/main.c] was divided from; the build no longer takes it.
    What the two have in common is that of ClientArgs.v and Client.v.  The
    properties at the end compare the two: the former client accepts the same
    command lines as the present one, but for the two options on the uid,
    which it obeys, and its exit status says the same of its dialogue with
    the daemon. *)
From S2P Require Import Prelude CString Protocol Config MountTable OS SimKernel Util Exports Wire Broker ClientArgs Client.
Open Scope Z_scope.

(** ** The command line *)

(** One turn of the option loop.  Next to the context it keeps
    [override_uid_explicit]: [None] for -1. *)
Inductive former_step :=
  | FormerNext (n : nat) (c : cmd_context) (explicit : option bool)
  | FormerFail (message : cstr)
  | FormerStop.

Definition former_option (argv : list cstr) (n : nat) (c : cmd_context) (explicit : option bool) : former_step :=
  let tail := arg argv (n - 1) in
  let value names := (4 <=? n)%nat && is_one_of (arg argv (n - 2)) names in
  if str_eqb tail (lit "--promote") then FormerNext (n - 1) (set_promote c) explicit
  else if str_eqb tail (lit "--chown-owner") then FormerNext (n - 1) (set_chown_owner c) explicit
  else if str_eqb tail (lit "--override-uid") then FormerNext (n - 1) c (Some true)
  else if str_eqb tail (lit "--no-override-uid") then FormerNext (n - 1) c (Some false)
  else if is_one_of tail [lit "--lowerdir"; lit "-l"] then FormerFail (lit "Error: --lowerdir requires a path argument")
  else if is_one_of tail [lit "--overlayroot"; lit "-p"] then FormerFail (lit "Error: --overlayroot requires a path argument")
  else if value [lit "--lowerdir"; lit "-l"] then FormerNext (n - 2) (set_custom_lowerdir tail c) explicit
  else if value [lit "--overlayroot"; lit "-p"] then FormerNext (n - 2) (set_custom_overlayroot tail c) explicit
  else if is_one_of tail [lit "-pbsb"] then FormerFail (lit "Error: -pbsb requires a sandbox name argument")
  else if value [lit "-pbsb"] then FormerNext (n - 2) (set_prebuild tail c) explicit
  else if is_one_of tail [lit "--baas-path"] then FormerFail (lit "Error: --baas-path requires a path argument")
  else if value [lit "--baas-path"] then FormerNext (n - 2) (set_baas_path tail c) explicit
  else if is_one_of tail [lit "--baas-ns"] then FormerFail (lit "Error: --baas-ns requires a namespace argument")
  else if value [lit "--baas-ns"] then FormerNext (n - 2) (set_baas_ns tail c) explicit
  else FormerStop.

(** [while (effective_argc >= 3)]; as in [tail_loop], [argc] turns are enough. *)
Fixpoint former_loop (fuel : nat) (argv : list cstr) (n : nat) (c : cmd_context) (explicit : option bool)
    : cstr + (nat * cmd_context * option bool) :=
  match fuel with
  | O => inr (n, c, explicit)
  | S fuel' =>
    if (3 <=? n)%nat then
      match former_option argv n c explicit with
      | FormerNext n' c' explicit' => former_loop fuel' argv n' c' explicit'
      | FormerFail message => inl message
      | FormerStop => inr (n, c, explicit)
      end
    else inr (n, c, explicit)
  end.

(** The checks after the loop, as the text of the first one that fails. *)
Definition former_check (cmd : cstr) (n : nat) (c : cmd_context) (explicit : option bool) : option cstr :=
  let checks :=
    [(negb (is_create c) && negb (is_destroy c) && negb (is_list c) && negb (is_refresh c) && negb (is_recover c),
        lit "Error: Invalid command '" ++ cmd ++ lit "'");
     ((is_create c || is_destroy c) && (n <? 3)%nat, lit "Error: Missing required arguments");
     (is_list c && negb (n =? 2)%nat, lit "Error: list does not take arguments");
     (is_refresh c && negb (n =? 2)%nat, lit "Error: refresh does not take arguments");
     (is_recover c && negb (n =? 2)%nat, lit "Error: recover does not take arguments");
     (enable_chown_owner c && negb (is_create c), lit "Error: --chown-owner is supported only with create");
     (isSome explicit && negb (is_create c), lit "Error: --override-uid/--no-override-uid is supported only with create");
     (isSome (custom_lowerdir c) && negb (is_create c), lit "Error: --lowerdir is supported only with create");
     (isSome (prebuild_sb c) && isSome (custom_lowerdir c), lit "Error: -pbsb and --lowerdir are mutually exclusive");
     (is_create c && negb (isSome (custom_lowerdir c)) && negb (isSome (prebuild_sb c)), lit "Error: -pbsb is required for create");
     (isSome (prebuild_sb c) && negb (is_create c), lit "Error: -pbsb is supported only with create");
     (isSome (custom_overlayroot c) && negb (is_create c), lit "Error: --overlayroot is supported only with create")] in
  match List.find fst checks with
  | Some (_, message) => Some message
  | None => None
  end.

(** The default of [enable_override_uid], and what the line says of it. *)
Definition former_override (explicit : option bool) (c : cmd_context) : cmd_context :=
  set_override_uid (default (is_create c) explicit) c.

(** The command line, or the exit status with what is printed. *)
Definition former_arguments (argv : list cstr) : (Z * parse_failure) + cmd_context :=
  let argc := length argv in
  if (argc <? 2)%nat then inl (1, ShowUsage)
  else
    let cmd := arg argv 1 in
    if is_one_of cmd [lit "version"; lit "--version"; lit "-v"] then inl (0, ShowVersion)
    else if is_one_of cmd [lit "help"; lit "--help"; lit "-h"] then inl (0, ShowUsage)
    else
      match former_loop argc argv argc initial_context None with
      | inl message => inl (1, FailUsage message)
      | inr (n, c, explicit) =>
        let c := former_override explicit (set_command cmd c) in
        match former_check cmd n c explicit with
        | Some message => inl (1, FailUsage message)
        | None => inr c
        end
      end.

(** ** The request *)

Definition former_overlayroot (c : cmd_context) : parse_failure + cstr :=
  match custom_overlayroot c with
  | None => inr []
  | Some root =>
    if negb (is_absolute root) then inl (FailUsage (lit "Error: --overlayroot must be an absolute path"))
    else if 2048 <=? slen root then inl (FailOnly (lit "Error: --overlayroot path too long (max 2047 chars)"))
    else inr root
  end.

(** The sandbox path of a create or destroy. *)
Definition former_sandboxname (c : cmd_context) (a cwd : cstr) : cstr + cstr :=
  if is_create c || is_destroy c then sandbox_path a cwd else inr [].

Section former_client.
Context {W : Type} {K : Kernel W}.

(** The prebuild volume of a create.  The block is the body of
    [handle_create], with the lower directory of the line replaced by the
    mount point at its end. *)
Definition former_prebuild (c : cmd_context) : M W (option cmd_context) :=
  if isSome (prebuild_sb c) && is_create c then
    let! lower := handle_create c in
    ret (match lower with
         | None => None
         | Some lower => Some (set_custom_lowerdir lower c)
         end)
  else ret (Some c).

(** The request, or [None] when the client has said why it ends with 1. *)
Definition former_request (argv : list cstr) (c : cmd_context) : M W (option mount_request) :=
  match former_overlayroot c with
  | inl f => print_parse_failure (arg argv 0) f ;; ret None
  | inr root =>
    let! uid := call Getuid in
    let! gid := call Getgid in
    let! gid := request_gid c gid in
    let! cwd := sys (Getcwd 1024) in
    match cwd with
    | inl e => complain (lit "Failed to get current directory: " ++ strerror e) ;; ret None
    | inr cwd =>
      match former_sandboxname c (arg argv 2) cwd with
      | inl message => complain message ;; ret None
      | inr name =>
        let! mounted := former_prebuild c in
        match mounted with
        | None => ret None
        | Some c =>
          match request_lowerdir c cwd with
          | inl message => complain message ;; ret None
          | inr lower =>
            let '(baas, pb) :=
              match prebuild_sb c with
              | Some pb => (fit 512 (ctx_baas_path c), fit 256 pb)
              | None => ([], [])
              end in
            ret (Some (MountRequest (request_cmd c) (request_flags c) uid gid name lower root baas pb))
          end
        end
      end
    end
  end.

(** ** The dialogue with the daemon *)

(** The pod of a destroyed sandbox is destroyed before the client ends:
    [system] where the present client has [launch_detached_command]. *)
Definition former_destroypod (rep : mount_reply) (baas_path : cstr) : M W unit :=
  if negb (nonempty (rep_prebuild_sb rep)) then ret tt
  else
    let baas := if nonempty (rep_baas_path rep) then rep_baas_path rep else baas_path in
    let! log_ts := log_name_timestamp in
    let log := lit "/tmp/mrepo_destroypod_" ++ rep_prebuild_sb rep ++ lit "_" ++ log_ts ++ lit ".log" in
    if 512 <=? slen log then ret tt
    else
      ensure_tmp_log_mode log ;;
      let cmd := destroypod_command baas (rep_prebuild_sb rep) in
      if 4096 <=? slen cmd then ret tt
      else
        let! ts := log_timestamp in
        let! f := sys (FopenA log) in
        (match f with inr _ => log_command log ts cmd | inl _ => ret tt end) ;;
        if 4608 <=? slen (redirected cmd log) then ret tt
        else
          let! rc := sys (System (redirected cmd log)) in
          match rc with
          | inr 0 => ret tt
          | _ => complain (lit "Warning: baas destroypod failed for " ++ rep_prebuild_sb rep ++ lit " (log: " ++ log ++ lit ")")
          end.

(** What follows the reply. *)
Definition former_answer (c : cmd_context) (r : mount_request) (rep : mount_reply) : M W Z :=
  if rep_status rep <? 0 then
    (if nonempty (rep_details rep) then complain (lit "Error: " ++ rep_details rep)
     else complain (lit "Error: " ++ strerror (- rep_status rep))) ;;
    ret 1
  else if (req_cmd r =? CMD_SANDBOX_LIST) || (req_cmd r =? CMD_RECOVER) then
    call (Print STDOUT (rep_details rep)) ;; ret 0
  else if req_cmd r =? CMD_REFRESH then
    say (lit "Success: exportfs refreshed successfully") ;; ret 0
  else
    (if req_cmd r =? CMD_DESTROY then former_destroypod rep (ctx_baas_path c) else ret tt) ;;
    say (lit "Success: sandbox " ++ (if req_cmd r =? CMD_CREATE then lit "created" else lit "unmounted") ++
         lit " successfully at " ++ req_sandboxname r) ;;
    ret 0.

(** Every way out of the dialogue ends with [close(s)]. *)
Definition former_dialogue (c : cmd_context) (r : mount_request) : M W Z :=
  let! s := sys Socket in
  match s with
  | inl e => complain (lit "Failed to create socket: " ++ strerror e) ;; ret 1
  | inr fd =>
    let! k := sys (Connect fd (fit 108 OVERLAY_SOCKET_FILE)) in
    let! code :=
      match k with
      | inl e =>
        complain (lit "Failed to connect to daemon: " ++ strerror e) ;;
        complain (lit "Ensure mrepod service is running") ;;
        ret 1
      | inr _ =>
        let! n := sys (Write fd (encode_request (fill_request r))) in
        match n with
        | inl e => say (lit "Failed to send request: " ++ strerror e) ;; ret 1
        | inr _ =>
          let! b := sys (Read fd REPLY_SIZE) in
          match b with
          | inl e => say (lit "Failed to receive reply: " ++ strerror e) ;; ret 1
          | inr bytes => former_answer c r (decode_reply bytes)
          end
        end
      end in
    let! _ := sys (Close fd) in
    ret code
  end.

Definition former_main (argv : list cstr) : M W Z :=
  match former_arguments argv with
  | inl (code, f) => print_parse_failure (arg argv 0) f ;; ret code
  | inr c =>
    let! r := former_request argv c in
    match r with
    | None => ret 1
    | Some r => former_dialogue c r
    end
  end.
End former_client.

(** * Properties *)

(** ** The same command lines *)

(** The two options that the clients read differently. *)
Definition uid_options : list cstr := [lit "--override-uid"; lit "--no-override-uid"].
Definition no_uid_option (argv : list cstr) : Prop := Forall (λ a, is_one_of a uid_options = false) argv.

Lemma no_uid_option_arg argv i :
  no_uid_option argv → str_eqb (arg argv i) (lit "--override-uid") = false ∧ str_eqb (arg argv i) (lit "--no-override-uid") = false.
Proof.
  intros H. assert (is_one_of (arg argv i) uid_options = false) as E.
  { unfold arg. destruct (argv !! i) as [a|] eqn:Ea; simpl; [|done]. exact (Forall_lookup_1 _ argv i a H Ea). }
  unfold is_one_of, uid_options in E. cbn [existsb] in E. rewrite orb_false_r in E. by apply orb_false_iff in E.
Qed.

Lemma arg_app argv more i : (i < length argv)%nat → arg (argv ++ more) i = arg argv i.
Proof. intros H. unfold arg. by rewrite lookup_app_l. Qed.

(** Without them a turn of one loop is a turn of the other. *)
Lemma former_option_agrees argv n c explicit :
  no_uid_option argv →
  former_option argv n c explicit = match tail_option argv n c with
    | TailNext n' c' => FormerNext n' c' explicit
    | TailFail message => FormerFail message
    | TailStop => FormerStop
    end.
Proof.
  intros H. destruct (no_uid_option_arg argv (n - 1) H) as [E1 E2].
  unfold former_option, tail_option. rewrite E1, E2. cbv zeta.
  repeat match goal with |- context [if ?b then _ else _] => destruct b; [reflexivity|] end. reflexivity.
Qed.

Lemma tail_option_override argv n c n' c' :
  no_uid_option argv → tail_option argv n c = TailNext n' c' → enable_override_uid c' = enable_override_uid c.
Proof.
  intros H. destruct (no_uid_option_arg argv (n - 1) H) as [E1 E2].
  unfold tail_option. rewrite E1, E2. intros E. repeat case_match; by simplify_eq.
Qed.

Lemma tail_loop_override argv : no_uid_option argv → ∀ fuel n c n' c',
  tail_loop fuel argv n c = inr (n', c') → enable_override_uid c' = enable_override_uid c.
Proof.
  intros H fuel. induction fuel as [|fuel IH]; intros n c n' c' E; cbn [tail_loop] in E; [by simplify_eq|].
  destruct (3 <=? n)%nat; [|by simplify_eq]. destruct (tail_option argv n c) as [n1 c1|m|] eqn:E1; [|done|by simplify_eq].
  rewrite (IH _ _ _ _ E). by eapply tail_option_override.
Qed.

(** The turns below a position see the arguments up to it. *)
Lemma former_option_app argv more n c explicit :
  (3 <= n <= length argv)%nat → former_option (argv ++ more) n c explicit = former_option argv n c explicit.
Proof. intros H. unfold former_option. by rewrite !arg_app by lia. Qed.
Lemma tail_option_app argv more n c :
  (3 <= n <= length argv)%nat → tail_option (argv ++ more) n c = tail_option argv n c.
Proof. intros H. unfold tail_option. by rewrite !arg_app by lia. Qed.

Lemma tail_loop_app argv more fuel n c :
  (n <= length argv)%nat → tail_loop fuel (argv ++ more) n c = tail_loop fuel argv n c.
Proof.
  revert n c. induction fuel as [|fuel IH]; intros n c Hn; cbn [tail_loop]; [done|].
  destruct (3 <=? n)%nat eqn:En; [|done]. apply Nat.leb_le in En. rewrite tail_option_app by lia.
  destruct (tail_option argv n c) as [n1 c1|m|] eqn:E; [|done|done].
  apply tail_option_shrinks in E; [|done]. apply IH. lia.
Qed.

Lemma former_loop_agrees argv more explicit : no_uid_option argv → ∀ fuel n c, (n <= length argv)%nat →
  former_loop fuel (argv ++ more) n c explicit = match tail_loop fuel argv n c with
    | inl message => inl message
    | inr (n', c') => inr (n', c', explicit)
    end.
Proof.
  intros H fuel. induction fuel as [|fuel IH]; intros n c Hn; cbn [former_loop tail_loop]; [done|].
  destruct (3 <=? n)%nat eqn:En; [|done]. apply Nat.leb_le in En.
  rewrite former_option_app, former_option_agrees by (done || lia).
  destruct (tail_option argv n c) as [n1 c1|m|] eqn:E; [|done|done].
  apply tail_option_shrinks in E; [|done]. apply IH. lia.
Qed.

(** With nothing said of the uid the checks are the same. *)
Lemma former_check_agrees cmd n c : former_check cmd n c None = check_context cmd n c.
Proof. reflexivity. Qed.

Lemma set_override_same b c : enable_override_uid c = b → set_override_uid b c = c.
Proof. intros <-. by destruct c. Qed.

(** The present client's answer to a command line, from the former one's: the
    sandbox path is read with the other arguments, not after the request has
    been begun. *)
Definition with_sandboxname (argv : list cstr) (cwd : cstr) (a : (Z * parse_failure) + cmd_context) : parse_failure + cmd_context :=
  match a with
  | inl (_, f) => inl f
  | inr c =>
    if is_create c || is_destroy c then
      match sandbox_path (arg argv 2) cwd with
      | inl message => inl (FailOnly message)
      | inr path => inr (set_sandboxname path c)
      end
    else inr c
  end.

(** The division of the former client kept its command line.  In every
    working directory, a command line without [--override-uid] and
    [--no-override-uid] is accepted by the present client exactly when the
    former one accepts it and the sandbox path can be built, with the same
    options, volume and paths, and is otherwise refused with the same
    message. *)
Theorem former_arguments_agree argv cwd (Hargv : no_uid_option argv) :
  parse_arguments argv cwd = with_sandboxname argv cwd (former_arguments argv).
Proof.
  unfold parse_arguments, former_arguments.
  destruct (length argv <? 2)%nat; [done|]. destruct (is_one_of _ _); [done|]. destruct (is_one_of _ _); [done|].
  pose proof (former_loop_agrees argv [] None Hargv (length argv) (length argv) initial_context ltac:(lia)) as Hl.
  rewrite app_nil_r in Hl. rewrite Hl. clear Hl.
  destruct (tail_loop _ _ _ _) as [m|[n c]] eqn:El; [done|].
  pose proof (tail_loop_override argv Hargv _ _ _ _ _ El) as Hov. cbn in Hov. cbv zeta.
  assert (∀ b, (if is_create (set_command (arg argv 1) c) && negb (enable_override_uid (set_command (arg argv 1) c)) then b
    else set_command (arg argv 1) c) = if is_create (set_command (arg argv 1) c) then b else set_command (arg argv 1) c) as ->.
  { intros b. change (enable_override_uid (set_command (arg argv 1) c)) with (enable_override_uid c). rewrite Hov. by destruct (is_create _). }
  set (c1 := if is_create _ then _ else _).
  assert (former_override None (set_command (arg argv 1) c) = c1) as ->.
  { unfold former_override, c1. cbn [default]. destruct (is_create _) eqn:E; [done|]. by apply set_override_same. }
  rewrite former_check_agrees. destruct (check_context _ _ _); done.
Qed.

Lemma former_arguments_agree_witness :
  parse_arguments [lit "mrepo"; lit "create"; lit "sb1"; lit "-pbsb"; lit "vol"; lit "--promote"] (lit "/b") =
  with_sandboxname [lit "mrepo"; lit "create"; lit "sb1"; lit "-pbsb"; lit "vol"; lit "--promote"] (lit "/b")
    (former_arguments [lit "mrepo"; lit "create"; lit "sb1"; lit "-pbsb"; lit "vol"; lit "--promote"]).
Proof. refine (former_arguments_agree _ (lit "/b") _). repeat constructor. Defined.

(** ** The option on the uid *)

(** One more turn, for an option at the end of the line. *)
Lemma tail_loop_no_override argv :
  (2 <= length argv)%nat →
  tail_loop (length (argv ++ [lit "--no-override-uid"])) (argv ++ [lit "--no-override-uid"])
    (length (argv ++ [lit "--no-override-uid"])) initial_context = tail_loop (length argv) argv (length argv) initial_context.
Proof.
  intros H. rewrite length_app, Nat.add_1_r. cbn [tail_loop].
  destruct (3 <=? S (length argv))%nat eqn:E; [|apply Nat.leb_gt in E; lia].
  assert (arg (argv ++ [lit "--no-override-uid"]) (S (length argv) - 1) = lit "--no-override-uid") as Ha.
  { unfold arg. replace (S (length argv) - 1)%nat with (length argv) by lia. by rewrite list_lookup_middle. }
  unfold tail_option. rewrite Ha. cbn -[tail_loop]. rewrite Nat.sub_0_r. by apply tail_loop_app.
Qed.

Lemma former_loop_no_override argv :
  (2 <= length argv)%nat → no_uid_option argv →
  former_loop (length (argv ++ [lit "--no-override-uid"])) (argv ++ [lit "--no-override-uid"])
    (length (argv ++ [lit "--no-override-uid"])) initial_context None =
  match tail_loop (length argv) argv (length argv) initial_context with
  | inl message => inl message
  | inr (n', c') => inr (n', c', Some false)
  end.
Proof.
  intros H Hargv. rewrite length_app, Nat.add_1_r. cbn [former_loop].
  destruct (3 <=? S (length argv))%nat eqn:E; [|apply Nat.leb_gt in E; lia].
  assert (arg (argv ++ [lit "--no-override-uid"]) (S (length argv) - 1) = lit "--no-override-uid") as Ha.
  { unfold arg. replace (S (length argv) - 1)%nat with (length argv) by lia. by rewrite list_lookup_middle. }
  unfold former_option. rewrite Ha. cbn -[former_loop]. rewrite Nat.sub_0_r. by apply former_loop_agrees.
Qed.

Lemma former_check_no_override cmd n c :
  is_create c = true → former_check cmd n (set_override_uid false c) (Some false) = former_check cmd n (set_override_uid true c) None.
Proof. intros H. unfold former_check. cbn. by rewrite H. Qed.

Lemma former_check_reach cmd n c e : former_check cmd n c e = None → is_create c = true → (3 <= n)%nat.
Proof.
  unfold former_check. intros H Hc.
  match type of H with match ?f with _ => _ end = None => destruct f as [[b m]|] eqn:E end; [done|]. clear H.
  apply find_none_all in E. rewrite !Forall_cons in E. cbn [fst] in E. destruct E as (_ & E & _).
  rewrite Hc in E. cbn [orb andb] in E. by apply Nat.ltb_ge.
Qed.

(** The former client obeys [--no-override-uid].  Put at the end of an
    accepted create, it clears the flag of the request that asks for the
    override of the credentials, and nothing else; the present client builds
    the same context with it as without it. *)
Theorem former_obeys_no_override argv cwd c
    (Hargv : no_uid_option argv) (Hcreate : is_create c = true) (Hparse : former_arguments argv = inr c) :
  former_arguments (argv ++ [lit "--no-override-uid"]) = inr (set_override_uid false c) ∧
  enable_override_uid c = true ∧
  Z.land (request_flags (set_override_uid false c)) FLAG_OVERRIDE_UID = 0 ∧
  parse_arguments (argv ++ [lit "--no-override-uid"]) cwd = parse_arguments argv cwd.
Proof.
  assert (2 <= length argv)%nat as El.
  { destruct (Nat.ltb_spec (length argv) 2) as [H|H]; [|done]. apply Nat.ltb_lt in H. unfold former_arguments in Hparse. by rewrite H in Hparse. }
  assert ((length argv <? 2)%nat = false ∧ (length (argv ++ [lit "--no-override-uid"]) <? 2)%nat = false) as [L1 L2].
  { rewrite length_app. split; apply Nat.ltb_ge; lia. }
  revert Hparse. unfold former_arguments, parse_arguments. rewrite L1, L2, arg_app by lia. clear L1 L2.
  destruct (is_one_of _ _); [done|]. destruct (is_one_of _ _); [done|].
  rewrite former_loop_no_override, tail_loop_no_override by done.
  pose proof (former_loop_agrees argv [] None Hargv (length argv) (length argv) initial_context ltac:(lia)) as Hl.
  rewrite app_nil_r in Hl. rewrite Hl. clear Hl.
  destruct (tail_loop _ _ _ _) as [m|[n c0]] eqn:El0; [done|]. cbv zeta. unfold former_override. cbn [default].
  destruct (is_create (set_command (arg argv 1) c0)) eqn:Ec.
  2: { intros H. destruct (former_check _ _ _ _); simplify_eq. cbn in *. congruence. }
  rewrite former_check_no_override by done. destruct (former_check _ _ _ _) eqn:Ef; [done|]. intros H. simplify_eq.
  apply former_check_reach in Ef; [|done].
  assert (n <= length argv)%nat as Hn.
  { apply (tail_loop_from (length argv) argv (length argv) initial_context n c0); [lia| |done].
    split_and!; [done| |by right]. intros v Hv. by destruct Hv as [|[|]]. }
  split_and!; [done|done| |].
  - unfold request_flags. cbn. by destruct (enable_promote c0), (enable_chown_owner c0).
  - by rewrite arg_app by lia.
Qed.

Lemma former_obeys_no_override_witness :
  let argv := [lit "mrepo"; lit "create"; lit "sb1"; lit "-l"; lit "/lower"] in
  let c := set_override_uid true (set_command (lit "create") (set_custom_lowerdir (lit "/lower") initial_context)) in
  former_arguments (argv ++ [lit "--no-override-uid"]) = inr (set_override_uid false c) ∧
  enable_override_uid c = true ∧
  Z.land (request_flags (set_override_uid false c)) FLAG_OVERRIDE_UID = 0 ∧
  parse_arguments (argv ++ [lit "--no-override-uid"]) (lit "/b") = parse_arguments argv (lit "/b").
Proof.
  refine (former_obeys_no_override [lit "mrepo"; lit "create"; lit "sb1"; lit "-l"; lit "/lower"] (lit "/b") _ _ _ _);
    [repeat constructor|reflexivity|reflexivity].
Defined.

(** ** The dialogue with the daemon *)

Section former_properties.
Context {W : Type} {K : Kernel W}.
Implicit Types s : dstate W.

#[local] Hint Resolve silent_complain silent_say silent_ensure_tmp_log_mode silent_timestamp silent_log_command
  silent_handle_create silent_print_parse_failure : frame.

Lemma silent_former_prebuild c : respects silent (former_prebuild c).
Proof. unfold former_prebuild. respects. Qed.
#[local] Hint Resolve silent_former_prebuild : frame.
Lemma silent_former_request argv c : respects silent (former_request argv c).
Proof. unfold former_request, request_gid. respects. Qed.
Lemma silent_former_destroypod rep baas : respects silent (former_destroypod rep baas).
Proof. unfold former_destroypod, log_name_timestamp, log_timestamp. respects. Qed.
#[local] Hint Resolve silent_former_destroypod : frame.
Lemma silent_former_answer c r rep : respects silent (former_answer c r rep).
Proof. unfold former_answer. respects. Qed.

(** The request of a command line, with the mount point of the prebuild
    volume of a create as its lower directory. *)
Definition former_request_for (c : cmd_context) (r : mount_request) : Prop :=
  req_cmd r = request_cmd c ∧ req_flags r = request_flags c ∧
  (∀ pb, is_create c = true → prebuild_sb c = Some pb → req_lowerdir r = pbsb_mount pb).

Lemma wp_former_prebuild c s :
  wp (former_prebuild c) (λ r _, match r with
    | Some c' => c' = c ∧ isSome (prebuild_sb c) && is_create c = false ∨
        ∃ pb, prebuild_sb c = Some pb ∧ slen (pbsb_mount pb) < 2048 ∧ c' = set_custom_lowerdir (pbsb_mount pb) c
    | None => True
    end) s.
Proof.
  unfold former_prebuild. destruct (isSome (prebuild_sb c) && is_create c) eqn:E; [|apply wp_ret; by left].
  destruct (prebuild_sb c) as [pb|] eqn:Ep; [|done].
  apply wp_bind. eapply wp_mono; [by apply wp_handle_create|].
  intros [lower|] s1 (log & ran & _ & _ & Hdone); apply wp_ret; [|done].
  destruct Hdone as (_ & -> & Hlen & _). right. by exists pb.
Qed.

Lemma wp_former_request argv c s :
  wp (former_request argv c) (λ r s', dialogue s' = dialogue s ∧
    match r with Some r => former_request_for c r | None => True end) s.
Proof.
  apply wp_and; [apply wp_run, silent_dialogue, silent_former_request|].
  unfold former_request. destruct (former_overlayroot c) as [f|root]; [by apply wp_bind, wp_run, wp_ret|].
  do 3 apply wp_bind, wp_run. apply wp_bind, wp_run.
  match goal with |- wp (match fst ?m with _ => _ end) _ _ => destruct (fst m) as [e|cwd] end; [by apply wp_bind, wp_run, wp_ret|].
  destruct (former_sandboxname _ _ _) as [m|name]; [by apply wp_bind, wp_run, wp_ret|].
  apply wp_bind. eapply wp_mono; [apply wp_former_prebuild|]. intros [c'|] s1 Hc'; [|by apply wp_ret].
  destruct (request_lowerdir c' cwd) as [m|lower] eqn:El; [by apply wp_bind, wp_run, wp_ret|].
  destruct (match prebuild_sb c' with Some _ => _ | None => _ end) as [baas pb]. apply wp_ret.
  destruct Hc' as [[-> Hno]|(v & Hv & Hlen & ->)]; (split; [done|split; [done|]]); cbn [req_lowerdir]; intros pb' H1 H2.
  - by rewrite H2, H1 in Hno.
  - rewrite Hv in H2. injection H2 as <-. unfold request_lowerdir in El. cbn [custom_lowerdir set_custom_lowerdir] in El.
    replace (match strchr (pbsb_mount v) ":" with None => negb (is_absolute (pbsb_mount v)) | Some _ => false end) with false in El
      by (by destruct (strchr _ _)).
    destruct (Z.leb_spec 2048 (slen (pbsb_mount v))); [lia|]. by simplify_eq.
Qed.

Lemma wp_former_answer c r rep s :
  wp (former_answer c r rep) (λ code s', dialogue s' = dialogue s ∧ code = if rep_status rep <? 0 then 1 else 0) s.
Proof.
  apply wp_and; [apply wp_run, silent_dialogue, silent_former_answer|]. unfold former_answer.
  destruct (rep_status rep <? 0); [by apply wp_bind, wp_run, wp_ret|].
  destruct (_ || _); [by apply wp_bind, wp_run, wp_ret|].
  destruct (_ =? CMD_REFRESH); [by apply wp_bind, wp_run, wp_ret|]. by do 2 apply wp_bind, wp_run; apply wp_ret.
Qed.

(** What went over the socket, for the exit status. *)
Definition former_exchanged (r : mount_request) (code : Z) s s' : Prop :=
  let request := (encode_request (fill_request r), None) in
  code = 0 ∧ (∃ bytes, dialogue s' = dialogue s ++ [request; ([], Some bytes)] ∧ 0 <= rep_status (decode_reply bytes)) ∨
  code = 1 ∧ (dialogue s' = dialogue s ∨ dialogue s' = dialogue s ++ [request] ∨ dialogue s' = dialogue s ++ [request; ([], None)] ∨
    ∃ bytes, dialogue s' = dialogue s ++ [request; ([], Some bytes)] ∧ rep_status (decode_reply bytes) < 0).

Lemma former_not_exchanged r s s' : dialogue s' = dialogue s → former_exchanged r 1 s s'.
Proof. intros H. right. auto. Qed.

(** What is said between two calls on the socket, and its closing. *)
Ltac talk := apply wp_silent; [by auto with frame|]; intros ? ? ?.

Lemma wp_former_dialogue c r s : wp (former_dialogue c r) (λ code s', former_exchanged r code s s') s.
Proof.
  unfold former_dialogue. apply wp_silent; [by auto with frame|]. intros [e|fd] s1 H1.
  { talk. apply wp_ret, former_not_exchanged. congruence. }
  apply wp_silent; [by auto with frame|]. intros [e|[]] s2 H2; rewrite H1 in H2; clear H1 s1; apply wp_bind.
  { do 2 talk. apply wp_ret. talk. apply wp_ret, former_not_exchanged. congruence. }
  apply wp_bind, wp_sys. intros n s3 _ _ _ Ht3.
  assert (dialogue s3 = dialogue s ++ [(encode_request (fill_request r), None)]) as H3.
  { unfold dialogue at 1. rewrite Ht3, omap_app. fold (dialogue s2). by rewrite H2. }
  destruct n as [e|n].
  { talk. apply wp_ret. talk. apply wp_ret. right. split; [done|]. right. left. congruence. }
  apply wp_bind, wp_sys. intros b s4 _ _ _ Ht4.
  assert (dialogue s4 = dialogue s ++ [(encode_request (fill_request r), None); ([], match b with inr x => Some x | inl _ => None end)]) as H4.
  { unfold dialogue at 1. rewrite Ht4, omap_app. fold (dialogue s3). rewrite H3, <- app_assoc. done. }
  destruct b as [e|bytes].
  { talk. apply wp_ret. talk. apply wp_ret. right. split; [done|]. right. right. left. congruence. }
  eapply wp_mono; [apply wp_former_answer|]. intros code s5 [H5 ->]. talk. apply wp_ret.
  destruct (Z.ltb_spec (rep_status (decode_reply bytes)) 0); [right|left]; (split; [done|]).
  - do 3 right. exists bytes. split; [congruence|done].
  - exists bytes. split; [congruence|done].
Qed.

(** The exit status of the former client.  Whatever the system answers, it
    ends with 0 or 1.  A help or version command shows its text and talks to
    nobody.  Of the others, 0 means that exactly one request was written, that
    of an accepted command line with the mounted prebuild volume as lower
    directory of a create that names one, and a reply read whose status is not
    negative; 1 means that at most one request was written and no reply but a
    negative one was read. *)
Theorem former_main_exit_status argv s :
  let '(code, s') := former_main argv s in
  match former_arguments argv with
  | inl (shown, _) => code = shown ∧ dialogue s' = dialogue s
  | inr c => ∃ r, former_exchanged r code s s' ∧ (dialogue s' = dialogue s ∨ former_request_for c r)
  end.
Proof.
  cut (wp (former_main argv) (λ code s', match former_arguments argv with
    | inl (shown, _) => code = shown ∧ dialogue s' = dialogue s
    | inr c => ∃ r, former_exchanged r code s s' ∧ (dialogue s' = dialogue s ∨ former_request_for c r)
    end) s); [by intros H%wp_run; destruct (former_main argv s)|].
  unfold former_main. destruct (former_arguments argv) as [[shown f]|c].
  { talk. by apply wp_ret. }
  apply wp_bind. eapply wp_mono; [apply wp_former_request|]. intros [r|] s1 [H1 Hr].
  - eapply wp_mono; [apply wp_former_dialogue|]. intros code s2 H2. exists r. split; [|by right].
    unfold former_exchanged in *. by rewrite H1 in H2.
  - apply wp_ret. exists (MountRequest 0 0 0 0 [] [] [] [] []). split; [by apply former_not_exchanged|by left].
Qed.
End former_properties.

(** The pod of a destroyed sandbox is gone, or its destruction has failed,
    when the former client ends: the command runs in the client itself. *)
Example former_destroy_waits :
  let rep := MountReply 0 [] (lit "/bin/baas") (lit "vol") in
  let r := MountRequest CMD_DESTROY 0 0 0 (lit "/b/sb1") [] [] [] [] in
  let '(code, s) := former_answer (set_command (lit "destroy") initial_context) r rep
                      (sim_state (Sim [lit "/tmp"] [] [] 1000) [] zero_config) in
  code = 0 ∧ map snd (commands s) = [inr 0] ∧ omap printed (trace s) =
    [nl (lit "Success: sandbox unmounted successfully at /b/sb1")].
Proof. vm_compute. split_and!; reflexivity. Qed.
