(* ===== verification/OvlOptions.v ===== *)
(** * The mount options of the overlay file system (utils/overlayfs/super.c)

    [ovl_parse_opt] splits the option string, fills [struct ovl_config] and
    resolves the dependencies between the features; [ovl_show_options] prints
    them back.  The kernel's own parser ([match_token], [kstrtouint],
    [make_kuid]) is a parameter; memory may run out at any allocation. *)
From S2P Require Import Prelude CString OS.
Open Scope Z_scope.

(** ** Data *)

Definition OVL_XINO_OFF : Z := 0.
Definition OVL_XINO_AUTO : Z := 1.
Definition OVL_XINO_ON : Z := 2.

(** [struct ovl_config]; a [char *] that may be NULL is an option. *)
Record ovl_config := OvlConfig {
  c_lowerdir : option cstr;
  c_upperdir : option cstr;
  c_workdir : option cstr;
  c_default_permissions : bool;
  c_redirect_dir : bool;
  c_redirect_follow : bool;
  c_redirect_mode : cstr;
  c_index : bool;
  c_uuid : bool;
  c_nfs_export : bool;
  c_xino : Z;
  c_metacopy : bool;
  c_userxattr : bool;
  c_ovl_volatile : bool;
  c_has_override_creds : bool;
  c_override_uid : Z;
  c_override_gid : Z
}.
Definition set_c_lowerdir (x : option cstr) (c : ovl_config) : ovl_config :=
  OvlConfig x (c_upperdir c) (c_workdir c) (c_default_permissions c) (c_redirect_dir c) (c_redirect_follow c) (c_redirect_mode c) (c_index c) (c_uuid c) (c_nfs_export c) (c_xino c) (c_metacopy c) (c_userxattr c) (c_ovl_volatile c) (c_has_override_creds c) (c_override_uid c) (c_override_gid c).
Definition set_c_upperdir (x : option cstr) (c : ovl_config) : ovl_config :=
  OvlConfig (c_lowerdir c) x (c_workdir c) (c_default_permissions c) (c_redirect_dir c) (c_redirect_follow c) (c_redirect_mode c) (c_index c) (c_uuid c) (c_nfs_export c) (c_xino c) (c_metacopy c) (c_userxattr c) (c_ovl_volatile c) (c_has_override_creds c) (c_override_uid c) (c_override_gid c).
Definition set_c_workdir (x : option cstr) (c : ovl_config) : ovl_config :=
  OvlConfig (c_lowerdir c) (c_upperdir c) x (c_default_permissions c) (c_redirect_dir c) (c_redirect_follow c) (c_redirect_mode c) (c_index c) (c_uuid c) (c_nfs_export c) (c_xino c) (c_metacopy c) (c_userxattr c) (c_ovl_volatile c) (c_has_override_creds c) (c_override_uid c) (c_override_gid c).
Definition set_c_default_permissions (x : bool) (c : ovl_config) : ovl_config :=
  OvlConfig (c_lowerdir c) (c_upperdir c) (c_workdir c) x (c_redirect_dir c) (c_redirect_follow c) (c_redirect_mode c) (c_index c) (c_uuid c) (c_nfs_export c) (c_xino c) (c_metacopy c) (c_userxattr c) (c_ovl_volatile c) (c_has_override_creds c) (c_override_uid c) (c_override_gid c).
Definition set_c_redirect_dir (x : bool) (c : ovl_config) : ovl_config :=
  OvlConfig (c_lowerdir c) (c_upperdir c) (c_workdir c) (c_default_permissions c) x (c_redirect_follow c) (c_redirect_mode c) (c_index c) (c_uuid c) (c_nfs_export c) (c_xino c) (c_metacopy c) (c_userxattr c) (c_ovl_volatile c) (c_has_override_creds c) (c_override_uid c) (c_override_gid c).
Definition set_c_redirect_follow (x : bool) (c : ovl_config) : ovl_config :=
  OvlConfig (c_lowerdir c) (c_upperdir c) (c_workdir c) (c_default_permissions c) (c_redirect_dir c) x (c_redirect_mode c) (c_index c) (c_uuid c) (c_nfs_export c) (c_xino c) (c_metacopy c) (c_userxattr c) (c_ovl_volatile c) (c_has_override_creds c) (c_override_uid c) (c_override_gid c).
Definition set_c_redirect_mode (x : cstr) (c : ovl_config) : ovl_config :=
  OvlConfig (c_lowerdir c) (c_upperdir c) (c_workdir c) (c_default_permissions c) (c_redirect_dir c) (c_redirect_follow c) x (c_index c) (c_uuid c) (c_nfs_export c) (c_xino c) (c_metacopy c) (c_userxattr c) (c_ovl_volatile c) (c_has_override_creds c) (c_override_uid c) (c_override_gid c).
Definition set_c_index (x : bool) (c : ovl_config) : ovl_config :=
  OvlConfig (c_lowerdir c) (c_upperdir c) (c_workdir c) (c_default_permissions c) (c_redirect_dir c) (c_redirect_follow c) (c_redirect_mode c) x (c_uuid c) (c_nfs_export c) (c_xino c) (c_metacopy c) (c_userxattr c) (c_ovl_volatile c) (c_has_override_creds c) (c_override_uid c) (c_override_gid c).
Definition set_c_uuid (x : bool) (c : ovl_config) : ovl_config :=
  OvlConfig (c_lowerdir c) (c_upperdir c) (c_workdir c) (c_default_permissions c) (c_redirect_dir c) (c_redirect_follow c) (c_redirect_mode c) (c_index c) x (c_nfs_export c) (c_xino c) (c_metacopy c) (c_userxattr c) (c_ovl_volatile c) (c_has_override_creds c) (c_override_uid c) (c_override_gid c).
Definition set_c_nfs_export (x : bool) (c : ovl_config) : ovl_config :=
  OvlConfig (c_lowerdir c) (c_upperdir c) (c_workdir c) (c_default_permissions c) (c_redirect_dir c) (c_redirect_follow c) (c_redirect_mode c) (c_index c) (c_uuid c) x (c_xino c) (c_metacopy c) (c_userxattr c) (c_ovl_volatile c) (c_has_override_creds c) (c_override_uid c) (c_override_gid c).
Definition set_c_xino (x : Z) (c : ovl_config) : ovl_config :=
  OvlConfig (c_lowerdir c) (c_upperdir c) (c_workdir c) (c_default_permissions c) (c_redirect_dir c) (c_redirect_follow c) (c_redirect_mode c) (c_index c) (c_uuid c) (c_nfs_export c) x (c_metacopy c) (c_userxattr c) (c_ovl_volatile c) (c_has_override_creds c) (c_override_uid c) (c_override_gid c).
Definition set_c_metacopy (x : bool) (c : ovl_config) : ovl_config :=
  OvlConfig (c_lowerdir c) (c_upperdir c) (c_workdir c) (c_default_permissions c) (c_redirect_dir c) (c_redirect_follow c) (c_redirect_mode c) (c_index c) (c_uuid c) (c_nfs_export c) (c_xino c) x (c_userxattr c) (c_ovl_volatile c) (c_has_override_creds c) (c_override_uid c) (c_override_gid c).
Definition set_c_userxattr (x : bool) (c : ovl_config) : ovl_config :=
  OvlConfig (c_lowerdir c) (c_upperdir c) (c_workdir c) (c_default_permissions c) (c_redirect_dir c) (c_redirect_follow c) (c_redirect_mode c) (c_index c) (c_uuid c) (c_nfs_export c) (c_xino c) (c_metacopy c) x (c_ovl_volatile c) (c_has_override_creds c) (c_override_uid c) (c_override_gid c).
Definition set_c_ovl_volatile (x : bool) (c : ovl_config) : ovl_config :=
  OvlConfig (c_lowerdir c) (c_upperdir c) (c_workdir c) (c_default_permissions c) (c_redirect_dir c) (c_redirect_follow c) (c_redirect_mode c) (c_index c) (c_uuid c) (c_nfs_export c) (c_xino c) (c_metacopy c) (c_userxattr c) x (c_has_override_creds c) (c_override_uid c) (c_override_gid c).
Definition set_c_has_override_creds (x : bool) (c : ovl_config) : ovl_config :=
  OvlConfig (c_lowerdir c) (c_upperdir c) (c_workdir c) (c_default_permissions c) (c_redirect_dir c) (c_redirect_follow c) (c_redirect_mode c) (c_index c) (c_uuid c) (c_nfs_export c) (c_xino c) (c_metacopy c) (c_userxattr c) (c_ovl_volatile c) x (c_override_uid c) (c_override_gid c).
Definition set_c_override_uid (x : Z) (c : ovl_config) : ovl_config :=
  OvlConfig (c_lowerdir c) (c_upperdir c) (c_workdir c) (c_default_permissions c) (c_redirect_dir c) (c_redirect_follow c) (c_redirect_mode c) (c_index c) (c_uuid c) (c_nfs_export c) (c_xino c) (c_metacopy c) (c_userxattr c) (c_ovl_volatile c) (c_has_override_creds c) x (c_override_gid c).
Definition set_c_override_gid (x : Z) (c : ovl_config) : ovl_config :=
  OvlConfig (c_lowerdir c) (c_upperdir c) (c_workdir c) (c_default_permissions c) (c_redirect_dir c) (c_redirect_follow c) (c_redirect_mode c) (c_index c) (c_uuid c) (c_nfs_export c) (c_xino c) (c_metacopy c) (c_userxattr c) (c_ovl_volatile c) (c_has_override_creds c) (c_override_uid c) x.

(** The module parameters, which give the defaults. *)
Record ovl_module := OvlModule {
  ovl_redirect_dir_def : bool;
  ovl_redirect_always_follow : bool;
  ovl_index_def : bool;
  ovl_nfs_export_def : bool;
  ovl_xino_auto_def : bool;
  ovl_metacopy_def : bool
}.

Definition ovl_redirect_mode_def (md : ovl_module) : cstr :=
  if ovl_redirect_dir_def md then lit "on" else lit "off".
Definition ovl_xino_str (xino : Z) : cstr :=
  if xino =? OVL_XINO_OFF then lit "off" else if xino =? OVL_XINO_AUTO then lit "auto" else lit "on".
Definition ovl_xino_def (md : ovl_module) : Z :=
  if ovl_xino_auto_def md then OVL_XINO_AUTO else OVL_XINO_OFF.

(** The configuration that [ovl_fill_super] hands to [ovl_parse_opt]. *)
Definition initial_config (md : ovl_module) : ovl_config :=
  OvlConfig None None None false false false [] (ovl_index_def md) true (ovl_nfs_export_def md)
    (ovl_xino_def md) (ovl_metacopy_def md) false false false 0 0.

Inductive opt_token :=
  | OPT_LOWERDIR | OPT_UPPERDIR | OPT_WORKDIR | OPT_DEFAULT_PERMISSIONS | OPT_REDIRECT_DIR
  | OPT_INDEX_ON | OPT_INDEX_OFF | OPT_UUID_ON | OPT_UUID_OFF | OPT_NFS_EXPORT_ON | OPT_USERXATTR
  | OPT_NFS_EXPORT_OFF | OPT_XINO_ON | OPT_XINO_OFF | OPT_XINO_AUTO | OPT_METACOPY_ON
  | OPT_METACOPY_OFF | OPT_VOLATILE | OPT_OVERRIDE_CREDS | OPT_ERR.

(** A [match_table_t]: patterns in order; NULL ends the table. *)
Definition match_table := list (opt_token * option cstr).

Definition ovl_tokens : match_table := [
  (OPT_LOWERDIR, Some (lit "lowerdir=%s"));
  (OPT_UPPERDIR, Some (lit "upperdir=%s"));
  (OPT_WORKDIR, Some (lit "workdir=%s"));
  (OPT_DEFAULT_PERMISSIONS, Some (lit "default_permissions"));
  (OPT_REDIRECT_DIR, Some (lit "redirect_dir=%s"));
  (OPT_INDEX_ON, Some (lit "index=on"));
  (OPT_INDEX_OFF, Some (lit "index=off"));
  (OPT_USERXATTR, Some (lit "userxattr"));
  (OPT_UUID_ON, Some (lit "uuid=on"));
  (OPT_UUID_OFF, Some (lit "uuid=off"));
  (OPT_NFS_EXPORT_ON, Some (lit "nfs_export=on"));
  (OPT_NFS_EXPORT_OFF, Some (lit "nfs_export=off"));
  (OPT_XINO_ON, Some (lit "xino=on"));
  (OPT_XINO_OFF, Some (lit "xino=off"));
  (OPT_XINO_AUTO, Some (lit "xino=auto"));
  (OPT_METACOPY_ON, Some (lit "metacopy=on"));
  (OPT_METACOPY_OFF, Some (lit "metacopy=off"));
  (OPT_VOLATILE, Some (lit "volatile"));
  (OPT_OVERRIDE_CREDS, Some (lit "override_creds=%s"));
  (OPT_ERR, None)
].

(** ** The kernel's parser *)

(** What the code uses of lib/parser.c, lib/kstrtox.c and the user namespaces;
    [None] is a failure or an id that is not valid. *)
Class ParserLib := {
  match_token : cstr → match_table → opt_token * cstr;
  kstrtouint : cstr → option Z;
  make_kuid : Z → option Z;
  make_kgid : Z → option Z
}.

(** The documented meaning of a pattern: literal text, or literal text
    followed by a "%s" that takes a string that is not empty. *)
Definition pattern_args (pat p : cstr) : option cstr :=
  match strchr pat "%" with
  | None => if str_eqb p pat then Some [] else None
  | Some (text, _) =>
    if prefixb text p && nonempty (drop (length text) p) then Some (drop (length text) p) else None
  end.
Fixpoint first_match (p : cstr) (table : match_table) : opt_token * cstr :=
  match table with
  | [] => (OPT_ERR, [])
  | (tok, None) :: _ => (tok, [])
  | (tok, Some pat) :: table' =>
    match pattern_args pat p with
    | Some arg => (tok, arg)
    | None => first_match p table'
    end
  end.

(** The documented behaviour that theorems rely on. *)
Class ParserLaws (L : ParserLib) := {
  match_token_first p table : match_token p table = first_match p table;
  kstrtouint_dec n : 0 <= n < 2 ^ 32 → kstrtouint (dec n) = Some n;
  kstrtouint_minus s : kstrtouint ("-"%char :: s) = None;
  make_kuid_init n : 0 <= n < 2 ^ 32 - 1 → make_kuid n = Some n;
  make_kgid_init n : 0 <= n < 2 ^ 32 - 1 → make_kgid n = Some n
}.

(** ** Splitting the option string *)

(** From [sbegin]: the option and what [*s] becomes. *)
Fixpoint next_opt_from (s : cstr) : cstr * option cstr :=
  match s with
  | [] => ([], None)
  | c :: t =>
    if char_eqb c BSLASH then
      match t with
      | [] => ([c], None)
      | e :: u => let '(p, rest) := next_opt_from u in (c :: e :: p, rest)
      end
    else if char_eqb c "," then ([], Some t)
    else let '(p, rest) := next_opt_from t in (c :: p, rest)
  end.
Definition ovl_next_opt (s : option cstr) : option (cstr * option cstr) :=
  match s with None => None | Some sbegin => Some (next_opt_from sbegin) end.

Fixpoint ovl_unescape (s : cstr) : cstr :=
  match s with
  | [] => []
  | c :: t =>
    if char_eqb c BSLASH then match t with [] => [] | e :: u => e :: ovl_unescape u end
    else c :: ovl_unescape t
  end.

(** The strings that the buffer holds after the call, one after the other;
    the returned [ctr] is their number. *)
Fixpoint ovl_split_lowerdirs (s : cstr) : list cstr :=
  match s with
  | [] => [[]]
  | c :: t =>
    if char_eqb c BSLASH then
      match t with
      | [] => [[]]
      | e :: u =>
        match ovl_split_lowerdirs u with d :: ds => (e :: d) :: ds | [] => [[e]] end
      end
    else if char_eqb c ":" then [] :: ovl_split_lowerdirs t
    else match ovl_split_lowerdirs t with d :: ds => (c :: d) :: ds | [] => [[c]] end
  end.

(** ** Parsing *)

(** The locals of [ovl_parse_opt]: the configuration, which options were explicit, and the number of allocations made. *)
Record parse_state := ParseState {
  ps_config : ovl_config;
  ps_metacopy_opt : bool;
  ps_redirect_opt : bool;
  ps_nfs_export_opt : bool;
  ps_index_opt : bool;
  ps_allocs : nat
}.
Definition set_ps_config (x : ovl_config) (s : parse_state) : parse_state :=
  ParseState x (ps_metacopy_opt s) (ps_redirect_opt s) (ps_nfs_export_opt s) (ps_index_opt s) (ps_allocs s).
Definition set_ps_metacopy_opt (x : bool) (s : parse_state) : parse_state :=
  ParseState (ps_config s) x (ps_redirect_opt s) (ps_nfs_export_opt s) (ps_index_opt s) (ps_allocs s).
Definition set_ps_redirect_opt (x : bool) (s : parse_state) : parse_state :=
  ParseState (ps_config s) (ps_metacopy_opt s) x (ps_nfs_export_opt s) (ps_index_opt s) (ps_allocs s).
Definition set_ps_nfs_export_opt (x : bool) (s : parse_state) : parse_state :=
  ParseState (ps_config s) (ps_metacopy_opt s) (ps_redirect_opt s) x (ps_index_opt s) (ps_allocs s).
Definition set_ps_index_opt (x : bool) (s : parse_state) : parse_state :=
  ParseState (ps_config s) (ps_metacopy_opt s) (ps_redirect_opt s) (ps_nfs_export_opt s) x (ps_allocs s).
Definition set_ps_allocs (x : nat) (s : parse_state) : parse_state :=
  ParseState (ps_config s) (ps_metacopy_opt s) (ps_redirect_opt s) (ps_nfs_export_opt s) (ps_index_opt s) x.

Section parse.
Context {L : ParserLib} (md : ovl_module) (mem : nat → bool).

(** [match_strdup] or [kstrdup]: fails when there is no memory. *)
Definition strdup (v : cstr) (s : parse_state) : option (cstr * parse_state) :=
  if mem (ps_allocs s) then Some (v, set_ps_allocs (S (ps_allocs s)) s) else None.

Definition on_config (f : ovl_config → ovl_config) (s : parse_state) : parse_state :=
  set_ps_config (f (ps_config s)) s.

(** The case [OPT_OVERRIDE_CREDS]. *)
Definition parse_override_creds (arg : cstr) (s : parse_state) : Z + parse_state :=
  match strdup arg s with
  | None => inl (- ENOMEM)
  | Some (cred_str, s) =>
    match strchr cred_str ":" with
    | None => inl (- EINVAL)
    | Some (uid_str, gid_ptr) =>
      match kstrtouint uid_str, kstrtouint gid_ptr with
      | Some uid_val, Some gid_val =>
        match make_kuid uid_val, make_kgid gid_val with
        | Some override_uid, Some override_gid =>
          inr (on_config (λ c, set_c_has_override_creds true
                 (set_c_override_gid override_gid (set_c_override_uid override_uid c))) s)
        | _, _ => inl (- EINVAL)
        end
      | _, _ => inl (- EINVAL)
      end
    end
  end.

(** An option that keeps a copy of its argument. *)
Definition parse_option_string (set : cstr → ovl_config → ovl_config) (arg : cstr) (s : parse_state) : Z + parse_state :=
  match strdup arg s with
  | None => inl (- ENOMEM)
  | Some (v, s) => inr (on_config (set v) s)
  end.

(** The body of the loop for an option [p] that is not empty. *)
Definition parse_token (p : cstr) (s : parse_state) : Z + parse_state :=
  let '(token, arg) := match_token p ovl_tokens in
  match token with
  | OPT_UPPERDIR => parse_option_string (λ v, set_c_upperdir (Some v)) arg s
  | OPT_LOWERDIR => parse_option_string (λ v, set_c_lowerdir (Some v)) arg s
  | OPT_WORKDIR => parse_option_string (λ v, set_c_workdir (Some v)) arg s
  | OPT_DEFAULT_PERMISSIONS => inr (on_config (set_c_default_permissions true) s)
  | OPT_REDIRECT_DIR =>
    match parse_option_string set_c_redirect_mode arg s with
    | inl e => inl e
    | inr s => inr (set_ps_redirect_opt true s)
    end
  | OPT_INDEX_ON => inr (set_ps_index_opt true (on_config (set_c_index true) s))
  | OPT_INDEX_OFF => inr (set_ps_index_opt true (on_config (set_c_index false) s))
  | OPT_UUID_ON => inr (on_config (set_c_uuid true) s)
  | OPT_UUID_OFF => inr (on_config (set_c_uuid false) s)
  | OPT_NFS_EXPORT_ON => inr (set_ps_nfs_export_opt true (on_config (set_c_nfs_export true) s))
  | OPT_NFS_EXPORT_OFF => inr (set_ps_nfs_export_opt true (on_config (set_c_nfs_export false) s))
  | OPT_XINO_ON => inr (on_config (set_c_xino OVL_XINO_ON) s)
  | OPT_XINO_OFF => inr (on_config (set_c_xino OVL_XINO_OFF) s)
  | OPT_XINO_AUTO => inr (on_config (set_c_xino OVL_XINO_AUTO) s)
  | OPT_METACOPY_ON => inr (set_ps_metacopy_opt true (on_config (set_c_metacopy true) s))
  | OPT_METACOPY_OFF => inr (set_ps_metacopy_opt true (on_config (set_c_metacopy false) s))
  | OPT_VOLATILE => inr (on_config (set_c_ovl_volatile true) s)
  | OPT_USERXATTR => inr (on_config (set_c_userxattr true) s)
  | OPT_OVERRIDE_CREDS => parse_override_creds arg s
  | OPT_ERR => inl (- EINVAL)
  end.

(** The [while] loop; every iteration consumes at least the comma. *)
Fixpoint parse_loop (fuel : nat) (opt : option cstr) (s : parse_state) : Z + parse_state :=
  match fuel with
  | O => inr s
  | S fuel =>
    match ovl_next_opt opt with
    | None => inr s
    | Some (p, opt) =>
      if negb (nonempty p) then parse_loop fuel opt s
      else match parse_token p s with
           | inl e => inl e
           | inr s => parse_loop fuel opt s
           end
    end
  end.

Definition ovl_parse_redirect_mode (c : ovl_config) : Z + ovl_config :=
  let mode := c_redirect_mode c in
  if str_eqb mode (lit "on") then inr (set_c_redirect_follow true (set_c_redirect_dir true c))
  else if str_eqb mode (lit "follow") then inr (set_c_redirect_follow true c)
  else if str_eqb mode (lit "off") then
    inr (if ovl_redirect_always_follow md then set_c_redirect_follow true c else c)
  else if negb (str_eqb mode (lit "nofollow")) then inl (- EINVAL)
  else inr c.

(** A part of the code after the loop: from [!config->upperdir] to the
    redirect mode excluded. *)
Definition resolve_non_upper (s : parse_state) : parse_state :=
  let c := ps_config s in
  match c_upperdir c with
  | Some _ => s
  | None =>
    let index_opt := ps_index_opt s && negb (c_index c) in
    set_ps_index_opt index_opt
      (set_ps_config (set_c_ovl_volatile false (set_c_index false (set_c_workdir None c))) s)
  end.

Definition is_none {A} (o : option A) : bool := match o with None => true | Some _ => false end.

Definition resolve_metacopy (s : parse_state) : Z + parse_state :=
  let c := ps_config s in
  if c_metacopy c && negb (c_redirect_dir c) then
    if ps_metacopy_opt s && ps_redirect_opt s then inl (- EINVAL)
    else if ps_redirect_opt s then inr (on_config (set_c_metacopy false) s)
    else inr (on_config (λ c, set_c_redirect_follow true (set_c_redirect_dir true c)) s)
  else inr s.

Definition resolve_nfs_index (s : parse_state) : Z + parse_state :=
  let c := ps_config s in
  if c_nfs_export c && negb (c_index c) then
    if is_none (c_upperdir c) && c_redirect_follow c then inr (on_config (set_c_nfs_export false) s)
    else if ps_nfs_export_opt s && ps_index_opt s then inl (- EINVAL)
    else if ps_index_opt s then inr (on_config (set_c_nfs_export false) s)
    else inr (on_config (set_c_index true) s)
  else inr s.

Definition resolve_nfs_metacopy (s : parse_state) : Z + parse_state :=
  let c := ps_config s in
  if c_nfs_export c && c_metacopy c then
    if ps_nfs_export_opt s && ps_metacopy_opt s then inl (- EINVAL)
    else if ps_metacopy_opt s then inr (on_config (set_c_nfs_export false) s)
    else inr (on_config (set_c_metacopy false) s)
  else inr s.

Definition resolve_userxattr (s : parse_state) : Z + parse_state :=
  let c := ps_config s in
  if c_userxattr c then
    if c_redirect_follow c && ps_redirect_opt s then inl (- EINVAL)
    else if c_metacopy c && ps_metacopy_opt s then inl (- EINVAL)
    else inr (on_config (λ c, set_c_metacopy false (set_c_redirect_follow false (set_c_redirect_dir false c))) s)
  else inr s.

(** What follows the loop. *)
Definition resolve_options (s : parse_state) : Z + ovl_config :=
  let s := resolve_non_upper s in
  match ovl_parse_redirect_mode (ps_config s) with
  | inl e => inl e
  | inr c =>
    let c := if is_none (c_upperdir c) && c_redirect_follow c then set_c_redirect_dir true c else c in
    match resolve_metacopy (set_ps_config c s) with
    | inl e => inl e
    | inr s =>
      match resolve_nfs_index s with
      | inl e => inl e
      | inr s =>
        match resolve_nfs_metacopy s with
        | inl e => inl e
        | inr s =>
          match resolve_userxattr s with
          | inl e => inl e
          | inr s => inr (ps_config s)
          end
        end
      end
    end
  end.

Definition opt_length (opt : option cstr) : nat := match opt with None => 0 | Some s => S (length s) end.

Definition ovl_parse_opt (opt : option cstr) (c : ovl_config) : Z + ovl_config :=
  match strdup (ovl_redirect_mode_def md) (ParseState c false false false false 0) with
  | None => inl (- ENOMEM)
  | Some (mode, s) =>
    match parse_loop (S (opt_length opt)) opt (on_config (set_c_redirect_mode mode) s) with
    | inl e => inl e
    | inr s => resolve_options s
    end
  end.
End parse.

(** ** Printing *)

(** What [seq_show_option] escapes in a value; the rest of the kernel's
    [mangle] is its own code. *)
Section show.
Context (seq_escape : cstr → cstr).

Definition show_option (name : string) (value : option cstr) : cstr :=
  lit "," ++ lit name ++ match value with None => [] | Some v => lit "=" ++ seq_escape v end.

Definition ovl_show_options (md : ovl_module) (same_fs : bool) (c : ovl_config) : cstr :=
  show_option "lowerdir" (c_lowerdir c) ++
  (if is_none (c_upperdir c) then []
   else show_option "upperdir" (c_upperdir c) ++ show_option "workdir" (c_workdir c)) ++
  (if c_default_permissions c then lit ",default_permissions" else []) ++
  (if str_eqb (c_redirect_mode c) (ovl_redirect_mode_def md) then []
   else lit ",redirect_dir=" ++ c_redirect_mode c) ++
  (if Bool.eqb (c_index c) (ovl_index_def md) then []
   else lit ",index=" ++ (if c_index c then lit "on" else lit "off")) ++
  (if c_uuid c then [] else lit ",uuid=off") ++
  (if Bool.eqb (c_nfs_export c) (ovl_nfs_export_def md) then []
   else lit ",nfs_export=" ++ (if c_nfs_export c then lit "on" else lit "off")) ++
  (if (c_xino c =? ovl_xino_def md) || same_fs then [] else lit ",xino=" ++ ovl_xino_str (c_xino c)) ++
  (if Bool.eqb (c_metacopy c) (ovl_metacopy_def md) then []
   else lit ",metacopy=" ++ (if c_metacopy c then lit "on" else lit "off")) ++
  (if c_ovl_volatile c then lit ",volatile" else []) ++
  (if c_userxattr c then lit ",userxattr" else []) ++
  (if c_has_override_creds c
   then lit ",override_creds=" ++ dec (c_override_uid c) ++ lit ":" ++ dec (c_override_gid c) else []).
End show.

(** * Lemmas *)

(** ** Splitting *)

Lemma next_opt_shorter s p rest : next_opt_from s = (p, Some rest) → (length rest < length s)%nat.
Proof.
  revert s p. fix IH 1. intros [|c t] p; cbn [next_opt_from]; [done|].
  case_char c BSLASH.
  { destruct t as [|e u]; [done|]. destruct (next_opt_from u) as [q r] eqn:Eu.
    intros [= <- ->]. specialize (IH u q Eu). cbn [length]. lia. }
  case_char c ","%char; [intros [= <- ->]; cbn [length]; lia|].
  destruct (next_opt_from t) as [q r] eqn:Et. intros [= <- ->]. specialize (IH t q Et). cbn [length]. lia.
Qed.

(** Text without backslash or comma is one option. *)
Definition plain (s : cstr) : Prop := (BSLASH ∉ s) ∧ (","%char ∉ s).

Lemma plain_app a b : plain a → plain b → plain (a ++ b).
Proof. intros [? ?] [? ?]. split; rewrite elem_of_app; tauto. Qed.
Lemma plain_lit s : forallb (λ c, negb (char_eqb c BSLASH) && negb (char_eqb c ",")) (lit s) = true → plain (lit s).
Proof.
  rewrite forallb_forall. intros H.
  split; intros Hin%list_elem_of_In; specialize (H _ Hin); by rewrite char_eqb_refl, ?andb_false_r in H.
Qed.
Create HintDb ovl.
#[export] Hint Resolve plain_app : ovl.
#[export] Hint Extern 1 (plain (lit _)) => apply plain_lit; vm_compute; reflexivity : ovl.

(** Quoting a path for the option string: a backslash before the characters
    of [special], as Documentation/filesystems/overlayfs.rst says. *)
Definition special (c : ascii) : bool := char_eqb c BSLASH || char_eqb c "," || char_eqb c ":".
Fixpoint quote (s : cstr) : cstr :=
  match s with [] => [] | c :: t => if special c then BSLASH :: c :: quote t else c :: quote t end.

Lemma quote_app a b : quote (a ++ b) = quote a ++ quote b.
Proof. induction a as [|c a IH]; [done|]. cbn. rewrite IH. by destruct (special c). Qed.

(** What [next_opt_from] passes over: text whose commas are quoted. *)
Inductive one_option : cstr → Prop :=
  | one_nil : one_option []
  | one_char c s : c ≠ BSLASH → c ≠ ","%char → one_option s → one_option (c :: s)
  | one_quoted c s : one_option s → one_option (BSLASH :: c :: s).

Lemma one_option_app a b : one_option a → one_option b → one_option (a ++ b).
Proof. induction 1; cbn; auto using one_option. Qed.
Lemma one_option_plain s : plain s → one_option s.
Proof.
  induction s as [|c s IH]; intros [H1 H2]; [constructor|].
  rewrite elem_of_cons in H1, H2. constructor; [intros ->; tauto..|apply IH; split; tauto].
Qed.
Lemma one_option_quote s : one_option (quote s).
Proof.
  induction s as [|c s IH]; [constructor|]. cbn. unfold special.
  case_char c BSLASH; cbn; [by constructor|]. case_char c ","%char; cbn; [by constructor|].
  destruct (char_eqb c ":"); by constructor.
Qed.
#[export] Hint Resolve one_option_app one_option_quote one_nil : ovl.
#[export] Hint Extern 2 (one_option _) => apply one_option_plain : ovl.

Lemma next_opt_one s : one_option s → next_opt_from s = (s, None).
Proof.
  induction 1 as [|c s H1 H2 _ IH|c s _ IH]; [done| |]; cbn [next_opt_from].
  - rewrite (proj2 (char_eqb_neq c BSLASH) H1), (proj2 (char_eqb_neq c ",") H2), IH. done.
  - by rewrite char_eqb_refl, IH.
Qed.
Lemma next_opt_comma s rest : one_option s → next_opt_from (s ++ ","%char :: rest) = (s, Some rest).
Proof.
  induction 1 as [|c s H1 H2 _ IH|c s _ IH]; [done| |]; cbn [next_opt_from app].
  - rewrite (proj2 (char_eqb_neq c BSLASH) H1), (proj2 (char_eqb_neq c ",") H2), IH. done.
  - by rewrite char_eqb_refl, IH.
Qed.

Lemma unescape_quote s : ovl_unescape (quote s) = s.
Proof.
  induction s as [|c s IH]; [done|]. cbn [quote]. destruct (special c) eqn:E; cbn [ovl_unescape].
  - by rewrite char_eqb_refl, IH.
  - unfold special in E. apply orb_false_iff in E as [E _]. apply orb_false_iff in E as [-> _].
    by rewrite IH.
Qed.

Lemma split_lowerdirs_nonnil s : ovl_split_lowerdirs s ≠ [].
Proof.
  destruct s as [|c t]; cbn; [done|].
  destruct (char_eqb c BSLASH); [destruct t as [|e u]; [done|]; by destruct (ovl_split_lowerdirs u)|].
  destruct (char_eqb c ":"); [done|]. by destruct (ovl_split_lowerdirs t).
Qed.

Lemma split_lowerdirs_quote d s :
  ovl_split_lowerdirs (quote d ++ s) =
    match ovl_split_lowerdirs s with x :: xs => (d ++ x) :: xs | [] => [d] end.
Proof.
  pose proof (split_lowerdirs_nonnil s) as Hs.
  induction d as [|c d IH]; [cbn; by destruct (ovl_split_lowerdirs s)|]. cbn [quote].
  destruct (special c) eqn:E; cbn [app ovl_split_lowerdirs].
  - rewrite char_eqb_refl, IH. by destruct (ovl_split_lowerdirs s).
  - unfold special in E. apply orb_false_iff in E as [E ->]. apply orb_false_iff in E as [-> _].
    rewrite IH. by destruct (ovl_split_lowerdirs s).
Qed.

Lemma split_lowerdirs_join ds : ds ≠ [] → ovl_split_lowerdirs (join (lit ":") (map quote ds)) = ds.
Proof.
  induction ds as [|d ds IH]; [done|]. intros _. cbn [map]. destruct ds as [|d' ds].
  - cbn [map join]. rewrite <-(app_nil_r (quote d)), split_lowerdirs_quote. cbn. by rewrite app_nil_r.
  - rewrite join_cons, split_lowerdirs_quote by done.
    change (lit ":" ++ ?x) with (":"%char :: x). cbn [ovl_split_lowerdirs].
    change (char_eqb ":" BSLASH) with false. change (char_eqb ":" ":") with true. cbv iota.
    rewrite IH, app_nil_r by done. done.
Qed.

(** ** The loop *)

Section loop_lemmas.
Context {L : ParserLib} (mem : nat → bool).

(** The fuel of [ovl_parse_opt] is enough: more does not change the result. *)
Lemma parse_loop_fuel f1 f2 opt s :
  (opt_length opt < f1)%nat → (opt_length opt < f2)%nat → parse_loop mem f1 opt s = parse_loop mem f2 opt s.
Proof.
  revert f2 opt s. induction f1 as [|f1 IH]; intros f2 opt s H1 H2; [lia|]. destruct f2 as [|f2]; [lia|].
  cbn [parse_loop]. destruct opt as [t|]; cbn [ovl_next_opt]; [|done].
  destruct (next_opt_from t) as [p rest] eqn:E.
  assert (Hr : (opt_length rest < f1)%nat ∧ (opt_length rest < f2)%nat).
  { cbn in H1, H2. destruct rest as [rest|]; cbn; [apply next_opt_shorter in E|]; lia. }
  destruct Hr. destruct (negb (nonempty p)); [by apply IH|].
  destruct (parse_token mem p s); [done|by apply IH].
Qed.

Definition parse_all (opt : option cstr) (s : parse_state) : Z + parse_state :=
  parse_loop mem (S (opt_length opt)) opt s.

Lemma parse_all_none s : parse_all None s = inr s.
Proof. done. Qed.

Lemma parse_all_next t p rest s :
  next_opt_from t = (p, rest) → p ≠ [] →
  parse_all (Some t) s = match parse_token mem p s with inl e => inl e | inr s => parse_all rest s end.
Proof.
  intros E Hp.
  transitivity (match parse_token mem p s with inl e => inl e | inr s => parse_loop mem (opt_length (Some t)) rest s end).
  { unfold parse_all. cbn [parse_loop ovl_next_opt]. rewrite E. by destruct p. }
  destruct (parse_token mem p s) as [|s']; [done|].
  apply parse_loop_fuel; [|lia]. destruct rest as [rest|]; cbn; [apply next_opt_shorter in E|]; lia.
Qed.

Lemma parse_all_comma p rest s :
  one_option p → p ≠ [] →
  parse_all (Some (p ++ ","%char :: rest)) s =
    match parse_token mem p s with inl e => inl e | inr s => parse_all (Some rest) s end.
Proof. intros Hp Hn. apply parse_all_next; [by apply next_opt_comma|done]. Qed.

Lemma parse_all_last p s :
  one_option p → p ≠ [] → parse_all (Some p) s = parse_token mem p s.
Proof.
  intros Hp Hn. rewrite (parse_all_next _ _ _ _ (next_opt_one p Hp) Hn).
  destruct (parse_token mem p s); done.
Qed.

(** A property that every token preserves holds after the loop. *)
Lemma parse_loop_ind (P : parse_state → Prop) :
  (∀ p s s', P s → parse_token mem p s = inr s' → P s') →
  ∀ fuel opt s s', P s → parse_loop mem fuel opt s = inr s' → P s'.
Proof.
  intros HP. induction fuel as [|fuel IH]; intros opt s s' Hs; cbn [parse_loop].
  { by intros [= <-]. }
  destruct (ovl_next_opt opt) as [[p rest]|]; [|by intros [= <-]].
  destruct (negb (nonempty p)); [by apply IH|].
  destruct (parse_token mem p s) as [|s1] eqn:E; [done|]. apply IH. by eapply HP.
Qed.

Lemma parse_loop_error (P : Z → Prop) :
  (∀ p s e, parse_token mem p s = inl e → P e) →
  ∀ fuel opt s e, parse_loop mem fuel opt s = inl e → P e.
Proof.
  intros HP. induction fuel as [|fuel IH]; intros opt s e; cbn [parse_loop]; [done|].
  destruct (ovl_next_opt opt) as [[p rest]|]; [|done].
  destruct (negb (nonempty p)); [by apply IH|].
  destruct (parse_token mem p s) as [|s1] eqn:E; [intros [= <-]; by eapply HP|]. apply IH.
Qed.
End loop_lemmas.

(** ** Single tokens *)

Section token_lemmas.
Context {L : ParserLib} {LL : ParserLaws L} (mem : nat → bool) (Hmem : ∀ n, mem n = true).

Lemma parse_string_ok set v s :
  parse_option_string mem set v s = inr (on_config (set v) (set_ps_allocs (S (ps_allocs s)) s)).
Proof. unfold parse_option_string, strdup. by rewrite Hmem. Qed.

Lemma parse_token_lowerdir v s : v ≠ [] →
  parse_token mem (lit "lowerdir=" ++ v) s =
    inr (on_config (set_c_lowerdir (Some v)) (set_ps_allocs (S (ps_allocs s)) s)).
Proof. intros Hv. unfold parse_token. rewrite match_token_first. destruct v; [done|]. apply (parse_string_ok (λ v, set_c_lowerdir (Some v))). Qed.
Lemma parse_token_upperdir v s : v ≠ [] →
  parse_token mem (lit "upperdir=" ++ v) s =
    inr (on_config (set_c_upperdir (Some v)) (set_ps_allocs (S (ps_allocs s)) s)).
Proof. intros Hv. unfold parse_token. rewrite match_token_first. destruct v; [done|]. apply (parse_string_ok (λ v, set_c_upperdir (Some v))). Qed.
Lemma parse_token_workdir v s : v ≠ [] →
  parse_token mem (lit "workdir=" ++ v) s =
    inr (on_config (set_c_workdir (Some v)) (set_ps_allocs (S (ps_allocs s)) s)).
Proof. intros Hv. unfold parse_token. rewrite match_token_first. destruct v; [done|]. apply (parse_string_ok (λ v, set_c_workdir (Some v))). Qed.
Lemma parse_token_creds v s : v ≠ [] →
  parse_token mem (lit "override_creds=" ++ v) s = parse_override_creds mem v s.
Proof. intros Hv. unfold parse_token. rewrite match_token_first. by destruct v. Qed.
Lemma parse_token_redirect_on s :
  parse_token mem (lit "redirect_dir=on") s =
    inr (set_ps_redirect_opt true (on_config (set_c_redirect_mode (lit "on")) (set_ps_allocs (S (ps_allocs s)) s))).
Proof. unfold parse_token. rewrite match_token_first. change (first_match _ _) with (OPT_REDIRECT_DIR, lit "on"). cbv iota beta. by rewrite parse_string_ok. Qed.
Lemma parse_token_index_on s :
  parse_token mem (lit "index=on") s = inr (set_ps_index_opt true (on_config (set_c_index true) s)).
Proof. unfold parse_token. by rewrite match_token_first. Qed.
Lemma parse_token_nfs_export_on s :
  parse_token mem (lit "nfs_export=on") s = inr (set_ps_nfs_export_opt true (on_config (set_c_nfs_export true) s)).
Proof. unfold parse_token. by rewrite match_token_first. Qed.
End token_lemmas.

(** ** Well-formed configurations *)

(** What the rest of the module relies on, as a decision. *)
Definition non_upper_wfb (c : ovl_config) : bool :=
  is_none (c_workdir c) && negb (c_ovl_volatile c) &&
  implb (c_nfs_export c) (negb (c_redirect_follow c)) && implb (c_index c) (c_nfs_export c).
Definition features_wfb (c : ovl_config) : bool :=
  implb (c_metacopy c) (c_redirect_dir c) && implb (c_redirect_dir c) (c_redirect_follow c) &&
  implb (c_nfs_export c) (c_index c && negb (c_metacopy c)) &&
  implb (c_userxattr c) (negb (c_redirect_follow c)) &&
  implb (is_none (c_upperdir c)) (non_upper_wfb c).
Definition redirect_modes : list cstr := [lit "on"; lit "follow"; lit "off"; lit "nofollow"].
Definition config_wf (c : ovl_config) : Prop :=
  features_wfb c = true ∧ c_redirect_mode c ∈ redirect_modes ∧ 0 <= c_xino c <= 2.

(** What holds during the loop. *)
Definition unresolved (s : parse_state) : Prop :=
  c_redirect_dir (ps_config s) = false ∧ c_redirect_follow (ps_config s) = false ∧ 0 <= c_xino (ps_config s) <= 2.

Lemma parse_token_unresolved `{ParserLib} mem p s s' :
  unresolved s → parse_token mem p s = inr s' → unresolved s'.
Proof.
  intros Hs. unfold parse_token, parse_override_creds, parse_option_string, strdup.
  destruct (match_token p ovl_tokens) as [[] arg]; repeat case_match; intros; simplify_eq; try exact Hs;
    (split; [apply Hs|split; [apply Hs|done]]).
Qed.

Lemma parse_token_error `{ParserLib} mem p s e :
  parse_token mem p s = inl e → e = - EINVAL ∨ (e = - ENOMEM ∧ ∃ n, mem n = false).
Proof.
  unfold parse_token, parse_override_creds, parse_option_string, strdup.
  destruct (match_token p ovl_tokens) as [[] arg]; repeat case_match; intros; simplify_eq; eauto.
Qed.

Lemma redirect_mode_ok md c c' :
  c_redirect_dir c = false → c_redirect_follow c = false →
  ovl_parse_redirect_mode md c = inr c' →
  c_redirect_mode c ∈ redirect_modes ∧
  ∃ dir follow, c' = set_c_redirect_follow follow (set_c_redirect_dir dir c) ∧ (dir = true → follow = true).
Proof.
  intros Hd Hf. unfold ovl_parse_redirect_mode.
  destruct (str_eqb _ (lit "on")) eqn:E1; [|destruct (str_eqb _ (lit "follow")) eqn:E2;
    [|destruct (str_eqb _ (lit "off")) eqn:E3; [|destruct (str_eqb _ (lit "nofollow")) eqn:E4; [|done]]]];
    cbn [negb]; intros [= <-]; to_prop; (split; [rewrite ?E1, ?E2, ?E3, ?E4; unfold redirect_modes; set_solver|]).
  - by exists true, true.
  - exists false, true. destruct c; cbn in *; by subst.
  - exists false, (ovl_redirect_always_follow md). destruct (ovl_redirect_always_follow md), c; cbn in *; by subst.
  - exists false, false. destruct c; cbn in *; by subst.
Qed.

(** One part of the resolution after the other: [settled k] is what holds
    after part [k]. *)
Definition settled (k : nat) (c : ovl_config) : bool :=
  let non_upper := is_none (c_upperdir c) in
  implb (c_redirect_dir c) (c_redirect_follow c) &&
  implb non_upper (is_none (c_workdir c) && negb (c_ovl_volatile c)) &&
  (if Nat.leb 1 k then implb (c_metacopy c) (c_redirect_dir c) else true) &&
  (if Nat.leb 2 k then
     implb (c_nfs_export c) (c_index c) &&
     implb non_upper (implb (c_nfs_export c) (negb (c_redirect_follow c)) && implb (c_index c) (c_nfs_export c))
   else implb non_upper (negb (c_index c))) &&
  (if Nat.leb 3 k then implb (c_nfs_export c) (negb (c_metacopy c)) else true).

(** The fields that no part changes. *)
Definition same_names (c c' : ovl_config) : Prop :=
  c_redirect_mode c' = c_redirect_mode c ∧ c_xino c' = c_xino c.

Ltac settle s :=
  destruct s as [cfg m r n i a];
  destruct cfg as [lo up wo dp rd rf mode idx uu nfs xi mc ux vol ho hu hg];
  unfold settled, same_names; cbn; destruct (is_none up) eqn:Eup, rd, rf; cbn; try done;
  destruct mc, nfs, idx; cbn; rewrite ?Eup; cbn; try done; intros Hw;
  rewrite ?andb_false_r, ?andb_true_r in Hw; cbn in Hw; try discriminate Hw;
  repeat match goal with |- context [if ?b then _ else _] => destruct b; cbn end;
  intros Hc; try discriminate Hc; injection Hc as <-; cbn; rewrite ?Eup; cbn; rewrite ?andb_true_r; auto.

Lemma resolve_metacopy_settled s s' :
  settled 0 (ps_config s) = true → resolve_metacopy s = inr s' →
  settled 1 (ps_config s') = true ∧ same_names (ps_config s) (ps_config s').
Proof. unfold resolve_metacopy. settle s. Qed.

Lemma resolve_nfs_index_settled s s' :
  settled 1 (ps_config s) = true → resolve_nfs_index s = inr s' →
  settled 2 (ps_config s') = true ∧ same_names (ps_config s) (ps_config s').
Proof. unfold resolve_nfs_index. settle s. Qed.

Lemma resolve_nfs_metacopy_settled s s' :
  settled 2 (ps_config s) = true → resolve_nfs_metacopy s = inr s' →
  settled 3 (ps_config s') = true ∧ same_names (ps_config s) (ps_config s').
Proof. unfold resolve_nfs_metacopy. settle s. Qed.

Lemma resolve_userxattr_settled s s' :
  settled 3 (ps_config s) = true → resolve_userxattr s = inr s' →
  features_wfb (ps_config s') = true ∧ same_names (ps_config s) (ps_config s').
Proof. unfold resolve_userxattr, features_wfb, non_upper_wfb. settle s. Qed.

(** After the loop: what [resolve_options] makes of an [unresolved] state. *)
Lemma resolve_options_wf md s c : unresolved s → resolve_options md s = inr c → config_wf c.
Proof.
  intros (Hd & Hf & Hx). unfold resolve_options. set (s1 := resolve_non_upper s).
  assert (Hs1 : c_redirect_dir (ps_config s1) = false ∧ c_redirect_follow (ps_config s1) = false ∧
    0 <= c_xino (ps_config s1) <= 2 ∧
    implb (is_none (c_upperdir (ps_config s1))) (is_none (c_workdir (ps_config s1)) &&
      negb (c_ovl_volatile (ps_config s1)) && negb (c_index (ps_config s1))) = true).
  { unfold s1, resolve_non_upper. destruct (c_upperdir (ps_config s)) eqn:E; cbn; rewrite ?E; auto. }
  clearbody s1. destruct Hs1 as (Hd1 & Hf1 & Hx1 & Hu).
  destruct (ovl_parse_redirect_mode md (ps_config s1)) as [|c1] eqn:Em; [done|].
  destruct (redirect_mode_ok _ _ _ Hd1 Hf1 Em) as (Hm & dir & follow & -> & Hdf).
  set (c2 := if is_none _ && _ then _ else _).
  assert (H0 : settled 0 c2 = true ∧ same_names (ps_config s1) c2).
  { unfold c2, settled, same_names. destruct (ps_config s1); cbn in *.
    destruct (is_none c_upperdir0) eqn:Eu, (is_none c_workdir0) eqn:Ew, c_ovl_volatile0, c_index0, dir, follow;
      cbn in *; rewrite ?Eu, ?Ew; try discriminate Hu; try (by specialize (Hdf eq_refl)); auto. }
  clearbody c2. destruct H0 as [H0 N0].
  destruct (resolve_metacopy (set_ps_config c2 s1)) as [|s2] eqn:E2; [done|].
  destruct (resolve_metacopy_settled (set_ps_config c2 s1) _ H0 E2) as [H2 N2].
  destruct (resolve_nfs_index s2) as [|s3] eqn:E3; [done|].
  destruct (resolve_nfs_index_settled _ _ H2 E3) as [H3 N3].
  destruct (resolve_nfs_metacopy s3) as [|s4] eqn:E4; [done|].
  destruct (resolve_nfs_metacopy_settled _ _ H3 E4) as [H4 N4].
  destruct (resolve_userxattr s4) as [|s5] eqn:E5; [done|].
  destruct (resolve_userxattr_settled _ _ H4 E5) as [H5 N5].
  intros [= <-]. unfold same_names in *. cbn in N2. destruct N0, N2, N3, N4, N5.
  split; [done|]. split; [congruence|lia].
Qed.

(** * Theorems *)

Section theorems.
Context {L : ParserLib}.

(** C24: successful parsing gives a well-formed configuration, whatever the
    option string, the module parameters and the kernel's parser: metacopy
    comes with redirects, redirects with following them, NFS export with the
    index and without metacopy, and so on. *)
Theorem ovl_parse_opt_wf md mem opt c :
  ovl_parse_opt md mem opt (initial_config md) = inr c → config_wf c.
Proof.
  unfold ovl_parse_opt, strdup. destruct (mem _); [|done]. cbv beta iota.
  set (s0 := on_config _ _). destruct (parse_loop mem _ opt s0) as [|s1] eqn:E; [done|].
  apply resolve_options_wf. refine (parse_loop_ind mem unresolved _ _ _ _ _ _ E).
  - intros p s s'. apply parse_token_unresolved.
  - split; [done|split; [done|]]. cbn. unfold ovl_xino_def, OVL_XINO_AUTO, OVL_XINO_OFF. case_match; lia.
Qed.

Ltac only_einval := intros ?? H; repeat case_match; try done; injection H as <-; done.

Lemma resolve_options_error md s e : resolve_options md s = inl e → e = - EINVAL.
Proof.
  assert (Hmode : ∀ c e, ovl_parse_redirect_mode md c = inl e → e = - EINVAL)
    by (unfold ovl_parse_redirect_mode; only_einval).
  assert (H1 : ∀ s e, resolve_metacopy s = inl e → e = - EINVAL) by (unfold resolve_metacopy; only_einval).
  assert (H2 : ∀ s e, resolve_nfs_index s = inl e → e = - EINVAL) by (unfold resolve_nfs_index; only_einval).
  assert (H3 : ∀ s e, resolve_nfs_metacopy s = inl e → e = - EINVAL) by (unfold resolve_nfs_metacopy; only_einval).
  assert (H4 : ∀ s e, resolve_userxattr s = inl e → e = - EINVAL) by (unfold resolve_userxattr; only_einval).
  unfold resolve_options.
  destruct (ovl_parse_redirect_mode md _) eqn:?; [intros [= <-]; eauto|].
  destruct (resolve_metacopy _) eqn:?; [intros [= <-]; eauto|].
  destruct (resolve_nfs_index _) eqn:?; [intros [= <-]; eauto|].
  destruct (resolve_nfs_metacopy _) eqn:?; [intros [= <-]; eauto|].
  destruct (resolve_userxattr _) eqn:?; [intros [= <-]; eauto|done].
Qed.

(** A mount is refused for its options with [-EINVAL] only, or with
    [-ENOMEM] when an allocation failed. *)
Theorem ovl_parse_opt_error md mem opt c e :
  ovl_parse_opt md mem opt c = inl e → e = - EINVAL ∨ (e = - ENOMEM ∧ ∃ n, mem n = false).
Proof.
  unfold ovl_parse_opt, strdup. destruct (mem _) eqn:Em; [|intros [= <-]; eauto]. cbv beta iota.
  destruct (parse_loop mem _ opt _) as [e'|s1] eqn:E.
  - intros [= <-]. refine (parse_loop_error mem (λ e, e = - EINVAL ∨ (e = - ENOMEM ∧ ∃ n, mem n = false)) _ _ _ _ _ E).
    intros p s e1. apply parse_token_error.
  - intros H%resolve_options_error. auto.
Qed.
End theorems.

(** ** Quoted paths *)

(** The option string for lower directories [ds], upper directory [u] and
    work directory [w], with every special character quoted. *)
Definition quoted_options (ds : list cstr) (u w : cstr) : cstr :=
  lit "lowerdir=" ++ join (lit ":") (map quote ds) ++ lit ",upperdir=" ++ quote u ++ lit ",workdir=" ++ quote w.

Lemma quote_nonnil s : s ≠ [] → quote s ≠ [].
Proof. destruct s; [done|]. cbn. by destruct (special _). Qed.

Lemma one_option_join ds : one_option (join (lit ":") (map quote ds)).
Proof.
  induction ds as [|d ds IH]; [constructor|]. cbn [map]. destruct ds as [|d' ds]; [apply one_option_quote|].
  rewrite join_cons by done. eauto 10 with ovl.
Qed.

Lemma join_quote_nonnil ds : ds ≠ [] → Forall (λ d, d ≠ []) ds → join (lit ":") (map quote ds) ≠ [].
Proof.
  intros Hne Hf. destruct Hf as [|d ds Hd]; [done|]. cbn [map]. pose proof (quote_nonnil d Hd).
  destruct ds; [done|]. rewrite join_cons by done. by destruct (quote d).
Qed.
#[export] Hint Resolve quote_nonnil join_quote_nonnil one_option_join : ovl.

Lemma parse_redirect_mode_def md c :
  c_redirect_mode c = ovl_redirect_mode_def md →
  ovl_parse_redirect_mode md c =
    inr (if ovl_redirect_dir_def md then set_c_redirect_follow true (set_c_redirect_dir true c)
         else if ovl_redirect_always_follow md then set_c_redirect_follow true c else c).
Proof.
  unfold ovl_parse_redirect_mode, ovl_redirect_mode_def. intros ->. by destruct (ovl_redirect_dir_def md).
Qed.

(** Without explicit features nothing conflicts. *)
Lemma resolve_options_implicit md c n :
  c_upperdir c ≠ None → c_redirect_mode c = ovl_redirect_mode_def md →
  ∃ c', resolve_options md (ParseState c false false false false n) = inr c' ∧
    c_lowerdir c' = c_lowerdir c ∧ c_upperdir c' = c_upperdir c ∧ c_workdir c' = c_workdir c.
Proof.
  intros Hu Hm. unfold resolve_options, resolve_non_upper. cbn [ps_config].
  destruct (c_upperdir c) as [up|] eqn:Eu; [|done]. cbn [ps_config].
  rewrite (parse_redirect_mode_def _ _ Hm).
  destruct c; cbn in Eu, Hm. subst.
  unfold resolve_metacopy, resolve_nfs_index, resolve_nfs_metacopy, resolve_userxattr.
  destruct (ovl_redirect_dir_def md), (ovl_redirect_always_follow md), c_redirect_dir0, c_metacopy0,
    c_nfs_export0, c_index0, c_userxattr0; cbn; rewrite ?andb_false_r; cbn;
    (eexists; split; [reflexivity|done]).
Qed.

Section quoted.
Context {L : ParserLib} {LL : ParserLaws L}.

(** paths with any characters pass through the option string when they are
    quoted: what [ovl_get_lowerstack] splits and what [ovl_mount_dir]
    unescapes are the paths themselves. *)
Theorem quoted_options_roundtrip md mem ds u w :
  (∀ n, mem n = true) → ds ≠ [] → Forall (λ d, d ≠ []) ds → u ≠ [] → w ≠ [] →
  ∃ c, ovl_parse_opt md mem (Some (quoted_options ds u w)) (initial_config md) = inr c ∧
    ovl_split_lowerdirs <$> c_lowerdir c = Some ds ∧
    ovl_unescape <$> c_upperdir c = Some u ∧ ovl_unescape <$> c_workdir c = Some w.
Proof.
  intros Hmem Hds Hdn Hu Hw.
  unfold ovl_parse_opt, strdup. rewrite Hmem. cbv beta iota.
  change (parse_loop mem ?f ?o ?s) with (parse_all mem o s).
  assert (quoted_options ds u w = (lit "lowerdir=" ++ join (lit ":") (map quote ds)) ++
    ","%char :: (lit "upperdir=" ++ quote u) ++ ","%char :: (lit "workdir=" ++ quote w)) as ->.
  { unfold quoted_options. rewrite <-!(assoc_L (++)). done. }
  rewrite parse_all_comma by (auto with ovl || done).
  rewrite parse_token_lowerdir by auto with ovl. cbv beta iota.
  rewrite parse_all_comma by (auto with ovl || done).
  rewrite parse_token_upperdir by auto with ovl. cbv beta iota.
  rewrite parse_all_last by (auto with ovl || done).
  rewrite parse_token_workdir by auto with ovl. cbv beta iota.
  destruct (resolve_options_implicit md
    (set_c_workdir (Some (quote w)) (set_c_upperdir (Some (quote u))
      (set_c_lowerdir (Some (join (lit ":") (map quote ds)))
        (set_c_redirect_mode (ovl_redirect_mode_def md) (initial_config md))))) 4) as (c & Hc & H1 & H2 & H3);
    [done..|].
  exists c. rewrite H1, H2, H3. split; [exact Hc|]. cbn.
  by rewrite split_lowerdirs_join, !unescape_quote.
Qed.
End quoted.

(** ** A parser that follows the documentation *)

Definition sample_kstrtouint (s : cstr) : option Z :=
  if nonempty s && forallb isdigit s && (digits_value 0 s <? 2 ^ 32) then Some (digits_value 0 s) else None.
Definition sample_make_id (n : Z) : option Z := if n =? 2 ^ 32 - 1 then None else Some n.
#[export] Instance sample_parser : ParserLib :=
  {| match_token := first_match; kstrtouint := sample_kstrtouint;
     make_kuid := sample_make_id; make_kgid := sample_make_id |}.
#[export] Instance sample_laws : ParserLaws sample_parser.
Proof.
  split; [done| |done|..].
  - intros n Hn. cbn. unfold sample_kstrtouint. destruct (dec_digits n) as (H1 & H2 & H3); [lia|].
    rewrite H1, H2. destruct (dec n); [done|]. cbn. destruct (Z.ltb_spec n (2 ^ 32)); [done|lia].
  - intros n Hn. cbn. unfold sample_make_id. destruct (Z.eqb_spec n (2 ^ 32 - 1)); [lia|done].
  - intros n Hn. cbn. unfold sample_make_id. destruct (Z.eqb_spec n (2 ^ 32 - 1)); [lia|done].
Qed.

Definition sample_module : ovl_module := OvlModule false true false false false true.

Definition every_alloc : nat → bool := λ _, true.

Lemma ovl_parse_opt_wf_witness :
  ∃ c, ovl_parse_opt sample_module every_alloc (Some (lit "lowerdir=/l,upperdir=/u,workdir=/w,nfs_export=on"))
    (initial_config sample_module) = inr c ∧ config_wf c ∧ c_index c = true ∧ c_metacopy c = false.
Proof.
  eexists. split; [vm_compute; reflexivity|].
  split; [|split; reflexivity].
  apply (ovl_parse_opt_wf sample_module every_alloc (Some (lit "lowerdir=/l,upperdir=/u,workdir=/w,nfs_export=on"))).
  vm_compute. reflexivity.
Defined.

Lemma ovl_parse_opt_error_witness :
  let e := - EINVAL in
  ovl_parse_opt sample_module every_alloc (Some (lit "metacopy=on,redirect_dir=off,userxattr"))
    (initial_config sample_module) = inl e ∧ (e = - EINVAL ∨ (e = - ENOMEM ∧ ∃ n, every_alloc n = false)).
Proof.
  split; [vm_compute; reflexivity|].
  apply (ovl_parse_opt_error sample_module every_alloc (Some (lit "metacopy=on,redirect_dir=off,userxattr"))
    (initial_config sample_module)).
  vm_compute. reflexivity.
Defined.

Lemma quoted_options_roundtrip_witness :
  ∃ c, ovl_parse_opt sample_module every_alloc
      (Some (quoted_options [lit "/a:b"; lit "/c,d"] (lit "/u\,") (lit "/w"))) (initial_config sample_module) = inr c ∧
    ovl_split_lowerdirs <$> c_lowerdir c = Some [lit "/a:b"; lit "/c,d"] ∧
    ovl_unescape <$> c_upperdir c = Some (lit "/u\,") ∧ ovl_unescape <$> c_workdir c = Some (lit "/w").
Proof.
  refine (quoted_options_roundtrip sample_module every_alloc [lit "/a:b"; lit "/c,d"] (lit "/u\,") (lit "/w") _ _ _ _ _);
    [done|done|by repeat constructor|done|done].
Defined.
