(* ===== verification/OvlMount.v ===== *)
(** * The daemon's mount options as the file system module reads them

    [mount_sandbox] (mount_ops.c) writes the option string of
    [overlay_options]; [ovl_parse_opt] (super.c) reads it.  This file composes
    the two: what the daemon asks for is what the module configures, under
    conditions on the paths and ids that neither side checks. *)
From S2P Require Import Prelude CString OS Protocol Record Lowerdir Mount OvlOptions.
Open Scope Z_scope.

Section compose.
Context {L : ParserLib} {LL : ParserLaws L} (md : ovl_module) (mem : nat → bool).

(** The configuration that the daemon means. *)
Definition intended_config (effective_lowerdir : cstr) (ctx : mount_ctx) (uid gid flags : Z) : ovl_config :=
  let override := has_flag flags FLAG_OVERRIDE_UID in
  OvlConfig (Some effective_lowerdir) (Some (ctx_upperdir ctx)) (Some (ctx_workdir ctx))
    false true true (lit "on") true true true (ovl_xino_def md) false false false
    override (if override then to_int32 uid else 0) (if override then to_int32 gid else 0).

(** Paths that need no quoting. *)
Definition paths_plain (effective_lowerdir : cstr) (ctx : mount_ctx) : Prop :=
  Forall (λ p, plain p ∧ p ≠ []) [effective_lowerdir; ctx_upperdir ctx; ctx_workdir ctx].

Definition base_options (e : cstr) (ctx : mount_ctx) : cstr :=
  (lit "lowerdir=" ++ e) ++ ","%char :: (lit "upperdir=" ++ ctx_upperdir ctx) ++
  ","%char :: (lit "workdir=" ++ ctx_workdir ctx) ++
  ","%char :: lit "redirect_dir=on" ++ ","%char :: lit "index=on" ++ ","%char :: lit "nfs_export=on".

Definition creds_option (uid gid : Z) : cstr :=
  lit "override_creds=" ++ dec (to_int32 uid) ++ ":"%char :: dec (to_int32 gid).

Lemma overlay_options_eq e ctx uid gid flags opts :
  overlay_options e ctx uid gid flags = (opts, false) →
  opts = base_options e ctx ++
    (if has_flag flags FLAG_OVERRIDE_UID then ","%char :: creds_option uid gid else []).
Proof.
  unfold overlay_options. cbv zeta.
  assert (Hb : lit "lowerdir=" ++ e ++ lit ",upperdir=" ++ ctx_upperdir ctx ++
    lit ",workdir=" ++ ctx_workdir ctx ++ lit ",redirect_dir=on,index=on,nfs_export=on" = base_options e ctx).
  { unfold base_options. rewrite <-!(assoc_L (++)). done. }
  rewrite Hb. intros [<- Hlen]%pair_eq. destruct (has_flag flags FLAG_OVERRIDE_UID); cbn [andb] in *.
  - destruct (Z.ltb_spec (slen (base_options e ctx)) 8192) as [Hs|Hs].
    + to_prop. rewrite fit_id by lia. done.
    + to_prop. lia.
  - to_prop. rewrite fit_id by lia. by rewrite app_nil_r.
Qed.

(** The loop over the options without the credentials. *)
Definition base_state (e : cstr) (ctx : mount_ctx) : parse_state :=
  ParseState (OvlConfig (Some e) (Some (ctx_upperdir ctx)) (Some (ctx_workdir ctx)) false false false
    (lit "on") true true true (ovl_xino_def md) (ovl_metacopy_def md) false false false 0 0)
    false true true true 5.

Lemma parse_base e ctx rest :
  (∀ n, mem n = true) → paths_plain e ctx →
  parse_all mem (Some (base_options e ctx ++ match rest with None => [] | Some r => ","%char :: r end))
    (on_config (set_c_redirect_mode (ovl_redirect_mode_def md))
      (set_ps_allocs 1 (ParseState (initial_config md) false false false false 0))) =
  parse_all mem rest (base_state e ctx).
Proof.
  intros Hmem Hp. unfold paths_plain in Hp. rewrite !Forall_cons in Hp.
  destruct Hp as ((? & ?) & (? & ?) & (? & ?) & _). unfold base_options. 
  repeat (rewrite <-!(assoc_L (++)); cbn [app]).
  rewrite (assoc_L (++) (lit "lowerdir=")), parse_all_comma, parse_token_lowerdir by (auto with ovl || done).
  cbv beta iota.
  rewrite (assoc_L (++) (lit "upperdir=")), parse_all_comma, parse_token_upperdir by (auto with ovl || done).
  cbv beta iota.
  rewrite (assoc_L (++) (lit "workdir=")), parse_all_comma, parse_token_workdir by (auto with ovl || done).
  cbv beta iota.
  rewrite parse_all_comma, parse_token_redirect_on by (auto with ovl || done). cbv beta iota.
  rewrite parse_all_comma, parse_token_index_on by (auto with ovl || done). cbv beta iota.
  destruct rest as [r|].
  - rewrite parse_all_comma, parse_token_nfs_export_on by (auto with ovl || done). done.
  - rewrite app_nil_r, parse_all_last, parse_token_nfs_export_on by (auto with ovl || done). done.
Qed.

(** The resolution keeps what the daemon asked for and turns metacopy off. *)
Lemma resolve_base e ctx uid gid flags n :
  resolve_options md (set_ps_allocs n (on_config (λ c,
    set_c_has_override_creds (has_flag flags FLAG_OVERRIDE_UID)
      (set_c_override_gid (if has_flag flags FLAG_OVERRIDE_UID then to_int32 gid else 0)
        (set_c_override_uid (if has_flag flags FLAG_OVERRIDE_UID then to_int32 uid else 0) c)))
    (base_state e ctx))) =
  inr (intended_config e ctx uid gid flags).
Proof.
  unfold resolve_options, resolve_non_upper. cbn [base_state on_config set_ps_config set_ps_allocs ps_config].
  unfold ovl_parse_redirect_mode.
  change (str_eqb (c_redirect_mode _) (lit "on")) with true. cbv iota.
  unfold resolve_metacopy, resolve_nfs_index, resolve_nfs_metacopy, resolve_userxattr, intended_config.
  cbn. by destruct (ovl_metacopy_def md).
Qed.

(** A number is written with digits and at most a minus sign. *)
Lemma dec_chars z c : c ∈ dec z → isdigit c = true ∨ c = "-"%char.
Proof.
  assert (Hpos : ∀ z, 0 <= z → ∀ c, c ∈ dec z → isdigit c = true).
  { intros y Hy d Hd. destruct (dec_digits y Hy) as (Hall & _ & _).
    rewrite forallb_forall in Hall. by apply Hall, list_elem_of_In. }
  intros Hc. destruct (decide (0 <= z)); [left; by apply (Hpos z)|].
  rewrite dec_negative, elem_of_cons in Hc by lia.
  destruct Hc as [->|Hc]; [by right|left; apply (Hpos (- z)); [lia|done]].
Qed.
Lemma dec_free z (c : ascii) : isdigit c = false → c ≠ "-"%char → c ∉ dec z.
Proof. intros Hd Hm [Hc|Hc]%dec_chars; congruence. Qed.
Lemma dec_plain z : plain (dec z).
Proof. split; by apply dec_free. Qed.
Lemma creds_option_one uid gid : one_option (creds_option uid gid).
Proof.
  apply one_option_plain, plain_app; [auto with ovl|]. apply plain_app; [apply dec_plain|].
  apply (plain_app (lit ":")); [auto with ovl|apply dec_plain].
Qed.

Lemma to_int32_nonneg z : 0 <= to_int32 z → 0 <= to_int32 z < 2 ^ 32 - 1.
Proof. pose proof (to_int32_range z). lia. Qed.

Lemma parse_creds uid gid s :
  (∀ n, mem n = true) →
  parse_token mem (creds_option uid gid) s =
    if decide (0 <= to_int32 uid ∧ 0 <= to_int32 gid)
    then inr (on_config (λ c, set_c_has_override_creds true
           (set_c_override_gid (to_int32 gid) (set_c_override_uid (to_int32 uid) c)))
           (set_ps_allocs (S (ps_allocs s)) s))
    else inl (- EINVAL).
Proof.
  intros Hmem. unfold creds_option.
  rewrite parse_token_creds by (by destruct (dec (to_int32 uid))).
  unfold parse_override_creds, strdup. rewrite Hmem.
  rewrite (proj2 (strchr_Some _ ":"%char (dec (to_int32 uid)) (dec (to_int32 gid))))
    by (split; [done|by apply dec_free]).
  assert (Hk : ∀ z, kstrtouint (dec (to_int32 z)) = if decide (0 <= to_int32 z) then Some (to_int32 z) else None).
  { intros z. pose proof (to_int32_range z). case_decide; [apply kstrtouint_dec; lia|].
    rewrite dec_negative by lia. apply kstrtouint_minus. }
  rewrite !Hk.
  destruct (decide (0 <= to_int32 uid)) as [Hu|Hu]; [|rewrite decide_False by tauto; done].
  destruct (decide (0 <= to_int32 gid)) as [Hg|Hg]; [|rewrite decide_False by tauto; done].
  rewrite decide_True by done.
  by rewrite (make_kuid_init _ (to_int32_nonneg uid Hu)), (make_kgid_init _ (to_int32_nonneg gid Hg)).
Qed.

Lemma parse_opt_rest e ctx rest opts :
  (∀ n, mem n = true) → paths_plain e ctx →
  opts = base_options e ctx ++ match rest with None => [] | Some r => ","%char :: r end →
  ovl_parse_opt md mem (Some opts) (initial_config md) =
    match parse_all mem rest (base_state e ctx) with inl err => inl err | inr s => resolve_options md s end.
Proof.
  intros Hmem Hp ->. unfold ovl_parse_opt, strdup. rewrite Hmem. cbv beta iota.
  change (parse_loop mem ?f ?o ?s) with (parse_all mem o s).
  by rewrite <-parse_base.
Qed.

(** C23: the daemon's options mean to the module what the daemon intends, for
    paths without a backslash or a comma and, when ids are overridden, ids
    below [2 ^ 31]; with a larger id the mount is refused. *)
Theorem daemon_options_parsed e ctx uid gid flags opts :
  (∀ n, mem n = true) → paths_plain e ctx →
  overlay_options e ctx uid gid flags = (opts, false) →
  ovl_parse_opt md mem (Some opts) (initial_config md) =
    if decide (has_flag flags FLAG_OVERRIDE_UID = true ∧ (to_int32 uid < 0 ∨ to_int32 gid < 0))
    then inl (- EINVAL)
    else inr (intended_config e ctx uid gid flags).
Proof.
  intros Hmem Hp Hopts%overlay_options_eq.
  destruct (has_flag flags FLAG_OVERRIDE_UID) eqn:Ef.
  - rewrite (parse_opt_rest e ctx (Some (creds_option uid gid))) by done.
    rewrite parse_all_last, parse_creds by (done || apply creds_option_one).
    case_decide as H1; case_decide as H2; [exfalso; lia| |done|exfalso; lia].
    pose proof (resolve_base e ctx uid gid flags 6) as Hr. rewrite Ef in Hr. exact Hr.
  - rewrite (parse_opt_rest e ctx None) by done. rewrite parse_all_none.
    rewrite decide_False by naive_solver.
    pose proof (resolve_base e ctx uid gid flags 5) as Hr. rewrite Ef in Hr. exact Hr.
Qed.
End compose.

(** ** At concrete inputs *)

Definition sample_ctx : mount_ctx := MountCtx (lit "/ov") (lit "/ov/u") (lit "/ov/w").

Lemma daemon_options_parsed_witness :
  ovl_parse_opt sample_module (λ _, true)
    (Some (fst (overlay_options (lit "/lower") sample_ctx 1000 100 FLAG_OVERRIDE_UID)))
    (initial_config sample_module) =
  inr (intended_config sample_module (lit "/lower") sample_ctx 1000 100 FLAG_OVERRIDE_UID).
Proof.
  refine (daemon_options_parsed sample_module (λ _, true) (lit "/lower") sample_ctx 1000 100 FLAG_OVERRIDE_UID _ _ _ _).
  - done.
  - unfold paths_plain. cbn [ctx_upperdir ctx_workdir sample_ctx].
    repeat (apply Forall_cons; split; [split; [auto with ovl|done]|]). apply Forall_nil, I.
  - vm_compute. reflexivity.
Defined.

(** A comma in a path is not harmless: what follows it is an option. *)
Example comma_in_path_injects :
  ∃ c, ovl_parse_opt sample_module (λ _, true)
    (Some (fst (overlay_options (lit "/tmp/x,override_creds=0:0") sample_ctx 1000 100 0)))
    (initial_config sample_module) = inr c ∧
  c_lowerdir c = Some (lit "/tmp/x") ∧ c_has_override_creds c = true ∧ c_override_uid c = 0.
Proof. eexists. split; [vm_compute; reflexivity|]. done. Qed.
