(* ===== verification/OvlVfs.v ===== *)
(** * The objects of the overlay file system and the kernel below it

    The structures of ovl_entry.h and overlayfs.h, the kernel's virtual file
    system as an interface, the monad in which the module's functions are
    written, and the accessors of util.c.

    A real dentry, that is one of a layer's file system, is a number (its
    address).  What the module reads of it is a function of the world:
    Documentation/filesystems/overlayfs.rst forbids changing the layers under
    a mounted overlay, so nobody but the module does.  What the module writes
    goes through calls that give an error code and a new world.  Reference
    counts and the RCU mode are not modelled. *)
From S2P Require Import Prelude CString OS OvlOptions.
Open Scope Z_scope.

(** ** errno values *)

Definition EACCES : Z := 13.
Definition EBUSY : Z := 16.
Definition EXDEV : Z := 18.
Definition ELOOP : Z := 40.
Definition ENODATA : Z := 61.
Definition EREMOTE : Z := 66.
Definition ECHILD : Z := 10.

(** ** Real dentries and inodes *)

(** The dentry types of include/linux/dcache.h ([DCACHE_*_TYPE]). *)
Inductive dkind := KMiss | KWhiteout | KDirectory | KAutodir | KRegular | KSpecial | KSymlink.
#[export] Instance dkind_eq_dec : EqDecision dkind.
Proof. solve_decision. Defined.

(** The other bits of [d_flags] that the module tests. *)
Record dflags := DFlags {
  DCACHE_NEED_AUTOMOUNT : bool;
  DCACHE_MANAGE_TRANSIT : bool;
  DCACHE_OP_HASH : bool;
  DCACHE_OP_COMPARE : bool;
  DCACHE_OP_REAL : bool;
  DCACHE_OP_REVALIDATE : bool;
  DCACHE_OP_WEAK_REVALIDATE : bool;
  DCACHE_DISCONNECTED : bool
}.
Definition no_dflags : dflags := DFlags false false false false false false false false.

(** The format bits of [i_mode]. *)
Inductive ftype := S_IFREG | S_IFDIR | S_IFLNK | S_IFCHR | S_IFBLK | S_IFIFO | S_IFSOCK.
#[export] Instance ftype_eq_dec : EqDecision ftype.
Proof. solve_decision. Defined.

(** A real inode; [i_addr] identifies it, as its address does. *)
Record inode_info := Inode { i_addr : Z; i_ino : Z; i_fmt : ftype; i_rdev : Z; i_nlink : Z }.

Record dentry_info := Dentry {
  de_kind : dkind;
  de_flags : dflags;
  de_inode : option inode_info;
  de_unhashed : bool;
  de_name : cstr;
  de_parent : Z
}.

Definition d_can_lookup (d : dentry_info) : bool := bool_decide (de_kind d = KDirectory).
Definition d_is_dir (d : dentry_info) : bool := d_can_lookup d || bool_decide (de_kind d = KAutodir).
Definition d_is_reg (d : dentry_info) : bool := bool_decide (de_kind d = KRegular).
Definition d_is_file (d : dentry_info) : bool := d_is_reg d || bool_decide (de_kind d = KSpecial).
Definition d_is_symlink (d : dentry_info) : bool := bool_decide (de_kind d = KSymlink).
Definition d_is_negative (d : dentry_info) : bool := bool_decide (de_kind d = KMiss).

(** [IS_WHITEOUT(inode)]: a character device with the number 0. *)
Definition is_whiteout_inode (i : inode_info) : bool := bool_decide (i_fmt i = S_IFCHR) && (i_rdev i =? 0).

(** A super block of a layer. *)
Record sb_info := SuperBlock { s_addr : Z; s_uuid : list ascii; s_export : bool; s_encode_fh : bool }.

(** What [exportfs_encode_fh] returns: the type, the number of words and the
    bytes of the file identifier. *)
Record fid := Fid { fid_type : Z; fid_dwords : Z; fid_bytes : list ascii }.

(** ** The kernel *)

Definition DT_UNKNOWN : Z := 0.
Definition DT_CHR : Z := 2.
Definition DT_DIR : Z := 4.

(** What [iterate_dir] hands to the actor. *)
Record dirent := Dirent { dn_name : cstr; dn_ino : Z; dn_type : Z }.

Class Vfs (W : Type) := {
  (** reading *)
  dentry_of : W → Z → dentry_info;
  sb_of : W → Z → sb_info;
  lookup_one : W → Z → cstr → res Z;
  getxattr : W → Z → cstr → res (list ascii);
  capable_read_search : W → bool;
  is_subdir : W → Z → Z → bool;
  exportfs_encode_fh : W → Z → fid;
  exportfs_decode_fh : W → Z → list ascii → Z → Z → bool → res Z;
  (** opening a directory for reading (0 or an error); what the calls of
      [iterate_dir] on it deliver, one after the other, and what the call
      after the last of them returns *)
  open_dir : W → Z → Z;
  dir_batches : W → Z → list (list dirent) * Z;
  (** writing; 0 is success *)
  down_write_killable : W → Z → Z * W;
  kmalloc : W → bool * W;
  mnt_want_write : W → Z → Z * W;
  vfs_setxattr : W → Z → cstr → list ascii → Z * W;
  vfs_removexattr : W → Z → cstr → Z * W;
  (** conversions of lib/hexdump.c and lib/kstrtox.c, and the byte order *)
  bin2hex : list ascii → cstr;
  hex2bin : cstr → option (list ascii);
  kstrtoint : cstr → option Z;
  cpu_big_endian : bool
}.

(** ** The module's own objects *)

(** [enum ovl_xattr] and the table of names. *)
Inductive ovl_xattr :=
  | OVL_XATTR_OPAQUE | OVL_XATTR_REDIRECT | OVL_XATTR_ORIGIN | OVL_XATTR_IMPURE
  | OVL_XATTR_NLINK | OVL_XATTR_UPPER | OVL_XATTR_METACOPY | OVL_XATTR_PROTATTR.

Definition OVL_XATTR_TRUSTED_PREFIX : cstr := lit "trusted.overlay.".
Definition OVL_XATTR_USER_PREFIX : cstr := lit "user.overlay.".
Definition ovl_xattr_postfix (ox : ovl_xattr) : cstr :=
  match ox with
  | OVL_XATTR_OPAQUE => lit "opaque"
  | OVL_XATTR_REDIRECT => lit "redirect"
  | OVL_XATTR_ORIGIN => lit "origin"
  | OVL_XATTR_IMPURE => lit "impure"
  | OVL_XATTR_NLINK => lit "nlink"
  | OVL_XATTR_UPPER => lit "upper"
  | OVL_XATTR_METACOPY => lit "metacopy"
  | OVL_XATTR_PROTATTR => lit "protattr"
  end.
(** [ovl_xattr_table[ox][userxattr]]. *)
Definition ovl_xattr_table (ox : ovl_xattr) (userxattr : bool) : cstr :=
  (if userxattr then OVL_XATTR_USER_PREFIX else OVL_XATTR_TRUSTED_PREFIX) ++ ovl_xattr_postfix ox.

(** [struct ovl_layer]; a private mount is named by its root dentry. *)
Record ovl_layer := Layer { l_mnt : Z; l_idx : Z; l_fsid : Z; l_bad_uuid : bool }.

(** [struct ovl_path]. *)
Record ovl_path := OvlPath { p_layer : ovl_layer; p_dentry : Z }.

(** [struct ovl_fs]: what the functions below use of it. *)
Record ovl_fs := OvlFs {
  ofs_upper_mnt : option Z;
  ofs_lowers : list ovl_layer;   (** [layers[1]], [layers[2]], ... *)
  ofs_indexdir : option Z;
  ofs_namelen : Z;
  ofs_config : ovl_config;
  ofs_noxattr : bool;
  ofs_xino_mode : Z;
  ofs_traps : list Z             (** the trap inodes, by their real inode *)
}.
Definition numlayer (ofs : ovl_fs) : Z := 1 + Z.of_nat (length (ofs_lowers ofs)).

(** [struct ovl_entry] with the flags of [enum ovl_entry_flag], and what the
    module uses of the overlay dentry that holds it. *)
Record ovl_dentry := OvlDentry {
  od_name : cstr;
  od_parent : Z;
  od_is_dir : bool;
  od_is_reg : bool;
  od_inode : option Z;
  od_disconnected : bool;
  OVL_E_UPPER_ALIAS : bool;
  OVL_E_OPAQUE : bool;
  OVL_E_CONNECTED : bool;
  od_lowerstack : list ovl_path
}.

(** [struct ovl_inode] with the flags of [enum ovl_inode_flag]. *)
Record ovl_inode := OvlInode {
  oi_upperdentry : option Z;
  oi_lowerpath : option ovl_path;
  oi_lowerdata : option Z;
  oi_redirect : option cstr;
  oi_version : Z;
  oi_is_reg : bool;
  OVL_IMPURE : bool;
  OVL_WHITEOUTS : bool;
  OVL_INDEX : bool;
  OVL_UPPERDATA : bool;
  OVL_CONST_INO : bool
}.

(** ** The monad *)

(** The world below, the super block, the overlay dentries and inodes by
    address, and whether a [WARN_ON] has fired. *)
Record vstate (W : Type) := VState {
  vs_world : W;
  vs_fs : ovl_fs;
  vs_root : Z;
  vs_dentries : gmap Z ovl_dentry;
  vs_inodes : gmap Z ovl_inode;
  vs_warned : bool
}.
Arguments VState {W}.
Arguments vs_world {W}.
Arguments vs_fs {W}.
Arguments vs_root {W}.
Arguments vs_dentries {W}.
Arguments vs_inodes {W}.
Arguments vs_warned {W}.

Declare Scope ovl_scope.
Delimit Scope ovl_scope with ovl.

Section monad.
Context {W : Type}.

(** A function of the module: a result or a negative error, and a new state. *)
Definition V (A : Type) : Type := vstate W → res A * vstate W.

Definition vret {A} (a : A) : V A := λ s, (inr a, s).
Definition vfail {A} (e : Z) : V A := λ s, (inl e, s).
Definition vbind {A B} (m : V A) (f : A → V B) : V B :=
  λ s, let '(r, s') := m s in match r with inl e => (inl e, s') | inr a => f a s' end.
(** The caller looks at the error itself. *)
Definition vcatch {A} (m : V A) : V (res A) := λ s, let '(r, s') := m s in (inr r, s').
Definition vlift {A} (r : res A) : V A := λ s, (r, s).
Definition vget {A} (f : vstate W → A) : V A := λ s, (inr (f s), s).
Definition vupdate (f : vstate W → vstate W) : V unit := λ s, (inr tt, f s).
(** An [int] result: 0 or a negative error. *)
Definition vcheck (err : Z) : V unit := if err =? 0 then vret tt else vfail err.

Definition set_vs_world (w : W) (s : vstate W) : vstate W :=
  VState w (vs_fs s) (vs_root s) (vs_dentries s) (vs_inodes s) (vs_warned s).
Definition set_vs_fs (f : ovl_fs) (s : vstate W) : vstate W :=
  VState (vs_world s) f (vs_root s) (vs_dentries s) (vs_inodes s) (vs_warned s).
Definition set_vs_dentries (m : gmap Z ovl_dentry) (s : vstate W) : vstate W :=
  VState (vs_world s) (vs_fs s) (vs_root s) m (vs_inodes s) (vs_warned s).
Definition set_vs_inodes (m : gmap Z ovl_inode) (s : vstate W) : vstate W :=
  VState (vs_world s) (vs_fs s) (vs_root s) (vs_dentries s) m (vs_warned s).
Definition set_vs_warned (s : vstate W) : vstate W :=
  VState (vs_world s) (vs_fs s) (vs_root s) (vs_dentries s) (vs_inodes s) true.

(** [WARN_ON(b)]. *)
Definition warn_on (b : bool) : V bool := λ s, (inr b, if b then set_vs_warned s else s).

(** A call of the kernel that returns an error code. *)
Definition vcall (f : W → Z * W) : V Z := λ s, let '(e, w) := f (vs_world s) in (inr e, set_vs_world w s).
Definition vread {A} (f : W → A) : V A := vget (λ s, f (vs_world s)).
End monad.
Arguments V : clear implicits.

Notation "'let?' x := m 'in' k" := (vbind m (fun x => k)) (at level 10, x pattern, k at level 200) : ovl_scope.
Notation "m ;;? k" := (vbind m (fun _ => k)) (at level 100, k at level 200, right associativity) : ovl_scope.
Open Scope ovl_scope.

Section util.
Context {W : Type} {K : Vfs W}.

Definition dentry_at (d : Z) : V W dentry_info := vread (λ w, dentry_of w d).
Definition get_fs : V W ovl_fs := vget vs_fs.
Definition get_config : V W ovl_config := vget (λ s, ofs_config (vs_fs s)).

(** ** util.c: real dentries *)

Definition ovl_is_whiteout (d : dentry_info) : bool :=
  match de_inode d with None => false | Some i => is_whiteout_inode i end.

Definition ovl_dentry_weird (d : dentry_info) : bool :=
  if negb (d_can_lookup d) && negb (d_is_file d) && negb (d_is_symlink d) then true
  else DCACHE_NEED_AUTOMOUNT (de_flags d) || DCACHE_MANAGE_TRANSIT (de_flags d) ||
       DCACHE_OP_HASH (de_flags d) || DCACHE_OP_COMPARE (de_flags d).

Definition ovl_dentry_remote (d : dentry_info) : bool :=
  DCACHE_OP_REVALIDATE (de_flags d) || DCACHE_OP_WEAK_REVALIDATE (de_flags d).

Definition FILEID_INO32_GEN : Z := 1.
Definition ovl_can_decode_fh (w : W) (sb : sb_info) : Z :=
  if negb (capable_read_search w) then 0
  else if negb (s_export sb) then 0
  else if s_encode_fh sb then -1 else FILEID_INO32_GEN.

(** Extended attributes: the value, or the error of the kernel. *)
Definition ovl_getxattr (d : Z) (ox : ovl_xattr) : V W (res (list ascii)) :=
  let? c := get_config in vread (λ w, getxattr w d (ovl_xattr_table ox (c_userxattr c))).
Definition ovl_setxattr (d : Z) (ox : ovl_xattr) (value : list ascii) : V W Z :=
  let? c := get_config in vcall (λ w, vfs_setxattr w d (ovl_xattr_table ox (c_userxattr c)) value).
Definition ovl_removexattr (d : Z) (ox : ovl_xattr) : V W Z :=
  let? c := get_config in vcall (λ w, vfs_removexattr w d (ovl_xattr_table ox (c_userxattr c))).

Definition ovl_check_origin_xattr (d : Z) : V W bool :=
  let? r := ovl_getxattr d OVL_XATTR_ORIGIN in vret (negb (failed r)).

(** A buffer of one byte: a longer value gives [-ERANGE]. *)
Definition ovl_check_dir_xattr (d : Z) (ox : ovl_xattr) : V W bool :=
  let? i := dentry_at d in
  if negb (d_is_dir i) then vret false
  else let? r := ovl_getxattr d ox in
       vret (match r with inr [c] => char_eqb c "y" | _ => false end).
Definition ovl_is_impuredir (d : Z) : V W bool := ovl_check_dir_xattr d OVL_XATTR_IMPURE.

Definition set_noxattr (f : ovl_fs) : ovl_fs :=
  OvlFs (ofs_upper_mnt f) (ofs_lowers f) (ofs_indexdir f) (ofs_namelen f) (ofs_config f) true (ofs_xino_mode f) (ofs_traps f).

Definition ovl_check_setxattr (upperdentry : Z) (ox : ovl_xattr) (value : list ascii) (xerr : Z) : V W Z :=
  let? ofs := get_fs in
  if ofs_noxattr ofs then vret xerr
  else
    let? err := ovl_setxattr upperdentry ox value in
    if err =? - EOPNOTSUPP then
      vupdate (λ s, set_vs_fs (set_noxattr (vs_fs s)) s) ;;? vret xerr
    else vret err.

(** err < 0, 0 if no metacopy xattr, 1 if metacopy xattr found *)
Definition ovl_check_metacopy_xattr (d : Z) : V W bool :=
  let? i := dentry_at d in
  match de_inode i with
  | Some inode =>
    if negb (bool_decide (i_fmt inode = S_IFREG)) then vret false
    else
      let? r := ovl_getxattr d OVL_XATTR_METACOPY in
      match r with
      | inr _ => vret true
      | inl e =>
        let? c := get_config in
        if (e =? - ENODATA) || (e =? - EOPNOTSUPP) then vret false
        else if c_userxattr c && (e =? - EACCES) then vret false
        else vfail e
      end
  | None => vret false
  end.

(** The check of the loop [for (s = buf; *s++ == '/'; s = next)] on an
    absolute redirect: after every slash something other than a slash. *)
Fixpoint redirect_path_ok (buf : cstr) : bool :=
  match buf with
  | [] => true
  | c :: t =>
    if char_eqb c "/" then
      match t with [] => false | e :: _ => negb (char_eqb e "/") && redirect_path_ok t end
    else redirect_path_ok t
  end.

(** The redirect as a string that ends at its NUL, or [None] without one. *)
Definition ovl_get_redirect_xattr (d : Z) : V W (option cstr) :=
  let? r := ovl_getxattr d OVL_XATTR_REDIRECT in
  match r with
  | inl e => if (e =? - ENODATA) || (e =? - EOPNOTSUPP) then vret None else vfail e
  | inr value =>
    if negb (nonempty value) then vfail (- EINVAL)
    else
      let? ok := (λ s, let '(b, w) := kmalloc (vs_world s) in (inr b, set_vs_world w s)) in
      if negb ok then vfail (- ENOMEM)
      else
        let buf := c_str value in
        if is_absolute buf
        then if redirect_path_ok buf then vret (Some buf) else vfail (- EINVAL)
        else if existsb (char_eqb "/") buf then vfail (- EINVAL) else vret (Some buf)
  end.

(** [lookup_positive_unlocked]: a negative dentry is [-ENOENT]. *)
Definition lookup_positive (name : cstr) (base : Z) : V W (res Z) :=
  vread (λ w, match lookup_one w base name with
              | inr d => if d_is_negative (dentry_of w d) then inl (- ENOENT) else inr d
              | inl e => inl e
              end).

(** ** util.c: the super block *)

Definition ovl_indexdir : V W (option Z) := vget (λ s, ofs_indexdir (vs_fs s)).
Definition ovl_index_all : V W bool := let? c := get_config in vret (c_nfs_export c && c_index c).
Definition ovl_verify_lower : V W bool := let? c := get_config in vret (c_nfs_export c && c_index c).
Definition ovl_redirect_dir : V W bool :=
  let? ofs := get_fs in vret (c_redirect_dir (ofs_config ofs) && negb (ofs_noxattr ofs)).
Definition ovl_upper_mnt : V W (option Z) := vget (λ s, ofs_upper_mnt (vs_fs s)).
Definition ovl_want_write : V W Z :=
  let? mnt := ovl_upper_mnt in vcall (λ w, mnt_want_write w (default 0 mnt)).

(** ** util.c: overlay dentries *)

Definition null_dentry : ovl_dentry := OvlDentry [] 0 false false None false false false false [].
Definition null_inode : ovl_inode := OvlInode None None None None 0 false false false false false false.
Definition odentry_at (dentry : Z) (s : vstate W) : ovl_dentry := default null_dentry (vs_dentries s !! dentry).
Definition oinode_at (inode : Z) (s : vstate W) : ovl_inode := default null_inode (vs_inodes s !! inode).
(** The inode of an overlay dentry. *)
Definition d_inode (dentry : Z) (s : vstate W) : option ovl_inode :=
  (λ i, oinode_at i s) <$> od_inode (odentry_at dentry s).
Definition test_inode (flag : ovl_inode → bool) (dentry : Z) (s : vstate W) : bool :=
  match d_inode dentry s with Some i => flag i | None => false end.

Definition ovl_dentry_upper (dentry : Z) (s : vstate W) : option Z :=
  match d_inode dentry s with Some i => oi_upperdentry i | None => None end.
Definition lowerstack (dentry : Z) (s : vstate W) : list ovl_path := od_lowerstack (odentry_at dentry s).
Definition numlower (dentry : Z) (s : vstate W) : Z := Z.of_nat (length (lowerstack dentry s)).
Definition ovl_dentry_lower (dentry : Z) (s : vstate W) : option Z := p_dentry <$> head (lowerstack dentry s).
Definition ovl_layer_lower (dentry : Z) (s : vstate W) : option ovl_layer := p_layer <$> head (lowerstack dentry s).
Definition ovl_dentry_lowerdata (dentry : Z) (s : vstate W) : option Z := p_dentry <$> last (lowerstack dentry s).
Definition ovl_dentry_real (dentry : Z) (s : vstate W) : option Z :=
  match ovl_dentry_upper dentry s with Some d => Some d | None => ovl_dentry_lower dentry s end.

Definition ovl_should_check_upperdata (i : ovl_inode) : bool :=
  oi_is_reg i && negb (is_none (oi_lowerpath i)).
Definition ovl_has_upperdata (i : ovl_inode) : bool :=
  if negb (ovl_should_check_upperdata i) then true else OVL_UPPERDATA i.

(** [enum ovl_path_type]: the three bits. *)
Record path_type := PathType { T_UPPER : bool; T_MERGE : bool; T_ORIGIN : bool }.
Definition ovl_path_type (dentry : Z) (s : vstate W) : path_type :=
  let oe := lowerstack dentry s in
  match ovl_dentry_upper dentry s with
  | Some _ =>
    if 0 <? numlower dentry s then
      PathType true
        (od_is_dir (odentry_at dentry s) || negb (test_inode ovl_has_upperdata dentry s))
        (test_inode OVL_CONST_INO dentry s)
    else PathType true false false
  | None => PathType false (1 <? numlower dentry s) false
  end.

(** [ovl_path_upper], [ovl_path_lower] and so on: the dentry of the path; its
    mount is the one of the layer. *)
Definition ovl_path_real (dentry : Z) (s : vstate W) : path_type * option Z :=
  let type := ovl_path_type dentry s in
  (type, if negb (T_UPPER type) then ovl_dentry_lower dentry s else ovl_dentry_upper dentry s).

Definition ovl_is_metacopy_dentry (dentry : Z) (s : vstate W) : bool :=
  if negb (od_is_reg (odentry_at dentry s)) then false
  else match ovl_dentry_upper dentry s with
       | Some _ => negb (test_inode ovl_has_upperdata dentry s)
       | None => 1 <? numlower dentry s
       end.

(** [ovl_dir_is_real]: a directory without whiteouts. *)
Definition ovl_dir_is_real (dentry : Z) (s : vstate W) : bool := negb (test_inode OVL_WHITEOUTS dentry s).

Definition update_inode (f : ovl_inode → ovl_inode) (dentry : Z) : V W unit :=
  vupdate (λ s, match od_inode (odentry_at dentry s) with
                | Some i => set_vs_inodes (<[i := f (oinode_at i s)]> (vs_inodes s)) s
                | None => s
                end).
Definition update_dentry (f : ovl_dentry → ovl_dentry) (dentry : Z) : V W unit :=
  vupdate (λ s, set_vs_dentries (<[dentry := f (odentry_at dentry s)]> (vs_dentries s)) s).

Definition set_impure_flag (i : ovl_inode) : ovl_inode :=
  OvlInode (oi_upperdentry i) (oi_lowerpath i) (oi_lowerdata i) (oi_redirect i) (oi_version i) (oi_is_reg i)
    true (OVL_WHITEOUTS i) (OVL_INDEX i) (OVL_UPPERDATA i) (OVL_CONST_INO i).

Definition ovl_set_impure (dentry upperdentry : Z) : V W Z :=
  let? impure := vget (test_inode OVL_IMPURE dentry) in
  if impure : bool then vret 0
  else
    let? err := ovl_check_setxattr upperdentry OVL_XATTR_IMPURE (lit "y") 0 in
    if err =? 0 then update_inode set_impure_flag dentry ;;? vret 0 else vret err.

(** inode.c: is the directory the root of a layer or a work directory? *)
Definition ovl_lookup_trap_inode (dir : Z) : V W bool :=
  let? ofs := get_fs in
  let? d := dentry_at dir in
  vret (match de_inode d with Some i => bool_decide (i_addr i ∈ ofs_traps ofs) | None => false end).

Definition ovl_need_index (dentry : Z) : V W bool :=
  let? lower := vget (ovl_dentry_lower dentry) in
  let? indexdir := ovl_indexdir in
  match lower, indexdir with
  | Some lower, Some _ =>
    let? all := ovl_index_all in
    if all : bool then vret true
    else
      let? i := dentry_at lower in
      vret (negb (d_is_dir i) && match de_inode i with Some n => 1 <? i_nlink n | None => false end)
  | _, _ => vret false
  end.
End util.
