(* ===== verification/OvlHandle.v ===== *)
(** * Overlay file handles and the inodes index (namei.c, copy_up.c)

    A copied up file remembers the lower file it came from: its file handle,
    [struct ovl_fb], is stored in an extended attribute, and its hexadecimal
    form names the entry of the index directory.  The buffer [fh->buf] is a
    list of bytes; the three bytes of padding before it have no content. *)
From S2P Require Import Prelude CString OS OvlOptions OvlVfs.
Open Scope Z_scope.

(** ** The layout of [struct ovl_fb] *)

Definition OVL_FH_VERSION : Z := 0.
Definition OVL_FH_MAGIC : Z := 0xfb.
Definition OVL_FH_FLAG_BIG_ENDIAN : Z := 1.
Definition OVL_FH_FLAG_ANY_ENDIAN : Z := 2.
Definition OVL_FH_FLAG_PATH_UPPER : Z := 4.
Definition OVL_FH_FLAG_ALL : Z :=
  Z.lor (Z.lor OVL_FH_FLAG_BIG_ENDIAN OVL_FH_FLAG_ANY_ENDIAN) OVL_FH_FLAG_PATH_UPPER.
Definition OVL_FILEID_V0 : Z := 0xfb.
Definition OVL_FILEID_V1 : Z := 0xf8.
Definition OVL_FH_WIRE_OFFSET : Z := 3.
Definition sizeof_fb : Z := 21.
Definition FILEID_INVALID : Z := 0xff.
Definition MAX_HANDLE_SZ : Z := 128.

(** The byte at an offset, 0 beyond the content (the buffers are zeroed). *)
Definition byte_at (i : nat) (fb : list ascii) : Z := code (default NUL (fb !! i)).
Definition fb_version : list ascii → Z := byte_at 0.
Definition fb_magic : list ascii → Z := byte_at 1.
Definition fb_len : list ascii → Z := byte_at 2.
Definition fb_flags : list ascii → Z := byte_at 3.
Definition fb_type : list ascii → Z := byte_at 4.
Definition fb_uuid (fb : list ascii) : list ascii := take 16 (drop 5 fb).
Definition fb_fid (fb : list ascii) : list ascii := drop 21 fb.
Definition OVL_FH_LEN (fb : list ascii) : Z := OVL_FH_WIRE_OFFSET + fb_len fb.

Definition uuid_null : list ascii := replicate 16 NUL.

Section handles.
Context {W : Type} {K : Vfs W}.

Definition OVL_FH_FLAG_CPU_ENDIAN : Z := if cpu_big_endian then OVL_FH_FLAG_BIG_ENDIAN else 0.

(** ** Checking and decoding *)

Definition ovl_check_fb_len (fb : list ascii) (len : Z) : Z :=
  if (len <? sizeof_fb) || (len <? fb_len fb) then - EINVAL
  else if negb (fb_magic fb =? OVL_FH_MAGIC) then - EINVAL
  else if (OVL_FH_VERSION <? fb_version fb) || negb (Z.land (fb_flags fb) (Z.lnot OVL_FH_FLAG_ALL) =? 0)
  then - ENODATA
  else if (Z.land (fb_flags fb) OVL_FH_FLAG_ANY_ENDIAN =? 0) &&
          negb (Z.land (fb_flags fb) OVL_FH_FLAG_BIG_ENDIAN =? OVL_FH_FLAG_CPU_ENDIAN)
  then - ENODATA
  else 0.

Definition ovl_check_fh_len (fb : list ascii) (fh_len : Z) : Z :=
  if fh_len <? OVL_FH_WIRE_OFFSET + sizeof_fb then - EINVAL
  else ovl_check_fb_len fb (fh_len - OVL_FH_WIRE_OFFSET).

Definition vkmalloc : V W unit :=
  let? ok := (λ s, let '(b, w) := kmalloc (vs_world s) in (inr b, set_vs_world w s)) in
  if ok : bool then vret tt else vfail (- ENOMEM).

(** [None] is NULL: no handle stored, or none that is understood. *)
Definition ovl_get_fh (dentry : Z) (ox : ovl_xattr) : V W (option (list ascii)) :=
  let? r := ovl_getxattr dentry ox in
  match r with
  | inl _ => vret None
  | inr value =>
    if negb (nonempty value) then vret None
    else
      vkmalloc ;;?
      let err := ovl_check_fb_len value (Z.of_nat (length value)) in
      if err <? 0 then vret None else vret (Some value)
  end.

(** [None] is NULL; an error pointer is an error. *)
Definition ovl_decode_real_fh (fb : list ascii) (mnt : Z) (connected : bool) : V W (option Z) :=
  let? capable := vread capable_read_search in
  if negb capable then vret None
  else
    let? c := get_config in
    let? sb := vread (λ w, sb_of w mnt) in
    if negb (bool_decide (fb_uuid fb = if c_uuid c then s_uuid sb else uuid_null)) then vret None
    else
      let bytes := fb_len fb - sizeof_fb in
      let? real := vread (λ w, exportfs_decode_fh w mnt (fb_fid fb) (Z.shiftr bytes 2) (fb_type fb) connected) in
      match real with
      | inl e =>
        if (e =? - ESTALE) && (Z.land (fb_flags fb) OVL_FH_FLAG_PATH_UPPER =? 0) then vret None else vfail e
      | inr real =>
        let? i := dentry_at real in
        vret (if ovl_dentry_weird i then None else Some real)
      end.

(** The callback for [exportfs_decode_fh]. *)
Definition ovl_acceptable (w : W) (mnt dentry : Z) : bool :=
  let d := dentry_of w dentry in
  if negb (d_is_dir d) then true
  else if de_unhashed d then false
  else is_subdir w dentry mnt.

(** ** Encoding *)

Definition fb_bytes (version magic len flags type : Z) (uuid fid : list ascii) : list ascii :=
  [byte_of version; byte_of magic; byte_of len; byte_of flags; byte_of type] ++ uuid ++ fid.

Definition ovl_encode_real_fh (real : Z) (is_upper : bool) : V W (list ascii) :=
  vkmalloc ;;?
  let? sb := vread (λ w, sb_of w real) in
  let? f := vread (λ w, exportfs_encode_fh w real) in
  let fh_type := fid_type f in
  let buflen := Z.shiftl (fid_dwords f) 2 in
  let? bad := warn_on ((fh_type <? 0) || (MAX_HANDLE_SZ <? buflen) || (fh_type =? FILEID_INVALID)) in
  if bad : bool then vfail (- EIO)
  else
    let? c := get_config in
    let flags := if is_upper then Z.lor OVL_FH_FLAG_CPU_ENDIAN OVL_FH_FLAG_PATH_UPPER else OVL_FH_FLAG_CPU_ENDIAN in
    vret (fb_bytes OVL_FH_VERSION OVL_FH_MAGIC (sizeof_fb + buflen) flags fh_type
            (if c_uuid c then s_uuid sb else uuid_null) (take (Z.to_nat buflen) (fid_bytes f))).

(** ** Verifying *)

Definition ovl_verify_fh (dentry : Z) (ox : ovl_xattr) (fb : list ascii) : V W Z :=
  let? ofh := ovl_get_fh dentry ox in
  match ofh with
  | None => vret (- ENODATA)
  | Some ofb =>
    let n := Z.to_nat (fb_len fb) in
    vret (if negb (fb_len fb =? fb_len ofb) || negb (bool_decide (take n fb = take n ofb)) then - ESTALE else 0)
  end.

Definition ovl_verify_set_fh (dentry : Z) (ox : ovl_xattr) (real : Z) (is_upper set : bool) : V W Z :=
  let? fh := vcatch (ovl_encode_real_fh real is_upper) in
  match fh with
  | inl e => vret e
  | inr fb =>
    let? err := vcatch (ovl_verify_fh dentry ox fb) in
    let err := match err with inl e => e | inr e => e end in
    if set && (err =? - ENODATA) then ovl_setxattr dentry ox (take (Z.to_nat (fb_len fb)) fb) else vret err
  end.

Definition ovl_verify_origin (upper origin : Z) (set : bool) : V W Z :=
  ovl_verify_set_fh upper OVL_XATTR_ORIGIN origin false set.
Definition ovl_verify_upper (index upper : Z) (set : bool) : V W Z :=
  ovl_verify_set_fh index OVL_XATTR_UPPER upper true set.

(** A null handle says "copied up, origin unknown". *)
Definition ovl_set_origin (lower upper : Z) : V W Z :=
  let? sb := vread (λ w, sb_of w lower) in
  let? can := vread (λ w, ovl_can_decode_fh w sb) in
  let? value :=
    (if can =? 0 then vret []
     else let? fb := ovl_encode_real_fh lower false in vret (take (Z.to_nat (fb_len fb)) fb)) in
  let? err := ovl_check_setxattr upper OVL_XATTR_ORIGIN value 0 in
  vret (if err =? - EPERM then 0 else err).

(** ** The origin of a copied up file *)

Definition origin_wrong_type (upperdentry origin : dentry_info) : bool :=
  negb (ovl_is_whiteout upperdentry) &&
  match de_inode upperdentry, de_inode origin with
  | Some a, Some b => negb (bool_decide (i_fmt a = i_fmt b))
  | _, _ => false
  end.

(** The loop over the layers: the first one in which the handle decodes. *)
Fixpoint decode_in_layers (fb : list ascii) (connected : bool) (layers : list ovl_layer)
    : V W (option ovl_path) :=
  match layers with
  | [] => vret None
  | l :: layers' =>
    if negb (l_fsid l =? 0) && l_bad_uuid l then decode_in_layers fb connected layers'
    else
      let? origin := ovl_decode_real_fh fb (l_mnt l) connected in
      match origin with
      | Some d => vret (Some (OvlPath l d))
      | None => decode_in_layers fb connected layers'
      end
  end.

(** [alloc]: the caller gives no memory for the result ([*stackp] is NULL). *)
Definition ovl_check_origin_fh (fb : list ascii) (connected : bool) (upperdentry : option Z) (alloc : bool)
    : V W ovl_path :=
  let? ofs := get_fs in
  let? origin := decode_in_layers fb connected (ofs_lowers ofs) in
  match origin with
  | None => vfail (- ESTALE)
  | Some p =>
    let? o := dentry_at (p_dentry p) in
    let? wrong :=
      match upperdentry with
      | None => vret false
      | Some u => let? i := dentry_at u in vret (origin_wrong_type i o)
      end in
    if wrong : bool then vfail (- ESTALE)
    else (if alloc then vkmalloc else vret tt) ;;? vret p
  end.

Definition ovl_check_origin (upperdentry : Z) : V W (option ovl_path) :=
  let? fh := ovl_get_fh upperdentry OVL_XATTR_ORIGIN in
  match fh with
  | None => vret None
  | Some fb =>
    let? r := vcatch (ovl_check_origin_fh fb false (Some upperdentry) true) in
    match r with
    | inr p => vret (Some p)
    | inl e => if e =? - ESTALE then vret None else vfail e
    end
  end.

(** ** Link counts in the index (inode.c) *)

(** [snprintf(buf, 13, "U%+i", ...)]. *)
Definition nlink_text (c : ascii) (diff : Z) : cstr :=
  c :: (if diff <? 0 then dec diff else "+"%char :: dec diff).

Definition ovl_set_nlink_common (upper : Z) (inode_nlink : Z) (realdentry : Z) (c : ascii) : V W Z :=
  let? i := dentry_at realdentry in
  let buf := nlink_text c (to_int32 (inode_nlink - match de_inode i with Some n => i_nlink n | None => 0 end)) in
  let? long := warn_on (13 <=? slen buf) in
  if long : bool then vret (- EIO) else ovl_setxattr upper OVL_XATTR_NLINK buf.

(** At most 12 bytes of the value are read; a longer one is [-ERANGE]. *)
Definition ovl_get_nlink (lowerdentry upperdentry : option Z) (fallback : Z) : V W Z :=
  match lowerdentry, upperdentry with
  | Some lower, Some upper =>
    let? l := dentry_at lower in
    let? u := dentry_at upper in
    match de_inode l, de_inode u with
    | Some li, Some ui =>
      if i_nlink li =? 1 then vret fallback
      else
        let? r := ovl_getxattr upper OVL_XATTR_NLINK in
        match r with
        | inl _ => vret fallback
        | inr value =>
          if 12 <? Z.of_nat (length value) then vret fallback
          else
            match c_str value with
            | c :: sign :: digits =>
              if negb (char_eqb c "L" || char_eqb c "U") || negb (char_eqb sign "+" || char_eqb sign "-")
              then vret fallback
              else
                match kstrtoint (sign :: digits) with
                | None => vret fallback
                | Some nlink_diff =>
                  let nlink := to_int32 (i_nlink (if char_eqb c "L" then li else ui) + nlink_diff) in
                  vret (if nlink <=? 0 then fallback else to_uint32 nlink)
                end
            | _ => vret fallback
            end
        end
    | _, _ => vret fallback
    end
  | _, _ => vret fallback
  end.

(** ** The index directory *)

Definition ovl_get_index_name_fh (fb : list ascii) : V W cstr :=
  vkmalloc ;;? vret (bin2hex (take (Z.to_nat (fb_len fb)) fb)).

Definition ovl_get_index_name (origin : Z) : V W cstr :=
  let? fb := ovl_encode_real_fh origin false in ovl_get_index_name_fh fb.

(** The upper file of an index entry: the entry itself, or the directory that
    its "upper" attribute names; [None] is NULL. *)
Definition ovl_index_upper (index : Z) : V W (option Z) :=
  let? i := dentry_at index in
  if negb (d_is_dir i) then vret (Some index)
  else
    let? fh := ovl_get_fh index OVL_XATTR_UPPER in
    match fh with
    | None => vret None
    | Some fb =>
      let? mnt := ovl_upper_mnt in
      let? upper := ovl_decode_real_fh fb (default 0 mnt) true in
      match upper with
      | None => vfail (- ESTALE)
      | Some u =>
        let? ui := dentry_at u in
        if negb (d_is_dir ui) then vfail (- EIO) else vret (Some u)
      end
    end.

(** The result: 0, [-ENOENT] for an orphan, [-ESTALE], or an error. *)
Definition ovl_verify_index (index : Z) : V W Z :=
  let? i := dentry_at index in
  match de_inode i with
  | None => vret 0
  | Some inode =>
    if Z.of_nat (length (de_name i)) <? sizeof_fb * 2 then vret (- EINVAL)
    else
      let len := Z.of_nat (length (de_name i)) / 2 in
      let? ok := vcatch vkmalloc in
      match ok with
      | inl e => vret e
      | inr _ =>
        match hex2bin (take (Z.to_nat (2 * len)) (de_name i)) with
        | None => vret (- EINVAL)
        | Some fb =>
          let err := ovl_check_fb_len fb len in
          if negb (err =? 0) then vret err
          else if ovl_is_whiteout i then vret 0
          else
            let? c := get_config in
            if d_is_dir i && negb (c_nfs_export c) then vret 0
            else
              let? upper := vcatch (ovl_index_upper index) in
              match upper with
              | inl e => vret (if e =? - ESTALE then - ENOENT else e)
              | inr None => vret (- ESTALE)
              | inr (Some upper) =>
                let? err := vcatch (ovl_verify_fh upper OVL_XATTR_ORIGIN fb) in
                let err := match err with inl e => e | inr e => e end in
                if negb (err =? 0) then vret err
                else if negb (d_is_dir i) && (i_nlink inode =? 1) then
                  let? origin := vcatch (ovl_check_origin_fh fb false (Some index) false) in
                  match origin with
                  | inl e => vret e
                  | inr p =>
                    let? nlink := ovl_get_nlink (Some (p_dentry p)) (Some index) 0 in
                    vret (if nlink =? 0 then - ENOENT else 0)
                  end
                else vret 0
              end
        end
      end
  end.

(** [None] is NULL: not indexed. *)
Definition ovl_get_index_fh (fb : list ascii) : V W (option Z) :=
  let? name := ovl_get_index_name_fh fb in
  let? indexdir := ovl_indexdir in
  let? index := lookup_positive name (default 0 indexdir) in
  match index with
  | inl e => if e =? - ENOENT then vret None else vfail e
  | inr index =>
    let? i := dentry_at index in
    if ovl_is_whiteout i then vfail (- ESTALE)
    else if ovl_dentry_weird i then vfail (- EIO)
    else vret (Some index)
  end.

Definition same_inode (a b : dentry_info) : bool :=
  match de_inode a, de_inode b with
  | Some i, Some j => i_addr i =? i_addr j
  | None, None => true
  | _, _ => false
  end.
Definition inode_wrong_type (a b : dentry_info) : bool :=
  match de_inode a, de_inode b with
  | Some i, Some j => negb (bool_decide (i_fmt i = i_fmt j))
  | _, _ => false
  end.

Definition ovl_lookup_index (upper : option Z) (origin : Z) (verify : bool) : V W (option Z) :=
  let? o := dentry_at origin in
  let? name := ovl_get_index_name origin in
  let? indexdir := ovl_indexdir in
  let? index := lookup_positive name (default 0 indexdir) in
  match index with
  | inl e => if e =? - ENOENT then vret None else vfail e
  | inr index =>
    let? i := dentry_at index in
    if ovl_is_whiteout i && negb verify then vfail (- ESTALE)
    else if ovl_dentry_weird i || ovl_is_whiteout i || inode_wrong_type i o then vfail (- EIO)
    else if d_is_dir o && verify then
      match upper with
      | None => vfail (- EIO)
      | Some u =>
        let? err := ovl_verify_upper index u false in
        if negb (err =? 0) then vfail (- EIO) else vret (Some index)
      end
    else
      match upper with
      | Some u => let? ui := dentry_at u in vret (if same_inode ui i then Some index else None)
      | None => vret (Some index)
      end
  end.
End handles.

(** * Lemmas *)

(** What the code relies on of the file systems below and of the library. *)
Class ExportLaws {W} (K : Vfs W) : Prop := {
  uuid_length w d : length (s_uuid (sb_of w d)) = 16%nat;
  encode_length w d :
    let f := exportfs_encode_fh w d in
    0 <= fid_type f < FILEID_INVALID → 0 <= fid_dwords f ∧ Z.of_nat (length (fid_bytes f)) = 4 * fid_dwords f;
  decode_encode w mnt d connected :
    let f := exportfs_encode_fh w d in
    0 <= fid_type f < FILEID_INVALID → sb_of w mnt = sb_of w d →
    (connected = true → ovl_acceptable w mnt d = true) →
    exportfs_decode_fh w mnt (fid_bytes f) (fid_dwords f) (fid_type f) connected = inr d;
  encode_type w d : fid_type (exportfs_encode_fh w d) <= FILEID_INVALID;
  hex_roundtrip b : hex2bin (bin2hex b) = Some b;
  hex_length b : length (bin2hex b) = (2 * length b)%nat
}.

(** Worlds in which everything that the module reads is the same. *)
Record same_files {W} (K : Vfs W) (w w' : W) : Prop := {
  same_dentry d : dentry_of w' d = dentry_of w d;
  same_sb d : sb_of w' d = sb_of w d;
  same_lookup d n : lookup_one w' d n = lookup_one w d n;
  same_xattr d n : getxattr w' d n = getxattr w d n;
  same_capable : capable_read_search w' = capable_read_search w;
  same_subdir a b : is_subdir w' a b = is_subdir w a b;
  same_encode d : exportfs_encode_fh w' d = exportfs_encode_fh w d;
  same_decode m b n t c : exportfs_decode_fh w' m b n t c = exportfs_decode_fh w m b n t c;
  same_open d : open_dir w' d = open_dir w d;
  same_batches d : dir_batches w' d = dir_batches w d
}.

(** Allocating and locking change no file; setting an attribute changes that attribute. *)
Class WriteLaws {W} (K : Vfs W) : Prop := {
  kmalloc_files w : same_files K w (snd (kmalloc w));
  down_write_files w d : same_files K w (snd (down_write_killable w d));
  setxattr_get w d n v w' : vfs_setxattr w d n v = (0, w') → getxattr w' d n = inr v;
  setxattr_encode w d n v w' e r : vfs_setxattr w d n v = (e, w') → exportfs_encode_fh w' r = exportfs_encode_fh w r;
  setxattr_sb w d n v w' e r : vfs_setxattr w d n v = (e, w') → sb_of w' r = sb_of w r
}.

Section layout.

Lemma fb_fields version magic len flags type uuid fid :
  length uuid = 16%nat →
  let fb := fb_bytes version magic len flags type uuid fid in
  fb_version fb = version mod 256 ∧ fb_magic fb = magic mod 256 ∧ fb_len fb = len mod 256 ∧
  fb_flags fb = flags mod 256 ∧ fb_type fb = type mod 256 ∧ fb_uuid fb = uuid ∧ fb_fid fb = fid ∧
  length fb = (21 + length fid)%nat.
Proof.
  intros Hu fb. unfold fb, fb_bytes, fb_version, fb_magic, fb_len, fb_flags, fb_type, byte_at, fb_uuid, fb_fid.
  cbn [app lookup list_lookup from_option id]. rewrite !code_byte_of. do 5 (split; [done|]).
  change (drop 5 _) with (uuid ++ fid). change (drop 21 (?a :: ?b :: ?c :: ?d :: ?e :: ?l)) with (drop 16 l).
  split; [by rewrite take_app_length' by done|].
  split; [by rewrite drop_app_length' by done|]. cbn [length]. rewrite length_app. lia.
Qed.
End layout.

Section lemmas.
Context {W : Type} {K : Vfs W} {L : ExportLaws K}.
Implicit Types s : vstate W.

Definition encode_flags (is_upper : bool) : Z :=
  if is_upper then Z.lor OVL_FH_FLAG_CPU_ENDIAN OVL_FH_FLAG_PATH_UPPER else OVL_FH_FLAG_CPU_ENDIAN.

(** The handle that a successful encoding gives, and that it only takes memory. *)
Lemma ovl_encode_real_fh_inv real is_upper s fb s' :
  ovl_encode_real_fh real is_upper s = (inr fb, s') →
  let w := vs_world s' in
  let f := exportfs_encode_fh w real in
  s' = set_vs_world (snd (kmalloc (vs_world s))) s ∧ 0 <= fid_type f < FILEID_INVALID ∧
  4 * fid_dwords f <= MAX_HANDLE_SZ ∧
  fb = fb_bytes OVL_FH_VERSION OVL_FH_MAGIC (sizeof_fb + 4 * fid_dwords f) (encode_flags is_upper) (fid_type f)
    (if c_uuid (ofs_config (vs_fs s)) then s_uuid (sb_of w real) else uuid_null) (fid_bytes f).
Proof.
  unfold ovl_encode_real_fh, vkmalloc, vbind, vread, vget, get_config, warn_on, vret, vfail, vs_world.
  destruct s as [w ofs root ds ins wr]. cbn. destruct (kmalloc w) as [ok w']; destruct ok; cbn; [|done].
  set (f := exportfs_encode_fh w' real). fold (encode_flags is_upper).
  destruct (_ || _) eqn:E; cbn; [done|]. intros [= <- <-]. cbn. fold f. to_prop.
  pose proof (encode_type w' real) as Ht. fold f in Ht. unfold FILEID_INVALID in *.
  assert (Hr : 0 <= fid_type f < FILEID_INVALID) by (unfold FILEID_INVALID; lia).
  destruct (encode_length w' real Hr) as [Hd Hl]. fold f in Hd, Hl.
  rewrite Z.shiftl_mul_pow2 in * by lia. change (2 ^ 2) with 4 in *.
  split; [done|]. split; [lia|]. split; [lia|]. unfold vbind, vget, vret. cbn.
  rewrite (Z.mul_comm _ 4). rewrite take_ge by lia. done.
Qed.

Lemma cpu_endian_cases : OVL_FH_FLAG_CPU_ENDIAN = 0 ∨ OVL_FH_FLAG_CPU_ENDIAN = OVL_FH_FLAG_BIG_ENDIAN.
Proof. unfold OVL_FH_FLAG_CPU_ENDIAN. destruct cpu_big_endian; auto. Qed.

Lemma encode_flags_byte is_upper : encode_flags is_upper mod 256 = encode_flags is_upper.
Proof. unfold encode_flags. by destruct cpu_endian_cases as [->| ->], is_upper. Qed.

(** The flags of an encoded handle are known, of this byte order, and say
    whether the file is an upper one. *)
Lemma encode_flags_ok is_upper :
  Z.land (encode_flags is_upper) (Z.lnot OVL_FH_FLAG_ALL) = 0 ∧
  Z.land (encode_flags is_upper) OVL_FH_FLAG_BIG_ENDIAN = OVL_FH_FLAG_CPU_ENDIAN ∧
  negb (Z.land (encode_flags is_upper) OVL_FH_FLAG_PATH_UPPER =? 0) = is_upper.
Proof. unfold encode_flags. by destruct cpu_endian_cases as [->| ->], is_upper. Qed.

Lemma encoded_uuid_length (b : bool) w d : length (if b then s_uuid (sb_of w d) else uuid_null) = 16%nat.
Proof. destruct b; [apply uuid_length|done]. Qed.

Record encoded (fb : list ascii) (real : Z) (is_upper : bool) (s' : vstate W) : Prop := {
  enc_check : ovl_check_fb_len fb (Z.of_nat (length fb)) = 0;
  enc_len : fb_len fb = Z.of_nat (length fb);
  enc_min : sizeof_fb <= Z.of_nat (length fb) <= sizeof_fb + MAX_HANDLE_SZ;
  enc_upper : negb (Z.land (fb_flags fb) OVL_FH_FLAG_PATH_UPPER =? 0) = is_upper;
  enc_decode : ∀ mnt connected,
    capable_read_search (vs_world s') = true → sb_of (vs_world s') mnt = sb_of (vs_world s') real →
    (connected = true → ovl_acceptable (vs_world s') mnt real = true) →
    ovl_dentry_weird (dentry_of (vs_world s') real) = false →
    ovl_decode_real_fh fb mnt connected s' = (inr (Some real), s')
}.

(** The handle is known in every state in which the file has it. *)
Lemma handle_encoded real (is_upper : bool) fb s' :
  let w := vs_world s' in
  let f := exportfs_encode_fh w real in
  0 <= fid_type f < FILEID_INVALID → 4 * fid_dwords f <= MAX_HANDLE_SZ →
  fb = fb_bytes OVL_FH_VERSION OVL_FH_MAGIC (sizeof_fb + 4 * fid_dwords f) (encode_flags is_upper) (fid_type f)
    (if c_uuid (ofs_config (vs_fs s')) then s_uuid (sb_of w real) else uuid_null) (fid_bytes f) →
  encoded fb real is_upper s'.
Proof.
  intros w f Ht Hb Hfb.
  destruct (encode_length w real Ht) as [Hd Hl]. fold f in Hd, Hl.
  set (uuid := if c_uuid _ then _ else _) in Hfb.
  assert (Hu : length uuid = 16%nat) by apply encoded_uuid_length.
  destruct (fb_fields OVL_FH_VERSION OVL_FH_MAGIC (sizeof_fb + 4 * fid_dwords f) (encode_flags is_upper)
    (fid_type f) uuid (fid_bytes f) Hu) as (F1 & F2 & F3 & F4 & F5 & F6 & F7 & F8). rewrite <-Hfb in *.
  unfold MAX_HANDLE_SZ, FILEID_INVALID, sizeof_fb in *.
  rewrite Z.mod_small in F3 by lia. rewrite encode_flags_byte in F4. rewrite Z.mod_small in F5 by lia.
  destruct (encode_flags_ok is_upper) as (G1 & G2 & G3).
  split.
  - unfold ovl_check_fb_len. rewrite F1, F2, F3, F4, G1, G2.
    change (OVL_FH_MAGIC mod 256) with OVL_FH_MAGIC. change (OVL_FH_VERSION mod 256) with OVL_FH_VERSION.
    rewrite !Z.eqb_refl, andb_false_r. cbn [negb orb].
    rewrite (proj2 (Z.ltb_ge _ _)), (proj2 (Z.ltb_ge _ _)) by (unfold sizeof_fb; lia). done.
  - lia.
  - unfold sizeof_fb, MAX_HANDLE_SZ. lia.
  - by rewrite F4.
  - intros mnt connected Hc Hsb Ha Hw.
    unfold ovl_decode_real_fh, vbind, vread, vget, get_config, vret, dentry_at, vread, vget, vret.
    cbv beta iota zeta. fold w in Hc, Hsb, Ha, Hw |- *. rewrite Hc. cbn [negb]. fold w.
    rewrite bool_decide_eq_true_2 by (rewrite F6, Hsb; done). cbn [negb]. fold w.
    rewrite F3, F5, F7. unfold sizeof_fb.
    rewrite Z.shiftr_div_pow2 by lia. change (2 ^ 2) with 4.
    replace ((21 + 4 * fid_dwords f - 21) / 4) with (fid_dwords f)
      by (replace (21 + 4 * fid_dwords f - 21) with (fid_dwords f * 4) by lia; by rewrite Z.div_mul).
    pose proof (decode_encode w mnt real connected Ht Hsb Ha) as Hdec. cbn in Hdec. fold f in Hdec.
    rewrite Hdec. fold w. by rewrite Hw.
Qed.

Lemma ovl_encode_real_fh_encoded real is_upper s fb s' :
  ovl_encode_real_fh real is_upper s = (inr fb, s') → encoded fb real is_upper s'.
Proof.
  intros He. destruct (ovl_encode_real_fh_inv _ _ _ _ _ He) as (Hs & Ht & Hb & Hfb).
  apply handle_encoded; [done|done|]. rewrite Hfb. by rewrite Hs.
Qed.

(** an encoded handle is accepted by the check of its length and fields, says
    truly whether the file is an upper one, and decodes to the file on every
    mount of the same file system. *)
Theorem ovl_fh_roundtrip real is_upper s fb s' :
  ovl_encode_real_fh real is_upper s = (inr fb, s') → encoded fb real is_upper s'.
Proof. apply ovl_encode_real_fh_encoded. Qed.

(** The name of an index entry is long enough, reads back as the handle of
    the lower file, and so leads to that file again. *)
Theorem ovl_index_name_roundtrip origin s name s' :
  ovl_get_index_name origin s = (inr name, s') →
  ∃ fb s1, encoded fb origin false s1 ∧
    sizeof_fb * 2 <= Z.of_nat (length name) ∧
    let len := Z.of_nat (length name) / 2 in
    hex2bin (take (Z.to_nat (2 * len)) name) = Some fb ∧ ovl_check_fb_len fb len = 0.
Proof.
  unfold ovl_get_index_name, vbind. destruct (ovl_encode_real_fh origin false s) as [[|fb] s1] eqn:E; [done|].
  apply ovl_encode_real_fh_encoded in E. destruct E as [E1 E2 E3 E4 E5].
  unfold ovl_get_index_name_fh, vkmalloc, vbind, vret, vfail.
  destruct (kmalloc (vs_world s1)) as [ok w1]. destruct ok; cbn; [|done]. intros [= <- <-].
  rewrite E2. rewrite take_ge by lia. exists fb, s1.
  assert (Hlen : Z.of_nat (length (bin2hex fb)) = Z.of_nat (length fb) * 2) by (rewrite hex_length; lia).
  rewrite Hlen, Z.div_mul by lia.
  split; [by split|]. split; [unfold sizeof_fb in *; lia|].
  rewrite take_ge by lia. split; [apply hex_roundtrip|done].
Qed.

Context {WL : WriteLaws K}.

(** The handle of a file as a function of what can be read of it. *)
Definition handle_of (c : ovl_config) (w : W) (real : Z) (is_upper : bool) : list ascii :=
  let f := exportfs_encode_fh w real in
  fb_bytes OVL_FH_VERSION OVL_FH_MAGIC (sizeof_fb + 4 * fid_dwords f) (encode_flags is_upper) (fid_type f)
    (if c_uuid c then s_uuid (sb_of w real) else uuid_null) (fid_bytes f).

#[local] Arguments handle_of : simpl never.

Definition valid_fid (w : W) (d : Z) : Prop :=
  0 <= fid_type (exportfs_encode_fh w d) < FILEID_INVALID ∧ 4 * fid_dwords (exportfs_encode_fh w d) <= MAX_HANDLE_SZ.

Definition config_of (s : vstate W) : ovl_config := ofs_config (vs_fs s).

Lemma ovl_encode_real_fh_cases real is_upper s :
  let s' := set_vs_world (snd (kmalloc (vs_world s))) s in
  (ovl_encode_real_fh real is_upper s = (inl (- ENOMEM), s')) ∨
  (ovl_encode_real_fh real is_upper s = (inl (- EIO), set_vs_warned s')) ∨
  (ovl_encode_real_fh real is_upper s = (inr (handle_of (config_of s) (vs_world s) real is_upper), s') ∧
   valid_fid (vs_world s) real).
Proof.
  intros s'. destruct (ovl_encode_real_fh real is_upper s) as [[e|fb] s1] eqn:E.
  - revert E. unfold ovl_encode_real_fh, vkmalloc, vbind, vread, vget, get_config, warn_on, vret, vfail.
    destruct (kmalloc (vs_world s)) as [ok w1] eqn:Em; destruct ok; cbn; subst s'; rewrite ?Em; cbn.
    + destruct (_ || _); cbn; [|done]. intros [= <- <-]. auto.
    + intros [= <- <-]. auto.
  - right; right. destruct (ovl_encode_real_fh_inv _ _ _ _ _ E) as (Hs & Ht & Hb & Hfb).
    pose proof (kmalloc_files (vs_world s)) as Hk.
    assert (fb = handle_of (config_of s) (vs_world s) real is_upper) as <-.
    { rewrite Hfb, Hs. unfold handle_of, config_of. cbn. by rewrite (same_encode _ _ _ Hk), (same_sb _ _ _ Hk). }
    split; [by rewrite Hs|]. rewrite Hs in Ht, Hb. cbn in Ht, Hb. rewrite (same_encode _ _ _ Hk) in Ht, Hb. by split.
Qed.

Lemma handle_of_fields c w a ua :
  valid_fid w a →
  let f := exportfs_encode_fh w a in let fb := handle_of c w a ua in
  fb_len fb = Z.of_nat (length fb) ∧ fb_len fb = sizeof_fb + 4 * fid_dwords f ∧ fb_type fb = fid_type f ∧
  fb_fid fb = fid_bytes f ∧ ovl_check_fb_len fb (Z.of_nat (length fb)) = 0.
Proof.
  intros [Ht Hb] f fb. destruct (encode_length w a Ht) as [Hd Hl]. fold f in Ht, Hb, Hd, Hl.
  set (uuid := if c_uuid c then s_uuid (sb_of w a) else uuid_null).
  destruct (fb_fields OVL_FH_VERSION OVL_FH_MAGIC (sizeof_fb + 4 * fid_dwords f) (encode_flags ua)
    (fid_type f) uuid (fid_bytes f) (encoded_uuid_length _ _ _)) as (F1 & F2 & F3 & F4 & F5 & F6 & F7 & F8).
  change (fb_bytes _ _ _ _ _ _ _) with fb in *. unfold MAX_HANDLE_SZ, FILEID_INVALID, sizeof_fb in *.
  rewrite Z.mod_small in F3 by lia. rewrite encode_flags_byte in F4. rewrite Z.mod_small in F5 by lia.
  destruct (encode_flags_ok ua) as (G1 & G2 & G3).
  split; [lia|]. split; [done|]. split; [done|]. split; [done|].
  unfold ovl_check_fb_len. rewrite F1, F2, F3, F4, G1, G2.
  change (OVL_FH_MAGIC mod 256) with OVL_FH_MAGIC. change (OVL_FH_VERSION mod 256) with OVL_FH_VERSION.
  rewrite !Z.eqb_refl, andb_false_r. cbn [negb orb].
  by rewrite (proj2 (Z.ltb_ge _ _)), (proj2 (Z.ltb_ge _ _)) by (unfold sizeof_fb; lia).
Qed.

(** Two files of one file system have the same handle only if they are the
    same file. *)
Lemma handle_of_inj c w a b ua ub :
  valid_fid w a → valid_fid w b → sb_of w a = sb_of w b → handle_of c w a ua = handle_of c w b ub → a = b.
Proof.
  intros Ha Hb Hsb Heq.
  destruct (handle_of_fields c w a ua Ha) as (_ & A1 & A2 & A3 & _).
  destruct (handle_of_fields c w b ub Hb) as (_ & B1 & B2 & B3 & _).
  pose proof (decode_encode w a a false (proj1 Ha) eq_refl ltac:(done)) as Da.
  pose proof (decode_encode w a b false (proj1 Hb) Hsb ltac:(done)) as Db. cbn in Da, Db.
  rewrite <-A2, <-A3, Heq, B2, B3 in Da.
  replace (fid_dwords (exportfs_encode_fh w a)) with (fid_dwords (exportfs_encode_fh w b)) in Da
    by (rewrite Heq in A1; lia).
  congruence.
Qed.

(** What is compared with a handle: the stored attribute. *)
Definition stored (w : W) (c : ovl_config) (dentry : Z) (ox : ovl_xattr) : res (list ascii) :=
  getxattr w dentry (ovl_xattr_table ox (c_userxattr c)).

Definition verify_stored (v : res (list ascii)) (fb : list ascii) : Z :=
  match v with
  | inl _ => - ENODATA
  | inr ofb =>
    if negb (nonempty ofb) then - ENODATA
    else if ovl_check_fb_len ofb (Z.of_nat (length ofb)) <? 0 then - ENODATA
    else let n := Z.to_nat (fb_len fb) in
         if negb (fb_len fb =? fb_len ofb) || negb (bool_decide (take n fb = take n ofb)) then - ESTALE else 0
  end.

Lemma ovl_verify_fh_cases dentry ox fb s :
  ∃ s', (ovl_verify_fh dentry ox fb s = (inr (verify_stored (stored (vs_world s) (config_of s) dentry ox) fb), s') ∨
         ovl_verify_fh dentry ox fb s = (inl (- ENOMEM), s')) ∧
    same_files K (vs_world s) (vs_world s') ∧ config_of s' = config_of s.
Proof.
  unfold ovl_verify_fh, ovl_get_fh, ovl_getxattr, vkmalloc, vbind, vread, vget, get_config, vret, vfail, stored,
    verify_stored, config_of. cbn.
  assert (Hrefl : ∀ w, same_files K w w) by (by split).
  destruct (getxattr _ _ _) as [e|v]; cbn; [eauto|].
  destruct (nonempty v); cbn; [|eauto].
  pose proof (kmalloc_files (vs_world s)) as Hk.
  destruct (kmalloc (vs_world s)) as [ok w1]; destruct ok; cbn in *; [|eauto].
  destruct (_ <? 0); cbn; eauto.
Qed.

Lemma verify_stored_self c w a ua ofb :
  valid_fid w a → verify_stored (inr ofb) (handle_of c w a ua) = 0 →
  ∀ b ub, valid_fid w b →
    verify_stored (inr ofb) (handle_of c w b ub) =
      if bool_decide (handle_of c w b ub = handle_of c w a ua) then 0 else - ESTALE.
Proof.
  intros Ha H b ub Hb. unfold verify_stored in *.
  destruct (negb (nonempty ofb)); [done|]. destruct (_ <? 0); [done|].
  destruct (handle_of_fields c w a ua Ha) as (A1 & _). destruct (handle_of_fields c w b ub Hb) as (B1 & _).
  destruct (_ || _) eqn:E in H; [done|]. apply orb_false_iff in E as [El Et].
  apply negb_false_iff, Z.eqb_eq in El. apply negb_false_iff, bool_decide_eq_true_1 in Et.
  assert (Ea : handle_of c w a ua = take (Z.to_nat (fb_len ofb)) ofb).
  { rewrite <-El, <-Et, take_ge by lia. done. }
  destruct (decide (handle_of c w b ub = handle_of c w a ua)) as [Hab|Hab];
    [rewrite (bool_decide_eq_true_2 _ Hab)|rewrite (bool_decide_eq_false_2 _ Hab)].
  - rewrite Hab, El, Z.eqb_refl. rewrite <-El, Et. cbn. by rewrite bool_decide_eq_true_2.
  - destruct (Z.eqb_spec (fb_len (handle_of c w b ub)) (fb_len ofb)) as [Eb|]; [|done]. cbn.
    rewrite bool_decide_eq_false_2; [done|]. intros Hn. apply Hab.
    rewrite (take_ge (handle_of c w b ub)), Eb in Hn by lia. congruence.
Qed.

(** One verification: out of memory, an encoding that the kernel refuses, or
    the comparison with what is stored. *)
Lemma ovl_verify_set_fh_cases dentry ox real up s r s' :
  ovl_verify_set_fh dentry ox real up false s = (inr r, s') →
  r = - ENOMEM ∨ r = - EIO ∨
  (valid_fid (vs_world s) real ∧
   r = verify_stored (stored (vs_world s) (config_of s) dentry ox) (handle_of (config_of s) (vs_world s) real up)).
Proof.
  unfold ovl_verify_set_fh, vbind, vcatch, vret.
  destruct (ovl_encode_real_fh_cases real up s) as [->|[->|[-> Hv]]]; cbn; [intros [= <- _]; auto..|].
  set (s1 := set_vs_world _ s). set (fb := handle_of _ _ _ _).
  pose proof (kmalloc_files (vs_world s)) as Hk.
  destruct (ovl_verify_fh_cases dentry ox fb s1) as (s2 & [-> | ->] & _); cbn; intros [= <- _]; [|auto].
  right; right. split; [done|]. unfold s1, stored, config_of. cbn. by rewrite (same_xattr _ _ _ Hk).
Qed.

Lemma handle_of_same c w w' r u :
  exportfs_encode_fh w' r = exportfs_encode_fh w r → sb_of w' r = sb_of w r →
  handle_of c w' r u = handle_of c w r u ∧ (valid_fid w r → valid_fid w' r).
Proof. unfold handle_of, valid_fid. by intros -> ->. Qed.

(** What holds after a verification that may set the attribute. *)
Lemma ovl_verify_set_fh_stored dentry ox real up s s' :
  ovl_verify_set_fh dentry ox real up true s = (inr 0, s') →
  config_of s' = config_of s ∧ valid_fid (vs_world s') real ∧
  verify_stored (stored (vs_world s') (config_of s') dentry ox)
    (handle_of (config_of s') (vs_world s') real up) = 0.
Proof.
  unfold ovl_verify_set_fh, vbind, vcatch, vret.
  destruct (ovl_encode_real_fh_cases real up s) as [->|[->|[-> Hv]]]; cbn; [done..|].
  set (s1 := set_vs_world _ s). set (fb := handle_of _ _ _ _).
  pose proof (kmalloc_files (vs_world s)) as Hk.
  destruct (ovl_verify_fh_cases dentry ox fb s1) as (s2 & [-> | ->] & Hs & Hc); cbn; [|done].
  assert (Hs0 : ∀ d, exportfs_encode_fh (vs_world s2) d = exportfs_encode_fh (vs_world s) d ∧
    sb_of (vs_world s2) d = sb_of (vs_world s) d).
  { intros d. by rewrite (same_encode _ _ _ Hs), (same_sb _ _ _ Hs), (same_encode _ _ _ Hk), (same_sb _ _ _ Hk). }
  change (config_of s1) with (config_of s) in Hc.
  destruct (handle_of_fields (config_of s) (vs_world s) real up Hv) as (A1 & A2 & _ & _ & A5). fold fb in A1, A2, A5.
  destruct (encode_length _ _ (proj1 Hv)) as [Hd _].
  destruct (verify_stored _ fb =? - ENODATA) eqn:En.
  - unfold ovl_setxattr, vbind, vget, get_config, vcall. cbn.
    destruct (vfs_setxattr _ _ _ _) as [e w'] eqn:Ex. intros [= -> <-].
    change (config_of (set_vs_world w' s2)) with (config_of s2). rewrite Hc. cbn [vs_world set_vs_world].
    destruct (handle_of_same (config_of s) (vs_world s) w' real up) as [-> Hval];
      [rewrite (setxattr_encode _ _ _ _ _ _ _ Ex); apply Hs0|rewrite (setxattr_sb _ _ _ _ _ _ _ Ex); apply Hs0|].
    split; [done|]. split; [auto|]. fold fb.
    unfold stored. rewrite <-Hc. unfold config_of at 1. rewrite (setxattr_get _ _ _ _ _ Ex), take_ge by lia.
    unfold verify_stored. rewrite A5.
    assert (nonempty fb = true) as -> by (destruct fb; [cbn in A1; unfold sizeof_fb in *; lia|done]).
    cbn. rewrite Z.eqb_refl. cbn. by rewrite bool_decide_eq_true_2.
  - intros [= Hz <-]. rewrite Hc.
    destruct (handle_of_same (config_of s) (vs_world s) (vs_world s2) real up) as [-> Hval]; [apply Hs0..|].
    split; [done|]. split; [auto|]. fold fb. unfold stored in *. by rewrite (same_xattr _ _ _ Hs).
Qed.

(** once a directory has been verified against a file, or tied to it by the
    attribute that the verification set, verifying it against the same file
    succeeds, and verifying it against any other file of that file system
    reports [-ESTALE]; memory may run out, and the kernel may refuse to
    encode a file. *)
Theorem ovl_verify_set_fh_exclusive dentry ox real up s s' :
  ovl_verify_set_fh dentry ox real up true s = (inr 0, s') →
  (∀ r s'', ovl_verify_set_fh dentry ox real up false s' = (inr r, s'') → r ∈ [0; - ENOMEM; - EIO]) ∧
  (∀ other up' r s'', other ≠ real → sb_of (vs_world s') other = sb_of (vs_world s') real →
    ovl_verify_set_fh dentry ox other up' false s' = (inr r, s'') → r ∈ [- ESTALE; - ENOMEM; - EIO]).
Proof.
  intros H. destruct (ovl_verify_set_fh_stored _ _ _ _ _ _ H) as (Hc & Hv & Hst).
  split.
  - intros r s'' [->|[->|[_ ->]]]%ovl_verify_set_fh_cases; [set_solver..|]. rewrite Hst. set_solver.
  - intros other up' r s'' Hne Hsb [->|[->|[Ho ->]]]%ovl_verify_set_fh_cases; [set_solver..|].
    destruct (stored _ _ _ _) as [|ofb] eqn:E; [done|].
    rewrite (verify_stored_self _ _ _ _ _ Hv Hst) by done. case_bool_decide as Heq; [|set_solver].
    by destruct (Hne (handle_of_inj _ _ _ _ _ _ Ho Hv Hsb Heq)).
Qed.
End lemmas.
