(* ===== verification/OvlLogic.v ===== *)
(** * Reasoning about the functions that only read

    Most of the module only looks: it reads the layers and allocates memory.
    [quiet] relates the states of such a run; [vspec s0 m Q] says that [m],
    started anywhere in the run that began at [s0], stays in it and gives a
    result that satisfies [Q].  What is read is what was there at [s0]. *)
From S2P Require Import Prelude CString OS OvlOptions OvlVfs OvlHandle.
Open Scope Z_scope.

(** A positive dentry, as [lookup_positive] finds it. *)
Definition positive_at {W} {K : Vfs W} (w : W) (base : Z) (name : cstr) : res Z :=
  match lookup_one w base name with
  | inr d => if d_is_negative (dentry_of w d) then inl (- ENOENT) else inr d
  | inl e => inl e
  end.

(** Writing attributes neither adds nor removes files. *)
Class TreeLaws {W} (K : Vfs W) : Prop := {
  setxattr_tree w d n v e w' b m : vfs_setxattr w d n v = (e, w') → positive_at w' b m = positive_at w b m;
  want_write_tree w m e w' b n : mnt_want_write w m = (e, w') → positive_at w' b n = positive_at w b n
}.

Section quiet.
Context {W : Type} {K : Vfs W}.

#[export] Instance same_files_equivalence : Equivalence (same_files K).
Proof.
  split.
  - by split.
  - intros w w' H. split; intros; symmetry; apply H.
  - intros w1 w2 w3 H H'. split; intros; (etransitivity; [apply H'|apply H]).
Qed.

(** Nothing that the module reads has changed, and no warning has fired. *)
Record quiet (s s' : vstate W) : Prop := {
  quiet_files : same_files K (vs_world s) (vs_world s');
  quiet_fs : vs_fs s' = vs_fs s;
  quiet_root : vs_root s' = vs_root s;
  quiet_dentries : vs_dentries s' = vs_dentries s;
  quiet_inodes : vs_inodes s' = vs_inodes s;
  quiet_warned : vs_warned s' = vs_warned s
}.

#[export] Instance quiet_equivalence : Equivalence quiet.
Proof.
  split.
  - by split.
  - intros s s' []; split; by symmetry.
  - intros s1 s2 s3 [] []; split; (etransitivity; [eassumption|]); congruence || done.
Qed.

Definition vspec {A} (s0 : vstate W) (m : V W A) (Q : res A → Prop) : Prop :=
  ∀ s, quiet s0 s → quiet s0 (snd (m s)) ∧ Q (fst (m s)).

Lemma vspec_run {A} s0 (m : V W A) Q r s' : vspec s0 m Q → m s0 = (r, s') → quiet s0 s' ∧ Q r.
Proof. intros H E. specialize (H s0 ltac:(reflexivity)). by rewrite E in H. Qed.

Section rules.
Context {A B : Type} (s0 : vstate W).
Implicit Types (m : V W A) (Q : res A → Prop).

Lemma vspec_mono m Q (R : res A → Prop) : vspec s0 m Q → (∀ r, Q r → R r) → vspec s0 m R.
Proof. intros H HQ s Hs. destruct (H s Hs). auto. Qed.

Lemma vspec_ret a Q : Q (inr a) → vspec s0 (vret a) Q.
Proof. by intros HQ s Hs. Qed.

Lemma vspec_fail e Q : Q (inl e) → vspec s0 (vfail e) Q.
Proof. by intros HQ s Hs. Qed.

Lemma vspec_bind m (f : A → V W B) (R : res B → Prop) :
  vspec s0 m (λ r, match r with inl e => R (inl e) | inr a => vspec s0 (f a) R end) → vspec s0 (vbind m f) R.
Proof.
  intros H s Hs. destruct (H s Hs) as [Hs' HR]. unfold vbind.
  destruct (m s) as [[e|a] s']; cbn in *; [done|by apply HR].
Qed.

Lemma vspec_get (f : vstate W → A) Q : (∀ s, quiet s0 s → f s = f s0) → Q (inr (f s0)) → vspec s0 (vget f) Q.
Proof. intros Hf HQ s Hs. split; [done|]. cbn. by rewrite Hf. Qed.

Lemma vspec_read (f : W → A) Q :
  (∀ w, same_files K (vs_world s0) w → f w = f (vs_world s0)) → Q (inr (f (vs_world s0))) → vspec s0 (vread f) Q.
Proof. intros Hf HQ. apply vspec_get; [|done]. intros s [Hs _ _ _ _ _]. by apply Hf. Qed.

End rules.

Lemma vspec_warn s0 b (Q : res bool → Prop) : b = false → Q (inr false) → vspec s0 (warn_on b) Q.
Proof. by intros -> HQ s Hs. Qed.

Section reads.
Context (s0 : vstate W).

Lemma vspec_dentry_at d (Q : res dentry_info → Prop) :
  Q (inr (dentry_of (vs_world s0) d)) → vspec s0 (dentry_at d) Q.
Proof. intros HQ. apply vspec_read; [|done]. intros w Hw. apply Hw. Qed.

Lemma vspec_get_fs (Q : res ovl_fs → Prop) : Q (inr (vs_fs s0)) → vspec s0 get_fs Q.
Proof. intros HQ. apply vspec_get; [|done]. by intros s [? -> ? ? ? ?]. Qed.

Lemma vspec_get_config (Q : res ovl_config → Prop) : Q (inr (config_of s0)) → vspec s0 get_config Q.
Proof. intros HQ. apply vspec_get; [|done]. by intros s [? -> ? ? ? ?]. Qed.

Lemma vspec_getxattr d ox (Q : res (res (list ascii)) → Prop) :
  Q (inr (stored (vs_world s0) (config_of s0) d ox)) → vspec s0 (ovl_getxattr d ox) Q.
Proof.
  intros HQ. apply vspec_bind, vspec_get_config. apply vspec_read; [|done]. intros w Hw. apply Hw.
Qed.

Lemma vspec_lowerstack d (Q : res (list ovl_path) → Prop) :
  Q (inr (lowerstack d s0)) → vspec s0 (vget (lowerstack d)) Q.
Proof.
  intros HQ. apply vspec_get; [|done]. intros s [? ? ? E ? ?]. unfold lowerstack, odentry_at. by rewrite E.
Qed.

Lemma vspec_root (Q : res Z → Prop) : Q (inr (vs_root s0)) → vspec s0 (vget vs_root) Q.
Proof. intros HQ. apply vspec_get; [|done]. by intros s [? ? -> ? ? ?]. Qed.

Lemma vspec_dentry_upper d (Q : res (option Z) → Prop) :
  Q (inr (ovl_dentry_upper d s0)) → vspec s0 (vget (ovl_dentry_upper d)) Q.
Proof.
  intros HQ. apply vspec_get; [|done]. intros s [? ? ? E1 E2 ?].
  unfold ovl_dentry_upper, d_inode, odentry_at, oinode_at. by rewrite E1, E2.
Qed.

Lemma vspec_lookup_positive name base (Q : res (res Z) → Prop) :
  Q (inr (positive_at (vs_world s0) base name)) → vspec s0 (lookup_positive name base) Q.
Proof.
  intros HQ. apply vspec_read; [|done]. intros w Hw. unfold positive_at. rewrite (same_lookup _ _ _ Hw).
  destruct (lookup_one _ base name); [done|]. by rewrite (same_dentry _ _ _ Hw).
Qed.

Definition is_trap (w : W) (ofs : ovl_fs) (d : Z) : bool :=
  match de_inode (dentry_of w d) with Some i => bool_decide (i_addr i ∈ ofs_traps ofs) | None => false end.

Lemma vspec_trap d (Q : res bool → Prop) :
  Q (inr (is_trap (vs_world s0) (vs_fs s0) d)) → vspec s0 (ovl_lookup_trap_inode d) Q.
Proof. intros HQ. by apply vspec_bind, vspec_get_fs, vspec_bind, vspec_dentry_at, vspec_ret. Qed.

Definition dir_attr (w : W) (c : ovl_config) (d : Z) (ox : ovl_xattr) : bool :=
  d_is_dir (dentry_of w d) &&
  match stored w c d ox with inr [x] => char_eqb x "y" | _ => false end.

Lemma vspec_check_dir_xattr d ox (Q : res bool → Prop) :
  Q (inr (dir_attr (vs_world s0) (config_of s0) d ox)) → vspec s0 (ovl_check_dir_xattr d ox) Q.
Proof.
  unfold dir_attr. intros HQ. apply vspec_bind, vspec_dentry_at. destruct (d_is_dir _); [|by apply vspec_ret].
  by apply vspec_bind, vspec_getxattr, vspec_ret.
Qed.

(** Whether a file is a metacopy: the error cases of the attribute included. *)
Definition metacopy_attr (w : W) (c : ovl_config) (d : Z) : res bool :=
  match de_inode (dentry_of w d) with
  | Some i =>
    if negb (bool_decide (i_fmt i = S_IFREG)) then inr false
    else match stored w c d OVL_XATTR_METACOPY with
         | inr _ => inr true
         | inl e => if (e =? - ENODATA) || (e =? - EOPNOTSUPP) then inr false
                    else if c_userxattr c && (e =? - EACCES) then inr false else inl e
         end
  | None => inr false
  end.

Lemma vspec_metacopy d (Q : res bool → Prop) :
  Q (metacopy_attr (vs_world s0) (config_of s0) d) → vspec s0 (ovl_check_metacopy_xattr d) Q.
Proof.
  unfold metacopy_attr. intros HQ. apply vspec_bind, vspec_dentry_at.
  destruct (de_inode _) as [i|]; [|by apply vspec_ret]. destruct (negb _); [by apply vspec_ret|].
  apply vspec_bind, vspec_getxattr. destruct (stored _ _ _ _); [|by apply vspec_ret].
  apply vspec_bind, vspec_get_config. destruct (_ || _); [by apply vspec_ret|].
  destruct (_ && _); [by apply vspec_ret|by apply vspec_fail].
Qed.
End reads.

(** Allocating keeps the run quiet. *)
Section memory.
Context {WL : WriteLaws K} (s0 : vstate W).

Lemma quiet_kmalloc s : quiet s0 s → quiet s0 (set_vs_world (snd (kmalloc (vs_world s))) s).
Proof.
  intros [Hf ? ? ? ? ?]. split; try done. cbn. etransitivity; [exact Hf|apply kmalloc_files].
Qed.

Lemma vspec_kmalloc (Q : res unit → Prop) : Q (inr tt) → Q (inl (- ENOMEM)) → vspec s0 vkmalloc Q.
Proof.
  intros Hok Herr s Hs. pose proof (quiet_kmalloc s Hs) as Hq. unfold vkmalloc, vbind.
  destruct (kmalloc (vs_world s)) as [ok w]; cbn in *. by destruct ok.
Qed.

Lemma vspec_down_write d (Q : res Z → Prop) :
  (∀ w, Q (inr (fst (down_write_killable w d)))) → vspec s0 (vcall (λ w, down_write_killable w d)) Q.
Proof.
  intros HQ s [Hf ? ? ? ? ?]. pose proof (down_write_files (vs_world s) d) as Hw. unfold vcall.
  specialize (HQ (vs_world s)). destruct (down_write_killable _ d) as [e w]. cbn in *. split; [|done].
  split; try done. by etransitivity.
Qed.

(** What a redirect attribute says; [None] where there is none. *)
Definition redirect_attr (w : W) (c : ovl_config) (d : Z) : res (option cstr) :=
  match stored w c d OVL_XATTR_REDIRECT with
  | inl e => if (e =? - ENODATA) || (e =? - EOPNOTSUPP) then inr None else inl e
  | inr value =>
    if negb (nonempty value) then inl (- EINVAL)
    else let buf := c_str value in
         if is_absolute buf then if redirect_path_ok buf then inr (Some buf) else inl (- EINVAL)
         else if existsb (char_eqb "/") buf then inl (- EINVAL) else inr (Some buf)
  end.

Lemma vspec_redirect d (Q : res (option cstr) → Prop) :
  Q (redirect_attr (vs_world s0) (config_of s0) d) → Q (inl (- ENOMEM)) → vspec s0 (ovl_get_redirect_xattr d) Q.
Proof.
  unfold redirect_attr. intros HQ Hm. apply vspec_bind, vspec_getxattr. destruct (stored _ _ _ _) as [e|v].
  { destruct (_ || _); [by apply vspec_ret|by apply vspec_fail]. }
  destruct (nonempty v); [|by apply vspec_fail]. cbn [negb] in HQ |- *.
  intros s Hs. pose proof (quiet_kmalloc s Hs) as Hq. unfold vbind.
  destruct (kmalloc (vs_world s)) as [ok w]; destruct ok; cbn in *; [|done].
  destruct (is_absolute _); [destruct (redirect_path_ok _)|destruct (existsb _ _)]; done.
Qed.
End memory.
End quiet.
#[export] Hint Resolve vspec_ret vspec_fail : ovl.

(** ** Handles are only read *)

Section handles.
Context {W : Type} {K : Vfs W} {WL : WriteLaws K} (s0 : vstate W).

Lemma vspec_get_fh d ox (Q : res (option (list ascii)) → Prop) : (∀ r, Q r) → vspec s0 (ovl_get_fh d ox) Q.
Proof.
  intros HQ. apply vspec_bind, vspec_getxattr. destruct (stored _ _ _ _) as [e|v]; [by apply vspec_ret|].
  destruct (nonempty v); [|by apply vspec_ret]. cbn [negb].
  apply vspec_bind, vspec_kmalloc; [|done]. destruct (_ <? 0); by apply vspec_ret.
Qed.

Lemma vspec_decode fb mnt connected (Q : res (option Z) → Prop) :
  (∀ r, Q r) → vspec s0 (ovl_decode_real_fh fb mnt connected) Q.
Proof.
  intros HQ. unfold ovl_decode_real_fh. apply vspec_bind, vspec_read; [intros w Hw; apply Hw|].
  destruct (negb _); [by apply vspec_ret|]. apply vspec_bind, vspec_get_config.
  apply vspec_bind, vspec_read; [intros w Hw; apply Hw|].
  destruct (negb _); [by apply vspec_ret|]. apply vspec_bind, vspec_read; [intros w Hw; apply Hw|].
  destruct (exportfs_decode_fh _ _ _ _ _ _) as [e|r].
  - destruct (_ && _); [by apply vspec_ret|by apply vspec_fail].
  - apply vspec_bind, vspec_dentry_at. by apply vspec_ret.
Qed.

Lemma vspec_decode_in_layers fb connected layers :
  vspec s0 (decode_in_layers fb connected layers) (λ r, ∀ p, r = inr (Some p) → p_layer p ∈ layers).
Proof.
  induction layers as [|l layers IH]; cbn [decode_in_layers]; [by apply vspec_ret|].
  assert (Hnext : vspec s0 (decode_in_layers fb connected layers)
    (λ r, ∀ p, r = inr (Some p) → p_layer p ∈ l :: layers)).
  { eapply vspec_mono; [exact IH|]. intros r Hr p Hp. right. by apply Hr. }
  destruct (_ && _); [done|]. apply vspec_bind, vspec_decode. intros [e|[d|]]; [done| |done].
  apply vspec_ret. intros p [= <-]. left.
Qed.

(** An origin is a file of one of the lower layers. *)
Lemma vspec_check_origin u :
  vspec s0 (ovl_check_origin u) (λ r, ∀ p, r = inr (Some p) → p_layer p ∈ ofs_lowers (vs_fs s0)).
Proof.
  unfold ovl_check_origin. apply vspec_bind, vspec_get_fh. intros [e|[fb|]]; [done| |by apply vspec_ret].
  apply vspec_bind. unfold vcatch. intros s Hs.
  enough (H : vspec s0 (ovl_check_origin_fh fb false (Some u) true)
    (λ r, ∀ p, r = inr p → p_layer p ∈ ofs_lowers (vs_fs s0))).
  { destruct (H s Hs) as [Hq HQ]. destruct (ovl_check_origin_fh _ _ _ _ s) as [r s1]. cbn in *. split; [done|].
    destruct r as [e|p]; cbn.
    - destruct (_ =? _); [by apply vspec_ret|by apply vspec_fail].
    - apply vspec_ret. intros ? [= <-]. by apply HQ. }
  unfold ovl_check_origin_fh. apply vspec_bind, vspec_get_fs, vspec_bind.
  eapply vspec_mono; [apply vspec_decode_in_layers|]. intros [e|[p|]] Hp; [done| |by apply vspec_fail].
  specialize (Hp p eq_refl). apply vspec_bind, vspec_dentry_at. apply vspec_bind, vspec_bind, vspec_dentry_at, vspec_ret.
  destruct (origin_wrong_type _ _); [by apply vspec_fail|].
  apply vspec_bind, vspec_kmalloc; [|done]. apply vspec_ret. by intros ? [= <-].
Qed.
End handles.
