(* ===== verification/OvlSim.v ===== *)
(** * A concrete kernel below the overlay

    A small instance of [Vfs]: a tree of dentries, names and attributes as
    lists, handles that are the number of the dentry, hexadecimal digits.  It
    satisfies the laws that the theorems assume, and the witnesses of the
    theorems on handles run on it. *)
From S2P Require Import Prelude CString OS OvlOptions OvlVfs OvlHandle OvlLogic.
Open Scope Z_scope.

(** ** Hexadecimal digits *)

Definition hex_digit (n : Z) : ascii := byte_of (if n <? 10 then 48 + n else 87 + n).
Definition hex_value (c : ascii) : option Z :=
  if isdigit c then Some (code c - 48)
  else if (97 <=? code c) && (code c <=? 102) then Some (code c - 87) else None.
Fixpoint sim_bin2hex (b : list ascii) : cstr :=
  match b with [] => [] | c :: b' => hex_digit (code c / 16) :: hex_digit (code c mod 16) :: sim_bin2hex b' end.
Fixpoint sim_hex2bin (s : cstr) : option (list ascii) :=
  match s with
  | [] => Some []
  | h :: l :: s' =>
    match hex_value h, hex_value l, sim_hex2bin s' with
    | Some a, Some b, Some r => Some (byte_of (16 * a + b) :: r)
    | _, _, _ => None
    end
  | [_] => None
  end.

Lemma hex_value_digit n : 0 <= n < 16 → hex_value (hex_digit n) = Some n.
Proof.
  intros H. assert (Hn : n ∈ [0;1;2;3;4;5;6;7;8;9;10;11;12;13;14;15]).
  { apply list_elem_of_In. cbn. lia. }
  assert (Hall : Forall (λ n, hex_value (hex_digit n) = Some n) [0;1;2;3;4;5;6;7;8;9;10;11;12;13;14;15])
    by (repeat constructor).
  rewrite Forall_forall in Hall. by apply Hall.
Qed.

Lemma code_range c : 0 <= code c < 256.
Proof. unfold code. pose proof (N_ascii_bounded c). lia. Qed.
Lemma byte_of_code c : byte_of (code c) = c.
Proof.
  unfold byte_of. rewrite Z.mod_small by apply code_range. unfold code. by rewrite N2Z.id, ascii_N_embedding.
Qed.

Lemma sim_hex_roundtrip b : sim_hex2bin (sim_bin2hex b) = Some b.
Proof.
  induction b as [|c b IH]; [done|]. cbn [sim_bin2hex sim_hex2bin]. pose proof (code_range c).
  rewrite !hex_value_digit, IH by (try apply Z.mod_pos_bound; try (split; [apply Z.div_pos|apply Z.div_lt_upper_bound]); lia).
  by rewrite <-Z.div_mod, byte_of_code by lia.
Qed.
Lemma sim_hex_length b : length (sim_bin2hex b) = (2 * length b)%nat.
Proof. induction b as [|c b IH]; cbn [sim_bin2hex length]; lia. Qed.

(** ** File identifiers: the number of the dentry in four bytes *)

Definition le32 (z : Z) : list ascii := [byte_of z; byte_of (z / 256); byte_of (z / 65536); byte_of (z / 16777216)].
Definition le32_value (b : list ascii) : Z :=
  match b with
  | [b0; b1; b2; b3] => code b0 + 256 * code b1 + 65536 * code b2 + 16777216 * code b3
  | _ => 0
  end.
Lemma le32_roundtrip z : 0 <= z < 2 ^ 32 → le32_value (le32 z) = z.
Proof.
  intros H. unfold le32, le32_value. rewrite !code_byte_of.
  replace (z / 65536) with (z / 256 / 256) by (by rewrite Z.div_div).
  replace (z / 16777216) with (z / 256 / 256 / 256) by (by rewrite !Z.div_div).
  rewrite (Z.mod_small (z / 256 / 256 / 256)) by (rewrite !Z.div_div by done; split; [apply Z.div_pos|apply Z.div_lt_upper_bound]; lia).
  pose proof (Z.div_mod z 256 ltac:(done)). pose proof (Z.div_mod (z / 256) 256 ltac:(done)).
  pose proof (Z.div_mod (z / 256 / 256) 256 ltac:(done)). lia.
Qed.

(** ** The tree *)

Record tree := Tree {
  t_dentries : list (Z * dentry_info);
  t_names : list ((Z * cstr) * Z);
  t_xattrs : list ((Z * cstr) * list ascii)
}.

Fixpoint assoc {A B} `{EqDecision A} (k : A) (l : list (A * B)) : option B :=
  match l with [] => None | (a, b) :: l' => if decide (k = a) then Some b else assoc k l' end.

(** The type that a directory entry shows. *)
Definition sim_type (i : dentry_info) : Z :=
  match de_kind i with KDirectory => DT_DIR | KSpecial => DT_CHR | _ => 8 end.

Definition negative_dentry : dentry_info := Dentry KMiss no_dflags None false [] 0.
Definition sim_sb : sb_info := SuperBlock 1 (replicate 16 "u"%char) true true.
(** Dentries from 1000 on are on file systems of their own, a thousand each. *)
Definition sim_sb_of (d : Z) : sb_info :=
  if d <? 1000 then sim_sb else SuperBlock (1 + d / 1000) (replicate 16 (byte_of (97 + d / 1000))) true true.

Definition add_xattr (d : Z) (n : cstr) (v : list ascii) (t : tree) : tree :=
  Tree (t_dentries t) (t_names t) (((d, n), v) :: t_xattrs t).
Definition del_xattr (d : Z) (n : cstr) (t : tree) : tree :=
  Tree (t_dentries t) (t_names t) (List.filter (λ '(k, _), negb (bool_decide (k = (d, n)))) (t_xattrs t)).

(** A directory is listed in one go. *)
Definition sim_list (t : tree) (dir : Z) : list dirent :=
  omap (λ '((b, n), x), if decide (b = dir)
                        then Some (Dirent n x (sim_type (default negative_dentry (assoc x (t_dentries t))))) else None)
    (t_names t).
Definition sim_batches (t : tree) (dir : Z) : list (list dirent) * Z :=
  (match sim_list t dir with [] => [] | l => [l] end, 0).

#[export] Instance sim_vfs : Vfs tree := {
  dentry_of t d := default negative_dentry (assoc d (t_dentries t));
  sb_of t d := sim_sb_of d;
  lookup_one t b n := match assoc (b, n) (t_names t) with Some d => inr d | None => inl (- ENOENT) end;
  getxattr t d n := match assoc (d, n) (t_xattrs t) with Some v => inr v | None => inl (- ENODATA) end;
  capable_read_search t := true;
  is_subdir t a b := true;
  exportfs_encode_fh t d :=
    if (0 <=? d) && (d <? 2 ^ 32) then Fid 1 1 (le32 d) else Fid FILEID_INVALID 0 [];
  exportfs_decode_fh t mnt b dwords type connected := inr (le32_value b);
  open_dir t d := 0;
  dir_batches t d := sim_batches t d;
  down_write_killable t d := (0, t);
  kmalloc t := (true, t);
  mnt_want_write t m := (0, t);
  vfs_setxattr t d n v := (0, add_xattr d n v t);
  vfs_removexattr t d n := (0, del_xattr d n t);
  bin2hex := sim_bin2hex;
  hex2bin := sim_hex2bin;
  kstrtoint s := match s with
    | "-"%char :: ds => if nonempty ds && forallb isdigit ds then Some (- digits_value 0 ds) else None
    | "+"%char :: ds => if nonempty ds && forallb isdigit ds then Some (digits_value 0 ds) else None
    | ds => if nonempty ds && forallb isdigit ds then Some (digits_value 0 ds) else None
    end;
  cpu_big_endian := false
}.

#[export] Instance sim_export : ExportLaws sim_vfs.
Proof.
  split.
  - intros w d. cbn. unfold sim_sb_of. by destruct (d <? 1000).
  - intros w d. cbn. destruct (_ && _); cbn; [intros _; by split|unfold FILEID_INVALID; lia].
  - intros w mnt d connected. cbn. destruct (_ && _) eqn:E; cbn; [|unfold FILEID_INVALID; lia].
    intros _ _ _. f_equal. apply le32_roundtrip. to_prop. lia.
  - intros w d. cbn. by destruct (_ && _).
  - apply sim_hex_roundtrip.
  - apply sim_hex_length.
Qed.

#[export] Instance sim_write : WriteLaws sim_vfs.
Proof.
  split.
  - by intros w.
  - by intros w d.
  - intros w d n v w' [= <-]. cbn. by rewrite decide_True.
  - by intros w d n v w' e r [= <- <-].
  - by intros w d n v w' e r [= <- <-].
Qed.

#[export] Instance sim_tree : TreeLaws sim_vfs.
Proof.
  split.
  - by intros w d n v e w' b m [= <- <-].
  - by intros w m e w' b n [= <- <-].
Qed.

(** ** A small overlay *)

Definition sim_dir (i : Z) : dentry_info := Dentry KDirectory no_dflags (Some (Inode i i S_IFDIR 0 2)) false [] 0.
Definition sim_file (i : Z) : dentry_info := Dentry KRegular no_dflags (Some (Inode i i S_IFREG 0 1)) false [] 0.
Definition sim_whiteout (i : Z) : dentry_info := Dentry KSpecial no_dflags (Some (Inode i i S_IFCHR 0 1)) false [] 0.

(** Root directories 1 (upper), 2 and 3; "etc" is a directory in all of them,
    "gone" is hidden by the upper layer, "passwd" is a file of the lower two. *)
Definition sample_tree : tree := Tree
  [(1, sim_dir 1); (2, sim_dir 2); (3, sim_dir 3); (11, sim_dir 11); (12, sim_dir 12); (13, sim_dir 13);
   (21, sim_whiteout 21); (23, sim_file 23); (32, sim_file 32); (33, sim_file 33)]
  [((1, lit "etc"), 11); ((2, lit "etc"), 12); ((3, lit "etc"), 13);
   ((1, lit "gone"), 21); ((3, lit "gone"), 23); ((2, lit "passwd"), 32); ((3, lit "passwd"), 33)]
  [((11, lit "trusted.overlay.origin"), [])].

Definition sample_layer (i : Z) : ovl_layer := Layer (i + 1) i 0 false.
Definition sample_ovl_config : ovl_config :=
  OvlConfig None None None false false false [] false true false OVL_XINO_OFF false false false false 0 0.
Definition sample_fs (c : ovl_config) : ovl_fs := OvlFs (Some 1) [sample_layer 1; sample_layer 2] None 255 c false 0 [].

(** The overlay's root is dentry 100 with inode 200. *)
Definition sample_state (c : ovl_config) : vstate tree :=
  VState sample_tree (sample_fs c) 100
    {[ 100 := OvlDentry (lit "/") 100 true false (Some 200) false true false false
               [OvlPath (sample_layer 1) 2; OvlPath (sample_layer 2) 3] ]}
    {[ 200 := OvlInode (Some 1) (Some (OvlPath (sample_layer 1) 2)) None None 0 false false true false true false ]}
    false.

(** ** Witnesses for the handles *)

Lemma ovl_fh_roundtrip_witness :
  ∃ fb s', ovl_encode_real_fh 32 false (sample_state sample_ovl_config) = (inr fb, s') ∧ encoded fb 32 false s'.
Proof.
  eexists _, _. split; [vm_compute; reflexivity|].
  apply (ovl_fh_roundtrip 32 false (sample_state sample_ovl_config)). vm_compute. reflexivity.
Defined.

Lemma ovl_index_name_roundtrip_witness :
  ∃ name s', ovl_get_index_name 32 (sample_state sample_ovl_config) = (inr name, s') ∧
    ∃ fb s1, encoded fb 32 false s1 ∧ sizeof_fb * 2 <= Z.of_nat (length name) ∧
      let len := Z.of_nat (length name) / 2 in
      hex2bin (take (Z.to_nat (2 * len)) name) = Some fb ∧ ovl_check_fb_len fb len = 0.
Proof.
  eexists _, _. split; [vm_compute; reflexivity|].
  apply (ovl_index_name_roundtrip 32 (sample_state sample_ovl_config) _ (sample_state sample_ovl_config)).
  vm_compute. reflexivity.
Defined.

Lemma ovl_verify_set_fh_exclusive_witness :
  ∃ s', ovl_verify_set_fh 1 OVL_XATTR_ORIGIN 2 false true (sample_state sample_ovl_config) = (inr 0, s') ∧
    ∀ r s'', ovl_verify_set_fh 1 OVL_XATTR_ORIGIN 3 false false s' = (inr r, s'') → r ∈ [- ESTALE; - ENOMEM; - EIO].
Proof.
  set (s' := set_vs_world (add_xattr 1 (lit "trusted.overlay.origin")
    (fb_bytes 0 251 25 0 1 (s_uuid sim_sb) (le32 2)) sample_tree) (sample_state sample_ovl_config)).
  assert (H : ovl_verify_set_fh 1 OVL_XATTR_ORIGIN 2 false true (sample_state sample_ovl_config) = (inr 0, s'))
    by (vm_compute; reflexivity).
  exists s'. split; [exact H|]. intros r s''.
  apply (proj2 (ovl_verify_set_fh_exclusive 1 OVL_XATTR_ORIGIN 2 false _ s' H)); done.
Defined.

(** ** What holds of every file of a tree *)

Lemma assoc_In {A B} `{EqDecision A} (k : A) (l : list (A * B)) b : assoc k l = Some b → (k, b) ∈ l.
Proof.
  induction l as [|[a c] l IH]; cbn; [done|]. destruct (decide (k = a)) as [->|].
  - intros [= ->]. left.
  - intros H. right. by apply IH.
Qed.

Lemma sim_xattrs t (P : (Z * cstr) * list ascii → Prop) d n v :
  Forall P (t_xattrs t) → getxattr t d n = inr v → P ((d, n), v).
Proof.
  intros HF. cbn. destruct (assoc _ _) eqn:E; [|done]. intros [= ->]. apply assoc_In in E.
  rewrite Forall_forall in HF. by apply HF.
Qed.

Lemma sim_names t (P : (Z * cstr) * Z → Prop) b n x :
  Forall P (t_names t) → lookup_one t b n = inr x → P ((b, n), x).
Proof.
  intros HF. cbn. destruct (assoc _ _) eqn:E; [|done]. intros [= ->]. apply assoc_In in E.
  rewrite Forall_forall in HF. by apply HF.
Qed.

Lemma sample_lowerstack c d :
  lowerstack d (sample_state c) = [] ∨
  lowerstack d (sample_state c) = [OvlPath (sample_layer 1) 2; OvlPath (sample_layer 2) 3].
Proof.
  unfold lowerstack, odentry_at, sample_state. cbn [vs_dentries]. destruct (decide (d = 100)) as [->|].
  - right. by rewrite lookup_singleton_eq.
  - left. by rewrite lookup_singleton_ne by done.
Qed.
