(* ===== verification/OvlLookup.v ===== *)
(** * Looking a name up in all layers (namei.c)

    [ovl_lookup] looks a name up in the upper directory and in the lower
    directories of its parent, follows redirects and metacopies, and decides
    which real files make up the overlay file. *)
From S2P Require Import Prelude CString OS OvlOptions OvlVfs OvlHandle OvlLogic OvlSim.
From Stdlib Require Import Sorting.Sorted.
Open Scope Z_scope.

(** [struct ovl_lookup_data], without the super block. *)
Record ovl_lookup_data := LookupData {
  ld_name : cstr;
  ld_is_dir : bool;
  ld_opaque : bool;
  ld_stop : bool;
  ld_last : bool;
  ld_redirect : option cstr;
  ld_metacopy : bool
}.
Definition set_ld_last (x : bool) (d : ovl_lookup_data) : ovl_lookup_data :=
  LookupData (ld_name d) (ld_is_dir d) (ld_opaque d) (ld_stop d) x (ld_redirect d) (ld_metacopy d).
Definition set_ld_stop (x : bool) (d : ovl_lookup_data) : ovl_lookup_data :=
  LookupData (ld_name d) (ld_is_dir d) (ld_opaque d) x (ld_last d) (ld_redirect d) (ld_metacopy d).
Definition set_ld_opaque (x : bool) (d : ovl_lookup_data) : ovl_lookup_data :=
  LookupData (ld_name d) (ld_is_dir d) x (ld_stop d) (ld_last d) (ld_redirect d) (ld_metacopy d).
Definition set_ld_is_dir (x : bool) (d : ovl_lookup_data) : ovl_lookup_data :=
  LookupData (ld_name d) x (ld_opaque d) (ld_stop d) (ld_last d) (ld_redirect d) (ld_metacopy d).
Definition set_ld_metacopy (x : bool) (d : ovl_lookup_data) : ovl_lookup_data :=
  LookupData (ld_name d) (ld_is_dir d) (ld_opaque d) (ld_stop d) (ld_last d) (ld_redirect d) x.
Definition set_ld_redirect (r : cstr) (d : ovl_lookup_data) : ovl_lookup_data :=
  LookupData r (ld_is_dir d) (ld_opaque d) (ld_stop d) (ld_last d) (Some r) (ld_metacopy d).

Section lookup.
Context {W : Type} {K : Vfs W}.

(** ** One component in one directory *)

Definition ovl_check_redirect (dentry : Z) (d : ovl_lookup_data) (prelen : nat) (post : cstr) : V W ovl_lookup_data :=
  let? r := ovl_get_redirect_xattr dentry in
  match r with
  | None => vret d
  | Some buf =>
    let '(buf, d) := if is_absolute buf then (buf, set_ld_stop false d) else (take prelen (ld_name d) ++ buf, d) in
    vret (set_ld_redirect (buf ++ post) d)
  end.

Definition ovl_is_opaquedir (dentry : Z) : V W bool := ovl_check_dir_xattr dentry OVL_XATTR_OPAQUE.

Definition ovl_lookup_single (base : Z) (d : ovl_lookup_data) (name : cstr) (prelen : nat) (post : cstr)
    : V W (option Z * ovl_lookup_data) :=
  let last_element := negb (nonempty post) in
  let? this := lookup_positive name base in
  match this with
  | inl err => if (err =? - ENOENT) || (err =? - ENAMETOOLONG) then vret (None, d) else vfail err
  | inr this =>
    let? i := dentry_at this in
    if ovl_dentry_weird i then vfail (- EREMOTE)
    else if ovl_is_whiteout i then vret (None, set_ld_stop true (set_ld_opaque true d))
    else if last_element && ld_metacopy d && negb (d_is_reg i) then vret (None, set_ld_stop true d)
    else if negb (d_can_lookup i) then
      if ld_is_dir d || negb last_element then vret (None, set_ld_stop true d)
      else
        let? metacopy := ovl_check_metacopy_xattr this in
        let d := set_ld_stop (negb metacopy) (set_ld_metacopy metacopy d) in
        if negb metacopy || ld_last d then vret (Some this, d)
        else let? d := ovl_check_redirect this d prelen post in vret (Some this, d)
    else
      let? trap := ovl_lookup_trap_inode this in
      if trap : bool then vfail (- ELOOP)
      else
        let d := if last_element then set_ld_is_dir true d else d in
        if ld_last d then vret (Some this, d)
        else
          let? opaque := ovl_is_opaquedir this in
          if opaque : bool
          then vret (Some this, let d := set_ld_stop true d in if last_element then set_ld_opaque true d else d)
          else let? d := ovl_check_redirect this d prelen post in vret (Some this, d)
  end.

(** ** A path in one layer *)

(** [s] up to the next slash, and from that slash on. *)
Definition this_component (s : cstr) : cstr := take_while (λ c, negb (char_eqb c "/")) s.
Definition next_component (s : cstr) : cstr := drop_while (λ c, negb (char_eqb c "/")) s.

(** The loop: [rem] counts down from the end of the name, whose prefix can
    change. *)
Fixpoint lookup_layer_loop (fuel : nat) (base dentry : option Z) (d : ovl_lookup_data) (rem : Z)
    : V W (option Z * ovl_lookup_data) :=
  match fuel with
  | O => vret (dentry, d)
  | S fuel =>
    match base with
    | None => vret (dentry, d)
    | Some b =>
      let? i := dentry_at b in
      if negb (d_can_lookup i) then vret (dentry, d)
      else
        let off := Z.to_nat (to_uint64 (slen (ld_name d) - rem)) in
        let s := drop off (ld_name d) in
        let next := next_component s in
        let thislen := slen (this_component s) in
        let? bad := warn_on (negb (bool_decide (ld_name d !! pred off = Some "/"%char))) in
        if bad : bool then vfail (- EIO)
        else
          let? r := ovl_lookup_single b d (this_component s) off next in
          let '(this, d) := r in
          if negb (nonempty next) then vret (this, d)
          else
            let rem := to_uint64 (rem - (thislen + 1)) in
            let? bad := warn_on (slen (ld_name d) <=? rem) in
            if bad : bool then vfail (- EIO)
            else lookup_layer_loop fuel this this d rem
    end
  end.

Definition ovl_lookup_layer (base : Z) (d : ovl_lookup_data) : V W (option Z * ovl_lookup_data) :=
  if negb (is_absolute (ld_name d)) then ovl_lookup_single base d (ld_name d) 0 []
  else lookup_layer_loop (length (ld_name d)) (Some base) None d (slen (ld_name d) - 1).

(** ** All layers *)

(** [ovl_fix_origin]: store the missing "origin" attribute. *)
Definition ovl_fix_origin (parent lower upper : Z) : V W Z :=
  let? has := ovl_check_origin_xattr upper in
  if has : bool then vret 0
  else
    let? err := ovl_want_write in
    if negb (err =? 0) then vret err
    else
      let? err := vcatch (ovl_set_origin lower upper) in
      match err with
      | inl e => vret e
      | inr err =>
        if negb (err =? 0) then vret err
        else let? u := dentry_at upper in ovl_set_impure parent (de_parent u)
      end.

(** The locals of [ovl_lookup] that the loop over the layers changes. *)
Record lookup_locals := Locals {
  lo_d : ovl_lookup_data;
  lo_stack : list ovl_path;
  lo_origin : option Z;
  lo_poe : list ovl_path;
  lo_at_root : bool           (** [poe == roe] *)
}.

Section layers.
(** What the loop does not change: the parent, the root's stack, and what was
    found in the upper layer. *)
Context (parent : Z) (roe : list ovl_path) (upperdentry : option Z) (uppermetacopy : bool)
  (origin_path : option ovl_path).

Definition starts_at_root (d : ovl_lookup_data) : bool :=
  match ld_redirect d with Some r => is_absolute r | None => false end.

(** What an iteration does next. *)
Inductive layer_step := LayerBreak (l : lookup_locals) | LayerNext (l : lookup_locals) (i : nat).

(** The body of the loop for the lower directory [lower] at index [i]. *)
Definition lookup_layer_body (l : lookup_locals) (i : nat) (lower : ovl_path) : V W layer_step :=
  let? ofs := get_fs in
  let c := ofs_config ofs in
  let last := if negb (c_redirect_follow c) then Nat.eqb i (pred (length (lo_poe l)))
              else l_idx (p_layer lower) =? Z.of_nat (length roe) in
  let? r := ovl_lookup_layer (p_dentry lower) (set_ld_last last (lo_d l)) in
  let '(this, d) := r in
  match this with
  | None => vret (LayerNext (Locals d (lo_stack l) (lo_origin l) (lo_poe l) (lo_at_root l)) (S i))
  | Some this =>
    let no_ctr := match lo_stack l with [] => true | _ => false end in
    if (uppermetacopy || ld_metacopy d) && negb (c_metacopy c) then vfail (- EPERM)
    else
      let? err :=
        match upperdentry with
        | Some u => if no_ctr && negb (ofs_noxattr ofs) && ld_is_dir d then ovl_fix_origin parent this u else vret 0
        | None => vret 0
        end in
      vcheck err ;;?
      let? verify_lower := ovl_verify_lower in
      let? verified :=
        match upperdentry with
        | Some u =>
          if no_ctr && ((ld_is_dir d && verify_lower) ||
                        (negb (ld_is_dir d) && c_index c && negb (is_none origin_path)))
          then let? err := ovl_verify_origin u this false in
               if err =? 0 then vret (Some (Some this))
               else if ld_is_dir d then vret None else vfail err
          else vret (Some (lo_origin l))
        | None => vret (Some (lo_origin l))
        end in
      match verified with
      | None => vret (LayerBreak (Locals d (lo_stack l) (lo_origin l) (lo_poe l) (lo_at_root l)))
      | Some origin =>
        let stack := if ld_metacopy d && negb no_ctr then lo_stack l
                     else lo_stack l ++ [OvlPath (p_layer lower) this] in
        if negb (is_none (ld_redirect d)) && negb (c_redirect_follow c) then vfail (- EPERM)
        else if ld_stop d then vret (LayerBreak (Locals d stack origin (lo_poe l) (lo_at_root l)))
        else if starts_at_root d && negb (lo_at_root l)
        then vret (LayerNext (Locals d stack origin roe true) (Z.to_nat (l_idx (p_layer lower))))
        else vret (LayerNext (Locals d stack origin (lo_poe l) (lo_at_root l)) (S i))
      end
  end.

(** [for (i = 0; !d.stop && i < poe->numlower; i++)]. *)
Fixpoint lookup_layers (fuel : nat) (l : lookup_locals) (i : nat) : V W lookup_locals :=
  match fuel with
  | O => vret l
  | S fuel =>
    if ld_stop (lo_d l) then vret l
    else match lo_poe l !! i with
         | None => vret l
         | Some lower =>
           let? step := lookup_layer_body l i lower in
           match step with
           | LayerBreak l => vret l
           | LayerNext l i => lookup_layers fuel l i
           end
         end
  end.
End layers.

(** What was found in the upper layer. *)
Record upper_result := UpperResult {
  ur_d : ovl_lookup_data;
  ur_dentry : option Z;
  ur_origin_path : option ovl_path;
  ur_metacopy : bool
}.

Definition lookup_upper (upperdir : option Z) (d : ovl_lookup_data) : V W upper_result :=
  match upperdir with
  | None => vret (UpperResult d None None false)
  | Some upperdir =>
    let? r := ovl_lookup_layer upperdir d in
    let '(upperdentry, d) := r in
    let? res :=
      match upperdentry with
      | None => vret (UpperResult d None None false)
      | Some u =>
        let? i := dentry_at u in
        if DCACHE_OP_REAL (de_flags i) then vfail (- EREMOTE)
        else if ld_is_dir d then vret (UpperResult d (Some u) None false)
        else let? origin_path := ovl_check_origin u in
             vret (UpperResult d (Some u) origin_path (ld_metacopy d))
      end in
    (* the copy of the redirect, [upperredirect] *)
    (if is_none (ld_redirect d) then vret tt else vkmalloc) ;;? vret res
  end.

(** What [ovl_lookup] stores in the new overlay dentry and hands to
    [ovl_get_inode]. *)
Record lookup_result := LookupResult {
  lr_upperdentry : option Z;
  lr_stack : list ovl_path;
  lr_opaque : bool;
  lr_upper_alias : bool;
  lr_index : option Z;
  lr_redirect : option cstr;
  lr_upperdata : bool;
  lr_lowerdata : option Z
}.

(** The real files of the new dentry: the part of [ovl_lookup] before the
    index. *)
Definition lookup_real (parent : Z) (name : cstr) : V W (upper_result * lookup_locals) :=
  let? c := get_config in
  let? root := vget vs_root in
  let? poe := vget (lowerstack parent) in
  let? roe := vget (lowerstack root) in
  let? upperdir := vget (ovl_dentry_upper parent) in
  let d := LookupData name false false false
             (if c_redirect_follow c then false else Nat.eqb (length poe) 0) None false in
  let? u := lookup_upper upperdir d in
  let at_root := (parent =? root) || starts_at_root (ur_d u) in
  let l := Locals (ur_d u) [] None (if at_root then roe else poe) at_root in
  let allocated := negb (ld_stop (ur_d u)) && negb (Nat.eqb (length (lo_poe l)) 0) in
  (if allocated then vkmalloc else vret tt) ;;?
  let? l := lookup_layers parent roe (ur_dentry u) (ur_metacopy u) (ur_origin_path u)
              (S (length poe + length roe)) l 0 in
  let no_ctr := match lo_stack l with [] => true | _ => false end in
  if ld_metacopy (lo_d l) || (ur_metacopy u && no_ctr) then vfail (- EIO)
  else
    match ur_dentry u, ur_origin_path u with
    | Some _, Some origin_path =>
      if negb (ld_is_dir (lo_d l)) && no_ctr then
        let? bad := warn_on allocated in
        if bad : bool then vfail (- EIO)
        else vret (u, Locals (lo_d l) [origin_path] (Some (p_dentry origin_path)) (lo_poe l) (lo_at_root l))
      else vret (u, l)
    | None, _ =>
      vret (u, Locals (lo_d l) (lo_stack l)
        (match lo_stack l with p :: _ => Some (p_dentry p) | [] => lo_origin l end) (lo_poe l) (lo_at_root l))
    | Some _, None => vret (u, l)
    end.

Definition ovl_lookup (parent : Z) (name : cstr) : V W lookup_result :=
  let? ofs := get_fs in
  if ofs_namelen ofs <? slen name then vfail (- ENAMETOOLONG)
  else
    let? r := lookup_real parent name in
    let '(u, l) := r in
    let? indexdir := ovl_indexdir in
    let? index_all := ovl_index_all in
    let is_dir := ld_is_dir (lo_d l) in
    let? index :=
      match lo_origin l, indexdir with
      | Some origin, Some _ =>
        if negb is_dir || index_all then ovl_lookup_index (ur_dentry u) origin true else vret None
      | _, _ => vret None
      end in
    vkmalloc ;;?
    let lowerdata := if (1 <? Z.of_nat (length (lo_stack l))) && negb is_dir then p_dentry <$> list.last (lo_stack l) else None in
    match ur_dentry u, index with
    | None, Some index =>
      let? redirect := ovl_get_redirect_xattr index in
      let? metacopy := ovl_check_metacopy_xattr index in
      vret (LookupResult (Some index) (lo_stack l) (ld_opaque (ur_d u)) false (Some index) redirect
              (negb metacopy) lowerdata)
    | upper, index =>
      vret (LookupResult upper (lo_stack l) (ld_opaque (ur_d u)) (negb (is_none upper)) index (ld_redirect (ur_d u))
              (negb (is_none upper) && negb (ur_metacopy u)) lowerdata)
    end.

(** ** Is there something below an upper file? *)

(** The loop of [ovl_lower_positive]. *)
Fixpoint lower_positive_loop (w : W) (name : cstr) (layers : list ovl_path) : bool :=
  match layers with
  | [] => false
  | p :: layers' =>
    match lookup_one w (p_dentry p) name with
    | inl err =>
      if (err =? - ENOENT) || (err =? - ENAMETOOLONG) then lower_positive_loop w name layers' else true
    | inr this =>
      let i := dentry_of w this in
      if d_is_negative i then lower_positive_loop w name layers' else negb (ovl_is_whiteout i)
    end
  end.

Definition ovl_lower_positive (dentry : Z) (s : vstate W) : bool :=
  let o := odentry_at dentry s in
  match od_inode o with
  | None => OVL_E_OPAQUE o
  | Some _ =>
    match ovl_dentry_upper dentry s with
    | None => true
    | Some _ => lower_positive_loop (vs_world s) (od_name o) (lowerstack (od_parent o) s)
    end
  end.

(** ** The layers of a directory, from the top *)

Definition ovl_path_next (idx : nat) (dentry : Z) (s : vstate W) : option (Z * option nat) :=
  let oe := lowerstack dentry s in
  match idx, ovl_dentry_upper dentry s with
  | O, Some u => Some (u, match oe with [] => None | _ => Some 1%nat end)
  | _, _ =>
    let idx := Nat.max idx 1 in
    match oe !! pred idx with
    | Some p => Some (p_dentry p, if Nat.ltb idx (length oe) then Some (S idx) else None)
    | None => None
    end
  end.
End lookup.

(** * Lemmas *)

Section helpers.
Context {W : Type}.

Lemma vbind_inr {A B} (m : V W A) (f : A → V W B) s b s' :
  vbind m f s = (inr b, s') → ∃ a s1, m s = (inr a, s1) ∧ f a s1 = (inr b, s').
Proof. unfold vbind. destruct (m s) as [[e|a] s1]; [done|eauto]. Qed.
End helpers.

(** Takes a successful run of a sequence apart. *)
Ltac vinv :=
  repeat match goal with
  | H : vbind _ _ _ = (inr _, _) |- _ =>
    let a := fresh "a" in let s := fresh "s" in let H1 := fresh "H" in
    apply vbind_inr in H as (a & s & H1 & H)
  | H : vret _ _ = (inr _, _) |- _ => injection H as <- <-
  | H : vfail _ _ = (inr _, _) |- _ => discriminate H
  | H : vget _ _ = (inr _, _) |- _ => injection H as <- <-
  | H : (let '(_, _) := ?p in _) _ = (inr _, _) |- _ => destruct p
  | H : (match ?x with _ => _ end) _ = (inr _, _) |- _ => let E := fresh "E" in destruct x eqn:E
  end.

(** ** A path in one layer *)

Section components.
Lemma this_next s : this_component s ++ next_component s = s.
Proof.
  induction s as [|c s IH]; [done|]. unfold this_component, next_component in *. cbn.
  destruct (negb _); cbn; [by rewrite IH|done].
Qed.
Lemma next_component_slash s : nonempty (next_component s) = true → head (next_component s) = Some "/"%char.
Proof.
  induction s as [|c s IH]; [done|]. unfold next_component in *. cbn.
  destruct (char_eqb c "/") eqn:E; cbn; [|done]. intros _. f_equal. by apply bool_decide_eq_true in E.
Qed.
End components.

Section layer.
Context {W : Type} {K : Vfs W} {WL : WriteLaws K} (s0 : vstate W).

(** The kernel's limit for the value of an attribute. *)
Definition XATTR_SIZE_MAX : Z := 65536.
Context (Hxattr : ∀ d n v, getxattr (vs_world s0) d n = inr v → Z.of_nat (length v) <= XATTR_SIZE_MAX).

Lemma redirect_attr_length d buf :
  redirect_attr (vs_world s0) (config_of s0) d = inr (Some buf) → slen buf <= XATTR_SIZE_MAX.
Proof.
  unfold redirect_attr, stored. destruct (getxattr _ _ _) as [e|v] eqn:E; [by destruct (_ || _)|].
  apply Hxattr in E. destruct (negb _); [done|].
  assert (slen (c_str v) <= Z.of_nat (length v)) by (unfold slen; pose proof (c_str_length v); lia).
  destruct (is_absolute _); [destruct (redirect_path_ok _)|destruct (existsb _ _)]; intros [= <-]; lia.
Qed.

(** What a lookup of one component can do to the name: nothing, or replace
    what precedes [post]. *)
Definition renamed (post : cstr) (d d' : ovl_lookup_data) : Prop :=
  ld_name d' = ld_name d ∨
  ∃ pre, ld_name d' = pre ++ post ∧ slen (ld_name d') <= slen (ld_name d) + XATTR_SIZE_MAX.

Lemma ovl_check_redirect_spec dentry d prelen comp post :
  ld_name d = take prelen (ld_name d) ++ comp ++ post →
  vspec s0 (ovl_check_redirect dentry d prelen post) (λ r, ∀ d', r = inr d' → renamed post d d').
Proof.
  intros Hd. unfold ovl_check_redirect. apply vspec_bind, vspec_redirect; [|done].
  destruct (redirect_attr _ _ _) as [e|[buf|]] eqn:E; [done| |].
  - apply redirect_attr_length in E.
    assert (Hl : slen (ld_name d) = slen (take prelen (ld_name d)) + slen comp + slen post).
    { rewrite Hd at 1. unfold slen. rewrite !length_app. lia. }
    destruct (is_absolute buf); apply vspec_ret; intros ? [= <-]; right;
      [exists buf|exists (take prelen (ld_name d) ++ buf)]; cbn; (split; [by rewrite ?(assoc_L (++))|]);
      unfold slen in *; rewrite ?length_app in *; lia.
  - apply vspec_ret. intros ? [= <-]. by left.
Qed.

Lemma ovl_lookup_single_spec base d name prelen post :
  (∃ comp, ld_name d = take prelen (ld_name d) ++ comp ++ post) →
  vspec s0 (ovl_lookup_single base d name prelen post) (λ r, ∀ x d', r = inr (x, d') → renamed post d d').
Proof.
  intros [comp Hd]. unfold ovl_lookup_single.
  assert (Hsame : ∀ d', ld_name d' = ld_name d → renamed post d d') by (by left).
  assert (Hret : ∀ x d', ld_name d' = ld_name d →
    vspec s0 (vret (x, d')) (λ r, ∀ (x' : option Z) d', r = inr (x', d') → renamed post d d')).
  { intros x d' Hn. apply vspec_ret. intros ? ? [= <- <-]. auto. }
  assert (Hfail : ∀ e, vspec s0 (vfail e) (λ r, ∀ (x' : option Z) d', r = inr (x', d') → renamed post d d')).
  { intros e. by apply vspec_fail. }
  assert (Hredir : ∀ this d1, ld_name d1 = ld_name d →
    vspec s0 (let? d := ovl_check_redirect this d1 prelen post in vret (Some this, d))
      (λ r, ∀ (x' : option Z) d', r = inr (x', d') → renamed post d d')).
  { intros this d1 Hn. apply vspec_bind. eapply vspec_mono; [apply (ovl_check_redirect_spec this d1 prelen comp post)|].
    { by rewrite Hn. }
    intros [e|d2] H; [done|]. apply vspec_ret. intros ? ? [= <- <-]. specialize (H d2 eq_refl).
    unfold renamed in *. by rewrite Hn in H. }
  apply vspec_bind, vspec_lookup_positive. destruct (positive_at _ _ _) as [e|this]; [destruct (_ || _); auto|].
  apply vspec_bind, vspec_dentry_at. destruct (ovl_dentry_weird _); [done|]. destruct (ovl_is_whiteout _); [auto|].
  destruct (_ && _); [auto|]. destruct (negb (d_can_lookup _)).
  - destruct (_ || _); [auto|]. apply vspec_bind, vspec_metacopy. destruct (metacopy_attr _ _ _); [done|].
    destruct (_ || _); auto.
  - apply vspec_bind, vspec_trap. destruct (is_trap _ _ _); [done|].
    destruct (negb (nonempty post)); cbn; (destruct (ld_last d); cbn; [auto|]);
      apply vspec_bind, vspec_check_dir_xattr; destruct (dir_attr _ _ _ _); auto.
Qed.

(** The loop's invariant: [rem] characters of the name are left, they follow a
    slash, and the name is far from the limit of [size_t]. *)
Record loop_inv (bound rem : Z) (d : ovl_lookup_data) : Prop := {
  li_rem : 0 <= rem < slen (ld_name d);
  li_slash : ld_name d !! pred (Z.to_nat (slen (ld_name d) - rem)) = Some "/"%char;
  li_bound : slen (ld_name d) + rem * XATTR_SIZE_MAX <= bound
}.

Lemma loop_inv_next bound rem d d' :
  bound < 2 ^ 64 → loop_inv bound rem d →
  let s := drop (Z.to_nat (slen (ld_name d) - rem)) (ld_name d) in
  let rem' := rem - (slen (this_component s) + 1) in
  nonempty (next_component s) = true → renamed (next_component s) d d' →
  0 <= rem' < rem ∧ loop_inv bound rem' d'.
Proof.
  intros Hb [Hr Hs Hl] s rem' Hn Hd.
  assert (Hls : slen s = rem) by (unfold s, slen in *; rewrite length_drop; lia).
  assert (Hparts : slen (this_component s) + slen (next_component s) = rem).
  { rewrite <-Hls. rewrite <-(this_next s) at 3. unfold slen. rewrite length_app. lia. }
  assert (Hpos : 1 <= slen (next_component s)).
  { destruct (next_component s); [done|]. unfold slen. cbn [length]. lia. }
  assert (H0 : 0 <= slen (this_component s)) by (unfold slen; lia).
  assert (Hsuffix : ∃ pre, ld_name d' = pre ++ next_component s ∧
    slen (ld_name d') <= slen (ld_name d) + XATTR_SIZE_MAX).
  { destruct Hd as [->|Hd]; [|done]. exists (take (Z.to_nat (slen (ld_name d) - rem)) (ld_name d) ++ this_component s).
    rewrite <-(assoc_L (++)), this_next. unfold s. rewrite take_drop. unfold XATTR_SIZE_MAX. split; [done|lia]. }
  destruct Hsuffix as (pre & Hpre & Hlen).
  assert (Hl' : slen (ld_name d') = slen pre + slen (next_component s)) by (rewrite Hpre; unfold slen; rewrite length_app; lia).
  assert (Hp0 : 0 <= slen pre) by (unfold slen; lia).
  unfold XATTR_SIZE_MAX in *.
  split; [subst rem'; lia|]. split; [subst rem'; lia| |subst rem'; unfold XATTR_SIZE_MAX; lia].
  replace (pred (Z.to_nat (slen (ld_name d') - rem'))) with (length pre).
  - rewrite Hpre, lookup_app_r, Nat.sub_diag by lia. apply next_component_slash in Hn.
    by destruct (next_component s).
  - subst rem'. unfold slen in *. lia.
Qed.

Lemma lookup_layer_loop_quiet bound fuel base dentry d rem :
  bound < 2 ^ 64 → loop_inv bound rem d →
  vspec s0 (lookup_layer_loop fuel base dentry d rem) (λ _, True).
Proof.
  intros Hb. revert base dentry d rem. induction fuel as [|fuel IH]; intros base dentry d rem Hi; cbn [lookup_layer_loop].
  { by apply vspec_ret. }
  destruct base as [b|]; [|by apply vspec_ret].
  apply vspec_bind, vspec_dentry_at. destruct (negb (d_can_lookup _)); [by apply vspec_ret|]. cbv zeta.
  destruct (Hi) as [Hr Hs Hl].
  assert (0 <= slen (ld_name d) <= bound) by (unfold XATTR_SIZE_MAX, slen in *; lia).
  replace (to_uint64 (slen (ld_name d) - rem)) with (slen (ld_name d) - rem)
    by (unfold to_uint64; rewrite Z.mod_small; lia).
  set (off := Z.to_nat (slen (ld_name d) - rem)) in *. set (s := drop off (ld_name d)).
  apply vspec_bind, vspec_warn. { rewrite Hs. by rewrite bool_decide_eq_true_2. }
  apply vspec_bind. eapply vspec_mono.
  { apply ovl_lookup_single_spec. exists (this_component s). rewrite this_next. unfold s. by rewrite take_drop. }
  intros [e|[this d']] Hd; [done|]. specialize (Hd _ _ eq_refl).
  destruct (nonempty (next_component s)) eqn:Hn; cbn [negb]; [|by apply vspec_ret].
  destruct (loop_inv_next bound rem d d' Hb Hi Hn Hd) as [Hr' Hi']. cbv zeta in Hr', Hi'. fold off s in Hr', Hi'.
  set (rem' := rem - (slen (this_component s) + 1)) in *.
  replace (to_uint64 rem') with rem' by (unfold to_uint64; rewrite Z.mod_small; lia).
  apply vspec_bind, vspec_warn; [apply Z.leb_gt, Hi'|]. by apply IH.
Qed.

Definition name_bounded (n : cstr) : Prop := slen n <= 2 ^ 32.

Lemma first_inv d : name_bounded (ld_name d) → is_absolute (ld_name d) = true →
  loop_inv (2 ^ 60) (slen (ld_name d) - 1) d.
Proof.
  unfold name_bounded, slen, XATTR_SIZE_MAX. destruct (ld_name d) as [|c n] eqn:E; [done|]. intros Hb Ha.
  split; rewrite ?E; unfold slen; cbn [length] in *; [lia| |unfold XATTR_SIZE_MAX; lia].
  replace (Z.to_nat _) with 1%nat by lia. cbn. f_equal. cbn in Ha. by apply bool_decide_eq_true in Ha.
Qed.

(** A lookup in a layer only reads: no [WARN_ON] fires, whatever redirects
    rename the path on the way. *)
Lemma ovl_lookup_layer_quiet base d :
  name_bounded (ld_name d) → vspec s0 (ovl_lookup_layer base d) (λ _, True).
Proof.
  intros Hb. unfold ovl_lookup_layer. destruct (is_absolute (ld_name d)) eqn:Ha; cbn [negb].
  - by eapply lookup_layer_loop_quiet, first_inv.
  - eapply vspec_mono; [|done]. eapply ovl_lookup_single_spec. exists (ld_name d). by rewrite app_nil_r.
Qed.

(** More fuel changes nothing. *)
Lemma lookup_layer_loop_fuel bound f1 f2 base dentry d rem s :
  bound < 2 ^ 64 → loop_inv bound rem d → rem < Z.of_nat f1 → rem < Z.of_nat f2 → quiet s0 s →
  lookup_layer_loop f1 base dentry d rem s = lookup_layer_loop f2 base dentry d rem s.
Proof.
  intros Hb. revert f2 base dentry d rem s. induction f1 as [|f1 IH]; intros f2 base dentry d rem s Hi H1 H2 Hq.
  { destruct Hi. lia. }
  destruct f2 as [|f2]; [destruct Hi; lia|]. cbn [lookup_layer_loop]. destruct base as [b|]; [|done].
  unfold vbind at 1 5, dentry_at, vread, vget. destruct (negb (d_can_lookup _)); [done|]. cbv zeta.
  destruct (Hi) as [Hr Hs Hl].
  assert (0 <= slen (ld_name d) <= bound) by (unfold XATTR_SIZE_MAX, slen in *; lia).
  replace (to_uint64 (slen (ld_name d) - rem)) with (slen (ld_name d) - rem)
    by (unfold to_uint64; rewrite Z.mod_small; lia).
  set (off := Z.to_nat (slen (ld_name d) - rem)) in *. set (n := drop off (ld_name d)).
  unfold vbind at 1 4, warn_on. destruct (negb (bool_decide _)); [done|].
  unfold vbind at 1 3. 
  assert (Hsp : vspec s0 (ovl_lookup_single b d (this_component n) off (next_component n))
    (λ r, ∀ x d', r = inr (x, d') → renamed (next_component n) d d')).
  { apply ovl_lookup_single_spec. exists (this_component n). rewrite this_next. unfold n. by rewrite take_drop. }
  specialize (Hsp s Hq). destruct (ovl_lookup_single _ _ _ _ _ s) as [[e|[this d']] s1]; [done|].
  cbn [fst snd] in Hsp. destruct Hsp as [Hq1 Hd]. specialize (Hd _ _ eq_refl).
  destruct (nonempty (next_component n)) eqn:Hn; cbn [negb]; [|done].
  destruct (loop_inv_next bound rem d d' Hb Hi Hn Hd) as [Hr' Hi']. cbv zeta in Hr', Hi'. fold off n in Hr', Hi'.
  set (rem' := rem - (slen (this_component n) + 1)) in *.
  replace (to_uint64 rem') with rem' by (unfold to_uint64; rewrite Z.mod_small; lia).
  unfold vbind. destruct (_ <=? _); [done|]. apply IH; lia || done.
Qed.
End layer.

(** looking a path up in a layer ends, whatever redirects rename it on the
    way, and reads only: neither the check that a component follows a slash
    nor the check of the remaining length ever fires. *)
Theorem ovl_lookup_layer_on_rails {W} {K : Vfs W} {WL : WriteLaws K} base d s r s' :
  (∀ x n v, getxattr (vs_world s) x n = inr v → Z.of_nat (length v) <= XATTR_SIZE_MAX) →
  name_bounded (ld_name d) →
  ovl_lookup_layer base d s = (r, s') →
  quiet s s' ∧
  (is_absolute (ld_name d) = true → ∀ fuel, (length (ld_name d) <= fuel)%nat →
    lookup_layer_loop fuel (Some base) None d (slen (ld_name d) - 1) s = (r, s')).
Proof.
  intros Hx Hb E. split.
  { apply (vspec_run s (ovl_lookup_layer base d) (λ _, True) r s'); [by apply ovl_lookup_layer_quiet|done]. }
  intros Ha fuel Hf. rewrite <-E. unfold ovl_lookup_layer. rewrite Ha. cbn [negb].
  unfold slen in *. eapply (lookup_layer_loop_fuel s); [done| |by apply first_inv|unfold slen; lia..|reflexivity].
  unfold slen, XATTR_SIZE_MAX. lia.
Qed.

Lemma sample_xattrs_bounded x n v :
  getxattr sample_tree x n = inr v → Z.of_nat (length v) <= XATTR_SIZE_MAX.
Proof.
  intros H. refine (sim_xattrs sample_tree (λ '(_, v), Z.of_nat (length v) <= XATTR_SIZE_MAX) x n v _ H).
  repeat constructor. unfold XATTR_SIZE_MAX. cbn. lia.
Qed.

Lemma ovl_lookup_layer_on_rails_witness :
  let s := sample_state sample_ovl_config in
  let d := LookupData (lit "/etc/passwd") false false false false None false in
  ∃ r, ovl_lookup_layer 1 d s = (r, s) ∧ quiet s s.
Proof.
  intros s d. eexists. split; [vm_compute; reflexivity|].
  refine (proj1 (ovl_lookup_layer_on_rails 1 d s _ s _ _ _)).
  - exact sample_xattrs_bounded.
  - vm_compute. discriminate.
  - vm_compute. reflexivity.
Defined.

(** ** The order of the layers *)

Section order.
Context {W : Type} {K : Vfs W}.

Definition idxs (l : list ovl_path) : list Z := (λ p, l_idx (p_layer p)) <$> l.

(** The layers of a dentry, from the top: each is below the one before. *)
Definition in_order (n : Z) (l : list ovl_path) : Prop :=
  StronglySorted Z.lt (idxs l) ∧ Forall (λ i, 1 <= i <= n) (idxs l).

(** The root has all layers. *)
Definition all_layers (roe : list ovl_path) : Prop :=
  ∀ i p, roe !! i = Some p → l_idx (p_layer p) = Z.of_nat (S i).

Lemma sorted_bounded l : ∀ lo n, StronglySorted Z.lt l → Forall (λ i, lo <= i <= n) l →
  Z.of_nat (length l) <= Z.max 0 (n - lo + 1).
Proof.
  induction l as [|x l IH]; intros lo n Hs Hf; [cbn; lia|].
  apply StronglySorted_inv in Hs as [Hs Hx]. apply Forall_cons in Hf as [Hb Hf].
  assert (Forall (λ i, x + 1 <= i <= n) l).
  { rewrite !Forall_forall in *. intros i Hi. specialize (Hx i Hi). specialize (Hf i Hi). cbn in *. lia. }
  specialize (IH (x + 1) n Hs H). cbn [length]. lia.
Qed.

Lemma in_order_length n l : 0 <= n → in_order n l → Z.of_nat (length l) <= n.
Proof. intros Hn [Hs Hf]. pose proof (sorted_bounded _ 1 n Hs Hf) as H. unfold idxs in H. rewrite length_fmap in H. lia. Qed.

Lemma sorted_snoc l x : StronglySorted Z.lt l → Forall (λ y, y < x) l → StronglySorted Z.lt (l ++ [x]).
Proof.
  intros Hs Hf. induction l as [|y l IH]; [by repeat constructor|]. cbn.
  apply StronglySorted_inv in Hs as [Hs Hy]. apply Forall_cons in Hf as [Hyx Hf].
  constructor; [by apply IH|]. apply Forall_app. auto.
Qed.

Lemma in_order_snoc n l p :
  in_order n l → Forall (λ i, i < l_idx (p_layer p)) (idxs l) → 1 <= l_idx (p_layer p) <= n →
  in_order n (l ++ [p]).
Proof.
  intros [Hs Hf] Hlt Hp. unfold in_order, idxs in *. rewrite fmap_app. cbn. split; [by apply sorted_snoc|].
  apply Forall_app. auto.
Qed.

Lemma in_order_lookup n l i p : in_order n l → l !! i = Some p → 1 <= l_idx (p_layer p) <= n.
Proof.
  intros [_ Hf] Hp. rewrite Forall_forall in Hf. apply Hf, list_elem_of_lookup. exists i.
  unfold idxs. by rewrite list_lookup_fmap, Hp.
Qed.

Lemma in_order_lt n l i j p q :
  in_order n l → l !! i = Some p → l !! j = Some q → (i < j)%nat → l_idx (p_layer p) < l_idx (p_layer q).
Proof.
  intros [Hs _] Hp Hq Hij.
  assert (Hp' : idxs l !! i = Some (l_idx (p_layer p))) by (unfold idxs; by rewrite list_lookup_fmap, Hp).
  assert (Hq' : idxs l !! j = Some (l_idx (p_layer q))) by (unfold idxs; by rewrite list_lookup_fmap, Hq).
  clear Hp Hq. revert i j Hp' Hq' Hij. induction Hs as [|x t Hs IH Hx]; intros i j Hp Hq Hij; [done|].
  destruct j as [|j]; [lia|]. destruct i as [|i]; cbn in *.
  - injection Hp as <-. rewrite Forall_forall in Hx. by apply Hx, list_elem_of_lookup_2 with j.
  - apply (IH i j); done || lia.
Qed.

Section loop.
Context (n : Z) (parent : Z) (roe : list ovl_path) (upperdentry : option Z) (um : bool) (op : option ovl_path)
  (Hroe : in_order n roe) (Hall : all_layers roe).

(** What the loop keeps: the stack is in order and above what is still to be
    looked at. *)
Record stack_inv (l : lookup_locals) (i : nat) : Prop := {
  si_stack : in_order n (lo_stack l);
  si_poe : in_order n (lo_poe l);
  si_root : lo_at_root l = true → lo_poe l = roe;
  si_above : ∀ j p, lo_poe l !! j = Some p → (i <= j)%nat → Forall (λ x, x < l_idx (p_layer p)) (idxs (lo_stack l))
}.

(** The stack after an iteration that found [this]. *)
Definition push (l : lookup_locals) (d : ovl_lookup_data) (lower : ovl_path) (this : Z) : list ovl_path :=
  if ld_metacopy d && negb (match lo_stack l with [] => true | _ => false end) then lo_stack l
  else lo_stack l ++ [OvlPath (p_layer lower) this].

(** The locals after an iteration that found something and goes on. *)
Definition next_step (l : lookup_locals) (i : nat) (lower : ovl_path) (d : ovl_lookup_data)
    (stack : list ovl_path) (origin : option Z) : layer_step :=
  if ld_stop d then LayerBreak (Locals d stack origin (lo_poe l) (lo_at_root l))
  else if starts_at_root d && negb (lo_at_root l)
  then LayerNext (Locals d stack origin roe true) (Z.to_nat (l_idx (p_layer lower)))
  else LayerNext (Locals d stack origin (lo_poe l) (lo_at_root l)) (S i).

(** The three ways an iteration can end without an error: nothing found, a
    directory that is not the verified one, or a new layer. *)
Lemma lookup_layer_body_cases l i lower s step s' :
  lookup_layer_body parent roe upperdentry um op l i lower s = (inr step, s') →
  ∃ last this d s1, ovl_lookup_layer (p_dentry lower) (set_ld_last last (lo_d l)) s = (inr (this, d), s1) ∧
  match this with
  | None => step = LayerNext (Locals d (lo_stack l) (lo_origin l) (lo_poe l) (lo_at_root l)) (S i)
  | Some this =>
    ((um || ld_metacopy d) && negb (c_metacopy (config_of s)) = false) ∧
    (step = LayerBreak (Locals d (lo_stack l) (lo_origin l) (lo_poe l) (lo_at_root l)) ∨
     negb (is_none (ld_redirect d)) && negb (c_redirect_follow (config_of s)) = false ∧
     ∃ origin, step = next_step l i lower d (push l d lower this) origin)
  end.
Proof.
  unfold lookup_layer_body. intros H.
  apply vbind_inr in H as (ofs & s0 & [= <- <-] & H). apply vbind_inr in H as ([this d] & s1 & H1 & H).
  eexists _, this, d, s1. split; [exact H1|]. destruct this as [this|]; [|by injection H].
  destruct (_ && negb (c_metacopy _)) eqn:Em in H; [done|]. split; [done|].
  apply vbind_inr in H as (e1 & s2 & _ & H). apply vbind_inr in H as (e2 & s3 & _ & H).
  apply vbind_inr in H as (v & s4 & _ & H). apply vbind_inr in H as (ver & s5 & _ & H).
  destruct ver as [origin|]; [|left; by injection H]. right.
  destruct (negb (is_none _) && _) eqn:Er in H; [done|]. split; [done|]. exists origin.
  unfold next_step. destruct (ld_stop d); [by injection H|]. destruct (_ && negb (lo_at_root l)); by injection H.
Qed.

Lemma push_in_order l i lower d this :
  stack_inv l i → lo_poe l !! i = Some lower →
  in_order n (push l d lower this) ∧ Forall (λ x, x <= l_idx (p_layer lower)) (idxs (push l d lower this)).
Proof.
  intros [Hst Hpoe Hr Hab] Hl.
  pose proof (in_order_lookup _ _ _ _ Hpoe Hl) as Hidx. pose proof (Hab i lower Hl ltac:(lia)) as Habl.
  assert (Hle : Forall (λ x, x <= l_idx (p_layer lower)) (idxs (lo_stack l))).
  { eapply Forall_impl; [exact Habl|]. cbn. lia. }
  unfold push. destruct (_ && _); [done|]. split; [by apply in_order_snoc|].
  unfold idxs in *. rewrite fmap_app, Forall_app. split; [done|]. by repeat constructor.
Qed.

Lemma lookup_layer_body_inv l i lower s step s' :
  stack_inv l i → lo_poe l !! i = Some lower →
  lookup_layer_body parent roe upperdentry um op l i lower s = (inr step, s') →
  match step with
  | LayerBreak l' => in_order n (lo_stack l')
  | LayerNext l' i' => stack_inv l' i' ∧
     (i' = S i ∧ lo_poe l' = lo_poe l ∧ lo_at_root l' = lo_at_root l ∨
      lo_at_root l = false ∧ lo_at_root l' = true ∧ lo_poe l' = roe)
  end.
Proof.
  intros Hi Hl H. pose proof Hi as [Hst Hpoe Hr Hab].
  destruct (lookup_layer_body_cases _ _ _ _ _ _ H) as (last & this & d & s1 & _ & Hstep).
  assert (Hkeep : ∀ d' stack o, in_order n stack →
    (∀ j p, lo_poe l !! j = Some p → (S i <= j)%nat → Forall (λ x, x < l_idx (p_layer p)) (idxs stack)) →
    stack_inv (Locals d' stack o (lo_poe l) (lo_at_root l)) (S i)) by (by split).
  destruct this as [this|].
  2:{ subst step. split; [|by left]. apply Hkeep; [done|]. intros j p Hp Hj. apply (Hab j p Hp). lia. }
  destruct Hstep as (_ & [->|(_ & origin & ->)]); [done|].
  destruct (push_in_order l i lower d this Hi Hl) as [Ho Hle].
  unfold next_step. destruct (ld_stop d); [done|].
  destruct (starts_at_root d && negb (lo_at_root l)) eqn:Es.
  - to_prop. split; [|by right]. split; cbn; try done.
    intros j p Hp Hj. eapply Forall_impl; [exact Hle|]. cbn. intros x Hx. rewrite (Hall _ _ Hp).
    pose proof (in_order_lookup _ _ _ _ Hpoe Hl). lia.
  - split; [|by left]. apply Hkeep; [done|]. intros j p Hp Hj.
    eapply Forall_impl; [exact Hle|]. cbn. intros x Hx.
    pose proof (in_order_lt _ _ _ _ _ _ Hpoe Hl Hp ltac:(lia)). lia.
Qed.

Lemma lookup_layers_in_order fuel l i s l' s' :
  stack_inv l i → lookup_layers parent roe upperdentry um op fuel l i s = (inr l', s') → in_order n (lo_stack l').
Proof.
  revert l i s. induction fuel as [|fuel IH]; intros l i s Hi; cbn [lookup_layers].
  { intros [= <- _]. apply Hi. }
  destruct (ld_stop (lo_d l)); [intros [= <- _]; apply Hi|].
  destruct (lo_poe l !! i) as [lower|] eqn:Hl; [|intros [= <- _]; apply Hi].
  intros H. apply vbind_inr in H as (step & s1 & H1 & H).
  pose proof (lookup_layer_body_inv _ _ _ _ _ _ Hi Hl H1) as Hs.
  destruct step as [l1|l1 i1].
  { inversion H. by subst. }
  apply (IH l1 i1 s1); [apply Hs|done].
Qed.

(** The loop ends: it walks down the parent's layers and at most once changes
    to the root's. *)
Definition loop_left (l : lookup_locals) (i : nat) : nat :=
  (length (lo_poe l) - i) + (if lo_at_root l then 0 else length roe).

Lemma lookup_layers_fuel f1 f2 l i s :
  stack_inv l i → (loop_left l i < f1)%nat → (loop_left l i < f2)%nat →
  lookup_layers parent roe upperdentry um op f1 l i s = lookup_layers parent roe upperdentry um op f2 l i s.
Proof.
  revert f2 l i s. induction f1 as [|f1 IH]; intros f2 l i s Hi H1 H2; [lia|]. destruct f2 as [|f2]; [lia|].
  cbn [lookup_layers]. destruct (ld_stop (lo_d l)); [done|].
  destruct (lo_poe l !! i) as [lower|] eqn:Hl; [|done]. unfold vbind.
  destruct (lookup_layer_body parent roe upperdentry um op l i lower s) as [[e|step] s1] eqn:E; [done|].
  pose proof (lookup_layer_body_inv _ _ _ _ _ _ Hi Hl E) as Hs. destruct step as [l1|l1 i1]; [done|].
  destruct Hs as [Hi1 Hs]. apply lookup_lt_Some in Hl.
  assert (loop_left l1 i1 < loop_left l i)%nat.
  { unfold loop_left in *. destruct Hs as [(-> & -> & ->)|(-> & -> & ->)]; lia. }
  apply IH; [done|lia..].
Qed.
End loop.
End order.

(** ** What a lookup returns *)

(** The super block and the stacks of the dentries, as mounting and earlier
    lookups make them: [n] lower layers, numbered from 1; the root has all of
    them. *)
Record layers_ok {W} (n : Z) (s : vstate W) : Prop := {
  lk_lowers : Forall (λ l, 1 <= l_idx l <= n) (ofs_lowers (vs_fs s));
  lk_stacks : ∀ d, in_order n (lowerstack d s);
  lk_root : all_layers (lowerstack (vs_root s) s)
}.

Section results.
Context {W : Type} {K : Vfs W} {WL : WriteLaws K}.
Implicit Types s : vstate W.

Definition xattrs_bounded (w : W) : Prop :=
  ∀ d n v, getxattr w d n = inr v → Z.of_nat (length v) <= XATTR_SIZE_MAX.

Lemma lookup_upper_spec s0 upperdir d :
  xattrs_bounded (vs_world s0) → name_bounded (ld_name d) →
  vspec s0 (lookup_upper upperdir d)
    (λ r, ∀ u p, r = inr u → ur_origin_path u = Some p → p_layer p ∈ ofs_lowers (vs_fs s0)).
Proof.
  intros Hx Hn. unfold lookup_upper. destruct upperdir as [ud|]; [|apply vspec_ret; by intros u p [= <-]].
  apply vspec_bind. eapply vspec_mono; [by apply ovl_lookup_layer_quiet|]. intros [e|[u d1]] _; [done|].
  set (Q := λ r : res upper_result, ∀ u p, r = inr u → ur_origin_path u = Some p → p_layer p ∈ ofs_lowers (vs_fs s0)).
  apply vspec_bind. apply (vspec_mono s0 _ Q).
  - destruct u as [u|]; [|apply vspec_ret; by intros ? ? [= <-]].
    apply vspec_bind, vspec_dentry_at. destruct (DCACHE_OP_REAL _); [by apply vspec_fail|].
    destruct (ld_is_dir d1); [apply vspec_ret; by intros ? ? [= <-]|].
    apply vspec_bind. eapply vspec_mono; [apply vspec_check_origin|]. intros [e|o] Ho; [done|].
    apply vspec_ret. intros ? ? [= <-]. cbn. intros ->. by apply Ho.
  - intros [e|r] Hr; [done|]. apply vspec_bind. destruct (is_none _); [by apply vspec_ret, vspec_ret|].
    apply vspec_kmalloc; [by apply vspec_ret|done].
Qed.

Definition result_stack (r : res (upper_result * lookup_locals)) : list ovl_path :=
  match r with inr (_, l) => lo_stack l | inl _ => [] end.

Lemma lookup_real_in_order n parent name s r s' :
  0 <= n → xattrs_bounded (vs_world s) → name_bounded name → layers_ok n s →
  lookup_real parent name s = (inr r, s') → in_order n (lo_stack (snd r)).
Proof.
  intros Hn Hx Hb [Hlow Hst Hroot] H. unfold lookup_real in H.
  apply vbind_inr in H as (c & s1 & [= <- <-] & H). apply vbind_inr in H as (root & s1 & [= <- <-] & H).
  apply vbind_inr in H as (poe & s1 & [= <- <-] & H). apply vbind_inr in H as (roe & s1 & [= <- <-] & H).
  apply vbind_inr in H as (ud & s1 & [= <- <-] & H). apply vbind_inr in H as (u & s1 & Hu & H).
  apply (vspec_run _ _ _ _ _ (lookup_upper_spec s _ (LookupData name false false false _ None false) Hx Hb)) in Hu.
  destruct Hu as [_ Hu].
  cbv zeta in H. apply vbind_inr in H as (? & s2 & _ & H). apply vbind_inr in H as (l & s3 & Hl & H).
  apply (lookup_layers_in_order n) in Hl; [|done..|].
  2:{ split; cbn; [by repeat constructor|by destruct (_ || _)|by destruct (_ || _)|]. intros. by apply Forall_nil. }
  destruct (ld_metacopy _ || _); [done|].
  destruct (ur_dentry u) as [ud|]; [|by injection H as <- <-].
  destruct (ur_origin_path u) as [op|] eqn:Eo; [|by injection H as <- <-].
  destruct (negb _ && _); [|by injection H as <- <-]. apply vbind_inr in H as (bad & s4 & _ & H).
  destruct bad; [done|]. injection H as <- <-. cbn.
  specialize (Hu _ op eq_refl Eo). rewrite Forall_forall in Hlow. specialize (Hlow _ Hu).
  split; cbn; repeat constructor; apply Hlow.
Qed.

(** C28: the layers of every file found are in order, each at most once: the array
    of [numlayer - 1] entries that [ovl_lookup] allocates is large enough, and
    the new dentry's layers are again in order. *)
Theorem ovl_lookup_layers_in_order parent name s r s' :
  layers_ok (numlayer (vs_fs s) - 1) s → xattrs_bounded (vs_world s) → name_bounded name →
  lookup_real parent name s = (inr r, s') →
  in_order (numlayer (vs_fs s) - 1) (lo_stack (snd r)) ∧
  Z.of_nat (length (lo_stack (snd r))) <= numlayer (vs_fs s) - 1.
Proof.
  intros Hk Hx Hb H. assert (0 <= numlayer (vs_fs s) - 1) by (unfold numlayer; lia).
  pose proof (lookup_real_in_order _ _ _ _ _ _ H0 Hx Hb Hk H) as Ho. split; [done|by apply in_order_length].
Qed.
End results.

Lemma sample_layers_ok c : layers_ok 2 (sample_state c).
Proof.
  split.
  - repeat constructor; cbn; lia.
  - intros d. destruct (sample_lowerstack c d) as [->| ->]; split; cbn; repeat constructor; cbn; lia.
  - intros i p. unfold lowerstack, odentry_at, sample_state. cbn [vs_root vs_dentries].
    rewrite lookup_singleton_eq. cbn. destruct i as [|[|i]]; cbn; by intros [= <-].
Qed.

Lemma ovl_lookup_layers_in_order_witness :
  let s := sample_state sample_ovl_config in
  ∃ r s', lookup_real 100 (lit "etc") s = (inr r, s') ∧
    in_order 2 (lo_stack (snd r)) ∧ Z.of_nat (length (lo_stack (snd r))) <= 2.
Proof.
  intros s. eexists _, _. split; [vm_compute; reflexivity|].
  refine (ovl_lookup_layers_in_order 100 (lit "etc") s _ s _ _ _ _).
  - apply sample_layers_ok.
  - exact sample_xattrs_bounded.
  - vm_compute. discriminate.
  - vm_compute. reflexivity.
Defined.
