(* ===== verification/OvlUnion.v ===== *)
(** * What a lookup finds

    Two theorems about [ovl_lookup] (namei.c).  Without the option
    "redirect_dir" no redirect is followed: every lower file was found under
    the name that was asked for.  And where no file has a redirect or is a
    metacopy, the layers found are those of the union: [union_stack]. *)
From S2P Require Import Prelude CString OS OvlOptions OvlVfs OvlHandle OvlLogic OvlSim OvlLookup.
Open Scope Z_scope.

(** ** Runs that keep the tree *)

Section keeps.
Context {W : Type} {K : Vfs W} {WL : WriteLaws K} {TL : TreeLaws K}.

Record same_tree (s s' : vstate W) : Prop := {
  st_config : config_of s' = config_of s;
  st_files b n : positive_at (vs_world s') b n = positive_at (vs_world s) b n
}.
#[export] Instance same_tree_preorder : PreOrder same_tree.
Proof.
  split; [by split|]. intros s1 s2 s3 [C1 F1] [C2 F2]. split; [congruence|]. intros. by rewrite F2.
Qed.

Definition keeps {A} (m : V W A) : Prop := ∀ s, same_tree s (snd (m s)).

Lemma keeps_ret {A} (a : A) : keeps (vret a).
Proof. by intros s. Qed.
Lemma keeps_fail {A} e : keeps (vfail (A := A) e).
Proof. by intros s. Qed.
Lemma keeps_get {A} (f : vstate W → A) : keeps (vget f).
Proof. by intros s. Qed.
Lemma keeps_bind {A B} (m : V W A) (f : A → V W B) : keeps m → (∀ a, keeps (f a)) → keeps (vbind m f).
Proof.
  intros Hm Hf s. unfold vbind. specialize (Hm s). destruct (m s) as [[e|a] s1]; [done|]. cbn in *.
  by etransitivity; [|apply Hf].
Qed.
Lemma keeps_catch {A} (m : V W A) : keeps m → keeps (vcatch m).
Proof. intros Hm s. unfold vcatch. specialize (Hm s). by destruct (m s). Qed.
Lemma keeps_warn b : keeps (warn_on b).
Proof. intros s. by destruct b. Qed.
Lemma keeps_world (s : vstate W) w :
  (∀ b n, positive_at w b n = positive_at (vs_world s) b n) → same_tree s (set_vs_world w s).
Proof. by split. Qed.
Lemma same_files_tree w w' b n : same_files K w w' → positive_at w' b n = positive_at w b n.
Proof.
  intros H. unfold positive_at. rewrite (same_lookup _ _ _ H). destruct (lookup_one _ _ _); [done|].
  by rewrite (same_dentry _ _ _ H).
Qed.
Lemma keeps_alloc {A} (f : bool → res A) :
  keeps (λ s, let '(b, w) := kmalloc (vs_world s) in (f b, set_vs_world w s)).
Proof.
  intros s. pose proof (kmalloc_files (vs_world s)) as H. destruct (kmalloc _) as [b w]. cbn in *.
  apply keeps_world. intros. by apply same_files_tree.
Qed.
Lemma keeps_setxattr d ox v : keeps (ovl_setxattr d ox v).
Proof.
  apply keeps_bind; [apply keeps_get|]. intros c s. unfold vcall.
  destruct (vfs_setxattr _ _ _ _) as [e w] eqn:E. apply keeps_world. intros. by eapply setxattr_tree.
Qed.
Lemma keeps_want_write : keeps ovl_want_write.
Proof.
  apply keeps_bind; [apply keeps_get|]. intros c s. unfold vcall.
  destruct (mnt_want_write _ _) as [e w] eqn:E. apply keeps_world. intros. by eapply want_write_tree.
Qed.
End keeps.

Create HintDb keeps.
#[export] Hint Resolve keeps_ret keeps_fail keeps_get keeps_catch keeps_warn keeps_setxattr keeps_want_write : keeps.
#[export] Hint Extern 1 (keeps (vread _)) => apply keeps_get : keeps.

(** Goes through the body of a function. *)
Ltac keeps :=
  repeat first
    [ progress intros
    | progress cbv zeta
    | match goal with
      | |- keeps (vbind _ _) => apply keeps_bind
      | |- keeps (let '(_, _) := ?p in _) => destruct p
      | |- keeps (match ?x with _ => _ end) => destruct x
      | |- keeps (λ s, let '(_, _) := kmalloc (vs_world s) in _) => apply (keeps_alloc (λ b, inr b))
      end
    | solve [auto with keeps] ].

Section keeping.
Context {W : Type} {K : Vfs W} {WL : WriteLaws K} {TL : TreeLaws K}.

Lemma keeps_kmalloc : keeps vkmalloc.
Proof. unfold vkmalloc. keeps. Qed.
#[local] Hint Resolve keeps_kmalloc : keeps.
Lemma keeps_getxattr d ox : keeps (ovl_getxattr d ox).
Proof. unfold ovl_getxattr, get_config. keeps. Qed.
#[local] Hint Resolve keeps_getxattr : keeps.
Lemma keeps_dentry_at d : keeps (dentry_at d).
Proof. apply keeps_get. Qed.
Lemma keeps_get_fs : keeps get_fs.
Proof. apply keeps_get. Qed.
Lemma keeps_get_config : keeps get_config.
Proof. apply keeps_get. Qed.
#[local] Hint Resolve keeps_dentry_at keeps_get_fs keeps_get_config : keeps.
Lemma keeps_redirect d : keeps (ovl_get_redirect_xattr d).
Proof. unfold ovl_get_redirect_xattr. keeps. Qed.
Lemma keeps_metacopy d : keeps (ovl_check_metacopy_xattr d).
Proof. unfold ovl_check_metacopy_xattr. keeps. Qed.
Lemma keeps_dir_xattr d ox : keeps (ovl_check_dir_xattr d ox).
Proof. unfold ovl_check_dir_xattr. keeps. Qed.
Lemma keeps_trap d : keeps (ovl_lookup_trap_inode d).
Proof. unfold ovl_lookup_trap_inode. keeps. Qed.
Lemma keeps_lookup_positive n b : keeps (lookup_positive n b).
Proof. apply keeps_get. Qed.
#[local] Hint Resolve keeps_redirect keeps_metacopy keeps_dir_xattr keeps_trap keeps_lookup_positive : keeps.
Lemma keeps_check_redirect x d n p : keeps (ovl_check_redirect x d n p).
Proof. unfold ovl_check_redirect. keeps. Qed.
#[local] Hint Resolve keeps_check_redirect : keeps.
Lemma keeps_lookup_single b d n p q : keeps (ovl_lookup_single b d n p q).
Proof. unfold ovl_lookup_single, ovl_is_opaquedir. keeps. Qed.
#[local] Hint Resolve keeps_lookup_single : keeps.
Lemma keeps_layer_loop fuel base x d rem : keeps (lookup_layer_loop fuel base x d rem).
Proof. revert base x d rem. induction fuel as [|fuel IH]; intros; cbn [lookup_layer_loop]; keeps. Qed.
#[local] Hint Resolve keeps_layer_loop : keeps.
Lemma keeps_lookup_layer base d : keeps (ovl_lookup_layer base d).
Proof. unfold ovl_lookup_layer. keeps. Qed.
Lemma keeps_get_fh d ox : keeps (ovl_get_fh d ox).
Proof. unfold ovl_get_fh. keeps. Qed.
Lemma keeps_encode d up : keeps (ovl_encode_real_fh d up).
Proof. unfold ovl_encode_real_fh. keeps. Qed.
Lemma keeps_decode fb m c : keeps (ovl_decode_real_fh fb m c).
Proof. unfold ovl_decode_real_fh. keeps. Qed.
#[local] Hint Resolve keeps_get_fh keeps_encode keeps_decode : keeps.
Lemma keeps_verify_origin u o : keeps (ovl_verify_origin u o false).
Proof. unfold ovl_verify_origin, ovl_verify_set_fh, ovl_verify_fh. keeps; apply keeps_catch; keeps. Qed.
Lemma keeps_update f : (∀ s, same_tree s (f s)) → keeps (vupdate (W := W) f).
Proof. intros H s. apply H. Qed.
Lemma keeps_check_setxattr d ox v e : keeps (ovl_check_setxattr d ox v e).
Proof. unfold ovl_check_setxattr. keeps. apply keeps_update. intros s. by split. Qed.
#[local] Hint Resolve keeps_check_setxattr : keeps.
Lemma keeps_set_origin l u : keeps (ovl_set_origin l u).
Proof. unfold ovl_set_origin. keeps. Qed.
Lemma keeps_set_impure d u : keeps (ovl_set_impure d u).
Proof.
  unfold ovl_set_impure. keeps. apply keeps_update. intros s.
  destruct (od_inode _); [by split|done].
Qed.
#[local] Hint Resolve keeps_verify_origin keeps_set_origin keeps_set_impure : keeps.
Lemma keeps_fix_origin p l u : keeps (ovl_fix_origin p l u).
Proof. unfold ovl_fix_origin, ovl_check_origin_xattr. keeps; apply keeps_catch; keeps. Qed.
Lemma keeps_decode_in_layers fb c ls : keeps (decode_in_layers fb c ls).
Proof. induction ls as [|l ls IH]; cbn [decode_in_layers]; keeps. Qed.
#[local] Hint Resolve keeps_fix_origin keeps_decode_in_layers : keeps.
Lemma keeps_check_origin_fh fb c u a : keeps (ovl_check_origin_fh fb c u a).
Proof. unfold ovl_check_origin_fh. keeps. Qed.
#[local] Hint Resolve keeps_check_origin_fh keeps_lookup_layer : keeps.
Lemma keeps_check_origin u : keeps (ovl_check_origin u).
Proof. unfold ovl_check_origin. keeps; apply keeps_catch; keeps. Qed.
#[local] Hint Resolve keeps_check_origin : keeps.
Lemma keeps_lookup_upper u d : keeps (lookup_upper u d).
Proof. unfold lookup_upper. keeps. Qed.
Lemma keeps_layer_body parent roe u um op l i lower : keeps (lookup_layer_body parent roe u um op l i lower).
Proof. unfold lookup_layer_body, vcheck, ovl_verify_lower. keeps. Qed.
End keeping.
#[export] Hint Resolve keeps_kmalloc keeps_lookup_layer keeps_lookup_upper keeps_layer_body : keeps.

(** ** No redirect is followed unless it is allowed *)

Section redirects.
Context {W : Type} {K : Vfs W} {WL : WriteLaws K} {TL : TreeLaws K}.
Implicit Types s : vstate W.

(** Once a redirect has been seen it stays seen; without one the name is the
    same. *)
Definition no_redirect_back (d d' : ovl_lookup_data) : Prop :=
  ld_redirect d' = None → ld_redirect d = None ∧ ld_name d' = ld_name d.

#[local] Instance no_redirect_preorder : PreOrder no_redirect_back.
Proof.
  split; [by intros d H|]. intros d1 d2 d3 H1 H2 H. destruct (H2 H) as [Hr Hn]. destruct (H1 Hr). split; congruence.
Qed.

Lemma check_redirect_back dentry d prelen post s d' s' :
  ovl_check_redirect dentry d prelen post s = (inr d', s') → no_redirect_back d d'.
Proof.
  unfold ovl_check_redirect. intros H. apply vbind_inr in H as (r & s1 & _ & H).
  destruct r as [buf|]; [|by injection H as <- <-]. destruct (is_absolute buf); by injection H as <- <-.
Qed.

Lemma lookup_positive_run name base s r s' :
  lookup_positive name base s = (inr r, s') → r = positive_at (vs_world s) base name ∧ s' = s.
Proof. by intros [= <- <-]. Qed.

Lemma lookup_single_back base d name prelen post s this d' s' :
  ovl_lookup_single base d name prelen post s = (inr (this, d'), s') →
  no_redirect_back d d' ∧
  match this with
  | Some x => positive_at (vs_world s) base name = inr x
  | None => ld_redirect d' = ld_redirect d ∧ ld_name d' = ld_name d
  end.
Proof.
  unfold ovl_lookup_single. intros H. apply vbind_inr in H as (r & s1 & [-> ->]%lookup_positive_run & H).
  assert (Hd : ∀ d1, ld_redirect d1 = ld_redirect d → ld_name d1 = ld_name d → no_redirect_back d d1).
  { intros d1 E1 E2 ?. split; congruence. }
  destruct (positive_at (vs_world s) base name) as [e|x] eqn:Ex; cbv iota beta in H;
    [destruct (_ || _); [by injection H as <- <- <-|done]|].
  apply vbind_inr in H as (i & s2 & _ & H). destruct (ovl_dentry_weird i); [done|].
  destruct (ovl_is_whiteout i); [injection H as <- <- <-; by split; [apply Hd|]|].
  destruct (_ && negb (d_is_reg i)); [injection H as <- <- <-; by split; [apply Hd|]|].
  destruct (negb (d_can_lookup i)).
  - destruct (_ || _); [injection H as <- <- <-; by split; [apply Hd|]|].
    apply vbind_inr in H as (mc & s3 & _ & H). destruct (_ || _); [injection H as <- <- <-; by split; [apply Hd|]|].
    apply vbind_inr in H as (d1 & s4 & Hr & H). apply check_redirect_back in Hr. injection H as <- <- <-.
    split; [|done]. intros Hn. destruct (Hr Hn) as [A B]. by split.
  - apply vbind_inr in H as (t & s3 & _ & H). destruct t; [done|].
    set (d0 := if negb (nonempty post) then _ else d) in H.
    assert (E : ld_redirect d0 = ld_redirect d ∧ ld_name d0 = ld_name d) by (unfold d0; by destruct (negb _)).
    clearbody d0. destruct E as [E1 E2].
    destruct (ld_last d0); [injection H as <- <- <-; by split; [apply Hd|]|].
    apply vbind_inr in H as (o & s4 & _ & H). destruct o.
    + injection H as <- <- <-. split; [|done]. by destruct (negb _); apply Hd.
    + apply vbind_inr in H as (d1 & s5 & Hr & H). apply check_redirect_back in Hr. injection H as <- <- <-.
      split; [|done]. intros Hn. destruct (Hr Hn) as [H1 H2]. split; congruence.
Qed.

Lemma layer_loop_back fuel base dentry d rem s this d' s' :
  lookup_layer_loop fuel base dentry d rem s = (inr (this, d'), s') → no_redirect_back d d'.
Proof.
  revert base dentry d rem s. induction fuel as [|fuel IH]; intros base dentry d rem s; cbn [lookup_layer_loop].
  { by intros [= <- <- <-]. }
  destruct base as [b|]; [|by intros [= <- <- <-]]. intros H.
  apply vbind_inr in H as (i & s1 & _ & H). destruct (negb (d_can_lookup i)); [by injection H as <- <- <-|].
  apply vbind_inr in H as (bad & s2 & _ & H). destruct bad; [done|].
  apply vbind_inr in H as ([this1 d1] & s3 & H1 & H). apply lookup_single_back in H1 as [H1 _].
  destruct (negb (nonempty _)); [by injection H as <- <- <-|].
  apply vbind_inr in H as (bad & s4 & _ & H). destruct bad; [done|]. etransitivity; [exact H1|by eapply IH].
Qed.

Lemma lookup_layer_back base d s this d' s' :
  ovl_lookup_layer base d s = (inr (this, d'), s') → no_redirect_back d d'.
Proof.
  unfold ovl_lookup_layer. destruct (negb _).
  - by intros [H _]%lookup_single_back.
  - apply layer_loop_back.
Qed.

Section loop.
Context (s0 : vstate W) (name : cstr) (poe : list ovl_path) (parent : Z) (roe : list ovl_path)
  (u : option Z) (um : bool) (op : option ovl_path).
Context (Hname : is_absolute name = false) (Hoff : c_redirect_follow (config_of s0) = false).

(** A lower file that was found by its own name in a layer of the parent. *)
Definition found_by_name (p : ovl_path) : Prop :=
  ∃ lower, lower ∈ poe ∧ p_layer p = p_layer lower ∧
    positive_at (vs_world s0) (p_dentry lower) name = inr (p_dentry p).

Definition honest (l : lookup_locals) : Prop :=
  Forall found_by_name (lo_stack l) ∧
  (ld_redirect (lo_d l) = None ∧ ld_name (lo_d l) = name ∧ lo_poe l = poe ∨
   ld_redirect (lo_d l) ≠ None ∧ lo_stack l = []).

Lemma layer_body_honest l i lower s step s' :
  same_tree s0 s → honest l → lo_poe l !! i = Some lower →
  lookup_layer_body parent roe u um op l i lower s = (inr step, s') →
  match step with LayerBreak l' | LayerNext l' _ => Forall found_by_name (lo_stack l') ∧
    match step with LayerBreak _ => True | LayerNext _ _ => honest l' end end.
Proof.
  intros [Hc Hf] [Hst Hl] Hi H. apply lookup_layer_body_cases in H as (last & this & d & s1 & H1 & Hstep).
  pose proof (lookup_layer_back _ _ _ _ _ _ H1) as Hback.
  destruct this as [x|].
  - destruct Hstep as (_ & [->|(Hr & origin & ->)]); [done|].
    rewrite Hc, Hoff, andb_true_r in Hr. apply negb_false_iff in Hr.
    destruct (ld_redirect d) eqn:Er; [done|]. destruct (Hback Er) as [Er0 En].
    destruct Hl as [(_ & Hn & Hp)|[[] _]]; [|done]. cbn in En.
    unfold ovl_lookup_layer in H1. cbn [set_ld_last ld_name] in H1. rewrite Hn, Hname in H1.
    apply lookup_single_back in H1 as [_ Hx]. rewrite Hf in Hx.
    assert (Hpush : Forall found_by_name (push l d lower x)).
    { unfold push. destruct (_ && _); [done|]. apply Forall_app. split; [done|]. apply Forall_singleton.
      exists lower. split; [|done]. rewrite <-Hp. by eapply list_elem_of_lookup_2. }
    unfold next_step. assert (starts_at_root d = false) as -> by (unfold starts_at_root; by rewrite Er).
    cbn [andb]. destruct (ld_stop d); [done|]. split; [done|]. split; [done|]. left. cbn. by rewrite En.
  - subst step. split; [done|]. split; [done|]. cbn. destruct Hl as [(Hr & Hn & Hp)|[Hr Hs]].
    + left. unfold ovl_lookup_layer in H1. cbn [set_ld_last ld_name] in H1. rewrite Hn, Hname in H1.
      apply lookup_single_back in H1 as [_ [E1 E2]]. by rewrite E1, E2.
    + right. split; [|done]. intros Hn. by destruct (Hback Hn).
Qed.

Lemma layers_honest fuel l i s l' s' :
  same_tree s0 s → honest l → lookup_layers parent roe u um op fuel l i s = (inr l', s') →
  Forall found_by_name (lo_stack l').
Proof.
  revert l i s. induction fuel as [|fuel IH]; intros l i s Hs Hl; cbn [lookup_layers].
  { intros [= <- _]. apply Hl. }
  destruct (ld_stop (lo_d l)); [intros [= <- _]; apply Hl|].
  destruct (lo_poe l !! i) as [lower|] eqn:Hi; [|intros [= <- _]; apply Hl].
  intros H. apply vbind_inr in H as (step & s1 & H1 & H).
  pose proof (layer_body_honest _ _ _ _ _ _ Hs Hl Hi H1) as Hstep.
  pose proof (keeps_layer_body parent roe u um op l i lower s) as Hk. rewrite H1 in Hk.
  destruct step as [l1|l1 i1]; [injection H as <- <-; apply Hstep|].
  apply (IH l1 i1 s1); [by etransitivity|apply Hstep|done].
Qed.
End loop.

(** where redirects are not followed, every lower file of a dentry was found
    under the name that was asked for, in a layer of its parent, or is the
    origin of its upper file: no redirect can make another file appear. *)
Theorem ovl_lookup_no_redirect parent name s u l s' :
  is_absolute name = false → c_redirect_follow (config_of s) = false →
  lookup_real parent name s = (inr (u, l), s') →
  Forall (found_by_name s name (lowerstack parent s)) (lo_stack l) ∨ lo_stack l = option_list (ur_origin_path u).
Proof.
  intros Hn Hoff H. unfold lookup_real in H.
  apply vbind_inr in H as (c & s1 & [= <- <-] & H). apply vbind_inr in H as (root & s1 & [= <- <-] & H).
  apply vbind_inr in H as (poe & s1 & [= <- <-] & H). apply vbind_inr in H as (roe & s1 & [= <- <-] & H).
  apply vbind_inr in H as (ud & s1 & [= <- <-] & H). apply vbind_inr in H as (u1 & s1 & Hu & H).
  set (d0 := LookupData _ _ _ _ _ _ _) in Hu.
  pose proof (keeps_lookup_upper (ovl_dentry_upper parent s) d0 s) as Hk. rewrite Hu in Hk. cbn in Hk.
  assert (Hd : ld_redirect (ur_d u1) = None → ld_name (ur_d u1) = name).
  { intros Hr. unfold lookup_upper in Hu. destruct (ovl_dentry_upper parent s) as [ud|]; [|by injection Hu as <- <-].
    apply vbind_inr in Hu as ([x d1] & s2 & H1 & Hu). apply lookup_layer_back in H1.
    apply vbind_inr in Hu as (r & s3 & H3 & Hu). apply vbind_inr in Hu as (? & s4 & _ & Hu). injection Hu as <- <-.
    assert (ur_d r = d1) as Hrd.
    { destruct x as [x|]; [|by injection H3 as <- <-]. apply vbind_inr in H3 as (i & s5 & _ & H3).
      destruct (DCACHE_OP_REAL _); [done|]. destruct (ld_is_dir d1); [by injection H3 as <- <-|].
      apply vbind_inr in H3 as (o & s6 & _ & H3). by injection H3 as <- <-. }
    rewrite Hrd in *. by destruct (H1 Hr). }
  apply vbind_inr in H as (t & s2 & Ha & H). cbv zeta in H.
  assert (Hk2 : same_tree s s2).
  { etransitivity; [exact Hk|]. destruct (negb (ld_stop _) && _); [|by injection Ha as <- <-].
    pose proof (keeps_kmalloc s1) as Hm. by rewrite Ha in Hm. }
  apply vbind_inr in H as (l1 & s3 & Hl & H).
  assert (Hs : Forall (found_by_name s name (lowerstack parent s)) (lo_stack l1)).
  { eapply (layers_honest s name (lowerstack parent s)); [done|done|exact Hk2| |exact Hl].
    split; [by apply Forall_nil|]. cbn. destruct (ld_redirect (ur_d u1)) eqn:Er; [by right|left].
    split; [done|]. split; [by apply Hd|]. unfold starts_at_root. rewrite Er, orb_false_r.
    destruct (Z.eqb_spec parent (vs_root s)) as [->|]; done. }
  destruct (ld_metacopy _ || _); [done|].
  destruct (ur_dentry u1) as [x|]; [|injection H as <- <- <-; by left].
  destruct (ur_origin_path u1) as [o|] eqn:Eo; [|injection H as <- <- <-; by left].
  cbv iota beta in H.
  destruct (negb (ld_is_dir _) && _); [|injection H as <- <- <-; by left].
  apply vbind_inr in H as (bad & s4 & _ & H). destruct bad; [done|]. injection H as <- <- <-. right. by rewrite Eo.
Qed.
End redirects.

(** ** The union *)

Section union.
Context {W : Type} {K : Vfs W}.

(** What a name is in one directory. *)
Inductive found := Absent | Hidden | Leaf (d : Z) | Dir (d : Z) (opaque : bool).

Definition classify (w : W) (c : ovl_config) (base : Z) (name : cstr) : found :=
  match positive_at w base name with
  | inl _ => Absent
  | inr x =>
    let i := dentry_of w x in
    if ovl_is_whiteout i then Hidden
    else if d_can_lookup i then Dir x (dir_attr w c x OVL_XATTR_OPAQUE) else Leaf x
  end.

(** The lower files of a name: directories as long as there are only
    directories, or the first file; a whiteout and an opaque directory hide
    what is below.  [is_dir]: a directory is above. *)
Fixpoint union_stack (w : W) (c : ovl_config) (name : cstr) (dirs : list ovl_path) (is_dir : bool) : list ovl_path :=
  match dirs with
  | [] => []
  | p :: dirs' =>
    match classify w c (p_dentry p) name with
    | Absent => union_stack w c name dirs' is_dir
    | Hidden => []
    | Leaf x => if is_dir then [] else [OvlPath (p_layer p) x]
    | Dir x opaque => OvlPath (p_layer p) x :: (if opaque then [] else union_stack w c name dirs' true)
    end
  end.

(** The upper file and the lower ones; an upper file keeps only its origin. *)
Definition union_lookup (w : W) (c : ovl_config) (name : cstr) (upperdir : option Z) (dirs : list ovl_path)
    (origin : option ovl_path) : option Z * list ovl_path :=
  match upperdir with
  | None => (None, union_stack w c name dirs false)
  | Some ud =>
    match classify w c ud name with
    | Absent => (None, union_stack w c name dirs false)
    | Hidden => (None, [])
    | Leaf x => (Some x, option_list origin)
    | Dir x opaque => (Some x, if opaque then [] else union_stack w c name dirs true)
    end
  end.

(** Layers without redirects and metacopies, with plain files that can all be
    read; no part of a layer is another layer's root. *)
Record plain_tree (s : vstate W) : Prop := {
  pt_redirect d : redirect_attr (vs_world s) (config_of s) d = inr None;
  pt_metacopy d : metacopy_attr (vs_world s) (config_of s) d = inr false;
  pt_lookup b n : match positive_at (vs_world s) b n with
    | inl e => e = - ENOENT ∨ e = - ENAMETOOLONG
    | inr x => let i := dentry_of (vs_world s) x in
      ovl_dentry_weird i = false ∧ DCACHE_OP_REAL (de_flags i) = false ∧
      is_trap (vs_world s) (vs_fs s) x = false
    end
}.

(** A merged directory knows its origin, and origins are not verified. *)
Definition origin_settled (s : vstate W) (upper : Z) : Prop :=
  c_nfs_export (config_of s) && c_index (config_of s) = false ∧
  (ofs_noxattr (vs_fs s) = true ∨ failed (stored (vs_world s) (config_of s) upper OVL_XATTR_ORIGIN) = false).

Context {WL : WriteLaws K} (s0 : vstate W) (Hp : plain_tree s0).
Let w := vs_world s0.
Let c := config_of s0.

(** What [ovl_lookup_single] makes of it. *)
Definition single_result (d : ovl_lookup_data) (f : found) : option Z * ovl_lookup_data :=
  match f with
  | Absent => (None, d)
  | Hidden => (None, set_ld_stop true (set_ld_opaque true d))
  | Leaf x => if ld_is_dir d then (None, set_ld_stop true d) else (Some x, set_ld_stop true (set_ld_metacopy false d))
  | Dir x opaque =>
    (Some x, let d := set_ld_is_dir true d in
             if ld_last d then d else if opaque then set_ld_opaque true (set_ld_stop true d) else d)
  end.

Lemma single_union base d name :
  ld_metacopy d = false →
  vspec s0 (ovl_lookup_single base d name 0 [])
    (λ r, r = inl (- ENOMEM) ∨ r = inr (single_result d (classify w c base name))).
Proof.
  intros Hm. unfold ovl_lookup_single, classify, w, c.
  assert (Hredir : ∀ this d1, vspec s0 (let? d := ovl_check_redirect this d1 0 [] in vret (Some this, d))
    (λ r, r = inl (- ENOMEM) ∨ r = inr (Some this, d1))).
  { intros this d1. apply vspec_bind, vspec_bind, vspec_redirect; [|by left]. rewrite (pt_redirect s0 Hp).
    by apply vspec_ret, vspec_ret; right. }
  apply vspec_bind, vspec_lookup_positive. pose proof (pt_lookup s0 Hp base name) as Hl.
  destruct (positive_at _ base name) as [e|x].
  { assert ((e =? - ENOENT) || (e =? - ENAMETOOLONG) = true) as -> by (by destruct Hl as [->| ->]).
    apply vspec_ret. by right. }
  destruct Hl as (Hw & _ & Ht). apply vspec_bind, vspec_dentry_at. rewrite Hw.
  destruct (ovl_is_whiteout _); [apply vspec_ret; by right|]. rewrite Hm. cbn [nonempty negb andb orb].
  destruct (d_can_lookup _); cbn [negb].
  - apply vspec_bind, vspec_trap. rewrite Ht. cbn [single_result ld_last set_ld_is_dir].
    destruct (ld_last d); [apply vspec_ret; by right|]. apply vspec_bind, vspec_check_dir_xattr.
    destruct (dir_attr _ _ _ _); [apply vspec_ret; by right|apply Hredir].
  - rewrite orb_false_r. cbn [single_result]. destruct (ld_is_dir d); [apply vspec_ret; by right|].
    apply vspec_bind, vspec_metacopy. rewrite (pt_metacopy s0 Hp). cbn [negb orb]. apply vspec_ret. by right.
Qed.

Lemma layer_union base d name :
  ld_metacopy d = false → ld_name d = name → is_absolute name = false →
  vspec s0 (ovl_lookup_layer base d)
    (λ r, r = inl (- ENOMEM) ∨ r = inr (single_result d (classify w c base name))).
Proof. intros Hm <- Ha. unfold ovl_lookup_layer. rewrite Ha. by apply single_union. Qed.

Section loop.
Context (name : cstr) (Hname : is_absolute name = false).
Context (parent : Z) (roe : list ovl_path) (u : option Z) (op : option ovl_path).

(** The data of a lookup that saw only directories so far. *)
Record going (d : ovl_lookup_data) : Prop := {
  go_name : ld_name d = name;
  go_redirect : ld_redirect d = None;
  go_metacopy : ld_metacopy d = false;
  go_upper : ∀ x, u = Some x → ld_is_dir d = true
}.

Lemma going_single d f :
  going d → let d' := snd (single_result d f) in going d' ∧ (ld_is_dir d = true → ld_is_dir d' = true).
Proof.
  intros [H1 H2 H3 H4]. destruct f as [| |x|x o]; cbn.
  1,2: by split.
  - destruct (ld_is_dir d) eqn:E; (split; [split|]; cbn; auto; try congruence); intros y Hy; specialize (H4 y Hy); congruence.
  - destruct (ld_last d); [|destruct o]; by (split; [split|]; cbn; auto).
Qed.

Lemma fix_origin_settled lower up :
  ofs_noxattr (vs_fs s0) = true ∨ failed (stored w c up OVL_XATTR_ORIGIN) = false →
  ofs_noxattr (vs_fs s0) = false →
  vspec s0 (ovl_fix_origin parent lower up) (λ r, r = inr 0).
Proof.
  intros [Hn|Hs] Hx; [congruence|]. unfold ovl_fix_origin, ovl_check_origin_xattr.
  apply vspec_bind, vspec_bind, vspec_getxattr, vspec_ret. fold w c. rewrite Hs. by apply vspec_ret.
Qed.

Hypothesis Hup : ∀ x, u = Some x → origin_settled s0 x.

(** One iteration. *)
Lemma body_union l i lower :
  going (lo_d l) →
  let last := if negb (c_redirect_follow c) then Nat.eqb i (pred (length (lo_poe l)))
              else l_idx (p_layer lower) =? Z.of_nat (length roe) in
  let '(this, d) := single_result (set_ld_last last (lo_d l)) (classify w c (p_dentry lower) name) in
  vspec s0 (lookup_layer_body parent roe u false op l i lower)
    (λ r, r = inl (- ENOMEM) ∨ r = inr match this with
      | None => LayerNext (Locals d (lo_stack l) (lo_origin l) (lo_poe l) (lo_at_root l)) (S i)
      | Some x => next_step roe l i lower d (lo_stack l ++ [OvlPath (p_layer lower) x]) (lo_origin l)
      end).
Proof.
  intros Hg last. assert (Hg' : going (set_ld_last last (lo_d l))) by (by destruct Hg).
  destruct (going_single _ (classify w c (p_dentry lower) name) Hg') as [Hgo Hdir]. cbv zeta in Hgo.
  destruct (single_result _ _) as [this d] eqn:E. cbn [snd] in *.
  unfold lookup_layer_body. apply vspec_bind, vspec_get_fs. fold (config_of s0) c. cbv zeta. fold last.
  apply vspec_bind. eapply vspec_mono; [apply layer_union; [apply Hg|apply Hg|done]|]. rewrite E.
  intros r [->| ->]; [by left|]. destruct this as [x|]; [|apply vspec_ret; by right].
  destruct Hgo as [H1 H2 H3 H4]. rewrite H3, H2. cbn [orb andb is_none negb].
  set (no_ctr := match lo_stack l with [] => true | _ => false end).
  assert (Hpush : next_step roe l i lower d (lo_stack l ++ [OvlPath (p_layer lower) x]) (lo_origin l) =
    if ld_stop d then LayerBreak (Locals d (lo_stack l ++ [OvlPath (p_layer lower) x]) (lo_origin l) (lo_poe l) (lo_at_root l))
    else LayerNext (Locals d (lo_stack l ++ [OvlPath (p_layer lower) x]) (lo_origin l) (lo_poe l) (lo_at_root l)) (S i)).
  { unfold next_step, starts_at_root. by rewrite H2. }
  rewrite Hpush. unfold starts_at_root. rewrite H2. cbn [andb].
  assert (Hend : vspec s0
    (if ld_stop d
     then vret (LayerBreak (Locals d (lo_stack l ++ [OvlPath (p_layer lower) x]) (lo_origin l) (lo_poe l) (lo_at_root l)))
     else vret (LayerNext (Locals d (lo_stack l ++ [OvlPath (p_layer lower) x]) (lo_origin l) (lo_poe l) (lo_at_root l)) (S i)))
    (λ r, r = inl (- ENOMEM) ∨ r = inr
      (if ld_stop d then LayerBreak (Locals d (lo_stack l ++ [OvlPath (p_layer lower) x]) (lo_origin l) (lo_poe l) (lo_at_root l))
       else LayerNext (Locals d (lo_stack l ++ [OvlPath (p_layer lower) x]) (lo_origin l) (lo_poe l) (lo_at_root l)) (S i)))).
  { destruct (ld_stop d); apply vspec_ret; by right. }
  apply vspec_bind, (vspec_mono s0 _ (λ r, r = inr 0)).
  { destruct u as [up|]; [|by apply vspec_ret]. destruct (ofs_noxattr (vs_fs s0)) eqn:Hx.
    - rewrite andb_false_r. by apply vspec_ret.
    - destruct (_ && ld_is_dir d); [|by apply vspec_ret]. apply fix_origin_settled; [by apply Hup|done]. }
  intros ? ->. apply vspec_bind. cbn [vcheck Z.eqb]. apply vspec_ret.
  apply vspec_bind. unfold ovl_verify_lower. apply vspec_bind, vspec_get_config, vspec_ret. fold c.
  apply vspec_bind, (vspec_mono s0 _ (λ r, r = inr (Some (lo_origin l)))).
  { destruct u as [up|]; [|by apply vspec_ret]. destruct (Hup up eq_refl) as [Hv _]. unfold c. rewrite Hv.
    rewrite (H4 up eq_refl). cbn [andb orb negb]. rewrite andb_false_r. by apply vspec_ret. }
  intros ? ->. exact Hend.
Qed.

Context (n : Z) (Hn : n = Z.of_nat (length roe)).

(** All iterations. *)
Lemma layers_union fuel l i :
  going (lo_d l) → ld_stop (lo_d l) = false → in_order n (lo_poe l) → (length (lo_poe l) - i < fuel)%nat →
  vspec s0 (lookup_layers parent roe u false op fuel l i)
    (λ r, r = inl (- ENOMEM) ∨ ∃ d, going d ∧
      r = inr (Locals d (lo_stack l ++ union_stack w c name (drop i (lo_poe l)) (ld_is_dir (lo_d l)))
                 (lo_origin l) (lo_poe l) (lo_at_root l))).
Proof.
  revert l i. induction fuel as [|fuel IH]; intros l i Hg Hs Ho Hf; [lia|].
  cbn [lookup_layers]. rewrite Hs.
  destruct (lo_poe l !! i) as [lower|] eqn:Hl.
  2:{ apply vspec_ret. right. exists (lo_d l). split; [done|]. apply lookup_ge_None in Hl.
      rewrite drop_ge by done. cbn. rewrite app_nil_r. by destruct l. }
  rewrite (drop_S _ _ _ Hl). cbn [union_stack]. apply lookup_lt_Some in Hl as Hi.
  pose proof (body_union l i lower Hg) as Hb. cbv zeta in Hb.
  set (last := if negb _ then _ else _) in Hb.
  assert (Hlast : last = true → drop (S i) (lo_poe l) = []).
  { intros H. apply drop_ge. unfold last in H. destruct (negb (c_redirect_follow c)).
    - apply Nat.eqb_eq in H. lia.
    - apply Z.eqb_eq in H. destruct (decide (length (lo_poe l) ≤ S i)%nat) as [|Hlt]; [done|].
      destruct (lookup_lt_is_Some_2 (lo_poe l) (S i)) as [q Hq]; [lia|].
      pose proof (in_order_lt _ _ _ _ _ _ Ho Hl Hq ltac:(lia)). pose proof (in_order_lookup _ _ _ _ Ho Hq). lia. }
  assert (Hg' : going (set_ld_last last (lo_d l))) by (by destruct Hg).
  destruct (going_single _ (classify w c (p_dentry lower) name) Hg') as [Hgo _]. cbv zeta in Hgo.
  assert (Hnext : ∀ d st o, going d → ld_stop d = false →
    vspec s0 (lookup_layers parent roe u false op fuel (Locals d st o (lo_poe l) (lo_at_root l)) (S i))
    (λ r, r = inl (- ENOMEM) ∨ ∃ d1, going d1 ∧
      r = inr (Locals d1 (st ++ union_stack w c name (drop (S i) (lo_poe l)) (ld_is_dir d)) o (lo_poe l) (lo_at_root l)))).
  { intros d st o Hd Hstop. apply (IH (Locals d st o (lo_poe l) (lo_at_root l))); cbn; done || lia. }
  assert (Hstopped : ∀ d st o, going d → ld_stop d = true →
    vspec s0 (lookup_layers parent roe u false op fuel (Locals d st o (lo_poe l) (lo_at_root l)) (S i))
    (λ r, r = inl (- ENOMEM) ∨ ∃ d1, going d1 ∧ r = inr (Locals d1 st o (lo_poe l) (lo_at_root l)))).
  { intros d st o Hd Hstop. destruct fuel; cbn [lookup_layers lo_d]; [|rewrite Hstop];
      apply vspec_ret; right; by exists d. }
  apply vspec_bind.
  destruct (classify w c (p_dentry lower) name) as [| |x|x o] eqn:Ec; cbn [single_result snd] in *.
  - eapply vspec_mono; [exact Hb|]. intros r [->| ->]; [by left|].
    exact (Hnext (set_ld_last last (lo_d l)) _ _ Hg' Hs).
  - eapply vspec_mono; [exact Hb|]. intros r [->| ->]; [by left|]. rewrite app_nil_r. by apply Hstopped.
  - destruct (ld_is_dir (set_ld_last last (lo_d l))) eqn:Ed; cbn in Ed; rewrite Ed; cbn [snd] in *;
      (eapply vspec_mono; [exact Hb|]); intros r [->| ->]; [by left| |by left|].
    + rewrite app_nil_r. by apply Hstopped.
    + unfold next_step. cbn. apply vspec_ret. right. by eexists.
  - eapply vspec_mono; [exact Hb|]. intros r [->| ->]; [by left|]. cbn [ld_last set_ld_is_dir set_ld_last] in *.
    unfold next_step. destruct last eqn:El.
    + cbn [ld_stop set_ld_is_dir set_ld_last]. rewrite Hs.
      assert (starts_at_root (set_ld_is_dir true (set_ld_last true (lo_d l))) = false) as ->
        by (unfold starts_at_root; cbn; by rewrite (go_redirect _ Hg)).
      cbn [andb]. rewrite (Hlast eq_refl).
      eapply vspec_mono; [by apply Hnext|]. rewrite (Hlast eq_refl). cbn [union_stack].
      intros r [->|(d1 & Hd1 & ->)]; [by left|right]. exists d1. split; [done|].
      rewrite app_nil_r. by destruct o.
    + destruct o; cbn [ld_stop set_ld_is_dir set_ld_last set_ld_stop set_ld_opaque].
      * apply vspec_ret. right. by eexists.
      * rewrite Hs.
        assert (starts_at_root (set_ld_is_dir true (set_ld_last false (lo_d l))) = false) as ->
          by (unfold starts_at_root; cbn; by rewrite (go_redirect _ Hg)).
        cbn [andb]. eapply vspec_mono; [by apply Hnext|].
        intros r [->|(d1 & Hd1 & ->)]; [by left|right]. exists d1. split; [done|]. by rewrite <-(assoc_L (++)).
Qed.
End loop.
End union.

(** *** The whole lookup *)

Section whole.
Context {W : Type} {K : Vfs W} {WL : WriteLaws K}.
Implicit Types s : vstate W.

(** The upper file that a lookup starts with. *)
Definition upper_found (s : vstate W) (parent : Z) (name : cstr) : found :=
  match ovl_dentry_upper parent s with
  | Some ud => classify (vs_world s) (config_of s) ud name
  | None => Absent
  end.

(** What [lookup_upper] makes of it. *)
Definition upper_result_ok (s : vstate W) (name : cstr) (f : found) (r : upper_result) : Prop :=
  ur_metacopy r = false ∧ ld_redirect (ur_d r) = None ∧ ld_metacopy (ur_d r) = false ∧ ld_name (ur_d r) = name ∧
  match f with
  | Absent => ur_dentry r = None ∧ ur_origin_path r = None ∧ ld_stop (ur_d r) = false ∧ ld_is_dir (ur_d r) = false
  | Hidden => ur_dentry r = None ∧ ur_origin_path r = None ∧ ld_stop (ur_d r) = true
  | Leaf x => ur_dentry r = Some x ∧ ld_stop (ur_d r) = true ∧ ld_is_dir (ur_d r) = false
  | Dir x o => ur_dentry r = Some x ∧ ur_origin_path r = None ∧ ld_is_dir (ur_d r) = true
  end.

Lemma lookup_upper_union s0 name upperdir last :
  plain_tree s0 → is_absolute name = false →
  let f := match upperdir with Some ud => classify (vs_world s0) (config_of s0) ud name | None => Absent end in
  vspec s0 (lookup_upper upperdir (LookupData name false false false last None false))
    (λ r, match r with
     | inl e => e = - ENOMEM ∨ ∃ x, f = Leaf x
     | inr r => upper_result_ok s0 name f r ∧
         match f with Dir _ o => ld_stop (ur_d r) = o && negb last | _ => True end
     end).
Proof.
  intros Hp Hn. unfold lookup_upper. destruct upperdir as [ud|]; [|by apply vspec_ret]. cbv zeta.
  apply vspec_bind. eapply vspec_mono; [by apply (layer_union s0 Hp ud _ name)|].
  intros r [->| ->]; [by left|].
  set (d := LookupData _ _ _ _ _ _ _).
  pose proof (pt_lookup s0 Hp ud name) as Hl. unfold classify.
  destruct (positive_at _ ud name) as [e|x]; cbn [single_result].
  { apply vspec_bind, vspec_ret. cbn. by apply vspec_bind, vspec_ret, vspec_ret. }
  destruct Hl as (_ & Hreal & _).
  destruct (ovl_is_whiteout _); cbn [single_result].
  { apply vspec_bind, vspec_ret. cbn. by apply vspec_bind, vspec_ret, vspec_ret. }
  destruct (d_can_lookup _).
  - unfold single_result. cbv zeta. apply vspec_bind, vspec_bind, vspec_dentry_at. rewrite Hreal.
    set (d1 := if ld_last _ then _ else _).
    assert (Hd1 : ld_is_dir d1 = true ∧ ld_redirect d1 = None ∧ ld_metacopy d1 = false ∧ ld_name d1 = name ∧
      ld_stop d1 = dir_attr (vs_world s0) (config_of s0) x OVL_XATTR_OPAQUE && negb last).
    { unfold d1. cbn. destruct last, (dir_attr _ _ _ _); done. }
    clearbody d1. destruct Hd1 as (H1 & H2 & H3 & H4 & H5). rewrite H1. apply vspec_ret. rewrite H2.
    apply vspec_bind, vspec_ret, vspec_ret. by repeat split.
  - unfold single_result, d. cbn [ld_is_dir]. apply vspec_bind, vspec_bind, vspec_dentry_at. rewrite Hreal. cbn [ld_is_dir set_ld_stop set_ld_metacopy].
    apply vspec_bind. eapply vspec_mono; [apply vspec_check_origin|]. intros [e|o] _; [right; by eexists|].
    apply vspec_ret. apply vspec_bind. cbn. by apply vspec_ret, vspec_ret.
Qed.

Lemma lookup_real_union parent name s r s' :
  plain_tree s → is_absolute name = false → layers_ok (Z.of_nat (length (lowerstack (vs_root s) s))) s →
  (∀ x o, upper_found s parent name = Dir x o → origin_settled s x) →
  lookup_real parent name s = (r, s') →
  match r with
  | inl e => e = - ENOMEM ∨ ∃ x, upper_found s parent name = Leaf x
  | inr (u, l) => (ur_dentry u, lo_stack l) =
      union_lookup (vs_world s) (config_of s) name (ovl_dentry_upper parent s) (lowerstack parent s) (ur_origin_path u)
  end.
Proof.
  intros Hp Hn Hk Hset.
  set (Q := λ r : res (upper_result * lookup_locals), match r with
    | inl e => e = - ENOMEM ∨ ∃ x, upper_found s parent name = Leaf x
    | inr (u, l) => (ur_dentry u, lo_stack l) =
        union_lookup (vs_world s) (config_of s) name (ovl_dentry_upper parent s) (lowerstack parent s) (ur_origin_path u)
    end).
  intros H. apply (vspec_run s (lookup_real parent name) Q r s'); [|exact H]. clear H r s'.
  unfold lookup_real. apply vspec_bind, vspec_get_config, vspec_bind, vspec_root, vspec_bind, vspec_lowerstack.
  apply vspec_bind, vspec_lowerstack, vspec_bind, vspec_dentry_upper. cbv zeta.
  set (poe := lowerstack parent s). set (roe := lowerstack (vs_root s) s).
  apply vspec_bind. eapply vspec_mono; [by apply lookup_upper_union|].
  fold (upper_found s parent name).
  intros [e|u] Hu; [exact Hu|]. destruct Hu as [(Hm & Hr & Hmc & Hnm & Hf) Hstop].
  assert (Hstart : starts_at_root (ur_d u) = false) by (unfold starts_at_root; by rewrite Hr).
  rewrite Hstart, orb_false_r, Hm.
  assert (Hpoe : (if parent =? vs_root s then roe else poe) = poe).
  { destruct (Z.eqb_spec parent (vs_root s)) as [->|]; done. }
  rewrite Hpoe. cbn [lo_poe].
  apply vspec_bind.
  match goal with |- vspec s ?m ?P => enough (Hgo : P (inr tt)) end.
  { destruct (_ && _); [apply vspec_kmalloc; [exact Hgo|by left]|by apply vspec_ret]. }
  apply vspec_bind.
  assert (Hg : (∀ x, ur_dentry u = Some x → ld_is_dir (ur_d u) = true) → going name (ur_dentry u) (ur_d u)) by (by split).
  assert (Hend : ∀ l, ld_metacopy (lo_d l) = false → ur_origin_path u = None →
    (ur_dentry u, lo_stack l) = union_lookup (vs_world s) (config_of s) name (ovl_dentry_upper parent s) poe None →
    vspec s (if ld_metacopy (lo_d l) || false && match lo_stack l with [] => true | _ => false end then vfail (- EIO)
      else match ur_dentry u, ur_origin_path u with
      | Some _, Some origin_path =>
        if negb (ld_is_dir (lo_d l)) && match lo_stack l with [] => true | _ => false end then
          let? bad := warn_on (negb (ld_stop (ur_d u)) && negb (Nat.eqb (length poe) 0)) in
          if bad : bool then vfail (- EIO)
          else vret (u, Locals (lo_d l) [origin_path] (Some (p_dentry origin_path)) (lo_poe l) (lo_at_root l))
        else vret (u, l)
      | None, _ =>
        vret (u, Locals (lo_d l) (lo_stack l)
          (match lo_stack l with p :: _ => Some (p_dentry p) | [] => lo_origin l end) (lo_poe l) (lo_at_root l))
      | Some _, None => vret (u, l)
      end) Q).
  { intros l H1 H2 H3. rewrite H1. cbn [orb andb]. rewrite H2.
    destruct (ur_dentry u) eqn:E; apply vspec_ret; unfold Q; cbn [lo_stack]; rewrite H2, E; exact H3. }
  assert (Hstopped : ld_stop (ur_d u) = true →
    ∀ o, lookup_layers parent roe (ur_dentry u) false (ur_origin_path u) (S (length poe + length roe))
      (Locals (ur_d u) [] o poe (parent =? vs_root s)) 0 = vret (Locals (ur_d u) [] o poe (parent =? vs_root s))).
  { intros Hs o. cbn [lookup_layers lo_d]. by rewrite Hs. }
  assert (Hloop : ld_stop (ur_d u) = false → (∀ x, ur_dentry u = Some x → ld_is_dir (ur_d u) = true ∧ origin_settled s x) →
    vspec s (lookup_layers parent roe (ur_dentry u) false (ur_origin_path u) (S (length poe + length roe))
      (Locals (ur_d u) [] None poe (parent =? vs_root s)) 0)
    (λ r, r = inl (- ENOMEM) ∨ ∃ d, going name (ur_dentry u) d ∧ r = inr (Locals d
      ([] ++ union_stack (vs_world s) (config_of s) name poe (ld_is_dir (ur_d u))) None poe (parent =? vs_root s)))).
  { intros Hs Hd. apply (layers_union s Hp name Hn parent roe (ur_dentry u) (ur_origin_path u)
      (λ x Hx, proj2 (Hd x Hx)) (Z.of_nat (length roe)) eq_refl _ (Locals (ur_d u) [] None poe (parent =? vs_root s)) 0);
      cbn; [apply Hg; intros x Hx; exact (proj1 (Hd x Hx))|done|apply Hk|lia]. }
  unfold upper_found in *. destruct (ovl_dentry_upper parent s) as [ud|] eqn:Eud.
  2:{ destruct Hf as (H1 & H2 & H3 & H4). eapply vspec_mono; [apply Hloop; [done|by rewrite H1]|].
      intros r [->|(d & Hd & ->)]; [by left|]. apply Hend; [apply Hd|done|]. rewrite H1, H4. done. }
  unfold union_lookup in Hend. set (f := classify (vs_world s) (config_of s) ud name) in *.
  destruct f as [| |x|x o] eqn:Ef.
  - destruct Hf as (H1 & H2 & H3 & H4). eapply vspec_mono; [apply Hloop; [done|by rewrite H1]|].
    intros r [->|(d & Hd & ->)]; [by left|]. apply Hend; [apply Hd|done|]. rewrite H1, H4. done.
  - destruct Hf as (H1 & H2 & H3). rewrite Hstopped by done. apply vspec_ret, Hend; [done|done|]. by rewrite H1.
  - destruct Hf as (H1 & H2 & H3). rewrite Hstopped by done. apply vspec_ret. cbn [lo_d lo_stack].
    rewrite Hmc. cbn [orb andb]. rewrite H1. destruct (ur_origin_path u) as [p|] eqn:Eo.
    + rewrite H3. cbn [negb andb]. rewrite H2. cbn [negb andb]. apply vspec_bind, vspec_warn; [done|].
      apply vspec_ret. unfold Q, union_lookup. fold f. by rewrite Ef, H1, Eo.
    + apply vspec_ret. unfold Q, union_lookup. fold f. by rewrite Ef, H1, Eo.
  - destruct Hf as (H1 & H2 & H3).
    destruct (ld_stop (ur_d u)) eqn:Es.
    + rewrite Hstopped by done. apply vspec_ret, Hend; [done|done|]. rewrite H1. by destruct o.
    + eapply vspec_mono; [apply Hloop; [done|]|].
      { rewrite H1. intros y [= <-]. split; [done|by eapply Hset]. }
      intros r [->|(d & Hd & ->)]; [by left|]. apply Hend; [apply Hd|done|]. rewrite H1, H3. cbn [lo_stack app].
      destruct o; [|done]. destruct (c_redirect_follow _); [done|].
      destruct poe; [done|by cbn in Hstop].
Qed.
End whole.

Lemma ovl_lookup_no_redirect_witness :
  let s := sample_state sample_ovl_config in
  ∃ u l s', lookup_real 100 (lit "passwd") s = (inr (u, l), s') ∧
    (Forall (found_by_name s (lit "passwd") (lowerstack 100 s)) (lo_stack l) ∨
     lo_stack l = option_list (ur_origin_path u)).
Proof.
  intros s. eexists _, _, _. split; [vm_compute; reflexivity|].
  refine (ovl_lookup_no_redirect 100 (lit "passwd") s _ _ s _ _ _); [done|done|vm_compute; reflexivity].
Defined.

Lemma sample_plain_tree : plain_tree (sample_state sample_ovl_config).
Proof.
  split.
  - intros d. unfold redirect_attr, stored. cbn [vs_world sample_state getxattr sim_vfs].
    unfold sample_tree. cbn [t_xattrs assoc]. by rewrite decide_False by (intros [= _]).
  - intros d. unfold metacopy_attr. destruct (de_inode _) as [i|]; [|done]. destruct (negb _); [done|].
    unfold stored. cbn [vs_world sample_state getxattr sim_vfs].
    unfold sample_tree. cbn [t_xattrs assoc]. by rewrite decide_False by (intros [= _]).
  - intros b n. unfold positive_at. destruct (lookup_one _ b n) as [e|x] eqn:E.
    + left. revert E. cbn [lookup_one sim_vfs]. by destruct (assoc _ _); intros [= <-].
    + refine (sim_names sample_tree (λ '(_, x), match (if d_is_negative (dentry_of sample_tree x) then inl (- ENOENT) else inr x) with
        | inl e => e = - ENOENT ∨ e = - ENAMETOOLONG
        | inr x => let i := dentry_of sample_tree x in
          ovl_dentry_weird i = false ∧ DCACHE_OP_REAL (de_flags i) = false ∧ is_trap sample_tree (sample_fs sample_ovl_config) x = false
        end) b n x _ E).
      repeat constructor; vm_compute; done.
Qed.

