(* ===== verification/OvlLayers.v ===== *)
(** * Setting up the layers (super.c)

    [ovl_get_lowerstack] opens the lower directories, numbers their file
    systems and layers, and decides how inode numbers are made unique;
    features that a layer does not support are switched off.  A function
    gives an error or the new state of the mount. *)
From S2P Require Import Prelude CString OS OvlOptions OvlVfs OvlHandle OvlSim OvlLookup.
From Stdlib Require Import Sorting.Sorted.
Open Scope Z_scope.

(** ** The state of a mount *)

(** [struct ovl_sb]. *)
Record ovl_sb := OvlSb { os_sb : Z; os_pseudo_dev : Z; os_bad_uuid : bool; os_is_lower : bool; os_uuid : list ascii }.

(** The members of [struct ovl_layer] that are known here; the layer's file
    system is [fs[fsid]]. *)
Record mount_layer := MountLayer { ml_mnt : Z; ml_idx : Z; ml_fsid : Z }.

#[export] Instance mount_layer_eq_dec : EqDecision mount_layer.
Proof. solve_decision. Defined.

(** A path: the mount and the dentry. *)
Record path := Path { pa_mnt : Z; pa_dentry : Z }.

(** The members of [struct ovl_fs] and of the super block that mounting sets;
    [mf_fs] has [numfs] elements, [mf_layers] are the lower ones. *)
Record mount_fs := MountFs {
  mf_config : ovl_config;
  mf_upper : option Z;        (** the root of the upper mount *)
  mf_fs : list ovl_sb;
  mf_layers : list mount_layer;
  mf_traps : list Z;
  mf_namelen : Z;
  mf_xino_mode : Z;
  mf_stack_depth : Z;
  mf_bdevs : nat;             (** anonymous devices taken so far *)
  mf_inuse : gset Z           (** the inodes with the flag [I_OVL_INUSE], of all mounts *)
}.
Definition set_mf_config (x : ovl_config) (m : mount_fs) : mount_fs :=
  MountFs x (mf_upper m) (mf_fs m) (mf_layers m) (mf_traps m) (mf_namelen m) (mf_xino_mode m) (mf_stack_depth m) (mf_bdevs m) (mf_inuse m).
Definition set_mf_upper (x : option Z) (m : mount_fs) : mount_fs :=
  MountFs (mf_config m) x (mf_fs m) (mf_layers m) (mf_traps m) (mf_namelen m) (mf_xino_mode m) (mf_stack_depth m) (mf_bdevs m) (mf_inuse m).
Definition set_mf_fs (x : list ovl_sb) (m : mount_fs) : mount_fs :=
  MountFs (mf_config m) (mf_upper m) x (mf_layers m) (mf_traps m) (mf_namelen m) (mf_xino_mode m) (mf_stack_depth m) (mf_bdevs m) (mf_inuse m).
Definition set_mf_layers (x : list mount_layer) (m : mount_fs) : mount_fs :=
  MountFs (mf_config m) (mf_upper m) (mf_fs m) x (mf_traps m) (mf_namelen m) (mf_xino_mode m) (mf_stack_depth m) (mf_bdevs m) (mf_inuse m).
Definition set_mf_traps (x : list Z) (m : mount_fs) : mount_fs :=
  MountFs (mf_config m) (mf_upper m) (mf_fs m) (mf_layers m) x (mf_namelen m) (mf_xino_mode m) (mf_stack_depth m) (mf_bdevs m) (mf_inuse m).
Definition set_mf_namelen (x : Z) (m : mount_fs) : mount_fs :=
  MountFs (mf_config m) (mf_upper m) (mf_fs m) (mf_layers m) (mf_traps m) x (mf_xino_mode m) (mf_stack_depth m) (mf_bdevs m) (mf_inuse m).
Definition set_mf_xino_mode (x : Z) (m : mount_fs) : mount_fs :=
  MountFs (mf_config m) (mf_upper m) (mf_fs m) (mf_layers m) (mf_traps m) (mf_namelen m) x (mf_stack_depth m) (mf_bdevs m) (mf_inuse m).
Definition set_mf_stack_depth (x : Z) (m : mount_fs) : mount_fs :=
  MountFs (mf_config m) (mf_upper m) (mf_fs m) (mf_layers m) (mf_traps m) (mf_namelen m) (mf_xino_mode m) x (mf_bdevs m) (mf_inuse m).
Definition set_mf_bdevs (x : nat) (m : mount_fs) : mount_fs :=
  MountFs (mf_config m) (mf_upper m) (mf_fs m) (mf_layers m) (mf_traps m) (mf_namelen m) (mf_xino_mode m) (mf_stack_depth m) x (mf_inuse m).
Definition set_mf_inuse (x : gset Z) (m : mount_fs) : mount_fs :=
  MountFs (mf_config m) (mf_upper m) (mf_fs m) (mf_layers m) (mf_traps m) (mf_namelen m) (mf_xino_mode m) (mf_stack_depth m) (mf_bdevs m) x.
Definition on_mf_config (f : ovl_config → ovl_config) (m : mount_fs) : mount_fs := set_mf_config (f (mf_config m)) m.
Definition numfs (m : mount_fs) : Z := Z.of_nat (length (mf_fs m)).

(** [u ≫= f] on results. *)
Definition rbind {A B} (r : res A) (f : A → res B) : res B := match r with inl e => inl e | inr a => f a end.
Notation "'let+' x := r 'in' k" := (rbind r (fun x => k)) (at level 10, x pattern, k at level 200) : ovl_scope.
(** An [int] result. *)
Definition rcheck (err : Z) : res unit := if err =? 0 then inr tt else inl err.

(** ** The kernel *)

Class MountLib (W : Type) := {
  kern_path : W → cstr → res path;
  is_idmapped_mnt : W → Z → bool;
  vfs_statfs : W → path → res Z;              (** [f_namelen] *)
  s_stack_depth : W → Z → Z;
  clone_private_mount : W → path → res Z;     (** the root of the new mount *)
  get_anon_bdev : W → nat → res Z;            (** the n-th device *)
  iget5_locked : W → nat → bool;              (** is there memory for the n-th trap? *)
  kmalloc_at : W → nat → bool                 (** is there memory for the n-th array? *)
}.
(** Every anonymous device number is given once; a super block is an object at
    an address of its own; a private mount of a path shows the directory of
    the path. *)
Class MountLaws {W} {K : Vfs W} (L : MountLib W) : Prop := {
  anon_bdev_unique w n m d : get_anon_bdev w n = inr d → get_anon_bdev w m = inr d → n = m;
  sb_address w a b : s_addr (sb_of w a) = s_addr (sb_of w b) → sb_of w a = sb_of w b;
  sb_not_null w a : s_addr (sb_of w a) ≠ 0;
  clone_root w p r : clone_private_mount w p = inr r → r = pa_dentry p
}.

Definition OVL_MAX_STACK : Z := 500.
Definition FILESYSTEM_MAX_STACK_DEPTH : Z := 2.

Section layers.
Context {W : Type} {K : Vfs W} {L : MountLib W} (w : W).

(** ** Directories in use (util.c) *)

Definition inode_addr (dentry : Z) : Z := from_option i_addr 0 (de_inode (dentry_of w dentry)).
Definition ovl_is_inuse (dentry : Z) (m : mount_fs) : bool := bool_decide (inode_addr dentry ∈ mf_inuse m).
Definition ovl_inuse_trylock (dentry : Z) (m : mount_fs) : bool * mount_fs :=
  if ovl_is_inuse dentry m then (false, m) else (true, set_mf_inuse ({[inode_addr dentry]} ∪ mf_inuse m) m).
Definition ovl_inuse_unlock (dentry : option Z) (m : mount_fs) : mount_fs :=
  match dentry with Some d => set_mf_inuse (mf_inuse m ∖ {[inode_addr d]}) m | None => m end.

(** ** Opening a lower directory *)

Definition ovl_mount_dir_noesc (name : cstr) : res path :=
  if negb (nonempty name) then inl (- EINVAL)
  else
    let+ p := kern_path w name in
    let d := dentry_of w (pa_dentry p) in
    if ovl_dentry_weird d then inl (- EINVAL)
    else if is_idmapped_mnt w (pa_mnt p) then inl (- EINVAL)
    else if negb (d_is_dir d) then inl (- EINVAL)
    else inr p.

Definition ovl_check_namelen (p : path) (m : mount_fs) : res mount_fs :=
  let+ namelen := vfs_statfs w p in inr (set_mf_namelen (Z.max (mf_namelen m) namelen) m).

Definition ovl_lower_dir (name : cstr) (m : mount_fs) : res (path * mount_fs) :=
  let+ p := ovl_mount_dir_noesc name in
  let+ m := ovl_check_namelen p m in
  let m := set_mf_stack_depth (Z.max (mf_stack_depth m) (s_stack_depth w (pa_dentry p))) m in
  let fh_type := ovl_can_decode_fh w (sb_of w (pa_dentry p)) in
  let c := mf_config m in
  let m := if (c_nfs_export c || (c_index c && negb (is_none (c_upperdir c)))) && (fh_type =? 0)
           then on_mf_config (λ c, set_c_nfs_export false (set_c_index false c)) m else m in
  let m := if (c_xino (mf_config m) =? OVL_XINO_AUTO) && negb (is_none (c_upperdir (mf_config m))) && (fh_type =? 0)
           then on_mf_config (set_c_xino OVL_XINO_OFF) m else m in
  let m := if negb (fh_type =? FILEID_INO32_GEN) then set_mf_xino_mode (-1) m else m in
  inr (p, m).

(** ** File systems *)

Definition ovl_report_in_use (m : mount_fs) : Z := if c_index (mf_config m) then - EBUSY else 0.

Definition ovl_allow_offline_changes (c : ovl_config) : bool :=
  negb (c_index c) && negb (c_metacopy c) && negb (c_redirect_dir c) && negb (c_xino c =? OVL_XINO_ON).

Definition set_os_bad_uuid (f : ovl_sb) : ovl_sb := OvlSb (os_sb f) (os_pseudo_dev f) true (os_is_lower f) (os_uuid f).
Definition set_os_is_lower (f : ovl_sb) : ovl_sb := OvlSb (os_sb f) (os_pseudo_dev f) (os_bad_uuid f) true (os_uuid f).

(** The first file system that satisfies a test. *)
Fixpoint find_fs (f : ovl_sb → bool) (l : list ovl_sb) (i : nat) : option nat :=
  match l with [] => None | x :: l' => if f x then Some i else find_fs f l' (S i) end.

(** The result, and the table with the flag that the loop sets. *)
Definition ovl_lower_uuid_ok (m : mount_fs) (uuid : list ascii) : bool * mount_fs :=
  let c := mf_config m in
  if negb (c_nfs_export c) && is_none (mf_upper m) then (true, m)
  else if ovl_allow_offline_changes c && bool_decide (uuid = uuid_null) then (false, m)
  else
    match find_fs (λ f, os_is_lower f && bool_decide (os_uuid f = uuid)) (mf_fs m) 0 with
    | Some i => (false, set_mf_fs (alter set_os_bad_uuid i (mf_fs m)) m)
    | None => (true, m)
    end.

Definition new_bdev (m : mount_fs) : res (Z * mount_fs) :=
  let+ d := get_anon_bdev w (mf_bdevs m) in inr (d, set_mf_bdevs (S (mf_bdevs m)) m).

Definition ovl_get_fsid (p : path) (m : mount_fs) : res (Z * mount_fs) :=
  let sb := sb_of w (pa_dentry p) in
  match find_fs (λ f, os_sb f =? s_addr sb) (mf_fs m) 0 with
  | Some i => inr (Z.of_nat i, m)
  | None =>
    let '(ok, m) := ovl_lower_uuid_ok m (s_uuid sb) in
    let m :=
      if ok then m
      else
        let m := if c_xino (mf_config m) =? OVL_XINO_AUTO then on_mf_config (set_c_xino OVL_XINO_OFF) m else m in
        if c_index (mf_config m) || c_nfs_export (mf_config m)
        then on_mf_config (λ c, set_c_nfs_export false (set_c_index false c)) m else m in
    let+ (dev, m) := new_bdev m in
    inr (numfs m, set_mf_fs (mf_fs m ++ [OvlSb (s_addr sb) dev (negb ok) false (s_uuid sb)]) m)
  end.

(** ** Traps: the roots of the layers *)

Definition ovl_get_trap_inode (dir : Z) (m : mount_fs) : res mount_fs :=
  let d := dentry_of w dir in
  if negb (d_is_dir d) then inl (- ENOTDIR)
  else
    let key := from_option i_addr 0 (de_inode d) in
    if bool_decide (key ∈ mf_traps m) then inl (- ELOOP)
    else if negb (iget5_locked w (length (mf_traps m))) then inl (- ENOMEM)
    else inr (set_mf_traps (key :: mf_traps m) m).
Definition ovl_setup_trap (dir : Z) (m : mount_fs) : res mount_fs := ovl_get_trap_inode dir m.

(** ** The layers *)

(** The body of the loop of [ovl_get_layers]. *)
Definition get_layer (p : path) (m : mount_fs) : res mount_fs :=
  let+ (fsid, m) := ovl_get_fsid p m in
  let+ m := ovl_setup_trap (pa_dentry p) m in
  let+ _ := rcheck (if ovl_is_inuse (pa_dentry p) m then ovl_report_in_use m else 0) in
  let+ mnt := clone_private_mount w p in
  let idx := 1 + Z.of_nat (length (mf_layers m)) in
  inr (set_mf_fs (alter set_os_is_lower (Z.to_nat fsid) (mf_fs m))
        (set_mf_layers (mf_layers m ++ [MountLayer mnt idx fsid]) m)).
Fixpoint get_layers_loop (stack : list path) (m : mount_fs) : res mount_fs :=
  match stack with
  | [] => inr m
  | p :: stack' => let+ m := get_layer p m in get_layers_loop stack' m
  end.

(** The end of [ovl_get_layers]: how many bits of an inode number hold the
    number of the file system. *)
Definition set_xino_mode (m : mount_fs) : mount_fs :=
  if numfs m - (if is_none (mf_upper m) then 1 else 0) =? 1 then set_mf_xino_mode 0 m
  else if c_xino (mf_config m) =? OVL_XINO_OFF then set_mf_xino_mode (-1) m
  else if mf_xino_mode m <? 0 then set_mf_xino_mode (Z.log2 (numfs m - 1) + 2) m
  else m.

Definition ovl_get_layers (stack : list path) (m : mount_fs) : res mount_fs :=
  if negb (kmalloc_at w 1) then inl (- ENOMEM)
  else
    let+ (dev, m) := new_bdev m in
    let upper_sb := match mf_upper m with
                    | Some u => OvlSb (s_addr (sb_of w u)) dev false false (s_uuid (sb_of w u))
                    | None => OvlSb 0 dev false false []
                    end in
    let+ m := get_layers_loop stack (set_mf_fs [upper_sb] m) in
    inr (set_xino_mode m).

(** The layer as the rest of the module sees it. *)
Definition layer_of (m : mount_fs) (l : mount_layer) : ovl_layer :=
  Layer (ml_mnt l) (ml_idx l) (ml_fsid l)
    (match mf_fs m !! Z.to_nat (ml_fsid l) with Some f => os_bad_uuid f | None => false end).

Fixpoint open_lower_dirs (names : list cstr) (m : mount_fs) : res (list path * mount_fs) :=
  match names with
  | [] => inr ([], m)
  | name :: names' =>
    let+ (p, m) := ovl_lower_dir name m in
    let+ (ps, m) := open_lower_dirs names' m in
    inr (p :: ps, m)
  end.

(** The root's entry: its lower stack. *)
Definition ovl_get_lowerstack (lower : list cstr) (m : mount_fs) : res (list ovl_path * mount_fs) :=
  if is_none (c_upperdir (mf_config m)) && Nat.eqb (length lower) 1 then inl (- EINVAL)
  else if negb (kmalloc_at w 0) then inl (- ENOMEM)
  else
    let+ (stack, m) := open_lower_dirs lower m in
    let m := set_mf_stack_depth (mf_stack_depth m + 1) m in
    if FILESYSTEM_MAX_STACK_DEPTH <? mf_stack_depth m then inl (- EINVAL)
    else
      let+ m := ovl_get_layers stack m in
      if negb (kmalloc_at w 2) then inl (- ENOMEM)
      else inr (zip_with (λ p l, OvlPath (layer_of m l) (pa_dentry p)) stack (mf_layers m), m).

(** ** Layers within layers *)

(** The walk to the root of [ovl_check_layer]: the ancestors, from the parent
    on.  [fuel] bounds the depth of the tree. *)
Fixpoint check_ancestors (fuel : nat) (is_lower : bool) (next : Z) (m : mount_fs) : Z :=
  match fuel with
  | O => 0
  | S fuel =>
    let parent := de_parent (dentry_of w next) in
    if parent =? next then 0
    else
      let err :=
        if is_lower && match de_inode (dentry_of w parent) with
                       | Some i => bool_decide (i_addr i ∈ mf_traps m)
                       | None => false
                       end
        then - ELOOP
        else if ovl_is_inuse parent m then ovl_report_in_use m else 0 in
      if negb (err =? 0) then err else check_ancestors fuel is_lower parent m
  end.
Definition ovl_check_layer (fuel : nat) (dentry : option Z) (is_lower : bool) (m : mount_fs) : Z :=
  match dentry with None => 0 | Some d => check_ancestors fuel is_lower d m end.

Fixpoint check_lower_layers (fuel : nat) (layers : list mount_layer) (m : mount_fs) : Z :=
  match layers with
  | [] => 0
  | l :: layers' =>
    let err := ovl_check_layer fuel (Some (ml_mnt l)) true m in
    if negb (err =? 0) then err else check_lower_layers fuel layers' m
  end.
Definition ovl_check_overlapping_layers (fuel : nat) (workbasedir : option Z) (m : mount_fs) : Z :=
  let upper :=
    match mf_upper m with
    | None => 0
    | Some u =>
      let err := ovl_check_layer fuel (Some u) false m in
      if negb (err =? 0) then err else ovl_check_layer fuel workbasedir false m
    end in
  if negb (upper =? 0) then upper else check_lower_layers fuel (mf_layers m) m.
End layers.
