(* ===== verification/OvlStack.v ===== *)
(** * The layers of a mount (super.c): what [ovl_get_lowerstack] guarantees

    The numbers of the layers and of their file systems, the width of the
    number of a file system in an inode number, the features that stay on,
    and that no layer is inside another one; with this the lookups find the
    state that their theorems assume. *)
From S2P Require Import Prelude CString OS OvlOptions OvlVfs OvlHandle OvlLogic OvlSim OvlLookup OvlLayers.
From Stdlib Require Import Sorting.Sorted.
Open Scope Z_scope.

Lemma rbind_inr {A B} (r : res A) (f : A → res B) b : rbind r f = inr b → ∃ a, r = inr a ∧ f a = inr b.
Proof. destruct r as [e|a]; [done|]. cbn. eauto. Qed.
Lemma rcheck_inr err u : rcheck err = inr u → err = 0.
Proof. unfold rcheck. destruct (err =? 0) eqn:E; [|done]. intros _. by to_prop. Qed.

(** One step of a function that succeeded. *)
Ltac ok_step H :=
  let a := fresh "a" in let Ha := fresh "Ha" in
  apply rbind_inr in H as (a & Ha & H).

Lemma find_fs_Some f l i n :
  find_fs f l i = Some n → ∃ x, (i <= n)%nat ∧ l !! (n - i)%nat = Some x ∧ f x = true.
Proof.
  revert i. induction l as [|x l IH]; intros i; cbn; [done|]. destruct (f x) eqn:E.
  - intros [= ->]. exists x. by rewrite Nat.sub_diag.
  - intros H. apply IH in H as (y & Hle & Hy & Hf). exists y.
    replace (n - i)%nat with (S (n - S i)) by lia. split; [lia|done].
Qed.
Lemma find_fs_None f l i : find_fs f l i = None → Forall (λ x, f x = false) l.
Proof. revert i. induction l as [|x l IH]; intros i; cbn; [by constructor|]. destruct (f x) eqn:E; [done|]. intros H. constructor; eauto. Qed.

Section stack.
Context {W : Type} {K : Vfs W} {L : MountLib W} {ML : MountLaws L} (w : W).
Implicit Types m : mount_fs.

(** ** The table of file systems *)

Definition dev_given (n : nat) (f : ovl_sb) : Prop := ∃ k, (k < n)%nat ∧ get_anon_bdev w k = inr (os_pseudo_dev f).

Definition entry_of (f : ovl_sb) (d : Z) : Prop := os_sb f = s_addr (sb_of w d) ∧ os_uuid f = s_uuid (sb_of w d).

(** One entry per file system, each with a device of its own; the first is
    that of the upper layer, or of none. *)
Record table_ok m : Prop := {
  tb_sb : NoDup (os_sb <$> mf_fs m);
  tb_dev : NoDup (os_pseudo_dev <$> mf_fs m);
  tb_given : Forall (dev_given (mf_bdevs m)) (mf_fs m);
  tb_from : Forall (λ f, os_sb f = 0 ∨ ∃ d, entry_of f d) (mf_fs m);
  tb_upper : is_none (mf_upper m) = is_none (c_upperdir (mf_config m))
}.

(** An entry, once made, keeps its file system. *)
Definition entry_kept (f f' : ovl_sb) : Prop :=
  os_sb f' = os_sb f ∧ os_pseudo_dev f' = os_pseudo_dev f ∧ os_uuid f' = os_uuid f ∧
  (os_is_lower f = true → os_is_lower f' = true).
#[export] Instance entry_kept_preorder : PreOrder entry_kept.
Proof. split; [by intros f|]. intros f g h (?&?&?&?) (?&?&?&?). repeat split; try congruence. auto. Qed.

Definition table_grows (t t' : list ovl_sb) : Prop := ∀ i f, t !! i = Some f → ∃ f', t' !! i = Some f' ∧ entry_kept f f'.
#[export] Instance table_grows_preorder : PreOrder table_grows.
Proof.
  split.
  - intros t i f H. by exists f.
  - intros t u v H1 H2 i f Hf. destruct (H1 _ _ Hf) as (g & Hg & E1). destruct (H2 _ _ Hg) as (h & Hh & E2).
    exists h. split; [done|]. by etransitivity.
Qed.

Lemma alter_grows g (t : list ovl_sb) (i : nat) : (∀ f, entry_kept f (g f)) → table_grows t (alter g i t).
Proof.
  intros Hg j f Hf. destruct (decide (i = j)) as [->|].
  - exists (g f). by rewrite list_lookup_alter_eq, Hf.
  - exists f. by rewrite list_lookup_alter_ne.
Qed.
Lemma snoc_grows t f : table_grows t (t ++ [f]).
Proof. intros i g Hg. exists g. split; [by apply lookup_app_l_Some|done]. Qed.

Lemma alter_fmap {B} (h : ovl_sb → B) g (t : list ovl_sb) (i : nat) : (∀ f, h (g f) = h f) → h <$> alter g i t = h <$> t.
Proof.
  intros Hg. apply list_eq. intros j. rewrite !list_lookup_fmap. destruct (decide (i = j)) as [->|].
  - rewrite list_lookup_alter_eq. destruct (t !! j); cbn; [by rewrite Hg|done].
  - by rewrite list_lookup_alter_ne.
Qed.

Lemma alter_Forall P g (t : list ovl_sb) (i : nat) : (∀ f, P f → P (g f)) → Forall P t → Forall P (alter g i t).
Proof.
  intros Hg Ht. apply Forall_lookup. intros j f Hf. rewrite Forall_lookup in Ht. destruct (decide (i = j)) as [->|Hne].
  - rewrite list_lookup_alter_eq in Hf. destruct (t !! j) as [f0|] eqn:E; [|done]. injection Hf as <-. eauto.
  - rewrite list_lookup_alter_ne in Hf by done. eauto.
Qed.

Definition keeps_name (g : ovl_sb → ovl_sb) : Prop :=
  ∀ f, os_sb (g f) = os_sb f ∧ os_pseudo_dev (g f) = os_pseudo_dev f ∧ os_uuid (g f) = os_uuid f.

Lemma alter_table_ok m g i :
  keeps_name g → table_ok m → table_ok (set_mf_fs (alter g i (mf_fs m)) m).
Proof.
  intros Hg [H1 H2 H3 H4 H5]. split; cbn; [| | | |done].
  - rewrite alter_fmap; [done|]. intros f. apply Hg.
  - rewrite alter_fmap; [done|]. intros f. apply Hg.
  - apply alter_Forall; [|done]. intros f (k & Hk & Hd). exists k. by rewrite (proj1 (proj2 (Hg f))).
  - apply alter_Forall; [|done]. intros f Hf. unfold entry_of. destruct (Hg f) as (-> & _ & ->). exact Hf.
Qed.

(** What the steps below leave alone. *)
Record same_rest m m' : Prop := {
  sr_upper : mf_upper m' = mf_upper m;
  sr_layers : mf_layers m' = mf_layers m;
  sr_traps : mf_traps m' = mf_traps m;
  sr_mode : mf_xino_mode m' = mf_xino_mode m;
  sr_inuse : mf_inuse m' = mf_inuse m
}.

Lemma uuid_ok_table m uuid ok m' :
  ovl_lower_uuid_ok m uuid = (ok, m') → table_ok m →
  table_ok m' ∧ table_grows (mf_fs m) (mf_fs m') ∧ length (mf_fs m') = length (mf_fs m) ∧
  os_sb <$> mf_fs m' = os_sb <$> mf_fs m ∧ same_rest m m' ∧ mf_bdevs m' = mf_bdevs m ∧ mf_config m' = mf_config m.
Proof.
  intros H Ht. unfold ovl_lower_uuid_ok in H.
  destruct (negb _ && _); [by injection H as <- <-|]. destruct (ovl_allow_offline_changes _ && _); [by injection H as <- <-|].
  destruct (find_fs _ _ _) as [i|]; injection H as <- <-; [|done].
  split; [by apply alter_table_ok|]. split; [by apply alter_grows|]. cbn.
  rewrite length_alter. split; [done|]. by rewrite alter_fmap.
Qed.

Lemma new_bdev_inr m d m' :
  new_bdev w m = inr (d, m') → get_anon_bdev w (mf_bdevs m) = inr d ∧ m' = set_mf_bdevs (S (mf_bdevs m)) m.
Proof. unfold new_bdev. intros H. ok_step H. by injection H as <- <-. Qed.

Lemma dev_given_fresh n t d :
  Forall (dev_given n) t → get_anon_bdev w n = inr d → d ∉ (os_pseudo_dev <$> t).
Proof.
  intros Ht Hd Hin. apply list_elem_of_fmap in Hin as (f & -> & Hf). rewrite Forall_forall in Ht.
  destruct (Ht _ Hf) as (k & Hk & Hg). pose proof (anon_bdev_unique _ _ _ _ Hg Hd). lia.
Qed.

Lemma NoDup_snoc (l : list Z) x : NoDup l → x ∉ l → NoDup (l ++ [x]).
Proof.
  intros Hl Hx. apply NoDup_app. split; [done|]. split; [|apply NoDup_singleton].
  intros y Hy Hy'. apply list_elem_of_singleton in Hy'. by subst.
Qed.

Lemma snoc_table_ok m f :
  table_ok m → os_sb f ∉ (os_sb <$> mf_fs m) → get_anon_bdev w (mf_bdevs m) = inr (os_pseudo_dev f) →
  (∃ d, entry_of f d) → table_ok (set_mf_fs (mf_fs m ++ [f]) (set_mf_bdevs (S (mf_bdevs m)) m)).
Proof.
  intros [H1 H2 H3 H4 H5] Hs Hd Hf. pose proof (dev_given_fresh _ _ _ H3 Hd) as Hn.
  split; cbn; rewrite ?fmap_app; [by apply NoDup_snoc|by apply NoDup_snoc| | |done].
  - apply Forall_app. split; [|repeat constructor; exists (mf_bdevs m); split; [lia|done]].
    eapply Forall_impl; [exact H3|]. intros g (k & Hk & Hg). exists k. split; [lia|done].
  - apply Forall_app. split; [done|]. constructor; [by right|done].
Qed.

(** The configuration only loses features. *)
Record loses (c c' : ovl_config) : Prop := {
  ls_index : c_index c' = true → c_index c = true;
  ls_export : c_nfs_export c' = true → c_nfs_export c = true;
  ls_upper : c_upperdir c' = c_upperdir c;
  ls_xino : c_xino c' = c_xino c ∨ c_xino c' = OVL_XINO_OFF
}.
#[export] Instance loses_preorder : PreOrder loses.
Proof.
  split; [intros c; split; auto|]. intros a b c [i1 e1 u1 x1] [i2 e2 u2 x2].
  split; [auto|auto|congruence|]. destruct x2 as [->|]; [done|by right].
Qed.

(** ** [ovl_get_fsid] *)

(** Handles are needed: the index with an upper layer, or NFS export. *)
Definition decodes (c : ovl_config) : bool := c_nfs_export c || (c_index c && negb (is_none (c_upperdir c))).

Lemma loses_decodes c c' : loses c c' → decodes c' = true → decodes c = true.
Proof.
  intros [Hi He Hu _]. unfold decodes. rewrite Hu, !orb_true_iff, !andb_true_iff. intros [H|[H1 H2]]; auto.
Qed.

(** Every file system but the first is that of a lower layer, except perhaps
    the one just added. *)
Definition lowers_but (x : nat) m : Prop := ∀ i f, (1 <= i)%nat → i ≠ x → mf_fs m !! i = Some f → os_is_lower f = true.

(** While handles are needed, the uuid tells the lower file systems apart. *)
Definition uuids_differ m : Prop :=
  decodes (mf_config m) = true →
  ∀ i j f g, (1 <= i < j)%nat → mf_fs m !! i = Some f → mf_fs m !! j = Some g → os_uuid f ≠ os_uuid g.

Lemma uuid_ok_true m uuid m' :
  ovl_lower_uuid_ok m uuid = (true, m') → table_ok m → lowers_but 0 m → decodes (mf_config m) = true →
  m' = m ∧ ∀ i f, (1 <= i)%nat → mf_fs m !! i = Some f → os_uuid f ≠ uuid.
Proof.
  intros H Ht Hl Hd. unfold ovl_lower_uuid_ok in H. rewrite (tb_upper _ Ht) in H.
  assert (Hc : negb (c_nfs_export (mf_config m)) && is_none (c_upperdir (mf_config m)) = false).
  { unfold decodes in Hd. destruct (c_nfs_export _); [done|]. by destruct (c_index _), (is_none _). }
  rewrite Hc in H. destruct (ovl_allow_offline_changes _ && _); [done|].
  destruct (find_fs _ _ _) eqn:E; [done|]. injection H as <-. split; [done|]. intros i f Hi Hf Hu.
  apply find_fs_None in E. rewrite Forall_lookup in E. specialize (E _ _ Hf). cbn in E.
  rewrite (Hl i f Hi ltac:(lia) Hf), bool_decide_eq_true_2 in E by done. done.
Qed.

Record fsid_spec (p : path) m (fsid : Z) m' : Prop := {
  fi_table : table_ok m';
  fi_grows : table_grows (mf_fs m) (mf_fs m');
  fi_rest : same_rest m m';
  fi_loses : loses (mf_config m) (mf_config m');
  fi_pos : 0 <= fsid;
  fi_entry : ∃ f, mf_fs m' !! Z.to_nat fsid = Some f ∧ entry_of f (pa_dentry p);
  fi_length : (length (mf_fs m') <= S (length (mf_fs m)))%nat;
  fi_lowers : lowers_but (Z.to_nat fsid) m';
  fi_uuids : uuids_differ m → uuids_differ m'
}.

Lemma get_fsid_old p m i f :
  table_ok m → lowers_but 0 m → mf_fs m !! i = Some f → os_sb f = s_addr (sb_of w (pa_dentry p)) →
  fsid_spec p m (Z.of_nat i) m.
Proof.
  intros Ht Hl Hf Hs. split; try done; rewrite ?Nat2Z.id; try lia.
  - exists f. split; [done|]. split; [done|]. pose proof (tb_from _ Ht) as H. rewrite Forall_lookup in H.
    destruct (H _ _ Hf) as [H0|(d & Hd & Hu)]; [by destruct (sb_not_null w (pa_dentry p)); rewrite <-Hs|].
    rewrite Hu. f_equal. apply sb_address. congruence.
  - intros j g Hj _. apply Hl; lia.
Qed.

(** The features that a bad uuid switches off. *)
Definition drop_features m : mount_fs :=
  let m := if c_xino (mf_config m) =? OVL_XINO_AUTO then on_mf_config (set_c_xino OVL_XINO_OFF) m else m in
  if c_index (mf_config m) || c_nfs_export (mf_config m)
  then on_mf_config (λ c, set_c_nfs_export false (set_c_index false c)) m else m.
Lemma drop_features_spec m :
  mf_fs (drop_features m) = mf_fs m ∧ mf_bdevs (drop_features m) = mf_bdevs m ∧ same_rest m (drop_features m) ∧
  loses (mf_config m) (mf_config (drop_features m)) ∧ decodes (mf_config (drop_features m)) = false.
Proof.
  unfold drop_features, on_mf_config, decodes. destruct (c_xino (mf_config m) =? OVL_XINO_AUTO); cbn;
    destruct (c_index (mf_config m)) eqn:Ei, (c_nfs_export (mf_config m)) eqn:Ee; cbn;
    rewrite ?Ei, ?Ee; (do 3 (split; [done|])); (split; [split; cbn; auto; congruence|done]).
Qed.
Lemma table_ok_same m m' :
  mf_fs m' = mf_fs m → mf_bdevs m' = mf_bdevs m → same_rest m m' → loses (mf_config m) (mf_config m') →
  table_ok m → table_ok m'.
Proof. intros Hf Hb Hr Hl [A1 A2 A3 A4 A5]. split; rewrite ?Hf, ?Hb; [done..|]. by rewrite (sr_upper _ _ Hr), (ls_upper _ _ Hl). Qed.

Lemma get_fsid_spec p m fsid m' :
  ovl_get_fsid w p m = inr (fsid, m') → table_ok m → lowers_but 0 m → fsid_spec p m fsid m'.
Proof.
  intros H Ht Hlow. unfold ovl_get_fsid in H. destruct (find_fs _ _ _) as [i|] eqn:E.
  { injection H as <- <-. apply find_fs_Some in E as (f & _ & Hf & Hs). rewrite Nat.sub_0_r in Hf. to_prop.
    by apply (get_fsid_old _ _ _ f). }
  apply find_fs_None in E. destruct (ovl_lower_uuid_ok _ _) as [ok m1] eqn:Eu.
  destruct (uuid_ok_table _ _ _ _ Eu Ht) as (Ht1 & Hg1 & Hl1 & Hs1 & Hr1 & Hb1 & Hc1).
  fold (drop_features m1) in H. ok_step H. destruct a as [dev m3].
  apply new_bdev_inr in Ha as [Hd ->]. injection H as <- <-.
  destruct (drop_features_spec m1) as (Ff & Fb & Fr & Fl & Fd).
  set (m2 := if ok then m1 else drop_features m1) in *.
  assert (Hm2 : mf_fs m2 = mf_fs m1 ∧ mf_bdevs m2 = mf_bdevs m1 ∧ same_rest m1 m2 ∧ loses (mf_config m1) (mf_config m2))
    by (unfold m2; destruct ok; done).
  destruct Hm2 as (Hf2 & Hb2 & Hr2 & Hl2).
  set (f := OvlSb (s_addr (sb_of w (pa_dentry p))) dev (negb ok) false (s_uuid (sb_of w (pa_dentry p)))).
  assert (Hlen : numfs (set_mf_bdevs (S (mf_bdevs m2)) m2) = Z.of_nat (length (mf_fs m))) by (unfold numfs; cbn; congruence).
  split; rewrite ?Hlen, ?Nat2Z.id; cbn [mf_fs mf_bdevs set_mf_fs set_mf_bdevs mf_config].
  - apply (snoc_table_ok m2 f); [by apply (table_ok_same m1)| |done|by exists (pa_dentry p)].
    rewrite Hf2, Hs1. cbn. intros Hin. apply list_elem_of_fmap in Hin as (g & Hsf & Hg).
    rewrite Forall_forall in E. specialize (E _ Hg). cbn in E. to_prop. done.
  - rewrite Hf2. etransitivity; [exact Hg1|]. apply snoc_grows.
  - destruct Hr1, Hr2. split; cbn; congruence.
  - by rewrite <-Hc1.
  - lia.
  - exists f. split; [|done]. rewrite Hf2, <-Hl1. by apply list_lookup_middle.
  - rewrite length_app, Hf2, Hl1. cbn. lia.
  - intros i g Hi Hne Hg. cbn in Hg. rewrite Hf2 in Hg. apply lookup_app_Some in Hg as [Hg|[Hge Hg]].
    + destruct (lookup_lt_is_Some_2 (mf_fs m) i) as [g0 Hg0]; [rewrite <-Hl1; by eapply lookup_lt_Some|].
      destruct (Hg1 _ _ Hg0) as (g' & Hg' & _ & _ & _ & Hk). rewrite Hg in Hg'. injection Hg' as <-.
      apply Hk, (Hlow i); [done|lia|done].
    + apply list_lookup_singleton_Some in Hg as [Hg _]. lia.
  - intros Hu Hdec i j g h Hij Hg Hh. cbn in Hdec, Hg, Hh. rewrite Hf2 in Hg, Hh.
    assert (ok = true) as -> by (unfold m2 in Hdec; destruct ok; [done|congruence]).
    pose proof (loses_decodes _ _ Hl2 Hdec) as Hdec1. rewrite Hc1 in Hdec1.
    destruct (uuid_ok_true _ _ _ Eu Ht Hlow Hdec1) as [-> Hno].
    apply lookup_app_Some in Hh as [Hh|[Hge Hh]].
    + rewrite lookup_app_l in Hg by (apply lookup_lt_Some in Hh; lia). by apply (Hu Hdec1 i j).
    + apply list_lookup_singleton_Some in Hh as [Hj <-]. cbn.
      rewrite lookup_app_l in Hg by lia. apply (Hno i); [lia|done].
Qed.

(** ** The loop of [ovl_get_layers] *)

(** The inode that guards the root of a layer. *)
Definition trap_of (p : path) : Z := from_option i_addr 0 (de_inode (dentry_of w (pa_dentry p))).

(** The layer made for a path. *)
Record layer_fits m (i : nat) (p : path) (l : mount_layer) : Prop := {
  lf_idx : ml_idx l = Z.of_nat (S i);
  lf_mnt : ml_mnt l = pa_dentry p;
  lf_fsid : 0 <= ml_fsid l;
  lf_entry : ∃ f, mf_fs m !! Z.to_nat (ml_fsid l) = Some f ∧ entry_of f (pa_dentry p)
}.

Lemma grows_entry t t' i f p :
  table_grows t t' → t !! i = Some f → entry_of f p → ∃ f', t' !! i = Some f' ∧ entry_of f' p.
Proof.
  intros Hg Hf [Hs Hu]. destruct (Hg _ _ Hf) as (f' & Hf' & Hs' & _ & Hu' & _). exists f'.
  split; [done|]. split; congruence.
Qed.
Lemma layer_fits_grows m m' i p l : table_grows (mf_fs m) (mf_fs m') → layer_fits m i p l → layer_fits m' i p l.
Proof. intros Hg [H1 H2 H3 (f & Hf & He)]. split; try done. by eapply grows_entry. Qed.

Record layers_inv (m0 : mount_fs) (done : list path) m : Prop := {
  li_table : table_ok m;
  li_lowers : lowers_but 0 m;
  li_uuids : uuids_differ m;
  li_grows : table_grows (mf_fs m0) (mf_fs m);
  li_count : (length (mf_fs m) <= length (mf_fs m0) + length done)%nat;
  li_length : length (mf_layers m) = length done;
  li_fits : ∀ i p l, done !! i = Some p → mf_layers m !! i = Some l → layer_fits m i p l;
  li_traps : mf_traps m = rev (trap_of <$> done) ++ mf_traps m0;
  li_exclusive : NoDup (mf_traps m0) → NoDup (mf_traps m);
  li_upper : mf_upper m = mf_upper m0;
  li_mode : mf_xino_mode m = mf_xino_mode m0;
  li_loses : loses (mf_config m0) (mf_config m);
  li_inuse : mf_inuse m = mf_inuse m0
}.

Lemma set_lower_keeps : keeps_name set_os_is_lower.
Proof. by intros f. Qed.
Lemma set_lower_kept f : entry_kept f (set_os_is_lower f).
Proof. by repeat split. Qed.

Lemma setup_trap_inr d m m' :
  ovl_setup_trap w d m = inr m' →
  let t := from_option i_addr 0 (de_inode (dentry_of w d)) in (t ∉ mf_traps m) ∧ m' = set_mf_traps (t :: mf_traps m) m.
Proof.
  unfold ovl_setup_trap, ovl_get_trap_inode. intros H. destruct (negb _); [done|]. cbv zeta in H.
  destruct (bool_decide _) eqn:E; [done|]. to_prop. destruct (negb _); [done|]. by injection H as <-.
Qed.

(** The state after a layer is added. *)
Lemma get_layer_inr p m m' :
  get_layer w p m = inr m' →
  ∃ fsid m1, ovl_get_fsid w p m = inr (fsid, m1) ∧ (trap_of p ∉ mf_traps m1) ∧
    m' = set_mf_fs (alter set_os_is_lower (Z.to_nat fsid) (mf_fs m1))
           (set_mf_layers (mf_layers m1 ++ [MountLayer (pa_dentry p) (1 + Z.of_nat (length (mf_layers m1))) fsid])
             (set_mf_traps (trap_of p :: mf_traps m1) m1)).
Proof.
  unfold get_layer. intros H. ok_step H. destruct a as [fsid m1]. ok_step H. ok_step H. ok_step H.
  apply setup_trap_inr in Ha0 as [Hn ->]. apply clone_root in Ha2 as ->. injection H as <-.
  exists fsid, m1. done.
Qed.

Lemma get_layer_inv m0 done p m m' :
  layers_inv m0 done m → get_layer w p m = inr m' → layers_inv m0 (done ++ [p]) m'.
Proof.
  intros I H. apply get_layer_inr in H as (fsid & m1 & Hf & Hn & ->).
  destruct (get_fsid_spec _ _ _ _ Hf (li_table _ _ _ I) (li_lowers _ _ _ I)) as [F1 F2 F3 F4 F5 F6 F7 F8 F9].
  destruct F3 as [R1 R2 R3 R4 R5]. destruct I as [I1 I2 I3 I4 I5 I6 I7 I8 I9 I10 I11 I12 I13].
  set (g := alter set_os_is_lower (Z.to_nat fsid) (mf_fs m1)).
  assert (Hg : table_grows (mf_fs m1) g) by apply alter_grows, set_lower_kept.
  assert (Hgm : table_grows (mf_fs m) g) by (etransitivity; [exact F2|exact Hg]).
  split; cbn.
  - destruct (alter_table_ok m1 set_os_is_lower (Z.to_nat fsid) set_lower_keeps F1) as [A1 A2 A3 A4 A5].
    by split.
  - intros i f Hi _ Hlk. cbn in Hlk. unfold g in Hlk. destruct (decide (Z.to_nat fsid = i)) as [<-|Hne].
    + rewrite list_lookup_alter_eq in Hlk. destruct (mf_fs m1 !! _); [|done]. by injection Hlk as <-.
    + rewrite list_lookup_alter_ne in Hlk by done. by apply (F8 i).
  - intros Hd i j f h Hij Hlf Hlh. cbn in Hd, Hlf, Hlh. specialize (F9 I3 Hd).
    assert (Hback : ∀ k x, g !! k = Some x → ∃ y, mf_fs m1 !! k = Some y ∧ os_uuid x = os_uuid y).
    { intros k x. unfold g. destruct (decide (Z.to_nat fsid = k)) as [<-|Hne].
      - rewrite list_lookup_alter_eq. destruct (mf_fs m1 !! _) as [y|]; [|done]. intros [= <-]. by exists y.
      - rewrite list_lookup_alter_ne by done. intros Hx. by exists x. }
    destruct (Hback _ _ Hlf) as (y & Hy & ->). destruct (Hback _ _ Hlh) as (z & Hz & ->). by apply (F9 i j).
  - by etransitivity.
  - unfold g. rewrite length_alter, length_app. cbn. lia.
  - rewrite R2, !length_app, I6. done.
  - intros i q l Hq Hl. rewrite R2 in Hl. apply lookup_app_Some in Hq as [Hq|[Hge Hq]].
    + rewrite lookup_app_l in Hl by (rewrite I6; by eapply lookup_lt_Some).
      apply (layer_fits_grows m); [exact Hgm|]. by apply I7.
    + rewrite lookup_app_r in Hl by lia. rewrite I6 in Hl. apply list_lookup_singleton_Some in Hq as [Hi ->].
      apply list_lookup_singleton_Some in Hl as [_ <-]. destruct F6 as (f & Hlk & He).
      split; cbn; [lia|done|done|]. exact (grows_entry _ _ _ _ _ Hg Hlk He).
  - rewrite R3, I8, fmap_app, rev_app_distr. done.
  - intros H0. constructor; [done|]. rewrite R3. by apply I9.
  - congruence.
  - congruence.
  - by etransitivity.
  - congruence.
Qed.

Lemma get_layers_loop_inv m0 done stack m m' :
  layers_inv m0 done m → get_layers_loop w stack m = inr m' → layers_inv m0 (done ++ stack) m'.
Proof.
  revert done m. induction stack as [|p stack IH]; intros done m I H; cbn in H.
  - injection H as <-. by rewrite app_nil_r.
  - ok_step H. apply (get_layer_inv _ _ _ _ _ I) in Ha. apply (IH _ _ Ha) in H. by rewrite <-app_assoc in H.
Qed.

(** ** [ovl_get_layers] *)

(** The state before the lower layers are added: the upper layer is there if
    one is configured. *)
Record before_layers m : Prop := {
  bl_layers : mf_layers m = [];
  bl_upper : is_none (mf_upper m) = is_none (c_upperdir (mf_config m))
}.

(** The number of the upper layer's super block in the table. *)
Definition upper_addr m : Z := match mf_upper m with Some u => s_addr (sb_of w u) | None => 0 end.

Lemma set_xino_mode_only m : ∃ x, set_xino_mode m = set_mf_xino_mode x m.
Proof.
  unfold set_xino_mode. destruct (_ =? 1); [by eexists|]. destruct (_ =? OVL_XINO_OFF); [by eexists|].
  destruct (_ <? 0); [by eexists|]. exists (mf_xino_mode m). by destruct m.
Qed.

Lemma get_layers_inr stack m m' :
  before_layers m → ovl_get_layers w stack m = inr m' →
  ∃ m1 m2 usb, layers_inv m1 stack m2 ∧ m' = set_xino_mode m2 ∧ mf_fs m1 = [usb] ∧ os_sb usb = upper_addr m ∧
    mf_config m1 = mf_config m ∧ same_rest m m1.
Proof.
  intros [Hl Hu] H. unfold ovl_get_layers in H. destruct (negb _); [done|]. ok_step H. destruct a as [dev m0].
  apply new_bdev_inr in Ha as [Hd ->]. ok_step H. injection H as <-.
  set (usb := match mf_upper _ with Some _ => _ | None => _ end) in Ha.
  set (m1 := set_mf_fs [usb] _) in Ha.
  exists m1, a, usb. split; [|split; [done|split; [done|split; [|done]]]].
  2:{ unfold usb, upper_addr. cbn. by destruct (mf_upper m). }
  rewrite <-(app_nil_l stack). apply (get_layers_loop_inv m1 [] stack m1); [|done].
  split; cbn; rewrite ?Hl; try done.
  2: by intros [|i] f ?; [lia|].
  2: intros _ [|i] [|j] f g ?; [lia..|done].
  split; cbn; [apply NoDup_singleton|apply NoDup_singleton| | |done].
  - repeat constructor. exists (mf_bdevs m). split; [lia|]. unfold usb. cbn. by destruct (mf_upper m).
  - apply Forall_singleton. unfold usb. cbn. destruct (mf_upper m) as [u|]; [right; by exists u|by left].
Qed.

Lemma table_index m i j f g :
  table_ok m → mf_fs m !! i = Some f → mf_fs m !! j = Some g → os_sb f = os_sb g → i = j.
Proof.
  intros Ht Hf Hg Hs. eapply NoDup_lookup; [apply (tb_sb _ Ht)| |]; rewrite list_lookup_fmap.
  - by rewrite Hf.
  - rewrite Hg. cbn. by rewrite Hs.
Qed.

Lemma same_fsid m i j p q l k :
  table_ok m → layer_fits m i p l → layer_fits m j q k →
  ml_fsid l = ml_fsid k ↔ sb_of w (pa_dentry p) = sb_of w (pa_dentry q).
Proof.
  intros Ht [_ _ Hl (f & Hf & Hfs & _)] [_ _ Hk (g & Hg & Hgs & _)]. split.
  - intros E. apply sb_address. rewrite E, Hg in Hf. injection Hf as ->. congruence.
  - intros E. assert (Z.to_nat (ml_fsid l) = Z.to_nat (ml_fsid k)) by (apply (table_index m _ _ f g); [done..|]; congruence). lia.
Qed.

Lemma first_entry m0 stack m2 usb :
  layers_inv m0 stack m2 → mf_fs m0 = [usb] → ∃ f, mf_fs m2 !! 0%nat = Some f ∧ os_sb f = os_sb usb.
Proof.
  intros I H. destruct (li_grows _ _ _ I 0%nat usb) as (f & Hf & Hs & _); [by rewrite H|]. by exists f.
Qed.

Lemma upper_fsid m i p l u f :
  table_ok m → layer_fits m i p l → mf_fs m !! 0%nat = Some f → os_sb f = s_addr (sb_of w u) →
  ml_fsid l = 0 ↔ sb_of w (pa_dentry p) = sb_of w u.
Proof.
  intros Ht [_ _ Hl (g & Hg & Hgs & _)] Hf Hs. split; intros E.
  - apply sb_address. rewrite E in Hg. change (Z.to_nat 0) with 0%nat in Hg.
    rewrite Hf in Hg. injection Hg as <-. congruence.
  - assert (Z.to_nat (ml_fsid l) = 0%nat) by (apply (table_index m _ _ g f); [done..|]; congruence). lia.
Qed.

Lemma get_layers_numbers stack m m' :
  before_layers m → ovl_get_layers w stack m = inr m' →
  length (mf_layers m') = length stack ∧ NoDup (os_pseudo_dev <$> mf_fs m') ∧
  (∀ i p l, stack !! i = Some p → mf_layers m' !! i = Some l →
     ml_idx l = Z.of_nat (S i) ∧ ml_mnt l = pa_dentry p ∧ 0 <= ml_fsid l < numfs m' ∧
     (∀ u, mf_upper m = Some u → ml_fsid l = 0 ↔ sb_of w (pa_dentry p) = sb_of w u) ∧
     (mf_upper m = None → ml_fsid l ≠ 0) ∧
     ∀ j q k, stack !! j = Some q → mf_layers m' !! j = Some k →
       ml_fsid l = ml_fsid k ↔ sb_of w (pa_dentry p) = sb_of w (pa_dentry q)).
Proof.
  intros Hb H. destruct (get_layers_inr _ _ _ Hb H) as (m1 & m2 & usb & I & -> & Hf1 & Hs1 & _ & Hr).
  destruct (first_entry _ _ _ _ I Hf1) as (f0 & Hf0 & Hs0). destruct (set_xino_mode_only m2) as [x ->].
  pose proof I as [I1 _ _ _ _ I6 I7 _ _ _ _ _]. cbn. split; [done|]. split; [apply I1|]. intros i p l Hp Hl.
  pose proof (I7 _ _ _ Hp Hl) as Hfit. pose proof Hfit as [Hx Hm Hpos (f & Hf & He)].
  split; [done|]. split; [done|]. split.
  { split; [done|]. apply lookup_lt_Some in Hf. unfold numfs. cbn. lia. }
  split; [|split].
  - intros u Hu. apply (upper_fsid m2 i p l u f0); [done..|]. rewrite Hs0, Hs1. unfold upper_addr. by rewrite Hu.
  - intros Hu H0. rewrite H0 in Hf. change (Z.to_nat 0) with 0%nat in Hf. apply (sb_not_null w (pa_dentry p)). destruct He as [<- _].
    rewrite Hf0 in Hf. injection Hf as <-. rewrite Hs0, Hs1. unfold upper_addr. by rewrite Hu.
  - intros j q k Hq Hk. apply (same_fsid m2 i j); [done..|]. by apply I7.
Qed.


(** every layer has its position as its number and its directory as its root;
    two layers have the same file system number exactly when they are on the
    same file system, number 0 is that of the upper layer, and every number
    has an anonymous device of its own. *)
Theorem ovl_get_layers_numbering stack m m' :
  before_layers m → ovl_get_layers w stack m = inr m' →
  length (mf_layers m') = length stack ∧ NoDup (os_pseudo_dev <$> mf_fs m') ∧
  (∀ i p l, stack !! i = Some p → mf_layers m' !! i = Some l →
     ml_idx l = Z.of_nat (S i) ∧ ml_mnt l = pa_dentry p ∧ 0 <= ml_fsid l < numfs m' ∧
     (∀ u, mf_upper m = Some u → ml_fsid l = 0 ↔ sb_of w (pa_dentry p) = sb_of w u) ∧
     (mf_upper m = None → ml_fsid l ≠ 0) ∧
     ∀ j q k, stack !! j = Some q → mf_layers m' !! j = Some k →
       ml_fsid l = ml_fsid k ↔ sb_of w (pa_dentry p) = sb_of w (pa_dentry q)).
Proof. apply get_layers_numbers. Qed.

(** ** The bits of an inode number *)

(** [xino_mode] before the layers: off, the spare bits of a 32-bit inode
    number, or -1 when a file system uses more. *)
Definition mode_ok m : Prop :=
  mf_xino_mode m = -1 ∨ mf_xino_mode m = 32 ∨ c_xino (mf_config m) = OVL_XINO_OFF.

Lemma get_layers_bits stack m m' l :
  before_layers m → mode_ok m → Z.of_nat (length stack) <= OVL_MAX_STACK →
  ovl_get_layers w stack m = inr m' → l ∈ mf_layers m' → 0 < mf_xino_mode m' →
  mf_xino_mode m' <= 32 ∧ ml_fsid l < 2 ^ (mf_xino_mode m' - 1).
Proof.
  intros Hb Hm Hlen H Hl Hx. destruct (get_layers_inr _ _ _ Hb H) as (m1 & m2 & usb & I & -> & Hf1 & _ & Hc1 & Hr).
  assert (Hfsid : 0 <= ml_fsid l < numfs m2).
  { destruct (set_xino_mode_only m2) as [x E]. rewrite E in Hl. cbn in Hl. apply list_elem_of_lookup in Hl as [i Hi].
    destruct (lookup_lt_is_Some_2 stack i) as [p Hp]; [rewrite <-(li_length _ _ _ I); by eapply lookup_lt_Some|].
    destruct (li_fits _ _ _ I _ _ _ Hp Hi) as [_ _ Hpos (f & Hf & _)]. split; [done|].
    apply lookup_lt_Some in Hf. unfold numfs. lia. }
  assert (Hn : numfs m2 <= OVL_MAX_STACK + 1).
  { pose proof (li_count _ _ _ I) as Hc. rewrite Hf1 in Hc. cbn in Hc. unfold numfs. lia. }
  clear Hl. revert Hx. unfold set_xino_mode, OVL_MAX_STACK in *. destruct (_ =? 1) eqn:E1; [cbn; lia|].
  destruct (_ =? OVL_XINO_OFF) eqn:E2; [cbn; lia|]. to_prop. destruct (mf_xino_mode m2 <? 0) eqn:E3; cbn; intros Hx.
  - assert (Hpos : 0 < numfs m2 - 1 ∨ numfs m2 = 1) by lia. destruct Hpos as [Hpos|Hone].
    + pose proof (Z.log2_spec _ Hpos) as [_ Hlt]. pose proof (Z.log2_le_mono (numfs m2 - 1) 500 ltac:(lia)) as Hle.
      change (Z.log2 500) with 8 in Hle. split; [lia|].
      replace (Z.log2 (numfs m2 - 1) + 2 - 1) with (Z.succ (Z.log2 (numfs m2 - 1))) by lia. lia.
    + rewrite Hone. change (Z.log2 (1 - 1) + 2) with 2. change (2 ^ (2 - 1)) with 2. lia.
  - assert (mf_xino_mode m2 = 32) as ->; [|cbn; lia].
    rewrite (li_mode _ _ _ I), (sr_mode _ _ Hr) in *. to_prop. destruct Hm as [Hm|[Hm|Hm]]; [lia|done|].
    exfalso. apply E2. destruct (ls_xino _ _ (li_loses _ _ _ I)) as [->| ->]; [|done]. by rewrite Hc1.
Qed.

(** The mode is 0 only for a single file system. *)
Lemma xino_mode_zero stack m m' :
  before_layers m → mode_ok m → ovl_get_layers w stack m = inr m' → mf_xino_mode m' = 0 →
  numfs m' = (if is_none (mf_upper m) then 2 else 1).
Proof.
  intros Hb Hm H Hx. destruct (get_layers_inr _ _ _ Hb H) as (m1 & m2 & usb & I & -> & Hf1 & _ & Hc1 & Hr).
  assert (Hu : mf_upper m2 = mf_upper m) by (rewrite (li_upper _ _ _ I); apply Hr).
  revert Hx. unfold set_xino_mode. rewrite Hu. destruct (_ =? 1) eqn:E1.
  { intros _. cbn. to_prop. unfold numfs in *. cbn. destruct (is_none _); lia. }
  destruct (_ =? OVL_XINO_OFF) eqn:E2; [cbn; lia|]. to_prop. destruct (mf_xino_mode m2 <? 0) eqn:E3; cbn.
  - pose proof (Z.log2_nonneg (numfs m2 - 1)). lia.
  - rewrite (li_mode _ _ _ I), (sr_mode _ _ Hr) in *. to_prop. destruct Hm as [Hm|[Hm|Hm]]; [lia|lia|].
    exfalso. apply E2. destruct (ls_xino _ _ (li_loses _ _ _ I)) as [->| ->]; [|done]. by rewrite Hc1.
Qed.

(** When inode numbers carry the number of the file system, every number fits
    below the lowest of the [xino_mode] upper bits; with a single file system
    nothing is needed, and the mode is then 0. *)
Theorem ovl_get_layers_xino_bits stack m m' l :
  before_layers m → mode_ok m → Z.of_nat (length stack) <= OVL_MAX_STACK →
  ovl_get_layers w stack m = inr m' → l ∈ mf_layers m' → 0 < mf_xino_mode m' →
  mf_xino_mode m' <= 32 ∧ ml_fsid l < 2 ^ (mf_xino_mode m' - 1).
Proof. apply get_layers_bits. Qed.

(** ** Layers within layers *)

(** The directories above a directory. *)
Inductive above (d : Z) : Z → Prop :=
  | above_parent : de_parent (dentry_of w d) ≠ d → above d (de_parent (dentry_of w d))
  | above_step a : above d a → de_parent (dentry_of w a) ≠ a → above d (de_parent (dentry_of w a)).

(** The root of the file system is less than [fuel] steps away. *)
Fixpoint reaches_root (fuel : nat) (d : Z) {struct fuel} : Prop :=
  match fuel with
  | O => False
  | S fuel => de_parent (dentry_of w d) = d ∨ reaches_root fuel (de_parent (dentry_of w d))
  end.

Lemma above_inv d a : above d a → de_parent (dentry_of w d) ≠ d ∧ (a = de_parent (dentry_of w d) ∨ above (de_parent (dentry_of w d)) a).
Proof.
  induction 1 as [Hd|a Ha [Hd IH] Hn]; [by split; [|left]|]. split; [done|]. right.
  destruct IH as [->|IH]; [by apply above_parent|by apply above_step].
Qed.

(** An inode of a layer's root, of the upper layer's or of a work directory. *)
Definition trapped m (a : Z) : Prop := ∃ i, de_inode (dentry_of w a) = Some i ∧ i_addr i ∈ mf_traps m.

Lemma check_ancestors_sound fuel d m :
  reaches_root fuel d → check_ancestors w fuel true d m = 0 →
  ∀ a, above d a → ¬ trapped m a ∧ (ovl_is_inuse w a m = true → c_index (mf_config m) = false).
Proof.
  revert d. induction fuel as [|fuel IH]; intros d Hr H a Ha; [done|]. cbn in Hr, H.
  apply above_inv in Ha as [Hd Ha]. destruct (de_parent (dentry_of w d) =? d) eqn:E; to_prop; [done|].
  destruct Hr as [Hr|Hr]; [done|]. set (q := de_parent (dentry_of w d)) in *.
  destruct (negb (_ =? 0)) eqn:E0; to_prop; [done|].
  destruct Ha as [->|Ha]; [|by apply (IH q)]. fold q in E0. split.
  - intros (i & Hi & Hin). rewrite Hi, bool_decide_eq_true_2 in E0 by done. done.
  - intros Hu. rewrite Hu in E0. unfold ovl_report_in_use, ELOOP, EBUSY in E0.
    destruct (c_index (mf_config m)); [|done]. by destruct (de_inode _) as [i|]; [destruct (bool_decide _)|].
Qed.

Lemma check_lower_layers_sound fuel layers m :
  check_lower_layers w fuel layers m = 0 → ∀ l, l ∈ layers → reaches_root fuel (ml_mnt l) →
  ∀ a, above (ml_mnt l) a → ¬ trapped m a ∧ (ovl_is_inuse w a m = true → c_index (mf_config m) = false).
Proof.
  induction layers as [|k layers IH]; intros H l Hl; [by apply elem_of_nil in Hl|]. cbn in H.
  destruct (negb _) eqn:E; [by to_prop|]. to_prop. apply elem_of_cons in Hl as [->|Hl]; [|by apply IH].
  intros Hr. by apply (check_ancestors_sound fuel).
Qed.


(** ** [ovl_get_lowerstack] *)

(** Everything the lower directories are asked for is off, or they can do it. *)
Definition handles_ok (c : ovl_config) (p : path) : Prop :=
  decodes c = true ∨ (c_xino c = OVL_XINO_AUTO ∧ c_upperdir c ≠ None) →
  ovl_can_decode_fh w (sb_of w (pa_dentry p)) ≠ 0.

Lemma handles_ok_loses c c' p : loses c c' → handles_ok c p → handles_ok c' p.
Proof.
  intros Hl H [Hd|[Hx Hu]]; apply H.
  - left. by eapply loses_decodes.
  - right. destruct Hl as [_ _ Hup Hxi]. rewrite Hup in Hu. split; [|done].
    destruct Hxi as [<-|Hxi]; [done|]. by rewrite Hxi in Hx.
Qed.

(** What opening the directories leaves alone. *)
Record dirs_inv m m' : Prop := {
  di_layers : mf_layers m' = mf_layers m;
  di_upper : mf_upper m' = mf_upper m;
  di_traps : mf_traps m' = mf_traps m;
  di_loses : loses (mf_config m) (mf_config m');
  di_mode : mf_xino_mode m' = mf_xino_mode m ∨ mf_xino_mode m' = -1;
  di_inuse : mf_inuse m' = mf_inuse m
}.
#[export] Instance dirs_inv_preorder : PreOrder dirs_inv.
Proof.
  split; [intros m; split; auto; done|]. intros a b c [a1 a2 a3 a4 a5 a6] [b1 b2 b3 b4 b5 b6].
  split; try congruence; [by etransitivity|]. destruct b5 as [->|]; auto.
Qed.
Lemma dirs_inv_before m m' : dirs_inv m m' → before_layers m → before_layers m'.
Proof. intros [H1 H2 _ H3 _ _] [B1 B2]. split; [congruence|]. by rewrite H2, (ls_upper _ _ H3). Qed.

(** The features that a directory without handles switches off. *)
Definition without_handles (fh_type : Z) (c : ovl_config) : ovl_config :=
  let c := if (c_nfs_export c || (c_index c && negb (is_none (c_upperdir c)))) && (fh_type =? 0)
           then set_c_nfs_export false (set_c_index false c) else c in
  if (c_xino c =? OVL_XINO_AUTO) && negb (is_none (c_upperdir c)) && (fh_type =? 0)
  then set_c_xino OVL_XINO_OFF c else c.
Lemma without_handles_spec fh_type c :
  loses c (without_handles fh_type c) ∧
  (decodes (without_handles fh_type c) = true ∨
   (c_xino (without_handles fh_type c) = OVL_XINO_AUTO ∧ c_upperdir (without_handles fh_type c) ≠ None) → fh_type ≠ 0).
Proof.
  unfold without_handles. destruct (fh_type =? 0) eqn:Ef; to_prop.
  2:{ rewrite !andb_false_r. by split. }
  rewrite !andb_true_r. fold (decodes c). destruct (decodes c) eqn:Ed; cbn.
  - destruct (c_xino c =? OVL_XINO_AUTO) eqn:Ex; cbn; to_prop; destruct (c_upperdir c) eqn:Eu; cbn; rewrite ?Ex, ?Eu;
      (split; [split; cbn; auto; done|]); unfold decodes; cbn; intros [?|[? ?]]; done.
  - destruct (c_xino c =? OVL_XINO_AUTO) eqn:Ex; cbn; to_prop; destruct (c_upperdir c) eqn:Eu; cbn; rewrite ?Ex, ?Eu;
      (split; [split; cbn; auto; done|]); unfold decodes in *; cbn in *; rewrite ?Eu in *; cbn in *;
      intros [?|[? ?]]; (congruence || done).
Qed.

Lemma lower_dir_spec name m p m' :
  ovl_lower_dir w name m = inr (p, m') → dirs_inv m m' ∧ handles_ok (mf_config m') p.
Proof.
  unfold ovl_lower_dir. intros H. ok_step H. ok_step H. unfold ovl_check_namelen in Ha0. ok_step Ha0.
  injection Ha0 as <-. injection H as <- <-.
  set (fh_type := ovl_can_decode_fh w _). cbn [mf_config set_mf_stack_depth set_mf_namelen].
  assert (Hcfg : ∀ m2, (if negb (fh_type =? FILEID_INO32_GEN) then set_mf_xino_mode (-1) m2 else m2) =
    set_mf_xino_mode (if negb (fh_type =? FILEID_INO32_GEN) then -1 else mf_xino_mode m2) m2).
  { intros [c ? ? ? ? ? ? ? ?]. by destruct (negb _). }
  rewrite Hcfg. clear Hcfg.
  pose proof (without_handles_spec fh_type (mf_config m)) as [Hl Hh]. unfold without_handles in Hl, Hh.
  destruct ((_ || _) && (fh_type =? 0)); cbn in *;
    destruct (_ && (fh_type =? 0)); cbn in *; (split; [|exact Hh]);
    (split; cbn; [done..|exact Hl| |done]); destruct (negb _); auto.
Qed.

Lemma open_lower_dirs_spec names m stack m' :
  open_lower_dirs w names m = inr (stack, m') →
  length stack = length names ∧ dirs_inv m m' ∧ Forall (handles_ok (mf_config m')) stack.
Proof.
  revert m stack. induction names as [|n names IH]; intros m stack H; cbn in H.
  - by injection H as <- <-.
  - ok_step H. destruct a as [p m1]. ok_step H. destruct a as [ps m2]. injection H as <- <-.
    apply lower_dir_spec in Ha as [H1 Hp]. apply IH in Ha0 as (Hlen & H2 & Hps). cbn. split; [congruence|].
    split; [by etransitivity|]. constructor; [|done]. eapply handles_ok_loses; [apply H2|done].
Qed.

Lemma get_lowerstack_inr lower m stack m' :
  before_layers m → ovl_get_lowerstack w lower m = inr (stack, m') →
  ∃ paths m1, length paths = length lower ∧ dirs_inv m m1 ∧ Forall (handles_ok (mf_config m1)) paths ∧
    before_layers m1 ∧ ovl_get_layers w paths m1 = inr m' ∧
    stack = zip_with (λ p l, OvlPath (layer_of m' l) (pa_dentry p)) paths (mf_layers m').
Proof.
  intros Hb H. unfold ovl_get_lowerstack in H. destruct (is_none _ && _); [done|]. destruct (negb _); [done|].
  ok_step H. destruct a as [paths m1]. destruct (_ <? _); [done|]. ok_step H. destruct (negb _); [done|].
  injection H as <- <-. apply open_lower_dirs_spec in Ha as (Hlen & Hd & Hh). cbn in Ha0.
  exists paths, (set_mf_stack_depth (mf_stack_depth m1 + 1) m1).
  assert (Hd' : dirs_inv m (set_mf_stack_depth (mf_stack_depth m1 + 1) m1)) by (by destruct Hd).
  split; [done|]. split; [done|]. split; [done|]. split; [by eapply dirs_inv_before|done].
Qed.

(** the features that are still on after a mount are supported: with NFS
    export, or the index and an upper layer, every lower directory is on a
    file system that decodes file handles, and no two file systems besides
    that of the upper layer have the same uuid; with [xino=auto] and an upper
    layer the handles can be decoded too. *)
Theorem ovl_get_lowerstack_features lower m stack m' :
  before_layers m → ovl_get_lowerstack w lower m = inr (stack, m') →
  (∀ x, x ∈ stack → handles_ok (mf_config m') (Path 0 (p_dentry x))) ∧
  (decodes (mf_config m') = true →
   ∀ x y, x ∈ stack → y ∈ stack → 0 < l_fsid (p_layer x) → 0 < l_fsid (p_layer y) →
     s_uuid (sb_of w (p_dentry x)) = s_uuid (sb_of w (p_dentry y)) → sb_of w (p_dentry x) = sb_of w (p_dentry y)).
Proof.
  intros Hb H. destruct (get_lowerstack_inr _ _ _ _ Hb H) as (ps & m1 & Hlen & Hd & Hh & Hb1 & Hl & ->).
  destruct (get_layers_inr _ _ _ Hb1 Hl) as (m2 & m3 & usb & I & -> & _ & _ & Hc & _).
  destruct (set_xino_mode_only m3) as [x E]. rewrite E in *. cbn [mf_config set_mf_xino_mode mf_layers] in *.
  assert (Hin : ∀ x0, x0 ∈ zip_with (λ p l, OvlPath (layer_of (set_mf_xino_mode x m3) l) (pa_dentry p)) ps (mf_layers m3) →
    ∃ i p l, ps !! i = Some p ∧ p_dentry x0 = pa_dentry p ∧ l_fsid (p_layer x0) = ml_fsid l ∧ layer_fits m3 i p l).
  { intros x0 Hx. apply list_elem_of_lookup in Hx as [i Hi]. apply lookup_zip_with_Some in Hi as (p & l & -> & Hp & Hll).
    exists i, p, l. cbn. split; [done|]. split; [done|]. split; [done|]. by apply (li_fits _ _ _ I). }
  split.
  - intros y Hy. apply Hin in Hy as (i & p & l & Hp & Hpd & _). rewrite Hpd. rewrite Forall_lookup in Hh.
    change (handles_ok (mf_config m3) p). eapply handles_ok_loses; [apply (li_loses _ _ _ I)|]. rewrite Hc. by eapply Hh.
  - intros Hdec y z Hy Hz Hy0 Hz0 Hu.
    apply Hin in Hy as (i & p & l & Hp & Hpd & Hfy & Hfit). apply Hin in Hz as (j & q & k & Hq & Hqd & Hfz & Hfit').
    rewrite Hpd, Hqd in *. apply (same_fsid m3 i j p q l k); [apply I|done..|].
    destruct Hfit as [_ _ _ (f & Hf & _ & Hfu)], Hfit' as [_ _ _ (g & Hg & _ & Hgu)].
    pose proof (li_uuids _ _ _ I Hdec) as Huu. rewrite Hfy in Hy0. rewrite Hfz in Hz0.
    destruct (lt_eq_lt_dec (Z.to_nat (ml_fsid l)) (Z.to_nat (ml_fsid k))) as [[Hlt|Heq]|Hgt]; [|lia|].
    + destruct (Huu (Z.to_nat (ml_fsid l)) (Z.to_nat (ml_fsid k)) f g); [lia|done..|congruence].
    + destruct (Huu (Z.to_nat (ml_fsid k)) (Z.to_nat (ml_fsid l)) g f); [lia|done..|congruence].
Qed.

(** The root's stack: all layers, in order. *)
Lemma lowerstack_layers lower m stack m' :
  before_layers m → ovl_get_lowerstack w lower m = inr (stack, m') →
  length stack = length lower ∧ length (mf_layers m') = length lower ∧ all_layers stack ∧
  ∀ i l, mf_layers m' !! i = Some l → ml_idx l = Z.of_nat (S i).
Proof.
  intros Hb H. destruct (get_lowerstack_inr _ _ _ _ Hb H) as (ps & m1 & Hlen & Hd & Hh & Hb1 & Hl & ->).
  destruct (get_layers_inr _ _ _ Hb1 Hl) as (m2 & m3 & usb & I & -> & _). destruct (set_xino_mode_only m3) as [x ->].
  pose proof (li_length _ _ _ I) as Hn. cbn.
  assert (Hidx : ∀ i l, mf_layers m3 !! i = Some l → ml_idx l = Z.of_nat (S i)).
  { intros i l Hi. destruct (lookup_lt_is_Some_2 ps i) as [p Hp]; [rewrite <-Hn; by eapply lookup_lt_Some|].
    apply (li_fits _ _ _ I _ _ _ Hp Hi). }
  split; [rewrite length_zip_with; lia|]. split; [lia|]. split; [|done].
  intros i y Hy. apply lookup_zip_with_Some in Hy as (p & l & -> & _ & Hi). cbn. by apply Hidx.
Qed.

(** What a mount keeps while the lower layers are set up. *)
Lemma lowerstack_keeps lower m stack m' :
  before_layers m → ovl_get_lowerstack w lower m = inr (stack, m') →
  mf_inuse m' = mf_inuse m ∧ mf_upper m' = mf_upper m ∧ loses (mf_config m) (mf_config m').
Proof.
  intros Hb H. destruct (get_lowerstack_inr _ _ _ _ Hb H) as (ps & m1 & Hlen & Hd & Hh & Hb1 & Hl & ->).
  destruct (get_layers_inr _ _ _ Hb1 Hl) as (m2 & m3 & usb & I & -> & _ & _ & Hc & Hr).
  destruct (set_xino_mode_only m3) as [x ->]. cbn.
  rewrite (li_inuse _ _ _ I), (sr_inuse _ _ Hr), (di_inuse _ _ Hd), (li_upper _ _ _ I), (sr_upper _ _ Hr), (di_upper _ _ Hd).
  split; [done|]. split; [done|]. transitivity (mf_config m1); [apply Hd|]. rewrite <-Hc. apply I.
Qed.

Lemma all_layers_in_order stack : all_layers stack → in_order (Z.of_nat (length stack)) stack.
Proof.
  intros H. unfold in_order, idxs. split.
  - induction stack as [|p stack IH] using rev_ind; [constructor|]. rewrite fmap_app. apply sorted_snoc.
    + apply IH. intros i q Hq. apply H. by apply lookup_app_l_Some.
    + apply Forall_forall. intros z Hz. apply list_elem_of_fmap in Hz as (q & -> & Hq).
      apply list_elem_of_lookup in Hq as [i Hi]. rewrite (H i q) by (by apply lookup_app_l_Some).
      rewrite (H (length stack) p) by (by apply list_lookup_middle). apply lookup_lt_Some in Hi. lia.
  - apply Forall_forall. intros z Hz. apply list_elem_of_fmap in Hz as (q & -> & Hq).
    apply list_elem_of_lookup in Hq as [i Hi]. rewrite (H _ _ Hi). apply lookup_lt_Some in Hi. lia.
Qed.

(** A fresh mount, with the layers of [ovl_get_lowerstack] and its stack on
    the root, is in the state that the theorems on lookups assume. *)
Theorem mounted_layers_ok lower m stack m' (s : vstate W) :
  before_layers m → ovl_get_lowerstack w lower m = inr (stack, m') →
  ofs_lowers (vs_fs s) = (layer_of m' <$> mf_layers m') → lowerstack (vs_root s) s = stack →
  (∀ d, d ≠ vs_root s → lowerstack d s = []) →
  layers_ok (numlayer (vs_fs s) - 1) s ∧ numlayer (vs_fs s) - 1 = Z.of_nat (length lower).
Proof.
  intros Hb H Hlow Hroot Hd. destruct (lowerstack_layers _ _ _ _ Hb H) as (Hlen & Hn & Hall & Hidx).
  assert (E : numlayer (vs_fs s) - 1 = Z.of_nat (length lower)).
  { unfold numlayer. rewrite Hlow, length_fmap, Hn. lia. }
  split; [|done]. rewrite E. split.
  - rewrite Hlow. apply Forall_fmap, Forall_lookup. intros i l Hi. cbn. rewrite (Hidx _ _ Hi).
    apply lookup_lt_Some in Hi. lia.
  - intros d. destruct (decide (d = vs_root s)) as [->|Hne].
    + rewrite Hroot, <-Hlen. by apply all_layers_in_order.
    + rewrite (Hd _ Hne). split; constructor.
  - by rewrite Hroot.
Qed.
End stack.

(** ** A concrete mount *)

#[export] Instance sim_mount : MountLib tree := {
  kern_path t n := match assoc (0, n) (t_names t) with Some d => inr (Path d d) | None => inl (- ENOENT) end;
  is_idmapped_mnt t d := false;
  vfs_statfs t p := inr 255;
  s_stack_depth t d := 0;
  clone_private_mount t p := inr (pa_dentry p);
  get_anon_bdev t n := inr (50 + Z.of_nat n);
  iget5_locked t n := true;
  kmalloc_at t n := true
}.

#[export] Instance sim_mount_laws : MountLaws sim_mount.
Proof.
  split; cbn.
  - intros w n m d. intros <-%(inj inr) ?%(inj inr). lia.
  - intros w a b. unfold sim_sb_of. destruct (a <? 1000) eqn:Ea, (b <? 1000) eqn:Eb; cbn; to_prop.
    + done.
    + pose proof (Z.div_str_pos b 1000). lia.
    + pose proof (Z.div_str_pos a 1000). lia.
    + intros H. by replace (a / 1000) with (b / 1000) by lia.
  - intros w a. unfold sim_sb_of. destruct (a <? 1000) eqn:Ea; [done|]. cbn. to_prop.
    pose proof (Z.div_str_pos a 1000). lia.
  - by intros w [m d] r [= <-].
Qed.

(** Four directories: "a" on the file system of the upper layer (dentry 1),
    the others on one each; that of "d" has the uuid of the upper layer's. *)
Definition mount_tree : tree := Tree
  [(1, sim_dir 1); (2, sim_dir 2); (1003, sim_dir 3); (2004, sim_dir 4); (20005, sim_dir 5)]
  [((0, lit "a"), 2); ((0, lit "b"), 1003); ((0, lit "c"), 2004); ((0, lit "d"), 20005)] [].
Definition mount_config : ovl_config :=
  set_c_xino OVL_XINO_AUTO (set_c_index true (set_c_upperdir (Some (lit "u")) sample_ovl_config)).
Definition sample_mount : mount_fs := MountFs mount_config (Some 1) [] [] [1] 255 32 0 0 ∅.
Definition sample_paths : list path := [Path 2 2; Path 1003 1003; Path 2004 2004].

Lemma sample_before : before_layers sample_mount.
Proof. by split. Qed.

(** The mount of [a:b:c] over [u]. *)
Definition sample_layers : mount_fs :=
  match ovl_get_layers mount_tree sample_paths sample_mount with inr m => m | inl _ => sample_mount end.
Lemma sample_layers_run : ovl_get_layers mount_tree sample_paths sample_mount = inr sample_layers.
Proof. by vm_compute. Qed.

Lemma ovl_get_layers_numbering_witness :
  ∃ m', ovl_get_layers mount_tree sample_paths sample_mount = inr m' ∧
    length (mf_layers m') = 3%nat ∧ NoDup (os_pseudo_dev <$> mf_fs m') ∧ (ml_fsid <$> mf_layers m') = [0; 1; 2].
Proof.
  exists sample_layers. split; [exact sample_layers_run|].
  destruct (ovl_get_layers_numbering mount_tree sample_paths sample_mount sample_layers sample_before sample_layers_run)
    as (H1 & H2 & _).
  split; [exact H1|]. split; [exact H2|]. vm_compute. reflexivity.
Defined.

(** With a 64-bit file system among the layers the mode is 3: two bits for
    the numbers up to 2 and one for the overflow. *)
Definition sample_mount64 : mount_fs := set_mf_xino_mode (-1) sample_mount.
Definition sample_layers64 : mount_fs :=
  match ovl_get_layers mount_tree sample_paths sample_mount64 with inr m => m | inl _ => sample_mount64 end.
Lemma ovl_get_layers_xino_bits_witness :
  ∃ m' l, ovl_get_layers mount_tree sample_paths sample_mount64 = inr m' ∧ l ∈ mf_layers m' ∧ mf_xino_mode m' = 3 ∧
    mf_xino_mode m' <= 32 ∧ ml_fsid l < 2 ^ (mf_xino_mode m' - 1).
Proof.
  exists sample_layers64, (MountLayer 2004 3 2).
  assert (H : ovl_get_layers mount_tree sample_paths sample_mount64 = inr sample_layers64) by (vm_compute; reflexivity).
  assert (Hl : MountLayer 2004 3 2 ∈ mf_layers sample_layers64)
    by (apply (bool_decide_eq_true_1 _); vm_compute; reflexivity).
  split; [exact H|]. split; [exact Hl|]. split; [reflexivity|].
  refine (ovl_get_layers_xino_bits mount_tree sample_paths sample_mount64 _ _ _ _ _ H Hl _).
  - by split.
  - by left.
  - done.
  - done.
Defined.


Definition sample_lower : list cstr := [lit "a"; lit "b"; lit "c"].
Definition sample_mounted : list ovl_path * mount_fs :=
  match ovl_get_lowerstack mount_tree sample_lower sample_mount with inr r => r | inl _ => ([], sample_mount) end.
Lemma sample_mounted_run :
  ovl_get_lowerstack mount_tree sample_lower sample_mount = inr (fst sample_mounted, snd sample_mounted).
Proof. by vm_compute. Qed.

Lemma ovl_get_lowerstack_features_witness :
  decodes (mf_config (snd sample_mounted)) = true ∧
  ∀ x y, x ∈ fst sample_mounted → y ∈ fst sample_mounted → 0 < l_fsid (p_layer x) → 0 < l_fsid (p_layer y) →
    s_uuid (sb_of mount_tree (p_dentry x)) = s_uuid (sb_of mount_tree (p_dentry y)) →
    sb_of mount_tree (p_dentry x) = sb_of mount_tree (p_dentry y).
Proof.
  assert (H : decodes (mf_config (snd sample_mounted)) = true) by (vm_compute; reflexivity).
  split; [exact H|].
  exact (proj2 (ovl_get_lowerstack_features mount_tree sample_lower sample_mount _ _ sample_before sample_mounted_run) H).
Defined.

(** The overlay right after this mount. *)
Definition mounted_state : vstate tree :=
  VState mount_tree
    (OvlFs (Some 1) (layer_of (snd sample_mounted) <$> mf_layers (snd sample_mounted)) None 255
       (mf_config (snd sample_mounted)) false (mf_xino_mode (snd sample_mounted)) (mf_traps (snd sample_mounted)))
    100 {[ 100 := OvlDentry (lit "/") 100 true false (Some 200) false true false false (fst sample_mounted) ]} ∅ false.

Lemma mounted_layers_ok_witness : layers_ok 3 mounted_state.
Proof.
  refine (proj1 (mounted_layers_ok mount_tree sample_lower sample_mount _ _ mounted_state sample_before sample_mounted_run _ _ _)).
  - reflexivity.
  - unfold lowerstack, odentry_at, mounted_state. cbn [vs_root vs_dentries]. by rewrite lookup_singleton_eq.
  - intros d Hd. unfold lowerstack, odentry_at, mounted_state. cbn [vs_root vs_dentries] in *.
    by rewrite lookup_singleton_ne by done.
Defined.

(** The order of the layers matters for the check of the uuids: "d" before
    "a" is accepted with the index on, although the file systems of the two
    lower layers have the same uuid; the other order switches the index off. *)
Example uuid_conflict_order :
  (∃ s m x y, ovl_get_lowerstack mount_tree [lit "d"; lit "a"] sample_mount = inr (s, m) ∧ s = [x; y] ∧
     c_index (mf_config m) = true ∧ s_uuid (sb_of mount_tree (p_dentry x)) = s_uuid (sb_of mount_tree (p_dentry y)) ∧
     l_bad_uuid (p_layer x) = false ∧ sb_of mount_tree (p_dentry x) ≠ sb_of mount_tree (p_dentry y)) ∧
  (∃ s m, ovl_get_lowerstack mount_tree [lit "a"; lit "d"] sample_mount = inr (s, m) ∧ c_index (mf_config m) = false).
Proof.
  split.
  - eexists _, _, _, _. split; [vm_compute; reflexivity|]. split; [reflexivity|]. by vm_compute.
  - eexists _, _. by split; [vm_compute; reflexivity|].
Qed.
