(* ===== verification/OvlReaddir.v ===== *)
(** * Listing a merged directory (readdir.c)

    The entries of all layers of a directory are collected in a list and in a
    search tree: the tree finds the entries of the layers above, the list is
    what a reader sees.  Entries are shared between the two, so they live in a
    store and are named by their index. *)
From S2P Require Import Prelude CString OS OvlOptions OvlVfs OvlHandle OvlLogic OvlSim OvlLookup OvlUnion.
Open Scope Z_scope.

(** ** The search tree *)

Inductive rbtree := RbLeaf | RbNode (left : rbtree) (e : nat) (right : rbtree).
Fixpoint inorder (t : rbtree) : list nat :=
  match t with RbLeaf => [] | RbNode l e r => inorder l ++ e :: inorder r end.

(** lib/rbtree.c: rebalancing keeps the order. *)
Class RbLib := { rb_insert_color : rbtree → rbtree }.
Class RbLaws (L : RbLib) : Prop := { insert_color_inorder t : inorder (rb_insert_color t) = inorder t }.

Fixpoint strncmp (a b : cstr) (n : nat) : Z :=
  match n with
  | O => 0
  | S n =>
    let x := code (default NUL (head a)) in
    let y := code (default NUL (head b)) in
    if x =? y then if x =? 0 then 0 else strncmp (tail a) (tail b) n else x - y
  end.

(** ** Data *)

(** [struct ovl_cache_entry]; [len] is the length of the name. *)
Record cache_entry := CacheEntry {
  ce_name : cstr;
  ce_type : Z;
  ce_real_ino : Z;
  ce_ino : Z;
  ce_is_upper : bool;
  ce_is_whiteout : bool
}.
Definition ce_len (e : cache_entry) : Z := slen (ce_name e).
Definition null_entry : cache_entry := CacheEntry [] 0 0 0 false false.
Definition set_ce_is_whiteout (b : bool) (e : cache_entry) : cache_entry :=
  CacheEntry (ce_name e) (ce_type e) (ce_real_ino e) (ce_ino e) (ce_is_upper e) b.
Definition set_ce_ino (i : Z) (e : cache_entry) : cache_entry :=
  CacheEntry (ce_name e) (ce_type e) (ce_real_ino e) i (ce_is_upper e) (ce_is_whiteout e).

(** [struct ovl_readdir_data].  While the lowest layer is read, the list has
    the marker [middle]: [rd_middle] is what is before it. *)
Record readdir_data := Rdd {
  rd_dentry : option Z;
  rd_is_lowest : bool;
  rd_root : rbtree;
  rd_list : list nat;
  rd_middle : list nat;
  rd_first_maybe_whiteout : list nat;
  rd_count : Z;
  rd_err : Z;
  rd_is_upper : bool;
  rd_d_type_supported : bool;
  rd_store : list cache_entry
}.
Definition set_rd_dentry (x : option Z) (r : readdir_data) : readdir_data :=
  Rdd x (rd_is_lowest r) (rd_root r) (rd_list r) (rd_middle r) (rd_first_maybe_whiteout r) (rd_count r) (rd_err r) (rd_is_upper r) (rd_d_type_supported r) (rd_store r).
Definition set_rd_is_lowest (x : bool) (r : readdir_data) : readdir_data :=
  Rdd (rd_dentry r) x (rd_root r) (rd_list r) (rd_middle r) (rd_first_maybe_whiteout r) (rd_count r) (rd_err r) (rd_is_upper r) (rd_d_type_supported r) (rd_store r).
Definition set_rd_root (x : rbtree) (r : readdir_data) : readdir_data :=
  Rdd (rd_dentry r) (rd_is_lowest r) x (rd_list r) (rd_middle r) (rd_first_maybe_whiteout r) (rd_count r) (rd_err r) (rd_is_upper r) (rd_d_type_supported r) (rd_store r).
Definition set_rd_list (x : list nat) (r : readdir_data) : readdir_data :=
  Rdd (rd_dentry r) (rd_is_lowest r) (rd_root r) x (rd_middle r) (rd_first_maybe_whiteout r) (rd_count r) (rd_err r) (rd_is_upper r) (rd_d_type_supported r) (rd_store r).
Definition set_rd_middle (x : list nat) (r : readdir_data) : readdir_data :=
  Rdd (rd_dentry r) (rd_is_lowest r) (rd_root r) (rd_list r) x (rd_first_maybe_whiteout r) (rd_count r) (rd_err r) (rd_is_upper r) (rd_d_type_supported r) (rd_store r).
Definition set_rd_first_maybe_whiteout (x : list nat) (r : readdir_data) : readdir_data :=
  Rdd (rd_dentry r) (rd_is_lowest r) (rd_root r) (rd_list r) (rd_middle r) x (rd_count r) (rd_err r) (rd_is_upper r) (rd_d_type_supported r) (rd_store r).
Definition set_rd_count (x : Z) (r : readdir_data) : readdir_data :=
  Rdd (rd_dentry r) (rd_is_lowest r) (rd_root r) (rd_list r) (rd_middle r) (rd_first_maybe_whiteout r) x (rd_err r) (rd_is_upper r) (rd_d_type_supported r) (rd_store r).
Definition set_rd_err (x : Z) (r : readdir_data) : readdir_data :=
  Rdd (rd_dentry r) (rd_is_lowest r) (rd_root r) (rd_list r) (rd_middle r) (rd_first_maybe_whiteout r) (rd_count r) x (rd_is_upper r) (rd_d_type_supported r) (rd_store r).
Definition set_rd_is_upper (x : bool) (r : readdir_data) : readdir_data :=
  Rdd (rd_dentry r) (rd_is_lowest r) (rd_root r) (rd_list r) (rd_middle r) (rd_first_maybe_whiteout r) (rd_count r) (rd_err r) x (rd_d_type_supported r) (rd_store r).
Definition set_rd_d_type_supported (x : bool) (r : readdir_data) : readdir_data :=
  Rdd (rd_dentry r) (rd_is_lowest r) (rd_root r) (rd_list r) (rd_middle r) (rd_first_maybe_whiteout r) (rd_count r) (rd_err r) (rd_is_upper r) x (rd_store r).
Definition set_rd_store (x : list cache_entry) (r : readdir_data) : readdir_data :=
  Rdd (rd_dentry r) (rd_is_lowest r) (rd_root r) (rd_list r) (rd_middle r) (rd_first_maybe_whiteout r) (rd_count r) (rd_err r) (rd_is_upper r) (rd_d_type_supported r) x.

Definition entry_at (r : readdir_data) (i : nat) : cache_entry := default null_entry (rd_store r !! i).
Definition update_entry (i : nat) (f : cache_entry → cache_entry) (r : readdir_data) : readdir_data :=
  set_rd_store (alter f i (rd_store r)) r.

Section readdir.
Context {W : Type} {K : Vfs W} {R : RbLib}.

(** ** Super block and flags (overlayfs.h) *)

Definition ovl_xino_warn (ofs : ovl_fs) : bool := c_xino (ofs_config ofs) =? OVL_XINO_ON.
Definition ovl_same_fs (ofs : ovl_fs) : bool := ofs_xino_mode ofs =? 0.
Definition ovl_same_dev (ofs : ovl_fs) : bool := 0 <=? ofs_xino_mode ofs.
Definition ovl_xino_bits (ofs : ovl_fs) : Z := if ovl_same_dev ofs then ofs_xino_mode ofs else 0.

(** ** Finding an entry *)

Section find.
Context (store : list cache_entry) (name : cstr).

(** The comparison of [ovl_cache_entry_find] and
    [ovl_cache_entry_find_link]. *)
Definition entry_cmp (e : nat) : comparison :=
  let tmp := default null_entry (store !! e) in
  let cmp := strncmp name (ce_name tmp) (length name) in
  if 0 <? cmp then Gt else if (cmp <? 0) || (slen name <? ce_len tmp) then Lt else Eq.

Fixpoint ovl_cache_entry_find (t : rbtree) : option nat :=
  match t with
  | RbLeaf => None
  | RbNode l e r =>
    match entry_cmp e with
    | Gt => ovl_cache_entry_find r
    | Lt => ovl_cache_entry_find l
    | Eq => Some e
    end
  end.

(** [ovl_cache_entry_find_link] and [rb_link_node]: the tree with the new
    node at the link where the search ended, or [None] when it found one. *)
Fixpoint link_node (t : rbtree) (new : nat) : option rbtree :=
  match t with
  | RbLeaf => Some (RbNode RbLeaf new RbLeaf)
  | RbNode l e r =>
    match entry_cmp e with
    | Gt => (λ r, RbNode l e r) <$> link_node r new
    | Lt => (λ l, RbNode l e r) <$> link_node l new
    | Eq => None
    end
  end.
Definition ovl_cache_entry_find_link (t : rbtree) : bool :=
  match link_node t 0 with None => true | Some _ => false end.
End find.

Definition is_dot (n : cstr) : bool := str_eqb n (lit ".").
Definition is_dotdot (n : cstr) : bool := str_eqb n (lit "..").

(** ** Collecting *)

Definition ovl_calc_d_ino (r : readdir_data) (name : cstr) (s : vstate W) : bool :=
  match rd_dentry r with
  | None => false
  | Some dentry =>
    if negb (ovl_xino_bits (vs_fs s) =? 0) then true
    else if is_dotdot name then true
    else if negb (rd_is_upper r) then false
    else is_dot name || test_inode OVL_IMPURE dentry s
  end.

(** [None] is NULL, without memory. *)
Definition ovl_cache_entry_new (r : readdir_data) (d : dirent) : V W (option (nat * readdir_data)) :=
  let? m := vcatch vkmalloc in
  match m with
  | inl _ => vret None
  | inr _ =>
    let? calc := vget (ovl_calc_d_ino r (dn_name d)) in
    let p := length (rd_store r) in
    let e := CacheEntry (dn_name d) (dn_type d) (dn_ino d) (if calc : bool then 0 else dn_ino d) (rd_is_upper r) false in
    let r := set_rd_store (rd_store r ++ [e]) r in
    vret (Some (p, if dn_type d =? DT_CHR then set_rd_first_maybe_whiteout (p :: rd_first_maybe_whiteout r) r else r))
  end.

Definition ovl_cache_entry_add_rb (r : readdir_data) (d : dirent) : V W (Z * readdir_data) :=
  if ovl_cache_entry_find_link (rd_store r) (dn_name d) (rd_root r) then vret (0, r)
  else
    let? p := ovl_cache_entry_new r d in
    match p with
    | None => vret (- ENOMEM, set_rd_err (- ENOMEM) r)
    | Some (p, r) =>
      let r := set_rd_list (rd_list r ++ [p]) r in
      match link_node (rd_store r) (dn_name d) (rd_root r) p with
      | None => vret (0, r)
      | Some root => vret (0, set_rd_root (rb_insert_color root) r)
      end
    end.

(** [list_move_tail] and [list_add_tail] to the marker. *)
Definition move_to_middle (p : nat) (r : readdir_data) : readdir_data :=
  set_rd_middle (List.filter (λ q, negb (Nat.eqb q p)) (rd_middle r) ++ [p])
    (set_rd_list (List.filter (λ q, negb (Nat.eqb q p)) (rd_list r)) r).

Definition ovl_fill_lowest (r : readdir_data) (d : dirent) : V W (Z * readdir_data) :=
  match ovl_cache_entry_find (rd_store r) (dn_name d) (rd_root r) with
  | Some p => let r := move_to_middle p r in vret (rd_err r, r)
  | None =>
    let? p := ovl_cache_entry_new r d in
    match p with
    | None => let r := set_rd_err (- ENOMEM) r in vret (rd_err r, r)
    | Some (p, r) => let r := set_rd_middle (rd_middle r ++ [p]) r in vret (rd_err r, r)
    end
  end.

Definition ovl_fill_merge (r : readdir_data) (d : dirent) : V W (Z * readdir_data) :=
  let r := set_rd_count (rd_count r + 1) r in
  if negb (rd_is_lowest r) then ovl_cache_entry_add_rb r d else ovl_fill_lowest r d.

Definition ovl_fill_plain (r : readdir_data) (d : dirent) : V W (Z * readdir_data) :=
  let r := set_rd_count (rd_count r + 1) r in
  let? p := ovl_cache_entry_new r d in
  match p with
  | None => vret (- ENOMEM, set_rd_err (- ENOMEM) r)
  | Some (p, r) => vret (0, set_rd_list (rd_list r ++ [p]) r)
  end.

(** [strncmp(name, ".", namelen)]: also true of the names that are a prefix of
    "." or "..". *)
Definition ovl_check_d_type (r : readdir_data) (d : dirent) : V W (Z * readdir_data) :=
  let n := dn_name d in
  if (strncmp n (lit ".") (length n) =? 0) || (strncmp n (lit "..") (length n) =? 0) then vret (0, r)
  else vret (0, if negb (dn_type d =? DT_UNKNOWN) then set_rd_d_type_supported true r else r).

(** ** Reading one directory *)

Definition fill := readdir_data → dirent → V W (Z * readdir_data).

(** One call of [iterate_dir]: it stops when the actor refuses. *)
Fixpoint deliver (actor : fill) (batch : list dirent) (r : readdir_data) : V W readdir_data :=
  match batch with
  | [] => vret r
  | d :: batch' =>
    let? a := actor r d in
    let '(stop, r) := a in
    if negb (stop =? 0) then vret r else deliver actor batch' r
  end.

(** The loop [do ... while (!err && rdd->count)]. *)
Fixpoint iterate_batches (actor : fill) (batches : list (list dirent)) (last : Z) (r : readdir_data)
    : V W (Z * readdir_data) :=
  let r := set_rd_err 0 (set_rd_count 0 r) in
  match batches with
  | [] => vret (if last <? 0 then last else rd_err r, r)
  | batch :: batches' =>
    let? r := deliver actor batch r in
    if (rd_err r =? 0) && negb (rd_count r =? 0) then iterate_batches actor batches' last r
    else vret (rd_err r, r)
  end.

(** The loop of [ovl_check_whiteouts] and its body. *)
Definition check_whiteout (dir : Z) (p : nat) (r : readdir_data) (w : W) : readdir_data :=
  match lookup_one w dir (ce_name (entry_at r p)) with
  | inl _ => r
  | inr d => update_entry p (set_ce_is_whiteout (ovl_is_whiteout (dentry_of w d))) r
  end.
Fixpoint mark_whiteouts (dir : Z) (maybe : list nat) (r : readdir_data) (w : W) : readdir_data :=
  match maybe with
  | [] => set_rd_first_maybe_whiteout [] r
  | p :: maybe' => mark_whiteouts dir maybe' (check_whiteout dir p r w) w
  end.

Definition ovl_check_whiteouts (dir : Z) (r : readdir_data) : V W (Z * readdir_data) :=
  let? err := vcall (λ w, down_write_killable w dir) in
  if negb (err =? 0) then vret (err, r)
  else let? r := vread (mark_whiteouts dir (rd_first_maybe_whiteout r) r) in vret (0, r).

Definition ovl_dir_read (actor : fill) (realpath : Z) (r : readdir_data) : V W (Z * readdir_data) :=
  let? err := vread (λ w, open_dir w realpath) in
  if err <? 0 then vret (err, r)
  else
    let? b := vread (λ w, dir_batches w realpath) in
    let? res := iterate_batches actor (fst b) (snd b) (set_rd_first_maybe_whiteout [] r) in
    let '(err, r) := res in
    match rd_first_maybe_whiteout r, rd_dentry r with
    | _ :: _, Some _ => if err =? 0 then ovl_check_whiteouts realpath r else vret (err, r)
    | _, _ => vret (err, r)
    end.

(** ** Merging the layers *)

(** The loop; [idx] as [ovl_path_next] counts. *)
Fixpoint read_layers (fuel idx : nat) (dentry : Z) (r : readdir_data) : V W (Z * readdir_data) :=
  match fuel with
  | O => vret (0, r)
  | S fuel =>
    let? next := vget (ovl_path_next idx dentry) in
    match next with
    | None => vret (0, r)
    | Some (realpath, next) =>
      let? upper := vget (ovl_dentry_upper dentry) in
      let r := set_rd_is_upper (bool_decide (upper = Some realpath)) r in
      match next with
      | Some idx =>
        let? res := ovl_dir_read ovl_fill_merge realpath r in
        let '(err, r) := res in
        if negb (err =? 0) then vret (err, r) else read_layers fuel idx dentry r
      | None =>
        let? res := ovl_dir_read ovl_fill_merge realpath (set_rd_is_lowest true (set_rd_middle [] r)) in
        let '(err, r) := res in
        vret (err, set_rd_middle [] (set_rd_list (rd_middle r ++ rd_list r) r))
      end
    end
  end.

Definition new_rdd (dentry : option Z) : readdir_data :=
  Rdd dentry false RbLeaf [] [] [] 0 0 false false [].

(** The error, the list and the tree with their entries. *)
Definition ovl_dir_read_merged (dentry : Z) : V W (Z * readdir_data) :=
  let? n := vget (numlower dentry) in
  read_layers (S (S (Z.to_nat n))) 0 dentry (new_rdd (Some dentry)).

(** Is a directory empty, that is, are there only whiteouts?  The list of the
    upper ones is left to the caller. *)
Fixpoint empty_loop (entries : list cache_entry) : Z * list cache_entry :=
  match entries with
  | [] => (0, [])
  | p :: entries' =>
    if ce_is_whiteout p then
      if ce_is_upper p then let '(err, l) := empty_loop entries' in (err, p :: l) else empty_loop entries'
    else if is_dot (ce_name p) || is_dotdot (ce_name p) then empty_loop entries'
    else (- ENOTEMPTY, p :: entries')
  end.
Definition listed (r : readdir_data) : list cache_entry := entry_at r <$> rd_list r.
Definition ovl_check_empty_dir (dentry : Z) : V W (Z * list cache_entry) :=
  let? res := ovl_dir_read_merged dentry in
  let '(err, r) := res in
  if negb (err =? 0) then vret (err, listed r) else vret (empty_loop (listed r)).

(** Is [d_type] supported by the file system of a directory? *)
Definition ovl_check_d_type_supported (realpath : Z) : V W Z :=
  let? res := ovl_dir_read ovl_check_d_type realpath (new_rdd None) in
  let '(err, r) := res in
  vret (if negb (err =? 0) then err else if rd_d_type_supported r then 1 else 0).
End readdir.
