(* ===== verification/OvlMerge.v ===== *)
(** * What a merged directory lists

    Three steps: the search tree finds a name if it is there; reading the
    layers gives [merge], every name once with the entry of the topmost layer
    that has it; and the names that are listed are those that a lookup finds. *)
From S2P Require Import Prelude CString OS OvlOptions OvlVfs OvlHandle OvlLogic OvlSim OvlLookup OvlUnion OvlReaddir.
From Stdlib Require Import Sorting.Sorted.
Open Scope Z_scope.

(** ** The order of names *)

Section lex.
Fixpoint lex (a b : cstr) : comparison :=
  match a, b with
  | [], [] => Eq
  | [], _ :: _ => Lt
  | _ :: _, [] => Gt
  | x :: a', y :: b' => match code x ?= code y with Eq => lex a' b' | c => c end
  end.

Lemma code_inj x y : code x = code y → x = y.
Proof. intros H. by rewrite <-(byte_of_code x), H, byte_of_code. Qed.

Lemma lex_eq a b : lex a b = Eq ↔ a = b.
Proof.
  revert b. induction a as [|x a IH]; intros [|y b]; cbn; [done..|].
  destruct (Z.compare_spec (code x) (code y)) as [E|E|E].
  - apply code_inj in E as ->. rewrite IH. split; [by intros ->|by intros [= ->]].
  - split; [done|]. intros [= -> ->]. lia.
  - split; [done|]. intros [= -> ->]. lia.
Qed.

Lemma lex_antisym a b : lex b a = CompOpp (lex a b).
Proof.
  revert b. induction a as [|x a IH]; intros [|y b]; cbn; [done..|].
  rewrite Z.compare_antisym. destruct (code x ?= code y); cbn; [apply IH|done..].
Qed.

Lemma lex_trans a b c : lex a b = Lt → lex b c = Lt → lex a c = Lt.
Proof.
  revert b c. induction a as [|x a IH]; intros [|y b] [|z c]; cbn; try done.
  destruct (Z.compare_spec (code x) (code y)) as [E|E|E]; [rewrite E| |done].
  - destruct (code y ?= code z); [apply IH|done..].
  - intros _. destruct (Z.compare_spec (code y) (code z)) as [F|F|F]; [| |done];
      intros _; by rewrite (proj2 (Z.compare_lt_iff _ _)) by lia.
Qed.

(** The module's comparison, by [strncmp] and then by length, is this order. *)
Lemma strncmp_lex a b :
  no_nul a → no_nul b →
  (let cmp := strncmp a b (length a) in
   if 0 <? cmp then Gt else if (cmp <? 0) || (slen a <? slen b) then Lt else Eq) = lex a b.
Proof.
  unfold no_nul. revert b. induction a as [|x a IH]; intros b Ha Hb; cbn [length strncmp].
  - destruct b as [|y b]; [done|]. cbn. unfold slen. cbn [length]. by rewrite (proj2 (Z.ltb_lt _ _)) by lia.
  - rewrite not_elem_of_cons in Ha. destruct Ha as [Hx Ha].
    assert (Hx0 : 0 < code x).
    { pose proof (code_range x). destruct (Z.eqb_spec (code x) 0) as [E|]; [|lia].
      destruct Hx. symmetry. by apply code_inj. }
    destruct b as [|y b]; cbn [head default tail from_option].
    { unfold id. change (code NUL) with 0. destruct (Z.eqb_spec (code x) 0); [lia|].
      by rewrite (proj2 (Z.ltb_lt 0 (code x - 0))) by lia. }
    rewrite not_elem_of_cons in Hb. destruct Hb as [Hy Hb]. cbn [lex]. unfold id.
    destruct (Z.compare_spec (code x) (code y)) as [E|E|E].
    + rewrite E, Z.eqb_refl. destruct (Z.eqb_spec (code y) 0); [lia|]. rewrite <-IH by done.
      unfold slen. cbn [length]. replace (Z.of_nat (S (length a)) <? Z.of_nat (S (length b))) with
        (Z.of_nat (length a) <? Z.of_nat (length b)); [done|].
      destruct (Z.ltb_spec (Z.of_nat (length a)) (Z.of_nat (length b))), (Z.ltb_spec (Z.of_nat (S (length a))) (Z.of_nat (S (length b)))); done || lia.
    + destruct (Z.eqb_spec (code x) (code y)); [lia|]. rewrite (proj2 (Z.ltb_ge _ _)) by lia.
      by rewrite (proj2 (Z.ltb_lt (code x - code y) 0)) by lia.
    + destruct (Z.eqb_spec (code x) (code y)); [lia|]. by rewrite (proj2 (Z.ltb_lt 0 _)) by lia.
Qed.
End lex.

(** ** The search tree *)

Section tree.
Context (nm : nat → cstr).

Definition sorted_ids : list nat → Prop := StronglySorted (λ i j, lex (nm i) (nm j) = Lt).

Lemma sorted_mid l x r :
  sorted_ids (l ++ x :: r) ↔
  sorted_ids l ∧ sorted_ids r ∧ Forall (λ i, lex (nm i) (nm x) = Lt) l ∧ Forall (λ j, lex (nm x) (nm j) = Lt) r.
Proof.
  unfold sorted_ids. induction l as [|y l IH]; cbn.
  - split.
    + intros H. apply StronglySorted_inv in H as [? ?]. split_and!; [constructor|done|constructor|done].
    + intros (_ & ? & _ & ?). by constructor.
  - split.
    + intros H. apply StronglySorted_inv in H as [H Hy]. apply IH in H as (H1 & H2 & H3 & H4).
      rewrite Forall_app, Forall_cons in Hy. destruct Hy as (Hy1 & Hy2 & Hy3).
      split_and!; [by constructor|done|by constructor|done].
    + intros (H1 & H2 & H3 & H4). apply StronglySorted_inv in H1 as [H1 Hy]. apply Forall_cons in H3 as [H3 H5].
      constructor; [by apply IH|]. rewrite Forall_app, Forall_cons. split_and!; [done|done|].
      eapply Forall_impl; [exact H4|]. cbn. intros j. by apply lex_trans.
Qed.

Lemma sorted_nodup l : sorted_ids l → NoDup (nm <$> l).
Proof.
  induction 1 as [|x l Hs IH Hx]; [constructor|]. cbn. constructor; [|done].
  intros (y & Hy & Hin)%list_elem_of_fmap. rewrite Forall_forall in Hx. specialize (Hx y Hin).
  rewrite Hy, (proj2 (lex_eq _ _)) in Hx; done.
Qed.

Context (store : list cache_entry) (name : cstr).
Context (Hnm : ∀ e, ce_name (default null_entry (store !! e)) = nm e).
Context (Hname : no_nul name) (Hnames : ∀ e, no_nul (nm e)).

Lemma entry_cmp_lex e : entry_cmp store name e = lex name (nm e).
Proof. unfold entry_cmp, ce_len. rewrite Hnm. by apply strncmp_lex. Qed.

Lemma find_Some t e : ovl_cache_entry_find store name t = Some e → e ∈ inorder t ∧ nm e = name.
Proof.
  induction t as [|l IHl x r IHr]; cbn; [done|]. rewrite entry_cmp_lex, elem_of_app, elem_of_cons.
  destruct (lex name (nm x)) eqn:E.
  - intros [= ->]. apply lex_eq in E. auto.
  - intros [? ?]%IHl. auto.
  - intros [? ?]%IHr. auto.
Qed.

Lemma find_None t : sorted_ids (inorder t) → ovl_cache_entry_find store name t = None → ∀ e, e ∈ inorder t → nm e ≠ name.
Proof.
  induction t as [|l IHl x r IHr]; cbn; intros Hs; [by intros _ e He%elem_of_nil|].
  apply sorted_mid in Hs as (Hl & Hr & Hlx & Hxr). rewrite entry_cmp_lex. rewrite Forall_forall in Hlx, Hxr.
  destruct (lex name (nm x)) eqn:E; [done| |]; intros Hf e; rewrite elem_of_app, elem_of_cons.
  - intros [He|[->|He]]; [by apply IHl| |].
    + intros Hn. rewrite (proj2 (lex_eq _ _)) in E by done. done.
    + intros Hn. specialize (Hxr e He). rewrite Hn, lex_antisym, E in Hxr. done.
  - intros [He|[->|He]]; [|intros Hn; by rewrite (proj2 (lex_eq _ _)) in E|by apply IHr].
    intros Hn. specialize (Hlx e He). rewrite Hn in Hlx. congruence.
Qed.

(** Linking a new node keeps the order; there is no link for a name that is in
    the tree. *)
Lemma link_node_spec t new :
  nm new = name → sorted_ids (inorder t) →
  match link_node store name t new with
  | None => ∃ e, e ∈ inorder t ∧ nm e = name
  | Some t' => sorted_ids (inorder t') ∧ (∀ e, e ∈ inorder t' ↔ e = new ∨ e ∈ inorder t) ∧
      (∀ e, e ∈ inorder t → nm e ≠ name)
  end.
Proof.
  intros Hnew. induction t as [|l IHl x r IHr]; cbn; intros Hs.
  { split; [repeat constructor|]. split; [set_solver|by intros e He%elem_of_nil]. }
  apply sorted_mid in Hs as (Hl & Hr & Hlx & Hxr). rewrite entry_cmp_lex.
  pose proof Hlx as Hlx'. pose proof Hxr as Hxr'. rewrite Forall_forall in Hlx', Hxr'.
  destruct (lex name (nm x)) eqn:E.
  - apply lex_eq in E. exists x. set_solver.
  - specialize (IHl Hl). destruct (link_node _ _ l new) as [l'|]; cbn.
    + destruct IHl as (Hs' & Hin & Hne). split; [|split].
      * apply sorted_mid. split_and!; [done|done| |done]. apply Forall_forall. intros e [->|He]%Hin; [|by apply Hlx'].
        by rewrite Hnew.
      * intros e. rewrite !elem_of_app, !elem_of_cons, Hin. tauto.
      * intros e. rewrite elem_of_app, elem_of_cons. intros [He|[->|He]]; [by apply Hne| |].
        { intros Hn. by rewrite (proj2 (lex_eq _ _)) in E. }
        intros Hn. specialize (Hxr' e He). rewrite Hn, lex_antisym, E in Hxr'. done.
    + destruct IHl as (e & He & Hn). exists e. split; [|done]. apply elem_of_app. by left.
  - specialize (IHr Hr). destruct (link_node _ _ r new) as [r'|]; cbn.
    + destruct IHr as (Hs' & Hin & Hne). split; [|split].
      * apply sorted_mid. split_and!; [done|done|done|]. apply Forall_forall. intros e [->|He]%Hin; [|by apply Hxr'].
        rewrite Hnew, lex_antisym, E. done.
      * intros e. rewrite !elem_of_app, !elem_of_cons, Hin. tauto.
      * intros e. rewrite elem_of_app, elem_of_cons. intros [He|[->|He]]; [| |by apply Hne].
        { intros Hn. specialize (Hlx' e He). rewrite Hn in Hlx'. congruence. }
        intros Hn. by rewrite (proj2 (lex_eq _ _)) in E.
    + destruct IHr as (e & He & Hn). exists e. split; [|done]. rewrite elem_of_app, elem_of_cons. auto.
Qed.
End tree.

(** Whether there is a link does not depend on the node that is linked. *)
Lemma link_node_none store name t a b : link_node store name t a = None → link_node store name t b = None.
Proof.
  induction t as [|l IHl x r IHr]; cbn; [done|].
  destruct (entry_cmp _ _ _); [done| |]; rewrite !fmap_None; auto.
Qed.

Section names.
(** The name of an entry of the store. *)
Definition nm (st : list cache_entry) (i : nat) : cstr := ce_name (default null_entry (st !! i)).
Definition names (ds : list dirent) : list cstr := dn_name <$> ds.
Definition enames (st : list cache_entry) : list cstr := ce_name <$> st.
Definition absent (st : list cache_entry) (d : dirent) : bool := negb (existsb (λ e, str_eqb (ce_name e) (dn_name d)) st).

Lemma absent_true st d : absent st d = true ↔ dn_name d ∉ enames st.
Proof.
  unfold absent, enames. rewrite negb_true_iff, <-not_true_iff_false, existsb_Exists.
  rewrite list_elem_of_fmap. setoid_rewrite str_eqb_eq. naive_solver.
Qed.
Lemma absent_false st d : absent st d = false ↔ dn_name d ∈ enames st.
Proof. rewrite <-not_true_iff_false, absent_true. destruct (decide (dn_name d ∈ enames st)); tauto. Qed.

Lemma nm_app st e i : (i < length st)%nat → nm (st ++ [e]) i = nm st i.
Proof. intros H. unfold nm. by rewrite lookup_app_l. Qed.
Lemma nm_new st e : nm (st ++ [e]) (length st) = ce_name e.
Proof. unfold nm. by rewrite lookup_app_r, Nat.sub_diag. Qed.
Lemma nm_elem st i : (i < length st)%nat → nm st i ∈ enames st.
Proof.
  intros H. unfold nm, enames. destruct (lookup_lt_is_Some_2 st i H) as [e He]. rewrite He. cbn.
  apply list_elem_of_fmap. exists e. split; [done|by eapply list_elem_of_lookup_2].
Qed.
Lemma enames_nm st n : n ∈ enames st → ∃ i, (i < length st)%nat ∧ nm st i = n.
Proof.
  intros (e & -> & He)%list_elem_of_fmap. apply list_elem_of_lookup in He as [i Hi]. exists i.
  split; [by eapply lookup_lt_Some|]. unfold nm. by rewrite Hi.
Qed.
Lemma nm_no_nul st : Forall no_nul (enames st) → ∀ i, no_nul (nm st i).
Proof.
  intros H i. destruct (decide (i < length st)%nat).
  - rewrite Forall_forall in H. by apply H, nm_elem.
  - unfold nm. rewrite lookup_ge_None_2 by lia. by intros ?%elem_of_nil.
Qed.

Lemma sorted_ids_ext f g l : (∀ i, i ∈ l → f i = g i) → sorted_ids f l → sorted_ids g l.
Proof.
  intros Hfg H. induction H as [|x l Hs IH Hx]; [constructor|].
  constructor; [apply IH; intros i Hi; apply Hfg; by right|].
  rewrite Forall_forall in *. intros y Hy. rewrite <-!Hfg by (by repeat constructor). by apply Hx.
Qed.

(** The tree holds the first [n] entries of the store, in the order of their
    names. *)
Record tree_ok (st : list cache_entry) (n : nat) (t : rbtree) : Prop := {
  to_sorted : sorted_ids (nm st) (inorder t);
  to_mem i : i ∈ inorder t ↔ (i < n)%nat
}.

Lemma tree_ok_nodup st n t i j :
  tree_ok st n t → (i < n)%nat → (j < n)%nat → nm st i = nm st j → i = j.
Proof.
  intros [Hs Hm] Hi Hj E. apply Hm in Hi, Hj. apply sorted_nodup in Hs.
  apply list_elem_of_lookup in Hi as [a Ha]. apply list_elem_of_lookup in Hj as [b Hb].
  assert (a = b) as ->.
  { eapply NoDup_lookup; [exact Hs| |]; rewrite list_lookup_fmap; [by rewrite Ha|]. rewrite Hb. cbn. by rewrite E. }
  congruence.
Qed.

Lemma tree_ok_app st e t n : (n <= length st)%nat → tree_ok st n t → tree_ok (st ++ [e]) n t.
Proof.
  intros Hn [Hs Hm]. split; [|done]. eapply sorted_ids_ext; [|exact Hs].
  intros i Hi%Hm. symmetry. apply nm_app. lia.
Qed.
End names.

Section linking.

Lemma link_node_ext st e name t new :
  (∀ i, i ∈ inorder t → (i < length st)%nat) → link_node (st ++ [e]) name t new = link_node st name t new.
Proof.
  induction t as [|l IHl x r IHr]; intros H; [done|]. cbn in H. cbn.
  assert (entry_cmp (st ++ [e]) name x = entry_cmp st name x) as ->.
  { unfold entry_cmp. rewrite lookup_app_l; [done|]. apply H. rewrite elem_of_app, elem_of_cons. auto. }
  rewrite IHl, IHr; [done|..]; intros i Hi; apply H; rewrite elem_of_app, elem_of_cons; auto.
Qed.

(** Linking a new entry at the end of the store. *)
Lemma link_node_new st e t :
  Forall no_nul (enames st) → no_nul (ce_name e) → tree_ok st (length st) t →
  match link_node st (ce_name e) t 0 with
  | None => ce_name e ∈ enames st
  | Some _ => ∃ t', link_node (st ++ [e]) (ce_name e) t (length st) = Some t' ∧
      tree_ok (st ++ [e]) (S (length st)) t' ∧ ce_name e ∉ enames st
  end.
Proof.
  intros Hst Hn Ht. pose proof (tree_ok_app st e t _ (le_n _) Ht) as [Hs Hm].
  assert (Hst' : Forall no_nul (enames (st ++ [e]))).
  { unfold enames in *. rewrite fmap_app, Forall_app. split; [done|by repeat constructor]. }
  pose proof (link_node_spec (nm (st ++ [e])) (st ++ [e]) (ce_name e) (λ _, eq_refl) Hn (nm_no_nul _ Hst') t
    (length st) (nm_new _ _) Hs) as Hspec.
  assert (Hext : link_node (st ++ [e]) (ce_name e) t (length st) = link_node st (ce_name e) t (length st)).
  { apply link_node_ext. intros i. apply Hm. }
  rewrite Hext in *.
  destruct (link_node st (ce_name e) t 0) as [t0|] eqn:E0.
  - destruct (link_node st (ce_name e) t (length st)) as [t'|] eqn:E1.
    2:{ apply (link_node_none _ _ _ _ 0%nat) in E1. congruence. }
    destruct Hspec as (Hs' & Hin & Hne). exists t'. split; [done|]. split.
    + split; [done|]. intros i. rewrite Hin, Hm. lia.
    + intros (i & Hi & Hii)%enames_nm. apply (Hne i); [by apply Hm|]. by rewrite nm_app.
  - apply (link_node_none _ _ _ _ (length st)) in E0. rewrite E0 in Hspec.
    destruct Hspec as (i & Hi & Hii). apply Hm in Hi. rewrite nm_app in Hii by done. rewrite <-Hii. by apply nm_elem.
Qed.
End linking.

(** ** Reading a layer *)

Section reading.
Context {W : Type} {K : Vfs W} {WL : WriteLaws K} {R : RbLib} {RL : RbLaws R}.
Context (s0 : vstate W) (dentry : Z).
Let w := vs_world s0.

(** What a directory contains. *)
Definition contents (w : W) (dir : Z) : list dirent := concat (fst (dir_batches w dir)).

(** The entry made for a directory entry, before its whiteout is checked. *)
Definition calc_ino (up : bool) (name : cstr) : bool :=
  ovl_calc_d_ino (set_rd_is_upper up (new_rdd (Some dentry))) name s0.
Definition mk0 (up : bool) (d : dirent) : cache_entry :=
  CacheEntry (dn_name d) (dn_type d) (dn_ino d) (if calc_ino up (dn_name d) then 0 else dn_ino d) up false.
Definition marked (dir : Z) (e : cache_entry) : cache_entry :=
  match lookup_one w dir (ce_name e) with
  | inl _ => e
  | inr x => set_ce_is_whiteout (ovl_is_whiteout (dentry_of w x)) e
  end.
(** The entry that is listed for it. *)
Definition layer_entry (dir : Z) (up : bool) (d : dirent) : cache_entry :=
  let e := mk0 up d in if dn_type d =? DT_CHR then marked dir e else e.

Definition fresh (st : list cache_entry) (ds : list dirent) : list dirent := List.filter (absent st) ds.

Section layer.
Context (st0 : list cache_entry) (up : bool).

(** The state after the directory entries [done] of a layer, on top of the
    entries [st0] of the layers above. *)
Record layer_inv (done : list dirent) (r : readdir_data) : Prop := {
  in_dentry : rd_dentry r = Some dentry;
  in_upper : rd_is_upper r = up;
  in_err : rd_err r = 0;
  in_store : rd_store r = st0 ++ (mk0 up <$> fresh st0 done);
  in_names : Forall no_nul (enames (rd_store r));
  in_maybe i : i ∈ rd_first_maybe_whiteout r ↔
    (length st0 <= i)%nat ∧ ∃ e, rd_store r !! i = Some e ∧ ce_type e = DT_CHR
}.

Definition new_rd (r : readdir_data) (d : dirent) : readdir_data :=
  let r1 := set_rd_store (rd_store r ++ [mk0 up d]) r in
  if dn_type d =? DT_CHR then set_rd_first_maybe_whiteout (length (rd_store r) :: rd_first_maybe_whiteout r) r1 else r1.

Lemma cache_entry_new_spec r d :
  rd_dentry r = Some dentry → rd_is_upper r = up →
  vspec s0 (ovl_cache_entry_new r d) (λ res, res = inr None ∨ res = inr (Some (length (rd_store r), new_rd r d))).
Proof.
  intros Hd Hu. unfold ovl_cache_entry_new. apply vspec_bind. intros s Hs.
  pose proof (vspec_kmalloc s0 (λ _, True) I I s Hs) as [Hq _]. unfold vcatch.
  destruct (vkmalloc s) as [[e|[]] s1]; cbn [fst snd] in *; (split; [done|]).
  - apply vspec_ret. by left.
  - apply vspec_bind, vspec_get.
    { intros s2 [? H1 ? H2 H3 ?]. unfold ovl_calc_d_ino, test_inode, d_inode, odentry_at, oinode_at. by rewrite H1, H2, H3. }
    assert (ovl_calc_d_ino r (dn_name d) s0 = calc_ino up (dn_name d)) as ->.
    { unfold calc_ino, ovl_calc_d_ino. cbn. by rewrite Hd, Hu. }
    apply vspec_ret. right. unfold new_rd, mk0. rewrite Hu. destruct (dn_type d =? DT_CHR); reflexivity.
Qed.

Lemma fresh_snoc done d : fresh st0 (done ++ [d]) = fresh st0 done ++ if absent st0 d then [d] else [].
Proof. unfold fresh. rewrite List.filter_app. cbn. by destruct (absent st0 d). Qed.

Lemma layer_inv_new done r d :
  layer_inv done r → no_nul (dn_name d) → absent st0 d = true → layer_inv (done ++ [d]) (new_rd r d).
Proof.
  intros [H1 H2 H3 H4 H5 H6] Hn Ha.
  assert (Hst : rd_store (new_rd r d) = rd_store r ++ [mk0 up d]) by (unfold new_rd; by destruct (_ =? _)).
  assert (Hl : (length st0 <= length (rd_store r))%nat) by (rewrite H4, length_app; lia).
  split; rewrite ?Hst.
  - unfold new_rd. by destruct (_ =? _).
  - unfold new_rd. by destruct (_ =? _).
  - unfold new_rd. by destruct (_ =? _).
  - rewrite H4, fresh_snoc, Ha, fmap_app. cbn. by rewrite <-(assoc_L (++)).
  - unfold enames in *. rewrite fmap_app, Forall_app. split; [done|]. by repeat constructor.
  - intros i.
    assert (Hfm : i ∈ rd_first_maybe_whiteout (new_rd r d) ↔
      (i = length (rd_store r) ∧ dn_type d = DT_CHR) ∨ i ∈ rd_first_maybe_whiteout r).
    { unfold new_rd. destruct (Z.eqb_spec (dn_type d) DT_CHR); cbn; rewrite ?elem_of_cons; tauto. }
    rewrite Hfm, H6. split.
    + intros [[-> Ht]|[Hi (e & He & Ht)]].
      * split; [done|]. exists (mk0 up d). by rewrite lookup_app_r, Nat.sub_diag.
      * split; [done|]. exists e. split; [|done]. by apply lookup_app_l_Some.
    + intros [Hi (e & He & Ht)]. apply lookup_app_Some in He as [He|[Hge He]]; [right; eauto|].
      left. destruct (i - length (rd_store r))%nat eqn:E; cbn in He; [|done]. injection He as <-. split; [lia|done].
Qed.

Lemma layer_inv_skip done r d : layer_inv done r → absent st0 d = false → layer_inv (done ++ [d]) r.
Proof. intros [H1 H2 H3 H4 H5 H6] Ha. split; try done. by rewrite fresh_snoc, Ha, app_nil_r. Qed.

Lemma absent_store done r d :
  layer_inv done r → dn_name d ∉ names done → (absent st0 d = true ↔ dn_name d ∉ enames (rd_store r)).
Proof.
  intros [_ _ _ H4 _ _] Hd. rewrite absent_true, H4. unfold enames. rewrite fmap_app, elem_of_app.
  split; [|tauto]. intros Hn [?|Hin]; [done|]. apply Hd.
  rewrite <-list_fmap_compose in Hin. apply list_elem_of_fmap in Hin as (d' & -> & Hin).
  apply list_elem_of_In, List.filter_In in Hin as [Hin _]. apply list_elem_of_fmap. exists d'.
  split; [done|by apply list_elem_of_In].
Qed.
End layer.

(** *** The layers above the lowest *)

Section upper.
Context (st0 : list cache_entry) (up : bool).

Record upper_inv (done : list dirent) (r : readdir_data) : Prop := {
  ui_layer : layer_inv st0 up done r;
  ui_lowest : rd_is_lowest r = false;
  ui_list : rd_list r = seq 0 (length (rd_store r));
  ui_tree : tree_ok (rd_store r) (length (rd_store r)) (rd_root r)
}.

Lemma add_rb_spec done r d :
  upper_inv done r → no_nul (dn_name d) → dn_name d ∉ names done →
  vspec s0 (ovl_cache_entry_add_rb r d)
    (λ res, ∃ e r', res = inr (e, r') ∧
      (e ≠ 0 ∧ rd_err r' = - ENOMEM ∨ e = 0 ∧ upper_inv (done ++ [d]) r' ∧ rd_count r' = rd_count r)).
Proof.
  intros [Hl Hlow Hlist Htree] Hn Hd. unfold ovl_cache_entry_add_rb, ovl_cache_entry_find_link.
  pose proof (absent_store st0 up done r d Hl Hd) as Habs.
  pose proof (link_node_new (rd_store r) (mk0 up d) (rd_root r) (in_names _ _ _ _ Hl) Hn Htree) as Hlink.
  cbn [ce_name mk0] in Hlink.
  destruct (link_node (rd_store r) (dn_name d) (rd_root r) 0) as [t0|].
  - destruct Hlink as (t' & Hlink & Htree' & Hne).
    apply vspec_bind. eapply vspec_mono; [by apply cache_entry_new_spec; apply Hl|].
    intros res [->| ->]; [apply vspec_ret; do 2 eexists; split; [done|]; by left|].
    assert (Ha : absent st0 d = true) by (by apply Habs).
    assert (Hst : rd_store (new_rd up r d) = rd_store r ++ [mk0 up d]) by (unfold new_rd; by destruct (_ =? _)).
    assert (Hrt : rd_root (new_rd up r d) = rd_root r) by (unfold new_rd; by destruct (_ =? _)).
    cbn [rd_store set_rd_list rd_root]. rewrite Hst, Hrt, Hlink. apply vspec_ret.
    do 2 eexists. split; [reflexivity|]. right. split; [done|].
    pose proof (layer_inv_new st0 up done r d Hl Hn Ha) as [H1 H2 H3 H4 H5 H6].
    split; [split; cbn|by unfold new_rd; destruct (_ =? _)].
    + by split.
    + unfold new_rd. by destruct (_ =? _).
    + rewrite Hst, length_app. cbn. rewrite seq_app, <-Hlist. unfold new_rd. by destruct (_ =? _).
    + rewrite Hst, length_app, Nat.add_1_r. destruct Htree' as [Hs Hm]. split; by rewrite insert_color_inorder.
  - apply vspec_ret. do 2 eexists. split; [done|]. right. split; [done|]. split; [|done].
    split; [|done..]. apply layer_inv_skip; [done|].
    destruct (absent st0 d) eqn:Ea; [|done]. by destruct (proj1 Habs eq_refl).
Qed.

Lemma fill_upper done r d :
  upper_inv done r → no_nul (dn_name d) → dn_name d ∉ names done →
  vspec s0 (ovl_fill_merge r d)
    (λ res, ∃ e r', res = inr (e, r') ∧
      (e ≠ 0 ∧ rd_err r' = - ENOMEM ∨ e = 0 ∧ upper_inv (done ++ [d]) r' ∧ rd_count r' = rd_count r + 1)).
Proof.
  intros [[] ? ? ?] Hn Hd. unfold ovl_fill_merge. cbn [rd_is_lowest set_rd_count].
  rewrite ui_lowest0. cbn [negb]. apply (add_rb_spec done (set_rd_count (rd_count r + 1) r)); [|done..].
  split; [by split|done..].
Qed.
End upper.

(** *** The lowest layer *)

Section lowest.
Context (st0 : list cache_entry) (up : bool).

(** The entry listed for a directory entry of the lowest layer: the one of the
    layers above, if there is one. *)
Definition linked (r : readdir_data) (i : nat) (d : dirent) : Prop :=
  nm (rd_store r) i = dn_name d ∧
  if absent st0 d then (length st0 <= i)%nat ∧ rd_store r !! i = Some (mk0 up d) else (i < length st0)%nat.

Record lowest_inv (done : list dirent) (r : readdir_data) : Prop := {
  lo_layer : layer_inv st0 up done r;
  lo_lowest : rd_is_lowest r = true;
  lo_middle : Forall2 (linked r) (rd_middle r) done;
  lo_list : rd_list r = List.filter (λ i, negb (bool_decide (nm st0 i ∈ names done))) (seq 0 (length st0));
  lo_tree : tree_ok st0 (length st0) (rd_root r)
}.

Lemma new_rd_store r d : rd_store (new_rd up r d) = rd_store r ++ [mk0 up d].
Proof. unfold new_rd. by destruct (_ =? _). Qed.

Lemma linked_new r d i d' : (length st0 <= length (rd_store r))%nat → linked r i d' → linked (new_rd up r d) i d'.
Proof.
  intros Hlen [Hn Hi]. unfold linked. rewrite new_rd_store. destruct (absent st0 d').
  - destruct Hi as [Hi He]. pose proof (lookup_lt_Some _ _ _ He). rewrite nm_app by done. split; [done|].
    split; [done|]. by apply lookup_app_l_Some.
  - rewrite nm_app by lia. by split.
Qed.

Lemma filter_filter {A} (f g : A → bool) l : List.filter f (List.filter g l) = List.filter (λ x, g x && f x) l.
Proof. induction l as [|x l IH]; [done|]. cbn. destruct (g x); cbn; [destruct (f x)|]; by rewrite ?IH. Qed.

(** The names of the marker's part are those of [done]. *)
Lemma middle_names done r i : Forall2 (linked r) (rd_middle r) done → i ∈ rd_middle r → nm (rd_store r) i ∈ names done.
Proof.
  intros H Hi. apply list_elem_of_lookup in Hi as [k Hk]. destruct (Forall2_lookup_l _ _ _ _ _ H Hk) as (d & Hd & [-> _]).
  apply list_elem_of_fmap. exists d. split; [done|by eapply list_elem_of_lookup_2].
Qed.

Lemma store_length done r : layer_inv st0 up done r → (length st0 <= length (rd_store r))%nat.
Proof. intros [_ _ _ -> _ _]. rewrite length_app. lia. Qed.
Lemma store_nm done r i : layer_inv st0 up done r → (i < length st0)%nat → nm (rd_store r) i = nm st0 i.
Proof. intros [_ _ _ -> _ _] Hi. unfold nm. by rewrite lookup_app_l. Qed.

Lemma find_lowest done r d :
  lowest_inv done r → no_nul (dn_name d) →
  match ovl_cache_entry_find (rd_store r) (dn_name d) (rd_root r) with
  | Some p => (p < length st0)%nat ∧ nm st0 p = dn_name d
  | None => dn_name d ∉ enames st0
  end.
Proof.
  intros [Hl _ _ _ [Hs Hm]] Hn. pose proof (nm_no_nul _ (in_names _ _ _ _ Hl)) as Hnn.
  destruct (ovl_cache_entry_find _ _ _) as [p|] eqn:E.
  - apply (find_Some (nm (rd_store r)) (rd_store r) (dn_name d) (λ _, eq_refl) Hn Hnn) in E as [Hp Hpn].
    apply Hm in Hp. split; [done|]. by erewrite <-store_nm.
  - intros (i & Hi & Hii)%enames_nm.
    refine (find_None (nm (rd_store r)) (rd_store r) (dn_name d) (λ _, eq_refl) Hn Hnn (rd_root r) _ E i _ _).
    + eapply sorted_ids_ext; [|exact Hs]. intros j Hj%Hm. symmetry. by eapply store_nm.
    + by apply Hm.
    + by erewrite store_nm.
Qed.

Lemma fill_lowest_inv done r d :
  lowest_inv done r → no_nul (dn_name d) → dn_name d ∉ names done →
  vspec s0 (ovl_fill_merge r d)
    (λ res, ∃ e r', res = inr (e, r') ∧
      (e ≠ 0 ∧ rd_err r' = - ENOMEM ∨ e = 0 ∧ lowest_inv (done ++ [d]) r' ∧ rd_count r' = rd_count r + 1)).
Proof.
  intros Hi Hn Hd. unfold ovl_fill_merge. set (r1 := set_rd_count (rd_count r + 1) r).
  assert (Hi1 : lowest_inv done r1) by (destruct Hi as [[] ? ? ? ?]; split; [by split|done..]).
  assert (rd_count r1 = rd_count r + 1) as <- by done. clearbody r1. clear Hi r. pose proof Hi1 as [Hl Hlow Hmid Hlist Htree].
  rewrite Hlow. cbn [negb]. unfold ovl_fill_lowest. pose proof (find_lowest done r1 d Hi1 Hn) as Hf.
  pose proof (store_length _ _ Hl) as Hlen.
  assert (Hsplit : ∀ i, bool_decide (nm st0 i ∈ names (done ++ [d])) =
    bool_decide (nm st0 i ∈ names done) || bool_decide (nm st0 i = dn_name d)).
  { intros i. rewrite <-bool_decide_or. apply bool_decide_ext. unfold names. rewrite fmap_app, elem_of_app. cbn.
    by rewrite list_elem_of_singleton. }
  destruct (ovl_cache_entry_find _ _ _) as [p|].
  - destruct Hf as [Hp Hpn].
    assert (Ha : absent st0 d = false) by (apply absent_false; rewrite <-Hpn; by apply nm_elem).
    apply vspec_ret. unfold move_to_middle. cbn [rd_err set_rd_middle set_rd_list rd_store].
    rewrite (in_err _ _ _ _ Hl). do 2 eexists. split; [reflexivity|]. right. split; [done|].
    split; [|done]. pose proof (layer_inv_skip st0 up done r1 d Hl Ha) as Hl'. destruct Hl' as [H1 H2 H3 H4 H5 H6].
    assert (Hmp : List.filter (λ q, negb (Nat.eqb q p)) (rd_middle r1) = rd_middle r1).
    { apply forallb_filter_id, forallb_forall. intros q Hq%list_elem_of_In. apply negb_true_iff, Nat.eqb_neq. intros ->.
      apply (middle_names _ _ _ Hmid) in Hq. rewrite (store_nm _ _ _ Hl Hp), Hpn in Hq. done. }
    split; cbn [rd_is_lowest rd_middle rd_list rd_root rd_store set_rd_middle set_rd_list].
    + by split.
    + done.
    + rewrite Hmp. apply Forall2_app; [exact Hmid|]. constructor; [|done]. unfold linked. cbn [rd_store set_rd_middle set_rd_list].
      rewrite Ha, (store_nm _ _ _ Hl Hp). by split.
    + rewrite Hlist, filter_filter. apply List.filter_ext_in. intros i Hi%in_seq. rewrite Hsplit, negb_orb. f_equal. f_equal.
      apply eq_bool_prop_intro. rewrite Is_true_true, Is_true_true, Nat.eqb_eq, bool_decide_eq_true.
      split; [by intros ->|]. intros Hin. eapply (tree_ok_nodup st0); [exact Htree|lia|done|congruence].
    + done.
  - assert (Ha : absent st0 d = true) by (by apply absent_true).
    apply vspec_bind. eapply vspec_mono; [by apply cache_entry_new_spec; apply Hl|].
    intros res [->| ->]; apply vspec_ret; do 2 eexists; (split; [reflexivity|]); [by left|].
    pose proof (layer_inv_new st0 up done r1 d Hl Hn Ha) as Hl'. destruct Hl' as [H1 H2 H3 H4 H5 H6].
    cbn [rd_err set_rd_middle]. right. split; [done|].
    assert (Hr : rd_middle (new_rd up r1 d) = rd_middle r1 ∧ rd_list (new_rd up r1 d) = rd_list r1 ∧
      rd_root (new_rd up r1 d) = rd_root r1 ∧ rd_is_lowest (new_rd up r1 d) = rd_is_lowest r1 ∧
      rd_count (new_rd up r1 d) = rd_count r1) by (unfold new_rd; by destruct (_ =? _)).
    destruct Hr as (R1 & R2 & R3 & R4 & R5). split; [|exact R5].
    split; cbn [rd_is_lowest rd_middle rd_list rd_root rd_store set_rd_middle set_rd_list].
    + by split.
    + by rewrite R4.
    + rewrite R1. apply Forall2_app.
      * eapply Forall2_impl; [exact Hmid|]. intros i d' Hi. unfold linked in *. cbn [rd_store set_rd_middle].
        by apply (linked_new r1 d i d' Hlen).
      * constructor; [|done]. unfold linked. cbn [rd_store set_rd_middle]. rewrite new_rd_store, nm_new, Ha.
        split; [done|]. split; [lia|]. by rewrite lookup_app_r, Nat.sub_diag.
    + rewrite R2, Hlist. apply List.filter_ext_in. intros i Hi%in_seq. rewrite Hsplit.
      rewrite (bool_decide_eq_false_2 (nm st0 i = dn_name d)); [by rewrite orb_false_r|].
      intros Hin. apply Hf. rewrite <-Hin. apply nm_elem. lia.
    + by rewrite R3.
Qed.
End lowest.

(** *** Reading a whole directory *)

Section whole.
Context (actor : fill (W := W)) (I : list dirent → readdir_data → Prop).
Hypothesis Hactor : ∀ done r d, I done r → no_nul (dn_name d) → dn_name d ∉ names done →
  vspec s0 (actor r d)
    (λ res, ∃ e r', res = inr (e, r') ∧
      (e ≠ 0 ∧ rd_err r' = - ENOMEM ∨ e = 0 ∧ I (done ++ [d]) r' ∧ rd_count r' = rd_count r + 1)).
Hypothesis Hreset : ∀ done r, I done r → I done (set_rd_err 0 (set_rd_count 0 r)).
Hypothesis Herr : ∀ done r, I done r → rd_err r = 0.

Definition good (ds : list dirent) : Prop := NoDup (names ds) ∧ Forall (λ d, no_nul (dn_name d)) ds.

Lemma good_cons done d ds :
  good (done ++ (d :: ds)) →
  no_nul (dn_name d) ∧ (dn_name d ∉ names done) ∧ good ((done ++ [d]) ++ ds).
Proof.
  intros [Hn Hf]. split; [|split].
  - rewrite Forall_app, Forall_cons in Hf. tauto.
  - unfold names in *. rewrite fmap_app, NoDup_app in Hn. destruct Hn as (_ & Hn & _). intros Hd. apply (Hn _ Hd). cbn. by left.
  - unfold good. by rewrite <-(assoc_L (++)).
Qed.

Lemma deliver_spec batch done r :
  I done r → good (done ++ batch) →
  vspec s0 (deliver actor batch r)
    (λ res, ∃ r', res = inr r' ∧
      (rd_err r' = - ENOMEM ∨ I (done ++ batch) r' ∧ rd_count r' = rd_count r + Z.of_nat (length batch))).
Proof.
  revert done r. induction batch as [|d batch IH]; intros done r Hi Hg; cbn [deliver].
  { apply vspec_ret. eexists. split; [done|]. right. rewrite app_nil_r. cbn. split; [done|lia]. }
  apply good_cons in Hg as (Hn & Hd & Hg).
  apply vspec_bind. eapply vspec_mono; [by apply (Hactor done)|].
  intros res (e & r1 & -> & [[He Hm]|(-> & Hi1 & Hc)]).
  - destruct (Z.eqb_spec e 0); [done|]. apply vspec_ret. eexists. split; [done|by left].
  - cbn [Z.eqb negb]. eapply vspec_mono; [by apply (IH (done ++ [d]))|].
    intros res (r2 & -> & H2). eexists. split; [done|]. rewrite <-(assoc_L (++)) in H2.
    destruct H2 as [H2|[H2 Hc2]]; [by left|right]. split; [done|]. rewrite Hc2, Hc. cbn [length]. lia.
Qed.

Lemma iterate_batches_spec batches last done r :
  I done r → good (done ++ concat batches) → Forall (λ b, b ≠ []) batches →
  vspec s0 (iterate_batches actor batches last r)
    (λ res, ∃ e r', res = inr (e, r') ∧
      (e = - ENOMEM ∨ last < 0 ∧ e = last ∨ e = 0 ∧ I (done ++ concat batches) r')).
Proof.
  revert done r. induction batches as [|b batches IH]; intros done r Hi Hg Hne; cbn [iterate_batches]; cbv zeta.
  { apply vspec_ret. do 2 eexists. split; [done|]. destruct (Z.ltb_spec last 0); [by right; left|].
    right; right. split; [done|]. cbn [concat]. rewrite app_nil_r. by apply Hreset. }
  apply Forall_cons in Hne as [Hb Hne]. cbn [concat] in *. rewrite (assoc_L (++)) in Hg.
  pose proof Hg as [Hn Hf]. unfold names in Hn. rewrite fmap_app, NoDup_app in Hn. apply Forall_app in Hf as [Hf _].
  apply vspec_bind. eapply vspec_mono; [apply (deliver_spec b done); [by apply Hreset|split; [apply Hn|done]]|].
  intros res (r1 & -> & [Hm|[Hi1 Hc]]).
  - rewrite Hm. apply vspec_ret. do 2 eexists. split; [done|by left].
  - rewrite (Herr _ _ Hi1), Hc. cbn [rd_count set_rd_err set_rd_count Z.eqb andb].
    assert ((0 + Z.of_nat (length b) =? 0) = false) as -> by (apply Z.eqb_neq; destruct b; [done|cbn [length]; lia]).
    cbn [negb]. rewrite (assoc_L (++)). by apply IH.
Qed.
End whole.

(** *** Whiteouts *)

Section marking.
Context (dir : Z).

Lemma marked_idem e : marked dir (marked dir e) = marked dir e.
Proof.
  unfold marked. destruct (lookup_one w dir (ce_name e)) eqn:E; [by rewrite E|]. cbn. rewrite E. reflexivity.
Qed.
Lemma marked_name e : ce_name (marked dir e) = ce_name e.
Proof. unfold marked. by destruct (lookup_one _ _ _). Qed.

Lemma check_whiteout_store p r i :
  rd_store (check_whiteout dir p r w) !! i = (λ e, if decide (i = p) then marked dir e else e) <$> rd_store r !! i.
Proof.
  unfold check_whiteout, entry_at, marked. destruct (decide (i = p)) as [->|Hne].
  - destruct (rd_store r !! p) as [e|] eqn:Ep; cbn [default from_option]; unfold id.
    + destruct (lookup_one w dir (ce_name e)) eqn:El; [rewrite Ep; cbn; by rewrite El|].
      cbn. rewrite list_lookup_alter_eq, Ep. cbn. by rewrite El.
    + destruct (lookup_one _ _ _); [by rewrite Ep|]. cbn. by rewrite list_lookup_alter_eq, Ep.
  - destruct (lookup_one _ _ _); [by destruct (rd_store r !! i)|]. cbn.
    rewrite list_lookup_alter_ne by done. by destruct (rd_store r !! i).
Qed.

(** What marking does to the store: the listed entries are marked. *)
Lemma mark_whiteouts_store ms r i :
  rd_store (mark_whiteouts dir ms r w) !! i =
    (λ e, if decide (i ∈ ms) then marked dir e else e) <$> rd_store r !! i.
Proof.
  revert r. induction ms as [|p ms IH]; intros r; cbn [mark_whiteouts].
  { cbn. destruct (rd_store r !! i); [|done]. cbn. by rewrite decide_False by apply not_elem_of_nil. }
  rewrite IH, check_whiteout_store. destruct (rd_store r !! i) as [e|]; [|done]. cbn. f_equal.
  destruct (decide (i = p)) as [->|Hne].
  - rewrite (decide_True (P := p ∈ p :: ms)) by (by left). destruct (decide (p ∈ ms)); [by rewrite marked_idem|done].
  - destruct (decide (i ∈ ms)); [rewrite decide_True by (by right)|rewrite decide_False by (by rewrite not_elem_of_cons)]; done.
Qed.

Lemma mark_whiteouts_rest ms r :
  let r' := mark_whiteouts dir ms r w in
  rd_dentry r' = rd_dentry r ∧ rd_is_lowest r' = rd_is_lowest r ∧ rd_root r' = rd_root r ∧ rd_list r' = rd_list r ∧
  rd_middle r' = rd_middle r ∧ rd_is_upper r' = rd_is_upper r ∧ rd_err r' = rd_err r.
Proof.
  cbv zeta. revert r. induction ms as [|p ms IH]; intros r; cbn [mark_whiteouts]; [done|].
  set (r1 := check_whiteout dir p r w).
  assert (Hr1 : rd_dentry r1 = rd_dentry r ∧ rd_is_lowest r1 = rd_is_lowest r ∧ rd_root r1 = rd_root r ∧
    rd_list r1 = rd_list r ∧ rd_middle r1 = rd_middle r ∧ rd_is_upper r1 = rd_is_upper r ∧ rd_err r1 = rd_err r).
  { unfold r1, check_whiteout. by destruct (lookup_one _ _ _). }
  destruct Hr1 as (<- & <- & <- & <- & <- & <- & <-). apply IH.
Qed.
End marking.

(** *** One layer *)

Definition dir_ok (dir : Z) : Prop := good (contents w dir) ∧ Forall (λ b, b ≠ []) (fst (dir_batches w dir)).

(** The errors of reading a directory. *)
Definition read_error (dir e : Z) : Prop :=
  e = - ENOMEM ∨ e = open_dir w dir ∨ e = snd (dir_batches w dir) ∨ ∃ w', e = fst (down_write_killable w' dir).

Section one.
Context (dir : Z) (up : bool) (st0 : list cache_entry) (Hdir : dir_ok dir).

Lemma marked_entries r (store' : list cache_entry) :
  layer_inv st0 up (contents w dir) r →
  (∀ i, store' !! i = (λ e, if decide (i ∈ rd_first_maybe_whiteout r) then marked dir e else e) <$> rd_store r !! i) →
  store' = st0 ++ (layer_entry dir up <$> fresh st0 (contents w dir)).
Proof.
  intros [_ _ _ Hst _ Hfm] Hs. apply list_eq. intros i. rewrite Hs. clear Hs. rewrite Hst in Hfm |- *.
  destruct (decide (i < length st0)%nat) as [Hi|Hi].
  - rewrite !lookup_app_l by done. destruct (st0 !! i) as [e|]; [|done]. cbn. f_equal.
    rewrite decide_False; [done|]. rewrite Hfm. lia.
  - rewrite !lookup_app_r by lia. rewrite !list_lookup_fmap.
    destruct (fresh st0 (contents w dir) !! (i - length st0)%nat) as [d|] eqn:Ed; [|done]. cbn. f_equal.
    unfold layer_entry. destruct (Z.eqb_spec (dn_type d) DT_CHR) as [E|E].
    + rewrite decide_True; [done|]. apply Hfm. split; [lia|]. exists (mk0 up d). split; [|done].
      by rewrite lookup_app_r, list_lookup_fmap, Ed by lia.
    + rewrite decide_False; [done|]. rewrite Hfm. intros (_ & e & He & Ht).
      rewrite lookup_app_r, list_lookup_fmap, Ed in He by lia. by injection He as <-.
Qed.

(** The end of [ovl_dir_read], for both kinds of layer. *)
Lemma dir_read_spec I r :
  (∀ done r d, I done r → no_nul (dn_name d) → dn_name d ∉ names done →
    vspec s0 (ovl_fill_merge r d)
      (λ res, ∃ e r', res = inr (e, r') ∧
        (e ≠ 0 ∧ rd_err r' = - ENOMEM ∨ e = 0 ∧ I (done ++ [d]) r' ∧ rd_count r' = rd_count r + 1))) →
  (∀ done r, I done r → I done (set_rd_err 0 (set_rd_count 0 r))) →
  (∀ done r, I done r → layer_inv st0 up done r) →
  I [] (set_rd_first_maybe_whiteout [] r) →
  vspec s0 (ovl_dir_read ovl_fill_merge dir r)
    (λ res, ∃ e r', res = inr (e, r') ∧
      (e ≠ 0 ∧ read_error dir e ∨
       e = 0 ∧ ∃ r1, I (contents w dir) r1 ∧
         rd_store r' = st0 ++ (layer_entry dir up <$> fresh st0 (contents w dir)) ∧
         rd_dentry r' = rd_dentry r1 ∧ rd_is_lowest r' = rd_is_lowest r1 ∧ rd_root r' = rd_root r1 ∧
         rd_list r' = rd_list r1 ∧ rd_middle r' = rd_middle r1 ∧ rd_err r' = rd_err r1)).
Proof.
  intros Hact Hres Hlay Hi. destruct Hdir as [Hg Hne]. unfold ovl_dir_read.
  apply vspec_bind, vspec_read; [intros w' Hw; apply Hw|]. destruct (Z.ltb_spec (open_dir (vs_world s0) dir) 0) as [Ho|Ho].
  { apply vspec_ret. do 2 eexists. split; [done|]. left. split; [lia|]. right; by left. }
  apply vspec_bind, vspec_read; [intros w' Hw; apply Hw|]. apply vspec_bind.
  assert (Herr : ∀ done r, I done r → rd_err r = 0) by (intros done r' H; by apply (Hlay _ _ H)).
  eapply vspec_mono; [by apply (iterate_batches_spec ovl_fill_merge I Hact Hres Herr)|].
  intros res (e & r1 & -> & He).
  assert (Hbad : e ≠ 0 → read_error dir e).
  { destruct He as [->|[[_ ->]|[-> _]]]; intros H; [by left|by right; right; left|done]. }
  assert (Hdone : ∀ e0 r2, e0 = e → rd_store r2 = rd_store r1 → e ≠ 0 → vspec s0 (vret (e0, r1))
    (λ res, ∃ e r', res = inr (e, r') ∧ (e ≠ 0 ∧ read_error dir e ∨
       e = 0 ∧ ∃ r1, I (contents w dir) r1 ∧
         rd_store r' = st0 ++ (layer_entry dir up <$> fresh st0 (contents w dir)) ∧
         rd_dentry r' = rd_dentry r1 ∧ rd_is_lowest r' = rd_is_lowest r1 ∧ rd_root r' = rd_root r1 ∧
         rd_list r' = rd_list r1 ∧ rd_middle r' = rd_middle r1 ∧ rd_err r' = rd_err r1))).
  { intros e0 r2 -> _ H. apply vspec_ret. do 2 eexists. split; [done|]. left. auto. }
  destruct (Z.eqb_spec e 0) as [->|Hz].
  2:{ destruct (rd_first_maybe_whiteout r1); [by apply (Hdone e r1)|]. destruct (rd_dentry r1); by apply (Hdone e r1). }
  destruct He as [?|[[? ?]|[_ Hi1]]]; [done|lia|]. cbn [app] in Hi1. fold (contents w dir) in Hi1.
  pose proof (Hlay _ _ Hi1) as Hl. clear Hdone Hbad.
  destruct (rd_first_maybe_whiteout r1) as [|p ps] eqn:Ef.
  { apply vspec_ret. do 2 eexists. split; [done|]. right. split; [done|]. exists r1. split; [done|].
    split; [|done]. apply (marked_entries r1); [done|]. intros i. rewrite Ef.
    destruct (rd_store r1 !! i); [|done]. cbn. by rewrite decide_False by apply not_elem_of_nil. }
  rewrite (in_dentry _ _ _ _ Hl). unfold ovl_check_whiteouts.
  apply vspec_bind, vspec_down_write. intros w'. destruct (Z.eqb_spec (fst (down_write_killable w' dir)) 0) as [Hd|Hd]; cbn [negb].
  - apply vspec_bind, vspec_read.
    { intros w2 Hw2. rewrite Ef. generalize (p :: ps). intros ms. generalize r1. induction ms as [|q ms IH]; intros r2; [done|].
      cbn [mark_whiteouts]. rewrite IH. f_equal. unfold check_whiteout.
      rewrite (same_lookup _ _ _ Hw2). destruct (lookup_one _ _ _); [done|]. by rewrite (same_dentry _ _ _ Hw2). }
    apply vspec_ret. do 2 eexists. split; [done|]. right. split; [done|]. exists r1. split; [done|].
    destruct (mark_whiteouts_rest dir (rd_first_maybe_whiteout r1) r1) as (R1 & R2 & R3 & R4 & R5 & R6 & R7).
    split; [|done]. apply (marked_entries r1); [done|]. intros i. apply mark_whiteouts_store.
  - apply vspec_ret. do 2 eexists. split; [done|]. left. split; [done|]. right; right; right. by exists w'.
Qed.

(** Between two layers. *)
Record settled (st : list cache_entry) (r : readdir_data) : Prop := {
  se_dentry : rd_dentry r = Some dentry;
  se_lowest : rd_is_lowest r = false;
  se_err : rd_err r = 0;
  se_store : rd_store r = st;
  se_list : rd_list r = seq 0 (length st);
  se_tree : tree_ok st (length st) (rd_root r);
  se_names : Forall no_nul (enames st)
}.

Lemma settled_layer r : settled st0 r → rd_is_upper r = up → layer_inv st0 up [] (set_rd_first_maybe_whiteout [] r).
Proof.
  intros [H1 H2 H3 H4 H5 H6 H7] Hu. split; cbn; try done.
  - by rewrite app_nil_r.
  - by rewrite H4.
  - intros i. split; [by intros ?%elem_of_nil|]. intros [Hi (e & He%lookup_lt_Some & _)]. rewrite H4 in He. lia.
Qed.

Lemma layer_inv_reset done r : layer_inv st0 up done r → layer_inv st0 up done (set_rd_err 0 (set_rd_count 0 r)).
Proof. intros []. by split. Qed.

Lemma layer_names done :
  good done → Forall no_nul (enames st0) → Forall no_nul (enames (st0 ++ (layer_entry dir up <$> fresh st0 done))).
Proof.
  intros [_ Hf] Hn. unfold enames in *. rewrite fmap_app, Forall_app. split; [done|].
  rewrite <-list_fmap_compose, Forall_fmap, Forall_forall. intros d Hd. cbn. apply list_elem_of_In, List.filter_In in Hd as [Hd _].
  rewrite Forall_forall in Hf. unfold layer_entry. destruct (_ =? _); [rewrite marked_name|]; by apply Hf, list_elem_of_In.
Qed.

Lemma dir_read_upper r :
  settled st0 r → rd_is_upper r = up →
  vspec s0 (ovl_dir_read ovl_fill_merge dir r)
    (λ res, ∃ e r', res = inr (e, r') ∧
      (e ≠ 0 ∧ read_error dir e ∨
       e = 0 ∧ settled (st0 ++ (layer_entry dir up <$> fresh st0 (contents w dir))) r')).
Proof.
  intros Hs Hu. eapply vspec_mono; [apply (dir_read_spec (upper_inv st0 up))|].
  - apply fill_upper.
  - intros done r' [Hl H1 H2 H3]. split; [by apply layer_inv_reset|done..].
  - by intros done r' [].
  - pose proof (settled_layer r Hs Hu). destruct Hs as [H1 H2 H3 H4 H5 H6 H7]. split; cbn; rewrite ?H4; done.
  - intros res (e & r' & -> & [He|(-> & r1 & [Hl Hlow Hlist [Hts Htm]] & R1 & R2 & R3 & R4 & R5 & R6 & R7)]);
      do 2 eexists; (split; [done|]); [by left|right]. split; [done|].
    assert (Hlen : length (rd_store r1) = length (st0 ++ (layer_entry dir up <$> fresh st0 (contents w dir)))).
    { rewrite (in_store _ _ _ _ Hl), !length_app, !length_fmap. done. }
    split.
    + rewrite R2. apply Hl.
    + by rewrite R3.
    + rewrite R7. apply Hl.
    + exact R1.
    + by rewrite R5, Hlist, Hlen.
    + rewrite R4, <-Hlen. split; [|done]. eapply sorted_ids_ext; [|exact Hts].
      intros i Hi%Htm. rewrite (in_store _ _ _ _ Hl). unfold nm.
      destruct (decide (i < length st0)%nat); [by rewrite !lookup_app_l|]. rewrite !lookup_app_r, !list_lookup_fmap by lia.
      destruct (fresh _ _ !! _); [|done]. cbn. unfold layer_entry. destruct (_ =? _); by rewrite ?marked_name.
    + apply layer_names; [apply Hdir|apply Hs].
Qed.

(** *** The lowest layer, as listed *)

(** The entry listed for a directory entry of the lowest layer. *)
Definition pick (d : dirent) : cache_entry :=
  match List.find (λ e, str_eqb (ce_name e) (dn_name d)) st0 with Some e => e | None => layer_entry dir up d end.
Definition merge_lowest : list cache_entry :=
  (pick <$> contents w dir) ++
  List.filter (λ e, negb (bool_decide (ce_name e ∈ names (contents w dir)))) st0.

Lemma pick_linked n t r i d :
  tree_ok st0 n t → n = length st0 → layer_inv st0 up (contents w dir) r → linked st0 up r i d →
  default null_entry ((st0 ++ (layer_entry dir up <$> fresh st0 (contents w dir))) !! i) = pick d.
Proof.
  intros Ht -> Hl [Hn Hi]. unfold pick. destruct (List.find _ st0) as [e|] eqn:Ef.
  - apply List.find_some in Ef as [He%list_elem_of_In Hen]. apply str_eqb_eq in Hen.
    assert (Ha : absent st0 d = false).
    { apply absent_false. rewrite <-Hen. apply list_elem_of_fmap. by exists e. }
    rewrite Ha in Hi. rewrite lookup_app_l by done. rewrite (store_nm _ _ _ _ _ Hl Hi) in Hn.
    apply list_elem_of_lookup in He as [j Hj]. pose proof (lookup_lt_Some _ _ _ Hj) as Hjl.
    assert (i = j) as -> by (eapply (tree_ok_nodup st0); [exact Ht|done..|]; unfold nm at 2; rewrite Hj; cbn; congruence).
    by rewrite Hj.
  - assert (Ha : absent st0 d = true).
    { apply absent_true. intros (e & Hed & He)%list_elem_of_fmap. apply list_elem_of_In in He.
      pose proof (List.find_none _ _ Ef e He) as Hf. cbn in Hf. apply str_eqb_neq in Hf. congruence. }
    rewrite Ha in Hi. destruct Hi as [Hi Hs]. rewrite lookup_app_r, list_lookup_fmap by lia.
    rewrite (in_store _ _ _ _ Hl), lookup_app_r, list_lookup_fmap in Hs by lia.
    destruct (fresh _ _ !! _) as [d'|]; [|done]. injection Hs as Hn' Ht' Hr' Hc'.
    cbn. destruct d, d'. cbn in *. by subst.
Qed.

Lemma entries_seq st : (λ i, default null_entry (st !! i)) <$> seq 0 (length st) = st.
Proof.
  apply list_eq. intros i. rewrite list_lookup_fmap. destruct (decide (i < length st)%nat) as [Hi|Hi].
  - rewrite lookup_seq_lt by done. cbn. destruct (lookup_lt_is_Some_2 st i Hi) as [e ->]. done.
  - rewrite !lookup_ge_None_2 by (rewrite ?length_seq; lia). done.
Qed.

Lemma filter_fmap {A B} (f : A → B) (P : B → bool) l : List.filter P (f <$> l) = f <$> List.filter (λ x, P (f x)) l.
Proof. induction l as [|x l IH]; [done|]. cbn. destruct (P (f x)); cbn; by rewrite IH. Qed.

Lemma dir_read_lowest r :
  settled st0 r → rd_is_upper r = up →
  vspec s0 (ovl_dir_read ovl_fill_merge dir (set_rd_is_lowest true (set_rd_middle [] r)))
    (λ res, ∃ e r', res = inr (e, r') ∧
      (e ≠ 0 ∧ read_error dir e ∨ e = 0 ∧ entry_at r' <$> (rd_middle r' ++ rd_list r') = merge_lowest)).
Proof.
  intros Hs Hu. eapply vspec_mono; [apply (dir_read_spec (lowest_inv st0 up))|].
  - apply fill_lowest_inv.
  - intros done r' [Hl H1 H2 H3 H4]. split; [by apply layer_inv_reset|done|exact H2|exact H3|exact H4].
  - by intros done r' [].
  - pose proof (settled_layer r Hs Hu) as [L1 L2 L3 L4 L5 L6]. destruct Hs as [H1 H2 H3 H4 H5 H6 H7].
    split; cbn; [by split|done|constructor| |done]. rewrite H5. symmetry. apply forallb_filter_id, forallb_forall.
    intros i _. by rewrite bool_decide_eq_false_2 by apply not_elem_of_nil.
  - intros res (e & r' & -> & [He|(-> & r1 & [Hl Hlow Hmid Hlist Htree] & R1 & R2 & R3 & R4 & R5 & R6 & R7)]);
      do 2 eexists; (split; [done|]); [by left|right]. split; [done|].
    rewrite fmap_app. unfold merge_lowest. f_equal.
    + rewrite R6. apply list_eq. intros k. rewrite !list_lookup_fmap.
      destruct (rd_middle r1 !! k) as [i|] eqn:Ei.
      * destruct (Forall2_lookup_l _ _ _ _ _ Hmid Ei) as (d & Hd & Hlk). rewrite Hd. cbn. f_equal.
        unfold entry_at. rewrite R1. by eapply pick_linked.
      * apply lookup_ge_None in Ei. rewrite (Forall2_length _ _ _ Hmid) in Ei. by rewrite lookup_ge_None_2.
    + rewrite R5, Hlist. set (P := λ e : cache_entry, negb (bool_decide (ce_name e ∈ names (contents w dir)))).
      transitivity (List.filter P ((λ i, default null_entry (st0 !! i)) <$> seq 0 (length st0))); [|by rewrite entries_seq].
      rewrite filter_fmap.
      apply list_fmap_ext. intros _ i Hi%list_elem_of_lookup_2%list_elem_of_In%List.filter_In.
      destruct Hi as [Hi%in_seq _]. unfold entry_at. rewrite R1. by rewrite lookup_app_l by lia.
Qed.
End one.

(** *** All layers *)

(** The directories that are read, from the top. *)
Definition dir_layers : list Z :=
  option_list (ovl_dentry_upper dentry s0) ++ (p_dentry <$> lowerstack dentry s0).
Definition is_up (dir : Z) : bool := bool_decide (ovl_dentry_upper dentry s0 = Some dir).

(** What is listed: the entries of the layers above, with those of the lowest
    layer, old and new, in front. *)
Fixpoint merge (st : list cache_entry) (dirs : list Z) : list cache_entry :=
  match dirs with
  | [] => st
  | [dir] => merge_lowest dir (is_up dir) st
  | dir :: dirs' => merge (st ++ (layer_entry dir (is_up dir) <$> fresh st (contents w dir))) dirs'
  end.

Definition layer_pos (idx : nat) : nat :=
  match ovl_dentry_upper dentry s0 with Some _ => idx | None => pred idx end.
Definition layer_next (idx : nat) : nat :=
  match ovl_dentry_upper dentry s0 with Some _ => S idx | None => S (Nat.max idx 1) end.

Lemma ovl_path_next_spec idx :
  ovl_path_next idx dentry s0 =
    (λ d, (d, if Nat.ltb (S (layer_pos idx)) (length dir_layers) then Some (layer_next idx) else None)) <$>
      dir_layers !! layer_pos idx.
Proof.
  unfold ovl_path_next, dir_layers, layer_pos, layer_next, option_list. destruct (ovl_dentry_upper dentry s0) as [u|].
  - cbn [option_rect app]. destruct idx as [|idx].
    + cbn. by destruct (lowerstack dentry s0).
    + change ((u :: (p_dentry <$> lowerstack dentry s0)) !! S idx) with ((p_dentry <$> lowerstack dentry s0) !! idx).
      cbn [Nat.max pred app length]. rewrite Nat.max_0_r, list_lookup_fmap, length_fmap.
      destruct (lowerstack dentry s0 !! idx); done.
  - cbn [option_rect app]. rewrite length_fmap, list_lookup_fmap.
    assert (pred (Nat.max idx 1) = pred idx) as Hp by lia.
    assert (S (pred idx) = Nat.max idx 1) as Hs by lia. rewrite Hs.
    destruct idx; cbn [Nat.max pred] in *; rewrite ?Hp; destruct (lowerstack dentry s0 !! _); done.
Qed.
Lemma layer_pos_next idx : layer_pos (layer_next idx) = S (layer_pos idx).
Proof. unfold layer_pos, layer_next. destruct (ovl_dentry_upper dentry s0); [done|]. lia. Qed.

Lemma settled_listed st r : settled st r → listed r = st.
Proof. intros [_ _ _ Hs Hl _ _]. unfold listed, entry_at. rewrite Hl, Hs. apply entries_seq. Qed.

Lemma read_layers_spec fuel idx st r :
  Forall dir_ok dir_layers → settled st r → (length dir_layers - layer_pos idx < fuel)%nat →
  vspec s0 (read_layers fuel idx dentry r)
    (λ res, ∃ e r', res = inr (e, r') ∧
      (e ≠ 0 ∧ (∃ dir, dir ∈ dir_layers ∧ read_error dir e) ∨
       e = 0 ∧ listed r' = merge st (drop (layer_pos idx) dir_layers))).
Proof.
  intros Hok. revert idx st r. induction fuel as [|fuel IH]; intros idx st r Hs Hf; [lia|]. cbn [read_layers].
  apply vspec_bind, vspec_get.
  { intros s [? ? ? H1 H2 ?]. unfold ovl_path_next, lowerstack, ovl_dentry_upper, d_inode, odentry_at, oinode_at.
    by rewrite H1, H2. }
  rewrite ovl_path_next_spec. destruct (dir_layers !! layer_pos idx) as [dir|] eqn:Ed; cbn [fmap option_fmap option_map].
  2:{ apply vspec_ret. do 2 eexists. split; [done|]. right. split; [done|].
      rewrite drop_ge by (by apply lookup_ge_None). by apply settled_listed. }
  assert (Hin : dir ∈ dir_layers) by (by eapply list_elem_of_lookup_2).
  assert (Hd : dir_ok dir) by (rewrite Forall_forall in Hok; by apply Hok).
  rewrite (drop_S _ _ _ Ed). apply vspec_bind, vspec_dentry_upper. fold (is_up dir).
  assert (Hs1 : settled st (set_rd_is_upper (is_up dir) r)) by (by destruct Hs).
  destruct (Nat.ltb_spec (S (layer_pos idx)) (length dir_layers)) as [Hlt|Hge].
  - assert (Hm : ∀ st, merge st (dir :: drop (S (layer_pos idx)) dir_layers) =
      merge (st ++ (layer_entry dir (is_up dir) <$> fresh st (contents w dir))) (drop (S (layer_pos idx)) dir_layers)).
    { intros st'. cbn [merge]. destruct (drop (S (layer_pos idx)) dir_layers) eqn:E; [|done].
      apply (f_equal length) in E. rewrite length_drop in E. cbn in E. lia. }
    rewrite Hm. apply vspec_bind. eapply vspec_mono; [by apply dir_read_upper|].
    intros res (e & r' & -> & [[He Hbad]|[-> Hs']]).
    + destruct (Z.eqb_spec e 0); [done|]. apply vspec_ret. do 2 eexists. split; [done|]. left. eauto.
    + cbn [Z.eqb negb]. rewrite <-layer_pos_next. apply IH; [done|]. rewrite layer_pos_next. lia.
  - rewrite (drop_ge dir_layers (S _)) by lia. cbn [merge].
    apply vspec_bind. eapply vspec_mono; [by apply (dir_read_lowest dir (is_up dir) st)|].
    intros res (e & r' & -> & [[He Hbad]|[-> Hm]]); apply vspec_ret; do 2 eexists; (split; [done|]); [left; eauto|right].
    split; [done|]. exact Hm.
Qed.

Lemma dir_layers_length : (length dir_layers <= S (length (lowerstack dentry s0)))%nat.
Proof. unfold dir_layers. rewrite length_app, length_fmap. destruct (ovl_dentry_upper _ _); cbn; lia. Qed.

Lemma dir_read_merged_spec :
  Forall dir_ok dir_layers →
  vspec s0 (ovl_dir_read_merged dentry)
    (λ res, ∃ e r', res = inr (e, r') ∧
      (e ≠ 0 ∧ (∃ dir, dir ∈ dir_layers ∧ read_error dir e) ∨ e = 0 ∧ listed r' = merge [] dir_layers)).
Proof.
  intros Hok. unfold ovl_dir_read_merged. apply vspec_bind, vspec_get.
  { intros s [? ? ? H1 ? ?]. unfold numlower, lowerstack, odentry_at. by rewrite H1. }
  assert (Hpos : layer_pos 0 = 0%nat) by (unfold layer_pos; by destruct (ovl_dentry_upper _ _)).
  eapply vspec_mono; [apply (read_layers_spec _ 0 [])|].
  - done.
  - split; try done. split; cbn; [constructor|]. intros i. split; [by intros ?%elem_of_nil|lia].
  - pose proof dir_layers_length. unfold numlower. rewrite Nat2Z.id, Hpos. lia.
  - rewrite Hpos. done.
Qed.
End reading.

(** ** What the list says *)

Section listing.
Context {W : Type} {K : Vfs W} {WL : WriteLaws K}.
Context (s : vstate W) (dentry : Z).
Let w := vs_world s.
Let entry (dir : Z) (d : dirent) : cache_entry := layer_entry s dentry dir (is_up s dentry dir) d.

Lemma layer_entry_name dir up d : ce_name (layer_entry s dentry dir up d) = dn_name d.
Proof. unfold layer_entry. destruct (_ =? _); [|done]. by rewrite marked_name. Qed.

Lemma fresh_elem st ds d : d ∈ fresh st ds ↔ d ∈ ds ∧ (dn_name d ∉ enames st).
Proof. unfold fresh. by rewrite list_elem_of_In, List.filter_In, absent_true, <-list_elem_of_In. Qed.

Lemma enames_layer st dir up : enames (st ++ (layer_entry s dentry dir up <$> fresh st (contents w dir))) =
  enames st ++ names (fresh st (contents w dir)).
Proof.
  unfold enames, names. rewrite fmap_app. f_equal. rewrite <-list_fmap_compose. apply list_fmap_ext. intros ? d _.
  apply layer_entry_name.
Qed.

Lemma nodup_fresh st ds : NoDup (names ds) → NoDup (names (fresh st ds)).
Proof.
  induction ds as [|d ds IH]; [done|]. cbn. intros [Hd Hn]%NoDup_cons. destruct (absent st d); [|by apply IH].
  cbn. constructor; [|by apply IH]. intros (d' & E & Hin)%list_elem_of_fmap. apply fresh_elem in Hin as [Hin _].
  apply Hd. rewrite E. by apply list_elem_of_fmap_2.
Qed.

Lemma nodup_layer st dir up :
  NoDup (enames st) → NoDup (names (contents w dir)) →
  NoDup (enames (st ++ (layer_entry s dentry dir up <$> fresh st (contents w dir)))).
Proof.
  intros Hs Hd. rewrite enames_layer. apply NoDup_app. split; [done|]. split; [|by apply nodup_fresh].
  intros n Hn (d & -> & Hin)%list_elem_of_fmap. by apply fresh_elem in Hin as [_ ?].
Qed.

(** A name that the layers above the lowest know keeps its entry. *)
Lemma pick_old dir up st d e :
  NoDup (enames st) → e ∈ st → ce_name e = dn_name d → pick s dentry dir up st d = e.
Proof.
  intros Hn He Hen. unfold pick. destruct (List.find _ st) as [e'|] eqn:Ef.
  - apply List.find_some in Ef as [He'%list_elem_of_In Hen']. apply str_eqb_eq in Hen'.
    apply list_elem_of_lookup in He as [i Hi]. apply list_elem_of_lookup in He' as [j Hj].
    assert (i = j) as ->; [|congruence].
    eapply NoDup_lookup; [exact Hn| |]; unfold enames; rewrite list_lookup_fmap; [by rewrite Hi|rewrite Hj; cbn; congruence].
  - apply list_elem_of_In in He. pose proof (List.find_none _ _ Ef e He) as Hf. cbn in Hf.
    apply str_eqb_neq in Hf. done.
Qed.
Lemma pick_new dir up st d : dn_name d ∉ enames st → pick s dentry dir up st d = layer_entry s dentry dir up d.
Proof.
  intros Hn. unfold pick. destruct (List.find _ st) as [e'|] eqn:Ef; [|done].
  apply List.find_some in Ef as [He'%list_elem_of_In Hen']. apply str_eqb_eq in Hen'.
  destruct Hn. apply list_elem_of_fmap. by exists e'.
Qed.

Lemma merge_lowest_elem dir up st e :
  NoDup (enames st) →
  (e ∈ merge_lowest s dentry dir up st ↔
   e ∈ st ∨ ∃ d, d ∈ contents w dir ∧ (dn_name d ∉ enames st) ∧ e = layer_entry s dentry dir up d).
Proof.
  intros Hn. unfold merge_lowest. fold w. rewrite elem_of_app, list_elem_of_fmap, (list_elem_of_In (List.filter _ _) e), List.filter_In,
    <-list_elem_of_In, negb_true_iff, bool_decide_eq_false. split.
  - intros [(d & -> & Hd)|[He _]]; [|by left].
    destruct (decide (dn_name d ∈ enames st)) as [(e' & Hen & He')%list_elem_of_fmap|Hnew].
    + left. by rewrite (pick_old dir up st d e').
    + right. exists d. by rewrite pick_new.
  - intros [He|(d & Hd & Hnew & ->)]; [|left; exists d; by rewrite pick_new].
    destruct (decide (ce_name e ∈ names (contents w dir))) as [(d & Hen & Hd)%list_elem_of_fmap|]; [left|by right].
    exists d. split; [|done]. symmetry. by apply pick_old.
Qed.

(** The entry of a name is that of the topmost layer that has the name. *)
Lemma merge_elem dirs : ∀ st e,
  NoDup (enames st) → Forall (λ dir, NoDup (names (contents w dir))) dirs →
  (e ∈ merge s dentry st dirs ↔
   e ∈ st ∨ ∃ pre dir post d, dirs = pre ++ dir :: post ∧ d ∈ contents w dir ∧ (dn_name d ∉ enames st) ∧
     Forall (λ x, dn_name d ∉ names (contents w x)) pre ∧ e = entry dir d).
Proof.
  induction dirs as [|dir dirs IH]; intros st e Hn Hd.
  { cbn. split; [by left|]. intros [?|(pre & x & post & d & E & _)]; [done|by destruct pre]. }
  apply Forall_cons in Hd as [Hd Hds]. destruct dirs as [|dir' dirs'].
  - cbn [merge]. rewrite merge_lowest_elem by done. fold (entry dir). split; (intros [He|He]; [by left|right]).
    + destruct He as (d & H1 & H2 & ->). exists [], dir, [], d. split_and!; try done.
    + destruct He as (pre & x & post & d & E & H1 & H2 & _ & ->). destruct pre as [|y pre]; [|by destruct pre].
      injection E as -> _. eauto.
  - set (dirs := dir' :: dirs') in *. change (merge s dentry st (dir :: dirs)) with
      (merge s dentry (st ++ (layer_entry s dentry dir (is_up s dentry dir) <$> fresh st (contents w dir))) dirs).
    rewrite IH by (done || by apply nodup_layer). rewrite elem_of_app, list_elem_of_fmap. setoid_rewrite enames_layer.
    setoid_rewrite elem_of_app. setoid_rewrite fresh_elem. split.
    + intros [[He|(d & -> & H1 & H2)]|(pre & x & post & d & -> & H1 & H2 & H3 & ->)]; [by left|right..].
      * exists [], dir, dirs, d. split_and!; try done.
      * exists (dir :: pre), x, post, d. split_and!; try done; [tauto|]. constructor; [|done].
        intros (d' & E & Hin)%list_elem_of_fmap. apply H2. right. rewrite E. apply list_elem_of_fmap_2, fresh_elem.
        split; [done|]. rewrite <-E. tauto.
    + intros [He|(pre & x & post & d & E & H1 & H2 & H3 & ->)]; [by left; left|].
      destruct pre as [|y pre].
      * injection E as -> _. left; right. by exists d.
      * injection E as -> ->. apply Forall_cons in H3 as [H3 H4]. right. exists pre, x, post, d. split_and!; try done.
        intros [?|(d' & Ed & Hin)%list_elem_of_fmap]; [done|]. apply fresh_elem in Hin as [Hin _].
        apply H3. rewrite Ed. by apply list_elem_of_fmap_2.
Qed.

Lemma merge_nodup dirs : ∀ st,
  NoDup (enames st) → Forall (λ dir, NoDup (names (contents w dir))) dirs → NoDup (enames (merge s dentry st dirs)).
Proof.
  induction dirs as [|dir dirs IH]; intros st Hn Hd; [done|]. apply Forall_cons in Hd as [Hd Hds].
  destruct dirs as [|dir' dirs'].
  - cbn [merge]. unfold merge_lowest, enames. fold w. rewrite fmap_app, NoDup_app.
    assert (Hp : ce_name <$> (pick s dentry dir (is_up s dentry dir) st <$> contents w dir) = names (contents w dir)).
    { unfold names. rewrite <-list_fmap_compose. apply list_fmap_ext. intros _ d _. cbn. unfold pick.
      destruct (List.find _ st) as [e|] eqn:Ef; [|apply layer_entry_name].
      apply List.find_some in Ef as [_ E]. by apply str_eqb_eq in E. }
    rewrite Hp. split; [done|]. split.
    + intros n Hin (e & -> & He)%list_elem_of_fmap. apply list_elem_of_In, List.filter_In in He as [_ He].
      apply negb_true_iff, bool_decide_eq_false in He. done.
    + clear -Hn. unfold enames in Hn. induction st as [|e st IH]; [done|]. cbn in *. apply NoDup_cons in Hn as [He Hn].
      destruct (negb _); [|by apply IH]. cbn. constructor; [|by apply IH].
      intros (e' & E & Hin)%list_elem_of_fmap. apply list_elem_of_In, List.filter_In in Hin as [Hin%list_elem_of_In _].
      apply He. rewrite E. by apply list_elem_of_fmap_2.
  - set (dirs := dir' :: dirs') in *. change (merge s dentry st (dir :: dirs)) with
      (merge s dentry (st ++ (layer_entry s dentry dir (is_up s dentry dir) <$> fresh st (contents w dir))) dirs).
    apply IH; [by apply nodup_layer|done].
Qed.

(** What a name is in the union of some directories: what it is in the topmost
    one that has it. *)
Fixpoint first_found (name : cstr) (dirs : list Z) : found :=
  match dirs with
  | [] => Absent
  | dir :: dirs' => match classify w (config_of s) dir name with Absent => first_found name dirs' | f => f end
  end.
Definition positive (f : found) : Prop := match f with Leaf _ | Dir _ _ => True | _ => False end.

Lemma union_stack_positive name dirs :
  union_stack w (config_of s) name dirs false ≠ [] ↔ positive (first_found name (p_dentry <$> dirs)).
Proof.
  induction dirs as [|p dirs IH]; [done|]. cbn. destruct (classify _ _ _ _); [done|done|done|].
  destruct opaque; done.
Qed.

Lemma union_lookup_positive name origin :
  union_lookup w (config_of s) name (ovl_dentry_upper dentry s) (lowerstack dentry s) origin ≠ (None, []) ↔
  positive (first_found name (dir_layers s dentry)).
Proof.
  unfold union_lookup, dir_layers. destruct (ovl_dentry_upper dentry s) as [u|]; cbn [option_list option_rect app].
  - cbn [first_found]. destruct (classify _ _ _ _); cbn [positive].
    + rewrite <-union_stack_positive. split; [intros H E; apply H; congruence|congruence].
    + split; [intros H; by apply H|done].
    + by split.
    + by split.
  - rewrite <-union_stack_positive. split; [intros H E; apply H; congruence|congruence].
Qed.

(** The layers list what can be looked up in them, and say of a whiteout that
    it is a character device. *)
Definition lists_name (name : cstr) (dir : Z) : Prop :=
  (name ∈ names (contents w dir) ↔ classify w (config_of s) dir name ≠ Absent) ∧
  (classify w (config_of s) dir name = Hidden → ∀ d, d ∈ contents w dir → dn_name d = name → dn_type d = DT_CHR).

Lemma entry_whiteout name dir d :
  lists_name name dir → d ∈ contents w dir → dn_name d = name →
  ce_is_whiteout (entry dir d) = false ↔ positive (classify w (config_of s) dir name).
Proof.
  intros [Hin Hchr] Hd <-. assert (Hne : classify w (config_of s) dir (dn_name d) ≠ Absent).
  { apply Hin. by apply list_elem_of_fmap_2. }
  unfold entry, layer_entry, marked. cbn [ce_name mk0]. fold w. unfold classify, positive_at in *.
  destruct (lookup_one w dir (dn_name d)) as [|x]; [done|]. destruct (d_is_negative _); [done|].
  destruct (ovl_is_whiteout (dentry_of w x)) eqn:Ew.
  - rewrite (Hchr eq_refl d Hd eq_refl), Z.eqb_refl. cbn. by rewrite ?Ew.
  - destruct (dn_type d =? DT_CHR); cbn; rewrite ?Ew; destruct (d_can_lookup _); done.
Qed.

Lemma visible_iff name dirs :
  Forall (λ dir, NoDup (names (contents w dir)) ∧ lists_name name dir) dirs →
  (∃ e, e ∈ merge s dentry [] dirs ∧ ce_name e = name ∧ ce_is_whiteout e = false) ↔ positive (first_found name dirs).
Proof.
  intros Hd.
  assert (Hnd : Forall (λ dir, NoDup (names (contents w dir))) dirs) by (eapply Forall_impl; [exact Hd|naive_solver]).
  setoid_rewrite merge_elem; [|constructor|done]. split.
  - intros (e & [?%elem_of_nil|(pre & dir & post & d & -> & H1 & _ & H3 & ->)] & Hn & Hw); [done|].
    unfold entry in Hn. rewrite layer_entry_name in Hn. rewrite Forall_app, Forall_cons in Hd. destruct Hd as (Hp & [_ Hl] & _).
    pose proof (proj1 (entry_whiteout name dir d Hl H1 Hn) Hw) as Hpos.
    clear Hnd. induction pre as [|x pre IH]; cbn.
    + by destruct (classify _ _ _ _).
    + apply Forall_cons in Hp as [[_ [Hx _]] Hp]. apply Forall_cons in H3 as [H3 H4].
      destruct (classify w (config_of s) x name) eqn:E; [by apply IH| | |];
        (exfalso; rewrite Hn in H3; by apply H3, Hx).
  - intros Hpos. induction dirs as [|dir dirs IH]; [done|]. cbn in Hpos.
    apply Forall_cons in Hd as [[_ Hl] Hd]. apply Forall_cons in Hnd as [_ Hnd].
    destruct (decide (name ∈ names (contents w dir))) as [Hin|Hin].
    + pose proof Hin as (d & -> & Hdd)%list_elem_of_fmap. pose proof (proj1 (proj1 Hl) Hin) as Hne.
      exists (entry dir d). split; [|split; [apply layer_entry_name|]].
      * right. exists [], dir, dirs, d. split_and!; try done. by apply not_elem_of_nil.
      * apply (entry_whiteout (dn_name d)); [done..|]. by destruct (classify w (config_of s) dir (dn_name d)).
    + assert (E : classify w (config_of s) dir name = Absent).
      { destruct (classify w (config_of s) dir name) eqn:E; [done| | |]; exfalso; apply Hin, (proj1 Hl); by rewrite E. }
      rewrite E in Hpos. destruct (IH Hd Hnd Hpos) as (e & [?%elem_of_nil|(pre & x & post & d & -> & H1 & H2 & H3 & ->)] & Hn & Hw); [done|].
      exists (entry x d). split; [|done]. right. exists (dir :: pre), x, post, d. split_and!; try done. constructor; [|done].
      unfold entry in Hn. rewrite layer_entry_name in Hn. by rewrite Hn.
Qed.
End listing.

(** ** Theorems *)

Section theorems.
Context {W : Type} {K : Vfs W} {WL : WriteLaws K} {R : RbLib} {RL : RbLaws R}.
Implicit Types s : vstate W.

(** The name's entry is that of the topmost layer that has it. *)
Definition topmost_entry (s : vstate W) (dentry : Z) (e : cache_entry) : Prop :=
  ∃ pre dir post d, dir_layers s dentry = pre ++ dir :: post ∧ d ∈ contents (vs_world s) dir ∧
    Forall (λ x, dn_name d ∉ names (contents (vs_world s) x)) pre ∧
    e = layer_entry s dentry dir (is_up s dentry dir) d.

Lemma dir_ok_nodup s dentry :
  Forall (dir_ok s) (dir_layers s dentry) →
  Forall (λ dir, NoDup (names (contents (vs_world s) dir))) (dir_layers s dentry).
Proof. intros H. eapply Forall_impl; [exact H|]. intros dir [[Hn _] _]. exact Hn. Qed.

Lemma merge_topmost s dentry e :
  Forall (dir_ok s) (dir_layers s dentry) →
  (e ∈ merge s dentry [] (dir_layers s dentry) ↔ topmost_entry s dentry e).
Proof.
  intros Hd. rewrite merge_elem by (constructor || by apply dir_ok_nodup). unfold topmost_entry. split.
  - intros [?%elem_of_nil|(pre & dir & post & d & ? & ? & _ & ? & ?)]; [done|]. by exists pre, dir, post, d.
  - intros (pre & dir & post & d & ? & ? & ? & ?). right. exists pre, dir, post, d. split_and!; try done.
    by apply not_elem_of_nil.
Qed.

Lemma dir_read_merged_run dentry s r s' :
  Forall (dir_ok s) (dir_layers s dentry) → ovl_dir_read_merged dentry s = (r, s') →
  quiet s s' ∧ ∃ e rdd, r = inr (e, rdd) ∧
    (e ≠ 0 ∧ (∃ dir, dir ∈ dir_layers s dentry ∧ read_error s dir e) ∨
     e = 0 ∧ listed rdd = merge s dentry [] (dir_layers s dentry)).
Proof. intros Hd H. exact (vspec_run _ _ _ _ _ (dir_read_merged_spec s dentry Hd) H). Qed.

(** C7: reading a merged directory lists every name of the layers once, with the
    entry of the topmost layer that has it, and the names of the lowest layer
    first; it fails only when memory, a layer or a lock does. *)
Theorem ovl_dir_read_merged_lists dentry s r s' :
  Forall (dir_ok s) (dir_layers s dentry) → ovl_dir_read_merged dentry s = (r, s') →
  ∃ e rdd, r = inr (e, rdd) ∧
    (e ≠ 0 → ∃ dir, dir ∈ dir_layers s dentry ∧ read_error s dir e) ∧
    (e = 0 → NoDup (enames (listed rdd)) ∧ (∀ p, p ∈ listed rdd ↔ topmost_entry s dentry p) ∧
       listed rdd = merge s dentry [] (dir_layers s dentry)).
Proof.
  intros Hd H. destruct (dir_read_merged_run _ _ _ _ Hd H) as (_ & e & rdd & -> & He). exists e, rdd.
  split; [done|]. destruct He as [[Hz Hbad]|[-> Hl]]; [by split|]. split; [done|]. intros _. rewrite Hl.
  split; [|split; [intros p; by apply merge_topmost|done]].
  apply merge_nodup; [constructor|by apply dir_ok_nodup].
Qed.


Definition hidden (p : cache_entry) : bool := ce_is_whiteout p || is_dot (ce_name p) || is_dotdot (ce_name p).

Lemma empty_loop_spec entries :
  if forallb hidden entries
  then empty_loop entries = (0, List.filter (λ p, ce_is_whiteout p && ce_is_upper p) entries)
  else fst (empty_loop entries) = - ENOTEMPTY.
Proof.
  induction entries as [|p entries IH]; [done|]. cbn. unfold hidden at 1.
  destruct (ce_is_whiteout p); cbn [orb andb].
  - destruct (ce_is_upper p); [|done]. destruct (forallb hidden entries); [by rewrite IH|].
    by destruct (empty_loop entries).
  - destruct (is_dot _ || is_dotdot _); done.
Qed.

(** A directory counts as empty exactly when nothing but "." and ".." is
    visible in it, and then the caller gets the upper whiteouts to remove. *)
Theorem ovl_check_empty_dir_spec dentry s r s' :
  Forall (dir_ok s) (dir_layers s dentry) → ovl_check_empty_dir dentry s = (r, s') →
  let all := merge s dentry [] (dir_layers s dentry) in
  ∃ e l, r = inr (e, l) ∧
    ((∃ dir, dir ∈ dir_layers s dentry ∧ read_error s dir e) ∨
     e = 0 ∧ forallb hidden all = true ∧ l = List.filter (λ p, ce_is_whiteout p && ce_is_upper p) all ∨
     e = - ENOTEMPTY ∧ ∃ p, topmost_entry s dentry p ∧ ce_is_whiteout p = false ∧ ce_name p ≠ lit "." ∧ ce_name p ≠ lit "..").
Proof.
  intros Hd H all. unfold ovl_check_empty_dir, vbind in H.
  destruct (ovl_dir_read_merged dentry s) as [r1 s1] eqn:E.
  destruct (dir_read_merged_run _ _ _ _ Hd E) as (_ & e & rdd & -> & He).
  destruct He as [[Hz Hbad]|[-> Hm]].
  - destruct (Z.eqb_spec e 0); [done|]. injection H as <- <-. do 2 eexists. split; [done|]. by left.
  - cbn [Z.eqb negb] in H. rewrite Hm in H. fold all in H. injection H as <- <-. pose proof (empty_loop_spec all) as Hs.
    destruct (empty_loop all) as [e l]. exists e, l. split; [done|]. right.
    destruct (forallb hidden all) eqn:Ef; [left|right].
    + injection Hs as -> ->. done.
    + split; [exact Hs|]. apply not_true_iff_false in Ef. rewrite forallb_forall in Ef.
      destruct (decide (Exists (λ p, hidden p = false) all)) as [Hex|Hno].
      * apply Exists_exists in Hex as (p & Hp & Hh). unfold hidden in Hh. to_prop. exists p.
        split; [by apply merge_topmost|]. split; [done|]. unfold is_dot, is_dotdot in *. to_prop. done.
      * exfalso. apply Ef. intros p Hp%list_elem_of_In. destruct (hidden p) eqn:Eh; [done|].
        destruct Hno. apply Exists_exists. eauto.
Qed.
End theorems.

(** ** Witnesses *)

#[export] Instance sim_rb : RbLib := { rb_insert_color t := t }.
#[export] Instance sim_rb_laws : RbLaws sim_rb.
Proof. by split. Qed.

Lemma sample_dirs_ok : Forall (dir_ok (sample_state sample_ovl_config)) (dir_layers (sample_state sample_ovl_config) 100).
Proof.
  change (dir_layers _ _) with [1; 2; 3].
  unfold dir_ok, good, no_nul.
  assert (Hall : Forall (λ dir, (NoDup (names (contents sample_tree dir)) ∧
      Forall (λ d, NUL ∉ dn_name d) (contents sample_tree dir)) ∧
    Forall (λ b, b ≠ []) (fst (dir_batches sample_tree dir))) [1; 2; 3]); [|exact Hall].
  apply (bool_decide_eq_true_1 _). vm_compute. reflexivity.
Qed.

Lemma ovl_dir_read_merged_lists_witness :
  let s := sample_state sample_ovl_config in
  ∃ rdd s', ovl_dir_read_merged 100 s = (inr (0, rdd), s') ∧
    enames (listed rdd) = [lit "etc"; lit "gone"; lit "passwd"] ∧
    (∀ p, p ∈ listed rdd ↔ topmost_entry s 100 p).
Proof.
  intros s. eexists ?[rdd], ?[s1].
  assert (H : ovl_dir_read_merged 100 s = (inr (0, ?rdd), ?s1)) by (vm_compute; reflexivity).
  split; [exact H|]. split; [vm_compute; reflexivity|].
  destruct (ovl_dir_read_merged_lists 100 s _ _ sample_dirs_ok H) as (e & r & E & _ & Hok).
  injection E as <- <-. apply (Hok eq_refl).
Defined.

(** [lists_name] as a test. *)
Definition lists_nameb (s : vstate tree) (name : cstr) (dir : Z) : bool :=
  let f := classify (vs_world s) (config_of s) dir name in
  Bool.eqb (bool_decide (name ∈ names (contents (vs_world s) dir))) (match f with Absent => false | _ => true end) &&
  match f with
  | Hidden => forallb (λ d, negb (str_eqb (dn_name d) name) || (dn_type d =? DT_CHR)) (contents (vs_world s) dir)
  | _ => true
  end.

Lemma lists_nameb_ok s name dir : lists_nameb s name dir = true → lists_name s name dir.
Proof.
  unfold lists_nameb, lists_name. intros [H1 H2]%andb_true_iff. apply eqb_prop in H1.
  destruct (classify _ _ dir name) as [| |x|x o]; split; try done.
  - apply bool_decide_eq_false in H1. done.
  - apply bool_decide_eq_true in H1. done.
  - intros _ d Hd <-. rewrite forallb_forall in H2. apply list_elem_of_In in Hd. specialize (H2 d Hd).
    rewrite str_eqb_refl in H2. by apply Z.eqb_eq in H2.
  - apply bool_decide_eq_true in H1. done.
  - apply bool_decide_eq_true in H1. done.
Qed.

Lemma sample_lists name :
  forallb (lists_nameb (sample_state sample_ovl_config) name) [1; 2; 3] = true →
  Forall (lists_name (sample_state sample_ovl_config) name) (dir_layers (sample_state sample_ovl_config) 100).
Proof.
  intros H. change (dir_layers _ _) with [1; 2; 3]. apply Forall_forall. intros dir Hdir.
  apply lists_nameb_ok. rewrite forallb_forall in H. by apply H, list_elem_of_In.
Qed.


Lemma ovl_check_empty_dir_spec_witness :
  let s := sample_state sample_ovl_config in
  ∃ e l s', ovl_check_empty_dir 100 s = (inr (e, l), s') ∧ e = - ENOTEMPTY ∧
    let all := merge s 100 [] (dir_layers s 100) in
    ∃ e1 l1, (inr (e, l) : res (Z * list cache_entry)) = inr (e1, l1) ∧
      ((∃ dir, dir ∈ dir_layers s 100 ∧ read_error s dir e1) ∨
       e1 = 0 ∧ forallb hidden all = true ∧ l1 = List.filter (λ p, ce_is_whiteout p && ce_is_upper p) all ∨
       e1 = - ENOTEMPTY ∧ ∃ p, topmost_entry s 100 p ∧ ce_is_whiteout p = false ∧ ce_name p ≠ lit "." ∧ ce_name p ≠ lit "..").
Proof.
  intros s. eexists ?[e], ?[l], ?[s1].
  assert (H : ovl_check_empty_dir 100 s = (inr (?e, ?l), ?s1)) by (vm_compute; reflexivity).
  split; [exact H|]. split; [reflexivity|].
  exact (ovl_check_empty_dir_spec 100 s _ _ sample_dirs_ok H).
Defined.
