(* ===== verification/OvlIno.v ===== *)
(** * Inode numbers, attributes and permissions (inode.c, readdir.c)

    What [stat] and [readdir] show of a file that comes from one of several
    file systems: the number of the inode and the device, made unique with the
    number of the file system, the owner, the names of the attributes, and who
    may access it. *)
From S2P Require Import Prelude CString OS OvlOptions OvlVfs OvlHandle OvlLogic OvlSim OvlLookup OvlUnion OvlLayers OvlStack OvlReaddir.
Open Scope Z_scope.

(** ** Numbers *)

(** An [unsigned long] or [u64]. *)
Definition u64 (z : Z) : Z := z mod 2 ^ 64.

(** The members of [struct kstat] that are used; the type of the file is
    [st_isdir]. *)
Record kstat := KStat {
  st_dev : Z; st_ino : Z; st_nlink : Z; st_blocks : Z; st_uid : Z; st_gid : Z; st_isdir : bool
}.
Definition set_st_dev (x : Z) (k : kstat) : kstat :=
  KStat x (st_ino k) (st_nlink k) (st_blocks k) (st_uid k) (st_gid k) (st_isdir k).
Definition set_st_ino (x : Z) (k : kstat) : kstat :=
  KStat (st_dev k) x (st_nlink k) (st_blocks k) (st_uid k) (st_gid k) (st_isdir k).
Definition set_st_nlink (x : Z) (k : kstat) : kstat :=
  KStat (st_dev k) (st_ino k) x (st_blocks k) (st_uid k) (st_gid k) (st_isdir k).
Definition set_st_blocks (x : Z) (k : kstat) : kstat :=
  KStat (st_dev k) (st_ino k) (st_nlink k) x (st_uid k) (st_gid k) (st_isdir k).
Definition set_st_owner (u g : Z) (k : kstat) : kstat :=
  KStat (st_dev k) (st_ino k) (st_nlink k) (st_blocks k) u g (st_isdir k).

(** What belongs to the VFS of the overlay's super block and inodes: its
    device, the devices of the file systems, and the number and links of an
    inode. *)
Record vfs_side := VfsSide { s_dev : Z; pseudo_dev : list Z; i_ino_of : Z → Z; i_nlink_of : Z → Z }.

(** The kernel's answers about the real files. *)
Class VfsStat (W : Type) := {
  vfs_getattr : W → Z → res kstat;               (** of a dentry of a layer *)
  current_fsuid : W → Z;
  generic_permission : W → Z → Z → Z;            (** of an inode of the overlay *)
  inode_permission : W → Z → Z → Z;              (** of the inode of a dentry of a layer, as the mounter *)
  inode_special : W → Z → bool;                  (** [special_file] *)
  cap_sys_admin : W → bool
}.

(** ** Mapping (device, number) pairs *)

Section numbers.
Context (ofs : ovl_fs) (v : vfs_side).

Definition xinoshift : Z := 64 - ovl_xino_bits ofs.

(** [is_dir] and [i_ino] are of the inode of the overlay. *)
Definition ovl_map_dev_ino (is_dir : bool) (i_ino : Z) (fsid : Z) (stat : kstat) : kstat :=
  let unmapped :=
    if is_dir then set_st_ino i_ino (set_st_dev (s_dev v) stat)
    else set_st_dev (default 0 (pseudo_dev v !! Z.to_nat fsid)) stat in
  if ovl_same_fs ofs then set_st_dev (s_dev v) stat
  else if negb (ovl_xino_bits ofs =? 0) then
    if Z.shiftr (st_ino stat) xinoshift =? 0
    then set_st_dev (s_dev v) (set_st_ino (Z.lor (st_ino stat) (u64 (Z.shiftl fsid (xinoshift + 1)))) stat)
    else unmapped
  else unmapped.

(** [last_ino] is the counter of the super block: the number and the counter
    afterwards. *)
Definition ovl_next_ino (last_ino : Z) : Z * Z :=
  let ino := u64 (last_ino + 1) in
  if ino =? 0 then let ino := u64 (ino + 1) in (ino, ino) else (ino, ino).

(** The number of an inode of the overlay, and the counter. *)
Definition ovl_map_ino (is_dir : bool) (ino fsid last_ino : Z) : Z * Z :=
  let xinobits := ovl_xino_bits ofs in
  if ovl_same_fs ofs then (ino, last_ino)
  else if negb (xinobits =? 0) && (Z.shiftr ino xinoshift =? 0)
  then (Z.lor ino (u64 (Z.shiftl fsid (xinoshift + 1))), last_ino)
  else if is_dir then
    let '(i, last_ino) := ovl_next_ino last_ino in
    (if negb (xinobits =? 0)
     then Z.lor (Z.land i (Z.shiftr (2 ^ 64 - 1) xinobits)) (Z.shiftl 1 xinoshift) else i, last_ino)
  else (ino, last_ino).

(** readdir.c; the caller has some xino bits. *)
Definition ovl_remap_lower_ino (ino xinobits fsid : Z) : Z :=
  let xinoshift := 64 - xinobits in
  if negb (Z.shiftr ino xinoshift =? 0) then ino
  else Z.lor ino (u64 (Z.shiftl fsid (xinoshift + 1))).
End numbers.

(** ** Attributes of a file *)

Section attributes.
Context {W : Type} {K : Vfs W} {VS : VfsStat W} (v : vfs_side).

Definition layer_fsid (dentry : Z) (s : vstate W) : Z := from_option l_fsid 0 (ovl_layer_lower dentry s).
Definition verify_lower (s : vstate W) : bool :=
  c_nfs_export (ofs_config (vs_fs s)) && c_index (ofs_config (vs_fs s)).

(** The file system and the inode number, and the blocks: the part of
    [ovl_getattr] for files that are not directories, or on one device. *)
Definition getattr_origin (dentry : Z) (is_dir : bool) (type : path_type) (stat : kstat) (s : vstate W)
    : res (kstat * Z) :=
  let w := vs_world s in
  let metacopy_blocks := ovl_is_metacopy_dentry dentry s in
  let lowerdata := ovl_dentry_lowerdata dentry s in
  let+ (stat, fsid, metacopy_blocks) :=
    (if negb (T_UPPER type) then inr (stat, layer_fsid dentry s, metacopy_blocks)
     else if T_ORIGIN type then
       let lower := ovl_dentry_lower dentry s in
       let+ lowerstat := vfs_getattr w (default 0 lower) in
       let '(stat, fsid) :=
         if test_inode OVL_INDEX dentry s || (negb (verify_lower s) && (is_dir || (st_nlink lowerstat =? 1)))
         then (set_st_ino (st_ino lowerstat) stat, layer_fsid dentry s) else (stat, 0) in
       if metacopy_blocks && bool_decide (lower = lowerdata)
       then inr (set_st_blocks (st_blocks lowerstat) stat, fsid, false)
       else inr (stat, fsid, metacopy_blocks)
     else inr (stat, 0, metacopy_blocks)) in
  if metacopy_blocks then
    let+ lowerdatastat := vfs_getattr w (default 0 lowerdata) in
    inr (set_st_blocks (st_blocks lowerdatastat) stat, fsid)
  else inr (stat, fsid).

Definition ovl_getattr (dentry : Z) (s : vstate W) : res kstat :=
  let fs := vs_fs s in
  let is_dir := od_is_dir (odentry_at dentry s) in
  let inode := default 0 (od_inode (odentry_at dentry s)) in
  let '(type, realpath) := ovl_path_real dentry s in
  let+ stat := vfs_getattr (vs_world s) (default 0 realpath) in
  let+ (stat, fsid) :=
    (if negb is_dir || ovl_same_dev fs then getattr_origin dentry is_dir type stat s else inr (stat, 0)) in
  let stat := ovl_map_dev_ino fs v is_dir (i_ino_of v inode) fsid stat in
  let stat := if is_dir && T_MERGE type then set_st_nlink 1 stat else stat in
  let stat := if negb is_dir && test_inode OVL_INDEX dentry s then set_st_nlink (i_nlink_of v inode) stat else stat in
  let c := ofs_config fs in
  inr (if c_has_override_creds c then set_st_owner (c_override_uid c) (c_override_gid c) stat else stat).

(** ** Permission *)

Definition MAY_WRITE : Z := 2.
Definition MAY_READ : Z := 4.
Definition MAY_APPEND : Z := 8.
Definition MAY_NOT_BLOCK : Z := 128.

(** [inode] is the address of an inode of the overlay. *)
Definition ovl_permission (inode mask : Z) (s : vstate W) : Z * vstate W :=
  let w := vs_world s in
  let c := ofs_config (vs_fs s) in
  let upper := oi_upperdentry (oinode_at inode s) in
  let real := match upper with Some d => Some d | None => p_dentry <$> oi_lowerpath (oinode_at inode s) end in
  match real with
  | None => (- ECHILD, if Z.land mask MAY_NOT_BLOCK =? 0 then set_vs_warned s else s)
  | Some real =>
    if c_has_override_creds c && (current_fsuid w =? c_override_uid c) then (0, s)
    else
      let err := generic_permission w inode mask in
      if negb (err =? 0) then (err, s)
      else
        let mask :=
          if is_none upper && negb (inode_special w real) && negb (Z.land mask MAY_WRITE =? 0)
          then Z.lor (Z.land mask (Z.lnot (Z.lor MAY_WRITE MAY_APPEND))) MAY_READ else mask in
        (inode_permission w real mask, s)
  end.

(** ** Names of extended attributes *)

Definition ovl_is_private_xattr (c : ovl_config) (name : cstr) : bool :=
  prefixb (if c_userxattr c then OVL_XATTR_USER_PREFIX else OVL_XATTR_TRUSTED_PREFIX) name.
Definition XATTR_TRUSTED_PREFIX : cstr := lit "trusted.".
Definition ovl_can_list (c : ovl_config) (w : W) (name : cstr) : bool :=
  if ovl_is_private_xattr c name then false
  else if negb (prefixb XATTR_TRUSTED_PREFIX name) then true else cap_sys_admin w.

(** The loop of [ovl_listxattr] on the bytes that are left; [None] is the
    broken list. *)
Fixpoint strnlen (s : list ascii) : nat :=
  match s with [] => 0 | c :: s' => if bool_decide (c = NUL) then 0 else S (strnlen s') end.
Fixpoint filter_list (fuel : nat) (c : ovl_config) (w : W) (s : list ascii) : option (list ascii) :=
  match fuel, s with
  | _, [] => Some []
  | O, _ => None
  | S fuel, _ =>
    let slen := S (strnlen s) in
    if Nat.ltb (length s) slen then None
    else
      match filter_list fuel c w (drop slen s) with
      | None => None
      | Some r => Some (if ovl_can_list c w (take (strnlen s) s) then take slen s ++ r else r)
      end
  end.

(** [listed] is what [vfs_listxattr] returns: an error, or the bytes of the
    list, of which the caller sees the length only when [size] is 0. *)
Definition ovl_listxattr (real : res (list ascii)) (size : Z) (s : vstate W) : res (Z * list ascii) * vstate W :=
  match real with
  | inl e => (inl e, s)
  | inr list =>
    let res := Z.of_nat (length list) in
    if (res <=? 0) || (size =? 0) then (inr (res, []), s)
    else match filter_list (length list) (ofs_config (vs_fs s)) (vs_world s) list with
         | None => (inl (- EIO), set_vs_warned s)
         | Some l => (inr (Z.of_nat (length l), l), s)
         end
  end.
End attributes.

(** ** The mapped numbers *)

Lemma shiftr_zero i n : 0 <= i → 0 <= n → Z.shiftr i n = 0 ↔ i < 2 ^ n.
Proof.
  intros Hi Hn. rewrite Z.shiftr_div_pow2, Z.div_small_iff by lia.
  pose proof (Z.pow_pos_nonneg 2 n). lia.
Qed.

Lemma lor_shift i f n : 0 <= n → 0 <= i < 2 ^ n → Z.lor i (Z.shiftl f (n + 1)) = i + f * 2 ^ (n + 1).
Proof.
  intros Hn Hi. rewrite <-Z.lxor_lor, <-Z.add_nocarry_lxor.
  1: rewrite Z.shiftl_mul_pow2; lia.
  all: apply Z.bits_inj'; intros k Hk; rewrite Z.land_spec, Z.bits_0.
  all: destruct (decide (k < n + 1)) as [Hlt|Hge]; [rewrite Z.shiftl_spec_low by done; apply andb_false_r|].
  all: replace (Z.testbit i k) with false; [done|].
  all: symmetry; apply Z.bits_above_log2; [lia|].
  all: destruct (decide (i = 0)) as [->|]; [cbn; lia|].
  all: apply Z.log2_lt_pow2; [lia|]; pose proof (Z.pow_le_mono_r 2 n k); lia.
Qed.

(** With [b] bits for the file system, and [f] below [2^(b-1)]. *)
Lemma mapped_value b i f :
  1 <= b <= 32 → 0 <= i < 2 ^ (64 - b) → 0 <= f < 2 ^ (b - 1) →
  Z.lor i (u64 (Z.shiftl f (64 - b + 1))) = i + f * 2 ^ (64 - b + 1) ∧ i + f * 2 ^ (64 - b + 1) < 2 ^ 64.
Proof.
  intros Hb Hi Hf.
  assert (Hp : 2 ^ (64 - b + 1) * 2 ^ (b - 1) = 2 ^ 64) by (rewrite <-Z.pow_add_r by lia; f_equal; lia).
  pose proof (Z.pow_pos_nonneg 2 (64 - b + 1)) as H0.
  assert (Hd : 2 ^ (64 - b + 1) = 2 * 2 ^ (64 - b)) by (rewrite Z.pow_add_r by lia; lia).
  assert (Hlt : i + f * 2 ^ (64 - b + 1) < 2 ^ 64) by nia.
  split; [|done]. unfold u64. rewrite <-lor_shift by lia. f_equal.
  apply Z.mod_small. rewrite Z.shiftl_mul_pow2 by lia. nia.
Qed.

Lemma mapped_unique n i j f g :
  0 <= n → 0 <= i < 2 ^ n → 0 <= j < 2 ^ n → i + f * 2 ^ (n + 1) = j + g * 2 ^ (n + 1) → i = j ∧ f = g.
Proof.
  intros Hn Hi Hj H. assert (Hp : 2 ^ (n + 1) = 2 * 2 ^ n) by (rewrite Z.pow_add_r by lia; lia).
  pose proof (Z.mod_unique (i + f * 2 ^ (n + 1)) (2 ^ (n + 1)) f i ltac:(lia) ltac:(lia)) as H1.
  pose proof (Z.mod_unique (i + f * 2 ^ (n + 1)) (2 ^ (n + 1)) g j ltac:(lia) ltac:(lia)) as H2.
  assert (i = j) by congruence. subst j. split; [done|]. apply (Z.mul_reg_r _ _ (2 ^ (n + 1))); lia.
Qed.

(** The numbers kept for inodes without one: the lowest of the upper bits. *)
Definition nonpersistent (b i : Z) : Z := Z.lor (Z.land i (Z.shiftr (2 ^ 64 - 1) b)) (Z.shiftl 1 (64 - b)).
Lemma nonpersistent_value b i :
  1 <= b <= 32 → 0 <= i → nonpersistent b i = i mod 2 ^ (64 - b) + 2 ^ (64 - b).
Proof.
  intros Hb Hi. unfold nonpersistent.
  assert (E : Z.shiftr (2 ^ 64 - 1) b = Z.ones (64 - b)).
  { rewrite Z.ones_equiv, Z.shiftr_div_pow2 by lia.
    assert (Hp : 2 ^ 64 = 2 ^ (64 - b) * 2 ^ b) by (rewrite <-Z.pow_add_r by lia; f_equal; lia).
    rewrite Hp. pose proof (Z.pow_pos_nonneg 2 b). pose proof (Z.pow_pos_nonneg 2 (64 - b)).
    symmetry. apply Z.div_unique with (2 ^ b - 1); lia. }
  rewrite E, Z.land_ones by lia.
  pose proof (Z.mod_pos_bound i (2 ^ (64 - b)) ltac:(apply Z.pow_pos_nonneg; lia)) as Hm.
  pose proof (lor_shift (i mod 2 ^ (64 - b)) 1 (64 - b - 1)) as Hl.
  rewrite <-Z.lxor_lor, <-Z.add_nocarry_lxor.
  1: rewrite Z.shiftl_mul_pow2; lia.
  all: apply Z.bits_inj'; intros k Hk; rewrite Z.land_spec, Z.bits_0.
  all: destruct (decide (k < 64 - b)) as [Hlt|Hge]; [rewrite Z.shiftl_spec_low by done; apply andb_false_r|].
  all: by rewrite Z.mod_pow2_bits_high by lia.
Qed.

Lemma nonpersistent_apart b i j f :
  1 <= b <= 32 → 0 <= i → 0 <= j < 2 ^ (64 - b) → 0 <= f → nonpersistent b i ≠ j + f * 2 ^ (64 - b + 1).
Proof.
  intros Hb Hi Hj Hf. rewrite nonpersistent_value by done.
  pose proof (Z.mod_pos_bound i (2 ^ (64 - b)) ltac:(apply Z.pow_pos_nonneg; lia)) as Hm.
  assert (2 ^ (64 - b + 1) = 2 * 2 ^ (64 - b)) as -> by (rewrite Z.pow_add_r by lia; lia).
  destruct (decide (f = 0)) as [->|Hne]; [lia|].
  pose proof (Z.mul_le_mono_nonneg_r 1 f (2 * 2 ^ (64 - b))). lia.
Qed.

(** ** Which numbers a file gets *)

(** What [fsid] must satisfy to be mapped: it fits in the bits there are. *)
Definition fits_bits (ofs : ovl_fs) (fsid : Z) : Prop :=
  0 <= fsid ∧ (0 < ofs_xino_mode ofs → ofs_xino_mode ofs <= 32 ∧ fsid < 2 ^ (ofs_xino_mode ofs - 1)).

Lemma xino_bits_pos ofs : 0 < ofs_xino_mode ofs → ovl_xino_bits ofs = ofs_xino_mode ofs.
Proof. intros H. unfold ovl_xino_bits, ovl_same_dev. by destruct (0 <=? _) eqn:E; to_prop; [|lia]. Qed.
Lemma xino_bits_neg ofs : ofs_xino_mode ofs < 0 → ovl_xino_bits ofs = 0.
Proof. intros H. unfold ovl_xino_bits, ovl_same_dev. by destruct (0 <=? _) eqn:E; to_prop; [lia|]. Qed.

(** The number of a file that fits: its own with the file system above it. *)
Definition unified (ofs : ovl_fs) (ino fsid : Z) : Z := ino + fsid * 2 ^ (64 - ofs_xino_mode ofs + 1).

Lemma map_cases ofs v is_dir i f k :
  fits_bits ofs f → 0 <= st_ino k →
  let k' := ovl_map_dev_ino ofs v is_dir i f k in
  (ofs_xino_mode ofs = 0 ∧ st_dev k' = s_dev v ∧ st_ino k' = st_ino k) ∨
  (0 < ofs_xino_mode ofs ∧ st_ino k < 2 ^ (64 - ofs_xino_mode ofs) ∧ st_dev k' = s_dev v ∧
   st_ino k' = unified ofs (st_ino k) f) ∨
  ((ofs_xino_mode ofs < 0 ∨ 2 ^ (64 - ofs_xino_mode ofs) <= st_ino k) ∧ ofs_xino_mode ofs ≠ 0 ∧
   if is_dir then st_dev k' = s_dev v ∧ st_ino k' = i
   else st_dev k' = default 0 (pseudo_dev v !! Z.to_nat f) ∧ st_ino k' = st_ino k).
Proof.
  intros [Hf Hb] Hk. cbv zeta. unfold ovl_map_dev_ino, ovl_same_fs, xinoshift.
  destruct (Z.lt_trichotomy (ofs_xino_mode ofs) 0) as [Hm|[Hm|Hm]].
  - right; right. rewrite xino_bits_neg by done. destruct (ofs_xino_mode ofs =? 0) eqn:E; to_prop; [lia|].
    cbn. split; [by left|]. split; [done|]. by destruct is_dir.
  - left. rewrite Hm. done.
  - right. rewrite xino_bits_pos by done. destruct (ofs_xino_mode ofs =? 0) eqn:E; to_prop; [lia|].
    cbn [negb]. destruct (Hb Hm) as [Hle Hlt].
    destruct (Z.shiftr (st_ino k) (64 - ofs_xino_mode ofs) =? 0) eqn:Es; to_prop.
    + left. apply shiftr_zero in Es; [|lia..]. split; [done|]. split; [done|]. split; [done|].
      unfold unified. cbn [st_ino set_st_dev set_st_ino]. apply mapped_value; lia.
    + right. split; [right; rewrite shiftr_zero in Es by lia; lia|]. split; [lia|]. by destruct is_dir.
Qed.

Definition vfs_ok (v : vfs_side) : Prop := NoDup (pseudo_dev v) ∧ s_dev v ∉ pseudo_dev v.

Lemma map_inj ofs v i j f g k1 k2 :
  vfs_ok v → fits_bits ofs f → fits_bits ofs g → (ofs_xino_mode ofs = 0 → f = g) →
  f < Z.of_nat (length (pseudo_dev v)) → g < Z.of_nat (length (pseudo_dev v)) → 0 <= st_ino k1 → 0 <= st_ino k2 →
  st_dev (ovl_map_dev_ino ofs v false i f k1) = st_dev (ovl_map_dev_ino ofs v false j g k2) →
  st_ino (ovl_map_dev_ino ofs v false i f k1) = st_ino (ovl_map_dev_ino ofs v false j g k2) →
  f = g ∧ st_ino k1 = st_ino k2.
Proof.
  intros [Hnd Hs] Hf Hg H0 Lf Lg H1 H2 Hd Hi. pose proof Hf as [Pf Bf]. pose proof Hg as [Pg _].
  assert (Hp : ∀ x, 0 <= x < Z.of_nat (length (pseudo_dev v)) →
    pseudo_dev v !! Z.to_nat x = Some (default 0 (pseudo_dev v !! Z.to_nat x))).
  { intros x Hx. destruct (lookup_lt_is_Some_2 (pseudo_dev v) (Z.to_nat x)) as [y ->]; [lia|done]. }
  assert (Hn : ∀ x, 0 <= x < Z.of_nat (length (pseudo_dev v)) → default 0 (pseudo_dev v !! Z.to_nat x) ≠ s_dev v).
  { intros x Hx E. apply Hs. rewrite <-E. by eapply list_elem_of_lookup_2, Hp. }
  destruct (map_cases ofs v false i f k1 Hf H1) as [(M1 & D1 & I1)|[(M1 & L1 & D1 & I1)|(M1 & Z1 & D1 & I1)]];
  destruct (map_cases ofs v false j g k2 Hg H2) as [(M2 & D2 & I2)|[(M2 & L2 & D2 & I2)|(M2 & Z2 & D2 & I2)]];
    rewrite D1, D2 in Hd; rewrite I1, I2 in Hi; try lia.
  - apply and_comm, (mapped_unique (64 - ofs_xino_mode ofs)); [destruct (Bf M1); lia|lia..|exact Hi].
  - destruct (Hn g); [lia|done].
  - destruct (Hn f); [lia|done].
  - split; [|done]. assert (Z.to_nat f = Z.to_nat g); [|lia].
    eapply NoDup_lookup; [done|apply Hp; lia|]. rewrite Hd. apply Hp; lia.
Qed.

Section mounted.
Context {W : Type} {K : Vfs W} {L : MountLib W} {ML : MountLaws L} (w : W).

(** A file of the layer with the root [d], on file system [fsid]: the upper
    layer or a lower one. *)
Definition file_on (stack : list path) (m m' : mount_fs) (d fsid : Z) : Prop :=
  (mf_upper m = Some d ∧ fsid = 0) ∨
  ∃ i p l, stack !! i = Some p ∧ mf_layers m' !! i = Some l ∧ d = pa_dentry p ∧ fsid = ml_fsid l.

Lemma file_on_fsid stack m m' d e f g :
  before_layers m → ovl_get_layers w stack m = inr m' → file_on stack m m' d f → file_on stack m m' e g →
  f = g ↔ sb_of w d = sb_of w e.
Proof.
  intros Hb H. destruct (get_layers_numbers w stack m m' Hb H) as (_ & _ & Hl).
  intros [[Hd ->]|(i & p & l & Hp & Hml & -> & ->)] [[He ->]|(j & q & k & Hq & Hmk & -> & ->)].
  - split; [|done]. intros _. congruence.
  - destruct (Hl _ _ _ Hq Hmk) as (_ & _ & _ & Hu & _). specialize (Hu _ Hd).
    split; [intros E; symmetry; by apply Hu|intros E; symmetry; by apply Hu].
  - destruct (Hl _ _ _ Hp Hml) as (_ & _ & _ & Hu & _). by apply Hu.
  - destruct (Hl _ _ _ Hp Hml) as (_ & _ & _ & _ & _ & Ha). by apply (Ha j).
Qed.

Lemma file_on_bounds stack m m' d f :
  before_layers m → mode_ok m → Z.of_nat (length stack) <= OVL_MAX_STACK →
  ovl_get_layers w stack m = inr m' → file_on stack m m' d f →
  0 <= f < numfs m' ∧ (0 < mf_xino_mode m' → mf_xino_mode m' <= 32 ∧ f < 2 ^ (mf_xino_mode m' - 1)) ∧
  (mf_xino_mode m' = 0 → f = if is_none (mf_upper m) then 1 else 0).
Proof.
  intros Hb Hm Hlen H Hf. destruct (get_layers_numbers w stack m m' Hb H) as (Hlen' & _ & Hl).
  pose proof (xino_mode_zero w stack m m' Hb Hm H) as Hz.
  assert (Hpos : 0 < numfs m').
  { destruct (get_layers_inr w _ _ _ Hb H) as (m1 & m2 & usb & I & -> & Hf1 & _).
    destruct (first_entry w _ _ _ _ I Hf1) as (f0 & Hf0 & _). destruct (set_xino_mode_only m2) as [x ->].
    apply lookup_lt_Some in Hf0. unfold numfs. cbn. lia. }
  destruct Hf as [[Hu ->]|(i & p & l & Hp & Hml & -> & ->)].
  - split; [lia|]. split; [|by rewrite Hu]. intros Hx.
    destruct (mf_layers m') as [|l ls] eqn:El.
    + split; [|apply Z.pow_pos_nonneg; lia]. cbn in Hlen'. destruct stack; [|done].
      destruct (get_layers_inr w _ _ _ Hb H) as (m1 & m2 & usb & I & -> & Hf1 & _ & _ & Hr).
      pose proof (li_count _ _ _ _ I) as Hc. rewrite Hf1 in Hc. cbn in Hc.
      pose proof (li_upper _ _ _ _ I) as Hup. rewrite (sr_upper _ _ Hr) in Hup.
      unfold set_xino_mode in *. rewrite Hup, Hu in *. cbn [is_none] in *.
      destruct (numfs m2 - 0 =? 1) eqn:E; [cbn in *; lia|]. to_prop. exfalso. unfold numfs in *.
      destruct (c_xino _ =? _) in Hpos; [|destruct (_ <? 0) in Hpos]; cbn in Hpos; lia.
    + destruct (get_layers_bits w stack m m' l Hb Hm Hlen H) as [Hx1 Hx2]; [rewrite El; left|done|].
      split; [done|]. apply Z.pow_pos_nonneg; lia.
  - destruct (Hl _ _ _ Hp Hml) as (_ & _ & Hr & _ & Hu & _). split; [done|]. split.
    + intros Hx. apply (get_layers_bits w stack m m' l); [done..| |done]. by eapply list_elem_of_lookup_2.
    + intros Hx. rewrite (Hz Hx) in Hr. destruct (mf_upper m) eqn:Eu; cbn in *; [lia|]. specialize (Hu eq_refl). lia.
Qed.

(** C22: device and inode number identify a file: two files, other than
    directories, of any layers of a mounted overlay that show the same device
    and number have the same number on the same file system. *)
Theorem ovl_st_ino_unique stack m m' ofs v d e f g i j k1 k2 :
  before_layers m → mode_ok m → Z.of_nat (length stack) <= OVL_MAX_STACK → ovl_get_layers w stack m = inr m' →
  ofs_xino_mode ofs = mf_xino_mode m' → pseudo_dev v = (os_pseudo_dev <$> mf_fs m') → s_dev v ∉ pseudo_dev v →
  file_on stack m m' d f → file_on stack m m' e g → 0 <= st_ino k1 → 0 <= st_ino k2 →
  st_dev (ovl_map_dev_ino ofs v false i f k1) = st_dev (ovl_map_dev_ino ofs v false j g k2) →
  st_ino (ovl_map_dev_ino ofs v false i f k1) = st_ino (ovl_map_dev_ino ofs v false j g k2) →
  sb_of w d = sb_of w e ∧ st_ino k1 = st_ino k2.
Proof.
  intros Hb Hm Hlen H Hx Hv Hs Hf Hg H1 H2 Hd Hi.
  destruct (file_on_bounds _ _ _ _ _ Hb Hm Hlen H Hf) as (Rf & Bf & Zf).
  destruct (file_on_bounds _ _ _ _ _ Hb Hm Hlen H Hg) as (Rg & Bg & Zg).
  assert (Hn : Z.of_nat (length (pseudo_dev v)) = numfs m') by (rewrite Hv, length_fmap; done).
  destruct (map_inj ofs v i j f g k1 k2) as [<- ->]; [| | | |lia|lia|done..|].
  - split; [|done]. rewrite Hv. apply (get_layers_numbers w stack m m' Hb H).
  - split; [lia|]. by rewrite Hx.
  - split; [lia|]. by rewrite Hx.
  - rewrite Hx. intros H0. by rewrite (Zf H0), (Zg H0).
  - split; [|done]. by apply (file_on_fsid stack m m' d e f f).
Qed.
End mounted.

(** the three places where an inode number shows agree: [stat], the inode
    itself, and, when the number of the file system is part of it, [readdir];
    directories are always on the device of the overlay. *)
Theorem ovl_ino_consistent ofs v is_dir f last k :
  fits_bits ofs f → 0 <= st_ino k →
  let i := fst (ovl_map_ino ofs is_dir (st_ino k) f last) in
  let k' := ovl_map_dev_ino ofs v is_dir i f k in
  st_ino k' = i ∧
  (0 < ofs_xino_mode ofs → is_dir = false ∨ st_ino k < 2 ^ (64 - ofs_xino_mode ofs) →
   ovl_remap_lower_ino (st_ino k) (ovl_xino_bits ofs) f = i) ∧
  (is_dir = true → st_dev k' = s_dev v).
Proof.
  intros Hf Hk. cbv zeta. destruct Hf as [Hf Hb].
  unfold ovl_map_dev_ino, ovl_map_ino, ovl_remap_lower_ino, ovl_same_fs, xinoshift.
  destruct (Z.lt_trichotomy (ofs_xino_mode ofs) 0) as [Hm|[Hm|Hm]].
  - rewrite xino_bits_neg by done. destruct (ofs_xino_mode ofs =? 0) eqn:E; to_prop; [lia|]. cbn.
    destruct is_dir; cbn; (split; [done|]); (split; [lia|done]).
  - rewrite Hm. cbn. done.
  - rewrite xino_bits_pos by done. destruct (ofs_xino_mode ofs =? 0) eqn:E; to_prop; [lia|].
    destruct (Hb Hm) as [Hle Hlt]. cbn [negb andb].
    destruct (Z.shiftr (st_ino k) (64 - ofs_xino_mode ofs) =? 0) eqn:Es; to_prop; cbn; [done|].
    rewrite shiftr_zero in Es by lia. destruct is_dir; cbn; (split; [done|]); (split; [|done]).
    + intros _ [?|?]; [done|lia].
    + done.
Qed.

(** The directory whose number does not fit gets one of its own, counted up in
    a range that no file's number is in. *)
Theorem ovl_dir_ino_apart ofs ino f last j g :
  0 < ofs_xino_mode ofs <= 32 → 2 ^ (64 - ofs_xino_mode ofs) <= ino → 0 <= last < 2 ^ (64 - ofs_xino_mode ofs) - 1 →
  0 <= j < 2 ^ (64 - ofs_xino_mode ofs) → 0 <= g →
  let '(i, last') := ovl_map_ino ofs true ino f last in
  i = 2 ^ (64 - ofs_xino_mode ofs) + last' ∧ last' = last + 1 ∧ i ≠ unified ofs j g.
Proof.
  intros Hm Hino Hlast Hj Hg. unfold ovl_map_ino, ovl_same_fs, xinoshift.
  rewrite xino_bits_pos by lia. destruct (ofs_xino_mode ofs =? 0) eqn:E; to_prop; [lia|]. cbn [negb andb].
  destruct (Z.shiftr ino (64 - ofs_xino_mode ofs) =? 0) eqn:Es; to_prop.
  { apply shiftr_zero in Es; lia. }
  unfold ovl_next_ino, u64.
  pose proof (Z.pow_le_mono_r 2 (64 - ofs_xino_mode ofs) 64 ltac:(lia) ltac:(lia)) as Hp.
  rewrite (Z.mod_small (last + 1)) by lia. destruct (last + 1 =? 0) eqn:E0; to_prop; [lia|].
  fold (nonpersistent (ofs_xino_mode ofs) (last + 1)).
  pose proof (nonpersistent_apart (ofs_xino_mode ofs) (last + 1) j g ltac:(lia) ltac:(lia) Hj Hg) as Ha.
  rewrite nonpersistent_value in * by lia. rewrite Z.mod_small in * by lia. split; [lia|]. split; [done|exact Ha].
Qed.

(** ** Constant inode numbers *)

Section getattr.
Context {W : Type} {K : Vfs W} {VS : VfsStat W} (v : vfs_side).
Implicit Types s : vstate W.

(** The device and number that [ovl_getattr] shows. *)
Lemma getattr_ids dentry s k :
  ovl_getattr v dentry s = inr k →
  let is_dir := od_is_dir (odentry_at dentry s) in
  let i := i_ino_of v (default 0 (od_inode (odentry_at dentry s))) in
  ∃ stat fsid, (st_dev k, st_ino k) = (st_dev (ovl_map_dev_ino (vs_fs s) v is_dir i fsid stat),
                                      st_ino (ovl_map_dev_ino (vs_fs s) v is_dir i fsid stat)) ∧
    if negb is_dir || ovl_same_dev (vs_fs s)
    then ∃ stat0, vfs_getattr (vs_world s) (default 0 (snd (ovl_path_real dentry s))) = inr stat0 ∧
      getattr_origin dentry is_dir (ovl_path_type dentry s) stat0 s = inr (stat, fsid)
    else True.
Proof.
  intros H. cbv zeta. unfold ovl_getattr in H. destruct (ovl_path_real dentry s) as [type real] eqn:Er.
  assert (type = ovl_path_type dentry s) as -> by (unfold ovl_path_real in Er; congruence).
  ok_step H. ok_step H. destruct a0 as [stat fsid]. injection H as <-. exists stat, fsid. split.
  - set (m := ovl_map_dev_ino _ _ _ _ _ _). destruct (c_has_override_creds _), (_ && test_inode _ _ _), (_ && T_MERGE _); done.
  - destruct (negb _ || _); [|done]. exists a. done.
Qed.

(** The inode number below that the origin gives. *)
Lemma getattr_origin_ids dentry is_dir type stat s stat' fsid :
  getattr_origin dentry is_dir type stat s = inr (stat', fsid) →
  ∃ stat1, st_ino stat' = st_ino stat1 ∧ st_dev stat' = st_dev stat1 ∧
  if negb (T_UPPER type) then stat1 = stat ∧ fsid = layer_fsid dentry s
  else if T_ORIGIN type then
    ∃ low, vfs_getattr (vs_world s) (default 0 (ovl_dentry_lower dentry s)) = inr low ∧
    (stat1, fsid) = if test_inode OVL_INDEX dentry s || (negb (verify_lower s) && (is_dir || (st_nlink low =? 1)))
         then (set_st_ino (st_ino low) stat, layer_fsid dentry s) else (stat, 0)
  else stat1 = stat ∧ fsid = 0.
Proof.
  unfold getattr_origin. intros H. ok_step H. destruct a as [[stat1 fsid1] mb].
  assert (Hids : st_ino stat' = st_ino stat1 ∧ st_dev stat' = st_dev stat1 ∧ fsid = fsid1).
  { destruct mb; [ok_step H|]; by injection H as <- <-. }
  clear H. destruct Hids as (Hi & Hd & ->).
  destruct (negb _); [injection Ha as <- <- <-; by eexists|].
  destruct (T_ORIGIN type); [|injection Ha as <- <- <-; by eexists].
  ok_step Ha. destruct (if _ || _ then _ else _) as [stat2 fsid2] eqn:E. 
  exists stat2. destruct (_ && bool_decide _); injection Ha as <- <- <-; (split; [done|]); (split; [done|]);
    exists a; split; done.
Qed.

End getattr.

(** ** Names of attributes and permission *)

Section access.
Context {W : Type} {VS : VfsStat W}.
Implicit Types s : vstate W.

(** The list of names as the kernel returns it. *)
Definition xattr_list (names : list cstr) : list ascii := concat ((λ n, n ++ [NUL]) <$> names).

Lemma strnlen_name n rest : NUL ∉ n → strnlen (n ++ NUL :: rest) = length n.
Proof.
  induction n as [|c n IH]; intros H; cbn; [done|]. apply not_elem_of_cons in H as [Hc Hn].
  rewrite bool_decide_eq_false_2 by done. by rewrite IH.
Qed.
Lemma strnlen_le l : (strnlen l <= length l)%nat.
Proof. induction l as [|c l IH]; cbn; [done|]. case_bool_decide; lia. Qed.
Lemma strnlen_nul l : (strnlen l < length l)%nat → l !! strnlen l = Some NUL.
Proof. induction l as [|c l IH]; cbn; [lia|]. case_bool_decide as E; [by rewrite E|]. intros H. apply IH. lia. Qed.

Lemma filter_list_names fuel c (w : W) names :
  Forall (λ n, NUL ∉ n) names → (length (xattr_list names) <= fuel)%nat →
  filter_list fuel c w (xattr_list names) = Some (xattr_list (List.filter (ovl_can_list c w) names)).
Proof.
  revert fuel. induction names as [|n names IH]; intros fuel Hn Hf; [by destruct fuel|].
  apply Forall_cons in Hn as [Hn Hns]. unfold xattr_list in *. cbn [fmap list_fmap concat] in *.
  rewrite <-app_assoc in *. cbn [app] in *. set (rest := concat _) in *.
  destruct fuel as [|fuel]; [rewrite length_app in Hf; cbn in Hf; lia|].
  assert (El : n ++ NUL :: rest ≠ []) by (by destruct n). destruct (n ++ NUL :: rest) as [|a l] eqn:E; [done|].
  cbn [filter_list]. rewrite <-E. rewrite strnlen_name by done.
  assert (Hd : drop (S (length n)) (n ++ NUL :: rest) = rest).
  { rewrite cons_middle, app_assoc. rewrite drop_app_length'; [done|]. rewrite length_app. cbn. lia. }
  assert (Ht : take (S (length n)) (n ++ NUL :: rest) = n ++ [NUL]).
  { rewrite cons_middle, app_assoc. rewrite take_app_length'; [done|]. rewrite length_app. cbn. lia. }
  destruct (Nat.ltb _ _) eqn:Eb.
  { apply Nat.ltb_lt in Eb. rewrite length_app in Eb. cbn in Eb. lia. }
  rewrite Hd, IH; [|done|]; [|rewrite <-E, length_app in Hf; cbn in Hf; lia].
  rewrite Ht, take_app_length. cbn [List.filter]. by destruct (ovl_can_list c w n).
Qed.

Lemma filter_list_broken fuel c (w : W) l :
  (length l <= fuel)%nat → l ≠ [] → last l ≠ Some NUL → filter_list fuel c w l = None.
Proof.
  revert l. induction fuel as [|fuel IH]; intros l Hf Hl Hlast; destruct l as [|a l]; [done|cbn in Hf; lia|done|].
  set (L := a :: l) in *. cbn [filter_list]. change (match L with [] => Some [] | _ => _ end) with
    (if Nat.ltb (length L) (S (strnlen L)) then None else
     match filter_list fuel c w (drop (S (strnlen L)) L) with
     | Some r => Some (if ovl_can_list c w (take (strnlen L) L) then take (S (strnlen L)) L ++ r else r)
     | None => None end).
  destruct (Nat.ltb _ _) eqn:E; [done|]. apply Nat.ltb_ge in E.
  assert (Hn : L !! strnlen L = Some NUL) by (apply strnlen_nul; lia).
  destruct (decide (S (strnlen L) = length L)) as [He|Hne].
  - exfalso. apply Hlast. rewrite last_lookup, <-He. exact Hn.
  - rewrite IH; [done|..].
    + rewrite length_drop. cbn in *. lia.
    + intros Hd. apply (f_equal length) in Hd. rewrite length_drop in Hd. cbn [length] in Hd. lia.
    + rewrite last_lookup, lookup_drop, length_drop. rewrite last_lookup in Hlast.
      by replace (S (strnlen L) + pred (length L - S (strnlen L)))%nat with (pred (length L)) by lia.
Qed.

(** A listing shows the names of the real file that may be shown, whole and in
    order, and never one of the overlay's own; a list without the last NUL is
    an I/O error. *)
Theorem ovl_listxattr_filters names broken size s :
  Forall (λ n, NUL ∉ n) names → size ≠ 0 → broken ≠ [] → last broken ≠ Some NUL →
  let shown := List.filter (ovl_can_list (ofs_config (vs_fs s)) (vs_world s)) names in
  ovl_listxattr (inr (xattr_list names)) size s = (inr (Z.of_nat (length (xattr_list shown)), xattr_list shown), s) ∧
  Forall (λ n, ovl_is_private_xattr (ofs_config (vs_fs s)) n = false) shown ∧
  ovl_listxattr (inr broken) size s = (inl (- EIO), set_vs_warned s).
Proof.
  intros Hn Hs Hb Hlast. cbv zeta. unfold ovl_listxattr. rewrite (proj2 (Z.eqb_neq size 0)) by done. split; [|split].
  - rewrite filter_list_names by done. rewrite orb_false_r. destruct (_ <=? 0) eqn:E; [|done]. to_prop.
    destruct names as [|n names]; [done|]. exfalso. unfold xattr_list in E. cbn in E.
    rewrite !length_app in E. cbn in E. lia.
  - apply Forall_forall. intros n Hin. apply list_elem_of_In, filter_In in Hin as [_ Hc].
    unfold ovl_can_list in Hc. by destruct (ovl_is_private_xattr _ n).
  - rewrite filter_list_broken by done. destruct (_ <=? 0) eqn:E; [|done]. to_prop.
    destruct broken; [done|cbn in E; lia].
Qed.

(** Who may access a file.  The user of [override_creds] always may, without
    any question to the real file; anybody else needs the permission of the
    overlay's inode, and the mounter that of the real one, where writing to a
    lower file, which will be copied up, only asks for reading. *)
Theorem ovl_permission_granted inode mask s real :
  let c := ofs_config (vs_fs s) in
  let upper := oi_upperdentry (oinode_at inode s) in
  (match upper with Some d => Some d | None => p_dentry <$> oi_lowerpath (oinode_at inode s) end) = Some real →
  let overridden := c_has_override_creds c && (current_fsuid (vs_world s) =? c_override_uid c) in
  (overridden = true → ovl_permission inode mask s = (0, s)) ∧
  (overridden = false → fst (ovl_permission inode mask s) = 0 →
   generic_permission (vs_world s) inode mask = 0 ∧
   ∃ mask', inode_permission (vs_world s) real mask' = 0 ∧
     (mask' = mask ∨
      upper = None ∧ inode_special (vs_world s) real = false ∧ Z.testbit mask 1 = true ∧
      (∀ b, Z.testbit mask' b = if decide (b = 1 ∨ b = 3) then false else if decide (b = 2) then true else Z.testbit mask b))).
Proof.
  cbv zeta. intros Hr. unfold ovl_permission. rewrite Hr. split; intros Ho; rewrite Ho; [done|].
  destruct (negb _) eqn:Eg; to_prop; [done|]. cbn. intros Hi. split; [done|].
  destruct (oi_upperdentry (oinode_at inode s)); cbn [is_none andb] in Hi; [exists mask; auto|].
  destruct (inode_special _ _) eqn:Es; cbn [negb andb] in Hi; [exists mask; auto|].
  destruct (Z.land mask MAY_WRITE =? 0) eqn:Ew; cbn [negb] in Hi; [exists mask; auto|]. to_prop.
  eexists. split; [exact Hi|]. right. split; [done|]. split; [done|]. split.
  - destruct (Z.testbit mask 1) eqn:E; [done|]. exfalso. apply Ew. apply Z.bits_inj'. intros k Hk.
    rewrite Z.land_spec, Z.bits_0. destruct (decide (k = 1)) as [->|Hne]; [by rewrite E|].
    change MAY_WRITE with (2 ^ 1). rewrite Z.pow2_bits_false by done. apply andb_false_r.
  - intros b. rewrite Z.lor_spec, Z.land_spec.
    destruct (decide (0 <= b)) as [Hb|Hb].
    2:{ rewrite !Z.testbit_neg_r by lia. by repeat case_decide; lia. }
    rewrite Z.lnot_spec, Z.lor_spec by done.
    change MAY_WRITE with (2 ^ 1). change MAY_APPEND with (2 ^ 3). change MAY_READ with (2 ^ 2).
    rewrite !Z.pow2_bits_eqb by done. repeat case_decide.
    + assert (b = 1 ∨ b = 3) as [-> | ->] by done; cbn; by rewrite andb_false_r.
    + subst b. cbn. by rewrite orb_true_r.
    + rewrite (proj2 (Z.eqb_neq 1 b)), (proj2 (Z.eqb_neq 3 b)), (proj2 (Z.eqb_neq 2 b)) by lia. cbn.
      by rewrite andb_true_r, orb_false_r.
Qed.
End access.

(** ** Concrete files *)

#[export] Instance sim_stat : VfsStat tree := {
  vfs_getattr t d :=
    match de_inode (dentry_of t d) with
    | Some i => inr (KStat 7 (i_ino i) (i_nlink i) 8 0 0 (bool_decide (i_fmt i = S_IFDIR)))
    | None => inl (- ENOENT)
    end;
  current_fsuid t := 1000;
  generic_permission t i mask := 0;
  inode_permission t d mask := if Z.testbit mask 1 then - EACCES else 0;
  inode_special t d := false;
  cap_sys_admin t := false
}.

Definition sample_fs_xino : ovl_fs := OvlFs (Some 1) [] None 255 mount_config false 32 [].
Definition sample_side : vfs_side := VfsSide 40 (os_pseudo_dev <$> mf_fs sample_layers) (λ i, i) (λ i, 1).
Definition number (i : Z) : kstat := KStat 7 i 1 8 0 0 false.

Lemma sample_layers_mode : mf_xino_mode sample_layers = 32.
Proof. by vm_compute. Qed.

(** File 7 of the upper layer and file 7 of "b" are told apart. *)
Lemma ovl_st_ino_unique_witness :
  let show f := ovl_map_dev_ino sample_fs_xino sample_side false 0 f (number 7) in
  st_dev (show 0) = st_dev (show 1) ∧ st_ino (show 0) ≠ st_ino (show 1).
Proof.
  cbv zeta. assert (Hd : st_dev (ovl_map_dev_ino sample_fs_xino sample_side false 0 0 (number 7)) =
    st_dev (ovl_map_dev_ino sample_fs_xino sample_side false 0 1 (number 7))) by (vm_compute; reflexivity).
  split; [exact Hd|]. intros Hi.
  destruct (ovl_st_ino_unique mount_tree sample_paths sample_mount sample_layers sample_fs_xino sample_side 1 1003 0 1 0 0
    (number 7) (number 7)) as [Hsb _]; [exact sample_before|by right; left|done|exact sample_layers_run| |done| | | |done|done|exact Hd|exact Hi|].
  - by rewrite sample_layers_mode.
  - apply (bool_decide_eq_true_1 _). vm_compute. reflexivity.
  - by left.
  - right. exists 1%nat, (Path 1003 1003), (MountLayer 1003 2 1). by vm_compute.
  - vm_compute in Hsb. discriminate.
Defined.

Lemma sample_fits : fits_bits sample_fs_xino 1.
Proof. split; [done|]. intros _. by vm_compute. Qed.

Lemma ovl_ino_consistent_witness :
  st_ino (ovl_map_dev_ino sample_fs_xino sample_side false (fst (ovl_map_ino sample_fs_xino false 7 1 1)) 1 (number 7)) =
    fst (ovl_map_ino sample_fs_xino false 7 1 1).
Proof. exact (proj1 (ovl_ino_consistent sample_fs_xino sample_side false 1 1 (number 7) sample_fits ltac:(done))). Defined.

Lemma ovl_dir_ino_apart_witness :
  ovl_map_ino sample_fs_xino true (2 ^ 40) 1 1 = (2 ^ 32 + 2, 2) ∧ 2 ^ 32 + 2 ≠ unified sample_fs_xino 7 1.
Proof.
  assert (H : ovl_map_ino sample_fs_xino true (2 ^ 40) 1 1 = (2 ^ 32 + 2, 2)) by (vm_compute; reflexivity).
  split; [exact H|].
  pose proof (ovl_dir_ino_apart sample_fs_xino (2 ^ 40) 1 1 7 1 ltac:(done) ltac:(done) ltac:(done) ltac:(done) ltac:(done)) as T.
  rewrite H in T. apply T.
Defined.

(** "passwd" is copied up: dentry 101 of the overlay, with inode 201. *)
Definition passwd_dentry : ovl_dentry :=
  OvlDentry (lit "passwd") 100 false true (Some 201) false true false false [OvlPath (sample_layer 1) 32].
Definition passwd_state (upper : option Z) : vstate tree :=
  VState (Tree ((31, sim_file 31) :: t_dentries sample_tree) (t_names sample_tree) []) (sample_fs sample_ovl_config) 100
    {[ 101 := passwd_dentry ]}
    {[ 201 := OvlInode upper (Some (OvlPath (sample_layer 1) 32)) None None 0 true false false false true true ]} false.


Definition sample_names : list cstr := [lit "user.note"; lit "trusted.overlay.origin"; lit "security.label"].
Lemma ovl_listxattr_filters_witness :
  ovl_listxattr (inr (xattr_list sample_names)) 100 (passwd_state None) =
    (inr (25, xattr_list [lit "user.note"; lit "security.label"]), passwd_state None) ∧
  ovl_listxattr (inr (lit "user")) 100 (passwd_state None) = (inl (- EIO), set_vs_warned (passwd_state None)).
Proof.
  destruct (ovl_listxattr_filters sample_names (lit "user") 100 (passwd_state None)) as (H1 & _ & H3).
  - apply (bool_decide_eq_true_1 _). vm_compute. reflexivity.
  - done.
  - done.
  - vm_compute. discriminate.
  - split; [exact H1|exact H3].
Defined.

(** Writing to the lower "passwd" asks the file below for reading only. *)
Lemma ovl_permission_granted_witness :
  fst (ovl_permission 201 MAY_WRITE (passwd_state None)) = 0 ∧ inode_permission sample_tree 32 MAY_WRITE ≠ 0 ∧
  ∃ mask', inode_permission (vs_world (passwd_state None)) 32 mask' = 0.
Proof.
  assert (H : fst (ovl_permission 201 MAY_WRITE (passwd_state None)) = 0) by (vm_compute; reflexivity).
  split; [exact H|]. split; [vm_compute; discriminate|].
  destruct (ovl_permission_granted 201 MAY_WRITE (passwd_state None) 32 ltac:(vm_compute; reflexivity)) as [_ T].
  destruct (T ltac:(vm_compute; reflexivity) H) as (_ & mask' & Hm & _). exists mask'. exact Hm.
Defined.
