(* ===== verification/OvlDirFile.v ===== *)
(** * Open directories (readdir.c)

    A merged directory is read into a cache that all its open files share: the
    inode points to the current one, files keep the one that they started
    with, and the last user frees it.  A file has a cursor in the list of its
    cache.  Directories with a single layer are read through, with the inode
    numbers translated. *)
From S2P Require Import Prelude CString OS OvlOptions OvlVfs OvlHandle OvlLogic OvlSim OvlLookup OvlUnion OvlLayers OvlStack OvlReaddir OvlIno.
Open Scope Z_scope.

(** ** State *)

(** [struct ovl_dir_cache]: the list names the entries in the store, which the
    tree shares. *)
Record dir_cache := DirCache {
  dc_refcount : Z;
  dc_version : Z;
  dc_store : list cache_entry;
  dc_list : list nat;
  dc_root : rbtree
}.
Definition set_dc_refcount (x : Z) (c : dir_cache) : dir_cache := DirCache x (dc_version c) (dc_store c) (dc_list c) (dc_root c).
Definition set_dc_store (x : list cache_entry) (c : dir_cache) : dir_cache :=
  DirCache (dc_refcount c) (dc_version c) x (dc_list c) (dc_root c).
(** The entries in the order of the list. *)
Definition dc_entries (c : dir_cache) : list cache_entry := (λ i, default null_entry (dc_store c !! i)) <$> dc_list c.

(** [struct ovl_dir_file], with the dentry and the position of its [struct
    file]; the cursor is the number of entries before it.  The real file has
    the dentry of a layer and a position of its own. *)
Record dir_file := DirFile {
  df_dentry : Z;
  df_pos : Z;
  df_is_real : bool;
  df_is_upper : bool;
  df_cache : option nat;
  df_cursor : nat;
  df_real : Z;
  df_real_pos : Z
}.
Definition set_df_pos (x : Z) (f : dir_file) : dir_file :=
  DirFile (df_dentry f) x (df_is_real f) (df_is_upper f) (df_cache f) (df_cursor f) (df_real f) (df_real_pos f).
Definition set_df_is_real (x : bool) (f : dir_file) : dir_file :=
  DirFile (df_dentry f) (df_pos f) x (df_is_upper f) (df_cache f) (df_cursor f) (df_real f) (df_real_pos f).
Definition set_df_cache (x : option nat) (f : dir_file) : dir_file :=
  DirFile (df_dentry f) (df_pos f) (df_is_real f) (df_is_upper f) x (df_cursor f) (df_real f) (df_real_pos f).
Definition set_df_cursor (x : nat) (f : dir_file) : dir_file :=
  DirFile (df_dentry f) (df_pos f) (df_is_real f) (df_is_upper f) (df_cache f) x (df_real f) (df_real_pos f).
Definition set_df_real_pos (x : Z) (f : dir_file) : dir_file :=
  DirFile (df_dentry f) (df_pos f) (df_is_real f) (df_is_upper f) (df_cache f) (df_cursor f) (df_real f) x.

(** The overlay, the caches in memory, the address of the next one, the cache
    of every inode and the open files. *)
Record dir_state (W : Type) := DirState {
  ds_ovl : vstate W;
  ds_caches : gmap nat dir_cache;
  ds_next : nat;
  ds_inode_cache : gmap Z nat;
  ds_files : gmap nat dir_file
}.
Arguments DirState {W}.
Arguments ds_ovl {W}.
Arguments ds_caches {W}.
Arguments ds_next {W}.
Arguments ds_inode_cache {W}.
Arguments ds_files {W}.

Section monad.
Context {W : Type}.
Definition set_ds_ovl (x : vstate W) (s : dir_state W) : dir_state W :=
  DirState x (ds_caches s) (ds_next s) (ds_inode_cache s) (ds_files s).
Definition set_ds_caches (x : gmap nat dir_cache) (s : dir_state W) : dir_state W :=
  DirState (ds_ovl s) x (ds_next s) (ds_inode_cache s) (ds_files s).
Definition set_ds_inode_cache (x : gmap Z nat) (s : dir_state W) : dir_state W :=
  DirState (ds_ovl s) (ds_caches s) (ds_next s) x (ds_files s).
Definition set_ds_files (x : gmap nat dir_file) (s : dir_state W) : dir_state W :=
  DirState (ds_ovl s) (ds_caches s) (ds_next s) (ds_inode_cache s) x.

Definition D (A : Type) : Type := dir_state W → res A * dir_state W.
Definition dret {A} (a : A) : D A := λ s, (inr a, s).
Definition dfail {A} (e : Z) : D A := λ s, (inl e, s).
Definition dbind {A B} (m : D A) (f : A → D B) : D B :=
  λ s, let '(r, s') := m s in match r with inl e => (inl e, s') | inr a => f a s' end.
Definition dget {A} (f : dir_state W → A) : D A := λ s, (inr (f s), s).
Definition dupdate (f : dir_state W → dir_state W) : D unit := λ s, (inr tt, f s).
(** A function of the module that does not know the caches. *)
Definition dlift {A} (m : V W A) : D A := λ s, let '(r, v) := m (ds_ovl s) in (r, set_ds_ovl v s).
Definition dwarn (b : bool) : D bool := dlift (warn_on b).
End monad.
Arguments D : clear implicits.

Notation "'let#' x := m 'in' k" := (dbind m (fun x => k)) (at level 10, x pattern, k at level 200) : ovl_scope.
Notation "m ;;# k" := (dbind m (fun _ => k)) (at level 100, k at level 200, right associativity) : ovl_scope.

(** The consumer of [getdents]: the position, how many more entries it takes,
    and what it has got. *)
Record dir_context := DirContext { cx_pos : Z; cx_room : nat; cx_out : list dirent }.
Definition set_cx_pos (x : Z) (c : dir_context) : dir_context := DirContext x (cx_room c) (cx_out c).
(** [dir_emit]: [false] when it is full. *)
Definition dir_emit (c : dir_context) (d : dirent) : bool * dir_context :=
  match cx_room c with O => (false, c) | S n => (true, DirContext (cx_pos c) n (cx_out c ++ [d])) end.

(** The VFS: a lookup in an overlay directory ([None] is a negative dentry);
    what a real directory gives from a position on to a consumer with some
    room, with the new position and the result; seeking in it. *)
Class DirVfs (W : Type) := {
  overlay_lookup : vstate W → Z → cstr → res (option Z);
  iterate_real_dir : W → Z → Z → nat → list dirent * Z * Z;
  vfs_llseek : W → Z → Z → Z → Z → Z * Z         (** the real position, offset and origin *)
}.

Section dirfile.
Context {W : Type} {K : Vfs W} {VS : VfsStat W} {DV : DirVfs W} {R : RbLib} (v : vfs_side).

Definition file_at (file : nat) (s : dir_state W) : dir_file :=
  default (DirFile 0 0 false false None 0 0 0) (ds_files s !! file).
Definition cache_at (p : nat) (s : dir_state W) : dir_cache := default (DirCache 0 0 [] [] RbLeaf) (ds_caches s !! p).
Definition update_file (file : nat) (f : dir_file → dir_file) : D W unit :=
  dupdate (λ s, set_ds_files (<[file := f (file_at file s)]> (ds_files s)) s).
Definition update_cache (p : nat) (f : dir_cache → dir_cache) : D W unit :=
  dupdate (λ s, set_ds_caches (<[p := f (cache_at p s)]> (ds_caches s)) s).

(** The address of the inode of a dentry. *)
Definition inode_of (dentry : Z) (s : dir_state W) : Z := default 0 (od_inode (odentry_at dentry (ds_ovl s))).
Definition ovl_dir_cache (dentry : Z) (s : dir_state W) : option nat := ds_inode_cache s !! inode_of dentry s.
Definition ovl_set_dir_cache (dentry : Z) (cache : option nat) : D W unit :=
  dupdate (λ s, set_ds_inode_cache (partial_alter (λ _, cache) (inode_of dentry s) (ds_inode_cache s)) s).
Definition ovl_dentry_version_get (dentry : Z) (s : vstate W) : Z := from_option oi_version 0 (d_inode dentry s).

(** [ovl_cache_free] and [kfree]. *)
Definition cache_free (p : nat) : D W unit := dupdate (λ s, set_ds_caches (delete p (ds_caches s)) s).
Definition alloc_cache (c : dir_cache) : D W nat :=
  λ s, (inr (ds_next s), DirState (ds_ovl s) (<[ds_next s := c]> (ds_caches s)) (S (ds_next s)) (ds_inode_cache s) (ds_files s)).

(** util.c: directories count their changes. *)
Definition set_oi_version (x : Z) (i : ovl_inode) : ovl_inode :=
  OvlInode (oi_upperdentry i) (oi_lowerpath i) (oi_lowerdata i) (oi_redirect i) x (oi_is_reg i)
    (OVL_IMPURE i) (OVL_WHITEOUTS i) (OVL_INDEX i) (OVL_UPPERDATA i) (OVL_CONST_INO i).
Definition ovl_dir_version_inc (dentry : Z) (impurity : bool) : V W unit :=
  let? real := vget (ovl_dir_is_real dentry) in
  if negb real || impurity then update_inode (λ i, set_oi_version (u64 (oi_version i + 1)) i) dentry else vret tt.

(** ** Caches *)

Definition ovl_cache_put (file : nat) (dentry : Z) : D W unit :=
  let# od := dget (file_at file) in
  match df_cache od with
  | None => dret tt
  | Some p =>
    let# c := dget (cache_at p) in
    dwarn (dc_refcount c <=? 0) ;;#
    update_cache p (λ c, set_dc_refcount (dc_refcount c - 1) c) ;;#
    if dc_refcount c - 1 =? 0 then
      let# current := dget (ovl_dir_cache dentry) in
      (if bool_decide (current = Some p) then ovl_set_dir_cache dentry None else dret tt) ;;#
      cache_free p
    else dret tt
  end.

Definition ovl_dir_reset (file : nat) : D W unit :=
  let# od := dget (file_at file) in
  let dentry := df_dentry od in
  let# version := dget (λ s, ovl_dentry_version_get dentry (ds_ovl s)) in
  let# stale := dget (λ s, match df_cache od with Some p => negb (version =? dc_version (cache_at p s)) | None => false end) in
  (if stale : bool
   then ovl_cache_put file dentry ;;# update_file file (λ od, set_df_cursor 0 (set_df_cache None od))
   else dret tt) ;;#
  let# is_real := dget (λ s, ovl_dir_is_real dentry (ds_ovl s)) in
  if Bool.eqb (df_is_real od) is_real then dret tt
  else
    let# bad := dwarn is_real in
    if bad : bool then dret tt else update_file file (set_df_is_real false).

(** The loop of [ovl_seek_cursor] on the list that is left. *)
Fixpoint seek_loop (entries : list nat) (off pos : Z) (cursor : nat) : nat :=
  match entries with
  | [] => cursor
  | _ :: entries' => if pos <=? off then cursor else seek_loop entries' (off + 1) pos (S cursor)
  end.
Definition ovl_seek_cursor (file : nat) (pos : Z) : D W unit :=
  let# od := dget (file_at file) in
  match df_cache od with
  | None => dret tt
  | Some p =>
    let# c := dget (cache_at p) in
    update_file file (set_df_cursor (seek_loop (dc_list c) 0 pos 0))
  end.

Definition ovl_cache_get (dentry : Z) : D W nat :=
  let# current := dget (ovl_dir_cache dentry) in
  let# version := dget (λ s, ovl_dentry_version_get dentry (ds_ovl s)) in
  let# valid := dget (λ s, match current with Some p => version =? dc_version (cache_at p s) | None => false end) in
  match current, valid with
  | Some p, true =>
    let# c := dget (cache_at p) in
    dwarn (dc_refcount c =? 0) ;;#
    update_cache p (λ c, set_dc_refcount (dc_refcount c + 1) c) ;;#
    dret p
  | _, _ =>
    ovl_set_dir_cache dentry None ;;#
    dlift vkmalloc ;;#
    let# read := dlift (ovl_dir_read_merged dentry) in
    let '(res, r) := read in
    if negb (res =? 0) then dfail res
    else
      let# version := dget (λ s, ovl_dentry_version_get dentry (ds_ovl s)) in
      let# p := alloc_cache (DirCache 1 version (rd_store r) (rd_list r) (rd_root r)) in
      ovl_set_dir_cache dentry (Some p) ;;#
      dret p
  end.

(** ** Inode numbers of entries *)

(** The entry [e] of a directory: what [p->ino] and [p->is_whiteout] become,
    and the error. *)
Definition ovl_cache_update_ino (dir : Z) (e : cache_entry) : V W (Z * cache_entry) := λ s,
  let fs := vs_fs s in
  let xinobits := ovl_xino_bits fs in
  let out (ino : Z) (e : cache_entry) := set_ce_ino ino e in
  if negb (ovl_same_dev fs) then (inr (0, out (ce_real_ino e) e), s)
  else
    let get (this : Z) :=
      let type := ovl_path_type this s in
      if T_ORIGIN type then
        match ovl_getattr v this s with
        | inl err => (inr (err, out (ce_real_ino e) e), s)
        | inr stat =>
          (inr (0, out (st_ino stat) e),
           if st_isdir stat && negb (s_dev v =? st_dev stat) then set_vs_warned s else s)
        end
      else if negb (xinobits =? 0) && negb (T_UPPER type)
      then (inr (0, out (ovl_remap_lower_ino (ce_real_ino e) xinobits (layer_fsid this s)) e), s)
      else (inr (0, out (ce_real_ino e) e), s) in
    if is_dot (ce_name e) then get dir
    else if is_dotdot (ce_name e) then get (od_parent (odentry_at dir s))
    else
      match overlay_lookup s dir (ce_name e) with
      | inl err => (inr (err, out (ce_real_ino e) (set_ce_is_whiteout true e)), s)
      | inr None => (inr (0, out (ce_real_ino e) (set_ce_is_whiteout true e)), s)
      | inr (Some this) => get this
      end.

(** ** Reading *)

(** The loop of [ovl_iterate] over the entries that are left. *)
Fixpoint iterate_entries (left : list nat) (file p : nat) (ctx : dir_context) : D W (Z * dir_context) :=
  match left with
  | [] => dret (0, ctx)
  | i :: left' =>
    let# c := dget (cache_at p) in
    let e := default null_entry (dc_store c !! i) in
    let# dir := dget (λ s, df_dentry (file_at file s)) in
    let# r := (if negb (ce_is_whiteout e) && (ce_ino e =? 0) then dlift (ovl_cache_update_ino dir e) else dret (0, e)) in
    let '(err, e) := r in
    update_cache p (λ c, set_dc_store (<[i := e]> (dc_store c)) c) ;;#
    if negb (err =? 0) then dret (err, ctx)
    else
      let '(room, ctx) := if negb (ce_is_whiteout e) then dir_emit ctx (Dirent (ce_name e) (ce_ino e) (ce_type e)) else (true, ctx) in
      if negb room then dret (0, ctx)
      else
        update_file file (λ od, set_df_cursor (S (df_cursor od)) od) ;;#
        iterate_entries left' file p (set_cx_pos (cx_pos ctx + 1) ctx)
  end.

(** What [ovl_fill_real] makes of a real entry. *)
Record translate := Translate { rt_parent_ino : Z; rt_cache : option nat; rt_fsid : Z; rt_xinobits : Z }.
Definition ovl_fill_real (t : translate) (s : dir_state W) (d : dirent) : dirent :=
  let ino :=
    if negb (rt_parent_ino t =? 0) && is_dotdot (dn_name d) then rt_parent_ino t
    else match rt_cache t with
         | Some p =>
           let c := cache_at p s in
           match ovl_cache_entry_find (dc_store c) (dn_name d) (dc_root c) with
           | Some i => ce_ino (default null_entry (dc_store c !! i))
           | None => dn_ino d
           end
         | None =>
           if negb (rt_xinobits t =? 0) then ovl_remap_lower_ino (dn_ino d) (rt_xinobits t) (rt_fsid t) else dn_ino d
         end in
  Dirent (dn_name d) ino (dn_type d).

(** [iterate_dir] on the real file: it starts at its own position. *)
Definition iterate_realfile (file : nat) (translated : dirent → dirent) (ctx : dir_context) : D W (Z * dir_context) :=
  let# od := dget (file_at file) in
  let# r := dget (λ s, iterate_real_dir (vs_world (ds_ovl s)) (df_real od) (df_real_pos od) (cx_room ctx)) in
  let '(ds, pos, err) := r in
  update_file file (set_df_real_pos pos) ;;#
  dret (err, DirContext pos (cx_room ctx - length ds) (cx_out ctx ++ (translated <$> ds))).

(** The loop of [ovl_dir_read_impure] over the entries read: what is left in
    the list, and the tree. *)
Fixpoint impure_entries (dir : Z) (list : list nat) (r : readdir_data) : V W (Z * readdir_data) :=
  match list with
  | [] => vret (0, r)
  | i :: list' =>
    let e := entry_at r i in
    let? u := (if is_dot (ce_name e) || is_dotdot (ce_name e) then vret (0, e) else ovl_cache_update_ino dir e) in
    let '(err, e) := u in
    let r := update_entry i (λ _, e) r in
    if negb (err =? 0) then vret (err, r)
    else if ce_ino e =? ce_real_ino e then impure_entries dir list' r
    else
      let found := ovl_cache_entry_find_link (rd_store r) (ce_name e) (rd_root r) in
      let? bad := warn_on found in
      if bad : bool then vret (- EIO, r)
      else
        let root := match link_node (rd_store r) (ce_name e) (rd_root r) i with
                    | Some t => rb_insert_color t | None => rd_root r end in
        impure_entries dir list' (set_rd_root root (set_rd_list (rd_list r ++ [i]) r))
  end.
Definition ovl_dir_read_impure (dir : Z) : V W (Z * readdir_data) :=
  let? upper := vget (ovl_dentry_upper dir) in
  let? read := ovl_dir_read ovl_fill_plain (default 0 upper) (new_rdd None) in
  let '(err, r) := read in
  if negb (err =? 0) then vret (err, r) else impure_entries dir (rd_list r) (set_rd_list [] r).

Definition clear_impure (i : ovl_inode) : ovl_inode :=
  OvlInode (oi_upperdentry i) (oi_lowerpath i) (oi_lowerdata i) (oi_redirect i) (oi_version i) (oi_is_reg i)
    false (OVL_WHITEOUTS i) (OVL_INDEX i) (OVL_UPPERDATA i) (OVL_CONST_INO i).
Definition ovl_cache_get_impure (dentry : Z) : D W (option nat) :=
  let# current := dget (ovl_dir_cache dentry) in
  let# version := dget (λ s, ovl_dentry_version_get dentry (ds_ovl s)) in
  let# valid := dget (λ s, match current with Some p => version =? dc_version (cache_at p s) | None => false end) in
  match current, valid with
  | Some p, true => dret (Some p)
  | _, _ =>
    match current with Some p => cache_free p | None => dret tt end ;;#
    ovl_set_dir_cache dentry None ;;#
    dlift vkmalloc ;;#
    let# read := dlift (ovl_dir_read_impure dentry) in
    let '(res, r) := read in
    if negb (res =? 0) then dfail res
    else
      match rd_list r with
      | [] =>
        dlift (let? err := ovl_want_write in
               (if err =? 0 then
                  let? upper := vget (ovl_dentry_upper dentry) in
                  ovl_removexattr (default 0 upper) OVL_XATTR_IMPURE ;;? vret tt
                else vret tt) ;;?
               update_inode clear_impure dentry) ;;#
        dret None
      | _ =>
        let# version := dget (λ s, ovl_dentry_version_get dentry (ds_ovl s)) in
        let# p := alloc_cache (DirCache 0 version (rd_store r) (rd_list r) (rd_root r)) in
        ovl_set_dir_cache dentry (Some p) ;;#
        dret (Some p)
      end
  end.

Definition ovl_is_impure_dir (file : nat) (s : dir_state W) : bool :=
  df_is_upper (file_at file s) && test_inode OVL_IMPURE (df_dentry (file_at file s)) (ds_ovl s).

Definition ovl_iterate_real (file : nat) (ctx : dir_context) : D W (Z * dir_context) :=
  let# dir := dget (λ s, df_dentry (file_at file s)) in
  let# ovl := dget ds_ovl in
  let xinobits := ovl_xino_bits (vs_fs ovl) in
  let fsid := if negb (xinobits =? 0) then from_option l_fsid 0 (ovl_layer_lower dir ovl) else 0 in
  let parent := od_parent (odentry_at dir ovl) in
  let# parent_ino :=
    (if T_MERGE (ovl_path_type parent ovl) then
       match ovl_getattr v parent ovl with
       | inl err => dfail err
       | inr stat => dwarn (negb (s_dev v =? st_dev stat)) ;;# dret (st_ino stat)
       end
     else dret 0) in
  let# impure := dget (ovl_is_impure_dir file) in
  let# cache := (if impure : bool then ovl_cache_get_impure dir else dret None) in
  let# s := dget (λ s, s) in
  iterate_realfile file (ovl_fill_real (Translate parent_ino cache fsid xinobits) s) ctx.

Definition ovl_iterate (file : nat) (ctx : dir_context) : D W (Z * dir_context) :=
  (if cx_pos ctx =? 0 then ovl_dir_reset file else dret tt) ;;#
  let# od := dget (file_at file) in
  let dentry := df_dentry od in
  if df_is_real od then
    let# adjust := dget (λ s,
      let ovl := ds_ovl s in
      negb (ovl_xino_bits (vs_fs ovl) =? 0) ||
      (ovl_same_fs (vs_fs ovl) &&
       (ovl_is_impure_dir file s || T_MERGE (ovl_path_type (od_parent (odentry_at dentry ovl)) ovl)))) in
    if adjust : bool then ovl_iterate_real file ctx else iterate_realfile file (λ d, d) ctx
  else
    match df_cache od with
    | Some p => dret tt
    | None =>
      let# p := ovl_cache_get dentry in
      update_file file (set_df_cache (Some p)) ;;#
      ovl_seek_cursor file (cx_pos ctx)
    end ;;#
    let# od := dget (file_at file) in
    match df_cache od with
    | None => dret (0, ctx)
    | Some p =>
      let# c := dget (cache_at p) in
      iterate_entries (drop (df_cursor od) (dc_list c)) file p ctx
    end.

(** [getdents], the VFS around it: the position of the file is that of the
    context. *)
Definition getdents (file : nat) (room : nat) : D W (Z * list dirent) :=
  let# pos := dget (λ s, df_pos (file_at file s)) in
  λ s, match ovl_iterate file (DirContext pos room []) s with
       | (inl e, s') => (inl e, s')
       | (inr (err, ctx), s') =>
         (inr (err, cx_out ctx), set_ds_files (<[file := set_df_pos (cx_pos ctx) (file_at file s')]> (ds_files s')) s')
       end.

(** A [loff_t]. *)
Definition s64 (z : Z) : Z := (z + 2 ^ 63) mod 2 ^ 64 - 2 ^ 63.
Definition SEEK_SET : Z := 0.
Definition SEEK_CUR : Z := 1.

Definition ovl_dir_llseek (file : nat) (offset origin : Z) : D W Z :=
  let# pos := dget (λ s, df_pos (file_at file s)) in
  (if pos =? 0 then ovl_dir_reset file else dret tt) ;;#
  let# od := dget (file_at file) in
  if df_is_real od then
    let# r := dget (λ s, vfs_llseek (vs_world (ds_ovl s)) (df_real od) (df_real_pos od) offset origin) in
    let '(res, real_pos) := r in
    update_file file (λ od, set_df_pos real_pos (set_df_real_pos real_pos od)) ;;# dret res
  else if negb (origin =? SEEK_CUR) && negb (origin =? SEEK_SET) then dfail (- EINVAL)
  else
    let offset := if origin =? SEEK_CUR then s64 (offset + pos) else offset in
    if offset <? 0 then dfail (- EINVAL)
    else
      (if negb (offset =? pos) then
         update_file file (set_df_pos offset) ;;#
         match df_cache od with Some _ => ovl_seek_cursor file offset | None => dret tt end
       else dret tt) ;;#
      dret offset.

(** ** Opening and closing *)

Definition ovl_dir_open (file : nat) (dentry : Z) : D W unit :=
  dlift vkmalloc ;;#
  let# p := dget (λ s, ovl_path_real dentry (ds_ovl s)) in
  let '(type, real) := p in
  let# err := dget (λ s, open_dir (vs_world (ds_ovl s)) (default 0 real)) in
  if err <? 0 then dfail err
  else
    let# is_real := dget (λ s, ovl_dir_is_real dentry (ds_ovl s)) in
    update_file file (λ _, DirFile dentry 0 is_real (T_UPPER type) None 0 (default 0 real) 0).

Definition ovl_dir_release (file : nat) : D W unit :=
  let# od := dget (file_at file) in
  match df_cache od with Some _ => ovl_cache_put file (df_dentry od) | None => dret tt end ;;#
  dupdate (λ s, set_ds_files (delete file (ds_files s)) s).
End dirfile.
