(* ===== verification/OvlDirCache.v ===== *)
(** * The caches of open directories (readdir.c): reference counts

    While one file is worked on, the caches are counted by the other files and
    by the one that it uses ([refs_exact]); taking and giving back a cache are
    proved against that, with a weakest precondition calculus for the monad of
    [OvlDirFile].  The listing of a directory changes nothing of the overlay
    but its warning flag ([frame]), and names only entries of its store
    ([valid]). *)
From S2P Require Import Prelude CString OS OvlOptions OvlVfs OvlHandle OvlLogic OvlSim OvlLookup OvlUnion OvlLayers OvlStack OvlReaddir OvlMerge OvlIno OvlDirFile.
Open Scope Z_scope.

(** ** Functions that leave the overlay's objects alone *)

Section frame.
Context {W : Type} {K : Vfs W} {R : RbLib}.

(** Only the world below and the warning flag may differ. *)
Record same_objects (s s' : vstate W) : Prop := {
  so_fs : vs_fs s' = vs_fs s;
  so_root : vs_root s' = vs_root s;
  so_dentries : vs_dentries s' = vs_dentries s;
  so_inodes : vs_inodes s' = vs_inodes s
}.
#[export] Instance same_objects_preorder : PreOrder same_objects.
Proof. split; [by split|]. intros a b c [] []. split; congruence. Qed.

Definition frame {A} (m : V W A) : Prop := ∀ s, same_objects s (snd (m s)).

Lemma frame_bind {A B} (m : V W A) (f : A → V W B) : frame m → (∀ a, frame (f a)) → frame (vbind m f).
Proof.
  intros Hm Hf s. specialize (Hm s). unfold vbind. destruct (m s) as [[e|a] s1]; [done|].
  etransitivity; [exact Hm|apply Hf].
Qed.
Lemma frame_ret {A} (a : A) : frame (vret a).
Proof. by intros s. Qed.
Lemma frame_fail {A} e : frame (@vfail W A e).
Proof. by intros s. Qed.
Lemma frame_get {A} (f : vstate W → A) : frame (vget f).
Proof. by intros s. Qed.
Lemma frame_call (f : W → Z * W) : frame (vcall f).
Proof. intros s. unfold vcall. by destruct (f (vs_world s)). Qed.
Lemma frame_warn b : frame (@warn_on W b).
Proof. intros s. by destruct b. Qed.
Lemma frame_catch {A} (m : V W A) : frame m → frame (vcatch m).
Proof. intros H s. specialize (H s). unfold vcatch. by destruct (m s). Qed.
Lemma frame_kmalloc : frame vkmalloc.
Proof. intros s. unfold vkmalloc, vbind. destruct (kmalloc (vs_world s)) as [[|] w]; done. Qed.
End frame.

Create HintDb frame.
#[export] Hint Resolve frame_ret frame_fail frame_get frame_call frame_warn frame_kmalloc frame_catch : frame.
(** Goes through a function's body. *)
Ltac framing :=
  repeat first [progress eauto 3 with frame | apply frame_bind; [|intros ?] | case_match].

Section dir_frame.
Context {W : Type} {K : Vfs W} {R : RbLib}.

Lemma frame_deliver (actor : @fill W) batch r : (∀ r d, frame (actor r d)) → frame (deliver actor batch r).
Proof. intros H. revert r. induction batch as [|d batch IH]; intros r; cbn; framing. Qed.
Lemma frame_iterate (actor : @fill W) batches last r : (∀ r d, frame (actor r d)) → frame (iterate_batches actor batches last r).
Proof. intros H. revert r. induction batches as [|b bs IH]; intros r; cbn; pose proof (λ b r, frame_deliver actor b r H); framing. Qed.
Lemma frame_new r d : frame (ovl_cache_entry_new r d).
Proof. unfold ovl_cache_entry_new. framing. Qed.
#[local] Hint Resolve frame_new : frame.
Lemma frame_fill_merge r d : frame (ovl_fill_merge r d).
Proof. unfold ovl_fill_merge, ovl_fill_lowest, ovl_cache_entry_add_rb. framing. Qed.
Lemma frame_check_whiteouts dir r : frame (ovl_check_whiteouts dir r).
Proof. unfold ovl_check_whiteouts, vread. framing. Qed.
Lemma frame_dir_read (actor : @fill W) dir r : (∀ r d, frame (actor r d)) → frame (ovl_dir_read actor dir r).
Proof. intros H. unfold ovl_dir_read, vread. pose proof frame_check_whiteouts. pose proof (frame_iterate actor). framing. Qed.
Lemma frame_read_layers fuel idx dentry r : frame (read_layers fuel idx dentry r).
Proof.
  pose proof (λ dir r, frame_dir_read ovl_fill_merge dir r frame_fill_merge) as Hread.
  revert idx r. induction fuel as [|fuel IH]; intros idx r; cbn [read_layers]; framing.
Qed.
Lemma frame_dir_read_merged dentry : frame (ovl_dir_read_merged dentry).
Proof. pose proof frame_read_layers. unfold ovl_dir_read_merged. framing. Qed.

(** The list, the part before the marker and the tree name entries of the
    store. *)
Definition below (n : nat) (l : list nat) : Prop := Forall (λ i, (i < n)%nat) l.
Record valid (r : readdir_data) : Prop := {
  va_list : below (length (rd_store r)) (rd_list r);
  va_middle : below (length (rd_store r)) (rd_middle r);
  va_root : below (length (rd_store r)) (inorder (rd_root r))
}.
Definition vpost {A} (m : V W A) (Q : A → Prop) : Prop := ∀ s, match fst (m s) with inr a => Q a | inl _ => True end.

Lemma vpost_bind {A B} (m : V W A) (f : A → V W B) P Q : vpost m P → (∀ a, P a → vpost (f a) Q) → vpost (vbind m f) Q.
Proof. intros Hm Hf s. specialize (Hm s). unfold vbind. destruct (m s) as [[e|a] s1]; [done|]. by apply Hf. Qed.
Lemma vpost_any {A} (m : V W A) : vpost m (λ _, True).
Proof. intros s. by destruct (fst (m s)). Qed.
Lemma vpost_ret {A} (a : A) (Q : A → Prop) : Q a → vpost (vret a) Q.
Proof. by intros H s. Qed.

Lemma below_weaken l n m : (n <= m)%nat → below n l → below m l.
Proof. intros H Hl. eapply Forall_impl; [exact Hl|]. cbn. lia. Qed.
Lemma below_app n l1 l2 : below n (l1 ++ l2) ↔ below n l1 ∧ below n l2.
Proof. apply Forall_app. Qed.
Lemma below_filter n f l : below n l → below n (List.filter f l).
Proof. unfold below. rewrite !List.Forall_forall. intros H i [Hi _]%List.filter_In. auto. Qed.

(** A new entry: the store is longer by one and nothing else matters. *)
Definition grown (r : readdir_data) (p : option (nat * readdir_data)) : Prop :=
  match p with
  | None => True
  | Some (p, r') => p = length (rd_store r) ∧ rd_list r' = rd_list r ∧ rd_middle r' = rd_middle r ∧
      rd_root r' = rd_root r ∧ ∃ e, rd_store r' = rd_store r ++ [e]
  end.
Lemma cache_entry_new_post r d : vpost (ovl_cache_entry_new r d) (grown r).
Proof.
  unfold ovl_cache_entry_new. eapply vpost_bind; [apply vpost_any|]. intros [e|[]] _; [by apply vpost_ret|].
  eapply vpost_bind; [apply vpost_any|]. intros calc _. apply vpost_ret. unfold grown.
  destruct (dn_type d =? DT_CHR); (do 4 (split; [done|])); by eexists.
Qed.

Lemma link_node_in store name t new t' :
  link_node store name t new = Some t' → ∀ i, i ∈ inorder t' → i = new ∨ i ∈ inorder t.
Proof.
  revert t'. induction t as [|l IHl e r IHr]; intros t'; cbn.
  - intros [= <-] i. cbn. rewrite elem_of_cons, elem_of_nil. naive_solver.
  - destruct (entry_cmp _ _ _); [done| |].
    + intros (l' & Hl & ->)%fmap_Some_1 i. cbn. rewrite !elem_of_app. intros [H|H]; [|auto].
      destruct (IHl _ Hl i H); auto.
    + intros (r' & Hr & ->)%fmap_Some_1 i. cbn. rewrite !elem_of_app, !elem_of_cons. intros [H|[H|H]]; [auto..|].
      destruct (IHr _ Hr i H); auto.
Qed.
Lemma find_in store name t i : ovl_cache_entry_find store name t = Some i → i ∈ inorder t.
Proof.
  induction t as [|l IHl e r IHr]; cbn; [done|]. destruct (entry_cmp _ _ _).
  - intros [= ->]. apply elem_of_app. right. left.
  - intros H. apply elem_of_app. left. by apply IHl.
  - intros H. apply elem_of_app. right. right. by apply IHr.
Qed.

Context {RL : RbLaws R}.

(** Every function of the listing keeps the names valid. *)
Definition keeps_valid (m : V W (Z * readdir_data)) : Prop := vpost m (λ a, valid (snd a)).

Lemma valid_grown r p r' : valid r → grown r (Some (p, r')) → valid r' ∧ (p < length (rd_store r'))%nat.
Proof.
  intros [H1 H2 H3] (-> & L & M & T & e & S). assert (Hl : (length (rd_store r) <= length (rd_store r'))%nat).
  { rewrite S, length_app. lia. }
  split; [split; rewrite ?L, ?M, ?T; by eapply below_weaken|]. rewrite S, length_app. cbn. lia.
Qed.

Lemma keeps_new r d (f : option (nat * readdir_data) → V W (Z * readdir_data)) :
  valid r → keeps_valid (f None) →
  (∀ p r', valid r' → (p < length (rd_store r'))%nat → keeps_valid (f (Some (p, r')))) →
  keeps_valid (let? x := ovl_cache_entry_new r d in f x).
Proof.
  intros Hr H0 H1. eapply vpost_bind; [apply cache_entry_new_post|]. intros [[p r']|] Hg; [|done].
  destruct (valid_grown _ _ _ Hr Hg). by apply H1.
Qed.

Lemma keeps_fill_merge r d : valid r → keeps_valid (ovl_fill_merge r d).
Proof.
  intros Hr. unfold ovl_fill_merge. set (r1 := set_rd_count _ r).
  assert (Hr1 : valid r1) by (by destruct Hr). clearbody r1. clear Hr.
  destruct (negb (rd_is_lowest r1)).
  - unfold ovl_cache_entry_add_rb. destruct (ovl_cache_entry_find_link _ _ _); [by apply vpost_ret|].
    apply keeps_new; [done|by apply vpost_ret; destruct Hr1|]. intros p r2 [A B C] Hp.
    assert (D : valid (set_rd_list (rd_list r2 ++ [p]) r2)).
    { split; cbn; [|done|done]. apply below_app. split; [done|]. by repeat constructor. }
    destruct (link_node _ _ _ _) as [t|] eqn:El; apply vpost_ret; [|done]. destruct D as [D1 D2 D3]. split; cbn; [done..|].
    rewrite insert_color_inorder. apply Forall_forall. intros i Hi.
    destruct (link_node_in _ _ _ _ _ El i Hi) as [->|Hin]; [done|]. unfold below in C. rewrite Forall_forall in C. by apply C.
  - unfold ovl_fill_lowest. destruct (ovl_cache_entry_find _ _ _) as [p|] eqn:Ef.
    + apply vpost_ret. destruct Hr1 as [A B C]. apply find_in in Ef. unfold below in C. rewrite Forall_forall in C.
      split; cbn; [by apply below_filter| |by apply Forall_forall].
      apply below_app. split; [by apply below_filter|]. repeat constructor. by apply C.
    + apply keeps_new; [done|by apply vpost_ret; destruct Hr1|]. intros p r2 [A B C] Hp. apply vpost_ret.
      split; cbn; [done| |done]. apply below_app. split; [done|]. by repeat constructor.
Qed.

Lemma keeps_deliver (actor : @fill W) batch r :
  (∀ r d, valid r → keeps_valid (actor r d)) → valid r → vpost (deliver actor batch r) valid.
Proof.
  intros H. revert r. induction batch as [|d batch IH]; intros r Hr; cbn; [by apply vpost_ret|].
  eapply vpost_bind; [by apply H|]. intros [stop r'] Hr'. cbn in Hr'. destruct (negb _); [by apply vpost_ret|by apply IH].
Qed.
Lemma keeps_iterate (actor : @fill W) batches last r :
  (∀ r d, valid r → keeps_valid (actor r d)) → valid r → keeps_valid (iterate_batches actor batches last r).
Proof.
  intros H. revert r. induction batches as [|b bs IH]; intros r [A B C]; cbn [iterate_batches].
  - apply vpost_ret. by split.
  - eapply vpost_bind; [apply keeps_deliver; [done|by split]|]. intros r' Hr'.
    destruct (_ && _); [by apply IH|by apply vpost_ret].
Qed.

Lemma valid_store (r : readdir_data) (st : list cache_entry) :
  length st = length (rd_store r) → valid r → valid (set_rd_store st r).
Proof. intros E [A B C]. split; cbn; by rewrite E. Qed.
Lemma keeps_marks dir maybe r w : valid r → valid (mark_whiteouts dir maybe r w).
Proof.
  revert r. induction maybe as [|p maybe IH]; intros r Hr; cbn; [by destruct Hr|]. apply IH. unfold check_whiteout.
  destruct (lookup_one _ _ _); [done|]. apply valid_store; [by rewrite length_alter|done].
Qed.

Lemma keeps_dir_read (actor : @fill W) dir r :
  (∀ r d, valid r → keeps_valid (actor r d)) → valid r → keeps_valid (ovl_dir_read actor dir r).
Proof.
  intros H Hr. unfold ovl_dir_read. eapply vpost_bind; [apply vpost_any|]. intros err _.
  destruct (err <? 0); [by apply vpost_ret|]. eapply vpost_bind; [apply vpost_any|]. intros b _.
  eapply vpost_bind; [apply keeps_iterate; [exact H|by destruct Hr]|]. intros [e r'] Hr'. cbn in Hr'.
  destruct (rd_first_maybe_whiteout r'); [by apply vpost_ret|]. destruct (rd_dentry r'); [|by apply vpost_ret].
  destruct (e =? 0); [|by apply vpost_ret]. unfold ovl_check_whiteouts.
  eapply vpost_bind; [apply vpost_any|]. intros err' _. destruct (negb _); [by apply vpost_ret|].
  intros s. unfold vread, vbind, vget, vret. cbn. by apply keeps_marks.
Qed.

Lemma keeps_read_layers fuel idx dentry r : valid r → keeps_valid (read_layers fuel idx dentry r).
Proof.
  revert idx r. induction fuel as [|fuel IH]; intros idx r Hr; cbn [read_layers]; [by apply vpost_ret|].
  eapply vpost_bind; [apply vpost_any|]. intros [[real next]|] _; [|by apply vpost_ret].
  eapply vpost_bind; [apply vpost_any|]. intros upper _. destruct next as [idx'|].
  - eapply vpost_bind; [apply keeps_dir_read; [apply keeps_fill_merge|by destruct Hr]|]. intros [err r'] Hr'. cbn in Hr'.
    destruct (negb _); [by apply vpost_ret|by apply IH].
  - eapply vpost_bind; [apply keeps_dir_read; [apply keeps_fill_merge|destruct Hr; split; cbn; first [done | constructor | by apply below_app]]|].
    intros [err r'] [A B C]. apply vpost_ret. split; cbn; [|constructor|done]. by apply below_app.
Qed.

Lemma dir_read_merged_valid dentry : keeps_valid (ovl_dir_read_merged dentry).
Proof.
  unfold ovl_dir_read_merged. eapply vpost_bind; [apply vpost_any|]. intros n _. apply keeps_read_layers. split; constructor.
Qed.

Context {VS : VfsStat W} {DV : DirVfs W} (v : vfs_side).
Lemma frame_update_ino dir e : frame (ovl_cache_update_ino v dir e).
Proof. intros s. unfold ovl_cache_update_ino. by repeat case_match. Qed.

(** An entry that is brought up to date keeps its name and its whiteout. *)
Lemma update_ino_entry dir e s r s' :
  ovl_cache_update_ino v dir e s = (r, s') →
  ∃ err e', r = inr (err, e') ∧ ce_name e' = ce_name e ∧ (ce_is_whiteout e = true → ce_is_whiteout e' = true).
Proof.
  unfold ovl_cache_update_ino. intros H.
  repeat case_match; injection H as <- <-; do 2 eexists; (split; [reflexivity|]); by cbn.
Qed.
End dir_frame.

(** ** Holders *)

Definition holds (p : nat) (od : dir_file) : Prop := df_cache od = Some p.
#[export] Instance holds_dec p od : Decision (holds p od).
Proof. unfold holds. apply _. Defined.

(** How many files use a cache. *)
Definition holders (p : nat) (files : gmap nat dir_file) : nat := size (filter (λ kv, holds p (snd kv)) files).
Definition one_if (P : Prop) `{Decision P} : nat := if decide P then 1 else 0.

Lemma one_if_no (P : Prop) `{Decision P} : ¬ P → one_if P = 0%nat.
Proof. intros HP. unfold one_if. by rewrite decide_False. Qed.
Lemma one_if_yes (P : Prop) `{Decision P} : P → one_if P = 1%nat.
Proof. intros HP. unfold one_if. by rewrite decide_True. Qed.

Lemma holders_insert p f od files :
  files !! f = None → holders p (<[f := od]> files) = (holders p files + one_if (holds p od))%nat.
Proof.
  intros Hf. unfold holders, one_if. destruct (decide (holds p od)) as [H|H].
  - rewrite map_filter_insert_True by done. rewrite map_size_insert_None; [lia|].
    apply map_lookup_filter_None. by left.
  - rewrite map_filter_insert_not' by (done || (intros ? E; by rewrite Hf in E)). lia.
Qed.
Lemma holders_delete p f od files :
  files !! f = Some od → holders p files = (holders p (delete f files) + one_if (holds p od))%nat.
Proof. intros Hf. rewrite <-(holders_insert p f od) by apply lookup_delete_eq. by rewrite insert_delete_id. Qed.
Lemma holders_pos p g od files : files !! g = Some od → holds p od → (0 < holders p files)%nat.
Proof. intros Hg Hp. rewrite (holders_delete p g od) by done. unfold one_if. rewrite decide_True by done. lia. Qed.
Lemma holders_zero p files : (∀ g od, files !! g = Some od → ¬ holds p od) → holders p files = 0%nat.
Proof.
  intros H. unfold holders. apply map_size_empty_iff, map_eq. intros g. rewrite lookup_empty.
  apply map_lookup_filter_None. destruct (files !! g) as [od|] eqn:E; [right|by left].
  intros x Hx. injection Hx as <-. by apply (H g).
Qed.

(** ** The invariant *)

Section invariant.
Context {W : Type}.
Implicit Types s : dir_state W.

(** The caches while one file, that uses [mine], is worked on; [others] are
    the other files. *)
Record refs_exact (others : gmap nat dir_file) (mine : option nat) (d : Z) s : Prop := {
  re_refs : ∀ p c, ds_caches s !! p = Some c →
    dc_refcount c = Z.of_nat (holders p others + one_if (mine = Some p)) ∧ 0 < dc_refcount c ∧ (p < ds_next s)%nat;
  re_live : ∀ p, (0 < holders p others + one_if (mine = Some p))%nat → is_Some (ds_caches s !! p);
  re_inode : ∀ i p, ds_inode_cache s !! i = Some p →
    is_Some (ds_caches s !! p) ∧ (mine = Some p → inode_of d s = i) ∧
    (∀ g od, others !! g = Some od → holds p od → inode_of (df_dentry od) s = i);
  re_valid : ∀ p c, ds_caches s !! p = Some c → Forall (λ i, (i < length (dc_store c))%nat) (dc_list c)
}.

(** Between operations: every cache is counted by its files, and an inode
    points to a cache of its own. *)
Definition dir_inv s : Prop := refs_exact (ds_files s) None 0 s.

Lemma dir_inv_file s f od :
  ds_files s !! f = Some od → dir_inv s ↔ refs_exact (delete f (ds_files s)) (df_cache od) (df_dentry od) s.
Proof.
  intros Hf.
  assert (Hh : ∀ p, (holders p (ds_files s) + one_if (None = Some p))%nat =
    (holders p (delete f (ds_files s)) + one_if (df_cache od = Some p))%nat).
  { intros p. rewrite (holders_delete p f od) by done. unfold one_if, holds. rewrite (decide_False (P := None = Some p)) by done. lia. }
  split; intros [H1 H2 H3 H4]; split; try exact H4.
  - intros p c Hc. rewrite <-Hh. by apply H1.
  - intros p Hp. rewrite <-Hh in Hp. by apply H2.
  - intros i p Hp. destruct (H3 i p Hp) as (A & _ & B). split; [done|]. split; [intros Hm; by apply (B f)|].
    intros g o Hg. apply lookup_delete_Some in Hg as [_ Hg]. by apply (B g).
  - intros p c Hc. rewrite Hh. by apply H1.
  - intros p Hp. rewrite Hh in Hp. by apply H2.
  - intros i p Hp. destruct (H3 i p Hp) as (A & B & C). split; [done|]. split; [done|].
    intros g o Hg Ho. destruct (decide (g = f)) as [->|Hne].
    + rewrite Hf in Hg. injection Hg as <-. by apply B.
    + apply (C g); [|done]. by rewrite lookup_delete_ne.
Qed.

(** No cache without files. *)
Lemma dir_inv_no_leak s : dir_inv s → ds_files s = ∅ → ds_caches s = ∅ ∧ ds_inode_cache s = ∅.
Proof.
  intros [H1 _ H3 _] Hf. assert (Hc : ds_caches s = ∅).
  { apply map_eq. intros p. rewrite lookup_empty. destruct (ds_caches s !! p) as [c|] eqn:E; [|done].
    destruct (H1 _ _ E) as (Hr & Hp & _). rewrite Hf, holders_zero in Hr by (intros ? ?; by rewrite lookup_empty).
    unfold one_if in Hr. rewrite decide_False in Hr by done. cbn in Hr. lia. }
  split; [done|]. apply map_eq. intros i. rewrite lookup_empty. destruct (ds_inode_cache s !! i) as [p|] eqn:E; [|done].
  destruct (H3 _ _ E) as [[c Hcc] _]. by rewrite Hc, lookup_empty in Hcc.
Qed.

(** What may happen to a cache in use: its entries are brought up to date. *)
Record cache_le (c c' : dir_cache) : Prop := {
  le_list : dc_list c' = dc_list c;
  le_version : dc_version c' = dc_version c;
  le_length : length (dc_store c') = length (dc_store c);
  le_entry : ∀ i e, dc_store c !! i = Some e →
    ∃ e', dc_store c' !! i = Some e' ∧ ce_name e' = ce_name e ∧ (ce_is_whiteout e = true → ce_is_whiteout e' = true)
}.
#[export] Instance cache_le_preorder : PreOrder cache_le.
Proof.
  split; [intros c; split; eauto|]. intros a b c [A1 A2 A3 A4] [B1 B2 B3 B4]. split; try congruence.
  intros i e He. destruct (A4 _ _ He) as (e1 & H1 & N1 & W1). destruct (B4 _ _ H1) as (e2 & H2 & N2 & W2).
  exists e2. split; [done|]. split; [congruence|auto].
Qed.
Lemma cache_le_refcount x c : cache_le c (set_dc_refcount x c).
Proof. split; cbn; eauto. Qed.
Lemma cache_le_entry i e' c :
  (∀ e, dc_store c !! i = Some e → ce_name e' = ce_name e ∧ (ce_is_whiteout e = true → ce_is_whiteout e' = true)) →
  cache_le c (set_dc_store (<[i := e']> (dc_store c)) c).
Proof.
  intros H. split; cbn; [done|done|apply length_insert|]. intros j e He. destruct (decide (i = j)) as [->|Hne].
  - exists e'. rewrite list_lookup_insert_eq by (by eapply lookup_lt_Some). split; [done|]. by apply H.
  - exists e. by rewrite list_lookup_insert_ne.
Qed.

(** A step of the work on [f] that began at [s0]. *)
Record during (f : nat) (d : Z) s0 s (mine : option nat) : Prop := {
  du_refs : refs_exact (delete f (ds_files s0)) mine d s;
  du_files : delete f (ds_files s) = delete f (ds_files s0);
  du_objects : same_objects (ds_ovl s0) (ds_ovl s);
  du_others : ∀ p c, (0 < holders p (delete f (ds_files s0)))%nat → ds_caches s0 !! p = Some c →
    ∃ c', ds_caches s !! p = Some c' ∧ cache_le c c'
}.

Lemma inode_of_same d s s' : same_objects (ds_ovl s) (ds_ovl s') → inode_of d s' = inode_of d s.
Proof. intros [_ _ E _]. unfold inode_of, odentry_at. by rewrite E. Qed.

Lemma during_start f d od s :
  dir_inv s → ds_files s !! f = Some od → df_dentry od = d → during f d s s (df_cache od).
Proof. intros H Hf <-. split; [by apply dir_inv_file|done|done|]. intros p c _ Hc. by exists c. Qed.

Lemma during_end f d s0 s mine od :
  during f d s0 s mine → ds_files s !! f = Some od → df_cache od = mine → df_dentry od = d → dir_inv s.
Proof. intros H Hf <- <-. apply (dir_inv_file s f od Hf). rewrite (du_files _ _ _ _ _ H). apply H. Qed.

(** Changes of the overlay's world, and of the file itself. *)
Lemma during_ovl f d s0 s mine v :
  same_objects (ds_ovl s) v → during f d s0 s mine → during f d s0 (set_ds_ovl v s) mine.
Proof.
  intros Hv [[H1 H2 H3 H4] F O Q].
  assert (Hi : ∀ x, inode_of x (set_ds_ovl v s) = inode_of x s) by (intros x; by apply inode_of_same).
  split; [split|done| |done]; cbn; [done|done| |done|by etransitivity].
  intros i p Hp. destruct (H3 i p Hp) as (A & B & C). split; [done|]. setoid_rewrite Hi. done.
Qed.
Lemma during_file f d s0 s mine od : during f d s0 s mine → during f d s0 (set_ds_files (<[f := od]> (ds_files s)) s) mine.
Proof. intros [[H1 H2 H3 H4] F O Q]. split; [by split| |done|done]. cbn. by rewrite delete_insert_eq. Qed.

Lemma valid_insert (m : gmap nat dir_cache) p c c' :
  (∀ p c, m !! p = Some c → Forall (λ i, (i < length (dc_store c))%nat) (dc_list c)) → m !! p = Some c → cache_le c c' →
  ∀ q x, <[p := c']> m !! q = Some x → Forall (λ i, (i < length (dc_store x))%nat) (dc_list x).
Proof.
  intros H Hc Hle q x Hx. destruct (decide (p = q)) as [->|Hne].
  - rewrite lookup_insert_eq in Hx. injection Hx as <-. rewrite (le_list _ _ Hle), (le_length _ _ Hle). by apply (H q).
  - rewrite lookup_insert_ne in Hx by done. by apply (H q).
Qed.

(** The cache of the file is changed. *)
Lemma during_cache f d s0 s p c c' :
  during f d s0 s (Some p) → ds_caches s !! p = Some c → cache_le c c' → dc_refcount c' = dc_refcount c →
  during f d s0 (set_ds_caches (<[p := c']> (ds_caches s)) s) (Some p).
Proof.
  intros [[H1 H2 H3 H4] F O Q] Hc Hle Hr.
  assert (Hlive : ∀ q, is_Some (ds_caches s !! q) → is_Some (<[p := c']> (ds_caches s) !! q)).
  { intros q Hq. destruct (decide (p = q)) as [->|]; [by rewrite lookup_insert_eq|by rewrite lookup_insert_ne]. }
  split; [split|done|done|]; cbn.
  - intros q x Hx. destruct (decide (p = q)) as [->|Hne].
    + rewrite lookup_insert_eq in Hx. injection Hx as <-. rewrite Hr. by apply H1.
    + rewrite lookup_insert_ne in Hx by done. by apply H1.
  - intros q Hq. apply Hlive. by apply H2.
  - intros i q Hq. destruct (H3 i q Hq) as (A & B). split; [by apply Hlive|exact B].
  - by apply (valid_insert _ _ _ _ H4 Hc).
  - intros q x Hh Hx. destruct (Q q x Hh Hx) as (y & Hy & Hl). destruct (decide (p = q)) as [->|Hne].
    + rewrite lookup_insert_eq. exists c'. split; [done|]. rewrite Hc in Hy. injection Hy as ->. by etransitivity.
    + rewrite lookup_insert_ne by done. by exists y.
Qed.
End invariant.

(** ** Reasoning about the functions *)

Section wp.
Context {W : Type}.
Implicit Types s : dir_state W.

Definition dwp {A} (m : D W A) (Q : res A → dir_state W → Prop) s : Prop := Q (fst (m s)) (snd (m s)).

Lemma dwp_bind {A B} (m : D W A) (f : A → D W B) Q s :
  dwp m (λ r s', match r with inl e => Q (inl e) s' | inr a => dwp (f a) Q s' end) s → dwp (dbind m f) Q s.
Proof. unfold dwp, dbind. destruct (m s) as [[e|a] s']; done. Qed.
Lemma dwp_mono {A} (m : D W A) (Q R : res A → dir_state W → Prop) s : dwp m Q s → (∀ r s', Q r s' → R r s') → dwp m R s.
Proof. intros H HQ. by apply HQ. Qed.
Lemma dwp_ret {A} (a : A) (Q : res A → dir_state W → Prop) s : Q (inr a) s → dwp (dret a) Q s.
Proof. done. Qed.
Lemma dwp_fail {A} e (Q : res A → dir_state W → Prop) s : Q (inl e) s → dwp (dfail e) Q s.
Proof. done. Qed.
Lemma dwp_get {A} (f : dir_state W → A) Q s : Q (inr (f s)) s → dwp (dget f) Q s.
Proof. done. Qed.
Lemma dwp_update f (Q : res unit → dir_state W → Prop) s : Q (inr tt) (f s) → dwp (dupdate f) Q s.
Proof. done. Qed.
Lemma dwp_lift {A} (m : V W A) (Q : res A → dir_state W → Prop) s :
  frame m → (∀ r v, m (ds_ovl s) = (r, v) → same_objects (ds_ovl s) v → Q r (set_ds_ovl v s)) → dwp (dlift m) Q s.
Proof. intros Hm H. specialize (Hm (ds_ovl s)). unfold dwp, dlift. destruct (m (ds_ovl s)) as [r v] eqn:E. by apply H. Qed.
Lemma dwp_ext {A} (m m' : D W A) (Q : res A → dir_state W → Prop) s : m s = m' s → dwp m' Q s → dwp m Q s.
Proof. unfold dwp. by intros ->. Qed.
Lemma dwp_run {A} (m : D W A) Q s r s' : m s = (r, s') → dwp m Q s → Q r s'.
Proof. unfold dwp. by intros ->. Qed.
End wp.

(** One step of a body: binds, reads and writes. *)
Ltac dstep :=
  lazymatch goal with
  | |- dwp (dbind _ _) _ _ => apply dwp_bind
  | |- dwp (dget _) _ _ => apply dwp_get
  | |- dwp (dret _) _ _ => apply dwp_ret
  | |- dwp (dfail _) _ _ => apply dwp_fail
  | |- dwp (dupdate _) _ _ => apply dwp_update
  end; cbv beta iota.

Section caches.
Context {W : Type} {K : Vfs W} {R : RbLib} {RL : RbLaws R} {VS : VfsStat W} {DV : DirVfs W} (v : vfs_side).
Implicit Types s : dir_state W.

Lemma during_mine f d s0 s p :
  during f d s0 s (Some p) →
  ∃ c, ds_caches s !! p = Some c ∧ dc_refcount c = Z.of_nat (S (holders p (delete f (ds_files s0)))).
Proof.
  intros [[H1 H2 H3 H4] F O Q]. destruct (H2 p) as [c Hc]; [rewrite one_if_yes by done; lia|].
  exists c. split; [done|]. destruct (H1 _ _ Hc) as [-> _]. rewrite one_if_yes by done. lia.
Qed.

(** The states after [ovl_cache_put]: somebody else uses the cache, or not. *)
Lemma put_shared f d s0 s p c :
  during f d s0 s (Some p) → ds_caches s !! p = Some c → dc_refcount c - 1 ≠ 0 →
  during f d s0 (set_ds_caches (<[p := set_dc_refcount (dc_refcount c - 1) c]> (ds_caches s)) s) None.
Proof.
  intros D Hc Hn. destruct (during_mine _ _ _ _ _ D) as (c' & Hc' & Hr). rewrite Hc in Hc'. injection Hc' as <-.
  pose proof D as [[H1 H2 H3 H4] F O Q]. set (others := delete f (ds_files s0)) in *.
  assert (Hlive : ∀ q, is_Some (ds_caches s !! q) → is_Some (<[p := set_dc_refcount (dc_refcount c - 1) c]> (ds_caches s) !! q)).
  { intros q Hq. destruct (decide (p = q)) as [->|]; [by rewrite lookup_insert_eq|by rewrite lookup_insert_ne]. }
  split; [split|done|done|]; cbn; fold others.
  - intros q x Hx. rewrite one_if_no by done. destruct (decide (p = q)) as [->|Hne].
    + rewrite lookup_insert_eq in Hx. injection Hx as <-. cbn. destruct (H1 _ _ Hc) as (_ & _ & Hlt). lia.
    + rewrite lookup_insert_ne in Hx by done. destruct (H1 _ _ Hx) as (A & B). rewrite one_if_no in A by congruence. done.
  - intros q Hq. apply Hlive, H2. rewrite one_if_no in Hq by done. lia.
  - intros i q Hq. destruct (H3 i q Hq) as (A & _ & B). split; [by apply Hlive|]. by split.
  - apply (valid_insert _ _ _ _ H4 Hc), cache_le_refcount.
  - intros q x Hh Hx. destruct (Q q x Hh Hx) as (y & Hy & Hl). destruct (decide (p = q)) as [->|Hne].
    + rewrite lookup_insert_eq. eexists. split; [done|]. rewrite Hc in Hy. injection Hy as ->.
      etransitivity; [exact Hl|apply cache_le_refcount].
    + rewrite lookup_insert_ne by done. by exists y.
Qed.

Lemma put_last f d s0 s p c :
  during f d s0 s (Some p) → ds_caches s !! p = Some c → dc_refcount c - 1 = 0 →
  during f d s0
    (set_ds_caches (delete p (ds_caches s))
      (set_ds_inode_cache
        (if bool_decide (ds_inode_cache s !! inode_of d s = Some p)
         then partial_alter (λ _, None) (inode_of d s) (ds_inode_cache s) else ds_inode_cache s) s)) None.
Proof.
  intros D Hc Hn. destruct (during_mine _ _ _ _ _ D) as (c' & Hc' & Hr). rewrite Hc in Hc'. injection Hc' as <-.
  pose proof D as [[H1 H2 H3 H4] F O Q]. set (others := delete f (ds_files s0)) in *.
  assert (Hz : holders p others = 0%nat) by lia.
  split; [split|done|done|]; cbn; fold others.
  - intros q x Hx. apply lookup_delete_Some in Hx as [Hne Hx]. destruct (H1 _ _ Hx) as (A & B).
    rewrite one_if_no in A by congruence. by rewrite one_if_no by done.
  - intros q Hq. rewrite one_if_no in Hq by done. rewrite lookup_delete_ne; [apply H2; lia|]. intros <-. lia.
  - intros i q Hq. assert (Hq' : ds_inode_cache s !! i = Some q ∧ q ≠ p).
    { case_bool_decide as E.
      - destruct (decide (i = inode_of d s)) as [->|Hi].
        + by rewrite lookup_partial_alter_eq in Hq.
        + rewrite lookup_partial_alter_ne in Hq by done. split; [done|]. intros ->.
          destruct (H3 i p Hq) as (_ & B & _). apply Hi. symmetry. by apply B.
      - split; [done|]. intros ->. destruct (H3 i p Hq) as (_ & B & _). apply E. by rewrite B. }
    destruct Hq' as [Hqi Hne]. destruct (H3 i q Hqi) as (A & _ & B). split; [by rewrite lookup_delete_ne|]. by split.
  - intros q x Hx. apply lookup_delete_Some in Hx as [_ Hx]. by apply (H4 q).
  - intros q x Hh Hx. destruct (Q q x Hh Hx) as (y & Hy & Hl). exists y. split; [|done].
    rewrite lookup_delete_ne; [done|]. intros <-. fold others in Hh. lia.
Qed.

Lemma file_at_eq f s od : ds_files s !! f = Some od → file_at f s = od.
Proof. intros H. unfold file_at. by rewrite H. Qed.
Lemma cache_at_eq p s c : ds_caches s !! p = Some c → cache_at p s = c.
Proof. intros H. unfold cache_at. by rewrite H. Qed.

(** Caches may go, and lose users, but there are no new ones. *)
Definition shrinks s s' : Prop :=
  (∀ q x, ds_caches s' !! q = Some x →
    ∃ y, ds_caches s !! q = Some y ∧ dc_version x = dc_version y ∧ dc_store x = dc_store y ∧ dc_list x = dc_list y) ∧
  (∀ i q, ds_inode_cache s' !! i = Some q → ds_inode_cache s !! i = Some q).
Lemma shrinks_same s s' : ds_caches s' = ds_caches s → ds_inode_cache s' = ds_inode_cache s → shrinks s s'.
Proof. intros E1 E2. unfold shrinks. rewrite E1, E2. split; [|done]. intros q x Hx. by exists x. Qed.

Lemma cache_put_spec f d s0 s p od :
  during f d s0 s (Some p) → ds_files s !! f = Some od → df_cache od = Some p →
  dwp (ovl_cache_put f d) (λ r s', r = inr tt ∧ during f d s0 s' None ∧ ds_files s' = ds_files s ∧ shrinks s s' ∧ ds_ovl s' = ds_ovl s) s.
Proof.
  intros D Hf Hp. destruct (during_mine _ _ _ _ _ D) as (c & Hc & Hr).
  unfold ovl_cache_put. repeat dstep. rewrite (file_at_eq _ _ _ Hf), Hp. repeat dstep.
  assert (Hca : cache_at p s = c) by by apply cache_at_eq. rewrite Hca.
  rewrite (proj2 (Z.leb_gt (dc_refcount c) 0)) by lia.
  apply dwp_lift; [apply frame_warn|]. intros r vv Hw Ho. cbn in Hw. injection Hw as <- <-.
  assert (Hs : set_ds_ovl (ds_ovl s) s = s) by (by destruct s). rewrite Hs. dstep.
  unfold update_cache. dstep. rewrite Hca.
  destruct (Z.eqb_spec (dc_refcount c - 1) 0) as [Hz|Hnz].
  - repeat dstep. pose proof (put_last _ _ _ _ _ _ D Hc Hz) as Hd.
    assert (Hcur : ovl_dir_cache d (set_ds_caches (<[p:=set_dc_refcount (dc_refcount c - 1) c]> (ds_caches s)) s) =
      ds_inode_cache s !! inode_of d s) by done. rewrite Hcur.
    destruct (bool_decide _) eqn:Eb in |- *; unfold ovl_set_dir_cache, cache_free.
    + repeat dstep. split; [done|]. rewrite Eb in Hd. cbn in Hd |- *. rewrite delete_insert_eq. split_and!; [exact Hd|done| |done].
      split; cbn; [intros q x Hx; apply lookup_delete_Some in Hx as [_ Hx]; by exists x|].
      intros i q Hq. destruct (decide (i = inode_of d s)) as [->|Hi]; [by rewrite lookup_partial_alter_eq in Hq|].
      by rewrite lookup_partial_alter_ne in Hq.
    + repeat dstep. split; [done|]. rewrite Eb in Hd. cbn in Hd |- *. rewrite delete_insert_eq. split_and!; [by destruct s|done| |done].
      split; cbn; [intros q x Hx; apply lookup_delete_Some in Hx as [_ Hx]; by exists x|done].
  - repeat dstep. split; [done|]. split_and!; [exact (put_shared _ _ _ _ _ _ D Hc Hnz)|done| |done].
    split; cbn; [|done]. intros q x Hx. destruct (decide (p = q)) as [->|Hne].
    + rewrite lookup_insert_eq in Hx. injection Hx as <-. by exists c.
    + rewrite lookup_insert_ne in Hx by done. by exists x.
Qed.

(** ** [ovl_cache_get] *)

(** The inode gets another current cache, or none. *)
Lemma during_pointer f d s0 s mine x :
  during f d s0 s mine → (∀ p, x = Some p → mine = Some p ∧ is_Some (ds_caches s !! p) ∧ holders p (delete f (ds_files s0)) = 0%nat) →
  during f d s0 (set_ds_inode_cache (partial_alter (λ _, x) (inode_of d s) (ds_inode_cache s)) s) mine.
Proof.
  intros [[H1 H2 H3 H4] F O Q] Hx. split; [split|done|done|done]; cbn; [done|done| |done].
  intros i p Hp. destruct (decide (i = inode_of d s)) as [->|Hi].
  - rewrite lookup_partial_alter_eq in Hp. destruct (Hx p Hp) as (Hm & Hl & Hz). split; [done|]. split; [done|].
    intros g od Hg Ho. pose proof (holders_pos p g od _ Hg Ho). lia.
  - rewrite lookup_partial_alter_ne in Hp by done. by apply H3.
Qed.

(** A new cache for the file. *)
Lemma during_new f d s0 s c :
  during f d s0 s None → dc_refcount c = 1 → Forall (λ i, (i < length (dc_store c))%nat) (dc_list c) →
  let p := ds_next s in
  let s' := DirState (ds_ovl s) (<[p := c]> (ds_caches s)) (S p) (ds_inode_cache s) (ds_files s) in
  during f d s0 s' (Some p) ∧ holders p (delete f (ds_files s0)) = 0%nat.
Proof.
  intros [[H1 H2 H3 H4] F O Q] Hc Hval p s'. set (others := delete f (ds_files s0)) in *.
  assert (Hfresh : ds_caches s !! p = None).
  { destruct (ds_caches s !! p) eqn:E; [|done]. destruct (H1 _ _ E) as (_ & _ & Hlt). unfold p in Hlt. lia. }
  assert (Hz : holders p others = 0%nat).
  { destruct (decide (holders p others = 0%nat)); [done|]. destruct (H2 p) as [y Hy]; [lia|congruence]. }
  assert (Hne : ∀ q x, ds_caches s !! q = Some x → p ≠ q) by (intros q x Hq ->; congruence).
  split; [|done]. split; [split|done|done|]; cbn; fold others.
  - intros q x Hx. destruct (decide (p = q)) as [<-|Hpq].
    + rewrite lookup_insert_eq in Hx. injection Hx as <-. rewrite one_if_yes, Hz by done. lia.
    + rewrite lookup_insert_ne in Hx by done. destruct (H1 _ _ Hx) as (A & B & Hlt).
      rewrite one_if_no in A by done. rewrite one_if_no by congruence. lia.
  - intros q Hq. destruct (decide (p = q)) as [<-|Hpq]; [by rewrite lookup_insert_eq|].
    rewrite one_if_no in Hq by congruence. rewrite lookup_insert_ne by done. apply H2. lia.
  - intros i q Hq. destruct (H3 i q Hq) as ([y Hy] & _ & B). pose proof (Hne _ _ Hy) as Hpq.
    rewrite lookup_insert_ne by done. split; [by exists y|]. split; [congruence|exact B].
  - intros q x Hx. destruct (decide (p = q)) as [<-|Hpq].
    + rewrite lookup_insert_eq in Hx. by injection Hx as <-.
    + rewrite lookup_insert_ne in Hx by done. by apply (H4 q).
  - intros q x Hh Hx. destruct (Q q x Hh Hx) as (y & Hy & Hl). exists y.
    by rewrite lookup_insert_ne by (by apply (Hne q y)).
Qed.

(** One user more. *)
Lemma get_shared f d s0 s p c :
  during f d s0 s None → ds_caches s !! p = Some c → ds_inode_cache s !! inode_of d s = Some p →
  during f d s0 (set_ds_caches (<[p := set_dc_refcount (dc_refcount c + 1) c]> (ds_caches s)) s) (Some p).
Proof.
  intros [[H1 H2 H3 H4] F O Q] Hc Hi. set (others := delete f (ds_files s0)) in *.
  assert (Hlive : ∀ q, is_Some (ds_caches s !! q) → is_Some (<[p := set_dc_refcount (dc_refcount c + 1) c]> (ds_caches s) !! q)).
  { intros q Hq. destruct (decide (p = q)) as [->|]; [by rewrite lookup_insert_eq|by rewrite lookup_insert_ne]. }
  split; [split|done|done|]; cbn; fold others.
  - intros q x Hx. destruct (decide (p = q)) as [->|Hne].
    + rewrite lookup_insert_eq in Hx. injection Hx as <-. cbn. destruct (H1 _ _ Hc) as (A & B & Hlt).
      rewrite one_if_no in A by done. rewrite one_if_yes by done. lia.
    + rewrite lookup_insert_ne in Hx by done. destruct (H1 _ _ Hx) as (A & B). rewrite one_if_no in A by done.
      by rewrite one_if_no by congruence.
  - intros q Hq. destruct (decide (p = q)) as [->|Hne]; [by rewrite lookup_insert_eq|].
    apply Hlive, H2. rewrite one_if_no in Hq by congruence. lia.
  - intros i q Hq. destruct (H3 i q Hq) as (A & _ & B). split; [by apply Hlive|]. split; [|exact B].
    intros E. injection E as <-. destruct (H3 _ _ Hi) as (_ & _ & B'). 
    destruct (H1 _ _ Hc) as (R1 & R2 & _). rewrite one_if_no in R1 by done.
    destruct (decide (i = inode_of d s)) as [->|Hne]; [done|]. exfalso.
    assert (Hex : ∃ g od, others !! g = Some od ∧ holds p od).
    { destruct (map_choose (filter (λ kv, holds p (snd kv)) others)) as (g & od & Hg).
      - intros E. unfold holders in R1. rewrite E, map_size_empty in R1. lia.
      - apply map_lookup_filter_Some in Hg as [Hg Ho]. by exists g, od. }
    destruct Hex as (g & od & Hg & Ho). apply Hne. rewrite <-(B g od Hg Ho). by rewrite (B' g od Hg Ho).
  - apply (valid_insert _ _ _ _ H4 Hc), cache_le_refcount.
  - intros q x Hh Hx. destruct (Q q x Hh Hx) as (y & Hy & Hl). destruct (decide (p = q)) as [->|Hne].
    + rewrite lookup_insert_eq. eexists. split; [done|]. rewrite Hc in Hy. injection Hy as ->.
      etransitivity; [exact Hl|apply cache_le_refcount].
    + rewrite lookup_insert_ne by done. by exists y.
Qed.

(** The version of a directory, as the file's caches record it. *)
Definition version_of (d : Z) s : Z := ovl_dentry_version_get d (ds_ovl s).
Lemma version_of_same d s s' : same_objects (ds_ovl s) (ds_ovl s') → version_of d s' = version_of d s.
Proof. intros [_ _ E1 E2]. unfold version_of, ovl_dentry_version_get, d_inode, odentry_at, oinode_at. by rewrite E1, E2. Qed.

Lemma set_ovl_id s : set_ds_ovl (ds_ovl s) s = s.
Proof. by destruct s. Qed.

(** The cache [c] that is used from [s] on is up to date: it was the cache of
    the directory, at [p], or has just been read from the layers. *)
Definition current_listing (d : Z) s (p : nat) (c : dir_cache) : Prop :=
  dc_version c = version_of d s ∧
  ((∃ c0, ds_caches s !! p = Some c0 ∧ ovl_dir_cache d s = Some p ∧ dc_store c = dc_store c0 ∧ dc_list c = dc_list c0) ∨
   (∃ v1 v2 r, same_objects (ds_ovl s) v1 ∧ ovl_dir_read_merged d v1 = (inr (0, r), v2) ∧
      dc_store c = rd_store r ∧ dc_list c = rd_list r)).

(** The file gets the directory's current cache, or a new one; or there is an
    error and it has none. *)
Lemma cache_get_spec f d s0 s :
  during f d s0 s None →
  dwp (ovl_cache_get d) (λ r s', ds_files s' = ds_files s ∧
    match r with
    | inl _ => during f d s0 s' None
    | inr p => during f d s0 s' (Some p) ∧ ∃ c, ds_caches s' !! p = Some c ∧ current_listing d s p c
    end) s.
Proof.
  intros D. unfold ovl_cache_get. repeat dstep. fold (version_of d s).
  set (current := ovl_dir_cache d s).
  destruct (match current with Some p => version_of d s =? dc_version (cache_at p s) | None => false end) eqn:Ev.
  - destruct current as [p|] eqn:Ec; [|done]. unfold current, ovl_dir_cache in Ec. to_prop.
    destruct (re_inode _ _ _ _ (du_refs _ _ _ _ _ D) _ _ Ec) as ([c Hc] & _ & _).
    rewrite (cache_at_eq _ _ _ Hc) in Ev. destruct (re_refs _ _ _ _ (du_refs _ _ _ _ _ D) _ _ Hc) as (_ & Hpos & _).
    repeat dstep. rewrite (cache_at_eq _ _ _ Hc). rewrite (proj2 (Z.eqb_neq (dc_refcount c) 0)) by lia.
    apply dwp_lift; [apply frame_warn|]. intros r vv Hw Ho. cbn in Hw. injection Hw as <- <-. rewrite set_ovl_id.
    unfold update_cache. repeat dstep. rewrite (cache_at_eq _ _ _ Hc). split; [done|].
    split; [by apply get_shared|]. eexists. cbn. rewrite lookup_insert_eq. split; [done|]. split; [cbn; by rewrite <-Ev|].
    left. exists c. by split_and!.
  - assert (G : dwp (ovl_set_dir_cache d None ;;# dlift vkmalloc ;;#
      (let# read := dlift (ovl_dir_read_merged d) in
       let '(res, r) := read in
       if negb (res =? 0) then dfail res
       else
         let# version := dget (λ s, ovl_dentry_version_get d (ds_ovl s)) in
         let# p := alloc_cache (DirCache 1 version (rd_store r) (rd_list r) (rd_root r)) in
         ovl_set_dir_cache d (Some p) ;;# dret p)) (λ r s', ds_files s' = ds_files s ∧
    match r with
    | inl _ => during f d s0 s' None
    | inr p => during f d s0 s' (Some p) ∧ ∃ c, ds_caches s' !! p = Some c ∧ current_listing d s p c
    end) s); [|by destruct current].
    clear Ev current. unfold ovl_set_dir_cache at 1. repeat dstep.
    pose proof (during_pointer _ _ _ _ _ None D ltac:(done)) as D1.
    set (s1 := set_ds_inode_cache _ s) in *. apply dwp_lift; [apply frame_kmalloc|]. intros r v1 _ Ho.
    pose proof (during_ovl _ _ _ _ _ _ Ho D1) as D2. set (s2 := set_ds_ovl v1 s1) in *.
    destruct r as [e|[]]; [by split|]. repeat dstep. apply dwp_lift; [apply frame_dir_read_merged|].
    intros r v2 Hread Ho2. assert (Hval : match r with inr (_, r) => valid r | inl _ => True end).
    { pose proof (dir_read_merged_valid d v1) as Hv. change (ds_ovl s2) with v1 in Hread. rewrite Hread in Hv.
      by destruct r as [|[]]. }
    pose proof (during_ovl _ _ _ _ _ _ Ho2 D2) as D3. set (s3 := set_ds_ovl v2 s2) in *.
    destruct r as [e|[res r]]; [by split|]. destruct (negb (res =? 0)) eqn:Eres; [by repeat dstep|]. repeat dstep.
    unfold alloc_cache at 1, dwp at 1. cbn [fst snd].
    destruct (during_new f d s0 s3 (DirCache 1 (version_of d s3) (rd_store r) (rd_list r) (rd_root r)) D3 eq_refl (va_list _ Hval)) as [D4 Hz].
    set (s4 := @DirState W _ _ _ _ _) in *. unfold ovl_set_dir_cache. repeat dstep. split; [done|].
    split.
    + apply during_pointer; [exact D4|]. intros p E. injection E as <-. split; [done|]. split; [|done].
      unfold s4. cbn. by rewrite lookup_insert_eq.
    + eexists. cbn. rewrite lookup_insert_eq. split; [done|]. split; [by apply version_of_same; etransitivity|]. right. exists v1, v2, r.
      apply negb_false_iff, Z.eqb_eq in Eres as ->. by split_and!.
Qed.
End caches.
