(* ===== verification/OvlStream.v ===== *)
(** * Streams of directory entries (readdir.c): what a reader sees

    A state machine of open directories: opening, reading, seeking, closing,
    and changes of the overlay and of its layers, in any order.  The reference
    counts of the caches are exact in every reachable state, so that no cache
    is freed while it is used or kept after its last user; and a reader gets a
    snapshot: every entry of the cache it started with once, in order.  Reads
    of impure directories, whose cache has no users that it counts, are not
    among the steps. *)
From S2P Require Import Prelude CString OS OvlOptions OvlVfs OvlHandle OvlLogic OvlSim OvlLookup OvlUnion OvlLayers OvlStack OvlReaddir OvlMerge OvlIno OvlDirFile OvlDirCache.
Open Scope Z_scope.

(** ** Seeking, resetting, reading *)

Lemma seek_loop_eq l off pos k : seek_loop l off pos k = (k + Nat.min (length l) (Z.to_nat (pos - off)))%nat.
Proof.
  revert off k. induction l as [|x l IH]; intros off k; cbn [seek_loop length]; [lia|].
  destruct (Z.leb_spec pos off); [lia|]. rewrite IH. lia.
Qed.

Section reading.
Context {W : Type} {K : Vfs W} {R : RbLib} {RL : RbLaws R} {VS : VfsStat W} {DV : DirVfs W} (v : vfs_side).
Implicit Types s : dir_state W.

(** The work on [f] goes on, and [od] is its file now. *)
Definition working (f : nat) (d : Z) s0 s (od : dir_file) : Prop :=
  during f d s0 s (df_cache od) ∧ ds_files s !! f = Some od ∧ df_dentry od = d.

Lemma working_set f d s0 s od od' :
  during f d s0 s (df_cache od') → df_dentry od' = d → od = od' →
  working f d s0 (set_ds_files (<[f := od]> (ds_files s)) s) od'.
Proof. intros D E ->. split; [by apply during_file|]. split; [|done]. cbn. by rewrite lookup_insert_eq. Qed.
Lemma working_file f d s0 s od : working f d s0 s od → file_at f s = od.
Proof. intros (_ & H & _). by apply file_at_eq. Qed.
Lemma working_ovl f d s0 s od x : same_objects (ds_ovl s) x → working f d s0 s od → working f d s0 (set_ds_ovl x s) od.
Proof. intros Hx (D & Hf & Hd). split; [by apply during_ovl|by split]. Qed.

(** A read or a seek at position 0 gives up a cache that is not current. *)
Lemma reset_spec f d s0 s od :
  working f d s0 s od →
  dwp (ovl_dir_reset f) (λ r s', r = inr tt ∧ ∃ od', working f d s0 s' od' ∧ df_pos od' = df_pos od ∧
    (df_is_real od' = true → df_is_real od = true) ∧ df_is_upper od' = df_is_upper od ∧ shrinks s s' ∧ inode_of d s' = inode_of d s ∧
    (df_cache od' = None ∧ (∀ p, df_cache od = Some p → dc_version (cache_at p s) ≠ version_of d s) ∨
     df_cache od' = df_cache od ∧ df_cursor od' = df_cursor od ∧ ds_caches s' = ds_caches s ∧
     ∀ p, df_cache od = Some p → dc_version (cache_at p s) = version_of d s)) s.
Proof.
  intros Hw. pose proof (working_file _ _ _ _ _ Hw) as Ef. destruct Hw as (D & Hf & Hd).
  unfold ovl_dir_reset. repeat dstep. rewrite Ef, Hd. fold (version_of d s).
  set (stale := match df_cache od with Some p => _ | None => false end).
  apply dwp_mono with (Q := λ r s', r = inr tt ∧ ∃ od', working f d s0 s' od' ∧ df_pos od' = df_pos od ∧
    df_is_real od' = df_is_real od ∧ df_is_upper od' = df_is_upper od ∧ shrinks s s' ∧ inode_of d s' = inode_of d s ∧
    (df_cache od' = None ∧ (∀ p, df_cache od = Some p → dc_version (cache_at p s) ≠ version_of d s) ∨
     df_cache od' = df_cache od ∧ df_cursor od' = df_cursor od ∧ ds_caches s' = ds_caches s ∧
     ∀ p, df_cache od = Some p → dc_version (cache_at p s) = version_of d s)).
  - destruct stale eqn:Es; unfold stale in Es.
    + destruct (df_cache od) as [p|] eqn:Ec; [|done]. dstep.
      eapply dwp_mono; [by apply (cache_put_spec f d s0 s p od)|]. intros r s' (-> & D' & F' & S' & O'). cbn beta iota.
      unfold update_file. dstep. split; [done|]. rewrite <-F' in Hf. eexists. split.
      * eapply (working_set f d s0 s' _ (set_df_cursor 0 (set_df_cache None od))); [exact D'|done|].
        by rewrite (file_at_eq _ _ _ Hf).
      * cbn. split_and!; [done..| |left; split; [done|]].
        -- unfold inode_of. cbn. by rewrite O'.
        -- intros q [= <-]. by apply negb_true_iff, Z.eqb_neq, not_eq_sym in Es.
    + dstep. split; [done|]. exists od. split; [done|]. split_and!; [done..|by apply shrinks_same|done|]. right. split_and!; [done..|].
      intros p Hp. rewrite Hp in Es. by apply negb_false_iff, Z.eqb_eq in Es.
  - intros r s1 (-> & od1 & Hw1 & Hp1 & Hr1 & Hu1 & Hs1 & Hi1 & Hc1). dstep. dstep.
    destruct (Bool.eqb _ _) eqn:Eb.
    + dstep. split; [done|]. exists od1. split; [done|]. split_and!; [done|congruence|done..].
    + dstep. unfold dwarn. apply dwp_lift; [apply frame_warn|]. intros r v1 Hwarn Ho.
      pose proof (working_ovl _ _ _ _ _ _ Ho Hw1) as Hw2. set (s2 := set_ds_ovl v1 s1) in *.
      assert (Hr : r = inr (ovl_dir_is_real d (ds_ovl s1))) by by (unfold warn_on in Hwarn; destruct (ovl_dir_is_real _ _); injection Hwarn).
      subst r. destruct (ovl_dir_is_real d (ds_ovl s1)).
      * dstep. split; [done|]. exists od1. split; [done|]. split_and!; [done|congruence|exact Hu1|exact Hs1| |done].
        rewrite <-Hi1. by apply inode_of_same.
      * unfold update_file. dstep. split; [done|]. exists (set_df_is_real false od1). split.
        -- destruct Hw2 as (D2 & F2 & E2). apply working_set; [done|done|]. by rewrite (file_at_eq _ _ _ F2).
        -- split_and!; [done..|exact Hs1| |done]. rewrite <-Hi1. by apply inode_of_same.
Qed.

(** What a reader sees of some entries of a cache. *)
Definition entries_of (c : dir_cache) (l : list nat) : list cache_entry := (λ i, default null_entry (dc_store c !! i)) <$> l.
Definition seen (c : dir_cache) (l : list nat) : list cstr :=
  ce_name <$> List.filter (λ e, negb (ce_is_whiteout e)) (entries_of c l).

Lemma seen_cons c i l :
  seen c (i :: l) = let e := default null_entry (dc_store c !! i) in
    if ce_is_whiteout e then seen c l else ce_name e :: seen c l.
Proof. unfold seen, entries_of. cbn. by destruct (ce_is_whiteout _). Qed.
(** Entries may only disappear. *)
Lemma seen_le c c' l : cache_le c c' → Forall (λ i, (i < length (dc_store c))%nat) l → seen c' l `sublist_of` seen c l.
Proof.
  intros Hle. induction l as [|i l IH]; intros Hl; [constructor|].
  apply Forall_cons in Hl as [Hi Hl]. specialize (IH Hl). rewrite !seen_cons.
  destruct (lookup_lt_is_Some_2 (dc_store c) i Hi) as [e He]. destruct (le_entry _ _ Hle _ _ He) as (e' & He' & Hn & Hw).
  rewrite He, He'. cbn. destruct (ce_is_whiteout e); [by rewrite Hw|].
  destruct (ce_is_whiteout e'); [by constructor|]. rewrite Hn. by constructor.
Qed.

(** A step of the loop: the entry is brought up to date. *)
Lemma refresh_spec f d s0 s od p c i :
  working f d s0 s od → df_cache od = Some p → ds_caches s !! p = Some c → (i < length (dc_store c))%nat →
  let e := default null_entry (dc_store c !! i) in
  dwp (let# r := (if negb (ce_is_whiteout e) && (ce_ino e =? 0) then dlift (ovl_cache_update_ino v d e) else dret (0, e)) in
       let '(err, e) := r in update_cache p (λ c, set_dc_store (<[i := e]> (dc_store c)) c) ;;# dret (err, e))
    (λ r s', ∃ err e' c', r = inr (err, e') ∧ working f d s0 s' od ∧ ds_caches s' !! p = Some c' ∧ cache_le c c' ∧
      dc_store c' !! i = Some e' ∧ ce_name e' = ce_name e ∧ (ce_is_whiteout e = true → ce_is_whiteout e' = true)) s.
Proof.
  intros (D & Hf & Hd) Hp Hc Hi e. dstep.
  apply dwp_mono with (Q := λ r s', ∃ err e', r = inr (err, e') ∧ working f d s0 s' od ∧ ds_caches s' !! p = Some c ∧
    ce_name e' = ce_name e ∧ (ce_is_whiteout e = true → ce_is_whiteout e' = true)).
  - destruct (_ && _).
    + apply dwp_lift; [apply frame_update_ino|]. intros r x Hu Ho.
      destruct (update_ino_entry _ _ _ _ _ _ Hu) as (err & e' & -> & Hn & Hw).
      exists err, e'. split; [done|]. split; [by apply working_ovl|by split_and!].
    + dstep. exists 0, e. by split_and!.
  - intros r s1 (err & e' & -> & (D1 & F1 & E1) & Hc1 & Hn & Hw). unfold update_cache. repeat dstep.
    rewrite (cache_at_eq _ _ _ Hc1). pose proof (cache_le_entry i e' c) as Hle.
    assert (Hle' : cache_le c (set_dc_store (<[i:=e']> (dc_store c)) c)).
    { apply Hle. intros x Hx. unfold e in *. rewrite Hx in Hn, Hw. by split. }
    eexists err, e', _. split; [done|]. split.
    { split; [rewrite Hp in D1 |- *; by apply (during_cache f d s0 s1 p c)|by split]. }
    split; [cbn; by rewrite lookup_insert_eq|]. split; [done|]. split; [|done]. cbn. by rewrite list_lookup_insert_eq.
Qed.

Lemma iterate_entries_unfold i left file p ctx s :
  iterate_entries v (i :: left) file p ctx s =
  (let# c := dget (cache_at p) in
   let e := default null_entry (dc_store c !! i) in
   let# dir := dget (λ s, df_dentry (file_at file s)) in
   let# r := (let# r := (if negb (ce_is_whiteout e) && (ce_ino e =? 0) then dlift (ovl_cache_update_ino v dir e) else dret (0, e)) in
     let '(err, e) := r in update_cache p (λ c, set_dc_store (<[i := e]> (dc_store c)) c) ;;# dret (err, e)) in
   let '(err, e) := r in
   if negb (err =? 0) then dret (err, ctx)
   else
     let '(room, ctx) := if negb (ce_is_whiteout e) then dir_emit ctx (Dirent (ce_name e) (ce_ino e) (ce_type e)) else (true, ctx) in
     if negb room then dret (0, ctx)
     else
       update_file file (λ od, set_df_cursor (S (df_cursor od)) od) ;;#
       iterate_entries v left file p (set_cx_pos (cx_pos ctx + 1) ctx)) s.
Proof.
  cbn [iterate_entries]. unfold dbind, dget. cbv beta iota. destruct (_ && _).
  - destruct (dlift _ s) as [[err|[err e]] s1]; done.
  - done.
Qed.

(** The loop consumes some entries, and gives those that are there. *)
Record consumed (f : nat) (d : Z) s0 (od : dir_file) (p : nat) (c : dir_cache) (left : list nat) (ctx : dir_context)
    (err : Z) (ctx' : dir_context) (n : nat) s' : Prop := {
  co_working : working f d s0 s' (set_df_cursor (df_cursor od + n) od);
  co_length : (n <= length left)%nat;
  co_pos : cx_pos ctx' = cx_pos ctx + Z.of_nat n;
  co_out : ∃ new c', ds_caches s' !! p = Some c' ∧ cache_le c c' ∧ cx_out ctx' = cx_out ctx ++ new ∧
    seen c' (take n left) `sublist_of` (dn_name <$> new) ∧ (dn_name <$> new) `sublist_of` seen c (take n left) ∧
    cx_room ctx = (cx_room ctx' + length new)%nat;
  co_end : err = 0 → n = length left ∨ cx_room ctx' = 0%nat
}.

Lemma iterate_entries_spec f d s0 p left ctx s od c :
  working f d s0 s od → df_cache od = Some p → ds_caches s !! p = Some c →
  Forall (λ i, (i < length (dc_store c))%nat) left →
  dwp (iterate_entries v left f p ctx) (λ r s', ∃ err ctx' n, r = inr (err, ctx') ∧ consumed f d s0 od p c left ctx err ctx' n s') s.
Proof.
  revert ctx s od c. induction left as [|i left IH]; intros ctx s od c Hw Hp Hc Hl.
  - cbn [iterate_entries]. dstep. exists 0, ctx, 0%nat. split; [done|]. split; [|done|lia| |by left].
    + rewrite Nat.add_0_r. by destruct od.
    + exists [], c. rewrite app_nil_r. split_and!; [done..|constructor|constructor|cbn; lia].
  - apply Forall_cons in Hl as [Hi Hl]. eapply dwp_ext; [apply iterate_entries_unfold|].
    do 2 dstep. cbv zeta. do 2 dstep. rewrite (working_file _ _ _ _ _ Hw), (cache_at_eq _ _ _ Hc), (proj2 (proj2 Hw)). dstep.
    eapply dwp_mono; [by apply (refresh_spec f d s0 s od p c i)|].
    intros r s1 (err & e' & c1 & -> & Hw1 & Hc1 & Hle & He' & Hn & Hwh). cbv beta iota.
    destruct (lookup_lt_is_Some_2 (dc_store c) i Hi) as [e He]. rewrite He in Hn, Hwh. cbn in Hn, Hwh.
    assert (Hnone : ∀ err ctx' room, cx_pos ctx' = cx_pos ctx → cx_out ctx' = cx_out ctx → cx_room ctx' = cx_room ctx →
      room = cx_room ctx' → (err = 0 → room = 0%nat) →
      ∃ er cx n, @inr Z _ (err, ctx') = inr (er, cx) ∧ consumed f d s0 od p c (i :: left) ctx er cx n s1).
    { intros er cx room E1 E2 E3 E4 E5. exists er, cx, 0%nat. split; [done|]. split; [|cbn; lia|lia| |].
      - rewrite Nat.add_0_r. by destruct od.
      - exists [], c1. rewrite app_nil_r, E3. split_and!; [done..|constructor|constructor|cbn; lia].
      - intros H0. right. rewrite <-E4. by apply E5. }
    destruct (Z.eqb_spec err 0) as [->|Hne]; cbn [negb];
      [|dstep; by apply (Hnone err ctx (cx_room ctx))].
    assert (Hstep : ∀ ctx1 out, cx_pos ctx1 = cx_pos ctx → cx_out ctx1 = cx_out ctx ++ out → cx_room ctx = (cx_room ctx1 + length out)%nat →
      dn_name <$> out = (if ce_is_whiteout e' then [] else [ce_name e']) →
      dwp (update_file f (λ od, set_df_cursor (S (df_cursor od)) od) ;;#
           iterate_entries v left f p (set_cx_pos (cx_pos ctx1 + 1) ctx1))
        (λ r s', ∃ er cx n, r = inr (er, cx) ∧ consumed f d s0 od p c (i :: left) ctx er cx n s') s1).
    { clear Hnone. intros ctx1 out E1 E2 E3 E4. unfold update_file. repeat dstep.
      rewrite (working_file _ _ _ _ _ Hw1). set (s2 := set_ds_files _ s1).
      assert (Hw2 : working f d s0 s2 (set_df_cursor (S (df_cursor od)) od)).
      { destruct Hw1 as (D1 & F1 & G1). by apply working_set. }
      assert (Hl1 : Forall (λ i, (i < length (dc_store c1))%nat) left) by by rewrite (le_length _ _ Hle).
      eapply dwp_mono; [by apply (IH _ s2 _ c1 Hw2)|].
      intros r s' (er & cx & n & -> & [C1 C2 C3 (new & c' & F1 & F2 & F3 & F4 & F5 & F6) C5]).
      exists er, cx, (S n). split; [done|]. cbn in C1, C2, C3, F3, F6. split; [|cbn; lia|lia| |].
      - replace (df_cursor od + S n)%nat with (S (df_cursor od + n)) by lia. exact C1.
      - exists (out ++ new), c'. rewrite firstn_cons, !seen_cons, He, fmap_app, E4, length_app.
        destruct (le_entry _ _ F2 _ _ He') as (e2 & He2 & Hn2 & Hw2'). rewrite He2. cbn [default id from_option].
        assert (Hs : seen c1 (take n left) `sublist_of` seen c (take n left)) by (apply seen_le; [done|by apply Forall_take]).
        split; [done|]. split; [by transitivity c1|]. split; [by rewrite F3, E2, app_assoc|].
        split; [|split; [|rewrite E3, F6; lia]].
        + destruct (ce_is_whiteout e'); [rewrite Hw2' by done; exact F4|]. rewrite Hn2.
          destruct (ce_is_whiteout e2); cbn [app]; [by apply sublist_cons|by apply sublist_skip].
        + assert (F5' : (dn_name <$> new) `sublist_of` seen c (take n left)) by by transitivity (seen c1 (take n left)).
          destruct (ce_is_whiteout e); [rewrite Hwh by done; exact F5'|]. rewrite Hn.
          destruct (ce_is_whiteout e'); cbn [app]; [by apply sublist_cons|by apply sublist_skip].
      - intros H0. destruct (C5 H0) as [->|E]; [left; cbn; lia|by right]. }
    destruct (ce_is_whiteout e') eqn:Ewh; cbn [negb].
    + apply (Hstep ctx []); [done|by rewrite app_nil_r|cbn; lia|done].
    + unfold dir_emit. destruct (cx_room ctx) as [|room] eqn:Er; cbn [negb].
      * dstep. by apply (Hnone 0 ctx (cx_room ctx)).
      * apply (Hstep _ [Dirent (ce_name e') (ce_ino e') (ce_type e')]); [done|done|cbn; lia|done].
Qed.

(** The part of [ovl_iterate] that finds the cache. *)
Lemma open_cache_spec f d s0 s od pos :
  working f d s0 s od →
  (∀ p c, df_cache od = Some p → ds_caches s !! p = Some c → df_cursor od = Nat.min (Z.to_nat pos) (length (dc_list c))) →
  dwp (match df_cache od with
       | Some p => dret tt
       | None => let# p := ovl_cache_get d in update_file f (set_df_cache (Some p)) ;;# ovl_seek_cursor f pos
       end)
    (λ r s', match r with
      | inl _ => df_cache od = None ∧ working f d s0 s' od
      | inr _ => ∃ p c od', working f d s0 s' od' ∧ df_cache od' = Some p ∧ ds_caches s' !! p = Some c ∧
          od' = set_df_cursor (Nat.min (Z.to_nat pos) (length (dc_list c))) (set_df_cache (Some p) od) ∧
          (df_cache od = Some p ∧ ds_caches s !! p = Some c ∨ df_cache od = None ∧ current_listing d s p c)
      end) s.
Proof.
  intros (D & Hf & Hd) Hcur. destruct (df_cache od) as [p|] eqn:Ep.
  - dstep. destruct (during_mine _ _ _ _ _ D) as (c & Hc & _). exists p, c, od. split; [by split; [rewrite Ep|]|].
    split_and!; [done..| |by left]. rewrite <-(Hcur p c eq_refl Hc). rewrite <-Ep. by destruct od.
  - dstep. eapply dwp_mono; [by apply (cache_get_spec f d s0)|]. intros r s1 (F1 & H).
    destruct r as [e|p]; [split; [done|]; by split; [rewrite Ep|rewrite F1]|]. destruct H as (D1 & c & Hc & Hcl).
    unfold update_file, ovl_seek_cursor. repeat dstep. rewrite <-F1 in Hf.
    rewrite (file_at_eq _ _ _ Hf). set (od1 := set_df_cache (Some p) od). set (s2 := set_ds_files _ s1).
    assert (Hw2 : working f d s0 s2 od1) by by apply working_set.
    rewrite (working_file _ _ _ _ _ Hw2). cbn [df_cache od1 set_df_cache]. unfold update_file. repeat dstep.
    rewrite (cache_at_eq p s2 c Hc), (working_file _ _ _ _ _ Hw2), seek_loop_eq, Z.sub_0_r, Nat.min_comm, Nat.add_0_l.
    eexists p, c, _. split; [destruct Hw2 as (D2 & _); eapply working_set; [..|reflexivity]; [exact D2|done]|]. split_and!; [done|exact Hc|reflexivity|by right].
Qed.

(** Between operations a merged directory's cursor is where its position is. *)
Definition file_ok s (od : dir_file) : Prop :=
  if df_is_real od then df_cache od = None
  else 0 <= df_pos od ∧ ∀ p c, df_cache od = Some p → ds_caches s !! p = Some c →
         df_cursor od = Nat.min (Z.to_nat (df_pos od)) (length (dc_list c)).
Definition stream_inv s : Prop := dir_inv s ∧ ∀ f od, ds_files s !! f = Some od → file_ok s od.

(** The other files are as they were. *)
Lemma others_ok f s0 s g og :
  stream_inv s0 →
  (∀ p c, (0 < holders p (delete f (ds_files s0)))%nat → ds_caches s0 !! p = Some c → ∃ c', ds_caches s !! p = Some c' ∧ cache_le c c') →
  delete f (ds_files s0) !! g = Some og → file_ok s og.
Proof.
  intros [I0 F0] Q Hg0. assert (Hg1 : ds_files s0 !! g = Some og) by by apply lookup_delete_Some in Hg0 as [_ ?].
  specialize (F0 g og Hg1). unfold file_ok in *. destruct (df_is_real og); [done|]. destruct F0 as [P0 C0].
  split; [done|]. intros p c Hp Hc.
  destruct (re_live _ _ _ _ I0 p) as [c0 Hc0]; [pose proof (holders_pos p g og _ Hg1 Hp); lia|].
  destruct (Q p c0 (holders_pos p g og _ Hg0 Hp) Hc0) as (c1 & Hc1 & Hle). rewrite Hc in Hc1. injection Hc1 as ->.
  rewrite (le_list _ _ Hle). by apply (C0 p c0).
Qed.
Lemma stream_inv_end f d s0 s od : stream_inv s0 → working f d s0 s od → file_ok s od → stream_inv s.
Proof.
  intros I (D & Hf & Hd) Hok. split; [by apply (during_end f d s0 s (df_cache od) od)|].
  intros g og Hg. destruct (decide (g = f)) as [->|Hne]; [rewrite Hf in Hg; by injection Hg as <-|].
  apply (others_ok f s0 s g og I (du_others _ _ _ _ _ D)). rewrite <-(du_files _ _ _ _ _ D). by rewrite lookup_delete_ne.
Qed.
(** Only the other files are left. *)
Lemma stream_inv_gone f d s0 s : stream_inv s0 → during f d s0 s None → ds_files s = delete f (ds_files s0) → stream_inv s.
Proof.
  intros I [[H1 H2 H3 H4] F O Q] Ef. split.
  - unfold dir_inv. rewrite Ef. split; [done|done| |done]. intros i p Hp. destruct (H3 i p Hp) as (A & _ & B). by split.
  - intros g og Hg. rewrite Ef in Hg. by apply (others_ok f s0 s g og I Q).
Qed.

(** What an operation on [f] leaves of the rest. *)
Record undisturbed (f : nat) s s' : Prop := {
  un_inv : stream_inv s';
  un_files : delete f (ds_files s') = delete f (ds_files s);
  un_objects : same_objects (ds_ovl s) (ds_ovl s');
  un_others : ∀ p c, (0 < holders p (delete f (ds_files s)))%nat → ds_caches s !! p = Some c →
    ∃ c', ds_caches s' !! p = Some c' ∧ cache_le c c'
}.
Lemma working_undisturbed f d s0 s od : stream_inv s0 → working f d s0 s od → file_ok s od → undisturbed f s0 s.
Proof. intros I Hw Hok. pose proof (stream_inv_end _ _ _ _ _ I Hw Hok). by destruct Hw as ([] & _). Qed.

(** A read of a merged directory: the entries [n] from the position on of a
    cache that the file had, or that is current. *)
Record snapshot_read (f : nat) s (od : dir_file) (room : nat) (err : Z) (out : list dirent) s'
    (p : nat) (c0 c' : dir_cache) (od' : dir_file) (n : nat) : Prop := {
  sr_file : ds_files s' !! f = Some od';
  sr_cache : df_cache od' = Some p ∧ ds_caches s' !! p = Some c' ∧ cache_le c0 c';
  sr_kind : df_is_real od' = false ∧ df_dentry od' = df_dentry od;
  sr_pos : df_pos od' = df_pos od + Z.of_nat n;
  sr_length : (n <= length (drop (Z.to_nat (df_pos od)) (dc_list c0)))%nat;
  sr_out : seen c' (take n (drop (Z.to_nat (df_pos od)) (dc_list c0))) `sublist_of` (dn_name <$> out) ∧
    (dn_name <$> out) `sublist_of` seen c0 (take n (drop (Z.to_nat (df_pos od)) (dc_list c0)));
  sr_room : (length out <= room)%nat;
  sr_end : err = 0 → n = length (drop (Z.to_nat (df_pos od)) (dc_list c0)) ∨ length out = room;
  sr_start : df_cache od = Some p ∧ ds_caches s !! p = Some c0 ∧ (df_pos od = 0 → dc_version c0 = version_of (df_dentry od) s) ∨
    (df_cache od = None ∨ df_pos od = 0) ∧ current_listing (df_dentry od) s p c0
}.

Lemma drop_min_length {A} k (l : list A) : drop (Nat.min k (length l)) l = drop k l.
Proof. destruct (decide (k <= length l)%nat); [by rewrite Nat.min_l|]. rewrite Nat.min_r by lia. by rewrite !drop_ge by lia. Qed.

(** A real directory is read through. *)
Lemma realfile_spec f d s0 s od t ctx :
  working f d s0 s od →
  dwp (iterate_realfile f t ctx) (λ r s', ∃ a x, r = inr a ∧ working f d s0 s' (set_df_real_pos x od)) s.
Proof.
  intros Hw. unfold iterate_realfile. repeat dstep. destruct (iterate_real_dir _ _ _ _) as [[ds pos] err].
  unfold update_file. repeat dstep. rewrite !(working_file _ _ _ _ _ Hw). eexists _, pos. split; [done|].
  destruct Hw as (D & Hf & Hd). by apply working_set.
Qed.
Lemma iterate_real_spec f d s0 s od ctx :
  working f d s0 s od → ovl_is_impure_dir f s = false →
  dwp (ovl_iterate_real v f ctx) (λ r s', ∃ x, working f d s0 s' (set_df_real_pos x od)) s.
Proof.
  intros Hw Himp. assert (Hid : set_df_real_pos (df_real_pos od) od = od) by by destruct od.
  unfold ovl_iterate_real. do 4 dstep. cbv zeta. dstep.
  apply dwp_mono with (Q := λ r s', working f d s0 s' od ∧ ovl_is_impure_dir f s' = false).
  - destruct (T_MERGE _); [|by repeat dstep]. destruct (ovl_getattr _ _ _) as [e|stat]; [by repeat dstep|].
    repeat dstep. unfold dwarn. apply dwp_lift; [apply frame_warn|]. intros r x Hx Ho.
    unfold warn_on in Hx. destruct (negb _); injection Hx as <- <-; dstep;
      (split; [by apply working_ovl|exact Himp]).
  - intros r s1 [Hw1 Hi1]. destruct r as [e|parent]; [exists (df_real_pos od); by rewrite Hid|].
    repeat dstep. rewrite Hi1. repeat dstep. eapply dwp_mono; [by eapply realfile_spec|].
    by intros r s2 (_ & x & _ & H2); exists x.
Qed.

(** The first step of reads and seeks. *)
Lemma start_spec f d s od :
  working f d s s od → file_ok s od →
  dwp (if df_pos od =? 0 then ovl_dir_reset f else dret tt) (λ r s1, r = inr tt ∧ ∃ od1,
    working f d s s1 od1 ∧ file_ok s1 od1 ∧ df_pos od1 = df_pos od ∧ (df_is_real od1 = true → df_is_real od = true) ∧
    df_is_upper od1 = df_is_upper od ∧ shrinks s s1 ∧ inode_of d s1 = inode_of d s ∧
    (df_cache od1 = None ∧ (df_cache od = None ∨ df_pos od = 0 ∧ ∀ p, df_cache od = Some p → dc_version (cache_at p s) ≠ version_of d s) ∨
     df_cache od1 = df_cache od ∧ ds_caches s1 = ds_caches s ∧
     ∀ p, df_cache od = Some p → df_pos od = 0 → dc_version (cache_at p s) = version_of d s)) s.
Proof.
  intros Hw Hok. destruct (Z.eqb_spec (df_pos od) 0) as [Hz|Hnz].
  - eapply dwp_mono; [by apply (reset_spec f d s s od)|].
    intros r s1 (-> & od1 & Hw1 & Hp1 & Hr1 & Hu1 & Hs1 & Hi1 & Hc). split; [done|]. exists od1.
    split; [done|]. split; [|split_and!; [done..|destruct Hc as [[Hc Hv]|(C1 & _ & C2 & C3)]; [left; auto|right; auto]]].
    unfold file_ok in *. destruct (df_is_real od1) eqn:Er.
    + rewrite Hr1 in Hok by done. destruct Hc as [[Hc _]|(Hc & _)]; [done|by rewrite Hc].
    + split; [lia|]. intros p c Hp Hcc. destruct Hc as [[Hc _]|(Hc & Hcu & Hcc' & _)]; [congruence|].
      destruct (df_is_real od); [congruence|]. destruct Hok as [_ Hok]. rewrite Hcu, Hp1. apply (Hok p c); congruence.
  - dstep. split; [done|]. exists od. split; [done|]. split_and!; [done..|by apply shrinks_same|done|].
    right. split_and!; [done..|]. intros. lia.
Qed.

(** A listing that is current after the first step was so before. *)
Lemma current_before f d s s1 od1 p c :
  working f d s s1 od1 → shrinks s s1 → inode_of d s1 = inode_of d s → current_listing d s1 p c → current_listing d s p c.
Proof.
  intros Hw [S1 S2] Hi [Hv Hl]. pose proof (du_objects _ _ _ _ _ (proj1 Hw)) as Ho. split.
  - rewrite Hv. by apply version_of_same.
  - destruct Hl as [(c0 & Hc0 & Hd & E1 & E2)|(v1 & v2 & r & Hv1 & Hr & E)].
    + left. destruct (S1 _ _ Hc0) as (c1 & Hc1 & _ & E3 & E4). exists c1. split; [done|].
      split; [unfold ovl_dir_cache in *; rewrite Hi in Hd; by apply S2|]. split; congruence.
    + right. exists v1, v2, r. split; [by etransitivity|done].
Qed.

(** [getdents] on the overlay, as far as it goes. *)
Lemma iterate_merged_spec f d s s1 od1 ctx :
  stream_inv s → working f d s s1 od1 → file_ok s1 od1 → df_is_real od1 = false → cx_pos ctx = df_pos od1 →
  dwp (match df_cache od1 with
       | Some p => dret tt
       | None => let# p := ovl_cache_get d in update_file f (set_df_cache (Some p)) ;;# ovl_seek_cursor f (cx_pos ctx)
       end ;;#
       let# od := dget (file_at f) in
       match df_cache od with
       | None => dret (0, ctx)
       | Some p =>
         let# c := dget (cache_at p) in
         iterate_entries v (drop (df_cursor od) (dc_list c)) f p ctx
       end)
    (λ r s', match r with
      | inl _ => df_cache od1 = None ∧ working f d s s' od1
      | inr (err, ctx') => ∃ p c od2 n, df_cache od2 = Some p ∧ df_is_real od2 = false ∧ df_pos od2 = df_pos od1 ∧
          df_cursor od2 = Nat.min (Z.to_nat (df_pos od1)) (length (dc_list c)) ∧
          (df_cache od1 = Some p ∧ ds_caches s1 !! p = Some c ∨ df_cache od1 = None ∧ current_listing d s1 p c) ∧
          consumed f d s od2 p c (drop (Z.to_nat (df_pos od1)) (dc_list c)) ctx err ctx' n s'
      end) s1.
Proof.
  intros I Hw Hok Hr Hpos. unfold file_ok in Hok. rewrite Hr in Hok. destruct Hok as [Hp0 Hcur]. rewrite Hpos.
  dstep. eapply dwp_mono; [apply (open_cache_spec f d s s1 od1 (df_pos od1) Hw Hcur)|].
  intros r s2 H. destruct r as [e|[]]; [done|]. destruct H as (p & c & od2 & Hw2 & Hc2 & Hcc & Hod2 & Hstart).
  assert (Hval : Forall (λ i, (i < length (dc_store c))%nat) (dc_list c)) by by apply (re_valid _ _ _ _ (du_refs _ _ _ _ _ (proj1 Hw2)) p).
  repeat dstep. rewrite (working_file _ _ _ _ _ Hw2), Hc2. repeat dstep. rewrite (cache_at_eq _ _ _ Hcc).
  assert (Hcu : df_cursor od2 = Nat.min (Z.to_nat (df_pos od1)) (length (dc_list c))) by by rewrite Hod2.
  rewrite Hcu, drop_min_length. eapply dwp_mono; [by apply (iterate_entries_spec f d s p _ ctx s2 od2 c); [..|by apply Forall_drop]|].
  intros r s3 (err & ctx' & n & -> & Hcons). exists p, c, od2, n. split_and!; [done|by rewrite Hod2|by rewrite Hod2|done..].
Qed.

Definition reads_impure (f : nat) s : bool := df_is_real (file_at f s) && ovl_is_impure_dir f s.

Lemma getdents_wp f room (Q : res (Z * list dirent) → dir_state W → Prop) s :
  dwp (ovl_iterate v f (DirContext (df_pos (file_at f s)) room [])) (λ r s', match r with
    | inl e => Q (inl e) s'
    | inr (err, ctx) => Q (inr (err, cx_out ctx)) (set_ds_files (<[f := set_df_pos (cx_pos ctx) (file_at f s')]> (ds_files s')) s')
    end) s →
  dwp (getdents v f room) Q s.
Proof. unfold dwp, getdents, dbind, dget. destruct (ovl_iterate _ _ _ _) as [[e|[err ctx]] s']; done. Qed.

(** After the read the file has the position of the context. *)
Definition moved (f : nat) (ctx : dir_context) s : dir_state W :=
  set_ds_files (<[f := set_df_pos (cx_pos ctx) (file_at f s)]> (ds_files s)) s.
Lemma working_moved f d s0 s od ctx : working f d s0 s od → working f d s0 (moved f ctx s) (set_df_pos (cx_pos ctx) od).
Proof. intros Hw. unfold moved. rewrite (working_file _ _ _ _ _ Hw). destruct Hw as (D & F & E). by apply working_set. Qed.
Lemma real_moved f d s0 s od ctx x :
  stream_inv s0 → working f d s0 s (set_df_real_pos x od) → df_is_real od = true → df_cache od = None →
  undisturbed f s0 (moved f ctx s).
Proof.
  intros I Hw Hr Hc. pose proof (working_moved _ _ _ _ _ ctx Hw) as Hw'.
  apply (working_undisturbed _ d _ _ _ I Hw'). unfold file_ok. cbn. by rewrite Hr.
Qed.
Lemma merged_moved f d s0 s od p c left room err ctx' n :
  stream_inv s0 → df_cache od = Some p → df_is_real od = false → 0 <= df_pos od →
  df_cursor od = Nat.min (Z.to_nat (df_pos od)) (length (dc_list c)) → left = drop (Z.to_nat (df_pos od)) (dc_list c) →
  consumed f d s0 od p c left (DirContext (df_pos od) room []) err ctx' n s → undisturbed f s0 (moved f ctx' s).
Proof.
  intros I Hp Hr Hpos Hcu -> [C1 C2 C3 (new & c' & N1 & N2 & _) _]. cbn in C3.
  pose proof (working_moved _ _ _ _ _ ctx' C1) as Hw'. apply (working_undisturbed _ d _ _ _ I Hw').
  unfold file_ok. cbn. rewrite Hr, C3. split; [lia|]. intros q x Hq Hx. rewrite Hp in Hq. injection Hq as <-.
  unfold moved in Hx. cbn in Hx. rewrite N1 in Hx. injection Hx as <-. rewrite (le_list _ _ N2), Hcu.
  rewrite length_drop in C2. lia.
Qed.

Lemma reads_impure_same f d s s1 od od1 :
  working f d s s od → working f d s s1 od1 → df_is_upper od1 = df_is_upper od → df_is_real od = true →
  reads_impure f s = false → ovl_is_impure_dir f s1 = false.
Proof.
  intros Hw Hw1 Hu Hr. unfold reads_impure, ovl_is_impure_dir.
  rewrite (working_file _ _ _ _ _ Hw), (working_file _ _ _ _ _ Hw1), Hr, Hu, (proj2 (proj2 Hw)), (proj2 (proj2 Hw1)).
  pose proof (du_objects _ _ _ _ _ (proj1 Hw1)) as [_ _ E1 E2].
  unfold test_inode, d_inode, odentry_at, oinode_at. by rewrite E1, E2.
Qed.

(** A read keeps the invariant and leaves the other files alone; a merged
    directory gives a part of a listing. *)
Lemma getdents_spec f room s od :
  stream_inv s → ds_files s !! f = Some od → reads_impure f s = false →
  dwp (getdents v f room) (λ r s', undisturbed f s s' ∧
    match r with
    | inl _ => ∃ od', ds_files s' !! f = Some od' ∧ df_cache od' = None ∧ (df_cache od = None ∨ df_pos od = 0)
    | inr (err, out) => df_is_real od = false → ∃ p c0 c' od' n, snapshot_read f s od room err out s' p c0 c' od' n
    end) s.
Proof.
  intros I Hf Himp. set (d := df_dentry od). pose proof (proj2 I f od Hf) as Hok.
  assert (Hw : working f d s s od) by (split; [by apply during_start; [apply I|..]|by split]).
  apply getdents_wp. rewrite (working_file _ _ _ _ _ Hw). unfold ovl_iterate. cbn [cx_pos]. dstep.
  eapply dwp_mono; [by apply (start_spec f d s od)|].
  intros r s1 (-> & od1 & Hw1 & Hok1 & Hp1 & Hr1 & Hu1 & Hs1 & Hi1 & Hc1).
  cbv beta iota. do 2 dstep. rewrite (working_file _ _ _ _ _ Hw1), (proj2 (proj2 Hw1)). destruct (df_is_real od1) eqn:Er.
  - assert (Hcn : df_cache od1 = None) by by (unfold file_ok in Hok1; rewrite Er in Hok1).
    assert (Hcn0 : df_cache od = None) by by (unfold file_ok in Hok; rewrite Hr1 in Hok by done).
    specialize (Hr1 eq_refl). pose proof (reads_impure_same _ _ _ _ _ _ Hw Hw1 Hu1 Hr1 Himp) as Hi.
    rewrite Hr1. do 2 dstep. destruct (_ || _).
    + eapply dwp_mono; [by apply (iterate_real_spec f d s s1 od1)|]. intros r s2 (x & Hw2). destruct r as [e|[err ctx]].
      * split; [|eexists; split; [apply Hw2|auto]]. apply (working_undisturbed _ d _ _ _ I Hw2). unfold file_ok. cbn. by rewrite Er.
      * split; [by apply (real_moved f d s s2 od1 ctx x)|done].
    + eapply dwp_mono; [by eapply realfile_spec|]. intros r s2 ([err ctx] & x & -> & Hw2).
      split; [by apply (real_moved f d s s2 od1 ctx x)|done].
  - eapply dwp_mono; [by apply (iterate_merged_spec f d s s1 od1 (DirContext (df_pos od) room []))|]. 
    intros r s2 H. destruct r as [e|[err ctx']].
    + destruct H as [Hcn Hw2]. split; [apply (working_undisturbed _ d _ _ _ I Hw2)|].
      * unfold file_ok in Hok1 |- *. rewrite Er in Hok1 |- *. split; [apply Hok1|]. intros p c Hp. congruence.
      * exists od1. split; [apply Hw2|]. split; [done|]. destruct Hc1 as [[_ [?|[? _]]]|(E & _)]; [by left|by right|left; congruence].
    + destruct H as (p & c & od2 & n & Hc2 & Hr2 & Hp2 & Hcu & Hstart & Hcons).
      unfold file_ok in Hok1. rewrite Er in Hok1. destruct Hok1 as [Hpos _]. rewrite <-Hp1 in *.
      split; [rewrite <-Hp2 in *; by eapply (merged_moved f d s s2 od2 p c)|].
      intros _. destruct Hcons as [C1 C2 C3 (new & c' & N1 & N2 & N3 & N4 & N5 & N6) C5]. cbn in C3, N3, N6. subst new.
      pose proof (working_moved _ _ _ _ _ ctx' C1) as Hw3.
      exists p, c, c', (set_df_pos (cx_pos ctx') (set_df_cursor (df_cursor od2 + n) od2)), n.
      rewrite Hp1 in *. split; [apply Hw3|split; [exact Hc2|by split]|split; [exact Hr2|apply Hw3]|done|done|done|lia| |].
      * intros H0. destruct (C5 H0); [by left|right; lia].
      * fold d. destruct Hstart as [[E1 E2]|[E1 E2]].
        -- destruct Hc1 as [[E3 _]|(E3 & E4 & E5)]; [congruence|]. left. rewrite <-E3, <-E4. split_and!; [done..|].
           intros Hz. rewrite <-(E5 p) by congruence. by rewrite (cache_at_eq p s c) by congruence.
        -- right. split; [|apply (current_before f d s s1 od1); [exact Hw1|exact Hs1|exact Hi1|exact E2]]. destruct Hc1 as [[_ [?|[? _]]]|(E & _)]; [by left|by right|left; congruence].
Qed.

(** What a seek in a merged directory does to the position, or the error. *)
Definition seek_target (pos offset origin : Z) : option Z :=
  if negb (origin =? SEEK_CUR) && negb (origin =? SEEK_SET) then None
  else let offset := if origin =? SEEK_CUR then s64 (offset + pos) else offset in
       if offset <? 0 then None else Some offset.

Lemma llseek_spec f offset origin s od :
  stream_inv s → ds_files s !! f = Some od →
  dwp (ovl_dir_llseek f offset origin) (λ r s', undisturbed f s s' ∧ ∃ od', ds_files s' !! f = Some od' ∧
    df_dentry od' = df_dentry od ∧
    (df_is_real od = false → df_is_real od' = false ∧
      match seek_target (df_pos od) offset origin with
      | None => r = inl (- EINVAL) ∧ df_pos od' = df_pos od
      | Some pos => r = inr pos ∧ df_pos od' = pos
      end ∧
      ∀ p c, df_cache od = Some p → ds_caches s !! p = Some c → (df_pos od = 0 → dc_version c = version_of (df_dentry od) s) →
        df_cache od' = Some p ∧ ds_caches s' !! p = Some c)) s.
Proof.
  intros I Hf. set (d := df_dentry od). pose proof (proj2 I f od Hf) as Hok.
  assert (Hw : working f d s s od) by (split; [by apply during_start; [apply I|..]|by split]).
  unfold ovl_dir_llseek. do 2 dstep. rewrite (working_file _ _ _ _ _ Hw). dstep.
  eapply dwp_mono; [by apply (start_spec f d s od)|].
  intros r s1 (-> & od1 & Hw1 & Hok1 & Hp1 & Hr1 & Hu1 & Hs1 & Hi1 & Hc1).
  cbv beta iota. do 2 dstep. rewrite (working_file _ _ _ _ _ Hw1). destruct (df_is_real od1) eqn:Er.
  - do 2 dstep. destruct (vfs_llseek _ _ _ _ _) as [res x]. unfold update_file. repeat dstep.
    rewrite (working_file _ _ _ _ _ Hw1). set (od2 := set_df_pos x (set_df_real_pos x od1)).
    assert (Hw2 : working f d s (set_ds_files (<[f:=od2]> (ds_files s1)) s1) od2) by (destruct Hw1 as (D1 & F1 & E1); by apply working_set).
    split.
    + apply (working_undisturbed _ d _ _ _ I Hw2). unfold file_ok in *. cbn. by rewrite Er in Hok1 |- *.
    + exists od2. split; [apply Hw2|]. split; [apply Hw2|]. intros H. rewrite Hr1 in H; done.
  - unfold file_ok in Hok1. rewrite Er in Hok1. destruct Hok1 as [Hpos Hcur].
    assert (Hkeep : ∀ p c, df_cache od = Some p → ds_caches s !! p = Some c → (df_pos od = 0 → dc_version c = version_of d s) →
      df_cache od1 = Some p ∧ ds_caches s1 !! p = Some c).
    { intros p c Hp Hc Hv. destruct Hc1 as [[_ [?|[? Hv']]]|(E1 & E2 & _)]; [congruence| |by rewrite E1, E2].
      destruct (Hv' p Hp). rewrite (cache_at_eq _ _ _ Hc). auto. }
    assert (Hout : ∀ r s2 od2, working f d s s2 od2 → df_is_real od2 = false → df_cache od2 = df_cache od1 →
      ds_caches s2 = ds_caches s1 → 0 <= df_pos od2 →
      (df_cursor od2 = df_cursor od1 ∧ df_pos od2 = df_pos od1 ∨
       ∀ p c, df_cache od1 = Some p → ds_caches s1 !! p = Some c → df_cursor od2 = Nat.min (Z.to_nat (df_pos od2)) (length (dc_list c))) →
      match seek_target (df_pos od) offset origin with
      | None => r = inl (- EINVAL) ∧ df_pos od2 = df_pos od
      | Some pos => r = inr pos ∧ df_pos od2 = pos
      end →
      undisturbed f s s2 ∧ ∃ od', ds_files s2 !! f = Some od' ∧ df_dentry od' = d ∧
        (df_is_real od = false → df_is_real od' = false ∧
          match seek_target (df_pos od) offset origin with
          | None => r = inl (- EINVAL) ∧ df_pos od' = df_pos od
          | Some pos => r = inr pos ∧ df_pos od' = pos
          end ∧
          ∀ p c, df_cache od = Some p → ds_caches s !! p = Some c → (df_pos od = 0 → dc_version c = version_of d s) →
            df_cache od' = Some p ∧ ds_caches s2 !! p = Some c)).
    { clear - I Hpos Hcur Hkeep. intros r s2 od2 Hw2 E1 E2 E3 E4 E5 E6. split.
      - apply (working_undisturbed _ d _ _ _ I Hw2). unfold file_ok. rewrite E1, E2, E3. split; [done|].
        intros p c Hp Hc. destruct E5 as [[-> ->]|E5]; [by apply (Hcur p c)|by apply (E5 p c)].
      - exists od2. split; [apply Hw2|]. split; [apply Hw2|]. intros _. rewrite E2, E3. by split_and!. }
    unfold seek_target in Hout |- *. rewrite <-Hp1 in *.
    destruct (negb (origin =? SEEK_CUR) && negb (origin =? SEEK_SET)); [dstep; apply (Hout _ _ od1); auto|].
    cbv zeta. set (off := if origin =? SEEK_CUR then _ else _) in *.
    destruct (Z.ltb_spec off 0) as [Hneg|Hge]; [dstep; apply (Hout _ _ od1); auto|].
    dstep. destruct (Z.eqb_spec off (df_pos od1)) as [Heq|Hne]; cbn [negb].
    + repeat dstep. apply (Hout _ _ od1); auto.
    + unfold update_file at 1. do 2 dstep. rewrite (working_file _ _ _ _ _ Hw1). set (od2 := set_df_pos off od1).
      set (s2 := set_ds_files _ s1). assert (Hw2 : working f d s s2 od2) by (destruct Hw1 as (D1 & F1 & E1); by apply working_set).
      destruct (df_cache od1) as [p|] eqn:Ep.
      * unfold ovl_seek_cursor. repeat dstep. rewrite (working_file _ _ _ _ _ Hw2). cbn [df_cache od2 set_df_pos]. rewrite Ep.
        unfold update_file. repeat dstep. rewrite (working_file _ _ _ _ _ Hw2), seek_loop_eq, Z.sub_0_r, Nat.add_0_l.
        eapply Hout; [destruct Hw2 as (D2 & _); eapply working_set; [..|reflexivity]; [exact D2|apply Hw1]|done|done|done|done|right|done].
        intros q c Hq Hc. injection Hq as <-. cbn [df_cursor df_pos od2 set_df_pos set_df_cursor].
        rewrite (cache_at_eq p s2 c Hc). by rewrite Nat.min_comm.
      * repeat dstep. by apply (Hout _ _ od2); [..|right|].
Qed.

Lemma release_spec f s od :
  stream_inv s → ds_files s !! f = Some od →
  dwp (ovl_dir_release f) (λ r s', r = inr tt ∧ undisturbed f s s' ∧ ds_files s' = delete f (ds_files s)) s.
Proof.
  intros I Hf. set (d := df_dentry od).
  assert (D : during f d s s (df_cache od)) by (by apply during_start; [apply I|..]).
  assert (G : ∀ s1, during f d s s1 None → ds_files s1 = ds_files s →
    undisturbed f s (set_ds_files (delete f (ds_files s1)) s1)).
  { intros s1 [R1 F O Q] Ef. assert (D' : during f d s (set_ds_files (delete f (ds_files s1)) s1) None).
    { split; [|cbn; by rewrite Ef, delete_delete_eq|done|done]. destruct R1. by split. }
    split; [|apply D'|done|exact Q]. apply (stream_inv_gone f d s _ I D'). cbn. by rewrite Ef. }
  unfold ovl_dir_release. do 2 dstep. rewrite (file_at_eq _ _ _ Hf). fold d. dstep.
  destruct (df_cache od) as [p|] eqn:Ep.
  - eapply dwp_mono; [by apply (cache_put_spec f d s s p od)|]. intros r s1 (-> & D1 & F1 & _ & O1). dstep.
    split; [done|]. split; [by apply G|]. cbn. by rewrite F1.
  - repeat dstep. split; [done|]. split; [by apply G|done].
Qed.

Lemma open_spec f d s :
  stream_inv s → ds_files s !! f = None →
  dwp (ovl_dir_open f d) (λ r s', undisturbed f s s') s.
Proof.
  intros I Hf. assert (E : delete f (ds_files s) = ds_files s) by by apply delete_id.
  assert (D : during f d s s None).
  { destruct (proj1 I) as [H1 H2 H3 H4]. split; [rewrite E|done|done|intros p c _ Hc; by exists c]. split; [done|done| |done].
    intros i p Hp. destruct (H3 i p Hp) as (A & _ & B). by split. }
  assert (G : ∀ s1, during f d s s1 None → ds_files s1 = ds_files s → undisturbed f s s1).
  { intros s1 D1 Ef. split; [|apply D1..]. apply (stream_inv_gone f d s s1 I D1). by rewrite Ef, E. }
  unfold ovl_dir_open. dstep. apply dwp_lift; [apply frame_kmalloc|]. intros r x _ Ho.
  pose proof (during_ovl _ _ _ _ _ _ Ho D) as D1. set (s1 := set_ds_ovl x s) in *.
  destruct r as [e|[]]; [by apply G|]. do 2 dstep. destruct (ovl_path_real d (ds_ovl s1)) as [type real].
  do 2 dstep. destruct (_ <? 0); [dstep; by apply G|]. do 2 dstep. unfold update_file. dstep.
  set (od := DirFile d 0 (ovl_dir_is_real d (ds_ovl s1)) (T_UPPER type) None 0 (default 0 real) 0).
  assert (Hw : working f d s (set_ds_files (<[f := od]> (ds_files s1)) s1) od) by by apply working_set.
  apply (working_undisturbed _ d _ _ _ I Hw). unfold file_ok. cbn. destruct (ovl_dir_is_real _ _); [done|]. by split.
Qed.


(** ** The state machine *)

Inductive dir_event :=
| DOpen (f : nat) (d : Z)
| DRead (f room : nat)
| DSeek (f : nat) (offset origin : Z)
| DClose (f : nat)
| DOverlay.

(** What a read has given. *)
Definition read_out (r : res (Z * list dirent)) : list dirent := match r with inl _ => [] | inr (_, out) => out end.

(** A step with what it gives to a reader.  Between the operations on files
    the overlay and its layers may change in any way, as long as the dentries
    of open files keep their inodes. *)
Inductive dir_step s : dir_event → list dirent → dir_state W → Prop :=
| step_open f d r s' : ds_files s !! f = None → ovl_dir_open f d s = (r, s') → dir_step s (DOpen f d) [] s'
| step_read f room r s' : is_Some (ds_files s !! f) → reads_impure f s = false → getdents v f room s = (r, s') →
    dir_step s (DRead f room) (read_out r) s'
| step_seek f offset origin r s' : is_Some (ds_files s !! f) → ovl_dir_llseek f offset origin s = (r, s') →
    dir_step s (DSeek f offset origin) [] s'
| step_close f r s' : is_Some (ds_files s !! f) → ovl_dir_release f s = (r, s') → dir_step s (DClose f) [] s'
| step_overlay ovl : (∀ f od, ds_files s !! f = Some od → inode_of (df_dentry od) (set_ds_ovl ovl s) = inode_of (df_dentry od) s) →
    dir_step s DOverlay [] (set_ds_ovl ovl s).

Inductive dir_run s : list (dir_event * list dirent) → dir_state W → Prop :=
| run_nil : dir_run s [] s
| run_step e out s1 tr s2 : dir_step s e out s1 → dir_run s1 tr s2 → dir_run s ((e, out) :: tr) s2.

(** No directory is open and there are no caches. *)
Definition fresh_state (ovl : vstate W) : dir_state W := DirState ovl ∅ 0 ∅ ∅.

(** The file that an event is about. *)
Definition event_file (e : dir_event) : option nat :=
  match e with DOpen f _ | DRead f _ | DSeek f _ _ | DClose f => Some f | DOverlay => None end.

Lemma step_undisturbed s e out s' f : stream_inv s → dir_step s e out s' → event_file e = Some f → undisturbed f s s'.
Proof.
  intros I Hs. destruct Hs as [g d r s' Hg Hr|g room r s' [od Hg] Hi Hr|g off or r s' [od Hg] Hr|g r s' [od Hg] Hr|]; intros [= <-].
  - exact (dwp_run _ _ _ _ _ Hr (open_spec g d s I Hg)).
  - exact (proj1 (dwp_run _ _ _ _ _ Hr (getdents_spec g room s od I Hg Hi))).
  - exact (proj1 (dwp_run _ _ _ _ _ Hr (llseek_spec g off or s od I Hg))).
  - exact (proj1 (proj2 (dwp_run _ _ _ _ _ Hr (release_spec g s od I Hg)))).
Qed.
Lemma step_inv s e out s' : stream_inv s → dir_step s e out s' → stream_inv s'.
Proof.
  intros I Hs. destruct (event_file e) as [f|] eqn:Ef; [by apply (step_undisturbed s e out s' f)|].
  destruct Hs as [| | | |ovl Ho]; try done. destruct I as [[H1 H2 H3 H4] F]. split; [|exact F]. split; cbn; [done|done| |done].
  intros i p Hp. destruct (H3 i p Hp) as (A & _ & B). split; [done|]. split; [done|]. intros g od Hg Hh.
  by rewrite (Ho g od Hg), (B g od Hg Hh).
Qed.
Lemma fresh_inv ovl : stream_inv (fresh_state ovl).
Proof.
  split; [split|]; cbn.
  - intros p c. by rewrite lookup_empty.
  - intros p. rewrite one_if_no by done. rewrite holders_zero; [lia|]. intros g od. by rewrite lookup_empty.
  - intros i p. by rewrite lookup_empty.
  - intros p c. by rewrite lookup_empty.
  - intros f od. by rewrite lookup_empty.
Qed.
Lemma run_inv s tr s' : stream_inv s → dir_run s tr s' → stream_inv s'.
Proof. intros I H. induction H; [done|]. eauto using step_inv. Qed.

Lemma run_app s tr1 s1 tr2 s2 : dir_run s tr1 s1 → dir_run s1 tr2 s2 → dir_run s (tr1 ++ tr2) s2.
Proof. intros H H2. induction H; [done|]. cbn. eapply run_step; [done|by auto]. Qed.

(** ** A reader's stream *)

(** What the reads of [f] have given. *)
Definition reads_of (f : nat) (tr : list (dir_event * list dirent)) : list dirent :=
  mjoin ((λ eo, if bool_decide (event_file (fst eo) = Some f) then snd eo else []) <$> tr).
(** The file is only read. *)
Definition only_read (f : nat) (tr : list (dir_event * list dirent)) : Prop :=
  Forall (λ eo, event_file (fst eo) = Some f → match fst eo with DRead _ _ => True | _ => False end) tr.

Lemma seen_app c l1 l2 : seen c (l1 ++ l2) = seen c l1 ++ seen c l2.
Proof. unfold seen, entries_of. by rewrite fmap_app, List.filter_app, fmap_app. Qed.

(** The entries [n] from [left] on have been given, between what is there at
    the end and what was there at the start. *)
Definition streamed (c c' : dir_cache) (left : list nat) (n : nat) (out : list dirent) : Prop :=
  cache_le c c' ∧ (n <= length left)%nat ∧
  seen c' (take n left) `sublist_of` (dn_name <$> out) ∧ (dn_name <$> out) `sublist_of` seen c (take n left).

Lemma streamed_app c c1 c2 left n m out1 out2 :
  Forall (λ i, (i < length (dc_store c))%nat) left →
  streamed c c1 left n out1 → streamed c1 c2 (drop n left) m out2 → streamed c c2 left (n + m) (out1 ++ out2).
Proof.
  intros Hl (L1 & N1 & A1 & B1) (L2 & N2 & A2 & B2). rewrite length_drop in N2.
  assert (Hl1 : Forall (λ i, (i < length (dc_store c1))%nat) left) by by rewrite (le_length _ _ L1).
  split; [by transitivity c1|]. split; [lia|].
  rewrite <-take_take_drop, !seen_app, fmap_app. split; apply sublist_app; [|done|done|].
  - etransitivity; [|exact A1]. apply seen_le; [done|by apply Forall_take].
  - etransitivity; [exact B2|]. apply seen_le; [done|by apply Forall_take, Forall_drop].
Qed.
Lemma streamed_nil c c' left : cache_le c c' → streamed c c' left 0 [].
Proof. intros H. split; [done|]. split; [lia|]. split; constructor. Qed.

(** A file in the middle of a merged directory. *)
Definition at_position (f p : nat) (c : dir_cache) (pos : Z) s : Prop :=
  ∃ od, ds_files s !! f = Some od ∧ df_cache od = Some p ∧ df_is_real od = false ∧ df_pos od = pos ∧ ds_caches s !! p = Some c.

Lemma step_stream f p c pos s e out s' :
  stream_inv s → at_position f p c pos s → 0 < pos → dir_step s e out s' →
  (event_file e = Some f → match e with DRead _ _ => True | _ => False end) →
  ∃ c' n, at_position f p c' (pos + Z.of_nat n) s' ∧
    streamed c c' (drop (Z.to_nat pos) (dc_list c)) n (if bool_decide (event_file e = Some f) then out else []).
Proof.
  intros I (od & Hf & Hp & Hr & Hpos & Hc) Hlt Hs Hread.
  case_bool_decide as Ee.
  - specialize (Hread Ee). destruct Hs as [| g room r s' [od' Hg] Hi Hr'| | |]; try done. injection Ee as ->.
    rewrite Hf in Hg. injection Hg as <-.
    destruct (dwp_run _ _ _ _ _ Hr' (getdents_spec f room s od I Hf Hi)) as [Hun Hres].
    destruct r as [err|[err out]]; [destruct Hres as (? & _ & _ & [?|?]); [congruence|lia]|].
    destruct (Hres Hr) as (q & c0 & c' & od1 & n & [R1 (R2 & R3 & R4) [R5 R6] R7 R8 R9 _ _ R12]).
    destruct R12 as [(E1 & E2 & _)|[[?|?] _]]; [|congruence|lia].
    rewrite Hp in E1. injection E1 as <-. rewrite Hc in E2. injection E2 as <-. rewrite Hpos in *.
    exists c', n. split; [by exists od1|]. split; [done|]. by split.
  - assert (Hsame : ∃ c', ds_files s' !! f = Some od ∧ ds_caches s' !! p = Some c' ∧ cache_le c c').
    { destruct (event_file e) as [g|] eqn:Eg.
      - destruct (step_undisturbed _ _ _ _ _ I Hs Eg) as [_ F _ Q]. assert (Hne : g ≠ f) by congruence.
        assert (Hd : delete g (ds_files s) !! f = Some od) by by rewrite lookup_delete_ne.
        destruct (Q p c) as (c' & Hc' & Hle); [by apply (holders_pos p f od)|done|]. exists c'. split_and!; [|done..].
        rewrite <-F in Hd. by apply lookup_delete_Some in Hd as [_ ?].
      - destruct Hs; try done. by exists c. }
    destruct Hsame as (c' & Hf' & Hc' & Hle). exists c', 0%nat. split; [|by apply streamed_nil].
    exists od. split_and!; [done..|lia|done].
Qed.

Lemma run_stream f p c pos s tr s' :
  stream_inv s → at_position f p c pos s → 0 < pos → dir_run s tr s' → only_read f tr →
  ∃ c' n, at_position f p c' (pos + Z.of_nat n) s' ∧ streamed c c' (drop (Z.to_nat pos) (dc_list c)) n (reads_of f tr).
Proof.
  intros I Hat Hlt H. revert c pos I Hat Hlt. induction H as [s|s e out s1 tr s2 Hs Hrun IH]; intros c pos I Hat Hlt Ho.
  - exists c, 0%nat. rewrite Z.add_0_r. split; [done|]. by apply streamed_nil.
  - apply Forall_cons in Ho as [Ho1 Ho2].
    assert (Hval : Forall (λ i, (i < length (dc_store c))%nat) (dc_list c)).
    { destruct Hat as (od & _ & _ & _ & _ & Hc). by apply (re_valid _ _ _ _ (proj1 I) p). }
    destruct (step_stream f p c pos s e out s1 I Hat Hlt Hs Ho1) as (c1 & n & Hat1 & St1).
    destruct (IH c1 (pos + Z.of_nat n)) as (c2 & m & Hat2 & St2); [by eapply step_inv|done|lia|done|].
    exists c2, (n + m)%nat. split; [by replace (pos + Z.of_nat (n + m)) with (pos + Z.of_nat n + Z.of_nat m) by lia|].
    apply (streamed_app c c1 c2); [by apply Forall_drop|done|].
    rewrite drop_drop, <-(le_list _ _ (proj1 St1)).
    by replace (Z.to_nat pos + n)%nat with (Z.to_nat (pos + Z.of_nat n)) by lia.
Qed.

(** ** Theorems *)


(** What a reader starts with: the directory's version, and the entries of a
    cache that there was or of the layers as they are. *)
Definition starts_with (d : Z) s (c : dir_cache) : Prop :=
  dc_version c = version_of d s ∧
  ((∃ p c0, ds_caches s !! p = Some c0 ∧ dc_store c = dc_store c0 ∧ dc_list c = dc_list c0) ∨
   (∃ v1 v2 r, same_objects (ds_ovl s) v1 ∧ ovl_dir_read_merged d v1 = (inr (0, r), v2) ∧
      dc_store c = rd_store r ∧ dc_list c = rd_list r)).

(** C20: A reader that starts at the beginning of a merged directory and only goes
    on reading, whatever else happens in between, gets the entries of one
    listing, current when it started: those before its position that are
    still there at the end, and none that was not there at the start, each
    once and in the order of the list. *)
Theorem ovl_dir_stream_snapshot f room s od err out s1 od1 tr s2 :
  stream_inv s → ds_files s !! f = Some od → df_is_real od = false → df_pos od = 0 →
  getdents v f room s = (inr (err, out), s1) → ds_files s1 !! f = Some od1 → 0 < df_pos od1 →
  dir_run s1 tr s2 → only_read f tr →
  ∃ c c' p pos, starts_with (df_dentry od) s c ∧ at_position f p c' (Z.of_nat pos) s2 ∧
    streamed c c' (dc_list c) pos (out ++ reads_of f tr).
Proof.
  intros I Hf Hr Hz Hget Hf1 Hpos Hrun Hread.
  assert (Himp : reads_impure f s = false) by (unfold reads_impure; by rewrite (file_at_eq _ _ _ Hf), Hr).
  destruct (dwp_run _ _ _ _ _ Hget (getdents_spec f room s od I Hf Himp)) as [Hun Hres].
  destruct (Hres Hr) as (p & c0 & c1 & od' & n & [R1 (R2 & R3 & R4) [R5 R6] R7 R8 R9 _ _ R12]).
  rewrite Hf1 in R1. injection R1 as <-. rewrite Hz in *. change (Z.to_nat 0) with 0%nat in *. rewrite drop_0 in *.
  rewrite Z.add_0_l in R7.
  assert (Hval : Forall (λ i, (i < length (dc_store c0))%nat) (dc_list c0)).
  { rewrite <-(le_length _ _ R4), <-(le_list _ _ R4). by apply (re_valid _ _ _ _ (proj1 (un_inv _ _ _ Hun)) p). }
  destruct (run_stream f p c1 (Z.of_nat n) s1 tr s2) as (c2 & m & Hat & St); [apply Hun|by exists od1|lia|done|done|].
  exists c0, c2, p, (n + m)%nat. split; [|split; [by rewrite Nat2Z.inj_add|]].
  - split.
    + destruct R12 as [(_ & _ & E)|[_ [E _]]]; auto.
    + destruct R12 as [(_ & E & _)|[_ [_ [(c & E & _ & E')|E]]]]; [left; by exists p, c0|left; by exists p, c|by right].
  - apply (streamed_app c0 c1 c2); [done|split; [done|by split]|]. rewrite <-(le_list _ _ R4). by rewrite Nat2Z.id in St.
Qed.


(** C36: A position is a cookie: a reader that seeks in a merged directory, with
    the cache it has, goes on with the entries from there, and a seek that is
    refused leaves the position alone. *)
Theorem ovl_dir_seek_resumes f p c pos offset origin s r s1 room err out s2 :
  stream_inv s → at_position f p c pos s → (pos = 0 → dc_version c = version_of (df_dentry (file_at f s)) s) →
  ovl_dir_llseek f offset origin s = (r, s1) → getdents v f room s1 = (inr (err, out), s2) →
  let target := default pos (seek_target pos offset origin) in
  r = from_option inr (inl (- EINVAL)) (seek_target pos offset origin) ∧
  (0 < target →
   ∃ c' n, at_position f p c' (target + Z.of_nat n) s2 ∧ streamed c c' (drop (Z.to_nat target) (dc_list c)) n out).
Proof.
  intros I (od & Hf & Hp & Hr & Hpos & Hc) Hv Hseek Hget target. rewrite (file_at_eq _ _ _ Hf) in Hv.
  destruct (dwp_run _ _ _ _ _ Hseek (llseek_spec f offset origin s od I Hf)) as (Hun & od1 & Hf1 & Hd1 & Hres).
  destruct (Hres Hr) as (Hr1 & Ht & Hkeep). rewrite Hpos in *. destruct (Hkeep p c Hp Hc Hv) as [Hp1 Hc1].
  assert (Hat : at_position f p c target s1).
  { exists od1. split_and!; [done..| |done]. unfold target. destruct (seek_target _ _ _); by destruct Ht. }
  split; [destruct (seek_target _ _ _); by destruct Ht|]. intros Hlt.
  assert (Himp : reads_impure f s1 = false) by (unfold reads_impure; by rewrite (file_at_eq _ _ _ Hf1), Hr1).
  destruct (step_stream f p c target s1 (DRead f room) out s2) as (c' & n & Hat' & St); [apply Hun|done|done| |done|].
  - by apply (step_read s1 f room (inr (err, out)) s2); [exists od1|..].
  - exists c', n. split; [done|]. by rewrite bool_decide_eq_true_2 in St.
Qed.
End reading.

(** ** Witnesses *)

(** The overlay's dentries are searched; real directories are read whole. *)
#[export] Instance sim_dirvfs : DirVfs tree := {
  overlay_lookup s dir name :=
    inr (fst <$> head (List.filter (λ kv, (od_parent (snd kv) =? dir) && str_eqb (od_name (snd kv)) name) (map_to_list (vs_dentries s))));
  iterate_real_dir t d pos room :=
    let l := take room (drop (Z.to_nat pos) (sim_list t d)) in (l, pos + Z.of_nat (length l), 0);
  vfs_llseek t d pos offset origin := (offset, offset)
}.

Definition lower_paths (a b : Z) : list ovl_path := [OvlPath (sample_layer 1) a; OvlPath (sample_layer 2) b].
Definition stream_overlay : vstate tree :=
  VState sample_tree (sample_fs sample_ovl_config) 100
    {[ 100 := OvlDentry (lit "/") 100 true false (Some 200) false true false false (lower_paths 2 3);
       101 := OvlDentry (lit "etc") 100 true false (Some 201) false true false false (lower_paths 12 13);
       102 := OvlDentry (lit "passwd") 100 false true (Some 202) false false false false (lower_paths 32 33) ]}
    {[ 200 := OvlInode (Some 1) (Some (OvlPath (sample_layer 1) 2)) None None 0 false false true false true false;
       201 := OvlInode (Some 11) (Some (OvlPath (sample_layer 1) 12)) None None 0 false false true false true true;
       202 := OvlInode None (Some (OvlPath (sample_layer 1) 32)) None None 0 true false false false true true ]} false.

(** Two readers of the root; the second one starts when the first has read one
    entry, and then the directory changes. *)
Definition after {A} (m : D tree A) (s : dir_state tree) : dir_state tree := snd (m s).
Definition stream0 : dir_state tree := after (ovl_dir_open 0 100) (fresh_state stream_overlay).
Definition stream1 : dir_state tree := after (getdents sample_side 0 1) stream0.
Definition stream2 : dir_state tree := after (ovl_dir_open 1 100) stream1.
Definition stream3 : dir_state tree := after (getdents sample_side 1 5) stream2.
Definition stream4 : dir_state tree := set_ds_ovl (snd (ovl_dir_version_inc 100 false (ds_ovl stream3))) stream3.
Definition stream5 : dir_state tree := after (getdents sample_side 0 5) stream4.
Definition stream6 : dir_state tree := after (ovl_dir_release 1) stream5.

Lemma sample_open : dir_run sample_side (fresh_state stream_overlay) [(DOpen 0 100, [])] stream0.
Proof. eapply run_step; [|apply run_nil]. eapply step_open; [by vm_compute|apply surjective_pairing]. Qed.
Lemma stream0_inv : stream_inv stream0.
Proof. exact (run_inv _ _ _ _ (fresh_inv _) sample_open). Qed.
(** A read on one of the sample's states. *)
Lemma sample_read f room s out :
  bool_decide (is_Some (ds_files s !! f)) && negb (reads_impure f s) = true → read_out (fst (getdents sample_side f room s)) = out →
  dir_step sample_side s (DRead f room) out (after (getdents sample_side f room) s).
Proof.
  intros [H1%bool_decide_eq_true H2%negb_true_iff]%andb_true_iff <-. by eapply step_read; [..|apply surjective_pairing].
Qed.
Lemma sample_change : dir_step sample_side stream3 DOverlay [] stream4.
Proof.
  apply step_overlay. intros f od _. unfold inode_of, odentry_at. by vm_compute.
Qed.
Definition sample_events : list (dir_event * list dirent) :=
  [(DOpen 1 100, []); (DRead 1 5, read_out (fst (getdents sample_side 1 5 stream2))); (DOverlay, []);
   (DRead 0 5, read_out (fst (getdents sample_side 0 5 stream4)))].
Lemma sample_to_change : dir_run sample_side stream1 (take 3 sample_events) stream4.
Proof.
  eapply run_step; [eapply step_open; [by vm_compute|apply surjective_pairing]|].
  eapply run_step; [apply sample_read; [vm_compute; reflexivity|reflexivity]|].
  eapply run_step; [apply sample_change|apply run_nil].
Qed.
Lemma sample_run : dir_run sample_side stream1 sample_events stream5.
Proof.
  refine (run_app _ _ _ _ [_] _ sample_to_change _).
  eapply run_step; [apply sample_read; [vm_compute; reflexivity|reflexivity]|apply run_nil].
Qed.
Lemma sample_first : dir_run sample_side stream0 [(DRead 0 1, read_out (fst (getdents sample_side 0 1 stream0)))] stream1.
Proof. eapply run_step; [apply sample_read; [vm_compute; reflexivity|reflexivity]|apply run_nil]. Qed.
Definition refcounts (s : dir_state tree) : list Z := dc_refcount <$> (map_to_list (ds_caches s)).*2.


(** The first reader gets the listing that it started with, without the
    whiteout, in two parts. *)
Lemma ovl_dir_stream_snapshot_witness :
  let out := read_out (fst (getdents sample_side 0 1 stream0)) in
  dn_name <$> (out ++ reads_of 0 sample_events) = [lit "etc"; lit "passwd"] ∧
  ∃ c c' p pos, starts_with 100 stream0 c ∧ at_position 0 p c' (Z.of_nat pos) stream5 ∧
    streamed c c' (dc_list c) pos (out ++ reads_of 0 sample_events).
Proof.
  intros out. split; [vm_compute; reflexivity|].
  assert (E : ∃ od, ds_files stream0 !! 0%nat = Some od ∧ df_dentry od = 100 ∧ df_is_real od = false ∧ df_pos od = 0)
    by (eexists; split_and!; vm_compute; reflexivity).
  assert (E1 : ∃ od, ds_files stream1 !! 0%nat = Some od ∧ 0 < df_pos od) by (eexists; split; vm_compute; reflexivity).
  destruct E as (od & Hf & <- & Hr & Hz), E1 as (od1 & Hf1 & Hpos).
  refine (ovl_dir_stream_snapshot sample_side 0 1 stream0 od 0 out stream1 od1 sample_events stream5 stream0_inv Hf Hr Hz _ Hf1 Hpos sample_run _).
  - vm_compute. reflexivity.
  - repeat constructor; try done.
Defined.

Lemma stream4_inv : stream_inv stream4.
Proof. refine (run_inv _ _ _ _ stream0_inv (run_app _ _ _ _ _ _ sample_first sample_to_change)). Qed.
Lemma stream5_inv : stream_inv stream5.
Proof. refine (run_inv _ _ _ _ stream0_inv (run_app _ _ _ _ _ _ sample_first sample_run)). Qed.

(** Back to the second entry. *)
Lemma ovl_dir_seek_resumes_witness :
  let s1 := after (ovl_dir_llseek 0 1 SEEK_SET) stream5 in
  let out := read_out (fst (getdents sample_side 0 5 s1)) in
  dn_name <$> out = [lit "passwd"] ∧
  ∃ p c c' n, at_position 0 p c 3 stream5 ∧ at_position 0 p c' (1 + Z.of_nat n) (after (getdents sample_side 0 5) s1) ∧
    streamed c c' (drop 1 (dc_list c)) n out.
Proof.
  intros s1 out. split; [vm_compute; reflexivity|].
  assert (Hat : ∃ p c, at_position 0 p c 3 stream5).
  { eexists _, _, _. split_and!; vm_compute; reflexivity. }
  destruct Hat as (p & c & Hat). exists p, c.
  destruct (ovl_dir_seek_resumes sample_side 0 p c 3 1 SEEK_SET stream5 (inr 1) s1 5 0 out (after (getdents sample_side 0 5) s1)
    stream5_inv Hat) as [_ H].
  - done.
  - vm_compute. reflexivity.
  - vm_compute. reflexivity.
  - destruct H as (c' & n & H1 & H2); [vm_compute; reflexivity|]. exists c', n. split; [exact Hat|]. split; [exact H1|exact H2].
Defined.

