(* ===== verification/OvlWrite.v ===== *)
(** * Changing the layers (overlayfs.h, util.c)

    The kernel's calls that change a layer, the rest of the state of a mounted
    overlay, the monad of the functions that change it, and the part of util.c
    that they share.

    A call is a value ([wcall]); what the kernel makes of it is its own
    affair.  The inode of a directory is named by the directory's dentry.
    Credentials, locks that always succeed, reference counts, time stamps of
    revalidation and the flags of [d_flags] that only revalidation uses are
    not modelled. *)
From S2P Require Import Prelude CString OS OvlOptions OvlVfs OvlHandle OvlLookup OvlLayers OvlIno OvlDirFile.
Open Scope Z_scope.

Definition EMLINK : Z := 31.
Definition ENOTTY : Z := 25.
Definition ERANGE : Z := 34.
Definition ENXIO : Z := 6.
Definition EOVERFLOW : Z := 75.
Definition ENOIOCTLCMD : Z := 515.

(** ** Data *)

(** A [umode_t]: the format bits, if they are those of a file type, and the
    rest. *)
Record umode := UMode { m_fmt : option ftype; m_perm : Z }.
#[export] Instance umode_eq_dec : EqDecision umode.
Proof. solve_decision. Defined.
Definition has_fmt (f : ftype) (m : umode) : bool := bool_decide (m_fmt m = Some f).

(** The attributes that [ovl_copyattr] copies, of an inode. *)
Record attrs := Attrs { at_uid : Z; at_gid : Z; at_mode : umode; at_atime : Z; at_mtime : Z; at_ctime : Z; at_size : Z }.

(** The members of [struct kstat] that copying up uses. *)
Record cstat := CStat {
  cs_mode : umode; cs_rdev : Z; cs_nlink : Z; cs_uid : Z; cs_gid : Z; cs_size : Z; cs_atime : Z; cs_mtime : Z
}.
Definition set_cs_size (x : Z) (s : cstat) : cstat :=
  CStat (cs_mode s) (cs_rdev s) (cs_nlink s) (cs_uid s) (cs_gid s) x (cs_atime s) (cs_mtime s).

(** [struct iattr]: the flags of [ia_valid] and the values. *)
Record iattr := IAttr { ia_valid : Z; ia_mode : umode; ia_uid : Z; ia_gid : Z; ia_size : Z; ia_atime : Z; ia_mtime : Z }.
Definition no_mode : umode := UMode None 0.
Definition no_iattr (valid : Z) : iattr := IAttr valid no_mode 0 0 0 0 0.
Definition set_ia_valid (x : Z) (a : iattr) : iattr :=
  IAttr x (ia_mode a) (ia_uid a) (ia_gid a) (ia_size a) (ia_atime a) (ia_mtime a).
Definition ATTR_MODE : Z := 1.
Definition ATTR_UID : Z := 2.
Definition ATTR_GID : Z := 4.
Definition ATTR_SIZE : Z := 8.
Definition ATTR_ATIME : Z := 16.
Definition ATTR_MTIME : Z := 32.
Definition ATTR_CTIME : Z := 64.
Definition ATTR_ATIME_SET : Z := 128.
Definition ATTR_MTIME_SET : Z := 256.
Definition ATTR_KILL_SUID : Z := 2048.
Definition ATTR_KILL_SGID : Z := 4096.
Definition ATTR_FILE : Z := 8192.
Definition ATTR_OPEN : Z := 32768.

(** [struct fileattr]: [flags] and [fsx_xflags]. *)
Record fileattr := FileAttr { fa_flags : Z; fa_xflags : Z }.
Definition FS_SYNC_FL : Z := 8.
Definition FS_IMMUTABLE_FL : Z := 16.
Definition FS_APPEND_FL : Z := 32.
Definition FS_NOATIME_FL : Z := 128.
Definition FS_XFLAG_IMMUTABLE : Z := 8.
Definition FS_XFLAG_APPEND : Z := 16.
Definition FS_XFLAG_SYNC : Z := 32.
Definition FS_XFLAG_NOATIME : Z := 64.
(** Flags of [i_flags]. *)
Definition S_SYNC : Z := 1.
Definition S_NOATIME : Z := 2.
Definition S_APPEND : Z := 4.
Definition S_IMMUTABLE : Z := 8.
Definition S_NOCMTIME : Z := 128.
Definition OVL_COPY_I_FLAGS_MASK : Z := Z.lor (Z.lor S_SYNC S_NOATIME) (Z.lor S_APPEND S_IMMUTABLE).
Definition OVL_PROT_I_FLAGS_MASK : Z := Z.lor S_APPEND S_IMMUTABLE.
Definition OVL_COPY_FS_FLAGS_MASK : Z := Z.lor FS_SYNC_FL FS_NOATIME_FL.
Definition OVL_COPY_FSX_FLAGS_MASK : Z := Z.lor FS_XFLAG_SYNC FS_XFLAG_NOATIME.
Definition OVL_PROT_FS_FLAGS_MASK : Z := Z.lor FS_APPEND_FL FS_IMMUTABLE_FL.
Definition OVL_PROT_FSX_FLAGS_MASK : Z := Z.lor FS_XFLAG_APPEND FS_XFLAG_IMMUTABLE.

(** Flags of [rename]. *)
Definition RENAME_NOREPLACE : Z := 1.
Definition RENAME_EXCHANGE : Z := 2.
Definition RENAME_WHITEOUT : Z := 4.
Definition XATTR_CREATE : Z := 1.
Definition XATTR_REPLACE : Z := 2.
(** Flags of [open]. *)
Definition O_ACCMODE : Z := 3.
Definition O_WRONLY : Z := 1.
Definition O_TRUNC : Z := 512.
Definition FMODE_WRITE : Z := 2.
Definition MAY_OPEN : Z := 32.

(** ** The kernel *)

(** The calls that change a layer; directories come first. *)
Inductive wcall :=
| CRmdir (dir dentry : Z)
| CUnlink (dir dentry : Z)
| CLink (old dir new : Z)
| CCreate (dir dentry : Z) (mode : umode)
| CMkdir (dir dentry : Z) (mode : umode)
| CMknod (dir dentry : Z) (mode : umode) (rdev : Z)
| CSymlink (dir dentry : Z) (oldname : cstr)
| CRename (olddir old newdir new flags : Z)
| CWhiteout (dir dentry : Z)
| CNotify (dentry : Z) (attr : iattr)
| CSetxattr (dentry : Z) (name : cstr) (value : list ascii) (flags : Z)
| CFileattr (dentry : Z) (fa : fileattr)
| CFsync (dentry : Z).

Class VfsWrite (W : Type) := {
  vfs_write : W → wcall → Z * W;                          (** 0 or an error *)
  vfs_tmpfile : W → Z → umode → res Z * W;
  (** copying data: what was cloned; the bytes spliced *)
  clone_file_range : W → Z → Z → Z → Z * W;               (** from, to, length *)
  splice_direct : W → Z → Z → Z → Z → Z → Z * W;          (** from, its position, to, its position, length *)
  seek_data : W → Z → Z → Z;
  can_seek : W → Z → bool;
  signal_pending : W → bool * W;
  (** reading *)
  dentry_open : W → Z → Z → Z;                            (** 0 or an error *)
  stat_of : W → Z → res cstat;
  attrs_of : W → Z → attrs;                               (** of the inode of a real dentry *)
  i_flags_of : W → Z → Z;
  vfs_listxattr : W → Z → res (list ascii);
  iop_xattr : W → Z → bool;
  vfs_get_link : W → Z → res cstr;
  fileattr_get : W → Z → res fileattr;
  is_posixacl : W → Z → bool;
  lock_rename : W → Z → Z → option Z;                     (** the trap, or NULL *)
  (** the calling process *)
  current_umask : W → Z;
  id_mapped : W → Z → Z → bool;                           (** of a user and a group *)
  inode_lock_interruptible : W → Z * W;
  setattr_prepare : W → Z → iattr → Z;                    (** of an overlay inode *)
  get_write_access : W → Z → Z * W;
  (** security modules and access control lists, which are opaque *)
  security_dentry_create : W → umode → Z;
  security_inode_copy_up : W → Z → Z;
  security_inode_copy_up_xattr : W → cstr → Z;
  security_file_ioctl : W → Z → bool → Z;
  posix_acl_create : W → Z → umode → res (umode * option Z * option Z);   (** mode, default, access *)
  posix_acl_to_xattr : W → Z → res (list ascii);
  (** [inode_init_owner], for the directory's attributes *)
  init_owner : W → attrs → umode → umode
}.

(** ** The state *)

(** What the VFS keeps of an inode of the overlay. *)
Record winode := WInode { wi_mode : umode; wi_rdev : Z; wi_nlink : Z; wi_ino : Z; wi_attrs : attrs; wi_flags : Z }.
Definition no_attrs : attrs := Attrs 0 0 no_mode 0 0 0 0.
Definition null_winode : winode := WInode no_mode 0 0 0 no_attrs 0.
Definition set_wi_nlink (x : Z) (i : winode) : winode := WInode (wi_mode i) (wi_rdev i) x (wi_ino i) (wi_attrs i) (wi_flags i).
Definition set_wi_ino (x : Z) (i : winode) : winode := WInode (wi_mode i) (wi_rdev i) (wi_nlink i) x (wi_attrs i) (wi_flags i).
Definition set_wi_attrs (x : attrs) (i : winode) : winode :=
  WInode (at_mode x) (wi_rdev i) (wi_nlink i) (wi_ino i) x (wi_flags i).
Definition set_wi_flags (x : Z) (i : winode) : winode := WInode (wi_mode i) (wi_rdev i) (wi_nlink i) (wi_ino i) (wi_attrs i) x.
(** [inode_set_flags]. *)
Definition inode_set_flags (flags mask : Z) (i : winode) : winode :=
  set_wi_flags (Z.lor (Z.land (wi_flags i) (Z.lnot mask)) (Z.land flags mask)) i.

(** The objects of [OvlVfs], the rest of the super block, the counter of
    temporary names, the inodes of the overlay with the table that finds them
    by their real inode, and the overlay dentries that are unhashed. *)
Record wstate (W : Type) := WState {
  ws_ovl : vstate W;
  ws_workdir : option Z;
  ws_whiteout : option Z;
  ws_share_whiteout : bool;
  ws_tmpfile : bool;
  ws_temp_id : Z;
  ws_last_ino : Z;
  ws_inodes : gmap Z winode;
  ws_hash : gmap Z Z;
  ws_next_inode : Z;
  ws_unhashed : gset Z
}.
Arguments WState {W}.
Arguments ws_ovl {W}.
Arguments ws_workdir {W}.
Arguments ws_whiteout {W}.
Arguments ws_share_whiteout {W}.
Arguments ws_tmpfile {W}.
Arguments ws_temp_id {W}.
Arguments ws_last_ino {W}.
Arguments ws_inodes {W}.
Arguments ws_hash {W}.
Arguments ws_next_inode {W}.
Arguments ws_unhashed {W}.

Section monad.
Context {W : Type}.
Implicit Types s : wstate W.
Definition set_ws_ovl (x : vstate W) s : wstate W :=
  WState x (ws_workdir s) (ws_whiteout s) (ws_share_whiteout s) (ws_tmpfile s) (ws_temp_id s) (ws_last_ino s) (ws_inodes s) (ws_hash s) (ws_next_inode s) (ws_unhashed s).
Definition set_ws_whiteout (x : option Z) s : wstate W :=
  WState (ws_ovl s) (ws_workdir s) x (ws_share_whiteout s) (ws_tmpfile s) (ws_temp_id s) (ws_last_ino s) (ws_inodes s) (ws_hash s) (ws_next_inode s) (ws_unhashed s).
Definition set_ws_share_whiteout (x : bool) s : wstate W :=
  WState (ws_ovl s) (ws_workdir s) (ws_whiteout s) x (ws_tmpfile s) (ws_temp_id s) (ws_last_ino s) (ws_inodes s) (ws_hash s) (ws_next_inode s) (ws_unhashed s).
Definition set_ws_temp_id (x : Z) s : wstate W :=
  WState (ws_ovl s) (ws_workdir s) (ws_whiteout s) (ws_share_whiteout s) (ws_tmpfile s) x (ws_last_ino s) (ws_inodes s) (ws_hash s) (ws_next_inode s) (ws_unhashed s).
Definition set_ws_last_ino (x : Z) s : wstate W :=
  WState (ws_ovl s) (ws_workdir s) (ws_whiteout s) (ws_share_whiteout s) (ws_tmpfile s) (ws_temp_id s) x (ws_inodes s) (ws_hash s) (ws_next_inode s) (ws_unhashed s).
Definition set_ws_inodes (x : gmap Z winode) s : wstate W :=
  WState (ws_ovl s) (ws_workdir s) (ws_whiteout s) (ws_share_whiteout s) (ws_tmpfile s) (ws_temp_id s) (ws_last_ino s) x (ws_hash s) (ws_next_inode s) (ws_unhashed s).
Definition set_ws_hash (x : gmap Z Z) s : wstate W :=
  WState (ws_ovl s) (ws_workdir s) (ws_whiteout s) (ws_share_whiteout s) (ws_tmpfile s) (ws_temp_id s) (ws_last_ino s) (ws_inodes s) x (ws_next_inode s) (ws_unhashed s).
Definition set_ws_next_inode (x : Z) s : wstate W :=
  WState (ws_ovl s) (ws_workdir s) (ws_whiteout s) (ws_share_whiteout s) (ws_tmpfile s) (ws_temp_id s) (ws_last_ino s) (ws_inodes s) (ws_hash s) x (ws_unhashed s).
Definition set_ws_unhashed (x : gset Z) s : wstate W :=
  WState (ws_ovl s) (ws_workdir s) (ws_whiteout s) (ws_share_whiteout s) (ws_tmpfile s) (ws_temp_id s) (ws_last_ino s) (ws_inodes s) (ws_hash s) (ws_next_inode s) x.
Definition ws_world s : W := vs_world (ws_ovl s).

(** A function that returns a pointer gives it or its error; one that returns
    an [int] gives that. *)
Definition U (A : Type) : Type := wstate W → res A * wstate W.
Definition uret {A} (a : A) : U A := λ s, (inr a, s).
Definition ufail {A} (e : Z) : U A := λ s, (inl e, s).
Definition ubind {A B} (m : U A) (f : A → U B) : U B :=
  λ s, let '(r, s') := m s in match r with inl e => (inl e, s') | inr a => f a s' end.
Definition uget {A} (f : wstate W → A) : U A := λ s, (inr (f s), s).
Definition uupdate (f : wstate W → wstate W) : U unit := λ s, (inr tt, f s).
(** The functions of the other components. *)
Definition ulift {A} (m : V W A) : U A := λ s, let '(r, v) := m (ws_ovl s) in (r, set_ws_ovl v s).
Definition uwarn (b : bool) : U bool := ulift (warn_on b).
Definition ucall (f : W → Z * W) : U Z := ulift (vcall f).
Definition uread {A} (f : W → A) : U A := uget (λ s, f (ws_world s)).
(** The caller tests the pointer, or the [int]. *)
Definition utry {A B} (m : U A) (bad : Z → U B) (k : A → U B) : U B :=
  λ s, let '(r, s') := m s in match r with inl e => bad e s' | inr a => k a s' end.
Definition ucheck {B} (m : U Z) (bad : Z → U B) (k : U B) : U B :=
  ubind m (λ err, if err =? 0 then k else bad err).
(** An [int] of another component, whose errors may be in the result. *)
Definition uint (m : V W Z) : U Z := utry (ulift m) uret uret.
End monad.
Arguments U : clear implicits.

Notation "'let!' x := m 'in' k" := (ubind m (fun x => k)) (at level 10, x pattern, k at level 200) : ovl_scope.
Notation "m ;;! k" := (ubind m (fun _ => k)) (at level 100, k at level 200, right associativity) : ovl_scope.
Notation "'try!' x := m 'else!' bad 'in' k" := (utry m bad (fun x => k)) (at level 10, x pattern, m at level 100, bad at level 100, k at level 200) : ovl_scope.
Notation "'ok!' m 'else!' bad ';;!' k" := (ucheck m bad k) (at level 10, m at level 99, bad at level 99, k at level 200) : ovl_scope.

(** ** The calls as the module makes them *)

Section calls.
Context {W : Type} {K : Vfs W} {VS : VfsStat W} {VW : VfsWrite W}.

Definition uwrite (c : wcall) : U W Z := ucall (λ w, vfs_write w c).
Definition ovl_do_rmdir (dir dentry : Z) : U W Z := uwrite (CRmdir dir dentry).
Definition ovl_do_unlink (dir dentry : Z) : U W Z := uwrite (CUnlink dir dentry).
Definition ovl_do_link (old dir new : Z) : U W Z := uwrite (CLink old dir new).
Definition ovl_do_create (dir dentry : Z) (mode : umode) : U W Z := uwrite (CCreate dir dentry mode).
Definition ovl_do_mkdir (dir dentry : Z) (mode : umode) : U W Z := uwrite (CMkdir dir dentry mode).
Definition ovl_do_mknod (dir dentry : Z) (mode : umode) (rdev : Z) : U W Z := uwrite (CMknod dir dentry mode rdev).
Definition ovl_do_symlink (dir dentry : Z) (oldname : cstr) : U W Z := uwrite (CSymlink dir dentry oldname).
Definition ovl_do_rename (olddir old newdir new flags : Z) : U W Z := uwrite (CRename olddir old newdir new flags).
Definition ovl_do_whiteout (dir dentry : Z) : U W Z := uwrite (CWhiteout dir dentry).
Definition ovl_do_tmpfile (dir : Z) (mode : umode) : U W Z :=
  λ s, let '(r, w) := vfs_tmpfile (ws_world s) dir mode in (r, set_ws_ovl (set_vs_world w (ws_ovl s)) s).
Definition ovl_do_getxattr (dentry : Z) (name : cstr) : U W (res (list ascii)) := uread (λ w, getxattr w dentry name).
(** Without flags this is the call of [Vfs]. *)
Definition ovl_do_setxattr (dentry : Z) (name : cstr) (value : list ascii) (flags : Z) : U W Z :=
  if flags =? 0 then ucall (λ w, vfs_setxattr w dentry name value) else uwrite (CSetxattr dentry name value flags).
Definition ovl_do_removexattr (dentry : Z) (name : cstr) : U W Z := ucall (λ w, vfs_removexattr w dentry name).
Definition notify_change (dentry : Z) (attr : iattr) : U W Z := uwrite (CNotify dentry attr).
(** [lookup_one_len]. *)
Definition ulookup (name : cstr) (base : Z) : U W Z := λ s, (lookup_one (ws_world s) base name, s).
Definition udentry (d : Z) : U W dentry_info := uread (λ w, dentry_of w d).
Definition ukmalloc : U W bool := ulift (λ s, let '(b, w) := kmalloc (vs_world s) in (inr b, set_vs_world w s)).

Definition ovl_open_flags_need_copy_up (flags : Z) : bool :=
  if flags =? 0 then false
  else negb (Z.land (Z.land (flags + 1) O_ACCMODE) FMODE_WRITE =? 0) || negb (Z.land flags O_TRUNC =? 0).

(** ** util.c *)

Definition uovl {A} (f : vstate W → A) : U W A := uget (λ s, f (ws_ovl s)).
Definition ovl_workdir : U W (option Z) := uget ws_workdir.

(** [write] is [O_WRONLY] rather than [O_RDONLY]. *)
Definition ovl_path_open (dentry : Z) (write : bool) : U W Z :=
  let acc_mode := if write then MAY_WRITE else MAY_READ in
  let! err := uread (λ w, inode_permission w dentry (Z.lor acc_mode MAY_OPEN)) in
  if negb (err =? 0) then uret err else uread (λ w, dentry_open w dentry (if write then O_WRONLY else 0)).

(** Flags of overlay dentries. *)
Definition set_od_opaque (d : ovl_dentry) : ovl_dentry :=
  OvlDentry (od_name d) (od_parent d) (od_is_dir d) (od_is_reg d) (od_inode d) (od_disconnected d)
    (OVL_E_UPPER_ALIAS d) true (OVL_E_CONNECTED d) (od_lowerstack d).
Definition set_od_upper_alias (d : ovl_dentry) : ovl_dentry :=
  OvlDentry (od_name d) (od_parent d) (od_is_dir d) (od_is_reg d) (od_inode d) (od_disconnected d)
    true (OVL_E_OPAQUE d) (OVL_E_CONNECTED d) (od_lowerstack d).
Definition ovl_dentry_is_opaque (dentry : Z) (s : vstate W) : bool := OVL_E_OPAQUE (odentry_at dentry s).
Definition ovl_dentry_is_whiteout (dentry : Z) (s : vstate W) : bool :=
  is_none (od_inode (odentry_at dentry s)) && ovl_dentry_is_opaque dentry s.
Definition ovl_dentry_has_upper_alias (dentry : Z) (s : vstate W) : bool := OVL_E_UPPER_ALIAS (odentry_at dentry s).
Definition ovl_dentry_set_opaque (dentry : Z) : V W unit := update_dentry set_od_opaque dentry.
Definition ovl_dentry_set_upper_alias (dentry : Z) : V W unit := update_dentry set_od_upper_alias dentry.

(** Members of overlay inodes. *)
Definition set_oi_upperdentry (x : option Z) (i : ovl_inode) : ovl_inode :=
  OvlInode x (oi_lowerpath i) (oi_lowerdata i) (oi_redirect i) (oi_version i) (oi_is_reg i)
    (OVL_IMPURE i) (OVL_WHITEOUTS i) (OVL_INDEX i) (OVL_UPPERDATA i) (OVL_CONST_INO i).
Definition set_oi_redirect (x : option cstr) (i : ovl_inode) : ovl_inode :=
  OvlInode (oi_upperdentry i) (oi_lowerpath i) (oi_lowerdata i) x (oi_version i) (oi_is_reg i)
    (OVL_IMPURE i) (OVL_WHITEOUTS i) (OVL_INDEX i) (OVL_UPPERDATA i) (OVL_CONST_INO i).
Definition set_whiteouts_flag (i : ovl_inode) : ovl_inode :=
  OvlInode (oi_upperdentry i) (oi_lowerpath i) (oi_lowerdata i) (oi_redirect i) (oi_version i) (oi_is_reg i)
    (OVL_IMPURE i) true (OVL_INDEX i) (OVL_UPPERDATA i) (OVL_CONST_INO i).
Definition set_index_flag (i : ovl_inode) : ovl_inode :=
  OvlInode (oi_upperdentry i) (oi_lowerpath i) (oi_lowerdata i) (oi_redirect i) (oi_version i) (oi_is_reg i)
    (OVL_IMPURE i) (OVL_WHITEOUTS i) true (OVL_UPPERDATA i) (OVL_CONST_INO i).
Definition set_upperdata_flag (i : ovl_inode) : ovl_inode :=
  OvlInode (oi_upperdentry i) (oi_lowerpath i) (oi_lowerdata i) (oi_redirect i) (oi_version i) (oi_is_reg i)
    (OVL_IMPURE i) (OVL_WHITEOUTS i) (OVL_INDEX i) true (OVL_CONST_INO i).
Definition set_const_ino_flag (i : ovl_inode) : ovl_inode :=
  OvlInode (oi_upperdentry i) (oi_lowerpath i) (oi_lowerdata i) (oi_redirect i) (oi_version i) (oi_is_reg i)
    (OVL_IMPURE i) (OVL_WHITEOUTS i) (OVL_INDEX i) (OVL_UPPERDATA i) true.
Definition ovl_set_upperdata (dentry : Z) : V W unit := update_inode set_upperdata_flag dentry.
Definition ovl_dentry_get_redirect (dentry : Z) (s : vstate W) : option cstr :=
  match d_inode dentry s with Some i => oi_redirect i | None => None end.
Definition ovl_dentry_set_redirect (dentry : Z) (redirect : cstr) : V W unit :=
  update_inode (set_oi_redirect (Some redirect)) dentry.

Definition ovl_dentry_needs_data_copy_up_locked (dentry flags : Z) (s : vstate W) : bool :=
  if negb (ovl_open_flags_need_copy_up flags) then false else negb (test_inode OVL_UPPERDATA dentry s).
Definition ovl_dentry_needs_data_copy_up (dentry flags : Z) (s : vstate W) : bool :=
  if negb (ovl_open_flags_need_copy_up flags) then false else negb (test_inode ovl_has_upperdata dentry s).
Definition ovl_already_copied_up_locked (dentry flags : Z) (s : vstate W) : bool :=
  negb (is_none (ovl_dentry_upper dentry s)) &&
  (ovl_dentry_has_upper_alias dentry s || od_disconnected (odentry_at dentry s)) &&
  negb (ovl_dentry_needs_data_copy_up_locked dentry flags s).
Definition ovl_already_copied_up (dentry flags : Z) (s : vstate W) : bool :=
  negb (is_none (ovl_dentry_upper dentry s)) &&
  (ovl_dentry_has_upper_alias dentry s || od_disconnected (odentry_at dentry s)) &&
  negb (ovl_dentry_needs_data_copy_up dentry flags s).
(** 1: somebody else has copied it up in the meantime. *)
Definition ovl_copy_up_start (dentry flags : Z) : U W Z :=
  let! err := ucall inode_lock_interruptible in
  let! already := uovl (ovl_already_copied_up_locked dentry flags) in
  uret (if (err =? 0) && already then 1 else err).

(** The inodes of the overlay. *)
Definition winode_at (inode : Z) (s : wstate W) : winode := default null_winode (ws_inodes s !! inode).
Definition update_winode (inode : Z) (f : winode → winode) : U W unit :=
  uupdate (λ s, set_ws_inodes (<[inode := f (winode_at inode s)]> (ws_inodes s)) s).
Definition uinode (dentry : Z) : U W Z := uovl (λ s, default 0 (od_inode (odentry_at dentry s))).
(** [ovl_i_path_real]. *)
Definition ovl_i_path_real (inode : Z) (s : vstate W) : option Z :=
  match oi_upperdentry (oinode_at inode s) with
  | Some d => Some d
  | None => p_dentry <$> oi_lowerpath (oinode_at inode s)
  end.
Definition ovl_copyattr (inode : Z) : U W unit :=
  let! real := uovl (ovl_i_path_real inode) in
  let! attrs := uread (λ w, attrs_of w (default 0 real)) in
  update_winode inode (set_wi_attrs attrs).

Definition ovl_inode_update (inode upperdentry : Z) : U W unit :=
  let! i := uovl (oinode_at inode) in
  uwarn (negb (is_none (oi_upperdentry i))) ;;!
  ulift (vupdate (λ s, set_vs_inodes (<[inode := set_oi_upperdentry (Some upperdentry) (oinode_at inode s)]> (vs_inodes s)) s)) ;;!
  let! upper := udentry upperdentry in
  let! hashed := uget (λ s, existsb (λ kv, snd kv =? inode) (map_to_list (ws_hash s))) in
  match hashed : bool, de_inode upper with
  | false, Some i => uupdate (λ s, set_ws_hash (<[i_addr i := inode]> (ws_hash s)) s)
  | _, _ => uret tt
  end.

Definition ovl_dir_modified (dentry : Z) (impurity : bool) : U W unit :=
  let! inode := uinode dentry in
  ovl_copyattr inode ;;! ulift (ovl_dir_version_inc dentry impurity).

(** [d_drop]. *)
Definition d_drop (dentry : Z) : U W unit := uupdate (λ s, set_ws_unhashed ({[dentry]} ∪ ws_unhashed s) s).

Definition ovl_lock_rename_workdir (workdir upperdir : Z) : U W Z :=
  if workdir =? upperdir then uret (- EIO)
  else let! trap := uread (λ w, lock_rename w workdir upperdir) in
       uret (match trap with Some _ => - EIO | None => 0 end).
End calls.

(** ** Runs *)

Section runs.
Context {W A B : Type}.
Lemma ubind_inr (m : U W A) (f : A → U W B) s b s' :
  ubind m f s = (inr b, s') → ∃ a s1, m s = (inr a, s1) ∧ f a s1 = (inr b, s').
Proof. unfold ubind. destruct (m s) as [[e|a] s1]; [done|eauto]. Qed.
Lemma utry_inr (m : U W A) (bad : Z → U W B) (k : A → U W B) s r s' :
  utry m bad k s = (r, s') →
  (∃ e s1, m s = (inl e, s1) ∧ bad e s1 = (r, s')) ∨ (∃ a s1, m s = (inr a, s1) ∧ k a s1 = (r, s')).
Proof. unfold utry. destruct (m s) as [[e|a] s1]; [left|right]; eauto. Qed.
End runs.
Lemma ucheck_inr {W B} (m : U W Z) (bad : Z → U W B) (k : U W B) s b s' :
  ucheck m bad k s = (inr b, s') →
  ∃ err s1, m s = (inr err, s1) ∧ ((err = 0 ∧ k s1 = (inr b, s')) ∨ (err ≠ 0 ∧ bad err s1 = (inr b, s'))).
Proof.
  intros (err & s1 & Hm & H)%ubind_inr. exists err, s1. split; [done|]. destruct (Z.eqb_spec err 0); auto.
Qed.
