(* ===== verification/OvlTemp.v ===== *)
(** * Temporary files and whiteouts (dir.c)

    New files are prepared in the work directory under names that nobody uses,
    and moved to their place; removed ones are moved there and deleted. *)
From S2P Require Import Prelude CString OS OvlOptions OvlVfs OvlHandle OvlLookup OvlLayers OvlIno OvlDirFile OvlWrite.
Open Scope Z_scope.

(** [%x] of an [unsigned int]. *)
Definition xdigit (n : Z) : ascii := byte_of (if n <? 10 then 48 + n else 87 + n).
Fixpoint hex_digits (fuel : nat) (z : Z) (acc : cstr) : cstr :=
  match fuel with
  | O => acc
  | S fuel => let acc := xdigit (z mod 16) :: acc in if z / 16 =? 0 then acc else hex_digits fuel (z / 16) acc
  end.
Definition temp_name (id : Z) : cstr := "#"%char :: hex_digits 8 (to_uint32 id) [].

(** [struct ovl_cattr]; [c_link] is the text of a symbolic link. *)
Record ovl_cattr := OvlCattr { c_rdev : Z; c_mode : umode; c_link : cstr; c_hardlink : option Z }.
Definition OVL_CATTR (m : umode) : ovl_cattr := OvlCattr 0 m [] None.
Definition set_c_mode (m : umode) (a : ovl_cattr) : ovl_cattr := OvlCattr (c_rdev a) m (c_link a) (c_hardlink a).

Section temp.
Context {W : Type} {K : Vfs W} {VS : VfsStat W} {VW : VfsWrite W}.

(** 0 or an error. *)
Definition ovl_cleanup (wdir wdentry : Z) : U W Z :=
  let! d := udentry wdentry in
  if d_is_dir d then ovl_do_rmdir wdir wdentry else ovl_do_unlink wdir wdentry.

Definition ovl_lookup_temp (workdir : Z) : U W Z :=
  let! id := uget (λ s, to_int32 (ws_temp_id s + 1)) in
  uupdate (set_ws_temp_id id) ;;!
  let! temp := ulookup (temp_name id) workdir in
  let! d := udentry temp in
  match de_inode d with Some _ => ufail (- EIO) | None => uret temp end.

(** The whiteout that is kept for the next time is given away unless it can be
    linked. *)
Definition ovl_whiteout : U W Z :=
  let! wd := ovl_workdir in
  let workdir := default 0 wd in
  let! kept := uget ws_whiteout in
  (match kept with
   | Some _ => uret tt
   | None =>
     let! whiteout := ovl_lookup_temp workdir in
     ok! ovl_do_whiteout workdir whiteout else! ufail ;;!
     uupdate (set_ws_whiteout (Some whiteout))
   end) ;;!
  let! kept := uget ws_whiteout in
  let take := uupdate (set_ws_whiteout None) ;;! uret (default 0 kept) in
  let! share := uget ws_share_whiteout in
  if share : bool then
    let! whiteout := ovl_lookup_temp workdir in
    let! err := ovl_do_link (default 0 kept) workdir whiteout in
    if err =? 0 then uret whiteout
    else (if negb (err =? - EMLINK) then uupdate (set_ws_share_whiteout false) else uret tt) ;;! take
  else take.

(** [dir] is the directory of [dentry]. *)
Definition ovl_cleanup_and_whiteout (dir dentry : Z) : U W Z :=
  let! wd := ovl_workdir in
  let wdir := default 0 wd in
  try! whiteout := ovl_whiteout else! uret in
  let! d := udentry dentry in
  let flags := if d_is_dir d then RENAME_EXCHANGE else 0 in
  ok! ovl_do_rename wdir whiteout dir dentry flags else! (λ err, ovl_cleanup wdir whiteout ;;! uret err) ;;!
  (if negb (flags =? 0) then ovl_cleanup wdir dentry ;;! uret tt else uret tt) ;;!
  uret 0.

(** The error and the dentry of the directory that was made. *)
Definition ovl_mkdir_real (dir newdentry : Z) (mode : umode) : U W (Z * Z) :=
  let! err := ovl_do_mkdir dir newdentry mode in
  if negb (err =? 0) then uret (err, newdentry)
  else
    let! d := udentry newdentry in
    if negb (de_unhashed d) then uret (0, newdentry)
    else
      try! d := ulookup (de_name d) (de_parent d) else! (λ err, uret (err, newdentry)) in
      uret (0, d).

(** The argument may be the error of a lookup. *)
Definition ovl_create_real (dir : Z) (newdentry : res Z) (attr : ovl_cattr) : U W Z :=
  match newdentry with
  | inl e => ufail e
  | inr newdentry =>
    let! d := udentry newdentry in
    match de_inode d with
    | Some _ => ufail (- ESTALE)
    | None =>
      let! p :=
        match c_hardlink attr with
        | Some old => let! err := ovl_do_link old dir newdentry in uret (err, newdentry)
        | None =>
          match m_fmt (c_mode attr) with
          | Some S_IFREG => let! err := ovl_do_create dir newdentry (c_mode attr) in uret (err, newdentry)
          | Some S_IFDIR => ovl_mkdir_real dir newdentry (c_mode attr)
          | Some (S_IFCHR | S_IFBLK | S_IFIFO | S_IFSOCK) =>
            let! err := ovl_do_mknod dir newdentry (c_mode attr) (c_rdev attr) in uret (err, newdentry)
          | Some S_IFLNK => let! err := ovl_do_symlink dir newdentry (c_link attr) in uret (err, newdentry)
          | None => uret (- EPERM, newdentry)
          end
        end in
      let '(err, newdentry) := p in
      if negb (err =? 0) then ufail err
      else
        let! d := udentry newdentry in
        let! bad := uwarn (is_none (de_inode d)) in
        if bad : bool then ufail (- EIO) else uret newdentry
    end
  end.

(** [ovl_lookup_temp] fails with an error that [ovl_create_real] passes on. *)
Definition ovl_create_temp (workdir : Z) (attr : ovl_cattr) : U W Z :=
  let! temp := utry (ovl_lookup_temp workdir) (λ e, uret (inl e)) (λ d, uret (inr d)) in
  ovl_create_real workdir temp attr.

Definition ovl_set_opaque_xerr (dentry upper xerr : Z) : U W Z :=
  ok! ulift (ovl_check_setxattr upper OVL_XATTR_OPAQUE (lit "y") xerr) else! uret ;;!
  ulift (ovl_dentry_set_opaque dentry) ;;! uret 0.
Definition ovl_set_opaque (dentry upperdentry : Z) : U W Z := ovl_set_opaque_xerr dentry upperdentry (- EIO).
End temp.
