(* ===== verification/OvlInode.v ===== *)
(** * The inodes of the overlay (inode.c, util.c)

    An inode of the overlay is found by the real inode that it stands for: of
    the upper file, or of the lower one while there is none.  One real inode
    has one inode of the overlay, and what is found is checked against the
    dentries that it is wanted for. *)
From S2P Require Import Prelude CString OS OvlOptions OvlVfs OvlHandle OvlLogic OvlLookup OvlLayers OvlIno OvlDirFile OvlWrite OvlTemp.
Open Scope Z_scope.

(** [struct ovl_inode_params]. *)
Record ovl_inode_params := Oip {
  oip_newinode : option Z;
  oip_upperdentry : option Z;
  oip_lowerpath : option ovl_path;
  oip_index : bool;
  oip_numlower : Z;
  oip_redirect : option cstr;
  oip_lowerdata : option Z
}.

Section inodes.
Context {W : Type} {K : Vfs W} {VS : VfsStat W} {VW : VfsWrite W} (v : vfs_side).
Implicit Types s : wstate W.

(** ** Protection flags that are kept in an attribute *)

(** The loop over the [n]-th byte on: the flags, and whether it stopped early. *)
Fixpoint protattr_flags (buf : list ascii) (iflags : Z) : Z * bool :=
  match buf with
  | [] => (iflags, false)
  | c :: buf' =>
    if char_eqb c "a" then protattr_flags buf' (Z.lor iflags S_APPEND)
    else if char_eqb c "i" then protattr_flags buf' (Z.lor iflags S_IMMUTABLE)
    else (iflags, true)
  end.
Definition OVL_PROTATTR_MAX : Z := 32.
Definition ovl_check_protattr (inode upper : Z) : U W unit :=
  let! i := uget (winode_at inode) in
  let! r := ulift (ovl_getxattr upper OVL_XATTR_PROTATTR) in
  match r with
  | inl _ => uret tt
  | inr buf =>
    if OVL_PROTATTR_MAX <? Z.of_nat (length buf) then uret tt
    else
      let '(iflags, early) := protattr_flags buf (Z.land (wi_flags i) OVL_PROT_I_FLAGS_MASK) in
      if negb (nonempty buf) || early then uret tt
      else update_winode inode (inode_set_flags iflags OVL_PROT_I_FLAGS_MASK)
  end.

(** The error and the flags that are left for the upper inode. *)
Definition ovl_set_protattr (inode upper : Z) (fa : fileattr) : U W (Z * fileattr) :=
  let append := negb (Z.land (fa_flags fa) FS_APPEND_FL =? 0) in
  let immutable := negb (Z.land (fa_flags fa) FS_IMMUTABLE_FL =? 0) in
  let buf := (if append then lit "a" else []) ++ (if immutable then lit "i" else []) in
  let iflags := Z.lor (if append then S_APPEND else 0) (if immutable then S_IMMUTABLE else 0) in
  let! i := uget (winode_at inode) in
  let! err :=
    (if nonempty buf then ulift (ovl_check_setxattr upper OVL_XATTR_PROTATTR buf (- EPERM))
     else if negb (Z.land (wi_flags i) OVL_PROT_I_FLAGS_MASK =? 0) then
       let! err := ulift (ovl_removexattr upper OVL_XATTR_PROTATTR) in
       uret (if (err =? - EOPNOTSUPP) || (err =? - ENODATA) then 0 else err)
     else uret 0) in
  if negb (err =? 0) then uret (err, fa)
  else
    update_winode inode (inode_set_flags iflags OVL_PROT_I_FLAGS_MASK) ;;!
    uret (0, FileAttr (Z.land (fa_flags fa) (Z.lnot OVL_PROT_FS_FLAGS_MASK)) (Z.land (fa_xflags fa) (Z.lnot OVL_PROT_FSX_FLAGS_MASK))).

(** ** Finding an inode *)

(** The real inode of a dentry. *)
Definition real_inode (w : W) (d : option Z) : option Z :=
  match d with Some d => i_addr <$> de_inode (dentry_of w d) | None => None end.
Definition ovl_inode_upper (i : ovl_inode) (w : W) : option Z := real_inode w (oi_upperdentry i).
Definition ovl_inode_lower (i : ovl_inode) (w : W) : option Z := real_inode w (p_dentry <$> oi_lowerpath i).

Definition ovl_verify_inode (i : ovl_inode) (is_dir : bool) (lowerdentry upperdentry : option Z) (strict : bool) (w : W) : bool :=
  if is_dir && strict &&
     ((is_none lowerdentry && negb (is_none (ovl_inode_lower i w))) ||
      (is_none upperdentry && negb (is_none (ovl_inode_upper i w)))) then false
  else if negb (is_none lowerdentry) && negb (bool_decide (ovl_inode_lower i w = real_inode w lowerdentry)) then false
  else if negb (is_none upperdentry) && negb (bool_decide (ovl_inode_upper i w = real_inode w upperdentry)) then false
  else true.

(** What the table has for a real inode: an inode of the overlay, or a trap,
    which is a directory without real dentries. *)
Inductive found_inode := FoundInode (inode : Z) | FoundTrap.
Definition ilookup5 (key : Z) s : option found_inode :=
  if bool_decide (key ∈ ofs_traps (vs_fs (ws_ovl s))) then Some FoundTrap
  else FoundInode <$> ws_hash s !! key.
Definition verify_found (f : found_inode) (lowerdentry upperdentry : option Z) (strict : bool) s : bool :=
  match f with
  | FoundInode i =>
    ovl_verify_inode (oinode_at i (ws_ovl s)) (has_fmt S_IFDIR (wi_mode (winode_at i s))) lowerdentry upperdentry strict (ws_world s)
  | FoundTrap => ovl_verify_inode null_inode true lowerdentry upperdentry strict (ws_world s)
  end.

(** [None] is NULL. *)
Definition ovl_lookup_inode (real : Z) (is_upper : bool) : U W (option Z) := λ s,
  match real_inode (ws_world s) (Some real) with
  | None => (inr None, s)
  | Some key =>
    match ilookup5 key s with
    | None => (inr None, s)
    | Some f =>
      if negb (verify_found f (if is_upper then None else Some real) (if is_upper then Some real else None) false s)
      then (inl (- ESTALE), s)
      else (inr (match f with FoundInode i => Some i | FoundTrap => None end), s)
    end
  end.

Definition ovl_hash_bylower (upper lower : option Z) (index : bool) s : bool :=
  let w := ws_world s in
  let ofs := vs_fs (ws_ovl s) in
  match lower with
  | None => false
  | Some l =>
    if index then true
    else if is_none (ofs_upper_mnt ofs) then true
    else if (negb (is_none upper) || is_none (ofs_indexdir ofs)) && negb (d_is_dir (dentry_of w l)) &&
            (1 <? from_option i_nlink 0 (de_inode (dentry_of w l))) then false
    else if c_nfs_export (ofs_config ofs) && negb (is_none upper) then false
    else true
  end.

(** ** Making an inode *)

(** [new_inode] and [ovl_alloc_inode]; [None] is NULL. *)
Definition new_inode : U W (option Z) :=
  let! ok := ukmalloc in
  if negb ok then uret None
  else
    λ s, (inr (Some (ws_next_inode s)),
          set_ws_next_inode (ws_next_inode s + 1)
            (set_ws_inodes (<[ws_next_inode s := null_winode]> (ws_inodes s))
              (set_ws_ovl (set_vs_inodes (<[ws_next_inode s := null_inode]> (vs_inodes (ws_ovl s))) (ws_ovl s)) s))).

Definition update_oinode (inode : Z) (f : ovl_inode → ovl_inode) : U W unit :=
  ulift (vupdate (λ o, set_vs_inodes (<[inode := f (oinode_at inode o)]> (vs_inodes o)) o)).
Definition set_oi_is_reg (b : bool) (i : ovl_inode) : ovl_inode :=
  OvlInode (oi_upperdentry i) (oi_lowerpath i) (oi_lowerdata i) (oi_redirect i) (oi_version i) b
    (OVL_IMPURE i) (OVL_WHITEOUTS i) (OVL_INDEX i) (OVL_UPPERDATA i) (OVL_CONST_INO i).
Definition set_oi_lower (lowerpath : option ovl_path) (lowerdata : option Z) (i : ovl_inode) : ovl_inode :=
  OvlInode (oi_upperdentry i) lowerpath lowerdata (oi_redirect i) (oi_version i) (oi_is_reg i)
    (OVL_IMPURE i) (OVL_WHITEOUTS i) (OVL_INDEX i) (OVL_UPPERDATA i) (OVL_CONST_INO i).

(** The mode says which operations the inode has. *)
Definition ovl_fill_inode (inode : Z) (mode : umode) (rdev : Z) : U W unit :=
  update_winode inode (λ i, WInode mode rdev (wi_nlink i) (wi_ino i) (wi_attrs i) (Z.lor (wi_flags i) S_NOCMTIME)) ;;!
  update_oinode inode (set_oi_is_reg (has_fmt S_IFREG mode)).

Definition ovl_new_inode (mode : umode) (rdev : Z) : U W (option Z) :=
  let! i := new_inode in
  match i with
  | None => uret None
  | Some inode => ovl_fill_inode inode mode rdev ;;! uret (Some inode)
  end.

Definition ovl_inode_init (inode : Z) (oip : ovl_inode_params) (ino fsid : Z) : U W unit :=
  update_oinode inode (λ i,
    let i := match oip_upperdentry oip with Some u => set_oi_upperdentry (Some u) i | None => i end in
    set_oi_lower (match oip_lowerpath oip with Some p => Some p | None => oi_lowerpath i end)
      (match oip_lowerdata oip with Some d => Some d | None => oi_lowerdata i end) i) ;;!
  ovl_copyattr inode ;;!
  let! real := uovl (ovl_i_path_real inode) in
  let! flags := uread (λ w, i_flags_of w (default 0 real)) in
  update_winode inode (inode_set_flags flags OVL_COPY_I_FLAGS_MASK) ;;!
  let! i := uget (winode_at inode) in
  let! fs := uovl vs_fs in
  let! last := uget ws_last_ino in
  let '(i_ino, last) := ovl_map_ino fs (has_fmt S_IFDIR (wi_mode i)) ino fsid last in
  uupdate (set_ws_last_ino last) ;;! update_winode inode (set_wi_ino i_ino).

(** [inode_insert5] or [iget5_locked]: the inode and whether it is new.  The
    steps are not interleaved, so nobody else is creating the inode. *)
Definition ovl_iget5 (newinode : option Z) (key : Z) : U W (option (found_inode * bool)) :=
  let! found := uget (ilookup5 key) in
  match found with
  | Some f => uret (Some (f, false))
  | None =>
    let! new := match newinode with Some i => uret (Some i) | None => new_inode end in
    match new with
    | None => uret None
    | Some i => uupdate (λ s, set_ws_hash (<[key := i]> (ws_hash s)) s) ;;! uret (Some (FoundInode i, true))
    end
  end.

(** The flags of a new inode. *)
Definition init_inode (inode : Z) (oip : ovl_inode_params) (bylower is_dir : bool) (rdev : Z) (mode : umode) (ino fsid : Z) : U W Z :=
  let upperdentry := oip_upperdentry oip in
  let lowerdentry := p_dentry <$> oip_lowerpath oip in
  ovl_fill_inode inode mode rdev ;;!
  ovl_inode_init inode oip ino fsid ;;!
  let! impure := match upperdentry with Some u => ulift (ovl_is_impuredir u) | None => uret false end in
  (if impure : bool then update_oinode inode set_impure_flag else uret tt) ;;!
  (if oip_index oip then update_oinode inode set_index_flag else uret tt) ;;!
  update_oinode inode (set_oi_redirect (oip_redirect oip)) ;;!
  (if bylower then update_oinode inode set_const_ino_flag else uret tt) ;;!
  (if is_dir then
     let! whiteouts :=
       (if (negb (is_none upperdentry) && negb (is_none lowerdentry)) || (1 <? oip_numlower oip) then uret true
        else ulift (ovl_check_origin_xattr (default (default 0 lowerdentry) upperdentry))) in
     if whiteouts : bool then update_oinode inode set_whiteouts_flag else uret tt
   else uret tt) ;;!
  match upperdentry with Some u => ovl_check_protattr inode u | None => uret tt end ;;!
  uret inode.

Definition ovl_get_inode (oip : ovl_inode_params) : U W Z :=
  let upperdentry := oip_upperdentry oip in
  let lowerdentry := p_dentry <$> oip_lowerpath oip in
  let! bylower := uget (ovl_hash_bylower upperdentry lowerdentry (oip_index oip)) in
  let lower_fsid := from_option (λ p, l_fsid (p_layer p)) 0 (oip_lowerpath oip) in
  let real := match upperdentry with Some u => u | None => default 0 lowerdentry end in
  let! realinfo := udentry real in
  let! mode := uread (λ w, at_mode (attrs_of w real)) in
  match de_inode realinfo with
  | None => ufail (- EIO)                    (** a real dentry is positive *)
  | Some realinode =>
    let is_dir := bool_decide (i_fmt realinode = S_IFDIR) in
    if negb (is_none upperdentry) || bylower then
      let! keyinfo := udentry (if bylower then default 0 lowerdentry else default 0 upperdentry) in
      let keyinode := default realinode (de_inode keyinfo) in
      let! found := ovl_iget5 (oip_newinode oip) (i_addr keyinode) in
      match found with
      | None => ufail (if is_none (oip_newinode oip) then - ENOMEM else - EEXIST)
      | Some (f, false) =>
        let! verified := uget (verify_found f lowerdentry upperdentry true) in
        match f, verified with
        | FoundInode inode, true => uret inode
        | _, _ => ufail (- ESTALE)
        end
      | Some (FoundInode inode, true) =>
        let! nlink :=
          (if is_dir then uret 1 else ulift (ovl_get_nlink lowerdentry upperdentry (i_nlink realinode))) in
        update_winode inode (set_wi_nlink nlink) ;;!
        init_inode inode oip bylower is_dir (i_rdev realinode) mode (i_ino keyinode) (if bylower then lower_fsid else 0)
      | Some (FoundTrap, true) => ufail (- ESTALE)
      end
    else
      let! new := new_inode in
      match new with
      | None => ufail (- ENOMEM)
      | Some inode => init_inode inode oip bylower is_dir (i_rdev realinode) mode (i_ino realinode) lower_fsid
      end
  end.
End inodes.
