(* ===== verification/OvlCopyUp.v ===== *)
(** * Copying up (copy_up.c)

    The first change of a file of a lower layer makes a copy of it in the
    upper layer, and of the directories on the way to it.  The copy is made
    with its data and attributes under a temporary name and moved to its place
    at once. *)
From S2P Require Import Prelude CString OS OvlOptions OvlVfs OvlHandle OvlLookup OvlLayers OvlIno OvlDirFile OvlWrite OvlTemp OvlInode.
Open Scope Z_scope.

Section copyup.
Context {W : Type} {K : Vfs W} {VS : VfsStat W} {VW : VfsWrite W}.
Implicit Types s : wstate W.

(** ** Extended attributes *)

Definition XATTR_POSIX_ACL_ACCESS : cstr := lit "posix_acl_access".
Definition XATTR_POSIX_ACL_DEFAULT : cstr := lit "posix_acl_default".
Definition XATTR_SECURITY_PREFIX : cstr := lit "security.".
Definition ovl_must_copy_xattr (name : cstr) : bool :=
  str_eqb name XATTR_POSIX_ACL_ACCESS || str_eqb name XATTR_POSIX_ACL_DEFAULT || prefixb XATTR_SECURITY_PREFIX name.

(** One attribute, with the size of the buffer: the error, and the size
    afterwards.  A value that does not fit is read again in a new buffer. *)
Definition copy_one_xattr (old new : Z) (name : cstr) (value_size : Z) : U W (Z * Z) :=
  let! r := ovl_do_getxattr old name in
  match r with
  | inl e => uret (e, value_size)
  | inr value =>
    let size := Z.of_nat (length value) in
    let! ok := (if value_size <? size then ukmalloc else uret true) in
    if negb ok then uret (- ENOMEM, value_size)
    else
      let! error := ovl_do_setxattr new name value 0 in
      let error := if negb (error =? 0) && (error =? - EOPNOTSUPP) && negb (ovl_must_copy_xattr name) then 0 else error in
      uret (error, Z.max value_size size)
  end.
(** The loop over the bytes of the list that are left. *)
Fixpoint copy_xattrs (fuel : nat) (old new : Z) (list : list ascii) (value_size : Z) : U W Z :=
  match fuel, list with
  | _, [] => uret 0
  | O, _ => uret 0
  | S fuel, _ =>
    let slen := S (strnlen list) in
    let! broken := uwarn (Nat.ltb (length list) slen) in
    if broken : bool then uret (- EIO)
    else
      let name := take (strnlen list) list in
      let rest := drop slen list in
      let! c := uovl (λ o, ofs_config (vs_fs o)) in
      if ovl_is_private_xattr c name then copy_xattrs fuel old new rest value_size
      else
        let! error := uread (λ w, security_inode_copy_up_xattr w name) in
        if (error <? 0) && negb (error =? - EOPNOTSUPP) then uret error
        else if error =? 1 then copy_xattrs fuel old new rest value_size
        else
          let! r := copy_one_xattr old new name value_size in
          let '(error, value_size) := r in
          if negb (error =? 0) then uret error else copy_xattrs fuel old new rest value_size
  end.
Definition ovl_copy_xattr (old new : Z) : U W Z :=
  let! have := uread (λ w, iop_xattr w old && iop_xattr w new) in
  if negb have then uret 0
  else
    let! listed := uread (λ w, vfs_listxattr w old) in
    match listed with
    | inl e => uret (if e =? - EOPNOTSUPP then 0 else e)
    | inr list =>
      if negb (nonempty list) then uret 0
      else
        let! ok := ukmalloc in
        if negb ok then uret (- ENOMEM) else copy_xattrs (length list) old new list 0
    end.

(** ** Flags (inode.c, copy_up.c) *)

Definition ovl_security_fileattr (real : Z) (set : bool) : U W Z :=
  let! err := uread (λ w, dentry_open w real 0) in
  if negb (err =? 0) then uret err else uread (λ w, security_file_ioctl w real set).
Definition ovl_real_fileattr_set (real : Z) (fa : fileattr) : U W Z :=
  ok! ovl_security_fileattr real true else! uret ;;! uwrite (CFileattr real fa).
Definition ovl_real_fileattr_get (real : Z) : U W (Z + fileattr) :=
  let! err := ovl_security_fileattr real false in
  if negb (err =? 0) then uret (inl err)
  else
    let! r := uread (λ w, fileattr_get w real) in
    uret (match r with inl e => inl (if e =? - ENOIOCTLCMD then - ENOTTY else e) | inr fa => inr fa end).

Definition ovl_copy_fileattr (inode old new : Z) : U W Z :=
  let! oldfa := ovl_real_fileattr_get old in
  match oldfa with
  | inl err => uret (if (err =? - ENOTTY) || (err =? - EINVAL) then 0 else err)
  | inr oldfa =>
    let! p :=
      (if negb (Z.land (fa_flags oldfa) OVL_PROT_FS_FLAGS_MASK =? 0) then ovl_set_protattr inode new oldfa
       else uret (0, oldfa)) in
    let '(err, oldfa) := p in
    if negb (err =? - EPERM) && negb (err =? 0) then uret err
    else if Z.land (fa_flags oldfa) OVL_COPY_FS_FLAGS_MASK =? 0 then uret 0
    else
      let! newfa := ovl_real_fileattr_get new in
      match newfa with
      | inl err => uret (if (err =? - ENOTTY) || (err =? - EINVAL) then 0 else err)
      | inr newfa =>
        ovl_real_fileattr_set new (FileAttr
          (Z.lor (Z.land (fa_flags newfa) (Z.lnot OVL_COPY_FS_FLAGS_MASK)) (Z.land (fa_flags oldfa) OVL_COPY_FS_FLAGS_MASK))
          (Z.lor (Z.land (fa_xflags newfa) (Z.lnot OVL_COPY_FSX_FLAGS_MASK)) (Z.land (fa_xflags oldfa) OVL_COPY_FSX_FLAGS_MASK)))
      end
  end.

(** ** Data *)

Definition OVL_COPY_UP_CHUNK_SIZE : Z := 1048576.
(** The loop: [pos] is both positions, which stay equal. *)
Fixpoint copy_data (fuel : nat) (old new pos len data_pos : Z) (skip_hole : bool) : U W Z :=
  match fuel with
  | O => uret 0
  | S fuel =>
    if len =? 0 then uret 0
    else
      let this_len := if (0 <=? len) && (len <? OVL_COPY_UP_CHUNK_SIZE) then len else OVL_COPY_UP_CHUNK_SIZE in
      let! pending := ulift (λ o, let '(b, w) := signal_pending (vs_world o) in (inr b, set_vs_world w o)) in
      if pending : bool then uret (- EINTR)
      else
        let! data := (if skip_hole && (data_pos <? pos) then uread (λ w, seek_data w old pos) else uret data_pos) in
        let sought := skip_hole && (data_pos <? pos) in
        if sought && (pos <? data) then copy_data fuel old new data (len - (data - pos)) data skip_hole
        else if sought && (data =? - ENXIO) then uret 0
        else
          let skip_hole := if sought && (data <? 0) then false else skip_hole in
          let! bytes := ucall (λ w, splice_direct w old pos new pos this_len) in
          if bytes <=? 0 then uret bytes
          else copy_data fuel old new (pos + bytes) (len - bytes) data skip_hole
  end.
Definition ovl_should_sync (c : ovl_config) : bool := negb (c_ovl_volatile c).
Definition ovl_copy_up_data (old new len : Z) : U W Z :=
  if len =? 0 then uret 0
  else
    let! err := ovl_path_open old false in
    if negb (err =? 0) then uret err
    else
      let! err := ovl_path_open new true in
      if negb (err =? 0) then uret err
      else
        let! cloned := ucall (λ w, clone_file_range w old new len) in
        let! seek := uread (λ w, can_seek w old) in
        let! error := (if cloned =? len then uret 0 else copy_data (Z.to_nat len + 1) old new 0 len (-1) seek) in
        let! c := uovl (λ o, ofs_config (vs_fs o)) in
        if (error =? 0) && ovl_should_sync c then uwrite (CFsync new) else uret error.

(** ** Attributes *)

Definition ovl_set_size (upperdentry : Z) (stat : cstat) : U W Z :=
  notify_change upperdentry (IAttr ATTR_SIZE no_mode 0 0 (cs_size stat) 0 0).
Definition ovl_set_timestamps (upperdentry : Z) (stat : cstat) : U W Z :=
  notify_change upperdentry
    (IAttr (Z.lor (Z.lor (Z.lor ATTR_ATIME ATTR_MTIME) (Z.lor ATTR_ATIME_SET ATTR_MTIME_SET)) ATTR_CTIME)
       no_mode 0 0 0 (cs_atime stat) (cs_mtime stat)).
Definition ovl_set_attr (upperdentry : Z) (stat : cstat) : U W Z :=
  let! err :=
    (if negb (has_fmt S_IFLNK (cs_mode stat)) then notify_change upperdentry (IAttr ATTR_MODE (cs_mode stat) 0 0 0 0 0)
     else uret 0) in
  let! err :=
    (if err =? 0 then notify_change upperdentry (IAttr (Z.lor ATTR_UID ATTR_GID) no_mode (cs_uid stat) (cs_gid stat) 0 0 0)
     else uret err) in
  if err =? 0 then ovl_set_timestamps upperdentry stat else uret err.

(** ** The index *)

Definition ovl_set_upper_fh (upper index : Z) : U W Z :=
  try! fh := ulift (ovl_encode_real_fh upper true) else! uret in
  ulift (ovl_setxattr index OVL_XATTR_UPPER fh).

Definition ovl_create_index (dentry origin upper : Z) : U W Z :=
  let! dir := ulift ovl_indexdir in
  let indexdir := default 0 dir in
  let! notdir := uovl (λ o, negb (od_is_dir (odentry_at dentry o))) in
  let! bad := uwarn notdir in
  if bad : bool then uret (- EIO)
  else
    let! indexed := uovl (test_inode OVL_INDEX dentry) in
    let! bad := uwarn indexed in
    if bad : bool then uret (- EIO)
    else
      try! name := ulift (ovl_get_index_name origin) else! uret in
      try! temp := ovl_create_temp indexdir (OVL_CATTR (UMode (Some S_IFDIR) 0)) else! uret in
      let! err := ovl_set_upper_fh upper temp in
      let! err :=
        (if negb (err =? 0) then uret err
         else try! index := ulookup name indexdir else! uret in ovl_do_rename indexdir temp indexdir index 0) in
      if negb (err =? 0) then ovl_cleanup indexdir temp ;;! uret err else uret 0.

(** ** One file *)

(** The link count of the overlay inode relative to a real one. *)
Definition ovl_set_nlink (dentry : Z) (c : ascii) (real : vstate W → option Z) : U W Z :=
  let! inode := uinode dentry in
  let! i := uget (winode_at inode) in
  let! upper := uovl (ovl_dentry_upper dentry) in
  let! realdentry := uovl real in
  ulift (ovl_set_nlink_common (default 0 upper) (wi_nlink i) (default 0 realdentry) c).
Definition ovl_set_nlink_upper (dentry : Z) : U W Z := ovl_set_nlink dentry "U" (ovl_dentry_upper dentry).
Definition ovl_set_nlink_lower (dentry : Z) : U W Z := ovl_set_nlink dentry "L" (ovl_dentry_lower dentry).

(** [struct ovl_copy_up_ctx]. *)
Record ovl_copy_up_ctx := CopyUp {
  cu_parent : option Z;
  cu_dentry : Z;
  cu_lower : Z;
  cu_stat : cstat;
  cu_pstat : cstat;
  cu_link : cstr;
  cu_destdir : Z;
  cu_destname : cstr;
  cu_workdir : Z;
  cu_origin : bool;
  cu_indexed : bool;
  cu_metacopy : bool
}.
(** What [ovl_do_copy_up] decides. *)
Definition cu_decide (destdir : Z) (destname : cstr) (workdir : Z) (origin indexed : bool) (c : ovl_copy_up_ctx) : ovl_copy_up_ctx :=
  CopyUp (cu_parent c) (cu_dentry c) (cu_lower c) (cu_stat c) (cu_pstat c) (cu_link c) destdir destname workdir origin indexed (cu_metacopy c).
Definition od_name_of (dentry : Z) (o : vstate W) : cstr := od_name (odentry_at dentry o).

Definition ovl_link_up (c : ovl_copy_up_ctx) : U W Z :=
  let dentry := cu_dentry c in
  let parent := default 0 (cu_parent c) in
  let! dir := uovl (ovl_dentry_upper parent) in
  let upperdir := default 0 dir in
  ok! ulift (ovl_set_impure parent upperdir) else! uret ;;!
  ok! ovl_set_nlink_lower dentry else! uret ;;!
  let! name := uovl (od_name_of dentry) in
  let! err :=
    (try! upper := ulookup name upperdir else! uret in
     let! old := uovl (ovl_dentry_upper dentry) in
     let! err := ovl_do_link (default 0 old) upperdir upper in
     if err =? 0 then
       ovl_set_timestamps upperdir (cu_pstat c) ;;!
       ulift (ovl_dentry_set_upper_alias dentry) ;;! uret 0
     else uret err) in
  if negb (err =? 0) then uret err else ovl_set_nlink_upper dentry.

Definition ovl_copy_up_inode (c : ovl_copy_up_ctx) (temp : Z) : U W Z :=
  let dentry := cu_dentry c in
  let reg := has_fmt S_IFREG (cs_mode (cu_stat c)) in
  let! inode := uinode dentry in
  let! upper := uovl (ovl_dentry_upper dentry) in
  let! bad := uwarn (negb (is_none upper)) in
  if bad : bool then uret (- EIO)
  else
    let! data := uovl (ovl_dentry_lowerdata dentry) in
    ok! (if reg && negb (cu_metacopy c) then ovl_copy_up_data (default 0 data) temp (cs_size (cu_stat c)) else uret 0)
    else! uret ;;!
    ok! ovl_copy_xattr (cu_lower c) temp else! uret ;;!
    let! i := uget (winode_at inode) in
    ok! (if negb (Z.land (wi_flags i) OVL_COPY_I_FLAGS_MASK =? 0) && (reg || has_fmt S_IFDIR (cs_mode (cu_stat c)))
         then ovl_copy_fileattr inode (cu_lower c) temp else uret 0)
    else! uret ;;!
    ok! (if cu_origin c then uint (ovl_set_origin (cu_lower c) temp) else uret 0) else! uret ;;!
    ok! (if cu_metacopy c then ulift (ovl_check_setxattr temp OVL_XATTR_METACOPY [] (- EOPNOTSUPP)) else uret 0) else! uret ;;!
    ok! (if reg then ovl_set_size temp (cu_stat c) else uret 0) else! uret ;;!
    ovl_set_attr temp (cu_stat c).

Definition ovl_prep_cu_creds (dentry : Z) : U W Z :=
  let! err := uread (λ w, security_inode_copy_up w dentry) in uret (if err <? 0 then err else 0).

(** The upper file is in its place: the overlay's inode gets it. *)
Definition installed (c : ovl_copy_up_ctx) (temp : Z) : U W unit :=
  (if negb (cu_metacopy c) then ulift (ovl_set_upperdata (cu_dentry c)) else uret tt) ;;!
  let! inode := uinode (cu_dentry c) in
  ovl_inode_update inode temp.

Definition ovl_copy_up_workdir (c : ovl_copy_up_ctx) : U W Z :=
  let udir := cu_destdir c in
  let wdir := cu_workdir c in
  let dentry := cu_dentry c in
  let cattr := OvlCattr (cs_rdev (cu_stat c)) (UMode (m_fmt (cs_mode (cu_stat c))) 0) (cu_link c) None in
  let! trap := uread (λ w, lock_rename w wdir udir) in
  if negb (is_none trap) then uret (- EIO)
  else
    ok! ovl_prep_cu_creds dentry else! uret ;;!
    try! temp := ovl_create_temp wdir cattr else! uret in
    let cleanup (err : Z) := ovl_cleanup wdir temp ;;! uret err in
    ok! ovl_copy_up_inode c temp else! cleanup ;;!
    ok! (if has_fmt S_IFDIR (cs_mode (cu_stat c)) && cu_indexed c then ovl_create_index dentry (cu_lower c) temp else uret 0)
    else! cleanup ;;!
    try! upper := ulookup (cu_destname c) udir else! cleanup in
    ok! ovl_do_rename wdir temp udir upper 0 else! cleanup ;;!
    installed c temp ;;!
    let! inode := uinode dentry in
    let! i := uget (winode_at inode) in
    (if has_fmt S_IFDIR (wi_mode i) then ulift (update_inode set_whiteouts_flag dentry) else uret tt) ;;!
    uret 0.

Definition ovl_copy_up_tmpfile (c : ovl_copy_up_ctx) : U W Z :=
  let udir := cu_destdir c in
  ok! ovl_prep_cu_creds (cu_dentry c) else! uret ;;!
  try! temp := ovl_do_tmpfile (cu_workdir c) (cs_mode (cu_stat c)) else! uret in
  ok! ovl_copy_up_inode c temp else! uret ;;!
  ok! (try! upper := ulookup (cu_destname c) udir else! uret in ovl_do_link temp udir upper) else! uret ;;!
  installed c temp ;;! uret 0.

Definition ovl_do_copy_up (c : ovl_copy_up_ctx) : U W Z :=
  let dentry := cu_dentry c in
  let is_dir := has_fmt S_IFDIR (cs_mode (cu_stat c)) in
  let! indexed := ulift (ovl_need_index dentry) in
  let! dir := ulift ovl_indexdir in
  let indexdir := default 0 dir in
  let to_index := indexed && negb is_dir in
  let origin := is_dir || (cs_nlink (cu_stat c) =? 1) || to_index in
  let workdir := if indexed && is_dir then indexdir else cu_workdir c in
  let! noparent := (if negb to_index then uwarn (is_none (cu_parent c)) else uret false) in
  if noparent : bool then uret (- EIO)
  else
    try! destname :=
      (if to_index then ulift (ovl_get_index_name (cu_lower c))
       else ok! ulift (ovl_set_impure (default 0 (cu_parent c)) (cu_destdir c)) else! ufail ;;! uret (cu_destname c))
    else! uret in
    let c := cu_decide (if to_index then indexdir else cu_destdir c) destname workdir origin indexed c in
    let! tmpfile := uget ws_tmpfile in
    ok! (if has_fmt S_IFREG (cs_mode (cu_stat c)) && tmpfile then ovl_copy_up_tmpfile c else ovl_copy_up_workdir c)
    else! uret ;;!
    (if indexed then ulift (update_inode set_index_flag dentry) else uret tt) ;;!
    if to_index then ovl_set_nlink_upper dentry
    else
      ovl_set_timestamps (cu_destdir c) (cu_pstat c) ;;!
      ulift (ovl_dentry_set_upper_alias dentry) ;;! uret 0.

Definition ovl_need_meta_copy_up (c : ovl_config) (mode : umode) (flags : Z) : bool :=
  if negb (c_metacopy c) then false
  else if negb (has_fmt S_IFREG mode) then false
  else if negb (flags =? 0) && (negb (Z.land (Z.land (flags + 1) O_ACCMODE) FMODE_WRITE =? 0) || negb (Z.land flags O_TRUNC =? 0))
  then false else true.

(** The value, empty without one, or the error. *)
Definition ovl_getxattr_value (dentry : Z) (name : cstr) : U W (res (list ascii)) :=
  let! r := ovl_do_getxattr dentry name in
  match r with
  | inl e => uret (if (e =? - ENODATA) || (e =? - EOPNOTSUPP) then inr [] else inl e)
  | inr value =>
    if negb (nonempty value) then uret (inr [])
    else let! ok := ukmalloc in uret (if negb ok then inl (- ENOMEM) else inr value)
  end.

Definition XATTR_NAME_CAPS : cstr := lit "security.capability".
Definition ovl_copy_up_meta_inode_data (c : ovl_copy_up_ctx) : U W Z :=
  let dentry := cu_dentry c in
  let! upper := uovl (ovl_dentry_upper dentry) in
  let! bad := uwarn (is_none upper) in
  if bad : bool then uret (- EIO)
  else
    let! data := uovl (ovl_dentry_lowerdata dentry) in
    let! bad := uwarn (is_none data) in
    if bad : bool then uret (- EIO)
    else
      let upper := default 0 upper in
      let! cap := (if negb (cs_size (cu_stat c) =? 0) then ovl_getxattr_value upper XATTR_NAME_CAPS else uret (inr [])) in
      match cap with
      | inl e => uret e
      | inr capability =>
        ok! ovl_copy_up_data (default 0 data) upper (cs_size (cu_stat c)) else! uret ;;!
        ok! (if nonempty capability then ovl_do_setxattr upper XATTR_NAME_CAPS capability 0 else uret 0) else! uret ;;!
        ok! ulift (ovl_removexattr upper OVL_XATTR_METACOPY) else! uret ;;!
        ulift (ovl_set_upperdata dentry) ;;! uret 0
      end.

(** Without a parent the dentry is disconnected. *)
Definition ovl_copy_up_one (parent : option Z) (dentry flags : Z) : U W Z :=
  let! wd := ovl_workdir in
  let! bad := uwarn (is_none wd) in
  if bad : bool then uret (- EROFS)
  else
    let! lower := uovl (ovl_dentry_lower dentry) in
    let lower := default 0 lower in
    try! stat := (λ s, (stat_of (ws_world s) lower, s)) else! uret in
    let! mapped := uread (λ w, id_mapped w (cs_uid stat) (cs_gid stat)) in
    if negb mapped then uret (- EOVERFLOW)
    else
      let! config := uovl (λ o, ofs_config (vs_fs o)) in
      let metacopy := ovl_need_meta_copy_up config (cs_mode stat) flags in
      let! dir := match parent with Some p => uovl (ovl_dentry_upper p) | None => uret None end in
      let destdir := default 0 dir in
      let! name := uovl (od_name_of dentry) in
      try! pstat := match parent with Some _ => λ s, (stat_of (ws_world s) destdir, s) | None => uret stat end else! uret in
      let stat := if negb (Z.land flags O_TRUNC =? 0) then set_cs_size 0 stat else stat in
      try! link := (if has_fmt S_IFLNK (cs_mode stat) then λ s, (vfs_get_link (ws_world s) lower, s) else uret []) else! uret in
      let ctx := CopyUp parent dentry lower stat pstat link destdir name (default 0 wd) false false metacopy in
      let! err := ovl_copy_up_start dentry flags in
      if negb (err =? 0) then uret (if 0 <? err then 0 else err)
      else
        let! upper := uovl (ovl_dentry_upper dentry) in
        ok! (if is_none upper then ovl_do_copy_up ctx else uret 0) else! uret ;;!
        let! alias := uovl (ovl_dentry_has_upper_alias dentry) in
        ok! (if negb (is_none parent) && negb alias then ovl_link_up ctx else uret 0) else! uret ;;!
        let! data := uovl (ovl_dentry_needs_data_copy_up_locked dentry flags) in
        if data : bool then ovl_copy_up_meta_inode_data ctx else uret 0.

(** ** The way to the root *)

(** The topmost dentry that is not copied up, and its parent; [None] if the
    fuel runs out. *)
Fixpoint topmost (fuel : nat) (next : Z) (o : vstate W) : option (Z * Z) :=
  match fuel with
  | O => None
  | S fuel =>
    let parent := od_parent (odentry_at next o) in
    match ovl_dentry_upper parent o with
    | Some _ => Some (parent, next)
    | None => topmost fuel parent o
    end
  end.
(** [None] in the result: out of fuel. *)
Fixpoint copy_up_loop (fuel : nat) (dentry flags : Z) (disconnected : bool) : U W (option Z) :=
  match fuel with
  | O => uret None
  | S fuel =>
    let! already := uovl (ovl_already_copied_up dentry flags) in
    if already : bool then uret (Some 0)
    else
      let! next :=
        (if disconnected then uret (Some (None, dentry))
         else uovl (λ o, match topmost (S (size (vs_dentries o))) dentry o with
                        | Some (parent, next) => Some (Some parent, next)
                        | None => None
                        end)) in
      match next with
      | None => uret None
      | Some (parent, next) =>
        let! err := ovl_copy_up_one parent next flags in
        if negb (err =? 0) then uret (Some err) else copy_up_loop fuel dentry flags disconnected
      end
  end.
(** Every turn copies up one dentry: [copy_up_terminates]. *)
Definition ovl_copy_up_flags (dentry flags : Z) : U W Z :=
  let! od := uovl (odentry_at dentry) in
  let! bad := uwarn (od_disconnected od && od_is_dir od) in
  if bad : bool then uret (- EIO)
  else
    let! n := uovl (λ o, size (vs_dentries o)) in
    let! r := copy_up_loop (S (S n)) dentry flags (od_disconnected od) in
    uret (default (- EIO) r).

Definition ovl_open_need_copy_up (dentry flags : Z) : U W bool :=
  let! already := uovl (ovl_already_copied_up dentry flags) in
  let! inode := uinode dentry in
  let! i := uget (winode_at inode) in
  let special := has_fmt S_IFCHR (wi_mode i) || has_fmt S_IFBLK (wi_mode i) || has_fmt S_IFIFO (wi_mode i) || has_fmt S_IFSOCK (wi_mode i) in
  uret (negb already && negb special && ovl_open_flags_need_copy_up flags).
Definition ovl_maybe_copy_up (dentry flags : Z) : U W Z :=
  let! need := ovl_open_need_copy_up dentry flags in
  if need : bool then ok! ulift ovl_want_write else! uret ;;! ovl_copy_up_flags dentry flags
  else uret 0.
Definition ovl_copy_up_with_data (dentry : Z) : U W Z := ovl_copy_up_flags dentry O_WRONLY.
Definition ovl_copy_up (dentry : Z) : U W Z := ovl_copy_up_flags dentry 0.
End copyup.
