(* ===== verification/OvlCreate.v ===== *)
(** * Creating files and links (dir.c, util.c)

    A new file is made in the upper directory, or made in the work directory
    and moved over the whiteout that hides a file of the lower layers.  The
    link count of the overlay is kept in the index meanwhile. *)
From S2P Require Import Prelude CString OS OvlOptions OvlVfs OvlHandle OvlLookup OvlLayers OvlIno OvlDirFile OvlReaddir OvlWrite OvlTemp OvlInode OvlCopyUp.
Open Scope Z_scope.

Section create.
Context {W : Type} {K : Vfs W} {VS : VfsStat W} {VW : VfsWrite W}.

(** ** Link counts (util.c) *)

Definition set_nlink (inode nlink : Z) : U W unit := update_winode inode (set_wi_nlink nlink).

Definition cleanup_index_entry (indexdir : Z) (name : cstr) : U W Z :=
  try! index := ulookup name indexdir else! uret in
  let! all := ulift ovl_index_all in
  if all : bool then ovl_cleanup_and_whiteout indexdir index else ovl_cleanup indexdir index.
Definition ovl_cleanup_index (dentry : Z) : U W unit :=
  let! dir := ulift ovl_indexdir in
  let! lower := uovl (ovl_dentry_lower dentry) in
  let! upper := uovl (ovl_dentry_upper dentry) in
  try! name := ulift (ovl_get_index_name (default 0 lower)) else! (λ _, uret tt) in
  let! u := udentry (default 0 upper) in
  let nlink := from_option i_nlink 0 (de_inode u) in
  let is_dir := from_option (λ i, bool_decide (i_fmt i = S_IFDIR)) false (de_inode u) in
  if negb is_dir && negb (nlink =? 1) then
    let! inode := uinode dentry in
    set_nlink inode (to_uint32 (nlink - 1)) ;;!
    ovl_set_nlink_upper dentry ;;! uret tt
  else cleanup_index_entry (default 0 dir) name ;;! uret tt.

Definition ovl_nlink_start (dentry : Z) : U W Z :=
  let! inode := uovl (λ o, od_inode (odentry_at dentry o)) in
  let! bad := uwarn (is_none inode) in
  if bad : bool then uret (- ENOENT)
  else
    let! index := ulift (ovl_need_index dentry) in
    let! alias := uovl (ovl_dentry_has_upper_alias dentry) in
    ok! (if index && negb alias then ovl_copy_up dentry else uret 0) else! uret ;;!
    ok! ucall inode_lock_interruptible else! uret ;;!
    let! plain := uovl (λ o, od_is_dir (odentry_at dentry o) || negb (test_inode OVL_INDEX dentry o)) in
    if plain : bool then uret 0 else ovl_set_nlink_upper dentry.

Definition ovl_nlink_end (dentry : Z) : U W unit :=
  let! inode := uinode dentry in
  let! index := uovl (test_inode OVL_INDEX dentry) in
  let! i := uget (winode_at inode) in
  if index && (wi_nlink i =? 0) then ovl_cleanup_index dentry else uret tt.

(** ** The new dentry *)

Definition ovl_type_merge (dentry : Z) (o : vstate W) : bool := T_MERGE (ovl_path_type dentry o).
Definition ovl_type_origin (dentry : Z) (o : vstate W) : bool := T_ORIGIN (ovl_path_type dentry o).
Definition parent_of (dentry : Z) : U W Z := uovl (λ o, od_parent (odentry_at dentry o)).

(** Who overrides the credentials creates nothing for another user. *)
Definition ovl_check_override_create_identity : U W Z :=
  let! config := uovl (λ o, ofs_config (vs_fs o)) in
  if negb (c_has_override_creds config) then uret 0
  else
    let! uid := uread current_fsuid in
    uret (if uid =? c_override_uid config then 0 else - EPERM).

(** [d_instantiate]. *)
Definition set_od_inode (inode : Z) (is_dir is_reg : bool) (d : ovl_dentry) : ovl_dentry :=
  OvlDentry (od_name d) (od_parent d) is_dir is_reg (Some inode) (od_disconnected d)
    (OVL_E_UPPER_ALIAS d) (OVL_E_OPAQUE d) (OVL_E_CONNECTED d) (od_lowerstack d).
Definition d_instantiate (dentry inode : Z) : U W unit :=
  let! i := uget (winode_at inode) in
  ulift (update_dentry (set_od_inode inode (has_fmt S_IFDIR (wi_mode i)) (has_fmt S_IFREG (wi_mode i))) dentry).

Definition ovl_inode_real (i : ovl_inode) (w : W) : option Z :=
  match ovl_inode_upper i w with Some a => Some a | None => ovl_inode_lower i w end.

Definition ovl_instantiate (dentry inode newdentry : Z) (hardlink : bool) : U W Z :=
  let! parent := parent_of dentry in
  ovl_dir_modified parent false ;;!
  ulift (ovl_dentry_set_upper_alias dentry) ;;!
  try! used :=
    (if negb hardlink then
       let! used := ovl_get_inode (Oip (Some inode) (Some newdentry) None false 0 None None) in
       (if used =? inode then update_oinode inode set_upperdata_flag else uret tt) ;;! uret used
     else
       let! other := uget (λ s, negb (bool_decide (
         ovl_inode_real (oinode_at inode (ws_ovl s)) (ws_world s) = real_inode (ws_world s) (Some newdentry)))) in
       uwarn other ;;!
       let! i := uget (winode_at inode) in
       set_nlink inode (wi_nlink i + 1) ;;! uret inode)
  else! uret in
  d_instantiate dentry used ;;!
  (if hardlink then d_drop dentry else uret tt) ;;!
  uret 0.

(** ** Creating *)

Definition ovl_create_upper (dentry inode : Z) (attr : ovl_cattr) : U W Z :=
  let! parent := parent_of dentry in
  let! dir := uovl (ovl_dentry_upper parent) in
  let upperdir := default 0 dir in
  let! posixacl := uread (λ w, is_posixacl w upperdir) in
  let! umask := uread current_umask in
  let m := c_mode attr in
  let attr :=
    if is_none (c_hardlink attr) && negb posixacl
    then set_c_mode (UMode (m_fmt m) (Z.land (m_perm m) (Z.lnot umask))) attr else attr in
  let! name := uovl (od_name_of dentry) in
  let! looked := utry (ulookup name upperdir) (λ e, uret (inl e)) (λ d, uret (inr d)) in
  try! newdentry := ovl_create_real upperdir looked attr else! uret in
  let! merge := uovl (ovl_type_merge parent) in
  let! d := udentry newdentry in
  let! config := uovl (λ o, ofs_config (vs_fs o)) in
  (if merge && d_is_dir d && negb (ovl_allow_offline_changes config)
   then ovl_set_opaque dentry newdentry ;;! uret tt else uret tt) ;;!
  ok! ovl_instantiate dentry inode newdentry (negb (is_none (c_hardlink attr)))
  else! (λ err, ovl_cleanup upperdir newdentry ;;! uret err) ;;!
  uret 0.

Definition XATTR_NAME_POSIX_ACL_ACCESS : cstr := lit "system.posix_acl_access".
Definition XATTR_NAME_POSIX_ACL_DEFAULT : cstr := lit "system.posix_acl_default".
(** An access control list is named by its address; [None] is NULL. *)
Definition ovl_set_upper_acl (upperdentry : Z) (name : cstr) (acl : option Z) : U W Z :=
  match acl with
  | None => uret 0
  | Some acl =>
    let! ok := ukmalloc in
    if negb ok then uret (- ENOMEM)
    else
      let! r := uread (λ w, posix_acl_to_xattr w acl) in
      match r with
      | inl e => uret e
      | inr buffer => ovl_do_setxattr upperdentry name buffer XATTR_CREATE
      end
  end.

(** The inode of the work directory is read before its pointer is tested, so
    the test is of no use; the model has it where it stands. *)
Definition ovl_create_over_whiteout (dentry inode : Z) (cattr : ovl_cattr) : U W Z :=
  let! wd := ovl_workdir in
  let! parent := parent_of dentry in
  let! dir := uovl (ovl_dentry_upper parent) in
  let upperdir := default 0 dir in
  let hardlink := negb (is_none (c_hardlink cattr)) in
  let! bad := uwarn (is_none wd) in
  if bad : bool then uret (- EROFS)
  else
    let workdir := default 0 wd in
    let! parentinode := uinode parent in
    try! acls :=
      (if hardlink then uret (c_mode cattr, None, None)
       else λ s, (posix_acl_create (ws_world s) parentinode (c_mode cattr), s))
    else! uret in
    let '(mode, default_acl, acl) := acls in
    let cattr := set_c_mode mode cattr in
    ok! ovl_lock_rename_workdir workdir upperdir else! uret ;;!
    let! name := uovl (od_name_of dentry) in
    try! upper := ulookup name upperdir else! uret in
    let! u := udentry upper in
    if d_is_negative u || negb (ovl_is_whiteout u) then uret (- ESTALE)
    else
      try! newdentry := ovl_create_temp workdir cattr else! uret in
      let cleanup (err : Z) := ovl_cleanup workdir newdentry ;;! uret err in
      let! newmode := uread (λ w, at_mode (attrs_of w newdentry)) in
      ok! (if negb hardlink && negb (has_fmt S_IFLNK mode) && negb (bool_decide (newmode = mode))
           then notify_change newdentry (IAttr ATTR_MODE mode 0 0 0 0 0) else uret 0)
      else! cleanup ;;!
      ok! (if hardlink then uret 0 else ovl_set_upper_acl newdentry XATTR_NAME_POSIX_ACL_ACCESS acl) else! cleanup ;;!
      ok! (if hardlink then uret 0 else ovl_set_upper_acl newdentry XATTR_NAME_POSIX_ACL_DEFAULT default_acl) else! cleanup ;;!
      ok! (if negb hardlink && has_fmt S_IFDIR mode then
             ok! ovl_set_opaque dentry newdentry else! uret ;;!
             ok! ovl_do_rename workdir newdentry upperdir upper RENAME_EXCHANGE else! uret ;;!
             ovl_cleanup workdir upper ;;! uret 0
           else ovl_do_rename workdir newdentry upperdir upper 0)
      else! cleanup ;;!
      ok! ovl_instantiate dentry inode newdentry hardlink
      else! (λ err, ovl_cleanup upperdir newdentry ;;! uret err) ;;!
      uret 0.

(** The credentials that the kernel creates with are the calling process's
    here as elsewhere; getting memory for them can fail. *)
Definition ovl_create_or_link (dentry inode : Z) (attr : ovl_cattr) (origin : bool) : U W Z :=
  let! parent := parent_of dentry in
  ok! ovl_check_override_create_identity else! uret ;;!
  ok! ovl_copy_up parent else! uret ;;!
  ok! (if origin then
         let! dir := uovl (ovl_dentry_upper parent) in ulift (ovl_set_impure parent (default 0 dir))
       else uret 0)
  else! uret ;;!
  ok! (if is_none (c_hardlink attr) then
         let! creds := ukmalloc in
         if negb creds then uret (- ENOMEM) else uread (λ w, security_dentry_create w (c_mode attr))
       else uret 0)
  else! uret ;;!
  let! whiteout := uovl (ovl_dentry_is_whiteout dentry) in
  if negb whiteout then ovl_create_upper dentry inode attr else ovl_create_over_whiteout dentry inode attr.

Definition ovl_create_object (dentry : Z) (mode : umode) (rdev : Z) (link : cstr) : U W Z :=
  ok! ulift ovl_want_write else! uret ;;!
  let! new := ovl_new_inode mode rdev in
  match new with
  | None => uret (- ENOMEM)
  | Some inode =>
    let! parent := parent_of dentry in
    let! parentinode := uinode parent in
    let! dir := uget (winode_at parentinode) in
    let! owned := uread (λ w, init_owner w (wi_attrs dir) mode) in
    update_winode inode (λ i, WInode owned (wi_rdev i) (wi_nlink i) (wi_ino i) (wi_attrs i) (wi_flags i)) ;;!
    ovl_create_or_link dentry inode (OvlCattr rdev owned link None) false
  end.

Definition ovl_create (dentry : Z) (mode : umode) : U W Z :=
  ovl_create_object dentry (UMode (Some S_IFREG) (Z.land (m_perm mode) 4095)) 0 [].
Definition ovl_mkdir (dentry : Z) (mode : umode) : U W Z :=
  ovl_create_object dentry (UMode (Some S_IFDIR) (Z.land (m_perm mode) 4095)) 0 [].
Definition WHITEOUT_DEV : Z := 0.
Definition ovl_mknod (dentry : Z) (mode : umode) (rdev : Z) : U W Z :=
  if has_fmt S_IFCHR mode && (rdev =? WHITEOUT_DEV) then uret (- EPERM)
  else ovl_create_object dentry mode rdev [].
Definition ovl_symlink (dentry : Z) (link : cstr) : U W Z :=
  ovl_create_object dentry (UMode (Some S_IFLNK) 0) 0 link.

(** ** Redirects *)

(** [module_param_named(redirect_max, ...)]: its initial value. *)
Definition ovl_redirect_max : Z := 256.
(** The path from the root, built from its end in a buffer with [buflen] bytes
    left; [None] is the error of a path that is too long.  A dentry is a root
    if it is its own parent. *)
Fixpoint redirect_path (fuel : nat) (d : Z) (acc : cstr) (buflen : Z) (o : vstate W) : option cstr :=
  match fuel with
  | O => Some acc
  | S fuel =>
    if od_parent (odentry_at d o) =? d then Some acc
    else
      let name := default (od_name_of d o) (ovl_dentry_get_redirect d o) in
      if buflen <? slen name + (if is_absolute name then 0 else 1) then None
      else
        let acc := name ++ acc in
        let buflen := buflen - slen name in
        if is_absolute acc then Some acc
        else redirect_path fuel (od_parent (odentry_at d o)) ("/"%char :: acc) (buflen - 1) o
  end.
(** Every turn uses a byte of the buffer, so that many are enough. *)
Definition ovl_get_redirect (dentry : Z) (abs_redirect : bool) : U W cstr :=
  if negb abs_redirect then
    let! ok := ukmalloc in
    let! name := uovl (od_name_of dentry) in
    if negb ok then ufail (- ENOMEM) else uret name
  else
    let! buf := ukmalloc in
    if negb buf then ufail (- ENOMEM)
    else
      let! path := uovl (redirect_path (Z.to_nat ovl_redirect_max + 2) dentry [] ovl_redirect_max) in
      match path with
      | None => ufail (- EXDEV)
      | Some path => let! ok := ukmalloc in if negb ok then ufail (- ENOMEM) else uret path
      end.

Definition ovl_need_absolute_redirect (dentry : Z) (samedir : bool) : U W bool :=
  if negb samedir then uret true
  else
    let! is_dir := uovl (λ o, od_is_dir (odentry_at dentry o)) in
    if is_dir : bool then uret false
    else
      let! lower := uovl (ovl_dentry_lower dentry) in
      let! l := udentry (default 0 lower) in
      uret (1 <? from_option i_nlink 0 (de_inode l)).

Definition ovl_set_redirect (dentry : Z) (samedir : bool) : U W Z :=
  let! redirect := uovl (ovl_dentry_get_redirect dentry) in
  let! absolute_redirect := ovl_need_absolute_redirect dentry samedir in
  if match redirect with Some r => negb absolute_redirect || is_absolute r | None => false end then uret 0
  else
    try! redirect := ovl_get_redirect dentry absolute_redirect else! uret in
    let! upper := uovl (ovl_dentry_upper dentry) in
    let! err := ulift (ovl_check_setxattr (default 0 upper) OVL_XATTR_REDIRECT redirect (- EXDEV)) in
    if err =? 0 then ulift (ovl_dentry_set_redirect dentry redirect) ;;! uret 0
    else uret (- EXDEV).
Definition ovl_set_link_redirect (dentry : Z) : U W Z := ovl_set_redirect dentry false.

(** ** Links *)

Definition ovl_link (old new : Z) : U W Z :=
  ok! ulift ovl_want_write else! uret ;;!
  ok! ovl_copy_up old else! uret ;;!
  let! parent := parent_of new in
  ok! ovl_copy_up parent else! uret ;;!
  let! metacopy := uovl (ovl_is_metacopy_dentry old) in
  ok! (if metacopy : bool then ovl_set_link_redirect old else uret 0) else! uret ;;!
  ok! ovl_nlink_start old else! uret ;;!
  let! inode := uinode old in
  let! upper := uovl (ovl_dentry_upper old) in
  let! origin := uovl (ovl_type_origin old) in
  let! err := ovl_create_or_link new inode (OvlCattr 0 no_mode [] (Some (default 0 upper))) origin in
  ovl_nlink_end old ;;! uret err.
End create.
