(* ===== verification/OvlRemove.v ===== *)
(** * Removing and moving files (dir.c, readdir.c)

    A file that the lower layers have is hidden by a whiteout, and one that
    they do not have is deleted.  A directory whose whiteouts make it look
    empty is first exchanged for an empty opaque one. *)
From S2P Require Import Prelude CString OS OvlOptions OvlVfs OvlHandle OvlLookup OvlLayers OvlIno OvlDirFile OvlReaddir OvlWrite OvlTemp OvlInode OvlCopyUp OvlCreate.
Open Scope Z_scope.

Section remove.
Context {W : Type} {K : Vfs W} {VS : VfsStat W} {VW : VfsWrite W} {R : RbLib}.

(** ** Directories with whiteouts *)

Fixpoint ovl_cleanup_whiteouts (upper : Z) (list : list cache_entry) : U W unit :=
  match list with
  | [] => uret tt
  | p :: list =>
    let! bad := uwarn (negb (ce_is_whiteout p) || negb (ce_is_upper p)) in
    (if bad : bool then uret tt
     else
       utry (ulookup (ce_name p) upper) (λ _, uret tt) (λ dentry,
         let! d := udentry dentry in
         match de_inode d with
         | Some _ => ovl_cleanup upper dentry ;;! uret tt
         | None => uret tt
         end)) ;;!
    ovl_cleanup_whiteouts upper list
  end.

(** The work directory is tested after its inode is read, as in
    [ovl_create_over_whiteout]. *)
Definition ovl_clear_empty (dentry : Z) (list : list cache_entry) : U W Z :=
  let! wd := ovl_workdir in
  let! parent := parent_of dentry in
  let! dir := uovl (ovl_dentry_upper parent) in
  let upperdir := default 0 dir in
  let! bad := uwarn (is_none wd) in
  if bad : bool then ufail (- EROFS)
  else
    let workdir := default 0 wd in
    ok! ovl_lock_rename_workdir workdir upperdir else! ufail ;;!
    let! up := uovl (ovl_dentry_upper dentry) in
    let upper := default 0 up in
    let! stat := (λ s, (stat_of (ws_world s) upper, s)) in
    if negb (has_fmt S_IFDIR (cs_mode stat)) then ufail (- ESTALE)
    else
      let! elsewhere := uread (λ w, negb (bool_decide (
        real_inode w (Some (de_parent (dentry_of w upper))) = real_inode w (Some upperdir)))) in
      if elsewhere : bool then ufail (- ESTALE)
      else
        let! opaquedir := ovl_create_temp workdir (OVL_CATTR (cs_mode stat)) in
        let cleanup (err : Z) := ovl_cleanup workdir opaquedir ;;! ufail err in
        ok! ovl_copy_xattr upper opaquedir else! cleanup ;;!
        ok! ovl_set_opaque dentry opaquedir else! cleanup ;;!
        ok! ovl_set_attr opaquedir stat else! cleanup ;;!
        ok! ovl_do_rename workdir opaquedir upperdir upper RENAME_EXCHANGE else! cleanup ;;!
        ovl_cleanup_whiteouts upper list ;;!
        ovl_cleanup workdir upper ;;!
        d_drop dentry ;;!
        uret opaquedir.

(** ** Removing *)

(** [d_inode] of a pointer that is not NULL in the callers. *)
Definition ovl_matches_upper (dentry upper : Z) (s : wstate W) : bool :=
  bool_decide (real_inode (ws_world s) (ovl_dentry_upper dentry (ws_ovl s)) = real_inode (ws_world s) (Some upper)).

(** [None] is NULL. *)
Definition clear_empty_if (dentry : Z) (list : list cache_entry) : U W (option Z) :=
  match list with
  | [] => uret None
  | _ => let! d := ovl_clear_empty dentry list in uret (Some d)
  end.
(** Another file has the name by now: [opaquedir] has been put there, or the
    upper file of the dentry, if it has one, should be there. *)
Definition another_upper (dentry : Z) (opaquedir : option Z) (upper : Z) (has_upper : bool) (s : wstate W) : bool :=
  match opaquedir with
  | Some d => negb (upper =? d)
  | None => has_upper && negb (ovl_matches_upper dentry upper s)
  end.

Definition ovl_remove_and_whiteout (dentry : Z) (list : list cache_entry) : U W Z :=
  let! wd := ovl_workdir in
  let! parent := parent_of dentry in
  let! dir := uovl (ovl_dentry_upper parent) in
  let upperdir := default 0 dir in
  let! bad := uwarn (is_none wd) in
  if bad : bool then uret (- EROFS)
  else
    try! opaquedir := clear_empty_if dentry list else! uret in
    ok! ovl_lock_rename_workdir (default 0 wd) upperdir else! uret ;;!
    let! name := uovl (od_name_of dentry) in
    try! upper := ulookup name upperdir else! uret in
    let! has_upper := uovl (λ o, negb (is_none (ovl_dentry_upper dentry o))) in
    let! stale := uget (another_upper dentry opaquedir upper has_upper) in
    if stale : bool then uret (- ESTALE)
    else
      ok! ovl_cleanup_and_whiteout upperdir upper else! (λ err, d_drop dentry ;;! uret err) ;;!
      ovl_dir_modified parent true ;;!
      d_drop dentry ;;!
      uret 0.

Definition ovl_remove_upper (dentry : Z) (is_dir : bool) (list : list cache_entry) : U W Z :=
  let! parent := parent_of dentry in
  let! dir := uovl (ovl_dentry_upper parent) in
  let upperdir := default 0 dir in
  try! opaquedir := clear_empty_if dentry list else! uret in
  let! name := uovl (od_name_of dentry) in
  try! upper := ulookup name upperdir else! uret in
  let! stale := uget (another_upper dentry opaquedir upper true) in
  if stale : bool then uret (- ESTALE)
  else
    let! err := (if is_dir then ovl_do_rmdir upperdir upper else ovl_do_unlink upperdir upper) in
    let! origin := uovl (ovl_type_origin dentry) in
    ovl_dir_modified parent origin ;;!
    (if err =? 0 then d_drop dentry else uret tt) ;;!
    uret err.

Definition ovl_pure_upper (dentry : Z) (o : vstate W) : bool :=
  is_none (ovl_dentry_lower dentry o) && negb (test_inode OVL_WHITEOUTS dentry o).

(** Another dentry of the inode that is hashed. *)
Definition has_alias (dentry inode : Z) (s : wstate W) : bool :=
  existsb (λ kv, bool_decide (od_inode (snd kv) = Some inode) && negb (fst kv =? dentry) &&
                 negb (bool_decide (fst kv ∈ ws_unhashed s))) (map_to_list (vs_dentries (ws_ovl s))).
Definition ovl_drop_nlink (dentry : Z) : U W unit :=
  let! inode := uinode dentry in
  let! alias := uget (has_alias dentry inode) in
  let! i := uget (winode_at inode) in
  if (if alias : bool then 1 else 0) <? wi_nlink i then set_nlink inode (wi_nlink i - 1) else uret tt.
(** What is removed loses a link, a directory all of them. *)
Definition clear_or_drop_nlink (dentry : Z) (is_dir : bool) : U W unit :=
  if is_dir then let! inode := uinode dentry in set_nlink inode 0 else ovl_drop_nlink dentry.

Definition check_empty (dentry : Z) (needed : bool) : U W (list cache_entry) :=
  if needed then
    let! r := ulift (ovl_check_empty_dir dentry) in
    let '(err, list) := r in if err =? 0 then uret list else ufail err
  else uret [].

Definition ovl_do_remove (dentry : Z) (is_dir : bool) : U W Z :=
  let! lower_positive := uovl (ovl_lower_positive dentry) in
  let! pure := uovl (ovl_pure_upper dentry) in
  try! list := check_empty dentry (is_dir && (lower_positive || negb pure)) else! uret in
  ok! ulift ovl_want_write else! uret ;;!
  let! parent := parent_of dentry in
  ok! ovl_copy_up parent else! uret ;;!
  ok! ovl_nlink_start dentry else! uret ;;!
  let! err := (if negb lower_positive then ovl_remove_upper dentry is_dir list else ovl_remove_and_whiteout dentry list) in
  (if err =? 0 then clear_or_drop_nlink dentry is_dir else uret tt) ;;!
  ovl_nlink_end dentry ;;!
  let! upper := uovl (ovl_dentry_upper dentry) in
  (match upper with Some _ => let! inode := uinode dentry in ovl_copyattr inode | None => uret tt end) ;;!
  uret err.

Definition ovl_unlink (dentry : Z) : U W Z := ovl_do_remove dentry false.
Definition ovl_rmdir (dentry : Z) : U W Z := ovl_do_remove dentry true.

(** ** Moving *)

Definition ovl_type_merge_or_lower (dentry : Z) (o : vstate W) : bool :=
  T_MERGE (ovl_path_type dentry o) || negb (T_UPPER (ovl_path_type dentry o)).
Definition ovl_can_move (dentry : Z) (o : vstate W) : bool :=
  (c_redirect_dir (ofs_config (vs_fs o)) && negb (ofs_noxattr (vs_fs o))) ||
  negb (od_is_dir (odentry_at dentry o)) || negb (ovl_type_merge_or_lower dentry o).

(** The flags for the upper file system, and whether the whiteout that comes
    to the old place is removed there. *)
Definition rename_flags (old new : Z) (flags : Z) (o : vstate W) : Z * bool :=
  if negb (Z.land flags RENAME_EXCHANGE =? 0) then (flags, false)
  else if ovl_lower_positive old o then
    (Z.lor flags (if negb (ovl_dentry_is_whiteout new o) then RENAME_WHITEOUT else RENAME_EXCHANGE), false)
  else if od_is_dir (odentry_at old o) && ovl_dentry_is_whiteout new o then (Z.lor flags RENAME_EXCHANGE, true)
  else (flags, false).

(** The directories to which something with an origin is moved become impure. *)
Definition rename_impure (old new : Z) (samedir overwrite : bool) (old_upperdir new_upperdir : Z) : U W Z :=
  if samedir then uret 0
  else
    let! oldparent := parent_of old in
    let! newparent := parent_of new in
    let! origin := uovl (ovl_type_origin old) in
    ok! (if origin : bool then ulift (ovl_set_impure newparent new_upperdir) else uret 0) else! uret ;;!
    let! origin := uovl (ovl_type_origin new) in
    if negb overwrite && origin then ulift (ovl_set_impure oldparent old_upperdir) else uret 0.

(** The upper files are not those that the dentries stand for. *)
Definition rename_stale (new : Z) (opaquedir : option Z) (newdentry : Z) (new_opaque : bool) (flags : Z) (s : wstate W) : bool :=
  let o := ws_ovl s in
  let d := dentry_of (ws_world s) newdentry in
  if negb (is_none (od_inode (odentry_at new o))) && negb (is_none (ovl_dentry_upper new o)) then
    match opaquedir with
    | Some opaque => negb (newdentry =? opaque)
    | None => negb (ovl_matches_upper new newdentry s)
    end
  else if negb (d_is_negative d) then negb new_opaque || negb (ovl_is_whiteout d)
  else negb (Z.land flags RENAME_EXCHANGE =? 0).

(** What keeps a moved file merged with, or hiding, what is below it. *)
Definition rename_marks (dentry upper : Z) (is_dir opaque samedir : bool) (into : Z) : U W Z :=
  let! merged := uovl (ovl_type_merge_or_lower dentry) in
  if merged : bool then ovl_set_redirect dentry samedir
  else
    let! merge := uovl (ovl_type_merge into) in
    if is_dir && negb opaque && merge then ovl_set_opaque_xerr dentry upper (- EXDEV) else uret 0.

(** The part under the lock of both directories. *)
Definition rename_locked (old new : Z) (flags : Z) (samedir overwrite cleanup_whiteout : bool) (opaquedir : option Z)
    (old_upperdir new_upperdir : Z) : U W Z :=
  let! is_dir := uovl (λ o, od_is_dir (odentry_at old o)) in
  let! new_is_dir := uovl (λ o, od_is_dir (odentry_at new o)) in
  let! oldparent := parent_of old in
  let! newparent := parent_of new in
  let! trap := uread (λ w, lock_rename w new_upperdir old_upperdir) in
  let! name := uovl (od_name_of old) in
  try! olddentry := ulookup name old_upperdir else! uret in
  let! matches := uget (ovl_matches_upper old olddentry) in
  if negb matches then uret (- ESTALE)
  else
    let! name := uovl (od_name_of new) in
    try! newdentry := ulookup name new_upperdir else! uret in
    let! old_opaque := uovl (ovl_dentry_is_opaque old) in
    let! new_opaque := uovl (ovl_dentry_is_opaque new) in
    let! stale := uget (rename_stale new opaquedir newdentry new_opaque flags) in
    let! same := uread (λ w, bool_decide (real_inode w (Some olddentry) = real_inode w (Some newdentry))) in
    if stale || bool_decide (trap = Some olddentry) || bool_decide (trap = Some newdentry) || same then uret (- ESTALE)
    else
      ok! rename_marks old olddentry is_dir old_opaque samedir newparent else! uret ;;!
      ok! (if negb overwrite then rename_marks new newdentry new_is_dir new_opaque samedir oldparent else uret 0) else! uret ;;!
      ok! ovl_do_rename old_upperdir olddentry new_upperdir newdentry flags else! uret ;;!
      (if cleanup_whiteout : bool then ovl_cleanup old_upperdir newdentry ;;! uret tt else uret tt) ;;!
      let! positive := uovl (λ o, negb (is_none (od_inode (odentry_at new o)))) in
      (if overwrite && positive then clear_or_drop_nlink new new_is_dir else uret tt) ;;!
      let! old_origin := uovl (ovl_type_origin old) in
      let! new_origin := uovl (ovl_type_origin new) in
      ovl_dir_modified oldparent (old_origin || (negb overwrite && new_origin)) ;;!
      let! old_origin := uovl (ovl_type_origin old) in
      let! new_origin := uovl (ovl_type_origin new) in
      ovl_dir_modified newparent (old_origin || (positive && new_origin)) ;;!
      let! oldinode := uinode old in
      ovl_copyattr oldinode ;;!
      let! new_upper := uovl (ovl_dentry_upper new) in
      (if positive && negb (is_none new_upper)
       then let! newinode := uinode new in ovl_copyattr newinode else uret tt) ;;!
      uret 0.

(** The part with the credentials of the mounter. *)
Definition rename_reverting (old new : Z) (flags : Z) (samedir overwrite cleanup_whiteout : bool) (list : list cache_entry) : U W Z :=
  try! opaquedir := clear_empty_if new list else! uret in
  let! oldparent := parent_of old in
  let! newparent := parent_of new in
  let! old_dir := uovl (ovl_dentry_upper oldparent) in
  let! new_dir := uovl (ovl_dentry_upper newparent) in
  let old_upperdir := default 0 old_dir in
  let new_upperdir := default 0 new_dir in
  ok! rename_impure old new samedir overwrite old_upperdir new_upperdir else! uret ;;!
  rename_locked old new flags samedir overwrite cleanup_whiteout opaquedir old_upperdir new_upperdir.

(** [olddir] and [newdir] are inodes of the overlay. *)
Definition ovl_rename (olddir old newdir new flags : Z) : U W Z :=
  let overwrite := Z.land flags RENAME_EXCHANGE =? 0 in
  let samedir := olddir =? newdir in
  if negb (Z.land flags (Z.lnot (Z.lor RENAME_EXCHANGE RENAME_NOREPLACE)) =? 0) then uret (- EINVAL)
  else
    let flags := Z.land flags (Z.lnot RENAME_NOREPLACE) in
    let! can_old := uovl (ovl_can_move old) in
    let! can_new := uovl (ovl_can_move new) in
    if negb can_old || (negb overwrite && negb can_new) then uret (- EXDEV)
    else
      let! new_is_dir := uovl (λ o, od_is_dir (odentry_at new o)) in
      let! pure := uovl (ovl_pure_upper new) in
      try! list := check_empty new (overwrite && new_is_dir && negb pure) else! uret in
      let! f := uovl (rename_flags old new flags) in
      let '(flags, cleanup_whiteout) := f in
      ok! ulift ovl_want_write else! uret ;;!
      ok! ovl_copy_up old else! uret ;;!
      let! newparent := parent_of new in
      ok! ovl_copy_up newparent else! uret ;;!
      let! positive := uovl (λ o, negb (is_none (od_inode (odentry_at new o)))) in
      let update_nlink := overwrite && positive in
      ok! (if negb overwrite then ovl_copy_up new
           else if positive then ovl_nlink_start new else uret 0)
      else! uret ;;!
      let! err := rename_reverting old new flags samedir overwrite cleanup_whiteout list in
      (if update_nlink : bool then ovl_nlink_end new else uret tt) ;;!
      uret err.
End remove.
