(* ===== verification/OvlAttr.v ===== *)
(** * Changing attributes (inode.c)

    The file is copied up first, and the change is made to the upper one. *)
From S2P Require Import Prelude CString OS OvlOptions OvlVfs OvlHandle OvlLookup OvlLayers OvlIno OvlDirFile OvlReaddir OvlWrite OvlTemp OvlInode OvlCopyUp OvlCreate.
Open Scope Z_scope.

Section attr.
Context {W : Type} {K : Vfs W} {VS : VfsStat W} {VW : VfsWrite W}.

Definition ATTR_ANY_META : Z :=
  Z.lor (Z.lor (Z.lor ATTR_MODE ATTR_UID) (Z.lor ATTR_GID ATTR_ATIME))
    (Z.lor (Z.lor ATTR_MTIME ATTR_ATIME_SET) (Z.lor ATTR_MTIME_SET ATTR_CTIME)).
(** The flags for the upper file system. *)
Definition upper_valid (valid : Z) : Z :=
  let valid := if negb (Z.land valid (Z.lor ATTR_KILL_SUID ATTR_KILL_SGID) =? 0) then Z.land valid (Z.lnot ATTR_MODE) else valid in
  Z.land (Z.land valid (Z.lnot ATTR_FILE)) (Z.lnot ATTR_OPEN).

Definition ovl_setattr (dentry : Z) (attr : iattr) : U W Z :=
  let! config := uovl (λ o, ofs_config (vs_fs o)) in
  let! inode := uinode dentry in
  ok! (if negb (c_has_override_creds config) then uread (λ w, setattr_prepare w inode attr) else uret 0) else! uret ;;!
  ok! ulift ovl_want_write else! uret ;;!
  let truncates := negb (Z.land (ia_valid attr) ATTR_SIZE =? 0) in
  ok! (if negb truncates then ovl_copy_up dentry else ovl_copy_up_with_data dentry) else! uret ;;!
  let! upper := uovl (ovl_dentry_upper dentry) in
  let upperdentry := default 0 upper in
  ok! (if truncates then ucall (λ w, get_write_access w upperdentry) else uret 0) else! uret ;;!
  let valid := upper_valid (ia_valid attr) in
  let! err := notify_change upperdentry (set_ia_valid valid attr) in
  let err := if (err =? - EPERM) && c_has_override_creds config && negb (Z.land valid ATTR_ANY_META =? 0) then 0 else err in
  (if err =? 0 then ovl_copyattr inode else uret tt) ;;!
  uret err.

(** [None] for the value removes the attribute. *)
Definition ovl_xattr_set (dentry inode : Z) (name : cstr) (value : option (list ascii)) (flags : Z) : U W Z :=
  let! upper := uovl (λ o, oi_upperdentry (oinode_at inode o)) in
  let! lower := uovl (ovl_dentry_lower dentry) in
  let realdentry := match upper with Some u => u | None => default 0 lower end in
  ok! ulift ovl_want_write else! uret ;;!
  ok! (if is_none value && is_none upper then
         let! r := uread (λ w, getxattr w realdentry name) in uret (match r with inl e => e | inr _ => 0 end)
       else uret 0)
  else! uret ;;!
  ok! (if is_none upper then ovl_copy_up dentry else uret 0) else! uret ;;!
  let! copied := uovl (ovl_dentry_upper dentry) in
  let realdentry := match upper with Some u => u | None => default 0 copied end in
  let! err :=
    match value with
    | Some value => ovl_do_setxattr realdentry name value flags
    | None => uwarn (negb (flags =? XATTR_REPLACE)) ;;! ovl_do_removexattr realdentry name
    end in
  let! config := uovl (λ o, ofs_config (vs_fs o)) in
  let err :=
    if (err =? - EPERM) && c_has_override_creds config &&
       (str_eqb name XATTR_NAME_POSIX_ACL_ACCESS || str_eqb name XATTR_NAME_POSIX_ACL_DEFAULT) then 0 else err in
  ovl_copyattr inode ;;! uret err.

Definition ovl_xattr_get (dentry inode : Z) (name : cstr) : U W (res (list ascii)) :=
  let! upper := uovl (λ o, oi_upperdentry (oinode_at inode o)) in
  let! lower := uovl (ovl_dentry_lower dentry) in
  uread (λ w, getxattr w (match upper with Some u => u | None => default 0 lower end) name).

(** Without a dentry the caller is in the RCU mode. *)
Definition ovl_get_link (dentry : option Z) : U W cstr :=
  match dentry with
  | None => ufail (- ECHILD)
  | Some dentry =>
    let! real := uovl (ovl_dentry_real dentry) in λ s, (vfs_get_link (ws_world s) (default 0 real), s)
  end.

(** The flags of the real inode, and those that only the overlay has. *)
Definition ovl_fileattr_set (dentry : Z) (fa : fileattr) : U W Z :=
  let! inode := uinode dentry in
  ok! ulift ovl_want_write else! uret ;;!
  ok! ovl_copy_up dentry else! uret ;;!
  let! path := uovl (ovl_path_real dentry) in
  let upperpath := default 0 (snd path) in
  let! p := ovl_set_protattr inode upperpath fa in
  let '(err, fa) := p in
  let! err := (if err =? 0 then ovl_real_fileattr_set upperpath fa else uret err) in
  let! real := uovl (ovl_i_path_real inode) in
  let! flags := uread (λ w, i_flags_of w (default 0 real)) in
  let! i := uget (winode_at inode) in
  let flags := Z.lor (Z.land flags OVL_COPY_I_FLAGS_MASK) (Z.land (wi_flags i) OVL_PROT_I_FLAGS_MASK) in
  update_winode inode (inode_set_flags flags OVL_COPY_I_FLAGS_MASK) ;;!
  ovl_copyattr inode ;;!
  uret err.

Definition ovl_fileattr_prot_flags (iflags : Z) (fa : fileattr) : fileattr :=
  let fa := if negb (Z.land iflags S_APPEND =? 0)
            then FileAttr (Z.lor (fa_flags fa) FS_APPEND_FL) (Z.lor (fa_xflags fa) FS_XFLAG_APPEND) else fa in
  if negb (Z.land iflags S_IMMUTABLE =? 0)
  then FileAttr (Z.lor (fa_flags fa) FS_IMMUTABLE_FL) (Z.lor (fa_xflags fa) FS_XFLAG_IMMUTABLE) else fa.
(** An error leaves what the caller has passed. *)
Definition ovl_fileattr_get (dentry : Z) (fa : fileattr) : U W (Z * fileattr) :=
  let! inode := uinode dentry in
  let! path := uovl (ovl_path_real dentry) in
  let! r := ovl_real_fileattr_get (default 0 (snd path)) in
  let! i := uget (winode_at inode) in
  let fa := match r with inr fa => fa | inl _ => fa end in
  uret (match r with inl e => e | inr _ => 0 end, ovl_fileattr_prot_flags (wi_flags i) fa).
End attr.
