(* ===== verification/OvlWorkdir.v ===== *)
(** * Work directories (readdir.c, super.c)

    A mount empties the work directory that an earlier one has left behind,
    and the index directory of what is stale.  What an incompatible feature
    has left there is not removed, and stops the mount. *)
From S2P Require Import Prelude CString OS OvlOptions OvlVfs OvlHandle OvlLookup OvlLayers OvlIno OvlReaddir OvlDirFile OvlWrite OvlTemp OvlInode OvlCopyUp OvlCreate.
Open Scope Z_scope.

Definition OVL_WORKDIR_NAME : cstr := lit "work".
Definition OVL_INDEXDIR_NAME : cstr := lit "index".
Definition OVL_INCOMPATDIR_NAME : cstr := lit "incompat".

Section workdir.
Context {W : Type} {K : Vfs W} {VS : VfsStat W} {VW : VfsWrite W} {R : RbLib}.

(** ** Cleaning (readdir.c) *)

(** The entries of a directory of the upper file system, and the error. *)
Definition read_entries (dir : Z) : U W (Z * list cache_entry) :=
  let! r := ulift (ovl_dir_read ovl_fill_merge dir (new_rdd None)) in
  let '(err, r) := r in uret (err, listed r).

(** The loop over them; [clean] is [ovl_workdir_cleanup] at this level. *)
Fixpoint clean_entries (clean : Z → U W Z) (dir : Z) (incompat : bool) (list : list cache_entry) : U W Z :=
  match list with
  | [] => uret 0
  | p :: list =>
    let name := ce_name p in
    let dotted := char_eqb (default NUL (head name)) "." in
    if is_dot name || is_dotdot name then clean_entries clean dir incompat list
    else if negb dotted && incompat then uret (- EINVAL)
    else
      try! dentry := ulookup name dir else! (λ _, clean_entries clean dir incompat list) in
      let! d := udentry dentry in
      ok! (match de_inode d with Some _ => clean dentry | None => uret 0 end) else! uret ;;!
      clean_entries clean dir incompat list
  end.
Definition ovl_workdir_cleanup_recurse (clean : Z → Z → Z → U W Z) (path level : Z) : U W Z :=
  let! d := udentry path in
  let incompat := (level =? 2) && str_eqb (de_name d) OVL_INCOMPATDIR_NAME in
  let! r := read_entries path in
  let '(err, list) := r in
  if negb (err =? 0) then uret err else clean_entries (λ dentry, clean path dentry level) path incompat list.

(** [levels] is how many more there can be: the second one is the last. *)
Fixpoint workdir_cleanup (levels : nat) (dir dentry level : Z) : U W Z :=
  let! d := udentry dentry in
  if negb (d_is_dir d) || (1 <? level) then ovl_cleanup dir dentry
  else
    let! err := ovl_do_rmdir dir dentry in
    if err =? 0 then uret 0
    else
      match levels with
      | O => uret (- EIO)
      | S levels =>
        ok! ovl_workdir_cleanup_recurse (workdir_cleanup levels) dentry (level + 1) else! uret ;;!
        ovl_cleanup dir dentry
      end.
Definition ovl_workdir_cleanup (dir dentry level : Z) : U W Z := workdir_cleanup 2 dir dentry level.

Fixpoint clean_indices (indexdir : Z) (nfs_export : bool) (list : list cache_entry) : U W Z :=
  match list with
  | [] => uret 0
  | p :: list =>
    let name := ce_name p in
    if is_dot name || is_dotdot name then clean_indices indexdir nfs_export list
    else
      try! index := ulookup name indexdir else! uret in
      let! d := udentry index in
      if char_eqb (default NUL (head (de_name d))) "#" then
        ok! ovl_workdir_cleanup indexdir index 1 else! uret ;;! clean_indices indexdir nfs_export list
      else
        let! err := ulift (ovl_verify_index index) in
        ok! (if err =? 0 then uret 0
             else if err =? - ESTALE then ovl_cleanup indexdir index
             else if negb (err =? - ENOENT) then uret err
             else if nfs_export then ovl_cleanup_and_whiteout indexdir index
             else ovl_cleanup indexdir index)
        else! uret ;;! clean_indices indexdir nfs_export list
  end.
Definition ovl_indexdir_cleanup : U W Z :=
  let! dir := ulift ovl_indexdir in
  let indexdir := default 0 dir in
  let! r := read_entries indexdir in
  let '(err, list) := r in
  let! config := uovl (λ o, ofs_config (vs_fs o)) in
  if negb (err =? 0) then uret err else clean_indices indexdir (c_nfs_export config) list.

(** ** Making (super.c) *)

Definition acl_removed (err : Z) : bool := (err =? 0) || (err =? - ENODATA) || (err =? - EOPNOTSUPP).
(** [work] is negative: make the directory; [None] is NULL. *)
Definition workdir_make (dir work : Z) : U W (option Z) :=
  let mode := UMode (Some S_IFDIR) 0 in
  let! r := ovl_mkdir_real dir work mode in
  let '(err, work) := r in
  if negb (err =? 0) then uret None
  else
    let! d := udentry work in
    if is_none (de_inode d) then uret None
    else
      let! err := ovl_do_removexattr work XATTR_NAME_POSIX_ACL_DEFAULT in
      if negb (acl_removed err) then uret None
      else
        let! err := ovl_do_removexattr work XATTR_NAME_POSIX_ACL_ACCESS in
        if negb (acl_removed err) then uret None
        else
          let! err := notify_change work (IAttr ATTR_MODE mode 0 0 0 0 0) in
          uret (if err =? 0 then Some work else None).
(** One turn; [exists_] says what to do with a directory that is there. *)
Definition workdir_turn (workbasedir : Z) (name : cstr) (exists_ : Z → U W (option Z)) : U W (option Z) :=
  try! work := ulookup name workbasedir else! (λ _, uret None) in
  let! d := udentry work in
  match de_inode d with
  | Some _ => exists_ work
  | None => workdir_make workbasedir work
  end.
Definition ovl_workdir_create (workbasedir : Z) (name : cstr) (persist : bool) : U W (option Z) :=
  workdir_turn workbasedir name (λ work,
    if persist then uret (Some work)
    else
      let! err := ovl_workdir_cleanup workbasedir work 0 in
      if err =? - EINVAL then ufail err
      else workdir_turn workbasedir name (λ _, uret None)).

(** 1: supported; 0: not; an error. *)
Definition ovl_check_rename_whiteout : U W Z :=
  let! wd := ovl_workdir in
  let workdir := default 0 wd in
  try! temp := ovl_create_temp workdir (OVL_CATTR (UMode (Some S_IFREG) 0)) else! uret in
  try! dest := ovl_lookup_temp workdir else! uret in
  let! d := udentry temp in
  let! err := ovl_do_rename workdir temp workdir dest RENAME_WHITEOUT in
  let! err :=
    (if negb (err =? 0) then uret (if err =? - EINVAL then 0 else err)
     else
       try! whiteout := ulookup (de_name d) workdir else! uret in
       let! w := udentry whiteout in
       if ovl_is_whiteout w then ovl_cleanup workdir whiteout ;;! uret 1 else uret 0) in
  ovl_cleanup workdir temp ;;! uret err.

Definition ovl_lookup_or_create (parent : Z) (name : cstr) (mode : umode) : U W Z :=
  let! child := ulookup name parent in
  let! d := udentry child in
  match de_inode d with
  | Some _ => uret child
  | None => ovl_create_real parent (inr child) (OVL_CATTR mode)
  end.
Fixpoint create_path (d : Z) (names : list cstr) : U W Z :=
  match names with
  | [] => uret d
  | name :: names =>
    let! d := ovl_lookup_or_create d name (UMode (Some (match names with [] => S_IFREG | _ :: _ => S_IFDIR end)) 0) in
    create_path d names
  end.
Definition volatile_path : list cstr := [OVL_WORKDIR_NAME; OVL_INCOMPATDIR_NAME; lit "volatile"; lit "dirty"].
Definition ovl_create_volatile_dirty (workbasedir : Z) : U W Z :=
  try! d := create_path workbasedir volatile_path else! uret in uret 0.
End workdir.
