(* ===== verification/OvlSuper.v ===== *)
(** * Mounting the overlay (super.c)

    [ovl_fill_super]: the options, the upper directory with its work and index
    directories, the lower ones, and the root.  Whatever fails, what was taken
    is given back. *)
From S2P Require Import Prelude CString OS OvlOptions OvlVfs OvlHandle OvlLookup OvlLayers OvlIno OvlReaddir OvlDirFile OvlWrite OvlTemp OvlInode OvlCopyUp OvlCreate OvlWorkdir.
Open Scope Z_scope.

(** ** The state *)

(** What mounting needs of the VFS besides [MountLib]; file systems and mounts
    are named by a dentry of theirs. *)
Class SuperLib (W : Type) := {
  same_user_ns : W → bool;
  mnt_is_readonly : W → Z → bool;
  s_magic : W → Z → Z;
  sb_nosec : W → Z → bool;
  errseq_sample : W → Z → Z;
  errseq_check : W → Z → Z → Z;               (** 0 or the error since the sample *)
  sync_filesystem : W → Z → Z * W;
  d_alloc_root : W → Z                        (** the address of the new dentry *)
}.
Definition SHIFTFS_MAGIC : Z := 1784965730.   (** 0x6a656a62 *)

(** The super block and [struct ovl_fs]: the part that the layers are set up
    in, the objects, and the rest. *)
Record super (W : Type) := Super {
  su_mount : mount_fs;
  su_ws : wstate W;
  su_workbasedir : option Z;
  su_workdir_trap : option Z;
  su_upperdir_locked : bool;
  su_workdir_locked : bool;
  su_rename_whiteout : bool;
  su_rdonly : bool;
  su_nosec : bool;
  su_errseq : Z;
  su_fsids : option (Z * Z);                  (** of [creator_cred], when they are overridden *)
  su_export : bool                            (** [s_export_op] is set *)
}.
Arguments Super {W}.
Arguments su_mount {W}.
Arguments su_ws {W}.
Arguments su_workbasedir {W}.
Arguments su_workdir_trap {W}.
Arguments su_upperdir_locked {W}.
Arguments su_workdir_locked {W}.
Arguments su_rename_whiteout {W}.
Arguments su_rdonly {W}.
Arguments su_nosec {W}.
Arguments su_errseq {W}.
Arguments su_fsids {W}.
Arguments su_export {W}.

Section setters.
Context {W : Type}.
Implicit Types s : super W.
Definition set_su_mount (x : mount_fs) s : super W :=
  Super x (su_ws s) (su_workbasedir s) (su_workdir_trap s) (su_upperdir_locked s) (su_workdir_locked s) (su_rename_whiteout s) (su_rdonly s) (su_nosec s) (su_errseq s) (su_fsids s) (su_export s).
Definition set_su_ws (x : wstate W) s : super W :=
  Super (su_mount s) x (su_workbasedir s) (su_workdir_trap s) (su_upperdir_locked s) (su_workdir_locked s) (su_rename_whiteout s) (su_rdonly s) (su_nosec s) (su_errseq s) (su_fsids s) (su_export s).
Definition set_su_workbasedir (x : option Z) s : super W :=
  Super (su_mount s) (su_ws s) x (su_workdir_trap s) (su_upperdir_locked s) (su_workdir_locked s) (su_rename_whiteout s) (su_rdonly s) (su_nosec s) (su_errseq s) (su_fsids s) (su_export s).
Definition set_su_workdir_trap (x : option Z) s : super W :=
  Super (su_mount s) (su_ws s) (su_workbasedir s) x (su_upperdir_locked s) (su_workdir_locked s) (su_rename_whiteout s) (su_rdonly s) (su_nosec s) (su_errseq s) (su_fsids s) (su_export s).
Definition set_su_upperdir_locked (x : bool) s : super W :=
  Super (su_mount s) (su_ws s) (su_workbasedir s) (su_workdir_trap s) x (su_workdir_locked s) (su_rename_whiteout s) (su_rdonly s) (su_nosec s) (su_errseq s) (su_fsids s) (su_export s).
Definition set_su_workdir_locked (x : bool) s : super W :=
  Super (su_mount s) (su_ws s) (su_workbasedir s) (su_workdir_trap s) (su_upperdir_locked s) x (su_rename_whiteout s) (su_rdonly s) (su_nosec s) (su_errseq s) (su_fsids s) (su_export s).
Definition set_su_rename_whiteout (x : bool) s : super W :=
  Super (su_mount s) (su_ws s) (su_workbasedir s) (su_workdir_trap s) (su_upperdir_locked s) (su_workdir_locked s) x (su_rdonly s) (su_nosec s) (su_errseq s) (su_fsids s) (su_export s).
Definition set_su_rdonly (x : bool) s : super W :=
  Super (su_mount s) (su_ws s) (su_workbasedir s) (su_workdir_trap s) (su_upperdir_locked s) (su_workdir_locked s) (su_rename_whiteout s) x (su_nosec s) (su_errseq s) (su_fsids s) (su_export s).
Definition set_su_nosec (x : bool) s : super W :=
  Super (su_mount s) (su_ws s) (su_workbasedir s) (su_workdir_trap s) (su_upperdir_locked s) (su_workdir_locked s) (su_rename_whiteout s) (su_rdonly s) x (su_errseq s) (su_fsids s) (su_export s).
Definition set_su_errseq (x : Z) s : super W :=
  Super (su_mount s) (su_ws s) (su_workbasedir s) (su_workdir_trap s) (su_upperdir_locked s) (su_workdir_locked s) (su_rename_whiteout s) (su_rdonly s) (su_nosec s) x (su_fsids s) (su_export s).
Definition set_su_fsids (x : option (Z * Z)) s : super W :=
  Super (su_mount s) (su_ws s) (su_workbasedir s) (su_workdir_trap s) (su_upperdir_locked s) (su_workdir_locked s) (su_rename_whiteout s) (su_rdonly s) (su_nosec s) (su_errseq s) x (su_export s).
Definition set_su_export (x : bool) s : super W :=
  Super (su_mount s) (su_ws s) (su_workbasedir s) (su_workdir_trap s) (su_upperdir_locked s) (su_workdir_locked s) (su_rename_whiteout s) (su_rdonly s) (su_nosec s) (su_errseq s) (su_fsids s) x.

(** Members of the objects that mounting sets. *)
Definition set_ws_workdir (x : option Z) (s : wstate W) : wstate W :=
  WState (ws_ovl s) x (ws_whiteout s) (ws_share_whiteout s) (ws_tmpfile s) (ws_temp_id s) (ws_last_ino s) (ws_inodes s) (ws_hash s) (ws_next_inode s) (ws_unhashed s).
Definition set_ws_tmpfile (x : bool) (s : wstate W) : wstate W :=
  WState (ws_ovl s) (ws_workdir s) (ws_whiteout s) (ws_share_whiteout s) x (ws_temp_id s) (ws_last_ino s) (ws_inodes s) (ws_hash s) (ws_next_inode s) (ws_unhashed s).
Definition set_ofs_indexdir (x : option Z) (f : ovl_fs) : ovl_fs :=
  OvlFs (ofs_upper_mnt f) (ofs_lowers f) x (ofs_namelen f) (ofs_config f) (ofs_noxattr f) (ofs_xino_mode f) (ofs_traps f).
Definition set_vs_root (x : Z) (o : vstate W) : vstate W := VState (vs_world o) (vs_fs o) x (vs_dentries o) (vs_inodes o) (vs_warned o).

(** [struct ovl_fs] as the rest of the module sees it. *)
Definition ofs_of (m : mount_fs) (f : ovl_fs) : ovl_fs :=
  OvlFs (mf_upper m) (layer_of m <$> mf_layers m) (ofs_indexdir f) (mf_namelen m) (mf_config m) (ofs_noxattr f) (mf_xino_mode m) (mf_traps m).
Definition synced s : wstate W :=
  let ws := su_ws s in set_ws_ovl (set_vs_fs (ofs_of (su_mount s) (vs_fs (ws_ovl ws))) (ws_ovl ws)) ws.

(** A failed function leaves what it did so far. *)
Definition SB (A : Type) : Type := super W → res A * super W.
Definition sret {A} (a : A) : SB A := λ s, (inr a, s).
Definition sfail {A} (e : Z) : SB A := λ s, (inl e, s).
Definition sbind {A B} (m : SB A) (f : A → SB B) : SB B :=
  λ s, let '(r, s') := m s in match r with inl e => (inl e, s') | inr a => f a s' end.
Definition sget {A} (f : super W → A) : SB A := λ s, (inr (f s), s).
Definition sread {A} (f : W → A) : SB A := sget (λ s, f (ws_world (su_ws s))).
Definition supdate (f : super W → super W) : SB unit := λ s, (inr tt, f s).
(** The functions of the other components. *)
Definition slift {A} (m : U W A) : SB A := λ s, let '(r, ws) := m (synced s) in (r, set_su_ws ws s).
Definition smount {A} (f : W → mount_fs → res (A * mount_fs)) : SB A := λ s,
  match f (ws_world (su_ws s)) (su_mount s) with inl e => (inl e, s) | inr (a, m) => (inr a, set_su_mount m s) end.
(** An [int] that is not 0, or not negative, is an error. *)
Definition scheck (m : SB Z) : SB unit := sbind m (λ err, if err =? 0 then sret tt else sfail err).
Definition snonneg (m : SB Z) : SB Z := sbind m (λ err, if err <? 0 then sfail err else sret err).
Definition supdate_mount (f : mount_fs → mount_fs) : SB unit := supdate (λ s, set_su_mount (f (su_mount s)) s).
Definition supdate_ws (f : wstate W → wstate W) : SB unit := supdate (λ s, set_su_ws (f (su_ws s)) s).
Definition supdate_fs (f : ovl_fs → ovl_fs) : SB unit :=
  supdate_ws (λ ws, set_ws_ovl (set_vs_fs (f (vs_fs (ws_ovl ws))) (ws_ovl ws)) ws).
(** [goto out_err]. *)
Definition son_error {A} (m : SB A) (undo : SB unit) : SB A := λ s,
  let '(r, s') := m s in match r with inl e => (inl e, snd (undo s')) | inr a => (inr a, s') end.
End setters.
Arguments SB : clear implicits.

Notation "'let^' x := m 'in' k" := (sbind m (fun x => k)) (at level 10, x pattern, k at level 200) : ovl_scope.
Notation "m ;;^ k" := (sbind m (fun _ => k)) (at level 100, k at level 200, right associativity) : ovl_scope.

Section super.
Context {W : Type} {K : Vfs W} {VS : VfsStat W} {VW : VfsWrite W} {R : RbLib} {L : MountLib W} {SL : SuperLib W}.
Implicit Types s : super W.

(** ** The upper directory *)

Definition skmalloc : SB W unit :=
  let^ ok := slift ukmalloc in if ok : bool then sret tt else sfail (- ENOMEM).
Definition ovl_mount_dir (name : cstr) : SB W path :=
  skmalloc ;;^
  let^ p := (λ s, (ovl_mount_dir_noesc (ws_world (su_ws s)) (ovl_unescape name), s)) in
  let^ real := sread (λ w, DCACHE_OP_REAL (de_flags (dentry_of w (pa_dentry p)))) in
  let^ magic := sread (λ w, s_magic w (pa_dentry p)) in
  if real && negb (magic =? SHIFTFS_MAGIC) then sfail (- EINVAL) else sret p.

Definition setup_trap (dir : Z) : SB W unit := smount (λ w m, let+ m := ovl_setup_trap w dir m in inr (tt, m)).
Definition trylock (dir : Z) : SB W bool := smount (λ w m, inr (ovl_inuse_trylock w dir m)).
Definition report_in_use : SB W unit := scheck (sget (λ s, ovl_report_in_use (su_mount s))).

(** The path of the upper directory. *)
Definition ovl_get_upper (upperdir : cstr) : SB W path :=
  let^ upperpath := ovl_mount_dir upperdir in
  let^ readonly := sread (λ w, mnt_is_readonly w (pa_mnt upperpath)) in
  if readonly : bool then sfail (- EINVAL)
  else
    smount (λ w m, let+ m := ovl_check_namelen w upperpath m in inr (tt, m)) ;;^
    setup_trap (pa_dentry upperpath) ;;^
    let^ upper_mnt := (λ s, (clone_private_mount (ws_world (su_ws s)) upperpath, s)) in
    supdate_mount (set_mf_upper (Some upper_mnt)) ;;^
    let^ nosec := sread (λ w, sb_nosec w upper_mnt) in
    (if nosec : bool then supdate (set_su_nosec true) else sret tt) ;;^
    let^ locked := trylock upper_mnt in
    (if locked : bool then supdate (set_su_upperdir_locked true) else report_in_use) ;;^
    sret upperpath.

(** ** The work directory *)

Definition ovl_workdir_ok (workdir upperdir : Z) (w : W) : bool :=
  negb (workdir =? upperdir) && is_none (lock_rename w workdir upperdir).
Definition ovl_force_readonly s : bool := is_none (mf_upper (su_mount s)) || is_none (ws_workdir (su_ws s)).

Definition on_config_of (f : ovl_config → ovl_config) : SB W unit := supdate_mount (on_mf_config f).
(** Can the file system of the work directory have attributes? *)
Definition check_xattrs (workdir : Z) : SB W unit :=
  let^ err := slift (ulift (ovl_setxattr workdir OVL_XATTR_OPAQUE (lit "0"))) in
  if negb (err =? 0) then
    supdate_fs set_noxattr ;;^
    on_config_of (λ c, if c_index c || c_metacopy c then set_c_metacopy false (set_c_index false c) else c) ;;^
    on_config_of (λ c, if c_xino c =? OVL_XINO_AUTO then set_c_xino OVL_XINO_OFF c else c)
  else slift (ulift (ovl_removexattr workdir OVL_XATTR_OPAQUE)) ;;^ sret tt.
(** Can it have file handles, and how wide are its inode numbers? *)
Definition check_handles (workdir : Z) : SB W unit :=
  let^ fh_type := sread (λ w, ovl_can_decode_fh w (sb_of w workdir)) in
  on_config_of (λ c, if c_index c && (fh_type =? 0) then set_c_index false c else c) ;;^
  (if negb (fh_type =? FILEID_INO32_GEN) then supdate_mount (set_mf_xino_mode (-1)) else sret tt) ;;^
  on_config_of (λ c, if c_nfs_export c && negb (c_index c) then set_c_nfs_export false c else c).

(** What the file system of the work directory can do. *)
Definition probe_workdir (workpath : path) (base workdir : Z) : SB W unit :=
  setup_trap workdir ;;^
  let^ key := sread (λ w, inode_addr w workdir) in
  supdate (set_su_workdir_trap (Some key)) ;;^
  let^ d_type := snonneg (slift (ulift (ovl_check_d_type_supported (pa_dentry workpath)))) in
  let^ tmpfile := slift (utry (ovl_do_tmpfile workdir (UMode (Some S_IFREG) 0)) (λ _, uret false) (λ _, uret true)) in
  supdate_ws (set_ws_tmpfile tmpfile) ;;^
  let^ rename_whiteout := snonneg (slift ovl_check_rename_whiteout) in
  supdate (set_su_rename_whiteout (negb (rename_whiteout =? 0))) ;;^
  check_xattrs workdir ;;^
  let^ remote := sread (λ w, ovl_dentry_remote (dentry_of w workdir)) in
  let^ noxattr := sget (λ s, ofs_noxattr (vs_fs (ws_ovl (su_ws s)))) in
  if remote && ((d_type =? 0) || (rename_whiteout =? 0) || noxattr) then sfail (- EINVAL)
  else
    let^ config := sget (λ s, mf_config (su_mount s)) in
    (if c_ovl_volatile config then snonneg (slift (ovl_create_volatile_dirty base)) ;;^ sret tt else sret tt) ;;^
    check_handles workdir.
(** Without a work directory the mount is read-only, and this is no error. *)
Definition ovl_make_workdir (workpath : path) : SB W unit :=
  let^ base := sget (λ s, default 0 (su_workbasedir s)) in
  scheck (slift (ulift ovl_want_write)) ;;^
  let^ workdir := slift (ovl_workdir_create base OVL_WORKDIR_NAME false) in
  match workdir with
  | None => sret tt
  | Some workdir => supdate_ws (set_ws_workdir (Some workdir)) ;;^ probe_workdir workpath base workdir
  end.

Definition ovl_get_workdir (name : cstr) (upperpath : path) : SB W unit :=
  let^ workpath := ovl_mount_dir name in
  let^ ok := sread (ovl_workdir_ok (pa_dentry workpath) (pa_dentry upperpath)) in
  if negb (pa_mnt upperpath =? pa_mnt workpath) || negb ok then sfail (- EINVAL)
  else
    supdate (set_su_workbasedir (Some (pa_dentry workpath))) ;;^
    let^ locked := trylock (pa_dentry workpath) in
    (if locked : bool then supdate (set_su_workdir_locked true) else report_in_use) ;;^
    setup_trap (pa_dentry workpath) ;;^
    ovl_make_workdir workpath.

(** The index must be that of this upper directory.  The verification of an old
    origin attribute is forgotten. *)
Definition probe_indexdir (upper indexdir : Z) : SB W unit :=
  setup_trap indexdir ;;^
  let^ origin := slift (ulift (ovl_check_origin_xattr indexdir)) in
  (if origin : bool then slift (ulift (ovl_verify_set_fh indexdir OVL_XATTR_ORIGIN upper true false)) ;;^ sret tt else sret tt) ;;^
  scheck (slift (ulift (ovl_verify_upper indexdir upper true))) ;;^
  scheck (slift ovl_indexdir_cleanup).
(** The index directory takes the place of the work directory, whose trap is
    dropped. *)
Definition ovl_get_indexdir (lower upper : Z) : SB W unit :=
  scheck (slift (ulift ovl_want_write)) ;;^
  scheck (slift (ulift (ovl_verify_origin upper lower true))) ;;^
  let^ base := sget (λ s, default 0 (su_workbasedir s)) in
  let^ trap := sget su_workdir_trap in
  supdate_mount (λ m, set_mf_traps (List.filter (λ k, negb (bool_decide (trap = Some k))) (mf_traps m)) m) ;;^
  supdate (set_su_workdir_trap None) ;;^
  supdate_ws (set_ws_workdir None) ;;^
  let^ indexdir := slift (ovl_workdir_create base OVL_INDEXDIR_NAME true) in
  match indexdir with
  | None => sret tt
  | Some indexdir =>
    supdate_fs (set_ofs_indexdir (Some indexdir)) ;;^
    supdate_ws (set_ws_workdir (Some indexdir)) ;;^
    probe_indexdir upper indexdir
  end.

(** ** The root *)

(** [None] is NULL. *)
Definition ovl_get_root (upperdentry : option Z) (lowerstack : list ovl_path) : SB W (option Z) :=
  let lowerpath := head lowerstack in
  let^ inode := slift (ovl_new_inode (UMode (Some S_IFDIR) 0) 0) in
  let^ memory := slift ukmalloc in
  match inode, memory : bool with
  | Some inode, true =>
    let^ root := sread d_alloc_root in
    let^ real := sread (λ w, de_inode (dentry_of w (default (from_option p_dentry 0 lowerpath) upperdentry))) in
    let fsid := match upperdentry with Some _ => 0 | None => from_option (λ p, l_fsid (p_layer p)) 0 lowerpath end in
    slift (ulift (vupdate (λ o, set_vs_dentries (<[root := OvlDentry (lit "/") root true false (Some inode) false
      (negb (is_none upperdentry)) false true lowerstack]> (vs_dentries o)) o))) ;;^
    let^ impure := match upperdentry with Some u => slift (ulift (ovl_is_impuredir u)) | None => sret false end in
    slift ((if impure : bool then update_oinode inode set_impure_flag else uret tt) ;;!
           update_oinode inode set_whiteouts_flag ;;!
           update_oinode inode set_upperdata_flag ;;!
           ovl_inode_init inode (Oip None upperdentry lowerpath false 0 None None) (from_option i_ino 0 real) fsid) ;;^
    sret (Some root)
  | _, _ => sret None
  end.

(** ** The whole mount *)

(** What has been taken: the traps, the directories marked as in use, the
    mounts. *)
Definition ovl_free_fs : SB W unit :=
  let^ s := sget id in
  let w := ws_world (su_ws s) in
  supdate_ws (λ ws, set_ws_workdir None (set_ws_whiteout None ws)) ;;^
  supdate_fs (set_ofs_indexdir None) ;;^
  (if su_workdir_locked s then supdate_mount (ovl_inuse_unlock w (su_workbasedir s)) else sret tt) ;;^
  (if su_upperdir_locked s then supdate_mount (ovl_inuse_unlock w (mf_upper (su_mount s))) else sret tt) ;;^
  supdate_mount (λ m, set_mf_traps [] (set_mf_layers [] (set_mf_fs [] (set_mf_upper None m)))).

Section fill.
Context {P : ParserLib} (md : ovl_module) (mem : nat → bool) (fuel : nat).

(** [BITS_PER_LONG] is 64. *)
Definition initial_xino_mode (m : mount_fs) : mount_fs :=
  if negb (c_xino (mf_config m) =? OVL_XINO_OFF) then set_mf_xino_mode 32 m else m.

(** The part for a mount with an upper directory: its path. *)
Definition fill_upper_dir (config : ovl_config) : SB W (option path) :=
  match c_upperdir config with
  | None => sret None
  | Some upperdir =>
    match c_workdir config with
    | None => sfail (- EINVAL)
    | Some workdir =>
      let^ upperpath := ovl_get_upper upperdir in
      let^ upper := sget (λ s, default 0 (mf_upper (su_mount s))) in
      (if negb (ovl_should_sync config) then
         let^ errseq := sread (λ w, errseq_sample w upper) in
         supdate (set_su_errseq errseq) ;;^
         let^ unseen := sread (λ w, errseq_check w upper errseq) in
         if negb (unseen =? 0) then sfail (- EIO) else sret tt
       else sret tt) ;;^
      ovl_get_workdir workdir upperpath ;;^
      let^ made := sget (λ s, ws_workdir (su_ws s)) in
      (if is_none made then supdate (set_su_rdonly true) else sret tt) ;;^
      let^ depth := sread (λ w, s_stack_depth w upper) in
      supdate_mount (set_mf_stack_depth depth) ;;^
      sret (Some upperpath)
    end
  end.
(** The lower layers; without an upper one, nothing is written. *)
Definition fill_lower (lower : list cstr) : SB W (list ovl_path) :=
  let^ oe := smount (λ w m, ovl_get_lowerstack w lower m) in
  let^ upper := sget (λ s, mf_upper (su_mount s)) in
  (if is_none upper then supdate (set_su_rdonly true) else sret tt) ;;^
  sret oe.
(** The index directory, and the features that need it. *)
Definition fill_index (upper : option path) (oe : list ovl_path) : SB W unit :=
  let^ use := sget (λ s, negb (ovl_force_readonly s) && c_index (mf_config (su_mount s))) in
  if use : bool then
    ovl_get_indexdir (from_option p_dentry 0 (head oe)) (from_option pa_dentry 0 upper) ;;^
    let^ indexdir := sget (λ s, ofs_indexdir (vs_fs (ws_ovl (su_ws s)))) in
    if is_none indexdir then supdate (set_su_rdonly true) else sret tt
  else sret tt.
Definition settle_config : SB W unit :=
  let^ indexdir := sget (λ s, ofs_indexdir (vs_fs (ws_ovl (su_ws s)))) in
  let^ upper := sget (λ s, mf_upper (su_mount s)) in
  (if is_none indexdir then
     on_config_of (set_c_index false) ;;^
     on_config_of (λ c, if negb (is_none upper) && c_nfs_export c then set_c_nfs_export false c else c)
   else sret tt) ;;^
  on_config_of (λ c, if c_metacopy c && c_nfs_export c then set_c_nfs_export false c else c) ;;^
  let^ config := sget (λ s, mf_config (su_mount s)) in
  if c_nfs_export config then supdate (set_su_export true) else sret tt.

(** From the options on. *)
Definition fill_from (data : option cstr) : SB W unit :=
  let^ config :=
    (match ovl_parse_opt md mem data (initial_config md) with inl e => sfail e | inr c => sret c end) in
  supdate_mount (set_mf_config config) ;;^
  (if c_has_override_creds config
   then supdate (set_su_fsids (Some (c_override_uid config, c_override_gid config))) else sret tt) ;;^
  match c_lowerdir config with
  | None => sfail (- EINVAL)
  | Some lowerdir =>
    skmalloc ;;^
    let lower := ovl_split_lowerdirs lowerdir in
    if OVL_MAX_STACK <? Z.of_nat (length lower) then sfail (- EINVAL)
    else
      skmalloc ;;^
      supdate_mount (λ m, initial_xino_mode (set_mf_stack_depth 0 m)) ;;^
      supdate_ws (set_ws_last_ino 1) ;;^
      let^ upperpath := fill_upper_dir config in
      let^ oe := fill_lower lower in
      let^ m := sget su_mount in
      (if negb (c_uuid (mf_config m)) && (1 <? numfs m) then on_config_of (set_c_uuid true) else sret tt) ;;^
      fill_index upperpath oe ;;^
      let^ base := sget su_workbasedir in
      scheck (λ s, (inr (ovl_check_overlapping_layers (ws_world (su_ws s)) fuel base (su_mount s)), s)) ;;^
      settle_config ;;^
      let^ root := ovl_get_root (pa_dentry <$> upperpath) oe in
      match root with
      | None => sfail (- ENOMEM)
      | Some root => slift (ulift (vupdate (set_vs_root root)))
      end
  end.

(** The new [struct ovl_fs]; the world, the inodes in use and the devices taken
    by others are what they are. *)
Definition new_super (s : super W) : super W :=
  let ws := su_ws s in
  let m := su_mount s in
  Super (MountFs (initial_config md) None [] [] [] 0 0 0 (mf_bdevs m) (mf_inuse m))
    (WState (VState (ws_world ws) (OvlFs None [] None 0 (initial_config md) false 0 []) 0 ∅ ∅ false)
       None None true false (ws_temp_id ws) 0 ∅ ∅ (ws_next_inode ws) ∅)
    None None false false false false false 0 None false.
Definition ovl_fill_super (data : option cstr) : SB W unit :=
  let^ same := sread same_user_ns in
  if negb same then sfail (- EIO)
  else
    skmalloc ;;^
    supdate new_super ;;^
    son_error (skmalloc ;;^ fill_from data) ovl_free_fs.
End fill.

(** ** The mounted file system *)

Definition ovl_put_super : SB W unit := ovl_free_fs.

Definition ovl_sync_status : SB W Z :=
  let^ config := sget (λ s, mf_config (su_mount s)) in
  if ovl_should_sync config then sret 1
  else
    let^ upper := sget (λ s, mf_upper (su_mount s)) in
    let^ errseq := sget su_errseq in
    match upper with
    | None => sret 0
    | Some mnt => sread (λ w, errseq_check w mnt errseq)
    end.
Definition sync_upper : SB W Z := slift (
  let! upper := uovl (λ o, ofs_upper_mnt (vs_fs o)) in ucall (λ w, sync_filesystem w (default 0 upper))).
Definition ovl_sync_fs (wait : bool) : SB W Z :=
  let^ ret := ovl_sync_status in
  if ret <? 0 then sret (- EIO)
  else if ret =? 0 then sret 0
  else if negb wait then sret 0
  else sync_upper.

(** [rdonly]: the flags ask for a read-only mount. *)
Definition ovl_remount (rdonly : bool) : SB W Z :=
  let^ forced := sget ovl_force_readonly in
  let^ already := sget su_rdonly in
  let^ config := sget (λ s, mf_config (su_mount s)) in
  if negb rdonly && forced then sret (- EROFS)
  else if rdonly && negb already && ovl_should_sync config then sync_upper
  else sret 0.

(** The length of names, and the error. *)
Definition ovl_statfs : SB W Z :=
  let^ real := slift (uovl (λ o, snd (ovl_path_real (vs_root o) o))) in
  let^ namelen := (λ s, (vfs_statfs (ws_world (su_ws s)) (Path (default 0 real) (default 0 real)), s)) in
  sget (λ s, mf_namelen (su_mount s)).
End super.
