(* ===== verification/OvlFile.v ===== *)
(** * Open files (file.c)

    An open file of the overlay has a real file of a layer.  When the file has
    been copied up since it was opened, the operations open the new real file
    for the time that they need it.

    Reference counts of real files, of requests and of mappings are modelled,
    and so is the protection of a file system from being frozen.  Locks that
    always succeed and credentials are not.  The bytes that are read or written
    are the kernel's affair: a call on a real file gives its result and the new
    position. *)
From S2P Require Import Prelude CString OS OvlOptions OvlVfs OvlHandle OvlLookup OvlLayers OvlIno OvlReaddir OvlDirFile OvlWrite OvlTemp OvlInode OvlCopyUp OvlCreate OvlAttr OvlWorkdir OvlSuper.
Open Scope Z_scope.

Definition EBADF : Z := 9.
Definition ENODEV : Z := 19.
Definition EIOCBQUEUED : Z := 529.
Definition O_CREAT : Z := 64.
Definition O_EXCL : Z := 128.
Definition O_NOCTTY : Z := 256.
Definition O_APPEND : Z := 1024.
Definition O_NONBLOCK : Z := 2048.
Definition O_NDELAY : Z := O_NONBLOCK.
Definition O_DIRECT : Z := 16384.
Definition O_LARGEFILE : Z := 32768.
Definition O_NOATIME : Z := 262144.
Definition FMODE_NONOTIFY : Z := 67108864.
Definition OVL_OPEN_FLAGS : Z := Z.lor O_NOATIME FMODE_NONOTIFY.
Definition OVL_SETFL_MASK : Z := Z.lor (Z.lor O_APPEND O_NONBLOCK) (Z.lor O_NDELAY O_DIRECT).
(** The flags that only opening looks at. *)
Definition O_OPENING : Z := Z.lor (Z.lor O_CREAT O_EXCL) (Z.lor O_NOCTTY O_TRUNC).
Definition IOCB_HIPRI : Z := 1.
Definition IOCB_DSYNC : Z := 2.
Definition IOCB_SYNC : Z := 4.
Definition IOCB_NOWAIT : Z := 8.
Definition IOCB_DIRECT : Z := 131072.
Definition IOCB_WRITE : Z := 262144.
Definition RWF_HIPRI : Z := 1.
Definition RWF_DSYNC : Z := 2.
Definition RWF_SYNC : Z := 4.
Definition RWF_NOWAIT : Z := 8.
Definition REMAP_FILE_DEDUP : Z := 1.
Definition REMAP_FILE_CAN_SHORTEN : Z := 2.
Definition REMAP_FILE_ADVISORY : Z := REMAP_FILE_CAN_SHORTEN.
Definition S_ATIME : Z := 1.
Definition has_flag (flags mask : Z) : bool := negb (Z.land flags mask =? 0).
(** The string "\004\002\006\006" of [ACC_MODE]. *)
Definition ACC_MODE (flags : Z) : Z := nth (Z.to_nat (Z.land flags O_ACCMODE)) [4; 2; 6; 6] 0.

(** ** Data *)

(** [struct file] of a layer: its inode, the dentry of its path, its flags,
    position and count. *)
Record real_file := RealFile { rf_inode : Z; rf_dentry : Z; rf_flags : Z; rf_pos : Z; rf_count : Z }.
Definition null_real : real_file := RealFile 0 0 0 0 0.
Definition set_rf_flags (x : Z) (f : real_file) : real_file := RealFile (rf_inode f) (rf_dentry f) x (rf_pos f) (rf_count f).
Definition set_rf_pos (x : Z) (f : real_file) : real_file := RealFile (rf_inode f) (rf_dentry f) (rf_flags f) x (rf_count f).
Definition set_rf_count (x : Z) (f : real_file) : real_file := RealFile (rf_inode f) (rf_dentry f) (rf_flags f) (rf_pos f) x.

(** The real files of [struct ovl_dir_file]; the rest of it is in [OvlDirFile]. *)
Record dir_real := DirReal { dr_realfile : nat; dr_is_upper : bool; dr_upperfile : option nat }.
(** [private_data]: nothing yet, the real file, or those of a directory. *)
Inductive private_data := PNull | PFile (real : nat) | PDir (od : dir_real).

(** [struct file] of the overlay. *)
Record open_file := OpenFile { of_dentry : Z; of_inode : Z; of_flags : Z; of_pos : Z; of_count : Z; of_private : private_data }.
Definition null_file : open_file := OpenFile 0 0 0 0 0 PNull.
Definition set_of_flags (x : Z) (f : open_file) : open_file := OpenFile (of_dentry f) (of_inode f) x (of_pos f) (of_count f) (of_private f).
Definition set_of_pos (x : Z) (f : open_file) : open_file := OpenFile (of_dentry f) (of_inode f) (of_flags f) x (of_count f) (of_private f).
Definition set_of_count (x : Z) (f : open_file) : open_file := OpenFile (of_dentry f) (of_inode f) (of_flags f) (of_pos f) x (of_private f).
Definition set_of_private (x : private_data) (f : open_file) : open_file := OpenFile (of_dentry f) (of_inode f) (of_flags f) (of_pos f) (of_count f) x.

(** [struct fd]: a real file, and whether it is to be given back. *)
Record fd := Fd { fd_file : nat; fd_put : bool }.

(** [struct kiocb]: a synchronous one has no [ki_complete]; what that was
    called with is the result. *)
Record kiocb := Kiocb { ki_filp : nat; ki_pos : Z; ki_flags : Z; ki_sync : bool; ki_result : option Z }.
Definition null_kiocb : kiocb := Kiocb 0 0 0 true None.
Definition set_ki_pos (x : Z) (k : kiocb) : kiocb := Kiocb (ki_filp k) x (ki_flags k) (ki_sync k) (ki_result k).
Definition set_ki_result (x : option Z) (k : kiocb) : kiocb := Kiocb (ki_filp k) (ki_pos k) (ki_flags k) (ki_sync k) x.

(** [struct ovl_aio_req], whose own [kiocb] is on the real file. *)
Record ovl_aio_req := AioReq { ar_filp : nat; ar_pos : Z; ar_flags : Z; ar_orig : nat; ar_ref : Z }.
Definition null_aio : ovl_aio_req := AioReq 0 0 0 0 0.
Definition set_ar_pos (x : Z) (r : ovl_aio_req) : ovl_aio_req := AioReq (ar_filp r) x (ar_flags r) (ar_orig r) (ar_ref r).
Definition set_ar_ref (x : Z) (r : ovl_aio_req) : ovl_aio_req := AioReq (ar_filp r) (ar_pos r) (ar_flags r) (ar_orig r) x.

(** A mapping of memory: the overlay's file, or a real one, and [vm_prfile]. *)
Inductive mapped_file := MOverlay (file : nat) | MReal (real : nat).
Record vma := Vma { vm_file : mapped_file; vm_prfile : option nat }.
Definition null_vma : vma := Vma (MOverlay 0) None.
Definition set_vm_file (x : mapped_file) (v : vma) : vma := Vma x (vm_prfile v).
Definition set_vm_prfile (x : option nat) (v : vma) : vma := Vma (vm_file v) x.

Inductive ovl_copyop := OVL_COPY | OVL_CLONE | OVL_DEDUPE.

(** What is asked of one real file. *)
Inductive file_call :=
  | FSeek (offset whence : Z)
  | FRead (pos count rwf : Z)
  | FWrite (pos count rwf : Z)
  | FSplice (pos len flags : Z)
  | FSync (first last datasync : Z)
  | FAllocate (mode offset len : Z)
  | FAdvise (offset len advice : Z)
  | FFlush (id : Z)
  | FMap (vma : nat).

(** ** The kernel *)

Class VfsFile (W : Type) := {
  (** of inodes of the layers *)
  inode_may : W → Z → Z → Z;                              (** [inode_permission] *)
  inode_owner_or_capable : W → Z → bool;
  open_with_fake_path : W → Z → Z → Z → Z * W;            (** the path's dentry, flags, inode; 0 or an error *)
  is_append : W → Z → bool;
  has_direct_IO : W → Z → bool;
  check_flags : W → Z → Z → Z;                            (** 0 as well if there is no such method *)
  has_mmap : W → Z → bool;
  has_flush : W → Z → bool;
  (** calls on real files: the result and the new position *)
  call_file : W → real_file → file_call → (Z * Z) * W;
  call_copy : W → ovl_copyop → real_file → Z → real_file → Z → Z → Z → Z * W;
  (** an asynchronous request, to write or to read, at a position: the result,
      the new position, and the result of the completion if that is over
      before the call returns *)
  submit_iocb : W → bool → real_file → Z → Z → Z → (Z * Z * option Z) * W;
  (** what [file_remove_privs] wants [setattr] to change, of a dentry and
      inode of the overlay, or its error *)
  privs_to_remove : W → Z → Z → res (option iattr);
  atime_needs_update : W → Z → bool;                      (** of an inode of the overlay *)
  touch_atime : W → Z → W                                 (** of a dentry of a layer *)
}.

(** ** The state *)

(** The super block, the open files, the real ones with the address of the
    next one, requests of the kernel and of the module, mappings, and how many
    writers keep the upper file system from being frozen. *)
Record fstate (W : Type) := FState {
  fs_super : super W;
  fs_files : gmap nat open_file;
  fs_reals : gmap nat real_file;
  fs_next : nat;
  fs_iocbs : gmap nat kiocb;
  fs_aios : gmap nat ovl_aio_req;
  fs_next_aio : nat;
  fs_vmas : gmap nat vma;
  fs_writers : Z
}.
Arguments FState {W}.
Arguments fs_super {W}.
Arguments fs_files {W}.
Arguments fs_reals {W}.
Arguments fs_next {W}.
Arguments fs_iocbs {W}.
Arguments fs_aios {W}.
Arguments fs_next_aio {W}.
Arguments fs_vmas {W}.
Arguments fs_writers {W}.

Section monad.
Context {W : Type}.
Implicit Types s : fstate W.
Definition set_fs_super (x : super W) s : fstate W :=
  FState x (fs_files s) (fs_reals s) (fs_next s) (fs_iocbs s) (fs_aios s) (fs_next_aio s) (fs_vmas s) (fs_writers s).
Definition set_fs_files (x : gmap nat open_file) s : fstate W :=
  FState (fs_super s) x (fs_reals s) (fs_next s) (fs_iocbs s) (fs_aios s) (fs_next_aio s) (fs_vmas s) (fs_writers s).
Definition set_fs_reals (x : gmap nat real_file) s : fstate W :=
  FState (fs_super s) (fs_files s) x (fs_next s) (fs_iocbs s) (fs_aios s) (fs_next_aio s) (fs_vmas s) (fs_writers s).
Definition set_fs_next (x : nat) s : fstate W :=
  FState (fs_super s) (fs_files s) (fs_reals s) x (fs_iocbs s) (fs_aios s) (fs_next_aio s) (fs_vmas s) (fs_writers s).
Definition set_fs_iocbs (x : gmap nat kiocb) s : fstate W :=
  FState (fs_super s) (fs_files s) (fs_reals s) (fs_next s) x (fs_aios s) (fs_next_aio s) (fs_vmas s) (fs_writers s).
Definition set_fs_aios (x : gmap nat ovl_aio_req) s : fstate W :=
  FState (fs_super s) (fs_files s) (fs_reals s) (fs_next s) (fs_iocbs s) x (fs_next_aio s) (fs_vmas s) (fs_writers s).
Definition set_fs_next_aio (x : nat) s : fstate W :=
  FState (fs_super s) (fs_files s) (fs_reals s) (fs_next s) (fs_iocbs s) (fs_aios s) x (fs_vmas s) (fs_writers s).
Definition set_fs_vmas (x : gmap nat vma) s : fstate W :=
  FState (fs_super s) (fs_files s) (fs_reals s) (fs_next s) (fs_iocbs s) (fs_aios s) (fs_next_aio s) x (fs_writers s).
Definition set_fs_writers (x : Z) s : fstate W :=
  FState (fs_super s) (fs_files s) (fs_reals s) (fs_next s) (fs_iocbs s) (fs_aios s) (fs_next_aio s) (fs_vmas s) x.

(** The objects and the world. *)
Definition fs_ws s : wstate W := synced (fs_super s).
Definition fs_ovl s : vstate W := ws_ovl (fs_ws s).
Definition fs_world s : W := ws_world (fs_ws s).

Definition F (A : Type) : Type := fstate W → res A * fstate W.
Definition fret {A} (a : A) : F A := λ s, (inr a, s).
Definition ffail {A} (e : Z) : F A := λ s, (inl e, s).
Definition fbind {A B} (m : F A) (f : A → F B) : F B :=
  λ s, let '(r, s') := m s in match r with inl e => (inl e, s') | inr a => f a s' end.
(** The caller tests the pointer, or the [int]. *)
Definition ftry {A B} (m : F A) (bad : Z → F B) (k : A → F B) : F B :=
  λ s, let '(r, s') := m s in match r with inl e => bad e s' | inr a => k a s' end.
Definition fget {A} (f : fstate W → A) : F A := λ s, (inr (f s), s).
Definition fread {A} (f : W → A) : F A := fget (λ s, f (fs_world s)).
Definition fupdate (f : fstate W → fstate W) : F unit := λ s, (inr tt, f s).
(** The functions of the other components. *)
Definition fsuper {A} (m : SB W A) : F A := λ s, let '(r, x) := m (fs_super s) in (r, set_fs_super x s).
Definition flift {A} (m : U W A) : F A := fsuper (slift m).
Definition fcall {A} (f : W → A * W) : F A :=
  flift (λ ws, let '(a, w) := f (ws_world ws) in (inr a, set_ws_ovl (set_vs_world w (ws_ovl ws)) ws)).
End monad.
Arguments F : clear implicits.

Notation "'let&' x := m 'in' k" := (fbind m (fun x => k)) (at level 10, x pattern, k at level 200) : ovl_scope.
Notation "m ;;& k" := (fbind m (fun _ => k)) (at level 100, k at level 200, right associativity) : ovl_scope.
Notation "'try&' x := m 'else&' bad 'in' k" := (ftry m bad (fun x => k)) (at level 10, x pattern, m at level 100, bad at level 100, k at level 200) : ovl_scope.

Section file.
Context {W : Type} {K : Vfs W} {VS : VfsStat W} {VW : VfsWrite W} {R : RbLib} {L : MountLib W} {SL : SuperLib W} {VF : VfsFile W}.
Implicit Types s : fstate W.

(** ** The tables *)

(** What is in a table; what is not there is not changed. *)
Definition ofile_at (file : nat) s : open_file := default null_file (fs_files s !! file).
Definition real_at (real : nat) s : real_file := default null_real (fs_reals s !! real).
Definition iocb_at (iocb : nat) s : kiocb := default null_kiocb (fs_iocbs s !! iocb).
Definition aio_at (req : nat) s : ovl_aio_req := default null_aio (fs_aios s !! req).
Definition vma_at (v : nat) s : vma := default null_vma (fs_vmas s !! v).
Definition update_ofile (file : nat) (f : open_file → open_file) : F W unit :=
  fupdate (λ s, set_fs_files (alter f file (fs_files s)) s).
Definition update_real (real : nat) (f : real_file → real_file) : F W unit :=
  fupdate (λ s, set_fs_reals (alter f real (fs_reals s)) s).
Definition update_iocb (iocb : nat) (f : kiocb → kiocb) : F W unit :=
  fupdate (λ s, set_fs_iocbs (alter f iocb (fs_iocbs s)) s).
Definition update_aio (req : nat) (f : ovl_aio_req → ovl_aio_req) : F W unit :=
  fupdate (λ s, set_fs_aios (alter f req (fs_aios s)) s).
Definition update_vma (v : nat) (f : vma → vma) : F W unit :=
  fupdate (λ s, set_fs_vmas (alter f v (fs_vmas s)) s).
Definition fobjects {A} (f : vstate W → A) : F W A := fget (λ s, f (fs_ovl s)).
Definition oinode_of (inode : Z) s : ovl_inode := oinode_at inode (fs_ovl s).

(** A new real file, its count is 1. *)
Definition alloc_real (f : real_file) : F W nat := λ s,
  (inr (fs_next s), set_fs_next (S (fs_next s)) (set_fs_reals (<[fs_next s := f]> (fs_reals s)) s)).
(** References to real files: the last one closes it. *)
Definition get_file (real : nat) : F W unit := update_real real (λ f, set_rf_count (rf_count f + 1) f).
Definition fput (real : nat) : F W unit :=
  fupdate (λ s, if rf_count (real_at real s) =? 1 then set_fs_reals (delete real (fs_reals s)) s
                else set_fs_reals (alter (λ f, set_rf_count (rf_count f - 1) f) real (fs_reals s)) s).
Definition fdput (real : fd) : F W unit := if fd_put real then fput (fd_file real) else fret tt.
Definition file_start_write : F W unit := fupdate (λ s, set_fs_writers (fs_writers s + 1) s).
Definition file_end_write : F W unit := fupdate (λ s, set_fs_writers (fs_writers s - 1) s).

(** A call on a real file; the position of the file itself changes by seeking. *)
Definition on_real (real : nat) (c : file_call) : F W (Z * Z) :=
  let& f := fget (real_at real) in fcall (λ w, call_file w f c).

(** ** util.c: the inodes *)

Definition ovl_i_dentry_upper (inode : Z) s : option Z := oi_upperdentry (oinode_of inode s).
Definition upper_inode (inode : Z) s : option Z := ovl_inode_upper (oinode_of inode s) (fs_world s).
Definition ovl_inode_lowerdata (inode : Z) : F W (option Z) :=
  let& i := fget (λ s, winode_at inode (fs_ws s)) in
  let& bad := flift (uwarn (negb (has_fmt S_IFREG (wi_mode i)))) in
  if bad : bool then fret None
  else fget (λ s, match oi_lowerdata (oinode_of inode s) with
                  | Some d => real_inode (fs_world s) (Some d)
                  | None => ovl_inode_lower (oinode_of inode s) (fs_world s)
                  end).
Definition ovl_inode_realdata (inode : Z) : F W (option Z) :=
  let& upperinode := fget (upper_inode inode) in
  let& has := fget (λ s, ovl_has_upperdata (oinode_of inode s)) in
  if negb (is_none upperinode) && has then fret upperinode else ovl_inode_lowerdata inode.

(** ** Real files *)

Definition ovl_whatisit (inode : Z) (realinode : option Z) s : ascii :=
  if negb (bool_decide (realinode = upper_inode inode s)) then "l"%char
  else if ovl_has_upperdata (oinode_of inode s) then "u"%char else "m"%char.

(** NULL for the inode is 0. *)
Definition ovl_open_realfile (file : nat) (realinode : option Z) : F W nat :=
  let realinode := default 0 realinode in
  let& f := fget (ofile_at file) in
  let flags := Z.lor (of_flags f) OVL_OPEN_FLAGS in
  let acc_mode := ACC_MODE flags in
  let acc_mode := if has_flag flags O_APPEND then Z.lor acc_mode MAY_APPEND else acc_mode in
  let& err := fread (λ w, inode_may w realinode (Z.lor MAY_OPEN acc_mode)) in
  if negb (err =? 0) then ffail err
  else
    let& owner := fread (λ w, inode_owner_or_capable w realinode) in
    let flags := if negb owner then Z.land flags (Z.lnot O_NOATIME) else flags in
    let& real := fobjects (λ o, snd (ovl_path_real (of_dentry f) o)) in
    let& err := fcall (λ w, open_with_fake_path w (default 0 real) flags realinode) in
    if negb (err =? 0) then ffail err
    else alloc_real (RealFile realinode (default 0 real) (Z.land flags (Z.lnot O_OPENING)) 0 1).

Definition ovl_change_flags (real : nat) (flags : Z) : F W Z :=
  let flags := Z.land flags OVL_SETFL_MASK in
  let& f := fget (real_at real) in
  let& append := fread (λ w, is_append w (rf_inode f)) in
  if has_flag (Z.lxor flags (rf_flags f)) O_APPEND && append then fret (- EPERM)
  else
    let& direct := fread (λ w, has_direct_IO w (rf_inode f)) in
    if has_flag flags O_DIRECT && negb direct then fret (- EINVAL)
    else
      let& err := fread (λ w, check_flags w (rf_inode f) flags) in
      if negb (err =? 0) then fret err
      else
        update_real real (λ f, set_rf_flags (Z.lor (Z.land (rf_flags f) (Z.lnot OVL_SETFL_MASK)) flags) f) ;;&
        fret 0.

(** An error makes the function fail: its callers return it. *)
Definition ovl_real_fdget_meta (file : nat) (allow_meta : bool) : F W fd :=
  let& f := fget (ofile_at file) in
  let real := match of_private f with PFile real => real | _ => 0%nat end in
  let& realinode :=
    (if allow_meta then fget (λ s, ovl_inode_real (oinode_of (of_inode f) s) (fs_world s))
     else ovl_inode_realdata (of_inode f)) in
  let& r := fget (real_at real) in
  if negb (bool_decide (Some (rf_inode r) = realinode)) then
    let& real := ovl_open_realfile file realinode in fret (Fd real true)
  else if has_flag (Z.lxor (of_flags f) (rf_flags r)) (Z.lnot OVL_OPEN_FLAGS) then
    let& err := ovl_change_flags real (of_flags f) in
    if negb (err =? 0) then ffail err else fret (Fd real false)
  else fret (Fd real false).

(** ** readdir.c: the real files of a directory *)

(** [ovl_path_open] for reading. *)
Definition ovl_dir_open_realfile (file : nat) (realpath : Z) : F W nat :=
  let& f := fget (ofile_at file) in
  let& err := flift (ovl_path_open realpath false) in
  if negb (err =? 0) then ffail err
  else
    let& inode := fread (λ w, real_inode w (Some realpath)) in
    alloc_real (RealFile (default 0 inode) realpath (Z.land (of_flags f) O_LARGEFILE) 0 1).

Definition dir_real_of (f : open_file) : dir_real :=
  match of_private f with PDir od => od | _ => DirReal 0 false None end.
(** [None] is NULL. *)
Definition ovl_dir_real_file (file : nat) (want_upper : bool) : F W (option nat) :=
  let& f := fget (ofile_at file) in
  let od := dir_real_of f in
  let& type := fobjects (ovl_path_type (of_dentry f)) in
  if negb (T_UPPER type) then fret (if want_upper then None else Some (dr_realfile od))
  else if dr_is_upper od then fret (Some (dr_realfile od))
  else
    match dr_upperfile od with
    | Some realfile => fret (Some realfile)
    | None =>
      let& upperpath := fobjects (ovl_dentry_upper (of_dentry f)) in
      let& realfile := ovl_dir_open_realfile file (default 0 upperpath) in
      let& f := fget (ofile_at file) in
      match dr_upperfile (dir_real_of f) with
      | Some old => fput realfile ;;& fret (Some old)
      | None =>
        update_ofile file (set_of_private (PDir (DirReal (dr_realfile od) (dr_is_upper od) (Some realfile)))) ;;&
        fret (Some realfile)
      end
    end.

Definition ovl_dir_fsync (file : nat) (first last datasync : Z) : F W Z :=
  let& err := fsuper ovl_sync_status in
  if err <=? 0 then fret err
  else
    try& realfile := ovl_dir_real_file file true else& fret in
    match realfile with
    | None => fret 0
    | Some realfile => let& r := on_real realfile (FSync first last datasync) in fret (fst r)
    end.

(** The parts of [ovl_dir_open] and [ovl_dir_release] that concern the real
    files. *)
Definition dir_open_real (file : nat) : F W unit :=
  let& f := fget (ofile_at file) in
  let& p := fobjects (ovl_path_real (of_dentry f)) in
  let '(type, realpath) := p in
  let& realfile := ovl_dir_open_realfile file (default 0 realpath) in
  update_ofile file (set_of_private (PDir (DirReal realfile (T_UPPER type) None))).
Definition dir_release_real (file : nat) : F W unit :=
  let& f := fget (ofile_at file) in
  let od := dir_real_of f in
  fput (dr_realfile od) ;;&
  match dr_upperfile od with Some upperfile => fput upperfile | None => fret tt end.

Definition ovl_real_fdget (file : nat) : F W fd :=
  let& f := fget (ofile_at file) in
  let& is_dir := fobjects (λ o, od_is_dir (odentry_at (of_dentry f) o)) in
  if is_dir : bool then
    let& real := ovl_dir_real_file file false in fret (Fd (default 0%nat real) false)
  else ovl_real_fdget_meta file false.

(** ** Opening and closing *)

Definition ovl_open (file : nat) : F W Z :=
  let& f := fget (ofile_at file) in
  let& err := flift (ovl_maybe_copy_up (of_dentry f) (of_flags f)) in
  if negb (err =? 0) then fret err
  else
    update_ofile file (λ f, set_of_flags (Z.land (of_flags f) (Z.lnot O_OPENING)) f) ;;&
    let& realinode := ovl_inode_realdata (of_inode f) in
    try& realfile := ovl_open_realfile file realinode else& fret in
    update_ofile file (set_of_private (PFile realfile)) ;;&
    fret 0.
Definition ovl_release (file : nat) : F W Z :=
  let& f := fget (ofile_at file) in
  match of_private f with PFile real => fput real | _ => fret tt end ;;& fret 0.

(** References to files of the overlay: the last one releases it. *)
Definition get_ofile (file : nat) : F W unit := update_ofile file (λ f, set_of_count (of_count f + 1) f).
Definition put_ofile (file : nat) : F W unit :=
  let& f := fget (ofile_at file) in
  if of_count f =? 1 then
    match of_private f with PDir _ => dir_release_real file | _ => ovl_release file ;;& fret tt end ;;&
    fupdate (λ s, set_fs_files (delete file (fs_files s)) s)
  else update_ofile file (λ f, set_of_count (of_count f - 1) f).

Definition ovl_llseek (file : nat) (offset whence : Z) : F W Z :=
  let& f := fget (ofile_at file) in
  if (offset =? 0) && (whence =? SEEK_CUR) then fret (of_pos f)
  else if (offset =? 0) && (whence =? SEEK_SET) then update_ofile file (set_of_pos 0) ;;& fret 0
  else
    try& real := ovl_real_fdget file else& fret in
    update_real (fd_file real) (set_rf_pos (of_pos f)) ;;&
    let& r := on_real (fd_file real) (FSeek offset whence) in
    let '(ret, pos) := r in
    update_real (fd_file real) (set_rf_pos pos) ;;&
    update_ofile file (set_of_pos pos) ;;&
    fdput real ;;&
    fret ret.

(** ** Times *)

Definition set_at_atime (x : Z) (a : attrs) : attrs := Attrs (at_uid a) (at_gid a) (at_mode a) x (at_mtime a) (at_ctime a) (at_size a).
Definition set_at_times (mtime ctime : Z) (a : attrs) : attrs :=
  Attrs (at_uid a) (at_gid a) (at_mode a) (at_atime a) mtime ctime (at_size a).
(** inode.c *)
Definition ovl_update_time (inode flags : Z) : F W Z :=
  if has_flag flags S_ATIME then
    let& upper := fget (ovl_i_dentry_upper inode) in
    match upper with
    | None => fret 0
    | Some u =>
      fcall (λ w, (tt, touch_atime w u)) ;;&
      let& attrs := fread (λ w, attrs_of w u) in
      flift (update_winode inode (λ i, set_wi_attrs (set_at_atime (at_atime attrs) (wi_attrs i)) i)) ;;&
      fret 0
    end
  else fret 0.
(** [touch_atime] of an overlay file comes back to [ovl_update_time]. *)
Definition ovl_file_accessed (file : nat) : F W unit :=
  let& f := fget (ofile_at file) in
  if has_flag (of_flags f) O_NOATIME then fret tt
  else
    let inode := of_inode f in
    let& upperinode := fget (upper_inode inode) in
    if is_none upperinode then fret tt
    else
      let& u := fget (λ s, default 0 (ovl_i_dentry_upper inode s)) in
      let& attrs := fread (λ w, attrs_of w u) in
      let& i := fget (λ s, winode_at inode (fs_ws s)) in
      (if negb (at_mtime (wi_attrs i) =? at_mtime attrs) || negb (at_ctime (wi_attrs i) =? at_ctime attrs)
       then flift (update_winode inode (λ i, set_wi_attrs (set_at_times (at_mtime attrs) (at_ctime attrs) (wi_attrs i)) i))
       else fret tt) ;;&
      let& needed := fread (λ w, atime_needs_update w inode) in
      if needed : bool then ovl_update_time inode S_ATIME ;;& fret tt else fret tt.

(** ** Asynchronous requests *)

Definition ovl_iocb_to_rwf (ifl : Z) : Z :=
  let flags := 0 in
  let flags := if has_flag ifl IOCB_NOWAIT then Z.lor flags RWF_NOWAIT else flags in
  let flags := if has_flag ifl IOCB_HIPRI then Z.lor flags RWF_HIPRI else flags in
  let flags := if has_flag ifl IOCB_DSYNC then Z.lor flags RWF_DSYNC else flags in
  if has_flag ifl IOCB_SYNC then Z.lor flags RWF_SYNC else flags.

Definition ovl_aio_put (req : nat) : F W unit :=
  let& r := fget (aio_at req) in
  if ar_ref r =? 1 then fput (ar_filp r) ;;& fupdate (λ s, set_fs_aios (delete req (fs_aios s)) s)
  else update_aio req (set_ar_ref (ar_ref r - 1)).

Definition ovl_aio_cleanup_handler (req : nat) : F W unit :=
  let& r := fget (aio_at req) in
  let& orig := fget (iocb_at (ar_orig r)) in
  (if has_flag (ar_flags r) IOCB_WRITE then
     let& f := fget (ofile_at (ki_filp orig)) in
     file_end_write ;;& flift (ovl_copyattr (of_inode f))
   else fret tt) ;;&
  update_iocb (ar_orig r) (set_ki_pos (ar_pos r)) ;;&
  ovl_aio_put req.

(** The kernel has advanced the position of the request. *)
Definition ovl_aio_rw_complete (req : nat) (res : Z) : F W unit :=
  let& r := fget (aio_at req) in
  ovl_aio_cleanup_handler req ;;&
  update_iocb (ar_orig r) (set_ki_result (Some res)).

(** What [ovl_read_iter] and [ovl_write_iter] do with a request of their own,
    when they have one. *)
Definition aio_submit (write : bool) (iocb real : nat) (flags count : Z) : F W Z :=
  let& orig := fget (iocb_at iocb) in
  get_file real ;;&
  let& req := fget fs_next_aio in
  fupdate (λ s, set_fs_next_aio (S req) (set_fs_aios (<[req := AioReq real (ki_pos orig) flags iocb 2]> (fs_aios s)) s)) ;;&
  let& f := fget (real_at real) in
  let& r := fcall (λ w, submit_iocb w write f (ki_pos orig) count flags) in
  let '(ret, pos, early) := r in
  update_aio req (set_ar_pos pos) ;;&
  match early with Some res => ovl_aio_rw_complete req res | None => fret tt end ;;&
  ovl_aio_put req ;;&
  (if negb (ret =? - EIOCBQUEUED) then ovl_aio_cleanup_handler req else fret tt) ;;&
  fret ret.

(** ** Reading and writing *)

Definition no_direct_IO (real : nat) (ki_flags : Z) : F W bool :=
  let& f := fget (real_at real) in
  let& direct := fread (λ w, has_direct_IO w (rf_inode f)) in
  fret (has_flag ki_flags IOCB_DIRECT && negb direct).

(** [count] is [iov_iter_count]. *)
Definition ovl_read_iter (iocb : nat) (count : Z) : F W Z :=
  let& k := fget (iocb_at iocb) in
  let file := ki_filp k in
  if count =? 0 then fret 0
  else
    try& real := ovl_real_fdget file else& fret in
    let& bad := no_direct_IO (fd_file real) (ki_flags k) in
    if bad : bool then fdput real ;;& fret (- EINVAL)
    else if ki_sync k then
      let& r := on_real (fd_file real) (FRead (ki_pos k) count (ovl_iocb_to_rwf (ki_flags k))) in
      update_iocb iocb (set_ki_pos (snd r)) ;;&
      ovl_file_accessed file ;;& fdput real ;;& fret (fst r)
    else
      let& ok := flift ukmalloc in
      if negb ok then ovl_file_accessed file ;;& fdput real ;;& fret (- ENOMEM)
      else
        let real := Fd (fd_file real) false in
        let& ret := aio_submit false iocb (fd_file real) (ki_flags k) count in
        ovl_file_accessed file ;;& fdput real ;;& fret ret.

(** The kernel asks [setattr] to clear the set-user-ID bits. *)
Definition file_remove_privs (file : nat) : F W Z :=
  let& f := fget (ofile_at file) in
  let& kill := fread (λ w, privs_to_remove w (of_dentry f) (of_inode f)) in
  match kill with
  | inl e => fret e
  | inr None => fret 0
  | inr (Some attr) => flift (ovl_setattr (of_dentry f) attr)
  end.
(** The mode is brought up to date first. *)
Definition prepare_write (file : nat) : F W Z :=
  let& f := fget (ofile_at file) in
  flift (ovl_copyattr (of_inode f)) ;;& file_remove_privs file.

Definition ovl_write_iter (iocb : nat) (count : Z) : F W Z :=
  let& k := fget (iocb_at iocb) in
  let file := ki_filp k in
  let& f := fget (ofile_at file) in
  let inode := of_inode f in
  if count =? 0 then fret 0
  else
    let& ret := prepare_write file in
    if negb (ret =? 0) then fret ret
    else
      try& real := ovl_real_fdget file else& fret in
      let& bad := no_direct_IO (fd_file real) (ki_flags k) in
      if bad : bool then fdput real ;;& fret (- EINVAL)
      else
        let& config := fget (λ s, mf_config (su_mount (fs_super s))) in
        let ifl := if negb (ovl_should_sync config) then Z.land (ki_flags k) (Z.lnot (Z.lor IOCB_DSYNC IOCB_SYNC)) else ki_flags k in
        if ki_sync k then
          file_start_write ;;&
          let& r := on_real (fd_file real) (FWrite (ki_pos k) count (ovl_iocb_to_rwf ifl)) in
          update_iocb iocb (set_ki_pos (snd r)) ;;&
          file_end_write ;;&
          flift (ovl_copyattr inode) ;;& fdput real ;;& fret (fst r)
        else
          let& ok := flift ukmalloc in
          if negb ok then fdput real ;;& fret (- ENOMEM)
          else
            file_start_write ;;&
            let real := Fd (fd_file real) false in
            let& ret := aio_submit true iocb (fd_file real) ifl count in
            fdput real ;;& fret ret.

(** The position is that of the caller's pointer, which it gets back. *)
Definition ovl_splice_write (out : nat) (ppos len flags : Z) : F W (Z * Z) :=
  let& f := fget (ofile_at out) in
  let& ret := prepare_write out in
  if negb (ret =? 0) then fret (ret, ppos)
  else
    try& real := ovl_real_fdget out else& (λ e, fret (e, ppos)) in
    file_start_write ;;&
    let& r := on_real (fd_file real) (FSplice ppos len flags) in
    file_end_write ;;&
    flift (ovl_copyattr (of_inode f)) ;;&
    fdput real ;;&
    fret r.

Definition ovl_fsync (file : nat) (first last datasync : Z) : F W Z :=
  let& f := fget (ofile_at file) in
  let& ret := fsuper ovl_sync_status in
  if ret <=? 0 then fret ret
  else
    try& real := ovl_real_fdget_meta file (datasync =? 0) else& fret in
    let& r := fget (real_at (fd_file real)) in
    let& upper := fget (upper_inode (of_inode f)) in
    let& ret :=
      (if bool_decide (Some (rf_inode r) = upper) then
         let& r := on_real (fd_file real) (FSync first last datasync) in fret (fst r)
       else fret 0) in
    fdput real ;;& fret ret.

(** ** Mappings *)

Definition put_mapped (m : mapped_file) : F W unit :=
  match m with MOverlay file => put_ofile file | MReal real => fput real end.
(** [vma_set_file]. *)
Definition vma_set_file (v real : nat) : F W unit :=
  get_file real ;;&
  let& old := fget (λ s, vm_file (vma_at v s)) in
  update_vma v (set_vm_file (MReal real)) ;;&
  put_mapped old.
Definition ovl_vm_prfile_set (v file : nat) : F W unit :=
  get_ofile file ;;&
  let& old := fget (λ s, vm_prfile (vma_at v s)) in
  update_vma v (set_vm_prfile (Some file)) ;;&
  match old with Some file => put_ofile file | None => fret tt end.

Definition ovl_mmap (file v : nat) : F W Z :=
  let& f := fget (ofile_at file) in
  let real := match of_private f with PFile real => real | _ => 0%nat end in
  let& r := fget (real_at real) in
  let& can := fread (λ w, has_mmap w (rf_inode r)) in
  if negb can then fret (- ENODEV)
  else
    let& m := fget (λ s, vm_file (vma_at v s)) in
    let same := match m with MOverlay g => (file =? g)%nat | MReal _ => false end in
    let& bad := flift (uwarn (negb same)) in
    if bad : bool then fret (- EIO)
    else
      vma_set_file v real ;;&
      let& r := on_real real (FMap v) in
      let ret := fst r in
      (if ret =? 0 then ovl_vm_prfile_set v file else fret tt) ;;&
      ovl_file_accessed file ;;&
      fret ret.

(** ** Space, advice, flushing *)

Definition ovl_fallocate (file : nat) (mode offset len : Z) : F W Z :=
  let& f := fget (ofile_at file) in
  let& ret := prepare_write file in
  if negb (ret =? 0) then fret ret
  else
    try& real := ovl_real_fdget file else& fret in
    let& r := on_real (fd_file real) (FAllocate mode offset len) in
    flift (ovl_copyattr (of_inode f)) ;;&
    fdput real ;;&
    fret (fst r).

Definition ovl_fadvise (file : nat) (offset len advice : Z) : F W Z :=
  try& real := ovl_real_fdget file else& fret in
  let& r := on_real (fd_file real) (FAdvise offset len advice) in
  fdput real ;;& fret (fst r).

Definition ovl_flush (file : nat) (id : Z) : F W Z :=
  try& real := ovl_real_fdget file else& fret in
  let& f := fget (real_at (fd_file real)) in
  let& can := fread (λ w, has_flush w (rf_inode f)) in
  let& err := (if can : bool then let& r := on_real (fd_file real) (FFlush id) in fret (fst r) else fret 0) in
  fdput real ;;& fret err.

(** ** Copying between files *)

Definition ovl_copyfile (file_in : nat) (pos_in : Z) (file_out : nat) (pos_out len flags : Z) (op : ovl_copyop) : F W Z :=
  let& out := fget (ofile_at file_out) in
  let& ret := (match op with OVL_DEDUPE => fret 0 | _ => prepare_write file_out end) in
  if negb (ret =? 0) then fret ret
  else
    try& real_out := ovl_real_fdget file_out else& fret in
    try& real_in := ovl_real_fdget file_in else& (λ e, fdput real_out ;;& fret e) in
    let& r_in := fget (real_at (fd_file real_in)) in
    let& r_out := fget (real_at (fd_file real_out)) in
    let& ret := fcall (λ w, call_copy w op r_in pos_in r_out pos_out len flags) in
    flift (ovl_copyattr (of_inode out)) ;;&
    fdput real_in ;;&
    fdput real_out ;;&
    fret ret.

Definition ovl_copy_file_range (file_in : nat) (pos_in : Z) (file_out : nat) (pos_out len flags : Z) : F W Z :=
  ovl_copyfile file_in pos_in file_out pos_out len flags OVL_COPY.

Definition ovl_remap_file_range (file_in : nat) (pos_in : Z) (file_out : nat) (pos_out len remap_flags : Z) : F W Z :=
  if has_flag remap_flags (Z.lnot (Z.lor REMAP_FILE_DEDUP REMAP_FILE_ADVISORY)) then fret (- EINVAL)
  else
    let op := if has_flag remap_flags REMAP_FILE_DEDUP then OVL_DEDUPE else OVL_CLONE in
    let& f_in := fget (ofile_at file_in) in
    let& f_out := fget (ofile_at file_out) in
    let& upper_in := fget (upper_inode (of_inode f_in)) in
    let& upper_out := fget (upper_inode (of_inode f_out)) in
    if (match op with OVL_DEDUPE => true | _ => false end) && (is_none upper_in || is_none upper_out) then fret (- EPERM)
    else ovl_copyfile file_in pos_in file_out pos_out len remap_flags op.
End file.
