(* ===== verification/OvlHandlers.v ===== *)
(** * What the VFS calls on dentries, inodes and attributes (super.c, inode.c, util.c)

    Finding the real dentry of a file, revalidating the dentries below, the
    handlers that the names of extended attributes lead to, access control
    lists, and loading the module.

    The VFS takes the first handler of the list whose name or prefix fits
    ([xattr_resolve_name]).  Access control lists are opaque.  Only the two
    flags of [d_flags] that ask for revalidation are modelled. *)
From S2P Require Import Prelude CString OS OvlOptions OvlVfs OvlHandle OvlLookup OvlLayers OvlIno OvlReaddir OvlDirFile OvlWrite OvlTemp OvlInode OvlCopyUp OvlCreate OvlAttr OvlWorkdir OvlSuper OvlFile.
Open Scope Z_scope.

Definition LOOKUP_RCU : Z := 64.
Definition S_ISGID : Z := 1024.

(** Pointers to inodes and dentries, of the overlay or of a layer. *)
Inductive inode_ptr := OverlayInode (inode : Z) | RealInode (inode : Z).
Inductive dentry_ptr := OverlayDentry (dentry : Z) | RealDentry (dentry : Z).
#[export] Instance inode_ptr_eq_dec : EqDecision inode_ptr.
Proof. solve_decision. Defined.
#[export] Instance dentry_ptr_eq_dec : EqDecision dentry_ptr.
Proof. solve_decision. Defined.

Inductive acl_type := ACL_TYPE_ACCESS | ACL_TYPE_DEFAULT.
#[export] Instance acl_type_eq_dec : EqDecision acl_type.
Proof. solve_decision. Defined.

Class VfsHandlers (W : Type) := {
  d_real : W → Z → option inode_ptr → Z;                     (** of a dentry of a layer *)
  d_revalidate : W → Z → Z → Z * W;
  d_weak_revalidate : W → Z → Z → Z * W;
  d_invalidate : W → Z → W;
  (** access control lists: whether a value gives one ([false] is NULL); what
      an inode of a layer has *)
  config_posix_acl : bool;
  posix_acl_from_xattr : W → list ascii → res bool;
  is_posixacl_inode : W → Z → bool;
  has_set_acl : W → Z → bool;
  get_acl : W → Z → acl_type → res (option Z);
  get_cached_acl_rcu : W → Z → acl_type → res (option Z);
  (** the calling process and an inode of the overlay *)
  owner_or_capable : W → Z → bool;
  in_group_p : W → Z → bool;
  capable_fsetid : W → Z → bool;
  (** [fiemap] of an inode of a layer *)
  has_fiemap : W → Z → bool;
  call_fiemap : W → Z → Z → Z → Z
}.

Section handlers.
Context {W : Type} {K : Vfs W} {VS : VfsStat W} {VW : VfsWrite W} {VF : VfsFile W} {VH : VfsHandlers W}.
Implicit Types s : wstate W.

(** ** Dentries *)

Definition ovl_path_upper (dentry : Z) (o : vstate W) : option Z * option Z := (ofs_upper_mnt (vs_fs o), ovl_dentry_upper dentry o).
(** The mount and the dentry, or nothing. *)
Definition ovl_path_lower (dentry : Z) (o : vstate W) : option (Z * Z) :=
  (λ p, (l_mnt (p_layer p), p_dentry p)) <$> head (lowerstack dentry o).
Definition ovl_path_lowerdata (dentry : Z) (o : vstate W) : option (Z * Z) :=
  (λ p, (l_mnt (p_layer p), p_dentry p)) <$> last (lowerstack dentry o).

(** The inode of a real dentry, as a pointer. *)
Definition d_inode_ptr (w : W) (d : Z) : option inode_ptr := (λ i, RealInode (i_addr i)) <$> de_inode (dentry_of w d).
(** [None] for the inode is NULL. *)
Definition ovl_d_real (dentry : Z) (inode : option inode_ptr) : U W dentry_ptr :=
  let! od := uovl (odentry_at dentry) in
  let own := OverlayInode <$> od_inode od in
  if negb (is_none inode) && bool_decide (own = inode) then uret (OverlayDentry dentry)
  else
    let bug := uwarn true ;;! uret (OverlayDentry dentry) in
    if negb (od_is_reg od) then
      if is_none inode || bool_decide (inode = own) then uret (OverlayDentry dentry) else bug
    else
      let! upper := uovl (ovl_dentry_upper dentry) in
      let! upper_inode := uread (λ w, match upper with Some u => d_inode_ptr w u | None => None end) in
      let! has := uovl (test_inode ovl_has_upperdata dentry) in
      let found := match upper with
                   | Some real => if bool_decide (inode = upper_inode) || (is_none inode && has) then Some real else None
                   | None => None
                   end in
      match found with
      | Some real => uret (RealDentry real)
      | None =>
        let! lower := uovl (ovl_dentry_lowerdata dentry) in
        match lower with
        | None => bug
        | Some lower =>
          let! real := uread (λ w, d_real w lower inode) in
          let! real_inode := uread (λ w, d_inode_ptr w real) in
          if is_none inode || bool_decide (inode = real_inode) then uret (RealDentry real) else bug
        end
      end.

(** ** Revalidation *)

(** 1: valid; 0 or an error: not. *)
Definition ovl_revalidate_real (d flags : Z) (weak : bool) : U W Z :=
  let! info := udentry d in
  if weak then
    if DCACHE_OP_WEAK_REVALIDATE (de_flags info) then ucall (λ w, d_weak_revalidate w d flags) else uret 1
  else if DCACHE_OP_REVALIDATE (de_flags info) then
    let! ret := ucall (λ w, d_revalidate w d flags) in
    if ret =? 0 then
      (if negb (has_flag flags LOOKUP_RCU) then ulift (λ o, (inr tt, set_vs_world (d_invalidate (vs_world o) d) o)) else uret tt) ;;!
      uret (- ESTALE)
    else uret ret
  else uret 1.

(** The loop, while the result is positive. *)
Fixpoint revalidate_stack (stack : list ovl_path) (flags : Z) (weak : bool) (ret : Z) : U W Z :=
  match stack with
  | [] => uret ret
  | p :: stack =>
    if ret <=? 0 then uret ret
    else let! ret := ovl_revalidate_real (p_dentry p) flags weak in revalidate_stack stack flags weak ret
  end.
Definition ovl_dentry_revalidate_common (dentry flags : Z) (weak : bool) : U W Z :=
  let! inode := uovl (λ o, od_inode (odentry_at dentry o)) in
  match inode with
  | None => uret (- ECHILD)
  | Some inode =>
    let! upper := uovl (λ o, oi_upperdentry (oinode_at inode o)) in
    let! ret := match upper with Some u => ovl_revalidate_real u flags weak | None => uret 1 end in
    let! stack := uovl (lowerstack dentry) in
    revalidate_stack stack flags weak ret
  end.
Definition ovl_dentry_revalidate (dentry flags : Z) : U W Z := ovl_dentry_revalidate_common dentry flags false.
Definition ovl_dentry_weak_revalidate (dentry flags : Z) : U W Z := ovl_dentry_revalidate_common dentry flags true.

(** The flags of an overlay dentry: [DCACHE_OP_REVALIDATE] and
    [DCACHE_OP_WEAK_REVALIDATE]. *)
Record reval := Reval { r_reval : bool; r_weak : bool }.
Definition reval_or (a b : reval) : reval := Reval (r_reval a || r_reval b) (r_weak a || r_weak b).
Definition reval_and (a b : reval) : reval := Reval (r_reval a && r_reval b) (r_weak a && r_weak b).
Definition reval_not (a : reval) : reval := Reval (negb (r_reval a)) (negb (r_weak a)).
Definition no_reval : reval := Reval false false.
Definition OVL_D_REVALIDATE : reval := Reval true true.
Definition reval_of (w : W) (d : Z) : reval :=
  Reval (DCACHE_OP_REVALIDATE (de_flags (dentry_of w d))) (DCACHE_OP_WEAK_REVALIDATE (de_flags (dentry_of w d))).
Definition ovl_dentry_update_reval (w : W) (flags : reval) (realdentry : Z) : reval :=
  if negb (ovl_dentry_remote (dentry_of w realdentry)) then flags
  else reval_or flags (reval_and (reval_of w realdentry) OVL_D_REVALIDATE).
Definition ovl_dentry_init_flags (w : W) (flags : reval) (upperdentry : option Z) (stack : list ovl_path) (mask : reval) : reval :=
  let new := match upperdentry with Some u => reval_of w u | None => no_reval end in
  let new := foldl (λ f p, reval_or f (reval_of w (p_dentry p))) new stack in
  reval_or (reval_and flags (reval_not mask)) (reval_and new mask).
Definition ovl_dentry_init_reval (w : W) (flags : reval) (upperdentry : option Z) (stack : list ovl_path) : reval :=
  ovl_dentry_init_flags w flags upperdentry stack OVL_D_REVALIDATE.

(** ** Handlers of extended attributes *)

Inductive xattr_handler :=
  | ovl_posix_acl_access_xattr_handler
  | ovl_posix_acl_default_xattr_handler
  | ovl_own_trusted_xattr_handler
  | ovl_own_user_xattr_handler
  | ovl_other_xattr_handler.
(** The name of a handler, or its prefix. *)
Definition handler_name (h : xattr_handler) : cstr + cstr :=
  match h with
  | ovl_posix_acl_access_xattr_handler => inl XATTR_NAME_POSIX_ACL_ACCESS
  | ovl_posix_acl_default_xattr_handler => inl XATTR_NAME_POSIX_ACL_DEFAULT
  | ovl_own_trusted_xattr_handler => inr OVL_XATTR_TRUSTED_PREFIX
  | ovl_own_user_xattr_handler => inr OVL_XATTR_USER_PREFIX
  | ovl_other_xattr_handler => inr []
  end.
Definition acl_xattr_handlers : list xattr_handler :=
  if config_posix_acl then [ovl_posix_acl_access_xattr_handler; ovl_posix_acl_default_xattr_handler] else [].
Definition ovl_trusted_xattr_handlers : list xattr_handler := acl_xattr_handlers ++ [ovl_own_trusted_xattr_handler; ovl_other_xattr_handler].
Definition ovl_user_xattr_handlers : list xattr_handler := acl_xattr_handlers ++ [ovl_own_user_xattr_handler; ovl_other_xattr_handler].
Definition s_xattr (c : ovl_config) : list xattr_handler := if c_userxattr c then ovl_user_xattr_handlers else ovl_trusted_xattr_handlers.
(** [xattr_resolve_name]: the handler and the rest of the name. *)
Fixpoint xattr_resolve_name (handlers : list xattr_handler) (name : cstr) : res (xattr_handler * cstr) :=
  match handlers with
  | [] => inl (- EOPNOTSUPP)
  | h :: handlers =>
    match handler_name h with
    | inl n => if str_eqb n name then inr (h, []) else xattr_resolve_name handlers name
    | inr prefix =>
      if prefixb prefix name then
        match drop (length prefix) name with [] => inl (- EINVAL) | rest => inr (h, rest) end
      else xattr_resolve_name handlers name
    end
  end.

Definition ovl_posix_acl_xattr_get (name : cstr) (dentry inode : Z) : U W (res (list ascii)) := ovl_xattr_get dentry inode name.
Definition ovl_posix_acl_xattr_set (name : cstr) (type : acl_type) (dentry inode : Z) (value : option (list ascii)) (flags : Z) : U W Z :=
  let! workdir := ovl_workdir in
  let! realinode := uget (λ s, ovl_inode_real (oinode_at inode (ws_ovl s)) (ws_world s)) in
  let! config := uovl (λ o, ofs_config (vs_fs o)) in
  try! acl := match value with Some value => λ s, (posix_acl_from_xattr (ws_world s) value, s) | None => uret false end else! uret in
  let! work_acl := uread (λ w, is_posixacl w (default 0 workdir)) in
  let! set_acl := uread (λ w, has_set_acl w (default 0 realinode)) in
  let! i := uget (winode_at inode) in
  if negb work_acl then uret (- EOPNOTSUPP)
  else if negb set_acl then uret (- EOPNOTSUPP)
  else if bool_decide (type = ACL_TYPE_DEFAULT) && negb (has_fmt S_IFDIR (wi_mode i)) then uret (if acl : bool then - EACCES else 0)
  else
    let! owner := uread (λ w, owner_or_capable w inode) in
    if negb (c_has_override_creds config) && negb owner then uret (- EPERM)
    else
      let! in_group := uread (λ w, in_group_p w (at_gid (wi_attrs i))) in
      let! fsetid := uread (λ w, capable_fsetid w inode) in
      ok! (if has_flag (m_perm (wi_mode i)) S_ISGID && bool_decide (type = ACL_TYPE_ACCESS) && negb in_group && negb fsetid
           then ovl_setattr dentry (no_iattr ATTR_KILL_SGID) else uret 0)
      else! uret ;;!
      ovl_xattr_set dentry inode name value flags.

Definition ovl_own_xattr_get (dentry inode : Z) (name : cstr) : U W (res (list ascii)) := uret (inl (- EOPNOTSUPP)).
Definition ovl_own_xattr_set (dentry inode : Z) (name : cstr) (value : option (list ascii)) (flags : Z) : U W Z := uret (- EOPNOTSUPP).
Definition ovl_other_xattr_get (dentry inode : Z) (name : cstr) : U W (res (list ascii)) := ovl_xattr_get dentry inode name.
Definition ovl_other_xattr_set (dentry inode : Z) (name : cstr) (value : option (list ascii)) (flags : Z) : U W Z :=
  ovl_xattr_set dentry inode name value flags.

(** The methods of a handler; [name] is what is left of the name. *)
Definition handler_get (h : xattr_handler) (dentry inode : Z) (name : cstr) : U W (res (list ascii)) :=
  match h with
  | ovl_posix_acl_access_xattr_handler => ovl_posix_acl_xattr_get XATTR_NAME_POSIX_ACL_ACCESS dentry inode
  | ovl_posix_acl_default_xattr_handler => ovl_posix_acl_xattr_get XATTR_NAME_POSIX_ACL_DEFAULT dentry inode
  | ovl_own_trusted_xattr_handler | ovl_own_user_xattr_handler => ovl_own_xattr_get dentry inode name
  | ovl_other_xattr_handler => ovl_other_xattr_get dentry inode name
  end.
Definition handler_set (h : xattr_handler) (dentry inode : Z) (name : cstr) (value : option (list ascii)) (flags : Z) : U W Z :=
  match h with
  | ovl_posix_acl_access_xattr_handler => ovl_posix_acl_xattr_set XATTR_NAME_POSIX_ACL_ACCESS ACL_TYPE_ACCESS dentry inode value flags
  | ovl_posix_acl_default_xattr_handler => ovl_posix_acl_xattr_set XATTR_NAME_POSIX_ACL_DEFAULT ACL_TYPE_DEFAULT dentry inode value flags
  | ovl_own_trusted_xattr_handler | ovl_own_user_xattr_handler => ovl_own_xattr_set dentry inode name value flags
  | ovl_other_xattr_handler => ovl_other_xattr_set dentry inode name value flags
  end.
(** [__vfs_getxattr] and [__vfs_setxattr] of a file of the overlay. *)
Definition overlay_getxattr (dentry : Z) (name : cstr) : U W (res (list ascii)) :=
  let! config := uovl (λ o, ofs_config (vs_fs o)) in
  let! inode := uinode dentry in
  match xattr_resolve_name (s_xattr config) name with
  | inl e => uret (inl e)
  | inr (h, rest) => handler_get h dentry inode rest
  end.
Definition overlay_setxattr (dentry : Z) (name : cstr) (value : option (list ascii)) (flags : Z) : U W Z :=
  let! config := uovl (λ o, ofs_config (vs_fs o)) in
  let! inode := uinode dentry in
  match xattr_resolve_name (s_xattr config) name with
  | inl e => uret e
  | inr (h, rest) => handler_set h dentry inode rest value flags
  end.

(** ** Inodes *)

(** NULL is [None]. *)
Definition ovl_get_acl (inode : Z) (type : acl_type) (rcu : bool) : U W (option Z) :=
  let! realinode := uget (λ s, ovl_inode_real (oinode_at inode (ws_ovl s)) (ws_world s)) in
  if negb config_posix_acl then uret None
  else
    match realinode with
    | None => uwarn (negb rcu) ;;! ufail (- ECHILD)
    | Some real =>
      let! has := uread (λ w, is_posixacl_inode w real) in
      if negb has then uret None
      else if rcu then λ s, (get_cached_acl_rcu (ws_world s) real type, s)
      else λ s, (get_acl (ws_world s) real type, s)
    end.

Definition ovl_fiemap (inode start len : Z) : F W Z :=
  let& realinode := ovl_inode_realdata inode in
  let& can := fread (λ w, has_fiemap w (default 0 realinode)) in
  if negb can then fret (- EOPNOTSUPP) else fread (λ w, call_fiemap w (default 0 realinode) start len).

(** A new inode; [None] is NULL. *)
Definition ovl_alloc_inode (ok : bool) : option ovl_inode :=
  if negb ok then None else Some null_inode.
End handlers.

(** ** The module *)

(** The caches and whether the file system is registered. *)
Record module_state := ModuleState { ovl_inode_cachep : bool; ovl_aio_request_cachep : bool; registered : bool }.
Definition unloaded : module_state := ModuleState false false false.
Definition ovl_aio_request_cache_init (cache : bool) (m : module_state) : Z * module_state :=
  if cache then (0, ModuleState (ovl_inode_cachep m) true (registered m)) else (- ENOMEM, m).
Definition ovl_aio_request_cache_destroy (m : module_state) : module_state := ModuleState (ovl_inode_cachep m) false (registered m).
(** What the kernel makes of the three requests: the caches, and the error of
    registering. *)
Definition ovl_init (inode_cache aio_cache : bool) (register : Z) (m : module_state) : Z * module_state :=
  if negb inode_cache then (- ENOMEM, m)
  else
    let m := ModuleState true (ovl_aio_request_cachep m) (registered m) in
    let '(err, m) := ovl_aio_request_cache_init aio_cache m in
    let destroy m := ModuleState false (ovl_aio_request_cachep m) (registered m) in
    if err =? 0 then
      if register =? 0 then (0, ModuleState (ovl_inode_cachep m) (ovl_aio_request_cachep m) true)
      else (register, destroy (ovl_aio_request_cache_destroy m))
    else (err, destroy m).
Definition ovl_exit (m : module_state) : module_state :=
  ovl_aio_request_cache_destroy (ModuleState false (ovl_aio_request_cachep m) false).
