(* ===== verification/OvlExport.v ===== *)
(** * NFS export (export.c)

    A file of the overlay is named by the handle of one of its real files: the
    upper one, or the lower one that it was copied from.  Decoding finds the
    real file, and then the overlay's dentry for it: by the inode that the
    overlay has in memory, by the index, or by looking up its path from the
    last ancestor that is known.

    What the VFS keeps of the overlay's dentries is a parameter ([VfsExport]):
    the alias of an inode, a lookup in a directory of the overlay, which ends
    in [ovl_lookup] when the name is not cached, and the address of a new
    dentry.  Each dentry of a layer has a depth, which bounds the walks to the
    root of its file system. *)
From S2P Require Import Prelude CString OS OvlOptions OvlVfs OvlHandle OvlLookup OvlLayers OvlIno OvlReaddir OvlDirFile OvlWrite OvlTemp OvlInode OvlCopyUp.
Open Scope Z_scope.

Class VfsExport (W : Type) := {
  d_find_any_alias : wstate W → Z → option Z;                          (** of an inode of the overlay *)
  lookup_one_len : wstate W → Z → cstr → res Z * wstate W;             (** in a directory of the overlay *)
  d_alloc_anon : wstate W → Z;                                          (** where a new dentry would be *)
  depth_of : W → Z → nat                                                (** of a dentry of a layer *)
}.

Section export.
Context {W : Type} {K : Vfs W} {VS : VfsStat W} {VW : VfsWrite W} {VE : VfsExport W} {R : RbLib}.
Implicit Types s : wstate W.

(** ** Encoding *)

Definition ovl_encode_maybe_copy_up (dentry : Z) : U W Z :=
  let! upper := uovl (ovl_dentry_upper dentry) in
  if negb (is_none upper) then uret 0
  else
    let! err := ulift ovl_want_write in
    if negb (err =? 0) then uret err else ovl_copy_up dentry.

(** A directory that is neither indexed nor upper has a lower one. *)
Definition ovl_connectable_layer (dentry : Z) (o : vstate W) : Z :=
  if dentry =? vs_root o then numlower dentry o
  else if negb (is_none (ovl_dentry_upper dentry o)) && negb (test_inode OVL_INDEX dentry o) then 0
  else from_option l_idx 0 (ovl_layer_lower dentry o).

Definition set_od_connected (d : ovl_dentry) : ovl_dentry :=
  OvlDentry (od_name d) (od_parent d) (od_is_dir d) (od_is_reg d) (od_inode d) (od_disconnected d)
    (OVL_E_UPPER_ALIAS d) (OVL_E_OPAQUE d) true (od_lowerstack d).
Definition is_connected (dentry : Z) (o : vstate W) : bool := OVL_E_CONNECTED (odentry_at dentry o).

(** The loop; [None]: out of fuel. *)
Fixpoint connect_loop (fuel : nat) (origin_layer next : Z) : U W (option Z) :=
  match fuel with
  | O => uret None
  | S fuel =>
    let! parent := uovl (λ o, od_parent (odentry_at next o)) in
    let! bad := uwarn (parent =? next) in
    if bad : bool then uret (Some (- EIO))
    else
      let! connectable := uovl (ovl_connectable_layer parent) in
      if connectable <? origin_layer then
        let! err := ovl_encode_maybe_copy_up next in uret (Some err)
      else
        let! done := uovl (λ o, is_connected parent o || test_inode OVL_INDEX parent o) in
        if done : bool then uret (Some 0) else connect_loop fuel origin_layer parent
  end.

(** The way to the root is not longer than there are dentries. *)
Definition ovl_connect_layer (dentry : Z) : U W Z :=
  let! root := uovl vs_root in
  let! bad := uwarn (dentry =? root) in
  if bad : bool then uret (- EIO)
  else
    let! lower := uovl (ovl_dentry_lower dentry) in
    let! bad := uwarn (is_none lower) in
    if bad : bool then uret (- EIO)
    else
      let! origin_layer := uovl (λ o, from_option l_idx 0 (ovl_layer_lower dentry o)) in
      let! connected := uovl (is_connected dentry) in
      if connected : bool then uret origin_layer
      else
        let! n := uovl (λ o, size (vs_dentries o)) in
        let! r := connect_loop (S n) origin_layer dentry in
        let err := default (- EIO) r in
        if err =? 0 then ulift (update_dentry set_od_connected dentry) ;;! uret origin_layer else uret err.

Definition ovl_check_encode_origin (dentry : Z) : U W Z :=
  let! lower := uovl (ovl_dentry_lower dentry) in
  if is_none lower then uret 0
  else
    let! upper := uovl (ovl_dentry_upper dentry) in
    let! index := uovl (test_inode OVL_INDEX dentry) in
    if negb (is_none upper) && negb index then uret 0
    else
      let! is_dir := uovl (λ o, od_is_dir (odentry_at dentry o)) in
      let! mnt := ulift ovl_upper_mnt in
      if is_dir && negb (is_none mnt) then ovl_connect_layer dentry else uret 1.

(** [struct ovl_fh]: the padding, then the handle. *)
Definition fh_bytes (fb : list ascii) : list ascii :=
  replicate (Z.to_nat OVL_FH_WIRE_OFFSET) NUL ++ take (Z.to_nat (fb_len fb)) fb.

(** The length or an error, and what is written to the buffer, if anything. *)
Definition ovl_dentry_to_fid (dentry buflen : Z) : U W (Z * option (list ascii)) :=
  let! enc_lower := ovl_check_encode_origin dentry in
  if enc_lower <? 0 then uret (enc_lower, None)
  else
    let! lower := uovl (ovl_dentry_lower dentry) in
    let! upper := uovl (ovl_dentry_upper dentry) in
    let real := if negb (enc_lower =? 0) then lower else upper in
    try! fb := ulift (ovl_encode_real_fh (default 0 real) (enc_lower =? 0)) else! (λ e, uret (e, None)) in
    let len := OVL_FH_LEN fb in
    uret (len, if len <=? buflen then Some (fh_bytes fb) else None).

(** The type of the handle, the new [*max_len] and the buffer. *)
Definition ovl_encode_fh (inode max_len : Z) (parent : option Z) : U W (Z * Z * option (list ascii)) :=
  let buflen := Z.shiftl max_len 2 in
  if negb (is_none parent) then uret (FILEID_INVALID, max_len, None)
  else
    let! alias := uget (λ s, d_find_any_alias s inode) in
    match alias with
    | None => uret (FILEID_INVALID, max_len, None)
    | Some dentry =>
      let! r := ovl_dentry_to_fid dentry buflen in
      let '(bytes, fid) := r in
      if bytes <=? 0 then uret (FILEID_INVALID, max_len, fid)
      else if buflen <? bytes then uret (FILEID_INVALID, Z.shiftr bytes 2, fid)
      else uret (OVL_FILEID_V1, Z.shiftr bytes 2, fid)
    end.

(** ** Dentries for decoded files *)

(** A dentry without a place in the tree. *)
Definition d_instantiate_anon (dentry inode : Z) (upper_alias : bool) (lowers : list ovl_path) : U W unit :=
  let! i := uget (winode_at inode) in
  ulift (vupdate (λ o, set_vs_dentries (<[dentry := OvlDentry (lit "/") dentry false (has_fmt S_IFREG (wi_mode i)) (Some inode) true
    upper_alias false false lowers]> (vs_dentries o)) o)).

(** [index] tells whether there is one; the real files are not directories. *)
Definition ovl_obtain_alias (upper_alias : option Z) (lowerpath : option ovl_path) (index : option Z) : U W Z :=
  let lower := p_dentry <$> lowerpath in
  let upper := match upper_alias with Some u => Some u | None => index end in
  let! real := udentry (match upper with Some u => u | None => default 0 lower end) in
  if d_is_dir real then ufail (- EIO)
  else
    let! inode := ovl_get_inode (Oip None upper lowerpath (negb (is_none index)) (if is_none lower then 0 else 1) None None) in
    (if negb (is_none upper) then update_oinode inode set_upperdata_flag else uret tt) ;;!
    let! alias := uget (λ s, d_find_any_alias s inode) in
    match alias with
    | Some dentry => uret dentry
    | None =>
      let! ok := ukmalloc in
      if negb ok then ufail (- ENOMEM)
      else
        let! dentry := uget d_alloc_anon in
        let! ok := ukmalloc in
        if negb ok then ufail (- ENOMEM)
        else
          d_instantiate_anon dentry inode (negb (is_none upper_alias)) (match lowerpath with Some p => [p] | None => [] end) ;;!
          uret dentry
    end.

Definition ovl_dentry_real_at (dentry idx : Z) (o : vstate W) : option Z :=
  if idx =? 0 then ovl_dentry_upper dentry o
  else p_dentry <$> head (List.filter (λ p, l_idx (p_layer p) =? idx) (lowerstack dentry o)).

(** A child of a directory, whose real file is known. *)
Definition ovl_lookup_real_one (connected real : Z) (layer : ovl_layer) : U W Z :=
  let! info := udentry real in
  let! place := uovl (ovl_dentry_real_at connected (l_idx layer)) in
  if negb (bool_decide (place = Some (de_parent info))) then ufail (- ECHILD)
  else
    let! this := (λ s, lookup_one_len s connected (de_name info)) in
    let! inode := uovl (λ o, od_inode (odentry_at this o)) in
    if is_none inode then ufail (- ENOENT)
    else
      let! found := uovl (ovl_dentry_real_at this (l_idx layer)) in
      if negb (bool_decide (found = Some real)) then ufail (- ESTALE) else uret this.

Definition upper_layer (ofs : ovl_fs) : ovl_layer := Layer (default 0 (ofs_upper_mnt ofs)) 0 0 false.

(** The functions that call each other: [up] is [ovl_lookup_real] in the upper
    layer.  A result of [None] is out of fuel. *)
Section real.
Variable up : Z → U W (option Z).

(** [Some None] is NULL. *)
Definition ovl_lookup_real_inode (real : Z) (layer : ovl_layer) : U W (option (option Z)) :=
  let! inode := ovl_lookup_inode real (l_idx layer =? 0) in
  let! this :=
    (match inode with Some i => uget (λ s, d_find_any_alias s i) | None => uret None end) in
  let! ofs := uovl vs_fs in
  let! info := udentry real in
  let! dead :=
    (if is_none this && negb (l_idx layer =? 0) && negb (is_none (ofs_indexdir ofs)) then uwarn (negb (d_is_dir info)) else uret true) in
  let! index := (if dead : bool then uret None else ulift (ovl_lookup_index None real false)) in
  let check this : U W (option (option Z)) :=
    let! found := uovl (ovl_dentry_real_at this (l_idx layer)) in
    if negb (bool_decide (found = Some real)) then ufail (- EIO) else uret (Some (Some this)) in
  match index with
  | None => match this with Some this => check this | None => uret (Some None) end
  | Some index =>
    let! upper := ulift (ovl_index_upper index) in
    match upper with
    | None => uret (Some None)
    | Some upper =>
      let! this := up upper in
      match this with Some this => check this | None => uret None end
    end
  end.

Fixpoint ancestor_loop (fuel : nat) (next : Z) (layer : ovl_layer) : U W (option Z) :=
  match fuel with
  | O => uret None
  | S fuel =>
    let! info := udentry next in
    let parent := de_parent info in
    let! ancestor := ovl_lookup_real_inode next layer in
    match ancestor with
    | None => uret None
    | Some (Some ancestor) => uret (Some ancestor)
    | Some None =>
      if parent =? l_mnt layer then let! root := uovl vs_root in uret (Some root)
      else if parent =? next then ufail (- EXDEV)
      else ancestor_loop fuel parent layer
    end
  end.
Definition ovl_lookup_real_ancestor (real : Z) (layer : ovl_layer) : U W (option Z) :=
  if real =? l_mnt layer then let! root := uovl vs_root in uret (Some root)
  else
    let! depth := uread (λ w, depth_of w real) in
    ancestor_loop (S depth) real layer.

(** The topmost ancestor that is not connected yet: [Some (next, top)], with
    [top] if the root of the layer was hit. *)
Fixpoint topmost_real (fuel : nat) (next : Z) (real_connected : option Z) (layer : ovl_layer) (w : W) : option (res (Z * bool)) :=
  match fuel with
  | O => None
  | S fuel =>
    let parent := de_parent (dentry_of w next) in
    if bool_decide (Some parent = real_connected) then Some (inr (next, false))
    else if parent =? l_mnt layer then Some (inr (next, true))
    else if parent =? next then Some (inl (- EXDEV))
    else topmost_real fuel parent real_connected layer w
  end.

Fixpoint connect_real (fuel : nat) (connected real : Z) (layer : ovl_layer) : U W (option Z) :=
  match fuel with
  | O => uret None
  | S fuel =>
    let! real_connected := uovl (ovl_dentry_real_at connected (l_idx layer)) in
    if bool_decide (real_connected = Some real) then uret (Some connected)
    else
      let! next := uread (λ w, topmost_real (S (depth_of w real)) real real_connected layer w) in
      match next with
      | None => uret None
      | Some (inl err) => ufail err
      | Some (inr (next, top)) =>
        let! root := uovl vs_root in
        let connected := if top then root else connected in
        try! this := (let! this := ovl_lookup_real_one connected next layer in uret (Some this))
        else! (λ err, if err =? - ECHILD then ovl_lookup_real_ancestor real layer else ufail err) in
        match this with
        | None => uret None
        | Some this => connect_real fuel this real layer
        end
      end
  end.

Definition lookup_real_in (real : Z) (layer : ovl_layer) : U W (option Z) :=
  let! connected := ovl_lookup_real_ancestor real layer in
  match connected with
  | None => uret None
  | Some connected =>
    let! depth := uread (λ w, depth_of w real) in
    connect_real (S (S depth)) connected real layer
  end.
End real.

(** In the upper layer there is no recursion; from a lower one it goes to the
    upper layer. *)
Definition ovl_lookup_real_upper (real : Z) : U W (option Z) :=
  let! ofs := uovl vs_fs in
  lookup_real_in (λ _, uret None) real (upper_layer ofs).
Definition lookup_real_fuel (real : Z) (layer : ovl_layer) : U W (option Z) := lookup_real_in ovl_lookup_real_upper real layer.
Definition ovl_lookup_real (real : Z) (layer : ovl_layer) : U W Z :=
  let! d := lookup_real_fuel real layer in
  match d with Some d => uret d | None => ufail (- EIO) end.

(** ** Decoding *)

(** There is an upper or a lower file. *)
Definition ovl_get_dentry (upper : option Z) (lowerpath : option ovl_path) (index : option Z) : U W Z :=
  let! ofs := uovl vs_fs in
  let layer := match upper, lowerpath with None, Some p => p_layer p | _, _ => upper_layer ofs end in
  let real := match upper, index, lowerpath with
              | Some u, _, _ => u
              | None, Some i, _ => i
              | None, None, p => from_option p_dentry 0 p
              end in
  let! info := udentry real in
  if negb (d_is_dir info) then ovl_obtain_alias upper lowerpath index
  else if DCACHE_DISCONNECTED (de_flags info) || de_unhashed info then ufail (- ENOENT)
  else ovl_lookup_real real layer.

(** [None] is NULL. *)
Definition ovl_upper_fh_to_d (fb : list ascii) : U W (option Z) :=
  let! mnt := ulift ovl_upper_mnt in
  match mnt with
  | None => ufail (- EACCES)
  | Some mnt =>
    let! upper := ulift (ovl_decode_real_fh fb mnt true) in
    match upper with
    | None => uret None
    | Some upper => let! dentry := ovl_get_dentry (Some upper) None None in uret (Some dentry)
    end
  end.

Definition ovl_lower_fh_to_d (fb : list ascii) : U W (option Z) :=
  let! origin := ulift (ovl_check_origin_fh fb false None false) in
  let! info := udentry (p_dentry origin) in
  let! dentry :=
    (if negb (d_is_dir info) || negb (DCACHE_DISCONNECTED (de_flags info)) then
       let! inode := ovl_lookup_inode (p_dentry origin) false in
       match inode with Some i => uget (λ s, d_find_any_alias s i) | None => uret None end
     else uret None) in
  match dentry with
  | Some dentry => uret (Some dentry)
  | None =>
    let! indexdir := ulift ovl_indexdir in
    let! index := (if negb (is_none indexdir) then ulift (ovl_get_index_fh fb) else uret None) in
    let! index_is_dir := (match index with Some i => let! x := udentry i in uret (d_is_dir x) | None => uret false end) in
    if index_is_dir then
      let! upper := ulift (ovl_index_upper (default 0 index)) in
      match upper with
      | None => uret None
      | Some upper => let! dentry := ovl_get_dentry (Some upper) None None in uret (Some dentry)
      end
    else
      let! origin := (if d_is_dir info then ulift (ovl_check_origin_fh fb true None false) else uret origin) in
      let! err :=
        (match index with Some index => uint (ovl_verify_origin index (p_dentry origin) false) | None => uret 0 end) in
      if negb (err =? 0) then ufail err
      else let! dentry := ovl_get_dentry None (Some origin) index in uret (Some dentry)
  end.

(** The handle behind the padding; the old format has none on the wire. *)
Definition ovl_fid_to_fh (fid : list ascii) (buflen fh_type : Z) : U W (list ascii) :=
  if fh_type =? OVL_FILEID_V1 then uret (drop (Z.to_nat OVL_FH_WIRE_OFFSET) fid)
  else if negb (fh_type =? OVL_FILEID_V0) then ufail (- EINVAL)
  else if buflen <=? OVL_FH_WIRE_OFFSET then ufail (- EINVAL)
  else
    let! ok := ukmalloc in
    if negb ok then ufail (- ENOMEM) else uret (take (Z.to_nat (buflen - OVL_FH_WIRE_OFFSET)) fid).

Definition ovl_fh_to_dentry (fid : list ascii) (fh_len fh_type : Z) : U W (option Z) :=
  let len := Z.shiftl fh_len 2 in
  let! fb := ovl_fid_to_fh fid len fh_type in
  let err := ovl_check_fh_len fb len in
  if negb (err =? 0) then ufail err
  else if negb (Z.land (fb_flags fb) OVL_FH_FLAG_PATH_UPPER =? 0) then ovl_upper_fh_to_d fb else ovl_lower_fh_to_d fb.

Definition ovl_fh_to_parent (fid : list ascii) (fh_len fh_type : Z) : U W (option Z) := ufail (- EACCES).
Definition ovl_get_name (parent child : Z) : U W Z := uwarn true ;;! uret (- EIO).
Definition ovl_get_parent (dentry : Z) : U W Z := uwarn true ;;! ufail (- EIO).
End export.
