(* ===== verification/OvlExported.v ===== *)
(** * What export guarantees

    A handle fits its buffer, leads back to the file that it was made of as
    long as that is in memory -- through a copy up, too --, and looking up the
    path of a directory comes to an end. *)
From S2P Require Import Prelude CString OS OvlOptions OvlVfs OvlHandle OvlLogic OvlLookup OvlLayers OvlIno OvlReaddir OvlDirFile OvlWrite OvlTemp OvlInode OvlCopyUp OvlExport.
Open Scope Z_scope.

(** The aliases of an inode are its dentries. *)
Class AliasLaws {W} (VE : VfsExport W) : Prop := {
  alias_inode s i d : d_find_any_alias s i = Some d → od_inode (odentry_at d (ws_ovl s)) = Some i;
  alias_found s i d : od_inode (odentry_at d (ws_ovl s)) = Some i → d_find_any_alias s i ≠ None
}.

#[export] Instance sb_info_eq_dec : EqDecision sb_info.
Proof. solve_decision. Defined.

Section encoding.
Context {W : Type} {K : Vfs W} {VS : VfsStat W} {VW : VfsWrite W} {VE : VfsExport W} {R : RbLib}.
Context {L : ExportLaws K} {WL : WriteLaws K}.
Implicit Types s : wstate W.
Implicit Types o : vstate W.

(** The real file that names a file of the overlay. *)
Definition real_of (dentry : Z) (up : bool) o : option Z := if up then ovl_dentry_upper dentry o else ovl_dentry_lower dentry o.
Definition is_handle (fb : list ascii) (real : Z) (up : bool) o : Prop :=
  valid_fid (vs_world o) real ∧ fb = handle_of (config_of o) (vs_world o) real up.
Lemma is_handle_encoded fb real up o : is_handle fb real up o → encoded fb real up o.
Proof. intros [[Ht Hb] ->]. by apply handle_encoded. Qed.
Lemma encoded_is_handle real up o fb o' : ovl_encode_real_fh real up o = (inr fb, o') →
  is_handle fb real up o' ∧ o' = set_vs_world (vs_world o') o.
Proof.
  intros H. destruct (ovl_encode_real_fh_inv _ _ _ _ _ H) as (Hs & Ht & Hb & Hfb). split; [|by rewrite Hs].
  split; [done|]. rewrite Hfb. unfold handle_of, config_of. by rewrite Hs.
Qed.
Lemma is_handle_length fb real up o : is_handle fb real up o →
  fb_len fb = Z.of_nat (length fb) ∧ (∃ n, fb_len fb = sizeof_fb + 4 * n ∧ 0 <= n) ∧ fb_len fb <= sizeof_fb + MAX_HANDLE_SZ.
Proof.
  intros [Hv ->]. pose proof (handle_of_fields (config_of o) _ _ up Hv) as (H1 & H2 & _). destruct Hv as [Ht Hb].
  destruct (encode_length _ _ Ht) as [Hd _]. split; [done|]. split; [eauto|]. rewrite H2. lia.
Qed.

(** An encoded handle is the one of a real file of an alias of the inode. *)
Lemma dentry_to_fid_run dentry buflen s bytes fid s1 :
  ovl_dentry_to_fid dentry buflen s = (inr (bytes, fid), s1) →
  (bytes < 0 ∧ fid = None) ∨
  ∃ up real fb, real = default 0 (real_of dentry up (ws_ovl s1)) ∧ is_handle fb real up (ws_ovl s1) ∧
    bytes = OVL_FH_LEN fb ∧ fid = if bytes <=? buflen then Some (fh_bytes fb) else None.
Proof.
  intros H. unfold ovl_dentry_to_fid in H. apply ubind_inr in H as (enc & s0 & _ & H).
  destruct (Z.ltb_spec enc 0) as [He|He]; [by injection H as <- <- <-; left|].
  apply ubind_inr in H as (lower & ? & [= <- <-] & H). apply ubind_inr in H as (upper & ? & [= <- <-] & H).
  apply utry_inr in H as [(e & s2 & Hm & H)|(fb & s2 & Hm & H)].
  - injection H as <- <- <-. left. split; [|done]. revert Hm. unfold ulift.
    destruct (ovl_encode_real_fh_cases (default 0 (if negb (enc =? 0) then ovl_dentry_lower dentry (ws_ovl s0) else ovl_dentry_upper dentry (ws_ovl s0)))
      (enc =? 0) (ws_ovl s0)) as [->|[->|[-> _]]]; [by intros [= <- _]..|done].
  - right. unfold ulift in Hm. destruct (ovl_encode_real_fh _ _ _) as [[e|b] o'] eqn:E; [done|]. injection Hm as <- <-.
    injection H as <- <- <-. apply encoded_is_handle in E as [Hh Ho]. cbn [ws_ovl set_ws_ovl] in *.
    eexists (enc =? 0), _, b. split_and!; [|exact Hh|done|done]. rewrite Ho. by destruct (enc =? 0).
Qed.
Lemma fh_bytes_length fb real up o : is_handle fb real up o → Z.of_nat (length (fh_bytes fb)) = OVL_FH_LEN fb.
Proof.
  intros H. destruct (is_handle_length _ _ _ _ H) as [Hl _]. unfold fh_bytes, OVL_FH_LEN. rewrite length_app, length_replicate, length_take.
  unfold OVL_FH_WIRE_OFFSET. lia.
Qed.

(** What [ovl_encode_fh] gives to a caller with a buffer of [max_len] words. *)
Definition fits_in (max_len type len : Z) (fid : option (list ascii)) : Prop :=
  match fid with
  | Some b => type = OVL_FILEID_V1 ∧ Z.of_nat (length b) = 4 * len ∧ 0 < len <= max_len
  | None => type = FILEID_INVALID ∧ (len = max_len ∨ max_len < len ∧ 4 * len <= OVL_FH_WIRE_OFFSET + sizeof_fb + MAX_HANDLE_SZ)
  end.

End encoding.

(** ** Decoding *)

Section decoding.
Context {W : Type} {K : Vfs W} {VS : VfsStat W} {VW : VfsWrite W} {VE : VfsExport W} {R : RbLib}.
Context {L : ExportLaws K} {WL : WriteLaws K} {AL : AliasLaws VE}.
Implicit Types s : wstate W.
Implicit Types o : vstate W.

Definition usable (l : ovl_layer) : bool := (l_fsid l =? 0) || negb (l_bad_uuid l).

(** A real file on a mount of its file system, which can be opened by its
    handle there: a directory has a place in the tree. *)
Record on_mount (real mnt : Z) (w : W) : Prop := OnMount {
  om_sb : sb_of w mnt = sb_of w real;
  om_acceptable : ovl_acceptable w mnt real = true;
  om_weird : ovl_dentry_weird (dentry_of w real) = false;
  om_dir : d_is_dir (dentry_of w real) = true →
    DCACHE_DISCONNECTED (de_flags (dentry_of w real)) = false ∧ de_unhashed (dentry_of w real) = false
}.
(** The layer of a real file: the upper one, or a lower one with a usable
    uuid that no layer of another file system has. *)
Definition in_layers (real : Z) (up : bool) o : Prop :=
  if up then ∃ mnt, ofs_upper_mnt (vs_fs o) = Some mnt ∧ on_mount real mnt (vs_world o)
  else
    (∃ l, l ∈ ofs_lowers (vs_fs o) ∧ usable l = true ∧ on_mount real (l_mnt l) (vs_world o)) ∧
    ∀ l, l ∈ ofs_lowers (vs_fs o) → usable l = true →
      c_uuid (config_of o) = false ∨ s_uuid (sb_of (vs_world o) (l_mnt l)) = s_uuid (sb_of (vs_world o) real) →
      sb_of (vs_world o) (l_mnt l) = sb_of (vs_world o) real.

(** A file of the overlay that is in memory: the table of inodes has it under
    the real file that names it. *)
Record in_memory (dentry inode : Z) (real : Z) (up : bool) s : Prop := InMemory {
  im_inode : od_inode (odentry_at dentry (ws_ovl s)) = Some inode;
  im_real : real_of dentry up (ws_ovl s) = Some real;
  im_lower : p_dentry <$> oi_lowerpath (oinode_at inode (ws_ovl s)) = ovl_dentry_lower dentry (ws_ovl s);
  im_hash : ∃ i, de_inode (dentry_of (ws_world s) real) = Some i ∧ ws_hash s !! i_addr i = Some inode ∧
    i_addr i ∉ ofs_traps (vs_fs (ws_ovl s));
  im_mode : has_fmt S_IFDIR (wi_mode (winode_at inode s)) = d_is_dir (dentry_of (ws_world s) real);
  im_layers : in_layers real up (ws_ovl s);
  im_root : up = true → ofs_upper_mnt (vs_fs (ws_ovl s)) = Some real →
    od_inode (odentry_at (vs_root (ws_ovl s)) (ws_ovl s)) = Some inode;
  im_capable : capable_read_search (ws_world s) = true
}.

Lemma alias_of s i d : od_inode (odentry_at d (ws_ovl s)) = Some i →
  ∃ d', d_find_any_alias s i = Some d' ∧ od_inode (odentry_at d' (ws_ovl s)) = Some i.
Proof.
  intros H. destruct (d_find_any_alias s i) as [d'|] eqn:E; [|by apply alias_found in H].
  exists d'. split; [done|by apply alias_inode].
Qed.
Lemma upper_of_inode d i o : od_inode (odentry_at d o) = Some i → ovl_dentry_upper d o = oi_upperdentry (oinode_at i o).
Proof. intros H. unfold ovl_dentry_upper, d_inode. by rewrite H. Qed.

(** The inode is found, and it is the right one. *)
Lemma verified dentry inode real up strict s : in_memory dentry inode real up s →
  (strict = true → up = true ∧ d_is_dir (dentry_of (ws_world s) real) = false) →
  verify_found (FoundInode inode) (if up then None else Some real) (if up then Some real else None) strict s = true.
Proof.
  intros [Hi Hr Hl _ Hm _ _ _] Hs. cbn. unfold ovl_verify_inode. rewrite Hm.
  assert (Hd : d_is_dir (dentry_of (ws_world s) real) && strict = false).
  { destruct strict; [|by rewrite andb_false_r]. by destruct (Hs eq_refl) as [_ ->]. }
  rewrite Hd. cbn [andb]. unfold real_of in Hr. destruct up; cbn [is_none negb andb].
  - rewrite (upper_of_inode _ _ _ Hi) in Hr. unfold ovl_inode_upper. rewrite Hr. by rewrite bool_decide_eq_true_2.
  - unfold ovl_inode_lower. rewrite Hl, Hr. by rewrite bool_decide_eq_true_2.
Qed.
Lemma lookup_inode_found dentry inode real up s : in_memory dentry inode real up s → ovl_lookup_inode real up s = (inr (Some inode), s).
Proof.
  intros H. destruct (im_hash _ _ _ _ _ H) as (i & Hi & Hh & Ht). unfold ovl_lookup_inode, real_inode. rewrite Hi. cbn [fmap option_fmap option_map].
  unfold ilookup5. rewrite bool_decide_eq_false_2 by done. rewrite Hh. cbn [fmap option_fmap option_map].
  by rewrite (verified _ _ _ _ false _ H) by done.
Qed.

(** In the lower layers: one of the same file system decodes it. *)
Lemma handle_uuid fb real up o : is_handle fb real up o →
  fb_uuid fb = if c_uuid (config_of o) then s_uuid (sb_of (vs_world o) real) else uuid_null.
Proof.
  intros [_ ->]. unfold handle_of. cbv zeta.
  eapply fb_fields. apply encoded_uuid_length.
Qed.
Lemma decode_elsewhere fb mnt connected o : capable_read_search (vs_world o) = true →
  fb_uuid fb ≠ (if c_uuid (config_of o) then s_uuid (sb_of (vs_world o) mnt) else uuid_null) →
  ovl_decode_real_fh fb mnt connected o = (inr None, o).
Proof.
  intros Hc Hu. unfold ovl_decode_real_fh, vbind, vread, vget, get_config. cbn. rewrite Hc. cbn [negb]. unfold vbind, vget. cbn.
  by rewrite bool_decide_eq_false_2 by done.
Qed.
Lemma decode_in_layers_found fb real o : is_handle fb real false o → capable_read_search (vs_world o) = true →
  ovl_dentry_weird (dentry_of (vs_world o) real) = false → ∀ layers,
  (∃ l, l ∈ layers ∧ usable l = true ∧ sb_of (vs_world o) (l_mnt l) = sb_of (vs_world o) real) →
  (∀ l, l ∈ layers → usable l = true →
    c_uuid (config_of o) = false ∨ s_uuid (sb_of (vs_world o) (l_mnt l)) = s_uuid (sb_of (vs_world o) real) →
    sb_of (vs_world o) (l_mnt l) = sb_of (vs_world o) real) →
  ∃ l, decode_in_layers fb false layers o = (inr (Some (OvlPath l real)), o).
Proof.
  intros Hh Hc Hw layers. pose proof (is_handle_encoded _ _ _ _ Hh) as He. induction layers as [|l layers IH]; intros (x & Hx & Hux & Hsx) Hall.
  { by apply elem_of_nil in Hx. }
  assert (Hrest : ∀ y, y ∈ layers → usable y = true →
    c_uuid (config_of o) = false ∨ s_uuid (sb_of (vs_world o) (l_mnt y)) = s_uuid (sb_of (vs_world o) real) →
    sb_of (vs_world o) (l_mnt y) = sb_of (vs_world o) real) by (intros y Hy; apply Hall; by right).
  cbn [decode_in_layers].
  assert (Hskip : negb (l_fsid l =? 0) && l_bad_uuid l = negb (usable l)) by (unfold usable; by destruct (_ =? 0), (l_bad_uuid l)).
  rewrite Hskip. destruct (usable l) eqn:Eu; cbn [negb].
  - unfold vbind. destruct (decide (sb_of (vs_world o) (l_mnt l) = sb_of (vs_world o) real)) as [E|E].
    + rewrite (enc_decode _ _ _ _ He) by done. by exists l.
    + assert (Hne : c_uuid (config_of o) = true ∧ s_uuid (sb_of (vs_world o) (l_mnt l)) ≠ s_uuid (sb_of (vs_world o) real)).
      { split; [destruct (c_uuid (config_of o)) eqn:Ec; [done|]|intros Ee]; exfalso; apply E, Hall; auto; by left. }
      destruct Hne as [Hcu Hne]. rewrite decode_elsewhere; [|done|by rewrite (handle_uuid _ _ _ _ Hh), Hcu; intros Ee; apply Hne].
      apply IH; [|done]. exists x. split_and!; [|done|done]. apply elem_of_cons in Hx as [->|Hx]; [by destruct E|done].
  - apply IH; [|done]. exists x. split_and!; [|done|done]. apply elem_of_cons in Hx as [->|Hx]; [congruence|done].
Qed.
Lemma lower_found fb dentry inode real s : is_handle fb real false (ws_ovl s) → in_memory dentry inode real false s →
  ∃ d, ovl_lower_fh_to_d fb s = (inr (Some d), s) ∧ od_inode (odentry_at d (ws_ovl s)) = Some inode.
Proof.
  intros Hh Hm. destruct (im_layers _ _ _ _ _ Hm) as [(l & Hl & Hul & Hon) Hall].
  destruct (decode_in_layers_found fb real (ws_ovl s) Hh (im_capable _ _ _ _ _ Hm) (om_weird _ _ _ Hon) (ofs_lowers (vs_fs (ws_ovl s))))
    as [l' Hdec]; [exists l; split_and!; [done..|apply (om_sb _ _ _ Hon)]|done|].
  destruct (alias_of s inode dentry (im_inode _ _ _ _ _ Hm)) as (d & Hd & Hid). exists d. split; [|done].
  assert (Hs : set_ws_ovl (ws_ovl s) s = s) by (by destruct s).
  assert (Ho : ulift (ovl_check_origin_fh fb false None false) s = (inr (OvlPath l' real), s)).
  { unfold ulift, ovl_check_origin_fh, vbind, get_fs, vget. cbv beta iota. rewrite Hdec. cbn. by rewrite Hs. }
  unfold ovl_lower_fh_to_d, ubind at 1. rewrite Ho. unfold ubind at 1, udentry, uread, uget. cbn [p_dentry].
  assert (Hc : negb (d_is_dir (dentry_of (ws_world s) real)) || negb (DCACHE_DISCONNECTED (de_flags (dentry_of (ws_world s) real))) = true).
  { destruct (d_is_dir (dentry_of (ws_world s) real)) eqn:E; [|done]. destruct (om_dir _ _ _ Hon E) as [E' _]. unfold ws_world. by rewrite E'. }
  unfold ubind at 1. rewrite Hc. unfold ubind at 1. rewrite (lookup_inode_found _ _ _ _ _ Hm). unfold uget. by rewrite Hd.
Qed.

(** In the upper layer: a directory by its inode, another file by a dentry. *)
Lemma upper_alias dentry inode real s : in_memory dentry inode real true s → d_is_dir (dentry_of (ws_world s) real) = false →
  ∃ d s', ovl_obtain_alias (Some real) None None s = (inr d, s') ∧ od_inode (odentry_at d (ws_ovl s')) = Some inode.
Proof.
  intros Hm Hd. destruct (im_hash _ _ _ _ _ Hm) as (i & Hi & Hh & Ht).
  set (s' := set_ws_ovl (set_vs_inodes (<[inode := set_upperdata_flag (oinode_at inode (ws_ovl s))]> (vs_inodes (ws_ovl s))) (ws_ovl s)) s).
  destruct (alias_of s' inode dentry (im_inode _ _ _ _ _ Hm)) as (d & Ed & Hid). exists d, s'. split; [|done].
  unfold ovl_obtain_alias, ubind at 1, udentry, uread, uget. cbn [fmap option_fmap option_map]. rewrite Hd.
  assert (Hg : ovl_get_inode (Oip None (Some real) None false 0 None None) s = (inr inode, s)).
  { unfold ovl_get_inode. cbn [oip_upperdentry oip_lowerpath oip_index oip_newinode fmap option_fmap option_map].
    unfold ubind, udentry, uread, uget. cbn [ovl_hash_bylower]. rewrite Hi. cbn [is_none negb orb].
    change (default 0 (Some real)) with real. rewrite Hi. cbn [default from_option id]. unfold ovl_iget5, ubind, uget, ilookup5.
    rewrite bool_decide_eq_false_2 by done. rewrite Hh. cbn [fmap option_fmap option_map uret].
    rewrite (verified _ _ _ _ true _ Hm); [done|]. by intros _. }
  unfold ubind at 1. cbn [is_none negb]. rewrite Hg. unfold ubind at 1. cbn [is_none negb].
  assert (Hu : update_oinode inode set_upperdata_flag s = (inr tt, s')) by done. rewrite Hu.
  unfold ubind at 1, uget. by rewrite Ed.
Qed.
Lemma upper_real up dentry inode real mnt s : in_memory dentry inode real true s → ofs_upper_mnt (vs_fs (ws_ovl s)) = Some mnt →
  ∃ d, lookup_real_in up real (upper_layer (vs_fs (ws_ovl s))) s = (inr (Some d), s) ∧ od_inode (odentry_at d (ws_ovl s)) = Some inode.
Proof.
  intros Hm Hmnt. set (layer := upper_layer _).
  assert (Hreal : ∀ d, od_inode (odentry_at d (ws_ovl s)) = Some inode → ovl_dentry_real_at d 0 (ws_ovl s) = Some real).
  { intros d Hd. unfold ovl_dentry_real_at. cbn [Z.eqb]. rewrite (upper_of_inode _ _ _ Hd), <- (upper_of_inode _ _ _ (im_inode _ _ _ _ _ Hm)).
    apply (im_real _ _ _ _ _ Hm). }
  assert (Hend : ∀ fuel d, od_inode (odentry_at d (ws_ovl s)) = Some inode → connect_real up (S fuel) d real layer s = (inr (Some d), s)).
  { intros fuel d Hd. cbn [connect_real]. unfold ubind, uovl, uget. change (l_idx layer) with 0. rewrite (Hreal d Hd).
    by rewrite bool_decide_eq_true_2. }
  unfold lookup_real_in, ovl_lookup_real_ancestor. change (l_mnt layer) with (default 0 (ofs_upper_mnt (vs_fs (ws_ovl s)))). rewrite Hmnt. cbn [default from_option id].
  destruct (Z.eqb_spec real mnt) as [->|Hne].
  - exists (vs_root (ws_ovl s)). pose proof (im_root _ _ _ _ _ Hm eq_refl Hmnt) as Hroot. split; [|done].
    unfold ubind, uovl, uget, uret, uread. by apply Hend.
  - destruct (alias_of s inode dentry (im_inode _ _ _ _ _ Hm)) as (d & Ed & Hid). exists d. split; [|done].
    assert (Ha : ancestor_loop up (S (depth_of (ws_world s) real)) real layer s = (inr (Some d), s)).
    { cbn [ancestor_loop]. unfold ubind at 1, udentry, uread, uget. unfold ubind at 1. unfold ovl_lookup_real_inode, ubind at 1.
      change (l_idx layer) with 0. cbn [Z.eqb]. rewrite (lookup_inode_found _ _ _ _ _ Hm). unfold ubind, uget, uovl, udentry, uread, uret.
      rewrite Ed. cbn [is_none andb]. cbv beta iota zeta. unfold uret, uget. rewrite (Hreal d Hid). by rewrite bool_decide_eq_true_2. }
    unfold ubind, uread, uget. fold layer. rewrite Ha. by apply Hend.
Qed.
Lemma upper_found fb dentry inode real s : is_handle fb real true (ws_ovl s) → in_memory dentry inode real true s →
  ∃ d s', ovl_upper_fh_to_d fb s = (inr (Some d), s') ∧ od_inode (odentry_at d (ws_ovl s')) = Some inode.
Proof.
  intros Hh Hm. destruct (im_layers _ _ _ _ _ Hm) as (mnt & Hmnt & Hon). pose proof (is_handle_encoded _ _ _ _ Hh) as He.
  assert (Hs : set_ws_ovl (ws_ovl s) s = s) by (by destruct s).
  assert (Hdec : ulift (ovl_decode_real_fh fb mnt true) s = (inr (Some real), s)).
  { unfold ulift. rewrite (enc_decode _ _ _ _ He) by first [apply (im_capable _ _ _ _ _ Hm)|intros; apply Hon|apply Hon]. by rewrite Hs. }
  assert (Hup : ulift ovl_upper_mnt s = (inr (Some mnt), s)) by (unfold ulift, ovl_upper_mnt, vget; by rewrite Hs, Hmnt).
  unfold ovl_upper_fh_to_d. unfold ubind at 1. rewrite Hup. unfold ubind at 1.
  rewrite Hdec. unfold ovl_get_dentry. unfold ubind at 1 2, uovl, uget. unfold ubind at 1, udentry, uread, uget.
  destruct (d_is_dir (dentry_of (ws_world s) real)) eqn:Ed; cbn [negb].
  - destruct (om_dir _ _ _ Hon Ed) as [E1 E2]. unfold ws_world. rewrite E1, E2. cbn [orb]. destruct (upper_real ovl_lookup_real_upper _ _ _ _ _ Hm Hmnt) as (d & Hd & Hid).
    exists d, s. split; [|done]. unfold ovl_lookup_real, lookup_real_fuel, ubind. by rewrite Hd.
  - destruct (upper_alias _ _ _ _ Hm Ed) as (d & s' & Hd & Hid). exists d, s'. split; [|done]. by rewrite Hd.
Qed.

(** Between two states a handle stays valid: the files have the same handles
    and the file of the overlay is named by the same real file. *)
Definition still_named (dentry : Z) (up : bool) o o' : Prop :=
  config_of o' = config_of o ∧
  (∀ d, exportfs_encode_fh (vs_world o') d = exportfs_encode_fh (vs_world o) d ∧ sb_of (vs_world o') d = sb_of (vs_world o) d) ∧
  real_of dentry up o' = real_of dentry up o.
Definition names_upper (fid : list ascii) : bool :=
  negb (Z.land (fb_flags (drop (Z.to_nat OVL_FH_WIRE_OFFSET) fid)) OVL_FH_FLAG_PATH_UPPER =? 0).

(** C17: A handle of a file of the overlay leads back to it: what [ovl_encode_fh]
    gives for an inode is decoded, at any later time, to a dentry of the same
    inode, as long as this is in memory and the real file that the handle names
    still belongs to it.  That a lower file has been copied up in the meantime
    does not matter. *)
Theorem export_roundtrip (inode dentry real max_len : Z) s len fid s1 s2 :
  d_find_any_alias s inode = Some dentry →
  ovl_encode_fh inode max_len None s = (inr (OVL_FILEID_V1, len, Some fid), s1) →
  let up := names_upper fid in
  still_named dentry up (ws_ovl s1) (ws_ovl s2) → in_memory dentry inode real up s2 →
  ∃ d s3, ovl_fh_to_dentry fid len OVL_FILEID_V1 s2 = (inr (Some d), s3) ∧ od_inode (odentry_at d (ws_ovl s3)) = Some inode.
Proof.
  intros Ha He up (Hcfg & Henc & Hsame) Hm. unfold ovl_encode_fh in He. cbn [is_none negb] in He.
  apply ubind_inr in He as (alias & ? & [= <- <-] & He). rewrite Ha in He.
  apply ubind_inr in He as ([bytes f] & s' & Hd & He).
  apply dentry_to_fid_run in Hd as [[Hb ->]|(b & r & fb & Hr & Hh & Hb & ->)].
  { by rewrite (proj2 (Z.leb_le _ _)) in He by lia. }
  destruct (bytes <=? 0); [done|]. destruct (_ <? bytes); [done|]. injection He as Hlen Hfid <-.
  destruct (bytes <=? _) eqn:Efit; [|done]. injection Hfid as <-.
  destruct (is_handle_length _ _ _ _ Hh) as (Hl & (n & Hn & Hn0) & _).
  assert (Edrop : drop (Z.to_nat OVL_FH_WIRE_OFFSET) (fh_bytes fb) = fb).
  { unfold fh_bytes. rewrite drop_app_length' by (by rewrite length_replicate). apply take_ge. lia. }
  assert (Eb : b = up) by (unfold up, names_upper; rewrite Edrop; symmetry; apply (enc_upper _ _ _ _ (is_handle_encoded _ _ _ _ Hh))).
  subst b. clearbody up. assert (Er : r = real).
  { rewrite Hr, <- Hsame. by rewrite (im_real _ _ _ _ _ Hm). }
  clear Hr. subst r. assert (Hh2 : is_handle fb real up (ws_ovl s2)).
  { destruct Hh as [Hv ->]. destruct (Henc real) as [E1 E2]. split; [unfold valid_fid in *; rewrite E1; exact Hv|]. unfold handle_of. by rewrite E1, E2, Hcfg. }
  pose proof (is_handle_encoded _ _ _ _ Hh2) as Henc2.
  assert (Elen : Z.shiftl len 2 = OVL_FH_WIRE_OFFSET + fb_len fb).
  { rewrite <- Hlen, Z.shiftl_mul_pow2, Z.shiftr_div_pow2 by lia. change (2 ^ 2) with 4. rewrite Hb. unfold OVL_FH_LEN.
    unfold OVL_FH_WIRE_OFFSET, sizeof_fb in *. rewrite Hn. replace (3 + (21 + 4 * n)) with ((6 + n) * 4) by lia. by rewrite Z.div_mul. }
  unfold ovl_fh_to_dentry, ovl_fid_to_fh, ubind at 1. rewrite Z.eqb_refl, Edrop. unfold uret at 1. cbv beta iota.
  assert (Hcheck : ovl_check_fh_len fb (Z.shiftl len 2) = 0).
  { unfold ovl_check_fh_len. rewrite Elen, (proj2 (Z.ltb_ge _ _)) by (unfold sizeof_fb in *; lia).
    replace (OVL_FH_WIRE_OFFSET + fb_len fb - OVL_FH_WIRE_OFFSET) with (Z.of_nat (length fb)) by lia. apply (enc_check _ _ _ _ Henc2). }
  rewrite Hcheck. cbn [Z.eqb negb]. rewrite (enc_upper _ _ _ _ Henc2). destruct up.
  - by eapply upper_found.
  - destruct (lower_found _ _ _ _ _ Hh2 Hm) as (d & Hd & Hid). by exists d, s2.
Qed.
End decoding.
