(* ===== verification/OvlWriteSim.v ===== *)
(** * A file system for concrete runs

    The witnesses of the theorems about changes run on it.  Dentries with an
    odd address, and 0, are of the upper layer.  A name that a directory does
    not have leads to a negative dentry whose address is computed from the
    name. *)
From S2P Require Import Prelude CString OS OvlOptions OvlVfs OvlHandle OvlLookup OvlLayers OvlSim OvlIno OvlReaddir OvlDirFile OvlWrite.
Open Scope Z_scope.

Record fsys := Fsys {
  f_dentries : list (Z * dentry_info);
  f_names : list ((Z * cstr) * option Z);
  f_xattrs : list ((Z * cstr) * option (list ascii));
  f_attrs : list (Z * attrs);
  f_data : list (Z * list ascii);
  f_gen : Z
}.
Definition put_dentry (d : Z) (i : dentry_info) (t : fsys) : fsys :=
  Fsys ((d, i) :: f_dentries t) (f_names t) (f_xattrs t) (f_attrs t) (f_data t) (f_gen t).
Definition put_name (b : Z) (n : cstr) (x : option Z) (t : fsys) : fsys :=
  Fsys (f_dentries t) (((b, n), x) :: f_names t) (f_xattrs t) (f_attrs t) (f_data t) (f_gen t).
Definition put_xattr (d : Z) (n : cstr) (v : option (list ascii)) (t : fsys) : fsys :=
  Fsys (f_dentries t) (f_names t) (((d, n), v) :: f_xattrs t) (f_attrs t) (f_data t) (f_gen t).
Definition put_attrs (d : Z) (a : attrs) (t : fsys) : fsys :=
  Fsys (f_dentries t) (f_names t) (f_xattrs t) ((d, a) :: f_attrs t) (f_data t) (f_gen t).
Definition put_data (d : Z) (l : list ascii) (t : fsys) : fsys :=
  Fsys (f_dentries t) (f_names t) (f_xattrs t) (f_attrs t) ((d, l) :: f_data t) (f_gen t).
Definition bump (t : fsys) : fsys :=
  Fsys (f_dentries t) (f_names t) (f_xattrs t) (f_attrs t) (f_data t) (f_gen t + 1).

Definition is_up (d : Z) : bool := Z.odd d || (d =? 0).
Definition Upper (d : Z) : Prop := is_up d = true.

(** The address of the negative dentry of a name, and back.  Names of upper
    directories get a new one when something has been moved. *)
Definition missing (t : fsys) (b : Z) (n : cstr) : Z :=
  if is_up b then - (2 * Z.pos (encode (b, n, f_gen t)) + 1) else - (2 * Z.pos (encode (b, n, 0))).
Definition missing_info (d : Z) : dentry_info :=
  match (match - d / 2 with Zpos p => decode p | _ => None end) : option (Z * cstr * Z) with
  | Some (b, n, _) => Dentry KMiss no_dflags None false n b
  | None => negative_dentry
  end.
(** The parent and the inode are of the same layer. *)
Definition own_inode (d : Z) (x : option inode_info) : option inode_info :=
  match x with Some a => if Bool.eqb (is_up (i_addr a)) (is_up d) then Some a else None | None => None end.
Definition same_side (i : dentry_info) (d : Z) : dentry_info :=
  Dentry (de_kind i) (de_flags i) (own_inode d (de_inode i)) (de_unhashed i) (de_name i)
    (if Bool.eqb (is_up (de_parent i)) (is_up d) then de_parent i else d).
Definition info_of (t : fsys) (d : Z) : dentry_info :=
  same_side (default (missing_info d) (assoc d (f_dentries t))) d.
#[global] Arguments info_of : simpl never.
Lemma own_own d x : own_inode d (own_inode d x) = own_inode d x.
Proof. destruct x as [a|]; [|done]. cbn. destruct (Bool.eqb _ _) eqn:E; [cbn; by rewrite E|done]. Qed.
Lemma info_of_own t d : own_inode d (de_inode (info_of t d)) = de_inode (info_of t d).
Proof. apply own_own. Qed.
Lemma info_of_put d i t : info_of (put_dentry d i t) d = same_side i d.
Proof. unfold info_of. cbn. by rewrite decide_True by done. Qed.
Lemma info_of_put_ne d i t y : y ≠ d → info_of (put_dentry d i t) y = info_of t y.
Proof. intros H. unfold info_of. cbn. by rewrite decide_False by congruence. Qed.
(** A name leads to a dentry that has it. *)
Definition find_name (t : fsys) (b : Z) (n : cstr) : res Z :=
  let d := match assoc (b, n) (f_names t) with Some (Some d) => d | _ => missing t b n end in
  let i := info_of t d in
  if Bool.eqb (is_up d) (is_up b) && str_eqb (de_name i) n && (de_parent i =? b) then inr d else inl (- EXDEV).

Definition kind_of (f : ftype) : dkind :=
  match f with S_IFREG => KRegular | S_IFDIR => KDirectory | S_IFLNK => KSymlink | _ => KSpecial end.
Definition positive (d : Z) (f : ftype) (rdev : Z) (name : cstr) (parent : Z) : dentry_info :=
  Dentry (kind_of f) no_dflags (Some (Inode d d f rdev 1)) false name parent.
Definition negative (i : dentry_info) : dentry_info := Dentry KMiss no_dflags None true (de_name i) (de_parent i).
Definition moved (i : dentry_info) (name : cstr) (parent : Z) : dentry_info :=
  Dentry (de_kind i) (de_flags i) (de_inode i) (de_unhashed i) name parent.
Definition add_link (i : inode_info) (k : Z) : inode_info := Inode (i_addr i) (i_ino i) (i_fmt i) (i_rdev i) (i_nlink i + k).
Definition linked (i : dentry_info) (inode : option inode_info) (k : dkind) : dentry_info :=
  Dentry k (de_flags i) ((λ x, add_link x 1) <$> inode) false (de_name i) (de_parent i).

Definition create_in (dir d : Z) (f : ftype) (perm rdev : Z) (t : fsys) : fsys :=
  let i := info_of t d in
  put_name dir (de_name i) (Some d)
    (put_attrs d (Attrs 0 0 (UMode (Some f) perm) 0 0 0 0) (put_data d [] (put_dentry d (positive d f rdev (de_name i) dir) t))).
Definition default_attrs (t : fsys) (d : Z) : attrs :=
  match de_inode (info_of t d) with
  | Some i => Attrs 0 0 (UMode (Some (i_fmt i)) 420) 0 0 0 (Z.of_nat (length (default [] (assoc d (f_data t)))))
  | None => no_attrs
  end.
Definition attrs_at (t : fsys) (d : Z) : attrs := default (default_attrs t d) (assoc d (f_attrs t)).
Definition notified (a : iattr) (x : attrs) : attrs :=
  let has f := negb (Z.land (ia_valid a) f =? 0) in
  Attrs (if has ATTR_UID then ia_uid a else at_uid x) (if has ATTR_GID then ia_gid a else at_gid x)
    (if has ATTR_MODE then ia_mode a else at_mode x) (if has ATTR_ATIME then ia_atime a else at_atime x)
    (if has ATTR_MTIME then ia_mtime a else at_mtime x) (at_ctime x) (if has ATTR_SIZE then ia_size a else at_size x).

Definition renamed (olddir old newdir new flags : Z) (t : fsys) : fsys :=
  let io := info_of t old in
  let i := info_of t new in
  let t := put_name newdir (de_name i) (Some old) (put_dentry old (moved io (de_name i) newdir) (bump t)) in
  if negb (Z.land flags RENAME_EXCHANGE =? 0) then
    put_name olddir (de_name io) (Some new) (put_dentry new (moved i (de_name io) olddir) t)
  else
    let t := put_dentry new (negative i) t in
    if negb (Z.land flags RENAME_WHITEOUT =? 0) then
      let wh := missing t olddir (de_name io) in
      put_name olddir (de_name io) (Some wh) (put_dentry wh (positive wh S_IFCHR 0 (de_name io) olddir) t)
    else put_name olddir (de_name io) None t.

Definition perform (t : fsys) (c : wcall) : fsys :=
  match c with
  | CRmdir dir d | CUnlink dir d => put_dentry d (negative (info_of t d)) t
  | CLink old dir new =>
    let i := info_of t old in
    put_name dir (de_name (info_of t new)) (Some new)
      (put_dentry old (linked i (de_inode i) (de_kind i))
        (put_dentry new (linked (moved i (de_name (info_of t new)) dir) (de_inode i) (de_kind i)) t))
  | CCreate dir d m => create_in dir d S_IFREG (m_perm m) 0 t
  | CMkdir dir d m => create_in dir d S_IFDIR (m_perm m) 0 t
  | CMknod dir d m rdev => create_in dir d (default S_IFCHR (m_fmt m)) (m_perm m) rdev t
  | CSymlink dir d text => put_data d text (create_in dir d S_IFLNK 511 0 t)
  | CRename olddir old newdir new flags => renamed olddir old newdir new flags t
  | CWhiteout dir d => create_in dir d S_IFCHR 0 0 t
  | CNotify d a => put_attrs d (notified a (attrs_at t d)) t
  | CSetxattr d n v flags => put_xattr d n (Some v) t
  | CFileattr d fa => t
  | CFsync d => t
  end.

(** What is moved has to be where the call says, on the side it is moved to. *)
Definition found_at (t : fsys) (b d : Z) : bool :=
  match find_name t b (de_name (info_of t d)) with inr x => x =? d | inl _ => false end.
(** The roots of the mounts are busy. *)
Definition busy (d : Z) : bool := bool_decide (d ∈ [1; 2; 3; 7; 9]).
Definition allowed (t : fsys) (c : wcall) : bool :=
  match c with
  | CRmdir dir d | CUnlink dir d | CCreate dir d _ | CMkdir dir d _ | CMknod dir d _ _ | CSymlink dir d _ | CWhiteout dir d => negb (busy d)
  | CLink old dir new => negb (busy old) && negb (busy new) && Bool.eqb (is_up old) (is_up new)
  | CRename olddir old newdir new flags =>
    negb (busy old) && negb (busy new) && found_at t olddir old && found_at t newdir new && Bool.eqb (is_up olddir) (is_up newdir) &&
    negb (missing (bump t) olddir (de_name (info_of t old)) =? old)
  | _ => true
  end.

Definition data_at (t : fsys) (d : Z) : list ascii := default [] (assoc d (f_data t)).
(** [l] with the bytes [b] from [p] on. *)
Definition overwrite (p : nat) (b l : list ascii) : list ascii :=
  take p (l ++ replicate (p - length l) NUL) ++ b ++ drop (p + length b) l.
Fixpoint next_data (l : list ascii) (p : Z) : Z :=
  match l with [] => - ENXIO | c :: l => if char_eqb c NUL then next_data l (p + 1) else p end.
Definition entry_in (t : fsys) (d : Z) (e : (Z * cstr) * option Z) : option dirent :=
  let '((b, n), _) := e in
  if decide (b = d) then
    match find_name t d n with
    | inr x => if Bool.eqb (is_up x) (is_up d) && negb (d_is_negative (info_of t x)) then Some (Dirent n x (sim_type (info_of t x))) else None
    | inl _ => None
    end
  else None.
Definition listed_names (t : fsys) (d : Z) : list dirent := omap (entry_in t d) (f_names t).

#[export] Instance fsys_vfs : Vfs fsys := {
  dentry_of := info_of;
  sb_of t d := sim_sb;
  lookup_one := find_name;
  getxattr t d n := match assoc (d, n) (f_xattrs t) with Some (Some v) => inr v | _ => inl (- ENODATA) end;
  capable_read_search t := true;
  is_subdir t a b := true;
  exportfs_encode_fh t d := if (0 <=? d) && (d <? 2 ^ 32) then Fid 1 1 (le32 d) else Fid FILEID_INVALID 0 [];
  exportfs_decode_fh t mnt b dwords type connected := inr (le32_value b);
  open_dir t d := 0;
  dir_batches t d := (match listed_names t d with [] => [] | l => [l] end, 0);
  down_write_killable t d := (0, t);
  kmalloc t := (true, t);
  mnt_want_write t m := (0, t);
  vfs_setxattr t d n v := (0, put_xattr d n (Some v) t);
  vfs_removexattr t d n := (0, put_xattr d n None t);
  bin2hex := sim_bin2hex;
  hex2bin := sim_hex2bin;
  kstrtoint s := None;
  cpu_big_endian := false
}.
#[export] Instance fsys_stat : VfsStat fsys := {
  vfs_getattr t d :=
    match de_inode (info_of t d) with
    | Some i => inr (KStat 7 (i_ino i) (i_nlink i) 8 0 0 (bool_decide (i_fmt i = S_IFDIR)))
    | None => inl (- ENOENT)
    end;
  current_fsuid t := 1000;
  generic_permission t i mask := 0;
  inode_permission t d mask := 0;
  inode_special t d := false;
  cap_sys_admin t := true
}.
#[export] Instance fsys_write : VfsWrite fsys := {
  vfs_write t c := if allowed t c then (0, perform t c) else (- EXDEV, t);
  vfs_tmpfile t dir m := (inl (- EOPNOTSUPP), t);
  clone_file_range t old new len := (- EOPNOTSUPP, t);
  splice_direct t old p new p' len :=
    let b := take (Z.to_nat len) (drop (Z.to_nat p) (data_at t old)) in
    (Z.of_nat (length b), match b with [] => t | _ => put_data new (overwrite (Z.to_nat p') b (data_at t new)) t end);
  seek_data t d p := next_data (drop (Z.to_nat p) (data_at t d)) p;
  can_seek t d := true;
  signal_pending t := (false, t);
  dentry_open t d flags := 0;
  stat_of t d :=
    match de_inode (info_of t d) with
    | Some i => let a := attrs_at t d in
                inr (CStat (at_mode a) (i_rdev i) (i_nlink i) (at_uid a) (at_gid a) (Z.of_nat (length (data_at t d))) (at_atime a) (at_mtime a))
    | None => inl (- ENOENT)
    end;
  attrs_of := attrs_at;
  i_flags_of t d := 0;
  vfs_listxattr t d := inr [];
  iop_xattr t d := true;
  vfs_get_link t d := inr (data_at t d);
  fileattr_get t d := inl (- ENOTTY);
  is_posixacl t d := false;
  lock_rename t a b := None;
  current_umask t := 18;
  id_mapped t u g := true;
  inode_lock_interruptible t := (0, t);
  setattr_prepare t i a := 0;
  get_write_access t d := (0, t);
  security_dentry_create t m := 0;
  security_inode_copy_up t d := 0;
  security_inode_copy_up_xattr t n := - EOPNOTSUPP;
  security_file_ioctl t d set := 0;
  posix_acl_create t d m := inr (m, None, None);
  posix_acl_to_xattr t a := inl (- EINVAL);
  init_owner t a m := m
}.

(** Layers 1 (upper, with work directory 3) and 2: "/etc" of the lower layer
    has the file "motd", "/tmp" is in the upper layer. *)
Definition fs_dir (d : Z) (n : string) (p : Z) : dentry_info := positive d S_IFDIR 0 (lit n) p.
Definition sample_fsys : fsys := Fsys
  [(1, fs_dir 1 "/" 1); (2, fs_dir 2 "/" 2); (3, fs_dir 3 "work" 3); (4, fs_dir 4 "etc" 2);
   (6, positive 6 S_IFREG 0 (lit "motd") 4); (5, fs_dir 5 "tmp" 1)]
  [((2, lit "etc"), Some 4); ((4, lit "motd"), Some 6); ((1, lit "tmp"), Some 5)]
  []
  []
  [(6, lit "hello")]
  0.
Definition sample_uconfig : ovl_config :=
  OvlConfig None None None false true true [] false true false OVL_XINO_OFF false false false false 0 0.
Definition lower_layer : ovl_layer := Layer 2 1 0 false.
(** The overlay's dentries 100 ("/"), 101 ("/etc"), 102 ("/etc/motd"), 103
    ("/tmp"), 104 ("/tmp/new", negative). *)
Definition sample_wstate : wstate fsys := WState
  (VState sample_fsys (OvlFs (Some 1) [lower_layer] None 255 sample_uconfig false 0 []) 100
    {[ 100 := OvlDentry (lit "/") 100 true false (Some 200) false true false false [OvlPath lower_layer 2];
       101 := OvlDentry (lit "etc") 100 true false (Some 201) false false false false [OvlPath lower_layer 4];
       102 := OvlDentry (lit "motd") 101 false true (Some 202) false false false false [OvlPath lower_layer 6];
       103 := OvlDentry (lit "tmp") 100 true false (Some 203) false true false false [];
       104 := OvlDentry (lit "new") 103 false false None false false false false [] ]}
    {[ 200 := OvlInode (Some 1) (Some (OvlPath lower_layer 2)) None None 0 false false true false true true;
       201 := OvlInode None (Some (OvlPath lower_layer 4)) None None 0 false false true false true true;
       202 := OvlInode None (Some (OvlPath lower_layer 6)) None None 0 true false false false false true;
       203 := OvlInode (Some 5) None None None 0 false false false false true false ]}
    false)
  (Some 3) None true false 0 0
  {[ 200 := WInode (UMode (Some S_IFDIR) 493) 0 1 1 no_attrs 0;
     201 := WInode (UMode (Some S_IFDIR) 493) 0 1 4 no_attrs 0;
     202 := WInode (UMode (Some S_IFREG) 420) 0 1 6 no_attrs 0;
     203 := WInode (UMode (Some S_IFDIR) 493) 0 1 5 no_attrs 0 ]}
  {[ 1 := 200; 4 := 201; 6 := 202; 5 := 203 ]} 300 ∅.
