(* ===== verification/OvlHandled.v ===== *)
(** * What the VFS gets

    Private attributes are out of reach of every request; a dentry that is not
    revalidated needs no revalidation; the dentry with the data is found; the
    module is loaded whole or not at all. *)
From S2P Require Import Prelude CString OS OvlOptions OvlVfs OvlHandle OvlLookup OvlLayers OvlSim OvlIno OvlReaddir OvlDirFile OvlWrite OvlTemp OvlInode OvlCopyUp OvlCreate OvlAttr OvlWorkdir OvlSuper OvlFile OvlHandlers OvlWriteSim.
Open Scope Z_scope.

Section handled.
Context {W : Type} {K : Vfs W} {VS : VfsStat W} {VW : VfsWrite W} {VF : VfsFile W} {VH : VfsHandlers W}.
Implicit Types s : wstate W.

(** ** Extended attributes *)

(** What a name leads to. *)
Definition private_prefix (c : ovl_config) : cstr := if c_userxattr c then OVL_XATTR_USER_PREFIX else OVL_XATTR_TRUSTED_PREFIX.
Definition private_error (c : ovl_config) (name : cstr) : Z := if bool_decide (name = private_prefix c) then - EINVAL else - EOPNOTSUPP.
Definition acl_name (name : cstr) : option acl_type :=
  if negb config_posix_acl then None
  else if str_eqb XATTR_NAME_POSIX_ACL_ACCESS name then Some ACL_TYPE_ACCESS
  else if str_eqb XATTR_NAME_POSIX_ACL_DEFAULT name then Some ACL_TYPE_DEFAULT else None.
Definition acl_handler (t : acl_type) : xattr_handler :=
  match t with ACL_TYPE_ACCESS => ovl_posix_acl_access_xattr_handler | ACL_TYPE_DEFAULT => ovl_posix_acl_default_xattr_handler end.
Definition own_handler (c : ovl_config) : xattr_handler :=
  if c_userxattr c then ovl_own_user_xattr_handler else ovl_own_trusted_xattr_handler.

Lemma prefix_drop (p name : cstr) : prefixb p name = true → name = p ++ drop (length p) name.
Proof.
  intros H. apply prefixb_spec in H as [k ->]. by rewrite drop_app_length.
Qed.
Lemma resolve_other c name : name ≠ [] → ovl_is_private_xattr c name = false →
  xattr_resolve_name [own_handler c; ovl_other_xattr_handler] name = inr (ovl_other_xattr_handler, name).
Proof.
  intros Hn Hp. unfold ovl_is_private_xattr in Hp. unfold own_handler. cbn [xattr_resolve_name handler_name].
  destruct (c_userxattr c); cbn [handler_name]; rewrite Hp; cbn [length drop prefixb]; destruct name; by try done.
Qed.
Lemma resolve_private c name : ovl_is_private_xattr c name = true →
  xattr_resolve_name [own_handler c; ovl_other_xattr_handler] name =
  if bool_decide (name = private_prefix c) then inl (- EINVAL) else inr (own_handler c, drop (length (private_prefix c)) name).
Proof.
  intros Hp. unfold ovl_is_private_xattr in Hp. fold (private_prefix c) in Hp. pose proof (prefix_drop _ _ Hp) as He.
  assert (Hh : handler_name (own_handler c) = inr (private_prefix c)) by (unfold own_handler, private_prefix; by destruct (c_userxattr c)).
  cbn [xattr_resolve_name]. rewrite Hh, Hp. case_bool_decide as E.
  - rewrite E at 1. by rewrite drop_all.
  - destruct (drop _ name) as [|x l] eqn:Ed; [|done]. by rewrite app_nil_r in He.
Qed.
(** The list of handlers, by cases of the name. *)
Lemma resolve_cases c name :
  xattr_resolve_name (s_xattr c) name =
  match acl_name name with
  | Some t => inr (acl_handler t, [])
  | None =>
    if ovl_is_private_xattr c name then
      if bool_decide (name = private_prefix c) then inl (- EINVAL) else inr (own_handler c, drop (length (private_prefix c)) name)
    else if bool_decide (name = []) then inl (- EINVAL) else inr (ovl_other_xattr_handler, name)
  end.
Proof.
  assert (Hs : s_xattr c = acl_xattr_handlers ++ [own_handler c; ovl_other_xattr_handler]) by (unfold s_xattr, own_handler; by destruct (c_userxattr c)).
  assert (Hrest : xattr_resolve_name [own_handler c; ovl_other_xattr_handler] name =
    if ovl_is_private_xattr c name then
      if bool_decide (name = private_prefix c) then inl (- EINVAL) else inr (own_handler c, drop (length (private_prefix c)) name)
    else if bool_decide (name = []) then inl (- EINVAL) else inr (ovl_other_xattr_handler, name)).
  { destruct (ovl_is_private_xattr c name) eqn:E; [by apply resolve_private|]. case_bool_decide as En; [|by apply resolve_other].
    subst name. unfold own_handler. by destruct (c_userxattr c). }
  rewrite Hs. unfold acl_name, acl_xattr_handlers. destruct config_posix_acl; [|exact Hrest]. cbn [negb app xattr_resolve_name handler_name].
  destruct (str_eqb XATTR_NAME_POSIX_ACL_ACCESS name); [done|]. by destruct (str_eqb XATTR_NAME_POSIX_ACL_DEFAULT name).
Qed.
Lemma acl_not_private c name t : acl_name name = Some t → ovl_is_private_xattr c name = false ∧ name ≠ [] ∧
  name = match t with ACL_TYPE_ACCESS => XATTR_NAME_POSIX_ACL_ACCESS | ACL_TYPE_DEFAULT => XATTR_NAME_POSIX_ACL_DEFAULT end.
Proof.
  unfold acl_name. destruct config_posix_acl; [|done]. cbn [negb]. unfold ovl_is_private_xattr.
  destruct (str_eqb XATTR_NAME_POSIX_ACL_ACCESS name) eqn:E1; [apply str_eqb_eq in E1 as <-; intros [= <-]; by destruct (c_userxattr c)|].
  destruct (str_eqb XATTR_NAME_POSIX_ACL_DEFAULT name) eqn:E2; [apply str_eqb_eq in E2 as <-; intros [= <-]; by destruct (c_userxattr c)|done].
Qed.

(** C19: Requests on extended attributes: the private ones of the overlay are out
    of reach -- reading and setting them fails and changes nothing --, every
    other attribute is read from, and set on, the real file under its own name,
    where only access control lists are checked first. *)
Theorem private_xattrs_out_of_reach (dentry : Z) (name : cstr) (value : option (list ascii)) (flags : Z) s :
  let c := ofs_config (vs_fs (ws_ovl s)) in
  let inode := default 0 (od_inode (odentry_at dentry (ws_ovl s))) in
  if ovl_is_private_xattr c name then
    overlay_getxattr dentry name s = (inr (inl (private_error c name)), s) ∧
    overlay_setxattr dentry name value flags s = (inr (private_error c name), s)
  else if bool_decide (name = []) then
    overlay_getxattr dentry name s = (inr (inl (- EINVAL)), s) ∧ overlay_setxattr dentry name value flags s = (inr (- EINVAL), s)
  else
    overlay_getxattr dentry name s = ovl_xattr_get dentry inode name s ∧
    overlay_setxattr dentry name value flags s =
      match acl_name name with
      | Some t => ovl_posix_acl_xattr_set name t dentry inode value flags s
      | None => ovl_xattr_set dentry inode name value flags s
      end.
Proof.
  intros c inode. pose proof (resolve_cases c name) as Hr. pose proof (acl_not_private c name) as Ha.
  assert (Hg : overlay_getxattr dentry name s =
    match xattr_resolve_name (s_xattr c) name with inl e => uret (inl e) | inr (h, rest) => handler_get h dentry inode rest end s) by done.
  assert (Hset : overlay_setxattr dentry name value flags s =
    match xattr_resolve_name (s_xattr c) name with inl e => uret e | inr (h, rest) => handler_set h dentry inode rest value flags end s) by done.
  rewrite Hg, Hset, Hr. destruct (acl_name name) as [t|].
  - destruct (Ha t eq_refl) as (-> & Hn & E). rewrite bool_decide_eq_false_2 by done. by destruct t; rewrite E.
  - destruct (ovl_is_private_xattr c name); [|by case_bool_decide].
    unfold private_error. case_bool_decide; [done|]. unfold own_handler. by destruct (c_userxattr c).
Qed.

(** ** Revalidation *)

Definition real_dentries (upper : option Z) (stack : list ovl_path) : list Z := option_list upper ++ map p_dentry stack.
Lemma revals_fold (w : W) (stack : list ovl_path) : ∀ f,
  foldl (λ f p, reval_or f (reval_of w (p_dentry p))) f stack =
  Reval (r_reval f || existsb (λ d, r_reval (reval_of w d)) (map p_dentry stack)) (r_weak f || existsb (λ d, r_weak (reval_of w d)) (map p_dentry stack)).
Proof.
  induction stack as [|p stack IH]; intros [a b]; cbn; [by rewrite !orb_false_r|]. rewrite IH. cbn. by rewrite !orb_assoc.
Qed.
Lemma init_reval_spec (w : W) f upper stack :
  ovl_dentry_init_reval w f upper stack =
  Reval (existsb (λ d, r_reval (reval_of w d)) (real_dentries upper stack)) (existsb (λ d, r_weak (reval_of w d)) (real_dentries upper stack)).
Proof.
  unfold ovl_dentry_init_reval, ovl_dentry_init_flags, real_dentries. rewrite revals_fold. destruct f as [a b], upper; unfold reval_or, reval_and; cbn [r_reval r_weak reval_not OVL_D_REVALIDATE no_reval negb option_list app map existsb];
    by rewrite !andb_false_r, !andb_true_r.
Qed.
Lemma revalidate_not_asked d flags (weak : bool) s :
  (if weak then r_weak else r_reval) (reval_of (ws_world s) d) = false → ovl_revalidate_real d flags weak s = (inr 1, s).
Proof.
  intros H. unfold ovl_revalidate_real, ubind, udentry, uread, uget. destruct weak; cbn in H; by rewrite H.
Qed.
Lemma stack_not_asked stack flags (weak : bool) s :
  existsb (λ d, (if weak then r_weak else r_reval) (reval_of (ws_world s) d)) (map p_dentry stack) = false →
  revalidate_stack stack flags weak 1 s = (inr 1, s).
Proof.
  induction stack as [|p stack IH]; [done|]. cbn [map existsb]. intros [Hp Hs]%orb_false_iff. cbn [revalidate_stack Z.leb Z.compare].
  unfold ubind. rewrite revalidate_not_asked by done. by apply IH.
Qed.
(** A dentry whose flags, as they are initialised from its real dentries, do not
    ask for a revalidation is valid: no real dentry would have been asked. *)
Theorem unasked_is_valid (dentry inode flags : Z) (weak : bool) f s :
  od_inode (odentry_at dentry (ws_ovl s)) = Some inode →
  (if weak then r_weak else r_reval) (ovl_dentry_init_reval (ws_world s) f (oi_upperdentry (oinode_at inode (ws_ovl s))) (lowerstack dentry (ws_ovl s))) = false →
  ovl_dentry_revalidate_common dentry flags weak s = (inr 1, s).
Proof.
  intros Hi H. rewrite init_reval_spec in H. assert (Hall : existsb (λ d, (if weak then r_weak else r_reval) (reval_of (ws_world s) d))
    (real_dentries (oi_upperdentry (oinode_at inode (ws_ovl s))) (lowerstack dentry (ws_ovl s))) = false) by (by destruct weak).
  unfold real_dentries in Hall. rewrite existsb_app in Hall. apply orb_false_iff in Hall as [Hu Hl].
  unfold ovl_dentry_revalidate_common, ubind at 1, uovl, uget. rewrite Hi. unfold ubind at 1.
  assert (E : match oi_upperdentry (oinode_at inode (ws_ovl s)) with Some u => ovl_revalidate_real u flags weak | None => uret 1 end s = (inr 1, s)).
  { destruct (oi_upperdentry _); [|done]. apply orb_false_iff in Hu as [Hu _]. by apply revalidate_not_asked. }
  unfold ubind at 1. rewrite E. unfold ubind at 1. by apply stack_not_asked.
Qed.
(** The new upper file of a copy up may add to the flags, the others stay. *)
Lemma update_reval_spec (w : W) f upper lowers :
  f = ovl_dentry_init_reval w f None lowers → ovl_dentry_update_reval w f upper = ovl_dentry_init_reval w f (Some upper) lowers.
Proof.
  rewrite !init_reval_spec. change (real_dentries (Some upper) lowers) with (upper :: map p_dentry lowers).
  change (real_dentries None lowers) with (map p_dentry lowers). intros ->. cbn [existsb].
  generalize (existsb (λ d, r_reval (reval_of w d)) (map p_dentry lowers)), (existsb (λ d, r_weak (reval_of w d)) (map p_dentry lowers)). intros x y.
  unfold ovl_dentry_update_reval, ovl_dentry_remote, reval_of, reval_or, reval_and. cbn.
  by destruct (DCACHE_OP_REVALIDATE _), (DCACHE_OP_WEAK_REVALIDATE _), x, y.
Qed.

(** ** The real dentry *)

(** [ovl_d_real] finds what it is asked for: without an inode the dentry that
    has the data, with the inode of the upper or of the lower data file that
    dentry; [WARN] does not fire. *)
Theorem ovl_d_real_finds (dentry : Z) (inode : option inode_ptr) s :
  (∀ d x, d_real (ws_world s) d x = d) →
  let o := ws_ovl s in
  let data := if test_inode ovl_has_upperdata dentry o then ovl_dentry_upper dentry o else ovl_dentry_lowerdata dentry o in
  od_is_reg (odentry_at dentry o) = true →
  match inode with
  | None => ∀ d, data = Some d → ovl_dentry_upper dentry o = None ∨ d_inode_ptr (ws_world s) (default 0 (ovl_dentry_upper dentry o)) ≠ None →
            ovl_d_real dentry None s = (inr (RealDentry d), s)
  | Some (OverlayInode i) => od_inode (odentry_at dentry o) = Some i → ovl_d_real dentry inode s = (inr (OverlayDentry dentry), s)
  | Some (RealInode i) => ∀ d, ovl_dentry_upper dentry o = Some d ∨
              ovl_dentry_lowerdata dentry o = Some d ∧ d_inode_ptr (ws_world s) (default 0 (ovl_dentry_upper dentry o)) ≠ inode →
              d_inode_ptr (ws_world s) d = inode → ovl_d_real dentry inode s = (inr (RealDentry d), s)
  end.
Proof.
  intros Hreal o data Hreg. subst data o. unfold ovl_d_real, ubind, uovl, uread, uget, uret. cbv beta iota zeta.
  destruct inode as [[i|i]|]; cbn [is_none negb andb].
  - intros Hi. by rewrite bool_decide_eq_true_2 by (by rewrite Hi).
  - intros d Hd Hdi. rewrite bool_decide_eq_false_2 by (by destruct (od_inode _)). rewrite Hreg. cbn [negb orb]. rewrite orb_false_r.
    destruct Hd as [Hu|[Hl Hne]]; [rewrite Hu; by rewrite bool_decide_eq_true_2 by done|].
    destruct (ovl_dentry_upper dentry (ws_ovl s)) as [u|]; cbn [default from_option id] in Hne; [rewrite bool_decide_eq_false_2 by congruence|];
      cbv beta iota; rewrite Hl; cbv beta iota; rewrite Hreal, Hdi; by rewrite bool_decide_eq_true_2.
  - intros d Hd Hu. rewrite Hreg. cbn [negb orb]. destruct (ovl_dentry_upper dentry (ws_ovl s)) as [u|].
    + destruct Hu as [|Hu]; [done|]. cbn [default from_option id] in Hu. rewrite bool_decide_eq_false_2 by congruence. cbn [orb].
      destruct (test_inode _ _ _); [by injection Hd as ->|]. cbv beta iota. rewrite Hd. cbv beta iota. by rewrite Hreal.
    + destruct (test_inode _ _ _); [done|]. cbv beta iota. rewrite Hd. cbv beta iota. by rewrite Hreal.
Qed.
End handled.

(** ** Loading *)

(** The module is loaded whole or not at all, whatever the kernel refuses, and
    unloading takes everything back. *)
Theorem ovl_init_all_or_nothing (inode_cache aio_cache : bool) (register : Z) :
  let '(err, m) := ovl_init inode_cache aio_cache register unloaded in
  (err = 0 ∧ m = ModuleState true true true ∨ err ≠ 0 ∧ m = unloaded) ∧ ovl_exit m = unloaded.
Proof.
  unfold ovl_init. destruct inode_cache; [|split; [by right|done]]. destruct aio_cache; cbn; [|split; [by right|done]].
  destruct (Z.eqb_spec register 0) as [->|]; cbn; (split; [|done]); [by left|by right].
Qed.
