(* ===== verification/OvlSpare.v ===== *)
(** * The lower layers are not changed

    What the functions that change an overlay have in common: every call that
    changes something names only files of the upper layer's file system.
    [usafe may m Q]: from a state whose upper files are in the set [Up] the
    function [m] comes to such a state, what is outside of [Up] is read as
    before, and its result satisfies [Q]; only if [may] is true it can be an
    error pointer.  For copying up the objects only grow ([grows]): what has
    an upper file keeps one. *)
From S2P Require Import Prelude CString OS OvlOptions OvlVfs OvlHandle OvlLookup OvlLayers OvlIno OvlReaddir OvlDirFile OvlWrite OvlTemp OvlInode OvlCopyUp OvlCreate OvlRemove OvlAttr OvlWorkdir.
Open Scope Z_scope.

Create HintDb spare.

(** ** The requests *)

Section requests.
Context {W : Type} {K : Vfs W} {VS : VfsStat W} {VW : VfsWrite W} {R : RbLib}.

(** What changes a mounted overlay: the operations of the VFS on dentries of
    the overlay. *)
Inductive request :=
  | Create (dentry : Z) (mode : umode)
  | Mkdir (dentry : Z) (mode : umode)
  | Mknod (dentry : Z) (mode : umode) (rdev : Z)
  | Symlink (dentry : Z) (link : cstr)
  | Link (old new : Z)
  | Unlink (dentry : Z)
  | Rmdir (dentry : Z)
  | Rename (olddir old newdir new flags : Z)
  | Setattr (dentry : Z) (attr : iattr)
  | XattrSet (dentry inode : Z) (name : cstr) (value : option (list ascii)) (flags : Z)
  | FileattrSet (dentry : Z) (fa : fileattr)
  | OpenCopyUp (dentry flags : Z).
Definition serve (r : request) : U W Z :=
  match r with
  | Create dentry mode => ovl_create dentry mode
  | Mkdir dentry mode => ovl_mkdir dentry mode
  | Mknod dentry mode rdev => ovl_mknod dentry mode rdev
  | Symlink dentry link => ovl_symlink dentry link
  | Link old new => ovl_link old new
  | Unlink dentry => ovl_unlink dentry
  | Rmdir dentry => ovl_rmdir dentry
  | Rename olddir old newdir new flags => ovl_rename olddir old newdir new flags
  | Setattr dentry attr => ovl_setattr dentry attr
  | XattrSet dentry inode name value flags => ovl_xattr_set dentry inode name value flags
  | FileattrSet dentry fa => ovl_fileattr_set dentry fa
  | OpenCopyUp dentry flags => ovl_maybe_copy_up dentry flags
  end.
End requests.

(** ** The kernel, as far as it matters *)

(** The files that a call changes. *)
Definition targets (c : wcall) : list Z :=
  match c with
  | CRmdir dir dentry | CUnlink dir dentry | CWhiteout dir dentry => [dir; dentry]
  | CLink old dir new => [old; dir; new]
  | CCreate dir dentry _ | CMkdir dir dentry _ | CMknod dir dentry _ _ | CSymlink dir dentry _ => [dir; dentry]
  | CRename olddir old newdir new _ => [olddir; old; newdir; new]
  | CNotify dentry _ | CSetxattr dentry _ _ _ | CFileattr dentry _ | CFsync dentry => [dentry]
  end.

(** A file is read as before. *)
Record same_file {W} {K : Vfs W} {VS : VfsStat W} {VW : VfsWrite W} (w w' : W) (d : Z) : Prop := SameFile {
  sf_dentry : dentry_of w' d = dentry_of w d;
  sf_lookup n : lookup_one w' d n = lookup_one w d n;
  sf_xattr n : getxattr w' d n = getxattr w d n;
  sf_listxattr : vfs_listxattr w' d = vfs_listxattr w d;
  sf_batches : dir_batches w' d = dir_batches w d;
  sf_stat : stat_of w' d = stat_of w d;
  sf_attrs : attrs_of w' d = attrs_of w d;
  sf_flags : i_flags_of w' d = i_flags_of w d;
  sf_fileattr : fileattr_get w' d = fileattr_get w d;
  sf_link : vfs_get_link w' d = vfs_get_link w d
}.
Definition lower_same {W} {K : Vfs W} {VS : VfsStat W} {VW : VfsWrite W} (Up : Z → Prop) (w w' : W) : Prop :=
  ∀ d, ¬ Up d → same_file w w' d.

#[export] Instance lower_same_preorder {W} {K : Vfs W} {VS : VfsStat W} {VW : VfsWrite W} Up : PreOrder (lower_same (W := W) Up).
Proof.
  split.
  - intros w d _. by split.
  - intros w1 w2 w3 H H' d Hd. destruct (H d Hd), (H' d Hd). split; intros; etransitivity; eauto.
Qed.

(** [Up]: the dentries of the upper layer's file system; no dentry of another
    file system has the address 0.  A call for those keeps what [Same] says. *)
Class UpperLaws {W} (K : Vfs W) (VS : VfsStat W) (VW : VfsWrite W) (Up : Z → Prop) (Same : relation W) : Prop := {
  up_null : Up 0;
  up_lookup w b n d : lookup_one w b n = inr d → Up b → Up d;
  up_parent w d : Up d → Up (de_parent (dentry_of w d));
  up_write w c : Forall Up (targets c) → Same w (snd (vfs_write w c));
  up_tmpfile w dir m : Up dir → Same w (snd (vfs_tmpfile w dir m));
  up_tmpfile_new w dir m d : Up dir → fst (vfs_tmpfile w dir m) = inr d → Up d;
  up_clone w old new len : Up new → Same w (snd (clone_file_range w old new len));
  up_splice w old p new p' len : Up new → Same w (snd (splice_direct w old p new p' len));
  up_setxattr w d n v : Up d → Same w (snd (vfs_setxattr w d n v));
  up_removexattr w d n : Up d → Same w (snd (vfs_removexattr w d n));
  up_write_access w d : Up d → Same w (snd (get_write_access w d));
  up_kmalloc w : Same w (snd (kmalloc w));
  up_down_write w d : Same w (snd (down_write_killable w d));
  up_want_write w m : Same w (snd (mnt_want_write w m));
  up_signal w : Same w (snd (signal_pending w));
  up_lock w : Same w (snd (inode_lock_interruptible w))
}.

(** ** What copying up does to the objects *)

(** Names, places and lower files stay as they are; upper files, data and
    aliases are added. *)
Record grows {W} (o o' : vstate W) : Prop := Grows {
  gr_size : (size (vs_dentries o) ≤ size (vs_dentries o'))%nat;
  gr_name d : od_name (odentry_at d o') = od_name (odentry_at d o);
  gr_parent d : od_parent (odentry_at d o') = od_parent (odentry_at d o);
  gr_is_dir d : od_is_dir (odentry_at d o') = od_is_dir (odentry_at d o);
  gr_inode d : od_inode (odentry_at d o') = od_inode (odentry_at d o);
  gr_disconnected d : od_disconnected (odentry_at d o') = od_disconnected (odentry_at d o);
  gr_stack d : od_lowerstack (odentry_at d o') = od_lowerstack (odentry_at d o);
  gr_alias d : OVL_E_UPPER_ALIAS (odentry_at d o) = true → OVL_E_UPPER_ALIAS (odentry_at d o') = true;
  gr_upper i : oi_upperdentry (oinode_at i o) ≠ None → oi_upperdentry (oinode_at i o') ≠ None;
  gr_data i : OVL_UPPERDATA (oinode_at i o) = true → OVL_UPPERDATA (oinode_at i o') = true;
  gr_lower i : oi_lowerpath (oinode_at i o') = oi_lowerpath (oinode_at i o);
  gr_is_reg i : oi_is_reg (oinode_at i o') = oi_is_reg (oinode_at i o);
  gr_fs : ofs_indexdir (vs_fs o') = ofs_indexdir (vs_fs o)
}.
#[export] Instance grows_preorder {W} : PreOrder (grows (W := W)).
Proof.
  split; [by split|]. intros o1 o2 o3 [] []. split; intros; first [lia|auto; fail|congruence].
Qed.
(** The changes of an inode, and of a dentry, that let them grow. *)
Definition inode_grows (x y : ovl_inode) : Prop :=
  (oi_upperdentry x ≠ None → oi_upperdentry y ≠ None) ∧ (OVL_UPPERDATA x = true → OVL_UPPERDATA y = true) ∧
  oi_lowerpath y = oi_lowerpath x ∧ oi_is_reg y = oi_is_reg x.
Definition dentry_grows (x y : ovl_dentry) : Prop :=
  (od_name y, od_parent y, od_is_dir y, od_inode y, od_disconnected y, od_lowerstack y) =
  (od_name x, od_parent x, od_is_dir x, od_inode x, od_disconnected x, od_lowerstack x) ∧
  (OVL_E_UPPER_ALIAS x = true → OVL_E_UPPER_ALIAS y = true).
Lemma oinode_insert {W} i x (o : vstate W) j :
  oinode_at j (set_vs_inodes (<[i := x]> (vs_inodes o)) o) = if decide (i = j) then x else oinode_at j o.
Proof.
  unfold oinode_at. cbn. destruct (decide (i = j)) as [->|]; [by rewrite lookup_insert_eq|by rewrite lookup_insert_ne].
Qed.
Lemma odentry_insert {W} d x (o : vstate W) e :
  odentry_at e (set_vs_dentries (<[d := x]> (vs_dentries o)) o) = if decide (d = e) then x else odentry_at e o.
Proof.
  unfold odentry_at. cbn. destruct (decide (d = e)) as [->|]; [by rewrite lookup_insert_eq|by rewrite lookup_insert_ne].
Qed.
Lemma grows_inode {W} i x (o : vstate W) :
  inode_grows (oinode_at i o) x → grows o (set_vs_inodes (<[i := x]> (vs_inodes o)) o).
Proof.
  intros (Hu & Hd & Hl & Hr). split; try done; intros j; rewrite oinode_insert; destruct (decide (i = j)) as [->|]; done.
Qed.
Lemma grows_dentry {W} d x (o : vstate W) :
  dentry_grows (odentry_at d o) x → grows o (set_vs_dentries (<[d := x]> (vs_dentries o)) o).
Proof.
  intros ([= ? ? ? ? ? ?] & Ha). split; try done; try (intros e; rewrite odentry_insert; destruct (decide (d = e)) as [->|]; done).
  cbn. destruct (decide (is_Some (vs_dentries o !! d))) as [[y Hy]|Hn].
  - by rewrite map_size_insert_Some.
  - rewrite map_size_insert_None; [lia|]. by apply eq_None_not_Some.
Qed.

(** ** The judgements *)

Section spare.
Context {W : Type} {K : Vfs W} {VS : VfsStat W} {VW : VfsWrite W} {R : RbLib} (Up : Z → Prop) (Same : relation W) {SP : PreOrder Same} {UL : UpperLaws K VS VW Up Same}.
(** What is kept of the objects: that they grow, or nothing. *)
Context (G : relation (vstate W)) {GP : PreOrder G} (HG : ∀ o o', grows o o' → G o o').
Implicit Types s : wstate W.
Implicit Types o : vstate W.

(** The overlay's idea of its upper files is right. *)
Record uppers_ok o : Prop := UppersOk {
  uo_inode i u : oi_upperdentry (oinode_at i o) = Some u → Up u;
  uo_indexdir : Up (default 0 (ofs_indexdir (vs_fs o)))
}.
Record upper_state s : Prop := UpperState {
  us_ovl : uppers_ok (ws_ovl s);
  us_workdir : Up (default 0 (ws_workdir s));
  us_whiteout : Up (default 0 (ws_whiteout s))
}.
(** One step, or many. *)
Record vstep o o' : Prop := VStep {
  vp_ok : uppers_ok o'; vp_lower : Same (vs_world o) (vs_world o'); vp_grows : G o o'
}.
Record ustep s s' : Prop := UStep {
  up_ok : upper_state s'; up_lower : Same (ws_world s) (ws_world s'); up_grows : G (ws_ovl s) (ws_ovl s');
  up_workdir : ws_workdir s' = ws_workdir s
}.
Lemma vstep_refl o : uppers_ok o → vstep o o.
Proof. by split. Qed.
Lemma ustep_refl s : upper_state s → ustep s s.
Proof. by split. Qed.
Lemma vstep_trans o1 o2 o3 : vstep o1 o2 → vstep o2 o3 → vstep o1 o3.
Proof. intros [] []. split; [done|by etransitivity|by etransitivity]. Qed.
Lemma ustep_trans s1 s2 s3 : ustep s1 s2 → ustep s2 s3 → ustep s1 s3.
Proof. intros [] []. split; [done|by etransitivity|by etransitivity|congruence]. Qed.
(** The world below changes, and nothing else. *)
Lemma vstep_world o w : uppers_ok o → Same (vs_world o) w → vstep o (set_vs_world w o).
Proof. intros [Hi Hx] Hw. split; [by split|done|]. apply HG. by split. Qed.
Lemma ustep_ovl s o : upper_state s → vstep (ws_ovl s) o → ustep s (set_ws_ovl o s).
Proof. intros [Ho Hw Hh] []. split; [by split|done..]. Qed.

Definition vsafe {A} (may : bool) (m : V W A) (Q : A → Prop) : Prop :=
  ∀ o, uppers_ok o → vstep o (snd (m o)) ∧ match fst (m o) with inl _ => may = true | inr a => Q a end.
Definition usafe {A} (may : bool) (m : U W A) (Q : A → Prop) : Prop :=
  ∀ s, upper_state s → ustep s (snd (m s)) ∧ match fst (m s) with inl _ => may = true | inr a => Q a end.
Definition any {A} : A → Prop := λ _, True.

(** ** Rules for the functions that only use the objects *)

Section vrules.
Context {A B : Type}.
Lemma vsafe_mono may (m : V W A) (Q Q' : A → Prop) : vsafe may m Q → (∀ a, Q a → Q' a) → vsafe may m Q'.
Proof. intros H HQ o Ho. destruct (H o Ho) as [? Hr]. split; [done|]. destruct (fst _); auto. Qed.
Lemma vsafe_any may (m : V W A) (Q : A → Prop) : vsafe may m Q → vsafe may m any.
Proof. intros H. by eapply vsafe_mono. Qed.
Lemma vsafe_ret may a (Q : A → Prop) : Q a → vsafe may (vret a) Q.
Proof. intros HQ o Ho. split; [by apply vstep_refl|done]. Qed.
Lemma vsafe_fail e (Q : A → Prop) : vsafe true (vfail e) Q.
Proof. intros o Ho. split; [by apply vstep_refl|done]. Qed.
Lemma vsafe_get may (f : vstate W → A) (Q : A → Prop) : (∀ o, uppers_ok o → Q (f o)) → vsafe may (vget f) Q.
Proof. intros HQ o Ho. split; [by apply vstep_refl|by apply HQ]. Qed.
Lemma vsafe_bind may (m : V W A) (f : A → V W B) Q Q' :
  vsafe may m Q → (∀ a, Q a → vsafe may (f a) Q') → vsafe may (vbind m f) Q'.
Proof.
  intros H Hf o Ho. destruct (H o Ho) as [Hs HQ]. unfold vbind.
  destruct (m o) as [[e|a] o1]; cbn [fst snd] in *; [done|].
  destruct (Hf a HQ o1 (vp_ok _ _ Hs)) as [? ?]. split; [by eapply vstep_trans|done].
Qed.
Lemma vsafe_catch may (m : V W A) Q : vsafe true m Q → vsafe may (vcatch m) any.
Proof. intros H o Ho. destruct (H o Ho) as [? _]. unfold vcatch. by destruct (m o). Qed.
End vrules.

Lemma vsafe_vcall may (f : W → Z * W) : (∀ w, Same w (snd (f w))) → vsafe may (vcall f) any.
Proof.
  intros Hf o Ho. unfold vcall. specialize (Hf (vs_world o)). destruct (f (vs_world o)). split; [by apply vstep_world|done].
Qed.
Lemma vsafe_kmalloc : vsafe true vkmalloc any.
Proof.
  intros o Ho. unfold vkmalloc, vbind. pose proof (up_kmalloc (UpperLaws := UL) (vs_world o)) as H.
  destruct (kmalloc (vs_world o)) as [[] w]; (split; [by apply vstep_world|done]).
Qed.
Lemma vsafe_warn may b : vsafe may (warn_on b) any.
Proof.
  intros o Ho. destruct b; cbn; [|by split; [apply vstep_refl|]]. destruct Ho. split; [|done].
  split; [by split|reflexivity|]. apply HG. by split.
Qed.
(** The members of an inode are set; its upper file stays in [Up]. *)
Lemma vstep_set_inode i x o : uppers_ok o → (∀ u, oi_upperdentry x = Some u → Up u) →
  G o (set_vs_inodes (<[i := x]> (vs_inodes o)) o) → vstep o (set_vs_inodes (<[i := x]> (vs_inodes o)) o).
Proof.
  intros [Hi Hx] Hu Hg. split; [split; [|done]|reflexivity|done]. intros j u. rewrite oinode_insert.
  destruct (decide (i = j)); [apply Hu|apply Hi].
Qed.
Lemma vsafe_update_inode may f dentry :
  (∀ i, oi_upperdentry (f i) = oi_upperdentry i) → (∀ i, inode_grows i (f i)) → vsafe may (update_inode f dentry) any.
Proof.
  intros Hf Hg o Ho. split; [|done]. unfold update_inode, vupdate. cbn.
  destruct (od_inode _) as [i|]; [|by apply vstep_refl]. apply vstep_set_inode; [done| |].
  - intros u. rewrite Hf. apply Ho.
  - by apply HG, grows_inode.
Qed.
Lemma vsafe_update_dentry may f dentry : (∀ d, dentry_grows d (f d)) → vsafe may (update_dentry f dentry) any.
Proof.
  intros Hf o [Hi Hx]. split; [|done]. split; [by split|reflexivity|]. by apply HG, grows_dentry.
Qed.

#[local] Hint Resolve vsafe_fail vsafe_kmalloc vsafe_warn : spare.
#[local] Hint Extern 1 (vsafe _ (update_inode _ _) _) => (apply vsafe_update_inode; done) : spare.
#[local] Hint Extern 1 (vsafe _ (update_dentry _ _) _) => (apply vsafe_update_dentry; done) : spare.
#[local] Hint Extern 1 (Same _ _) => first
  [ apply up_kmalloc | apply up_down_write | apply up_want_write | apply up_signal | apply up_lock
  | apply up_setxattr | apply up_removexattr | apply up_clone | apply up_splice | apply up_write_access ] : spare.
#[local] Hint Unfold any : spare.

Ltac vsafe_step :=
  cbv beta zeta;
  lazymatch goal with
  | |- vsafe _ ?m ?Q =>
    first
      [ solve [eauto 4 with spare]
      | solve [eapply vsafe_any; eauto 4 with spare]
      | tryif is_evar Q then (lazymatch type of Q with ?A → Prop => unify Q (fun _ : A => True) end) else idtac;
        lazymatch m with
        | vbind _ _ => eapply vsafe_bind; [|intros ? ?]
        | vret _ => apply vsafe_ret; done
        | vget _ => apply vsafe_get; done
        | vread _ => apply vsafe_get; done
        | vcall _ => eapply vsafe_any, vsafe_vcall; intros; by eauto with spare
        | vcatch _ => eapply vsafe_any, vsafe_catch
        | if ?b then _ else _ => destruct b
        | match ?x with _ => _ end => destruct x
        end ]
  end.
Ltac vsafe_auto := repeat vsafe_step.

Lemma vsafe_dentry_at may d : vsafe may (dentry_at d) any.
Proof. by apply vsafe_get. Qed.
Lemma vsafe_get_fs may : vsafe may get_fs any.
Proof. by apply vsafe_get. Qed.
Lemma vsafe_get_config may : vsafe may get_config any.
Proof. by apply vsafe_get. Qed.
#[local] Hint Resolve vsafe_dentry_at vsafe_get_fs vsafe_get_config : spare.
Lemma vsafe_indexdir may : vsafe may ovl_indexdir (λ d, Up (default 0 d)).
Proof. apply vsafe_get. by intros o []. Qed.
Lemma vsafe_index_all may : vsafe may ovl_index_all any.
Proof. unfold ovl_index_all. vsafe_auto. Qed.
Lemma vsafe_want_write may : vsafe may ovl_want_write any.
Proof. unfold ovl_want_write, ovl_upper_mnt. vsafe_auto. Qed.
#[local] Hint Resolve vsafe_indexdir vsafe_index_all vsafe_want_write : spare.
Lemma vsafe_getxattr may d ox : vsafe may (ovl_getxattr d ox) any.
Proof. unfold ovl_getxattr. vsafe_auto. Qed.
Lemma vsafe_setxattr may d ox v : Up d → vsafe may (ovl_setxattr d ox v) any.
Proof. intros Hd. unfold ovl_setxattr. vsafe_auto. Qed.
Lemma vsafe_removexattr may d ox : Up d → vsafe may (ovl_removexattr d ox) any.
Proof. intros Hd. unfold ovl_removexattr. vsafe_auto. Qed.
#[local] Hint Resolve vsafe_getxattr vsafe_setxattr vsafe_removexattr : spare.
Lemma vsafe_set_noxattr may : vsafe may (vupdate (λ s : vstate W, set_vs_fs (set_noxattr (vs_fs s)) s)) any.
Proof. intros o [Hi Hx]. split; [|done]. split; [by split|reflexivity|]. apply HG. by split. Qed.
#[local] Hint Resolve vsafe_set_noxattr : spare.
Lemma vsafe_check_setxattr may d ox v e : Up d → vsafe may (ovl_check_setxattr d ox v e) any.
Proof. intros Hd. unfold ovl_check_setxattr. vsafe_auto. Qed.
#[local] Hint Resolve vsafe_check_setxattr : spare.
Lemma vsafe_check_origin_xattr may d : vsafe may (ovl_check_origin_xattr d) any.
Proof. unfold ovl_check_origin_xattr. vsafe_auto. Qed.
Lemma vsafe_is_impuredir may d : vsafe may (ovl_is_impuredir d) any.
Proof. unfold ovl_is_impuredir, ovl_check_dir_xattr. vsafe_auto. Qed.
Lemma vsafe_encode d u : vsafe true (ovl_encode_real_fh d u) any.
Proof. unfold ovl_encode_real_fh. vsafe_auto. Qed.
#[local] Hint Resolve vsafe_check_origin_xattr vsafe_is_impuredir vsafe_encode : spare.
Lemma vsafe_get_index_name d : vsafe true (ovl_get_index_name d) any.
Proof. unfold ovl_get_index_name, ovl_get_index_name_fh. vsafe_auto. Qed.
Lemma vsafe_set_origin l u : Up u → vsafe true (ovl_set_origin l u) any.
Proof. intros Hu. unfold ovl_set_origin. vsafe_auto. Qed.
Lemma vsafe_set_nlink_common may u n r c : Up u → vsafe may (ovl_set_nlink_common u n r c) any.
Proof. intros Hu. unfold ovl_set_nlink_common. vsafe_auto. Qed.
Lemma vsafe_get_nlink may l u f : vsafe may (ovl_get_nlink l u f) any.
Proof. unfold ovl_get_nlink. vsafe_auto. Qed.
Lemma vsafe_need_index may d : vsafe may (ovl_need_index d) any.
Proof. unfold ovl_need_index. vsafe_auto. Qed.
Lemma vsafe_set_impure may d u : Up u → vsafe may (ovl_set_impure d u) any.
Proof.
  intros Hu. unfold ovl_set_impure. vsafe_auto.
Qed.
Lemma vsafe_version_inc may d b : vsafe may (ovl_dir_version_inc d b) any.
Proof. unfold ovl_dir_version_inc. vsafe_auto. Qed.
#[local] Hint Resolve vsafe_get_index_name vsafe_set_origin vsafe_set_nlink_common vsafe_get_nlink vsafe_need_index
  vsafe_set_impure vsafe_version_inc : spare.

(** Reading directories. *)
Lemma vsafe_entry_new may r d : vsafe may (ovl_cache_entry_new r d) any.
Proof. unfold ovl_cache_entry_new. vsafe_auto. Qed.
#[local] Hint Resolve vsafe_entry_new : spare.
Lemma vsafe_fill_merge may r d : vsafe may (ovl_fill_merge r d) any.
Proof. unfold ovl_fill_merge, ovl_cache_entry_add_rb, ovl_fill_lowest. vsafe_auto. Qed.
#[local] Hint Resolve vsafe_fill_merge : spare.
Lemma vsafe_deliver may batch r : vsafe may (deliver ovl_fill_merge batch r) any.
Proof. revert r. induction batch as [|d batch IH]; intros r; cbn [deliver]; vsafe_auto. Qed.
#[local] Hint Resolve vsafe_deliver : spare.
Lemma vsafe_iterate may batches l r : vsafe may (iterate_batches ovl_fill_merge batches l r) any.
Proof. revert r. induction batches as [|b batches IH]; intros r; cbn [iterate_batches]; vsafe_auto. Qed.
Lemma vsafe_check_whiteouts may d r : vsafe may (ovl_check_whiteouts d r) any.
Proof. unfold ovl_check_whiteouts. vsafe_auto. Qed.
#[local] Hint Resolve vsafe_iterate vsafe_check_whiteouts : spare.
Lemma vsafe_dir_read may d r : vsafe may (ovl_dir_read ovl_fill_merge d r) any.
Proof. unfold ovl_dir_read. vsafe_auto. Qed.
#[local] Hint Resolve vsafe_dir_read : spare.
Lemma vsafe_check_d_type may d : vsafe may (ovl_check_d_type_supported d) any.
Proof.
  assert (Hd : ∀ batch r, vsafe may (deliver ovl_check_d_type batch r) any).
  { induction batch as [|b batch IH]; intros r; cbn [deliver]; [vsafe_auto|]. unfold ovl_check_d_type at 1. vsafe_auto. }
  assert (Hi : ∀ batches l r, vsafe may (iterate_batches ovl_check_d_type batches l r) any).
  { induction batches as [|b batches IH]; intros l r; cbn [iterate_batches]; vsafe_auto. }
  unfold ovl_check_d_type_supported, ovl_dir_read. vsafe_auto.
Qed.
Lemma vsafe_read_layers may fuel idx d r : vsafe may (read_layers fuel idx d r) any.
Proof. revert idx r. induction fuel as [|fuel IH]; intros idx r; cbn [read_layers]; vsafe_auto. Qed.
#[local] Hint Resolve vsafe_read_layers : spare.
Lemma vsafe_check_empty_dir may d : vsafe may (ovl_check_empty_dir d) any.
Proof. unfold ovl_check_empty_dir, ovl_dir_read_merged. vsafe_auto. Qed.
#[local] Hint Resolve vsafe_check_empty_dir : spare.

(** ** Rules for the functions that change the overlay *)

Section urules.
Context {A B : Type}.
Lemma usafe_mono may (m : U W A) (Q Q' : A → Prop) : usafe may m Q → (∀ a, Q a → Q' a) → usafe may m Q'.
Proof. intros H HQ s Hs. destruct (H s Hs) as [? Hr]. split; [done|]. destruct (fst _); auto. Qed.
Lemma usafe_any may (m : U W A) (Q : A → Prop) : usafe may m Q → usafe may m any.
Proof. intros H. by eapply usafe_mono. Qed.
Lemma usafe_ret may a (Q : A → Prop) : Q a → usafe may (uret a) Q.
Proof. intros HQ s Hs. split; [by apply ustep_refl|done]. Qed.
Lemma usafe_fail e (Q : A → Prop) : usafe true (ufail e) Q.
Proof. intros s Hs. split; [by apply ustep_refl|done]. Qed.
(** What only reads; a pointer it gives may be an error. *)
Lemma usafe_look (f : wstate W → res A) (Q : A → Prop) :
  (∀ s a, upper_state s → f s = inr a → Q a) → usafe true (λ s, (f s, s)) Q.
Proof. intros HQ s Hs. split; [by apply ustep_refl|]. cbn. destruct (f s) eqn:E; [done|]. by eapply HQ. Qed.
Lemma usafe_get may (f : wstate W → A) (Q : A → Prop) : (∀ s, upper_state s → Q (f s)) → usafe may (uget f) Q.
Proof. intros HQ s Hs. split; [by apply ustep_refl|by apply HQ]. Qed.
(** The objects are not touched. *)
Lemma usafe_update may (f : wstate W → wstate W) :
  (∀ s, upper_state s → upper_state (f s)) → (∀ s, ws_ovl (f s) = ws_ovl s ∧ ws_workdir (f s) = ws_workdir s) → usafe may (uupdate f) any.
Proof.
  intros Hf Hw s Hs. destruct (Hw s) as [Ho Hd]. split; [|done]. cbn. split; [by apply Hf|unfold ws_world; by rewrite Ho|by rewrite Ho|done].
Qed.
Lemma usafe_lift may (m : V W A) (Q : A → Prop) : vsafe may m Q → usafe may (ulift m) Q.
Proof.
  intros H s Hs. destruct (H _ (us_ovl _ Hs)) as [? ?]. unfold ulift.
  destruct (m (ws_ovl s)) as [r o]. cbn [fst snd] in *. split; [by apply ustep_ovl|done].
Qed.
Lemma usafe_bind may (m : U W A) (f : A → U W B) Q Q' :
  usafe may m Q → (∀ a, Q a → usafe may (f a) Q') → usafe may (ubind m f) Q'.
Proof.
  intros H Hf s Hs. destruct (H s Hs) as [Hs1 HQ]. unfold ubind.
  destruct (m s) as [[e|a] s1]; cbn [fst snd] in *; [done|].
  destruct (Hf a HQ s1 (up_ok _ _ Hs1)) as [? ?]. split; [by eapply ustep_trans|done].
Qed.
Lemma usafe_try may (m : U W A) (bad : Z → U W B) (k : A → U W B) Q Q' :
  usafe true m Q → (∀ e, usafe may (bad e) Q') → (∀ a, Q a → usafe may (k a) Q') → usafe may (utry m bad k) Q'.
Proof.
  intros H Hb Hk s Hs. destruct (H s Hs) as [Hs1 HQ]. unfold utry.
  destruct (m s) as [[e|a] s1]; cbn [fst snd] in *.
  - destruct (Hb e s1 (up_ok _ _ Hs1)) as [? ?]. split; [by eapply ustep_trans|done].
  - destruct (Hk a HQ s1 (up_ok _ _ Hs1)) as [? ?]. split; [by eapply ustep_trans|done].
Qed.
End urules.
Lemma usafe_check {B} may (m : U W Z) (bad : Z → U W B) (k : U W B) Q' :
  usafe may m any → (∀ e, usafe may (bad e) Q') → usafe may k Q' → usafe may (ucheck m bad k) Q'.
Proof. intros H Hb Hk. eapply usafe_bind; [exact H|]. intros e _. by destruct (e =? 0). Qed.
Lemma usafe_uint may (m : V W Z) : vsafe true m any → usafe may (uint m) any.
Proof. intros H. eapply usafe_try; [by apply usafe_lift|intros e; by apply usafe_ret|intros a _; by apply usafe_ret]. Qed.

Lemma usafe_uovl {A} may (f : vstate W → A) (Q : A → Prop) : (∀ o, uppers_ok o → Q (f o)) → usafe may (uovl f) Q.
Proof. intros HQ. apply usafe_get. intros s Hs. apply HQ, Hs. Qed.

Ltac usafe_step :=
  cbv beta zeta;
  lazymatch goal with
  | |- usafe _ ?m ?Q =>
    first
      [ solve [eauto 4 with spare]
      | solve [eapply usafe_any; eauto 4 with spare]
      | tryif is_evar Q then (lazymatch type of Q with ?A → Prop => unify Q (fun _ : A => True) end) else idtac;
        lazymatch m with
        | ubind _ _ => eapply usafe_bind; [|let H := fresh in intros ? H; cbv beta in H]
        | utry _ _ _ => eapply usafe_try; [|intros ?|let H := fresh in intros ? H; cbv beta in H]
        | ucheck _ _ _ => eapply usafe_check; [eapply usafe_any| |]; [|intros ?|]
        | uret _ => apply usafe_ret; by eauto 2 with spare
        | ufail _ => apply usafe_fail
        | uget _ => apply usafe_get; done
        | uread _ => apply usafe_get; done
        | uovl _ => apply usafe_get; done
        | udentry _ => apply usafe_get; done
        | ulift _ => apply usafe_lift; eauto with spare
        | uint _ => apply usafe_uint; eauto with spare
        | ucall _ => eapply usafe_any, usafe_lift, vsafe_any, vsafe_vcall; intros; by eauto with spare
        | if ?b then _ else _ => destruct b
        | match ?x with _ => _ end => destruct x
        | λ s, (@?f s, s) => apply usafe_look; done
        end ]
  end.
Ltac usafe_auto := repeat usafe_step.

(** The upper files that the objects name. *)
Lemma usafe_upper may d : usafe may (uovl (ovl_dentry_upper d)) (λ u, Up (default 0 u)).
Proof.
  apply usafe_uovl. intros o [Hi _]. unfold ovl_dentry_upper, d_inode.
  destruct (od_inode _) as [i|]; cbn; [|apply up_null]. destruct (oi_upperdentry _) eqn:E; [by eapply Hi|apply up_null].
Qed.
Lemma usafe_workdir may : usafe may (@ovl_workdir W) (λ d, Up (default 0 d)).
Proof. apply usafe_get. by intros s []. Qed.
Lemma usafe_indexdir may : usafe may (ulift ovl_indexdir) (λ d, Up (default 0 d)).
Proof. apply usafe_lift, vsafe_indexdir. Qed.
Lemma usafe_get_whiteout may : usafe may (uget ws_whiteout) (λ d, Up (default 0 d)).
Proof. apply usafe_get. by intros s []. Qed.
Lemma usafe_lookup n b : Up b → usafe true (ulookup n b) Up.
Proof. intros Hb. apply usafe_look. intros s d _ H. by eapply up_lookup. Qed.
Lemma usafe_udentry may d : Up d → usafe may (udentry d) (λ i, Up (de_parent i)).
Proof. intros Hd. apply usafe_get. intros s _. by apply up_parent. Qed.
Lemma usafe_uwrite may c : Forall Up (targets c) → usafe may (uwrite c) any.
Proof. intros Hc. apply usafe_lift, vsafe_vcall. intros w. by apply up_write. Qed.
Lemma usafe_lift_any {A} may (m : V W A) Q : vsafe may m Q → usafe may (ulift m) any.
Proof. intros H. by eapply usafe_lift, vsafe_any. Qed.
Lemma usafe_uwarn may b : usafe may (uwarn b) (@any bool).
Proof. apply usafe_lift, vsafe_warn. Qed.
Lemma usafe_ukmalloc may : usafe may (@ukmalloc W K) any.
Proof.
  apply usafe_lift. intros o Ho. pose proof (up_kmalloc (UpperLaws := UL) (vs_world o)) as H.
  destruct (kmalloc (vs_world o)) as [b w]; (split; [by apply vstep_world|done]).
Qed.
#[local] Hint Resolve usafe_fail usafe_upper usafe_workdir usafe_indexdir usafe_get_whiteout usafe_lookup usafe_udentry
  usafe_uwrite usafe_uwarn usafe_ukmalloc : spare.
#[local] Hint Extern 1 (Up (if ?b then _ else _)) => destruct b : spare.
#[local] Hint Extern 1 (Up _) => first [apply up_null | assumption] : spare.
#[local] Hint Resolve usafe_lift_any : spare.
#[local] Hint Extern 1 (Forall Up _) => (repeat constructor; eauto with spare) : spare.

Lemma usafe_do_setxattr may d n v f : Up d → usafe may (ovl_do_setxattr d n v f) any.
Proof. intros Hd. unfold ovl_do_setxattr. usafe_auto. Qed.
Lemma usafe_do_removexattr may d n : Up d → usafe may (ovl_do_removexattr d n) any.
Proof. intros Hd. unfold ovl_do_removexattr. usafe_auto. Qed.
Lemma usafe_do_tmpfile d m : Up d → usafe true (ovl_do_tmpfile d m) Up.
Proof.
  intros Hd s Hs. unfold ovl_do_tmpfile.
  pose proof (up_tmpfile (UpperLaws := UL) (ws_world s) d m Hd) as H.
  pose proof (λ x, up_tmpfile_new (UpperLaws := UL) (ws_world s) d m x Hd) as Hn.
  destruct (vfs_tmpfile _ _ _) as [r w]; cbn [fst snd] in *.
  split; [apply ustep_ovl, vstep_world; [done|apply Hs|done]|]. destruct r; [done|by apply Hn].
Qed.
#[local] Hint Resolve usafe_do_setxattr usafe_do_removexattr usafe_do_tmpfile : spare.

(** ** Temporary files *)

Lemma usafe_cleanup may d x : Up d → Up x → usafe may (ovl_cleanup d x) any.
Proof. intros Hd Hx. unfold ovl_cleanup, ovl_do_rmdir, ovl_do_unlink. usafe_auto. Qed.
Lemma usafe_set_temp_id may id : usafe may (uupdate (set_ws_temp_id (W := W) id)) any.
Proof. apply usafe_update; [|done]. by intros s []; split. Qed.
#[local] Hint Resolve usafe_cleanup usafe_set_temp_id : spare.
Lemma usafe_lookup_temp d : Up d → usafe true (ovl_lookup_temp d) Up.
Proof. intros Hd. unfold ovl_lookup_temp. usafe_auto. Qed.
Lemma usafe_set_whiteout may d : Up (default 0 d) → usafe may (uupdate (set_ws_whiteout (W := W) d)) any.
Proof. intros Hd. apply usafe_update; [|done]. by intros s []; split. Qed.
Lemma usafe_set_share may b : usafe may (uupdate (set_ws_share_whiteout (W := W) b)) any.
Proof. apply usafe_update; [|done]. by intros s []; split. Qed.
#[local] Hint Resolve usafe_lookup_temp usafe_set_whiteout usafe_set_share : spare.
Lemma usafe_whiteout : usafe true ovl_whiteout Up.
Proof.
  unfold ovl_whiteout, ovl_do_whiteout, ovl_do_link. usafe_auto.
Qed.
#[local] Hint Resolve usafe_whiteout : spare.
Lemma usafe_cleanup_and_whiteout may d x : Up d → Up x → usafe may (ovl_cleanup_and_whiteout d x) any.
Proof. intros Hd Hx. unfold ovl_cleanup_and_whiteout, ovl_do_rename. usafe_auto. Qed.
Lemma usafe_mkdir_real may d x m : Up d → Up x → usafe may (ovl_mkdir_real d x m) (λ p, Up (snd p)).
Proof.
  intros Hd Hx. unfold ovl_mkdir_real, ovl_do_mkdir. usafe_auto.
Qed.
#[local] Hint Resolve usafe_cleanup_and_whiteout usafe_mkdir_real : spare.
Definition up_attr (a : ovl_cattr) : Prop := Up (default 0 (c_hardlink a)).
Lemma usafe_create_real d r a :
  Up d → (∀ x, r = inr x → Up x) → up_attr a → usafe true (ovl_create_real d r a) Up.
Proof.
  intros Hd Hr Ha. unfold ovl_create_real, up_attr in *. destruct r as [e|x]; [apply usafe_fail|].
  specialize (Hr x eq_refl). usafe_step; [usafe_auto|]. destruct (de_inode a0); [apply usafe_fail|].
  apply usafe_bind with (Q := λ p, Up (snd p)).
  - destruct (c_hardlink a) as [h|]; cbn in Ha.
    + unfold ovl_do_link. usafe_auto.
    + unfold ovl_do_create, ovl_do_mknod, ovl_do_symlink.
      destruct (m_fmt _) as [[]|]; usafe_auto.
  - intros [err y] Hy. cbn in Hy. usafe_auto.
Qed.
Lemma usafe_create_temp d a : Up d → up_attr a → usafe true (ovl_create_temp d a) Up.
Proof.
  intros Hd Ha. unfold ovl_create_temp.
  apply usafe_bind with (Q := λ r, ∀ x, r = inr x → Up x); [|intros r Hr; by apply usafe_create_real].
  eapply usafe_try; [by apply usafe_lookup_temp|intros e; by apply usafe_ret|]. intros x Hx. apply usafe_ret. by intros ? [= <-].
Qed.
Lemma up_attr_plain m : up_attr (OVL_CATTR m).
Proof. apply up_null. Qed.
Lemma usafe_set_opaque_xerr may d u e : Up u → usafe may (ovl_set_opaque_xerr d u e) any.
Proof. intros Hu. unfold ovl_set_opaque_xerr, ovl_dentry_set_opaque. usafe_auto. Qed.
#[local] Hint Resolve usafe_create_temp up_attr_plain usafe_set_opaque_xerr : spare.

(** ** Inodes *)

Lemma usafe_update_winode may i f : usafe may (update_winode (W := W) i f) any.
Proof. apply usafe_update; [|done]. by intros s []; split. Qed.
#[local] Hint Resolve usafe_update_winode : spare.
Lemma usafe_copyattr may i : usafe may (ovl_copyattr i) any.
Proof. unfold ovl_copyattr. usafe_auto. Qed.
#[local] Hint Resolve usafe_copyattr : spare.
Lemma usafe_dir_modified may d b : usafe may (ovl_dir_modified d b) any.
Proof. unfold ovl_dir_modified, uinode. usafe_auto. Qed.
Lemma usafe_d_drop may d : usafe may (d_drop (W := W) d) any.
Proof. apply usafe_update; [|done]. by intros s []; split. Qed.
#[local] Hint Resolve usafe_dir_modified usafe_d_drop : spare.
Lemma vsafe_set_inode may i (f : vstate W → ovl_inode) :
  (∀ o u, uppers_ok o → oi_upperdentry (f o) = Some u → Up u) →
  (∀ o, G o (set_vs_inodes (<[i := f o]> (vs_inodes o)) o)) →
  vsafe may (vupdate (λ o, set_vs_inodes (<[i := f o]> (vs_inodes o)) o)) any.
Proof.
  intros Hf Hg o Ho. split; [|done]. apply vstep_set_inode; [done| |done]. intros u. by apply Hf.
Qed.
Lemma usafe_inode_update may i u : Up u → usafe may (ovl_inode_update i u) any.
Proof.
  intros Hu. unfold ovl_inode_update. usafe_auto.
  - apply (vsafe_set_inode _ _ (λ o, set_oi_upperdentry (Some u) (oinode_at i o))); [by intros ? ? _ [= <-]|].
    intros o. by apply HG, grows_inode.
  - apply usafe_update; [|done]. by intros s []; split.
Qed.
#[local] Hint Resolve usafe_inode_update : spare.
Lemma usafe_check_protattr may i u : usafe may (ovl_check_protattr i u) any.
Proof. unfold ovl_check_protattr. usafe_auto. Qed.
Lemma usafe_set_protattr may i u fa : Up u → usafe may (ovl_set_protattr i u fa) any.
Proof. intros Hu. unfold ovl_set_protattr. usafe_auto. Qed.
#[local] Hint Resolve usafe_check_protattr usafe_set_protattr : spare.

(** ** Copying up *)

Lemma usafe_uinode may d : usafe may (uinode (W := W) d) any.
Proof. by apply usafe_get. Qed.
Lemma usafe_od_name may d : usafe may (uovl (od_name_of (W := W) d)) any.
Proof. by apply usafe_get. Qed.
Lemma usafe_do_getxattr may d n : usafe may (ovl_do_getxattr d n) any.
Proof. by apply usafe_get. Qed.
Lemma usafe_path_open may d b : usafe may (ovl_path_open d b) any.
Proof. unfold ovl_path_open. usafe_auto. Qed.
Lemma usafe_copy_up_start may d f : usafe may (ovl_copy_up_start d f) any.
Proof. unfold ovl_copy_up_start. usafe_auto. Qed.
#[local] Hint Resolve usafe_uinode usafe_od_name usafe_do_getxattr usafe_path_open usafe_copy_up_start : spare.
Lemma usafe_copy_one_xattr may old new n sz : Up new → usafe may (copy_one_xattr old new n sz) any.
Proof. intros Hn. unfold copy_one_xattr. usafe_auto. Qed.
#[local] Hint Resolve usafe_copy_one_xattr : spare.
Lemma usafe_copy_xattrs may fuel old new l sz : Up new → usafe may (copy_xattrs fuel old new l sz) any.
Proof.
  intros Hn. revert l sz. induction fuel as [|fuel IH]; intros l sz; cbn [copy_xattrs]; usafe_auto.
Qed.
#[local] Hint Resolve usafe_copy_xattrs : spare.
Lemma usafe_copy_xattr may old new : Up new → usafe may (ovl_copy_xattr old new) any.
Proof. intros Hn. unfold ovl_copy_xattr. usafe_auto. Qed.
Lemma usafe_security_fileattr may d b : usafe may (ovl_security_fileattr d b) any.
Proof. unfold ovl_security_fileattr. usafe_auto. Qed.
#[local] Hint Resolve usafe_copy_xattr usafe_security_fileattr : spare.
Lemma usafe_real_fileattr_set may d fa : Up d → usafe may (ovl_real_fileattr_set d fa) any.
Proof. intros Hd. unfold ovl_real_fileattr_set. usafe_auto. Qed.
Lemma usafe_real_fileattr_get may d : usafe may (ovl_real_fileattr_get d) any.
Proof. unfold ovl_real_fileattr_get. usafe_auto. Qed.
#[local] Hint Resolve usafe_real_fileattr_set usafe_real_fileattr_get : spare.
Lemma usafe_copy_fileattr may i old new : Up new → usafe may (ovl_copy_fileattr i old new) any.
Proof. intros Hn. unfold ovl_copy_fileattr. usafe_auto. Qed.
Lemma vsafe_signal may : vsafe may (λ o : vstate W, let '(b, w) := signal_pending (vs_world o) in (inr b, set_vs_world w o)) any.
Proof.
  intros o Ho. pose proof (up_signal (UpperLaws := UL) (vs_world o)) as H.
  destruct (signal_pending (vs_world o)) as [b w]; (split; [by apply vstep_world|done]).
Qed.
#[local] Hint Resolve usafe_copy_fileattr vsafe_signal : spare.
Lemma usafe_copy_data may fuel old new pos len dpos b : Up new → usafe may (copy_data fuel old new pos len dpos b) any.
Proof.
  intros Hn. revert pos len dpos b. induction fuel as [|fuel IH]; intros pos len dpos b; cbn [copy_data]; usafe_auto.
Qed.
#[local] Hint Resolve usafe_copy_data : spare.
Lemma usafe_copy_up_data may old new len : Up new → usafe may (ovl_copy_up_data old new len) any.
Proof. intros Hn. unfold ovl_copy_up_data. usafe_auto. Qed.
Lemma usafe_set_timestamps may u st : Up u → usafe may (ovl_set_timestamps u st) any.
Proof. intros Hu. unfold ovl_set_timestamps, notify_change. usafe_auto. Qed.
#[local] Hint Resolve usafe_copy_up_data usafe_set_timestamps : spare.
Lemma usafe_set_attr may u st : Up u → usafe may (ovl_set_attr u st) any.
Proof. intros Hu. unfold ovl_set_attr, notify_change. usafe_auto. Qed.
Lemma usafe_set_size may u st : Up u → usafe may (ovl_set_size u st) any.
Proof. intros Hu. unfold ovl_set_size, notify_change. usafe_auto. Qed.
Lemma usafe_set_upper_fh may u i : Up i → usafe may (ovl_set_upper_fh u i) any.
Proof. intros Hi. unfold ovl_set_upper_fh. usafe_auto. Qed.
#[local] Hint Resolve usafe_set_attr usafe_set_size usafe_set_upper_fh : spare.
Lemma usafe_create_index may d l u : usafe may (ovl_create_index d l u) any.
Proof. unfold ovl_create_index, ovl_do_rename. usafe_auto. Qed.
Lemma usafe_set_nlink may d c r : usafe may (ovl_set_nlink d c r) any.
Proof. unfold ovl_set_nlink. usafe_auto. Qed.
#[local] Hint Resolve usafe_create_index usafe_set_nlink : spare.
Lemma usafe_set_nlink_upper may d : usafe may (ovl_set_nlink_upper d) any.
Proof. apply usafe_set_nlink. Qed.
Lemma usafe_set_nlink_lower may d : usafe may (ovl_set_nlink_lower d) any.
Proof. apply usafe_set_nlink. Qed.
#[local] Hint Resolve usafe_set_nlink_upper usafe_set_nlink_lower : spare.
Lemma usafe_link_up may c : usafe may (ovl_link_up c) any.
Proof. unfold ovl_link_up, ovl_do_link, ovl_dentry_set_upper_alias. usafe_auto. Qed.
Lemma usafe_copy_up_inode may c u : Up u → usafe may (ovl_copy_up_inode c u) any.
Proof. intros Hu. unfold ovl_copy_up_inode. usafe_auto. Qed.
Lemma usafe_prep_creds may d : usafe may (ovl_prep_cu_creds d) any.
Proof. unfold ovl_prep_cu_creds. usafe_auto. Qed.
Lemma usafe_installed may c u : Up u → usafe may (installed c u) any.
Proof. intros Hu. unfold installed, ovl_set_upperdata. usafe_auto. Qed.
#[local] Hint Resolve usafe_link_up usafe_copy_up_inode usafe_prep_creds usafe_installed : spare.
Lemma usafe_copy_up_workdir may c : Up (cu_destdir c) → Up (cu_workdir c) → usafe may (ovl_copy_up_workdir c) any.
Proof.
  intros Hd Hw. unfold ovl_copy_up_workdir, ovl_do_rename.
  assert (Ha : ∀ r m l, up_attr (OvlCattr r m l None)) by (intros; apply up_null). usafe_auto.
Qed.
Lemma usafe_copy_up_tmpfile may c : Up (cu_destdir c) → Up (cu_workdir c) → usafe may (ovl_copy_up_tmpfile c) any.
Proof. intros Hd Hw. unfold ovl_copy_up_tmpfile, ovl_do_link. usafe_auto. Qed.
Lemma usafe_do_copy_up may c : Up (cu_destdir c) → Up (cu_workdir c) → usafe may (ovl_do_copy_up c) any.
Proof.
  intros Hd Hw. unfold ovl_do_copy_up, ovl_dentry_set_upper_alias.
  assert (HW : ∀ a b n x i, Up a → Up b → usafe may (ovl_copy_up_workdir (cu_decide a n b x i c)) any)
    by (intros; by apply usafe_copy_up_workdir).
  assert (HT : ∀ a b n x i, Up a → Up b → usafe may (ovl_copy_up_tmpfile (cu_decide a n b x i c)) any)
    by (intros; by apply usafe_copy_up_tmpfile).
  usafe_auto.
Qed.
#[local] Hint Resolve usafe_do_copy_up : spare.
Lemma usafe_meta_inode_data may c : usafe may (ovl_copy_up_meta_inode_data c) any.
Proof. unfold ovl_copy_up_meta_inode_data, ovl_getxattr_value, ovl_set_upperdata. usafe_auto. Qed.
#[local] Hint Resolve usafe_meta_inode_data : spare.
Lemma usafe_copy_up_one may p d f : usafe may (ovl_copy_up_one p d f) any.
Proof.
  unfold ovl_copy_up_one.
  assert (Hp : usafe may (match p with Some p => uovl (ovl_dentry_upper p) | None => uret None end) (λ u, Up (default 0 u)))
    by (destruct p; [apply usafe_upper|apply usafe_ret, up_null]).
  usafe_auto.
Qed.
#[local] Hint Resolve usafe_copy_up_one : spare.
Lemma usafe_copy_up_loop may fuel d f b : usafe may (copy_up_loop fuel d f b) any.
Proof. induction fuel as [|fuel IH]; cbn [copy_up_loop]; usafe_auto. Qed.
#[local] Hint Resolve usafe_copy_up_loop : spare.
Lemma usafe_copy_up_flags may d f : usafe may (ovl_copy_up_flags d f) any.
Proof. unfold ovl_copy_up_flags. usafe_auto. Qed.
Lemma usafe_copy_up may d : usafe may (ovl_copy_up d) any.
Proof. apply usafe_copy_up_flags. Qed.
Lemma usafe_copy_up_with_data may d : usafe may (ovl_copy_up_with_data d) any.
Proof. apply usafe_copy_up_flags. Qed.
#[local] Hint Resolve usafe_copy_up_flags usafe_copy_up usafe_copy_up_with_data : spare.
Lemma usafe_maybe_copy_up may d f : usafe may (ovl_maybe_copy_up d f) any.
Proof. unfold ovl_maybe_copy_up, ovl_open_need_copy_up. usafe_auto. Qed.

(** A copy up that succeeds leaves the file copied up, so it has an upper file. *)
Lemma copy_up_loop_already fuel d f b s s' :
  copy_up_loop fuel d f b s = (inr (Some 0), s') → ovl_already_copied_up d f (ws_ovl s') = true.
Proof.
  revert s. induction fuel as [|fuel IH]; intros s; cbn [copy_up_loop]; [done|].
  intros (a & s1 & [= <- <-] & H)%ubind_inr. destruct (ovl_already_copied_up d f (ws_ovl s)) eqn:E.
  { by injection H as <-. }
  apply ubind_inr in H as ([[p next]|] & s1 & _ & H); [|done].
  apply ubind_inr in H as (err & s2 & _ & H). destruct (Z.eqb_spec err 0); cbn [negb] in H; [by eapply IH|].
  by injection H as ->.
Qed.
Lemma copy_up_flags_already d f s s' :
  ovl_copy_up_flags d f s = (inr 0, s') → ovl_already_copied_up d f (ws_ovl s') = true.
Proof.
  intros (od & s1 & _ & H)%ubind_inr. apply ubind_inr in H as (bad & s2 & _ & H). destruct bad; [done|].
  apply ubind_inr in H as (n & s3 & _ & H). apply ubind_inr in H as (r & s4 & H & Hr).
  injection Hr as Hr <-. destruct r as [z|]; cbn in Hr; [|done]. subst z. by eapply copy_up_loop_already.
Qed.
Lemma copy_up_flags_upper d f s s' :
  ovl_copy_up_flags d f s = (inr 0, s') → ovl_dentry_upper d (ws_ovl s') ≠ None.
Proof.
  intros H%copy_up_flags_already. unfold ovl_already_copied_up in H. by destruct (ovl_dentry_upper d (ws_ovl s')).
Qed.

(** ** Making inodes *)

(** From here on nothing is said of the objects. *)
Context (HTi : ∀ m o, G o (set_vs_inodes m o)) (HTd : ∀ m o, G o (set_vs_dentries m o)).

Lemma usafe_update_oinode may i f :
  (∀ x, oi_upperdentry (f x) = oi_upperdentry x) → usafe may (update_oinode (W := W) i f) any.
Proof. intros Hf. apply usafe_lift, vsafe_set_inode; [|intros; apply HTi]. intros o u [Hi _]. rewrite Hf. apply Hi. Qed.
#[local] Hint Extern 1 (usafe _ (update_oinode _ _) _) => (apply usafe_update_oinode; done) : spare.
Lemma vsafe_set_dentry may f d : vsafe may (update_dentry f d) any.
Proof. intros o [Hi Hx]. split; [|done]. split; [by split|reflexivity|apply HTd]. Qed.
#[local] Hint Resolve vsafe_set_dentry : spare.
Lemma usafe_new_inode may : usafe may (@new_inode W K) any.
Proof.
  unfold new_inode. usafe_auto. intros s Hs. split; [|done].
  assert (Hstep : vstep (ws_ovl s) (set_vs_inodes (<[ws_next_inode s := null_inode]> (vs_inodes (ws_ovl s))) (ws_ovl s)))
    by (apply vstep_set_inode; [apply Hs|done|apply HTi]).
  destruct Hstep, Hs. split; [by split|done..].
Qed.
#[local] Hint Resolve usafe_new_inode : spare.
Lemma usafe_fill_inode may i m r : usafe may (ovl_fill_inode (W := W) i m r) any.
Proof. unfold ovl_fill_inode. usafe_auto. Qed.
#[local] Hint Resolve usafe_fill_inode : spare.
Lemma usafe_ovl_new_inode may m r : usafe may (ovl_new_inode m r) any.
Proof. unfold ovl_new_inode. usafe_auto. Qed.
Definition up_oip (p : ovl_inode_params) : Prop := ∀ u, oip_upperdentry p = Some u → Up u.
Lemma usafe_inode_init may i p ino fsid : up_oip p → usafe may (ovl_inode_init i p ino fsid) any.
Proof.
  intros Hp. unfold ovl_inode_init. apply usafe_bind with (Q := any).
  - apply usafe_lift, vsafe_set_inode; [|intros; apply HTi]. intros o u [Hi _]. destruct (oip_upperdentry p) eqn:E; cbn.
    + intros [= <-]. by apply Hp.
    + apply Hi.
  - intros _ _. usafe_auto. apply usafe_update; [|done]. by intros s []; split.
Qed.
#[local] Hint Resolve usafe_ovl_new_inode usafe_inode_init : spare.
Lemma usafe_init_inode may i p b d r m ino fsid : up_oip p → usafe may (init_inode i p b d r m ino fsid) any.
Proof. intros Hp. unfold init_inode. usafe_auto. Qed.
Lemma usafe_iget5 may n k : usafe may (ovl_iget5 n k) any.
Proof. unfold ovl_iget5. usafe_auto. apply usafe_update; [|done]. by intros s []; split. Qed.
#[local] Hint Resolve usafe_init_inode usafe_iget5 : spare.
Lemma usafe_get_inode p : up_oip p → usafe true (ovl_get_inode p) any.
Proof. intros Hp. unfold ovl_get_inode. usafe_auto. Qed.
#[local] Hint Resolve usafe_get_inode : spare.

(** ** Creating *)

Lemma usafe_parent_of may d : usafe may (parent_of (W := W) d) any.
Proof. by apply usafe_get. Qed.
Lemma usafe_set_nlink_n may i n : usafe may (set_nlink (W := W) i n) any.
Proof. unfold set_nlink. usafe_auto. Qed.
#[local] Hint Resolve usafe_parent_of usafe_set_nlink_n usafe_maybe_copy_up : spare.
Lemma usafe_cleanup_index may d : usafe may (ovl_cleanup_index d) any.
Proof. unfold ovl_cleanup_index, cleanup_index_entry. usafe_auto. Qed.
#[local] Hint Resolve usafe_cleanup_index : spare.
Lemma usafe_nlink_start may d : usafe may (ovl_nlink_start d) any.
Proof. unfold ovl_nlink_start. usafe_auto. Qed.
Lemma usafe_nlink_end may d : usafe may (ovl_nlink_end d) any.
Proof. unfold ovl_nlink_end. usafe_auto. Qed.
Lemma usafe_check_identity may : usafe may ovl_check_override_create_identity any.
Proof. unfold ovl_check_override_create_identity. usafe_auto. Qed.
#[local] Hint Resolve usafe_nlink_start usafe_nlink_end usafe_check_identity : spare.
Lemma usafe_instantiate may d i n h : Up n → usafe may (ovl_instantiate d i n h) any.
Proof.
  intros Hn. unfold ovl_instantiate, d_instantiate, ovl_dentry_set_upper_alias.
  assert (Hp : ∀ a b c x y, up_oip (Oip a (Some n) b c x y None)) by (by intros ? ? ? ? ? ? [= <-]).
  usafe_auto.
Qed.
#[local] Hint Resolve usafe_instantiate : spare.
Lemma usafe_set_upper_acl may u n a : Up u → usafe may (ovl_set_upper_acl u n a) any.
Proof. intros Hu. unfold ovl_set_upper_acl. usafe_auto. Qed.
Lemma usafe_set_opaque may d u : Up u → usafe may (ovl_set_opaque d u) any.
Proof. apply usafe_set_opaque_xerr. Qed.
#[local] Hint Resolve usafe_set_upper_acl usafe_set_opaque : spare.
Lemma usafe_create_upper may d i a : up_attr a → usafe may (ovl_create_upper d i a) any.
Proof.
  intros Ha. unfold ovl_create_upper.
  assert (Hl : ∀ n b, Up b → usafe may (utry (ulookup n b) (λ e, uret (inl e)) (λ d, uret (inr d))) (λ r, ∀ x, r = inr x → Up x)).
  { intros n b Hb. eapply usafe_try; [by apply usafe_lookup|intros e; by apply usafe_ret|].
    intros x Hx. apply usafe_ret. by intros ? [= <-]. }
  assert (Hc : ∀ b r m (c : bool), Up b → (∀ x, r = inr x → Up x) → usafe true (ovl_create_real b r (if c then set_c_mode m a else a)) Up)
    by (intros; apply usafe_create_real; [done..|by destruct c]).
  usafe_auto.
Qed.
Lemma usafe_create_over_whiteout may d i a : up_attr a → usafe may (ovl_create_over_whiteout d i a) any.
Proof.
  intros Ha. unfold ovl_create_over_whiteout, ovl_lock_rename_workdir, notify_change, ovl_do_rename.
  assert (Ht : ∀ w m, Up w → usafe true (ovl_create_temp w (set_c_mode m a)) Up) by (intros; by apply usafe_create_temp).
  usafe_auto.
Qed.
#[local] Hint Resolve usafe_create_upper usafe_create_over_whiteout : spare.
Lemma usafe_create_or_link may d i a b : up_attr a → usafe may (ovl_create_or_link d i a b) any.
Proof. intros Ha. unfold ovl_create_or_link. usafe_auto. Qed.
#[local] Hint Resolve usafe_create_or_link : spare.
Lemma usafe_create_object may d m r l : usafe may (ovl_create_object d m r l) any.
Proof.
  unfold ovl_create_object. assert (Ha : ∀ m, up_attr (OvlCattr r m l None)) by (intros; apply up_null). usafe_auto.
Qed.
Lemma usafe_set_redirect may d b : usafe may (ovl_set_redirect d b) any.
Proof.
  unfold ovl_set_redirect, ovl_need_absolute_redirect, ovl_get_redirect, ovl_dentry_set_redirect. usafe_auto.
Qed.
#[local] Hint Resolve usafe_create_object usafe_set_redirect : spare.
Lemma usafe_link may a b : usafe may (ovl_link a b) any.
Proof.
  unfold ovl_link, ovl_set_link_redirect.
  assert (Ha : ∀ u : option Z, Up (default 0 u) → up_attr (OvlCattr 0 no_mode [] (Some (default 0 u)))) by done. usafe_auto.
Qed.

(** ** Removing and moving *)

Lemma usafe_cleanup_whiteouts may u l : Up u → usafe may (ovl_cleanup_whiteouts u l) any.
Proof. intros Hu. induction l as [|p l IH]; cbn [ovl_cleanup_whiteouts]; usafe_auto. Qed.
#[local] Hint Resolve usafe_cleanup_whiteouts usafe_link : spare.
Lemma usafe_clear_empty d l : usafe true (ovl_clear_empty d l) Up.
Proof.
  unfold ovl_clear_empty, ovl_lock_rename_workdir, ovl_do_rename. usafe_auto.
Qed.
#[local] Hint Resolve usafe_clear_empty : spare.
Lemma usafe_clear_empty_if d l : usafe true (clear_empty_if d l) any.
Proof. unfold clear_empty_if. usafe_auto. Qed.
#[local] Hint Resolve usafe_clear_empty_if : spare.
Lemma usafe_remove_and_whiteout may d l : usafe may (ovl_remove_and_whiteout d l) any.
Proof. unfold ovl_remove_and_whiteout, ovl_lock_rename_workdir. usafe_auto. Qed.
Lemma usafe_remove_upper may d b l : usafe may (ovl_remove_upper d b l) any.
Proof. unfold ovl_remove_upper, ovl_do_rmdir, ovl_do_unlink. usafe_auto. Qed.
Lemma usafe_clear_or_drop may d b : usafe may (clear_or_drop_nlink (W := W) d b) any.
Proof. unfold clear_or_drop_nlink, ovl_drop_nlink. usafe_auto. Qed.
Lemma usafe_check_empty d b : usafe true (check_empty d b) any.
Proof. unfold check_empty. usafe_auto. Qed.
#[local] Hint Resolve usafe_remove_and_whiteout usafe_remove_upper usafe_clear_or_drop usafe_check_empty : spare.
Lemma usafe_do_remove may d b : usafe may (ovl_do_remove d b) any.
Proof. unfold ovl_do_remove. usafe_auto. Qed.
Lemma usafe_rename_impure may a b x y u v : Up u → Up v → usafe may (rename_impure a b x y u v) any.
Proof. intros Hu Hv. unfold rename_impure. usafe_auto. Qed.
Lemma usafe_rename_marks may d u x y z i : Up u → usafe may (rename_marks d u x y z i) any.
Proof. intros Hu. unfold rename_marks. usafe_auto. Qed.
#[local] Hint Resolve usafe_do_remove usafe_rename_impure usafe_rename_marks : spare.
Lemma usafe_rename_locked may a b f x y z q u v : Up u → Up v → usafe may (rename_locked a b f x y z q u v) any.
Proof. intros Hu Hv. unfold rename_locked, ovl_do_rename. usafe_auto. Qed.
#[local] Hint Resolve usafe_rename_locked : spare.
Lemma usafe_rename_reverting may a b f x y z l : usafe may (rename_reverting a b f x y z l) any.
Proof. unfold rename_reverting. usafe_auto. Qed.
#[local] Hint Resolve usafe_rename_reverting : spare.
Lemma usafe_rename may a b c d f : usafe may (ovl_rename a b c d f) any.
Proof. unfold ovl_rename. usafe_auto. Qed.

(** ** Attributes *)

Lemma usafe_setattr may d a : usafe may (ovl_setattr d a) any.
Proof. unfold ovl_setattr, notify_change. usafe_auto. Qed.
Lemma usafe_inode_upper may i : usafe may (uovl (λ o : vstate W, oi_upperdentry (oinode_at i o))) (λ u, ∀ x, u = Some x → Up x).
Proof. apply usafe_uovl. intros o [Hi _] x. apply Hi. Qed.
#[local] Hint Resolve usafe_inode_upper : spare.
Lemma usafe_xattr_set may d i n v f : usafe may (ovl_xattr_set d i n v f) any.
Proof.
  unfold ovl_xattr_set. eapply usafe_bind; [apply usafe_inode_upper|]. intros a H.
  assert (Ha : ∀ y, Up (default 0 y) → Up match a with Some u => u | None => default 0 y end)
    by (intros y Hy; destruct a; [by apply H|done]).
  usafe_auto.
Qed.
(** The path of the real file is the upper one after a copy up. *)
Lemma usafe_after_copy_up {A} d may (k : U W A) Q :
  (∀ s, upper_state s → ovl_dentry_upper d (ws_ovl s) ≠ None →
     ustep s (snd (k s)) ∧ match fst (k s) with inl _ => may = true | inr a => Q a end) →
  ∀ bad, (∀ e, usafe may (bad e) Q) → usafe may (ucheck (ovl_copy_up d) bad k) Q.
Proof.
  intros Hk bad Hbad s Hs. unfold ucheck, ubind. pose proof (usafe_copy_up may d s Hs) as [H1 H2].
  destruct (ovl_copy_up d s) as [[e|err] s1] eqn:E; cbn [fst snd] in *; [done|].
  destruct (Z.eqb_spec err 0) as [->|].
  - destruct (Hk s1 (up_ok _ _ H1)) as [? ?]; [by eapply copy_up_flags_upper|]. split; [by eapply ustep_trans|done].
  - destruct (Hbad err s1 (up_ok _ _ H1)) as [? ?]. split; [by eapply ustep_trans|done].
Qed.
Lemma usafe_get_at {A B} may (f : vstate W → A) (k : A → U W B) Q s :
  upper_state s → usafe may (k (f (ws_ovl s))) Q →
  let m := ubind (uovl f) k in
  ustep s (snd (m s)) ∧ match fst (m s) with inl _ => may = true | inr a => Q a end.
Proof. intros Hs H. exact (H s Hs). Qed.
Lemma path_real_upper d o u : ovl_dentry_upper d o = Some u → snd (ovl_path_real d o) = Some u.
Proof. intros H. unfold ovl_path_real, ovl_path_type. rewrite H. by destruct (0 <? _). Qed.
Lemma usafe_fileattr_set may d fa : usafe may (ovl_fileattr_set d fa) any.
Proof.
  unfold ovl_fileattr_set. usafe_step; [usafe_auto|]. usafe_step; [usafe_auto..|].
  apply usafe_after_copy_up; [|intros e; usafe_auto]. intros s Hs Hu.
  destruct (ovl_dentry_upper d (ws_ovl s)) as [u|] eqn:E; [|done].
  assert (HU : Up u). { destruct (usafe_upper true d s Hs) as [_ HQ]. cbn in HQ. by rewrite E in HQ. }
  apply usafe_get_at; [done|]. rewrite (path_real_upper _ _ _ E). cbn [default]. usafe_auto.
Qed.
#[local] Hint Resolve usafe_rename usafe_setattr usafe_xattr_set usafe_fileattr_set : spare.

Lemma usafe_serve may r : usafe may (serve r) any.
Proof.
  destruct r; cbn [serve]; unfold ovl_create, ovl_mkdir, ovl_mknod, ovl_symlink, ovl_unlink, ovl_rmdir; usafe_auto.
Qed.

(** ** Work directories *)

Lemma usafe_read_entries may d : usafe may (read_entries d) any.
Proof. unfold read_entries. usafe_auto. Qed.
#[local] Hint Resolve usafe_read_entries : spare.
Lemma usafe_clean_entries may clean dir inc list :
  Up dir → (∀ d, Up d → usafe may (clean d) any) → usafe may (clean_entries clean dir inc list) any.
Proof.
  intros Hd Hc. induction list as [|p list IH]; cbn [clean_entries]; [by apply usafe_ret|]. cbv zeta.
  destruct (_ || _); [done|]. destruct (_ && _); [by apply usafe_ret|].
  eapply usafe_try; [by apply usafe_lookup|done|]. intros d Hup. usafe_step; [usafe_auto|]. usafe_step; [|usafe_auto|done].
  destruct (de_inode _); [by apply Hc|by apply usafe_ret].
Qed.
Lemma usafe_workdir_cleanup may dir d level : Up dir → Up d → usafe may (ovl_workdir_cleanup dir d level) any.
Proof.
  unfold ovl_workdir_cleanup. generalize 2%nat. intros n. revert dir d level.
  induction n as [|n IH]; intros dir d level Hdir Hd; cbn [workdir_cleanup]; usafe_auto.
  unfold ovl_workdir_cleanup_recurse. usafe_auto. apply usafe_clean_entries; [done|]. intros e He. by apply IH.
Qed.
#[local] Hint Resolve usafe_workdir_cleanup : spare.
Lemma vsafe_get_fh d ox : vsafe true (ovl_get_fh d ox) any.
Proof. unfold ovl_get_fh. vsafe_auto. Qed.
Lemma vsafe_decode_real_fh fb m c : vsafe true (ovl_decode_real_fh fb m c) any.
Proof. unfold ovl_decode_real_fh. vsafe_auto. Qed.
#[local] Hint Resolve vsafe_get_fh vsafe_decode_real_fh : spare.
Lemma vsafe_decode_in_layers fb c l : vsafe true (decode_in_layers fb c l) any.
Proof. induction l; cbn [decode_in_layers]; vsafe_auto. Qed.
#[local] Hint Resolve vsafe_decode_in_layers : spare.
Lemma vsafe_check_origin_fh fb c u a : vsafe true (ovl_check_origin_fh fb c u a) any.
Proof. unfold ovl_check_origin_fh. vsafe_auto. Qed.
Lemma vsafe_verify_fh d ox fb : vsafe true (ovl_verify_fh d ox fb) any.
Proof. unfold ovl_verify_fh. vsafe_auto. Qed.
Lemma vsafe_index_upper i : vsafe true (ovl_index_upper i) any.
Proof. unfold ovl_index_upper, ovl_upper_mnt. vsafe_auto. Qed.
#[local] Hint Resolve vsafe_check_origin_fh vsafe_verify_fh vsafe_index_upper : spare.
Lemma vsafe_verify_index may i : vsafe may (ovl_verify_index i) any.
Proof. unfold ovl_verify_index. vsafe_auto. Qed.
Lemma vsafe_verify_set_fh may d ox real b set : Up d → vsafe may (ovl_verify_set_fh d ox real b set) any.
Proof. intros Hd. unfold ovl_verify_set_fh. vsafe_auto. Qed.
#[local] Hint Resolve vsafe_verify_index vsafe_verify_set_fh : spare.
Lemma usafe_clean_indices may d b list : Up d → usafe may (clean_indices d b list) any.
Proof. intros Hd. induction list as [|p list IH]; cbn [clean_indices]; usafe_auto. Qed.
#[local] Hint Resolve usafe_clean_indices : spare.
Lemma usafe_indexdir_cleanup may : usafe may ovl_indexdir_cleanup any.
Proof. unfold ovl_indexdir_cleanup. usafe_auto. Qed.

Definition up_maybe (d : option Z) : Prop := Up (default 0 d).
Lemma up_none : up_maybe None.
Proof. apply up_null. Qed.
Lemma up_some d : Up d → up_maybe (Some d).
Proof. done. Qed.
#[local] Hint Resolve up_none up_some : spare.
Lemma usafe_workdir_make may dir work : Up dir → Up work → usafe may (workdir_make dir work) up_maybe.
Proof.
  intros Hd Hw. unfold workdir_make, notify_change. usafe_auto. destruct (_ =? _); usafe_auto.
Qed.
#[local] Hint Resolve usafe_workdir_make : spare.
Lemma usafe_workdir_turn base name k : Up base → (∀ d, Up d → usafe true (k d) up_maybe) → usafe true (workdir_turn base name k) up_maybe.
Proof.
  intros Hb Hk. unfold workdir_turn. eapply usafe_try; [by apply usafe_lookup|intros e; usafe_auto|]. intros d Hd.
  usafe_step; [usafe_auto|]. destruct (de_inode _); [by apply Hk|usafe_auto].
Qed.
Lemma usafe_workdir_create base name p : Up base → usafe true (ovl_workdir_create base name p) up_maybe.
Proof.
  intros Hb. apply usafe_workdir_turn; [done|]. intros d Hd. destruct p; [by apply usafe_ret|].
  usafe_step; [usafe_auto|]. destruct (_ =? _); [apply usafe_fail|]. apply usafe_workdir_turn; [done|]. intros e He. usafe_auto.
Qed.
Lemma usafe_check_rename_whiteout may : usafe may ovl_check_rename_whiteout any.
Proof. unfold ovl_check_rename_whiteout. usafe_auto. Qed.
Lemma usafe_lookup_or_create p n m : Up p → usafe true (ovl_lookup_or_create p n m) Up.
Proof.
  intros Hp. unfold ovl_lookup_or_create. eapply usafe_bind; [by apply usafe_lookup|]. intros d Hd. cbv beta in Hd.
  usafe_step; [usafe_auto|]. destruct (de_inode _); [by apply usafe_ret|].
  apply usafe_create_real; [done|by intros x [= <-]|by apply up_attr_plain].
Qed.
Lemma usafe_create_path d names : Up d → usafe true (create_path d names) Up.
Proof.
  revert d. induction names as [|n names IH]; intros d Hd; cbn [create_path]; [by apply usafe_ret|].
  eapply usafe_bind; [by apply usafe_lookup_or_create|]. intros e He. by apply IH.
Qed.
Lemma usafe_volatile_dirty may d : Up d → usafe may (ovl_create_volatile_dirty d) any.
Proof.
  intros Hd. unfold ovl_create_volatile_dirty. eapply usafe_try; [by apply usafe_create_path|intros e; usafe_auto|intros x _; usafe_auto].
Qed.
End spare.

(** ** What the other files use *)

Section uses.
Context {W : Type} {K : Vfs W} {VS : VfsStat W} {VW : VfsWrite W} {R : RbLib} (Up : Z → Prop) {UL : UpperLaws K VS VW Up (lower_same Up)}.
Definition nothing (o o' : vstate W) : Prop := True.
#[local] Instance nothing_preorder : PreOrder nothing.
Proof. by split. Qed.
Lemma serve_step r (s : wstate W) :
  upper_state Up s → upper_state Up (snd (serve r s)) ∧ lower_same Up (ws_world s) (ws_world (snd (serve r s))).
Proof.
  intros Hs. by destruct (usafe_serve Up (lower_same Up) nothing (λ _ _ _, I) (λ _ _, I) (λ _ _, I) false r s Hs) as [[] _].
Qed.
End uses.

(** Any kernel will do where only the objects matter. *)
Section anykernel.
Context {W : Type} {K : Vfs W} {VS : VfsStat W} {VW : VfsWrite W} {R : RbLib}.
Definition anywhere (d : Z) : Prop := True.
Definition always (w w' : W) : Prop := True.
#[local] Instance always_preorder : PreOrder always.
Proof. by split. Qed.
#[local] Instance anywhere_laws : UpperLaws K VS VW anywhere always.
Proof. by split. Qed.
Lemma anywhere_state (s : wstate W) : upper_state anywhere s.
Proof. by split. Qed.
(** Every request is answered: no error pointer gets lost. *)
Lemma serve_answers r (s : wstate W) : ∃ err, fst (serve r s) = inr err.
Proof.
  destruct (usafe_serve anywhere always nothing (GP := nothing_preorder) (λ _ _ _, I) (λ _ _, I) (λ _ _, I) false r s (anywhere_state s)) as [_ H].
  destruct (fst _); [done|eauto].
Qed.
(** One copy up: the answer, and the objects. *)
Lemma copy_up_one_grows p d f (s : wstate W) :
  grows (ws_ovl s) (ws_ovl (snd (ovl_copy_up_one p d f s))) ∧ ∃ err, fst (ovl_copy_up_one p d f s) = inr err.
Proof.
  destruct (usafe_copy_up_one anywhere always grows (λ _ _ H, H) false p d f s (anywhere_state s)) as [[] H].
  split; [done|]. destruct (fst _); [done|eauto].
Qed.
End anykernel.
