(* ===== verification/OvlFileSafe.v ===== *)
(** * Writing through open files

    A file that is open for writing has been copied up, data included, and it
    stays so.  Its operations therefore write to the upper file system only,
    however often and in whatever order they are called, and even if other
    files are copied up or changed in between. *)
From S2P Require Import Prelude CString OS OvlOptions OvlVfs OvlHandle OvlLookup OvlLayers OvlIno OvlReaddir OvlDirFile OvlWrite OvlTemp OvlInode OvlCopyUp OvlCreate OvlRemove OvlAttr OvlWorkdir OvlSuper OvlFile OvlSpare.
Open Scope Z_scope.

Create HintDb fine.

Definition FMODE_WRITE_of (flags : Z) : bool := has_flag (flags + 1) FMODE_WRITE.

(** The calls on real files that change nothing. *)
Definition only_reads (c : file_call) : bool :=
  match c with FSeek _ _ | FRead _ _ _ | FAdvise _ _ _ | FFlush _ | FMap _ => true | _ => false end.

(** [UpI]: the inodes of the upper layer's file system; no inode of another
    file system has the address 0. *)
Class FileLaws {W} {K : Vfs W} {VW : VfsWrite W} (VF : VfsFile W) (Up UpI : Z → Prop) (Same : relation W) : Prop := {
  fl_null : UpI 0;
  fl_inode w u a : Up u → real_inode w (Some u) = Some a → UpI a;
  fl_open w d flags i : Same w (snd (open_with_fake_path w d flags i));
  fl_reads w f c : only_reads c = true → Same w (snd (call_file w f c));
  fl_writes w f c : UpI (rf_inode f) → Same w (snd (call_file w f c));
  fl_copy w op r_in pos_in r_out pos_out len flags :
    UpI (rf_inode r_out) → Same w (snd (call_copy w op r_in pos_in r_out pos_out len flags));
  fl_submit w write f pos count flags : (write = true → UpI (rf_inode f)) → Same w (snd (submit_iocb w write f pos count flags));
  fl_touch w u : Up u → Same w (touch_atime w u);
  (** changing attributes leaves a dentry its inode *)
  fl_want_write w m d : real_inode (snd (mnt_want_write w m)) d = real_inode w d;
  fl_notify w u a d : real_inode (snd (vfs_write w (CNotify u a))) d = real_inode w d;
  fl_write_access w u d : real_inode (snd (get_write_access w u)) d = real_inode w d
}.

(** What a mounted overlay does besides: copying up and changing attributes. *)
Inductive attr_request :=
  | ASetattr (dentry : Z) (attr : iattr)
  | AXattr (dentry inode : Z) (name : cstr) (value : option (list ascii)) (flags : Z)
  | AFileattr (dentry : Z) (fa : fileattr)
  | ACopyUp (dentry flags : Z).

Section safe.
Context {W : Type} {K : Vfs W} {VS : VfsStat W} {VW : VfsWrite W} {R : RbLib} {L : MountLib W} {SL : SuperLib W} {VF : VfsFile W}.
Context (Up UpI : Z → Prop) (Same : relation W) {SP : PreOrder Same} {UL : UpperLaws K VS VW Up Same} {FL : FileLaws VF Up UpI Same}.
Implicit Types s : fstate W.
Implicit Types o : vstate W.

Definition serve_attr (r : attr_request) : U W Z :=
  match r with
  | ASetattr dentry attr => ovl_setattr dentry attr
  | AXattr dentry inode name value flags => ovl_xattr_set dentry inode name value flags
  | AFileattr dentry fa => ovl_fileattr_set dentry fa
  | ACopyUp dentry flags => ovl_maybe_copy_up dentry flags
  end.

Abbreviation safe := (usafe Up Same grows false).
Lemma safe_serve_attr r : safe (serve_attr r) any.
Proof.
  destruct r; [apply usafe_setattr|apply usafe_xattr_set|apply usafe_fileattr_set|apply usafe_maybe_copy_up]; first [done|tc_solve].
Qed.

(** ** Files stay copied up *)

Lemma upper_grows d o o' : grows o o' → ovl_dentry_upper d o ≠ None → ovl_dentry_upper d o' ≠ None.
Proof.
  intros Hg. unfold ovl_dentry_upper, d_inode. rewrite (gr_inode _ _ Hg). destruct (od_inode _) as [i|]; [|done]. apply (gr_upper _ _ Hg).
Qed.
Lemma has_upperdata_grows i o o' : grows o o' → ovl_has_upperdata (oinode_at i o) = true → ovl_has_upperdata (oinode_at i o') = true.
Proof.
  intros Hg. unfold ovl_has_upperdata, ovl_should_check_upperdata. rewrite (gr_is_reg _ _ Hg), (gr_lower _ _ Hg).
  destruct (negb _); [done|]. apply (gr_data _ _ Hg).
Qed.
Lemma already_grows d f o o' : grows o o' → ovl_already_copied_up d f o = true → ovl_already_copied_up d f o' = true.
Proof.
  intros Hg. unfold ovl_already_copied_up, ovl_dentry_has_upper_alias, ovl_dentry_needs_data_copy_up. rewrite !andb_true_iff, (gr_disconnected _ _ Hg).
  intros [[Hu Ha] Hd]. split_and!.
  - destruct (ovl_dentry_upper d o) eqn:E; [|done].
    pose proof (upper_grows d o o' Hg) as H. rewrite E in H. destruct (ovl_dentry_upper d o'); [done|by destruct H].
  - apply orb_true_iff in Ha as [Ha|Ha]; [by rewrite (gr_alias _ _ Hg _ Ha)|by rewrite Ha, orb_true_r].
  - destruct (negb (ovl_open_flags_need_copy_up f)); [done|]. unfold test_inode, d_inode in *. rewrite (gr_inode _ _ Hg).
    destruct (od_inode _) as [i|]; cbn in *; [|done]. rewrite negb_involutive in *. by eapply has_upperdata_grows.
Qed.

(** ** The invariant *)

Record file_ok (next : nat) o (f : open_file) : Prop := FileOk {
  fo_inode : od_inode (odentry_at (of_dentry f) o) = Some (of_inode f);
  fo_plain : od_is_dir (odentry_at (of_dentry f) o) = false;
  fo_upper : FMODE_WRITE_of (of_flags f) = true → ovl_already_copied_up (of_dentry f) O_WRONLY o = true;
  fo_real r : of_private f = PFile r → (r < next)%nat
}.
Record files_ok s : Prop := FilesOk {
  fk_upper : upper_state Up (fs_ws s);
  fk_next : (0 < fs_next s)%nat;                          (** NULL is 0 *)
  fk_files f x : fs_files s !! f = Some x → file_ok (fs_next s) (fs_ovl s) x
}.

(** [fsafe P m Q]: from a good state that satisfies [P] the function comes to a
    good one, the files outside of [Up] are as before, and a result that is no
    error pointer satisfies [Q] there. *)
Definition fsafe {A} (P : fstate W → Prop) (m : F W A) (Q : A → fstate W → Prop) : Prop := ∀ s, files_ok s → P s →
  files_ok (snd (m s)) ∧ Same (fs_world s) (fs_world (snd (m s))) ∧ match fst (m s) with inr a => Q a (snd (m s)) | inl _ => True end.

Section rules.
Context {A B : Type}.
Implicit Types P : fstate W → Prop.
Lemma fsafe_mono P P' (m : F W A) (Q Q' : A → fstate W → Prop) :
  fsafe P m Q → (∀ s, P' s → P s) → (∀ a s, Q a s → Q' a s) → fsafe P' m Q'.
Proof. intros H HP HQ s Hs H'. destruct (H s Hs (HP _ H')) as (? & ? & Hr). split_and!; [done..|]. destruct (fst _); auto. Qed.
Lemma fsafe_ret P (a : A) (Q : A → fstate W → Prop) : (∀ s, P s → Q a s) → fsafe P (fret a) Q.
Proof. intros HQ s Hs HP. split_and!; [done..|by apply HQ]. Qed.
Lemma fsafe_fail P e (Q : A → fstate W → Prop) : fsafe P (ffail e) Q.
Proof. by intros s Hs HP. Qed.
Lemma fsafe_get P (f : fstate W → A) (Q : A → fstate W → Prop) : (∀ s, files_ok s → P s → Q (f s) s) → fsafe P (fget f) Q.
Proof. intros HQ s Hs HP. split_and!; [done..|by apply HQ]. Qed.
Lemma fsafe_bind P (m : F W A) (f : A → F W B) Q Q' : fsafe P m Q → (∀ a, fsafe (Q a) (f a) Q') → fsafe P (fbind m f) Q'.
Proof.
  intros H Hf s Hs HP. destruct (H s Hs HP) as (Hs1 & Hw & HQ). unfold fbind. destruct (m s) as [[e|a] s1]; cbn [fst snd] in *; [done|].
  destruct (Hf a s1 Hs1 HQ) as (? & ? & ?). split_and!; [done|by etransitivity|done].
Qed.
Lemma fsafe_try P (m : F W A) (bad : Z → F W B) (k : A → F W B) Q Q' :
  fsafe P m Q → (∀ e, fsafe (λ _, True) (bad e) Q') → (∀ a, fsafe (Q a) (k a) Q') → fsafe P (ftry m bad k) Q'.
Proof.
  intros H Hb Hk s Hs HP. destruct (H s Hs HP) as (Hs1 & Hw & HQ). unfold ftry.
  destruct (m s) as [[e|a] s1]; cbn [fst snd] in *.
  - destruct (Hb e s1 Hs1 I) as (? & ? & ?). split_and!; [done|by etransitivity|done].
  - destruct (Hk a s1 Hs1 HQ) as (? & ? & ?). split_and!; [done|by etransitivity|done].
Qed.
End rules.

(** Steps of the other components keep the tables. *)
Lemma synced_grows o s (ws : wstate W) : grows o (ws_ovl ws) → grows o (ws_ovl (synced (set_su_ws ws (fs_super s)))).
Proof. intros []. split; assumption. Qed.
Lemma synced_upper s (ws : wstate W) : upper_state Up ws → upper_state Up (synced (set_su_ws ws (fs_super s))).
Proof. intros [[Hi Hx] Hw Hh]. split; [split; [exact Hi|exact Hx]|exact Hw|exact Hh]. Qed.
Lemma file_ok_step next next' o o' f : (next <= next')%nat → grows o o' → file_ok next o f → file_ok next' o' f.
Proof.
  intros Hn Hg [Hi Hd Hu Hr]. split; [by rewrite (gr_inode _ _ Hg)|by rewrite (gr_is_dir _ _ Hg)|intros Hf; by eapply already_grows, Hu|].
  intros r Hp. specialize (Hr r Hp). lia.
Qed.
(** An update that keeps the dentry, inode and way of opening of a file. *)
Definition same_open (f g : open_file) : Prop :=
  of_dentry g = of_dentry f ∧ of_inode g = of_inode f ∧ FMODE_WRITE_of (of_flags g) = FMODE_WRITE_of (of_flags f) ∧
  (of_private g = of_private f ∨ ∀ r, of_private g ≠ PFile r).
Lemma same_open_refl f : same_open f f.
Proof. split_and!; auto. Qed.
Lemma file_ok_same next o f g : same_open f g → file_ok next o f → file_ok next o g.
Proof.
  intros (Hd & Hi & Hw & Hp) [? ? ? Hr]. split; rewrite ?Hd, ?Hi, ?Hw; [done..|]. intros r Er. destruct Hp as [Hp|Hp]; [|by destruct (Hp r)].
  apply Hr. by rewrite <- Hp.
Qed.
(** The files stay open, and no real file is given back. *)
Record evolves s s' : Prop := Evolves {
  ev_next : (fs_next s ≤ fs_next s')%nat;
  ev_reals r : (r < fs_next s)%nat → rf_inode (real_at r s') = rf_inode (real_at r s);
  ev_files f x : fs_files s !! f = Some x → ∃ y, fs_files s' !! f = Some y ∧ same_open x y
}.
Definition stable (P : fstate W → Prop) : Prop := ∀ s s', evolves s s' → P s → P s'.
Lemma stable_true : stable (λ _, True).
Proof. by intros ?. Qed.
Lemma stable_and P Q : stable P → stable Q → stable (λ s, P s ∧ Q s).
Proof. intros HP HQ s s' Hs []. split; [by apply (HP s)|by apply (HQ s)]. Qed.
Lemma evolves_same s s' : fs_next s' = fs_next s → fs_reals s' = fs_reals s → fs_files s' = fs_files s → evolves s s'.
Proof. intros En Er Ef. split; [lia|intros r _; unfold real_at; by rewrite Er|]. intros f x Hx. rewrite Ef. eauto using same_open_refl. Qed.
Definition fine {A} (m : F W A) : Prop := ∀ P, stable P → fsafe P m (λ _, P).

Lemma fsafe_flift {A} P (m : U W A) may Q : stable P → usafe Up Same grows may m Q → fsafe P (flift m) (λ a s, P s ∧ Q a).
Proof.
  intros HP H s Hs HPs. destruct (H (fs_ws s) (fk_upper _ Hs)) as [[H1 H2 H3 _] HQ].
  unfold flift, fsuper, slift. fold (fs_ws s). destruct (m (fs_ws s)) as [r ws]; cbn [fst snd] in *. split_and!.
  - split; [exact (synced_upper s ws H1)|apply Hs|]. cbn. intros f x Hx. eapply file_ok_step, (fk_files _ Hs); [cbn; lia|exact (synced_grows _ s ws H3)|done].
  - exact H2.
  - destruct r; [done|]. split; [|done]. apply (HP s); [|done]. by apply evolves_same.
Qed.
Lemma fine_flift {A} (m : U W A) may : usafe Up Same grows may m any → fine (flift m).
Proof. intros H P HP. eapply fsafe_mono; [by eapply fsafe_flift|done|by intros ? ? []]. Qed.
Lemma fine_fcall {A} (f : W → A * W) : (∀ w, Same w (snd (f w))) → fine (fcall f).
Proof.
  intros Hf. apply (fine_flift _ false). intros ws Hws. specialize (Hf (ws_world ws)).
  destruct (f (ws_world ws)) as [a w]. cbn in *. split; [|done]. apply ustep_ovl; [done|]. apply vstep_world; [done|apply Hws|done].
Qed.
Lemma fine_fget {A} (f : fstate W → A) : fine (fget f).
Proof. intros P HP. by apply fsafe_get. Qed.
Lemma fine_fret {A} (a : A) : fine (fret a).
Proof. intros P HP. by apply fsafe_ret. Qed.
Lemma fine_ffail {A} e : fine (ffail (A := A) e).
Proof. intros P HP. by apply fsafe_fail. Qed.
Lemma fine_bind {A B} (m : F W A) (f : A → F W B) : fine m → (∀ a, fine (f a)) → fine (fbind m f).
Proof. intros H Hf P HP. eapply fsafe_bind; [by apply H|]. intros a. by apply Hf. Qed.

(** ** The tables *)

Lemma files_ok_tables s s' :
  fs_super s' = fs_super s → (fs_next s ≤ fs_next s')%nat →
  (∀ f x, fs_files s' !! f = Some x → ∃ y, fs_files s !! f = Some y ∧ same_open y x) → files_ok s → files_ok s'.
Proof.
  intros E Hn Hf [Hu H0 Hok]. assert (Ew : fs_ws s' = fs_ws s) by (unfold fs_ws; by rewrite E).
  split; [by rewrite Ew|lia|]. intros f x Hx. destruct (Hf _ _ Hx) as (y & Hy & Hs). unfold fs_ovl. rewrite Ew.
  eapply file_ok_same; [exact Hs|]. eapply file_ok_step; [exact Hn| |exact (Hok _ _ Hy)]. reflexivity.
Qed.
(** Updates of the tables; [fs_files] is treated apart. *)
Lemma fsafe_update P (f : fstate W → fstate W) (Q : unit → fstate W → Prop) :
  (∀ s, fs_super (f s) = fs_super s ∧ fs_files (f s) = fs_files s ∧ (fs_next s ≤ fs_next (f s))%nat) → (∀ s, P s → Q tt (f s)) → fsafe P (fupdate f) Q.
Proof.
  intros Hf HQ s Hs HP. destruct (Hf s) as (E1 & E2 & E3). cbn. split_and!; [|unfold fs_world, fs_ws; by rewrite E1|by apply HQ].
  eapply files_ok_tables; [exact E1|exact E3| |exact Hs]. intros g x. rewrite E2. eauto using same_open_refl.
Qed.
Lemma fine_update (f : fstate W → fstate W) :
  (∀ s, (fs_super (f s), fs_files (f s), fs_reals (f s), fs_next (f s)) = (fs_super s, fs_files s, fs_reals s, fs_next s)) → fine (fupdate f).
Proof.
  intros Hf P HP. apply fsafe_update; [intros s; injection (Hf s) as -> -> _ ->; split_and!; done || lia|].
  intros s. injection (Hf s) as _ E1 E2 E3. apply HP. by apply evolves_same.
Qed.
Lemma real_at_alter f r r' s :
  real_at r' (set_fs_reals (alter f r (fs_reals s)) s) = if decide (r = r') then from_option f null_real (fs_reals s !! r) else real_at r' s.
Proof.
  unfold real_at. cbn. destruct (decide (r = r')) as [->|]; [rewrite lookup_alter_eq; by destruct (_ !! _)|by rewrite lookup_alter_ne].
Qed.
Lemma fine_update_real r f : (∀ x, rf_inode (f x) = rf_inode x) → fine (update_real r f).
Proof.
  intros Hf P HP. apply fsafe_update; [done|]. intros s. apply HP. split; [done| |eauto using same_open_refl].
  intros r' _. rewrite real_at_alter. destruct (decide _) as [->|]; [|done]. unfold real_at. destruct (_ !! _); cbn; [by rewrite Hf|done].
Qed.
Lemma fine_update_ofile file f : (∀ x, same_open x (f x)) → fine (update_ofile file f).
Proof.
  intros Hf P HP s Hs Hp. cbn. split_and!; [|done|].
  - eapply files_ok_tables; [..|exact Hs]; [done|cbn; lia|]. cbn. intros g x.
    destruct (decide (file = g)) as [->|]; [rewrite lookup_alter_eq|rewrite lookup_alter_ne by done; eauto using same_open_refl].
    destruct (_ !! g) as [y|]; [|done]. intros [= <-]. eauto.
  - apply (HP s); [|done]. split; [done..|]. cbn. intros g x Hx.
    destruct (decide (file = g)) as [->|]; [rewrite lookup_alter_eq, Hx; cbn; eauto|rewrite lookup_alter_ne by done; eauto using same_open_refl].
Qed.

Definition has_real (r : nat) (i : Z) s : Prop := (r < fs_next s)%nat ∧ rf_inode (real_at r s) = i.
Lemma stable_has_real r i : stable (has_real r i).
Proof. intros s s' [Hn Hr _] [? ?]. split; [lia|by rewrite Hr]. Qed.
Lemma fsafe_alloc P f : stable P → fsafe P (alloc_real f) (λ r s, P s ∧ has_real r (rf_inode f) s).
Proof.
  intros HP s Hs Hp. cbn. split_and!; [|done| |split; [cbn; lia|]].
  - eapply files_ok_tables; [..|exact Hs]; [done|cbn; lia|cbn; eauto using same_open_refl].
  - apply (HP s); [|done]. split; [cbn; lia| |cbn; eauto using same_open_refl].
    intros r Hr. unfold real_at. cbn. by rewrite lookup_insert_ne by lia.
  - unfold real_at. cbn. by rewrite lookup_insert_eq.
Qed.
Lemma fine_alloc f : fine (alloc_real f).
Proof. intros P HP. eapply fsafe_mono; [by apply fsafe_alloc|done|by intros ? ? []]. Qed.
Lemma fine_fread {A} (f : W → A) : fine (fread f).
Proof. apply fine_fget. Qed.
Lemma fine_fobjects {A} (f : vstate W → A) : fine (fobjects f).
Proof. apply fine_fget. Qed.
Lemma fine_update_iocb k f : fine (update_iocb k f).
Proof. by apply fine_update. Qed.
Lemma fine_update_aio k f : fine (update_aio k f).
Proof. by apply fine_update. Qed.
Lemma fine_update_vma k f : fine (update_vma k f).
Proof. by apply fine_update. Qed.
Lemma fine_start_write : fine file_start_write.
Proof. by apply fine_update. Qed.
Lemma fine_end_write : fine file_end_write.
Proof. by apply fine_update. Qed.
Lemma fine_get_file r : fine (get_file r).
Proof. by apply fine_update_real. Qed.
Lemma fine_get_ofile f : fine (get_ofile f).
Proof. apply fine_update_ofile. intros x. split_and!; auto. Qed.
Lemma fine_uwarn b : fine (flift (uwarn b)).
Proof. apply (fine_flift _ false), usafe_uwarn; done || tc_solve. Qed.
Lemma fine_copyattr i : fine (flift (ovl_copyattr i)).
Proof. apply (fine_flift _ false), usafe_copyattr; done || tc_solve. Qed.
Lemma fine_update_winode i f : fine (flift (update_winode i f)).
Proof. apply (fine_flift _ false), usafe_update_winode; done || tc_solve. Qed.
Lemma fine_kmalloc : fine (flift ukmalloc).
Proof. apply (fine_flift _ false), usafe_ukmalloc; done || tc_solve. Qed.
Lemma fine_path_open d b : fine (flift (ovl_path_open d b)).
Proof. apply (fine_flift _ false), usafe_path_open; done || tc_solve. Qed.
Lemma fine_setattr d a : fine (flift (ovl_setattr d a)).
Proof. apply (fine_flift _ false), usafe_setattr; done || tc_solve. Qed.
Lemma fine_maybe_copy_up d f : fine (flift (ovl_maybe_copy_up d f)).
Proof. apply (fine_flift _ false), usafe_maybe_copy_up; done || tc_solve. Qed.
Lemma fine_open_path d flags i : fine (fcall (λ w, open_with_fake_path w d flags i)).
Proof. apply fine_fcall. intros w. apply fl_open. Qed.
Lemma fine_if {A} (b : bool) (m m' : F W A) : fine m → fine m' → fine (if b then m else m').
Proof. by destruct b. Qed.
#[local] Hint Resolve fine_bind fine_fget fine_fret fine_ffail fine_alloc fine_fread fine_fobjects fine_update_iocb fine_update_aio fine_update_vma
  fine_start_write fine_end_write fine_get_file fine_get_ofile fine_uwarn fine_copyattr fine_update_winode fine_kmalloc fine_path_open
  fine_setattr fine_maybe_copy_up fine_open_path fine_if : fine.
#[local] Hint Extern 1 (∀ a, fine _) => intros ? : fine.

(** ** Real files *)

Lemma fine_lowerdata i : fine (ovl_inode_lowerdata i).
Proof. unfold ovl_inode_lowerdata. auto 10 with fine. Qed.
#[local] Hint Resolve fine_lowerdata : fine.
Lemma fine_realdata i : fine (ovl_inode_realdata i).
Proof. unfold ovl_inode_realdata. auto 10 with fine. Qed.
Lemma fine_change_flags r flags : fine (ovl_change_flags r flags).
Proof.
  unfold ovl_change_flags. cbv zeta. pose proof (λ f, fine_update_real r (set_rf_flags f) (λ _, eq_refl)).
  assert (∀ g : real_file → Z, fine (update_real r (λ f, set_rf_flags (g f) f))) by (intros; by apply fine_update_real). auto 12 with fine.
Qed.
#[local] Hint Resolve fine_realdata fine_change_flags : fine.
Lemma fsafe_open_realfile P file i : stable P → fsafe P (ovl_open_realfile file i) (λ r s, P s ∧ has_real r (default 0 i) s).
Proof.
  intros HP. unfold ovl_open_realfile. cbv zeta.
  eapply fsafe_bind; [by apply fine_fget|intros f]. eapply fsafe_bind; [by apply fine_fread|intros err]. destruct (negb _); [apply fsafe_fail|].
  eapply fsafe_bind; [by apply fine_fread|intros own]. eapply fsafe_bind; [by apply fine_fobjects|intros real].
  eapply fsafe_bind; [by apply fine_open_path|intros err']. destruct (negb _); [apply fsafe_fail|]. by apply fsafe_alloc.
Qed.

(** The file is open and not a directory. *)
Definition opened (file : nat) s : Prop := is_Some (fs_files s !! file).
Lemma stable_opened file : stable (opened file).
Proof. intros s s' [_ _ Hf] [x Hx]. destruct (Hf _ _ Hx) as (y & Hy & _). by exists y. Qed.
#[local] Hint Resolve stable_true stable_and stable_has_real stable_opened : fine.
(** The inode whose data the operations of a file use. *)
Definition good_real (T : Z → Prop) (real : fd) s : Prop := ∃ i, T i ∧ has_real (fd_file real) i s.
Lemma stable_good_real T real : stable (good_real T real).
Proof. intros s s' Hs (i & Hi & Hr). exists i. split; [done|by eapply stable_has_real]. Qed.
#[local] Hint Resolve stable_good_real : fine.

(** What [ovl_real_fdget_meta] gives is a real file with the inode that it
    computes; [T] says what is known of that. *)
Lemma fsafe_fdget_meta P N file meta (T : Z → Prop) :
  stable P →
  (∀ f, fsafe (λ s, P s ∧ N s ∧ fs_files s !! file = Some f)
     (if meta : bool then fget (λ s, ovl_inode_real (oinode_of (of_inode f) s) (fs_world s)) else ovl_inode_realdata (of_inode f))
     (λ i _, T (default 0 i))) →
  fsafe (λ s, P s ∧ N s ∧ opened file s) (ovl_real_fdget_meta file meta) (λ real s, P s ∧ good_real T real s).
Proof.
  intros HP HT. unfold ovl_real_fdget_meta.
  pose (real_of f := match of_private f with PFile real => real | _ => 0%nat end).
  eapply fsafe_bind with (Q := λ f s, P s ∧ N s ∧ fs_files s !! file = Some f ∧ (real_of f < fs_next s)%nat).
  { apply fsafe_get. intros s Hs (Hp & HN & f & Hf). unfold ofile_at. rewrite Hf. cbn. split_and!; [done..|]. unfold real_of.
    destruct (of_private f) eqn:E; [apply Hs| |apply Hs]. by eapply (fo_real _ _ _ (fk_files _ Hs _ _ Hf)). }
  intros f. cbv zeta. fold (real_of f).
  eapply fsafe_bind with (Q := λ i s, (P s ∧ (real_of f < fs_next s)%nat) ∧ T (default 0 i)).
  { intros s Hs (Hp & HN & Hf & Hr). destruct (HT f s Hs (conj Hp (conj HN Hf))) as (H1 & H2 & H3).
    assert (Hst : stable (λ s, P s ∧ (real_of f < fs_next s)%nat)).
    { apply stable_and; [done|]. intros s1 s2 [Hn _ _] H. lia. }
    assert (Hfine : fine (if meta : bool then fget (λ s, ovl_inode_real (oinode_of (of_inode f) s) (fs_world s)) else ovl_inode_realdata (of_inode f))) by (destruct meta; auto with fine).
    destruct (Hfine _ Hst s Hs (conj Hp Hr)) as (_ & _ & H4). split_and!; [done..|]. destruct (fst _); [done|]. by split. }
  intros i. eapply fsafe_bind with (Q := λ x s, P s ∧ T (default 0 i) ∧ (Some (rf_inode x) = i → good_real T (Fd (real_of f) false) s)).
  { apply fsafe_get. intros s Hs ((Hp & Hr) & Ht). split_and!; [done..|]. intros E. subst i. by exists (rf_inode (real_at (real_of f) s)). }
  intros x. case_bool_decide as E; cbn [negb].
  - eapply fsafe_mono with (P := λ s, P s ∧ good_real T (Fd (real_of f) false) s) (Q := λ real s, P s ∧ good_real T real s);
      [|intros s (? & ? & H); split; [done|by apply H]|done].
    destruct (has_flag _ _); [|by apply fsafe_ret].
    eapply fsafe_bind; [apply fine_change_flags; auto with fine|]. intros err. cbv beta. destruct (negb _); [apply fsafe_fail|by apply fsafe_ret].
  - apply fsafe_mono with (P := λ s, P s ∧ T (default 0 i)) (Q := λ real s, P s ∧ good_real T real s); [|by intros s (? & ? & _)|done].
    intros s Hs (Hp & Ht). revert s Hs Hp.
    change (fsafe P (let& real := ovl_open_realfile file i in fret (Fd real true)) (λ real s, P s ∧ good_real T real s)).
    eapply fsafe_bind; [by apply fsafe_open_realfile|]. intros r. apply fsafe_ret. intros s [? ?]. split; [done|]. by exists (default 0 i).
Qed.

Lemma fsafe_fdget P N file (T : Z → Prop) :
  stable P →
  (∀ f, fsafe (λ s, P s ∧ N s ∧ fs_files s !! file = Some f) (ovl_inode_realdata (of_inode f)) (λ i _, T (default 0 i))) →
  fsafe (λ s, P s ∧ N s ∧ opened file s) (ovl_real_fdget file) (λ real s, P s ∧ good_real T real s).
Proof.
  intros HP HT. unfold ovl_real_fdget.
  eapply fsafe_bind with (Q := λ f s, P s ∧ N s ∧ opened file s ∧ od_is_dir (odentry_at (of_dentry f) (fs_ovl s)) = false).
  { apply fsafe_get. intros s Hs (Hp & HN & f & Hf). unfold ofile_at. rewrite Hf. split_and!; [done|done|by exists f|]. apply (fo_plain _ _ _ (fk_files _ Hs _ _ Hf)). }
  intros f. eapply fsafe_bind with (Q := λ d s, (P s ∧ N s ∧ opened file s) ∧ d = false); [apply fsafe_get; by intros s _ (? & ? & ? & ?)|].
  intros d. intros s Hs [Hp ->]. by apply (fsafe_fdget_meta P N file false T HP HT).
Qed.
Lemma fsafe_fdget_any P file : stable P → fsafe (λ s, P s ∧ opened file s) (ovl_real_fdget file) (λ _, P).
Proof.
  intros HP. eapply fsafe_mono; [apply (fsafe_fdget P (λ _, True) file (λ _, True) HP)|by intros ? []|by intros ? ? []].
  intros f. eapply fsafe_mono; [by apply (fine_realdata _ _ stable_true)|done|done].
Qed.

(** ** Files that are open for writing *)

Lemma already_meta d o : ovl_already_copied_up d O_WRONLY o = true → ovl_already_copied_up d 0 o = true.
Proof. unfold ovl_already_copied_up. rewrite !andb_true_iff. by intros [[-> ->] _]. Qed.
Lemma already_data d i o :
  ovl_already_copied_up d O_WRONLY o = true → od_inode (odentry_at d o) = Some i → ovl_has_upperdata (oinode_at i o) = true.
Proof.
  unfold ovl_already_copied_up. rewrite andb_true_iff. intros [_ H] Hi. unfold ovl_dentry_needs_data_copy_up, test_inode, d_inode in H.
  rewrite Hi in H. cbn in H. by destruct (ovl_has_upperdata _).
Qed.

(** Changing the attributes of what is copied up: no inode is exchanged. *)
Definition still (d : Z) {A} (m : U W A) : Prop := ∀ ws, ovl_already_copied_up d O_WRONLY (ws_ovl ws) = true →
  vs_inodes (ws_ovl (snd (m ws))) = vs_inodes (ws_ovl ws) ∧ vs_dentries (ws_ovl (snd (m ws))) = vs_dentries (ws_ovl ws) ∧
  ∀ x, real_inode (ws_world (snd (m ws))) x = real_inode (ws_world ws) x.
Lemma still_same d {A} (m : U W A) : (∀ ws, ws_ovl (snd (m ws)) = ws_ovl ws) → still d m.
Proof. intros H ws _. unfold ws_world. by rewrite !H. Qed.
Lemma still_bind d {A B} (m : U W A) (f : A → U W B) : still d m → (∀ a, still d (f a)) → still d (ubind m f).
Proof.
  intros H Hf ws Hd. destruct (H ws Hd) as (Hi & He & Hr). unfold ubind. destruct (m ws) as [[e|a] ws1]; cbn [fst snd] in *; [done|].
  destruct (Hf a ws1) as (Hi' & He' & Hr').
  { revert Hd. unfold ovl_already_copied_up, ovl_dentry_has_upper_alias, ovl_dentry_needs_data_copy_up, test_inode, ovl_dentry_upper, d_inode, odentry_at, oinode_at.
    by rewrite Hi, He. }
  split_and!; [congruence..|]. intros x. by rewrite Hr'.
Qed.
Lemma still_check d (m : U W Z) bad (k : U W Z) : still d m → (∀ e, still d (bad e)) → still d k → still d (ucheck m bad k).
Proof. intros Hm Hb Hk. apply still_bind; [done|]. intros e. by destruct (e =? 0). Qed.
Lemma still_call d (f : W → Z * W) : (∀ w x, real_inode (snd (f w)) x = real_inode w x) → still d (ucall f).
Proof.
  intros Hf ws _. unfold ucall, ulift, vcall. specialize (Hf (vs_world (ws_ovl ws))). unfold ws_world.
  by destruct (f (vs_world (ws_ovl ws))) as [e w].
Qed.
Lemma still_want_write d : still d (ulift ovl_want_write).
Proof.
  intros ws Hd. apply (still_call d (λ w, mnt_want_write w (default 0 (ofs_upper_mnt (vs_fs (ws_ovl ws)))))); [|done]. intros. apply fl_want_write.
Qed.
Lemma still_copied d flags : ovl_open_flags_need_copy_up flags = false ∨ flags = O_WRONLY → still d (ovl_copy_up_flags d flags).
Proof.
  intros Hfl ws Hd. assert (Ha : ovl_already_copied_up d flags (ws_ovl ws) = true).
  { destruct Hfl as [Hfl| ->]; [|done]. revert Hd. unfold ovl_already_copied_up, ovl_dentry_needs_data_copy_up. rewrite Hfl, !andb_true_iff. by intros [[-> ->] _]. }
  unfold ovl_copy_up_flags, uwarn, ulift, warn_on, ubind, uovl, uget. cbv beta iota zeta.
  destruct (od_disconnected _ && _); [by split_and!|]. cbn [copy_up_loop]. unfold ubind, uovl, uget. cbv beta iota zeta.
  assert (E : set_ws_ovl (ws_ovl ws) ws = ws) by by destruct ws. rewrite E, Ha. by split_and!.
Qed.
Lemma still_setattr d attr : still d (ovl_setattr d attr).
Proof.
  unfold ovl_setattr. apply still_bind; [by apply still_same|intros c]. apply still_bind; [by apply still_same|intros i].
  apply still_check; [destruct (negb _); by apply still_same|intros e; by apply still_same|].
  apply still_check; [apply still_want_write|intros e; by apply still_same|].
  cbv zeta. apply still_check; [|intros e; by apply still_same|].
  { destruct (negb (negb _)); apply still_copied; [by left|by right]. }
  apply still_bind; [by apply still_same|intros upper]. apply still_check; [|intros e; by apply still_same|].
  { destruct (negb _); [apply still_call; intros; apply fl_write_access|by apply still_same]. }
  apply still_bind; [apply still_call; intros; apply fl_notify|intros err]. apply still_bind; [|intros []; by apply still_same].
  destruct (_ =? 0); by apply still_same.
Qed.

(** An open file: its dentry, inode and flags; the inode of its upper file is
    still there, because the overlay's inode holds the dentry. *)
Record writing (file : nat) (f : open_file) s : Prop := Writing {
  wr_open : fs_files s !! file = Some f;
  wr_write : FMODE_WRITE_of (of_flags f) = true;
  wr_pinned : upper_inode (of_inode f) s ≠ None
}.
Lemma fsafe_still {A} P file f (m : U W A) : stable P → fine (flift m) → still (of_dentry f) m →
  fsafe (λ s, P s ∧ writing file f s) (flift m) (λ _ s, P s ∧ writing file f s).
Proof.
  intros HP Hm Hst s Hs (Hp & [Hf Hw Hpin]). destruct (Hm P HP s Hs Hp) as (H1 & H2 & H3). split_and!; [done..|].
  pose proof (fo_upper _ _ _ (fk_files _ Hs _ _ Hf) Hw) as Ha. destruct (Hst (fs_ws s) Ha) as (Hi & _ & Hr).
  revert H3 Hi Hr. unfold flift, fsuper, slift. fold (fs_ws s). destruct (m (fs_ws s)) as [r ws]. cbn [fst snd]. intros H3 Hi Hr.
  destruct r as [e|a]; [done|]. split; [done|]. split; [done..|]. unfold upper_inode, oinode_of, ovl_inode_upper, oinode_at, fs_ovl, fs_world, fs_ws in *.
  cbn in *. rewrite Hi, Hr. exact Hpin.
Qed.
Lemma fsafe_get_writing {A} P file f (k : open_file → F W A) Q :
  fsafe (λ s, P s ∧ writing file f s) (k f) Q → fsafe (λ s, P s ∧ writing file f s) (fbind (fget (ofile_at file)) k) Q.
Proof.
  intros H s Hs [Hp Hw]. unfold fbind, fget. cbv beta iota. unfold ofile_at. rewrite (wr_open _ _ _ Hw). by apply H.
Qed.
Lemma fsafe_prepare P file f : stable P → fsafe (λ s, P s ∧ writing file f s) (prepare_write file) (λ _ s, P s ∧ writing file f s).
Proof.
  intros HP. unfold prepare_write, file_remove_privs. apply fsafe_get_writing. eapply fsafe_bind.
  { apply fsafe_still; [done|apply fine_copyattr|]. by apply still_same. }
  intros ?. cbv beta. apply fsafe_get_writing. eapply fsafe_bind with (Q := λ _ s, P s ∧ writing file f s); [by apply fsafe_get|].
  intros [e|[attr|]]; [by apply fsafe_ret| |by apply fsafe_ret].
  apply fsafe_still; [done|apply fine_setattr|apply still_setattr].
Qed.
Lemma fsafe_realdata_upper P file f :
  fsafe (λ s, P s ∧ writing file f s) (ovl_inode_realdata (of_inode f)) (λ i _, UpI (default 0 i)).
Proof.
  intros s Hs (_ & [Hf Hw Hpin]). pose proof (fk_files _ Hs _ _ Hf) as Hok.
  unfold ovl_inode_realdata, fbind, fget. cbv beta iota.
  assert (E : ovl_has_upperdata (oinode_of (of_inode f) s) = true) by (eapply already_data; [by apply Hok|by apply Hok]).
  rewrite E. destruct (upper_inode (of_inode f) s) as [a|] eqn:Eu; [|by destruct Hpin]. cbn. split_and!; [done..|].
  unfold upper_inode, ovl_inode_upper, real_inode in Eu. destruct (oi_upperdentry _) as [u|] eqn:Ed; [|done].
  eapply fl_inode; [|exact Eu]. apply (uo_inode _ _ (us_ovl _ _ (fk_upper _ Hs)) _ _ Ed).
Qed.
(** The real file that is written to is one of the upper layer. *)
Lemma fsafe_fdget_write P file f : stable P → fsafe (λ s, P s ∧ writing file f s) (ovl_real_fdget file) (λ real s, P s ∧ good_real UpI real s).
Proof.
  intros HP. eapply fsafe_mono; [apply (fsafe_fdget P (writing file f) file UpI HP)| |done].
  - intros g s Hs (Hp & Hw & Hg). pose proof (wr_open _ _ _ Hw) as Hf. rewrite Hg in Hf. injection Hf as ->.
    by apply (fsafe_realdata_upper P file f).
  - intros s (Hp & Hw). split_and!; [done..|]. exists f. apply Hw.
Qed.

(** ** The operations *)

(** What asks nothing and promises nothing. *)
Definition mild {A} (m : F W A) : Prop := fsafe (λ _, True) m (λ _ _, True).
Lemma mild_fine {A} (m : F W A) : fine m → mild m.
Proof. intros H. exact (H _ stable_true). Qed.
Lemma mild_mono {A} P (m : F W A) : mild m → fsafe P m (λ _ _, True).
Proof. intros H. by eapply fsafe_mono. Qed.
Lemma mild_bind {A B} (m : F W A) (f : A → F W B) : mild m → (∀ a, mild (f a)) → mild (fbind m f).
Proof. apply fsafe_bind. Qed.
Lemma mild_after {A B} P (m : F W A) (f : A → F W B) Q : fsafe P m Q → (∀ a, mild (f a)) → fsafe P (fbind m f) (λ _ _, True).
Proof. intros H Hf. eapply fsafe_bind; [exact H|]. intros a. apply mild_mono, Hf. Qed.
Lemma mild_if {A} (b : bool) (m m' : F W A) : mild m → mild m' → mild (if b then m else m').
Proof. by destruct b. Qed.
Lemma mild_fput r : mild (fput r).
Proof. apply fsafe_update; [|done]. intros s. by destruct (_ =? _). Qed.
#[local] Hint Resolve mild_fine mild_bind mild_if mild_fput : fine.
#[local] Hint Extern 1 (∀ a, mild _) => intros ? : fine.
Lemma mild_fdput real : mild (fdput real).
Proof. unfold fdput. auto with fine. Qed.
#[local] Hint Resolve mild_fdput : fine.
Lemma fsafe_get_eq {A B} P (g : fstate W → A) a (k : A → F W B) Q :
  (∀ s, P s → g s = a) → fsafe P (k a) Q → fsafe P (fbind (fget g) k) Q.
Proof. intros Hg H s Hs Hp. unfold fbind, fget. cbv beta iota. rewrite (Hg s Hp). by apply H. Qed.

Lemma fine_on_real r c : only_reads c = true → fine (on_real r c).
Proof. intros Hc. apply fine_bind; [apply fine_fget|]. intros f. apply fine_fcall. intros w. by apply fl_reads. Qed.
Lemma fsafe_on_real P real c : stable P → fsafe (λ s, P s ∧ good_real UpI real s) (on_real (fd_file real) c) (λ _, P).
Proof.
  intros HP. unfold on_real. eapply fsafe_bind with (Q := λ f s, P s ∧ UpI (rf_inode f)).
  { apply fsafe_get. by intros s _ (? & i & Hi & _ & <-). }
  intros f s Hs [Hp Hf]. by apply (fine_fcall (λ w, call_file w f c) (λ w, fl_writes w f c Hf) P HP).
Qed.
Lemma upper_inode_up inode a s : files_ok s → upper_inode inode s = Some a → UpI a.
Proof.
  intros Hs. unfold upper_inode, ovl_inode_upper, real_inode. destruct (oi_upperdentry _) as [u|] eqn:Ed; [|done].
  intros H. eapply fl_inode; [|exact H]. apply (uo_inode _ _ (us_ovl _ _ (fk_upper _ Hs)) _ _ Ed).
Qed.

Lemma mild_update_time inode flags : mild (ovl_update_time inode flags).
Proof.
  unfold ovl_update_time. destruct (has_flag _ _); [|auto with fine].
  eapply fsafe_bind with (Q := λ u _, ∀ x, u = Some x → Up x).
  { apply fsafe_get. intros s Hs _ x Hx. apply (uo_inode _ _ (us_ovl _ _ (fk_upper _ Hs)) _ _ Hx). }
  intros [u|]; [|by apply fsafe_ret]. intros s Hs Hu. specialize (Hu u eq_refl).
  assert (Hm : mild (fcall (λ w : W, (tt, touch_atime w u)) ;;& let& attrs := fread (λ w, attrs_of w u) in
    flift (update_winode inode (λ i, set_wi_attrs (set_at_atime (at_atime attrs) (wi_attrs i)) i)) ;;& fret 0)).
  { apply mild_bind; [|auto with fine]. apply mild_fine, fine_fcall. intros w. by apply fl_touch. }
  by apply Hm.
Qed.
#[local] Hint Resolve mild_update_time : fine.
Lemma mild_file_accessed file : mild (ovl_file_accessed file).
Proof. unfold ovl_file_accessed. auto 20 with fine. Qed.
Lemma mild_aio_put req : mild (ovl_aio_put req).
Proof.
  unfold ovl_aio_put. assert (mild (fupdate (λ s, set_fs_aios (delete req (fs_aios s)) s))) by (by apply mild_fine, fine_update). auto 10 with fine.
Qed.
#[local] Hint Resolve mild_file_accessed mild_aio_put : fine.
Lemma mild_cleanup req : mild (ovl_aio_cleanup_handler req).
Proof. unfold ovl_aio_cleanup_handler. auto 12 with fine. Qed.
#[local] Hint Resolve mild_cleanup : fine.
Lemma mild_complete req res : mild (ovl_aio_rw_complete req res).
Proof. unfold ovl_aio_rw_complete. auto 10 with fine. Qed.
#[local] Hint Resolve mild_complete : fine.

Lemma fsafe_submit write iocb real flags count :
  fsafe (λ s, write = true → good_real UpI (Fd real false) s) (aio_submit write iocb real flags count) (λ _ _, True).
Proof.
  unfold aio_submit. set (P := λ s, write = true → good_real UpI (Fd real false) s).
  assert (HP : stable P) by (intros s s' Hs H E; by eapply stable_good_real; [|apply H]).
  eapply fsafe_bind; [by apply fine_fget|intros orig]. eapply fsafe_bind; [by apply fine_get_file|intros ?]. eapply fsafe_bind; [by apply fine_fget|intros req].
  eapply fsafe_bind; [by apply fine_update|intros ?]. eapply fsafe_bind with (Q := λ f _, write = true → UpI (rf_inode f)).
  { apply fsafe_get. intros s _ H E. by destruct (H E) as (i & Hi & _ & <-). }
  intros f s Hs Hf. revert s Hs Hf.
  assert (H : (write = true → UpI (rf_inode f)) → mild (fcall (λ w, submit_iocb w write f (ki_pos orig) count flags))).
  { intros Hf. apply mild_fine, fine_fcall. intros w. by apply fl_submit. }
  intros s Hs Hf. refine (mild_bind _ _ (H Hf) _ s Hs I). intros [[ret pos] early].
  apply mild_bind; [auto with fine|intros _]. destruct early; auto 10 with fine.
Qed.

(** *** Those that do not write *)

Abbreviation yes := (λ _ _, True).
(** With the real file of an open file, reading. *)
Lemma mild_with_real {A} P file bad (k : fd → F W A) :
  stable P → (∀ e, mild (bad e)) → (∀ real, fsafe P (k real) yes) →
  fsafe (λ s, P s ∧ opened file s) (ftry (ovl_real_fdget file) bad k) yes.
Proof. intros HP Hb Hk. eapply fsafe_try; [by apply fsafe_fdget_any|done|]. intros real. apply Hk. Qed.
Lemma mild_read_real {A} (r : nat) c (k : Z * Z → F W A) :
  only_reads c = true → (∀ x, mild (k x)) → mild (fbind (on_real r c) k).
Proof. intros Hc Hk. apply mild_bind; [|done]. by apply mild_fine, fine_on_real. Qed.
Lemma fsafe_true_l {A} (P : fstate W → Prop) (m : F W A) Q : fsafe (λ s, True ∧ P s) m Q → fsafe P m Q.
Proof. intros H. eapply fsafe_mono; [exact H|done|done]. Qed.

Lemma safe_llseek file offset whence : fsafe (opened file) (ovl_llseek file offset whence) yes.
Proof.
  assert (H0 : ∀ x, fine (update_ofile file (set_of_pos x))) by (intros; apply fine_update_ofile; intros ?; split_and!; auto).
  assert (H1 : ∀ r x, fine (update_real r (set_rf_pos x))) by (intros; by apply fine_update_real).
  unfold ovl_llseek. eapply fsafe_bind; [apply fine_fget; auto with fine|]. intros f. cbv beta.
  destruct (_ && _); [by apply fsafe_ret|]. destruct (_ && _); [apply mild_mono; auto with fine|].
  apply fsafe_true_l, mild_with_real; [done|intros e; auto with fine|]. intros real. apply mild_bind; [auto with fine|]. intros ?.
  apply mild_read_real; [done|]. intros [ret pos]. auto 10 with fine.
Qed.
Lemma safe_fadvise file offset len advice : fsafe (opened file) (ovl_fadvise file offset len advice) yes.
Proof.
  apply fsafe_true_l, mild_with_real; [done|intros e; auto with fine|]. intros real. apply mild_read_real; [done|]. intros x. auto with fine.
Qed.
Lemma safe_flush file id : fsafe (opened file) (ovl_flush file id) yes.
Proof.
  apply fsafe_true_l, mild_with_real; [done|intros e; auto with fine|]. intros real.
  apply mild_bind; [auto with fine|intros f]. apply mild_bind; [auto with fine|intros can]. apply mild_bind; [|auto with fine].
  destruct can; [|auto with fine]. apply mild_read_real; [done|]. auto with fine.
Qed.
Lemma safe_read_iter iocb count : fsafe (λ s, opened (ki_filp (iocb_at iocb s)) s) (ovl_read_iter iocb count) yes.
Proof.
  unfold ovl_read_iter. eapply fsafe_bind with (Q := λ k s, opened (ki_filp k) s); [by apply fsafe_get|]. intros k. cbv zeta.
  destruct (_ =? _); [by apply fsafe_ret|]. apply fsafe_true_l, mild_with_real; [done|intros e; auto with fine|]. intros real.
  apply mild_bind; [unfold no_direct_IO; auto 10 with fine|]. intros bad. destruct bad; [auto with fine|]. destruct (ki_sync k).
  - apply mild_read_real; [done|]. intros x. auto 10 with fine.
  - apply mild_bind; [auto with fine|intros ok]. destruct ok; cbn [negb]; [|auto 10 with fine].
    apply mild_bind; [|intros ret; auto 10 with fine]. eapply fsafe_mono; [apply fsafe_submit|done|done].
Qed.

Lemma mild_release_dir file : mild (dir_release_real file).
Proof.
  unfold dir_release_real. apply mild_bind; [auto with fine|intros g]. cbv zeta. apply mild_bind; [auto with fine|intros ?].
  destruct (dr_upperfile (dir_real_of g)); auto with fine.
Qed.
Lemma mild_release file : mild (ovl_release file).
Proof. unfold ovl_release. apply mild_bind; [auto with fine|intros g]. destruct (of_private g); auto with fine. Qed.
#[local] Hint Resolve mild_release_dir mild_release : fine.
Lemma mild_put_ofile file : mild (put_ofile file).
Proof.
  assert (mild (fupdate (λ s, set_fs_files (delete file (fs_files s)) s))) as Hd.
  { intros s Hs _. cbn. split_and!; [|done..]. eapply files_ok_tables; [..|exact Hs]; [done|cbn; lia|]. cbn. intros f x Hx.
    apply lookup_delete_Some in Hx as [_ Hx]. eauto using same_open_refl. }
  assert (∀ n, fine (update_ofile file (set_of_count n))) as Hc by (intros; apply fine_update_ofile; intros ?; split_and!; auto).
  assert (fine (update_ofile file (λ f, set_of_count (of_count f - 1) f))) by (apply fine_update_ofile; intros ?; split_and!; auto).
  unfold put_ofile. apply mild_bind; [auto with fine|intros f]. apply mild_if; [|auto with fine].
  apply mild_bind; [|auto with fine]. destruct (of_private f); auto 10 with fine.
Qed.
#[local] Hint Resolve mild_put_ofile : fine.
Lemma safe_mmap file v : mild (ovl_mmap file v).
Proof.
  unfold ovl_mmap, vma_set_file, ovl_vm_prfile_set. apply mild_bind; [auto with fine|intros f]. cbv zeta. apply mild_bind; [auto with fine|intros r].
  apply mild_bind; [auto with fine|intros can]. apply mild_if; [auto with fine|]. apply mild_bind; [auto with fine|intros m].
  apply mild_bind; [auto with fine|intros bad]. apply mild_if; [auto with fine|].
  assert (Hp : ∀ m, mild (put_mapped m)) by (intros []; cbn; auto with fine).
  assert (Ho : ∀ o : option nat, mild (match o with Some file => put_ofile file | None => fret tt end)) by (intros []; auto with fine).
  apply mild_bind; [auto 10 with fine|intros ?]. apply mild_read_real; [done|]. intros x. auto 12 with fine.
Qed.
Lemma sync_status_same (x : super W) : snd (ovl_sync_status x) = x.
Proof. unfold ovl_sync_status, sbind, sget. cbn. destruct (ovl_should_sync _); [done|]. cbn. by destruct (mf_upper _). Qed.
Lemma fine_sync_status : fine (fsuper ovl_sync_status).
Proof.
  intros P HP s Hs Hp. unfold fsuper. pose proof (sync_status_same (fs_super s)) as E. destruct (ovl_sync_status (fs_super s)) as [r x]. cbn in *. subst x.
  assert (Es : set_fs_super (fs_super s) s = s) by by destruct s. rewrite Es. split_and!; [done..|]. by destruct r.
Qed.
#[local] Hint Resolve fine_sync_status : fine.
Lemma safe_fsync file first last datasync : fsafe (opened file) (ovl_fsync file first last datasync) yes.
Proof.
  unfold ovl_fsync. eapply fsafe_bind; [by apply fine_fget, stable_opened|]. intros f. eapply fsafe_bind; [by apply fine_sync_status, stable_opened|].
  intros ret. cbv beta. destruct (_ <=? _); [by apply fsafe_ret|].
  eapply fsafe_try; [|intros e; by apply fsafe_ret|].
  { eapply fsafe_mono; [apply (fsafe_fdget_meta (λ _, True) (λ _, True) file (datasync =? 0) (λ _, True) stable_true)|done|].
    - intros g. destruct (datasync =? 0); [by apply fsafe_get|]. apply mild_mono, mild_fine, fine_realdata.
    - intros real s. exact id. }
  intros real. eapply fsafe_bind with (Q := λ r s, ∃ i, rf_inode r = i ∧ has_real (fd_file real) i s).
  { apply fsafe_get. intros s _ (_ & i & _ & Hr). exists i. split; [apply Hr|done]. }
  intros r. eapply fsafe_bind with (Q := λ u s, Some (rf_inode r) = u → good_real UpI real s).
  { apply fsafe_get. intros s Hs (i & Hi & Hr) E. exists i. split; [|done]. rewrite <- Hi. eapply upper_inode_up; [exact Hs|by symmetry]. }
  intros u. case_bool_decide as E; [|apply mild_mono; auto with fine].
  eapply fsafe_bind with (Q := yes); [|intros; apply mild_mono; auto with fine]. eapply fsafe_bind with (Q := yes); [|intros; by apply fsafe_ret].
  eapply fsafe_mono; [apply (fsafe_on_real (λ _, True)); auto with fine|by intros s H; split; [|apply H]|done].
Qed.

(** *** Those that write *)

(** After the preparation, with the real file of a file that is open for
    writing. *)
Lemma fsafe_prepared {A} file f (fail : Z → F W A) (k : F W A) :
  (∀ e, mild (fail e)) → fsafe (writing file f) k yes →
  fsafe (writing file f) (let& ret := prepare_write file in if negb (ret =? 0) then fail ret else k) yes.
Proof.
  intros Hf Hk. eapply fsafe_bind with (Q := λ _, writing file f).
  { eapply fsafe_mono; [apply (fsafe_prepare (λ _, True) file f stable_true)|done|by intros ? ? []]. }
  intros ret. destruct (negb _); [by apply mild_mono|done].
Qed.
Lemma fsafe_upper_real {A} file f bad (k : fd → F W A) :
  (∀ e, mild (bad e)) → (∀ real, fsafe (good_real UpI real) (k real) yes) →
  fsafe (writing file f) (ftry (ovl_real_fdget file) bad k) yes.
Proof.
  intros Hb Hk. eapply fsafe_try; [|done|].
  - eapply fsafe_mono; [apply (fsafe_fdget_write (λ _, True) file f stable_true)|done|intros real s; exact id].
  - intros real. eapply fsafe_mono; [apply Hk|by intros s []|done].
Qed.
(** A write, and what is done after it. *)
Lemma fsafe_write_real {A} real c (k : Z * Z → F W A) : (∀ x, mild (k x)) → fsafe (good_real UpI real) (fbind (on_real (fd_file real) c) k) yes.
Proof.
  intros Hk. eapply mild_after; [|done]. eapply fsafe_mono; [apply (fsafe_on_real (λ _, True) real c stable_true)|done|done].
Qed.
Lemma fsafe_skip {A B} P (m : F W A) (k : A → F W B) : stable P → fine m → (∀ a, fsafe P (k a) yes) → fsafe P (fbind m k) yes.
Proof. intros HP Hm Hk. eapply fsafe_bind; [by apply Hm|]. done. Qed.

Lemma safe_write_iter iocb k f count : fsafe (λ s, iocb_at iocb s = k ∧ writing (ki_filp k) f s) (ovl_write_iter iocb count) yes.
Proof.
  unfold ovl_write_iter. apply fsafe_get_eq with (a := k); [by intros s []|]. cbv zeta.
  apply fsafe_get_eq with (a := f); [intros s [_ Hw]; unfold ofile_at; by rewrite (wr_open _ _ _ Hw)|].
  destruct (_ =? _); [by apply fsafe_ret|].
  eapply fsafe_mono with (P := writing (ki_filp k) f); [|by intros s []|by intros].
  apply fsafe_prepared; [intros e; auto with fine|]. apply fsafe_upper_real; [intros e; auto with fine|]. intros real.
  apply fsafe_skip; [apply stable_good_real|unfold no_direct_IO; auto 10 with fine|]. intros bad.
  destruct bad; [apply mild_mono; auto with fine|]. apply fsafe_skip; [apply stable_good_real|apply fine_fget|]. intros config. cbv zeta.
  destruct (ki_sync k).
  - apply fsafe_skip; [apply stable_good_real|apply fine_start_write|]. intros ?. apply fsafe_write_real. intros x. auto 12 with fine.
  - apply fsafe_skip; [apply stable_good_real|apply fine_kmalloc|]. intros ok. destruct ok; cbn [negb]; [|apply mild_mono; auto with fine].
    apply fsafe_skip; [apply stable_good_real|apply fine_start_write|]. intros ?.
    eapply mild_after; [|intros ret; auto with fine]. eapply fsafe_mono; [apply fsafe_submit|intros s Hs _; exact Hs|done].
Qed.
Lemma safe_splice_write out f ppos len flags : fsafe (writing out f) (ovl_splice_write out ppos len flags) yes.
Proof.
  unfold ovl_splice_write. apply fsafe_get_eq with (a := f); [intros s Hw; unfold ofile_at; by rewrite (wr_open _ _ _ Hw)|].
  apply (fsafe_prepared out f (λ e, fret (e, ppos))); [intros e; auto with fine|]. apply fsafe_upper_real; [intros e; auto with fine|]. intros real.
  apply fsafe_skip; [apply stable_good_real|apply fine_start_write|]. intros ?. apply fsafe_write_real. intros x. auto 12 with fine.
Qed.
Lemma safe_fallocate file f mode offset len : fsafe (writing file f) (ovl_fallocate file mode offset len) yes.
Proof.
  unfold ovl_fallocate. apply fsafe_get_eq with (a := f); [intros s Hw; unfold ofile_at; by rewrite (wr_open _ _ _ Hw)|].
  apply fsafe_prepared; [intros e; auto with fine|]. apply fsafe_upper_real; [intros e; auto with fine|]. intros real.
  apply fsafe_write_real. intros x. auto 12 with fine.
Qed.
Lemma safe_copyfile file_in pos_in file_out f pos_out len flags op :
  fsafe (λ s, opened file_in s ∧ writing file_out f s) (ovl_copyfile file_in pos_in file_out pos_out len flags op) yes.
Proof.
  unfold ovl_copyfile. apply fsafe_get_eq with (a := f); [intros s [_ Hw]; unfold ofile_at; by rewrite (wr_open _ _ _ Hw)|].
  eapply fsafe_bind with (Q := λ _ s, opened file_in s ∧ writing file_out f s).
  { destruct op; [by apply fsafe_prepare, stable_opened..|by apply fsafe_ret]. }
  intros ret. destruct (negb _); [by apply fsafe_ret|].
  eapply fsafe_try; [by apply fsafe_fdget_write, stable_opened|intros e; by apply fsafe_ret|]. intros real_out. cbv beta.
  eapply fsafe_try with (Q := λ _, good_real UpI real_out); [|intros e; apply mild_bind; auto with fine|].
  { eapply fsafe_mono; [apply (fsafe_fdget_any (good_real UpI real_out) file_in (stable_good_real _ _))|by intros s []|done]. }
  intros real_in. apply fsafe_skip; [apply stable_good_real|apply fine_fget|]. intros r_in.
  eapply fsafe_bind with (Q := λ r _, UpI (rf_inode r)).
  { apply fsafe_get. by intros s _ (i & Hi & _ & <-). }
  intros r_out s Hs Hr. refine (mild_bind _ _ _ _ s Hs I); [|auto 12 with fine]. apply mild_fine, fine_fcall. intros w. by apply fl_copy.
Qed.
Lemma safe_remap file_in pos_in file_out f pos_out len flags :
  fsafe (λ s, opened file_in s ∧ writing file_out f s) (ovl_remap_file_range file_in pos_in file_out pos_out len flags) yes.
Proof.
  unfold ovl_remap_file_range. destruct (has_flag flags (Z.lnot _)); [by apply fsafe_ret|]. cbv zeta.
  assert (HC : ∀ op, fsafe (λ s, opened file_in s ∧ writing file_out f s) (ovl_copyfile file_in pos_in file_out pos_out len flags op) yes) by (intros; apply safe_copyfile).
  do 4 (eapply fsafe_bind with (Q := λ _ s, opened file_in s ∧ writing file_out f s); [by apply fsafe_get|intros ?]).
  destruct (_ && _); [by apply fsafe_ret|]. apply HC.
Qed.

(** *** Opening *)

Definition with_file (file : nat) (dentry inode flags : Z) s : fstate W :=
  set_fs_files (<[file := OpenFile dentry inode flags 0 1 PNull]> (fs_files s)) s.
Definition without_file (file : nat) s : fstate W := set_fs_files (delete file (fs_files s)) s.

Lemma write_bits x y : Z.land x 3 = Z.land y 3 → FMODE_WRITE_of x = FMODE_WRITE_of y.
Proof.
  assert (H : ∀ a, FMODE_WRITE_of a = Z.testbit ((Z.land a 3 + 1) mod 2 ^ 2) 1).
  { intros a. change 3 with (Z.ones 2). rewrite Z.land_ones by lia. rewrite Zplus_mod_idemp_l, Z.mod_pow2_bits_low by lia.
    unfold FMODE_WRITE_of, has_flag, FMODE_WRITE. change 2 with (2 ^ 1) at 1. destruct (Z.testbit (a + 1) 1) eqn:E.
    - assert (Z.land (a + 1) (2 ^ 1) ≠ 0) as Hn; [|by apply Z.eqb_neq in Hn as ->].
      intros H0. assert (Z.testbit (Z.land (a + 1) (2 ^ 1)) 1 = false) as H1 by (by rewrite H0). rewrite Z.land_spec, E in H1. done.
    - assert (Z.land (a + 1) (2 ^ 1) = 0) as ->; [|done]. apply Z.bits_inj'. intros n Hn. rewrite Z.land_spec, Z.bits_0.
      destruct (decide (n = 1)) as [->|]; [by rewrite E|]. rewrite Z.pow2_bits_false by done. apply andb_false_r. }
  intros E. by rewrite !H, E.
Qed.
Lemma write_mask x m fl : Z.land m 3 = 0 → FMODE_WRITE_of (Z.lor (Z.land x (Z.lnot m)) (Z.land fl m)) = FMODE_WRITE_of x.
Proof.
  intros Hm. apply write_bits. rewrite Z.land_lor_distr_l, <- !Z.land_assoc, Hm, Z.land_0_r, Z.lor_0_r.
  assert (E : Z.land (Z.lnot m) 3 = 3); [|by rewrite E]. apply Z.bits_inj'. intros n Hn. rewrite Z.land_spec, Z.lnot_spec by done.
  assert (H : Z.testbit (Z.land m 3) n = false) by (rewrite Hm; apply Z.bits_0). rewrite Z.land_spec in H.
  destruct (Z.testbit 3 n); [|by rewrite andb_false_r]. rewrite andb_true_r in *. by rewrite H.
Qed.
Lemma write_needs_copy_up flags : FMODE_WRITE_of flags = true → ovl_open_flags_need_copy_up flags = true.
Proof.
  unfold FMODE_WRITE_of, has_flag, ovl_open_flags_need_copy_up, O_ACCMODE, FMODE_WRITE. rewrite <- Z.land_assoc. change (Z.land 3 2) with 2.
  destruct (Z.eqb_spec flags 0) as [->|]; [done|]. intros H. by rewrite H.
Qed.
Lemma maybe_copy_up_already d flags i (ws ws' : wstate W) :
  ovl_maybe_copy_up d flags ws = (inr 0, ws') → od_inode (odentry_at d (ws_ovl ws)) = Some i →
  m_fmt (wi_mode (winode_at i ws)) = Some S_IFREG → FMODE_WRITE_of flags = true →
  ovl_already_copied_up d O_WRONLY (ws_ovl ws') = true.
Proof.
  intros H Hi Hreg Hw. pose proof (write_needs_copy_up _ Hw) as Hneed.
  assert (Ha : ovl_already_copied_up d flags (ws_ovl ws') = true).
  { unfold ovl_maybe_copy_up, ovl_open_need_copy_up, ubind, uinode, uovl, uget, uret in H. cbn in H. rewrite Hi in H. cbn in H. rewrite Hneed, andb_true_r in H.
    unfold has_fmt in H. rewrite Hreg in H. cbn in H. rewrite andb_true_r in H. destruct (ovl_already_copied_up d flags (ws_ovl ws)) eqn:E; cbn in H.
    - by injection H as <-.
    - apply ucheck_inr in H as (err & ws1 & _ & [[-> H]|[He H]]); [by eapply copy_up_flags_already|]. by injection H as ->. }
  revert Ha. unfold ovl_already_copied_up, ovl_dentry_needs_data_copy_up. by rewrite Hneed.
Qed.
Lemma safe_set_private file r : fsafe (λ s, (r < fs_next s)%nat) (update_ofile file (set_of_private (PFile r))) yes.
Proof.
  intros s [Hu H0 Hok] Hr. cbn. split_and!; [|done..]. split; [done..|]. cbn. intros g x.
  destruct (decide (file = g)) as [->|]; [rewrite lookup_alter_eq|rewrite lookup_alter_ne by done; apply Hok].
  destruct (fs_files s !! g) as [y|] eqn:E; [|done]. intros [= <-]. destruct (Hok _ _ E) as [? ? ? ?]. split; [done..|]. cbn. by intros r' [= <-].
Qed.

(** The file that the kernel hands to [ovl_open]. *)
Record openable (file : nat) (dentry inode : Z) s : Prop := Openable {
  op_new : fs_files s !! file = None;
  op_inode : od_inode (odentry_at dentry (fs_ovl s)) = Some inode;
  op_plain : od_is_dir (odentry_at dentry (fs_ovl s)) = false;
  op_regular : m_fmt (wi_mode (winode_at inode (fs_ws s))) = Some S_IFREG
}.
Lemma files_ok_without file s : files_ok s → files_ok (without_file file s).
Proof.
  intros Hs. eapply files_ok_tables; [..|exact Hs]; [done|cbn; lia|]. cbn. intros f x Hx.
  apply lookup_delete_Some in Hx as [_ Hx]. eauto using same_open_refl.
Qed.
Lemma safe_open file dentry inode flags s :
  files_ok s → openable file dentry inode s →
  let '(r, s') := ovl_open file (with_file file dentry inode flags s) in
  Same (fs_world s) (fs_world s') ∧ files_ok (without_file file s') ∧ (r = inr 0 → files_ok s').
Proof.
  intros Hs [Hnew Hi Hd Hreg]. unfold ovl_open. set (s1 := with_file file dentry inode flags s).
  assert (Ef : ofile_at file s1 = OpenFile dentry inode flags 0 1 PNull) by (unfold ofile_at; cbn; by rewrite lookup_insert_eq).
  unfold fbind at 1, fget. cbv beta iota. rewrite Ef. cbn [of_dentry of_flags of_inode].
  destruct (usafe_maybe_copy_up Up Same grows (λ _ _ H, H) false dentry flags (fs_ws s) (fk_upper _ Hs)) as [[U1 U2 U3 _] _].
  unfold fbind at 1, flift, fsuper, slift. change (synced (fs_super s1)) with (fs_ws s).
  destruct (ovl_maybe_copy_up dentry flags (fs_ws s)) as [r ws] eqn:Ecopy. cbn [fst snd] in *.
  set (s2 := set_fs_super (set_su_ws ws (fs_super s1)) s1).
  assert (Hold : files_ok (without_file file s2)).
  { split; [exact (synced_upper s ws U1)|apply Hs|]. cbn. rewrite delete_insert_id by done.
    intros g x Hx. eapply file_ok_step, (fk_files _ Hs); [done|exact (synced_grows _ s ws U3)|done]. }
  assert (Hw : Same (fs_world s) (fs_world s2)) by exact U2.
  destruct r as [e|err]; [by split_and!|]. destruct (Z.eqb_spec err 0) as [->|He]; cbn [negb].
  2:{ cbn. split_and!; [done..|]. by intros [= ->]. }
  set (s3 := snd (update_ofile file (λ f, set_of_flags (Z.land (of_flags f) (Z.lnot O_OPENING)) f) s2)).
  assert (H3 : files_ok s3).
  { split; [apply Hold|apply Hold|]. intros g x. destruct (decide (g = file)) as [->|Hne].
    - cbn. rewrite lookup_alter_eq, lookup_insert_eq. intros [= <-].
      pose proof (synced_grows _ s ws U3) as Hg. split; cbn.
      + change (od_inode (odentry_at dentry (fs_ovl s2)) = Some inode). by rewrite <- Hi; apply (gr_inode _ _ Hg).
      + change (od_is_dir (odentry_at dentry (fs_ovl s2)) = false). by rewrite <- Hd; apply (gr_is_dir _ _ Hg).
      + intros Hf. assert (Hf' : FMODE_WRITE_of flags = true).
        { rewrite <- Hf. symmetry. pose proof (write_mask flags O_OPENING 0 eq_refl) as E. by rewrite Z.land_0_l, Z.lor_0_r in E. }
        exact (maybe_copy_up_already _ _ _ _ _ Ecopy Hi Hreg Hf').
      + done.
    - intros Hx. apply (fk_files _ Hold g x). cbn in *. by rewrite lookup_alter_ne, lookup_insert_ne in Hx by done;
      rewrite delete_insert_id. }
  assert (E3 : update_ofile file (λ f, set_of_flags (Z.land (of_flags f) (Z.lnot O_OPENING)) f) s2 = (inr tt, s3)) by done.
  unfold fbind at 1. rewrite E3.
  assert (Hrest : fsafe (λ _, True) (let& realinode := ovl_inode_realdata inode in
    ftry (ovl_open_realfile file realinode) fret (λ realfile, update_ofile file (set_of_private (PFile realfile)) ;;& fret 0)) yes).
  { eapply fsafe_bind; [by apply fine_realdata|]. intros i. eapply fsafe_try; [by apply fsafe_open_realfile|intros e; by apply fsafe_ret|].
    intros r. eapply mild_after; [|auto with fine]. eapply fsafe_mono; [apply safe_set_private|by intros s' (_ & ? & _)|done]. }
  destruct (Hrest s3 H3 I) as (H4 & Hw4 & _).
  match type of Hw4 with context [?m s3] => change (let '(r, s') := m s3 in Same (fs_world s) (fs_world s') ∧ files_ok (without_file file s') ∧ (r = inr 0 → files_ok s')); destruct (m s3) as [r s4] end.
  cbn [fst snd] in *. split_and!; [by etransitivity; [exact Hw|]| |done]. by apply files_ok_without.
Qed.
End safe.

(** ** Histories *)

(** What happens to the open files of a mounted overlay.  The kernel opens and
    closes files, changes their flags, prepares requests and mappings, and
    calls the operations; requests complete; other files are copied up and
    changed. *)
Inductive file_op :=
  | Open (file : nat) (dentry inode flags : Z)
  | Dup (file : nat)
  | Close (file : nat)
  | SetFlags (file : nat) (flags : Z)
  | Request (iocb : nat) (k : kiocb)
  | Mapping (v file : nat)
  | Unmap (v : nat)
  | Llseek (file : nat) (offset whence : Z)
  | ReadIter (iocb : nat) (count : Z)
  | WriteIter (iocb : nat) (count : Z)
  | SpliceWrite (out : nat) (ppos len flags : Z)
  | Fsync (file : nat) (from till datasync : Z)
  | Mmap (file v : nat)
  | Fallocate (file : nat) (mode offset len : Z)
  | Fadvise (file : nat) (offset len advice : Z)
  | Flush (file : nat) (id : Z)
  | CopyFileRange (file_in : nat) (pos_in : Z) (file_out : nat) (pos_out len flags : Z)
  | RemapFileRange (file_in : nat) (pos_in : Z) (file_out : nat) (pos_out len flags : Z)
  | Complete (req : nat) (pos res : Z)
  | Attr (r : attr_request).

Section histories.
Context {W : Type} {K : Vfs W} {VS : VfsStat W} {VW : VfsWrite W} {R : RbLib} {L : MountLib W} {SL : SuperLib W} {VF : VfsFile W}.
Implicit Types s : fstate W.

(** A file that could not be opened is forgotten. *)
Definition serve_file (op : file_op) s : fstate W :=
  match op with
  | Open file dentry inode flags =>
    match ovl_open file (with_file file dentry inode flags s) with
    | (inr 0, s') => s'
    | (_, s') => without_file file s'
    end
  | Dup file => snd (get_ofile file s)
  | Close file => snd (put_ofile file s)
  | SetFlags file flags =>
    snd (update_ofile file (λ f, set_of_flags (Z.lor (Z.land (of_flags f) (Z.lnot OVL_SETFL_MASK)) (Z.land flags OVL_SETFL_MASK)) f) s)
  | Request iocb k => set_fs_iocbs (<[iocb := k]> (fs_iocbs s)) s
  | Mapping v file => snd ((get_ofile file ;;& fupdate (λ s, set_fs_vmas (<[v := Vma (MOverlay file) None]> (fs_vmas s)) s)) s)
  | Unmap v =>
    snd ((let& m := fget (vma_at v) in
          fupdate (λ s, set_fs_vmas (delete v (fs_vmas s)) s) ;;&
          put_mapped (vm_file m) ;;& match vm_prfile m with Some file => put_ofile file | None => fret tt end) s)
  | Llseek file offset whence => snd (ovl_llseek file offset whence s)
  | ReadIter iocb count => snd (ovl_read_iter iocb count s)
  | WriteIter iocb count => snd (ovl_write_iter iocb count s)
  | SpliceWrite out ppos len flags => snd (ovl_splice_write out ppos len flags s)
  | Fsync file from till datasync => snd (ovl_fsync file from till datasync s)
  | Mmap file v => snd (ovl_mmap file v s)
  | Fallocate file mode offset len => snd (ovl_fallocate file mode offset len s)
  | Fadvise file offset len advice => snd (ovl_fadvise file offset len advice s)
  | Flush file id => snd (ovl_flush file id s)
  | CopyFileRange file_in pos_in file_out pos_out len flags => snd (ovl_copy_file_range file_in pos_in file_out pos_out len flags s)
  | RemapFileRange file_in pos_in file_out pos_out len flags => snd (ovl_remap_file_range file_in pos_in file_out pos_out len flags s)
  | Complete req pos res => snd ((update_aio req (set_ar_pos pos) ;;& ovl_aio_rw_complete req res) s)
  | Attr r => snd (flift (serve_attr r) s)
  end.

(** What the kernel sees to: the operations are called on open files, and the
    ones that write on files that are open for writing, whose upper file has
    not gone because the overlay's inode holds it. *)
Definition permitted (op : file_op) s : Prop :=
  match op with
  | Open file dentry inode _ => openable file dentry inode s
  | Request iocb _ => fs_iocbs s !! iocb = None
  | Mapping v file => fs_vmas s !! v = None ∧ opened file s
  | Mmap file v => opened file s ∧ is_Some (fs_vmas s !! v)
  | Dup file | Close file | SetFlags file _ | Llseek file _ _ | Fsync file _ _ _ | Fadvise file _ _ _ | Flush file _ => opened file s
  | ReadIter iocb _ => opened (ki_filp (iocb_at iocb s)) s
  | WriteIter iocb _ => ∃ f, writing (ki_filp (iocb_at iocb s)) f s
  | SpliceWrite file _ _ _ | Fallocate file _ _ _ => ∃ f, writing file f s
  | CopyFileRange file_in _ file_out _ _ _ | RemapFileRange file_in _ file_out _ _ _ => opened file_in s ∧ ∃ f, writing file_out f s
  | Complete req _ _ => is_Some (fs_aios s !! req)
  | Unmap v => is_Some (fs_vmas s !! v)
  | Attr _ => True
  end.
(** A history from one state to another. *)
Inductive history : list file_op → fstate W → fstate W → Prop :=
  | history_nil s : history [] s s
  | history_cons op ops s s' : permitted op s → history ops (serve_file op s) s' → history (op :: ops) s s'.
End histories.

Section theorem.
Context {W : Type} {K : Vfs W} {VS : VfsStat W} {VW : VfsWrite W} {R : RbLib} {L : MountLib W} {SL : SuperLib W} {VF : VfsFile W}.
Context (Up UpI : Z → Prop) {UL : UpperLaws K VS VW Up (lower_same Up)} {FL : FileLaws VF Up UpI (lower_same Up)}.

#[local] Hint Extern 0 (PreOrder _) => tc_solve : core.
Lemma serve_file_safe op (s : fstate W) : files_ok Up s → permitted op s →
  files_ok Up (serve_file op s) ∧ lower_same Up (fs_world s) (fs_world (serve_file op s)).
Proof.
  intros Hs Hp.
  assert (Hf : ∀ A P (m : F W A), fsafe Up (lower_same Up) P m (λ _ _, True) → P s → files_ok Up (snd (m s)) ∧ lower_same Up (fs_world s) (fs_world (snd (m s)))).
  { intros A P m H HP. by destruct (H s Hs HP) as (? & ? & _). }
  assert (Hm : ∀ A (m : F W A), mild Up (lower_same Up) m → files_ok Up (snd (m s)) ∧ lower_same Up (fs_world s) (fs_world (snd (m s)))).
  { intros A m H. by apply (Hf A (λ _, True)). }
  assert (Hb : ∀ A B (m : F W A) (f : A → F W B), mild Up (lower_same Up) m → (∀ a, mild Up (lower_same Up) (f a)) → mild Up (lower_same Up) (fbind m f)).
  { intros A B m f Hma Hfa. by eapply mild_bind. }
  destruct op; cbn [serve_file permitted] in *.
  - pose proof (safe_open Up UpI (lower_same Up) file dentry inode flags s Hs Hp) as H.
    destruct (ovl_open _ _) as [r s']. destruct H as (Hw & Hd & Hok). destruct r as [e|[|p|p]]; (split; [|exact Hw]); auto.
  - apply Hm, mild_fine. by apply fine_get_ofile.
  - apply Hm. by eapply mild_put_ofile.
  - apply Hm, mild_fine, fine_update_ofile; [tc_solve|]. intros x. split_and!; auto. cbn. by apply write_mask.
  - split; [|done]. eapply files_ok_tables; [..|exact Hs]; [done|cbn; lia|]. cbn. eauto using same_open_refl.
  - apply Hm. apply Hb; [by apply mild_fine, fine_get_ofile|]. intros _. by apply mild_fine, fine_update.
  - apply Hm. apply Hb; [by apply mild_fine, fine_fget|]. intros m. apply Hb; [by apply mild_fine, fine_update|]. intros _.
    apply Hb; [destruct (vm_file m); cbn; [by eapply mild_put_ofile|by eapply mild_fput]|]. intros _.
    destruct (vm_prfile m); [by eapply mild_put_ofile|by apply mild_fine, fine_fret].
  - eapply Hf; [by eapply safe_llseek|done].
  - eapply Hf; [by eapply safe_read_iter|done].
  - destruct Hp as [f Hp]. eapply Hf; [by apply (safe_write_iter Up UpI _ iocb (iocb_at iocb s) f)|by split].
  - destruct Hp as [f Hp]. eapply Hf; [by eapply safe_splice_write|exact Hp].
  - eapply Hf; [by eapply safe_fsync|done].
  - apply Hm. by eapply safe_mmap.
  - destruct Hp as [f Hp]. eapply Hf; [by eapply safe_fallocate|exact Hp].
  - eapply Hf; [by eapply safe_fadvise|done].
  - eapply Hf; [by eapply safe_flush|done].
  - destruct Hp as [Hi [f Hp]]. eapply Hf; [by eapply safe_copyfile|by split].
  - destruct Hp as [Hi [f Hp]]. eapply Hf; [by eapply safe_remap|by split].
  - apply Hm. apply Hb; [by apply mild_fine, fine_update_aio|]. intros _. by eapply mild_complete.
  - apply Hm, mild_fine. by eapply fine_flift, safe_serve_attr.
Qed.

End theorem.

(** ** The real file in hand *)

Lemma land_lor_other f x m : Z.land x m = 0 → Z.land (Z.lor f x) m = Z.land f m.
Proof. intros E. by rewrite Z.land_lor_distr_l, E, Z.lor_0_r. Qed.
Lemma land_lnot_other x m : Z.land x m = 0 → Z.land (Z.lnot x) m = m.
Proof.
  intros E. apply Z.bits_inj'. intros n Hn. rewrite Z.land_spec, Z.lnot_spec by done.
  assert (H : Z.testbit (Z.land x m) n = false) by (rewrite E; apply Z.bits_0). rewrite Z.land_spec in H.
  destruct (Z.testbit m n); [|by rewrite andb_false_r]. rewrite andb_true_r in *. by rewrite H.
Qed.
Lemma land_clear_other f x m : Z.land x m = 0 → Z.land (Z.land f (Z.lnot x)) m = Z.land f m.
Proof. intros E. by rewrite <- Z.land_assoc, land_lnot_other. Qed.
Lemma same_flags f r x m : Z.land x m = 0 → has_flag (Z.lxor f r) (Z.lnot x) = false → Z.land r m = Z.land f m.
Proof.
  unfold has_flag. intros E H. apply negb_false_iff, Z.eqb_eq in H. symmetry. apply Z.lxor_eq.
  assert (Hd : Z.lxor (Z.land f m) (Z.land r m) = Z.land (Z.lxor f r) m).
  { apply Z.bits_inj'. intros n Hn. rewrite Z.lxor_spec, !Z.land_spec, Z.lxor_spec. destruct (Z.testbit f n), (Z.testbit r n), (Z.testbit m n); done. }
  by rewrite Hd, <- (land_lnot_other x m E), Z.land_assoc, H, Z.land_0_l.
Qed.

Section current.
Context {W : Type} {K : Vfs W} {VS : VfsStat W} {VW : VfsWrite W} {R : RbLib} {L : MountLib W} {SL : SuperLib W} {VF : VfsFile W}.
Implicit Types s : fstate W.

Lemma realdata_run inode s : ∃ i s', ovl_inode_realdata inode s = (inr i, s') ∧ fs_reals s' = fs_reals s ∧ fs_files s' = fs_files s.
Proof.
  unfold ovl_inode_realdata, fbind, fget. cbv beta iota. destruct (_ && _); [by do 2 eexists|].
  unfold ovl_inode_lowerdata, fbind, fget, flift, fsuper, slift, uwarn, ulift, warn_on. cbv beta iota. destruct (negb _); by do 2 eexists.
Qed.
Lemma open_realfile_run file i s r s' :
  ovl_open_realfile file i s = (inr r, s') →
  rf_inode (real_at r s') = default 0 i ∧ Z.land (rf_flags (real_at r s')) OVL_SETFL_MASK = Z.land (of_flags (ofile_at file s)) OVL_SETFL_MASK.
Proof.
  unfold ovl_open_realfile, fbind, fget, fread, fget, fobjects, fget. cbv beta iota zeta. destruct (negb _); [done|].
  unfold fcall at 1, flift, fsuper, slift. cbv beta iota. destruct (open_with_fake_path _ _ _ _) as [err w]. cbv beta iota.
  destruct (negb (err =? 0)); [done|]. unfold alloc_real. intros [= <- <-]. unfold real_at. cbn. rewrite lookup_insert_eq. cbn.
  split; [done|]. rewrite land_clear_other by done. destruct (negb _); [rewrite land_clear_other by done|]; by rewrite land_lor_other.
Qed.
Lemma change_flags_run r flags s s' :
  ovl_change_flags r flags s = (inr 0, s') → is_Some (fs_reals s !! r) →
  rf_inode (real_at r s') = rf_inode (real_at r s) ∧ Z.land (rf_flags (real_at r s')) OVL_SETFL_MASK = Z.land flags OVL_SETFL_MASK.
Proof.
  intros H [x Hx]. unfold ovl_change_flags, fbind, fget, fread, fget in H. cbv beta iota zeta in H.
  destruct (has_flag _ O_APPEND && _); [done|]. destruct (has_flag _ O_DIRECT && _); [done|].
  destruct (Z.eqb_spec (check_flags (fs_world s) (rf_inode (real_at r s)) (Z.land flags OVL_SETFL_MASK)) 0) as [E|E]; cbn [negb] in H; [|by injection H as H; rewrite H in E].
  injection H as <-. rewrite real_at_alter, decide_True by done. unfold real_at. rewrite Hx. cbn. split; [done|].
  rewrite Z.land_lor_distr_l, <- !Z.land_assoc, Z.land_diag. change (Z.land (Z.lnot OVL_SETFL_MASK) OVL_SETFL_MASK) with 0.
  by rewrite Z.land_0_r, Z.lor_0_l.
Qed.

(** The flags that [fcntl] may change are the same. *)
Definition in_sync (f : open_file) (r : real_file) : Prop :=
  Z.land (rf_flags r) OVL_SETFL_MASK = Z.land (of_flags f) OVL_SETFL_MASK.

(** C16: An operation works on the file as it is now: when [ovl_real_fdget] gives a
    real file to an operation on a regular file, that has the inode that holds
    the data at this moment -- the upper one after a copy up, even if the file
    was opened before --, its changeable flags are the ones of the overlay's
    file, and it is to be given back if and only if the real file that the open
    file keeps is not current any more. *)
Theorem real_file_is_current (file : nat) (r : nat) (fd : fd) s s' :
  ovl_real_fdget file s = (inr fd, s') →
  of_private (ofile_at file s) = PFile r → is_Some (fs_reals s !! r) →
  od_is_dir (odentry_at (of_dentry (ofile_at file s)) (fs_ovl s)) = false →
  ∃ i, fst (ovl_inode_realdata (of_inode (ofile_at file s)) s) = inr i ∧
    rf_inode (real_at (fd_file fd) s') = default 0 i ∧
    in_sync (ofile_at file s) (real_at (fd_file fd) s') ∧
    (fd_put fd = false ↔ Some (rf_inode (real_at r s)) = i).
Proof.
  intros H Hp Hr Hd. unfold in_sync. unfold ovl_real_fdget, fobjects, fbind, fget in H. cbv beta iota in H. rewrite Hd in H.
  unfold ovl_real_fdget_meta, fbind, fget in H. cbv beta iota zeta in H. rewrite Hp in H.
  destruct (realdata_run (of_inode (ofile_at file s)) s) as (i & s1 & E1 & Er & Ef). rewrite E1 in H |- *. exists i. split; [done|].
  assert (Ereal : real_at r s1 = real_at r s) by (unfold real_at; by rewrite Er). rewrite Ereal in H.
  assert (Efile : ofile_at file s1 = ofile_at file s) by (unfold ofile_at; by rewrite Ef).
  case_bool_decide as Ei; cbn [negb] in H.
  - destruct (has_flag _ _) eqn:Eflag.
    + destruct (ovl_change_flags r _ s1) as [[e|err] s2] eqn:Ec; [done|]. destruct (Z.eqb_spec err 0) as [->|]; cbn [negb] in H; [|done].
      injection H as <- <-. apply change_flags_run in Ec as [H1 H2]; [|by rewrite Er]. cbn [fd_file fd_put].
      rewrite H1, H2, Ereal. subst i. by split_and!.
    + injection H as <- <-. cbn [fd_file fd_put]. rewrite Ereal. split_and!; [by subst i| |by subst i].
      by apply (same_flags _ _ OVL_OPEN_FLAGS).
  - destruct (ovl_open_realfile file i s1) as [[e|r2] s2] eqn:Eo; [done|]. injection H as <- <-.
    apply open_realfile_run in Eo as [H1 H2]. cbn [fd_file fd_put]. rewrite H1, H2, Efile. by split_and!.
Qed.
End current.
