(* ===== verification/OvlFill.v ===== *)
(** * What a mount leaves behind (super.c)

    The directories that a mount marks as in use are marked as long as it is
    there, and no longer: neither a mount that fails at any point nor one that
    is unmounted leaves a mark. *)
From S2P Require Import Prelude CString OS OvlOptions OvlVfs OvlHandle OvlLookup OvlLayers OvlStack OvlIno OvlReaddir OvlDirFile OvlWrite OvlTemp OvlInode OvlCopyUp OvlCreate OvlWorkdir OvlSuper OvlSpare.
Open Scope Z_scope.

(** The directories that a path leads to are held while the mount is there:
    their dentries keep their inodes. *)
Definition held_same {W} {K : Vfs W} (Held : Z → Prop) (w w' : W) : Prop := ∀ d, Held d → inode_addr w' d = inode_addr w d.
#[export] Instance held_same_preorder {W} {K : Vfs W} Held : PreOrder (held_same (W := W) Held).
Proof. split; [by intros w d|]. intros w1 w2 w3 H1 H2 d Hd. by rewrite H2, H1. Qed.
Class PathLaws {W} (L : MountLib W) (Held : Z → Prop) : Prop := {
  held_path w n p : kern_path w n = inr p → Held (pa_dentry p)
}.

(** The index directory and the stacks of the dentries stay what they are. *)
Definition same_objects {W} (o o' : vstate W) : Prop :=
  ofs_indexdir (vs_fs o') = ofs_indexdir (vs_fs o) ∧ ∀ d, lowerstack d o' = lowerstack d o.
#[export] Instance same_objects_preorder {W} : PreOrder (same_objects (W := W)).
Proof. split; [by intros o|]. intros o1 o2 o3 [H1 H2] [H3 H4]. split; [congruence|]. intros d. by rewrite H4. Qed.

Section fill.
Context {W : Type} {K : Vfs W} {VS : VfsStat W} {VW : VfsWrite W} {R : RbLib} {L : MountLib W} {SL : SuperLib W} {PA : ParserLib}.
Context (Held : Z → Prop) {HL : UpperLaws K VS VW anywhere (held_same Held)} {PL : PathLaws L Held}.
Implicit Types s : super W.

(** ** The functions of the other components *)

Definition ufixed {A} (m : U W A) : Prop := ∃ Q, usafe anywhere (held_same Held) same_objects true m Q.
Lemma grows_same (o o' : vstate W) : grows o o' → same_objects o o'.
Proof. intros H. split; [apply H|]. intros d. apply H. Qed.
Lemma inodes_same (m : gmap Z ovl_inode) (o : vstate W) : same_objects o (set_vs_inodes m o).
Proof. done. Qed.
Lemma ufixed_step {A} (m : U W A) ws : ufixed m →
  held_same Held (ws_world ws) (ws_world (snd (m ws))) ∧ ws_workdir (snd (m ws)) = ws_workdir ws ∧
  same_objects (ws_ovl ws) (ws_ovl (snd (m ws))).
Proof. intros [Q H]. by destruct (H ws (anywhere_state ws)) as [[] _]. Qed.

Lemma ufixed_bind {A B} (m : U W A) (f : A → U W B) : ufixed m → (∀ a, ufixed (f a)) → ufixed (ubind m f).
Proof.
  intros [Q H] Hf. exists any. apply (usafe_bind anywhere (held_same Held) same_objects true m f Q any H).
  intros a _ ws Hs. destruct (Hf a) as [Q' H']. destruct (H' ws Hs) as [Hst Hr]. split; [exact Hst|]. by destruct (fst _).
Qed.
Lemma ufixed_lift {A} (m : V W A) Q : vsafe anywhere (held_same Held) same_objects true m Q → ufixed (ulift m).
Proof. intros H. exists Q. by apply usafe_lift. Qed.
Lemma ufixed_ret {A} (a : A) : ufixed (uret a).
Proof. exists any. by apply (usafe_ret anywhere (held_same Held) same_objects). Qed.
Lemma ufixed_ukmalloc : ufixed ukmalloc.
Proof. exists any. by apply (usafe_ukmalloc anywhere (held_same Held) same_objects grows_same). Qed.
Lemma ufixed_want_write : ufixed (ulift ovl_want_write).
Proof. eapply ufixed_lift. by apply (vsafe_want_write anywhere (held_same Held) same_objects grows_same). Qed.
Lemma ufixed_workdir_create b n p : ufixed (ovl_workdir_create b n p).
Proof. eexists. by apply (usafe_workdir_create anywhere (held_same Held) same_objects grows_same). Qed.
Lemma ufixed_d_type d : ufixed (ulift (ovl_check_d_type_supported d)).
Proof. eapply ufixed_lift. by apply (vsafe_check_d_type anywhere (held_same Held) same_objects grows_same). Qed.
Lemma ufixed_tmpfile d m : ufixed (utry (ovl_do_tmpfile d m) (λ _, uret false) (λ _, uret true)).
Proof.
  exists any. eapply (usafe_try anywhere (held_same Held) same_objects).
  - by apply (usafe_do_tmpfile anywhere (held_same Held) same_objects grows_same).
  - intros e. by apply (usafe_ret anywhere (held_same Held) same_objects).
  - intros x _. by apply (usafe_ret anywhere (held_same Held) same_objects).
Qed.
Lemma ufixed_rename_whiteout : ufixed ovl_check_rename_whiteout.
Proof. eexists. by apply (usafe_check_rename_whiteout anywhere (held_same Held) same_objects grows_same). Qed.
Lemma ufixed_setxattr d ox v : ufixed (ulift (ovl_setxattr d ox v)).
Proof. eapply ufixed_lift. by apply (vsafe_setxattr anywhere (held_same Held) same_objects grows_same). Qed.
Lemma ufixed_removexattr d ox : ufixed (ulift (ovl_removexattr d ox)).
Proof. eapply ufixed_lift. by apply (vsafe_removexattr anywhere (held_same Held) same_objects grows_same). Qed.
Lemma ufixed_volatile_dirty d : ufixed (ovl_create_volatile_dirty d).
Proof. eexists. by apply (usafe_volatile_dirty anywhere (held_same Held) same_objects grows_same). Qed.
Lemma ufixed_origin_xattr d : ufixed (ulift (ovl_check_origin_xattr d)).
Proof. eapply ufixed_lift. by apply (vsafe_check_origin_xattr anywhere (held_same Held) same_objects). Qed.
Lemma ufixed_verify d ox real b set : ufixed (ulift (ovl_verify_set_fh d ox real b set)).
Proof. eapply ufixed_lift. by apply (vsafe_verify_set_fh anywhere (held_same Held) same_objects grows_same). Qed.
Lemma ufixed_indexdir_cleanup : ufixed ovl_indexdir_cleanup.
Proof. eexists. by apply (usafe_indexdir_cleanup anywhere (held_same Held) same_objects grows_same). Qed.
Lemma ufixed_new_inode m r : ufixed (ovl_new_inode m r).
Proof. eexists. by apply (usafe_ovl_new_inode anywhere (held_same Held) same_objects grows_same inodes_same). Qed.
Lemma ufixed_impuredir d : ufixed (ulift (ovl_is_impuredir d)).
Proof. eapply ufixed_lift. by apply (vsafe_is_impuredir anywhere (held_same Held) same_objects grows_same). Qed.
Lemma ufixed_update_oinode i f : (∀ x, oi_upperdentry (f x) = oi_upperdentry x) → ufixed (update_oinode i f).
Proof. intros Hf. eexists. by apply (usafe_update_oinode anywhere (held_same Held) same_objects inodes_same). Qed.
Lemma ufixed_inode_init i p ino fsid : ufixed (ovl_inode_init i p ino fsid).
Proof. eexists. by apply (usafe_inode_init anywhere (held_same Held) same_objects inodes_same). Qed.

(** ** Calm steps *)

(** Nothing of this changes in most steps. *)
Record rest s s' : Prop := Rest {
  re_upper_locked : su_upperdir_locked s' = su_upperdir_locked s;
  re_work_locked : su_workdir_locked s' = su_workdir_locked s;
  re_base : su_workbasedir s' = su_workbasedir s;
  re_rdonly : su_rdonly s' = su_rdonly s;
  re_export : su_export s' = su_export s;
  re_held : held_same Held (ws_world (su_ws s)) (ws_world (su_ws s'));
  re_workdir : ws_workdir (su_ws s') = ws_workdir (su_ws s);
  re_objects : same_objects (ws_ovl (su_ws s)) (ws_ovl (su_ws s'))
}.
#[export] Instance rest_preorder : PreOrder rest.
Proof.
  split; [by intros s|]. intros s1 s2 s3 [] []. split; try congruence; by etransitivity.
Qed.
Definition moves (RM : relation mount_fs) s s' : Prop := RM (su_mount s) (su_mount s') ∧ rest s s'.
#[export] Instance moves_preorder RM : PreOrder RM → PreOrder (moves RM).
Proof.
  intros HR. split; [by intros s|]. intros s1 s2 s3 [] []. split; by etransitivity.
Qed.
(** Of the mount, the index may be switched off, and what is not named here may
    change. *)
Record mount_le (m m' : mount_fs) : Prop := MountLe {
  le_inuse : mf_inuse m' = mf_inuse m;
  le_upper : mf_upper m' = mf_upper m;
  le_layers : mf_layers m' = mf_layers m;
  le_index : c_index (mf_config m') = true → c_index (mf_config m) = true;
  le_updir : c_upperdir (mf_config m') = c_upperdir (mf_config m)
}.
#[export] Instance mount_le_preorder : PreOrder mount_le.
Proof. split; [by intros m|]. intros m1 m2 m3 [] []. split; first [congruence|auto]. Qed.

Section calm.
Context (RM : relation mount_fs) {HR : PreOrder RM}.
Definition calmly {A} (m : SB W A) : Prop := ∀ s, moves RM s (snd (m s)).
Lemma calm_ret {A} (a : A) : calmly (sret a).
Proof. by intros s. Qed.
Lemma calm_fail {A} e : calmly (sfail (A := A) e).
Proof. by intros s. Qed.
Lemma calm_get {A} (f : super W → A) : calmly (sget f).
Proof. by intros s. Qed.
Lemma calm_bind {A B} (m : SB W A) (f : A → SB W B) : calmly m → (∀ a, calmly (f a)) → calmly (sbind m f).
Proof.
  intros Hm Hf s. specialize (Hm s). unfold sbind. destruct (m s) as [[e|a] s1]; [done|].
  etransitivity; [exact Hm|apply Hf].
Qed.
Lemma calm_read {A} (f : super W → res A) : calmly (λ s, (f s, s)).
Proof. by intros s. Qed.
Lemma calm_update f : (∀ s, su_mount (f s) = su_mount s) → (∀ s, rest s (f s)) → calmly (supdate f).
Proof. intros Hm Hf s. split; [|apply Hf]. cbn. by rewrite Hm. Qed.
Lemma calm_mount f : (∀ m, RM m (f m)) → calmly (supdate_mount f).
Proof. intros Hf s. split; [apply Hf|by split]. Qed.
Lemma calm_smount {A} (f : W → mount_fs → res (A * mount_fs)) :
  (∀ w m a m', f w m = inr (a, m') → RM m m') → calmly (smount f).
Proof.
  intros Hf s. unfold smount. destruct (f _ _) as [e|[a m']] eqn:E; [done|]. split; [by apply Hf in E|by split].
Qed.
Lemma calm_lift {A} (m : U W A) : ufixed m → calmly (slift m).
Proof.
  intros Hm s. destruct (ufixed_step m (synced s) Hm) as (H1 & H2 & H3 & H4). unfold slift.
  destruct (m (synced s)) as [r ws]. by repeat split.
Qed.
End calm.
Lemma calm_weaken RM {A} (m : SB W A) : PreOrder RM → calmly eq m → calmly RM m.
Proof. intros HR H s. destruct (H s) as [Hm Hr]. split; [by rewrite Hm|done]. Qed.
End fill.
Create HintDb fixed.
#[export] Hint Resolve ufixed_ret ufixed_ukmalloc ufixed_want_write ufixed_workdir_create ufixed_d_type ufixed_tmpfile
  ufixed_rename_whiteout ufixed_setxattr ufixed_removexattr ufixed_volatile_dirty ufixed_origin_xattr ufixed_verify
  ufixed_indexdir_cleanup ufixed_new_inode ufixed_impuredir ufixed_inode_init : fixed.
#[export] Hint Extern 1 (ufixed _ (update_oinode _ _)) => (apply ufixed_update_oinode; done) : fixed.
#[export] Hint Extern 2 (ufixed _ (ubind _ _)) => (apply ufixed_bind; [|intros ?]) : fixed.

Create HintDb calm.
Ltac calm_step :=
  match goal with
  | |- forall _, _ => intros ?
  | |- PreOrder _ => tc_solve
  | |- calmly _ _ (sbind _ _) => apply calm_bind
  | |- calmly _ _ (sret _) => apply calm_ret
  | |- calmly _ _ (sfail _) => apply calm_fail
  | |- calmly _ _ (sget _) => apply calm_get
  | |- calmly _ _ (sread _) => apply calm_get
  | |- calmly _ _ (slift _) => apply calm_lift; [tc_solve|solve [eauto with fixed]]
  | |- calmly _ _ (scheck _) => unfold scheck
  | |- calmly _ _ (snonneg _) => unfold snonneg
  | |- calmly _ _ (supdate_ws _) => unfold supdate_ws
  | |- calmly _ _ (supdate_fs _) => unfold supdate_fs
  | |- calmly _ _ (supdate _) => apply calm_update; [tc_solve|done|intros ?; split; solve [done|split; done]]
  | |- calmly _ _ (λ s, (_, s)) => apply calm_read
  | |- calmly _ _ (match ?x with _ => _ end) => destruct x
  | |- calmly _ _ _ => solve [eauto with calm]
  end.
Ltac calm_auto := repeat calm_step.

(** ** The marks *)

Section marks.
Context {W : Type} {K : Vfs W} {VS : VfsStat W} {VW : VfsWrite W} {R : RbLib} {L : MountLib W} {SL : SuperLib W} {PA : ParserLib}.
Context (Held : Z → Prop) {HL : UpperLaws K VS VW anywhere (held_same Held)} {PL : PathLaws L Held} {ML : MountLaws L}.
Context (M0 : gset Z).
Implicit Types s : super W.
#[local] Abbreviation calm := (calmly Held).
#[local] Abbreviation moves := (moves Held).

Definition key_of s (d : Z) : Z := inode_addr (ws_world (su_ws s)) d.
(** The directories that this mount has marked. *)
Definition taken s : gset Z :=
  (if su_upperdir_locked s then {[key_of s (default 0 (mf_upper (su_mount s)))]} else ∅) ∪
  (if su_workdir_locked s then {[key_of s (default 0 (su_workbasedir s))]} else ∅).
(** [M0]: the marks of the others. *)
Record claim s : Prop := Claim {
  cl_marks : mf_inuse (su_mount s) = M0 ∪ taken s;
  cl_new : taken s ## M0;
  cl_upper : su_upperdir_locked s = true → ∃ u, mf_upper (su_mount s) = Some u ∧ Held u;
  cl_work : su_workdir_locked s = true → ∃ b, su_workbasedir s = Some b ∧ Held b
}.

Lemma taken_moves s s' : claim s → moves mount_le s s' → taken s' = taken s.
Proof.
  intros [_ _ Hu Hw] [[] []]. unfold taken. rewrite le_upper0, re_upper_locked0, re_work_locked0, re_base0. f_equal.
  - destruct (su_upperdir_locked s); [|done]. destruct Hu as (u & -> & Hu); [done|]. cbn. unfold key_of. by rewrite re_held0.
  - destruct (su_workdir_locked s); [|done]. destruct Hw as (b & -> & Hb); [done|]. cbn. unfold key_of. by rewrite re_held0.
Qed.
Lemma claim_moves s s' : claim s → moves mount_le s s' → claim s'.
Proof.
  intros Hc Hm. pose proof (taken_moves _ _ Hc Hm) as Ht. destruct Hc as [H1 H2 H3 H4], Hm as [[] []].
  split; rewrite ?Ht, ?le_inuse0, ?le_upper0, ?re_upper_locked0, ?re_work_locked0, ?re_base0; done.
Qed.
(** [ovl_free_fs] gives back what was taken, whoever else marks directories. *)
Lemma free_marks s :
  (su_upperdir_locked s = true → mf_upper (su_mount s) ≠ None) → (su_workdir_locked s = true → su_workbasedir s ≠ None) →
  mf_inuse (su_mount (snd (ovl_free_fs s))) = mf_inuse (su_mount s) ∖ taken s.
Proof.
  intros Hu Hw. unfold ovl_free_fs, taken, key_of. cbn.
  destruct (su_workdir_locked s), (su_upperdir_locked s); cbn;
    try (destruct (mf_upper (su_mount s)) as [u|]; [|by destruct Hu]); try (destruct (su_workbasedir s) as [b|]; [|by destruct Hw]);
    cbn; set_solver.
Qed.

(** ** Triples *)

(** A function that fails has taken no more than what is given back. *)
Definition triple {A} (P : super W → Prop) (m : SB W A) (Q : A → super W → Prop) : Prop :=
  ∀ s, P s → match fst (m s) with inl _ => claim (snd (m s)) | inr a => Q a (snd (m s)) end.
Lemma triple_ret {A} (P : super W → Prop) (a : A) (Q : A → super W → Prop) : (∀ s, P s → Q a s) → triple P (sret a) Q.
Proof. intros H s Hs. by apply H. Qed.
Lemma triple_fail {A} (P : super W → Prop) e (Q : A → super W → Prop) : (∀ s, P s → claim s) → triple P (sfail e) Q.
Proof. intros H s Hs. by apply H. Qed.
Lemma triple_bind {A B} P (m : SB W A) (f : A → SB W B) Q Q' :
  triple P m Q → (∀ a, triple (Q a) (f a) Q') → triple P (sbind m f) Q'.
Proof.
  intros Hm Hf s Hs. specialize (Hm s Hs). unfold sbind. destruct (m s) as [[e|a] s1]; [done|]. by apply Hf.
Qed.
Lemma triple_pre {A} (P P' : super W → Prop) (m : SB W A) Q : triple P m Q → (∀ s, P' s → P s) → triple P' m Q.
Proof. intros Hm HP s Hs. by apply Hm, HP. Qed.
Lemma triple_post {A} P (m : SB W A) (Q Q' : A → super W → Prop) : triple P m Q → (∀ a s, Q a s → Q' a s) → triple P m Q'.
Proof. intros Hm HQ s Hs. specialize (Hm s Hs). destruct (fst _); auto. Qed.
Lemma triple_assoc {A B C} P (m : SB W A) (f : A → SB W B) (k : SB W C) Q :
  triple P (sbind (sbind m f) (λ _, k)) Q → triple P (sbind m (λ a, sbind (f a) (λ _, k))) Q.
Proof. intros H s Hs. specialize (H s Hs). revert H. unfold sbind. by destruct (m s) as [[e|a] s1]. Qed.
(** The value read is known. *)
Lemma triple_get {A B} P (g : super W → A) (f : A → SB W B) Q :
  (∀ a, triple (λ s, P s ∧ g s = a) (f a) Q) → triple P (sbind (sget g) f) Q.
Proof. intros H s Hs. by apply (H (g s) s). Qed.
Lemma triple_update P g Q : (∀ s, P s → Q tt (g s)) → triple P (supdate g) Q.
Proof. intros H s Hs. by apply H. Qed.
Lemma triple_calm RM {A} P (m : SB W A) :
  calm RM m → (∀ m m', RM m m' → mount_le m m') → (∀ s, P s → claim s) → (∀ s s', P s → moves RM s s' → P s') →
  triple P m (λ _, P).
Proof.
  intros Hm HR HP Hst s Hs. specialize (Hm s). destruct (fst _); [|by eapply Hst].
  eapply claim_moves; [by apply HP|]. destruct Hm. split; [by apply HR|done].
Qed.
End marks.

(** ** The functions of super.c *)

(** As [mount_le], and the configuration stays. *)
Definition mount_traps (m m' : mount_fs) : Prop := mount_le m m' ∧ mf_config m' = mf_config m.
#[export] Instance mount_traps_preorder : PreOrder mount_traps.
Proof. split; [by intros m|]. intros m1 m2 m3 [] []. split; [by etransitivity|congruence]. Qed.
Lemma le_config f m : (c_index (f (mf_config m)) = true → c_index (mf_config m) = true) → c_upperdir (f (mf_config m)) = c_upperdir (mf_config m) →
  mount_le m (on_mf_config f m).
Proof. by split. Qed.
Ltac le_config := apply le_config; repeat case_match; done.

Section calls.
Context {W : Type} {K : Vfs W} {VS : VfsStat W} {VW : VfsWrite W} {R : RbLib} {L : MountLib W} {SL : SuperLib W} {PA : ParserLib}.
Context (Held : Z → Prop) {HL : UpperLaws K VS VW anywhere (held_same Held)} {PL : PathLaws L Held} {ML : MountLaws L}.
Implicit Types s : super W.
#[local] Abbreviation calm := (calmly Held).

Lemma calm_skmalloc RM : PreOrder RM → calm RM skmalloc.
Proof. intros HR. unfold skmalloc. calm_auto. Qed.
#[local] Hint Resolve calm_skmalloc : calm.
Lemma calm_mount_dir RM n : PreOrder RM → calm RM (ovl_mount_dir n).
Proof. intros HR. unfold ovl_mount_dir. calm_auto. Qed.
Lemma traps_trap d m m' w : ovl_setup_trap w d m = inr m' → mount_traps m m'.
Proof. intros H. apply setup_trap_inr in H as [_ ->]. by split. Qed.
Lemma calm_setup_trap d : calm mount_traps (setup_trap d).
Proof.
  apply calm_smount; [tc_solve|]. intros w m a m' H. apply rbind_inr in H as (m1 & H & [= <- <-]). by eapply traps_trap.
Qed.
Lemma calm_le {A} (m : SB W A) : calm mount_traps m → calm mount_le m.
Proof. intros H s. destruct (H s) as [[Hm _] Hr]. by split. Qed.
Lemma calm_namelen p : calm mount_le (smount (λ w m, let+ m := ovl_check_namelen w p m in inr (tt, m))).
Proof.
  apply calm_smount; [tc_solve|]. intros w m a m' H. apply rbind_inr in H as (m1 & H & [= <- <-]).
  unfold ovl_check_namelen in H. by apply rbind_inr in H as (n & _ & [= <-]).
Qed.
Lemma calm_report RM : PreOrder RM → calm RM report_in_use.
Proof. intros HR. unfold report_in_use. calm_auto. Qed.
#[local] Hint Resolve calm_setup_trap calm_namelen calm_report : calm.
Lemma calm_config f :
  (∀ c, (c_index (f c) = true → c_index c = true) ∧ c_upperdir (f c) = c_upperdir c) → calm mount_le (on_config_of f).
Proof. intros Hf. apply calm_mount. intros m. apply le_config; apply Hf. Qed.
#[local] Hint Extern 2 (calmly _ mount_le (on_config_of _)) => (apply calm_config; intros c; repeat case_match; cbn; done) : calm.
#[local] Hint Extern 2 (calmly _ mount_le (supdate_mount _)) => (apply calm_mount; intros m; split; done) : calm.
#[local] Hint Extern 1 (ufixed _ (ulift (ovl_setxattr _ _ _))) => apply ufixed_setxattr : fixed.
Lemma calm_xattrs d : calm mount_le (check_xattrs d).
Proof. unfold check_xattrs. calm_auto. Qed.
Lemma calm_handles d : calm mount_le (check_handles d).
Proof. unfold check_handles. calm_auto. Qed.
#[local] Hint Resolve calm_xattrs calm_handles : calm.

Lemma calm_probe_workdir p base d : calm mount_le (probe_workdir p base d).
Proof. unfold probe_workdir. calm_auto; apply calm_le, calm_setup_trap. Qed.
Lemma calm_probe_indexdir u d : calm mount_traps (probe_indexdir u d).
Proof. unfold probe_indexdir. calm_auto. Qed.
#[local] Hint Extern 1 (calmly _ mount_le (setup_trap _)) => apply calm_le, calm_setup_trap : calm.
End calls.
#[export] Hint Resolve calm_skmalloc calm_mount_dir calm_setup_trap calm_namelen calm_report calm_xattrs calm_handles
  calm_probe_workdir calm_probe_indexdir : calm.
#[export] Hint Extern 2 (calmly _ mount_le (on_config_of _)) => (apply calm_config; intros c; repeat case_match; cbn; done) : calm.
#[export] Hint Extern 2 (calmly _ mount_le (supdate_mount _)) => (apply calm_mount; intros m; split; done) : calm.
#[export] Hint Extern 1 (calmly _ mount_le (setup_trap _)) => apply calm_le, calm_setup_trap : calm.
#[export] Hint Extern 0 (PreOrder _) => tc_solve : calm.
#[export] Hint Extern 0 (UpperLaws _ _ _ _ _) => tc_solve : calm.
