(* ===== verification/OvlMounted.v ===== *)
(** * A mounted overlay (super.c)

    What [ovl_fill_super] promises: a mount that fails leaves no directory
    marked as in use, one that is unmounted gives back exactly the marks that
    it took, and a mount that succeeds is a well-formed overlay. *)
From S2P Require Import Prelude CString OS OvlOptions OvlVfs OvlHandle OvlLookup OvlLayers OvlStack OvlIno OvlReaddir OvlDirFile OvlWrite OvlTemp OvlInode OvlCopyUp OvlCreate OvlWorkdir OvlSuper OvlSpare OvlFill.
Open Scope Z_scope.

Section mounting.
Context {W : Type} {K : Vfs W} {VS : VfsStat W} {VW : VfsWrite W} {R : RbLib} {L : MountLib W} {SL : SuperLib W} {PA : ParserLib}.
Context (Held : Z → Prop) {HL : UpperLaws K VS VW anywhere (held_same Held)} {PL : PathLaws L Held} {ML : MountLaws L}.
Implicit Types s : super W.
#[local] Abbreviation calm := (calmly Held).

(** ** The mount, step by step *)

Context (M0 : gset Z) (updir : option cstr).
#[local] Abbreviation moves := (moves Held).
#[local] Abbreviation claim := (claim Held M0).
#[local] Abbreviation triple := (triple Held M0).

Record common s : Prop := Common {
  co_claim : claim s;
  co_export : su_export s = false;
  co_stacks d : lowerstack d (ws_ovl (su_ws s)) = [];
  co_updir : c_upperdir (mf_config (su_mount s)) = updir
}.
(** With the index, both directories are this mount's alone. *)
Definition exclusive s : Prop :=
  c_index (mf_config (su_mount s)) = true → mf_upper (su_mount s) ≠ None →
  su_upperdir_locked s = true ∧ su_workdir_locked s = true.
(** Without a work directory nothing is written. *)
Definition read_only s : Prop := ws_workdir (su_ws s) = None → su_rdonly s = true.
Definition unindexed s : Prop := mf_layers (su_mount s) = [] ∧ ofs_indexdir (vs_fs (ws_ovl (su_ws s))) = None.

(** Nothing has been taken yet. *)
Record bare (u : option Z) s : Prop := Bare {
  ba_common : common s; ba_unindexed : unindexed s;
  ba_upper : mf_upper (su_mount s) = u;
  ba_upper_locked : su_upperdir_locked s = false; ba_work_locked : su_workdir_locked s = false;
  ba_workdir : ws_workdir (su_ws s) = None
}.
(** The upper directory has. *)
Record uppered u s : Prop := Uppered {
  up_common : common s; up_unindexed : unindexed s;
  up_upper : mf_upper (su_mount s) = Some u;
  up_marked : c_index (mf_config (su_mount s)) = true → su_upperdir_locked s = true;
  up_work_locked : su_workdir_locked s = false;
  up_no_workdir : ws_workdir (su_ws s) = None
}.
(** The work directory has. *)
Record worked s : Prop := Worked {
  wk_common : common s; wk_unindexed : unindexed s;
  wk_upper : mf_upper (su_mount s) ≠ None; wk_exclusive : exclusive s
}.
(** The lower layers are next. *)
Record prepared s : Prop := Prepared {
  pr_common : common s; pr_unindexed : unindexed s;
  pr_upper : is_none (mf_upper (su_mount s)) = is_none updir; pr_exclusive : exclusive s;
  pr_rdonly : mf_upper (su_mount s) ≠ None → read_only s;
  pr_workdir : mf_upper (su_mount s) = None → ws_workdir (su_ws s) = None
}.

Lemma common_moves s s' : common s → moves mount_le s s' → common s'.
Proof.
  intros [H1 H2 H3 H4] Hm. pose proof Hm as [[] []]. split; [by eapply claim_moves|congruence| |congruence].
  intros d. destruct re_objects as [_ Hs]. by rewrite Hs.
Qed.
Lemma exclusive_moves s s' : exclusive s → moves mount_le s s' → exclusive s'.
Proof. unfold exclusive. intros He [[] []] Hi Hu. rewrite re_upper_locked, re_work_locked. apply He; [auto|congruence]. Qed.
Lemma read_only_moves s s' : read_only s → moves mount_le s s' → read_only s'.
Proof. unfold read_only. intros Hr [_ []]. by rewrite re_workdir, re_rdonly. Qed.
Lemma unindexed_moves s s' : unindexed s → moves mount_le s s' → unindexed s'.
Proof. intros [H1 H2] [[] []]. destruct re_objects as [Hi _]. split; congruence. Qed.
Create HintDb moves.
#[local] Hint Resolve common_moves exclusive_moves read_only_moves unindexed_moves : moves.
Ltac moved := intros [] Hm; pose proof Hm as [[] []]; split; eauto with moves; try congruence; auto.
Lemma bare_moves u s s' : bare u s → moves mount_le s s' → bare u s'.
Proof. moved. Qed.
Lemma uppered_moves u s s' : uppered u s → moves mount_le s s' → uppered u s'.
Proof. moved. Qed.
Lemma worked_moves s s' : worked s → moves mount_le s s' → worked s'.
Proof. moved. Qed.
Lemma prepared_moves s s' : prepared s → moves mount_le s s' → prepared s'.
Proof. moved. intros Hu. eapply read_only_moves; [apply pr_rdonly0; congruence|done]. intros Hu. rewrite re_workdir. apply pr_workdir0. congruence. Qed.

(** A calm step of a phase. *)
Lemma step {A} (P : super W → Prop) (m : SB W A) :
  calm mount_le m → (∀ s, P s → common s) → (∀ s s', P s → moves mount_le s s' → P s') → triple P m (λ _, P).
Proof. intros Hm HP Hs. eapply triple_calm; [exact Hm|done| |exact Hs]. intros s Hp. by apply HP. Qed.
Lemma step_bare {A} u (m : SB W A) : calm mount_le m → triple (bare u) m (λ _, bare u).
Proof. intros Hm. apply step; [done|by intros s []|apply bare_moves]. Qed.
Lemma step_uppered {A} u (m : SB W A) : calm mount_le m → triple (uppered u) m (λ _, uppered u).
Proof. intros Hm. apply step; [done|by intros s []|apply uppered_moves]. Qed.
Lemma step_worked {A} (m : SB W A) : calm mount_le m → triple worked m (λ _, worked).
Proof. intros Hm. apply step; [done|by intros s []|apply worked_moves]. Qed.
Lemma step_prepared {A} (m : SB W A) : calm mount_le m → triple prepared m (λ _, prepared).
Proof. intros Hm. apply step; [done|by intros s []|apply prepared_moves]. Qed.

(** The directory of a path is held. *)
Lemma mount_dir_held (P : super W → Prop) n :
  (∀ m, calm mount_le m → triple P m (λ _ : path, P)) → triple P (ovl_mount_dir n) (λ p s, P s ∧ Held (pa_dentry p)).
Proof.
  intros HP s Hs. pose proof (HP _ (calm_mount_dir Held mount_le n _) s Hs) as H.
  assert (Hh : match fst (ovl_mount_dir n s) with inr p => Held (pa_dentry p) | inl _ => True end).
  { unfold ovl_mount_dir, sbind at 1. destruct (skmalloc s) as [[e|[]] s1]; [done|]. unfold sbind at 1.
    destruct (ovl_mount_dir_noesc _ _) as [e|p] eqn:E; [done|]. unfold sbind, sread, sget. destruct (_ && _); [done|].
    unfold ovl_mount_dir_noesc in E. destruct (negb _); [done|]. apply rbind_inr in E as (q & Hq & E).
    destruct (ovl_dentry_weird _); [done|]. destruct (is_idmapped_mnt _ _); [done|]. destruct (negb _); [done|].
    injection E as ->. by eapply held_path. }
  destruct (fst (ovl_mount_dir n s)); [done|by split].
Qed.

Lemma triple_step {A B} (P : super W → Prop) (m : SB W A) (f : A → SB W B) Q :
  triple P m (λ _, P) → (∀ a, triple P (f a) Q) → triple P (sbind m f) Q.
Proof. apply triple_bind. Qed.

(** Taking the upper directory. *)
Lemma set_upper u : triple (bare None) (supdate_mount (set_mf_upper (Some u))) (λ _, bare (Some u)).
Proof.
  intros s [[[H1 H2 H3 H4] Hx Hs Hd] Hi Hu Hul Hwl Hw]. cbn. split; cbn; [|done..].
  split; cbn; [|done..]. unfold taken, key_of in *. rewrite Hul, Hwl in *.
  split; unfold taken, key_of; cbn; rewrite ?Hul, ?Hwl; done.
Qed.
Lemma take_upper u : Held u → triple (bare (Some u))
  (let^ locked := trylock u in if locked : bool then supdate (set_su_upperdir_locked true) else report_in_use)
  (λ _, uppered u).
Proof.
  intros Hu s [[Hc Hx Hs Hd] Hi Hup Hul Hwl Hw]. unfold trylock, smount, sbind, ovl_inuse_trylock, ovl_is_inuse.
  case_bool_decide as Hin.
  - (* it is in use *)
    cbn. unfold ovl_report_in_use, set_su_mount. destruct s as [m]. cbn in *. destruct (c_index _) eqn:Ei; cbn; [done|].
    split; cbn; [done..|by rewrite Ei|done|done].
  - destruct Hc as [H1 H2 H3 H4]. unfold taken in *. rewrite Hul, Hwl in *. cbn in *. split; cbn; [|done..].
    split; cbn; [|done..]. split; unfold taken, key_of in *; cbn in *; rewrite ?Hwl, ?Hup; cbn.
    + rewrite H1. set_solver.
    + rewrite H1 in Hin. set_solver.
    + intros _. by exists u.
    + done.
Qed.

Lemma triple_fact {A} (P : super W → Prop) (Φ : Prop) (m : SB W A) Q : (Φ → triple P m Q) → triple (λ s, P s ∧ Φ) m Q.
Proof. intros H s [Hs Hf]. by apply H. Qed.
Lemma get_upper n : triple (bare None) (ovl_get_upper n) (λ p s, uppered (pa_dentry p) s ∧ Held (pa_dentry p)).
Proof.
  unfold ovl_get_upper. eapply triple_bind; [apply (mount_dir_held (bare None)), step_bare|]. intros p. apply triple_fact.
  intros Hp. apply triple_step; [apply step_bare; calm_auto|]. intros readonly. destruct readonly.
  { apply triple_fail. by intros s [[]]. }
  do 2 (apply triple_step; [apply step_bare; calm_auto|]; intros ?).
  eapply triple_bind with (Q := λ u s, bare None s ∧ u = pa_dentry p).
  { intros s Hs. cbn. destruct (clone_private_mount _ _) eqn:E; [by apply Hs|]. split; [done|]. by eapply clone_root. }
  intros u. apply triple_fact. intros ->. eapply triple_bind; [apply set_upper|]. intros ?.
  do 2 (apply triple_step; [apply step_bare; calm_auto|]; intros ?).
  apply triple_assoc.
  eapply triple_bind; [by apply take_upper|]. intros ?. by apply triple_ret.
Qed.

(** Taking the work directory. *)
Lemma take_work u d : Held d → triple (λ s, uppered u s ∧ su_workbasedir s = Some d)
  (let^ locked := trylock d in if locked : bool then supdate (set_su_workdir_locked true) else report_in_use)
  (λ _, worked).
Proof.
  intros Hh s [[[Hc Hx Hs Hd] Hi Hup Hm Hwl Hw] Hb]. unfold trylock, smount, sbind, ovl_inuse_trylock, ovl_is_inuse.
  case_bool_decide as Hin.
  - cbn. unfold ovl_report_in_use, set_su_mount. destruct s as [m]. cbn in *. destruct (c_index _) eqn:Ei; cbn; [done|].
    split; cbn; [done..|congruence|]. by intros ?%(eq_trans (eq_sym Ei)).
  - destruct Hc as [H1 H2 H3 H4]. unfold taken, key_of in *. rewrite Hwl in *. cbn in *. split; cbn; [|done|congruence|].
    + split; cbn; [|done..]. split; unfold taken, key_of in *; cbn in *; rewrite ?Hb; cbn; [| |done|].
      * rewrite H1. set_solver.
      * rewrite H1 in Hin. set_solver.
      * intros _. by exists d.
    + intros Hx' _. split; [by apply Hm|done].
Qed.
Lemma get_workdir n u : triple (uppered (pa_dentry u)) (ovl_get_workdir n u) (λ _, worked).
Proof.
  unfold ovl_get_workdir. eapply triple_bind; [apply (mount_dir_held (uppered _)), step_uppered|]. intros p. apply triple_fact.
  intros Hp. apply triple_step; [apply step_uppered; calm_auto|]. intros ok. destruct (_ || _).
  { apply triple_fail. by intros s [[]]. }
  eapply triple_bind with (Q := λ _ s, uppered (pa_dentry u) s ∧ su_workbasedir s = Some (pa_dentry p)).
  { intros s [[Hc Hx Hs Hd] Hi Hup Hm Hwl Hw]. cbn. split; [|done]. split; cbn; [|done..]. split; cbn; [|done..].
    destruct Hc as [H1 H2 H3 H4]. unfold taken, key_of in *. rewrite Hwl in *. split; unfold taken, key_of; cbn; rewrite ?Hwl; done. }
  intros ?. apply triple_assoc. eapply triple_bind; [by apply take_work|]. intros ?.
  apply triple_step; [apply step_worked; calm_auto|]. intros ?. unfold ovl_make_workdir.
  do 3 (apply triple_step; [apply step_worked; calm_auto|]; intros ?).
  case_match; [|by apply triple_ret]. apply triple_step; [|intros ?; apply step_worked; calm_auto].
  intros s [[[H1 H2 H3 H4] Hx Hs Hd] Hi Hup Hm]. cbn. split; cbn; [|done..]. split; cbn; [|done..]. by split.
Qed.

Lemma fill_upper_prepared config : updir = c_upperdir config →
  triple (bare None) (fill_upper_dir config) (λ _, prepared).
Proof.
  intros Hup. unfold fill_upper_dir. destruct (c_upperdir config) as [upperdir|].
  2:{ apply triple_ret. intros s []. split; try done. by rewrite ba_upper0, Hup. }
  destruct (c_workdir config) as [workdir|]; [|apply triple_fail; by intros s [[]]].
  eapply triple_bind; [apply get_upper|]. intros p. apply triple_fact. intros Hp.
  do 2 (apply triple_step; [apply step_uppered; calm_auto|]; intros ?).
  eapply triple_bind; [apply get_workdir|]. intros ?.
  eapply triple_get. intros made. apply (triple_bind _ _ _ _ _ (λ _, prepared)).
  - destruct made as [wd|]; cbn [is_none].
    + apply triple_ret. intros s [[Hc Hi Hu He] Hw]. split; try done; [by rewrite Hup; destruct (mf_upper _)|intros _ ?; congruence].
    + apply triple_update. intros s [[Hc Hi Hu He] Hw]. destruct Hc as [[H1 H2 H3 H4] Hx Hs Hd].
      split; cbn; [|done|by rewrite Hup; destruct (mf_upper _)|done|by intros _ ?|done]. split; cbn; [|done..]. by split.
  - intros ?. do 2 (apply triple_step; [apply step_prepared; calm_auto|]; intros ?). by apply triple_ret.
Qed.

(** ** The lower layers *)

(** The root's stack, and the layers. *)
Definition stack_fits (oe : list ovl_path) (m : mount_fs) : Prop :=
  all_layers oe ∧ length oe = length (mf_layers m) ∧ ∀ i l, mf_layers m !! i = Some l → ml_idx l = Z.of_nat (S i).
Record lowered oe s : Prop := Lowered {
  lw_common : common s; lw_layers : stack_fits oe (su_mount s); lw_exclusive : exclusive s;
  lw_rdonly : read_only s; lw_upper : mf_upper (su_mount s) = None → su_rdonly s = true;
  lw_indexdir : ofs_indexdir (vs_fs (ws_ovl (su_ws s))) = None
}.
(** The index directory may be there. *)
Record indexed oe s : Prop := Indexed {
  ix_common : common s; ix_layers : stack_fits oe (su_mount s); ix_exclusive : exclusive s;
  ix_rdonly : read_only s; ix_upper : mf_upper (su_mount s) = None → su_rdonly s = true;
  ix_indexdir i : ofs_indexdir (vs_fs (ws_ovl (su_ws s))) = Some i →
    ws_workdir (su_ws s) = Some i ∧ c_index (mf_config (su_mount s)) = true ∧ mf_upper (su_mount s) ≠ None
}.
Lemma stack_fits_moves oe s s' : stack_fits oe (su_mount s) → moves mount_le s s' → stack_fits oe (su_mount s').
Proof. unfold stack_fits. intros H [[] _]. by rewrite le_layers. Qed.
#[local] Hint Resolve stack_fits_moves : moves.
Lemma lowered_moves oe s s' : lowered oe s → moves mount_le s s' → lowered oe s'.
Proof.
  intros [] Hm. pose proof Hm as [[] []].
  split; [by eapply common_moves|by eapply stack_fits_moves|by eapply exclusive_moves|by eapply read_only_moves|rewrite re_rdonly, le_upper; auto|].
  destruct re_objects. congruence.
Qed.
Lemma traps_le s s' : moves mount_traps s s' → moves mount_le s s'.
Proof. by intros [[] ?]. Qed.
Lemma indexed_moves oe s s' : indexed oe s → moves mount_traps s s' → indexed oe s'.
Proof.
  intros [] Hm. pose proof (traps_le _ _ Hm) as Hl. destruct Hm as [[[] Hc] []]. split; [by eapply common_moves|by eapply stack_fits_moves|by eapply exclusive_moves|by eapply read_only_moves|rewrite re_rdonly, le_upper; auto|].
  intros i Hi. destruct re_objects as [Ho _]. rewrite re_workdir, Hc, le_upper. apply ix_indexdir0. congruence.
Qed.
Lemma step_lowered {A} oe (m : SB W A) : calm mount_le m → triple (lowered oe) m (λ _, lowered oe).
Proof. intros Hm. apply step; [done|by intros s []|apply lowered_moves]. Qed.
Lemma step_indexed {A} oe (m : SB W A) : calm mount_traps m → triple (indexed oe) m (λ _, indexed oe).
Proof. intros Hm. eapply triple_calm; [exact Hm|by intros m1 m2 []|by intros s [[]]|apply indexed_moves]. Qed.

Lemma fill_lower_lowered lower : triple prepared (fill_lower lower) lowered.
Proof.
  intros s [[Hc Hx Hs Hd] [Hl Hi] Hu He Hr Hw]. unfold fill_lower, sbind, smount.
  destruct (ovl_get_lowerstack _ _ _) as [e|[oe m']] eqn:E; [done|].
  assert (Hb : before_layers (su_mount s)) by (split; [done|by rewrite Hd]).
  destruct (lowerstack_layers _ _ _ _ _ Hb E) as (Hlen & Hn & Hall & Hidx).
  destruct (lowerstack_keeps _ _ _ _ _ Hb E) as (Hinuse & Hup & Hlose).
  assert (Hcl : claim (set_su_mount m' s)).
  { destruct Hc as [H1 H2 H3 H4]. unfold taken, key_of in *. split; unfold taken, key_of; cbn; rewrite ?Hup, ?Hinuse; done. }
  assert (Hco : common (set_su_mount m' s)) by (split; [done..|cbn; by rewrite (ls_upper _ _ Hlose)]).
  assert (Hst : stack_fits oe m') by (split; [done|split; [by rewrite Hlen, Hn|done]]).
  assert (Hex : exclusive (set_su_mount m' s)).
  { intros Hi' Hu'. cbn in *. apply He; [by apply (ls_index _ _ Hlose)|by rewrite <-Hup]. }
  cbn. rewrite Hup. destruct (mf_upper (su_mount s)) as [u|] eqn:Eu; cbn.
  - split; try done; [by apply Hr|]. cbn. by rewrite Hup.
  - destruct Hcl as [H1 H2 H3 H4], Hco as [_ Hx' Hs' Hd']. split; cbn; [|done|done|by intros ?|done|done].
    split; cbn; [|done..]. by split.
Qed.

(** ** The index *)

(** The work directory is given up for the index directory. *)
Record cleared oe s : Prop := Cleared {
  cr_common : common s; cr_layers : stack_fits oe (su_mount s); cr_exclusive : exclusive s;
  cr_upper : mf_upper (su_mount s) ≠ None; cr_index : c_index (mf_config (su_mount s)) = true;
  cr_indexdir : ofs_indexdir (vs_fs (ws_ovl (su_ws s))) = None
}.
Lemma cleared_moves oe s s' : cleared oe s → moves mount_traps s s' → cleared oe s'.
Proof.
  intros [] Hm. pose proof (traps_le _ _ Hm) as Hl. destruct Hm as [[[] Hc] []]. destruct re_objects as [Ho _].
  split; [by eapply common_moves|by eapply stack_fits_moves|by eapply exclusive_moves|congruence..].
Qed.
Lemma step_cleared {A} oe (m : SB W A) : calm mount_traps m → triple (cleared oe) m (λ _, cleared oe).
Proof. intros Hm. eapply triple_calm; [exact Hm|by intros m1 m2 []|by intros s [[]]|apply cleared_moves]. Qed.

Lemma get_indexdir oe lower upper : triple (cleared oe) (ovl_get_indexdir lower upper)
  (λ _ s, cleared oe s ∨ indexed oe s ∧ ofs_indexdir (vs_fs (ws_ovl (su_ws s))) ≠ None).
Proof.
  unfold ovl_get_indexdir. do 4 (apply triple_step; [apply step_cleared; calm_auto|]; intros ?).
  apply triple_step; [apply step_cleared, calm_mount; intros m; by split|]. intros ?.
  apply triple_step; [apply step_cleared; calm_auto|]. intros ?. apply triple_step.
  { apply triple_update. intros s [[[H1 H2 H3 H4] Hx Hs Hd] Hl He Hu Hi Hdir]. split; cbn; [|done..]. split; cbn; [|done..]. by split. }
  intros ?. apply triple_step; [apply step_cleared; calm_auto|]. intros indexdir.
  destruct indexdir as [d|]; [|apply triple_ret; by left].
  eapply triple_bind with (Q := λ _ s, ∃ s0, cleared oe s0 ∧ s = snd (supdate_fs (set_ofs_indexdir (Some d)) s0)).
  { apply triple_update. intros s Hs. by exists s. }
  intros ?. eapply triple_bind with (Q := λ _ s, indexed oe s ∧ ofs_indexdir (vs_fs (ws_ovl (su_ws s))) ≠ None).
  { apply triple_update. intros ? (s & [[[H1 H2 H3 H4] Hx Hs Hd] Hl He Hu Hi Hdir] & ->). cbn. split; [|done].
    split; cbn; [|done|done|done|done|by intros i [= <-]]. split; cbn; [|done..]. by split. }
  intros ?. apply (triple_post _ _ _ _ (λ _ s, indexed oe s ∧ ofs_indexdir (vs_fs (ws_ovl (su_ws s))) ≠ None)); [|intros ? ? H; by right].
  eapply triple_calm; [apply calm_probe_indexdir; tc_solve|by intros m1 m2 []|by intros s [[[]]]|].
  intros s s' [Hs Hn] Hm. split; [by eapply indexed_moves|]. destruct Hm as [_ []]. destruct re_objects as [-> _]. done.
Qed.
Lemma fill_index_indexed upper oe : triple (lowered oe) (fill_index upper oe) (λ _, indexed oe).
Proof.
  unfold fill_index. apply triple_get. intros use. destruct use.
  2:{ apply triple_ret. intros s [[] _]. split; try done. congruence. }
  eapply triple_bind.
  { eapply triple_pre; [apply (get_indexdir oe)|]. intros s [[] [Hf Hi]%andb_prop]. split; try done.
    intros Hn. unfold ovl_force_readonly in Hf. by rewrite Hn in Hf. }
  intros ?. apply triple_get. intros indexdir. destruct indexdir as [d|]; cbn [is_none].
  - apply triple_ret. intros s [[[]|[Hs _]] Hd]; [congruence|done].
  - apply triple_update. intros s [[[[[H1 H2 H3 H4] Hx Hs Hd] Hl He Hu Hi Hdir]|[_ Hn]] Hd']; [|done].
    split; cbn; [|done|done|by intros ?|done|congruence]. split; cbn; [|done..]. by split.
Qed.

(** ** The features, and the root *)

(** [st]: the stacks of the dentries. *)
Record settled (st : Z → list ovl_path) oe s : Prop := Settled {
  sl_claim : claim s; sl_layers : stack_fits oe (su_mount s); sl_exclusive : exclusive s;
  sl_stacks d : lowerstack d (ws_ovl (su_ws s)) = st d;
  sl_rdonly : read_only s; sl_upper : mf_upper (su_mount s) = None → su_rdonly s = true;
  sl_indexdir i : ofs_indexdir (vs_fs (ws_ovl (su_ws s))) = Some i → ws_workdir (su_ws s) = Some i ∧ mf_upper (su_mount s) ≠ None;
  sl_index : c_index (mf_config (su_mount s)) = true → ofs_indexdir (vs_fs (ws_ovl (su_ws s))) ≠ None;
  sl_export : su_export s = c_nfs_export (mf_config (su_mount s));
  sl_features : c_nfs_export (mf_config (su_mount s)) = true →
    c_metacopy (mf_config (su_mount s)) = false ∧ (mf_upper (su_mount s) ≠ None → c_index (mf_config (su_mount s)) = true)
}.
Lemma eq_le s s' : moves eq s s' → moves mount_le s s'.
Proof. intros [Hm Hr]. split; [by rewrite Hm|done]. Qed.
Lemma settled_moves st oe s s' : settled st oe s → moves eq s s' → settled st oe s'.
Proof.
  intros [] Hm. pose proof (eq_le _ _ Hm) as Hl. destruct Hm as [Hm []]. destruct re_objects as [Ho Hs].
  split; [by eapply claim_moves|by eapply stack_fits_moves|by eapply exclusive_moves|intros d; by rewrite Hs|by eapply read_only_moves|..];
    rewrite <-?Hm, ?Ho, ?re_workdir, ?re_rdonly, ?re_export; done.
Qed.
Lemma step_settled {A} st oe (m : SB W A) : calm eq m → triple (settled st oe) m (λ _, settled st oe).
Proof. intros Hm. eapply triple_calm; [exact Hm|by intros m1 m2 ->|by intros s []|apply settled_moves]. Qed.

(** The configuration that is left. *)
Definition settle (indexed upper : bool) (c : ovl_config) : ovl_config :=
  let c := if indexed then c else let c := set_c_index false c in if upper && c_nfs_export c then set_c_nfs_export false c else c in
  if c_metacopy c && c_nfs_export c then set_c_nfs_export false c else c.
Lemma settle_run s :
  let c := settle (negb (is_none (ofs_indexdir (vs_fs (ws_ovl (su_ws s)))))) (negb (is_none (mf_upper (su_mount s)))) (mf_config (su_mount s)) in
  settle_config s = (inr tt, set_su_export (c_nfs_export c || su_export s) (set_su_mount (set_mf_config c (su_mount s)) s)).
Proof.
  destruct s as [[c u] ws]. destruct c. unfold settle_config, settle, sbind, sget. cbn.
  destruct (ofs_indexdir _), u, c_nfs_export, c_metacopy; reflexivity.
Qed.
Lemma settle_spec i u c :
  c_index (settle i u c) = i && c_index c ∧
  (c_nfs_export (settle i u c) = true → c_metacopy (settle i u c) = false ∧ (u = true → i = true)).
Proof. destruct c. unfold settle. destruct i, u, c_nfs_export, c_metacopy; cbn; (split; [done|]); intros; by split. Qed.
Lemma settle_settled oe : triple (indexed oe) settle_config (λ _, settled (λ _, []) oe).
Proof.
  intros s [[[H1 H2 H3 H4] Hx Hs Hd] Hl He Hr Hu Hi]. rewrite settle_run. cbn [fst snd].
  set (c := settle _ _ _). destruct (settle_spec (negb (is_none (ofs_indexdir (vs_fs (ws_ovl (su_ws s))))))
    (negb (is_none (mf_upper (su_mount s)))) (mf_config (su_mount s))) as [Hci Hcf]. fold c in Hci, Hcf.
  split; cbn; [by split|done|..|done|done|done| | | |].
  - intros Hc. cbn in *. rewrite Hci in Hc. apply andb_prop in Hc as [_ Hc]. by apply He.
  - intros i Hi'. destruct (Hi i Hi') as (Hw & _ & Hn). by split.
  - intros Hc Hn. by rewrite Hci, Hn in Hc.
  - by rewrite Hx, orb_false_r.
  - intros Hn. destruct (Hcf Hn) as [Hm Hxi]. split; [done|]. intros Hu'. rewrite Hci. apply andb_true_intro.
    destruct (ofs_indexdir _) as [i|]; [split; [done|by destruct (Hi i eq_refl) as (_ & ? & _)]|]. destruct (mf_upper _); [|done]. by specialize (Hxi eq_refl).
Qed.

Definition root_stack (root : Z) (oe : list ovl_path) (d : Z) : list ovl_path := if decide (root = d) then oe else [].
Lemma get_root u oe : triple (settled (λ _, []) oe) (ovl_get_root u oe)
  (λ r s, match r with Some root => settled (root_stack root oe) oe s | None => claim s end).
Proof.
  unfold ovl_get_root. do 2 (apply triple_step; [apply step_settled; calm_auto|]; intros ?).
  destruct a as [inode|]; [destruct a0|]; [|apply triple_ret; by intros s []..].
  do 2 (apply triple_step; [apply step_settled; calm_auto|]; intros ?).
  eapply triple_bind with (Q := λ _, settled (root_stack a oe) oe).
  { intros s [[H1 H2 H3 H4]]. cbn. split; try done. intros d. specialize (sl_stacks0 d).
    unfold root_stack, lowerstack, odentry_at in *. cbn. case_decide as Hd; [by rewrite Hd, lookup_insert_eq|by rewrite lookup_insert_ne]. }
  intros ?. apply triple_step; [apply step_settled; destruct u; calm_auto|]. intros impure.
  apply triple_step; [apply step_settled; destruct impure; calm_auto|]. intros ?. by apply triple_ret.
Qed.
End mounting.

(** ** Mounting and unmounting *)

(** An overlay whose parts fit: the objects have the layers and features of the
    mount, the root shows every layer in order, what needs a directory has
    it. *)
Record well_formed {W} (s : super W) : Prop := WellFormed {
  wf_fs : vs_fs (ws_ovl (su_ws s)) = ofs_of (su_mount s) (vs_fs (ws_ovl (su_ws s)));
  wf_layers : layers_ok (numlayer (vs_fs (ws_ovl (su_ws s))) - 1) (ws_ovl (su_ws s));
  wf_writable : su_rdonly s = false → mf_upper (su_mount s) ≠ None ∧ ws_workdir (su_ws s) ≠ None;
  wf_index : c_index (mf_config (su_mount s)) = true → ∃ i,
    ofs_indexdir (vs_fs (ws_ovl (su_ws s))) = Some i ∧ ws_workdir (su_ws s) = Some i ∧
    su_upperdir_locked s = true ∧ su_workdir_locked s = true;
  wf_export : su_export s = c_nfs_export (mf_config (su_mount s));
  wf_features : c_nfs_export (mf_config (su_mount s)) = true →
    c_metacopy (mf_config (su_mount s)) = false ∧ (mf_upper (su_mount s) ≠ None → c_index (mf_config (su_mount s)) = true)
}.

Section results.
Context {W : Type} {K : Vfs W} {VS : VfsStat W} {VW : VfsWrite W} {R : RbLib} {L : MountLib W} {SL : SuperLib W} {PA : ParserLib}.
Context (Held : Z → Prop) {HL : UpperLaws K VS VW anywhere (held_same Held)} {PL : PathLaws L Held} {ML : MountLaws L}.
Context (md : ovl_module) (mem : nat → bool) (fuel : nat) (M0 : gset Z).
Implicit Types s : super W.
#[local] Abbreviation triple := (triple Held M0).
#[local] Abbreviation claim := (claim Held M0).

Definition fresh s : Prop := ∃ updir, bare Held M0 updir None s.
Definition mounted s : Prop := ∃ root oe,
  settled Held M0 (root_stack root oe) oe s ∧ vs_root (ws_ovl (su_ws s)) = root ∧
  vs_fs (ws_ovl (su_ws s)) = ofs_of (su_mount s) (vs_fs (ws_ovl (su_ws s))).

Lemma fresh_claim s : fresh s → claim s.
Proof. by intros [u [[]]]. Qed.
Lemma step_fresh {A} (m : SB W A) : calmly Held mount_le m → triple fresh m (λ _, fresh).
Proof.
  intros Hm. eapply triple_calm; [exact Hm|done|exact fresh_claim|]. intros s s' [u Hu] Hs. exists u. by eapply bare_moves.
Qed.
Lemma set_config c : triple fresh (supdate_mount (set_mf_config c)) (λ _, bare Held M0 (c_upperdir c) None).
Proof.
  intros s [u [[[H1 H2 H3 H4] Hx Hs Hd] [Hi Hi'] Hu Hul Hwl Hw]]. cbn. split; cbn; [|by split|done..]. split; cbn; [|done..].
  unfold taken, key_of in *. rewrite Hul, Hwl in *. split; unfold taken, key_of; cbn; rewrite ?Hul, ?Hwl; done.
Qed.
Lemma calm_xino_mode : calmly Held mount_le (supdate_mount (λ m, initial_xino_mode (set_mf_stack_depth 0 m))).
Proof. apply calm_mount. intros m. unfold initial_xino_mode. case_match; by split. Qed.

Lemma fill_from_mounted data : triple fresh (fill_from md mem fuel data) (λ _, mounted).
Proof.
  unfold fill_from. apply (triple_bind _ _ _ _ _ (λ _, fresh)).
  { destruct (ovl_parse_opt _ _ _ _); [by apply triple_fail, fresh_claim|by apply triple_ret]. }
  intros config. eapply triple_bind; [apply set_config|]. intros ?.
  apply triple_step; [apply step_bare; calm_auto|]. intros ?. destruct (c_lowerdir config); [|apply triple_fail; by intros s [[]]].
  apply triple_step; [apply step_bare; calm_auto|]. intros ?. cbv zeta. destruct (_ <? _); [apply triple_fail; by intros s [[]]|].
  do 3 (apply triple_step; [apply step_bare; first [apply calm_xino_mode|by calm_auto]|]; intros ?).
  eapply triple_bind; [by apply fill_upper_prepared|]. intros up.
  eapply triple_bind; [by apply fill_lower_lowered|]. intros oe.
  do 2 (apply triple_step; [apply step_lowered; calm_auto|]; intros ?).
  eapply triple_bind; [by apply fill_index_indexed|]. intros ?.
  do 2 (apply triple_step; [apply step_indexed; calm_auto|]; intros ?).
  eapply triple_bind; [by apply settle_settled|]. intros ?.
  eapply triple_bind; [by apply get_root|]. intros [root|]; [|by apply triple_fail].
  intros s [[H1 H2 H3 H4]]. exists root, oe. cbn. by split; [split|].
Qed.

Lemma mounted_well_formed s : mounted s → well_formed s.
Proof.
  intros (root & oe & [Hc [Hall [Hlen Hidx]] He Hs Hr Hu Hd Hi Hx Hf] & Hroot & Hfs).
  assert (En : numlayer (vs_fs (ws_ovl (su_ws s))) - 1 = Z.of_nat (length oe)).
  { unfold numlayer. rewrite Hfs. cbn. rewrite length_fmap, Hlen. lia. }
  split; [done| | | |done|done].
  - rewrite En. split.
    + rewrite Hfs. cbn. apply Forall_fmap, Forall_lookup. intros i l Hl. cbn. rewrite (Hidx _ _ Hl).
      apply lookup_lt_Some in Hl. lia.
    + intros d. rewrite Hs. unfold root_stack. case_decide; [by apply all_layers_in_order|]. split; constructor.
    + rewrite Hroot, Hs. unfold root_stack. by rewrite decide_True.
  - intros Hn. split; [intros Hup; rewrite Hu in Hn; done|intros Hw; rewrite Hr in Hn; done].
  - intros Hci. specialize (Hi Hci). destruct (ofs_indexdir _) as [i|] eqn:E; [|done]. exists i.
    destruct (Hd i eq_refl) as [Hw Hup]. split; [done|]. split; [done|]. by apply He.
Qed.

Lemma new_super_fresh s : M0 = mf_inuse (su_mount s) → fresh (new_super md s).
Proof.
  intros ->. exists (c_upperdir (initial_config md)). split; cbn; [|done..]. split; cbn; [|done|done|done].
  split; unfold taken; cbn; [by rewrite !union_empty_r_L|set_solver|done|done].
Qed.
Lemma claim_free s : claim s → mf_inuse (su_mount (snd (ovl_free_fs s))) = M0.
Proof.
  intros [H1 H2 H3 H4]. rewrite (free_marks Held); [rewrite H1; set_solver| |].
  - intros Hu. by destruct (H3 Hu) as (u & -> & _).
  - intros Hw. by destruct (H4 Hw) as (b & -> & _).
Qed.
Lemma fill_super_cases data s : M0 = mf_inuse (su_mount s) →
  match ovl_fill_super md mem fuel data s with
  | (inl _, s') => mf_inuse (su_mount s') = M0
  | (inr _, s') => mounted s'
  end.
Proof.
  intros HM. unfold ovl_fill_super, sbind at 1. cbn. destruct (same_user_ns _); cbn [negb]; [|done].
  unfold sbind at 1. destruct (calm_skmalloc Held eq _ s) as [Hm _].
  destruct (skmalloc s) as [[e|[]] s1]; cbn in *; [by rewrite HM, Hm|]. unfold son_error.
  assert (H : triple fresh (skmalloc ;;^ fill_from md mem fuel data) (λ _, mounted)).
  { apply triple_step; [apply step_fresh; calm_auto|]. intros ?. apply fill_from_mounted. }
  specialize (H (new_super md s1) (new_super_fresh s1 ltac:(by rewrite HM, Hm))).
  destruct ((skmalloc ;;^ fill_from md mem fuel data) (new_super md s1)) as [[e|[]] s2]; [exact (claim_free s2 H)|exact H].
Qed.
End results.

(** ** The properties *)

Section theorems.
Context {W : Type} {K : Vfs W} {VS : VfsStat W} {VW : VfsWrite W} {R : RbLib} {L : MountLib W} {SL : SuperLib W} {PA : ParserLib}.
Context (Held : Z → Prop) {HL : UpperLaws K VS VW anywhere (held_same Held)} {PL : PathLaws L Held} {ML : MountLaws L}.
Context (md : ovl_module) (mem : nat → bool) (fuel : nat).
Implicit Types s : super W.

(** A later state of the mount [s]: what it holds is there. *)
Record later s s' : Prop := Later {
  la_upper : mf_upper (su_mount s') = mf_upper (su_mount s);
  la_base : su_workbasedir s' = su_workbasedir s;
  la_upper_locked : su_upperdir_locked s' = su_upperdir_locked s;
  la_work_locked : su_workdir_locked s' = su_workdir_locked s;
  la_held : held_same Held (ws_world (su_ws s)) (ws_world (su_ws s'))
}.

(** C12: No mark is left behind.  A mount that fails, at whatever point, leaves
    the directories marked as in use that were marked before it.  After one
    that succeeds, unmounting takes back exactly the marks that mounting
    added, whatever other mounts have marked or unmarked in the meantime. *)
Theorem in_use_marks_given_back data s :
  match ovl_fill_super md mem fuel data s with
  | (inl _, s') => mf_inuse (su_mount s') = mf_inuse (su_mount s)
  | (inr _, s') => ∀ s'', later s' s'' →
      mf_inuse (su_mount (snd (ovl_put_super s''))) =
      mf_inuse (su_mount s'') ∖ (mf_inuse (su_mount s') ∖ mf_inuse (su_mount s))
  end.
Proof.
  pose proof (fill_super_cases Held md mem fuel _ data s eq_refl) as H.
  destruct (ovl_fill_super _ _ _ _ _) as [[e|[]] s']; [done|]. destruct H as (root & oe & [[H1 H2 H3 H4]] & _).
  intros s'' []. unfold ovl_put_super. rewrite (free_marks Held).
  - f_equal. assert (Ht : taken s'' = taken s').
    { unfold taken, key_of. rewrite la_upper0, la_base0, la_upper_locked0, la_work_locked0. f_equal.
      - destruct (su_upperdir_locked s'); [|done]. destruct H3 as (u & -> & Hu); [done|]. cbn. by rewrite la_held0.
      - destruct (su_workdir_locked s'); [|done]. destruct H4 as (b & -> & Hb); [done|]. cbn. by rewrite la_held0. }
    rewrite Ht, H1. set_solver.
  - rewrite la_upper_locked0, la_upper0. intros Hu. by destruct (H3 Hu) as (u & -> & _).
  - rewrite la_work_locked0, la_base0. intros Hw. by destruct (H4 Hw) as (b & -> & _).
Qed.

(** C11: A mount that succeeds is a well-formed overlay: the objects have the
    layers and features of the mount, the layers are in order and all in the
    root, a mount that can be written to has an upper and a work directory,
    one with the index has its directory, which is the work directory, and
    NFS export comes with an index for an upper layer and never with
    metacopy. *)
Theorem mounted_overlay_well_formed data s s' :
  ovl_fill_super md mem fuel data s = (inr tt, s') → well_formed s'.
Proof.
  intros E. pose proof (fill_super_cases Held md mem fuel _ data s eq_refl) as H. rewrite E in H.
  by eapply mounted_well_formed.
Qed.

(** The directories that an overlay with an upper layer writes to. *)
Definition own_dirs s : gset Z :=
  {[inode_addr (ws_world (su_ws s)) (default 0 (mf_upper (su_mount s)));
    inode_addr (ws_world (su_ws s)) (default 0 (su_workbasedir s))]}.
(** C13: No two overlays that are mounted at the same time and have an index
    share an upper or a work directory, nor is the upper directory of one the
    work directory of the other. *)
Theorem indexed_overlays_apart data1 data2 s1 s1' s2 s2' :
  ovl_fill_super md mem fuel data1 s1 = (inr tt, s1') → c_index (mf_config (su_mount s1')) = true →
  mf_inuse (su_mount s1') ⊆ mf_inuse (su_mount s2) →
  ovl_fill_super md mem fuel data2 s2 = (inr tt, s2') → c_index (mf_config (su_mount s2')) = true →
  own_dirs s1' ## own_dirs s2'.
Proof.
  intros E1 I1 Hsub E2 I2.
  pose proof (fill_super_cases Held md mem fuel _ data1 s1 eq_refl) as H1. rewrite E1 in H1.
  pose proof (fill_super_cases Held md mem fuel _ data2 s2 eq_refl) as H2. rewrite E2 in H2.
  assert (Ho : ∀ M s, mounted Held M s → c_index (mf_config (su_mount s)) = true → taken s = own_dirs s).
  { intros M s Hm Hi. destruct (mounted_well_formed Held M s Hm) as [_ _ _ Hx _ _]. destruct (Hx Hi) as (i & _ & _ & Hu & Hw).
    unfold taken, own_dirs, key_of. by rewrite Hu, Hw. }
  rewrite <-(Ho _ _ H1 I1), <-(Ho _ _ H2 I2).
  destruct H1 as (? & ? & [[M1 _ _ _]] & _), H2 as (? & ? & [[_ N2 _ _]] & _).
  intros k Hk Hk'. apply (N2 k Hk'), Hsub. rewrite M1. by apply elem_of_union_r.
Qed.
End theorems.
