(* ===== verification/OvlLower.v ===== *)
(** * The lower layers are never changed

    The theorem about every sequence of changes, and the sample file system as
    an instance of what it assumes of the kernel. *)
From S2P Require Import Prelude CString OS OvlOptions OvlVfs OvlHandle OvlLookup OvlLayers OvlIno OvlReaddir OvlDirFile OvlWrite OvlTemp OvlInode OvlCopyUp OvlCreate OvlRemove OvlAttr OvlMerge OvlSim OvlWriteSim OvlSpare.
Open Scope Z_scope.

(** ** The theorem *)

Section theorem.
Context {W : Type} {K : Vfs W} {VS : VfsStat W} {VW : VfsWrite W} {R : RbLib} (Up : Z → Prop) {UL : UpperLaws K VS VW Up (lower_same Up)}.

(** One request after the other. *)
Fixpoint serve_all (rs : list request) (s : wstate W) : wstate W :=
  match rs with [] => s | r :: rs => serve_all rs (snd (serve r s)) end.

(** C2: Whatever is done to a mounted overlay -- creating, linking, removing,
    moving files, changing attributes, opening for writing, in any order and
    with any outcome, errors halfway included -- a file that is not of the
    upper layer's file system is read afterwards as before: its inode, its
    entries, its attributes and what they hold. *)
Theorem lower_layers_never_change (rs : list request) (s : wstate W) :
  upper_state Up s →
  lower_same Up (ws_world s) (ws_world (serve_all rs s)) ∧ upper_state Up (serve_all rs s).
Proof.
  revert s. induction rs as [|r rs IH]; intros s Hs; cbn [serve_all]; [by split|].
  destruct (serve_step Up r s Hs) as [H1 H2]. destruct (IH _ H1) as [H3 H4].
  split; [by etransitivity|done].
Qed.
End theorem.

(** ** The sample file system *)

Lemma same_side_up i d : Upper d → Upper (de_parent (same_side i d)).
Proof.
  unfold same_side, Upper. intros Hd. cbn [de_parent]. destruct (Bool.eqb _ _) eqn:E; [|done]. apply eqb_prop in E. by rewrite E.
Qed.
Lemma missing_up t b n : Upper b → Upper (missing t b n).
Proof.
  unfold Upper, missing. intros ->. unfold is_up. rewrite Z.odd_opp, Z.add_comm, Z.odd_add_mul_2. done.
Qed.
Lemma find_name_inr t b n d : find_name t b n = inr d →
  is_up d = is_up b ∧ de_name (info_of t d) = n ∧ de_parent (info_of t d) = b.
Proof.
  unfold find_name. set (x := match assoc _ _ with Some (Some d) => d | _ => _ end). destruct (_ && _) eqn:E; [|done].
  intros [= <-]. apply andb_true_iff in E as [[E1 E2]%andb_true_iff E3]. apply eqb_prop in E1. apply str_eqb_eq in E2. apply Z.eqb_eq in E3. by split_and!.
Qed.
Lemma find_name_up t b n d : find_name t b n = inr d → Upper b → Upper d.
Proof. intros [E _]%find_name_inr Hb. unfold Upper in *. congruence. Qed.

Lemma omap_same {A B} (f g : A → option B) (l : list A) : (∀ x, f x = g x) → omap f l = omap g l.
Proof. intros H. induction l as [|x l IH]; [done|]. cbn. by rewrite H, IH. Qed.

(** Two file systems with the same lower files. *)
Record lower_eq (t t' : fsys) : Prop := LowerEq {
  le_dentries d : ¬ Upper d → assoc d (f_dentries t') = assoc d (f_dentries t);
  le_names b n : ¬ Upper b → assoc (b, n) (f_names t') = assoc (b, n) (f_names t);
  le_entries d (f : (Z * cstr) * option Z → option dirent) :
    ¬ Upper d → (∀ b n x, b ≠ d → f ((b, n), x) = None) → omap f (f_names t') = omap f (f_names t);
  le_xattrs d n : ¬ Upper d → assoc (d, n) (f_xattrs t') = assoc (d, n) (f_xattrs t);
  le_attrs d : ¬ Upper d → assoc d (f_attrs t') = assoc d (f_attrs t);
  le_data d : ¬ Upper d → assoc d (f_data t') = assoc d (f_data t)
}.
#[export] Instance lower_eq_preorder : PreOrder lower_eq.
Proof.
  split; [by split|]. intros t1 t2 t3 [a1 a2 a3 a4 a5 a6] [b1 b2 b3 b4 b5 b6].
  split; intros; [by rewrite b1, a1|by rewrite b2, a2|by rewrite (b3 d), (a3 d)|by rewrite b4, a4|by rewrite b5, a5|by rewrite b6, a6].
Qed.
Lemma lower_eq_info t t' d : lower_eq t t' → ¬ Upper d → info_of t' d = info_of t d.
Proof. intros H Hd. unfold info_of. by rewrite (le_dentries _ _ H). Qed.
Lemma lower_eq_find t t' b n : lower_eq t t' → ¬ Upper b → find_name t' b n = find_name t b n.
Proof.
  intros H Hb. unfold find_name. rewrite (le_names _ _ H) by done.
  assert (Hm : missing t' b n = missing t b n) by (unfold missing, Upper in *; by destruct (is_up b)). rewrite Hm.
  set (x := match assoc _ _ with Some (Some d) => d | _ => _ end).
  destruct (Bool.eqb (is_up x) (is_up b)) eqn:E; [|done]. apply eqb_prop in E.
  rewrite (lower_eq_info _ _ _ H); [done|]. unfold Upper in *. congruence.
Qed.
Lemma lower_eq_listed t t' d : lower_eq t t' → ¬ Upper d → listed_names t' d = listed_names t d.
Proof.
  intros H Hd. unfold listed_names. rewrite (le_entries _ _ H d); [|done|].
  - apply omap_same. intros [[b n] x]. unfold entry_in. destruct (decide (b = d)) as [->|]; [|done].
    rewrite (lower_eq_find _ _ _ _ H Hd). destruct (find_name t d n) as [e|y]; [done|].
    destruct (Bool.eqb _ _) eqn:E; [|done]. apply eqb_prop in E.
    rewrite (lower_eq_info _ _ _ H); [done|]. unfold Upper in *. congruence.
  - intros b n x Hb. unfold entry_in. by rewrite decide_False.
Qed.
Lemma lower_eq_same t t' : lower_eq t t' → lower_same Upper t t'.
Proof.
  intros H d Hup. pose proof (lower_eq_info _ _ _ H Hup) as Hi.
  assert (Hdef : default_attrs t' d = default_attrs t d) by (unfold default_attrs; by rewrite Hi, (le_data _ _ H)).
  assert (Hat : attrs_at t' d = attrs_at t d) by (unfold attrs_at; by rewrite (le_attrs _ _ H), Hdef).
  assert (Hdat : data_at t' d = data_at t d) by (unfold data_at; by rewrite (le_data _ _ H)).
  split; cbn -[info_of]; try done.
  - intros n. by apply lower_eq_find.
  - intros n. by rewrite (le_xattrs _ _ H).
  - by rewrite (lower_eq_listed _ _ _ H).
  - by rewrite Hi, Hat, Hdat.
  - by rewrite Hdat.
Qed.

(** Steps that only change upper files. *)
Ltac put_tac := split; cbn; intros; try done; (rewrite decide_False; [done|]); intros E; simplify_eq; done.
Lemma put_dentry_eq d i t : Upper d → lower_eq t (put_dentry d i t).
Proof. intros Hd. put_tac. Qed.
Lemma put_xattr_eq d n v t : Upper d → lower_eq t (put_xattr d n v t).
Proof. intros Hd. put_tac. Qed.
Lemma put_attrs_eq d a t : Upper d → lower_eq t (put_attrs d a t).
Proof. intros Hd. put_tac. Qed.
Lemma put_data_eq d l t : Upper d → lower_eq t (put_data d l t).
Proof. intros Hd. put_tac. Qed.
Lemma bump_eq t : lower_eq t (bump t).
Proof. by split. Qed.
Lemma put_name_eq b n x t : Upper b → lower_eq t (put_name b n x t).
Proof.
  intros Hb. split; cbn; intros; try done.
  - rewrite decide_False; [done|]. intros E; simplify_eq; done.
  - rewrite H0; [done|]. intros ->. done.
Qed.

Lemma create_in_eq dir d f p r t : Upper dir → Upper d → lower_eq t (create_in dir d f p r t).
Proof.
  intros Hdir Hd. unfold create_in. etransitivity; [|by apply put_name_eq]. etransitivity; [|by apply put_attrs_eq].
  etransitivity; [|by apply put_data_eq]. by apply put_dentry_eq.
Qed.
Lemma renamed_eq olddir old newdir new flags t :
  Upper olddir → Upper old → Upper newdir → Upper new → lower_eq t (renamed olddir old newdir new flags t).
Proof.
  intros H1 H2 H3 H4. unfold renamed. set (io := info_of t old). set (i := info_of t new).
  assert (Hb : lower_eq t (put_name newdir (de_name i) (Some old) (put_dentry old (moved io (de_name i) newdir) (bump t)))).
  { etransitivity; [|by apply put_name_eq]. etransitivity; [|by apply put_dentry_eq]. apply bump_eq. }
  destruct (negb _); [|destruct (negb _)]; cbv zeta; (etransitivity; [exact Hb|]); (etransitivity; [|by apply put_name_eq]).
  - by apply put_dentry_eq.
  - etransitivity; [by apply put_dentry_eq|]. by apply put_dentry_eq, missing_up.
  - by apply put_dentry_eq.
Qed.
Lemma perform_eq t c : Forall Upper (targets c) → lower_eq t (perform t c).
Proof.
  intros H. destruct c; cbn in *; decompose_Forall_hyps;
    try by (apply create_in_eq || apply put_dentry_eq || apply put_attrs_eq || apply put_xattr_eq || apply renamed_eq || reflexivity).
  - etransitivity; [|by apply put_name_eq]. etransitivity; [|by apply put_dentry_eq]. by apply put_dentry_eq.
  - etransitivity; [|by apply put_data_eq]. by apply create_in_eq.
Qed.

#[export] Instance fsys_upper : UpperLaws fsys_vfs fsys_stat fsys_write Upper (lower_same Upper).
Proof.
  split; cbn; try (intros; apply lower_eq_same; reflexivity).
  - done.
  - intros w b n d. apply find_name_up.
  - intros w d. apply same_side_up.
  - intros w c H. destruct (allowed w c); [|done]. by apply lower_eq_same, perform_eq.
  - done.
  - intros w old p new p' len H. apply lower_eq_same. destruct (take _ _); [done|]. by apply put_data_eq.
  - intros w d n v H. by apply lower_eq_same, put_xattr_eq.
  - intros w d n H. by apply lower_eq_same, put_xattr_eq.
Qed.

Lemma sample_upper_state : upper_state Upper sample_wstate.
Proof.
  split; [split|done|done]; [|done]. intros i u. unfold oinode_at, sample_wstate. cbn [ws_ovl vs_inodes].
  destruct (_ !! i) as [x|] eqn:E; cbn [default]; [|done].
  do 3 (apply lookup_insert_Some in E as [[<- <-]|[_ E]]; [by intros [= <-]|]).
  apply lookup_singleton_Some in E as [<- <-]. by intros [= <-].
Qed.
(** The file system after a file was made, another one copied up and removed,
    and its directory removed. *)
Definition sample_requests : list request := [Create 104 no_mode; OpenCopyUp 102 O_WRONLY; Unlink 102; Rmdir 101].
Lemma lower_layers_never_change_witness :
  fst (serve (Rmdir 101) (serve_all (take 3 sample_requests) sample_wstate)) = inr 0 ∧
  dentry_of (ws_world (serve_all sample_requests sample_wstate)) 6 = dentry_of sample_fsys 6.
Proof.
  split; [vm_compute; reflexivity|].
  exact (sf_dentry _ _ _ (proj1 (lower_layers_never_change Upper sample_requests _ sample_upper_state) 6 ltac:(by intros H))).
Defined.
