(* ===== verification/OvlCopyLoop.v ===== *)
(** * Copying up ends (copy_up.c)

    [ovl_copy_up_flags] copies up the topmost directory that is missing, over
    and over, until the file itself is there.  Every successful turn brings it
    one directory further, and after the last one the file has its upper file,
    its name in the upper directory, and its data if they are needed. *)
From S2P Require Import Prelude CString OS OvlOptions OvlVfs OvlHandle OvlLookup OvlLayers OvlIno OvlReaddir OvlDirFile OvlWrite OvlTemp OvlInode OvlCopyUp OvlCreate OvlRemove OvlAttr OvlMerge OvlSim OvlWriteSim OvlSpare.
Open Scope Z_scope.

Create HintDb grow.
#[local] Existing Instance anywhere_laws.
#[local] Existing Instance always_preorder.

Section loop.
Context {W : Type} {K : Vfs W} {VS : VfsStat W} {VW : VfsWrite W}.
Implicit Types s : wstate W.
Implicit Types o : vstate W.

(** ** Functions that let the objects grow *)

Definition growing {A} (m : U W A) : Prop := ∀ s, grows (ws_ovl s) (ws_ovl (snd (m s))).
Lemma usafe_growing {A} may (m : U W A) Q : usafe (W := W) anywhere always grows may m Q → growing m.
Proof. intros H s. by destruct (H s (anywhere_state s)) as [[] _]. Qed.

Lemma growing_bind {A B} (m : U W A) (f : A → U W B) : growing m → (∀ a, growing (f a)) → growing (ubind m f).
Proof.
  intros Hm Hf s. specialize (Hm s). unfold ubind. destruct (m s) as [[e|a] s1]; [done|]. cbn in Hm.
  etransitivity; [exact Hm|apply Hf].
Qed.
Lemma growing_try {A B} (m : U W A) bad (k : A → U W B) :
  growing m → (∀ e, growing (bad e)) → (∀ a, growing (k a)) → growing (utry m bad k).
Proof.
  intros Hm Hb Hk s. specialize (Hm s). unfold utry. destruct (m s) as [[e|a] s1]; cbn in Hm.
  - etransitivity; [exact Hm|apply Hb].
  - etransitivity; [exact Hm|apply Hk].
Qed.
Lemma growing_check {B} (m : U W Z) bad (k : U W B) :
  growing m → (∀ e, growing (bad e)) → growing k → growing (ucheck m bad k).
Proof. intros Hm Hb Hk. apply growing_bind; [done|]. intros e. by destruct (e =? 0). Qed.
Lemma growing_still {A} (f : wstate W → res A) : growing (λ s, (f s, s)).
Proof. by intros s. Qed.
Lemma growing_update_inode f d : (∀ i, inode_grows i (f i)) → growing (ulift (update_inode (W := W) f d)).
Proof.
  intros Hf s. cbn. destruct (od_inode _) as [i|]; [|done]. by apply grows_inode.
Qed.
Lemma growing_update_dentry f d : (∀ x, dentry_grows x (f x)) → growing (ulift (update_dentry (W := W) f d)).
Proof. intros Hf s. by apply grows_dentry. Qed.
Lemma growing_set_alias d : growing (ulift (ovl_dentry_set_upper_alias (W := W) d)).
Proof. by apply growing_update_dentry. Qed.
Lemma growing_set_nlink_upper d : growing (ovl_set_nlink_upper d).
Proof. eapply usafe_growing, (usafe_set_nlink_upper _ _ grows (λ _ _ H, H) true). Qed.
Lemma growing_set_timestamps d st : growing (ovl_set_timestamps d st).
Proof. eapply usafe_growing, (usafe_set_timestamps _ _ grows (λ _ _ H, H) true). done. Qed.
Lemma growing_link_up c : growing (ovl_link_up c).
Proof. eapply usafe_growing, (usafe_link_up _ _ grows (λ _ _ H, H) true). Qed.
Lemma growing_meta_inode_data c : growing (ovl_copy_up_meta_inode_data c).
Proof. eapply usafe_growing, (usafe_meta_inode_data _ _ grows (λ _ _ H, H) true). Qed.

(** What a success leaves behind, if nothing that grows takes it away. *)
Definition lasting (T : vstate W → Prop) : Prop := ∀ o o', grows o o' → T o → T o'.
Definition leaves (m : U W Z) (T : vstate W → Prop) : Prop := ∀ s s', m s = (inr 0, s') → T (ws_ovl s').

Section rules.
Context (T : vstate W → Prop) (HT : lasting T).
Lemma leaves_bind {A} (m : U W A) (f : A → U W Z) : (∀ a, leaves (f a) T) → leaves (ubind m f) T.
Proof. intros Hf s s' (a & s1 & _ & H)%ubind_inr. by eapply Hf. Qed.
Lemma leaves_check (m : U W Z) bad (k : U W Z) :
  (∀ err, err ≠ 0 → leaves (bad err) T) → leaves k T → leaves (ucheck m bad k) T.
Proof. intros Hb Hk s s' (err & s1 & _ & [[-> H]|[He H]])%ucheck_inr; [by eapply Hk|by eapply Hb]. Qed.
Lemma leaves_try {A} (m : U W A) bad (k : A → U W Z) :
  (∀ e s s1, m s = (inl e, s1) → leaves (bad e) T) → (∀ a, leaves (k a) T) → leaves (utry m bad k) T.
Proof. intros Hb Hk s s' [(e & s1 & Hm & H)|(a & s1 & _ & H)]%utry_inr; [by eapply Hb|by eapply Hk]. Qed.
Lemma leaves_ret err : err ≠ 0 → leaves (uret err) T.
Proof. intros He s s' [= ? _]. done. Qed.
(** It is done here, and what follows keeps it. *)
Lemma leaves_now {A} (m : U W A) (f : A → U W Z) :
  (∀ s a s', m s = (inr a, s') → T (ws_ovl s')) → (∀ a, growing (f a)) → leaves (ubind m f) T.
Proof.
  intros Hm Hf s s' (a & s1 & H1 & H2)%ubind_inr. apply Hm in H1. specialize (Hf a s1). rewrite H2 in Hf. by eapply HT.
Qed.
Lemma leaves_now_check (m : U W Z) bad (k : U W Z) :
  leaves m T → (∀ err, err ≠ 0 → leaves (bad err) T) → growing k → leaves (ucheck m bad k) T.
Proof.
  intros Hm Hb Hk s s' (err & s1 & H1 & [[-> H]|[He H]])%ucheck_inr; [|by eapply Hb].
  apply Hm in H1. specialize (Hk s1). rewrite H in Hk. by eapply HT.
Qed.
End rules.
#[local] Hint Resolve growing_still growing_set_alias growing_set_nlink_upper growing_set_timestamps growing_link_up growing_meta_inode_data : grow.
Ltac grow :=
  repeat lazymatch goal with
  | |- growing (ubind _ _) => apply growing_bind; [|intros ?]
  | |- growing (utry _ _ _) => apply growing_try; [|intros ?|intros ?]
  | |- growing (ucheck _ _ _) => apply growing_check; [|intros ?|]
  | |- growing (if ?b then _ else _) => destruct b
  | |- growing (match ?x with _ => _ end) => destruct x
  | |- growing (uret _) => by intros ?
  | |- growing (ufail _) => by intros ?
  | |- growing (uget _) => by intros ?
  | |- growing (uovl _) => by intros ?
  | |- growing (uinode _) => by intros ?
  | |- growing (ulift (update_inode _ _)) => by apply growing_update_inode
  | |- growing (ulift (update_dentry _ _)) => by apply growing_update_dentry
  | _ => solve [eauto with grow]
  end.

(** ** One copy up *)

(** The dentry has an upper file. *)
Definition has_upper (d : Z) o : Prop := ovl_dentry_upper d o ≠ None.
Definition has_inode (d : Z) o : Prop := od_inode (odentry_at d o) ≠ None.
Definition aliased (d : Z) o : Prop := OVL_E_UPPER_ALIAS (odentry_at d o) = true.
Definition has_data (d : Z) o : Prop := test_inode OVL_UPPERDATA d o = true.
Lemma has_inode_lasting d : lasting (has_inode d).
Proof. intros o o' H. unfold has_inode. by rewrite (gr_inode _ _ H). Qed.
Lemma has_alias_lasting d : lasting (aliased d).
Proof. intros o o' H. apply (gr_alias _ _ H). Qed.
Lemma has_upper_lasting d : lasting (has_upper d).
Proof.
  intros o o' H. unfold has_upper, ovl_dentry_upper, d_inode. rewrite (gr_inode _ _ H).
  destruct (od_inode _) as [i|]; [|done]. apply (gr_upper _ _ H).
Qed.
Lemma has_data_lasting d : lasting (has_data d).
Proof.
  intros o o' H. unfold has_data, test_inode, d_inode. rewrite (gr_inode _ _ H).
  destruct (od_inode _) as [i|]; [|done]. apply (gr_data _ _ H).
Qed.
(** Given its inode. *)
Definition gets_upper (d : Z) o : Prop := has_inode d o → has_upper d o.
Lemma gets_upper_lasting d : lasting (gets_upper d).
Proof.
  intros o o' H Hu Hi. eapply has_upper_lasting; [exact H|]. apply Hu. unfold has_inode in *. by rewrite <- (gr_inode _ _ H).
Qed.

Lemma inode_update_upper i u s : oi_upperdentry (oinode_at i (ws_ovl (snd (ovl_inode_update i u s)))) = Some u.
Proof.
  assert (H : ∀ (m : gmap Z ovl_inode) x, default null_inode (<[i := x]> m !! i) = x) by (intros m x; by rewrite lookup_insert_eq).
  unfold ovl_inode_update, ubind. cbn.
  repeat case_match; simplify_eq; unfold oinode_at; cbn; by rewrite H.
Qed.
Lemma installed_upper c u s a s' : installed c u s = (inr a, s') → gets_upper (cu_dentry c) (ws_ovl s').
Proof.
  intros (x & s1 & _ & H)%ubind_inr. apply ubind_inr in H as (i & s2 & [= <- <-] & H).
  pose proof (inode_update_upper (default 0 (od_inode (odentry_at (cu_dentry c) (ws_ovl s1)))) u s1) as Hu.
  assert (Hg : growing (ovl_inode_update (default 0 (od_inode (odentry_at (cu_dentry c) (ws_ovl s1)))) u))
    by (eapply (usafe_growing true), (usafe_inode_update _ _ grows (λ _ _ H, H) true); done).
  specialize (Hg s1). rewrite H in Hg. cbn [snd] in Hg.
  rewrite H in Hu. cbn [snd] in Hu. unfold gets_upper, has_inode, has_upper, ovl_dentry_upper, d_inode.
  rewrite (gr_inode _ _ Hg). destruct (od_inode _) as [j|]; [|done]. cbn in Hu |- *. by rewrite Hu.
Qed.

(** ** Error pointers are errors *)

Definition fails {A} (m : U W A) : Prop := ∀ s e s', m s = (inl e, s') → e ≠ 0.
Lemma fails_bind {A B} (m : U W A) (f : A → U W B) : fails m → (∀ a, fails (f a)) → fails (ubind m f).
Proof.
  intros Hm Hf s e s'. unfold ubind. destruct (m s) as [[e1|a] s1] eqn:E; [|apply Hf]. intros [= <- _]. by eapply Hm.
Qed.
Lemma fails_try {A B} (m : U W A) bad (k : A → U W B) :
  (∀ e s s1, m s = (inl e, s1) → fails (bad e)) → (∀ a, fails (k a)) → fails (utry m bad k).
Proof.
  intros Hb Hk s e s' [(e1 & s1 & H & He)|(a & s1 & _ & He)]%utry_inr; [by eapply Hb|by eapply Hk].
Qed.
Lemma fails_check {B} (m : U W Z) bad (k : U W B) :
  fails m → (∀ e, e ≠ 0 → fails (bad e)) → fails k → fails (ucheck m bad k).
Proof. intros Hm Hb Hk. apply fails_bind; [done|]. intros e. by destruct (Z.eqb_spec e 0); auto. Qed.
Lemma fails_fail {A} e : e ≠ 0 → fails (ufail (A := A) e).
Proof. by intros He s e' s' [= <- _]. Qed.
Lemma fails_may {A} (m : U W A) Q : usafe (W := W) anywhere always grows false m Q → fails m.
Proof.
  intros H s e s' E. destruct (H s (anywhere_state s)) as [_ Hr]. by rewrite E in Hr.
Qed.
Lemma fails_uwrite c : fails (uwrite c).
Proof. eapply fails_may, (usafe_uwrite anywhere always grows (λ _ _ H, H) false). by apply Forall_true. Qed.
Lemma fails_uwarn b : fails (uwarn (W := W) b).
Proof. by intros s e s'. Qed.
Ltac fails_auto :=
  repeat lazymatch goal with
  | |- fails (uwrite _) => apply fails_uwrite
  | |- fails (ubind _ _) => apply fails_bind; [|intros ?]
  | |- fails (ucheck _ _ _) => apply fails_check; [|intros ? ?|]
  | |- fails (if ?b then _ else _) => destruct b eqn:?
  | |- fails (match ?x with _ => _ end) => destruct x
  | |- fails (ufail _) => apply fails_fail
  | |- fails _ => by intros ? ? ?
  end.
Lemma fails_lift_index_name d : fails (ulift (ovl_get_index_name d)).
Proof.
  assert (HV : ∀ A B (m : V W A) (f : A → V W B),
    (∀ o e o', m o = (inl e, o') → e ≠ 0) → (∀ a o e o', f a o = (inl e, o') → e ≠ 0) →
    ∀ o e o', vbind m f o = (inl e, o') → e ≠ 0).
  { intros A B m f Hm Hf o e o'. unfold vbind. destruct (m o) as [[e1|a] o1] eqn:E; [|apply Hf].
    intros [= <- _]. by eapply Hm. }
  assert (Hk : ∀ o e o', vkmalloc (W := W) o = (inl e, o') → e ≠ 0).
  { intros o e o'. unfold vkmalloc, vbind. destruct (kmalloc _) as [[] w]; [done|]. by intros [= <- _]. }
  assert (HN : ∀ o e o', ovl_get_index_name d o = (inl e, o') → e ≠ 0).
  { unfold ovl_get_index_name, ovl_encode_real_fh, ovl_get_index_name_fh. apply HV; [|intros fb; by apply HV].
    apply HV; [done|]. intros _. apply HV; [done|]. intros sb. apply HV; [done|]. intros f. apply HV; [done|].
    intros []; [by intros o e o' [= <- _]|]. apply HV; done. }
  intros s e s'. unfold ulift. destruct (ovl_get_index_name d (ws_ovl s)) as [r o] eqn:E. intros [= -> _]. by eapply HN.
Qed.

(** The kernel's error pointers. *)
Class ErrorLaws : Prop := {
  lookup_error w b n e : lookup_one w b n = inl e → e ≠ 0;
  tmpfile_error w d m e : fst (vfs_tmpfile w d m) = inl e → e ≠ 0;
  stat_error w d e : stat_of w d = inl e → e ≠ 0;
  xattr_error w d n e : getxattr w d n = inl e → e ≠ 0;
  link_error w d e : vfs_get_link w d = inl e → e ≠ 0;
  lock_error w : fst (inode_lock_interruptible w) <= 0
}.
Context {EL : ErrorLaws}.
Lemma fails_lookup n b : fails (ulookup n b).
Proof. intros s e s' [= H _]. by eapply lookup_error. Qed.
Lemma fails_lookup_temp d : fails (ovl_lookup_temp d).
Proof. unfold ovl_lookup_temp. fails_auto; [apply fails_lookup|done]. Qed.
Lemma fails_create_real d r a : (∀ e, r = inl e → e ≠ 0) → fails (ovl_create_real d r a).
Proof.
  intros Hr. unfold ovl_create_real. destruct r as [e|x]; [by apply fails_fail, Hr|].
  apply fails_bind; [by intros ?|]. intros i. destruct (de_inode i); [by apply fails_fail|].
  apply fails_bind.
  - destruct (c_hardlink a); [|destruct (m_fmt _) as [[]|]];
      try by (unfold ovl_do_link, ovl_do_create, ovl_do_mknod, ovl_do_symlink; fails_auto).
    by eapply fails_may, (usafe_mkdir_real anywhere always grows (λ _ _ H, H) false).
  - intros [err y]. destruct (Z.eqb_spec err 0); cbn [negb]; [|by apply fails_fail]. fails_auto; done.
Qed.
Lemma fails_create_temp d a : fails (ovl_create_temp d a).
Proof.
  unfold ovl_create_temp. intros s e s'. unfold ubind, utry.
  destruct (ovl_lookup_temp d s) as [[e1|x] s1] eqn:E; cbv beta iota delta [uret]; [|by apply fails_create_real].
  apply (fails_create_real d (inl e1)). intros ? [= <-]. by eapply fails_lookup_temp.
Qed.

(** ** What a copy up leaves *)

Lemma leaves_try_ret {A} (m : U W A) (k : A → U W Z) T :
  fails m → (∀ a, leaves (k a) T) → leaves (utry m uret k) T.
Proof. intros Hm Hk. apply leaves_try; [|done]. intros e s s1 H. apply leaves_ret. by eapply Hm. Qed.
(** After a clean-up the error is returned. *)
Lemma leaves_cleanup d x err T : err ≠ 0 → leaves (ovl_cleanup d x ;;! uret err) T.
Proof. intros He. apply leaves_bind. intros _. by apply leaves_ret. Qed.
Lemma copy_up_workdir_upper c : leaves (ovl_copy_up_workdir c) (gets_upper (cu_dentry c)).
Proof.
  unfold ovl_copy_up_workdir. apply leaves_bind. intros trap. destruct (negb _); [by apply leaves_ret|].
  apply leaves_check; [intros; by apply leaves_ret|]. apply leaves_try_ret; [apply fails_create_temp|]. intros temp.
  cbv zeta. do 2 (apply leaves_check; [intros; by apply leaves_cleanup|]).
  apply leaves_try; [intros e s s1 H; apply leaves_cleanup; by eapply fails_lookup|]. intros upper.
  apply leaves_check; [intros; by apply leaves_cleanup|].
  apply leaves_now; [apply gets_upper_lasting|intros; by eapply installed_upper|]. intros _. grow.
Qed.
Lemma copy_up_tmpfile_upper c : leaves (ovl_copy_up_tmpfile c) (gets_upper (cu_dentry c)).
Proof.
  unfold ovl_copy_up_tmpfile. apply leaves_check; [intros; by apply leaves_ret|].
  apply leaves_try_ret.
  { intros s e s'. unfold ovl_do_tmpfile. destruct (vfs_tmpfile _ _ _) as [r w] eqn:E. intros [= -> _].
    eapply tmpfile_error. by rewrite E. }
  intros temp. do 2 (apply leaves_check; [intros; by apply leaves_ret|]).
  apply leaves_now; [apply gets_upper_lasting|intros; by eapply installed_upper|]. intros _. grow.
Qed.
Lemma do_copy_up_upper c : leaves (ovl_do_copy_up c) (gets_upper (cu_dentry c)).
Proof.
  unfold ovl_do_copy_up. apply leaves_bind; intros indexed. apply leaves_bind; intros dir. cbv zeta.
  apply leaves_bind; intros noparent. destruct noparent; [by apply leaves_ret|].
  apply leaves_try_ret.
  { destruct (_ && _); [apply fails_lift_index_name|]. apply fails_check; [|intros; by apply fails_fail|by intros ?].
    eapply fails_may, usafe_lift, (vsafe_set_impure anywhere always grows (λ _ _ H, H) false). done. }
  intros destname. apply leaves_bind; intros tmpfile.
  apply leaves_now_check; [apply gets_upper_lasting| |intros; by apply leaves_ret|].
  - match goal with |- leaves (if _ then _ else ovl_copy_up_workdir ?c') _ =>
      destruct (_ && _); [exact (copy_up_tmpfile_upper c')|exact (copy_up_workdir_upper c')] end.
  - grow.
Qed.

Lemma leaves_now_err T (m : U W Z) (k : U W Z) :
  lasting T → leaves m T → growing k → leaves (let! err := m in if negb (err =? 0) then uret err else k) T.
Proof.
  intros HT Hm Hk s s' (err & s1 & H1 & H2)%ubind_inr. destruct (Z.eqb_spec err 0) as [->|]; cbn [negb] in H2.
  - apply Hm in H1. specialize (Hk s1). rewrite H2 in Hk. by eapply HT.
  - by injection H2 as ->.
Qed.
Lemma set_alias_leaves d s a s' : ulift (ovl_dentry_set_upper_alias d) s = (inr a, s') → aliased d (ws_ovl s').
Proof.
  unfold ulift, ovl_dentry_set_upper_alias, update_dentry, vupdate. intros [= _ <-]. cbn.
  unfold aliased. rewrite odentry_insert. by rewrite decide_True.
Qed.
Lemma link_up_alias c : leaves (ovl_link_up c) (aliased (cu_dentry c)).
Proof.
  unfold ovl_link_up. cbv zeta. apply leaves_bind; intros dir. do 2 (apply leaves_check; [intros; by apply leaves_ret|]).
  apply leaves_bind; intros name. apply leaves_now_err; [apply has_alias_lasting| |apply growing_set_nlink_upper].
  apply leaves_try_ret; [apply fails_lookup|]. intros upper. apply leaves_bind; intros old. apply leaves_bind; intros err.
  destruct (Z.eqb_spec err 0); [|by apply leaves_ret]. apply leaves_bind; intros _.
  apply leaves_now; [apply has_alias_lasting|apply set_alias_leaves|]. intros _. grow.
Qed.
Definition gets_data (d : Z) o : Prop := has_inode d o → has_data d o.
Lemma gets_data_lasting d : lasting (gets_data d).
Proof.
  intros o o' H Hu Hi. eapply has_data_lasting; [exact H|]. apply Hu. unfold has_inode in *. by rewrite <- (gr_inode _ _ H).
Qed.
Lemma set_upperdata_leaves d s a s' : ulift (ovl_set_upperdata d) s = (inr a, s') → gets_data d (ws_ovl s').
Proof.
  unfold ulift, ovl_set_upperdata, update_inode, vupdate. intros [= _ <-]. cbn.
  unfold gets_data, has_inode, has_data, test_inode, d_inode.
  destruct (od_inode (odentry_at d (ws_ovl s))) as [i|] eqn:E; [intros _|by rewrite E].
  change (odentry_at d (set_vs_inodes ?m ?o)) with (odentry_at d o). rewrite E. cbn [fmap option_fmap option_map].
  rewrite oinode_insert. by rewrite decide_True.
Qed.
Lemma getxattr_value_error d n s e s' : ovl_getxattr_value d n s = (inr (inl e), s') → e ≠ 0.
Proof.
  intros (r & s1 & H & H')%ubind_inr. injection H as H <-. destruct r as [e1|v].
  - destruct (_ || _); [done|]. injection H' as <- _. by eapply xattr_error.
  - destruct (nonempty v); [|done]. apply ubind_inr in H' as (ok & s2 & _ & H'). cbn [negb] in H'.
    destruct ok; [done|]. by injection H' as <- _.
Qed.
Lemma meta_inode_data_leaves c : leaves (ovl_copy_up_meta_inode_data c) (gets_data (cu_dentry c)).
Proof.
  unfold ovl_copy_up_meta_inode_data. cbv zeta. apply leaves_bind; intros upper. apply leaves_bind; intros bad.
  destruct bad; [by apply leaves_ret|]. apply leaves_bind; intros data. apply leaves_bind; intros bad.
  destruct bad; [by apply leaves_ret|]. intros s s' (cap & s1 & Hc & H)%ubind_inr. revert H. destruct cap as [e|cap].
  { intros [= -> _]. destruct (negb _); [|done]. by eapply getxattr_value_error in Hc. }
  revert s1 s' Hc. assert (Hl : leaves (
    ok! ovl_copy_up_data (default 0 data) (default 0 upper) (cs_size (cu_stat c)) else! uret ;;!
    ok! (if nonempty cap then ovl_do_setxattr (default 0 upper) XATTR_NAME_CAPS cap 0 else uret 0) else! uret ;;!
    ok! ulift (ovl_removexattr (default 0 upper) OVL_XATTR_METACOPY) else! uret ;;!
    ulift (ovl_set_upperdata (cu_dentry c)) ;;! uret 0) (gets_data (cu_dentry c))).
  { do 3 (apply leaves_check; [intros; by apply leaves_ret|]).
    apply leaves_now; [apply gets_data_lasting|apply set_upperdata_leaves|]. intros _. grow. }
  intros s1 s' _. apply Hl.
Qed.
(** Somebody else has copied it up. *)
Lemma copy_up_start_done d f s err s' :
  ovl_copy_up_start d f s = (inr err, s') → 0 < err → ovl_already_copied_up_locked d f (ws_ovl s') = true.
Proof.
  intros (e & s1 & H1 & H)%ubind_inr He. apply ubind_inr in H as (already & s2 & [= <- <-] & H).
  injection H as H <-. assert (Hl : e <= 0).
  { unfold ucall, ulift, vcall in H1. pose proof (lock_error (vs_world (ws_ovl s))) as Hl.
    destruct (inode_lock_interruptible _) as [e1 w]. injection H1 as -> _. exact Hl. }
  destruct (ovl_already_copied_up_locked _ _ _); [done|]. rewrite andb_false_r in H. lia.
Qed.

(** What one copy up has to leave. *)
Definition copied (p : option Z) (d f : Z) o : Prop :=
  has_inode d o → has_upper d o ∧ (is_Some p → aliased d o ∨ od_disconnected (odentry_at d o) = true) ∧
  (ovl_open_flags_need_copy_up f = true → has_data d o).
Lemma already_locked_copied p d f o : ovl_already_copied_up_locked d f o = true → copied p d f o.
Proof.
  unfold ovl_already_copied_up_locked, ovl_dentry_has_upper_alias. intros [[Hu Ha]%andb_true_iff Hd]%andb_true_iff _. split_and!.
  - unfold has_upper. by destruct (ovl_dentry_upper d o).
  - intros _. apply orb_true_iff in Ha. exact Ha.
  - unfold ovl_dentry_needs_data_copy_up_locked in Hd. intros Hf. rewrite Hf in Hd. cbn in Hd. unfold has_data. by destruct (test_inode _ _ _).
Qed.
Lemma copy_up_one_copied p d f : leaves (ovl_copy_up_one p d f) (copied p d f).
Proof.
  unfold ovl_copy_up_one. apply leaves_bind; intros wd. apply leaves_bind; intros bad. destruct bad; [by apply leaves_ret|].
  apply leaves_bind; intros lower. cbv zeta. apply leaves_try_ret; [intros s e s' [= H _]; by eapply stat_error|]. intros stat.
  apply leaves_bind; intros mapped. destruct mapped; [|by apply leaves_ret]. cbn [negb]. apply leaves_bind; intros config.
  apply leaves_bind; intros dir. apply leaves_bind; intros name.
  apply leaves_try_ret; [destruct p; [intros s e s' [= H _]; by eapply stat_error|by intros ?]|]. intros pstat.
  apply leaves_try_ret; [destruct (has_fmt _ _); [intros s e s' [= H _]; by eapply link_error|by intros ?]|]. intros link.
  intros s s' (err & s1 & Hstart & H)%ubind_inr. destruct (Z.eqb_spec err 0) as [->|He]; cbn [negb] in H.
  2:{ injection H as H <-. destruct (Z.ltb_spec 0 err); [|done]. eapply already_locked_copied, copy_up_start_done; done. }
  apply ubind_inr in H as (upper & s2 & [= <- <-] & H).
  apply ucheck_inr in H as (err & s2 & Hcopy & [[-> H]|[He H]]); [|by injection H as ->].
  apply ubind_inr in H as (alias & s3 & [= <- <-] & H).
  apply ucheck_inr in H as (err & s3 & Hlink & [[-> H]|[He H]]); [|by injection H as ->].
  apply ubind_inr in H as (data & s4 & [= <- <-] & H).
  assert (Hu : gets_upper d (ws_ovl s2)).
  { destruct (ovl_dentry_upper d (ws_ovl s1)) eqn:E; cbn [is_none] in Hcopy.
    - injection Hcopy as <-. intros _. unfold has_upper. by rewrite E.
    - by apply do_copy_up_upper in Hcopy. }
  assert (Ha : is_Some p → aliased d (ws_ovl s3)).
  { intros [q ->]. unfold ovl_dentry_has_upper_alias in Hlink. cbn [is_none negb andb] in Hlink.
    destruct (OVL_E_UPPER_ALIAS (odentry_at d (ws_ovl s2))) eqn:E; cbn [negb] in Hlink.
    - by injection Hlink as <-.
    - by apply link_up_alias in Hlink. }
  assert (G23 : grows (ws_ovl s2) (ws_ovl s3)).
  { match type of Hlink with ?m _ = _ => assert (Hg : growing m) by grow end. specialize (Hg s2). by rewrite Hlink in Hg. }
  assert (G34 : grows (ws_ovl s3) (ws_ovl s')).
  { match type of H with ?m _ = _ => assert (Hg : growing m) by grow end. specialize (Hg s3). by rewrite H in Hg. }
  intros Hi. split_and!.
  - apply (gets_upper_lasting d _ _ G34); [|done]. by apply (gets_upper_lasting d _ _ G23).
  - intros Hp. left. eapply has_alias_lasting; [exact G34|]. by apply Ha.
  - intros Hf. destruct (ovl_dentry_needs_data_copy_up_locked d f (ws_ovl s3)) eqn:E.
    + by apply meta_inode_data_leaves in H; apply H.
    + injection H as <-. unfold ovl_dentry_needs_data_copy_up_locked in E. rewrite Hf in E. cbn in E.
      unfold has_data. by destruct (test_inode _ _ _).
Qed.

(** ** The loop *)

(** A copied file is copied up for the loop, if it has a name or needs none. *)
Lemma copied_already p d f o :
  copied p d f o → has_inode d o → (p = None → od_disconnected (odentry_at d o) = true) → ovl_already_copied_up d f o = true.
Proof.
  intros Hc Hi Hp. destruct (Hc Hi) as (Hu & Ha & Hd). unfold ovl_already_copied_up. rewrite !andb_true_iff. split_and!.
  - unfold has_upper in Hu. by destruct (ovl_dentry_upper d o).
  - apply orb_true_iff. destruct p as [p|]; [by apply Ha|right; by apply Hp].
  - unfold ovl_dentry_needs_data_copy_up. destruct (ovl_open_flags_need_copy_up f); [|done]. cbn [negb].
    specialize (Hd eq_refl). unfold has_data, test_inode in *. destruct (d_inode d o); [|done].
    unfold ovl_has_upperdata. destruct (negb (ovl_should_check_upperdata _)); [done|]. by rewrite Hd.
Qed.

(** [climbs o n d]: of the ancestors of [d], the nearest [n] have no upper
    directory, and the one above them has. *)
Inductive climbs o : nat → Z → Prop :=
  | climbs_here d : has_inode d o → has_upper (od_parent (odentry_at d o)) o → climbs o 0 d
  | climbs_up n d : has_inode d o → ¬ has_upper (od_parent (odentry_at d o)) o →
      climbs o n (od_parent (odentry_at d o)) → climbs o (S n) d.

Lemma climbs_topmost o n d : climbs o n d → ∀ fuel, (n < fuel)%nat →
  ∃ p t, topmost fuel d o = Some (p, t) ∧ has_inode t o ∧ (n = 0%nat → t = d).
Proof.
  induction 1 as [d Hi Hu|n d Hi Hu _ IH]; intros [|fuel] Hn; try lia; cbn [topmost].
  - unfold has_upper in Hu. destruct (ovl_dentry_upper _ _); [|done]. eauto.
  - assert (E : ovl_dentry_upper (od_parent (odentry_at d o)) o = None).
    { unfold has_upper in Hu. destruct (ovl_dentry_upper _ _); [by destruct Hu|done]. }
    rewrite E. destruct (IH fuel ltac:(lia)) as (p & t & Ht & Hit & _). exists p, t. by split_and!.
Qed.
(** When the topmost one has its upper directory, there is less to climb. *)
Lemma climbs_less o o' n d : climbs o n d → grows o o' → ∀ fuel p t, (n < fuel)%nat → topmost fuel d o = Some (p, t) →
  has_upper t o' → ∃ m, (m ≤ pred n)%nat ∧ climbs o' m d.
Proof.
  intros Hc Hg. assert (HI : ∀ d, has_inode d o → has_inode d o') by (intros; by eapply has_inode_lasting).
  assert (HP : ∀ d, od_parent (odentry_at d o') = od_parent (odentry_at d o)) by (intros; apply (gr_parent _ _ Hg)).
  induction Hc as [d Hi Hu|n d Hi Hu Hc IH]; intros [|fuel] p t Hn; try lia; cbn [topmost].
  - intros _ _. exists 0%nat. split; [lia|]. apply climbs_here; [by apply HI|]. rewrite HP. by eapply has_upper_lasting.
  - assert (E : ovl_dentry_upper (od_parent (odentry_at d o)) o = None).
    { unfold has_upper in Hu. destruct (ovl_dentry_upper _ _); [by destruct Hu|done]. }
    rewrite E. intros Ht Htu.
    destruct (decide (ovl_dentry_upper (od_parent (odentry_at d o)) o' = None)) as [E'|E'].
    + destruct (IH fuel p t ltac:(lia) Ht Htu) as (m & Hm & Hcm). destruct n as [|n].
      { inversion Hc; subst. destruct fuel as [|fuel]; [lia|]. cbn [topmost] in Ht. unfold has_upper in *.
        destruct (ovl_dentry_upper (od_parent (odentry_at (od_parent (odentry_at d o)) o)) o); [|done].
        injection Ht as _ <-. done. }
      exists (S m). split; [cbn; cbn in Hm; lia|]. apply climbs_up; [by apply HI| |by rewrite HP].
      rewrite HP. unfold has_upper. by intros H.
    + exists 0%nat. split; [lia|]. apply climbs_here; [by apply HI|]. by rewrite HP.
Qed.

Lemma copy_up_loop_ends f d n : ∀ fuel s,
  climbs (ws_ovl s) n d → (n < S (size (vs_dentries (ws_ovl s))))%nat → (S n < fuel)%nat →
  ∃ z s', copy_up_loop fuel d f false s = (inr (Some z), s') ∧
    (z = 0 → ovl_already_copied_up d f (ws_ovl s') = true).
Proof.
  induction n as [n IH] using lt_wf_ind. intros [|fuel] s Hc Hn Hf; [lia|]. cbn [copy_up_loop].
  unfold ubind, uovl, uget. destruct (ovl_already_copied_up d f (ws_ovl s)) eqn:E; [eauto|].
  destruct (climbs_topmost _ _ _ Hc _ Hn) as (p & t & Ht & Hit & Htd). rewrite Ht.
  destruct (copy_up_one_grows (Some p) t f s) as [Hg [err He]].
  destruct (ovl_copy_up_one (Some p) t f s) as [r s1] eqn:Eone. cbn in Hg, He. subst r.
  destruct (Z.eqb_spec err 0) as [->|]; cbn [negb]; [|do 2 eexists; split; [done|done]].
  assert (Hcop : copied (Some p) t f (ws_ovl s1)) by (by apply copy_up_one_copied in Eone).
  assert (Hit1 : has_inode t (ws_ovl s1)) by (by eapply has_inode_lasting).
  pose proof (gr_size _ _ Hg) as Hsz.
  destruct (climbs_less _ _ _ _ Hc Hg _ _ _ Hn Ht) as (m & Hm & Hcm); [by apply Hcop|]. destruct n as [|n].
  - specialize (Htd eq_refl) as ->. destruct fuel as [|fuel]; [lia|]. cbn [copy_up_loop].
    assert (Ha : ovl_already_copied_up d f (ws_ovl s1) = true) by (by eapply copied_already).
    unfold ubind, uovl, uget. rewrite Ha. eauto.
  - apply (IH m); [cbn in Hm; lia|done|cbn in Hm; lia|cbn in Hm; lia].
Qed.

(** ** The tree *)

(** Every dentry has a parent with an inode, all ways lead to the root, and
    the root has an upper directory. *)
Record tree_ok o : Prop := TreeOk {
  tk_parent d x : vs_dentries o !! d = Some x → ∃ y, vs_dentries o !! od_parent x = Some y ∧ od_inode y ≠ None;
  tk_root : has_upper (vs_root o) o;
  tk_rank : ∃ rank : Z → nat, ∀ d x, vs_dentries o !! d = Some x →
    od_parent x = vs_root o ∨ (rank (od_parent x) < rank d)%nat
}.

Lemma climbs_exists o d x : tree_ok o → vs_dentries o !! d = Some x → od_inode x ≠ None → ∃ n, climbs o n d.
Proof.
  intros [Hp Hroot [rank Hr]]. remember (rank d) as k eqn:Hk. revert d x Hk.
  induction k as [k IH] using lt_wf_ind. intros d x Hk Hd Hi.
  assert (Ed : odentry_at d o = x) by (unfold odentry_at; by rewrite Hd).
  assert (Hid : has_inode d o) by (unfold has_inode; by rewrite Ed).
  destruct (decide (ovl_dentry_upper (od_parent (odentry_at d o)) o = None)) as [E|E].
  - destruct (Hp _ _ Hd) as (y & Hy & Hiy). destruct (Hr _ _ Hd) as [Hroot'|Hlt].
    { rewrite Ed, Hroot' in E. by destruct Hroot. }
    destruct (IH (rank (od_parent x)) ltac:(lia) _ _ eq_refl Hy Hiy) as [n Hn]. exists (S n).
    apply climbs_up; [done|by intros H|by rewrite Ed].
  - exists 0%nat. by apply climbs_here.
Qed.
Lemma climbs_unique o n m d : climbs o n d → climbs o m d → n = m.
Proof.
  intros Hn. revert m. induction Hn as [d Hi Hu|n d Hi Hu _ IH]; intros m Hm; inversion Hm; subst; try done.
  f_equal. by apply IH.
Qed.
(** The ones without an upper file are different dentries of the table. *)
Lemma climbs_path o n d : tree_ok o → climbs o n d → is_Some (vs_dentries o !! d) →
  ∃ l, length l = S n ∧ NoDup l ∧ ∀ e, e ∈ l → is_Some (vs_dentries o !! e) ∧ ∃ k, (k ≤ n)%nat ∧ climbs o k e.
Proof.
  intros Ho Hc. induction Hc as [d Hi Hu|n d Hi Hu Hc IH]; intros Hd.
  - exists [d]. split; [done|]. split; [apply NoDup_singleton|]. intros e ->%list_elem_of_singleton.
    split; [done|]. exists 0%nat. split; [lia|by apply climbs_here].
  - destruct IH as (l & Hl & Hnd & Hall).
    { destruct Hd as [x Hx]. destruct (tk_parent _ Ho _ _ Hx) as (y & Hy & _). unfold odentry_at. rewrite Hx. eauto. }
    assert (Hup : climbs o (S n) d) by (by apply climbs_up).
    exists (d :: l). split; [cbn; by rewrite Hl|]. split.
    + apply NoDup_cons. split; [|done]. intros Hin. destruct (Hall _ Hin) as (_ & k & Hk & Hck).
      pose proof (climbs_unique _ _ _ _ Hup Hck). lia.
    + intros e [->|He]%elem_of_cons; [split; [done|]; exists (S n); split; [lia|done]|].
      destruct (Hall _ He) as (? & k & ? & ?). split; [done|]. exists k. split; [lia|done].
Qed.
Lemma climbs_bound o n d : tree_ok o → climbs o n d → is_Some (vs_dentries o !! d) → (n < size (vs_dentries o))%nat.
Proof.
  intros Ho Hc Hd. destruct (climbs_path _ _ _ Ho Hc Hd) as (l & Hl & Hnd & Hall).
  assert (Hsub : (list_to_set l : gset Z) ⊆ dom (vs_dentries o)).
  { intros e He. apply elem_of_dom, Hall. by apply elem_of_list_to_set in He. }
  apply subseteq_size in Hsub. rewrite size_dom, size_list_to_set, Hl in Hsub by done. lia.
Qed.

(** C9: Copying up ends: in a table of dentries that is a tree whose root has an
    upper directory, the loop is over, at the latest, after as many turns as
    there are dentries -- the bound is enough for it --, and if it reports
    success then the file has its upper file, its name there, and its data if
    the flags ask for them. *)
Theorem copy_up_terminates (dentry flags : Z) s x :
  tree_ok (ws_ovl s) → vs_dentries (ws_ovl s) !! dentry = Some x → od_inode x ≠ None → od_disconnected x = false →
  ∃ err s',
    copy_up_loop (S (S (size (vs_dentries (ws_ovl s))))) dentry flags false s = (inr (Some err), s') ∧
    ovl_copy_up_flags dentry flags s = (inr err, s') ∧
    (err = 0 → ovl_already_copied_up dentry flags (ws_ovl s') = true).
Proof.
  intros Ho Hd Hi Hdisc. destruct (climbs_exists _ _ _ Ho Hd Hi) as [n Hn].
  pose proof (climbs_bound _ _ _ Ho Hn ltac:(eauto)) as Hb.
  destruct (copy_up_loop_ends flags dentry n (S (S (size (vs_dentries (ws_ovl s))))) s Hn) as (err & s' & Hl & Ha); [lia..|].
  exists err, s'. split; [done|]. split; [|done]. unfold ovl_copy_up_flags.
  assert (E : odentry_at dentry (ws_ovl s) = x) by (unfold odentry_at; by rewrite Hd).
  unfold ubind, uovl, uget. rewrite E, Hdisc. cbn [andb].
  assert (Hw : uwarn false s = (inr false, s)) by (by destruct s). rewrite Hw. cbv beta iota. by rewrite Hl.
Qed.
End loop.

(** ** The sample *)

Lemma fsys_missing_error t b n e : find_name t b n = inl e → e ≠ 0.
Proof. unfold find_name. destruct (_ && _); [done|]. by intros [= <-]. Qed.
#[export] Instance fsys_errors : ErrorLaws (W := fsys).
Proof.
  split.
  - intros w b n e. apply fsys_missing_error.
  - by intros w d m e [= <-].
  - intros w d e. cbn -[info_of]. destruct (de_inode _); [done|]. by intros [= <-].
  - intros w d n e. cbn. repeat case_match; by intros [= <-].
  - by intros w d e.
  - by intros w.
Qed.
Lemma sample_tree_ok : tree_ok (ws_ovl sample_wstate).
Proof.
  split.
  - assert (H : map_Forall (λ _ x, ∃ y, vs_dentries (ws_ovl sample_wstate) !! od_parent x = Some y ∧ od_inode y ≠ None)
      (vs_dentries (ws_ovl sample_wstate))); [|by apply H].
    repeat (apply map_Forall_insert_2; [eexists; split; [vm_compute; reflexivity|done]|]). apply map_Forall_empty.
  - by vm_compute.
  - set (rank := λ d : Z, if (d =? 102) || (d =? 104) then 1%nat else 0%nat). exists rank.
    assert (H : map_Forall (λ d x, od_parent x = 100 ∨ (rank (od_parent x) < rank d)%nat) (vs_dentries (ws_ovl sample_wstate))); [|by apply H].
    repeat (apply map_Forall_insert_2; [cbn; first [by left|right; cbn; lia]|]). apply map_Forall_empty.
Qed.
Lemma copy_up_terminates_witness :
  ∃ err s', copy_up_loop 7 102 O_WRONLY false sample_wstate = (inr (Some err), s') ∧
    ovl_copy_up_flags 102 O_WRONLY sample_wstate = (inr err, s') ∧
    (err = 0 → ovl_already_copied_up 102 O_WRONLY (ws_ovl s') = true).
Proof.
  exact (copy_up_terminates 102 O_WRONLY sample_wstate _ sample_tree_ok eq_refl ltac:(done) eq_refl).
Defined.
