(* ===== verification/OvlConnect.v ===== *)
(** * Looking up a decoded directory comes to an end

    [ovl_lookup_real] goes from ancestor to ancestor, in a file system and in
    the overlay, and starts again when it has lost its way.  Nobody moves
    directories while it runs, so every turn brings it nearer to the directory
    that it looks for: the walks are as long as the directory is deep, and what
    comes out is the overlay's dentry of that directory. *)
From S2P Require Import Prelude CString OS OvlOptions OvlVfs OvlHandle OvlLogic OvlLookup OvlLayers OvlIno OvlReaddir OvlDirFile OvlWrite OvlTemp OvlInode OvlCopyUp OvlSpare OvlCopyLoop OvlExport.
Open Scope Z_scope.

Create HintDb looking.

Section connect.
Context {W : Type} {K : Vfs W} {VS : VfsStat W} {VW : VfsWrite W} {VE : VfsExport W} {R : RbLib}.
Implicit Types s : wstate W.
Implicit Types o : vstate W.

(** What lookups leave as it is: they add dentries, and the real files of a
    dentry that is there stay. *)
Record finds s s' : Prop := Finds {
  fi_files : same_files K (ws_world s) (ws_world s');
  fi_fs : vs_fs (ws_ovl s') = vs_fs (ws_ovl s);
  fi_root : vs_root (ws_ovl s') = vs_root (ws_ovl s);
  fi_real d idx r : ovl_dentry_real_at d idx (ws_ovl s) = Some r → ovl_dentry_real_at d idx (ws_ovl s') = Some r
}.
#[export] Instance finds_preorder : PreOrder finds.
Proof.
  split; [by split|]. intros s1 s2 s3 [] []. split; [by etransitivity|congruence|congruence|auto].
Qed.
(** The same for a function that only reads: the objects are the same. *)
Record reads o o' : Prop := Reads {
  rd_files : same_files K (vs_world o) (vs_world o');
  rd_rest : (vs_fs o', vs_root o', vs_dentries o', vs_inodes o') = (vs_fs o, vs_root o, vs_dentries o, vs_inodes o)
}.
#[export] Instance reads_preorder : PreOrder reads.
Proof. split; [by split|]. intros o1 o2 o3 [] []. split; [by etransitivity|congruence]. Qed.
Lemma quiet_reads o o' : OvlLogic.quiet o o' → reads o o'.
Proof. intros [Hf Hs Hr Hd Hi _]. split; [done|]. by rewrite Hs, Hr, Hd, Hi. Qed.

Definition vreads {A} (m : V W A) : Prop := ∀ o, reads o (snd (m o)).
Lemma vreads_bind {A B} (m : V W A) (f : A → V W B) : vreads m → (∀ a, vreads (f a)) → vreads (vbind m f).
Proof. intros Hm Hf o. specialize (Hm o). unfold vbind. destruct (m o) as [[e|a] o']; cbn in *; [done|]. etransitivity; [exact Hm|apply Hf]. Qed.
Lemma vreads_ret {A} (r : res A) : vreads (λ o, (r, o)).
Proof. intros o. reflexivity. Qed.
Lemma vreads_get {A} (f : vstate W → A) : vreads (vget f).
Proof. intros o. reflexivity. Qed.
Lemma vreads_spec {A} (m : V W A) : (∀ o, vspec o m (λ _, True)) → vreads m.
Proof. intros H o. apply quiet_reads. by destruct (H o o ltac:(reflexivity)). Qed.

(** [looks s m E Q]: a run of [m] from [s] only finds, its error satisfies [E]
    and its result [Q]. *)
Definition looks {A} s (m : U W A) (E : Z → Prop) (Q : A → wstate W → Prop) : Prop :=
  finds s (snd (m s)) ∧ match fst (m s) with inl e => E e | inr a => Q a (snd (m s)) end.
Lemma looks_bind {A B} s (m : U W A) (f : A → U W B) (E : Z → Prop) P Q :
  looks s m E P → (∀ a s', finds s s' → P a s' → looks s' (f a) E Q) → looks s (ubind m f) E Q.
Proof.
  intros [Hs Hr] Hf. unfold looks, ubind. destruct (m s) as [[e|a] s']; cbn in *; [by split|].
  destruct (Hf a s' Hs Hr) as [Hs' Hr']. split; [by etransitivity|done].
Qed.
Lemma looks_try {A B} s (m : U W A) (bad : Z → U W B) (k : A → U W B) (E E' : Z → Prop) P Q :
  looks s m E P → (∀ e s', finds s s' → E e → looks s' (bad e) E' Q) → (∀ a s', finds s s' → P a s' → looks s' (k a) E' Q) →
  looks s (utry m bad k) E' Q.
Proof.
  intros [Hs Hr] Hb Hk. unfold looks, utry. destruct (m s) as [[e|a] s']; cbn in *.
  - destruct (Hb e s' Hs Hr) as [Hs' Hr']. split; [by etransitivity|done].
  - destruct (Hk a s' Hs Hr) as [Hs' Hr']. split; [by etransitivity|done].
Qed.
Lemma looks_ret {A} s (a : A) E (Q : A → wstate W → Prop) : Q a s → looks s (uret a) E Q.
Proof. by split. Qed.
Lemma looks_fail {A} s e (E : Z → Prop) (Q : A → wstate W → Prop) : E e → looks s (ufail e) E Q.
Proof. by split. Qed.
Lemma looks_get {A} s (f : wstate W → A) E (Q : A → wstate W → Prop) : Q (f s) s → looks s (uget f) E Q.
Proof. by split. Qed.
Lemma looks_mono {A} s (m : U W A) (E E' : Z → Prop) (P Q : A → wstate W → Prop) :
  looks s m E P → (∀ e, E e → E' e) → (∀ a s', P a s' → Q a s') → looks s m E' Q.
Proof. intros [Hs Hr] HE HQ. split; [done|]. destruct (fst (m s)); auto. Qed.
Lemma looks_lift {A} s (m : V W A) : vreads m → looks s (ulift m) (λ _, True) (λ _ _, True).
Proof.
  intros H. unfold looks, ulift. specialize (H (ws_ovl s)). destruct (m (ws_ovl s)) as [r o]. cbn in *. split; [|by destruct r].
  destruct H as [Hf Hrest]. injection Hrest as H1 H2 H3 H4. split; [done..|]. intros d idx r'. cbn.
  unfold ovl_dentry_real_at, ovl_dentry_upper, d_inode, lowerstack, odentry_at, oinode_at. by rewrite H3, H4.
Qed.

Context {L : ExportLaws K} {WL : WriteLaws K}.
Lemma vreads_kmalloc : vreads vkmalloc.
Proof. apply vreads_spec. intros o. by apply vspec_kmalloc. Qed.
Lemma vreads_encode real up : vreads (ovl_encode_real_fh real up).
Proof.
  intros o. pose proof (kmalloc_files (vs_world o)) as Hk.
  destruct (ovl_encode_real_fh_cases real up o) as [->|[->|[-> _]]]; by split.
Qed.
Lemma vreads_get_fh d ox : vreads (ovl_get_fh d ox).
Proof. apply vreads_spec. intros o. by apply vspec_get_fh. Qed.
Lemma vreads_decode fb mnt connected : vreads (ovl_decode_real_fh fb mnt connected).
Proof. apply vreads_spec. intros o. by apply vspec_decode. Qed.
Lemma vreads_if {A} (b : bool) (m m' : V W A) : vreads m → vreads m' → vreads (if b then m else m').
Proof. by destruct b. Qed.
#[local] Hint Resolve vreads_bind vreads_get vreads_kmalloc vreads_encode vreads_get_fh vreads_decode vreads_if : looking.
#[local] Hint Extern 1 (vreads (vret _)) => apply vreads_ret : looking.
#[local] Hint Extern 1 (vreads (vfail _)) => apply vreads_ret : looking.
#[local] Hint Extern 1 (∀ a, vreads _) => intros ? : looking.
#[local] Hint Extern 1 (vreads (dentry_at _)) => apply vreads_get : looking.
#[local] Hint Extern 1 (vreads ovl_indexdir) => apply vreads_get : looking.
#[local] Hint Extern 1 (vreads OvlVfs.ovl_upper_mnt) => apply vreads_get : looking.
#[local] Hint Extern 1 (vreads (lookup_positive _ _)) => apply vreads_get : looking.
Lemma vreads_lookup_index origin : vreads (ovl_lookup_index None origin false).
Proof.
  unfold ovl_lookup_index, ovl_get_index_name, ovl_get_index_name_fh. repeat (apply vreads_bind; [auto 10 with looking|intros ?]).
  destruct a2 as [e|index]; [auto with looking|]. apply vreads_bind; [auto with looking|]. intros i. rewrite andb_false_r. auto 10 with looking.
Qed.
Lemma vreads_index_upper index : vreads (ovl_index_upper index).
Proof.
  unfold ovl_index_upper. apply vreads_bind; [auto with looking|intros i]. apply vreads_if; [auto with looking|].
  apply vreads_bind; [auto with looking|intros [fb|]]; [|auto with looking].
  apply vreads_bind; [auto with looking|intros mnt]. apply vreads_bind; [auto with looking|intros [u|]]; auto 10 with looking.
Qed.
Lemma looks_lookup_inode s real up : looks s (ovl_lookup_inode real up) (λ _, True) (λ _ _, True).
Proof.
  unfold looks, ovl_lookup_inode. destruct (real_inode _ _); [|by split]. destruct (ilookup5 _ _); [|by split].
  destruct (negb _); by split.
Qed.

(** ** The way up *)

(** What has not changed is as deep as before; a lookup in the overlay finds,
    and is not the walk of a path that gives [-ECHILD]. *)
Class DcacheLaws : Prop := {
  depth_same w w' d : same_files K w w' → depth_of w' d = depth_of w d;
  lookup_finds s d n : finds s (snd (lookup_one_len s d n));
  lookup_error s d n : fst (lookup_one_len s d n) ≠ inl (- ECHILD)
}.
Context {DL : DcacheLaws}.

Fixpoint ups (w : W) (n : nat) (d : Z) : Z := match n with O => d | S n => de_parent (dentry_of w (ups w n d)) end.
(** On the way up from a dentry, each one but the root of the file system is
    deeper than its parent. *)
Definition grounded (w : W) (real : Z) : Prop := ∀ n,
  ups w (S n) real ≠ ups w n real → (depth_of w (ups w (S n) real) < depth_of w (ups w n real))%nat.
Lemma ups_same w w' n d : same_files K w w' → ups w' n d = ups w n d.
Proof. intros H. induction n as [|n IH]; [done|]. cbn [ups]. by rewrite IH, (same_dentry _ _ _ H). Qed.
Lemma grounded_same w w' d : same_files K w w' → grounded w d → grounded w' d.
Proof. intros H Hg n. rewrite !(ups_same w w') by done. rewrite !(depth_same w w') by done. apply Hg. Qed.
(** The root of the overlay has the root of the layer. *)
Definition rooted (layer : ovl_layer) o : Prop := ovl_dentry_real_at (vs_root o) (l_idx layer) o = Some (l_mnt layer).
Lemma rooted_finds layer s s' : finds s s' → rooted layer (ws_ovl s) → rooted layer (ws_ovl s').
Proof. intros Hf H. unfold rooted. rewrite (fi_root _ _ Hf). by apply (fi_real _ _ Hf). Qed.

Section walk.
Context (up : Z → U W (option Z)) (layer : ovl_layer) (w0 : W) (real : Z) (deep : grounded w0 real).
Abbreviation real_at d s := (ovl_dentry_real_at d (l_idx layer) (ws_ovl s)).
(** The states of the walk; [up] gives a result if it is needed. *)
Definition walking s : Prop :=
  same_files K w0 (ws_world s) ∧ rooted layer (ws_ovl s) ∧
  (l_idx layer ≠ 0 → ofs_indexdir (vs_fs (ws_ovl s)) ≠ None →
   ∀ s' u, finds s s' → looks s' (up u) (λ _, True) (λ r _, r ≠ None)).
Lemma walking_finds s s' : finds s s' → walking s → walking s'.
Proof.
  intros Hf (Hw & Hr & Hu). split_and!; [by rewrite Hw; apply (fi_files _ _ Hf)|by eapply rooted_finds|].
  rewrite (fi_fs _ _ Hf). intros Hi Hx s2 u Hs. apply Hu; [done..|by etransitivity].
Qed.
Lemma walking_dentry s d : walking s → dentry_of (ws_world s) d = dentry_of w0 d.
Proof. intros [Hw _]. apply Hw. Qed.
Lemma walking_depth s d : walking s → depth_of (ws_world s) d = depth_of w0 d.
Proof. intros [Hw _]. by apply depth_same. Qed.

Lemma looks_real_inode s d : walking s →
  looks s (ovl_lookup_real_inode up d layer) (λ _, True)
    (λ r s', match r with None => False | Some None => True | Some (Some this) => real_at this s' = Some d end).
Proof.
  intros Hw. unfold ovl_lookup_real_inode. eapply looks_bind; [apply looks_lookup_inode|]. intros inode s1 F1 _.
  eapply looks_bind with (P := λ _ _, True); [by destruct inode|]. intros this s2 F2 _.
  eapply looks_bind; [by apply (looks_get _ _ _ (λ a s, a = vs_fs (ws_ovl s) ∧ finds s2 s))|]. intros ofs s3 F3 [-> _].
  eapply looks_bind; [by apply (looks_get _ _ _ (λ _ _, True))|]. intros info s4 F4 _.
  assert (Hw4 : walking s4) by (do 4 (eapply walking_finds; [eassumption|]); done).
  assert (Hcheck : ∀ this s', finds s4 s' → looks s' (let! found := uovl (ovl_dentry_real_at this (l_idx layer)) in
    if negb (bool_decide (found = Some d)) then ufail (- EIO) else uret (Some (Some this))) (λ _, True)
    (λ r s', match r with None => False | Some None => True | Some (Some this) => real_at this s' = Some d end)).
  { intros x s' _. unfold looks, ubind, uovl, uget. case_bool_decide; by split. }
  eapply looks_bind with (P := λ dead s', finds s4 s' ∧ (dead = false → l_idx layer ≠ 0 ∧ ofs_indexdir (vs_fs (ws_ovl s3)) ≠ None)).
  { destruct (is_none this && negb (l_idx layer =? 0) && negb (is_none (ofs_indexdir (vs_fs (ws_ovl s3))))) eqn:E; [|by split].
    apply andb_true_iff in E as [[_ E1]%andb_true_iff E2].
    assert (Hr : vreads (warn_on (negb (d_is_dir info)))) by (intros o; unfold warn_on; cbn; destruct (negb (d_is_dir info)); by split).
    destruct (looks_lift s4 _ Hr) as [Hl _]. split; [done|]. cbn. split; [exact Hl|]. intros _.
    split; [by apply negb_true_iff, Z.eqb_neq in E1|]. by destruct (ofs_indexdir _). }
  intros dead s5 F5 [_ Hdead]. destruct dead.
  - eapply looks_bind; [by apply (looks_ret _ _ _ (λ a _, a = None))|]. intros index s6 F6 ->. destruct this as [this|]; [|by apply looks_ret].
    apply Hcheck. by etransitivity.
  - destruct (Hdead eq_refl) as [Hi Hx]. eapply looks_bind; [apply looks_lift, vreads_lookup_index|]. intros [index|] s6 F6 _.
    + eapply looks_bind; [apply looks_lift, vreads_index_upper|]. intros [u|] s7 F7 _; [|by apply looks_ret].
      assert (F47 : finds s4 s7) by (etransitivity; [exact F5|]; by etransitivity).
      eapply looks_bind.
      { destruct Hw4 as (_ & _ & Hup). apply Hup; [done| |done]. by rewrite (fi_fs _ _ F4). }
      intros [x|] s8 F8 Hne; [|done]. apply Hcheck. by etransitivity.
    + destruct this as [this|]; [|by apply looks_ret]. apply Hcheck. by etransitivity.
Qed.

(** The ancestor is one, and not too far up. *)
Definition an_ancestor (r : option Z) s : Prop :=
  ∃ d j, r = Some d ∧ real_at d s = Some (ups w0 j real) ∧ (j ≤ S (depth_of w0 real))%nat.
Lemma looks_ancestor_loop fuel k s : walking s → (depth_of w0 (ups w0 k real) < fuel)%nat →
  (k + depth_of w0 (ups w0 k real) ≤ depth_of w0 real)%nat →
  looks s (ancestor_loop up fuel (ups w0 k real) layer) (λ _, True) an_ancestor.
Proof.
  revert k s. induction fuel as [|fuel IH]; intros k s Hw Hf Hk; [lia|]. cbn [ancestor_loop].
  eapply looks_bind; [by apply (looks_get _ _ _ (λ a _, a = dentry_of w0 (ups w0 k real))), walking_dentry|].
  intros info s1 F1 ->. apply (walking_finds _ _ F1) in Hw. eapply looks_bind; [by apply looks_real_inode|].
  intros [[this|]|] s2 F2 Ht; [|clear Ht|done]; apply (walking_finds _ _ F2) in Hw.
  - apply looks_ret. exists this, k. split_and!; [done..|lia].
  - change (de_parent (dentry_of w0 (ups w0 k real))) with (ups w0 (S k) real). destruct (Z.eqb_spec (ups w0 (S k) real) (l_mnt layer)) as [E|E].
    + unfold looks, ubind, uovl, uget. cbn [fst snd uret]. split; [done|]. exists (vs_root (ws_ovl s2)), (S k). split; [done|]. split; [|lia].
      rewrite E. apply Hw.
    + destruct (Z.eqb_spec (ups w0 (S k) real) (ups w0 k real)) as [E'|E']; [by apply looks_fail|].
      pose proof (deep k E') as Hd. cbn [ups] in Hd. apply IH; [done|cbn [ups]; lia|cbn [ups]; lia].
Qed.
Lemma looks_ancestor s : walking s → looks s (ovl_lookup_real_ancestor up real layer) (λ _, True) an_ancestor.
Proof.
  intros Hw. unfold ovl_lookup_real_ancestor. destruct (Z.eqb_spec real (l_mnt layer)) as [E|E].
  - unfold looks, ubind, uovl, uget. cbn [fst snd uret]. split; [done|]. exists (vs_root (ws_ovl s)), 0%nat. split_and!; [done| |lia].
    cbn [ups]. rewrite E. apply Hw.
  - eapply looks_bind; [by apply (looks_get _ _ _ (λ a _, a = depth_of w0 real)), walking_depth|].
    intros n s1 F1 ->. apply (walking_finds _ _ F1) in Hw. apply (looks_ancestor_loop _ 0); [done|cbn [ups]; lia|done].
Qed.

(** The next one to look for is nearer than the one that is connected. *)
Lemma topmost_real_spec fuel k n w : same_files K w0 w → (depth_of w0 (ups w0 k real) < fuel)%nat → (k < n)%nat →
  ∃ r, topmost_real fuel (ups w0 k real) (Some (ups w0 n real)) layer w = Some r ∧
    match r with
    | inl e => e = - EXDEV
    | inr (x, top) => ∃ j, (j < n)%nat ∧ x = ups w0 j real ∧
        de_parent (dentry_of w0 x) = if top : bool then l_mnt layer else ups w0 n real
    end.
Proof.
  intros Hw. revert k. induction fuel as [|fuel IH]; intros k Hf Hk; [lia|]. cbn [topmost_real]. rewrite (same_dentry _ _ _ Hw).
  change (de_parent (dentry_of w0 (ups w0 k real))) with (ups w0 (S k) real). case_bool_decide as E.
  - injection E as E. eexists. split; [done|]. exists k. by split_and!.
  - destruct (Z.eqb_spec (ups w0 (S k) real) (l_mnt layer)) as [E1|E1]; [eexists; split; [done|]; exists k; by split_and!|].
    destruct (Z.eqb_spec (ups w0 (S k) real) (ups w0 k real)) as [E2|E2]; [by eexists|].
    pose proof (deep k E2) as Hd. cbn [ups] in Hd. apply IH; [cbn [ups]; lia|].
    assert (S k ≠ n) by congruence. lia.
Qed.
(** A child that is looked up below its parent. *)
Lemma looks_real_one s connected child : walking s → real_at connected s = Some (de_parent (dentry_of w0 child)) →
  looks s (ovl_lookup_real_one connected child layer) (λ e, e ≠ - ECHILD) (λ this s', real_at this s' = Some child).
Proof.
  intros Hw Hc. unfold ovl_lookup_real_one.
  eapply looks_bind; [by apply (looks_get _ _ _ (λ a s', a = dentry_of w0 child ∧ s' = s)); split; [apply walking_dentry|]|].
  intros info s1 F1 [-> ->]. eapply looks_bind; [by apply (looks_get _ _ _ (λ a s', a = Some (de_parent (dentry_of w0 child)) ∧ s' = s))|].
  intros place s2 F2 [-> ->]. rewrite bool_decide_eq_true_2 by done. cbn [negb].
  eapply looks_bind with (P := λ _ _, True).
  { pose proof (lookup_finds s connected (de_name (dentry_of w0 child))) as Hf. pose proof (lookup_error s connected (de_name (dentry_of w0 child))) as He.
    split; [done|]. destruct (fst _); [congruence|done]. }
  intros this s3 F3 _. unfold looks, ubind, uovl, uget. cbn [fst snd]. destruct (is_none _); [by split|].
  case_bool_decide; by split.
Qed.
Lemma looks_connect n : ∀ fuel s connected, walking s → real_at connected s = Some (ups w0 n real) → (n < fuel)%nat →
  looks s (connect_real up fuel connected real layer) (λ _, True) (λ r s', ∃ d, r = Some d ∧ real_at d s' = Some real).
Proof.
  induction n as [n IH] using lt_wf_ind. intros [|fuel] s connected Hw Hc Hn; [lia|]. cbn [connect_real].
  eapply looks_bind; [by apply (looks_get _ _ _ (λ a s', a = Some (ups w0 n real) ∧ s' = s))|]. intros rc s1 F1 [-> ->].
  case_bool_decide as E; [apply looks_ret; exists connected; by rewrite Hc, E|].
  destruct n as [|n]; [done|].
  destruct (topmost_real_spec (S (depth_of w0 real)) 0 (S n) (ws_world s)) as (r & Hr & Hspec); [apply Hw|cbn [ups]; lia|lia|].
  eapply looks_bind; [apply (looks_get _ _ _ (λ a s', a = Some r ∧ s' = s)); split; [|done]; by rewrite (walking_depth _ _ Hw)|].
  intros next s2 F2 [-> ->]. destruct r as [e|[x top]]; [by apply looks_fail|]. destruct Hspec as (j & Hj & -> & Hp).
  eapply looks_bind; [by apply (looks_get _ _ _ (λ a s', a = vs_root (ws_ovl s) ∧ s' = s))|]. intros root s3 F3 [-> ->].
  eapply looks_try with (E := λ e, e ≠ - ECHILD) (P := λ this s', ∃ d, this = Some d ∧ real_at d s' = Some (ups w0 j real)).
  - eapply looks_bind; [apply looks_real_one; [done|]|intros this s4 F4 Ht; apply looks_ret; by exists this].
    destruct top; rewrite Hp; [apply Hw|done].
  - intros e s4 _ He. rewrite (proj2 (Z.eqb_neq _ _)) by done. by apply looks_fail.
  - intros this s4 F4 (d & -> & Hd). apply (IH j); [lia|by apply (walking_finds s)|done|lia].
Qed.
Lemma looks_real s : walking s →
  looks s (lookup_real_in up real layer) (λ _, True) (λ r s', ∃ d, r = Some d ∧ real_at d s' = Some real).
Proof.
  intros Hw. unfold lookup_real_in. eapply looks_bind; [by apply looks_ancestor|]. intros r s1 F1 (d & j & -> & Hd & Hj).
  apply (walking_finds _ _ F1) in Hw. eapply looks_bind; [by apply (looks_get _ _ _ (λ a s', a = depth_of w0 real ∧ s' = s1)); split; [apply walking_depth|]|].
  intros n s2 F2 [-> ->]. by apply (looks_connect j); [..|lia].
Qed.
End walk.

Lemma looks_real_upper real s : grounded (ws_world s) real → rooted (upper_layer (vs_fs (ws_ovl s))) (ws_ovl s) →
  looks s (ovl_lookup_real_upper real) (λ _, True) (λ r _, r ≠ None).
Proof.
  intros Hd Hr. unfold ovl_lookup_real_upper.
  eapply looks_bind; [by apply (looks_get _ _ _ (λ a s', a = vs_fs (ws_ovl s) ∧ s' = s))|]. intros ofs s1 F1 [-> ->].
  eapply looks_mono; [apply (looks_real _ _ (ws_world s)); [done|]|done|by intros a s' (d & -> & _)].
  split_and!; [reflexivity|done|by intros H].
Qed.

End connect.

(** ** Encoding ends, too *)

Section encode.
Context {W : Type} {K : Vfs W} {VS : VfsStat W} {VW : VfsWrite W} {VE : VfsExport W} {R : RbLib}.
Implicit Types s : wstate W.
Implicit Types o : vstate W.

(** The dentries [X] are behind the walk. *)
Lemma connect_loop_ends (rank : Z → nat) origin fuel : ∀ (X : gset Z) next s, let o := ws_ovl s in
  (∀ d x, vs_dentries o !! d = Some x → is_Some (vs_dentries o !! od_parent x) ∧ (od_parent x = vs_root o ∨ (rank (od_parent x) < rank d)%nat)) →
  od_parent (odentry_at (vs_root o) o) = vs_root o →
  is_Some (vs_dentries o !! next) → X ⊆ dom (vs_dentries o) → next ∉ X → vs_root o ∉ X →
  (∀ x, x ∈ X → next = vs_root o ∨ (rank next < rank x)%nat) → (size (vs_dentries o) < size X + fuel)%nat →
  fst (connect_loop fuel origin next s) ≠ inr None.
Proof.
  induction fuel as [|fuel IH]; intros X next s o Ht Hroot [x Hx] HX Hn Hr Hrank Hsize.
  - assert (Hsub : {[next]} ∪ X ⊆ dom (vs_dentries o)) by (apply union_subseteq; split; [apply singleton_subseteq_l, elem_of_dom; eauto|done]).
    apply subseteq_size in Hsub. rewrite size_union, size_singleton, size_dom in Hsub by set_solver. lia.
  - cbn [connect_loop]. unfold ubind, uovl, uget. cbv beta iota. fold o. assert (E : odentry_at next o = x) by (unfold odentry_at; by rewrite Hx).
    rewrite E. destruct (Z.eqb_spec (od_parent x) next) as [Ep|Ep]; [by cbn|].
    assert (Hw : uwarn false s = (inr false, s)) by (by destruct s). rewrite Hw. fold o.
    destruct (_ <? origin); [by destruct (ovl_encode_maybe_copy_up next s) as [[e|err] s']|].
    destruct (_ || _); [done|]. destruct (Ht _ _ Hx) as [Hp Hlt].
    assert (Hnr : next ≠ vs_root o) by (intros ->; apply Ep; by rewrite <- E at 1).
    apply (IH ({[next]} ∪ X)); fold o; [done|done|done| | | | |].
    + apply union_subseteq. split; [apply singleton_subseteq_l, elem_of_dom; eauto|done].
    + intros [Hy%elem_of_singleton|Hy]%elem_of_union; [done|]. destruct Hlt as [Hlt|Hlt]; [by rewrite Hlt in Hy|].
      destruct (Hrank _ Hy) as [|Hlt']; [done|lia].
    + set_solver.
    + intros y [->%elem_of_singleton|Hy]%elem_of_union; [done|]. destruct Hlt as [|Hlt]; [by left|]. right.
      destruct (Hrank _ Hy); [done|lia].
    + rewrite size_union, size_singleton by set_solver. lia.
Qed.
(** The walk of [ovl_connect_layer] to a connected directory ends, in a table
    of dentries that is a tree. *)
Theorem ovl_connect_layer_ends (dentry origin : Z) x s : tree_ok (ws_ovl s) →
  od_parent (odentry_at (vs_root (ws_ovl s)) (ws_ovl s)) = vs_root (ws_ovl s) → vs_dentries (ws_ovl s) !! dentry = Some x →
  fst (connect_loop (S (size (vs_dentries (ws_ovl s)))) origin dentry s) ≠ inr None.
Proof.
  intros [Hp _ [rank Hr]] Hroot Hx. apply (connect_loop_ends rank origin _ ∅); [|done|by eexists|set_solver..|].
  - intros d y Hy. destruct (Hp _ _ Hy) as (z & Hz & _). split; [by eexists|by apply Hr].
  - rewrite size_empty. lia.
Qed.
End encode.
