(* ===== verification/OvlFileRefs.v ===== *)
(** * References to real files

    A real file of a layer is kept open by the files of the overlay, by the
    requests in flight, by the mappings of memory and, within an operation, by
    the [fd] that is in hand.  The ledger says that every count is the number
    of those: so no operation closes a real file that is still used, and, as
    long as all requests are synchronous, none forgets to close one. *)
From S2P Require Import Prelude CString OS OvlOptions OvlVfs OvlHandle OvlLookup OvlLayers OvlIno OvlReaddir OvlDirFile OvlWrite OvlTemp OvlInode OvlCopyUp OvlCreate OvlRemove OvlAttr OvlWorkdir OvlSuper OvlFile OvlSpare OvlFileSafe OvlCopyLoop.
Open Scope Z_scope.

Create HintDb quiet.

(** ** Sums over tables *)

Section total.
Context {A : Type} (f : A → nat).
Definition total (m : gmap nat A) : nat := map_fold (λ _ x n, (f x + n)%nat) 0%nat m.
Lemma total_empty : total ∅ = 0%nat.
Proof. apply map_fold_empty. Qed.
Lemma total_insert i x m : m !! i = None → total (<[i := x]> m) = (f x + total m)%nat.
Proof. intros H. unfold total. rewrite map_fold_insert_L; [done| |done]. intros. lia. Qed.
Lemma total_delete i x m : m !! i = Some x → total m = (f x + total (delete i m))%nat.
Proof. intros H. rewrite <- (insert_delete_id m i x H) at 1. by rewrite total_insert by apply lookup_delete_eq. Qed.
Lemma total_replace i x y m : m !! i = Some x → (total (<[i := y]> m) + f x = total m + f y)%nat.
Proof.
  intros H. rewrite (total_delete i x m H), <- (insert_delete_eq m i y), total_insert by apply lookup_delete_eq. lia.
Qed.
Lemma alter_insert g i x (m : gmap nat A) : m !! i = Some x → alter g i m = <[i := g x]> m.
Proof. intros H. rewrite <- (insert_id m i x H) at 1. by rewrite alter_insert_eq. Qed.
Lemma alter_none g i (m : gmap nat A) : m !! i = None → alter g i m = m.
Proof. intros H. apply map_eq. intros j. destruct (decide (i = j)) as [->|]; [by rewrite lookup_alter_eq, H|by rewrite lookup_alter_ne]. Qed.
Lemma total_alter g i x m : m !! i = Some x → (total (alter g i m) + f x = total m + f (g x))%nat.
Proof. intros H. rewrite (alter_insert g i x m H). by apply total_replace. Qed.
Lemma total_same g i m : (∀ x, f (g x) = f x) → total (alter g i m) = total m.
Proof.
  intros Hg. destruct (m !! i) as [x|] eqn:E; [|by rewrite alter_none]. pose proof (total_alter g i x m E) as H. rewrite Hg in H. lia.
Qed.
Lemma total_at i x m : m !! i = Some x → (f x ≤ total m)%nat.
Proof. intros H. rewrite (total_delete i x m H). lia. Qed.
End total.

Section refs.
Context {W : Type} {K : Vfs W} {VS : VfsStat W} {VW : VfsWrite W} {R : RbLib} {L : MountLib W} {SL : SuperLib W} {VF : VfsFile W}.
Implicit Types s : fstate W.
Implicit Types h : list nat.

(** ** The ledger *)

Definition is_one (a b : nat) : nat := if decide (a = b) then 1%nat else 0%nat.
Definition private_uses (r : nat) (p : private_data) : nat :=
  match p with
  | PNull => 0%nat
  | PFile real => is_one real r
  | PDir od => (is_one (dr_realfile od) r + from_option (λ u, is_one u r) 0%nat (dr_upperfile od))%nat
  end.
Definition file_uses (r : nat) (f : open_file) : nat := private_uses r (of_private f).
Definition aio_uses (r : nat) (a : ovl_aio_req) : nat := is_one (ar_filp a) r.
Definition vma_uses (r : nat) (v : vma) : nat := match vm_file v with MReal real => is_one real r | MOverlay _ => 0%nat end.
Definition uses (r : nat) s : nat :=
  (total (file_uses r) (fs_files s) + total (aio_uses r) (fs_aios s) + total (vma_uses r) (fs_vmas s))%nat.
(** The references in hand. *)
Fixpoint held (r : nat) h : nat := match h with [] => 0%nat | x :: h => (is_one x r + held r h)%nat end.

(** The ledger, while the file [new] is being opened. *)
Record ledger (new : option nat) h s : Prop := Ledger {
  lg_count r : rf_count <$> fs_reals s !! r =
    if (uses r s + held r h =? 0)%nat then None else Some (Z.of_nat (uses r s + held r h));
  lg_next r : is_Some (fs_reals s !! r) → (r < fs_next s)%nat;
  lg_aios k : is_Some (fs_aios s !! k) → (k < fs_next_aio s)%nat;
  lg_plain f x : fs_files s !! f = Some x →
    od_is_dir (odentry_at (of_dentry x) (fs_ovl s)) = false ∧ ((∃ r, of_private x = PFile r) ∨ (new = Some f ∧ of_private x = PNull))
}.

(** A step that neither takes nor gives back a reference. *)
Record quiet_step s s' : Prop := QuietStep {
  qs_uses r : uses r s' = uses r s;
  qs_counts r : rf_count <$> fs_reals s' !! r = rf_count <$> fs_reals s !! r;
  qs_next : fs_next s' = fs_next s;
  qs_aios k : fs_aios s' !! k = None ↔ fs_aios s !! k = None;
  qs_next_aio : fs_next_aio s' = fs_next_aio s;
  qs_vmas v : vm_file <$> fs_vmas s' !! v = vm_file <$> fs_vmas s !! v;
  qs_files f : (λ x, (of_dentry x, of_private x)) <$> fs_files s' !! f = (λ x, (of_dentry x, of_private x)) <$> fs_files s !! f;
  qs_grows : grows (fs_ovl s) (fs_ovl s')
}.
#[local] Instance quiet_step_preorder : PreOrder quiet_step.
Proof.
  split; [by split|]. intros s1 s2 s3 [] []. split; intros; try congruence; [by rewrite qs_aios1|by etransitivity].
Qed.
(** What such steps keep. *)
Definition calm (P : fstate W → Prop) : Prop := ∀ s s', quiet_step s s' → P s → P s'.
Lemma ledger_quiet new h : calm (ledger new h).
Proof.
  intros s s' [Hu Hc Hn Ha Hna _ Hf Hg] [L1 L2 L3 L4]. split.
  - intros r. rewrite Hc, Hu. apply L1.
  - intros r Hr. rewrite Hn. apply L2. specialize (Hc r). destruct Hr as [x Hx]. rewrite Hx in Hc. destruct (fs_reals s !! r); [eauto|done].
  - intros k Hk. rewrite Hna. apply L3. apply not_eq_None_Some. intros E. apply not_eq_None_Some in Hk. by apply Hk, Ha.
  - intros f x Hx. specialize (Hf f). rewrite Hx in Hf. destruct (fs_files s !! f) as [y|] eqn:Ey; [|done].
    injection Hf as Hd Hp. destruct (L4 f y Ey) as [Hdir Hr]. rewrite (gr_is_dir _ _ Hg), Hd, Hp. by split.
Qed.

Definition live (r : nat) s : Prop := is_Some (fs_reals s !! r).
Definition all_opened (G : list nat) s : Prop := ∀ g, g ∈ G → opened g s.
Definition overlay_mapped (v file : nat) s : Prop := ∃ x, fs_vmas s !! v = Some x ∧ vm_file x = MOverlay file.
Lemma live_quiet r : calm (live r).
Proof. intros s s' Hq [x Hx]. pose proof (qs_counts _ _ Hq r) as Hc. rewrite Hx in Hc. unfold live. destruct (fs_reals s' !! r); [eauto|done]. Qed.
Lemma opened_quiet G : calm (all_opened G).
Proof.
  intros s s' Hq H f Hf. destruct (H f Hf) as [x Hx]. pose proof (qs_files _ _ Hq f) as Hc. rewrite Hx in Hc. unfold opened.
  destruct (fs_files s' !! f); [eauto|done].
Qed.
Lemma mapped_quiet v file : calm (overlay_mapped v file).
Proof.
  intros s s' Hq (x & Hx & Hm). pose proof (qs_vmas _ _ Hq v) as Hc. rewrite Hx in Hc. unfold overlay_mapped.
  destruct (fs_vmas s' !! v) as [y|]; [|done]. injection Hc as Hc. exists y. by rewrite Hc.
Qed.
Lemma calm_and P Q : calm P → calm Q → calm (λ s, P s ∧ Q s).
Proof. intros HP HQ s s' Hq []. split; [by apply (HP s)|by apply (HQ s)]. Qed.
(** What is used, or in hand, is there. *)
Lemma ledger_live new h s r : ledger new h s → (uses r s + held r h ≠ 0)%nat → live r s.
Proof.
  intros Hl Hn. pose proof (lg_count _ _ _ Hl r) as H. destruct (Nat.eqb_spec (uses r s + held r h) 0); [done|].
  unfold live. destruct (fs_reals s !! r); [eauto|done].
Qed.
Lemma file_live new h s f x r : ledger new h s → fs_files s !! f = Some x → of_private x = PFile r → live r s.
Proof.
  intros Hl Hx Hp. eapply ledger_live; [exact Hl|]. unfold uses. pose proof (total_at (file_uses r) f x _ Hx) as H.
  assert (file_uses r x = 1%nat) by (unfold file_uses, private_uses, is_one; rewrite Hp; by rewrite decide_True). lia.
Qed.

(** ** What takes no references *)

Definition quiet {A} (m : F W A) : Prop := ∀ s, quiet_step s (snd (m s)) ∧ ∃ a, fst (m s) = inr a.
Lemma quiet_bind {A B} (m : F W A) (f : A → F W B) : quiet m → (∀ a, quiet (f a)) → quiet (fbind m f).
Proof.
  intros H Hf s. destruct (H s) as [Hs [a Ha]]. unfold fbind. destruct (m s) as [r s1]; cbn in *. subst r.
  destruct (Hf a s1) as [? ?]. split; [by etransitivity|done].
Qed.
Lemma quiet_get {A} (f : fstate W → A) : quiet (fget f).
Proof. intros s. split; [reflexivity|by eexists]. Qed.
Lemma quiet_fret {A} (a : A) : quiet (fret a).
Proof. intros s. split; [reflexivity|by eexists]. Qed.
Lemma quiet_if {A} (b : bool) (m m' : F W A) : quiet m → quiet m' → quiet (if b then m else m').
Proof. by destruct b. Qed.
Lemma quiet_flift {A} (m : U W A) : (∀ ws, grows (ws_ovl ws) (ws_ovl (snd (m ws))) ∧ ∃ a, fst (m ws) = inr a) → quiet (flift m).
Proof.
  intros Hm s. specialize (Hm (fs_ws s)) as [Hm [a Ha]]. unfold flift, fsuper, slift. fold (fs_ws s).
  destruct (m (fs_ws s)) as [r ws]. cbn in *. subst r. split; [|by eexists]. split; try done. exact (synced_grows _ s ws Hm).
Qed.
Lemma quiet_safe {A} (m : U W A) Q : usafe anywhere always grows false m Q → quiet (flift m).
Proof.
  intros H. apply quiet_flift. intros ws. destruct (H ws (anywhere_state ws)) as [[_ _ Hg _] Hr]. split; [exact Hg|].
  destruct (fst (m ws)); [done|by eexists].
Qed.

#[local] Existing Instance always_preorder.
#[local] Existing Instance anywhere_laws.
Lemma quiet_uwarn b : quiet (flift (uwarn b)).
Proof. eapply quiet_safe, (usafe_uwarn _ _ grows (λ _ _ H, H) false). Qed.
Lemma quiet_copyattr i : quiet (flift (ovl_copyattr i)).
Proof. apply quiet_flift. intros ws. split; [by split|by eexists]. Qed.
Lemma quiet_update_winode i f : quiet (flift (update_winode i f)).
Proof. apply quiet_flift. intros ws. split; [by split|by eexists]. Qed.
Lemma quiet_fkmalloc : quiet (flift ukmalloc).
Proof. eapply quiet_safe, (usafe_ukmalloc _ _ grows (λ _ _ H, H) false). Qed.
Lemma quiet_path_open d b : quiet (flift (ovl_path_open d b)).
Proof. eapply quiet_safe, (usafe_path_open _ _ grows false). Qed.
Lemma quiet_setattr d a : quiet (flift (ovl_setattr d a)).
Proof. eapply quiet_safe, (usafe_setattr _ _ grows (λ _ _ H, H) false). Qed.
Lemma quiet_maybe_copy_up d f : quiet (flift (ovl_maybe_copy_up d f)).
Proof. eapply quiet_safe, (usafe_maybe_copy_up _ _ grows (λ _ _ H, H) false). Qed.
Lemma quiet_serve_attr r : quiet (flift (serve_attr r)).
Proof. eapply quiet_safe, (safe_serve_attr anywhere always). Qed.
Lemma quiet_fcall {A} (f : W → A * W) : quiet (fcall f).
Proof. apply quiet_flift. intros ws. destruct (f (ws_world ws)) as [a w]. split; [by split|by eexists]. Qed.
Lemma quiet_sync_status : quiet (fsuper ovl_sync_status).
Proof.
  intros s. unfold fsuper. pose proof (sync_status_same (fs_super s)) as E.
  assert (Hr : ∃ z, fst (ovl_sync_status (fs_super s)) = inr z).
  { unfold ovl_sync_status, sbind, sget. cbn. destruct (ovl_should_sync _); [by eexists|]. cbn. destruct (mf_upper _); by eexists. }
  destruct (ovl_sync_status (fs_super s)) as [r x]. cbn in *. subst x. split; [by destruct s|done].
Qed.
(** Updates of the tables that count nothing. *)
Lemma quiet_update (f : fstate W → fstate W) :
  (∀ s, (fs_super (f s), fs_files (f s), fs_reals (f s), fs_next (f s)) = (fs_super s, fs_files s, fs_reals s, fs_next s)) →
  (∀ s, (fs_aios (f s), fs_next_aio (f s), fs_vmas (f s)) = (fs_aios s, fs_next_aio s, fs_vmas s)) → quiet (fupdate f).
Proof.
  intros Hf Hg s. injection (Hf s) as E1 E2 E3 E4. injection (Hg s) as E5 E6 E7. cbn. split; [|by eexists].
  split; intros; try (by rewrite ?E2, ?E3, ?E4, ?E5, ?E6, ?E7); [unfold uses; by rewrite E2, E5, E7|unfold fs_ovl, fs_ws; by rewrite E1].
Qed.
Lemma quiet_update_iocb k f : quiet (update_iocb k f).
Proof. by apply quiet_update. Qed.
Lemma quiet_start_write : quiet file_start_write.
Proof. by apply quiet_update. Qed.
Lemma quiet_end_write : quiet file_end_write.
Proof. by apply quiet_update. Qed.
Lemma quiet_update_real r f : (∀ x, rf_count (f x) = rf_count x) → quiet (update_real r f).
Proof.
  intros Hf s. split; [|by eexists]. split; try done. intros r'. cbn. destruct (decide (r = r')) as [->|]; [rewrite lookup_alter_eq|by rewrite lookup_alter_ne].
  destruct (_ !! r'); cbn; [by rewrite Hf|done].
Qed.
Lemma quiet_update_ofile file f : (∀ x, (of_dentry (f x), of_private (f x)) = (of_dentry x, of_private x)) → quiet (update_ofile file f).
Proof.
  intros Hf s. split; [|by eexists]. split; try done.
  - intros r. unfold uses. cbn. rewrite total_same; [done|]. intros x. unfold file_uses. injection (Hf x) as _ ->. done.
  - intros g. cbn. destruct (decide (file = g)) as [->|]; [rewrite lookup_alter_eq|by rewrite lookup_alter_ne].
    destruct (_ !! g); cbn; [by rewrite Hf|done].
Qed.
Lemma quiet_update_aio req f : (∀ x, ar_filp (f x) = ar_filp x) → quiet (update_aio req f).
Proof.
  intros Hf s. split; [|by eexists]. split; try done.
  - intros r. unfold uses. cbn. rewrite total_same; [done|]. intros x. unfold aio_uses. by rewrite Hf.
  - intros k. cbn. destruct (decide (req = k)) as [->|]; [rewrite lookup_alter_eq|by rewrite lookup_alter_ne]. by destruct (_ !! k).
Qed.
Lemma quiet_get_ofile f : quiet (get_ofile f).
Proof. by apply quiet_update_ofile. Qed.
Lemma quiet_update_prfile v x : quiet (update_vma v (set_vm_prfile x)).
Proof.
  intros s. split; [|by eexists]. split; try done.
  - intros r. unfold uses. cbn. by rewrite total_same.
  - intros k. cbn. destruct (decide (v = k)) as [->|]; [rewrite lookup_alter_eq|by rewrite lookup_alter_ne]. by destruct (_ !! k).
Qed.
Lemma quiet_on_real r c : quiet (on_real r c).
Proof. apply quiet_bind; [apply quiet_get|]. intros f. apply quiet_fcall. Qed.
#[local] Hint Resolve quiet_bind quiet_get quiet_fret quiet_if quiet_uwarn quiet_copyattr quiet_update_winode quiet_fkmalloc quiet_path_open
  quiet_setattr quiet_maybe_copy_up quiet_fcall quiet_sync_status quiet_update_iocb quiet_start_write quiet_end_write quiet_get_ofile
  quiet_update_prfile quiet_on_real : quiet.
#[local] Hint Extern 1 (∀ a, quiet _) => intros ? : quiet.
#[local] Hint Extern 1 (quiet (fread _)) => apply quiet_get : quiet.
#[local] Hint Extern 1 (quiet (fobjects _)) => apply quiet_get : quiet.
#[local] Hint Extern 1 (quiet (update_real _ _)) => by apply quiet_update_real : quiet.
#[local] Hint Extern 1 (quiet (update_aio _ _)) => by apply quiet_update_aio : quiet.
#[local] Hint Extern 1 (quiet (update_ofile _ _)) => by apply quiet_update_ofile : quiet.

Lemma quiet_realdata i : quiet (ovl_inode_realdata i).
Proof. unfold ovl_inode_realdata, ovl_inode_lowerdata. auto 12 with quiet. Qed.
Lemma quiet_change_flags r flags : quiet (ovl_change_flags r flags).
Proof. unfold ovl_change_flags. cbv zeta. auto 12 with quiet. Qed.
Lemma quiet_update_time i flags : quiet (ovl_update_time i flags).
Proof.
  unfold ovl_update_time. apply quiet_if; [|auto with quiet]. apply quiet_bind; [auto with quiet|]. intros [u|]; auto 10 with quiet.
Qed.
#[local] Hint Resolve quiet_realdata quiet_change_flags quiet_update_time : quiet.
Lemma quiet_file_accessed file : quiet (ovl_file_accessed file).
Proof. unfold ovl_file_accessed. cbv zeta. auto 20 with quiet. Qed.
Lemma quiet_prepare file : quiet (prepare_write file).
Proof.
  unfold prepare_write, file_remove_privs. apply quiet_bind; [auto with quiet|]. intros f. apply quiet_bind; [auto with quiet|]. intros ?.
  apply quiet_bind; [auto with quiet|]. intros g. apply quiet_bind; [auto with quiet|]. intros [e|[attr|]]; auto with quiet.
Qed.
Lemma quiet_no_direct r k : quiet (no_direct_IO r k).
Proof. unfold no_direct_IO. auto 10 with quiet. Qed.
#[local] Hint Resolve quiet_file_accessed quiet_prepare quiet_no_direct : quiet.

(** ** Taking and giving back *)

(** From [P] the function comes to [Q], or fails in [E]. *)
Definition bal {A} (P : fstate W → Prop) (m : F W A) (Q : A → fstate W → Prop) (E : fstate W → Prop) : Prop :=
  ∀ s, P s → match fst (m s) with inr a => Q a (snd (m s)) | inl _ => E (snd (m s)) end.
Lemma bal_mono {A} (P P' : fstate W → Prop) (m : F W A) (Q Q' : A → fstate W → Prop) (E E' : fstate W → Prop) :
  bal P m Q E → (∀ s, P' s → P s) → (∀ a s, Q a s → Q' a s) → (∀ s, E s → E' s) → bal P' m Q' E'.
Proof. intros H HP HQ HE s Hs. specialize (H s (HP s Hs)). destruct (fst _); auto. Qed.
Lemma bal_bind {A B} P (m : F W A) (f : A → F W B) Q Q' E : bal P m Q E → (∀ a, bal (Q a) (f a) Q' E) → bal P (fbind m f) Q' E.
Proof. intros H Hf s Hs. specialize (H s Hs). unfold fbind. destruct (m s) as [[e|a] s1]; cbn in *; [done|by apply Hf]. Qed.
Lemma bal_try {A B} P (m : F W A) (bad : Z → F W B) (k : A → F W B) Q Q' E E' :
  bal P m Q E → (∀ e, bal E (bad e) Q' E') → (∀ a, bal (Q a) (k a) Q' E') → bal P (ftry m bad k) Q' E'.
Proof. intros H Hb Hk s Hs. specialize (H s Hs). unfold ftry. destruct (m s) as [[e|a] s1]; cbn in *; [by apply Hb|by apply Hk]. Qed.
Lemma bal_quiet {A} (P E : fstate W → Prop) (m : F W A) : calm P → quiet m → bal P m (λ _, P) E.
Proof. intros HP Hm s Hs. destruct (Hm s) as [Hq [a Ha]]. rewrite Ha. by apply (HP s). Qed.
Lemma bal_ret {A} P (a : A) (Q : A → fstate W → Prop) E : (∀ s, P s → Q a s) → bal P (fret a) Q E.
Proof. intros H s Hs. by apply H. Qed.
Lemma bal_fail {A} P e (Q : A → fstate W → Prop) (E : fstate W → Prop) : (∀ s, P s → E s) → bal P (ffail e) Q E.
Proof. intros H s Hs. by apply H. Qed.
Lemma bal_get {A} P (f : fstate W → A) (Q : A → fstate W → Prop) E : (∀ s, P s → Q (f s) s) → bal P (fget f) Q E.
Proof. intros H s Hs. by apply H. Qed.

Lemma is_one_same r : is_one r r = 1%nat.
Proof. unfold is_one. by rewrite decide_True. Qed.
Lemma is_one_other r r' : r ≠ r' → is_one r r' = 0%nat.
Proof. intros H. unfold is_one. by rewrite decide_False. Qed.
(** The state in an operation. *)
Definition inv new h G s : Prop := ledger new h s ∧ all_opened G s.
Lemma inv_quiet new h G : calm (inv new h G).
Proof. apply calm_and; [apply ledger_quiet|apply opened_quiet]. Qed.

Lemma bal_fput new r h G : bal (inv new (r :: h) G) (fput r) (λ _, inv new h G) (λ _, False).
Proof.
  intros s [[L1 L2 L3 L4] HG]. change (inv new h G (snd (fput r s))). set (s' := snd (fput r s)).
  assert (Hf : (fs_super s', fs_files s', fs_next s', fs_aios s', fs_next_aio s', fs_vmas s') =
    (fs_super s, fs_files s, fs_next s, fs_aios s, fs_next_aio s, fs_vmas s)) by (unfold s'; cbn; by destruct (_ =? _)).
  injection Hf as E1 E2 E3 E4 E5 E6. assert (Hu : ∀ r', uses r' s' = uses r' s) by (intros; unfold uses; by rewrite E2, E4, E6).
  assert (Hr : ∀ r', rf_count <$> fs_reals s' !! r' = if (uses r' s + held r' h =? 0)%nat then None else Some (Z.of_nat (uses r' s + held r' h))).
  { intros r'. pose proof (L1 r') as H. pose proof (L1 r) as H0. cbn [held] in H, H0. rewrite is_one_same in H0. unfold s', fput, fupdate, real_at. cbn [snd].
    destruct (Nat.eqb_spec (uses r s + (1 + held r h)) 0) as [?|_]; [lia|].
    destruct (fs_reals s !! r) as [x|] eqn:Ex; [|done]. cbn in H0. injection H0 as H0. change (default null_real (Some x)) with x. rewrite H0.
    destruct (decide (r = r')) as [<-|Hne].
    - rewrite is_one_same, Ex in H. destruct (Z.eqb_spec (Z.of_nat (uses r s + S (held r h))) 1) as [Hc|Hc]; cbn.
      + rewrite lookup_delete_eq. destruct (Nat.eqb_spec (uses r s + held r h) 0); [done|lia].
      + rewrite lookup_alter_eq, Ex. cbn. rewrite H0. destruct (Nat.eqb_spec (uses r s + held r h) 0); [lia|]. f_equal. lia.
    - rewrite is_one_other in H by done. destruct (_ =? 1); cbn; [by rewrite lookup_delete_ne|by rewrite lookup_alter_ne]. }
  split.
  - split.
    + intros r'. by rewrite Hr, Hu.
    + intros r' Hl. rewrite E3. apply L2. specialize (L1 r'). specialize (Hr r'). destruct Hl as [x Hx]. rewrite Hx in Hr. cbn in Hr, L1.
      destruct (Nat.eqb_spec (uses r' s + held r' h) 0) as [|Hn]; [done|]. destruct (Nat.eqb_spec (uses r' s + (is_one r r' + held r' h)) 0); [lia|].
      destruct (fs_reals s !! r'); [eauto|done].
    + by rewrite E4, E5.
    + intros f x. rewrite E2. intros Hx. unfold fs_ovl, fs_ws. rewrite E1. by apply L4.
  - intros g Hg. destruct (HG g Hg) as [x Hx]. exists x. by rewrite E2.
Qed.

(** The counts after a change, if the references are those of [h]. *)
Lemma bal_fdput new real h G : bal (inv new ((if fd_put real then [fd_file real] else []) ++ h) G) (fdput real) (λ _, inv new h G) (λ _, False).
Proof. unfold fdput. destruct (fd_put real); [apply bal_fput|by apply bal_ret]. Qed.
Lemma bal_get_file new r h G : bal (λ s, inv new h G s ∧ live r s) (get_file r) (λ _, inv new (r :: h) G) (λ _, False).
Proof.
  intros s [[[L1 L2 L3 L4] HG] [x Hx]]. cbn. split; [|exact HG]. split; cbn; [| |exact L3|exact L4].
  - intros r'. pose proof (L1 r') as H. change (uses r' (set_fs_reals _ s)) with (uses r' s). destruct (decide (r = r')) as [<-|Hne].
    + rewrite lookup_alter_eq, Hx, is_one_same. rewrite Hx in H. cbn in *. destruct (Nat.eqb_spec (uses r s + held r h) 0); [done|].
      injection H as H. destruct (Nat.eqb_spec (uses r s + S (held r h)) 0); [lia|]. f_equal. lia.
    + by rewrite lookup_alter_ne, is_one_other by done.
  - intros r' Hl. apply L2. destruct (decide (r = r')) as [<-|Hne]; [eauto|by rewrite lookup_alter_ne in Hl].
Qed.
Lemma bal_alloc new f h G : rf_count f = 1 → bal (inv new h G) (alloc_real f) (λ r, inv new (r :: h) G) (λ _, False).
Proof.
  intros Hf s [[L1 L2 L3 L4] HG]. cbn. split; [|exact HG]. set (n := fs_next s).
  assert (Hn : fs_reals s !! n = None).
  { destruct (fs_reals s !! n) eqn:E; [|done]. specialize (L2 n ltac:(eauto)). unfold n in L2. lia. }
  split; cbn; [| |exact L3|exact L4].
  - intros r'. pose proof (L1 r') as H. change (uses r' (set_fs_next _ _)) with (uses r' s). destruct (decide (n = r')) as [<-|Hne].
    + rewrite lookup_insert_eq, is_one_same. rewrite Hn in H. cbn in *. rewrite Hf. destruct (Nat.eqb_spec (uses n s + held n h) 0); [|done].
      destruct (Nat.eqb_spec (uses n s + S (held n h)) 0); [lia|]. f_equal. lia.
    + by rewrite lookup_insert_ne, is_one_other by done.
  - intros r' Hl. destruct (decide (n = r')) as [<-|Hne]; [unfold n; lia|]. rewrite lookup_insert_ne in Hl by done. specialize (L2 r' Hl). lia.
Qed.
#[local] Hint Resolve ledger_quiet opened_quiet inv_quiet calm_and live_quiet mapped_quiet : quiet.
Lemma bal_skip {A B} P (m : F W A) (k : A → F W B) Q E : calm P → quiet m → (∀ a, bal P (k a) Q E) → bal P (fbind m k) Q E.
Proof. intros HP Hm Hk. eapply bal_bind; [by apply bal_quiet|done]. Qed.

Lemma bal_open_realfile new file i h G : bal (inv new h G) (ovl_open_realfile file i) (λ r, inv new (r :: h) G) (inv new h G).
Proof.
  assert (HC : calm (inv new h G)) by apply inv_quiet.
  unfold ovl_open_realfile. cbv zeta. apply bal_skip; [done|auto with quiet|intros f]. apply bal_skip; [done|auto with quiet|intros err].
  destruct (negb _); [by apply bal_fail|]. apply bal_skip; [done|auto with quiet|intros own]. apply bal_skip; [done|auto with quiet|intros real].
  apply bal_skip; [done|auto with quiet|intros err']. destruct (negb _); [by apply bal_fail|].
  eapply bal_mono; [by apply (bal_alloc new _ h G)|done|done|done].
Qed.
Definition in_hand (real : fd) : list nat := if fd_put real then [fd_file real] else [].
Lemma bal_fdget_meta file meta h G : file ∈ G →
  bal (inv None h G) (ovl_real_fdget_meta file meta) (λ real s, inv None (in_hand real ++ h) G s ∧ live (fd_file real) s) (inv None h G).
Proof.
  intros Hfile. unfold ovl_real_fdget_meta. set (real_of f := match of_private f with PFile real => real | _ => 0%nat end).
  assert (HC : calm (inv None h G)) by apply inv_quiet.
  eapply bal_bind with (Q := λ f s, inv None h G s ∧ live (real_of f) s).
  { apply bal_get. intros s [Hl HG]. split; [done|]. destruct (HG file Hfile) as [x Hx]. unfold ofile_at. rewrite Hx. cbn.
    destruct (lg_plain _ _ _ Hl _ _ Hx) as [_ [[r Hr]|[? _]]]; [|done]. unfold real_of. rewrite Hr. by eapply file_live. }
  intros f. cbv zeta. fold (real_of f). assert (HC' : calm (λ s, inv None h G s ∧ live (real_of f) s)) by auto with quiet.
  assert (HE : ∀ s, inv None h G s ∧ live (real_of f) s → inv None h G s) by tauto.
  eapply bal_bind with (Q := λ _ s, inv None h G s ∧ live (real_of f) s).
  { eapply bal_mono; [apply (bal_quiet _ (λ _, False) _ HC')|done|done|done]. destruct meta; auto with quiet. }
  intros i. eapply bal_bind with (Q := λ _ s, inv None h G s ∧ live (real_of f) s); [by apply bal_get|]. intros r.
  destruct (negb (bool_decide _)).
  - eapply bal_bind; [eapply bal_mono; [apply (bal_open_realfile None file i h G)|exact HE|intros a s; exact id|done]|].
    intros real. apply bal_ret. intros s Hs. split; [exact Hs|]. eapply ledger_live; [apply Hs|]. cbn. rewrite is_one_same. lia.
  - destruct (has_flag _ _); [|apply bal_ret; intros s []; by split].
    eapply bal_bind; [eapply bal_mono; [apply (bal_quiet _ (λ _, False) _ HC'); auto with quiet|done|done|done]|]. intros err. cbv beta.
    destruct (negb _); [intros s Hs; by apply HE|apply bal_ret; intros s []; by split].
Qed.
Lemma bal_fdget file h G : file ∈ G →
  bal (inv None h G) (ovl_real_fdget file) (λ real s, inv None (in_hand real ++ h) G s ∧ live (fd_file real) s) (inv None h G).
Proof.
  intros Hfile. unfold ovl_real_fdget. eapply bal_bind with (Q := λ f s, inv None h G s ∧ od_is_dir (odentry_at (of_dentry f) (fs_ovl s)) = false).
  { apply bal_get. intros s [Hl HG]. split; [done|]. destruct (HG file Hfile) as [x Hx]. unfold ofile_at. rewrite Hx. cbn. by apply (lg_plain _ _ _ Hl _ _ Hx). }
  intros f. eapply bal_bind with (Q := λ d s, inv None h G s ∧ d = false); [apply bal_get; by intros s []|].
  intros d s [Hs ->]. by apply bal_fdget_meta.
Qed.

(** References that change their place. *)
Lemma ledger_move new h h' s s' :
  (∀ r, (uses r s' + held r h' = uses r s + held r h)%nat) →
  (fs_super s', fs_reals s', fs_next s') = (fs_super s, fs_reals s, fs_next s) →
  (∀ k, is_Some (fs_aios s' !! k) → (k < fs_next_aio s')%nat) → (∀ f x, fs_files s' !! f = Some x → fs_files s !! f = Some x) →
  ledger new h s → ledger new h' s'.
Proof.
  intros Hu [= E1 E2 E3] Ha Hf [L1 L2 L3 L4]. split; [|by rewrite E2, E3|done|].
  - intros r. rewrite E2, L1. specialize (Hu r). by rewrite Hu.
  - intros f x Hx. unfold fs_ovl, fs_ws. rewrite E1. by apply L4, Hf.
Qed.
Definition drop_aio (req : nat) s : fstate W := set_fs_aios (delete req (fs_aios s)) s.
Lemma bal_aio_put new req h G : bal (inv new h G) (ovl_aio_put req) (λ _, inv new h G) (λ _, False).
Proof.
  intros s [Hl HG]. unfold ovl_aio_put, fbind, fget. cbv beta iota. destruct (fs_aios s !! req) as [a|] eqn:Ea.
  - assert (E : aio_at req s = a) by (unfold aio_at; by rewrite Ea). rewrite E. destruct (ar_ref a =? 1).
    + assert (Hd : ledger new (ar_filp a :: h) (drop_aio req s)).
      { eapply ledger_move; [| | | |exact Hl]; [|done| |done].
        - intros r. unfold uses. cbn. pose proof (total_delete (aio_uses r) req a _ Ea) as Ht. unfold aio_uses at 2 in Ht. lia.
        - intros k. cbn. intros Hk. apply (lg_aios _ _ _ Hl). destruct Hk as [y Hy]. apply lookup_delete_Some in Hy as [_ Hy]. eauto. }
      pose proof (bal_fput new (ar_filp a) h G (drop_aio req s) (conj Hd HG)) as H. cbn in H |- *.
      unfold real_at in *. cbn in H. by destruct (_ =? 1).
    + assert (Hq : quiet (update_aio req (set_ar_ref (ar_ref a - 1)))) by (by apply quiet_update_aio).
      by apply (inv_quiet new h G s _ (proj1 (Hq s))).
  - assert (E : aio_at req s = null_aio) by (unfold aio_at; by rewrite Ea). rewrite E. cbn [ar_ref null_aio Z.eqb].
    assert (Hq : quiet (update_aio req (set_ar_ref (0 - 1)))) by (by apply quiet_update_aio). by apply (inv_quiet new h G s _ (proj1 (Hq s))).
Qed.

(** ** The operations *)

Abbreviation never := (λ _ : fstate W, False).
Abbreviation balanced h G m := (bal (inv None h G) m (λ _, inv None h G) never).
Lemma bal_from {A} P (m : F W A) new h G E : bal (inv new h G) m (λ _, inv new h G) never → (∀ s, P s → inv new h G s) → bal P m (λ _, inv new h G) E.
Proof. intros H HP. eapply bal_mono; [exact H|exact HP|done|done]. Qed.
Lemma balanced_quiet {A} h G (m : F W A) : quiet m → balanced h G m.
Proof. intros H. apply bal_quiet; [apply inv_quiet|done]. Qed.
Lemma balanced_bind {A B} h G (m : F W A) (k : A → F W B) : balanced h G m → (∀ a, balanced h G (k a)) → balanced h G (fbind m k).
Proof. apply bal_bind. Qed.
Lemma balanced_if {A} h G (b : bool) (m m' : F W A) : balanced h G m → balanced h G m' → balanced h G (if b then m else m').
Proof. by destruct b. Qed.
#[local] Hint Resolve balanced_quiet balanced_bind balanced_if bal_aio_put : quiet.
#[local] Hint Extern 1 (∀ a, balanced _ _ _) => intros ? : quiet.
Lemma balanced_cleanup req h G : balanced h G (ovl_aio_cleanup_handler req).
Proof. unfold ovl_aio_cleanup_handler. auto 12 with quiet. Qed.
#[local] Hint Resolve balanced_cleanup : quiet.
Lemma balanced_complete req res h G : balanced h G (ovl_aio_rw_complete req res).
Proof. unfold ovl_aio_rw_complete. auto 10 with quiet. Qed.
#[local] Hint Resolve balanced_complete : quiet.
Lemma balanced_submit write iocb real flags count h G :
  bal (λ s, inv None h G s ∧ live real s) (aio_submit write iocb real flags count) (λ _, inv None h G) never.
Proof.
  unfold aio_submit. apply bal_skip; [auto with quiet..|intros orig]. eapply bal_bind; [apply bal_get_file|intros ?].
  eapply bal_bind with (Q := λ req s, inv None (real :: h) G s ∧ req = fs_next_aio s); [by apply bal_get|intros req].
  eapply bal_bind with (Q := λ _, inv None h G).
  { intros s [[Hl HG] ->]. cbn. split; [|exact HG]. eapply ledger_move; [| | | |exact Hl]; [|done| |done].
    - intros r. unfold uses. cbn. rewrite total_insert; [unfold aio_uses at 1; cbn; lia|].
      destruct (fs_aios s !! fs_next_aio s) eqn:E; [|done]. pose proof (lg_aios _ _ _ Hl (fs_next_aio s) ltac:(eauto)). lia.
    - intros k. cbn. intros Hk. destruct (decide (fs_next_aio s = k)) as [->|Hne]; [lia|].
      rewrite lookup_insert_ne in Hk by done. pose proof (lg_aios _ _ _ Hl k Hk). lia. }
  intros _. change (balanced h G (let& f := fget (real_at real) in
    let& r := fcall (λ w, submit_iocb w write f (ki_pos orig) count flags) in
    let '(ret, pos, early) := r in
    update_aio req (set_ar_pos pos) ;;&
    match early with Some res => ovl_aio_rw_complete req res | None => fret tt end ;;&
    ovl_aio_put req ;;& (if negb (ret =? - EIOCBQUEUED) then ovl_aio_cleanup_handler req else fret tt) ;;& fret ret)).
  apply balanced_bind; [auto with quiet|intros f]. apply balanced_bind; [auto with quiet|intros [[ret pos] early]].
  apply balanced_bind; [auto with quiet|intros ?]. apply balanced_bind; [destruct early; auto with quiet|intros ?]. auto 10 with quiet.
Qed.
(** With the real file of an open file in hand, whatever it is. *)
Lemma balanced_with_real {A} file bad (k : fd → F W A) h G :
  file ∈ G → (∀ e, quiet (bad e)) →
  (∀ real, bal (λ s, inv None (in_hand real ++ h) G s ∧ live (fd_file real) s) (k real) (λ _, inv None h G) never) →
  bal (inv None h G) (ftry (ovl_real_fdget file) bad k) (λ _, inv None h G) never.
Proof. intros Hf Hb Hk. eapply bal_try; [by apply bal_fdget|intros e; by apply balanced_quiet|]. intros real. apply Hk. Qed.
(** It is given back at the end. *)
Lemma bal_give {A} real h G (x : A) : bal (inv None (in_hand real ++ h) G) (fdput real ;;& fret x) (λ _, inv None h G) never.
Proof. eapply bal_bind; [apply bal_fdput|]. intros ?. by apply bal_ret. Qed.
Lemma bal_work {A B} (m : F W A) (k : A → F W B) real h G Q :
  quiet m → (∀ a, bal (inv None (in_hand real ++ h) G) (k a) Q never) → bal (inv None (in_hand real ++ h) G) (fbind m k) Q never.
Proof. intros Hm Hk. apply bal_skip; [apply inv_quiet|done|done]. Qed.
Lemma bal_forget {A} real h G (m : F W A) Q :
  bal (inv None (in_hand real ++ h) G) m Q never → bal (λ s, inv None (in_hand real ++ h) G s ∧ live (fd_file real) s) m Q never.
Proof. intros H. eapply bal_mono; [exact H|by intros s []|done|done]. Qed.

Lemma balanced_llseek file offset whence h G : file ∈ G → balanced h G (ovl_llseek file offset whence).
Proof.
  intros Hf. unfold ovl_llseek. apply balanced_bind; [auto with quiet|intros f]. destruct (_ && _); [auto with quiet|]. destruct (_ && _); [auto with quiet|].
  apply balanced_with_real; [done|auto with quiet|]. intros real. apply bal_forget, bal_work; [auto with quiet|intros ?].
  apply bal_work; [auto with quiet|intros [ret pos]]. apply bal_work; [auto with quiet|intros ?]. apply bal_work; [auto with quiet|intros ?]. apply bal_give.
Qed.
Lemma balanced_fadvise file offset len advice h G : file ∈ G → balanced h G (ovl_fadvise file offset len advice).
Proof.
  intros Hf. apply balanced_with_real; [done|auto with quiet|]. intros real. apply bal_forget, bal_work; [auto with quiet|intros x]. apply bal_give.
Qed.
Lemma balanced_flush file id h G : file ∈ G → balanced h G (ovl_flush file id).
Proof.
  intros Hf. apply balanced_with_real; [done|auto with quiet|]. intros real. apply bal_forget, bal_work; [auto with quiet|intros f].
  apply bal_work; [auto with quiet|intros can]. apply bal_work; [destruct can; auto with quiet|intros err]. apply bal_give.
Qed.
Lemma balanced_fsync file first last datasync h G : file ∈ G → balanced h G (ovl_fsync file first last datasync).
Proof.
  intros Hf. unfold ovl_fsync. apply balanced_bind; [auto with quiet|intros f]. apply balanced_bind; [auto with quiet|intros ret].
  destruct (_ <=? _); [auto with quiet|]. eapply bal_try; [by apply bal_fdget_meta|intros e; auto with quiet|]. intros real.
  apply bal_forget, bal_work; [auto with quiet|intros r]. apply bal_work; [auto with quiet|intros u].
  apply bal_work; [destruct (bool_decide _); auto with quiet|intros x]. apply bal_give.
Qed.
Lemma balanced_fallocate file mode offset len h G : file ∈ G → balanced h G (ovl_fallocate file mode offset len).
Proof.
  intros Hf. unfold ovl_fallocate. apply balanced_bind; [auto with quiet|intros f]. apply balanced_bind; [auto with quiet|intros ret].
  destruct (negb _); [auto with quiet|]. apply balanced_with_real; [done|auto with quiet|]. intros real. apply bal_forget, bal_work; [auto with quiet|intros x].
  apply bal_work; [auto with quiet|intros ?]. apply bal_give.
Qed.
Lemma balanced_splice_write out ppos len flags h G : out ∈ G → balanced h G (ovl_splice_write out ppos len flags).
Proof.
  intros Hf. unfold ovl_splice_write. apply balanced_bind; [auto with quiet|intros f]. apply balanced_bind; [auto with quiet|intros ret].
  destruct (negb _); [auto with quiet|]. apply balanced_with_real; [done|auto with quiet|]. intros real. apply bal_forget, bal_work; [auto with quiet|intros ?].
  apply bal_work; [auto with quiet|intros x]. apply bal_work; [auto with quiet|intros ?]. apply bal_work; [auto with quiet|intros ?]. apply bal_give.
Qed.
Lemma balanced_copyfile file_in pos_in file_out pos_out len flags op h G :
  file_in ∈ G → file_out ∈ G → balanced h G (ovl_copyfile file_in pos_in file_out pos_out len flags op).
Proof.
  intros Hi Ho. unfold ovl_copyfile. apply balanced_bind; [auto with quiet|intros f].
  apply balanced_bind; [destruct op; auto with quiet|intros ret]. destruct (negb _); [auto with quiet|].
  apply balanced_with_real; [done|auto with quiet|]. intros real_out. apply bal_forget.
  eapply bal_try; [by apply bal_fdget|intros e; apply bal_give|]. intros real_in. apply bal_forget.
  apply bal_work; [auto with quiet|intros r_in]. apply bal_work; [auto with quiet|intros r_out]. apply bal_work; [auto with quiet|intros ret'].
  apply bal_work; [auto with quiet|intros ?]. eapply bal_bind; [apply bal_fdput|intros ?]. apply bal_give.
Qed.
Lemma balanced_remap file_in pos_in file_out pos_out len flags h G :
  file_in ∈ G → file_out ∈ G → balanced h G (ovl_remap_file_range file_in pos_in file_out pos_out len flags).
Proof.
  intros Hi Ho. unfold ovl_remap_file_range. destruct (has_flag flags _); [auto with quiet|]. cbv zeta.
  do 4 (apply balanced_bind; [auto with quiet|intros ?]). destruct (_ && _); [auto with quiet|]. by apply balanced_copyfile.
Qed.

(** An asynchronous request may forget one reference: that of a real file that
    was opened for it. *)
Definition may_forget (k : kiocb) h G s : Prop := ∃ l, inv None (l ++ h) G s ∧ (ki_sync k = true → l = []).
Lemma forget_nothing k h G s : inv None h G s → may_forget k h G s.
Proof. intros H. by exists []. Qed.
Lemma bal_lax {A} P (m : F W A) k h G : bal P m (λ _, inv None h G) never → bal P m (λ _, may_forget k h G) never.
Proof. intros H. eapply bal_mono; [exact H|done|intros a s; apply forget_nothing|done]. Qed.
Lemma bal_lost {A} (x : A) real k h G : ki_sync k = false →
  bal (inv None (in_hand real ++ h) G) (fret x) (λ _, may_forget k h G) never.
Proof. intros E. apply bal_ret. intros s Hs. exists (in_hand real). split; [done|]. by rewrite E. Qed.
Lemma bal_submit write iocb real flags count h G :
  bal (λ s, inv None (in_hand real ++ h) G s ∧ live (fd_file real) s) (aio_submit write iocb (fd_file real) flags count)
    (λ _, inv None (in_hand real ++ h) G) never.
Proof. apply balanced_submit. Qed.

Lemma bal_read_iter iocb count k h G : ki_filp k ∈ G →
  bal (λ s, inv None h G s ∧ iocb_at iocb s = k) (ovl_read_iter iocb count) (λ _, may_forget k h G) never.
Proof.
  intros Hf. unfold ovl_read_iter. eapply bal_bind with (Q := λ x s, inv None h G s ∧ x = k); [by apply bal_get|].
  intros x s [Hs ->]. revert s Hs. cbv zeta.
  destruct (count =? 0); [by intros s Hs; apply forget_nothing|].
  match goal with |- ∀ s, _ → match fst (?m s) with _ => _ end => change (bal (inv None h G) m (λ _, may_forget k h G) never) end.
  eapply bal_try; [by apply bal_fdget|intros e; apply bal_lax, balanced_quiet; auto with quiet|]. intros real.
  apply bal_skip; [auto with quiet..|intros bad]. destruct bad; [apply bal_lax, bal_forget, bal_give|].
  destruct (ki_sync k) eqn:Es.
  - apply bal_lax, bal_forget, bal_work; [auto with quiet|intros r]. apply bal_work; [auto with quiet|intros ?].
    apply bal_work; [auto with quiet|intros ?]. apply bal_give.
  - apply bal_skip; [auto with quiet..|intros ok]. destruct ok; cbn [negb].
    + cbn [fd_file]. eapply bal_bind; [apply bal_submit|intros ret]. apply bal_work; [auto with quiet|intros ?]. apply bal_work; [apply quiet_fret|intros ?].
      by apply bal_lost.
    + apply bal_lax, bal_forget, bal_work; [auto with quiet|intros ?]. apply bal_give.
Qed.
Lemma bal_write_iter iocb count k h G : ki_filp k ∈ G →
  bal (λ s, inv None h G s ∧ iocb_at iocb s = k) (ovl_write_iter iocb count) (λ _, may_forget k h G) never.
Proof.
  intros Hf. unfold ovl_write_iter. eapply bal_bind with (Q := λ x s, inv None h G s ∧ x = k); [by apply bal_get|].
  intros x s [Hs ->]. revert s Hs. cbv zeta.
  match goal with |- ∀ s, _ → match fst (?m s) with _ => _ end => change (bal (inv None h G) m (λ _, may_forget k h G) never) end.
  apply bal_skip; [auto with quiet..|intros f]. destruct (count =? 0); [by intros s Hs; apply forget_nothing|].
  apply bal_skip; [auto with quiet..|intros ret]. destruct (negb _); [by intros s Hs; apply forget_nothing|].
  eapply bal_try; [by apply bal_fdget|intros e; apply bal_lax, balanced_quiet; auto with quiet|]. intros real.
  apply bal_skip; [auto with quiet..|intros bad]. destruct bad; [apply bal_lax, bal_forget, bal_give|].
  apply bal_skip; [auto with quiet..|intros config]. cbv zeta. destruct (ki_sync k) eqn:Es.
  - apply bal_lax, bal_forget, bal_work; [auto with quiet|intros ?]. apply bal_work; [auto with quiet|intros r]. apply bal_work; [auto with quiet|intros ?].
    apply bal_work; [auto with quiet|intros ?]. apply bal_work; [auto with quiet|intros ?]. apply bal_give.
  - apply bal_skip; [auto with quiet..|intros ok]. destruct ok; cbn [negb]; [|apply bal_lax, bal_forget, bal_give].
    apply bal_skip; [auto with quiet..|intros ?]. cbn [fd_file]. eapply bal_bind; [apply bal_submit|intros ret']. apply bal_work; [apply quiet_fret|intros ?].
    by apply bal_lost.
Qed.

(** *** Closing, mapping, opening *)

Lemma inv_fewer new h G s : inv new h G s → inv new h [] s.
Proof. intros [Hl _]. split; [exact Hl|]. by intros g Hg%elem_of_nil. Qed.
(** The order of the release and of the removal does not matter. *)
Lemma fput_without file r s : snd (fput r (without_file file s)) = without_file file (snd (fput r s)).
Proof. cbn. unfold real_at. cbn. by destruct (_ =? 1). Qed.
Lemma put_ofile_run file s :
  put_ofile file s =
    if of_count (ofile_at file s) =? 1 then
      match of_private (ofile_at file s) with
      | PFile r => (inr tt, without_file file (snd (fput r s)))
      | PNull => (inr tt, without_file file s)
      | PDir _ => (inr tt, without_file file (snd (dir_release_real file s)))
      end
    else update_ofile file (λ f, set_of_count (of_count f - 1) f) s.
Proof.
  unfold put_ofile, fbind at 1, fget at 1. cbv beta iota. destruct (_ =? 1); [|done].
  destruct (of_private _) eqn:E; unfold ovl_release, fbind, fget, fret; cbv beta iota; rewrite ?E; try done.
  unfold dir_release_real, fbind, fget. cbv beta iota zeta. unfold fput at 1 2, fupdate at 1 2. cbv beta iota.
  by destruct (dr_upperfile _).
Qed.
Lemma bal_put_ofile file h : balanced h [] (put_ofile file).
Proof.
  intros s [Hl HG]. rewrite put_ofile_run. assert (Hq : quiet (update_ofile file (λ f, set_of_count (of_count f - 1) f))) by (by apply quiet_update_ofile).
  destruct (of_count (ofile_at file s) =? 1) eqn:Ec; [|by apply (inv_quiet None h [] s _ (proj1 (Hq s)))].
  destruct (fs_files s !! file) as [x|] eqn:Ex; [|by unfold ofile_at in Ec; rewrite Ex in Ec].
  assert (E : ofile_at file s = x) by (unfold ofile_at; by rewrite Ex).
  destruct (lg_plain _ _ _ Hl _ _ Ex) as [_ [[r Hr]|[? _]]]; [|done]. rewrite E, Hr. cbn [fst snd].
  rewrite <- fput_without. refine (bal_fput None r h [] (without_file file s) _). split; [|by intros g Hg%elem_of_nil].
  eapply ledger_move; [| | | |exact Hl]; [|done|apply (lg_aios _ _ _ Hl)|].
  - intros r'. unfold uses. cbn. pose proof (total_delete (file_uses r') file x _ Ex) as Ht. unfold file_uses at 2 in Ht. rewrite Hr in Ht. cbn in Ht. lia.
  - intros f y. cbn. intros Hy. by apply lookup_delete_Some in Hy as [_ Hy].
Qed.
Lemma bal_vma_set_file v real file h :
  bal (λ s, (inv None h [] s ∧ live real s) ∧ overlay_mapped v file s) (vma_set_file v real) (λ _, inv None h []) never.
Proof.
  intros s [[Hs Hlive] (x & Hx & Hf)]. pose proof (bal_get_file None real h [] s (conj Hs Hlive)) as [Hl HG].
  set (s1 := snd (get_file real s)) in *. set (s2 := snd (update_vma v (set_vm_file (MReal real)) s1)).
  assert (Ev : vm_file (vma_at v s1) = MOverlay file) by (unfold vma_at; cbn; by rewrite Hx).
  assert (E : vma_set_file v real s = put_mapped (vm_file (vma_at v s1)) s2) by done. rewrite E, Ev.
  apply (bal_put_ofile file h). split; [|exact HG].
  eapply ledger_move; [| | | |exact Hl]; [|done|apply (lg_aios _ _ _ Hl)|done].
  intros r. unfold uses. cbn. pose proof (total_alter (vma_uses r) (set_vm_file (MReal real)) v x _ Hx) as Ht.
  assert (E0 : vma_uses r x = 0%nat) by (unfold vma_uses; by rewrite Hf). rewrite E0 in Ht. change (vma_uses r (set_vm_file (MReal real) x)) with (is_one real r) in Ht. lia.
Qed.
Lemma bal_mmap file v h : 
  bal (λ s, inv None h [file] s ∧ is_Some (fs_vmas s !! v)) (ovl_mmap file v) (λ _, inv None h []) never.
Proof.
  unfold ovl_mmap. set (real_of f := match of_private f with PFile real => real | _ => 0%nat end). set (P := λ s, is_Some (fs_vmas s !! v)).
  assert (HP : calm P).
  { intros s s' Hq [x Hx]. pose proof (qs_vmas _ _ Hq v) as H. rewrite Hx in H. unfold P. destruct (fs_vmas s' !! v); [eauto|done]. }
  eapply bal_bind with (Q := λ f s, (inv None h [] s ∧ live (real_of f) s) ∧ P s).
  { apply bal_get. intros s [[Hl HG] Hv]. split; [split; [by eapply inv_fewer|]|done].
    destruct (HG file ltac:(by apply list_elem_of_singleton)) as [x Hx]. unfold ofile_at. rewrite Hx. cbn.
    destruct (lg_plain _ _ _ Hl _ _ Hx) as [_ [[r Hr]|[? _]]]; [|done]. unfold real_of. rewrite Hr. by eapply file_live. }
  intros f. cbv zeta. fold (real_of f). assert (HC : calm (λ s, (inv None h [] s ∧ live (real_of f) s) ∧ P s)) by auto with quiet.
  assert (HI : ∀ s, (inv None h [] s ∧ live (real_of f) s) ∧ P s → inv None h [] s) by tauto.
  apply bal_skip; [done|auto with quiet|intros r]. apply bal_skip; [done|auto with quiet|intros can].
  destruct (negb can); [apply bal_ret, HI|].
  eapply bal_bind with (Q := λ m s, ((inv None h [] s ∧ live (real_of f) s) ∧ (m = MOverlay file → overlay_mapped v file s))).
  { apply bal_get. intros s [Hs [x Hx]]. split; [done|]. unfold vma_at. rewrite Hx. cbn. intros Hm. by exists x. }
  intros m. set (same := match m with MOverlay g => (file =? g)%nat | MReal _ => false end).
  assert (HC' : calm (λ s, (inv None h [] s ∧ live (real_of f) s) ∧ (m = MOverlay file → overlay_mapped v file s))).
  { apply calm_and; [auto with quiet|]. intros s s' Hq H E. eapply mapped_quiet; [exact Hq|by apply H]. }
  eapply bal_bind with (Q := λ bad s, (((inv None h [] s ∧ live (real_of f) s) ∧ (m = MOverlay file → overlay_mapped v file s)) ∧ bad = negb same)).
  { intros s Hs. pose proof (bal_quiet _ never _ HC' (quiet_uwarn (negb same)) s Hs) as H.
    unfold flift, fsuper, slift, uwarn, ulift, warn_on in *. cbn in *. by split. }
  intros bad s [[Hs Hm] ->]. revert s Hs Hm. destruct same eqn:Es; cbn [negb]; [|intros s [Hs _] _; exact Hs].
  assert (Em : m = MOverlay file) by (unfold same in Es; destruct m; [apply Nat.eqb_eq in Es; by subst|done]).
  assert (HB : bal (λ s, (inv None h [] s ∧ live (real_of f) s) ∧ overlay_mapped v file s)
    (vma_set_file v (real_of f) ;;& let& r0 := on_real (real_of f) (FMap v) in
     (if fst r0 =? 0 then ovl_vm_prfile_set v file else fret tt) ;;& ovl_file_accessed file ;;& fret (fst r0)) (λ _, inv None h []) never).
  { eapply bal_bind; [apply bal_vma_set_file|intros ?]. apply balanced_bind; [auto with quiet|intros x].
    apply balanced_bind; [|auto with quiet]. destruct (fst x =? 0); [|auto with quiet]. unfold ovl_vm_prfile_set.
    apply balanced_bind; [auto with quiet|intros ?]. apply balanced_bind; [auto with quiet|intros old]. apply balanced_bind; [auto with quiet|intros ?].
    destruct old; [apply bal_put_ofile|auto with quiet]. }
  intros s Hs Hm. apply HB. split; [exact Hs|by apply Hm].
Qed.

Definition fresh_file (file : nat) s : Prop := ∃ x, fs_files s !! file = Some x ∧ of_private x = PNull.
Lemma fresh_quiet file : calm (fresh_file file).
Proof.
  intros s s' Hq (x & Hx & Hp). pose proof (qs_files _ _ Hq file) as Hc. rewrite Hx in Hc. unfold fresh_file.
  destruct (fs_files s' !! file) as [y|]; [|done]. injection Hc as _ Hc. exists y. by rewrite Hc.
Qed.
Lemma open_realfile_result file i s :
  fs_files (snd (ovl_open_realfile file i s)) = fs_files s ∧ ∀ e, fst (ovl_open_realfile file i s) = inl e → e ≠ 0.
Proof.
  unfold ovl_open_realfile, fbind, fget, fread, fget, fobjects, fget. cbv beta iota zeta.
  destruct (negb (inode_may _ _ _ =? 0)) eqn:E1; [split; [done|]; intros e [= <-] H; by rewrite H in E1|].
  unfold fcall at 1 2, flift, fsuper, slift. cbv beta iota. destruct (open_with_fake_path _ _ _ _) as [err w]. cbv beta iota.
  destruct (negb (err =? 0)) eqn:E2; [split; [done|]; intros e [= <-] H; by rewrite H in E2|]. by split.
Qed.
Lemma set_private_ledger file real l s :
  ledger (Some file) (real :: l) s → fresh_file file s → ledger None l (snd (update_ofile file (set_of_private (PFile real)) s)).
Proof.
  intros [L1 L2 L3 L4] (x & Hx & Hp). split; [|exact L2|exact L3|].
  - intros r. change (fs_reals _ !! r) with (fs_reals s !! r). rewrite L1.
    assert (Hu : (uses r (snd (update_ofile file (set_of_private (PFile real)) s)) + held r l = uses r s + held r (real :: l))%nat); [|by rewrite Hu].
    unfold uses. cbn. pose proof (total_alter (file_uses r) (set_of_private (PFile real)) file x _ Hx) as Ht.
    unfold file_uses at 2 4 in Ht. rewrite Hp in Ht. cbn in Ht. lia.
  - intros f y. cbn. destruct (decide (file = f)) as [<-|Hne].
    + rewrite lookup_alter_eq, Hx. intros [= <-]. destruct (L4 _ _ Hx) as [Hd _]. split; [exact Hd|]. left. by exists real.
    + rewrite lookup_alter_ne by done. intros Hy. destruct (L4 _ _ Hy) as [Hd [Hr|[[= ->] _]]]; [|done]. split; [exact Hd|by left].
Qed.
Lemma drop_fresh_ledger file l s : ledger (Some file) l s → fresh_file file s → ledger None l (without_file file s).
Proof.
  intros [L1 L2 L3 L4] (x & Hx & Hp). split; [|exact L2|exact L3|].
  - intros r. change (fs_reals _ !! r) with (fs_reals s !! r). rewrite L1. assert (Hu : uses r (without_file file s) = uses r s); [|by rewrite Hu].
    unfold uses. cbn. pose proof (total_delete (file_uses r) file x _ Hx) as Ht. unfold file_uses at 2 in Ht. rewrite Hp in Ht. cbn in Ht. lia.
  - intros f y. cbn. intros [Hne Hy]%lookup_delete_Some. destruct (L4 _ _ Hy) as [Hd [Hr|[[= ->] _]]]; [|done]. split; [exact Hd|by left].
Qed.
Lemma with_file_ledger file dentry inode flags l s :
  ledger None l s → fs_files s !! file = None → od_is_dir (odentry_at dentry (fs_ovl s)) = false →
  ledger (Some file) l (with_file file dentry inode flags s) ∧ fresh_file file (with_file file dentry inode flags s).
Proof.
  intros [L1 L2 L3 L4] Hn Hd. split; [|by exists (OpenFile dentry inode flags 0 1 PNull); cbn; rewrite lookup_insert_eq].
  split; [|exact L2|exact L3|].
  - intros r. change (fs_reals _ !! r) with (fs_reals s !! r). rewrite L1.
    assert (Hu : uses r (with_file file dentry inode flags s) = uses r s); [|by rewrite Hu]. unfold uses. cbn. by rewrite total_insert.
  - intros f y. cbn. destruct (decide (file = f)) as [<-|Hne].
    + rewrite lookup_insert_eq. intros [= <-]. split; [exact Hd|by right].
    + rewrite lookup_insert_ne by done. intros Hy. destruct (L4 _ _ Hy) as [Hd' [Hr|[? _]]]; [|done]. split; [exact Hd'|by left].
Qed.
Lemma bal_ovl_open file l :
  bal (λ s, ledger (Some file) l s ∧ fresh_file file s) (ovl_open file)
    (λ err s, (err = 0 → ledger None l s) ∧ (err ≠ 0 → ledger (Some file) l s ∧ fresh_file file s)) never.
Proof.
  assert (HC : calm (λ s, ledger (Some file) l s ∧ fresh_file file s)) by (apply calm_and; [apply ledger_quiet|apply fresh_quiet]).
  unfold ovl_open. apply bal_skip; [done|auto with quiet|intros f]. apply bal_skip; [done|auto with quiet|intros err].
  destruct (Z.eqb_spec err 0) as [->|He]; cbn [negb]; [|by apply bal_ret].
  apply bal_skip; [done|auto with quiet|intros ?]. apply bal_skip; [done|auto with quiet|intros i].
  intros s [Hl Hf]. destruct (open_realfile_result file i s) as [Hsame Herr].
  pose proof (bal_open_realfile (Some file) file i l [] s) as H. specialize (H ltac:(split; [exact Hl|by intros g Hg%elem_of_nil])).
  unfold ftry. destruct (ovl_open_realfile file i s) as [[e|r] s1]; cbn [fst snd] in *.
  - cbn. split; [intros ->; by destruct (Herr 0 eq_refl)|intros _]. split; [apply H|]. unfold fresh_file. by rewrite Hsame.
  - assert (Hf1 : fresh_file file s1) by (unfold fresh_file; by rewrite Hsame). cbn. split; [|done]. intros _.
    exact (set_private_ledger file r l s1 (proj1 H) Hf1).
Qed.

(** ** Requests stay synchronous *)

Definition ks {A} (m : F W A) : Prop := ∀ s i, ki_sync <$> fs_iocbs (snd (m s)) !! i = ki_sync <$> fs_iocbs s !! i.
Lemma ks_bind {A B} (m : F W A) (f : A → F W B) : ks m → (∀ a, ks (f a)) → ks (fbind m f).
Proof. intros H Hf s i. specialize (H s i). unfold fbind. destruct (m s) as [[e|a] s1]; cbn in *; [done|by rewrite Hf]. Qed.
Lemma ks_try {A B} (m : F W A) bad (k : A → F W B) : ks m → (∀ e, ks (bad e)) → (∀ a, ks (k a)) → ks (ftry m bad k).
Proof. intros H Hb Hk s i. specialize (H s i). unfold ftry. destruct (m s) as [[e|a] s1]; cbn in *; [by rewrite Hb|by rewrite Hk]. Qed.
Lemma ks_flift {A} (m : U W A) : ks (flift m).
Proof. intros s i. unfold flift, fsuper, slift. by destruct (m _). Qed.
Lemma ks_fsuper {A} (m : SB W A) : ks (fsuper m).
Proof. intros s i. unfold fsuper. by destruct (m _). Qed.
Lemma ks_update_iocb k f : (∀ x, ki_sync (f x) = ki_sync x) → ks (update_iocb k f).
Proof.
  intros Hf s i. cbn. destruct (decide (k = i)) as [->|]; [rewrite lookup_alter_eq|by rewrite lookup_alter_ne].
  destruct (_ !! i); cbn; [by rewrite Hf|done].
Qed.
Lemma ks_fput r : ks (fput r).
Proof. intros s i. cbn. by destruct (_ =? 1). Qed.
(** Through the functions of [OvlFile]. *)
Ltac ks_auto :=
  cbv beta zeta;
  lazymatch goal with
  | |- ks (fbind _ _) => apply ks_bind; [ks_auto|intros ?; ks_auto]
  | |- ks (ftry _ _ _) => apply ks_try; [ks_auto|intros ?; ks_auto|intros ?; ks_auto]
  | |- ks (if ?b then _ else _) => destruct b; ks_auto
  | |- ks (match ?x with _ => _ end) => destruct x; ks_auto
  | |- ks (flift _) => apply ks_flift
  | |- ks (fcall _) => apply ks_flift
  | |- ks (fsuper _) => apply ks_fsuper
  | |- ks (update_iocb _ _) => by apply ks_update_iocb
  | |- ks (fput _) => apply ks_fput
  | |- ks (ovl_real_fdget _) => unfold ovl_real_fdget, ovl_real_fdget_meta, ovl_dir_real_file, ovl_dir_open_realfile; ks_auto
  | |- ks (ovl_real_fdget_meta _ _) => unfold ovl_real_fdget_meta; ks_auto
  | |- ks (ovl_inode_realdata _) => unfold ovl_inode_realdata, ovl_inode_lowerdata; ks_auto
  | |- ks (ovl_open_realfile _ _) => unfold ovl_open_realfile; ks_auto
  | |- ks (ovl_change_flags _ _) => unfold ovl_change_flags; ks_auto
  | |- ks (on_real _ _) => unfold on_real; ks_auto
  | |- ks (fdput _) => unfold fdput; ks_auto
  | |- ks (no_direct_IO _ _) => unfold no_direct_IO; ks_auto
  | |- ks (prepare_write _) => unfold prepare_write, file_remove_privs; ks_auto
  | |- ks (ovl_file_accessed _) => unfold ovl_file_accessed, ovl_update_time; ks_auto
  | |- ks (ovl_update_time _ _) => unfold ovl_update_time; ks_auto
  | |- ks (ovl_aio_put _) => unfold ovl_aio_put; ks_auto
  | |- ks (ovl_aio_cleanup_handler _) => unfold ovl_aio_cleanup_handler; ks_auto
  | |- ks (ovl_aio_rw_complete _ _) => unfold ovl_aio_rw_complete; ks_auto
  | |- ks (aio_submit _ _ _ _ _) => unfold aio_submit; ks_auto
  | |- ks (put_ofile _) => unfold put_ofile, ovl_release, dir_release_real; ks_auto
  | |- ks (put_mapped _) => unfold put_mapped; ks_auto
  | |- ks _ => by intros ? ?
  end.
Lemma ks_read_iter iocb count : ks (ovl_read_iter iocb count).
Proof. unfold ovl_read_iter. ks_auto. Qed.
Lemma ks_write_iter iocb count : ks (ovl_write_iter iocb count).
Proof. unfold ovl_write_iter. ks_auto. Qed.
Lemma ks_others file v offset len flags x y op file2 :
  ks (ovl_llseek file offset flags) ∧ ks (ovl_splice_write file offset len flags) ∧ ks (ovl_fsync file offset len flags) ∧
  ks (ovl_mmap file v) ∧ ks (ovl_fallocate file flags offset len) ∧ ks (ovl_fadvise file offset len flags) ∧ ks (ovl_flush file flags) ∧
  ks (ovl_copyfile file x file2 y len flags op) ∧ ks (ovl_open file).
Proof.
  unfold ovl_llseek, ovl_splice_write, ovl_fsync, ovl_mmap, ovl_fallocate, ovl_fadvise, ovl_flush, ovl_copyfile, ovl_open, vma_set_file, ovl_vm_prfile_set.
  split_and!; ks_auto.
Qed.
Definition all_sync s : Prop := ∀ i k, fs_iocbs s !! i = Some k → ki_sync k = true.
Lemma all_sync_same s s' : (∀ i, ki_sync <$> fs_iocbs s' !! i = ki_sync <$> fs_iocbs s !! i) → all_sync s → all_sync s'.
Proof.
  intros H Hs i k Hk. specialize (H i). rewrite Hk in H. destruct (fs_iocbs s !! i) as [x|] eqn:E; [|done].
  injection H as H. rewrite H. by eapply Hs.
Qed.
Lemma ks_state {A} (m : F W A) s : ks m → all_sync s → all_sync (snd (m s)).
Proof. intros H. apply all_sync_same, H. Qed.
Definition sync_op (op : file_op) : Prop := match op with Request _ k => ki_sync k = true | _ => True end.
Lemma serve_all_sync op s : sync_op op → all_sync s → all_sync (serve_file op s).
Proof.
  intros Hop Hs. pose proof (λ file v offset len flags x y op file2, ks_others file v offset len flags x y op file2) as H.
  assert (HO : ∀ file, ks (ovl_open file)) by (intros file; apply (H file 0%nat 0 0 0 0 0 OVL_COPY 0%nat)).
  assert (HC : ∀ f1 x f2 y len flags op, ks (ovl_copyfile f1 x f2 y len flags op)).
  { intros f1 x f2 y len flags op'. apply (H f1 0%nat 0 len flags x y op' f2). }
  destruct op; cbn [serve_file sync_op] in *.
  - pose proof (ks_state (ovl_open file) (with_file file dentry inode flags s) (HO file) Hs) as Ho.
    destruct (ovl_open file _) as [[e|[|p|p]] s']; exact Ho.
  - apply ks_state; [by intros ? ?|done].
  - apply ks_state; [ks_auto|done].
  - apply ks_state; [by intros ? ?|done].
  - intros i k'. cbn. destruct (decide (iocb = i)) as [->|Hne]; [rewrite lookup_insert_eq; by intros [= <-]|].
    rewrite lookup_insert_ne by done. apply Hs.
  - apply ks_state; [ks_auto|done].
  - apply ks_state; [ks_auto|done].
  - apply ks_state; [apply (H file 0%nat offset 0 whence 0 0 OVL_COPY 0%nat)|done].
  - apply ks_state; [apply ks_read_iter|done].
  - apply ks_state; [apply ks_write_iter|done].
  - apply ks_state; [apply (H out 0%nat ppos len flags 0 0 OVL_COPY 0%nat)|done].
  - apply ks_state; [apply (H file 0%nat from till datasync 0 0 OVL_COPY 0%nat)|done].
  - apply ks_state; [apply (H file v 0 0 0 0 0 OVL_COPY 0%nat)|done].
  - apply ks_state; [apply (H file 0%nat offset len mode 0 0 OVL_COPY 0%nat)|done].
  - apply ks_state; [apply (H file 0%nat offset len advice 0 0 OVL_COPY 0%nat)|done].
  - apply ks_state; [apply (H file 0%nat 0 0 id 0 0 OVL_COPY 0%nat)|done].
  - apply ks_state; [apply HC|done].
  - apply ks_state; [|done]. unfold ovl_remap_file_range. destruct (has_flag _ _); [by intros ? ?|]. cbv zeta.
    do 4 (apply ks_bind; [by intros ? ?|intros ?]). destruct (_ && _); [by intros ? ?|apply HC].
  - apply ks_state; [ks_auto|done].
  - apply ks_state; [apply ks_flift|done].
Qed.

(** ** Histories *)

Lemma balanced_map v file l :
  bal (λ s, inv None l [] s ∧ fs_vmas s !! v = None)
    (get_ofile file ;;& fupdate (λ s, set_fs_vmas (<[v := Vma (MOverlay file) None]> (fs_vmas s)) s)) (λ _, inv None l []) never.
Proof.
  assert (HC : calm (λ s, inv None l [] s ∧ fs_vmas s !! v = None)).
  { apply calm_and; [apply inv_quiet|]. intros s s' Hq H. pose proof (qs_vmas _ _ Hq v) as Hv. rewrite H in Hv. by destruct (fs_vmas s' !! v). }
  apply bal_skip; [exact HC|auto with quiet|intros ?]. intros s [[Hl HG] Hv]. split; [|exact HG].
  eapply ledger_move; [| | | |exact Hl]; [|done|apply (lg_aios _ _ _ Hl)|done].
  intros r. unfold uses. cbn. by rewrite total_insert.
Qed.
Lemma balanced_unmap v l :
  bal (λ s, inv None l [] s ∧ is_Some (fs_vmas s !! v))
    (let& m := fget (vma_at v) in
     fupdate (λ s, set_fs_vmas (delete v (fs_vmas s)) s) ;;&
     put_mapped (vm_file m) ;;& match vm_prfile m with Some file => put_ofile file | None => fret tt end) (λ _, inv None l []) never.
Proof.
  eapply bal_bind with (Q := λ m s, inv None l [] s ∧ fs_vmas s !! v = Some m).
  { apply bal_get. intros s [Hs [m Hm]]. split; [done|]. unfold vma_at. by rewrite Hm. }
  intros m. set (mine := match vm_file m with MReal r => [r] | MOverlay _ => [] end).
  eapply bal_bind with (Q := λ _, inv None (mine ++ l) []).
  { intros s [[Hl HG] Hm]. split; [|exact HG]. eapply ledger_move; [| | | |exact Hl]; [|done|apply (lg_aios _ _ _ Hl)|done].
    intros r. unfold uses. cbn. pose proof (total_delete (vma_uses r) v m _ Hm) as Ht. unfold vma_uses at 2 in Ht. unfold mine.
    destruct (vm_file m); cbn; lia. }
  intros ?. eapply bal_bind with (Q := λ _, inv None l []).
  { unfold mine. destruct (vm_file m); cbn; [apply bal_put_ofile|apply bal_fput]. }
  intros ?. destruct (vm_prfile m); [apply bal_put_ofile|apply balanced_quiet, quiet_fret].
Qed.
Lemma serve_ledger op l s : ledger None l s → permitted op s →
  ∃ l', ledger None (l' ++ l) (serve_file op s) ∧ (all_sync s → l' = []).
Proof.
  intros Hl Hp.
  assert (HB : ∀ A P (m : F W A), bal P m (λ _, inv None l []) never → P s → ∃ l', ledger None (l' ++ l) (snd (m s)) ∧ (all_sync s → l' = [])).
  { intros A P m H HP. exists []. split; [|done]. specialize (H s HP). destruct (fst (m s)); [done|apply H]. }
  assert (HG : ∀ A G (m : F W A), balanced l G m → all_opened G s → ∃ l', ledger None (l' ++ l) (snd (m s)) ∧ (all_sync s → l' = [])).
  { intros A G m H HG. apply (HB A (inv None l G)); [|by split]. eapply bal_mono; [exact H|done|intros a t; apply inv_fewer|done]. }
  assert (H1 : ∀ f, opened f s → all_opened [f] s) by (intros f Hf g ->%list_elem_of_singleton; done).
  assert (H2 : ∀ f g, opened f s → opened g s → all_opened [f; g] s).
  { intros f g Hf Hg x [->|Hx]%elem_of_cons; [done|]. by apply list_elem_of_singleton in Hx as ->. }
  assert (H0 : all_opened [] s) by (by intros g Hg%elem_of_nil).
  assert (HW : ∀ f g, writing f g s → opened f s) by (intros f g []; by exists g).
  assert (HM : ∀ k iocb (m : F W Z) G, iocb_at iocb s = k → bal (λ s, inv None l G s ∧ iocb_at iocb s = k) m (λ _, may_forget k l G) never →
    all_opened G s → ∃ l', ledger None (l' ++ l) (snd (m s)) ∧ (all_sync s → l' = [])).
  { intros k iocb m G Hk H HGs. specialize (H s (conj (conj Hl HGs) Hk)). destruct (fst (m s)); [done|]. destruct H as (l' & [Hl' _] & Hs').
    exists l'. split; [done|]. intros Ha. apply Hs'. subst k. unfold iocb_at. destruct (fs_iocbs s !! iocb) eqn:E; [by eapply Ha|done]. }
  destruct op; cbn [serve_file permitted] in *.
  - exists []. split; [|done]. destruct Hp as [Hn _ Hd _]. pose proof (bal_ovl_open file l _ (with_file_ledger file dentry inode flags l s Hl Hn Hd)) as H.
    destruct (ovl_open file _) as [[e|err] s']; cbn [fst snd] in *; [done|]. destruct H as [Hz Hnz].
    destruct err as [|p|p]; [by apply Hz|by apply drop_fresh_ledger; apply Hnz|by apply drop_fresh_ledger; apply Hnz].
  - apply (HG _ []); [auto with quiet|done].
  - apply (HG _ []); [apply bal_put_ofile|done].
  - apply (HG _ []); [apply balanced_quiet; by apply quiet_update_ofile|done].
  - exists []. split; [|done]. eapply ledger_move; [| | | |exact Hl]; [done|done|apply (lg_aios _ _ _ Hl)|done].
  - destruct Hp as [Hv _]. by apply (HB _ _ _ (balanced_map v file l)).
  - by apply (HB _ _ _ (balanced_unmap v l)).
  - apply (HG _ [file]); [apply balanced_llseek, list_elem_of_singleton; done|by apply H1].
  - apply (HM (iocb_at iocb s) iocb _ [ki_filp (iocb_at iocb s)] eq_refl); [|by apply H1].
    apply bal_read_iter. by apply list_elem_of_singleton.
  - destruct Hp as [f Hw]. apply (HM (iocb_at iocb s) iocb _ [ki_filp (iocb_at iocb s)] eq_refl); [|by eapply H1, HW].
    apply bal_write_iter. by apply list_elem_of_singleton.
  - destruct Hp as [f Hw]. apply (HG _ [out]); [apply balanced_splice_write, list_elem_of_singleton; done|by eapply H1, HW].
  - apply (HG _ [file]); [apply balanced_fsync, list_elem_of_singleton; done|by apply H1].
  - destruct Hp as [Hf Hv]. apply (HB _ _ _ (bal_mmap file v l)). split; [split; [exact Hl|by apply H1]|done].
  - destruct Hp as [f Hw]. apply (HG _ [file]); [apply balanced_fallocate, list_elem_of_singleton; done|by eapply H1, HW].
  - apply (HG _ [file]); [apply balanced_fadvise, list_elem_of_singleton; done|by apply H1].
  - apply (HG _ [file]); [apply balanced_flush, list_elem_of_singleton; done|by apply H1].
  - destruct Hp as [Hi [f Hw]]. apply (HG _ [file_in; file_out]); [apply balanced_copyfile; set_solver|by eapply H2, HW].
  - destruct Hp as [Hi [f Hw]]. apply (HG _ [file_in; file_out]); [apply balanced_remap; set_solver|by eapply H2, HW].
  - apply (HG _ []); [|done]. apply balanced_bind; [auto with quiet|intros ?]. apply balanced_complete.
  - apply (HG _ []); [|done]. apply balanced_quiet, quiet_serve_attr.
Qed.

(** C15: The references to real files are counted right: in every history of the
    open files -- copied up and changed in between, with requests, mappings and
    duplicated files -- each real file that an open file, a request in flight or
    a mapping uses is there, with at least as many references as uses, so none
    is closed while it is used.  If every request is synchronous, there are
    exactly as many, and no real file that nobody uses stays open. *)
Theorem real_files_counted (ops : list file_op) s s' :
  ledger None [] s → history ops s s' →
  (∀ r, (0 < uses r s')%nat → ∃ x, fs_reals s' !! r = Some x ∧ Z.of_nat (uses r s') <= rf_count x) ∧
  (all_sync s → Forall sync_op ops → ledger None [] s').
Proof.
  intros Hl H. assert (HL : ∃ l, ledger None l s' ∧ (all_sync s → Forall sync_op ops → l = [])).
  { enough (HE : ∀ l, ledger None l s → ∃ l', ledger None l' s' ∧ (all_sync s → Forall sync_op ops → l' = l)).
    { destruct (HE [] Hl) as (l' & ? & ?). by exists l'. }
    clear Hl. induction H as [s|op ops s s' Hp _ IH]; intros l Hl; [by exists l|].
    destruct (serve_ledger op l s Hl Hp) as (l1 & Hl1 & Hs1). destruct (IH _ Hl1) as (l2 & Hl2 & Hs2). exists l2. split; [done|].
    intros Ha [Hop Hops]%Forall_cons. rewrite Hs2; [by rewrite Hs1|by apply serve_all_sync|done]. }
  destruct HL as (l & HL & Hs). split.
  - intros r Hr. pose proof (lg_count _ _ _ HL r) as Hc. destruct (Nat.eqb_spec (uses r s' + held r l) 0); [lia|].
    destruct (fs_reals s' !! r) as [x|]; [|done]. injection Hc as Hc. exists x. split; [done|lia].
  - intros Ha Hops. by rewrite <- (Hs Ha Hops).
Qed.
End refs.
