(* ===== verification/OvlCopyData.v ===== *)
(** * The data of a copied up file (copy_up.c)

    [ovl_copy_up_data] clones the file if it can, and otherwise copies it in
    chunks, from one extent of data to the next.  What is in the holes is not
    written: there a new file has the zeros that are read from a hole. *)
From S2P Require Import Prelude CString OS OvlOptions OvlVfs OvlHandle OvlLookup OvlLayers OvlIno OvlReaddir OvlDirFile OvlWrite OvlTemp OvlInode OvlCopyUp OvlWriteSim.
Open Scope Z_scope.

(** What is known of file contents: [byte w d q] is read at the position [q]
    of a file, NUL after its end and in a hole; [size] is the position of the
    end. *)
Class DataLaws {W} (K : Vfs W) (VW : VfsWrite W) (byte : W → Z → Z → ascii) (size : W → Z → Z) : Prop := {
  byte_end w d q : size w d <= q → byte w d q = NUL;
  signal_data w d : (∀ q, byte (snd (signal_pending w)) d q = byte w d q) ∧ size (snd (signal_pending w)) d = size w d;
  sync_data w d e : (∀ q, byte (snd (vfs_write w (CFsync e))) d q = byte w d q);
  (** splicing stops early only at the end of the file *)
  splice_count w old p new p' len : 0 < len → fst (splice_direct w old p new p' len) <= len;
  splice_old w old p new p' len : old ≠ new →
    (∀ q, byte (snd (splice_direct w old p new p' len)) old q = byte w old q) ∧
    size (snd (splice_direct w old p new p' len)) old = size w old;
  splice_new w old p new p' len q : old ≠ new → 0 <= p → 0 <= p' → 0 < len →
    let n := Z.max 0 (fst (splice_direct w old p new p' len)) in
    byte (snd (splice_direct w old p new p' len)) new q = if (p' <=? q) && (q <? p' + n) then byte w old (p + (q - p')) else byte w new q;
  splice_end w old p new p' len : 0 <= p → 0 < len → fst (splice_direct w old p new p' len) = 0 → size w old <= p;
  (** a whole file is cloned, or some of it may be *)
  clone_old w old new len : old ≠ new →
    (∀ q, byte (snd (clone_file_range w old new len)) old q = byte w old q) ∧
    size (snd (clone_file_range w old new len)) old = size w old;
  clone_all w old new len q : old ≠ new → fst (clone_file_range w old new len) = len → 0 <= q < len →
    byte (snd (clone_file_range w old new len)) new q = byte w old q;
  clone_part w old new len q : old ≠ new →
    byte (snd (clone_file_range w old new len)) new q = byte w new q ∨
    byte (snd (clone_file_range w old new len)) new q = byte w old q;
  (** the next data in a file, or ENXIO without any *)
  seek_found w d p : 0 <= p → 0 <= seek_data w d p →
    p <= seek_data w d p < size w d ∧ ∀ q, p <= q < seek_data w d p → byte w d q = NUL;
  seek_none w d p q : 0 <= p → seek_data w d p = - ENXIO → p <= q → byte w d q = NUL
}.

Section data.
Context {W : Type} {K : Vfs W} {VS : VfsStat W} {VW : VfsWrite W} (byte : W → Z → Z → ascii) (size : W → Z → Z) {DL : DataLaws K VW byte size}.
Context (old new : Z) (Hne : old ≠ new).
Implicit Types s : wstate W.

(** [new] has what [old] has before [pos], and nothing else afterwards. *)
Record copied_to (pos : Z) (w : W) : Prop := CopiedTo {
  ct_done q : 0 <= q < pos → byte w new q = byte w old q;
  ct_rest q : pos <= q → byte w new q = NUL ∨ byte w new q = byte w old q
}.
Definition old_same (w w' : W) : Prop := (∀ q, byte w' old q = byte w old q) ∧ size w' old = size w old.
#[local] Instance old_same_preorder : PreOrder old_same.
Proof. split; [by split|]. intros w1 w2 w3 [H1 H2] [H3 H4]. split; [intros q; by rewrite H3|by rewrite H4]. Qed.

(** Where nothing is left in the old file, all is copied. *)
Lemma copied_rest pos w : copied_to pos w → (∀ q, pos <= q → byte w old q = NUL) → ∀ q, 0 <= q → byte w new q = byte w old q.
Proof.
  intros [Hd Hr] Hz q Hq. destruct (Z.lt_ge_cases q pos); [apply Hd; lia|].
  destruct (Hr q ltac:(lia)) as [->|]; [by rewrite Hz by lia|done].
Qed.
Lemma copied_forward pos pos' w : copied_to pos w → pos <= pos' → (∀ q, pos <= q < pos' → byte w old q = NUL) → copied_to pos' w.
Proof.
  intros [Hd Hr] Hp Hz. split.
  - intros q Hq. destruct (Z.lt_ge_cases q pos); [apply Hd; lia|]. destruct (Hr q ltac:(lia)) as [->|]; [by rewrite Hz by lia|done].
  - intros q Hq. apply Hr. lia.
Qed.
Lemma copied_signal pos w : copied_to pos w → copied_to pos (snd (signal_pending w)).
Proof.
  intros [Hd Hr]. destruct (signal_data w old) as [Ho _]. destruct (signal_data w new) as [Hn _].
  split; intros q; rewrite Ho, Hn; auto.
Qed.
Lemma copied_splice pos w len : 0 <= pos → 0 < len → copied_to pos w →
  let n := fst (splice_direct w old pos new pos len) in
  0 < n → copied_to (pos + n) (snd (splice_direct w old pos new pos len)).
Proof.
  intros Hpos Hlen [Hd Hr] n Hn. destruct (splice_old w old pos new pos len Hne) as [Ho _].
  assert (HN := λ q, splice_new w old pos new pos len q Hne Hpos Hpos Hlen). cbv zeta in HN. fold n in HN.
  rewrite (Z.max_r 0 n) in HN by lia.
  split; intros q Hq; rewrite Ho, HN.
  - destruct (Z.leb_spec pos q), (Z.ltb_spec q (pos + n)); cbn [andb]; [by replace (pos + (q - pos)) with q by lia|lia..|apply Hd; lia|apply Hd; lia].
  - destruct (Z.leb_spec pos q), (Z.ltb_spec q (pos + n)); cbn [andb]; lia || (apply Hr; lia).
Qed.

(** The loop: the answer, and after a success all of the file.  [total] is
    where the copy ends. *)
Lemma copy_data_spec total fuel : ∀ pos len data_pos skip s,
  0 <= pos → 0 <= len → pos + len = total → size (ws_world s) old <= total → len < Z.of_nat fuel → copied_to pos (ws_world s) →
  ∃ e s', copy_data fuel old new pos len data_pos skip s = (inr e, s') ∧ old_same (ws_world s) (ws_world s') ∧
    (e = 0 → ∀ q, 0 <= q → byte (ws_world s') new q = byte (ws_world s') old q).
Proof.
  induction fuel as [|fuel IH]; intros pos len data_pos skip s Hpos Hlen Htot Hsz Hfuel Hc; [lia|]. cbn [copy_data].
  destruct (Z.eqb_spec len 0) as [->|Hl].
  { do 2 eexists. split; [reflexivity|]. split; [reflexivity|]. intros _. apply (copied_rest pos); [done|].
    intros q Hq. apply (byte_end (size := size)). lia. }
  set (this_len := if (0 <=? len) && (len <? OVL_COPY_UP_CHUNK_SIZE) then len else OVL_COPY_UP_CHUNK_SIZE).
  assert (Hthis : 0 < this_len <= len).
  { unfold this_len, OVL_COPY_UP_CHUNK_SIZE. destruct (Z.leb_spec 0 len), (Z.ltb_spec len 1048576); cbn [andb]; lia. }
  unfold ubind at 1. unfold ulift at 1. change (vs_world (ws_ovl s)) with (ws_world s).
  pose proof (signal_data (ws_world s) old) as Hso. apply (copied_signal pos) in Hc.
  destruct (signal_pending (ws_world s)) as [pending w]. cbn [snd] in Hso, Hc.
  set (s1 := set_ws_ovl (set_vs_world w (ws_ovl s)) s). change w with (ws_world s1) in Hso, Hc. clearbody s1. clear w.
  destruct pending.
  { do 2 eexists. split; [reflexivity|]. split; [exact Hso|done]. }
  set (sought := skip && (data_pos <? pos)).
  assert (Hseek : ∃ data, (if sought then uread (λ w, seek_data w old pos) else uret data_pos) s1 = (inr data, s1) ∧
    (sought = true → data = seek_data (ws_world s1) old pos)).
  { destruct sought; eexists; (split; [reflexivity|done]). }
  destruct Hseek as (data & Hdata & Hsd). unfold ubind at 1. rewrite Hdata.
  destruct (sought && (pos <? data)) eqn:E1.
  { apply andb_true_iff in E1 as [Es Hd]. apply Z.ltb_lt in Hd. specialize (Hsd Es). subst data.
    assert (Hd0 : 0 <= seek_data (ws_world s1) old pos) by lia.
    destruct (seek_found (size := size) (ws_world s1) old pos Hpos Hd0) as [Hr Hz].
    destruct Hso as [Hso1 Hso2].
    destruct (IH (seek_data (ws_world s1) old pos) (len - (seek_data (ws_world s1) old pos - pos))
      (seek_data (ws_world s1) old pos) skip s1) as (e & s' & H & Ho & He); [lia..| |].
    { eapply copied_forward; [exact Hc|lia|exact Hz]. }
    exists e, s'. split; [exact H|]. split; [|done]. etransitivity; [by split|exact Ho]. }
  destruct (sought && (data =? - ENXIO)) eqn:E2.
  { apply andb_true_iff in E2 as [Es Hd]. apply Z.eqb_eq in Hd. specialize (Hsd Es).
    do 2 eexists. split; [reflexivity|]. split; [exact Hso|]. intros _. apply (copied_rest pos); [done|].
    intros q Hq. eapply (seek_none (size := size)); [exact Hpos|by rewrite <- Hsd|done]. }
  unfold ubind at 1. unfold ucall at 1, ulift at 1, vcall at 1. change (vs_world (ws_ovl s1)) with (ws_world s1).
  pose proof (splice_old (size := size) (ws_world s1) old pos new pos this_len Hne) as Hsp.
  pose proof (copied_splice pos (ws_world s1) this_len Hpos ltac:(lia) Hc) as Hcs.
  pose proof (splice_end (size := size) (ws_world s1) old pos new pos this_len Hpos ltac:(lia)) as Hend.
  pose proof (splice_count (size := size) (ws_world s1) old pos new pos this_len ltac:(lia)) as Hcount.
  pose proof (λ q, splice_new (size := size) (ws_world s1) old pos new pos this_len q Hne Hpos Hpos ltac:(lia)) as Hnew.
  destruct (splice_direct (ws_world s1) old pos new pos this_len) as [bytes w]. cbn [fst snd] in *. cbv zeta in Hcs, Hnew.
  set (s2 := set_ws_ovl (set_vs_world w (ws_ovl s1)) s1). change w with (ws_world s2) in Hsp, Hcs, Hnew. clearbody s2. clear w.
  assert (Ho2 : old_same (ws_world s) (ws_world s2)) by (etransitivity; [exact Hso|exact Hsp]).
  destruct (Z.leb_spec bytes 0) as [Hb|Hb].
  - do 2 eexists. split; [reflexivity|]. split; [exact Ho2|]. intros ->. specialize (Hend eq_refl).
    intros q Hq. rewrite Hnew, (proj1 Hsp). rewrite Z.max_l by lia. rewrite Z.add_0_r.
    assert (E : (pos <=? q) && (q <? pos) = false) by (destruct (Z.leb_spec pos q), (Z.ltb_spec q pos); done || lia).
    rewrite E. apply (copied_rest pos); [done| |done]. intros q' Hq'. apply (byte_end (size := size)). lia.
  - destruct Ho2 as [Ho2b Ho2s].
    destruct (IH (pos + bytes) (len - bytes) data (if sought && (data <? 0) then false else skip) s2) as (e & s' & H & Ho & He);
      [lia..|by apply Hcs|].
    exists e, s'. split; [exact H|]. split; [|done]. etransitivity; [by split|exact Ho].
Qed.

(** What cloning leaves to be done. *)
Definition cloning (w w' : W) (cloned len : Z) : Prop :=
  old_same w w' ∧ (cloned = len → ∀ q, 0 <= q < len → byte w' new q = byte w old q) ∧
  ∀ q, byte w' new q = byte w new q ∨ byte w' new q = byte w old q.
Lemma clone_spec len s : ∃ cloned s1, ucall (λ w, clone_file_range w old new len) s = (inr cloned, s1) ∧
  cloning (ws_world s) (ws_world s1) cloned len.
Proof.
  unfold ucall, ulift, vcall, cloning. change (vs_world (ws_ovl s)) with (ws_world s).
  pose proof (clone_old (size := size) (ws_world s) old new len Hne) as Hco.
  pose proof (λ q, clone_all (size := size) (ws_world s) old new len q Hne) as Hca.
  pose proof (λ q, clone_part (size := size) (ws_world s) old new len q Hne) as Hcp.
  destruct (clone_file_range (ws_world s) old new len) as [cloned w]. cbn [fst snd] in *.
  do 2 eexists. split; [reflexivity|]. split_and!; [exact Hco| |exact Hcp]. intros Hc q. by apply Hca.
Qed.
Lemma copy_the_rest len w cloned seek s1 :
  cloning w (ws_world s1) cloned len → 0 < len → size w old <= len → (∀ q, byte w new q = NUL) →
  ∃ e s', (if cloned =? len then uret 0 else copy_data (Z.to_nat len + 1) old new 0 len (-1) seek) s1 = (inr e, s') ∧
    old_same (ws_world s1) (ws_world s') ∧ (e = 0 → ∀ q, 0 <= q → byte (ws_world s') new q = byte (ws_world s') old q).
Proof.
  intros (Hco & Hca & Hcp) Hlen Hsz Hnew. destruct (Z.eqb_spec cloned len) as [->|].
  - do 2 eexists. split; [reflexivity|]. split; [reflexivity|]. intros _ q Hq.
    destruct (Z.lt_ge_cases q len) as [Hq'|Hq']; [rewrite Hca by done; symmetry; apply Hco|].
    rewrite (byte_end (size := size) (ws_world s1) old q) by (destruct Hco as [_ ->]; lia).
    destruct (Hcp q) as [->| ->]; [apply Hnew|]. apply (byte_end (size := size)). lia.
  - apply (copy_data_spec len); [lia..| |lia|].
    + destruct Hco as [_ ->]. lia.
    + split; [lia|]. intros q Hq. rewrite (proj1 Hco). destruct (Hcp q) as [->| ->]; [left; apply Hnew|by right].
Qed.

(** From its start on a file holds in [w'] what another one holds in [w]. *)
Definition reads_as (w' : W) (d' : Z) (w : W) (d : Z) : Prop := ∀ q, 0 <= q → byte w' d' q = byte w d q.

(** C8: Copying the data of a file up into a new file is exact: whatever comes
    of cloning, of the search for holes, of short splices and of signals, the
    function ends with an answer, the old file is as it was, and if the answer
    is success then every byte of the new file is that of the old one. *)
Theorem copy_up_data_exact (len : Z) s :
  0 <= len → size (ws_world s) old <= len → (∀ q, byte (ws_world s) new q = NUL) →
  ∃ e s', ovl_copy_up_data old new len s = (inr e, s') ∧
    reads_as (ws_world s') old (ws_world s) old ∧ (e = 0 → reads_as (ws_world s') new (ws_world s) old).
Proof.
  intros Hlen Hsz Hnew. unfold ovl_copy_up_data. destruct (Z.eqb_spec len 0) as [->|Hl].
  { do 2 eexists. split; [reflexivity|]. split; [done|]. intros _ q Hq. rewrite Hnew. symmetry.
    apply (byte_end (size := size)). lia. }
  assert (Hopen : ∀ d b, ∃ e, ovl_path_open d b s = (inr e, s)).
  { intros d b. unfold ovl_path_open, ubind, uread, uget. destruct (negb _); eauto. }
  destruct (Hopen old false) as [e1 H1]. destruct (Hopen new true) as [e2 H2].
  unfold ubind at 1. rewrite H1. destruct (Z.eqb_spec e1 0) as [_|?]; cbn [negb]; [|do 2 eexists; split; [reflexivity|done]].
  unfold ubind at 1. rewrite H2. destruct (Z.eqb_spec e2 0) as [_|?]; cbn [negb]; [|do 2 eexists; split; [reflexivity|done]].
  clear e1 e2 Hopen H1 H2. destruct (clone_spec len s) as (cloned & s1 & Hc & Hcl). unfold ubind at 1. rewrite Hc.
  unfold ubind at 1. unfold uread at 1, uget at 1.
  destruct (copy_the_rest len _ cloned (can_seek (ws_world s1) old) s1 Hcl) as (e & s2 & Hrun & [Ho _] & He); [lia|done..|].
  destruct Hcl as [[Hco _] _]. unfold ubind at 1. rewrite Hrun. unfold ubind at 1. unfold uovl at 1, uget at 1.
  destruct (e =? 0) eqn:E0; cbn [andb]; [apply Z.eqb_eq in E0 as ->|].
  - destruct (ovl_should_sync _).
    + unfold uwrite, ucall, ulift, vcall. change (vs_world (ws_ovl s2)) with (ws_world s2).
      pose proof (λ d, sync_data (size := size) (ws_world s2) d new) as Hsync.
      destruct (vfs_write (ws_world s2) (CFsync new)) as [e w]. cbn [snd] in Hsync.
      exists e, (set_ws_ovl (set_vs_world w (ws_ovl s2)) s2). split; [done|].
      change (ws_world (set_ws_ovl (set_vs_world w (ws_ovl s2)) s2)) with w. split.
      * intros q. by rewrite Hsync, Ho, Hco.
      * intros _ q Hq. rewrite Hsync, He by done. by rewrite Ho, Hco.
    + do 2 eexists. split; [reflexivity|]. split; [intros q; by rewrite Ho, Hco|].
      intros _ q Hq. rewrite He by done. by rewrite Ho, Hco.
  - do 2 eexists. split; [reflexivity|]. split; [intros q; by rewrite Ho, Hco|].
    intros ->. done.
Qed.
End data.

(** ** The sample file system *)

Definition fsys_byte (t : fsys) (d q : Z) : ascii := if q <? 0 then NUL else default NUL (data_at t d !! Z.to_nat q).
Definition fsys_size (t : fsys) (d : Z) : Z := Z.of_nat (length (data_at t d)).

Lemma data_at_put t d l e : data_at (put_data d l t) e = if decide (e = d) then l else data_at t e.
Proof. unfold data_at. cbn. by destruct (decide (e = d)). Qed.
Lemma overwrite_lookup p b l i :
  default NUL (overwrite p b l !! i) = if Nat.leb p i && Nat.ltb i (p + length b) then default NUL (b !! (i - p)%nat) else default NUL (l !! i).
Proof.
  unfold overwrite. set (l' := l ++ replicate (p - length l) NUL).
  assert (Hl' : ∀ j, default NUL (l' !! j) = default NUL (l !! j)).
  { intros j. unfold l'. destruct (Nat.lt_ge_cases j (length l)); [by rewrite lookup_app_l|].
    rewrite lookup_app_r, (lookup_ge_None_2 l) by lia. cbn.
    destruct (decide (j - length l < p - length l)%nat); [by rewrite lookup_replicate_2|].
    rewrite lookup_ge_None_2; [done|rewrite length_replicate; lia]. }
  assert (Hlen : length (take p l') = p).
  { rewrite length_take. unfold l'. rewrite length_app, length_replicate. lia. }
  destruct (Nat.leb_spec p i), (Nat.ltb_spec i (p + length b)); cbn [andb].
  - rewrite lookup_app_r, Hlen by lia. rewrite lookup_app_l by lia. done.
  - rewrite lookup_app_r, Hlen by lia. rewrite lookup_app_r by lia. rewrite lookup_drop. do 2 f_equal. lia.
  - rewrite lookup_app_l, lookup_take_lt by (rewrite ?Hlen; lia). apply Hl'.
  - lia.
Qed.
Lemma next_data_spec l p r : next_data l p = r →
  (0 <= p → 0 <= r → p <= r < p + Z.of_nat (length l) ∧ ∀ q, p <= q < r → default NUL (l !! Z.to_nat (q - p)) = NUL) ∧
  (0 <= p → r = - ENXIO → ∀ q, p <= q → default NUL (l !! Z.to_nat (q - p)) = NUL).
Proof.
  revert p. induction l as [|c l IH]; intros p; cbn [next_data].
  - intros <-. split; [unfold ENXIO; lia|]. intros _ _ q _. by rewrite lookup_nil.
  - destruct (char_eqb c NUL) eqn:E.
    + apply char_eqb_eq in E as ->. intros H. destruct (IH _ H) as [H1 H2]. split.
      * intros Hp Hr. destruct (H1 ltac:(lia) Hr) as [Hb Hz]. split; [cbn [length]; lia|]. intros q Hq.
        destruct (decide (q = p)) as [->|]; [by rewrite Z.sub_diag|].
        replace (Z.to_nat (q - p)) with (S (Z.to_nat (q - (p + 1)))) by lia. apply Hz. lia.
      * intros Hp Hr q Hq. destruct (decide (q = p)) as [->|]; [by rewrite Z.sub_diag|].
        replace (Z.to_nat (q - p)) with (S (Z.to_nat (q - (p + 1)))) by lia. apply H2; lia.
    + intros <-. split; [|unfold ENXIO; lia]. intros Hp _. split; [cbn [length]; lia|]. intros q Hq. lia.
Qed.
Lemma fsys_byte_in t d q : 0 <= q → fsys_byte t d q = default NUL (data_at t d !! Z.to_nat q).
Proof. intros H. unfold fsys_byte. destruct (Z.ltb_spec q 0); [lia|done]. Qed.
#[local] Instance fsys_data : DataLaws fsys_vfs fsys_write fsys_byte fsys_size.
Proof.
  split; try done.
  - intros w d q H. unfold fsys_size in H. rewrite fsys_byte_in by lia. by rewrite lookup_ge_None_2 by lia.
  - intros w old p new p' len Hlen. cbn. rewrite length_take. lia.
  - intros w old p new p' len Hne. cbn. destruct (take _ _) as [|c b]; [done|].
    split; [intros q; unfold fsys_byte|unfold fsys_size]; by rewrite data_at_put, decide_False.
  - intros w old p new p' len q Hne Hp Hp' Hlen. cbn. set (b := take (Z.to_nat len) (drop (Z.to_nat p) (data_at w old))).
    rewrite Z.max_r by lia.
    assert (Hb : ∀ i, (i < length b)%nat → default NUL (b !! i) = default NUL (data_at w old !! (Z.to_nat p + i)%nat)).
    { intros i Hi. unfold b in *. rewrite length_take in Hi. rewrite lookup_take_lt by lia. by rewrite lookup_drop. }
    destruct (Z.ltb_spec q 0) as [Hq|Hq].
    { assert (E : (p' <=? q) = false) by lia. rewrite E. unfold fsys_byte. destruct (Z.ltb_spec q 0); [|lia]. by destruct b. }
    destruct b as [|c b'] eqn:Eb.
    { cbn. rewrite Z.add_0_r. assert (E : (p' <=? q) && (q <? p') = false) by (destruct (Z.leb_spec p' q), (Z.ltb_spec q p'); done || lia).
      by rewrite E. }
    rewrite <- Eb in *. clear Eb. rewrite fsys_byte_in, data_at_put, decide_True, overwrite_lookup by done.
    destruct (Z.leb_spec p' q), (Z.ltb_spec q (p' + Z.of_nat (length b))); cbn [andb].
    + rewrite (proj2 (Nat.leb_le _ _)), (proj2 (Nat.ltb_lt _ _)) by lia. cbn [andb].
      rewrite fsys_byte_in by lia. rewrite Hb by lia. do 2 f_equal. lia.
    + rewrite (proj2 (Nat.ltb_ge _ _)) by lia. rewrite andb_false_r. by rewrite fsys_byte_in.
    + rewrite (proj2 (Nat.leb_gt _ _)) by lia. cbn [andb]. by rewrite fsys_byte_in.
    + lia.
  - intros w old p new p' len Hp Hlen. cbn. intros H. destruct (take _ _) as [|c b] eqn:E; [|cbn in H; lia].
    apply (f_equal length) in E. rewrite length_take, length_drop in E. cbn in E. unfold fsys_size. lia.
  - intros w old new len q _. cbn. unfold EOPNOTSUPP. lia.
  - by intros w old new len q Hne; left.
  - intros w d p Hp Hr. cbn in Hr |- *. destruct (next_data_spec (drop (Z.to_nat p) (data_at w d)) p _ eq_refl) as [H _].
    destruct (H Hp Hr) as [Hb Hz]. rewrite length_drop in Hb. unfold fsys_size. split; [lia|].
    intros q Hq. rewrite fsys_byte_in by lia. specialize (Hz q Hq). rewrite lookup_drop in Hz. etransitivity; [|exact Hz]. do 2 f_equal. lia.
  - intros w d p q Hp Hr Hq. cbn in Hr. destruct (next_data_spec (drop (Z.to_nat p) (data_at w d)) p _ eq_refl) as [_ H].
    rewrite fsys_byte_in by lia. specialize (H Hp Hr q Hq). rewrite lookup_drop in H. etransitivity; [|exact H]. do 2 f_equal. lia.
Qed.
(** "hello" with a hole in it. *)
Definition holey_fsys : fsys := put_data 6 (lit "he" ++ replicate 5 NUL ++ lit "llo") sample_fsys.
Definition holey_state : wstate fsys := set_ws_ovl (set_vs_world holey_fsys (ws_ovl sample_wstate)) sample_wstate.
Lemma copy_up_data_exact_witness :
  fst (ovl_copy_up_data 6 5 10 holey_state) = inr 0 ∧
  ∃ e s', ovl_copy_up_data 6 5 10 holey_state = (inr e, s') ∧
    reads_as fsys_byte (ws_world s') 6 holey_fsys 6 ∧
    (e = 0 → reads_as fsys_byte (ws_world s') 5 holey_fsys 6).
Proof.
  split; [vm_compute; reflexivity|].
  apply (copy_up_data_exact fsys_byte fsys_size 6 5 ltac:(done) 10 holey_state); [done|by vm_compute|].
  intros q. unfold fsys_byte. destruct (q <? 0); [done|]. done.
Defined.
