(* ===== verification/OvlMountSim.v ===== *)
(** * A mount on the file system for concrete runs *)
From S2P Require Import Prelude CString OS OvlOptions OvlVfs OvlHandle OvlLookup OvlSim OvlLayers OvlStack OvlMerge OvlIno OvlReaddir OvlDirFile OvlWrite OvlTemp OvlInode OvlCopyUp OvlCreate OvlWorkdir OvlSuper OvlWriteSim OvlSpare OvlFill OvlMounted.
Open Scope Z_scope.

(** The roots 1, 3, 7 and 9 are on one mount, 2 is on another one; the paths
    "u", "w", "u2", "w2" and "l" lead to them. *)
#[export] Instance fsys_mount : MountLib fsys := {
  kern_path t n :=
    if str_eqb n (lit "u") then inr (Path 1 1) else if str_eqb n (lit "l") then inr (Path 2 2)
    else if str_eqb n (lit "w") then inr (Path 1 3)
    else if str_eqb n (lit "u2") then inr (Path 1 7) else if str_eqb n (lit "w2") then inr (Path 1 9) else inl (- ENOENT);
  is_idmapped_mnt t d := false;
  vfs_statfs t p := inr 255;
  s_stack_depth t d := 0;
  clone_private_mount t p := inr (pa_dentry p);
  get_anon_bdev t n := inr (50 + Z.of_nat n);
  iget5_locked t n := true;
  kmalloc_at t n := true
}.
#[export] Instance fsys_super : SuperLib fsys := {
  same_user_ns t := true;
  mnt_is_readonly t m := false;
  s_magic t d := 0;
  sb_nosec t d := false;
  errseq_sample t d := 0;
  errseq_check t d since := 0;
  sync_filesystem t d := (0, t);
  d_alloc_root t := 100
}.
#[export] Instance fsys_mount_laws : MountLaws fsys_mount.
Proof.
  split; cbn; try done.
  - intros w n m d. intros <-%(inj inr) ?%(inj inr). lia.
  - by intros w [m d] r [= <-].
Qed.
Definition held_root (d : Z) : Prop := d ∈ [1; 2; 3; 7; 9].
#[export] Instance fsys_path_laws : PathLaws fsys_mount held_root.
Proof.
  split. intros w n p. cbn. unfold held_root.
  repeat (destruct (str_eqb n _); [intros [= <-]; cbn; set_solver|]). done.
Qed.


(** The roots keep their inodes. *)
Lemma busy_not_held d x : busy d = false → held_root x → x ≠ d.
Proof. unfold busy, held_root. intros Hb Hx ->. by apply bool_decide_eq_false_1 in Hb. Qed.
Lemma missing_not_held t b n x : held_root x → x ≠ missing t b n.
Proof.
  intros Hx ->. unfold held_root, missing in Hx. destruct (is_up b); rewrite !elem_of_cons in Hx; destruct Hx as [?|[?|[?|[?|[?|Hx]]]]]; try lia;
    by apply not_elem_of_nil in Hx.
Qed.
Definition same_roots (t t' : fsys) : Prop := ∀ x, held_root x → inode_addr t' x = inode_addr t x.
Lemma roots_put d i t : (∀ x, held_root x → x ≠ d) → same_roots t (put_dentry d i t).
Proof. intros H x Hx. unfold inode_addr. cbn [dentry_of fsys_vfs]. by rewrite info_of_put_ne by auto. Qed.
Lemma roots_same t t' : f_dentries t' = f_dentries t → same_roots t t'.
Proof. intros H x _. unfold inode_addr. cbn. unfold info_of. by rewrite H. Qed.
#[local] Instance roots_preorder : PreOrder same_roots.
Proof. split; [by intros t x|]. intros t1 t2 t3 H1 H2 x Hx. by rewrite H2, H1. Qed.
Lemma roots_create dir d f p r t : busy d = false → same_roots t (create_in dir d f p r t).
Proof.
  intros Hb. transitivity (put_dentry d (positive d f r (de_name (info_of t d)) dir) t); [|by apply roots_same].
  apply roots_put. intros x. by apply busy_not_held.
Qed.
Lemma roots_renamed od o nd n flags t : busy o = false → busy n = false → same_roots t (renamed od o nd n flags t).
Proof.
  intros Ho Hn. unfold renamed. cbv zeta.
  set (t1 := put_name _ _ _ (put_dentry o _ (bump t))).
  assert (H1 : same_roots t t1).
  { transitivity (bump t); [by apply roots_same|]. transitivity (put_dentry o (moved (info_of t o) (de_name (info_of t n)) nd) (bump t)); [|by apply roots_same].
    apply roots_put. intros x. by apply busy_not_held. }
  assert (H2 : ∀ i b m y, same_roots t1 (put_name b m y (put_dentry n i t1))).
  { intros i b m y. transitivity (put_dentry n i t1); [|by apply roots_same]. apply roots_put. intros x. by apply busy_not_held. }
  destruct (negb _); [by etransitivity|]. destruct (negb _); [|by etransitivity].
  etransitivity; [exact H1|]. transitivity (put_dentry n (negative (info_of t n)) t1); [apply roots_put; intros x; by apply busy_not_held|].
  match goal with |- same_roots _ (put_name _ _ _ (put_dentry ?wh ?i ?u)) => transitivity (put_dentry wh i u); [|by apply roots_same] end.
  apply roots_put. intros x Hx. by apply missing_not_held.
Qed.
Lemma roots_perform t c : allowed t c = true → same_roots t (perform t c).
Proof.
  destruct c; cbn; try (intros Hb%negb_true_iff; first [by apply roots_create|apply roots_put; intros x; by apply busy_not_held]).
  all: try (intros _; by apply roots_same).
  - intros [[Ho%negb_true_iff Hn%negb_true_iff]%andb_prop _]%andb_prop.
    etransitivity; [apply (roots_put new); intros x; by apply busy_not_held|].
    etransitivity; [apply (roots_put old); intros x; by apply busy_not_held|by apply roots_same].
  - rewrite !andb_true_iff, !negb_true_iff. intros [[[[[? ?] _] _] _] _]. by apply roots_renamed.
Qed.
#[export] Instance fsys_held : UpperLaws fsys_vfs fsys_stat fsys_write anywhere (held_same held_root).
Proof.
  split; cbn; try done; try (intros; by apply roots_same).
  - intros w c _. destruct (allowed w c) eqn:E; [|by intros x]. by apply roots_perform.
  - intros w old p new p' len _. destruct (take _ _); by apply roots_same.
Qed.

(** ** Two mounts *)

(** Nothing is mounted. *)
Definition two_roots : fsys := put_dentry 7 (fs_dir 7 "/" 7) (put_dentry 9 (fs_dir 9 "work" 9) sample_fsys).
Definition unmounted : super fsys := Super
  (MountFs sample_uconfig None [] [] [] 0 0 0 0 ∅)
  (WState (VState two_roots (OvlFs None [] None 0 sample_uconfig false 0 []) 0 ∅ ∅ false) None None true false 0 0 ∅ ∅ 300 ∅)
  None None false false false false false 0 None false.
Definition options1 : cstr := lit "lowerdir=l,upperdir=u,workdir=w,index=on".
Definition options2 : cstr := lit "lowerdir=l,upperdir=u2,workdir=w2,index=on".
#[local] Abbreviation mount1 o s := (ovl_fill_super sample_module (λ _, true) 10 (Some o) s).
Definition first_mount : super fsys := snd (mount1 options1 unmounted).
Definition second_mount : super fsys := snd (mount1 options2 first_mount).
Definition refused_mount : super fsys := snd (mount1 options1 first_mount).
Lemma first_run : mount1 options1 unmounted = (inr tt, first_mount).
Proof. vm_compute. reflexivity. Qed.
Lemma second_run : mount1 options2 first_mount = (inr tt, second_mount).
Proof. vm_compute. reflexivity. Qed.
Lemma refused_run : mount1 options1 first_mount = (inl (- EBUSY), refused_mount).
Proof. vm_compute. reflexivity. Qed.

(** A second mount of the same directories is refused, and leaves no mark; the
    first one takes its marks back. *)
Lemma in_use_marks_given_back_witness :
  mf_inuse (su_mount first_mount) = {[1; 3]} ∧ mf_inuse (su_mount refused_mount) = {[1; 3]} ∧
  mf_inuse (su_mount (snd (ovl_put_super first_mount))) = ∅.
Proof.
  assert (H1 : mf_inuse (su_mount first_mount) = {[1; 3]}) by (vm_compute; reflexivity).
  split; [exact H1|]. split.
  - pose proof (in_use_marks_given_back held_root sample_module (λ _, true) 10 (Some options1) first_mount) as H.
    rewrite refused_run in H. exact (eq_trans H H1).
  - pose proof (in_use_marks_given_back held_root sample_module (λ _, true) 10 (Some options1) unmounted) as H.
    rewrite first_run in H. refine (eq_trans (H first_mount _) _); [split; reflexivity|vm_compute; reflexivity].
Defined.
Lemma mounted_overlay_well_formed_witness : well_formed first_mount.
Proof. exact (mounted_overlay_well_formed held_root sample_module (λ _, true) 10 (Some options1) unmounted first_mount first_run). Defined.
Lemma indexed_overlays_apart_witness : own_dirs first_mount ## own_dirs second_mount.
Proof.
  apply (indexed_overlays_apart held_root sample_module (λ _, true) 10 (Some options1) (Some options2) unmounted first_mount first_mount second_mount first_run).
  - vm_compute. reflexivity.
  - reflexivity.
  - exact second_run.
  - vm_compute. reflexivity.
Defined.
