(* ===== verification/OvlFileSim.v ===== *)
(** * Open files of the file system for concrete runs *)
From S2P Require Import Prelude CString OS OvlOptions OvlVfs OvlHandle OvlLookup OvlSim OvlLayers OvlStack OvlMerge OvlIno OvlReaddir OvlDirFile OvlWrite OvlTemp OvlInode OvlCopyUp OvlCreate OvlWorkdir OvlSuper OvlFile OvlWriteSim OvlSpare OvlFileSafe OvlFill OvlMounted OvlLower OvlCopyLoop OvlFileRefs OvlMountSim.
Open Scope Z_scope.

(** The data of a file is that of its inode.  What is written is "x". *)
Definition written (t : fsys) (i pos count : Z) : fsys :=
  put_data i (overwrite (Z.to_nat pos) (replicate (Z.to_nat count) "x"%char) (data_at t i)) t.
Definition readable (t : fsys) (i pos count : Z) : Z := Z.min count (Z.max 0 (Z.of_nat (length (data_at t i)) - pos)).
#[export] Instance fsys_file : VfsFile fsys := {
  inode_may t i mask := 0;
  inode_owner_or_capable t i := true;
  open_with_fake_path t d flags i := (0, t);
  is_append t i := false;
  has_direct_IO t i := true;
  check_flags t i flags := 0;
  has_mmap t i := true;
  has_flush t i := true;
  call_file t f c :=
    let i := rf_inode f in
    match c with
    | FSeek offset whence =>
      if whence =? SEEK_SET then ((offset, offset), t)
      else if whence =? SEEK_CUR then ((rf_pos f + offset, rf_pos f + offset), t) else ((- EINVAL, rf_pos f), t)
    | FRead pos count _ => let n := readable t i pos count in ((n, pos + n), t)
    | FWrite pos count _ | FSplice pos count _ => ((count, pos + count), written t i pos count)
    | FAllocate _ offset len => ((0, 0), put_data i (overwrite (length (data_at t i)) [] (data_at t i)) t)
    | _ => ((0, 0), t)
    end;
  call_copy t op r_in pos_in r_out pos_out len flags :=
    let n := readable t (rf_inode r_in) pos_in len in (n, written t (rf_inode r_out) pos_out n);
  submit_iocb t write f pos count flags :=
    ((- EIOCBQUEUED, pos, None), if write : bool then written t (rf_inode f) pos count else t);
  privs_to_remove t d i := inr (Some (no_iattr ATTR_KILL_SUID));
  atime_needs_update t i := true;
  touch_atime t d := put_attrs d (set_at_atime (at_atime (attrs_at t d) + 1) (attrs_at t d)) t
}.
#[export] Instance fsys_file_laws : FileLaws fsys_file Upper Upper (lower_same Upper).
Proof.
  split; cbn; try done; try (intros; reflexivity).
  - intros w u a Hu. destruct (de_inode (info_of w u)) as [x|] eqn:E; [|done]. intros [= <-].
    pose proof (info_of_own w u) as H. rewrite E in H. cbn in H. destruct (Bool.eqb _ _) eqn:Eb; [|done]. apply eqb_prop in Eb.
    unfold Upper in *. congruence.
  - intros w f c Hc. destruct c; try done; cbn; repeat case_match; reflexivity.
  - intros w f c Hu. destruct c; cbn; try (apply lower_eq_same, put_data_eq; exact Hu); repeat case_match; reflexivity.
  - intros. by apply lower_eq_same, put_data_eq.
  - intros w [] f pos count flags Hu; [|reflexivity]. by apply lower_eq_same, put_data_eq, Hu.
  - intros w u Hu. by apply lower_eq_same, put_attrs_eq.
Qed.

(** The overlay of [OvlWriteSim], mounted. *)
Definition sample_mount : mount_fs :=
  MountFs sample_uconfig (Some 1) [OvlSb 1 7 false false []] [MountLayer 2 1 0] [] 255 0 1 0 ∅.
Definition sample_super : super fsys :=
  Super sample_mount sample_wstate (Some 3) None true true false false false 0 None true.
Definition no_files : fstate fsys := FState sample_super ∅ ∅ 1 ∅ ∅ 1 ∅ 0.
Lemma no_files_ok : files_ok Upper no_files.
Proof. split; [|cbn; lia|done]. destruct sample_upper_state as [[Hi Hx] Hw Hh]. by split. Qed.

(** "motd" is opened to read, then to write: that copies it up.  It is written
    to with a call and with an asynchronous request, and read through the file
    that was opened before. *)
Definition sample_history : list file_op :=
  [Open 1 102 202 0; Open 2 102 202 O_WRONLY; Request 1 (Kiocb 2 0 0 true None); WriteIter 1 7;
   Request 2 (Kiocb 2 7 IOCB_WRITE false None); WriteIter 2 2; Request 3 (Kiocb 1 0 0 true None); ReadIter 3 100; Complete 1 9 2; Close 2].
Definition serve_files (ops : list file_op) (s : fstate fsys) : fstate fsys := foldl (λ s op, serve_file op s) s ops.
Fixpoint permitted_all (ops : list file_op) (s : fstate fsys) : Prop :=
  match ops with [] => True | op :: ops => permitted op s ∧ permitted_all ops (serve_file op s) end.
Lemma history_all ops s : permitted_all ops s → history ops s (serve_files ops s).
Proof. revert s. induction ops as [|op ops IH]; intros s; [constructor|]. intros [Hp Hr]. constructor; [done|by apply IH]. Qed.
Definition at_end : fstate fsys := serve_files sample_history no_files.
Definition writer : open_file := OpenFile 102 202 1 0 1 (PFile 2).
Lemma sample_history_permitted : permitted_all sample_history no_files.
Proof.
  unfold sample_history. cbn [permitted_all].
  split; [split; vm_compute; reflexivity|].
  split; [split; vm_compute; reflexivity|].
  split; [vm_compute; reflexivity|].
  split; [exists writer; split; [vm_compute; reflexivity|reflexivity|by vm_compute]|].
  split; [vm_compute; reflexivity|].
  split; [exists writer; split; [vm_compute; reflexivity|reflexivity|by vm_compute]|].
  split; [vm_compute; reflexivity|].
  split; [apply (bool_decide_eq_true_1 _); vm_compute; reflexivity|].
  split; [apply (bool_decide_eq_true_1 _); vm_compute; reflexivity|].
  split; [apply (bool_decide_eq_true_1 _); vm_compute; reflexivity|done].
Qed.

Lemma no_files_ledger : ledger None [] no_files.
Proof.
  split; cbn; [| |by intros k [x Hx]|by intros f x Hx].
  - intros r. unfold uses. cbn. by rewrite !total_empty.
  - intros r [x Hx]. done.
Qed.
(** Files with synchronous requests: two are left open. *)
Definition sync_history : list file_op :=
  [Open 1 102 202 0; Open 2 102 202 O_WRONLY; Request 1 (Kiocb 2 0 0 true None); WriteIter 1 7;
   Request 3 (Kiocb 1 0 0 true None); ReadIter 3 100; Dup 1; Mapping 1 1; Mmap 1 1; Close 1].
Definition still_open : fstate fsys := serve_files sync_history no_files.
Lemma sync_history_permitted : permitted_all sync_history no_files.
Proof.
  unfold sync_history. cbn [permitted_all].
  split; [split; vm_compute; reflexivity|].
  split; [split; vm_compute; reflexivity|].
  split; [vm_compute; reflexivity|].
  split; [exists writer; split; [vm_compute; reflexivity|reflexivity|by vm_compute]|].
  split; [vm_compute; reflexivity|].
  split; [apply (bool_decide_eq_true_1 _); vm_compute; reflexivity|].
  split; [apply (bool_decide_eq_true_1 _); vm_compute; reflexivity|].
  split; [split; [vm_compute; reflexivity|apply (bool_decide_eq_true_1 _); vm_compute; reflexivity]|].
  split; [split; apply (bool_decide_eq_true_1 _); vm_compute; reflexivity|].
  split; [apply (bool_decide_eq_true_1 _); vm_compute; reflexivity|done].
Qed.
Lemma used_twice (s : fstate fsys) :
  uses 1 s = 2%nat → (∀ r, (0 < uses r s)%nat → ∃ x, fs_reals s !! r = Some x ∧ Z.of_nat (uses r s) <= rf_count x) →
  ∃ x, fs_reals s !! 1%nat = Some x ∧ 2 <= rf_count x.
Proof. intros Hu H. destruct (H 1%nat) as (x & Hx & Hc); [lia|]. rewrite Hu in Hc. by exists x. Qed.
Lemma still_open_uses : uses 1 still_open = 2%nat.
Proof. vm_compute. reflexivity. Qed.
Lemma no_requests : all_sync no_files.
Proof. by intros i k. Qed.
Lemma sync_history_sync : Forall sync_op sync_history.
Proof. repeat constructor. Qed.
Lemma sync_history_runs : history sync_history no_files still_open.
Proof. apply history_all, sync_history_permitted. Qed.
Lemma real_files_counted_witness :
  uses 1 still_open = 2%nat ∧ (∃ x, fs_reals still_open !! 1%nat = Some x ∧ 2 <= rf_count x) ∧ ledger None [] still_open.
Proof.
  destruct (real_files_counted sync_history no_files still_open no_files_ledger sync_history_runs) as [H1 H2].
  exact (conj still_open_uses (conj (used_twice _ still_open_uses H1) (H2 no_requests sync_history_sync))).
Defined.

(** The file that was opened to read, after the copy up. *)
Definition copied_up : fstate fsys := serve_files (take 4 sync_history) no_files.
Definition in_hand_state : fstate fsys := snd (ovl_real_fdget 1 copied_up).
Definition data_of_202 : Z := match fst (ovl_inode_realdata 202 copied_up) with inr (Some i) => i | _ => 0 end.
Lemma in_hand_run : ovl_real_fdget 1 copied_up = (inr (Fd 3 true), in_hand_state).
Proof. vm_compute. reflexivity. Qed.
Lemma in_hand_data : fst (ovl_inode_realdata (of_inode (ofile_at 1 copied_up)) copied_up) = inr (Some data_of_202).
Proof. vm_compute. reflexivity. Qed.
Lemma in_hand_upper : is_up data_of_202 = true.
Proof. vm_compute. reflexivity. Qed.
Lemma file_1_private : of_private (ofile_at 1 copied_up) = PFile 1.
Proof. vm_compute. reflexivity. Qed.
Lemma file_1_real : is_Some (fs_reals copied_up !! 1%nat).
Proof. apply (bool_decide_eq_true_1 _). vm_compute. reflexivity. Qed.
Lemma file_1_plain : od_is_dir (odentry_at (of_dentry (ofile_at 1 copied_up)) (fs_ovl copied_up)) = false.
Proof. vm_compute. reflexivity. Qed.
Lemma data_as_found {E : Type} (r : E + option Z) (i : option Z) (x y : Z) : r = inr i → r = inr (Some x) → y = default 0 i → y = x.
Proof. intros -> [= ->]. done. Qed.
Lemma real_file_is_current_witness :
  ovl_real_fdget 1 copied_up = (inr (Fd 3 true), in_hand_state) ∧
  rf_inode (real_at 3 in_hand_state) = data_of_202 ∧ is_up data_of_202 = true.
Proof.
  destruct (real_file_is_current 1 1 (Fd 3 true) copied_up in_hand_state in_hand_run file_1_private file_1_real file_1_plain) as (i & Hi & Hr & _).
  exact (conj in_hand_run (conj (data_as_found _ i _ _ Hi in_hand_data Hr) in_hand_upper)).
Defined.

(** An asynchronous read through it: the real file that was opened for the
    request stays open, when the request is over and all files are closed. *)
Definition async_history : list file_op :=
  [Open 1 102 202 0; Open 2 102 202 O_WRONLY; Request 1 (Kiocb 1 0 0 false None); ReadIter 1 5; Complete 1 5 5; Close 1; Close 2].
Lemma aio_forgets_reference :
  let s := serve_files async_history no_files in
  (fs_files s, fs_aios s, fs_vmas s) = (∅, ∅, ∅) ∧ rf_count <$> fs_reals s !! 3%nat = Some 1 ∧
  ki_result (iocb_at 1 s) = Some 5.
Proof. vm_compute. by split. Qed.
