(* ===== verification/OvlExportSim.v ===== *)
(** * Exporting the file system for concrete runs *)
From S2P Require Import Prelude CString OS OvlOptions OvlVfs OvlHandle OvlLogic OvlLookup OvlSim OvlLayers OvlStack OvlMerge OvlIno OvlReaddir OvlDirFile OvlWrite OvlTemp OvlInode OvlCopyUp OvlWriteSim OvlSpare OvlCopyLoop OvlExport OvlExported OvlConnect.
Open Scope Z_scope.

(** The overlay's dentries are searched. *)
Definition aliases (s : wstate fsys) (inode : Z) : list (Z * ovl_dentry) :=
  List.filter (λ kv, bool_decide (od_inode (snd kv) = Some inode)) (map_to_list (vs_dentries (ws_ovl s))).
Definition children (s : wstate fsys) (dir : Z) (name : cstr) : list (Z * ovl_dentry) :=
  List.filter (λ kv, (od_parent (snd kv) =? dir) && str_eqb (od_name (snd kv)) name) (map_to_list (vs_dentries (ws_ovl s))).
Fixpoint depth_below (n : nat) (t : fsys) (d : Z) : nat :=
  match n with
  | O => 0%nat
  | S n => let p := de_parent (info_of t d) in if p =? d then 0%nat else S (depth_below n t p)
  end.
#[export] Instance fsys_export : VfsExport fsys := {
  d_find_any_alias s inode := fst <$> head (aliases s inode);
  lookup_one_len s dir name := (match children s dir name with kv :: _ => inr (fst kv) | [] => inl (- ENOENT) end, s);
  d_alloc_anon s := 1000;
  depth_of := depth_below 10
}.
#[export] Instance fsys_aliases : AliasLaws fsys_export.
Proof.
  assert (H : ∀ s i d x, (d, x) ∈ aliases s i ↔ vs_dentries (ws_ovl s) !! d = Some x ∧ od_inode x = Some i).
  { intros s i d x. unfold aliases. rewrite list_elem_of_In, filter_In, <- list_elem_of_In, elem_of_map_to_list. cbn.
    by rewrite bool_decide_eq_true. }
  split; cbn.
  - intros s i d. specialize (H s i). destruct (aliases s i) as [|[k x] l] eqn:E; [done|]. intros [= <-].
    destruct (proj1 (H k x) ltac:(by left)) as [Hk Hi]. unfold odentry_at. by rewrite Hk.
  - intros s i d Hd E. unfold odentry_at in Hd. destruct (vs_dentries (ws_ovl s) !! d) as [x|] eqn:Ex; [|done].
    destruct (proj2 (H s i d x) (conj Ex Hd)); by destruct (aliases s i).
Qed.
#[export] Instance fsys_handles : ExportLaws fsys_vfs.
Proof.
  split.
  - by intros w d.
  - intros w d. cbn. destruct (_ && _); cbn; [intros _; by split|unfold FILEID_INVALID; lia].
  - intros w mnt d connected. cbn. destruct (_ && _) eqn:E; cbn; [|unfold FILEID_INVALID; lia].
    intros _ _ _. f_equal. apply le32_roundtrip. to_prop. lia.
  - intros w d. cbn. by destruct (_ && _).
  - apply sim_hex_roundtrip.
  - apply sim_hex_length.
Qed.
#[export] Instance fsys_writes : WriteLaws fsys_vfs.
Proof.
  split.
  - by intros w.
  - by intros w d.
  - intros w d n v w' [= <-]. cbn. by rewrite decide_True.
  - by intros w d n v w' e r [= <- <-].
  - by intros w d n v w' e r [= <- <-].
Qed.
#[export] Instance fsys_dcache : DcacheLaws.
Proof.
  split.
  - intros w w' d H. change (depth_below 10 w' d = depth_below 10 w d). generalize 10%nat. intros n. revert d.
    induction n as [|n IH]; intros d; [done|]. cbn. pose proof (same_dentry _ _ _ H d) as Hd. cbn in Hd. by rewrite Hd, IH.
  - intros s d n. reflexivity.
  - intros s d n. cbn. by destruct (children s d n).
Qed.

(** The handle of "motd", which is a lower file; it is copied up before the
    handle is used. *)
Definition named_motd : res (Z * Z * option (list ascii)) * wstate fsys := ovl_encode_fh 202 32 None sample_wstate.
Definition motd_handle : list ascii := fh_bytes (handle_of sample_uconfig sample_fsys 6 false).
Definition motd_up : wstate fsys := snd (ovl_copy_up_flags 102 O_WRONLY (snd named_motd)).
Lemma motd_encoded : named_motd = (inr (OVL_FILEID_V1, 7, Some motd_handle), snd named_motd).
Proof. vm_compute. reflexivity. Qed.
Lemma motd_copied : ovl_dentry_upper 102 (ws_ovl (snd named_motd)) = None ∧ negb (is_none (ovl_dentry_upper 102 (ws_ovl motd_up))) = true.
Proof. split; vm_compute; reflexivity. Qed.
Lemma motd_lower : names_upper motd_handle = false.
Proof. vm_compute. reflexivity. Qed.
Lemma motd_named : still_named 102 (names_upper motd_handle) (ws_ovl (snd named_motd)) (ws_ovl motd_up).
Proof. split_and!; [vm_compute; reflexivity|intros d; by split|vm_compute; reflexivity]. Qed.
Lemma motd_in_memory : in_memory 102 202 6 (names_upper motd_handle) motd_up.
Proof.
  rewrite motd_lower. split; [vm_compute; reflexivity..| | | | |].
  - exists (Inode 6 6 S_IFREG 0 1). split_and!; [vm_compute; reflexivity..|].
    apply (bool_decide_eq_false_1 _). vm_compute. reflexivity.
  - vm_compute. reflexivity.
  - split; [|by intros l _ _ _]. exists lower_layer. split; [|split; [done|]].
    + assert (E : ofs_lowers (vs_fs (ws_ovl motd_up)) = [lower_layer]) by (vm_compute; reflexivity). rewrite E. by left.
    + split; [done|vm_compute; reflexivity..|]. intros H. vm_compute in H. discriminate.
  - intros H. discriminate H.
  - vm_compute. reflexivity.
Qed.
Lemma export_roundtrip_witness :
  ovl_dentry_upper 102 (ws_ovl (snd named_motd)) = None ∧ negb (is_none (ovl_dentry_upper 102 (ws_ovl motd_up))) = true ∧
  ∃ d s3, ovl_fh_to_dentry motd_handle 7 OVL_FILEID_V1 motd_up = (inr (Some d), s3) ∧ od_inode (odentry_at d (ws_ovl s3)) = Some 202.
Proof.
  assert (Ha : d_find_any_alias sample_wstate 202 = Some 102) by (vm_compute; reflexivity).
  exact (conj (proj1 motd_copied) (conj (proj2 motd_copied)
    (export_roundtrip 202 102 6 32 sample_wstate 7 motd_handle (snd named_motd) motd_up Ha motd_encoded motd_named motd_in_memory))).
Defined.

(** "/etc" of the lower layer, whose inode is not found by its real one. *)
Definition unhashed_etc : wstate fsys := set_ws_hash (delete 4 (ws_hash sample_wstate)) sample_wstate.
Lemma etc_grounded : grounded (ws_world unhashed_etc) 4.
Proof.
  assert (H : ∀ n, ups (ws_world unhashed_etc) (S n) 4 = 2).
  { induction n as [|n IH]; [vm_compute; reflexivity|].
    change (ups (ws_world unhashed_etc) (S (S n)) 4) with (de_parent (dentry_of (ws_world unhashed_etc) (ups (ws_world unhashed_etc) (S n) 4))).
    rewrite IH. vm_compute. reflexivity. }
  intros [|n]; rewrite H; [|by rewrite H]. intros _. apply Nat.ltb_lt. vm_compute. reflexivity.
Qed.
