(* ===== verification/OvlUnlink.v ===== *)
(** * What has been removed is not found any more (dir.c, namei.c)

    A file of a lower layer is removed by a whiteout in the upper directory;
    the lookup of the name meets the whiteout and looks no further. *)
From S2P Require Import Prelude CString OS OvlOptions OvlVfs OvlHandle OvlLookup OvlLayers OvlIno OvlReaddir OvlDirFile OvlWrite OvlTemp OvlInode OvlCopyUp OvlCreate OvlRemove OvlMerge OvlSim OvlWriteSim OvlSpare OvlLower OvlCopyLoop.
Open Scope Z_scope.

(** A dentry that the module takes for a whiteout. *)
Definition plain_whiteout (d : dentry_info) : Prop :=
  de_kind d = KSpecial ∧ ovl_dentry_weird d = false ∧ ovl_is_whiteout d = true.

(** What the kernel does with names. *)
Class NameLaws {W} (K : Vfs W) (VW : VfsWrite W) : Prop := {
  lock_lookup w b n : lookup_one (snd (inode_lock_interruptible w)) b n = lookup_one w b n;
  lock_dentry w d : dentry_of (snd (inode_lock_interruptible w)) d = dentry_of w d;
  want_lookup w m b n : lookup_one (snd (mnt_want_write w m)) b n = lookup_one w b n;
  want_dentry w m d : dentry_of (snd (mnt_want_write w m)) d = dentry_of w d;
  (** a dentry has the name and the place where it is found *)
  lookup_place w b n d : lookup_one w b n = inr d → de_name (dentry_of w d) = n ∧ de_parent (dentry_of w d) = b;
  (** what is moved is found at the new place, and is what it was *)
  rename_found w od o nd n flags : o ≠ n → fst (vfs_write w (CRename od o nd n flags)) = 0 →
    let w' := snd (vfs_write w (CRename od o nd n flags)) in
    lookup_one w' nd (de_name (dentry_of w n)) = inr o ∧
    (de_kind (dentry_of w' o), de_flags (dentry_of w' o), de_inode (dentry_of w' o)) =
    (de_kind (dentry_of w o), de_flags (dentry_of w o), de_inode (dentry_of w o));
  (** whiteouts are made, and linked, where the new dentry is *)
  whiteout_made w x : let d := de_parent (dentry_of w x) in
    fst (vfs_write w (CWhiteout d x)) = 0 → plain_whiteout (dentry_of (snd (vfs_write w (CWhiteout d x))) x);
  whiteout_place w x y : let w' := snd (vfs_write w (CWhiteout (de_parent (dentry_of w x)) x)) in
    de_name (dentry_of w' y) = de_name (dentry_of w y) ∧ de_parent (dentry_of w' y) = de_parent (dentry_of w y);
  link_made w old new : plain_whiteout (dentry_of w old) →
    let r := vfs_write w (CLink old (de_parent (dentry_of w new)) new) in
    if fst r =? 0 then plain_whiteout (dentry_of (snd r) new) else plain_whiteout (dentry_of (snd r) old);
  link_place w old new y : let w' := snd (vfs_write w (CLink old (de_parent (dentry_of w new)) new)) in
    de_name (dentry_of w' y) = de_name (dentry_of w y) ∧ de_parent (dentry_of w' y) = de_parent (dentry_of w y);
  (** removing something leaves other directories and other files alone *)
  rmdir_elsewhere w d x b n : b ≠ d → lookup_one (snd (vfs_write w (CRmdir d x))) b n = lookup_one w b n;
  unlink_elsewhere w d x b n : b ≠ d → lookup_one (snd (vfs_write w (CUnlink d x))) b n = lookup_one w b n;
  rmdir_other w d x y : y ≠ x → plain_whiteout (dentry_of w y) → plain_whiteout (dentry_of (snd (vfs_write w (CRmdir d x))) y);
  unlink_other w d x y : y ≠ x → plain_whiteout (dentry_of w y) → plain_whiteout (dentry_of (snd (vfs_write w (CUnlink d x))) y)
}.

Section unlink.
Context {W : Type} {K : Vfs W} {VS : VfsStat W} {VW : VfsWrite W} {R : RbLib} {NL : NameLaws K VW} {EL : ErrorLaws (W := W)}.
Implicit Types s : wstate W.

(** The whiteout that is kept in the work directory for the next time is one. *)
Definition kept_ok s : Prop :=
  ∀ d, ws_whiteout s = Some d →
    plain_whiteout (dentry_of (ws_world s) d) ∧ de_parent (dentry_of (ws_world s) d) = default 0 (ws_workdir s).

Lemma uwrite_run c s e s' : uwrite c s = (inr e, s') →
  e = fst (vfs_write (ws_world s) c) ∧ ws_world s' = snd (vfs_write (ws_world s) c) ∧
  ∃ w, s' = set_ws_ovl (set_vs_world w (ws_ovl s)) s.
Proof.
  unfold uwrite, ucall, ulift, vcall, ws_world. destruct (vfs_write _ _) as [r w]. intros [= <- <-]. cbn. eauto.
Qed.

(** The parts of the state that the preparation of a whiteout leaves alone. *)
Record same_objects s s' : Prop := SameObjects {
  so_objects : ∃ w, ws_ovl s' = set_vs_world w (ws_ovl s);
  so_workdir : ws_workdir s' = ws_workdir s
}.
#[local] Instance same_objects_preorder : PreOrder same_objects.
Proof.
  split.
  - intros s. split; [|done]. exists (ws_world s). unfold ws_world. by destruct (ws_ovl s).
  - intros s1 s2 s3 [[w H1] H2] [[w' H3] H4]. split; [|congruence]. exists w'. by rewrite H3, H1.
Qed.

Lemma lookup_temp_run d s x s' : ovl_lookup_temp d s = (inr x, s') →
  same_objects s s' ∧ ws_world s' = ws_world s ∧ ws_whiteout s' = ws_whiteout s ∧ de_parent (dentry_of (ws_world s) x) = d.
Proof.
  intros (id & s1 & [= <- <-] & H)%ubind_inr. apply ubind_inr in H as (u & s1 & [= <- <-] & H).
  apply ubind_inr in H as (t & s1 & Hl & H). injection Hl as Hl <-.
  apply ubind_inr in H as (i & s1 & [= <- <-] & H). destruct (de_inode _) eqn:E; [done|]. injection H as <- <-.
  apply lookup_place in Hl as [_ Hp]. split_and!; [|done..]. split; [|done].
  exists (ws_world s). unfold ws_world. cbn. by destruct (ws_ovl s).
Qed.

(** [ovl_whiteout] gives a whiteout of the work directory, and no name or
    place of a dentry changes. *)
Definition keeps_places (w w' : W) : Prop :=
  ∀ y, de_name (dentry_of w' y) = de_name (dentry_of w y) ∧ de_parent (dentry_of w' y) = de_parent (dentry_of w y).
Lemma keeps_places_trans w1 w2 w3 : keeps_places w1 w2 → keeps_places w2 w3 → keeps_places w1 w3.
Proof. intros H H' y. destruct (H y), (H' y). split; congruence. Qed.
Lemma make_whiteout_run s u s' :
  (match ws_whiteout s with
   | Some _ => uret tt
   | None =>
     let! whiteout := ovl_lookup_temp (default 0 (ws_workdir s)) in
     ok! ovl_do_whiteout (default 0 (ws_workdir s)) whiteout else! ufail ;;!
     uupdate (set_ws_whiteout (Some whiteout))
   end) s = (inr u, s') → kept_ok s →
  kept_ok s' ∧ is_Some (ws_whiteout s') ∧ same_objects s s' ∧ keeps_places (ws_world s) (ws_world s').
Proof.
  intros H Hk. destruct (ws_whiteout s) as [d|] eqn:E.
  { injection H as _ <-. split_and!; [done|by rewrite E|reflexivity|done]. }
  apply ubind_inr in H as (x & s1 & Ht & H). apply lookup_temp_run in Ht as (Ho & Hw & _ & Hp).
  apply ucheck_inr in H as (err & s2 & Hwr & [[-> H]|[_ H]]); [|done]. injection H as _ <-.
  apply uwrite_run in Hwr as (He & Hw2 & w & ->). rewrite Hw in He, Hw2.
  pose proof (whiteout_made (ws_world s) x) as Hmade. pose proof (whiteout_place (ws_world s) x) as Hplace.
  cbv zeta in Hmade, Hplace. rewrite Hp in Hmade, Hplace. cbn in Hw2. subst w.
  split_and!; [|done| |exact Hplace].
  - intros d [= <-]. cbn. split; [by apply Hmade|]. rewrite (proj2 (Hplace x)), Hp. by destruct Ho as [_ ->].
  - etransitivity; [exact Ho|]. split; [|done]. by eexists.
Qed.
Lemma ovl_whiteout_run s wh s' : ovl_whiteout s = (inr wh, s') → kept_ok s →
  plain_whiteout (dentry_of (ws_world s') wh) ∧ de_parent (dentry_of (ws_world s') wh) = default 0 (ws_workdir s) ∧
  same_objects s s' ∧ keeps_places (ws_world s) (ws_world s').
Proof.
  intros (wd & s1 & [= <- <-] & H)%ubind_inr Hk. apply ubind_inr in H as (kept & s1 & [= <- <-] & H).
  apply ubind_inr in H as (u & s1 & Hm & H). apply make_whiteout_run in Hm as (Hk1 & [d Hd] & Ho1 & Hp1); [|done].
  apply ubind_inr in H as (kept & s2 & [= <- <-] & H). apply ubind_inr in H as (share & s2 & [= <- <-] & H).
  rewrite Hd in H. change (default 0 (Some d)) with d in H. destruct (Hk1 d Hd) as [Hwh Hpar]. rewrite (so_workdir _ _ Ho1) in Hpar.
  assert (Htake : ∀ s2 wh s', (uupdate (set_ws_whiteout None) ;;! uret d) s2 = (inr wh, s') →
    wh = d ∧ ws_world s' = ws_world s2 ∧ same_objects s2 s').
  { intros s2 wh' s2' [= <- <-]. split_and!; [done|done|]. split; [|done]. exists (ws_world s2). unfold ws_world. cbn. by destruct (ws_ovl s2). }
  destruct (ws_share_whiteout s1).
  - apply ubind_inr in H as (x & s2 & Ht & H). apply lookup_temp_run in Ht as (Ho2 & Hw2 & _ & Hpx).
    apply ubind_inr in H as (err & s3 & Hl & H). apply uwrite_run in Hl as (He & Hw3 & w & ->). rewrite Hw2 in He, Hw3.
    pose proof (link_made (ws_world s1) d x Hwh) as Hmade. pose proof (link_place (ws_world s1) d x) as Hplace.
    cbv zeta in Hmade, Hplace. rewrite Hpx in Hmade, Hplace. rewrite <- He in Hmade. cbn in Hw3. subst w.
    assert (Ho3 : same_objects s (set_ws_ovl (set_vs_world (snd (vfs_write (ws_world s1) (CLink d (default 0 (ws_workdir s)) x))) (ws_ovl s2)) s2)).
    { etransitivity; [exact Ho1|]. etransitivity; [exact Ho2|]. split; [by eexists|done]. }
    destruct (err =? 0).
    + injection H as <- <-. split_and!; [exact Hmade| |exact Ho3|by eapply keeps_places_trans].
      cbn. by rewrite (proj2 (Hplace x)).
    + apply ubind_inr in H as (v & s3 & Hshare & H). apply Htake in H as (-> & Hw & Ho4).
      assert (Hs3 : ws_world s3 = snd (vfs_write (ws_world s1) (CLink d (default 0 (ws_workdir s)) x)) ∧
        same_objects (set_ws_ovl (set_vs_world (snd (vfs_write (ws_world s1) (CLink d (default 0 (ws_workdir s)) x))) (ws_ovl s2)) s2) s3).
      { destruct (negb _); injection Hshare as _ <-; (split; [done|]); [split; [|done]; by eexists|reflexivity]. }
      destruct Hs3 as [Hw4 Ho5]. rewrite Hw, Hw4. split_and!; [exact Hmade| | |by eapply keeps_places_trans].
      * by rewrite (proj2 (Hplace d)).
      * etransitivity; [exact Ho3|]. etransitivity; [exact Ho5|exact Ho4].
  - apply Htake in H as (-> & Hw & Ho2). rewrite Hw. split_and!; [done|done|by etransitivity|done].
Qed.

Lemma whiteout_fails : fails ovl_whiteout.
Proof.
  unfold ovl_whiteout. do 2 (apply fails_bind; [by intros ?|]; intros ?). apply fails_bind.
  { destruct a0; [by intros ?|]. apply fails_bind; [apply fails_lookup_temp|]. intros x.
    apply fails_check; [apply fails_uwrite|intros; by apply fails_fail|by intros ?]. }
  intros _. apply fails_bind; [by intros ?|]. intros kept. apply fails_bind; [by intros ?|]. intros share. destruct share.
  - apply fails_bind; [apply fails_lookup_temp|]. intros x. apply fails_bind; [apply fails_uwrite|]. intros err.
    destruct (err =? 0); [by intros ?|]. apply fails_bind; [by destruct (negb _); intros ?|]. intros _.
    apply fails_bind; by intros ?.
  - apply fails_bind; by intros ?.
Qed.

(** A whiteout stands in a directory under a name. *)
Definition hidden (w : W) (dir : Z) (name : cstr) : Prop :=
  ∃ wh, lookup_one w dir name = inr wh ∧ plain_whiteout (dentry_of w wh).
Lemma plain_whiteout_eq i j : (de_kind j, de_flags j, de_inode j) = (de_kind i, de_flags i, de_inode i) → plain_whiteout i → plain_whiteout j.
Proof.
  intros [= Hk Hf Hi] (H1 & H2 & H3). unfold plain_whiteout, ovl_dentry_weird, ovl_is_whiteout, d_can_lookup, d_is_file, d_is_reg, d_is_symlink in *.
  by rewrite Hk, Hf, Hi.
Qed.
Lemma cleanup_elsewhere wdir x s err s' dir name wh :
  ovl_cleanup wdir x s = (inr err, s') → dir ≠ wdir → wh ≠ x →
  lookup_one (ws_world s) dir name = inr wh → plain_whiteout (dentry_of (ws_world s) wh) →
  lookup_one (ws_world s') dir name = inr wh ∧ plain_whiteout (dentry_of (ws_world s') wh) ∧ same_objects s s'.
Proof.
  intros (i & s1 & [= <- <-] & H)%ubind_inr Hd Hx Hl Hw.
  destruct (d_is_dir _); apply uwrite_run in H as (_ & Hw' & w & ->); cbn in Hw'; subst w; cbn;
    [rewrite rmdir_elsewhere by done|rewrite unlink_elsewhere by done]; (split_and!; [done| |split; [by eexists|done]]);
    [by apply rmdir_other|by apply unlink_other].
Qed.
Lemma cleanup_and_whiteout_run dir dentry s s' :
  ovl_cleanup_and_whiteout dir dentry s = (inr 0, s') → kept_ok s →
  dir ≠ default 0 (ws_workdir s) → de_parent (dentry_of (ws_world s) dentry) = dir →
  hidden (ws_world s') dir (de_name (dentry_of (ws_world s) dentry)) ∧ same_objects s s'.
Proof.
  intros (wd & s1 & [= <- <-] & H)%ubind_inr Hk Hdir Hpar.
  apply utry_inr in H as [(e & s1 & Hwh & H)|(wh & s1 & Hwh & H)].
  { injection H as -> ->. by apply whiteout_fails in Hwh. }
  apply ovl_whiteout_run in Hwh as (Hpw & Hpp & Ho & Hplaces); [|done].
  apply ubind_inr in H as (i & s2 & [= <- <-] & H).
  set (flags := if d_is_dir (dentry_of (ws_world s1) dentry) then RENAME_EXCHANGE else 0) in *.
  apply ucheck_inr in H as (err & s2 & Hr & [[-> H]|[He H]]).
  2:{ apply ubind_inr in H as (u & s3 & _ & H). by injection H as ->. }
  assert (Hne : wh ≠ dentry).
  { intros ->. rewrite (proj2 (Hplaces dentry)), Hpar in Hpp. done. }
  apply uwrite_run in Hr as (He & Hw2 & w & ->). symmetry in He.
  destruct (rename_found _ _ _ _ _ _ Hne He) as [Hfound Hsame]. rewrite <- Hw2 in Hfound, Hsame.
  rewrite (proj1 (Hplaces dentry)) in Hfound. apply plain_whiteout_eq in Hsame; [|done].
  set (s2 := set_ws_ovl (set_vs_world w (ws_ovl s1)) s1) in *.
  assert (Ho2 : same_objects s s2) by (etransitivity; [exact Ho|]; split; [by eexists|done]).
  apply ubind_inr in H as (u & s3 & Hc & H). injection H as <-.
  destruct (negb (flags =? 0)).
  - apply ubind_inr in Hc as (u1 & s4 & Hc & H). injection H as _ <-.
    eapply cleanup_elsewhere in Hc as (H1 & H2 & H3); [|exact Hdir|exact Hne|exact Hfound|exact Hsame].
    split; [by exists wh|by etransitivity].
  - injection Hc as _ <-. split; [by exists wh|done].
Qed.

(** ** Removing *)

(** The overlay's objects as far as names matter, with what is below. *)
Record still s s' : Prop := Still {
  st_world : ws_world s' = ws_world s;
  st_upper d : ovl_dentry_upper d (ws_ovl s') = ovl_dentry_upper d (ws_ovl s);
  st_index d : test_inode OVL_INDEX d (ws_ovl s') = test_inode OVL_INDEX d (ws_ovl s);
  st_stack d : lowerstack d (ws_ovl s') = lowerstack d (ws_ovl s);
  st_fs : vs_fs (ws_ovl s') = vs_fs (ws_ovl s);
  st_root : vs_root (ws_ovl s') = vs_root (ws_ovl s)
}.
#[local] Instance still_preorder : PreOrder still.
Proof. split; [by split|]. intros s1 s2 s3 [] []. split; intros; congruence. Qed.
Lemma dir_modified_still d b s u s' : ovl_dir_modified d b s = (inr u, s') → still s s'.
Proof.
  intros (inode & s1 & [= <- <-] & H)%ubind_inr. apply ubind_inr in H as (u1 & s1 & Hc & H).
  assert (H1 : still s s1).
  { apply ubind_inr in Hc as (real & s2 & [= <- <-] & Hc). apply ubind_inr in Hc as (at0 & s2 & [= <- <-] & Hc).
    by injection Hc as _ <-. }
  etransitivity; [exact H1|]. unfold ulift, ovl_dir_version_inc, vbind in H. cbn [vget] in H.
  destruct (_ || b); [|injection H as _ <-; by split; intros].
  unfold update_inode, vupdate in H. injection H as _ <-. cbn.
  set (o := ws_ovl s1). destruct (od_inode (odentry_at d o)) as [i|]; [|by split; intros].
  assert (HI : ∀ e, d_inode e (set_vs_inodes (<[i := set_oi_version (u64 (oi_version (oinode_at i o) + 1)) (oinode_at i o)]> (vs_inodes o)) o) =
    match od_inode (odentry_at e o) with
    | Some j => Some (if decide (i = j) then set_oi_version (u64 (oi_version (oinode_at i o) + 1)) (oinode_at i o) else oinode_at j o)
    | None => None end).
  { intros e. unfold d_inode. change (odentry_at e (set_vs_inodes ?m o)) with (odentry_at e o).
    destruct (od_inode (odentry_at e o)) as [j|]; [|reflexivity]. cbn [fmap option_fmap option_map]. by rewrite oinode_insert. }
  split; try done; intros e; cbn [ws_ovl set_ws_ovl]; unfold ovl_dentry_upper, test_inode; rewrite HI; unfold d_inode; fold o;
    (destruct (od_inode (odentry_at e o)) as [j|]; [|reflexivity]);
    cbn [fmap option_fmap option_map]; by destruct (decide (i = j)) as [->|].
Qed.

Lemma remove_and_whiteout_run dentry s s' :
  ovl_remove_and_whiteout dentry [] s = (inr 0, s') → kept_ok s →
  let parent := od_parent (odentry_at dentry (ws_ovl s)) in
  ∃ w, hidden w (default 0 (ovl_dentry_upper parent (ws_ovl s))) (od_name (odentry_at dentry (ws_ovl s))) ∧
    still (set_ws_ovl (set_vs_world w (ws_ovl s)) s) s'.
Proof.
  intros (wd & s1 & [= <- <-] & H)%ubind_inr Hk. apply ubind_inr in H as (parent & s1 & [= <- <-] & H).
  apply ubind_inr in H as (dir & s1 & [= <- <-] & H). apply ubind_inr in H as (bad & s1 & Hbad & H).
  destruct bad; [done|]. assert (Hs1 : s1 = s).
  { unfold uwarn, ulift, warn_on in Hbad. destruct (is_none (ws_workdir s)); [done|]. injection Hbad as <-. by destruct s. }
  subst s1. clear Hbad. apply utry_inr in H as [(e & s1 & [=] & _)|(opaquedir & s1 & [= <- <-] & H)].
  apply ucheck_inr in H as (err & s1 & Hlock & [[-> H]|[He H]]); [|by injection H as ->].
  set (parent := od_parent (odentry_at dentry (ws_ovl s))) in *. set (upperdir := default 0 (ovl_dentry_upper parent (ws_ovl s))) in *.
  assert (Hs1 : upperdir ≠ default 0 (ws_workdir s) ∧ s1 = s).
  { unfold ovl_lock_rename_workdir in Hlock. destruct (Z.eqb_spec (default 0 (ws_workdir s)) upperdir); [done|].
    apply ubind_inr in Hlock as (trap & s2 & [= <- <-] & Hlock). injection Hlock as _ <-. by split. }
  destruct Hs1 as [Hne ->]. apply ubind_inr in H as (name & s1 & [= <- <-] & H).
  apply utry_inr in H as [(e & s1 & Hl & H)|(upper & s1 & Hl & H)]; injection Hl as Hl <-.
  { injection H as -> _. by apply lookup_error in Hl. }
  apply lookup_place in Hl as [Hn Hp]. apply ubind_inr in H as (hasupper & s1 & [= <- <-] & H).
  apply ubind_inr in H as (stale & s1 & [= <- <-] & H). match type of H with (if ?c then _ else _) _ = _ => destruct c end; [done|].
  apply ucheck_inr in H as (err & s1 & Hc & [[-> H]|[He H]]).
  2:{ apply ubind_inr in H as (u & s2 & _ & H). by injection H as ->. }
  apply cleanup_and_whiteout_run in Hc as [Hh Ho]; [|done..]. rewrite Hn in Hh.
  apply ubind_inr in H as (u & s2 & Hm & H). apply ubind_inr in H as (u' & s3 & Hd & H). injection H as <-.
  injection Hd as _ <-. apply dir_modified_still in Hm. destruct Ho as [[w Ho] _].
  exists w. split; [unfold ws_world in Hh; by rewrite Ho in Hh|].
  assert (H1 : still (set_ws_ovl (set_vs_world w (ws_ovl s)) s) s1) by (split; intros; unfold ws_world; cbn; by rewrite Ho).
  etransitivity; [exact H1|]. etransitivity; [exact Hm|]. by split.
Qed.

(** ** Looking up *)

(** A name with a whiteout in the upper directory is a negative dentry: the
    lower layers are not even looked at. *)
Definition nothing_found (r : upper_result * lookup_locals) : Prop :=
  ur_dentry (fst r) = None ∧ lo_stack (snd r) = [] ∧ ld_opaque (ur_d (fst r)) = true.
Lemma lookup_hidden parent upperdir name (o : vstate W) :
  ovl_dentry_upper parent o = Some upperdir → is_absolute name = false → hidden (vs_world o) upperdir name →
  ∃ r, lookup_real parent name o = (inr r, o) ∧ nothing_found r.
Proof.
  intros Hu Ha (wh & Hl & Hk & Hweird & Hwh). unfold lookup_real, vbind at 1 2 3 4 5. cbn [get_config vget].
  rewrite Hu. unfold lookup_upper, ovl_lookup_layer. cbn [ld_name]. rewrite Ha. cbn [negb].
  set (d := LookupData name false false false _ None false).
  assert (Hsingle : ovl_lookup_single upperdir d name 0 [] o = (inr (None, set_ld_stop true (set_ld_opaque true d)), o)).
  { unfold ovl_lookup_single, vbind, lookup_positive, vread, vget. rewrite Hl.
    assert (E : d_is_negative (dentry_of (vs_world o) wh) = false) by (unfold d_is_negative; by rewrite Hk).
    rewrite E. cbn. by rewrite Hweird, Hwh. }
  unfold vbind at 1 2 3. rewrite Hsingle. cbn [vret ld_redirect set_ld_stop set_ld_opaque d is_none ur_d ld_stop negb andb].
  unfold vbind. cbn. eexists. split; [reflexivity|]. by split_and!.
Qed.

(** ** The whole removal *)

(** The kernel was asked for leave, and nothing has changed. *)
Record touched s s' : Prop := Touched {
  to_state : ∃ w, s' = set_ws_ovl (set_vs_world w (ws_ovl s)) s;
  to_dentry d : dentry_of (ws_world s') d = dentry_of (ws_world s) d
}.
#[local] Instance touched_preorder : PreOrder touched.
Proof.
  split.
  - intros s. split; [|done]. exists (ws_world s). unfold ws_world. destruct s as [o]. by destruct o.
  - intros s1 s2 s3 [[w ->] H1] [[w' ->] H2]. split; [by exists w'|]. intros d. by rewrite H2, H1.
Qed.
Lemma touched_kept s s' : touched s s' → kept_ok s → kept_ok s'.
Proof. intros [[w ->] Hd] Hk d H. rewrite Hd. by apply Hk. Qed.
Lemma want_write_touched s e s' : ulift ovl_want_write s = (inr e, s') → touched s s'.
Proof.
  unfold ulift, ovl_want_write, ovl_upper_mnt, vbind, vget, vcall. cbn.
  pose proof (want_dentry (vs_world (ws_ovl s)) (default 0 (ofs_upper_mnt (vs_fs (ws_ovl s))))) as H.
  destruct (mnt_want_write _ _) as [r w]. intros [= <- <-]. split; [by exists w|exact H].
Qed.
Lemma lock_touched s e s' : ucall inode_lock_interruptible s = (inr e, s') → touched s s'.
Proof.
  unfold ucall, ulift, vcall. pose proof (lock_dentry (vs_world (ws_ovl s))) as H.
  destruct (inode_lock_interruptible _) as [r w]. intros [= <- <-]. split; [by exists w|exact H].
Qed.
Lemma uwarn_false b s s' : uwarn b s = (inr false, s') → s' = s.
Proof. unfold uwarn, ulift, warn_on. destruct b; [done|]. intros [= <-]. by destruct s. Qed.
(** Nothing is left to be copied up. *)
Lemma copy_up_nothing d s e s' : ovl_copy_up d s = (inr e, s') → ovl_already_copied_up d 0 (ws_ovl s) = true → e = 0 → s' = s.
Proof.
  intros (od & s1 & [= <- <-] & H)%ubind_inr Ha ->. apply ubind_inr in H as (bad & s1 & Hw & H). destruct bad; [done|].
  apply uwarn_false in Hw as ->. apply ubind_inr in H as (n & s1 & [= <- <-] & H).
  apply ubind_inr in H as (r & s1 & Hl & H). injection H as _ <-. cbn [copy_up_loop] in Hl.
  apply ubind_inr in Hl as (a & s2 & [= <- <-] & Hl). rewrite Ha in Hl. by injection Hl as _ <-.
Qed.
Lemma nlink_start_touched d s s' :
  ovl_nlink_start d s = (inr 0, s') → ofs_indexdir (vs_fs (ws_ovl s)) = None → test_inode OVL_INDEX d (ws_ovl s) = false → touched s s'.
Proof.
  intros (i & s1 & [= <- <-] & H)%ubind_inr Hx Hf. apply ubind_inr in H as (bad & s1 & Hw & H). destruct bad; [done|].
  apply uwarn_false in Hw as ->. apply ubind_inr in H as (need & s1 & Hn & H).
  assert (Hs1 : need = false ∧ touched s s1).
  { unfold ulift, ovl_need_index, ovl_indexdir, vbind, vget in Hn. cbn in Hn. rewrite Hx in Hn.
    destruct (ovl_dentry_lower _ _); injection Hn as <- <-; (split; [done|]); by destruct s. }
  destruct Hs1 as [-> Ht]. apply ubind_inr in H as (alias & s2 & [= <- <-] & H). cbn [andb] in H.
  apply ucheck_inr in H as (e & s2 & Hr & [[-> H]|[He H]]); [|by injection H as ->]. injection Hr as <-.
  apply ucheck_inr in H as (e & s2 & Hl & [[-> H]|[He H]]); [|by injection H as ->]. apply lock_touched in Hl.
  apply ubind_inr in H as (plain & s3 & [= <- <-] & H).
  assert (Ht2 : touched s s2) by (by etransitivity). destruct (Ht2) as [[w ->] _].
  assert (Hf' : test_inode OVL_INDEX d (ws_ovl (set_ws_ovl (set_vs_world w (ws_ovl s)) s)) = false) by exact Hf.
  rewrite Hf', orb_true_r in H. by injection H as <-.
Qed.

Lemma update_winode_still i f s u s' : update_winode i f s = (inr u, s') → still s s'.
Proof. by intros [= _ <-]. Qed.
Lemma copyattr_still i s u s' : ovl_copyattr i s = (inr u, s') → still s s'.
Proof.
  intros (real & s1 & [= <- <-] & H)%ubind_inr. apply ubind_inr in H as (a & s1 & [= <- <-] & H). by eapply update_winode_still.
Qed.
Lemma drop_nlink_still d s u s' : ovl_drop_nlink d s = (inr u, s') → still s s'.
Proof.
  intros (i & s1 & [= <- <-] & H)%ubind_inr. apply ubind_inr in H as (a & s1 & [= <- <-] & H).
  apply ubind_inr in H as (w & s1 & [= <- <-] & H). destruct (_ <? _); [by eapply update_winode_still|by injection H as _ <-].
Qed.
Lemma nlink_end_still d s u s' : ovl_nlink_end d s = (inr u, s') → test_inode OVL_INDEX d (ws_ovl s) = false → still s s'.
Proof.
  intros (i & s1 & [= <- <-] & H)%ubind_inr Hf. apply ubind_inr in H as (x & s1 & [= <- <-] & H).
  apply ubind_inr in H as (w & s1 & [= <- <-] & H). rewrite Hf in H. by injection H as _ <-.
Qed.

(** C6: A file that is removed is gone: after a successful [ovl_unlink] of a
    file that a lower layer has, in a directory that is copied up and without
    an index, the lookup of its name finds nothing in any layer, and the new
    dentry is opaque. *)
Theorem unlinked_name_is_gone dentry s s' :
  let parent := od_parent (odentry_at dentry (ws_ovl s)) in
  let name := od_name (odentry_at dentry (ws_ovl s)) in
  ovl_unlink dentry s = (inr 0, s') → ovl_lower_positive dentry (ws_ovl s) = true →
  ovl_already_copied_up parent 0 (ws_ovl s) = true → is_absolute name = false →
  ofs_indexdir (vs_fs (ws_ovl s)) = None → test_inode OVL_INDEX dentry (ws_ovl s) = false → kept_ok s →
  ∃ r, lookup_real parent name (ws_ovl s') = (inr r, ws_ovl s') ∧ nothing_found r.
Proof.
  intros parent name (lp & s1 & [= <- <-] & H)%ubind_inr Hlp Hparent Hname Hx Hf Hk.
  rewrite Hlp in H. apply ubind_inr in H as (pure & s1 & [= <- <-] & H).
  apply utry_inr in H as [(e & s1 & [=] & _)|(l & s1 & [= <- <-] & H)].
  apply ucheck_inr in H as (e & s1 & Hw & [[-> H]|[He H]]); [|by injection H as ->]. apply want_write_touched in Hw as Ht1.
  apply ubind_inr in H as (p & s2 & [= <- <-] & H).
  assert (Hov : ws_ovl s1 = set_vs_world (ws_world s1) (ws_ovl s)) by (by destruct Ht1 as [[w ->] _]).
  assert (HE : ∀ d, odentry_at d (ws_ovl s1) = odentry_at d (ws_ovl s)) by (intros d; by rewrite Hov).
  rewrite HE in H. fold parent in H.
  apply ucheck_inr in H as (e & s2 & Hc & [[-> H]|[He H]]); [|by injection H as ->].
  apply copy_up_nothing in Hc as ->; [|by rewrite Hov|done].
  apply ucheck_inr in H as (e & s2 & Hn & [[-> H]|[He H]]); [|by injection H as ->].
  apply nlink_start_touched in Hn; [|by rewrite Hov..]. assert (Ht2 : touched s s2) by (by etransitivity). clear Hov HE Ht1 Hn Hw s1.
  apply ubind_inr in H as (err & s3 & Hr & H). cbn [negb] in Hr.
  apply ubind_inr in H as (u & s4 & Hdrop & H). apply ubind_inr in H as (u2 & s5 & Hend & H).
  apply ubind_inr in H as (up & s6 & [= <- <-] & H). apply ubind_inr in H as (u3 & s6 & Hcopy & H).
  injection H as -> <-. apply remove_and_whiteout_run in Hr as (w & Hh & Hst); [|by eapply touched_kept].
  destruct (Ht2) as [[w2 ->] _].
  set (o := set_vs_world w (ws_ovl s)). assert (Hst1 : still (set_ws_ovl o s) s3) by exact Hst. clear Hst.
  cbn [Z.eqb clear_or_drop_nlink] in Hdrop. apply drop_nlink_still in Hdrop. assert (Hst2 := transitivity Hst1 Hdrop).
  apply nlink_end_still in Hend; [|rewrite (st_index _ _ Hst2); exact Hf]. assert (Hst3 := transitivity Hst2 Hend).
  assert (Hst4 : still (set_ws_ovl o s) s6).
  { etransitivity; [exact Hst3|]. destruct (ovl_dentry_upper dentry (ws_ovl s5)); [|by injection Hcopy as _ <-].
    apply ubind_inr in Hcopy as (i & s7 & [= <- <-] & Hcopy). by eapply copyattr_still. }
  assert (Hup : ovl_dentry_upper parent (ws_ovl s) = Some (default 0 (ovl_dentry_upper parent (ws_ovl s)))).
  { unfold ovl_already_copied_up in Hparent. by destruct (ovl_dentry_upper parent (ws_ovl s)). }
  apply (lookup_hidden _ (default 0 (ovl_dentry_upper parent (ws_ovl s)))); [|done|].
  - rewrite (st_upper _ _ Hst4). exact Hup.
  - pose proof (st_world _ _ Hst4) as Hw. unfold ws_world in Hw. cbn in Hw. rewrite Hw. exact Hh.
Qed.
End unlink.

(** ** The sample *)

Lemma same_side_parent i d : is_up (de_parent i) = is_up d → de_parent (same_side i d) = de_parent i.
Proof. intros E. cbn. by rewrite E, Bool.eqb_reflx. Qed.
Lemma same_side_id i d : is_up (de_parent i) = is_up d → own_inode d (de_inode i) = de_inode i → same_side i d = i.
Proof. intros E Ho. unfold same_side. rewrite E, Bool.eqb_reflx, Ho. by destruct i. Qed.
Lemma info_of_side t d : is_up (de_parent (info_of t d)) = is_up d.
Proof.
  unfold info_of, same_side. set (i := default _ _). cbn [de_parent].
  destruct (Bool.eqb (is_up (de_parent i)) (is_up d)) eqn:E; [by apply eqb_prop in E|done].
Qed.
(** A dentry that keeps its name and its parent stays where it is. *)
Lemma info_of_put_place d i t y : de_name i = de_name (info_of t d) → de_parent i = de_parent (info_of t d) →
  de_name (info_of (put_dentry d i t) y) = de_name (info_of t y) ∧
  de_parent (info_of (put_dentry d i t) y) = de_parent (info_of t y).
Proof.
  intros Hn Hp. destruct (decide (y = d)) as [->|H]; [|by rewrite info_of_put_ne].
  rewrite info_of_put. split; [done|]. rewrite same_side_parent; [done|]. rewrite Hp. apply info_of_side.
Qed.
Lemma find_name_place t t' b n : f_names t' = f_names t → f_gen t' = f_gen t →
  (∀ y, de_name (info_of t' y) = de_name (info_of t y) ∧ de_parent (info_of t' y) = de_parent (info_of t y)) →
  find_name t' b n = find_name t b n.
Proof.
  intros Hn Hg H. unfold find_name, missing. rewrite Hn, Hg. set (d := match assoc _ _ with Some (Some d) => d | _ => _ end).
  by rewrite (proj1 (H d)), (proj2 (H d)).
Qed.
Lemma find_name_put t b n d i : assoc (b, n) (f_names t) = Some (Some d) → info_of t d = i →
  is_up d = is_up b → de_name i = n → de_parent i = b → find_name t b n = inr d.
Proof.
  intros Ha Hi Hu Hn Hp. unfold find_name. rewrite Ha, Hi, Hu, Hn, Hp. by rewrite Bool.eqb_reflx, str_eqb_refl, Z.eqb_refl.
Qed.
Lemma whiteout_same_side i d : own_inode d (de_inode i) = de_inode i → plain_whiteout i → plain_whiteout (same_side i d).
Proof. intros E. apply plain_whiteout_eq. cbn. by rewrite E. Qed.
Lemma renamed_at od o nd n flags t (r := renamed od o nd n flags t) :
  o ≠ n → find_name t od (de_name (info_of t o)) = inr o → find_name t nd (de_name (info_of t n)) = inr n →
  is_up od = is_up nd → missing (bump t) od (de_name (info_of t o)) ≠ o →
  assoc (nd, de_name (info_of t n)) (f_names r) = Some (Some o) ∧
  info_of r o = moved (info_of t o) (de_name (info_of t n)) nd.
Proof.
  intros Hne Ho Hn Hside Hwh.
  assert (Hk : (od, de_name (info_of t o)) ≠ (nd, de_name (info_of t n))).
  { intros [H1 H2]%pair_equal_spec. rewrite H1, H2, Hn in Ho. congruence. }
  assert (Hm : same_side (moved (info_of t o) (de_name (info_of t n)) nd) o = moved (info_of t o) (de_name (info_of t n)) nd).
  { apply same_side_id; [|apply info_of_own]. cbn. apply find_name_inr in Ho as [Ho _]. congruence. }
  assert (Hd : ∀ d i u, d ≠ o → info_of (put_dentry d i u) o = info_of u o) by (intros; by rewrite info_of_put_ne).
  assert (Hp : ∀ b m x u, info_of (put_name b m x u) o = info_of u o) by done.
  unfold r, renamed. destruct (negb _); [|destruct (negb _)]; cbv zeta; rewrite !Hp, !Hd, ?Hp by done;
    rewrite info_of_put, Hm; (split; [|done]); cbn; rewrite decide_False by done; by rewrite decide_True by done.
Qed.

Lemma whiteout_linked i n p : plain_whiteout i → plain_whiteout (linked (moved i n p) (de_inode i) (de_kind i)).
Proof.
  intros (H1 & H2 & H3). unfold plain_whiteout, ovl_is_whiteout, ovl_dentry_weird, d_can_lookup, d_is_file, d_is_reg, d_is_symlink in *.
  cbn. by destruct (de_inode i) as [[]|].
Qed.
Lemma own_linked d e i n p k : is_up d = is_up e → own_inode d (de_inode i) = de_inode i →
  own_inode e (de_inode (linked (moved i n p) (de_inode i) k)) = de_inode (linked (moved i n p) (de_inode i) k).
Proof.
  intros E. cbn. destruct (de_inode i) as [a|]; [|done]. cbn. rewrite E. by destruct (Bool.eqb _ _).
Qed.
#[local] Instance fsys_names : NameLaws fsys_vfs fsys_write.
Proof.
  assert (Hput : ∀ w d i b n, de_name i = de_name (info_of w d) → de_parent i = de_parent (info_of w d) →
    find_name (put_dentry d i w) b n = find_name w b n).
  { intros. apply find_name_place; [done..|]. intros y. by apply info_of_put_place. }
  split; cbn; try done.
  - intros w b n d H. apply find_name_inr in H as (_ & H). exact H.
  - intros w od o nd n flags Hne. destruct (_ && negb (_ =? _)) eqn:E; [|done]. intros _. cbn [snd].
    apply andb_true_iff in E as [[[[_ E1]%andb_true_iff E2]%andb_true_iff E3]%andb_true_iff E4].
    unfold found_at in E1, E2. destruct (find_name w od _) as [|x] eqn:Ho; [done|]. apply Z.eqb_eq in E1 as ->.
    destruct (find_name w nd _) as [|x] eqn:Hn; [done|]. apply Z.eqb_eq in E2 as ->.
    apply eqb_prop in E3. apply negb_true_iff, Z.eqb_neq in E4.
    destruct (renamed_at od o nd n flags w) as [Ha Hi]; [done..|].
    split; [|by rewrite Hi]. apply (find_name_put _ _ _ _ _ Ha Hi); [|done..].
    apply find_name_inr in Ho as [-> _]. done.
  - intros w x. destruct (busy x); [done|]. intros _. cbn [negb snd]. apply plain_whiteout_eq with (i := positive x S_IFCHR 0 [] 0); [|done].
    change (info_of (create_in ?d x ?f ?p ?r w) x) with (info_of (put_dentry x (positive x f r (de_name (info_of w x)) d) w) x).
    rewrite info_of_put. cbn. by rewrite Bool.eqb_reflx.
  - intros w x y. destruct (busy x); [by split|]. cbn [negb snd]. change (info_of (create_in ?d x ?f ?p ?r w) y) with (info_of (put_dentry x (positive x f r (de_name (info_of w x)) d) w) y).
    by apply info_of_put_place.
  - intros w old new H. destruct (_ && _) eqn:Ea; [|exact H]. apply andb_true_iff in Ea as [_ Es%eqb_prop]. cbn [fst snd Z.eqb]. set (i := info_of w old).
    set (t := put_dentry new _ w). change (info_of (put_name _ _ _ (put_dentry old ?j t)) new) with (info_of (put_dentry old j t) new).
    assert (Hl : ∀ n p d, is_up d = is_up old → plain_whiteout (same_side (linked (moved i n p) (de_inode i) (de_kind i)) d)).
    { intros n p d Hd. apply whiteout_same_side; [|by apply whiteout_linked]. apply (own_linked old); [by symmetry|apply info_of_own]. }
    destruct (decide (new = old)) as [->|Hne]; [|by rewrite info_of_put_ne; [unfold t; rewrite info_of_put; apply Hl|]].
    rewrite info_of_put. eapply plain_whiteout_eq; [|apply (Hl [] 0 old eq_refl)]. done.
  - intros w old new y. destruct (_ && _); [|by split]. cbn [snd]. set (i := info_of w old). set (t := put_dentry new _ w).
    change (info_of (put_name _ _ _ ?u) y) with (info_of u y).
    assert (Ht : ∀ z, de_name (info_of t z) = de_name (info_of w z) ∧ de_parent (info_of t z) = de_parent (info_of w z)).
    { intros z. by apply info_of_put_place. }
    destruct (info_of_put_place old (linked i (de_inode i) (de_kind i)) t y) as [-> ->]; [symmetry; apply Ht..|apply Ht].
  - intros w d x b n _. destruct (busy x); [done|]. by apply Hput.
  - intros w d x b n _. destruct (busy x); [done|]. by apply Hput.
  - intros w d x y Hy H. destruct (busy x); [done|]. cbn [negb snd]. by rewrite info_of_put_ne.
  - intros w d x y Hy H. destruct (busy x); [done|]. cbn [negb snd]. by rewrite info_of_put_ne.
Qed.

(** The file of the sample is removed after its directory was copied up. *)
Definition motd_state : wstate fsys := snd (ovl_copy_up 101 sample_wstate).
Definition no_motd_state : wstate fsys := snd (ovl_unlink 102 motd_state).
Lemma unlinked_name_is_gone_witness :
  ovl_unlink 102 motd_state = (inr 0, no_motd_state) ∧
  ∃ r, lookup_real 101 (lit "motd") (ws_ovl no_motd_state) = (inr r, ws_ovl no_motd_state) ∧ nothing_found r.
Proof.
  assert (H : ovl_unlink 102 motd_state = (inr 0, no_motd_state)) by (vm_compute; reflexivity).
  split; [exact H|].
  apply (unlinked_name_is_gone 102 motd_state no_motd_state H); [vm_compute; reflexivity..|].
  assert (Hk : ws_whiteout motd_state = None) by (vm_compute; reflexivity). intros d. by rewrite Hk.
Defined.
